(* ===== verification/_CoqProject ===== *)
-Q . S2P
Prelude.v
PyString.v
Json.v
JsonDelta.v
HistoryRetention.v
DesignModels.v
DefinitionAnalysis.v
DesignValidation.v
TypeOrder.v
ValidationSpec.v
DeletionImpact.v
DeletionGraph.v
HistorySummary.v
DesignDocument.v
CanonicalText.v
DesignStore.v
DesignStoreInv.v
DesignStoreSpec.v
DesignStoreReach.v
MigrationModels.v
MigrationStore.v
MigrationSpec.v
MigrationReach.v
MigrationTheorems.v
TypeChanges.v
CheckExpressions.v
DesignMerge.v
MergeProps.v
MergeTheorems.v
DesignDecode.v
Reconcile.v
ReconcileProps.v
SqlText.v
PlanAnalysis.v
MigrationPlanner.v
PlannerProps.v
PlannerSafety.v
PlannerTheorems.v
Conversions.v
ConversionProps.v
MigrationReview.v
ReviewTheorems.v
ReviewExamples.v
DesignExport.v
SchemaSource.v
CatalogModels.v
CatalogImport.v
ImportProps.v
ImportTheorems.v
ImportExamples.v
MigrationTarget.v
MigrationExecution.v
ExecutionInv.v
TargetProps.v
ExecutionProps.v
ExecutionTheorems.v
ExecutionExamples.v
WorkspaceStore.v
WorkspaceRoutes.v
WorkspaceProps.v
WorkspaceTheorems.v
WorkspaceOpen.v
WorkspaceExamples.v
ConsoleStore.v
ConsoleProps.v
ConsoleTheorems.v
ConsoleSession.v
ConsoleResults.v
ConsoleReaders.v
ConsoleReadersSteps.v
ConsoleReadersTheorems.v
ConsoleExamples.v
ConsoleStatements.v
ConsoleService.v
ConsoleServiceProps.v
ConsoleServiceTheorems.v
ConnectionSlots.v
ConnectionSlotsProps.v
ConsolePrepare.v
ConsoleLibrary.v
