(* ===== verification/Prelude.v ===== *)
(** * Schemii: a verification development

    Schemii is a workbench for designing PostgreSQL schemas.  Its server (Python,
    under [src/src/schemii/]) keeps, per owner and workspace, a versioned design
    document with a layout and an undo history, checks every replacement of the
    document, previews deletions and undo in the browser, and applies designs to a
    database by reviewed, single-use migration plans run by leased workers.  This
    library models that core and proves what its callers rely on.

    ** The program and its model

    Paths are relative to [src/src/schemii/].

    - [Prelude]: results and state-passing methods, dictionaries as lists of items in
      insertion order ([dget], [dset]), tactics and hints, generic lemmas.
    - [PyString]: Python's operations on texts ([strip], [split], [join], [lower],
      [len]) over UTF-8.
    - [Json]: JSON values with Python's equality.
    - [JsonDelta]: [common/json_delta.py] ([json_delta], [_append_delta],
      [_append_identified_list_delta]) and the browser's
      [common/web/assets/json-delta.js] ([applyJsonDelta]).
    - [HistoryRetention]: [schemii/designs/history_retention.py]: targets of undo and
      redo, the undo boundary and pruning, over a [HistoryEntry] interface.
    - [DesignModels]: the records of [schemii/designs/models.py] with the checks of
      their fields.
    - [DefinitionAnalysis]: [common/postgres/type_analysis.py],
      [routine_analysis.py], [trigger_analysis.py], [parse_query_definition], and
      the model validators that derive metadata from SQL definitions.
    - [DesignValidation]: [validate_design_content] and
      [design_types_in_dependency_order] of [schemii/designs/store.py];
      [TypeOrder] and [ValidationSpec] prove them correct.
    - [DeletionImpact]: [schemii/designs/deletion_impact.py] (inventory, deletion
      preview, transition check); [DeletionGraph] proves it correct.
    - [HistorySummary]: [schemii/designs/history.py] ([design_change_summary]).
    - [DesignDocument]: serialisation, canonical text and fingerprint of
      [schemii/designs/store.py]; [CanonicalText] proves the text faithful.
    - [DesignStore]: [InMemoryDesignRepository] of [schemii/designs/store.py], its
      state the record [DesignRepo], each method a definition of the same name;
      [DesignStoreInv], [DesignStoreSpec] and [DesignStoreReach] hold its invariant,
      the behaviour of each method and the theorems over runs.
    - [MigrationModels]: the records and the status machine of
      [schemii/migrations/models.py] and [repository.py].
    - [MigrationStore]: [InMemoryMigrationRepository] of
      [schemii/migrations/repository.py], its state the record [MigrationRepo];
      [MigrationSpec], [MigrationReach] and [MigrationTheorems] prove it correct.
    - [TypeChanges]: [schemii/migrations/type_changes.py].
    - [CheckExpressions]: [schemii/migrations/checks.py], comparison of CHECK
      expressions.
    - [DesignMerge]: [_Merger] of [schemii/migrations/planner.py], the three-way merge
      of design documents; [MergeProps] and [MergeTheorems] prove it correct.
    - [DesignDecode]: reading a design back from its document, as
      [SchemiiDesignContent.model_validate] does.
    - [Reconcile]: alignment of imported IDs and [reconcile_designs] of [planner.py];
      [ReconcileProps] holds its properties and the round trip of documents.
    - [SqlText], [PlanAnalysis], [MigrationPlanner]: the text builders, the comparisons
      and the passes of [compile_migration_steps] of [planner.py]; [PlannerProps],
      [PlannerSafety] and [PlannerTheorems] prove plans correct.
    - [Conversions]: [schemii/migrations/conversions.py]; [ConversionProps] proves that
      a conversion stays confined.
    - [MigrationReview]: [create_plan], [get_plan], [analyze_column_type] and
      [resolve_drift] of [schemii/migrations/service.py], and the check [on_intended]
      of [execution.py] ([accept_result]); [ReviewTheorems] and [ReviewExamples].
    - [DesignExport]: [schemii/designs/export.py].
    - [SchemaSource], [CatalogModels]: [common/postgres/schema_source.py] and
      [common/postgres/models.py], the catalog a live schema is inspected as, with its
      validators and its fingerprint.
    - [CatalogImport]: [schemii/designs/importer.py] ([import_postgres_catalog]), one
      definition per kind of object; [ImportProps], [ImportTheorems] and [ImportExamples]
      prove imports correct.
    - [MigrationTarget]: [execute_migration] and [transaction_status] of
      [common/postgres/gateway.py] over a session of a target database, and the errors
      of [common/postgres/errors.py].
    - [MigrationExecution]: [MigrationExecutionCoordinator] of
      [schemii/migrations/execution.py] and [run_once] of [worker.py]; [ExecutionInv],
      [TargetProps], [ExecutionProps], [ExecutionTheorems] and [ExecutionExamples]
      prove it correct.
    - [WorkspaceStore]: [schemii/workspaces/models.py] and
      [InMemoryWorkspaceRepository] of [schemii/workspaces/store.py], its state the
      record [WorkspaceRepo] beside the two other repositories.
    - [WorkspaceRoutes]: the handlers of [schemii/workspaces/routes.py], the API
      problems of [common/api/postgres.py] and [_create_import_workspace] of
      [schemii/migrations/service.py]; [WorkspaceProps], [WorkspaceTheorems],
      [WorkspaceOpen] and [WorkspaceExamples] prove store and routes correct.
    - [ConsoleStore]: the models of [common/postgres/console/models.py] and
      [schemii/console/models.py] and [InMemoryConsoleRepository] of
      [schemii/console/repository.py], its state the record [ConsoleRepo]; [ConsoleProps]
      and [ConsoleTheorems] hold its invariant and the theorems over runs.
    - [ConsoleSession]: [PsycopgConsoleReadSession] of [common/postgres/console/gateway.py],
      pages and exports read from forward-only cursors.
    - [ConsoleResults]: the registry of retained results and read sessions of
      [ConsoleService] ([schemii/console/service.py]), a definition per critical section;
      [ConsoleReaders], [ConsoleReadersSteps] and [ConsoleReadersTheorems] prove it correct
      for interleaved requests.
    - [ConsoleStatements]: [validate_read_only_statements] and
      [validate_transaction_statements] of [common/postgres/console/execution.py].
    - [ConsolePrepare]: [execute_console_statements] and the opening of read sessions of
      [common/postgres/console/gateway.py].
    - [ConsoleService]: the handlers of [ConsoleService] for settings, managed reads,
      explicit transactions, cancellation and shutdown, with [PsycopgConsoleTransaction];
      [ConsoleServiceProps] and [ConsoleServiceTheorems] relate receipts to PostgreSQL.
    - [ConsoleLibrary]: the requests and handlers of saved queries and history.
    - [ConsoleExamples]: witnesses for the repository and the results, and their defects.
    - [ConnectionSlots]: [_ConnectionCapacity], [_LeasedConnection] and [_connect] of
      [common/postgres/gateway.py]; [ConnectionSlotsProps] proves them correct.

    The parts interact as in the code.  [DesignStore.replace] calls the validator, the
    transition check, the layout and history helpers and pruning; its history view
    calls the summary and the delta.  The migration repository uses the design
    repository through the class [DesignRepositoryOps] and its theorems assume only
    [DesignRepositoryLaws], which [DesignStore] discharges ([design_store_laws]).
    A review reads the baseline, the design and the import of the live catalog,
    reconciles them, compiles conversions and steps and stores the plan in the
    migration repository; an execution accepts the produced schema by planning once
    more and finding nothing left; export and planner share the text builders.
    Opening a schema inspects it, imports the catalog and stores workspace, design and
    first baseline in the three repositories together.  A worker claims an execution,
    runs the statements of its plan in the target, keeps the intended result before it
    commits, and then brings the design and the baseline of the workspace up to date;
    after a lost connection or a crash another turn asks the target what became of the
    transaction.  A console request reserves a receipt in the console repository and is run
    in the background: a managed read opens a session whose results the registry retains
    and pages are read from; an explicit transaction keeps an object in a table until it is
    committed, rolled back or expires.  Every connection takes a slot, and the gateway asks
    the owners of retained sessions to give one back through the class [Reclaimer].

    ** Conventions

    A function that can raise returns [result E A]; a method of a repository is a
    function from a state to a state and a result, so that what a raising call leaves
    behind is visible.  Repository locks make methods atomic, and a run is a sequence
    of calls ([rtc] of a step relation).  Integers are Python's unbounded integers,
    [Z], or [nat] for positions; times are [Z].  Clocks and random IDs are arguments,
    and theorems that need an ID to be fresh say so.

    The coordinator of executions runs beside others.  Its state ([world]) is the
    migration repository and a log of what happened in the target databases (begin,
    each statement, commit, end of a session, by whom); between any two of its steps
    [interfere] may change both, and every answer of PostgreSQL, every clock reading and
    every ID is indexed by the number of steps taken, so nothing about them is fixed.
    [others_act] is the discipline both sides keep: what others do appends to the log
    under their own names, moves the repository forward and keeps its agreement with
    the log ([run_inv]).  The theorems assume it of the others and prove it of the
    coordinator, of [reconcile] and of all users of the repository.  [honest_status]
    is the one hypothesis on PostgreSQL: in a session of the recorded target,
    [pg_xact_status] says committed or aborted of a transaction only when it was.

    The console runs many requests at once.  A handler, or the part of it between two
    points where it gives up a lock or waits for PostgreSQL, is one step of a relation
    ([reader_step], [service_step], [slot_step]); requests under way are part of the state.
    What PostgreSQL answers is an argument of a step; cursors of the driver are a parameter
    with one hypothesis, that [fetchmany] gives the next rows in order.  A cancellation
    that arrives while a session is read counts as arriving before the read.

    Code outside the repository is a parameter: the classes [Pglast], [PglastTrees],
    [Sqlglot], [SqlglotTrees], [SqlglotRelations] and [Sha256] hold what is used of the
    SQL parsers and of the hash; [validation_text] is the text of a Pydantic error;
    [target_answers] holds what PostgreSQL answers during a review; [casefold] and
    [set_order] stand for Python's case folding and the iteration order of sets (any
    permutation); [claim_guard] and [guard] are the answers of installed callbacks.
    [query_sources] is the lineage a view query has, an arbitrary function here, so
    the theorems hold for every lineage analysis; likewise in reviews and executions
    [import_catalog] is an arbitrary import of catalogs, and [designs_get] the read of
    the design repository they are given.  [SchemaRendering] is the printing of routine
    and trigger statements by pglast; [target_access] holds what the connection and the
    inspection answer to a workspace route.  No hypothesis is made on the parsers or on
    the hash.

    ** Fuel

    Recursion that is not structural runs with fuel that is proved or chosen to be
    enough: the walk from the tip to the root of a history has one unit per stored
    entry and one more ([active_chain_spec] shows that it ends at the root); the
    depth-first search of types has one per type and one more
    (shown in [TypeOrder]); the deletion preview has the source's own depth limit of
    32; the merge has one unit per level of the deepest document and one more
    ([merge_unfold] is its equation without fuel); scanning of texts has one unit per byte,
    and each step consumes a byte; the loops of the console that evict sessions have one
    unit per session, one of which goes in each round, an export one per row and one more
    ([export_yields_every_row]), and reclaiming connections one per retained permit
    ([connect_accounts_for_slot]).

    ** What the theorems show

    - Designs: a replacement behaves as specified on every branch and keeps the
      repository invariant; undo and redo lead where the history view says and
      restore content and positions; pruning keeps every undo within the limit;
      histories stay bounded.  (DesignStoreSpec, DesignStoreReach, HistoryRetention)
    - Validation accepts exactly the designs of a declarative specification, and types
      are ordered base first or a real cycle is reported.  (ValidationSpec, TypeOrder)
    - Deletions: the transition check accepts exactly the changes that leave no
      dependent behind and agrees with the preview, which lists exactly the simple
      dependency paths.  (DeletionGraph)
    - Previews: a delta applied in the browser gives the target document; the summary
      is empty exactly for equal objects; the canonical text identifies the authored
      content, and a design read back from its document is the same design.
      (JsonDelta, HistorySummary, CanonicalText, ReconcileProps)
    - Definitions: derived contracts are sound and never come from the request.
      (DefinitionAnalysis)
    - Migrations: executions follow the status machine, only for confirmed plans, once
      per plan and one at a time per workspace; a live lease excludes other workers
      and no work is lost; baselines form chains; accepted type changes keep every
      stored value.  (MigrationTheorems, TypeChanges)
    - Reconciliation: when one side changed, the merge is free of conflicts exactly when
      that side kept the objects of the baseline, and external changes end up in the
      result; resolutions settle the conflicts they name; without drift the result is
      the design.  (MergeTheorems, ReconcileProps)
    - Plans: a plan is empty exactly when the schemas agree, its steps run in phase
      order, every loss is announced by a destructive step, and planning between valid
      designs fails only on reports that exceed a limit.  Names and literals are read
      back exactly from the SQL text.  (PlannerTheorems, SqlText)
    - Conversions read only their column and use only built-in scalar operations, and
      the preview runs the applied expression.  (ConversionProps)
    - Reviews: a stored plan that can be applied has no conflict or blocker; it
      reviews the current design, baseline and catalog; a workspace in step with
      PostgreSQL has a clean review; a resolved drift leaves the merged design over the
      live schema as baseline; an accepted result has the reviewed schema.  (ReviewTheorems)
    - Exports of valid designs do not fail and create every object once, types after
      their bases and relationships after their tables.  (DesignExport)
    - Executions: coordinators, recovery calls and users of the repository tolerate each
      other in every interleaving; a recorded outcome is what happened in the target, a
      commit is complete, accepted and kept; synchronisation overwrites no edited design.
      (ExecutionTheorems)
    - Imports: a complete import mirrors its catalog, no import drops or invents an
      object silently, and what it returns is a valid, placed design.  (ImportTheorems)
    - Workspaces: every owner stays within the limits with one workspace per target;
      changes need the current revision; an import is stored as a whole or not at all;
      opening a schema gives its one workspace, in step with the inspected catalog; what
      is shown of a live catalog can be saved.  (WorkspaceTheorems, WorkspaceOpen)
    - Console receipts: one active execution per workspace or editor, statuses along legal
      transitions, receipts and transactions that refer to each other; a receipt of an
      explicit transaction never claims an outcome PostgreSQL did not reach, and is complete
      when the storage answers; saved queries stay valid, distinct and within their limit.
      (ConsoleTheorems, ConsoleServiceTheorems, ConsoleLibrary)
    - Console results: sessions stay within their limits and none is closed while it is
      read; pages and exports hand out every row once, in order; room is made for a read or
      all sessions are in use; an opened session is ready from its start.
      (ConsoleReadersTheorems, ConsolePrepare)
    - Console scripts: what is accepted for reading only reads, what is accepted inside a
      transaction stays inside; an error names the statement that failed.
      (ConsoleStatements, ConsolePrepare)
    - Connection slots: the counters are exact and bounded under every interleaving,
      retained sessions leave a slot to ordinary work, and connecting ends with one slot
      held or none.  (ConnectionSlotsProps)
    - Defects the model exposes: undo with a small configured limit skips pruned
      states; long routine signatures break summaries and plans; reconciling drift in
      memory is not atomic; removing an object from a design always conflicts with the
      live schema; an invalid combination of designs escapes as an exception; drops in
      a renamed table run before the rename but use the new name, and a review asks
      PostgreSQL about it by the new name; new types are created in order of their
      path; a plan refuses more than 100 column-order choices; reconciling a settled
      execution again restores its old baseline; a failure of the first statement is
      reported as a failed query; a foreign key to a unique index makes a schema
      impossible to open; the limit on column orders is reported under no name; a table
      without columns hides the catalog of a workspace; a commit whose receipt could not be
      stored is reported as rolled back; a failing statement of a read script is numbered
      from zero; a second export of a result is refused and closes it; a failed execution in
      memory can succeed, and pruned history in memory forgets its newest entry.

    ** What is not modelled

    The PostgreSQL repositories (the same contracts as SQL transactions on a metadata
    database), the HTTP routes of designs, migrations and the console, catalog inspection and
    every other part that is I/O around a database or a model provider; the threads and
    wake-up events of the worker; telemetry and limit events of the console, its raw
    sessions, its reads for other products and the bytes of CSV files; connections,
    accounts, bulk jobs and the assistant; the sibling applications Schemer and Schemoo;
    floating-point numbers in documents and case mapping beyond ASCII; the lineage analysis
    of view queries; the methods of the migration service that pass history moves and
    baseline resets on, and [prune_postgres_history]. *)

From Stdlib Require Export ZArith Lia.
From stdpp Require Export prelude strings sorting gmap.

#[global] Set Default Goal Selector "!".

(** ** Results: the value a Python call returns, or the exception it raises *)

Inductive result (E A : Type) : Type :=
| Ok (a : A)
| Err (e : E).
Arguments Ok {E A} a.
Arguments Err {E A} e.

Definition result_bind {E A B} (m : result E A) (k : A -> result E B) : result E B :=
  match m with Ok a => k a | Err e => Err e end.

Declare Scope result_scope.
Delimit Scope result_scope with result.
Notation "'let!' x ':=' m 'in' k" := (result_bind m (fun x => k))
  (at level 10, x pattern, m at level 100, k at level 200)
  : result_scope.
Notation "m ';;;' k" := (result_bind m (fun _ : unit => k))
  (at level 199, right associativity) : result_scope.

Definition guard_err {E} (b : bool) (e : E) : result E unit :=
  if b then Err e else Ok tt.

Fixpoint for_each {E A} (f : A -> result E unit) (l : list A) : result E unit :=
  match l with
  | [] => Ok tt
  | x :: l' => result_bind (f x) (fun _ => for_each f l')
  end.

(** [\[f(x) for x in l\]], stopping at the first exception. *)
Fixpoint result_map {E A B} (f : A -> result E B) (l : list A) : result E (list B) :=
  match l with
  | [] => Ok []
  | x :: l' => result_bind (f x) (fun y => result_bind (result_map f l') (fun ys => Ok (y :: ys)))
  end.

Lemma result_bind_Ok {E A B} (m : result E A) (k : A -> result E B) b :
  result_bind m k = Ok b <-> exists a, m = Ok a /\ k a = Ok b.
Proof. destruct m; simpl; naive_solver. Qed.

Lemma guard_err_Ok {E} b (e : E) u : guard_err b e = Ok u <-> b = false.
Proof. destruct b, u; simpl; naive_solver. Qed.

Lemma for_each_Ok {E A} (f : A -> result E unit) l u :
  for_each f l = Ok u <-> Forall (fun x => f x = Ok tt) l.
Proof.
  destruct u. induction l as [|x l IH]; simpl.
  - split; [constructor|done].
  - rewrite result_bind_Ok, Forall_cons. split.
    + intros ([] & ? & ?). naive_solver.
    + intros [? ?]. exists tt. naive_solver.
Qed.

Lemma result_map_Ok {E A B} (f : A -> result E B) l ys :
  result_map f l = Ok ys <-> Forall2 (fun x y => f x = Ok y) l ys.
Proof.
  revert ys. induction l as [|x l IH]; intros ys; simpl.
  - split; [by intros [= <-]|by inversion 1].
  - rewrite result_bind_Ok. setoid_rewrite result_bind_Ok. split.
    + intros (y & Hy & ys' & Hys & [= <-]). constructor; [done|by apply IH].
    + inversion 1; subst. eexists. split; [done|]. eexists. split; [by apply IH|done].
Qed.

Lemma result_map_total {E A B} (f : A -> result E B) l :
  Forall (fun x => exists y, f x = Ok y) l -> exists ys, result_map f l = Ok ys.
Proof.
  induction 1 as [|x l [y Hy] _ [ys IH]]; simpl; [eauto|]. rewrite Hy, IH. simpl. eauto.
Qed.

Lemma fold_result_map_ok {E A B} (f : A -> result E B) l ys x :
  result_map f l = Ok ys -> x ∈ l -> exists y, y ∈ ys /\ f x = Ok y.
Proof.
  rewrite result_map_Ok. intros Hf [i Hi]%list_elem_of_lookup.
  destruct (Forall2_lookup_l _ _ _ _ _ Hf Hi) as (y & Hy & ?). exists y. split; [|done].
  by eapply list_elem_of_lookup_2.
Qed.

(** Unwinds a successful sequence of guards and binds in the hypotheses. *)
Ltac result_inv :=
  repeat match goal with
  | H : result_bind _ _ = Ok _ |- _ => apply result_bind_Ok in H; destruct H as (? & ? & ?)
  | H : guard_err _ _ = Ok _ |- _ => apply guard_err_Ok in H
  | H : Err _ = Ok _ |- _ => discriminate H
  | H : Ok _ = Ok _ |- _ => injection H as H; subst
  end.

(** ** Methods that update a shared state and may raise

    An exception keeps the updates made before it, as in Python. *)

Definition method (S E A : Type) : Type := S -> S * result E A.

Section methods.
Context {S E : Type}.

Definition m_return {A} (a : A) : method S E A := fun s => (s, Ok a).
Definition m_raise {A} (e : E) : method S E A := fun s => (s, Err e).
Definition m_bind {A B} (m : method S E A) (k : A -> method S E B) : method S E B :=
  fun s => match m s with (s', Ok a) => k a s' | (s', Err e) => (s', Err e) end.
Definition m_get : method S E S := fun s => (s, Ok s).
Definition m_update (f : S -> S) : method S E unit := fun s => (f s, Ok tt).
Definition m_lift {A} (r : result E A) : method S E A := fun s => (s, r).
Definition m_guard (b : bool) (e : E) : method S E unit := m_lift (guard_err b e).
End methods.

Declare Scope method_scope.
Delimit Scope method_scope with method.
Notation "'let*' x ':=' m 'in' k" := (m_bind m (fun x => k))
  (at level 10, x pattern, m at level 100, k at level 200) : method_scope.
Notation "m ';;*' k" := (m_bind m (fun _ : unit => k))
  (at level 199, right associativity) : method_scope.

(** ** Lists *)

Lemma fmap_concat {A B} (f : A -> B) (ls : list (list A)) :
  f <$> concat ls = concat ((fun l : list A => f <$> l) <$> ls).
Proof. induction ls as [|l ls IH]; csimpl; [done|]. by rewrite fmap_app, IH. Qed.

Lemma Forall_filter_2 {A} (P Q : A -> Prop) `{forall x, Decision (Q x)} l :
  Forall P l -> Forall P (filter Q l).
Proof. rewrite !Forall_forall. intros Hl x [_ Hx]%list_elem_of_filter. auto. Qed.

Lemma Forall_submseteq {A} (P : A -> Prop) (l k : list A) : l ⊆+ k -> Forall P k -> Forall P l.
Proof. rewrite !Forall_forall. intros Hl Hk x Hx. eapply Hk, elem_of_submseteq; eauto. Qed.

Lemma NoDup_submseteq_fmap {A B} (f : A -> B) (l k : list A) :
  l ⊆+ k -> NoDup (f <$> k) -> NoDup (f <$> l).
Proof.
  intros [k' Hk]%submseteq_Permutation. rewrite Hk, fmap_app. by intros [? _]%NoDup_app.
Qed.

Lemma NoDup_sub {A} (l k : list A) : l ⊆+ k -> NoDup k -> NoDup l.
Proof. intros [r ->]%submseteq_Permutation. by intros [? _]%NoDup_app. Qed.

Lemma filter_all {A} (P : A -> Prop) `{forall x, Decision (P x)} l : Forall P l -> filter P l = l.
Proof. induction 1; [done|]. rewrite filter_cons_True by done. by f_equal. Qed.

Lemma existsb_false_Forall {A} (f : A -> bool) l :
  existsb f l = false <-> Forall (fun x => f x = false) l.
Proof.
  induction l as [|x l IH]; simpl; [split; [constructor|done]|].
  rewrite orb_false_iff, Forall_cons, IH. done.
Qed.

Lemma filter_nil_iff {A} (P : A -> Prop) `{forall x, Decision (P x)} l :
  filter P l = [] <-> Forall (fun x => ~ P x) l.
Proof.
  induction l as [|x l IH]; [done|]. rewrite Forall_cons. destruct (decide (P x)).
  - rewrite filter_cons_True by done. naive_solver.
  - rewrite filter_cons_False by done. naive_solver.
Qed.

Lemma NoDup_fmap_elem_eq {A B} (f : A -> B) (l : list A) v w :
  NoDup (f <$> l) -> v ∈ l -> w ∈ l -> f v = f w -> v = w.
Proof.
  induction l as [|x l IH]; [set_solver|]. csimpl. intros [Hx Hl]%NoDup_cons Hv Hw Heq.
  apply elem_of_cons in Hv as [->|Hv]; apply elem_of_cons in Hw as [->|Hw]; [done| | |by apply IH].
  - destruct Hx. rewrite Heq. by apply list_elem_of_fmap_2.
  - destruct Hx. rewrite <-Heq. by apply list_elem_of_fmap_2.
Qed.

Lemma concat_fmap_Permutation {A B} (f : A -> list B) (l k : list A) :
  l ≡ₚ k -> concat (f <$> l) ≡ₚ concat (f <$> k).
Proof.
  induction 1; csimpl; [done|by apply Permutation_app_head| |by etransitivity].
  by rewrite !app_assoc, (Permutation_app_comm (f y)).
Qed.

Lemma omap_nil {A B} (f : A -> option B) l : (forall x, x ∈ l -> f x = None) -> omap f l = [].
Proof.
  induction l as [|x l IH]; intros Hf; [done|]. simpl. rewrite Hf by left. apply IH. intros. apply Hf. by right.
Qed.

Lemma delete_app_length {A} (l k : list A) i : delete (length l + i) (l ++ k) = l ++ delete i k.
Proof. by induction l; simpl; f_equal. Qed.

Lemma last_drop_lt {A} (l : list A) i : i < length l -> last (drop i l) = last l.
Proof. intros. rewrite !last_lookup, lookup_drop, length_drop. f_equal. lia. Qed.

(** [list(dict.fromkeys(l))]: the first occurrences, in order. *)
Definition fromkeys_step {A} `{EqDecision A} (acc : list A) (x : A) : list A :=
  if decide (x ∈ acc) then acc else acc ++ [x].
Definition dict_fromkeys {A} `{EqDecision A} (l : list A) : list A := foldl fromkeys_step [] l.

Section dict_fromkeys.
Context {A : Type} `{EqDecision A}.
Implicit Types (l acc k : list A) (x : A).

Lemma fromkeys_step_elem l acc x : x ∈ foldl fromkeys_step acc l <-> x ∈ acc \/ x ∈ l.
Proof.
  revert acc. induction l as [|y l IH]; intros acc; simpl; [set_solver|].
  rewrite IH. unfold fromkeys_step. case_decide; set_solver.
Qed.

Lemma fromkeys_step_NoDup l acc : NoDup acc -> NoDup (foldl fromkeys_step acc l).
Proof.
  revert acc. induction l as [|y l IH]; intros acc Hacc; simpl; [done|].
  apply IH. unfold fromkeys_step. case_decide; [done|].
  apply NoDup_app. split_and!; [done|set_solver|apply NoDup_singleton].
Qed.

Lemma elem_of_dict_fromkeys l (x : A) : x ∈ dict_fromkeys l <-> x ∈ l.
Proof. unfold dict_fromkeys. rewrite fromkeys_step_elem. set_solver. Qed.

Lemma NoDup_dict_fromkeys (l : list A) : NoDup (dict_fromkeys l).
Proof. apply fromkeys_step_NoDup, NoDup_nil_2. Qed.

Lemma dict_fromkeys_prefix (l k : list A) : exists r, dict_fromkeys (l ++ k) = dict_fromkeys l ++ r.
Proof.
  unfold dict_fromkeys. rewrite foldl_app. generalize (foldl fromkeys_step [] l) as acc.
  induction k as [|y k IH]; intros acc; simpl; [exists []; by rewrite app_nil_r|].
  destruct (IH (fromkeys_step acc y)) as [r Hr]. rewrite Hr. unfold fromkeys_step. case_decide; [by eexists|].
  rewrite <-app_assoc. by eexists.
Qed.
End dict_fromkeys.

(** ** Insertion-ordered dictionaries (Python [dict])

    [dset] keeps the position of an existing key and appends a new one, as
    [d[k] = v] does; [dpop] is [d.pop(k, None)]. *)

Section dict.
Context {K V : Type} `{EqDecision K}.
Implicit Types (d : list (K * V)) (k : K) (v : V).

Fixpoint dget k d : option V :=
  match d with
  | [] => None
  | (k', v) :: d' => if decide (k = k') then Some v else dget k d'
  end.

Fixpoint dset k v d : list (K * V) :=
  match d with
  | [] => [(k, v)]
  | (k', v') :: d' => if decide (k = k') then (k, v) :: d' else (k', v') :: dset k v d'
  end.

Definition dpop k d : list (K * V) := filter (fun kv => kv.1 <> k) d.

Definition dkeys d : list K := d.*1.
Definition dwf d : Prop := NoDup (dkeys d).

Lemma dget_cons k k' v d :
  dget k ((k', v) :: d) = if decide (k = k') then Some v else dget k d.
Proof. done. Qed.

Lemma dget_None k d : dget k d = None <-> k ∉ dkeys d.
Proof.
  unfold dkeys. induction d as [|[k' v] d IH]; simpl.
  - split; [intros _; apply not_elem_of_nil|done].
  - case_decide as Hk; [subst; set_solver|]. rewrite IH. set_solver.
Qed.

Lemma dget_Some_key k d v : dget k d = Some v -> k ∈ dkeys d.
Proof.
  intros Hv. destruct (decide (k ∈ dkeys d)) as [|Hn]; [done|].
  apply dget_None in Hn. congruence.
Qed.

Lemma dget_is_Some k d : is_Some (dget k d) <-> k ∈ dkeys d.
Proof.
  split; [intros [v Hv]; by eapply dget_Some_key|].
  intros Hk. destruct (dget k d) eqn:E; [eauto|]. by apply dget_None in E.
Qed.

Lemma dget_Some_elem k d v : dget k d = Some v -> (k, v) ∈ d.
Proof.
  induction d as [|[k' v'] d IH]; simpl; [done|].
  case_decide as Hk; intros ?; simplify_eq; [left|right; auto].
Qed.

Lemma dget_elem_wf k d v : dwf d -> (k, v) ∈ d -> dget k d = Some v.
Proof.
  unfold dwf, dkeys. induction d as [|[k' v'] d IH]; simpl; [set_solver|].
  rewrite NoDup_cons, elem_of_cons. intros [Hn Hd] [?|Hin]; simplify_eq.
  - by rewrite decide_True.
  - rewrite decide_False; [auto|]. intros ->.
    apply Hn. by apply (list_elem_of_fmap_2' fst _ (k', v)).
Qed.

Lemma dget_dset_eq k v d : dget k (dset k v d) = Some v.
Proof.
  induction d as [|[k' v'] d IH]; simpl; [by rewrite decide_True|].
  case_decide; simpl; [by rewrite decide_True|by rewrite decide_False].
Qed.

Lemma dget_dset_ne k k' v d : k <> k' -> dget k (dset k' v d) = dget k d.
Proof.
  intros Hne. induction d as [|[k1 v1] d IH]; simpl.
  - by rewrite decide_False.
  - case_decide as H1; simpl.
    + subst. by rewrite !decide_False by done.
    + by rewrite IH.
Qed.

Lemma dget_dset k k' v d :
  dget k (dset k' v d) = if decide (k = k') then Some v else dget k d.
Proof. case_decide; [subst; apply dget_dset_eq|by apply dget_dset_ne]. Qed.

Lemma dkeys_dset_old k v d : k ∈ dkeys d -> dkeys (dset k v d) = dkeys d.
Proof.
  unfold dkeys. induction d as [|[k' v'] d IH]; simpl; [set_solver|].
  intros [->|Hin]%elem_of_cons; [by rewrite decide_True|].
  case_decide; csimpl; [congruence|]. by rewrite IH.
Qed.

Lemma dkeys_dset_new k v d : k ∉ dkeys d -> dkeys (dset k v d) = dkeys d ++ [k].
Proof.
  unfold dkeys. induction d as [|[k' v'] d IH]; simpl; [done|].
  intros [Hne Hin]%not_elem_of_cons. rewrite decide_False by done. csimpl. by rewrite IH.
Qed.

Lemma dset_wf k v d : dwf d -> dwf (dset k v d).
Proof.
  unfold dwf. intros Hd. destruct (decide (k ∈ dkeys d)).
  - by rewrite dkeys_dset_old.
  - rewrite dkeys_dset_new by done.
    apply NoDup_app. split_and!; [done|set_solver|apply NoDup_singleton].
Qed.

Lemma dset_dset k v v' d : dset k v (dset k v' d) = dset k v d.
Proof.
  induction d as [|[k1 v1] d IH]; simpl; [by rewrite decide_True|].
  case_decide; simpl; [by rewrite decide_True|]. rewrite decide_False by done. by rewrite IH.
Qed.

Lemma dset_id k v d : dget k d = Some v -> dset k v d = d.
Proof.
  induction d as [|[k1 v1] d IH]; simpl; [done|].
  case_decide; intros; simplify_eq; [done|]. by rewrite IH.
Qed.

Lemma dget_dpop k k' d : dget k (dpop k' d) = if decide (k = k') then None else dget k d.
Proof.
  unfold dpop. induction d as [|[k1 v1] d IH]; [by case_decide|].
  destruct (decide (k1 = k')) as [->|Hne].
  - rewrite filter_cons_False by naive_solver. rewrite IH, dget_cons. by repeat case_decide.
  - rewrite filter_cons_True by done. rewrite !dget_cons, IH.
    repeat case_decide; subst; done.
Qed.

Lemma dkeys_dpop k d : dkeys (dpop k d) = filter (fun k' => k' <> k) (dkeys d).
Proof.
  unfold dkeys, dpop. induction d as [|[k1 v1] d IH]; [done|].
  rewrite fmap_cons. destruct (decide (k1 = k)) as [->|Hne].
  - rewrite !filter_cons_False by naive_solver. done.
  - rewrite !filter_cons_True by done. by rewrite fmap_cons, IH.
Qed.

Lemma dpop_wf k d : dwf d -> dwf (dpop k d).
Proof. unfold dwf. rewrite dkeys_dpop. apply NoDup_filter. Qed.

(** Two well-formed dictionaries with the same keys have the same length. *)
Lemma dkeys_perm (d e : list (K * V)) :
  dwf d -> dwf e -> (forall k, k ∈ dkeys d <-> k ∈ dkeys e) -> dkeys d ≡ₚ dkeys e.
Proof. unfold dwf. intros. by apply NoDup_Permutation. Qed.
End dict.

Lemma dget_map {K V W} `{EqDecision K} (g : V -> W) (d : list (K * V)) k :
  dget k (map (fun kv => (kv.1, g kv.2)) d) = g <$> dget k d.
Proof. induction d as [|[k' v] d IH]; simpl; [done|]. by case_decide. Qed.

Lemma dkeys_map {K V W} (g : V -> W) (d : list (K * V)) :
  dkeys (map (fun kv => (kv.1, g kv.2)) d) = dkeys d.
Proof. unfold dkeys. induction d as [|[k' v] d IH]; csimpl; [done|]. by rewrite IH. Qed.

(** [for x in l: d[key(x)] = val(x)], and the comprehension [{key(x): x for x in l}]:
    the last item with a key wins. *)
Definition dict_fill {A K V} `{EqDecision K} (key : A -> K) (val : A -> V) (l : list A)
    (d : list (K * V)) : list (K * V) :=
  foldl (fun d x => dset (key x) (val x) d) d l.
Arguments dict_fill : simpl never.

Definition dict_by {A K} `{EqDecision K} (key : A -> K) (l : list A) : list (K * A) :=
  dict_fill key (fun x => x) l [].

Section dict_fill.
Context {A K V : Type} `{EqDecision K} (key : A -> K) (val : A -> V).
Implicit Types (l : list A) (d : list (K * V)).

Lemma dict_fill_cons x l d :
  dict_fill key val (x :: l) d = dict_fill key val l (dset (key x) (val x) d).
Proof. done. Qed.

Lemma dict_fill_wf l d : dwf d -> dwf (dict_fill key val l d).
Proof.
  revert d. induction l as [|x l IH]; intros d Hd; [done|].
  rewrite dict_fill_cons. by apply IH, dset_wf.
Qed.

Lemma dict_fill_None l d k : k ∉ key <$> l -> dget k (dict_fill key val l d) = dget k d.
Proof.
  revert d. induction l as [|x l IH]; intros d; csimpl; [done|].
  intros [Hne Hl]%not_elem_of_cons. rewrite dict_fill_cons, IH by done. by apply dget_dset_ne.
Qed.

Lemma dict_fill_Some l d k v :
  dget k (dict_fill key val l d) = Some v ->
  (exists x, x ∈ l /\ key x = k /\ val x = v) \/ ((k ∉ key <$> l) /\ dget k d = Some v).
Proof.
  revert d. induction l as [|x l IH]; intros d; [right; split; [set_solver|done]|].
  rewrite dict_fill_cons. intros [(y & ? & ? & ?)|[Hl Hd]]%IH; [left; set_solver|].
  rewrite dget_dset in Hd. case_decide; simplify_eq; [left; set_solver|right; set_solver].
Qed.

Lemma dict_fill_is_Some l d k :
  is_Some (dget k (dict_fill key val l d)) <-> (k ∈ key <$> l) \/ is_Some (dget k d).
Proof.
  revert d. induction l as [|x l IH]; intros d; [set_solver|].
  rewrite dict_fill_cons, IH, dget_dset. csimpl. rewrite elem_of_cons.
  case_decide; subst; naive_solver.
Qed.

Lemma dict_fill_elem l d x :
  NoDup (key <$> l) -> x ∈ l -> dget (key x) (dict_fill key val l d) = Some (val x).
Proof.
  revert d. induction l as [|y l IH]; intros d; csimpl; [set_solver|].
  rewrite dict_fill_cons. intros [Hy Hl]%NoDup_cons [->|Hx]%elem_of_cons; [|by apply IH].
  rewrite dict_fill_None by done. apply dget_dset_eq.
Qed.

Lemma dset_map (g : A -> V) k x (d : list (K * A)) :
  map (fun kv => (kv.1, g kv.2)) (dset k x d) = dset k (g x) (map (fun kv => (kv.1, g kv.2)) d).
Proof. induction d as [|[k' v] d IH]; simpl; [done|]. case_decide; simpl; [done|by rewrite IH]. Qed.

Lemma dict_fill_by_map l (d : list (K * A)) :
  dict_fill key val l (map (fun kv => (kv.1, val kv.2)) d) =
  map (fun kv => (kv.1, val kv.2)) (dict_fill key (fun x => x) l d).
Proof.
  revert d. induction l as [|x l IH]; intros d; [done|].
  rewrite dict_fill_cons, <-dset_map, IH. done.
Qed.

Lemma dget_dict_fill_nil l k : dget k (dict_fill key val l []) = val <$> dget k (dict_by key l).
Proof. pose proof (dict_fill_by_map l []) as Hm. simpl in Hm. by rewrite Hm, dget_map. Qed.
End dict_fill.

Section dict_by.
Context {A K : Type} `{EqDecision K} (key : A -> K).
Implicit Types (l : list A) (d : list (K * A)).

Lemma dict_by_Some l k v : dget k (dict_by key l) = Some v -> v ∈ l /\ key v = k.
Proof. intros [(x & ? & ? & ->)|[? ?]]%dict_fill_Some; done. Qed.

Lemma dict_by_is_Some l k : is_Some (dget k (dict_by key l)) <-> (k ∈ key <$> l).
Proof. unfold dict_by. rewrite dict_fill_is_Some. simpl. rewrite is_Some_alt. naive_solver. Qed.

Lemma dict_by_None l k : dget k (dict_by key l) = None <-> (k ∉ key <$> l).
Proof. rewrite <-dict_by_is_Some, eq_None_not_Some. done. Qed.

Lemma dict_by_elem l v : NoDup (key <$> l) -> v ∈ l -> dget (key v) (dict_by key l) = Some v.
Proof. intros. by apply (dict_fill_elem key (fun x => x)). Qed.

Lemma dict_by_wf l : dwf (dict_by key l).
Proof. apply dict_fill_wf, NoDup_nil_2. Qed.

Lemma dkeys_dict_by l k : k ∈ dkeys (dict_by key l) <-> (k ∈ key <$> l).
Proof. by rewrite <-dget_is_Some, dict_by_is_Some. Qed.
End dict_by.

Create HintDb dict.
#[export] Hint Resolve dset_wf dpop_wf dict_fill_wf dict_by_wf : dict.
Create Rewrite HintDb dict_rw.
#[export] Hint Rewrite @dget_dset @dget_dpop : dict_rw.
