(* ===== verification/PyString.v ===== *)
(** * Python strings

    Python strings are modelled by their UTF-8 encodings.  Byte order of UTF-8
    texts is code-point order, so [String.le] is the order of [sorted]; tests
    for ASCII substrings are the same on characters and on bytes; [py_len] counts
    characters, [String.length] the bytes of [value.encode("utf-8")].  Letter case
    is folded on the ASCII letters only. *)

From stdpp Require Import pretty.
From Stdlib Require Import Ascii String.
From S2P Require Import Prelude.
Open Scope string_scope.

Definition byte_of (c : ascii) : N := N_of_ascii c.

(** [len(s)]: bytes that do not continue a character. *)
Fixpoint py_len (s : string) : nat :=
  match s with
  | EmptyString => 0
  | String c s' =>
      (if bool_decide (128 <= byte_of c < 192)%N then 0 else 1) + py_len s'
  end.

(** [needle in s]. *)
Fixpoint str_contains (needle s : string) : bool :=
  String.prefix needle s ||
  match s with
  | EmptyString => false
  | String _ s' => str_contains needle s'
  end.

(** The text after one leading whitespace character, as [str.isspace] counts
    them: ASCII, then the two-byte and three-byte UTF-8 encodings. *)
Definition drop_space (s : string) : option string :=
  match s with
  | EmptyString => None
  | String a s1 =>
      let x := byte_of a in
      if bool_decide ((9 <= x <= 13) \/ (28 <= x <= 32))%N then Some s1 else
      match s1 with
      | EmptyString => None
      | String b s2 =>
          let y := byte_of b in
          if bool_decide (x = 194 /\ (y = 133 \/ y = 160))%N then Some s2 else
          match s2 with
          | EmptyString => None
          | String c s3 =>
              let z := byte_of c in
              if bool_decide ((x = 225 /\ y = 154 /\ z = 128) \/
                              (x = 226 /\ y = 128 /\ ((128 <= z <= 138) \/ z = 168 \/ z = 169 \/ z = 175)) \/
                              (x = 226 /\ y = 129 /\ z = 159) \/
                              (x = 227 /\ y = 128 /\ z = 128))%N
              then Some s3 else None
          end
      end
  end.

(** [s.lstrip()]; every round removes at least one byte, so the length of the
    text bounds the number of rounds. *)
Fixpoint lstrip_fuel (fuel : nat) (s : string) : string :=
  match fuel with
  | 0 => s
  | S fuel' => match drop_space s with Some s' => lstrip_fuel fuel' s' | None => s end
  end.

Definition py_lstrip (s : string) : string := lstrip_fuel (String.length s) s.

(** [not s.strip()]. *)
Definition is_blank (s : string) : bool := bool_decide (py_lstrip s = "").

(** [s.rstrip()]: a suffix is dropped as soon as all of it is whitespace.  No
    UTF-8 continuation byte starts a whitespace character, so a cut never falls
    inside a character. *)
Fixpoint py_rstrip (s : string) : string :=
  match s with
  | EmptyString => EmptyString
  | String c s' => if is_blank s then EmptyString else String c (py_rstrip s')
  end.

(** [s.strip()]. *)
Definition py_strip (s : string) : string := py_rstrip (py_lstrip s).

(** [s.rstrip(c)] for one ASCII character. *)
Fixpoint py_rstrip_char (c : ascii) (s : string) : string :=
  match s with
  | EmptyString => EmptyString
  | String a s' =>
      match py_rstrip_char c s' with
      | EmptyString => if bool_decide (a = c) then EmptyString else String a EmptyString
      | r => String a r
      end
  end.

(** The text after its first [n] bytes. *)
Definition str_drop (n : nat) (s : string) : string :=
  String.substring n (String.length s - n) s.

(** [s.removeprefix(p)]. *)
Definition py_removeprefix (p s : string) : string :=
  if String.prefix p s then str_drop (String.length p) s else s.

(** [s.replace(old, new, 1)] for a non-empty [old]. *)
Fixpoint py_replace_first (old new s : string) : string :=
  if String.prefix old s then new ++ str_drop (String.length old) s
  else match s with
       | EmptyString => EmptyString
       | String c s' => String c (py_replace_first old new s')
       end.

(** [s.replace(c, new)] for one character. *)
Fixpoint py_replace_char (c : ascii) (new s : string) : string :=
  match s with
  | EmptyString => EmptyString
  | String a s' => ((if bool_decide (a = c) then new else String a "") ++ py_replace_char c new s')
  end.

(** The texts of one line break and of one quotation mark. *)
Definition newline_text : string := String (ascii_of_nat 10) "".
Definition quote_char : ascii := ascii_of_nat 34.

(** The one-character text ["\x00"]. *)
Definition nul_text : string := String (ascii_of_nat 0) "".

Definition lower_ascii (c : ascii) : ascii :=
  if bool_decide (65 <= byte_of c <= 90)%N then ascii_of_N (byte_of c + 32) else c.

(** [s.lower()]. *)
Fixpoint py_lower (s : string) : string :=
  match s with
  | EmptyString => EmptyString
  | String c s' => String (lower_ascii c) (py_lower s')
  end.

(** [s.split(sep)] for a one-character separator. *)
Fixpoint py_split (sep : ascii) (s : string) : list string :=
  match s with
  | EmptyString => [""]
  | String c s' =>
      if bool_decide (c = sep) then "" :: py_split sep s'
      else match py_split sep s' with
           | w :: ws => String c w :: ws
           | [] => [String c ""]
           end
  end.

(** [sep.join(parts)]. *)
Fixpoint py_join (sep : string) (parts : list string) : string :=
  match parts with
  | [] => ""
  | [w] => w
  | w :: ws => w ++ sep ++ py_join sep ws
  end.

(** ** Facts *)

Lemma drop_space_shorter s s' : drop_space s = Some s' -> String.length s' < String.length s.
Proof.
  destruct s as [|a [|b [|c s]]]; cbn; repeat case_bool_decide; intros ?; simplify_eq/=; lia.
Qed.

(** Stripping removes every leading whitespace character. *)
Lemma lstrip_fuel_stripped fuel s :
  String.length s <= fuel -> drop_space (lstrip_fuel fuel s) = None.
Proof.
  revert s. induction fuel as [|fuel IH]; intros s Hs; simpl.
  - destruct s; simpl in *; [done|lia].
  - destruct (drop_space s) as [s'|] eqn:E; [|done].
    apply IH. apply drop_space_shorter in E. lia.
Qed.

Lemma py_split_nonempty sep s : py_split sep s <> [].
Proof. destruct s; simpl; [done|]. case_bool_decide; [done|]. by destruct (py_split sep s). Qed.

(** Splitting at a separator and joining with it gives the text back. *)
Lemma py_join_split sep s : py_join (String sep "") (py_split sep s) = s.
Proof.
  induction s as [|c s IH]; [done|]. simpl. pose proof (py_split_nonempty sep s) as Hne.
  case_bool_decide as Hc.
  - subst. destruct (py_split sep s) as [|w ws]; [done|]. simpl in *. by rewrite IH.
  - destruct (py_split sep s) as [|w ws]; [done|]. rewrite <-IH.
    destruct ws; simpl; [done|]. by destruct w.
Qed.

Lemma str_contains_cons_char sep c s :
  str_contains (String sep "") (String c s) = bool_decide (sep = c) || str_contains (String sep "") s.
Proof.
  destruct (decide (sep = c)) as [->|Hne].
  - rewrite bool_decide_eq_true_2 by done. simpl. destruct (Ascii.ascii_dec c c); [|done].
    by destruct s.
  - rewrite bool_decide_eq_false_2 by done. simpl. by destruct (Ascii.ascii_dec sep c).
Qed.

(** A text splits into one part, itself, exactly when it has no separator. *)
Lemma py_split_single sep s w :
  py_split sep s = [w] <-> w = s /\ str_contains (String sep "") s = false.
Proof.
  revert w. induction s as [|c s IH]; intros w; [simpl; naive_solver|].
  rewrite str_contains_cons_char. cbn [py_split]. pose proof (py_split_nonempty sep s) as Hne.
  destruct (decide (sep = c)) as [<-|Hn].
  - rewrite !bool_decide_eq_true_2 by done. simpl. destruct (py_split sep s); naive_solver.
  - rewrite !bool_decide_eq_false_2 by congruence. simpl.
    destruct (py_split sep s) as [|w0 [|w1 ws]]; [done| |].
    + specialize (IH w0). naive_solver.
    + split; [done|]. intros [_ Hs]. pose proof (proj2 (IH s) (conj eq_refl Hs)). congruence.
Qed.

Lemma str_app_assoc (a b c : string) : (a ++ b) ++ c = a ++ (b ++ c).
Proof. induction a as [|x a IH]; [done|]. exact (f_equal (String x) IH). Qed.

Lemma str_app_nil_l (s : string) : "" ++ s = s.
Proof. done. Qed.

(** The last byte of a text. *)
Fixpoint last_char (s : string) : option ascii :=
  match s with
  | EmptyString => None
  | String c EmptyString => Some c
  | String _ s' => last_char s'
  end.

Lemma last_char_app a b : b <> "" -> last_char (a ++ b) = last_char b.
Proof.
  intros Hb. induction a as [|c a IH]; [done|]. simpl. rewrite IH.
  destruct (a ++ b) eqn:E; [|done]. destruct a; simpl in E; [by subst|done].
Qed.

Lemma substring_all s : String.substring 0 (String.length s) s = s.
Proof. induction s as [|c s IH]; simpl; [done|]. by rewrite IH. Qed.

(** A text is its first bytes and the rest. *)
Lemma str_take_drop n s : n <= String.length s -> String.substring 0 n s ++ str_drop n s = s.
Proof.
  unfold str_drop. revert n. induction s as [|c s IH]; intros [|n] Hn; simpl in *; try done; [by rewrite substring_all|].
  change (String c (String.substring 0 n s ++ String.substring n (String.length s - n) s) = String c s).
  f_equal. apply IH. lia.
Qed.
