(* ===== verification/Json.v ===== *)
(** * JSON documents and Python equality

    The JSON-compatible values that design documents are made of, with the
    equality Python's [==] computes on them: dictionaries compare without
    regard to order, and [True]/[False] equal [1]/[0].  Floating-point numbers
    do not occur in design documents and are not represented. *)

From S2P Require Import Prelude.

Inductive json : Type :=
| JNull
| JBool (b : bool)
| JInt (z : Z)
| JStr (s : string)
| JList (l : list json)
| JDict (d : list (string * json)).

(** ** Induction over nested documents *)

Section json_ind.
Variable P : json -> Prop.
Hypothesis HNull : P JNull.
Hypothesis HBool : forall b, P (JBool b).
Hypothesis HInt : forall z, P (JInt z).
Hypothesis HStr : forall s, P (JStr s).
Hypothesis HList : forall l, Forall P l -> P (JList l).
Hypothesis HDict : forall d, Forall (fun kv => P kv.2) d -> P (JDict d).

Fixpoint json_nested_ind (v : json) : P v :=
  match v with
  | JNull => HNull
  | JBool b => HBool b
  | JInt z => HInt z
  | JStr s => HStr s
  | JList l => HList l
      ((fix go l : Forall P l :=
          match l with
          | [] => Forall_nil_2 _
          | x :: l' => Forall_cons_2 _ _ _ (json_nested_ind x) (go l')
          end) l)
  | JDict d => HDict d
      ((fix go d : Forall (fun kv => P kv.2) d :=
          match d with
          | [] => Forall_nil_2 _
          | kv :: d' => Forall_cons_2 _ _ _ (json_nested_ind kv.2) (go d')
          end) d)
  end.
End json_ind.

(** ** Python equality *)

Definition num_of (v : json) : option Z :=
  match v with
  | JBool b => Some (if b then 1 else 0)%Z
  | JInt z => Some z
  | _ => None
  end.

Fixpoint py_eq (a b : json) {struct a} : bool :=
  match a, b with
  | JNull, JNull => true
  | JStr s, JStr t => bool_decide (s = t)
  | JList l, JList m =>
      (fix go l m :=
         match l, m with
         | [], [] => true
         | x :: l', y :: m' => py_eq x y && go l' m'
         | _, _ => false
         end) l m
  | JDict d, JDict e =>
      bool_decide (length d = length e) &&
      forallb (fun kv => match dget kv.1 e with
                         | Some w => py_eq kv.2 w
                         | None => false
                         end) d
  | _, _ =>
      match num_of a, num_of b with
      | Some x, Some y => bool_decide (x = y)
      | _, _ => false
      end
  end.

(** A document as Python builds it: every dictionary has distinct keys. *)
Fixpoint json_wf (v : json) : Prop :=
  match v with
  | JList l => (fix go l := match l with [] => True | x :: l' => json_wf x /\ go l' end) l
  | JDict d =>
      dwf d /\
      (fix go d := match d with [] => True | kv :: d' => json_wf kv.2 /\ go d' end) d
  | _ => True
  end.

(** ** Characterisations *)

Lemma py_eq_list l m :
  py_eq (JList l) (JList m) = true <-> Forall2 (fun x y => py_eq x y = true) l m.
Proof.
  revert m. induction l as [|x l IH]; intros [|y m]; simpl.
  - split; [constructor|done].
  - split; [done|inversion 1].
  - split; [done|inversion 1].
  - rewrite andb_true_iff, Forall2_cons. by rewrite <-IH.
Qed.

Lemma json_wf_list l : json_wf (JList l) <-> Forall json_wf l.
Proof.
  induction l as [|x l IH]; simpl; [split; [constructor|done]|].
  rewrite Forall_cons. by rewrite <-IH.
Qed.

Lemma json_wf_dict d : json_wf (JDict d) <-> dwf d /\ Forall (fun kv => json_wf kv.2) d.
Proof.
  simpl. f_equiv. induction d as [|x d IH]; simpl; [split; [constructor|done]|].
  rewrite Forall_cons. by rewrite <-IH.
Qed.

Lemma json_wf_dget d k v : json_wf (JDict d) -> dget k d = Some v -> json_wf v.
Proof.
  rewrite json_wf_dict, Forall_forall. intros [_ Hd] Hk.
  by apply (Hd (k, v)), dget_Some_elem.
Qed.

Definition dict_eq (d e : list (string * json)) : Prop :=
  forall k, option_Forall2 (fun v w => py_eq v w = true) (dget k d) (dget k e).

Lemma forallb_iff {A} (f : A -> bool) l : forallb f l = true <-> Forall (fun x => f x = true) l.
Proof. by rewrite List.forallb_forall, List.Forall_forall. Qed.

Lemma py_eq_dict d e :
  dwf d -> dwf e -> py_eq (JDict d) (JDict e) = true <-> dict_eq d e.
Proof.
  intros Hd He. simpl. rewrite andb_true_iff, bool_decide_eq_true, forallb_iff, Forall_forall.
  split.
  - intros [Hlen Hall] k.
    destruct (dget k d) as [v|] eqn:Hk.
    + specialize (Hall _ (dget_Some_elem _ _ _ Hk)). simpl in Hall.
      destruct (dget k e) as [w|]; [by constructor|done].
    + assert (dkeys d ≡ₚ dkeys e) as Hp.
      { apply submseteq_length_Permutation.
        - apply NoDup_submseteq; [done|]. intros k' [v Hv]%dget_is_Some.
          specialize (Hall _ (dget_Some_elem _ _ _ Hv)). simpl in Hall.
          destruct (dget k' e) eqn:E; [by eapply dget_Some_key|done].
        - unfold dkeys. rewrite !length_fmap. lia. }
      apply dget_None in Hk. rewrite Hp in Hk. apply dget_None in Hk. rewrite Hk. constructor.
  - intros Heq. split.
    + assert (dkeys d ≡ₚ dkeys e) as Hp.
      { apply dkeys_perm; [done..|]. intros k. rewrite <-!dget_is_Some.
        specialize (Heq k). inversion Heq; split; eauto. }
      apply Permutation_length in Hp. unfold dkeys in Hp. by rewrite !length_fmap in Hp.
    + intros [k v] Hin. specialize (Heq k). simpl.
      rewrite (dget_elem_wf _ _ _ Hd Hin) in Heq. inversion Heq as [? w Hvw E|]. by subst.
Qed.

(** [==] is an equivalence on well-formed documents. *)

Lemma py_eq_refl v : json_wf v -> py_eq v v = true.
Proof.
  induction v as [|b|z|s|l IH|d IH] using json_nested_ind; intros Hwf;
    try (simpl; by rewrite bool_decide_eq_true).
  - done.
  - apply py_eq_list. apply json_wf_list in Hwf.
    induction l as [|x l IHl]; constructor; decompose_Forall_hyps; auto.
  - pose proof Hwf as [Hd Hall]%json_wf_dict. apply py_eq_dict; [done..|]. intros k.
    destruct (dget k d) as [v|] eqn:Hk; constructor.
    apply dget_Some_elem in Hk. rewrite Forall_forall in IH, Hall.
    by apply (IH (k, v)), (Hall (k, v)).
Qed.

Lemma py_eq_sym a b : json_wf a -> json_wf b -> py_eq a b = true -> py_eq b a = true.
Proof.
  revert b. induction a as [|x|z|s|l IH|d IH] using json_nested_ind;
    intros [|y|z'|t|m|e] Ha Hb; try (simpl; rewrite ?bool_decide_eq_true; done).
  - rewrite !py_eq_list. rewrite json_wf_list in Ha, Hb. intros Hlm.
    induction Hlm; constructor; decompose_Forall_hyps; auto.
  - pose proof Ha as [Hd Hda]%json_wf_dict. pose proof Hb as [He Hea]%json_wf_dict.
    rewrite !py_eq_dict by done. intros Heq k. specialize (Heq k).
    destruct (dget k d) as [v|] eqn:Hk, (dget k e) as [w|] eqn:Hk'; inversion Heq; subst;
      constructor.
    apply dget_Some_elem in Hk, Hk'. rewrite Forall_forall in IH, Hda, Hea.
    apply (IH (k, v)); [done|by apply (Hda (k, v))|by apply (Hea (k, w))|done].
Qed.

Lemma py_eq_trans a b c :
  json_wf a -> json_wf b -> json_wf c ->
  py_eq a b = true -> py_eq b c = true -> py_eq a c = true.
Proof.
  revert b c. induction a as [|x|z|s|l IH|d IH] using json_nested_ind;
    intros [|y|z'|t|m|e] [|u|z''|r|n|f] Ha Hb Hc;
    try (simpl; rewrite ?bool_decide_eq_true; congruence).
  - rewrite !py_eq_list. rewrite !json_wf_list in *. intros Hlm. revert n Hc.
    induction Hlm; intros n Hc Hmn; inversion Hmn; subst; constructor;
      decompose_Forall_hyps; eauto.
  - pose proof Ha as [Hd Hda]%json_wf_dict. pose proof Hb as [He Hea]%json_wf_dict.
    pose proof Hc as [Hf Hfa]%json_wf_dict.
    rewrite !py_eq_dict by done. intros H1 H2 k. specialize (H1 k). specialize (H2 k).
    destruct (dget k d) as [v|] eqn:Hk, (dget k e) as [w|] eqn:Hk', (dget k f) as [w'|] eqn:Hk'';
      inversion H1; inversion H2; subst; constructor.
    apply dget_Some_elem in Hk, Hk', Hk''. rewrite Forall_forall in IH, Hda, Hea, Hfa.
    apply (IH (k, v) Hk w w'); [by apply (Hda (k, v))|by apply (Hea (k, w))|by apply (Hfa (k, w'))|done..].
Qed.

#[export] Hint Resolve py_eq_refl : dict.
