(* ===== verification/JsonDelta.v ===== *)
(** * Optimistic history previews: JSON deltas

    [common/json_delta.py] derives, on the server, the operations that turn one
    document into another; [common/web/assets/json-delta.js] applies them in the
    browser.  Both halves are modelled here, and the round trip between them is
    the property the undo/redo preview relies on. *)

From stdpp Require Import pretty.
From S2P Require Import Prelude Json.

(** ** Operations *)

Inductive segment : Type :=
| SKey (k : string)
| SIdx (i : nat).

#[export] Instance segment_eq_dec : EqDecision segment.
Proof. solve_decision. Defined.

Abbreviation json_path := (list segment).

Inductive delta_op : Type :=
| OpAdd (path : json_path) (value : json)
| OpRemove (path : json_path)
| OpReplace (path : json_path) (value : json).

(** ** The server side: [json_delta] *)

(** [value.get("id")] of a list item, when the item is an object. *)
Definition object_id (v : json) : option json :=
  match v with JDict d => dget "id"%string d | _ => None end.

Definition string_id (v : json) : option string :=
  match object_id v with Some (JStr s) => Some s | _ => None end.

Definition is_dict (v : json) : bool := match v with JDict _ => true | _ => false end.

(** All items are objects, their ids are strings, and the ids are distinct. *)
Definition has_stable_object_ids (values : list json) : bool :=
  forallb is_dict values &&
  forallb (fun v => bool_decide (is_Some (string_id v))) values &&
  bool_decide (NoDup (string_id <$> values)).

(** [sorted(...)] of a collection of strings. *)
Definition sorted_strings (l : list string) : list string := merge_sort String.le l.

(** [list.insert(i, v)]. *)
Definition py_insert {A} (i : nat) (v : A) (l : list A) : list A := take i l ++ v :: drop i l.

(** A nested delta: what [_append_delta(previous, value, path, ...)] appends,
    for a fixed new [value]. *)
Abbreviation sub_delta := (json -> json_path -> list delta_op).

Definition dict_delta (before : list (string * json)) (after : list (string * (json * sub_delta)))
    (path : json_path) : list delta_op :=
  ((fun key => OpRemove (path ++ [SKey key])) <$>
     sorted_strings (filter (fun k => k ∉ dkeys after) (dkeys before))) ++
  ((fun key => OpAdd (path ++ [SKey key])
                 (match dget key after with Some (v, _) => v | None => JNull end)) <$>
     sorted_strings (filter (fun k => k ∉ dkeys before) (dkeys after))) ++
  concat ((fun key => match dget key before, dget key after with
                      | Some b, Some (_, sub) => sub b (path ++ [SKey key])
                      | _, _ => []
                      end) <$>
     sorted_strings (filter (fun k => k ∈ dkeys after) (dkeys before))).

Fixpoint positional_delta (index : nat) (before : list json) (after : list (json * sub_delta))
    (path : json_path) : list delta_op :=
  match before, after with
  | previous :: before', (_, sub) :: after' =>
      sub previous (path ++ [SIdx index]) ++ positional_delta (S index) before' after' path
  | _, _ => []
  end.

(** The downward loop that removes the items the new list does not keep: [n] is
    the loop index plus one. *)
Fixpoint drop_undesired (desired : list (option string)) (n : nat) (working : list json)
    (path : json_path) : list delta_op * list json :=
  match n with
  | 0 => ([], working)
  | S index =>
      match working !! index with
      | None => ([], working)
      | Some value =>
          if decide (string_id value ∈ desired) then drop_undesired desired index working path
          else
            let '(ops, rest) := drop_undesired desired index (delete index working) path in
            (OpRemove (path ++ [SIdx index]) :: ops, rest)
      end
  end.

(** The upward loop that places each target at its index. *)
Fixpoint place_targets (target_index : nat) (targets : list (json * sub_delta))
    (working : list json) (path : json_path) : list delta_op :=
  match targets with
  | [] => []
  | (target, sub) :: targets' =>
      match list_find (fun v => string_id v = string_id target) working with
      | None =>
          OpAdd (path ++ [SIdx target_index]) target ::
          place_targets (S target_index) targets' (py_insert target_index target working) path
      | Some (current_index, current) =>
          if decide (current_index = target_index) then
            sub current (path ++ [SIdx target_index]) ++
            place_targets (S target_index) targets' (<[target_index := target]> working) path
          else
            OpRemove (path ++ [SIdx current_index]) ::
            OpAdd (path ++ [SIdx target_index]) target ::
            place_targets (S target_index) targets'
              (py_insert target_index target (delete current_index working)) path
      end
  end.

Definition identified_list_delta (before : list json) (after : list (json * sub_delta))
    (path : json_path) : list delta_op :=
  let desired_ids := (fun t => string_id t.1) <$> after in
  let '(removals, working) := drop_undesired desired_ids (length before) before path in
  removals ++ place_targets 0 after working path.

Fixpoint append_delta (before after : json) (path : json_path) {struct after} : list delta_op :=
  if py_eq before after then [] else
  match before, after with
  | JDict b, JDict a =>
      dict_delta b (map (fun kv => (kv.1, (kv.2, fun w p => append_delta w kv.2 p))) a) path
  | JList b, JList a =>
      let targets := map (fun t => (t, fun w p => append_delta w t p)) a in
      if has_stable_object_ids b && has_stable_object_ids a
      then identified_list_delta b targets path
      else if decide (length b = length a) then positional_delta 0 b targets path
      else [OpReplace path after]
  | _, _ => [OpReplace path after]
  end.

Definition json_delta (before after : json) : list delta_op := append_delta before after [].

(** ** The browser side: [applyJsonDelta] *)

Definition UNSAFE_KEYS : list string := ["__proto__"; "constructor"; "prototype"]%string.

(** [Number.MAX_SAFE_INTEGER]. *)
Definition max_safe_integer : Z := 9007199254740991.

Definition assertSegment (s : segment) : bool :=
  match s with
  | SIdx i => (Z.of_nat i <=? max_safe_integer)%Z
  | SKey k => bool_decide (k ∉ UNSAFE_KEYS)
  end.

Arguments assertSegment : simpl never.

(** The property name a segment denotes on an object. *)
Definition property_name (s : segment) : string :=
  match s with SKey k => k | SIdx i => pretty i end.

(** The position a segment denotes in an array: a number, or the decimal
    spelling of one. *)
Definition array_index (l : list json) (s : segment) : option nat :=
  match s with
  | SIdx i => if decide (i < length l) then Some i else None
  | SKey k => snd <$> list_find (fun i => pretty i = k) (seq 0 (length l))
  end.

(** [segment in parent] followed by [parent[segment]]; [None] stands for every
    way the lookup ends in a thrown error, at once or at the next [typeof] test. *)
Definition js_get (parent : json) (s : segment) : option json :=
  match parent with
  | JDict d => dget (property_name s) d
  | JList l => i ← array_index l s; l !! i
  | _ => None
  end.

(** The parent with the child at [s] replaced, after the child was mutated. *)
Definition js_put (parent : json) (s : segment) (child : json) : json :=
  match parent with
  | JDict d => JDict (dset (property_name s) child d)
  | JList l => match array_index l s with Some i => JList (<[i := child]> l) | None => parent end
  | _ => parent
  end.

Inductive edit : Type :=
| EAdd (value : json)
| ERemove
| EReplace (value : json).

(** The three operations at the last segment of a path. *)
Definition apply_leaf (e : edit) (key : segment) (parent : json) : option json :=
  match parent with
  | JList l =>
      match key with
      | SKey _ => None
      | SIdx i =>
          if decide (length l < i) then None else
          match e with
          | EAdd v => Some (JList (py_insert i v l))
          | ERemove => if decide (length l <= i) then None else Some (JList (delete i l))
          | EReplace v => if decide (length l <= i) then None else Some (JList (<[i := v]> l))
          end
      end
  | JDict d =>
      match e with
      | ERemove => Some (JDict (dpop (property_name key) d))
      | EAdd v | EReplace v => Some (JDict (dset (property_name key) v d))
      end
  | _ => None
  end.

(** [parentAt] and the mutation of the parent it finds. *)
Fixpoint apply_at (e : edit) (path : json_path) (root : json) : option json :=
  match path with
  | [] => match e with EAdd v | EReplace v => Some v | ERemove => None end
  | s :: rest =>
      if assertSegment s then
        match rest with
        | [] => apply_leaf e s root
        | _ :: _ =>
            child ← js_get root s;
            child' ← apply_at e rest child;
            Some (js_put root s child')
        end
      else None
  end.

Definition apply_op (root : json) (op : delta_op) : option json :=
  match op with
  | OpAdd p v => apply_at (EAdd v) p root
  | OpRemove p => apply_at ERemove p root
  | OpReplace p v => apply_at (EReplace v) p root
  end.

Fixpoint applyJsonDelta (value : json) (operations : list delta_op) : option json :=
  match operations with
  | [] => Some value
  | op :: operations' => value' ← apply_op value op; applyJsonDelta value' operations'
  end.

(** Documents whose member names and array lengths the browser accepts. *)
Fixpoint json_safe (v : json) : Prop :=
  match v with
  | JList l =>
      (Z.of_nat (length l) <= max_safe_integer)%Z /\
      (fix go l := match l with [] => True | x :: l' => json_safe x /\ go l' end) l
  | JDict d =>
      Forall (fun k => k ∉ UNSAFE_KEYS) (dkeys d) /\
      (fix go d := match d with [] => True | kv :: d' => json_safe kv.2 /\ go d' end) d
  | _ => True
  end.

(** ** Paths: operations below a segment act on the child there *)

Definition op_prefix (p : json_path) (op : delta_op) : delta_op :=
  match op with
  | OpAdd q v => OpAdd (p ++ q) v
  | OpRemove q => OpRemove (p ++ q)
  | OpReplace q v => OpReplace (p ++ q) v
  end.

(** Only a replacement may act on the document root. *)
Definition op_inner (op : delta_op) : Prop :=
  match op with
  | OpAdd q _ | OpRemove q => q <> []
  | OpReplace _ _ => True
  end.

Lemma op_prefix_app p q op : op_prefix (p ++ q) op = op_prefix p (op_prefix q op).
Proof. destruct op; simpl; by rewrite app_assoc. Qed.

Lemma op_prefix_inner s op : op_inner (op_prefix [s] op).
Proof. by destruct op. Qed.

Lemma applyJsonDelta_app v ops1 ops2 :
  applyJsonDelta v (ops1 ++ ops2) = applyJsonDelta v ops1 ≫= fun w => applyJsonDelta w ops2.
Proof.
  revert v. induction ops1 as [|op ops1 IH]; intros v; simpl; [done|].
  destruct (apply_op v op); simpl; auto.
Qed.

(** The segments that the server emits for a container, and where they point. *)
Definition seg_child (root : json) (s : segment) (c : json) : Prop :=
  assertSegment s = true /\
  match root, s with
  | JDict d, SKey k => dget k d = Some c
  | JList l, SIdx i => l !! i = Some c
  | _, _ => False
  end.

Lemma seg_child_get root s c : seg_child root s c -> js_get root s = Some c.
Proof.
  intros [_ H]. destruct root, s; simpl in *; try done.
  rewrite decide_True by (by eapply lookup_lt_Some). done.
Qed.

Lemma seg_child_put root s c c' :
  seg_child root s c -> seg_child (js_put root s c') s c'.
Proof.
  intros [Hs H]. split; [done|]. destruct root, s; simpl in *; try done.
  - apply lookup_lt_Some in H. rewrite decide_True by done. by apply list_lookup_insert_eq.
  - apply dget_dset_eq.
Qed.

Lemma seg_child_put_put root s c c1 c2 :
  seg_child root s c -> js_put (js_put root s c1) s c2 = js_put root s c2.
Proof.
  intros [Hs H]. destruct root, s; simpl in *; try done.
  - apply lookup_lt_Some in H. rewrite !decide_True by done. simpl.
    rewrite decide_True by (by rewrite length_insert). by rewrite list_insert_insert_eq.
  - by rewrite dset_dset.
Qed.

Lemma seg_child_put_id root s c : seg_child root s c -> js_put root s c = root.
Proof.
  intros [Hs H]. destruct root, s; simpl in *; try done.
  - rewrite decide_True by (by eapply lookup_lt_Some). by rewrite list_insert_id.
  - by rewrite dset_id.
Qed.

Lemma apply_op_child root s c op c' :
  seg_child root s c -> op_inner op -> apply_op c op = Some c' ->
  apply_op root (op_prefix [s] op) = Some (js_put root s c').
Proof.
  intros Hc Hop. pose proof (seg_child_get _ _ _ Hc) as Hget. destruct Hc as [Hs Hc].
  assert (forall e q, (q = [] -> exists v, e = EReplace v) ->
    apply_at e q c = Some c' -> apply_at e (s :: q) root = Some (js_put root s c')) as Hgen.
  { intros e [|s' q] He Happ; cbn [apply_at]; rewrite Hs.
    - destruct (He eq_refl) as [v ->]. simplify_eq/=. destruct root, s; simpl in *; try done.
      apply lookup_lt_Some in Hc. by rewrite !decide_False, decide_True by lia.
    - cbn [apply_at] in Happ. rewrite Hget. simpl. by rewrite Happ. }
  destruct op; simpl in *; apply Hgen; naive_solver.
Qed.

Lemma apply_ops_child root s c ops c' :
  seg_child root s c -> Forall op_inner ops -> applyJsonDelta c ops = Some c' ->
  applyJsonDelta root (op_prefix [s] <$> ops) = Some (js_put root s c').
Proof.
  revert root c. induction ops as [|op ops IH]; intros root c Hc Hin; csimpl.
  - intros ?; simplify_eq. by rewrite seg_child_put_id.
  - apply Forall_cons in Hin as [Hop Hin].
    destruct (apply_op c op) as [c1|] eqn:E; simpl; [|done]. intros Happ.
    rewrite (apply_op_child _ _ _ _ _ Hc Hop E). simpl.
    rewrite (IH _ c1); [|by eapply seg_child_put|done..].
    by rewrite (seg_child_put_put _ _ _ _ _ Hc).
Qed.

(** ** What a nested delta guarantees *)

(** [sub] is a delta towards [t]: its operations are relative to the path they
    are given, act below it, and turn any document into one equal to [t]. *)
Definition sub_ok (t : json) (sub : sub_delta) : Prop :=
  forall b, json_wf b -> json_safe b ->
    (forall p, sub b p = op_prefix p <$> sub b []) /\
    Forall op_inner (sub b []) /\
    exists r, applyJsonDelta b (sub b []) = Some r /\ py_eq r t = true /\ json_wf r.

Lemma json_safe_list l :
  json_safe (JList l) <-> (Z.of_nat (length l) <= max_safe_integer)%Z /\ Forall json_safe l.
Proof.
  simpl. f_equiv. induction l as [|x l IH]; simpl; [split; [constructor|done]|].
  rewrite Forall_cons. by rewrite <-IH.
Qed.

Lemma json_safe_dict d :
  json_safe (JDict d) <->
  Forall (fun k => k ∉ UNSAFE_KEYS) (dkeys d) /\ Forall (fun kv => json_safe kv.2) d.
Proof.
  simpl. f_equiv. induction d as [|x d IH]; simpl; [split; [constructor|done]|].
  rewrite Forall_cons. by rewrite <-IH.
Qed.

Lemma json_safe_dget d k v : json_safe (JDict d) -> dget k d = Some v -> json_safe v.
Proof.
  intros [_ Hd]%json_safe_dict Hk. rewrite Forall_forall in Hd.
  by apply (Hd (k, v)), dget_Some_elem.
Qed.

Lemma assert_key k : k ∉ UNSAFE_KEYS -> assertSegment (SKey k) = true.
Proof. intros. by apply bool_decide_eq_true. Qed.

Lemma assert_idx i n :
  (Z.of_nat n <= max_safe_integer)%Z -> i <= n -> assertSegment (SIdx i) = true.
Proof. intros. apply Z.leb_le. lia. Qed.

Lemma sub_ok_child root s c t sub :
  sub_ok t sub -> seg_child root s c -> json_wf c -> json_safe c ->
  exists r, applyJsonDelta root (sub c [s]) = Some (js_put root s r) /\
    py_eq r t = true /\ json_wf r.
Proof.
  intros Hsub Hc Hwf Hsafe. destruct (Hsub c Hwf Hsafe) as (Hp & Hin & r & Hr & Heq & Hwr).
  exists r. split; [|done]. rewrite Hp. by eapply apply_ops_child.
Qed.

(** *** Objects *)

Lemma apply_removes ks d :
  Forall (fun k => k ∉ UNSAFE_KEYS) ks ->
  applyJsonDelta (JDict d) ((fun k => OpRemove [SKey k]) <$> ks) =
  Some (JDict (foldl (fun d k => dpop k d) d ks)).
Proof.
  revert d. induction ks as [|k ks IH]; intros d Hs; csimpl; [done|].
  apply Forall_cons in Hs as [Hk Hs]. rewrite (assert_key k) by done. simpl. by apply IH.
Qed.

Lemma dget_removes ks d k :
  dget k (foldl (fun d k => dpop k d) d ks) =
  if decide (k ∈ ks) then None else dget k (d : list (string * json)).
Proof.
  revert d. induction ks as [|k' ks IH]; intros d; cbn [foldl].
  - rewrite decide_False; [done|apply not_elem_of_nil].
  - rewrite IH, dget_dpop. destruct (decide (k ∈ ks)), (decide (k = k'));
      destruct (decide (k ∈ k' :: ks)); set_solver.
Qed.

Lemma dwf_removes ks (d : list (string * json)) :
  dwf d -> dwf (foldl (fun d k => dpop k d) d ks).
Proof. revert d. induction ks; intros d Hd; simpl; auto with dict. Qed.

Lemma apply_adds f ks d :
  Forall (fun k => k ∉ UNSAFE_KEYS) ks ->
  applyJsonDelta (JDict d) ((fun k => OpAdd [SKey k] (f k)) <$> ks) =
  Some (JDict (foldl (fun d k => dset k (f k) d) d ks)).
Proof.
  revert d. induction ks as [|k ks IH]; intros d Hs; csimpl; [done|].
  apply Forall_cons in Hs as [Hk Hs]. rewrite (assert_key k) by done. simpl. by apply IH.
Qed.

Lemma dget_adds f ks d k :
  dget k (foldl (fun d k => dset k (f k) d) d ks) =
  if decide (k ∈ ks) then Some (f k) else dget k (d : list (string * json)).
Proof.
  revert d. induction ks as [|k' ks IH]; intros d; cbn [foldl].
  - rewrite decide_False; [done|apply not_elem_of_nil].
  - rewrite IH, dget_dset. destruct (decide (k ∈ ks)), (decide (k = k'));
      destruct (decide (k ∈ k' :: ks)); subst; set_solver.
Qed.

Lemma dwf_adds f ks (d : list (string * json)) :
  dwf d -> dwf (foldl (fun d k => dset k (f k) d) d ks).
Proof. revert d. induction ks; intros d Hd; simpl; auto with dict. Qed.

(** The common members are updated one after the other, and no other member
    changes. *)
Lemma apply_common (g : string -> list delta_op) (after : string -> option json) ks d :
  NoDup ks -> dwf d ->
  (forall k, k ∈ ks -> exists v t, dget k d = Some v /\ after k = Some t /\
     forall root, seg_child root (SKey k) v ->
       exists r, applyJsonDelta root (g k) = Some (js_put root (SKey k) r) /\
         py_eq r t = true /\ json_wf r) ->
  Forall (fun k => k ∉ UNSAFE_KEYS) ks ->
  exists d', applyJsonDelta (JDict d) (concat (g <$> ks)) = Some (JDict d') /\ dwf d' /\
    forall k, if decide (k ∈ ks)
      then exists r t, dget k d' = Some r /\ after k = Some t /\ py_eq r t = true /\ json_wf r
      else dget k d' = dget k d.
Proof.
  revert d. induction ks as [|k ks IH]; intros d Hnd Hd Hks Hs.
  { exists d. split_and!; [done..|]. intros k. rewrite decide_False; [done|set_solver]. }
  apply NoDup_cons in Hnd as [Hk Hnd]. apply Forall_cons in Hs as [Hsk Hs].
  destruct (Hks k) as (v & t & Hv & Ht & Hstep); [left|].
  destruct (Hstep (JDict d)) as (r & Hr & Heq & Hwr); [split; [by apply assert_key|done]|].
  destruct (IH (dset k r d)) as (d' & Happ & Hd' & Hget); [done|auto with dict| |done|].
  { intros k' Hk'. destruct (Hks k') as (v' & t' & ? & ? & ?); [by right|].
    exists v', t'. split_and!; [|done..]. rewrite dget_dset_ne; [done|congruence]. }
  exists d'. split_and!; [|done|].
  - csimpl. rewrite applyJsonDelta_app, Hr. simpl. done.
  - intros k'. specialize (Hget k'). rewrite dget_dset in Hget.
    destruct (decide (k' ∈ ks)), (decide (k' ∈ k :: ks)) as [|Hn]; [done|set_solver| |].
    + assert (k' = k) as -> by set_solver. rewrite decide_True in Hget by done.
      exists r, t. done.
    + rewrite decide_False in Hget by set_solver. done.
Qed.

Lemma elem_of_sorted k l : k ∈ sorted_strings l <-> k ∈ l.
Proof. unfold sorted_strings. by rewrite merge_sort_Permutation. Qed.

Lemma NoDup_sorted l : NoDup l -> NoDup (sorted_strings l).
Proof. unfold sorted_strings. by rewrite merge_sort_Permutation. Qed.

Lemma Forall_sorted P l : Forall P l -> Forall P (sorted_strings l).
Proof. unfold sorted_strings. by rewrite merge_sort_Permutation. Qed.

Section containers.
Context (sub : json -> sub_delta).
Implicit Types (a b : list (string * json)) (k : string).

Abbreviation dict_targets a := (map (fun kv => (kv.1, (kv.2, sub kv.2))) a).
Abbreviation list_targets a := (map (fun t => (t, sub t)) a).

Lemma dget_targets k a : dget k (dict_targets a) = (fun v => (v, sub v)) <$> dget k a.
Proof. apply (dget_map (fun v => (v, sub v))). Qed.

Lemma dkeys_targets a : dkeys (dict_targets a) = dkeys a.
Proof. apply (dkeys_map (fun v => (v, sub v))). Qed.

(** Relativity to the path is inherited from the nested deltas. *)
Lemma dict_delta_prefix b a :
  (forall k v t, dget k b = Some v -> dget k a = Some t ->
     forall p, sub t v p = op_prefix p <$> sub t v []) ->
  forall p, dict_delta b (dict_targets a) p = op_prefix p <$> dict_delta b (dict_targets a) [].
Proof.
  intros Hsub p. unfold dict_delta. rewrite !fmap_app, <-!list_fmap_compose, !fmap_concat.
  rewrite <-!list_fmap_compose.
  apply (f_equal2 app); [by apply list_fmap_ext|].
  apply (f_equal2 app); [by apply list_fmap_ext|].
  apply (f_equal (@concat delta_op)), list_fmap_ext. intros i k _. simpl.
  rewrite dget_targets. destruct (dget k b) as [v|] eqn:Hb, (dget k a) as [t|] eqn:Ha; try done.
  simpl. rewrite (Hsub _ _ _ Hb Ha), (Hsub _ _ _ Hb Ha [SKey k]), <-list_fmap_compose.
  apply list_fmap_ext. intros ? op _. apply op_prefix_app.
Qed.

Lemma dict_delta_inner b a :
  (forall k v t, dget k b = Some v -> dget k a = Some t ->
     forall p, sub t v p = op_prefix p <$> sub t v []) ->
  Forall op_inner (dict_delta b (dict_targets a) []).
Proof.
  intros Hsub. unfold dict_delta. rewrite !Forall_app, !Forall_fmap. split_and!.
  - by apply Forall_true.
  - by apply Forall_true.
  - apply List.Forall_concat, Forall_fmap, Forall_true. intros k. simpl. rewrite dget_targets.
    destruct (dget k b) as [v|] eqn:Hb, (dget k a) as [t|] eqn:Ha; try constructor.
    simpl. rewrite (Hsub _ _ _ Hb Ha), Forall_fmap. apply Forall_true.
    intros. apply op_prefix_inner.
Qed.

(** The members once the removed ones are gone and the added ones are there. *)
Lemma dget_removes_adds b a f k :
  (forall x, dget k a = Some x -> f k = x) ->
  dget k (foldl (fun d k => dset k (f k) d)
            (foldl (fun d k => dpop k d) b (sorted_strings (filter (fun k => k ∉ dkeys a) (dkeys b))))
            (sorted_strings (filter (fun k => k ∉ dkeys b) (dkeys a)))) =
  if decide (k ∈ dkeys a) then (if decide (k ∈ dkeys b) then dget k b else dget k a) else None.
Proof.
  intros Hf. rewrite dget_adds, dget_removes.
  repeat case_decide; rewrite ?elem_of_sorted, ?list_elem_of_filter in *; try tauto.
  - destruct (dget k a) as [t|] eqn:E; [by rewrite (Hf t)|]. by apply dget_None in E.
  - apply dget_None. tauto.
Qed.

(** Dictionaries whose members are equal one by one. *)
Lemma dict_pointwise_eq d a :
  dwf d -> dwf a ->
  (forall k, option_Forall2 (fun v w => py_eq v w = true /\ json_wf v) (dget k d) (dget k a)) ->
  py_eq (JDict d) (JDict a) = true /\ json_wf (JDict d).
Proof.
  intros Hd Ha Hall. split.
  - apply py_eq_dict; [done..|]. intros k. destruct (Hall k); constructor. tauto.
  - apply json_wf_dict. split; [done|]. apply Forall_forall. intros [k v] Hin.
    specialize (Hall k). rewrite (dget_elem_wf _ _ _ Hd Hin) in Hall. inversion Hall. tauto.
Qed.

Lemma dict_delta_ok b a :
  json_wf (JDict b) -> json_safe (JDict b) -> json_wf (JDict a) -> json_safe (JDict a) ->
  Forall (fun kv => sub_ok kv.2 (sub kv.2)) a ->
  exists r, applyJsonDelta (JDict b) (dict_delta b (dict_targets a) []) = Some r /\
    py_eq r (JDict a) = true /\ json_wf r.
Proof.
  intros Hwb Hsb Hwa Hsa Hsub.
  pose proof Hwb as [Hdb _]%json_wf_dict. pose proof Hwa as [Hda _]%json_wf_dict.
  pose proof Hsb as [Hkb _]%json_safe_dict. pose proof Hsa as [Hka _]%json_safe_dict.
  unfold dict_delta. rewrite !dkeys_targets. cbn [app].
  rewrite applyJsonDelta_app, apply_removes by by apply Forall_sorted, Forall_filter_2.
  cbn [mbind option_bind].
  rewrite applyJsonDelta_app, apply_adds by by apply Forall_sorted, Forall_filter_2.
  cbn [mbind option_bind].
  match goal with |- context [applyJsonDelta (JDict (foldl ?f (foldl ?g b ?ks) ?ks')) _] =>
    set (d2 := foldl f (foldl g b ks) ks') end.
  assert (forall k, dget k d2 = if decide (k ∈ dkeys a) then
    (if decide (k ∈ dkeys b) then dget k b else dget k a) else None) as Hd2.
  { intros k. apply (dget_removes_adds b a). intros x Hx. by rewrite dget_targets, Hx. }
  assert (dwf d2) as Hwf2 by (by apply dwf_adds, dwf_removes).
  clearbody d2.
  edestruct (apply_common
    (fun key => match dget key b, dget key (dict_targets a) with
                | Some v, Some (_, s) => s v ([] ++ [SKey key])
                | _, _ => []
                end) (fun k => dget k a)
    (sorted_strings (filter (fun k => k ∈ dkeys a) (dkeys b))) d2) as (d3 & Happ & Hd3 & Hget).
  - by apply NoDup_sorted, NoDup_filter.
  - done.
  - intros k [Ha Hb]%elem_of_sorted%list_elem_of_filter.
    pose proof Ha as [t Ht]%dget_is_Some. pose proof Hb as [v Hv]%dget_is_Some.
    exists v, t. split_and!; [|done|].
    { rewrite Hd2. by rewrite !decide_True. }
    intros root Hroot. rewrite Hv, dget_targets, Ht. simpl.
    apply sub_ok_child;
      [|done|exact (json_wf_dget _ _ _ Hwb Hv)|exact (json_safe_dget _ _ _ Hsb Hv)].
    rewrite Forall_forall in Hsub. by apply (Hsub (k, t)), dget_Some_elem.
  - by apply Forall_sorted, Forall_filter_2.
  - exists (JDict d3). split; [exact Happ|]. apply dict_pointwise_eq; [done..|].
    intros k. specialize (Hget k). rewrite Hd2 in Hget. clear Happ Hd2.
    case_decide as Hc; rewrite elem_of_sorted, list_elem_of_filter in Hc.
    + destruct Hget as (r & t & -> & -> & ? & ?). by constructor.
    + rewrite Hget. case_decide as Hka'.
      * rewrite decide_False by tauto. apply dget_is_Some in Hka' as [t Ht].
        rewrite Ht. constructor. pose proof (json_wf_dget _ _ _ Hwa Ht).
        split; [by apply py_eq_refl|done].
      * apply dget_None in Hka'. rewrite Hka'. constructor.
Qed.

(** *** Arrays compared position by position *)

Lemma sub_child_prefix t v s :
  sub_ok t (sub t) -> json_wf v -> json_safe v ->
  (forall p, sub t v (p ++ [s]) = op_prefix p <$> sub t v [s]) /\
  Forall op_inner (sub t v [s]).
Proof.
  intros Hsub Hw Hs. destruct (Hsub v Hw Hs) as (Hp & _ & _). split.
  - intros p. rewrite Hp, (Hp [s]), <-list_fmap_compose.
    apply list_fmap_ext. intros ? op _. apply op_prefix_app.
  - rewrite Hp, Forall_fmap. apply Forall_true. intros. apply op_prefix_inner.
Qed.

Lemma positional_delta_paths i (b a : list json) :
  Forall json_wf b -> Forall json_safe b -> Forall (fun t => sub_ok t (sub t)) a ->
  (forall p, positional_delta i b (list_targets a) p =
             op_prefix p <$> positional_delta i b (list_targets a) []) /\
  Forall op_inner (positional_delta i b (list_targets a) []).
Proof.
  revert i a. induction b as [|v b IH]; intros i a Hw Hs Hsub; simpl; [by split|].
  destruct a as [|t a]; simpl; [by split|]. decompose_Forall_hyps.
  destruct (IH (S i) a) as [Hp Hin]; [done..|].
  destruct (sub_child_prefix t v (SIdx i)) as [Hp' Hin']; [done..|].
  split; [|by apply Forall_app].
  intros p. by rewrite fmap_app, <-Hp', Hp.
Qed.

Lemma positional_delta_ok pre (b a : list json) :
  length b = length a -> (Z.of_nat (length pre + length a) <= max_safe_integer)%Z ->
  Forall json_wf b -> Forall json_safe b -> Forall (fun t => sub_ok t (sub t)) a ->
  exists rs, applyJsonDelta (JList (pre ++ b)) (positional_delta (length pre) b (list_targets a) []) =
      Some (JList (pre ++ rs)) /\
    Forall2 (fun r t => py_eq r t = true) rs a /\ Forall json_wf rs.
Proof.
  revert pre a. induction b as [|v b IH]; intros pre [|t a] Hlen Hmax Hw Hs Hsub; simplify_eq/=.
  { exists []. split_and!; [done|constructor..]. }
  decompose_Forall_hyps.
  destruct (sub_ok_child (JList (pre ++ v :: b)) (SIdx (length pre)) v t (sub t))
    as (r & Hr & Heq & Hwr); [done| |done..|].
  { split; [eapply assert_idx; [exact Hmax|lia]|]. simpl. by apply list_lookup_middle. }
  rewrite applyJsonDelta_app. simpl. rewrite Hr. simpl.
  rewrite decide_True by (rewrite length_app; simpl; lia).
  rewrite insert_app_r_alt by lia. rewrite Nat.sub_diag. simpl.
  destruct (IH (pre ++ [r]) a) as (rs & Happ & Heqs & Hwrs); [done| |done..|].
  { rewrite length_app. simpl. lia. }
  rewrite length_app in Happ. simpl in Happ. rewrite Nat.add_1_r, <-!app_assoc in Happ.
  exists (r :: rs). split_and!; [done|by constructor..].
Qed.

(** *** Arrays of identified objects: removals *)

Abbreviation keep desired := (fun v => string_id v ∈ desired).

Lemma drop_undesired_paths desired n W p :
  drop_undesired desired n W p =
    let '(ops, rest) := drop_undesired desired n W [] in (op_prefix p <$> ops, rest).
Proof.
  revert W. induction n as [|n IH]; intros W; simpl; [done|].
  destruct (W !! n) as [v|]; [|done]. case_decide; [apply IH|].
  rewrite IH. by destruct (drop_undesired desired n (delete n W) []).
Qed.

Lemma drop_undesired_inner desired n W :
  Forall op_inner (drop_undesired desired n W []).1.
Proof.
  revert W. induction n as [|n IH]; intros W; simpl; [constructor|].
  destruct (W !! n) as [v|]; [|constructor]. case_decide; [apply IH|].
  specialize (IH (delete n W)). destruct (drop_undesired desired n (delete n W) []).
  by constructor.
Qed.

Lemma drop_undesired_ok desired n (W : list json) :
  n <= length W -> (Z.of_nat (length W) <= max_safe_integer)%Z ->
  (drop_undesired desired n W []).2 = filter (keep desired) (take n W) ++ drop n W /\
  applyJsonDelta (JList W) (drop_undesired desired n W []).1 =
    Some (JList (drop_undesired desired n W []).2).
Proof.
  revert W. induction n as [|n IH]; intros W Hn Hmax; simpl; [by rewrite drop_0|].
  destruct (lookup_lt_is_Some_2 W n) as [v Hv]; [lia|]. rewrite Hv.
  rewrite (take_S_r _ _ _ Hv), filter_app, filter_cons, filter_nil.
  case_decide as Hd.
  - destruct (IH W) as [H2 H1]; [lia|done|]. split; [|done].
    rewrite H2, (drop_S _ _ _ Hv), <-app_assoc. done.
  - destruct (IH (delete n W)) as [H2 H1];
      [rewrite length_delete by eauto; lia|rewrite length_delete by eauto; lia|].
    destruct (drop_undesired desired n (delete n W) []) as [ops rest]. simpl in *.
    rewrite (assert_idx n (length W)) by (done || lia).
    rewrite decide_False by lia. rewrite decide_False by lia. simpl. split; [|done].
    rewrite H2, app_nil_r, delete_take_drop.
    rewrite take_app_length', drop_app_length' by (rewrite length_take; lia). done.
Qed.

(** *** Arrays of identified objects: placing the targets *)

Lemma Forall_py_insert (P : json -> Prop) i v l :
  P v -> Forall P l -> Forall P (py_insert i v l).
Proof.
  intros. unfold py_insert. apply Forall_app. split; [by apply Forall_take|].
  constructor; [done|by apply Forall_drop].
Qed.

Lemma place_targets_paths i (a W : list json) :
  Forall json_wf W -> Forall json_safe W -> Forall json_wf a -> Forall json_safe a ->
  Forall (fun t => sub_ok t (sub t)) a ->
  (forall p, place_targets i (list_targets a) W p =
             op_prefix p <$> place_targets i (list_targets a) W []) /\
  Forall op_inner (place_targets i (list_targets a) W []).
Proof.
  revert i W. induction a as [|t a IH]; intros i W HwW HsW Hwa Hsa Hsub; simpl; [by split|].
  decompose_Forall_hyps.
  destruct (list_find _ W) as [[j cur]|] eqn:Hf.
  - apply list_find_Some in Hf as (Hcur & _ & _). case_decide as Hj.
    + destruct (IH (S i) (<[i := t]> W)) as [Hp Hin]; [by apply Forall_insert..|done|done|done|].
      destruct (sub_child_prefix t cur (SIdx i)) as [Hp' Hin'];
        [done|exact (Forall_lookup_1 _ _ _ _ HwW Hcur)|exact (Forall_lookup_1 _ _ _ _ HsW Hcur)|].
      split; [|by apply Forall_app]. intros p. by rewrite fmap_app, <-Hp', Hp.
    + destruct (IH (S i) (py_insert i t (delete j W))) as [Hp Hin];
        [by apply Forall_py_insert, Forall_delete..|done|done|done|].
      split; [|by repeat constructor]. intros p. csimpl. by rewrite Hp.
  - destruct (IH (S i) (py_insert i t W)) as [Hp Hin];
      [by apply Forall_py_insert..|done|done|done|].
    split; [|by constructor]. intros p. csimpl. by rewrite Hp.
Qed.

Lemma ids_length (rest a : list json) :
  NoDup (string_id <$> rest) -> Forall (fun v => string_id v ∈ string_id <$> a) rest ->
  length rest <= length a.
Proof.
  intros Hnd Hin. rewrite <-(length_fmap string_id rest), <-(length_fmap string_id a).
  apply submseteq_length, NoDup_submseteq; [done|]. intros x (v & -> & Hv)%list_elem_of_fmap.
  rewrite Forall_forall in Hin. auto.
Qed.

Lemma ids_tail t (rest a : list json) :
  Forall (fun v => string_id v ∈ string_id <$> (t :: a)) rest ->
  Forall (fun v => string_id v <> string_id t) rest ->
  Forall (fun v => string_id v ∈ string_id <$> a) rest.
Proof.
  intros Hin Hne. eapply Forall_impl; [apply Forall_and; split; [exact Hin|exact Hne]|].
  intros v [Hv Hn]. csimpl in Hv. set_solver.
Qed.

(** With distinct IDs, removing the object with an ID leaves none with it. *)
Lemma ids_others (rest : list json) p cur t :
  NoDup (string_id <$> rest) -> rest !! p = Some cur -> string_id cur = string_id t ->
  Forall (fun v => string_id v <> string_id t) (delete p rest).
Proof.
  intros Hnd Hcur Hid. apply Forall_forall. intros v Hv Heq. apply delete_Permutation in Hcur as Hperm.
  rewrite Hperm in Hnd. csimpl in Hnd. apply NoDup_cons in Hnd as [Hn _].
  apply Hn. rewrite Hid, <-Heq. by apply list_elem_of_fmap_2.
Qed.

(** What the browser does for one target: update in place, move, or insert. *)
Lemma place_update clnt cur rest t n :
  (Z.of_nat n <= max_safe_integer)%Z -> length clnt < n ->
  sub_ok t (sub t) -> json_wf cur -> json_safe cur ->
  exists r, applyJsonDelta (JList (clnt ++ cur :: rest)) (sub t cur [SIdx (length clnt)]) =
      Some (JList (clnt ++ r :: rest)) /\ py_eq r t = true /\ json_wf r.
Proof.
  intros Hmax Hn Ht Hw Hs.
  destruct (sub_ok_child (JList (clnt ++ cur :: rest)) (SIdx (length clnt)) cur t (sub t))
    as (r & Hr & Heq & Hwr); [done| |done..|].
  { split; [eapply assert_idx; [exact Hmax|lia]|]. by apply list_lookup_middle. }
  exists r. split; [|done]. rewrite Hr. simpl. rewrite decide_True by (rewrite length_app; simpl; lia).
  rewrite insert_app_r_alt, Nat.sub_diag by lia. done.
Qed.

Lemma place_move clnt rest p t n :
  (Z.of_nat n <= max_safe_integer)%Z -> length clnt + p < n -> p < length rest ->
  applyJsonDelta (JList (clnt ++ rest)) [OpRemove [SIdx (length clnt + p)]; OpAdd [SIdx (length clnt)] t] =
  Some (JList (clnt ++ t :: delete p rest)).
Proof.
  intros Hmax Hn Hp. simpl. rewrite (assert_idx (length clnt + p) n), (assert_idx (length clnt) n) by (done || lia).
  rewrite decide_False by (rewrite length_app; lia). rewrite decide_False by (rewrite length_app; lia). simpl.
  rewrite delete_app_length, decide_False by (rewrite length_app; lia). simpl.
  unfold py_insert. by rewrite take_app_length, drop_app_length.
Qed.

Lemma place_insert clnt rest t n :
  (Z.of_nat n <= max_safe_integer)%Z -> length clnt < n ->
  applyJsonDelta (JList (clnt ++ rest)) [OpAdd [SIdx (length clnt)] t] = Some (JList (clnt ++ t :: rest)).
Proof.
  intros Hmax Hn. simpl. rewrite (assert_idx (length clnt) n) by (done || lia).
  rewrite decide_False by (rewrite length_app; lia). simpl.
  unfold py_insert. by rewrite take_app_length, drop_app_length.
Qed.

Lemma py_insert_at (placed rest : list json) t : py_insert (length placed) t (placed ++ rest) = placed ++ t :: rest.
Proof. unfold py_insert. by rewrite take_app_length, drop_app_length. Qed.

Lemma place_targets_ok (a placed rest clnt : list json) :
  length clnt = length placed ->
  NoDup (string_id <$> a) -> NoDup (string_id <$> rest) ->
  Forall (fun v => string_id v ∈ string_id <$> a) rest ->
  Forall (fun v => string_id v ∉ string_id <$> a) placed ->
  (Z.of_nat (length placed + length a) <= max_safe_integer)%Z ->
  Forall json_wf rest -> Forall json_safe rest -> Forall json_wf a ->
  Forall (fun t => sub_ok t (sub t)) a ->
  exists rs,
    applyJsonDelta (JList (clnt ++ rest))
      (place_targets (length placed) (list_targets a) (placed ++ rest) []) =
      Some (JList (clnt ++ rs)) /\
    Forall2 (fun r t => py_eq r t = true) rs a /\ Forall json_wf rs.
Proof.
  revert placed rest clnt. induction a as [|t a IH];
    intros placed rest clnt Hlen Hnda Hndr Hin Hout Hmax Hwr Hsr Hwa Hsub.
  { assert (rest = []) as -> by (destruct rest; [done|decompose_Forall_hyps; set_solver]).
    exists []. by repeat constructor. }
  csimpl in Hnda. apply NoDup_cons in Hnda as [Hta Hnda].
  apply Forall_cons in Hwa as [Hwt Hwa]. apply Forall_cons in Hsub as [Hsubt Hsub]. simpl in Hmax.
  assert (Forall (fun v => string_id v <> string_id t) placed) as Hpt.
  { eapply Forall_impl; [exact Hout|]. intros v Hv. csimpl in Hv. set_solver. }
  (* once the target is in place, the others follow *)
  assert (forall ops r rest', applyJsonDelta (JList (clnt ++ rest)) ops = Some (JList (clnt ++ r :: rest')) ->
    Forall (fun v => string_id v <> string_id t) rest' -> rest' ⊆+ rest -> py_eq r t = true -> json_wf r ->
    exists rs, applyJsonDelta (JList (clnt ++ rest))
      (ops ++ place_targets (S (length placed)) (list_targets a) (placed ++ t :: rest') []) = Some (JList (clnt ++ rs)) /\
    Forall2 (fun r t => py_eq r t = true) rs (t :: a) /\ Forall json_wf rs) as Hnext.
  { intros ops r rest' Hops Hne Hsub' Heq Hwr'.
    destruct (IH (placed ++ [t]) rest' (clnt ++ [r])) as (rs & Happ & H2 & H3);
      [by rewrite !length_app, Hlen|done|by eapply NoDup_submseteq_fmap| | | |by eapply Forall_submseteq..|done|done|].
    - apply (ids_tail t); [by eapply Forall_submseteq|done].
    - apply Forall_app. split; [|by constructor].
      eapply Forall_impl; [exact Hout|]. intros v Hv. csimpl in Hv. set_solver.
    - rewrite length_app. simpl in *. lia.
    - exists (r :: rs). rewrite length_app, Nat.add_1_r, <-!app_assoc in Happ.
      rewrite applyJsonDelta_app, Hops. split_and!; [exact Happ|by constructor..]. }
  simpl. rewrite list_find_app_r by (by apply list_find_None).
  destruct (list_find _ rest) as [[p cur]|] eqn:Hf; simpl.
  - apply list_find_Some in Hf as (Hcur & Hid & Hfirst).
    pose proof (ids_others rest p cur t Hndr Hcur Hid) as Hother.
    pose proof (lookup_lt_Some _ _ _ Hcur) as Hplt.
    pose proof (ids_length _ _ Hndr Hin) as Hrl. simpl in Hrl.
    destruct (decide (p + length placed = length placed)) as [Hp|Hp].
    + assert (p = 0) as -> by lia. destruct rest as [|c rest]; simplify_eq/=. decompose_Forall_hyps.
      destruct (place_update clnt cur rest t (length placed + S (length a))) as (r & Hr & Heq & Hwr'); [done|lia|done..|].
      rewrite insert_app_r_alt, Nat.sub_diag by lia. simpl. rewrite Hlen in Hr.
      eapply Hnext; [exact Hr|done|by apply submseteq_cons|done..].
    + rewrite (Nat.add_comm p), delete_app_length, py_insert_at.
      apply (Hnext [OpRemove [SIdx (length placed + p)]; OpAdd [SIdx (length placed)] t] t);
        [|done|by apply submseteq_delete|by apply py_eq_refl|done].
      rewrite <-Hlen. apply (place_move _ _ _ _ (length placed + S (length a))); [done|lia|done].
  - apply list_find_None in Hf. rewrite py_insert_at.
    apply (Hnext [OpAdd [SIdx (length placed)] t] t); [|done..|by apply py_eq_refl|done].
    rewrite <-Hlen. apply (place_insert _ _ _ (length placed + S (length a))); [done|lia].
Qed.

Lemma stable_ids_NoDup l : has_stable_object_ids l = true -> NoDup (string_id <$> l).
Proof. unfold has_stable_object_ids. rewrite !andb_true_iff, bool_decide_eq_true. tauto. Qed.

Lemma identified_list_delta_ok (b a : list json) :
  json_wf (JList b) -> json_safe (JList b) -> json_wf (JList a) -> json_safe (JList a) ->
  has_stable_object_ids b = true -> has_stable_object_ids a = true ->
  Forall (fun t => sub_ok t (sub t)) a ->
  let ops := identified_list_delta b (list_targets a) in
  (forall p, ops p = op_prefix p <$> ops []) /\ Forall op_inner (ops []) /\
  exists r, applyJsonDelta (JList b) (ops []) = Some r /\
    py_eq r (JList a) = true /\ json_wf r.
Proof.
  rewrite !json_wf_list, !json_safe_list.
  intros Hwb [Hlb Hsb] Hwa [Hla Hsa] Hidb%stable_ids_NoDup Hida%stable_ids_NoDup Hsub.
  unfold identified_list_delta.
  assert ((fun t => string_id t.1) <$> list_targets a = string_id <$> a) as ->.
  { clear. induction a; csimpl; f_equal; done. }
  destruct (drop_undesired_ok (string_id <$> a) (length b) b) as [Hrest Happ]; [lia|done|].
  rewrite drop_ge, app_nil_r, take_ge in Hrest by lia.
  pose proof (drop_undesired_inner (string_id <$> a) (length b) b) as Hin.
  pose proof (drop_undesired_paths (string_id <$> a) (length b) b) as Hp.
  destruct (drop_undesired (string_id <$> a) (length b) b []) as [removals rest].
  simpl in *.
  assert (Forall json_wf rest) by (subst rest; by apply Forall_filter_2).
  assert (Forall json_safe rest) by (subst rest; by apply Forall_filter_2).
  destruct (place_targets_paths 0 a rest) as [Hp2 Hin2]; [done..|].
  split_and!.
  - intros p. by rewrite Hp, fmap_app, Hp2.
  - by apply Forall_app.
  - destruct (place_targets_ok a [] rest []) as (rs & Hrs & Heq & Hwr);
      [done|done| | |constructor|done..|].
    + subst rest. eapply NoDup_submseteq_fmap; [|exact Hidb]. apply sublist_submseteq, sublist_filter.
    + subst rest. apply Forall_forall. by intros v [? _]%list_elem_of_filter.
    + exists (JList rs). rewrite applyJsonDelta_app, Happ. split_and!; [exact Hrs| |].
      * by apply py_eq_list.
      * by apply json_wf_list.
Qed.
End containers.

(** ** The round trip *)

Lemma replace_sub_ok t sub :
  json_wf t -> (forall b p, sub b p = if py_eq b t then [] else [OpReplace p t]) -> sub_ok t sub.
Proof.
  intros Ht Hsub b Hb _. rewrite Hsub. destruct (py_eq b t) eqn:E.
  - split_and!; [intros p; by rewrite Hsub, E|constructor|by exists b].
  - split_and!; [intros p; rewrite Hsub, E; simpl; by rewrite app_nil_r|by repeat constructor|].
    exists t. auto with dict.
Qed.

Lemma append_delta_sub_ok a :
  json_wf a -> json_safe a -> sub_ok a (fun w p => append_delta w a p).
Proof.
  induction a as [|x|z|s|l IH|d IH] using json_nested_ind; intros Hwf Hsafe;
    try (apply replace_sub_ok; [done|]; intros b p; simpl; by destruct (py_eq _ _), b).
  - intros b Hwb Hsb. cbn [append_delta]. destruct (py_eq b (JList l)) eqn:E.
    { split_and!; [done|constructor|by exists b]. }
    assert (Forall (fun t => sub_ok t (fun w p => append_delta w t p)) l) as Hsub.
    { apply json_wf_list in Hwf. apply json_safe_list in Hsafe as [_ Hsafe].
      rewrite Forall_forall in *. auto. }
    destruct b as [| | | |b|]; try (split_and!; [intros p; simpl; by rewrite app_nil_r|
      by repeat constructor|exists (JList l); auto with dict]).
    destruct (has_stable_object_ids b && has_stable_object_ids l) eqn:Hst.
    + apply andb_true_iff in Hst as [? ?].
      by apply (identified_list_delta_ok (fun t w p => append_delta w t p)).
    + case_decide as Hlen.
      * pose proof Hwb as Hwb'%json_wf_list. pose proof Hsb as [_ Hsb']%json_safe_list.
        pose proof Hsafe as [Hmax _]%json_safe_list.
        destruct (positional_delta_paths (fun t w p => append_delta w t p) 0 b l) as [Hp Hin];
          [done..|].
        split_and!; [done..|].
        destruct (positional_delta_ok (fun t w p => append_delta w t p) [] b l)
          as (rs & Hrs & Heq & Hwr); [done..|].
        exists (JList rs). split_and!; [done|by apply py_eq_list|by apply json_wf_list].
      * split_and!; [intros p; simpl; by rewrite app_nil_r|by repeat constructor|].
        exists (JList l). auto with dict.
  - intros b Hwb Hsb. cbn [append_delta]. destruct (py_eq b (JDict d)) eqn:E.
    { split_and!; [done|constructor|by exists b]. }
    assert (Forall (fun kv => sub_ok kv.2 (fun w p => append_delta w kv.2 p)) d) as Hsub.
    { pose proof Hwf as [_ Hwf']%json_wf_dict. pose proof Hsafe as [_ Hsafe']%json_safe_dict.
      rewrite Forall_forall in *. auto. }
    destruct b as [| | | | |b]; try (split_and!; [intros p; simpl; by rewrite app_nil_r|
      by repeat constructor|exists (JDict d); auto with dict]).
    assert (forall k v t, dget k b = Some v -> dget k d = Some t ->
      forall p, append_delta v t p = op_prefix p <$> append_delta v t []) as Hpre.
    { intros k v t Hv Ht. rewrite Forall_forall in Hsub.
      destruct (Hsub (k, t) (dget_Some_elem _ _ _ Ht) v) as (Hp & _ & _); [|by eauto using json_safe_dget|done].
      exact (json_wf_dget _ _ _ Hwb Hv). }
    split_and!.
    + by apply (dict_delta_prefix (fun t w p => append_delta w t p)).
    + by apply (dict_delta_inner (fun t w p => append_delta w t p)).
    + by apply (dict_delta_ok (fun t w p => append_delta w t p)).
Qed.


(** Two revisions of a small table list: one table is dropped, one is renamed
    and moved to the front, one is added. *)
Definition sample_before : json :=
  JDict [("tables", JList
    [JDict [("id", JStr "a"); ("name", JStr "accounts")];
     JDict [("id", JStr "b"); ("name", JStr "billing")];
     JDict [("id", JStr "c"); ("name", JStr "customers"); ("nullable", JBool true)]])]%string.
Definition sample_after : json :=
  JDict [("tables", JList
    [JDict [("id", JStr "c"); ("name", JStr "clients"); ("nullable", JBool false)];
     JDict [("id", JStr "a"); ("name", JStr "accounts"); ("owner", JNull)];
     JDict [("id", JStr "d"); ("name", JStr "deliveries")]]); ("views", JList [])]%string.

Ltac json_sides := split_and!; try (apply (bool_decide_unpack _); vm_compute; exact I); try done.

Lemma sample_wf : json_wf sample_before /\ json_wf sample_after.
Proof. cbn. json_sides. Qed.

Lemma sample_safe : json_safe sample_before /\ json_safe sample_after.
Proof. cbn. json_sides. Qed.


(** The server reports no operations exactly when the two documents are
    equal in Python's sense, so an empty preview means nothing changed. *)
Theorem json_delta_nil_iff (before after : json) :
  json_wf before -> json_safe before -> json_wf after -> json_safe after ->
  json_delta before after = [] <-> py_eq before after = true.
Proof.
  intros Hwb Hsb Hwa Hsa. split.
  - intros Hnil. destruct (append_delta_sub_ok after Hwa Hsa before Hwb Hsb) as (_ & _ & r & Hr & Heq & _).
    unfold json_delta in Hnil. rewrite Hnil in Hr. simpl in Hr. congruence.
  - intros Heq. unfold json_delta. destruct after; simpl in *; by rewrite Heq.
Qed.

Lemma json_delta_nil_iff_witness :
  json_delta sample_before sample_before = [] <-> py_eq sample_before sample_before = true.
Proof.
  apply (json_delta_nil_iff sample_before sample_before);
    [apply sample_wf|apply sample_safe|apply sample_wf|apply sample_safe].
Defined.

(** Python equates [True] with [1], so a change between them is not reported. *)
Lemma json_delta_conflates_bool_and_int :
  json_delta (JDict [("flag"%string, JBool true)]) (JDict [("flag"%string, JInt 1)]) = [].
Proof. reflexivity. Qed.

Example sample_delta :
  json_delta sample_before sample_after =
  [OpAdd [SKey "views"] (JList []);
   OpRemove [SKey "tables"; SIdx 1];
   OpRemove [SKey "tables"; SIdx 1];
   OpAdd [SKey "tables"; SIdx 0]
     (JDict [("id", JStr "c"); ("name", JStr "clients"); ("nullable", JBool false)]);
   OpAdd [SKey "tables"; SIdx 1; SKey "owner"] JNull;
   OpAdd [SKey "tables"; SIdx 2] (JDict [("id", JStr "d"); ("name", JStr "deliveries")])]%string.
Proof. vm_compute. reflexivity. Qed.
