(* ===== verification/HistoryRetention.v ===== *)
(** * Bounded design history

    [schemii/designs/history_retention.py]: which snapshot an undo or redo leads
    to, and which snapshots are kept after each save.  Entries are seen through
    the [HistoryEntry] interface, as the Python protocol of the same name. *)

From stdpp Require Import pretty.
From S2P Require Import Prelude.

Class HistoryEntry (A : Type) := {
  entry_id : A -> Z;
  operation_group_id : A -> option string;
}.

Definition MAX_RETAINED_HISTORY_ACTIONS : nat := 100.

Inductive history_action := Undo | Redo.

Section retention.
Context {A : Type} `{!HistoryEntry A}.
Implicit Types (entries : list A) (e : A) (i index cursor target : nat) (group : string).

(** [entry.operation_group_id or f"entry:{entry.id}"]: an empty string is falsy. *)
Definition history_group e : string :=
  match operation_group_id e with
  | Some g => if decide (g = "")%string then ("entry:" ++ pretty (entry_id e))%string else g
  | None => ("entry:" ++ pretty (entry_id e))%string
  end.

(** [history_group(entries[index]) == group]. *)
Definition in_group entries index group : Prop :=
  history_group <$> entries !! index = Some group.

#[global] Instance in_group_dec entries index group : Decision (in_group entries index group).
Proof. unfold in_group. apply _. Defined.

(** [while index > 0 and history_group(entries[index]) == group: index -= 1]. *)
Fixpoint skip_group entries group index : nat :=
  match index with
  | 0 => 0
  | S index' =>
      if decide (in_group entries index group) then skip_group entries group index' else index
  end.

Definition group_at entries index : string :=
  match entries !! index with Some e => history_group e | None => ""%string end.

(** The outer loop; [actions] counts down from the retained limit. *)
Fixpoint boundary_loop entries (actions : nat) index : nat :=
  match actions with
  | 0 => index
  | S actions' =>
      match index with
      | 0 => 0
      | S _ => boundary_loop entries actions' (skip_group entries (group_at entries index) index)
      end
  end.

Definition history_boundary_index entries (retained_limit : nat) : Z :=
  match entries with
  | [] => -1
  | _ :: _ => Z.of_nat (boundary_loop entries retained_limit (length entries - 1))
  end.

(** [while target + 1 < len(entries) and history_group(entries[target + 1]) == group]:
    [rest] is [entries[target + 1:]]. *)
Fixpoint advance_group (rest : list A) group target : nat :=
  match rest with
  | [] => target
  | e :: rest' => if decide (history_group e = group) then advance_group rest' group (S target) else target
  end.

Definition history_target_index entries cursor_index (action : history_action) : option nat :=
  match action with
  | Undo =>
      match cursor_index with
      | 0 => None
      | S previous =>
          let target := skip_group entries (group_at entries cursor_index) previous in
          if decide (history_boundary_index entries MAX_RETAINED_HISTORY_ACTIONS <= Z.of_nat target)%Z
          then Some target else None
      end
  | Redo =>
      if decide (length entries - 1 <= cursor_index) then None
      else Some (advance_group (drop (cursor_index + 2) entries)
                   (group_at entries (cursor_index + 1)) (cursor_index + 1))
  end.

(** One iteration of the compaction loop. *)
Definition compact_step (compacted : list A) e : list A :=
  match last compacted with
  | Some kept =>
      if decide (1 < length compacted /\ history_group kept = history_group e)
      then removelast compacted ++ [e] else compacted ++ [e]
  | None => compacted ++ [e]
  end.

Definition compacted_entries entries : list A :=
  match entries with
  | [] => []
  | root :: rest => fold_left compact_step rest [root]
  end.

Definition retained_history_entries entries (retained_limit : nat) : list A :=
  match entries with
  | [] => []
  | _ :: _ =>
      let compacted := compacted_entries entries in
      let boundary := history_boundary_index compacted retained_limit in
      if decide (boundary = 0%Z) then compacted
      else take 1 compacted ++ drop (Z.to_nat boundary) compacted
  end.

#[local] Opaque MAX_RETAINED_HISTORY_ACTIONS.

(** ** Walking back one logical action *)

Definition previous_action entries i : nat :=
  match i with
  | 0 => 0
  | S i' => skip_group entries (group_at entries i) i'
  end.

Lemma skip_group_le entries group i : skip_group entries group i <= i.
Proof. induction i as [|i IH]; simpl; [lia|]. case_decide; lia. Qed.

Lemma skip_group_prefix l l' group i :
  i < length l -> skip_group (l ++ l') group i = skip_group l group i.
Proof.
  induction i as [|i IH]; intros Hi; [done|]. cbn [skip_group].
  rewrite (decide_ext (in_group (l ++ l') (S i) group) (in_group l (S i) group)).
  - case_decide; [|done]. apply IH. lia.
  - unfold in_group. by rewrite lookup_app_l.
Qed.

Lemma group_at_prefix l l' i : i < length l -> group_at (l ++ l') i = group_at l i.
Proof. intros. unfold group_at. by rewrite (lookup_app_l l l'). Qed.

Lemma previous_action_prefix l l' i :
  i < length l -> previous_action (l ++ l') i = previous_action l i.
Proof.
  intros Hi. destruct i as [|i]; simpl; [done|].
  rewrite group_at_prefix, skip_group_prefix by lia. done.
Qed.

Lemma previous_action_le entries i : previous_action entries i <= i - 1.
Proof.
  destruct i as [|i]; simpl; [lia|].
  pose proof (skip_group_le entries (group_at entries (S i)) i). lia.
Qed.

Abbreviation back entries k i := (Nat.iter k (previous_action entries) i).

Lemma back_zero entries k : back entries k 0 = 0.
Proof. induction k as [|k IH]; simpl; [done|]. by rewrite IH. Qed.

Lemma back_le entries k i : back entries k i <= i.
Proof.
  induction k as [|k IH]; simpl; [lia|]. pose proof (previous_action_le entries (back entries k i)). lia.
Qed.

Lemma back_add entries k1 k2 i : back entries (k1 + k2) i = back entries k1 (back entries k2 i).
Proof. apply Nat.iter_add. Qed.

Lemma back_mono entries k1 k2 i : k1 <= k2 -> back entries k2 i <= back entries k1 i.
Proof.
  intros Hk. replace k2 with ((k2 - k1) + k1) by lia. rewrite back_add. apply back_le.
Qed.

Lemma back_prefix l l' k i : i < length l -> back (l ++ l') k i = back l k i.
Proof.
  intros Hi. induction k as [|k IH]; simpl; [done|]. rewrite IH. apply previous_action_prefix.
  pose proof (back_le l k i). lia.
Qed.

Lemma skip_own_group entries i :
  i < length entries -> skip_group entries (group_at entries i) i = previous_action entries i.
Proof.
  intros Hi. destruct i as [|i]; [done|]. cbn [skip_group previous_action].
  rewrite decide_True; [done|]. unfold in_group, group_at.
  by destruct (lookup_lt_is_Some_2 entries (S i) Hi) as [e ->].
Qed.

Lemma boundary_loop_back entries n i :
  i < length entries -> boundary_loop entries n i = back entries n i.
Proof.
  revert i. induction n as [|n IH]; intros i Hi; [done|]. cbn [boundary_loop].
  destruct i as [|i].
  - by rewrite back_zero.
  - rewrite skip_own_group by done. rewrite IH.
    + by rewrite Nat.iter_succ_r.
    + pose proof (previous_action_le entries (S i)). lia.
Qed.

Lemma history_boundary_back entries n :
  entries <> [] ->
  history_boundary_index entries n = Z.of_nat (back entries n (length entries - 1)).
Proof.
  destruct entries as [|e entries]; [done|]. intros _. unfold history_boundary_index.
  rewrite boundary_loop_back; [done|simpl; lia].
Qed.

(** ** Repeated undo *)

Fixpoint undo_n entries cursor (k : nat) : option nat :=
  match k with
  | 0 => Some cursor
  | S k' => i ← undo_n entries cursor k'; history_target_index entries i Undo
  end.

(** The snapshot [k] undos away from the tip. *)
Definition undo_state entries (k : nat) : option A :=
  i ← undo_n entries (length entries - 1) k; entries !! i.

Lemma history_target_undo entries i :
  entries <> [] -> i < length entries ->
  history_target_index entries i Undo =
    if decide (i <> 0 /\ back entries MAX_RETAINED_HISTORY_ACTIONS (length entries - 1)
                 <= previous_action entries i)
    then Some (previous_action entries i) else None.
Proof.
  intros Hne Hi. unfold history_target_index. rewrite history_boundary_back by done.
  destruct i as [|i]; [by rewrite decide_False by naive_solver|]. cbn [previous_action].
  repeat case_decide; (done || lia).
Qed.

Lemma undo_n_spec entries k :
  entries <> [] ->
  let tip := length entries - 1 in
  undo_n entries tip k =
    if decide (k <= MAX_RETAINED_HISTORY_ACTIONS /\ (k = 0 \/ back entries (k - 1) tip <> 0))
    then Some (back entries k tip) else None.
Proof.
  intros Hne tip. assert (tip < length entries) as Htip.
  { subst tip. destruct entries; simpl in *; [done|lia]. }
  induction k as [|k IH]; [by rewrite decide_True by lia|].
  cbn [undo_n]. rewrite IH. clear IH. replace (S k - 1) with k by lia.
  destruct (decide (k <= MAX_RETAINED_HISTORY_ACTIONS /\ _)) as [[Hk Hpos]|Hno]; cycle 1.
  - cbn [mbind option_bind]. rewrite decide_False; [done|]. intros [Hk [?|Hpos]]; [lia|].
    apply Hno. split; [lia|]. destruct k as [|k]; [by left|right]. replace (S k - 1) with k by lia.
    pose proof (back_mono entries k (S k) tip). lia.
  - cbn [mbind option_bind]. rewrite history_target_undo; [|done|pose proof (back_le entries k tip); lia].
    fold tip. change (previous_action entries (back entries k tip)) with (back entries (S k) tip).
    destruct (decide (S k <= MAX_RETAINED_HISTORY_ACTIONS)) as [Hk'|Hk'].
    + pose proof (back_mono entries _ _ tip Hk'). repeat case_decide; (done || lia).
    + assert (k = MAX_RETAINED_HISTORY_ACTIONS) as -> by lia.
      pose proof (previous_action_le entries (back entries MAX_RETAINED_HISTORY_ACTIONS tip)) as Hlt.
      change (previous_action entries (back entries MAX_RETAINED_HISTORY_ACTIONS tip))
        with (back entries (S MAX_RETAINED_HISTORY_ACTIONS) tip) in Hlt.
      repeat case_decide; (done || lia).
Qed.

(** ** Compacted histories *)

(** Neighbouring entries after the root belong to different actions. *)
Definition compact entries : Prop :=
  forall i, 1 <= i -> S i < length entries -> group_at entries i <> group_at entries (S i).

Lemma previous_action_compact entries i :
  compact entries -> i < length entries -> previous_action entries i = i - 1.
Proof.
  intros Hc Hi. destruct i as [|[|i]]; [done|done|]. cbn [previous_action skip_group].
  rewrite decide_False; [lia|]. unfold in_group. intros Hg.
  specialize (Hc (S i)). apply Hc; [lia|done|]. unfold group_at at 1.
  destruct (entries !! S i); simplify_eq/=. done.
Qed.

Lemma back_compact entries k i :
  compact entries -> i < length entries -> back entries k i = i - k.
Proof.
  intros Hc Hi. induction k as [|k IH]; simpl; [lia|]. rewrite IH.
  rewrite previous_action_compact by (done || lia). lia.
Qed.

(** The invariant of the compaction loop: [l] has been read, [c] is the result
    so far, and walking back through either meets the same snapshots. *)
Record compaction (l c : list A) : Prop := {
  compaction_compact : compact c;
  compaction_head : exists root l' c', l = root :: l' /\ c = root :: c';
  compaction_last : last c = last l;
  compaction_pair : 1 < length l -> 1 < length c;
  compaction_sublist : c `sublist_of` l;
  compaction_back : forall k,
    l !! back l k (length l - 1) = c !! (length c - 1 - k) /\
    (back l k (length l - 1) = 0 <-> length c - 1 - k = 0);
}.

Lemma compaction_root root : compaction [root] [root].
Proof.
  split; [intros i ?; simpl; lia|by exists root, [], []|done|done|done|].
  intros k. simpl. by rewrite back_zero.
Qed.

Lemma compact_snoc c e :
  compact c -> (forall kept, 1 < length c -> last c = Some kept ->
    history_group kept <> history_group e) -> compact (c ++ [e]).
Proof.
  intros Hc Hlast i Hi Hlen. rewrite length_app in Hlen. simpl in Hlen.
  destruct (decide (S i < length c)) as [Hlt|Hge].
  - rewrite !group_at_prefix by lia. auto.
  - assert (S i = length c) as HS by lia. rewrite group_at_prefix by lia.
    destruct (lookup_lt_is_Some_2 c i) as [kept Hkept]; [lia|].
    unfold group_at at 1. rewrite Hkept. unfold group_at.
    rewrite lookup_app_r, HS, Nat.sub_diag by lia. apply Hlast; [lia|].
    rewrite last_lookup, <-Hkept. f_equal. lia.
Qed.

Lemma removelast_snoc (c : list A) kept : last c = Some kept -> c = removelast c ++ [kept].
Proof.
  intros [c' ->]%last_Some. by rewrite removelast_last.
Qed.

Lemma last_lookup_Some (l : list A) e : last l = Some e -> l !! (length l - 1) = Some e.
Proof. rewrite last_lookup. intros <-. f_equal. lia. Qed.

Lemma back_snoc_new l e k :
  l <> [] -> previous_action (l ++ [e]) (length l) = length l - 1 ->
  back (l ++ [e]) (S k) (length (l ++ [e]) - 1) = back l k (length l - 1).
Proof.
  intros Hl Hp. rewrite length_app, Nat.add_sub, Nat.iter_succ_r, Hp.
  apply back_prefix. destruct l; simpl in *; [done|lia].
Qed.

Lemma back_snoc_same l e k :
  1 < length l -> (exists kept, last l = Some kept /\ history_group kept = history_group e) ->
  back (l ++ [e]) (S k) (length (l ++ [e]) - 1) = back l (S k) (length l - 1).
Proof.
  intros Hl (kept & Hkept%last_lookup_Some & Hg).
  rewrite length_app, Nat.add_sub, !Nat.iter_succ_r.
  assert (previous_action (l ++ [e]) (length l) = previous_action l (length l - 1)) as ->.
  { destruct (length l) as [|[|n]] eqn:Hn; [lia|lia|]. simpl in Hkept.
    unfold previous_action at 1. cbn [skip_group].
    assert (group_at (l ++ [e]) (S (S n)) = history_group e) as ->.
    { unfold group_at. rewrite lookup_app_r by lia. by rewrite Hn, Nat.sub_diag. }
    rewrite decide_True.
    - rewrite skip_group_prefix by lia. simpl. unfold group_at. by rewrite Hkept, Hg.
    - unfold in_group. rewrite lookup_app_l by lia. rewrite Hkept. simpl. by f_equal. }
  apply back_prefix. pose proof (previous_action_le l (length l - 1)). lia.
Qed.

Lemma compaction_length l c : compaction l c -> 1 <= length c <= length l.
Proof.
  intros [_ (root & l' & c' & -> & ->) _ _ Hsub _].
  apply sublist_length in Hsub. simpl in *. lia.
Qed.

(** The step index [S k] of a lengthened history, once the walk back from its
    new tip is known to continue at [i]. *)
Lemma lookup_snoc_back (l : list A) e i : i < length l -> (l ++ [e]) !! i = l !! i.
Proof. intros. by apply lookup_app_l. Qed.

Lemma compaction_append l c e kept :
  compaction l c -> last c = Some kept ->
  ~ (1 < length c /\ history_group kept = history_group e) ->
  compaction (l ++ [e]) (c ++ [e]).
Proof.
  intros Hcomp Hkept Hne. pose proof (compaction_length _ _ Hcomp) as Hlen.
  destruct Hcomp as [Hc (root & l' & c' & El & Ec) Hlast Hpair Hsub Hback].
  assert (l <> []) by (by intros ->).
  assert (previous_action (l ++ [e]) (length l) = length l - 1) as Hprev.
  { destruct (length l) as [|[|n]] eqn:Hn; [lia|done|]. simpl.
    assert (group_at (l ++ [e]) (S (S n)) = history_group e) as ->.
    { unfold group_at. rewrite lookup_app_r by lia. by rewrite Hn, Nat.sub_diag. }
    rewrite decide_False; [done|]. unfold in_group. rewrite lookup_app_l by lia.
    rewrite Hlast in Hkept. apply last_lookup_Some in Hkept. rewrite Hn in Hkept. simpl in Hkept.
    rewrite Hkept. simpl. intros [=]. apply Hne. split; [apply Hpair; lia|done]. }
  split.
  - apply compact_snoc; [done|]. intros kept' H1 H2. rewrite Hkept in H2. simplify_eq. tauto.
  - exists root, (l' ++ [e]), (c' ++ [e]). by subst.
  - by rewrite !last_snoc.
  - intros _. rewrite length_app. simpl. lia.
  - by apply sublist_app.
  - intros [|k].
    + cbn [Nat.iter nat_rect]. rewrite !length_app. simpl. rewrite !Nat.add_sub, Nat.sub_0_r.
      rewrite !lookup_app_r, !Nat.sub_diag by lia. split; [done|lia].
    + rewrite back_snoc_new by done. destruct (Hback k) as [Hlook Hz].
      pose proof (back_le l k (length l - 1)). rewrite !length_app. simpl.
      rewrite lookup_snoc_back by lia. replace (length c + 1 - 1 - S k) with (length c - 1 - k) by lia.
      rewrite lookup_snoc_back by lia. done.
Qed.

Lemma group_at_swap (cc : list A) kept e i :
  history_group kept = history_group e -> group_at (cc ++ [kept]) i = group_at (cc ++ [e]) i.
Proof.
  intros Hg. unfold group_at. destruct (decide (i < length cc)).
  - by rewrite !lookup_app_l.
  - rewrite !lookup_app_r by lia. by destruct (i - length cc) as [|[|?]].
Qed.

Lemma compaction_merge l cc e kept :
  compaction l (cc ++ [kept]) -> 1 < length (cc ++ [kept]) ->
  history_group kept = history_group e -> compaction (l ++ [e]) (cc ++ [e]).
Proof.
  intros Hcomp Hcc Hg. pose proof (compaction_length _ _ Hcomp) as Hlen.
  destruct Hcomp as [Hc (root & l' & c' & El & Ec) Hlast Hpair Hsub Hback].
  rewrite last_snoc in Hlast. rewrite length_app in *. simpl in *.
  split.
  - intros i Hi Hi'. rewrite length_app in Hi'. simpl in Hi'.
    rewrite <-!(group_at_swap cc kept e) by done.
    apply Hc; [done|]. rewrite length_app. simpl. lia.
  - destruct cc as [|r cc]; simplify_eq/=; [lia|]. by exists root, (l' ++ [e]), (cc ++ [e]).
  - by rewrite !last_snoc.
  - intros _. rewrite length_app. simpl. lia.
  - apply sublist_app; [|done]. etrans; [|exact Hsub]. by apply sublist_inserts_r.
  - intros [|k].
    + cbn [Nat.iter nat_rect]. rewrite !length_app. simpl. rewrite !Nat.add_sub, Nat.sub_0_r.
      rewrite !lookup_app_r, !Nat.sub_diag by lia. split; [done|lia].
    + rewrite back_snoc_same by (eauto || lia). destruct (Hback (S k)) as [Hlook Hz].
      pose proof (back_le l (S k) (length l - 1)). rewrite lookup_snoc_back by lia.
      rewrite Hlook. rewrite !length_app in *. simpl length in *. split; [|lia].
      rewrite !lookup_snoc_back by lia. done.
Qed.

Lemma compaction_step l c e : compaction l c -> compaction (l ++ [e]) (compact_step c e).
Proof.
  intros Hcomp. pose proof (compaction_length _ _ Hcomp) as Hlen.
  unfold compact_step. destruct (last c) as [kept|] eqn:Hkept.
  - case_decide as Hd; [|by eapply compaction_append].
    pose proof (removelast_snoc _ _ Hkept) as Ec. destruct Hd as [Hlc Hg].
    apply (compaction_merge _ _ _ kept); [by rewrite <-Ec|by rewrite <-Ec|done].
  - apply last_None in Hkept. subst. simpl in *. lia.
Qed.

Lemma compaction_fold rest l c :
  compaction l c -> compaction (l ++ rest) (fold_left compact_step rest c).
Proof.
  revert l c. induction rest as [|e rest IH]; intros l c Hc; simpl; [by rewrite app_nil_r|].
  replace (l ++ e :: rest) with ((l ++ [e]) ++ rest) by (by rewrite <-app_assoc).
  apply IH, compaction_step, Hc.
Qed.

Lemma compacted_entries_spec entries :
  entries <> [] -> compaction entries (compacted_entries entries).
Proof.
  destruct entries as [|root rest]; [done|]. intros _.
  apply (compaction_fold rest [root] [root]), compaction_root.
Qed.

(** ** Retained histories *)

Lemma retained_form entries n :
  entries <> [] ->
  let c := compacted_entries entries in
  retained_history_entries entries n =
    if decide (length c - 1 <= n) then c else take 1 c ++ drop (length c - 1 - n) c.
Proof.
  intros Hne c. pose proof (compacted_entries_spec entries Hne) as Hcomp.
  pose proof (compaction_length _ _ Hcomp) as Hlen. destruct Hcomp as [Hc _ _ _ _ _].
  fold c in Hc, Hlen. unfold retained_history_entries. destruct entries as [|root rest]; [done|].
  fold c. rewrite history_boundary_back by (destruct c; simpl in *; [lia|done]).
  rewrite back_compact by (done || lia). rewrite Nat2Z.id.
  repeat case_decide; (done || lia).
Qed.

(** The kept suffix of a compacted history: [b] entries are dropped after the root. *)
Lemma group_at_cut (c : list A) b i :
  1 <= length c -> 1 <= i -> group_at (take 1 c ++ drop b c) i = group_at c (b + (i - 1)).
Proof.
  intros Hc Hi. unfold group_at. rewrite lookup_app_r by (rewrite length_take; lia).
  rewrite length_take, lookup_drop. by rewrite Nat.min_l by lia.
Qed.

Lemma sublist_cut (c : list A) b : 1 <= b -> take 1 c ++ drop b c `sublist_of` c.
Proof.
  intros Hb. destruct b as [|b]; [lia|]. destruct c as [|root c]; [done|]. simpl.
  by apply sublist_skip, sublist_drop.
Qed.

Lemma compact_cut c b : 1 <= length c -> 1 <= b -> compact c -> compact (take 1 c ++ drop b c).
Proof.
  intros Hlen Hb Hc i Hi Hi'. rewrite length_app, length_take, length_drop in Hi'.
  rewrite !group_at_cut by lia. replace (b + (S i - 1)) with (S (b + (i - 1))) by lia.
  apply Hc; lia.
Qed.

Lemma undo_state_compact c k :
  c <> [] -> compact c ->
  undo_state c k =
    if decide (k <= MAX_RETAINED_HISTORY_ACTIONS /\ k <= length c - 1)
    then c !! (length c - 1 - k) else None.
Proof.
  intros Hne Hc. assert (1 <= length c) by (destruct c; simpl in *; [done|lia]).
  unfold undo_state. rewrite undo_n_spec by done. simpl. rewrite !back_compact by (done || lia).
  destruct (decide (k <= _ /\ (k = 0 \/ _))), (decide (k <= _ /\ k <= _)); (done || lia).
Qed.

Lemma undo_state_compacted entries k :
  entries <> [] -> undo_state entries k = undo_state (compacted_entries entries) k.
Proof.
  intros Hne. pose proof (compacted_entries_spec entries Hne) as Hcomp.
  pose proof (compaction_length _ _ Hcomp) as Hlen.
  destruct Hcomp as [Hc _ _ _ _ Hback]. set (c := compacted_entries entries) in *.
  rewrite (undo_state_compact c); [|by intros E; rewrite E in Hlen; simpl in *; lia|done].
  unfold undo_state. rewrite undo_n_spec by done.
  destruct (Hback (k - 1)) as [_ Hz]. destruct (Hback k) as [Hlook _].
  destruct (decide (k <= _ /\ (k = 0 \/ _))), (decide (k <= _ /\ k <= _));
    cbn [mbind option_bind]; (done || lia).
Qed.

(** Retention does not change undo: any number of undos from the tip leads to
    the same snapshot, or to none, before and after pruning at the default limit. *)
Theorem retention_preserves_undo entries (k : nat) :
  undo_state (retained_history_entries entries MAX_RETAINED_HISTORY_ACTIONS) k =
  undo_state entries k.
Proof.
  destruct (decide (entries = [])) as [->|Hne]; [done|].
  pose proof (compacted_entries_spec entries Hne) as Hcomp.
  pose proof (compaction_length _ _ Hcomp) as Hlen. destruct Hcomp as [Hc _ _ _ _ _].
  rewrite retained_form, (undo_state_compacted entries) by done.
  set (c := compacted_entries entries) in *. case_decide as Hcut; [done|].
  set (b := length c - 1 - MAX_RETAINED_HISTORY_ACTIONS).
  assert (c <> []) by (intros E; rewrite E in Hlen; simpl in *; lia).
  assert (length (take 1 c ++ drop b c) = MAX_RETAINED_HISTORY_ACTIONS + 2) as Hl.
  { rewrite length_app, length_take, length_drop. lia. }
  assert (take 1 c ++ drop b c <> []) by (intros E; rewrite E in Hl; simpl in Hl; lia).
  assert (compact (take 1 c ++ drop b c)) by (apply compact_cut; (done || lia)).
  rewrite !undo_state_compact by done.
  rewrite Hl. repeat case_decide; try lia; [|done].
  rewrite lookup_app_r by (rewrite length_take; lia).
  rewrite length_take, lookup_drop. f_equal. lia.
Qed.

Lemma retained_length entries n :
  entries <> [] ->
  length (retained_history_entries entries n) <= n + 2 /\
  retained_history_entries entries n <> [].
Proof.
  intros Hne. pose proof (compaction_length _ _ (compacted_entries_spec entries Hne)) as Hlen.
  rewrite retained_form by done. case_decide.
  - split; [lia|]. intros E. rewrite E in Hlen. simpl in Hlen. lia.
  - destruct (compacted_entries entries) as [|root c] eqn:E; simpl in *; [lia|].
    split; [|done]. rewrite length_drop. simpl. lia.
Qed.

Lemma retained_spec entries (n : nat) :
  let r := retained_history_entries entries n in
  length r <= n + 2 /\ head r = head entries /\ last r = last entries /\ r `sublist_of` entries.
Proof.
  destruct (decide (entries = [])) as [->|Hne]; [simpl; split_and!; [lia|done..]|].
  pose proof (compacted_entries_spec entries Hne) as Hcomp.
  pose proof (compaction_length _ _ Hcomp) as Hlen.
  destruct Hcomp as [_ (root & l' & c' & El & Ec) Hlast _ Hsub _].
  cbn zeta. split; [by apply retained_length|]. rewrite retained_form by done.
  case_decide as Hcut.
  - split_and!; [by rewrite Ec, El|done..].
  - split_and!.
    + by rewrite Ec, El.
    + rewrite last_app, last_drop_lt by lia. rewrite Hlast.
      destruct (last entries) eqn:E; [done|]. by apply last_None in E.
    + etrans; [|exact Hsub]. apply sublist_cut. lia.
Qed.

(** What pruning keeps: at most the limit plus the undo boundary and the root,
    always the root and the tip, and only snapshots of the history in their order. *)
Theorem retention_bounds entries (n : nat) :
  let r := retained_history_entries entries n in
  length r <= n + 2 /\ head r = head entries /\ last r = last entries /\ r `sublist_of` entries.
Proof. apply retained_spec. Qed.

Lemma compacted_compact c : compact c -> compacted_entries c = c.
Proof.
  intros Hc. destruct c as [|root rest]; [done|]. simpl.
  enough (forall rest pre, compact (root :: pre ++ rest) ->
    fold_left compact_step rest (root :: pre) = root :: pre ++ rest) as Hgen.
  { by apply (Hgen rest []). }
  clear. induction rest as [|e rest IH]; intros pre Hc; simpl; [by rewrite app_nil_r|].
  assert (compact_step (root :: pre) e = root :: pre ++ [e]) as ->.
  { unfold compact_step. destruct (last (root :: pre)) as [kept|] eqn:Hl; [|done].
    rewrite decide_False; [done|]. intros [Hlen Hg]. simpl in Hlen.
    apply last_lookup_Some in Hl. simpl in Hl. rewrite Nat.sub_0_r in Hl.
    destruct (length pre) as [|n] eqn:Hn; [lia|].
    apply (Hc (S n)); [lia|simpl; rewrite length_app; simpl; lia|].
    unfold group_at. simpl in *. rewrite lookup_app_l, Hl by lia.
    rewrite lookup_app_r by lia. by rewrite Hn, Nat.sub_diag. }
  replace (pre ++ e :: rest) with ((pre ++ [e]) ++ rest) in * by (by rewrite <-app_assoc).
  by apply IH.
Qed.

Lemma retained_compact entries n : compact (retained_history_entries entries n).
Proof.
  destruct (decide (entries = [])) as [->|Hne]; [intros i ?; simpl; lia|].
  pose proof (compacted_entries_spec entries Hne) as Hcomp.
  pose proof (compaction_length _ _ Hcomp) as Hlen. destruct Hcomp as [Hc _ _ _ _ _].
  rewrite retained_form by done. case_decide; [done|]. apply compact_cut; (done || lia).
Qed.

(** Pruning a pruned history changes nothing. *)
Theorem retention_idempotent entries (n : nat) :
  retained_history_entries (retained_history_entries entries n) n =
  retained_history_entries entries n.
Proof.
  destruct (decide (entries = [])) as [->|Hne]; [done|].
  pose proof (retained_compact entries n) as Hr.
  pose proof (retained_length entries n Hne) as [Hl Hrne].
  set (r := retained_history_entries entries n) in *.
  rewrite (retained_form r) by done. rewrite compacted_compact by done.
  case_decide; [done|]. replace (length r - 1 - n) with 1 by lia. apply take_drop.
Qed.

(** In a compacted history an undo steps to the neighbour, and redo steps back. *)
Lemma compact_redo_undo (r : list A) cursor target :
  compact r -> cursor < length r -> history_target_index r cursor Undo = Some target ->
  cursor = S target /\ history_target_index r target Redo = Some cursor.
Proof.
  intros Hc Hcur Hundo.
  rewrite history_target_undo in Hundo; [|by destruct r; simpl in *; [lia|]|done].
  case_decide as Hd; [|done]. simplify_eq. rewrite previous_action_compact in * by done.
  split; [lia|]. unfold history_target_index. rewrite decide_False by lia. f_equal.
  replace (cursor - 1 + 1) with cursor by lia. replace (cursor - 1 + 2) with (S cursor) by lia.
  destruct (drop (S cursor) r) as [|e rest] eqn:Hdrop; [done|]. simpl.
  assert (r !! S cursor = Some e) as He.
  { rewrite <-(Nat.add_0_r (S cursor)), <-lookup_drop, Hdrop. done. }
  rewrite decide_False; [done|]. intros Hg.
  apply (Hc cursor); [lia|by eapply lookup_lt_Some|]. rewrite <-Hg. unfold group_at.
  by rewrite He.
Qed.

(** Undo and redo lead to an entry of the history. *)
Lemma history_target_lt entries cursor action target :
  cursor < length entries -> history_target_index entries cursor action = Some target ->
  target < length entries.
Proof.
  intros Hc. destruct action; simpl.
  - destruct cursor as [|previous]; [done|]. case_decide; [|done]. intros [= <-].
    pose proof (skip_group_le entries (group_at entries (S previous)) previous). lia.
  - case_decide as Hd; [done|]. intros [= <-].
    assert (Hadv : forall rest g t, advance_group rest g t <= t + length rest).
    { induction rest as [|e rest IH]; intros g t; simpl; [lia|].
      case_decide; [|lia]. specialize (IH g (S t)). lia. }
    specialize (Hadv (drop (cursor + 2) entries) (group_at entries (cursor + 1)) (cursor + 1)).
    rewrite length_drop in Hadv. lia.
Qed.

(** A new action at the tip of a compacted history keeps its predecessor. *)
Lemma retained_new_action c (e x : A) n :
  compact (c ++ [e; x]) -> 1 <= n -> exists r, retained_history_entries (c ++ [e; x]) n = r ++ [e; x].
Proof.
  intros Hc Hn. rewrite retained_form by by destruct c. cbn zeta. rewrite compacted_compact by done.
  case_decide as Hlen; [by exists c|]. rewrite length_app in *. simpl in *.
  exists (take 1 c ++ drop (length c + 2 - 1 - n) c).
  rewrite take_app_le, drop_app_le by lia. by rewrite app_assoc.
Qed.

Lemma undo_new_action r (e x : A) :
  compact (r ++ [e; x]) -> history_target_index (r ++ [e; x]) (S (length r)) Undo = Some (length r).
Proof.
  intros Hc. rewrite history_target_undo; [|by destruct r|rewrite length_app; simpl; lia].
  rewrite back_compact, previous_action_compact by (done || rewrite ?length_app; simpl; lia).
  rewrite length_app. cbn [length].
  assert (1 <= MAX_RETAINED_HISTORY_ACTIONS) by (apply (bool_decide_unpack _); vm_compute; exact I).
  rewrite decide_True by lia. f_equal. lia.
Qed.

(** On a pruned history, redo undoes an undo: it returns to the entry the
    undo left. *)
Theorem redo_after_undo entries (n cursor target : nat) :
  let r := retained_history_entries entries n in
  cursor < length r -> history_target_index r cursor Undo = Some target ->
  cursor = S target /\ history_target_index r target Redo = Some cursor.
Proof. intros r. apply compact_redo_undo, retained_compact. Qed.
End retention.

(** ** Concrete histories *)

Record HistoryEntryRef := {
  ref_id : Z;
  ref_parent_id : option Z;
  ref_operation_group_id : option string;
}.

#[export] Instance HistoryEntryRef_entry : HistoryEntry HistoryEntryRef := {
  entry_id := ref_id;
  operation_group_id := ref_operation_group_id;
}.

Definition sample_ref (i : Z) (g : option string) : HistoryEntryRef :=
  {| ref_id := i; ref_parent_id := if decide (i = 1)%Z then None else Some (i - 1)%Z;
     ref_operation_group_id := g |}.

(** A root, two ungrouped edits and one three-step gesture. *)
Definition sample_history : list HistoryEntryRef :=
  [sample_ref 1 None; sample_ref 2 None; sample_ref 3 (Some "dgrp_a"%string);
   sample_ref 4 (Some "dgrp_a"%string); sample_ref 5 (Some "dgrp_a"%string); sample_ref 6 None].

Example sample_retained :
  ref_id <$> retained_history_entries sample_history 100 = [1; 2; 5; 6]%Z.
Proof. vm_compute. reflexivity. Qed.

Lemma redo_after_undo_witness :
  let r := retained_history_entries sample_history 100 in
  3 = S 2 /\ history_target_index r 2 Redo = Some 3.
Proof.
  apply (redo_after_undo sample_history 100 3 2); [vm_compute; lia|vm_compute; reflexivity].
Defined.

(** The retained limit is configurable, but the undo boundary is always computed
    with the default limit: with a limit of one action the second undo from the
    tip leads to the initial snapshot, although the full history leads to the
    edit in between. *)
Theorem small_limit_skips_pruned_states :
  let full := [sample_ref 1 None; sample_ref 2 None; sample_ref 3 None; sample_ref 4 None] in
  let pruned := retained_history_entries full 1 in
  ref_id <$> pruned = [1; 3; 4]%Z /\
  ref_id <$> undo_state full 2 = Some 2%Z /\
  ref_id <$> undo_state pruned 2 = Some 1%Z.
Proof. vm_compute. done. Qed.
