(* ===== verification/DesignModels.v ===== *)
(** * Design documents

    The contracts of [schemii/designs/models.py]: one record per Pydantic model,
    one inductive type per [Literal], and for each model the boolean test of its
    field constraints.  Texts are UTF-8 encoded strings (see [PyString]). *)

From Stdlib Require Import Ascii String Floats.SpecFloat.
From S2P Require Import Prelude PyString.
Open Scope string_scope.

(** ** Field constraints *)

Definition length_between (lo hi : nat) (s : string) : bool :=
  bool_decide (lo <= py_len s <= hi).

Definition DesignIdentifier (s : string) : bool := length_between 1 63 s.

Definition is_lower_letter (c : ascii) : bool := bool_decide (97 <= byte_of c <= 122)%N.
Definition is_hex_digit (c : ascii) : bool :=
  bool_decide ((48 <= byte_of c <= 57) \/ (97 <= byte_of c <= 102))%N.

(** [\[0-9a-f\]{n}] up to the end of the text. *)
Fixpoint hex_run (n : nat) (s : string) : bool :=
  match n, s with
  | 0, EmptyString => true
  | S n', String c s' => is_hex_digit c && hex_run n' s'
  | _, _ => false
  end.

(** [\[a-z\]*_\[0-9a-f\]{32}] up to the end of the text. *)
Fixpoint lower_then_hex (s : string) : bool :=
  match s with
  | EmptyString => false
  | String c s' =>
      if bool_decide (c = "_"%char) then hex_run 32 s'
      else is_lower_letter c && lower_then_hex s'
  end.

(** The pattern [^\[a-z\]+_\[0-9a-f\]{32}$]. *)
Definition DesignObjectId (s : string) : bool :=
  match s with
  | String c s' => is_lower_letter c && lower_then_hex s'
  | EmptyString => false
  end.

Definition prefixed_hex (prefix : string) (n : nat) (s : string) : bool :=
  String.prefix prefix s && hex_run n (String.substring (String.length prefix) (String.length s) s).

Definition DesignExpression (s : string) : bool := bool_decide (N.of_nat (py_len s) <= 262144)%N.
Definition DesignHistoryGroupId (s : string) : bool := prefixed_hex "dgrp_" 32 s.
Definition WorkspaceId (s : string) : bool := prefixed_hex "ws_" 32 s.

Definition opt_check {A} (f : A -> bool) (o : option A) : bool :=
  match o with Some a => f a | None => true end.

Definition list_check {A} (f : A -> bool) (lo hi : N) (l : list A) : bool :=
  forallb f l && bool_decide (lo <= N.of_nat (length l) <= hi)%N.

(** ** Literals *)

Inductive type_kind := TKEnum | TKDomain.
Inductive identity_kind := IdAlways | IdByDefault.
Inductive key_kind := KPrimary | KUnique.
Inductive fk_action := NoAction | Restrict | Cascade | SetNull | SetDefault.
Inductive routine_kind := RFunction | RProcedure.
Inductive trigger_timing := TBefore | TAfter | TInsteadOf.
Inductive trigger_event := EInsert | EUpdate | EDelete | ETruncate.
Inductive trigger_orientation := ORow | OStatement.
Inductive view_kind := VView | VMaterialized.
Inductive layer_kind := LTables | LViews.
Inductive object_kind :=
| KType | KTable | KColumn | KKey | KCheck | KIndex | KRelationship | KRoutine | KView | KTrigger.
Inductive deletion_severity := SevBehavior | SevPerformance | SevIntegrity | SevDataLoss.

#[export] Instance type_kind_eq_dec : EqDecision type_kind. Proof. solve_decision. Defined.
#[export] Instance identity_kind_eq_dec : EqDecision identity_kind. Proof. solve_decision. Defined.
#[export] Instance key_kind_eq_dec : EqDecision key_kind. Proof. solve_decision. Defined.
#[export] Instance fk_action_eq_dec : EqDecision fk_action. Proof. solve_decision. Defined.
#[export] Instance routine_kind_eq_dec : EqDecision routine_kind. Proof. solve_decision. Defined.
#[export] Instance trigger_timing_eq_dec : EqDecision trigger_timing. Proof. solve_decision. Defined.
#[export] Instance trigger_event_eq_dec : EqDecision trigger_event. Proof. solve_decision. Defined.
#[export] Instance trigger_orientation_eq_dec : EqDecision trigger_orientation.
Proof. solve_decision. Defined.
#[export] Instance view_kind_eq_dec : EqDecision view_kind. Proof. solve_decision. Defined.
#[export] Instance layer_kind_eq_dec : EqDecision layer_kind. Proof. solve_decision. Defined.
#[export] Instance object_kind_eq_dec : EqDecision object_kind. Proof. solve_decision. Defined.
#[export] Instance deletion_severity_eq_dec : EqDecision deletion_severity.
Proof. solve_decision. Defined.

(** The spelling of an object kind in messages and sort keys. *)
Definition object_kind_text (k : object_kind) : string :=
  match k with
  | KType => "type" | KTable => "table" | KColumn => "column" | KKey => "key"
  | KCheck => "check" | KIndex => "index" | KRelationship => "relationship"
  | KRoutine => "routine" | KView => "view" | KTrigger => "trigger"
  end.

(** ** Types, tables and their parts *)

Record DesignDomainCheck := {
  dck_name : option string;
  dck_expression : string;
}.

Record DesignType := {
  dt_id : string;
  dt_name : string;
  dt_kind : type_kind;
  dt_enum_values : list string;
  dt_base_type : option string;
  dt_default_expression : option string;
  dt_not_null : bool;
  dt_checks : list DesignDomainCheck;
  dt_collation : option string;
  dt_definition : string;
}.

Record DesignColumn := {
  dc_id : string;
  dc_name : string;
  dc_data_type : string;
  dc_nullable : bool;
  dc_default_expression : option string;
  dc_identity : option identity_kind;
  dc_generated_expression : option string;
  dc_generated_source_column_ids : list string;
}.

Record DesignKeyConstraint := {
  dk_id : string;
  dk_name : string;
  dk_kind : key_kind;
  dk_column_ids : list string;
}.

Record DesignCheckConstraint := {
  ck_id : string;
  ck_name : string;
  ck_expression : string;
  ck_column_ids : list string;
}.

Record DesignIndex := {
  ix_id : string;
  ix_name : string;
  ix_method : string;
  ix_column_ids : list string;
  ix_include_column_ids : list string;
  ix_expression : option string;
  ix_expression_source_column_ids : list string;
  ix_predicate : option string;
  ix_predicate_column_ids : list string;
  ix_unique : bool;
}.

Record DesignTable := {
  tb_id : string;
  tb_name : string;
  tb_columns : list DesignColumn;
  tb_keys : list DesignKeyConstraint;
  tb_checks : list DesignCheckConstraint;
  tb_indexes : list DesignIndex;
}.

Record DesignRelationship := {
  rl_id : string;
  rl_name : string;
  rl_source_table_id : string;
  rl_source_column_ids : list string;
  rl_target_table_id : string;
  rl_target_column_ids : list string;
  rl_on_update : fk_action;
  rl_on_delete : fk_action;
  rl_deferrable : bool;
  rl_initially_deferred : bool;
}.

Record DesignFunction := {
  fn_id : string;
  fn_name : string;
  fn_kind : routine_kind;
  fn_arguments : string;
  fn_identity_arguments : string;
  fn_return_type : option string;
  fn_language : string;
  fn_definition : string;
}.

Record DesignTrigger := {
  tr_id : string;
  tr_name : string;
  tr_relation_name : string;
  tr_timing : trigger_timing;
  tr_events : list trigger_event;
  tr_orientation : trigger_orientation;
  tr_function_name : string;
  tr_function_arguments : list string;
  tr_update_columns : list string;
  tr_referenced_columns : list string;
  tr_when_expression : option string;
  tr_transition_relations : list string;
  tr_constraint : bool;
  tr_deferrable : bool;
  tr_initially_deferred : bool;
  tr_definition : string;
}.

Record DesignView := {
  vw_id : string;
  vw_name : string;
  vw_kind : view_kind;
  vw_definition : string;
  vw_populate_on_create : option bool;
}.

Record SchemiiDesignContent := {
  content_types : list DesignType;
  content_tables : list DesignTable;
  content_relationships : list DesignRelationship;
  content_functions : list DesignFunction;
  content_views : list DesignView;
  content_triggers : list DesignTrigger;
}.

#[export] Instance DesignDomainCheck_eq_dec : EqDecision DesignDomainCheck.
Proof. solve_decision. Defined.
#[export] Instance DesignType_eq_dec : EqDecision DesignType. Proof. solve_decision. Defined.
#[export] Instance DesignColumn_eq_dec : EqDecision DesignColumn. Proof. solve_decision. Defined.
#[export] Instance DesignKeyConstraint_eq_dec : EqDecision DesignKeyConstraint.
Proof. solve_decision. Defined.
#[export] Instance DesignCheckConstraint_eq_dec : EqDecision DesignCheckConstraint.
Proof. solve_decision. Defined.
#[export] Instance DesignIndex_eq_dec : EqDecision DesignIndex. Proof. solve_decision. Defined.
#[export] Instance DesignTable_eq_dec : EqDecision DesignTable. Proof. solve_decision. Defined.
#[export] Instance DesignRelationship_eq_dec : EqDecision DesignRelationship.
Proof. solve_decision. Defined.
#[export] Instance DesignFunction_eq_dec : EqDecision DesignFunction. Proof. solve_decision. Defined.
#[export] Instance DesignTrigger_eq_dec : EqDecision DesignTrigger. Proof. solve_decision. Defined.
#[export] Instance DesignView_eq_dec : EqDecision DesignView. Proof. solve_decision. Defined.
#[export] Instance SchemiiDesignContent_eq_dec : EqDecision SchemiiDesignContent.
Proof. solve_decision. Defined.

(** [EMPTY_DESIGN_CONTENT]. *)
Definition EMPTY_DESIGN_CONTENT : SchemiiDesignContent :=
  {| content_types := []; content_tables := []; content_relationships := [];
     content_functions := []; content_views := []; content_triggers := [] |}.

(** ** Field constraints of each model *)

Definition ids_check (l : list string) : bool := list_check DesignObjectId 0 1600 l.

Definition DesignDomainCheck_check (c : DesignDomainCheck) : bool :=
  opt_check DesignIdentifier (dck_name c) && DesignExpression (dck_expression c).

Definition DesignType_check (t : DesignType) : bool :=
  DesignObjectId (dt_id t) && DesignIdentifier (dt_name t) &&
  list_check (length_between 0 63) 0 10000 (dt_enum_values t) &&
  opt_check (length_between 1 512) (dt_base_type t) &&
  opt_check DesignExpression (dt_default_expression t) &&
  list_check DesignDomainCheck_check 0 10000 (dt_checks t) &&
  opt_check (length_between 1 255) (dt_collation t) &&
  DesignExpression (dt_definition t).

Definition DesignColumn_check (c : DesignColumn) : bool :=
  DesignObjectId (dc_id c) && DesignIdentifier (dc_name c) &&
  length_between 1 512 (dc_data_type c) &&
  opt_check DesignExpression (dc_default_expression c) &&
  opt_check DesignExpression (dc_generated_expression c) &&
  ids_check (dc_generated_source_column_ids c).

Definition DesignKeyConstraint_check (k : DesignKeyConstraint) : bool :=
  DesignObjectId (dk_id k) && DesignIdentifier (dk_name k) &&
  list_check DesignObjectId 1 1600 (dk_column_ids k).

Definition DesignCheckConstraint_check (c : DesignCheckConstraint) : bool :=
  DesignObjectId (ck_id c) && DesignIdentifier (ck_name c) &&
  DesignExpression (ck_expression c) && ids_check (ck_column_ids c).

Definition DesignIndex_check (i : DesignIndex) : bool :=
  DesignObjectId (ix_id i) && DesignIdentifier (ix_name i) && DesignIdentifier (ix_method i) &&
  ids_check (ix_column_ids i) && ids_check (ix_include_column_ids i) &&
  opt_check DesignExpression (ix_expression i) &&
  ids_check (ix_expression_source_column_ids i) &&
  opt_check DesignExpression (ix_predicate i) && ids_check (ix_predicate_column_ids i).

Definition DesignTable_check (t : DesignTable) : bool :=
  DesignObjectId (tb_id t) && DesignIdentifier (tb_name t) &&
  list_check DesignColumn_check 1 1600 (tb_columns t) &&
  list_check DesignKeyConstraint_check 0 1600 (tb_keys t) &&
  list_check DesignCheckConstraint_check 0 1600 (tb_checks t) &&
  list_check DesignIndex_check 0 1600 (tb_indexes t).

Definition DesignRelationship_check (r : DesignRelationship) : bool :=
  DesignObjectId (rl_id r) && DesignIdentifier (rl_name r) &&
  DesignObjectId (rl_source_table_id r) &&
  list_check DesignObjectId 1 1600 (rl_source_column_ids r) &&
  DesignObjectId (rl_target_table_id r) &&
  list_check DesignObjectId 1 1600 (rl_target_column_ids r).

Definition DesignFunction_check (f : DesignFunction) : bool :=
  DesignObjectId (fn_id f) && DesignIdentifier (fn_name f) &&
  DesignExpression (fn_arguments f) && DesignExpression (fn_identity_arguments f) &&
  opt_check DesignExpression (fn_return_type f) &&
  DesignIdentifier (fn_language f) && DesignExpression (fn_definition f).

Definition DesignTrigger_check (t : DesignTrigger) : bool :=
  DesignObjectId (tr_id t) && DesignIdentifier (tr_name t) &&
  DesignIdentifier (tr_relation_name t) &&
  list_check (fun _ => true) 1 4 (tr_events t) &&
  length_between 1 255 (tr_function_name t) &&
  list_check DesignExpression 0 100 (tr_function_arguments t) &&
  list_check DesignIdentifier 0 1600 (tr_update_columns t) &&
  list_check DesignIdentifier 0 1600 (tr_referenced_columns t) &&
  opt_check DesignExpression (tr_when_expression t) &&
  list_check DesignExpression 0 2 (tr_transition_relations t) &&
  DesignExpression (tr_definition t).

Definition DesignView_check (v : DesignView) : bool :=
  DesignObjectId (vw_id v) && DesignIdentifier (vw_name v) && DesignExpression (vw_definition v).

(** [DesignView.valid_population_intent]: [None] is the rejected combination. *)
Definition valid_population_intent (v : DesignView) : option DesignView :=
  match vw_kind v, vw_populate_on_create v with
  | VView, Some _ => None
  | VMaterialized, None =>
      Some {| vw_id := vw_id v; vw_name := vw_name v; vw_kind := vw_kind v;
              vw_definition := vw_definition v; vw_populate_on_create := Some true |}
  | _, _ => Some v
  end.

Definition SchemiiDesignContent_check (c : SchemiiDesignContent) : bool :=
  list_check DesignType_check 0 5000 (content_types c) &&
  list_check DesignTable_check 0 10000 (content_tables c) &&
  list_check DesignRelationship_check 0 20000 (content_relationships c) &&
  list_check DesignFunction_check 0 5000 (content_functions c) &&
  list_check DesignView_check 0 5000 (content_views c) &&
  list_check DesignTrigger_check 0 10000 (content_triggers c).

(** ** Layouts *)

Record DesignObjectPosition := {
  pos_object_id : string;
  pos_layer : layer_kind;
  pos_x : spec_float;
  pos_y : spec_float;
}.

Definition million : spec_float :=
  S754_finite false 8589934592000000 (-33).

Definition coordinate_check (x : spec_float) : bool :=
  SFleb (SFopp million) x && SFleb x million.

Definition DesignObjectPosition_check (p : DesignObjectPosition) : bool :=
  DesignObjectId (pos_object_id p) && coordinate_check (pos_x p) && coordinate_check (pos_y p).

Record SchemiiDesignLayoutContent := {
  layout_objects : list DesignObjectPosition;
}.

(** Field constraints and the validator [unique_objects]. *)
Definition SchemiiDesignLayoutContent_check (c : SchemiiDesignLayoutContent) : bool :=
  list_check DesignObjectPosition_check 0 20000 (layout_objects c) &&
  bool_decide (NoDup (pos_object_id <$> layout_objects c)).

Record SchemiiDesignLayout := {
  layout_workspace_id : string;
  layout_revision : Z;
  layout_design_revision : Z;
  layout_content : SchemiiDesignLayoutContent;
}.

Record SchemiiDesignLayoutReplace := {
  lrep_expected_layout_revision : Z;
  lrep_expected_design_revision : Z;
  lrep_content : SchemiiDesignLayoutContent;
}.

(** ** Versioned designs and replacement requests *)

Record SchemiiDesign := {
  design_workspace_id : string;
  design_revision : Z;
  design_content : SchemiiDesignContent;
  design_fingerprint_field : string;
}.

Record SchemiiDesignReplace := {
  drep_expected_design_revision : Z;
  drep_content : SchemiiDesignContent;
  drep_history_group_id : option string;
}.

(** ** History *)

Inductive change_operation := ChAdded | ChRemoved | ChChanged | ChRenamed.

#[export] Instance change_operation_eq_dec : EqDecision change_operation.
Proof. solve_decision. Defined.

Record DesignChangeItem := {
  chg_operation : change_operation;
  chg_kind : object_kind;
  chg_name : string;
  chg_previous_name : option string;
}.

#[export] Instance DesignChangeItem_eq_dec : EqDecision DesignChangeItem.
Proof. solve_decision. Defined.

Record DesignChangeSummary := {
  sum_title : string;
  sum_change_count : nat;
  sum_changes : list DesignChangeItem;
}.

Inductive baseline_kind := BWorkspaceStart | BPostgresql.

Record DesignHistoryBaseline := {
  hb_kind : baseline_kind;
  hb_id : string;
  hb_revision : Z;
  hb_design_revision : Z;
  hb_label : string;
  hb_fingerprint : string;
  hb_complete : bool;
}.
