(* ===== verification/DefinitionAnalysis.v ===== *)
(** * Contracts derived from SQL definitions

    [common/postgres/type_analysis.py], [routine_analysis.py] and
    [trigger_analysis.py], the validators of [designs/models.py] that replace
    submitted metadata by the derived contract, and
    [query_analysis.py]'s [parse_query_definition].

    The parsers are third-party code: the class [Pglast] holds what the analysers
    use of pglast ([parse_sql] and the [RawStream] renderer) and the class
    [Sqlglot] what they use of sqlglot.  A pglast node is represented by the
    document its call [node()] gives, next to the attributes the code reads. *)

From Stdlib Require Import Ascii String.
From S2P Require Import Prelude Json PyString DesignModels.
Open Scope string_scope.
Open Scope result_scope.

(** ** Statements of the PostgreSQL grammar *)

Inductive constr_type :=
| CONSTR_NULL | CONSTR_NOTNULL | CONSTR_DEFAULT | CONSTR_CHECK | CONSTR_OTHER.

#[export] Instance constr_type_eq_dec : EqDecision constr_type. Proof. solve_decision. Defined.

Record pg_constraint := {
  cn_contype : constr_type;
  cn_raw_expr : option json;
  cn_conname : option string;
}.

Record pg_type_name := { tn_names : list string; tn_node : json }.
Record pg_coll_clause := { cc_collname : list string; cc_node : json }.

Record pg_create_domain := {
  cd_domainname : list string;
  cd_typeName : pg_type_name;
  cd_constraints : list pg_constraint;
  cd_collClause : option pg_coll_clause;
}.

Inductive param_mode :=
| FUNC_PARAM_IN | FUNC_PARAM_OUT | FUNC_PARAM_INOUT | FUNC_PARAM_VARIADIC
| FUNC_PARAM_TABLE | FUNC_PARAM_DEFAULT.

#[export] Instance param_mode_eq_dec : EqDecision param_mode. Proof. solve_decision. Defined.

Record pg_parameter := {
  fp_name : option string;
  fp_mode : param_mode;
  fp_argType : json;
  fp_defexpr : option json;
  fp_node : json;
}.

(** [do_arg] is [Some] of the text when the argument is an [ast.String]. *)
Record pg_option := { do_defname : string; do_arg : option string }.

Record pg_create_function := {
  cf_is_procedure : bool;
  cf_funcname : list string;
  cf_parameters : list pg_parameter;
  cf_returnType : option json;
  cf_options : list pg_option;
}.

Record pg_create_trigger := {
  ct_trigname : string;
  ct_catalogname : option string;
  ct_schemaname : option string;
  ct_relname : string;
  ct_timing : Z;
  ct_events : Z;
  ct_row : bool;
  ct_funcname : list string;
  ct_args : list string;
  ct_columns : list string;
  ct_whenClause : option json;
  ct_transitionRels : list json;
  ct_isconstraint : bool;
  ct_deferrable : bool;
  ct_initdeferred : bool;
}.

Inductive sort_direction := SORTBY_DEFAULT | SORTBY_ASC | SORTBY_DESC | SORTBY_USING.
Inductive sort_nulls := SORTBY_NULLS_DEFAULT | SORTBY_NULLS_FIRST | SORTBY_NULLS_LAST.

#[export] Instance sort_direction_eq_dec : EqDecision sort_direction. Proof. solve_decision. Defined.
#[export] Instance sort_nulls_eq_dec : EqDecision sort_nulls. Proof. solve_decision. Defined.

Record pg_index_elem := {
  ie_name : option string;
  ie_expr : option json;
  ie_collation : list string;
  ie_opclass : list string;
  ie_opclassopts : list json;
  ie_ordering : sort_direction;
  ie_nulls_ordering : sort_nulls;
  ie_node : json;
}.

Record pg_index := {
  is_idxname : option string;
  is_relname : string;
  is_options : list json;
  is_tableSpace : option string;
  is_nulls_not_distinct : bool;
  is_indexParams : list pg_index_elem;
  is_indexIncludingParams : list pg_index_elem;
  is_whereClause : option json;
  is_accessMethod : option string;
  is_unique : bool;
}.

(** An [AlterTableStmt] has the [def_] of each command, when that is a constraint. *)
Inductive pg_stmt :=
| CreateEnumStmt (typeName vals : list string)
| CreateDomainStmt (s : pg_create_domain)
| CreateFunctionStmt (s : pg_create_function)
| CreateTrigStmt (s : pg_create_trigger)
| IndexStmt (s : pg_index)
| AlterTableStmt (cmds : list (option pg_constraint))
| OtherStmt.

(** What the analysers use of pglast; [parse_sql] gives [None] for [ParseError]. *)
Class Pglast := {
  parse_sql : string -> option (list pg_stmt);
  raw_stream : json -> string;
  TRIGGER_TYPE_BEFORE : Z;
  TRIGGER_TYPE_INSTEAD : Z;
  TRIGGER_TYPE_INSERT : Z;
  TRIGGER_TYPE_UPDATE : Z;
  TRIGGER_TYPE_DELETE : Z;
  TRIGGER_TYPE_TRUNCATE : Z;
}.

(** The exceptions, with their messages and codes. *)
Inductive definition_error :=
| TypeDefinitionError (message code : string)
| RoutineDefinitionError (message code : string)
| TriggerDefinitionError (message code : string)
| QueryDefinitionError (code message : string).

(** ** Derived contracts *)

Record DomainCheckDefinition := {
  dcd_name : option string;
  dcd_expression : string;
}.

Record TypeDefinition := {
  td_name : string;
  td_kind : type_kind;
  td_enum_values : list string;
  td_base_type : option string;
  td_base_type_name : option string;
  td_default_expression : option string;
  td_not_null : bool;
  td_checks : list DomainCheckDefinition;
  td_collation : option string;
}.

Record RoutineDefinition := {
  rd_name : string;
  rd_kind : routine_kind;
  rd_arguments : string;
  rd_identity_arguments : string;
  rd_return_type : option string;
  rd_language : string;
}.

Record TriggerDefinition := {
  trd_name : string;
  trd_relation_name : string;
  trd_timing : trigger_timing;
  trd_events : list trigger_event;
  trd_orientation : trigger_orientation;
  trd_function_name : string;
  trd_function_arguments : list string;
  trd_update_columns : list string;
  trd_referenced_columns : list string;
  trd_when_expression : option string;
  trd_transition_relations : list string;
  trd_constraint : bool;
  trd_deferrable : bool;
  trd_initially_deferred : bool;
}.

Section analysers.
Context `{Pglast}.

Definition render (node : json) : string := py_strip (raw_stream node).

(** *** Enums and domains *)

Definition type_name_of (parts : list string) (category : string) : result definition_error string :=
  match parts with
  | [part] =>
      if bool_decide (part = "") then
        Err (TypeDefinitionError
          ("Omit the schema from the " ++ category ++ "; the workspace target supplies it")
          "target_independent_name_required")
      else Ok part
  | _ =>
      Err (TypeDefinitionError
        ("Omit the schema from the " ++ category ++ "; the workspace target supplies it")
        "target_independent_name_required")
  end.

(** [len(parts) > 1 and parts\[0\].sval != "pg_catalog"]. *)
Definition foreign_schema (parts : list string) : bool :=
  match parts with
  | first :: _ :: _ => negb (bool_decide (first = "pg_catalog"))
  | _ => false
  end.

Definition domain_collation (s : pg_create_domain) : result definition_error (option string) :=
  match cd_collClause s with
  | None => Ok None
  | Some clause =>
      guard_err (foreign_schema (cc_collname clause))
        (TypeDefinitionError "Omit the schema from a domain collation unless it is pg_catalog"
           "target_independent_collation_required") ;;;
      Ok (Some (py_strip (py_removeprefix "COLLATE " (render (cc_node clause)))))
  end.

(** The lists [defaults], [nullability] and [checks] after the loop. *)
Record domain_clauses := {
  dcl_defaults : list string;
  dcl_nullability : list constr_type;
  dcl_checks : list DomainCheckDefinition;
}.

Fixpoint domain_loop (constraints : list pg_constraint) (acc : domain_clauses)
    : result definition_error domain_clauses :=
  match constraints with
  | [] => Ok acc
  | c :: rest =>
      match cn_contype c with
      | CONSTR_DEFAULT =>
          match cn_raw_expr c with
          | None => Err (TypeDefinitionError "The domain default expression could not be derived"
                           "default_expression_required")
          | Some e => domain_loop rest
              {| dcl_defaults := dcl_defaults acc ++ [render e];
                 dcl_nullability := dcl_nullability acc; dcl_checks := dcl_checks acc |}
          end
      | CONSTR_NULL | CONSTR_NOTNULL =>
          domain_loop rest
            {| dcl_defaults := dcl_defaults acc;
               dcl_nullability := dcl_nullability acc ++ [cn_contype c];
               dcl_checks := dcl_checks acc |}
      | CONSTR_CHECK =>
          match cn_raw_expr c with
          | None => Err (TypeDefinitionError "The domain check expression could not be derived"
                           "check_expression_required")
          | Some e => domain_loop rest
              {| dcl_defaults := dcl_defaults acc; dcl_nullability := dcl_nullability acc;
                 dcl_checks := dcl_checks acc ++
                   [{| dcd_name := cn_conname c; dcd_expression := render e |}] |}
          end
      | CONSTR_OTHER => Err (TypeDefinitionError "The domain contains an unsupported constraint"
                               "unsupported_domain_constraint")
      end
  end.

Definition domain_definition (s : pg_create_domain) : result definition_error TypeDefinition :=
  let! name := type_name_of (cd_domainname s) "domain name" in
  let type_parts := tn_names (cd_typeName s) in
  guard_err (foreign_schema type_parts)
    (TypeDefinitionError "Omit the schema from a domain base type unless it is pg_catalog"
       "target_independent_base_type_required") ;;;
  guard_err (bool_decide (type_parts = []))
    (TypeDefinitionError "The domain base type could not be derived" "base_type_required") ;;;
  let! clauses := domain_loop (cd_constraints s)
    {| dcl_defaults := []; dcl_nullability := []; dcl_checks := [] |} in
  guard_err (bool_decide (1 < length (dcl_defaults clauses)))
    (TypeDefinitionError "A domain may declare only one default expression" "duplicate_default") ;;;
  guard_err (bool_decide (1 < length (dcl_nullability clauses)))
    (TypeDefinitionError "A domain may declare NULL or NOT NULL only once"
       "duplicate_nullability") ;;;
  guard_err (negb (bool_decide (NoDup (omap dcd_name (dcl_checks clauses)))))
    (TypeDefinitionError "Named domain constraints must be unique" "duplicate_constraint_name") ;;;
  let! collation := domain_collation s in
  Ok {| td_name := name;
        td_kind := TKDomain;
        td_enum_values := [];
        td_base_type := Some (render (tn_node (cd_typeName s)));
        td_base_type_name := match type_parts with [part] => Some part | _ => None end;
        td_default_expression := head (dcl_defaults clauses);
        td_not_null := bool_decide (dcl_nullability clauses = [CONSTR_NOTNULL]);
        td_checks := dcl_checks clauses;
        td_collation := collation |}.

Definition enum_definition (typeName values : list string) : result definition_error TypeDefinition :=
  let! name := type_name_of typeName "type name" in
  guard_err (bool_decide (values = []))
    (TypeDefinitionError "An enum must contain at least one value" "enum_value_required") ;;;
  guard_err (negb (bool_decide (NoDup values)))
    (TypeDefinitionError "Enum values must be unique" "duplicate_enum_value") ;;;
  guard_err (existsb (fun value => bool_decide (63 < String.length value)) values)
    (TypeDefinitionError "Enum values must fit PostgreSQL's 63-byte label limit"
       "enum_value_too_long") ;;;
  Ok {| td_name := name; td_kind := TKEnum; td_enum_values := values;
        td_base_type := None; td_base_type_name := None; td_default_expression := None;
        td_not_null := false; td_checks := []; td_collation := None |}.

Definition analyze_type_definition (definition : string) : result definition_error TypeDefinition :=
  let source := py_strip definition in
  guard_err (bool_decide (source = ""))
    (TypeDefinitionError "Enter one CREATE TYPE AS ENUM or CREATE DOMAIN statement"
       "definition_required") ;;;
  match parse_sql source with
  | None => Err (TypeDefinitionError "The type definition is not valid PostgreSQL syntax"
                   "invalid_syntax")
  | Some [statement] =>
      match statement with
      | CreateEnumStmt typeName vals => enum_definition typeName vals
      | CreateDomainStmt s => domain_definition s
      | _ => Err (TypeDefinitionError "The definition must be CREATE TYPE AS ENUM or CREATE DOMAIN"
                    "create_type_required")
      end
  | Some _ => Err (TypeDefinitionError "A type definition must contain exactly one statement"
                     "multiple_statements")
  end.

(** *** Functions and procedures *)

Definition render_parameter (p : pg_parameter) : string :=
  let rendered := render (fp_node p) in
  match fp_defexpr p with
  | Some _ => py_replace_first " = " " DEFAULT " rendered
  | None => rendered
  end.

Definition input_parameter (p : pg_parameter) : bool :=
  match fp_mode p with FUNC_PARAM_OUT | FUNC_PARAM_TABLE => false | _ => true end.

Definition routine_return_type (s : pg_create_function) (parameters : list pg_parameter)
    : option string :=
  if cf_is_procedure s then None else
  match filter (fun p => fp_mode p = FUNC_PARAM_TABLE) parameters with
  | [] => render <$> cf_returnType s
  | table_columns => Some ("TABLE (" ++ py_join ", " (render_parameter <$> table_columns) ++ ")")
  end.

Definition identity_argument (p : pg_parameter) : string :=
  (if bool_decide (fp_mode p = FUNC_PARAM_VARIADIC) then "VARIADIC " else "")
  ++ render (fp_argType p).

(** The text of the single LANGUAGE option, when it is a non-empty string. *)
Definition routine_language (s : pg_create_function) : option string :=
  match filter (fun o => do_defname o = "language") (cf_options s) with
  | [o] => match do_arg o with
           | Some language => if bool_decide (language = "") then None else Some language
           | None => None
           end
  | _ => None
  end.

Definition routine_contract (s : pg_create_function) : result definition_error RoutineDefinition :=
  match cf_funcname s with
  | [name] =>
      guard_err (bool_decide (name = ""))
        (RoutineDefinitionError "The routine name could not be derived" "name_required") ;;;
      match routine_language s with
      | None => Err (RoutineDefinitionError "The routine must declare exactly one LANGUAGE"
                       "language_required")
      | Some language =>
          let kind := if cf_is_procedure s then RProcedure else RFunction in
          let parameters := cf_parameters s in
          let return_type := routine_return_type s parameters in
          guard_err (bool_decide (kind = RFunction) && bool_decide (return_type = None))
            (RoutineDefinitionError "A function must declare exactly one RETURNS contract"
               "return_type_required") ;;;
          let input_parameters := filter (fun p => input_parameter p = true) parameters in
          Ok {| rd_name := name; rd_kind := kind;
                rd_arguments := py_join ", " (render_parameter <$> input_parameters);
                rd_identity_arguments := py_join ", " (identity_argument <$> input_parameters);
                rd_return_type := return_type;
                rd_language := py_lower language |}
      end
  | _ => Err (RoutineDefinitionError
                "Omit the schema from the routine name; the workspace target supplies it"
                "target_independent_name_required")
  end.

Definition analyze_routine_definition (definition : string)
    : result definition_error RoutineDefinition :=
  let source := py_strip definition in
  guard_err (bool_decide (source = ""))
    (RoutineDefinitionError "Enter one CREATE FUNCTION or CREATE PROCEDURE statement"
       "definition_required") ;;;
  match parse_sql source with
  | None => Err (RoutineDefinitionError "The routine definition is not valid PostgreSQL syntax"
                   "invalid_syntax")
  | Some [CreateFunctionStmt s] => routine_contract s
  | Some [_] => Err (RoutineDefinitionError
      "The definition must be a CREATE FUNCTION or CREATE PROCEDURE statement"
      "create_routine_required")
  | Some _ => Err (RoutineDefinitionError "A routine definition must contain exactly one statement"
                     "multiple_statements")
  end.

(** *** Triggers *)

Definition is_node (tag : string) (v : json) : option (list (string * json)) :=
  match v with
  | JDict d => match dget "@" d with
               | Some (JStr t) => if bool_decide (t = tag) then Some d else None
               | _ => None
               end
  | _ => None
  end.

(** The column name of an [OLD.column] or [NEW.column] reference. *)
Definition row_reference (d : list (string * json)) : option string :=
  match is_node "ColumnRef" (JDict d), dget "fields" d with
  | Some _, Some (JList (owner :: column :: _)) =>
      match is_node "String" owner, is_node "String" column with
      | Some o, Some c =>
          match dget "sval" o, dget "sval" c with
          | Some (JStr who), Some (JStr name) =>
              if bool_decide (py_lower who ∈ ["old"; "new"]) then Some name else None
          | _, _ => None
          end
      | _, _ => None
      end
  | _, _ => None
  end.

(** [visit] of [_when_columns], threading the list [columns]. *)
Fixpoint visit_columns (value : json) (columns : list string) : list string :=
  match value with
  | JDict d =>
      let columns := match row_reference d with
                     | Some name => fromkeys_step columns name
                     | None => columns
                     end in
      foldl (fun acc kv => match kv with (_, child) => visit_columns child acc end) columns d
  | JList l => foldl (fun acc child => visit_columns child acc) columns l
  | _ => columns
  end.

Definition when_columns (node : option json) : list string :=
  match node with None => [] | Some n => visit_columns n [] end.

Definition truthy (o : option string) : bool :=
  match o with Some s => negb (bool_decide (s = "")) | None => false end.

Definition trigger_events (flags : Z) : list trigger_event :=
  (filter (fun fe => Z.land flags fe.1 <> 0%Z)
    [(TRIGGER_TYPE_INSERT, EInsert); (TRIGGER_TYPE_UPDATE, EUpdate);
     (TRIGGER_TYPE_DELETE, EDelete); (TRIGGER_TYPE_TRUNCATE, ETruncate)]).*2.

Definition trigger_contract (s : pg_create_trigger) : result definition_error TriggerDefinition :=
  guard_err (truthy (ct_catalogname s) || truthy (ct_schemaname s))
    (TriggerDefinitionError "Omit the schema from the trigger target; the workspace supplies it"
       "target_independent_relation_required") ;;;
  guard_err (bool_decide (ct_trigname s = "") || bool_decide (ct_relname s = ""))
    (TriggerDefinitionError "The trigger name and target relation could not be derived"
       "identity_required") ;;;
  let update_columns := ct_columns s in
  Ok {| trd_name := ct_trigname s;
        trd_relation_name := ct_relname s;
        trd_timing := if bool_decide (ct_timing s = TRIGGER_TYPE_BEFORE) then TBefore
                      else if bool_decide (ct_timing s = TRIGGER_TYPE_INSTEAD) then TInsteadOf
                      else TAfter;
        trd_events := trigger_events (ct_events s);
        trd_orientation := if ct_row s then ORow else OStatement;
        trd_function_name := py_join "." (ct_funcname s);
        trd_function_arguments := ct_args s;
        trd_update_columns := update_columns;
        trd_referenced_columns :=
          dict_fromkeys (update_columns ++ when_columns (ct_whenClause s))%list;
        trd_when_expression := render <$> ct_whenClause s;
        trd_transition_relations := render <$> ct_transitionRels s;
        trd_constraint := ct_isconstraint s;
        trd_deferrable := ct_deferrable s;
        trd_initially_deferred := ct_initdeferred s |}.

Definition analyze_trigger_definition (definition : string)
    : result definition_error TriggerDefinition :=
  let source := py_strip definition in
  guard_err (bool_decide (source = ""))
    (TriggerDefinitionError "Enter one CREATE TRIGGER statement" "definition_required") ;;;
  match parse_sql source with
  | None => Err (TriggerDefinitionError "The trigger definition is not valid PostgreSQL syntax"
                   "invalid_syntax")
  | Some [CreateTrigStmt s] => trigger_contract s
  | Some [_] => Err (TriggerDefinitionError "The definition must be a CREATE TRIGGER statement"
                       "create_trigger_required")
  | Some _ => Err (TriggerDefinitionError "A trigger definition must contain exactly one statement"
                     "multiple_statements")
  end.

End analysers.

(** ** Replacing submitted metadata

    The [model_validator(mode="before")] methods: every key a client could use to
    submit derived metadata is removed, then the contract is written. *)

Definition json_opt (o : option string) : json :=
  match o with Some s => JStr s | None => JNull end.
Definition json_strs (l : list string) : json := JList (JStr <$> l).

Definition type_kind_text (k : type_kind) : string :=
  match k with TKEnum => "enum" | TKDomain => "domain" end.
Definition routine_kind_text (k : routine_kind) : string :=
  match k with RFunction => "function" | RProcedure => "procedure" end.
Definition timing_text (t : trigger_timing) : string :=
  match t with TBefore => "before" | TAfter => "after" | TInsteadOf => "instead_of" end.
Definition event_text (e : trigger_event) : string :=
  match e with
  | EInsert => "insert" | EUpdate => "update" | EDelete => "delete" | ETruncate => "truncate"
  end.
Definition orientation_text (o : trigger_orientation) : string :=
  match o with ORow => "row" | OStatement => "statement" end.

(** [for key in keys: d.pop(key, None)]. *)
Definition dict_pop_all (keys : list string) (d : list (string * json)) : list (string * json) :=
  foldl (fun d k => dpop k d) d keys.

(** [d.update(items)]. *)
Definition dict_update (items d : list (string * json)) : list (string * json) :=
  foldl (fun d kv => dset kv.1 kv.2 d) d items.

Definition type_contract_keys : list string :=
  ["name"; "kind"; "enumValues"; "enum_values"; "baseType"; "base_type"; "defaultExpression";
   "default_expression"; "notNull"; "not_null"; "checks"; "collation"].

Definition type_contract_items (c : TypeDefinition) : list (string * json) :=
  [("name", JStr (td_name c));
   ("kind", JStr (type_kind_text (td_kind c)));
   ("enum_values", json_strs (td_enum_values c));
   ("base_type", json_opt (td_base_type c));
   ("default_expression", json_opt (td_default_expression c));
   ("not_null", JBool (td_not_null c));
   ("checks", JList ((fun k => JDict [("name", json_opt (dcd_name k));
                                      ("expression", JStr (dcd_expression k))]) <$> td_checks c));
   ("collation", json_opt (td_collation c))].

Definition routine_contract_keys : list string :=
  ["name"; "kind"; "arguments"; "identityArguments"; "identity_arguments"; "returnType";
   "return_type"; "language"].

Definition routine_contract_items (c : RoutineDefinition) : list (string * json) :=
  [("name", JStr (rd_name c));
   ("kind", JStr (routine_kind_text (rd_kind c)));
   ("arguments", JStr (rd_arguments c));
   ("identity_arguments", JStr (rd_identity_arguments c));
   ("return_type", json_opt (rd_return_type c));
   ("language", JStr (rd_language c))].

Definition trigger_contract_keys : list string :=
  ["name"; "relationName"; "relation_name"; "timing"; "events"; "orientation"; "functionName";
   "function_name"; "functionArguments"; "function_arguments"; "updateColumns"; "update_columns";
   "referencedColumns"; "referenced_columns"; "whenExpression"; "when_expression";
   "transitionRelations"; "transition_relations"; "constraint"; "deferrable"; "initiallyDeferred";
   "initially_deferred"].

Definition trigger_contract_items (c : TriggerDefinition) : list (string * json) :=
  [("name", JStr (trd_name c));
   ("relation_name", JStr (trd_relation_name c));
   ("timing", JStr (timing_text (trd_timing c)));
   ("events", json_strs (event_text <$> trd_events c));
   ("orientation", JStr (orientation_text (trd_orientation c)));
   ("function_name", JStr (trd_function_name c));
   ("function_arguments", json_strs (trd_function_arguments c));
   ("update_columns", json_strs (trd_update_columns c));
   ("referenced_columns", json_strs (trd_referenced_columns c));
   ("when_expression", json_opt (trd_when_expression c));
   ("transition_relations", json_strs (trd_transition_relations c));
   ("constraint", JBool (trd_constraint c));
   ("deferrable", JBool (trd_deferrable c));
   ("initially_deferred", JBool (trd_initially_deferred c))].

(** The shape the three validators share. *)
Definition derive_contract {C} (analyze : string -> result definition_error C)
    (keys : list string) (items : C -> list (string * json)) (value : json)
    : result definition_error json :=
  match value with
  | JDict normalized =>
      match dget "definition" normalized with
      | Some (JStr definition) =>
          let! contract := analyze definition in
          Ok (JDict (dict_update (items contract) (dict_pop_all keys normalized)))
      | _ => Ok (JDict normalized)
      end
  | _ => Ok value
  end.

Definition DesignType_derive_contract `{Pglast} : json -> result definition_error json :=
  derive_contract analyze_type_definition type_contract_keys type_contract_items.
Definition DesignFunction_derive_contract `{Pglast} : json -> result definition_error json :=
  derive_contract analyze_routine_definition routine_contract_keys routine_contract_items.
Definition DesignTrigger_derive_contract `{Pglast} : json -> result definition_error json :=
  derive_contract analyze_trigger_definition trigger_contract_keys trigger_contract_items.

(** [DesignView.migrate_legacy_population_intent]. *)
Definition migrate_legacy_population_intent (value : json) : json :=
  match value with
  | JDict d =>
      let migrated := dpop "populated" d in
      match dget "populateOnCreate" migrated, dget "populate_on_create" migrated, dget "populated" d with
      | None, None, Some JNull => JDict migrated
      | None, None, Some legacy => JDict (dset "populateOnCreate" legacy migrated)
      | _, _, _ => JDict migrated
      end
  | _ => value
  end.

(** ** Query definitions *)

(** What [parse_query_definition] uses of sqlglot: parsing (statements may be
    [None]), the class of a statement and [find] for the forbidden classes. *)
Inductive sql_forbidden := QInsert | QUpdate | QDelete | QCreate | QDrop | QMerge | QCommand.

Class Sqlglot := {
  sql_expression : Type;
  sqlglot_parse : string -> result string (list (option sql_expression));
  subquery_this : sql_expression -> option sql_expression;
  is_select_or_set_operation : sql_expression -> bool;
  find_forbidden : sql_forbidden -> sql_expression -> bool;
  find_into : sql_expression -> bool;
}.

Definition MAX_QUERY_BYTES : N := 256 * 1024.

Definition forbidden_classes : list sql_forbidden :=
  [QInsert; QUpdate; QDelete; QCreate; QDrop; QMerge; QCommand].

Definition parse_query_definition `{Sqlglot} (definition : string)
    : result definition_error sql_expression :=
  let text := py_strip (py_rstrip_char ";"%char (py_strip definition)) in
  guard_err (bool_decide (text = ""))
    (QueryDefinitionError "empty_definition" "Enter a PostgreSQL SELECT query to analyze") ;;;
  guard_err (bool_decide (MAX_QUERY_BYTES < N.of_nat (String.length text))%N)
    (QueryDefinitionError "definition_too_large" "The query is too large to analyze") ;;;
  match sqlglot_parse text with
  | Err error =>
      Err (QueryDefinitionError "invalid_sql" ("PostgreSQL query could not be parsed: " ++ error))
  | Ok parsed =>
      match omap id parsed with
      | [first] =>
          let statement := match subquery_this first with Some this => this | None => first end in
          guard_err (negb (is_select_or_set_operation statement))
            (QueryDefinitionError "unsupported_statement" "Enter one read-only SELECT query") ;;;
          guard_err (existsb (fun kind => find_forbidden kind statement) forbidden_classes)
            (QueryDefinitionError "mutating_query"
               "Query analysis does not allow data-changing or schema-changing operations") ;;;
          guard_err (find_into statement)
            (QueryDefinitionError "select_into" "Query analysis does not allow SELECT INTO") ;;;
          Ok statement
      | _ => Err (QueryDefinitionError "multiple_statements"
                    "Enter one SELECT query without additional statements")
      end
  end.

(** ** Facts *)

Lemma type_name_of_Ok parts category name :
  type_name_of parts category = Ok name -> parts = [name] /\ name <> "".
Proof. destruct parts as [|p [|]]; simpl; [done| |done]. case_bool_decide; naive_solver. Qed.

(** What the analysed contract of a type promises its consumers. *)
Definition type_contract_ok (c : TypeDefinition) : Prop :=
  td_name c <> "" /\
  match td_kind c with
  | TKEnum =>
      td_enum_values c <> [] /\ NoDup (td_enum_values c) /\
      Forall (fun v => String.length v <= 63) (td_enum_values c) /\
      td_base_type c = None /\ td_base_type_name c = None /\ td_default_expression c = None /\
      td_not_null c = false /\ td_checks c = [] /\ td_collation c = None
  | TKDomain =>
      td_enum_values c = [] /\ is_Some (td_base_type c) /\
      NoDup (omap dcd_name (td_checks c))
  end.

Section facts.
Context `{Pglast}.

Lemma enum_definition_ok typeName values c :
  enum_definition typeName values = Ok c -> type_contract_ok c.
Proof.
  unfold enum_definition. intros ?. result_inv.
  match goal with H : type_name_of _ _ = Ok _ |- _ => apply type_name_of_Ok in H as [-> ?] end.
  split; [done|]; simpl. rewrite negb_false_iff in *. rewrite existsb_false_Forall in *.
  rewrite !bool_decide_eq_false, !bool_decide_eq_true in *. split_and!; try done.
  match goal with H : Forall _ _ |- _ => apply (Forall_impl _ _ _ H) end.
  intros v Hv. apply bool_decide_eq_false in Hv. lia.
Qed.

Lemma domain_definition_ok s c : domain_definition s = Ok c -> type_contract_ok c.
Proof.
  unfold domain_definition. intros ?. result_inv.
  match goal with H : type_name_of _ _ = Ok _ |- _ => apply type_name_of_Ok in H as [? ?] end.
  rewrite negb_false_iff, bool_decide_eq_true in *.
  split; [done|]; simpl. split_and!; [done|by eexists|done].
Qed.

Lemma routine_contract_return s c :
  routine_contract s = Ok c -> rd_kind c = RFunction <-> is_Some (rd_return_type c).
Proof.
  unfold routine_contract. destruct (cf_funcname s) as [|name [|]]; [done| |done].
  destruct (routine_language s) as [language|]; [|by destruct (guard_err _ _)].
  intros ?. result_inv. simpl in *.
  unfold routine_return_type in *. destruct (cf_is_procedure s); simpl in *.
  - split; [done|by intros [? ?]].
  - rewrite bool_decide_eq_false in *. split; [|done]. intros _. by apply not_eq_None_Some.
Qed.

Lemma analyze_routine_return d c :
  analyze_routine_definition d = Ok c -> rd_kind c = RFunction <-> is_Some (rd_return_type c).
Proof.
  unfold analyze_routine_definition. intros ?. result_inv.
  destruct (parse_sql _) as [[|[] []]|]; try done. by eapply routine_contract_return.
Qed.
End facts.

Lemma dget_dict_pop_all keys d k :
  dget k (dict_pop_all keys d) = if decide (k ∈ keys) then None else dget k d.
Proof.
  unfold dict_pop_all. revert d. induction keys as [|k' keys IH]; intros d.
  - by rewrite decide_False by set_solver.
  - cbn [foldl]. rewrite IH, dget_dpop. repeat case_decide; set_solver.
Qed.

Lemma dget_dict_update_ext items d d' :
  (forall k, dget k d = dget k d') ->
  forall k, dget k (dict_update items d) = dget k (dict_update items d').
Proof.
  unfold dict_update. revert d d'. induction items as [|[k' v] items IH]; intros d d' Hd; simpl; [done|].
  apply IH. intros k. by rewrite !dget_dset, Hd.
Qed.

Lemma dget_dict_update items d k :
  dwf items ->
  dget k (dict_update items d) = match dget k items with Some v => Some v | None => dget k d end.
Proof.
  unfold dict_update, dwf, dkeys. revert d.
  induction items as [|[k' v] items IH]; intros d; csimpl; [done|].
  intros [Hk Hwf]%NoDup_cons. rewrite IH by done. rewrite dget_dset.
  case_decide; subst; [|done].
  replace (dget k' items) with (@None json); [done|]. symmetry. by apply dget_None.
Qed.

(** Whether two validation outcomes are the same: the same exception, or
    dictionaries that agree on every key. *)
Definition same_outcome (r r' : result definition_error json) : Prop :=
  match r, r' with
  | Ok (JDict d), Ok (JDict d') => forall k, dget k d = dget k d'
  | Err e, Err e' => e = e'
  | _, _ => False
  end.

Lemma derive_contract_discards {C} (analyze : string -> result definition_error C) keys items d d' s :
  "definition" ∉ keys ->
  (forall k, k ∉ keys -> dget k d = dget k d') ->
  dget "definition" d = Some (JStr s) ->
  same_outcome (derive_contract analyze keys items (JDict d))
               (derive_contract analyze keys items (JDict d')).
Proof.
  intros Hkeys Hagree Hd. unfold derive_contract. rewrite <-(Hagree "definition") by done. rewrite Hd.
  destruct (analyze s) as [c|e]; simpl; [|done].
  apply dget_dict_update_ext. intros k. rewrite !dget_dict_pop_all. case_decide; auto.
Qed.

(** A column an OLD/NEW reference somewhere in an expression names. *)
Inductive mentions_row : json -> string -> Prop :=
| mentions_here d x : row_reference d = Some x -> mentions_row (JDict d) x
| mentions_member d k child x :
    (k, child) ∈ d -> mentions_row child x -> mentions_row (JDict d) x
| mentions_item l child x : child ∈ l -> mentions_row child x -> mentions_row (JList l) x.

Lemma mentions_row_list l x : mentions_row (JList l) x <-> Exists (fun v => mentions_row v x) l.
Proof.
  rewrite Exists_exists. split; [inversion 1; subst; eauto|]. intros (v & ? & ?). by eapply mentions_item.
Qed.

Lemma mentions_row_dict d x :
  mentions_row (JDict d) x <->
  row_reference d = Some x \/ Exists (fun kv => mentions_row kv.2 x) d.
Proof.
  rewrite Exists_exists. split.
  - inversion 1; subst; [by left|right]. by eexists (_, _).
  - intros [?|([k v] & ? & ?)]; [by apply mentions_here|by eapply mentions_member].
Qed.

Lemma elem_of_fromkeys_step {A} `{EqDecision A} (acc : list A) y x :
  x ∈ fromkeys_step acc y <-> x ∈ acc \/ x = y.
Proof. unfold fromkeys_step. case_decide; set_solver. Qed.

Lemma foldl_collects {A} (f : list string -> A -> list string) (Q : A -> string -> Prop) l acc x :
  Forall (fun a => forall cols, x ∈ f cols a <-> x ∈ cols \/ Q a x) l ->
  x ∈ foldl f acc l <-> x ∈ acc \/ Exists (fun a => Q a x) l.
Proof.
  intros Hl. revert acc. induction Hl as [|a l Ha _ IH]; intros acc; simpl.
  - rewrite Exists_nil. tauto.
  - rewrite IH, Ha, Exists_cons. tauto.
Qed.

Lemma elem_of_visit_columns v cols x :
  x ∈ visit_columns v cols <-> x ∈ cols \/ mentions_row v x.
Proof.
  revert cols. induction v as [| | | |l IH|d IH] using json_nested_ind; intros cols;
    try (split; [by left|by intros [|Hm]; [|inversion Hm]]); simpl.
  - rewrite mentions_row_list. apply foldl_collects. by eapply Forall_impl; [exact IH|].
  - rewrite mentions_row_dict.
    rewrite (foldl_collects _ (fun kv => mentions_row kv.2)).
    + destruct (row_reference d) as [name|]; [rewrite elem_of_fromkeys_step|]; naive_solver.
    + eapply Forall_impl; [exact IH|]. by intros [k child] Hc.
Qed.

Lemma elem_of_when_columns o x :
  x ∈ when_columns o <-> exists n, o = Some n /\ mentions_row n x.
Proof. destruct o as [n|]; simpl; [rewrite elem_of_visit_columns|]; set_solver. Qed.

(** ** Properties *)

(** The contract derived from a type definition is well-formed: an enum has
    at least one label, its labels are distinct and fit in 63 bytes and it carries
    no domain metadata; a domain has a base type, no labels and distinct names on
    its named checks; the name is never empty. *)
Theorem type_contract_sound `{Pglast} definition c :
  analyze_type_definition definition = Ok c -> type_contract_ok c.
Proof.
  unfold analyze_type_definition. intros ?. result_inv.
  destruct (parse_sql _) as [[|[] []]|]; try done.
  - by eapply enum_definition_ok.
  - by eapply domain_definition_ok.
Qed.

(** The columns a trigger is recorded to reference are exactly the columns of
    its UPDATE OF list and those an OLD or NEW reference anywhere in its WHEN
    clause names, each once and with the UPDATE OF columns first. *)
Theorem trigger_references_exact `{Pglast} s c :
  trigger_contract s = Ok c ->
  NoDup (trd_referenced_columns c) /\
  (forall x, x ∈ trd_referenced_columns c <->
     x ∈ trd_update_columns c \/ exists n, ct_whenClause s = Some n /\ mentions_row n x) /\
  exists rest, trd_referenced_columns c = (dict_fromkeys (trd_update_columns c) ++ rest)%list.
Proof.
  unfold trigger_contract. intros ?. result_inv. simpl. split_and!.
  - apply NoDup_dict_fromkeys.
  - intros col. by rewrite elem_of_dict_fromkeys, elem_of_app, elem_of_when_columns.
  - apply dict_fromkeys_prefix.
Qed.

(** Type, routine and trigger documents are validated from their source alone:
    two submitted documents that agree outside the metadata keys give the same
    exception or the same validated document, whatever metadata they carried. *)
Theorem submitted_metadata_discarded `{Pglast} d d' s :
  dget "definition" d = Some (JStr s) ->
  ((forall k, k ∉ type_contract_keys -> dget k d = dget k d') ->
   same_outcome (DesignType_derive_contract (JDict d)) (DesignType_derive_contract (JDict d'))) /\
  ((forall k, k ∉ routine_contract_keys -> dget k d = dget k d') ->
   same_outcome (DesignFunction_derive_contract (JDict d))
                (DesignFunction_derive_contract (JDict d'))) /\
  ((forall k, k ∉ trigger_contract_keys -> dget k d = dget k d') ->
   same_outcome (DesignTrigger_derive_contract (JDict d))
                (DesignTrigger_derive_contract (JDict d'))).
Proof.
  intros Hd. split_and!; intros Hagree; apply (derive_contract_discards _ _ _ _ _ s);
    try done; by apply (bool_decide_unpack _).
Qed.

(** ** Witnesses *)

Definition mood_definition : string := "CREATE TYPE mood AS ENUM ('sad', 'ok')".

Definition audit_statement : pg_create_trigger :=
  {| ct_trigname := "audit"; ct_catalogname := None; ct_schemaname := None; ct_relname := "people";
     ct_timing := 0; ct_events := 20; ct_row := true; ct_funcname := ["log_row"]; ct_args := [];
     ct_columns := ["name"];
     ct_whenClause := Some (JDict [("@", JStr "A_Expr");
       ("lexpr", JDict [("@", JStr "ColumnRef");
          ("fields", JList [JDict [("@", JStr "String"); ("sval", JStr "new")];
                            JDict [("@", JStr "String"); ("sval", JStr "age")]])])]);
     ct_transitionRels := []; ct_isconstraint := false; ct_deferrable := false;
     ct_initdeferred := false |}.

(** A parser that knows one statement, with PostgreSQL's trigger type bits. *)
Definition sample_pglast : Pglast :=
  {| parse_sql := fun s => if bool_decide (s = mood_definition)
                           then Some [CreateEnumStmt ["mood"] ["sad"; "ok"]] else None;
     raw_stream := fun _ => "";
     TRIGGER_TYPE_BEFORE := 2; TRIGGER_TYPE_INSTEAD := 64; TRIGGER_TYPE_INSERT := 4;
     TRIGGER_TYPE_UPDATE := 16; TRIGGER_TYPE_DELETE := 8; TRIGGER_TYPE_TRUNCATE := 32 |}.

Lemma type_contract_sound_witness :
  exists c, @analyze_type_definition sample_pglast mood_definition = Ok c /\
    td_enum_values c = ["sad"; "ok"] /\ type_contract_ok c.
Proof.
  eexists. split; [vm_compute; reflexivity|]. split; [reflexivity|].
  apply (@type_contract_sound sample_pglast mood_definition). vm_compute. reflexivity.
Defined.

Lemma trigger_references_exact_witness :
  exists c, @trigger_contract sample_pglast audit_statement = Ok c /\
    trd_referenced_columns c = ["name"; "age"] /\ NoDup (trd_referenced_columns c).
Proof.
  eexists. split; [vm_compute; reflexivity|]. split; [reflexivity|].
  refine (proj1 (@trigger_references_exact sample_pglast audit_statement _ _)).
  vm_compute. reflexivity.
Defined.

Lemma submitted_metadata_discarded_witness :
  same_outcome
    (@DesignType_derive_contract sample_pglast
       (JDict [("name", JStr "forged"); ("definition", JStr mood_definition)]))
    (@DesignType_derive_contract sample_pglast (JDict [("definition", JStr mood_definition)])).
Proof.
  refine (proj1 (@submitted_metadata_discarded sample_pglast _ _ mood_definition _) _).
  - reflexivity.
  - intros k Hk. rewrite dget_cons, decide_False; [reflexivity|]. intros ->. apply Hk. left.
Defined.
