(* ===== verification/DesignValidation.v ===== *)
(** * Cross-object validation of designs

    The validation part of [designs/store.py]: [_valid_identifier], [_unique],
    [_safe_fragment], [design_types_in_dependency_order] (a depth-first
    topological sort) and [validate_design_content].

    Every exception carries the message and the details of the source.  Python
    sets of texts are lists; only membership of them is observed.  [visit] runs
    with fuel: the names it is visiting are distinct names of the design, so
    [S (length types)] is enough, which [TypeOrder] shows. *)

From Stdlib Require Import Ascii String.
From S2P Require Import Prelude Json PyString DesignModels DefinitionAnalysis.
Open Scope string_scope.
Open Scope result_scope.

(** ** Errors of the design repository *)

Inductive design_error :=
| DesignConflictError (current_revision : Z)
| DesignLayoutConflictError (current_layout_revision current_design_revision : Z)
| DesignValidationError (message : string) (details : list (string * json))
| DesignHistoryBoundaryError (action : string)
| DesignMutationBlockedError
| DefinitionErrorRaised (e : definition_error)
| KeyErrorRaised (key : string)
| AttributeErrorRaised
| ValueErrorRaised (message : string)
| PydanticErrorRaised (field : string)
| StopIterationRaised
| OutOfFuel.

Abbreviation checked := (result design_error).

(** ** Local checks *)

Definition valid_identifier (value category : string) : checked unit :=
  guard_err (str_contains nul_text value || bool_decide (63 < String.length value))
    (DesignValidationError (category ++ " must be a valid PostgreSQL identifier")
       [("category", JStr category); ("name", JStr value)]).

(** [sorted(value for value, count in Counter(values).items() if count > 1)]. *)
Definition duplicate_values (values : list string) : list string :=
  merge_sort String.le
    (filter (fun v => 1 < length (filter (fun w => w = v) values)) (dict_fromkeys values)).

Definition unique (values : list string) (category : string) : checked unit :=
  guard_err (bool_decide (duplicate_values values <> []))
    (DesignValidationError (category ++ " must be unique")
       [("category", JStr category); ("values", json_strs (duplicate_values values))]).

Definition unsafe_fragment (value : string) : bool :=
  str_contains nul_text value || str_contains ";" value || str_contains "--" value
  || str_contains "/*" value || str_contains "*/" value.

Definition safe_fragment (value category : string) : checked unit :=
  guard_err (unsafe_fragment value)
    (DesignValidationError (category ++ " contains unsupported SQL statement boundaries")
       [("category", JStr category)]).

(** [set(a) <= b], [set(a) & b] and [len(a) == len(set(a))]. *)
Definition subset_of (a b : list string) : bool := forallb (fun x => bool_decide (x ∈ b)) a.
Definition intersects (a b : list string) : bool := existsb (fun x => bool_decide (x ∈ b)) a.
Definition distinct (a : list string) : bool := bool_decide (NoDup a).

(** ** Types in dependency order *)

Record visit_state := {
  vs_ordered : list DesignType;
  vs_visiting : list string;
  vs_visited : list string;
}.

Section validation.
Context `{Pglast} `{Sqlglot}.

Definition analyzed_type (t : DesignType) : checked TypeDefinition :=
  match analyze_type_definition (dt_definition t) with
  | Ok c => Ok c
  | Err e => Err (DefinitionErrorRaised e)
  end.

(** The loop that fills [dependency_by_name]. *)
Fixpoint dependency_loop (type_by_name : list (string * DesignType)) (types : list DesignType)
    (acc : list (string * option string)) : checked (list (string * option string)) :=
  match types with
  | [] => Ok acc
  | t :: rest =>
      let! contract := analyzed_type t in
      let dependency :=
        match td_base_type_name contract with
        | Some base => if bool_decide (is_Some (dget base type_by_name)) then Some base else None
        | None => None
        end in
      dependency_loop type_by_name rest (dset (dt_name t) dependency acc)
  end.

(** The nested function [visit]. *)
Fixpoint visit (type_by_name : list (string * DesignType))
    (dependency_by_name : list (string * option string))
    (fuel : nat) (name : string) (st : visit_state) : checked visit_state :=
  match fuel with
  | 0 => Err OutOfFuel
  | S fuel' =>
      if bool_decide (name ∈ vs_visited st) then Ok st else
      guard_err (bool_decide (name ∈ vs_visiting st))
        (DesignValidationError "Designed domains cannot contain circular base-type dependencies"
           [("type", JStr name)]) ;;;
      let st1 := {| vs_ordered := vs_ordered st; vs_visiting := name :: vs_visiting st;
                    vs_visited := vs_visited st |} in
      match dget name dependency_by_name with
      | None => Err (KeyErrorRaised name)
      | Some dependency =>
          let! st2 := match dependency with
                      | None => Ok st1
                      | Some base => visit type_by_name dependency_by_name fuel' base st1
                      end in
          match dget name type_by_name with
          | None => Err (KeyErrorRaised name)
          | Some t =>
              Ok {| vs_ordered := (vs_ordered st2 ++ [t])%list;
                    vs_visiting := filter (fun n => n <> name) (vs_visiting st2);
                    vs_visited := name :: vs_visited st2 |}
          end
      end
  end.

Fixpoint visit_all (type_by_name : list (string * DesignType))
    (dependency_by_name : list (string * option string))
    (fuel : nat) (types : list DesignType) (st : visit_state) : checked visit_state :=
  match types with
  | [] => Ok st
  | t :: rest =>
      let! st' := visit type_by_name dependency_by_name fuel (dt_name t) st in
      visit_all type_by_name dependency_by_name fuel rest st'
  end.

Definition design_types_in_dependency_order (content : SchemiiDesignContent)
    : checked (list DesignType) :=
  let types := content_types content in
  let type_by_name := dict_by dt_name types in
  let! dependency_by_name := dependency_loop type_by_name types [] in
  let! st := visit_all type_by_name dependency_by_name (S (length types)) types
    {| vs_ordered := []; vs_visiting := []; vs_visited := [] |} in
  Ok (vs_ordered st).

(** ** The content validator *)

Definition validate_type (t : DesignType) : checked unit :=
  valid_identifier (dt_name t) "type name" ;;;
  for_each (fun check =>
    match dck_name check with
    | Some name => valid_identifier name "domain constraint name"
    | None => Ok tt
    end) (dt_checks t).

Definition is_present {A} (o : option A) : nat := match o with Some _ => 1 | None => 0 end.

Definition column_error (message : string) (t : DesignTable) (c : DesignColumn) : design_error :=
  DesignValidationError message [("table", JStr (tb_name t)); ("column", JStr (dc_name c))].

Definition validate_column (t : DesignTable) (column_ids generated_column_ids : list string)
    (c : DesignColumn) : checked unit :=
  valid_identifier (dc_name c) "column name" ;;;
  safe_fragment (dc_data_type c) ("data type for " ++ tb_name t ++ "." ++ dc_name c) ;;;
  guard_err (bool_decide (1 < is_present (dc_default_expression c) + is_present (dc_identity c)
                              + is_present (dc_generated_expression c)))
    (column_error "Columns may have only one default, identity, or generated value behavior" t c) ;;;
  guard_err (bool_decide (dc_identity c <> None) && dc_nullable c)
    (column_error "Identity columns must be non-nullable" t c) ;;;
  match dc_default_expression c with
  | Some e =>
      guard_err (is_blank e) (column_error "Default expressions cannot be empty" t c) ;;;
      safe_fragment e ("default for " ++ tb_name t ++ "." ++ dc_name c)
  | None => Ok tt
  end ;;;
  match dc_generated_expression c with
  | Some e =>
      guard_err (is_blank e) (column_error "Generated expressions cannot be empty" t c) ;;;
      safe_fragment e ("generated expression for " ++ tb_name t ++ "." ++ dc_name c) ;;;
      guard_err (negb (distinct (dc_generated_source_column_ids c))
                 || negb (subset_of (dc_generated_source_column_ids c) column_ids)
                 || bool_decide (dc_id c ∈ dc_generated_source_column_ids c))
        (column_error "Generated columns may reference unique sibling columns only" t c) ;;;
      guard_err (intersects (dc_generated_source_column_ids c) generated_column_ids)
        (column_error "Generated columns cannot reference other generated columns" t c)
  | None =>
      guard_err (bool_decide (dc_generated_source_column_ids c <> []))
        (column_error "Generated column dependencies require a generated expression" t c)
  end.

Definition local_reference_error (message : string) (t : DesignTable) (kind name : string)
    : design_error :=
  DesignValidationError message [("table", JStr (tb_name t)); (kind, JStr name)].

Definition validate_key (t : DesignTable) (column_ids : list string) (k : DesignKeyConstraint)
    : checked unit :=
  valid_identifier (dk_name k) "key constraint name" ;;;
  guard_err (negb (distinct (dk_column_ids k)) || negb (subset_of (dk_column_ids k) column_ids))
    (local_reference_error "Key constraints must reference unique columns on their own table"
       t "constraint" (dk_name k)).

Definition validate_check (t : DesignTable) (column_ids : list string) (k : DesignCheckConstraint)
    : checked unit :=
  valid_identifier (ck_name k) "check constraint name" ;;;
  guard_err (is_blank (ck_expression k))
    (local_reference_error "Check constraint expressions cannot be empty" t "constraint" (ck_name k)) ;;;
  safe_fragment (ck_expression k) ("check constraint " ++ ck_name k) ;;;
  guard_err (negb (distinct (ck_column_ids k)) || negb (subset_of (ck_column_ids k) column_ids))
    (local_reference_error "Check constraints may reference unique columns on their own table only"
       t "constraint" (ck_name k)).

(** The expression part and the predicate part of an index are checked alike. *)
Definition validate_index_part (t : DesignTable) (column_ids : list string) (i : DesignIndex)
    (part : option string) (sources : list string) (category empty foreign dangling : string)
    : checked unit :=
  match part with
  | Some e =>
      guard_err (is_blank e) (local_reference_error empty t "index" (ix_name i)) ;;;
      safe_fragment e (category ++ ix_name i) ;;;
      guard_err (negb (distinct sources) || negb (subset_of sources column_ids))
        (local_reference_error foreign t "index" (ix_name i))
  | None =>
      guard_err (bool_decide (sources <> [])) (local_reference_error dangling t "index" (ix_name i))
  end.

Definition validate_index (t : DesignTable) (column_ids : list string) (i : DesignIndex)
    : checked unit :=
  valid_identifier (ix_name i) "index name" ;;;
  valid_identifier (ix_method i) "index method" ;;;
  guard_err (bool_decide (ix_column_ids i = []) && negb (truthy (ix_expression i)))
    (local_reference_error "An index requires columns or an expression" t "index" (ix_name i)) ;;;
  guard_err (negb (distinct (ix_column_ids i)) || negb (subset_of (ix_column_ids i) column_ids))
    (local_reference_error "Indexes may reference unique columns on their own table only"
       t "index" (ix_name i)) ;;;
  guard_err (negb (distinct (ix_include_column_ids i))
             || negb (subset_of (ix_include_column_ids i) column_ids)
             || intersects (ix_include_column_ids i) (ix_column_ids i))
    (local_reference_error
       "Included index columns must be unique local columns and cannot be key columns"
       t "index" (ix_name i)) ;;;
  validate_index_part t column_ids i (ix_expression i) (ix_expression_source_column_ids i)
    "index expression " "Index expressions cannot be empty"
    "Index expressions may reference unique columns on their own table only"
    "Index expression dependencies require an index expression" ;;;
  validate_index_part t column_ids i (ix_predicate i) (ix_predicate_column_ids i)
    "index predicate " "Index predicates cannot be empty"
    "Index predicates may reference unique columns on their own table only"
    "Index predicate dependencies require an index predicate".

Definition primary_keys (t : DesignTable) : list DesignKeyConstraint :=
  filter (fun k => dk_kind k = KPrimary) (tb_keys t).

Definition generated_ids (t : DesignTable) : list string :=
  dc_id <$> filter (fun c => dc_generated_expression c <> None) (tb_columns t).

Definition validate_table (t : DesignTable) : checked unit :=
  valid_identifier (tb_name t) "table name" ;;;
  unique (dc_name <$> tb_columns t) ("columns in " ++ tb_name t) ;;;
  let column_ids := dc_id <$> tb_columns t in
  for_each (validate_column t column_ids (generated_ids t)) (tb_columns t) ;;;
  unique ((dk_name <$> tb_keys t) ++ (ck_name <$> tb_checks t))%list
    ("constraints in " ++ tb_name t) ;;;
  guard_err (bool_decide (1 < length (primary_keys t)))
    (DesignValidationError "A table may have only one primary key" [("table", JStr (tb_name t))]) ;;;
  for_each (validate_key t column_ids) (tb_keys t) ;;;
  for_each (validate_check t column_ids) (tb_checks t) ;;;
  unique (ix_name <$> tb_indexes t) ("indexes in " ++ tb_name t) ;;;
  for_each (validate_index t column_ids) (tb_indexes t).

(** One pass of the relationship loop: [seen] is [relationship_names]. *)
Definition validate_relationship (table_by_id : list (string * DesignTable))
    (seen : list (string * string)) (r : DesignRelationship) : checked (list (string * string)) :=
  match dget (rl_source_table_id r) table_by_id, dget (rl_target_table_id r) table_by_id with
  | Some source, Some target =>
      guard_err (bool_decide ((tb_id source, rl_name r) ∈ seen))
        (DesignValidationError "Relationship names must be unique on their source table"
           [("category", JStr "relationship names"); ("table", JStr (tb_name source));
            ("name", JStr (rl_name r))]) ;;;
      let source_ids := dc_id <$> tb_columns source in
      let target_ids := dc_id <$> tb_columns target in
      guard_err (negb (bool_decide (length (rl_source_column_ids r) = length (rl_target_column_ids r)))
                 || negb (distinct (rl_source_column_ids r))
                 || negb (distinct (rl_target_column_ids r))
                 || negb (subset_of (rl_source_column_ids r) source_ids)
                 || negb (subset_of (rl_target_column_ids r) target_ids))
        (DesignValidationError
           "Relationship columns must be unique, paired, and owned by their referenced tables"
           [("relationship", JStr (rl_name r))]) ;;;
      guard_err (negb (bool_decide (rl_target_column_ids r ∈ dk_column_ids <$> tb_keys target)))
        (DesignValidationError "Relationship targets must match a primary or unique key"
           [("relationship", JStr (rl_name r)); ("targetTable", JStr (tb_name target))]) ;;;
      guard_err (rl_initially_deferred r && negb (rl_deferrable r))
        (DesignValidationError "An initially deferred relationship must be deferrable"
           [("relationship", JStr (rl_name r))]) ;;;
      valid_identifier (rl_name r) "relationship name" ;;;
      Ok ((tb_id source, rl_name r) :: seen)
  | _, _ =>
      Err (DesignValidationError "Relationships must reference tables in this design"
             [("relationship", JStr (rl_name r))])
  end.

Fixpoint validate_relationships (table_by_id : list (string * DesignTable))
    (rs : list DesignRelationship) (seen : list (string * string)) : checked unit :=
  match rs with
  | [] => Ok tt
  | r :: rest =>
      let! seen' := validate_relationship table_by_id seen r in
      validate_relationships table_by_id rest seen'
  end.

Definition routine_signature (f : DesignFunction) : string :=
  fn_name f ++ "(" ++ fn_identity_arguments f ++ ")".

Definition validate_routine (f : DesignFunction) : checked unit :=
  valid_identifier (fn_name f) "routine name" ;;;
  valid_identifier (fn_language f) "routine language".

Definition validate_view (v : DesignView) : checked unit :=
  valid_identifier (vw_name v) "view name" ;;;
  match parse_query_definition (vw_definition v) with
  | Ok _ => Ok tt
  | Err (QueryDefinitionError code message) =>
      Err (DesignValidationError message [("view", JStr (vw_name v)); ("reason", JStr code)])
  | Err e => Err (DefinitionErrorRaised e)
  end.

Inductive relation := RTable (t : DesignTable) | RView (v : DesignView).

Definition relation_by_name (content : SchemiiDesignContent) : list (string * relation) :=
  dict_fill vw_name RView (content_views content)
    (dict_fill tb_name RTable (content_tables content) []).

Definition routine_by_signature (content : SchemiiDesignContent)
    : list ((string * string) * DesignFunction) :=
  dict_by (fun f => (fn_name f, fn_identity_arguments f)) (content_functions content).

Definition trigger_error (message : string) (t : DesignTrigger) : design_error :=
  DesignValidationError message
    [("trigger", JStr (tr_name t)); ("relation", JStr (tr_relation_name t))].

Definition is_view (r : relation) : bool := match r with RView _ => true | RTable _ => false end.

(** [sorted(set(trigger.referenced_columns) - column_names)]. *)
Definition unknown_columns (t : DesignTrigger) (table : DesignTable) : list string :=
  merge_sort String.le
    (filter (fun c => c ∉ dc_name <$> tb_columns table) (dict_fromkeys (tr_referenced_columns t))).

(** [routine.kind != "function" or routine.return_type.lower() != "trigger"];
    the attribute access fails on a function without a return type. *)
Definition not_trigger_function (f : DesignFunction) : checked bool :=
  match fn_kind f with
  | RProcedure => Ok true
  | RFunction =>
      match fn_return_type f with
      | None => Err AttributeErrorRaised
      | Some rt => Ok (negb (bool_decide (py_lower rt = "trigger")))
      end
  end.

Definition validate_trigger (content : SchemiiDesignContent) (t : DesignTrigger) : checked unit :=
  valid_identifier (tr_name t) "trigger name" ;;;
  match dget (tr_relation_name t) (relation_by_name content) with
  | None => Err (trigger_error "Triggers must target a table or view in this design" t)
  | Some rel =>
      guard_err (bool_decide (tr_timing t = TInsteadOf) && negb (is_view rel))
        (trigger_error "INSTEAD OF triggers must target a designed view" t) ;;;
      guard_err (is_view rel && negb (bool_decide (tr_timing t = TInsteadOf))
                 && bool_decide (tr_orientation t = ORow))
        (trigger_error "Row-level triggers on designed views must use INSTEAD OF" t) ;;;
      guard_err (bool_decide (tr_timing t = TInsteadOf) && negb (bool_decide (tr_orientation t = ORow)))
        (DesignValidationError "INSTEAD OF triggers must run for each row"
           [("trigger", JStr (tr_name t))]) ;;;
      guard_err (bool_decide (ETruncate ∈ tr_events t) && bool_decide (tr_orientation t = ORow))
        (DesignValidationError "TRUNCATE triggers must run for each statement"
           [("trigger", JStr (tr_name t))]) ;;;
      match rel with
      | RTable table =>
          guard_err (bool_decide (unknown_columns t table <> []))
            (DesignValidationError "Trigger column references must exist on the target table"
               [("trigger", JStr (tr_name t)); ("relation", JStr (tr_relation_name t));
                ("columns", json_strs (unknown_columns t table))])
      | RView _ => Ok tt
      end ;;;
      match py_split "."%char (tr_function_name t) with
      | [function] =>
          match dget (function, "") (routine_by_signature content) with
          | Some routine =>
              let! bad := not_trigger_function routine in
              guard_err bad
                (DesignValidationError
                   "A designed trigger function must be a no-argument function returning trigger"
                   [("trigger", JStr (tr_name t)); ("function", JStr (tr_function_name t))])
          | None => Ok tt
          end
      | _ => Ok tt
      end
  end.

(** The list [all_ids], in the order of the appends. *)
Definition table_object_ids (t : DesignTable) : list string :=
  (tb_id t :: (dc_id <$> tb_columns t) ++ (dk_id <$> tb_keys t) ++ (ck_id <$> tb_checks t)
     ++ (ix_id <$> tb_indexes t))%list.

Definition all_object_ids (content : SchemiiDesignContent) : list string :=
  ((dt_id <$> content_types content) ++ concat (table_object_ids <$> content_tables content)
   ++ (rl_id <$> content_relationships content) ++ (fn_id <$> content_functions content)
   ++ (vw_id <$> content_views content) ++ (tr_id <$> content_triggers content))%list.

Definition type_names (content : SchemiiDesignContent) : list string :=
  dt_name <$> content_types content.
Definition relation_names (content : SchemiiDesignContent) : list string :=
  ((tb_name <$> content_tables content) ++ (vw_name <$> content_views content))%list.

Definition validate_design_content (content : SchemiiDesignContent) : checked unit :=
  unique (type_names content) "type names" ;;;
  unique (type_names content ++ relation_names content)%list "type, table, and view names" ;;;
  for_each validate_type (content_types content) ;;;
  let! _ := design_types_in_dependency_order content in
  let table_by_id := dict_by tb_id (content_tables content) in
  for_each validate_table (content_tables content) ;;;
  validate_relationships table_by_id (content_relationships content) [] ;;;
  unique (routine_signature <$> content_functions content) "routine signatures" ;;;
  for_each validate_routine (content_functions content) ;;;
  for_each validate_view (content_views content) ;;;
  unique ((fun t => tr_relation_name t ++ "." ++ tr_name t) <$> content_triggers content)
    "trigger names per relation" ;;;
  for_each (validate_trigger content) (content_triggers content) ;;;
  unique (all_object_ids content) "design object IDs".

End validation.

(** [design_object_ids]. *)
Definition design_object_ids (content : SchemiiDesignContent) : list (string * layer_kind) :=
  dict_fill vw_id (fun _ => LViews) (content_views content)
    (dict_fill tb_id (fun _ => LTables) (content_tables content) []).

(** ** Object IDs *)

Lemma table_ids_submseteq content :
  (tb_id <$> content_tables content) ⊆+ all_object_ids content.
Proof.
  unfold all_object_ids. apply submseteq_inserts_l, submseteq_inserts_r.
  induction (content_tables content) as [|t ts IH]; csimpl; [done|].
  apply submseteq_skip, submseteq_inserts_l. exact IH.
Qed.

Lemma view_ids_submseteq content :
  ((tb_id <$> content_tables content) ++ (vw_id <$> content_views content))%list
  ⊆+ all_object_ids content.
Proof.
  unfold all_object_ids. apply submseteq_inserts_l, submseteq_app.
  - induction (content_tables content) as [|t ts IH]; csimpl; [done|].
    apply submseteq_skip, submseteq_inserts_l. exact IH.
  - do 2 apply submseteq_inserts_l. by apply submseteq_inserts_r.
Qed.

Lemma table_ids_NoDup content :
  NoDup (all_object_ids content) -> NoDup (tb_id <$> content_tables content).
Proof.
  apply NoDup_sub, table_ids_submseteq.
Qed.
