(* ===== verification/TypeOrder.v ===== *)
(** * The dependency order of designed types

    Correctness of [design_types_in_dependency_order] (in [DesignValidation]): the
    depth-first search never runs out of fuel and never misses a key; it returns
    the types of the design, each after the designed type it is based on, or
    reports a name that really depends on itself. *)

From Stdlib Require Import Ascii String.
From S2P Require Import Prelude Json PyString DesignModels DefinitionAnalysis DesignValidation.
Open Scope string_scope.
Open Scope result_scope.

Definition circular_error (n : string) : design_error :=
  DesignValidationError "Designed domains cannot contain circular base-type dependencies"
    [("type", JStr n)].

Section search.
Context (tbn : list (string * DesignType)) (deps : list (string * option string)).

Definition dep (n b : string) : Prop := dget n deps = Some (Some b).

Context (Hdom : forall n, is_Some (dget n tbn) -> is_Some (dget n deps)).
Context (Hrange : forall n b, dep n b -> is_Some (dget b tbn)).
Context (Hname : forall n t, dget n tbn = Some t -> dt_name t = n).

Definition topological (ordered : list DesignType) : Prop :=
  forall i t b, ordered !! i = Some t -> dep (dt_name t) b ->
    exists j u, j < i /\ ordered !! j = Some u /\ dt_name u = b.

Record order_inv (st : visit_state) : Prop := {
  oi_visited : vs_visited st = reverse (dt_name <$> vs_ordered st);
  oi_nodup : NoDup (vs_visiting st ++ vs_visited st);
  oi_known : Forall (fun n => is_Some (dget n tbn)) (vs_visiting st);
  oi_types : Forall (fun t => dget (dt_name t) tbn = Some t) (vs_ordered st);
  oi_topo : topological (vs_ordered st);
}.

(** The names being visited form a chain of dependencies. *)
Fixpoint chain (l : list string) : Prop :=
  match l with
  | y :: (x :: _) as r => dep x y /\ chain r
  | _ => True
  end.

Lemma chain_tc l y x : chain (y :: l) -> x ∈ l -> tc dep x y.
Proof.
  revert y. induction l as [|z l IH]; intros y; [set_solver|].
  intros [Hd Hc] [->|Hx]%elem_of_cons; [by apply tc_once|].
  eapply tc_r; [by apply (IH z)|done].
Qed.

Lemma visiting_bound st : order_inv st -> length (vs_visiting st) <= length (dkeys tbn).
Proof.
  intros Hi. apply submseteq_length, NoDup_submseteq.
  - pose proof (oi_nodup _ Hi) as Hn. by apply NoDup_app in Hn as [? _].
  - intros n Hn. apply dget_is_Some. pose proof (oi_known _ Hi) as Hk.
    rewrite Forall_forall in Hk. auto.
Qed.

Lemma topological_snoc ordered t :
  topological ordered ->
  (forall b, dep (dt_name t) b -> exists u, u ∈ ordered /\ dt_name u = b) ->
  topological (ordered ++ [t]).
Proof.
  intros Ht Hb i u b Hu Hd. apply lookup_app_Some in Hu as [Hu|[Hi Hu]].
  - destruct (Ht i u b Hu Hd) as (j & w & ? & ? & ?). exists j, w. split_and!; [done| |done].
    by apply lookup_app_l_Some.
  - apply list_lookup_singleton_Some in Hu as [Hi0 <-].
    destruct (Hb b Hd) as (w & [j Hj]%list_elem_of_lookup & Hw).
    exists j, w. split_and!; [apply lookup_lt_Some in Hj; lia| |done]. by apply lookup_app_l_Some.
Qed.

Lemma order_inv_push st name :
  order_inv st -> is_Some (dget name tbn) -> name ∉ vs_visiting st -> name ∉ vs_visited st ->
  order_inv {| vs_ordered := vs_ordered st; vs_visiting := name :: vs_visiting st;
               vs_visited := vs_visited st |}.
Proof.
  intros [H1 H2 H3 H4 H5] ???. split; simpl; try done.
  - apply NoDup_cons. split; [set_solver|done].
  - by constructor.
Qed.

Lemma order_inv_pop st name vis t :
  order_inv st -> vs_visiting st = name :: vis -> dget name tbn = Some t ->
  (forall b, dep name b -> b ∈ vs_visited st) ->
  order_inv {| vs_ordered := vs_ordered st ++ [t]; vs_visiting := filter (fun n => n <> name) (vs_visiting st);
               vs_visited := name :: vs_visited st |} /\
  filter (fun n => n <> name) (vs_visiting st) = vis.
Proof.
  intros [H1 H2 H3 H4 H5] Hv Ht Hb. rewrite Hv in *. simpl in H2.
  apply NoDup_cons in H2 as [Hn Hnd].
  assert (Hf : filter (fun n => n <> name) (name :: vis) = vis).
  { rewrite filter_cons_False by naive_solver. apply filter_all, Forall_forall. set_solver. }
  rewrite Hf. split; [|done]. pose proof (Hname _ _ Ht) as Htn.
  split; simpl.
  - rewrite fmap_app, reverse_app, H1. by rewrite <-Htn.
  - rewrite <-Permutation_middle. by constructor.
  - by inversion H3.
  - apply Forall_app_2; [done|]. by rewrite Forall_singleton, Htn.
  - apply topological_snoc; [done|]. rewrite Htn. intros b Hd. apply Hb in Hd.
    rewrite H1, elem_of_reverse in Hd. apply list_elem_of_fmap in Hd as (u & -> & Hu). eauto.
Qed.

Lemma visit_spec fuel name st :
  order_inv st -> is_Some (dget name tbn) -> chain (name :: vs_visiting st) ->
  length (dkeys tbn) < fuel + length (vs_visiting st) ->
  match visit tbn deps fuel name st with
  | Ok st' => order_inv st' /\ vs_visiting st' = vs_visiting st /\ name ∈ vs_visited st'
              /\ (forall n, n ∈ vs_visited st -> n ∈ vs_visited st')
  | Err e => exists n, e = circular_error n /\ tc dep n n
  end.
Proof.
  revert name st. induction fuel as [|fuel IH]; intros name st Hi Hk Hc Hf.
  { pose proof (visiting_bound _ Hi). lia. }
  simpl. case_bool_decide as Hvd; [done|].
  case_bool_decide as Hvg; simpl; [exists name; split; [done|by eapply chain_tc]|].
  destruct (Hdom _ Hk) as [d Hd]. rewrite Hd. destruct Hk as [t Ht].
  pose proof (order_inv_push st name Hi (mk_is_Some _ _ Ht) Hvg Hvd) as Hpush.
  destruct d as [b|]; simpl.
  - specialize (IH b _ Hpush (Hrange _ _ Hd)). simpl in IH.
    specialize (IH (conj Hd Hc) ltac:(lia)).
    destruct (visit tbn deps fuel b _) as [st2|e]; simpl; [|exact IH].
    destruct IH as (Hi2 & Hv2 & Hb & Hmono). rewrite Ht.
    destruct (order_inv_pop st2 name (vs_visiting st) t Hi2 Hv2 Ht) as [Hp Hpv].
    { intros b' Hb'. unfold dep in *. congruence. }
    split_and!; [done|done|simpl; set_solver|simpl; set_solver].
  - rewrite Ht. simpl.
    destruct (order_inv_pop _ name (vs_visiting st) t Hpush eq_refl Ht) as [Hp Hpv].
    { intros b' Hb'. unfold dep in *. congruence. }
    split_and!; [done|done|simpl; set_solver|simpl; set_solver].
Qed.

Lemma visit_all_spec fuel types st :
  order_inv st -> vs_visiting st = [] -> length (dkeys tbn) < fuel ->
  Forall (fun t => is_Some (dget (dt_name t) tbn)) types ->
  match visit_all tbn deps fuel types st with
  | Ok st' => order_inv st' /\ (forall n, n ∈ vs_visited st \/ n ∈ dt_name <$> types -> n ∈ vs_visited st')
  | Err e => exists n, e = circular_error n /\ tc dep n n
  end.
Proof.
  intros Hi Hv Hf Hts. revert st Hi Hv. induction Hts as [|t types Ht _ IH]; intros st Hi Hv; simpl.
  { split; [done|set_solver]. }
  pose proof (visit_spec fuel (dt_name t) st Hi Ht) as Hs. rewrite Hv in Hs.
  specialize (Hs I ltac:(simpl; lia)).
  destruct (visit _ _ _ _ _) as [st1|e]; simpl; [|done].
  destruct Hs as (Hi1 & Hv1 & Hin & Hmono). specialize (IH st1 Hi1 Hv1).
  destruct (visit_all _ _ _ _ _) as [st2|e]; [|done].
  destruct IH as [Hi2 Hall]. split; [done|]. csimpl. set_solver.
Qed.

(** A topological list that contains every name rules a cycle out. *)
Lemma topological_acyclic ordered :
  NoDup (dt_name <$> ordered) -> topological ordered ->
  forall n b, tc dep n b -> forall i t, ordered !! i = Some t -> dt_name t = n ->
  exists j u, j < i /\ ordered !! j = Some u /\ dt_name u = b.
Proof.
  intros Hnd Ht n b Htc. induction Htc as [n b Hd|n m b Hd _ IH]; intros i t Hi Hn; subst.
  - by eapply Ht.
  - destruct (Ht i t m Hi Hd) as (j & u & ? & Hu & Hm).
    destruct (IH j u Hu Hm) as (k & w & ? & ? & ?). exists k, w. split_and!; [lia|done|done].
Qed.
End search.

(** ** The dependencies of a design *)

Section order.
Context `{Pglast}.

(** The designed type a type is based on: the base type name its definition
    derives, when the design has a type of that name. *)
Definition designed_base (content : SchemiiDesignContent) (t : DesignType) : option string :=
  match analyze_type_definition (dt_definition t) with
  | Ok c => match td_base_type_name c with
            | Some base => if decide (base ∈ type_names content) then Some base else None
            | None => None
            end
  | Err _ => None
  end.

Definition depends_on (content : SchemiiDesignContent) (n b : string) : Prop :=
  exists t, t ∈ content_types content /\ dt_name t = n /\ designed_base content t = Some b.

Definition types_analyzed (content : SchemiiDesignContent) : Prop :=
  Forall (fun t => exists c, analyze_type_definition (dt_definition t) = Ok c) (content_types content).

Lemma dependency_loop_fill content types acc :
  Forall (fun t => exists c, analyze_type_definition (dt_definition t) = Ok c) types ->
  dependency_loop (dict_by dt_name (content_types content)) types acc =
  Ok (dict_fill dt_name (designed_base content) types acc).
Proof.
  intros Ha. revert acc. induction Ha as [|t types [c Hc] _ IH]; intros acc; [done|].
  rewrite dict_fill_cons. cbn [dependency_loop]. unfold analyzed_type. rewrite Hc. cbn.
  rewrite IH. do 3 f_equal. unfold designed_base. rewrite Hc.
  destruct (td_base_type_name c) as [base|]; [|done].
  pose proof (dict_by_is_Some dt_name (content_types content) base) as Hb. unfold type_names.
  case_bool_decide; case_decide; tauto.
Qed.

(** The error paths of the loop: the first definition that cannot be analysed. *)
Lemma dependency_loop_Err tbn types acc e :
  dependency_loop tbn types acc = Err e ->
  exists t e', t ∈ types /\ analyze_type_definition (dt_definition t) = Err e' /\
    e = DefinitionErrorRaised e'.
Proof.
  revert acc. induction types as [|t types IH]; intros acc; simpl; [done|].
  unfold analyzed_type. destruct (analyze_type_definition (dt_definition t)) as [c|e'] eqn:E; simpl.
  - intros (u & e' & ? & ? & ?)%IH. exists u, e'. split_and!; [by right|done|done].
  - intros [= <-]. exists t, e'. split_and!; [left|done|done].
Qed.

Lemma dep_depends_on content n b :
  dep (dict_fill dt_name (designed_base content) (content_types content) []) n b ->
  depends_on content n b.
Proof.
  unfold dep. rewrite dget_dict_fill_nil. intros (t & Ht & Hb)%fmap_Some.
  apply dict_by_Some in Ht as [? ?]. by exists t.
Qed.

Lemma depends_on_dep content n b :
  NoDup (type_names content) -> depends_on content n b ->
  dep (dict_fill dt_name (designed_base content) (content_types content) []) n b.
Proof.
  intros Hnd (t & Ht & <- & Hb). unfold dep.
  rewrite (dict_fill_elem dt_name (designed_base content)) by done. by rewrite Hb.
Qed.

Lemma designed_base_known content t b :
  designed_base content t = Some b -> b ∈ type_names content.
Proof.
  unfold designed_base. destruct (analyze_type_definition _) as [c|]; [|done].
  destruct (td_base_type_name c); [|done]. case_decide; naive_solver.
Qed.

Lemma type_by_name_keys content :
  length (dkeys (dict_by dt_name (content_types content))) < S (length (content_types content)).
Proof.
  rewrite <-(length_fmap dt_name). apply Nat.lt_succ_r, submseteq_length, NoDup_submseteq.
  - apply dict_by_wf.
  - intros n. by rewrite dkeys_dict_by.
Qed.

(** The search on a design whose definitions can all be analysed. *)
Lemma type_order_spec content :
  types_analyzed content ->
  match design_types_in_dependency_order content with
  | Ok ordered =>
      NoDup (dt_name <$> ordered) /\
      (forall n, n ∈ type_names content -> n ∈ dt_name <$> ordered) /\
      Forall (fun t => dget (dt_name t) (dict_by dt_name (content_types content)) = Some t) ordered /\
      topological (dict_fill dt_name (designed_base content) (content_types content) []) ordered
  | Err e => exists n, e = circular_error n /\ tc (depends_on content) n n
  end.
Proof.
  intros Ha. unfold design_types_in_dependency_order.
  rewrite dependency_loop_fill by done. cbn [result_bind].
  set (deps := dict_fill dt_name _ _ _).
  epose proof (visit_all_spec (dict_by dt_name (content_types content)) deps _ _ _
    (S (length (content_types content))) (content_types content)
    {| vs_ordered := []; vs_visiting := []; vs_visited := [] |} _ eq_refl
    (type_by_name_keys content) _) as Hs.
  Unshelve.
  - destruct (visit_all _ _ _ _ _) as [st|e]; cbn [result_bind].
    + destruct Hs as [Hi Hall]. pose proof (oi_nodup _ _ _ Hi) as Hnd.
      apply NoDup_app in Hnd as (_ & _ & Hnd). rewrite (oi_visited _ _ _ Hi) in Hnd, Hall.
      split_and!.
      * by rewrite (reverse_Permutation (dt_name <$> vs_ordered st)) in Hnd.
      * intros n Hn. rewrite <-elem_of_reverse. apply Hall. by right.
      * apply (oi_types _ _ _ Hi).
      * apply (oi_topo _ _ _ Hi).
    + destruct Hs as (n & -> & Htc). exists n. split; [done|].
      eapply (tc_congruence id); [|exact Htc]. intros ??. apply dep_depends_on.
  - intros n [t Ht]. unfold deps. rewrite dget_dict_fill_nil, Ht. by eexists.
  - intros n b (t & _ & _ & Hb)%dep_depends_on. apply dict_by_is_Some. by eapply designed_base_known.
  - intros n t Ht. by apply dict_by_Some in Ht as [_ ?].
  - split; simpl; try done; try constructor.
  - apply Forall_forall. intros t Ht. apply dict_by_is_Some. by apply list_elem_of_fmap_2.
Qed.

Lemma type_order_acyclic content ordered :
  NoDup (type_names content) ->
  NoDup (dt_name <$> ordered) -> (forall n, n ∈ type_names content -> n ∈ dt_name <$> ordered) ->
  topological (dict_fill dt_name (designed_base content) (content_types content) []) ordered ->
  forall n, ~ tc (depends_on content) n n.
Proof.
  intros Hnd Hond Hall Htopo n Hn. assert (Hk : n ∈ dt_name <$> ordered).
  { apply Hall. assert (exists b, depends_on content n b) as (b & t & ? & <- & _)
      by (inversion Hn; eauto). by apply list_elem_of_fmap_2. }
  apply list_elem_of_fmap in Hk as (t & -> & [i Hi]%list_elem_of_lookup).
  assert (Htc : tc (dep (dict_fill dt_name (designed_base content) (content_types content) []))
                  (dt_name t) (dt_name t)).
  { eapply (tc_congruence id); [|exact Hn]. intros ??. by apply depends_on_dep. }
  destruct (topological_acyclic _ ordered Hond Htopo _ _ Htc i t Hi eq_refl) as (j & u & Hj & Hu & Hname).
  assert (j = i); [|lia]. eapply (NoDup_lookup (dt_name <$> ordered)); [done| |].
  - by rewrite list_lookup_fmap, Hu.
  - by rewrite list_lookup_fmap, Hi, Hname.
Qed.

(** Ordering succeeds exactly on analysable, acyclic types. *)
Lemma type_order_Ok_iff content :
  NoDup (type_names content) ->
  (exists ordered, design_types_in_dependency_order content = Ok ordered) <->
  types_analyzed content /\ forall n, ~ tc (depends_on content) n n.
Proof.
  intros Hnd. split.
  - intros [ordered Ho]. assert (Ha : types_analyzed content).
    { unfold design_types_in_dependency_order in Ho. apply result_bind_Ok in Ho as (deps & Hd & _).
      revert Hd. generalize (dict_by dt_name (content_types content)) as tbn.
      generalize (@nil (string * option string)) as acc. unfold types_analyzed.
      induction (content_types content) as [|t types IH]; intros acc tbn Hd; [constructor|].
      simpl in Hd. apply result_bind_Ok in Hd as (c & Hc & Hd). constructor; [|by eapply IH].
      unfold analyzed_type in Hc. destruct (analyze_type_definition _); [eauto|done]. }
    split; [done|]. pose proof (type_order_spec content Ha) as Hs. rewrite Ho in Hs.
    destruct Hs as (? & ? & _ & ?). by eapply type_order_acyclic.
  - intros [Ha Hac]. pose proof (type_order_spec content Ha) as Hs.
    destruct (design_types_in_dependency_order content) as [ordered|e]; [eauto|].
    destruct Hs as (n & _ & Hn). by destruct (Hac n).
Qed.

(** Visiting a type whose base was already placed appends just that type. *)
Lemma visit_ready content fuel pre t :
  NoDup (type_names content) -> t ∈ content_types content ->
  dt_name t ∉ dt_name <$> pre ->
  (forall b, designed_base content t = Some b -> b ∈ dt_name <$> pre) ->
  visit (dict_by dt_name (content_types content))
    (dict_fill dt_name (designed_base content) (content_types content) []) (S (S fuel)) (dt_name t)
    {| vs_ordered := pre; vs_visiting := []; vs_visited := reverse (dt_name <$> pre) |} =
  Ok {| vs_ordered := (pre ++ [t])%list; vs_visiting := [];
        vs_visited := reverse (dt_name <$> (pre ++ [t])%list) |}.
Proof.
  intros Hnd Ht Hfresh Hb. remember (S fuel) as fuel1. simpl.
  rewrite bool_decide_eq_false_2 by by rewrite elem_of_reverse.
  cbn [guard_err result_bind].
  rewrite (dict_fill_elem dt_name (designed_base content)) by done.
  rewrite (dict_by_elem dt_name) by done.
  rewrite fmap_app, reverse_app.
  destruct (designed_base content t) as [b|]; subst; simpl.
  - rewrite bool_decide_eq_true_2 by (rewrite elem_of_reverse; auto). simpl.
    by rewrite filter_cons_False by naive_solver.
  - by rewrite filter_cons_False by naive_solver.
Qed.

Lemma visit_all_ready content fuel pre rest :
  NoDup (type_names content) -> content_types content = (pre ++ rest)%list ->
  (forall i t b, content_types content !! i = Some t -> designed_base content t = Some b ->
     exists j u, j < i /\ content_types content !! j = Some u /\ dt_name u = b) ->
  visit_all (dict_by dt_name (content_types content))
    (dict_fill dt_name (designed_base content) (content_types content) []) (S (S fuel)) rest
    {| vs_ordered := pre; vs_visiting := []; vs_visited := reverse (dt_name <$> pre) |} =
  Ok {| vs_ordered := content_types content; vs_visiting := [];
        vs_visited := reverse (dt_name <$> content_types content) |}.
Proof.
  intros Hnd. revert pre. induction rest as [|t rest IH]; intros pre Hc Hready.
  { rewrite app_nil_r in Hc. by rewrite Hc. }
  cbn [visit_all]. rewrite visit_ready.
  - cbn [result_bind]. apply IH; [by rewrite <-app_assoc|done].
  - done.
  - rewrite Hc. set_solver.
  - unfold type_names in Hnd. rewrite Hc, fmap_app, fmap_cons in Hnd.
    apply NoDup_app in Hnd as (_ & Hd & _). intros Hin. eapply Hd; [exact Hin|left].
  - intros b Hb. destruct (Hready (length pre) t b) as (j & u & Hj & Hu & <-); [|done|].
    + by rewrite Hc, list_lookup_middle.
    + rewrite Hc, lookup_app_l in Hu by done. apply list_elem_of_fmap_2.
      by eapply list_elem_of_lookup_2.
Qed.

Lemma type_order_result content :
  NoDup (type_names content) -> types_analyzed content ->
  match design_types_in_dependency_order content with
  | Ok ordered =>
      ordered ≡ₚ content_types content /\
      (forall i t b, ordered !! i = Some t -> designed_base content t = Some b ->
         exists j u, j < i /\ ordered !! j = Some u /\ dt_name u = b) /\
      (forall n, ~ tc (depends_on content) n n)
  | Err e => exists n, e = circular_error n /\ tc (depends_on content) n n
  end.
Proof.
  intros Hnd Ha. pose proof (type_order_spec content Ha) as Hs.
  destruct (design_types_in_dependency_order content) as [ordered|e]; [|done].
  destruct Hs as (Hond & Hall & Htypes & Htopo). rewrite Forall_forall in Htypes.
  assert (Hin : forall t, t ∈ ordered <-> t ∈ content_types content).
  { intros t. split; [by intros [? _]%Htypes%dict_by_Some|]. intros Ht.
    assert (Hn : dt_name t ∈ dt_name <$> ordered) by by apply Hall, list_elem_of_fmap_2.
    apply list_elem_of_fmap in Hn as (u & Hu & Huo). pose proof (Htypes _ Huo) as Hu'.
    rewrite <-Hu, (dict_by_elem dt_name) in Hu' by done. by simplify_eq. }
  split_and!.
  - apply NoDup_Permutation; [by eapply NoDup_fmap_1|by eapply NoDup_fmap_1|done].
  - intros i t b Hi Hb. apply (Htopo i t b Hi). apply depends_on_dep; [done|].
    exists t. split_and!; [|done|done]. apply Hin. by eapply list_elem_of_lookup_2.
  - by eapply (type_order_acyclic content ordered).
Qed.

(** C40. For a design with distinct type names whose definitions all parse, the
    dependency order is a permutation of its types in which every domain comes
    after the designed type it is based on, and it is found whenever there is
    one; otherwise the error names a type that depends on itself through a chain
    of designed base types.  The search neither runs out of fuel nor looks a
    missing name up. *)
Theorem type_order_correct content :
  NoDup (type_names content) -> types_analyzed content ->
  match design_types_in_dependency_order content with
  | Ok ordered =>
      ordered ≡ₚ content_types content /\
      (forall i t b, ordered !! i = Some t -> designed_base content t = Some b ->
         exists j u, j < i /\ ordered !! j = Some u /\ dt_name u = b) /\
      (forall n, ~ tc (depends_on content) n n)
  | Err e => exists n, e = circular_error n /\ tc (depends_on content) n n
  end.
Proof. apply type_order_result. Qed.

(** Types already authored in dependency order keep their authored order. *)
Theorem type_order_stable content :
  NoDup (type_names content) -> types_analyzed content ->
  (forall i t b, content_types content !! i = Some t -> designed_base content t = Some b ->
     exists j u, j < i /\ content_types content !! j = Some u /\ dt_name u = b) ->
  design_types_in_dependency_order content = Ok (content_types content).
Proof.
  intros Hnd Ha Hready. unfold design_types_in_dependency_order.
  rewrite dependency_loop_fill by done. cbn [result_bind].
  destruct (content_types content) as [|t types] eqn:E; [done|]. rewrite <-E.
  replace (S (length (content_types content))) with (S (S (length types))) by by rewrite E.
  pose proof (visit_all_ready content (length types) [] (content_types content) Hnd eq_refl) as Hr.
  rewrite <-E in Hready. specialize (Hr Hready). change (reverse (dt_name <$> [])) with (@nil string) in Hr.
  by rewrite Hr.
Qed.
End order.

(** ** Witnesses *)

Definition domain_type (id name definition : string) : DesignType :=
  {| dt_id := id; dt_name := name; dt_kind := TKDomain; dt_enum_values := [];
     dt_base_type := None; dt_default_expression := None; dt_not_null := false; dt_checks := [];
     dt_collation := None; dt_definition := definition |}.

(** A parser that reads the text [a:b] as a domain [a] based on [b]. *)
Definition domain_pglast : Pglast :=
  {| parse_sql := fun s => match py_split ":"%char s with
       | [name; base] => Some [CreateDomainStmt
           {| cd_domainname := [name]; cd_typeName := {| tn_names := [base]; tn_node := JStr base |};
              cd_constraints := []; cd_collClause := None |}]
       | _ => None
       end;
     raw_stream := fun node => match node with JStr s => s | _ => "" end;
     TRIGGER_TYPE_BEFORE := 2; TRIGGER_TYPE_INSTEAD := 64; TRIGGER_TYPE_INSERT := 4;
     TRIGGER_TYPE_UPDATE := 16; TRIGGER_TYPE_DELETE := 8; TRIGGER_TYPE_TRUNCATE := 32 |}.

Definition with_types (types : list DesignType) : SchemiiDesignContent :=
  {| content_types := types; content_tables := []; content_relationships := [];
     content_functions := []; content_views := []; content_triggers := [] |}.

Definition money_types : SchemiiDesignContent :=
  with_types [domain_type "t1" "price" "price:money"; domain_type "t2" "money" "money:numeric"].

Lemma type_order_correct_witness :
  exists ordered, @design_types_in_dependency_order domain_pglast money_types = Ok ordered /\
    (dt_name <$> ordered) = ["money"; "price"] /\ ordered ≡ₚ content_types money_types.
Proof.
  eexists. split; [vm_compute; reflexivity|]. split; [reflexivity|].
  pose proof (@type_order_correct domain_pglast money_types) as Ht.
  destruct Ht as (Hperm & _ & _).
  - apply (bool_decide_unpack _). vm_compute. exact I.
  - repeat constructor; eexists; vm_compute; reflexivity.
  - vm_compute in Hperm. vm_compute. exact Hperm.
Defined.

Lemma type_order_stable_witness :
  @design_types_in_dependency_order domain_pglast
    (with_types (rev (content_types money_types))) =
  Ok (rev (content_types money_types)).
Proof.
  apply (@type_order_stable domain_pglast).
  - apply (bool_decide_unpack _). vm_compute. exact I.
  - repeat constructor; eexists; vm_compute; reflexivity.
  - intros [|[|i]] t b; intros [= <-]; vm_compute; intros [= <-].
    exists 0. eexists. split; [lia|]. split; reflexivity.
Defined.
