(* ===== verification/ValidationSpec.v ===== *)
(** * What a validated design guarantees

    The abstract specification of [validate_design_content]: [design_ok] says,
    without exceptions, lookups or loops, when a design is consistent.  The
    validator accepts exactly these designs ([validation_exact]), and on content
    built by the model validators it raises nothing but [DesignValidationError]
    ([validation_error_kind]). *)

From Stdlib Require Import Ascii String.
From S2P Require Import Prelude Json PyString DesignModels DefinitionAnalysis DesignValidation.
From S2P Require Import TypeOrder.
Open Scope string_scope.
Open Scope result_scope.

(** ** Local conditions *)

Definition valid_name (s : string) : Prop :=
  str_contains nul_text s = false /\ String.length s <= 63.

Definition safe_sql (s : string) : Prop := unsafe_fragment s = false.
Definition nonblank_sql (s : string) : Prop := is_blank s = false /\ safe_sql s.

(** Distinct columns of one table. *)
Definition local_columns (t : DesignTable) (refs : list string) : Prop :=
  NoDup refs /\ (refs ⊆ (dc_id <$> tb_columns t)).

Record column_ok (t : DesignTable) (c : DesignColumn) : Prop := {
  co_name : valid_name (dc_name c);
  co_type : safe_sql (dc_data_type c);
  co_one_value : is_present (dc_default_expression c) + is_present (dc_identity c)
                 + is_present (dc_generated_expression c) <= 1;
  co_identity : dc_identity c <> None -> dc_nullable c = false;
  co_default : forall e, dc_default_expression c = Some e -> nonblank_sql e;
  co_generated : forall e, dc_generated_expression c = Some e ->
    nonblank_sql e /\ local_columns t (dc_generated_source_column_ids c) /\
    (dc_id c ∉ dc_generated_source_column_ids c) /\
    forall x, x ∈ dc_generated_source_column_ids c -> x ∉ generated_ids t;
  co_not_generated : dc_generated_expression c = None -> dc_generated_source_column_ids c = [];
}.

Definition key_ok (t : DesignTable) (k : DesignKeyConstraint) : Prop :=
  valid_name (dk_name k) /\ local_columns t (dk_column_ids k).

Definition check_ok (t : DesignTable) (k : DesignCheckConstraint) : Prop :=
  valid_name (ck_name k) /\ nonblank_sql (ck_expression k) /\ local_columns t (ck_column_ids k).

Definition index_part_ok (t : DesignTable) (part : option string) (sources : list string) : Prop :=
  match part with
  | Some e => nonblank_sql e /\ local_columns t sources
  | None => sources = []
  end.

Record index_ok (t : DesignTable) (i : DesignIndex) : Prop := {
  io_name : valid_name (ix_name i);
  io_method : valid_name (ix_method i);
  io_nonempty : ix_column_ids i <> [] \/ truthy (ix_expression i) = true;
  io_columns : local_columns t (ix_column_ids i);
  io_include : local_columns t (ix_include_column_ids i);
  io_disjoint : forall x, x ∈ ix_include_column_ids i -> x ∉ ix_column_ids i;
  io_expression : index_part_ok t (ix_expression i) (ix_expression_source_column_ids i);
  io_predicate : index_part_ok t (ix_predicate i) (ix_predicate_column_ids i);
}.

Record table_ok (t : DesignTable) : Prop := {
  to_name : valid_name (tb_name t);
  to_column_names : NoDup (dc_name <$> tb_columns t);
  to_columns : Forall (column_ok t) (tb_columns t);
  to_constraint_names : NoDup ((dk_name <$> tb_keys t) ++ (ck_name <$> tb_checks t))%list;
  to_primary : length (primary_keys t) <= 1;
  to_keys : Forall (key_ok t) (tb_keys t);
  to_checks : Forall (check_ok t) (tb_checks t);
  to_index_names : NoDup (ix_name <$> tb_indexes t);
  to_indexes : Forall (index_ok t) (tb_indexes t);
}.

(** ** References between objects *)

(** A foreign key joins distinct columns of a designed table, pairwise, to a
    primary or unique key of a designed table. *)
Record relationship_ok (content : SchemiiDesignContent) (r : DesignRelationship) : Prop := {
  ro_name : valid_name (rl_name r);
  ro_paired : length (rl_source_column_ids r) = length (rl_target_column_ids r);
  ro_source : exists s, s ∈ content_tables content /\ tb_id s = rl_source_table_id r /\
    local_columns s (rl_source_column_ids r);
  ro_target : exists t, t ∈ content_tables content /\ tb_id t = rl_target_table_id r /\
    local_columns t (rl_target_column_ids r) /\
    exists k, k ∈ tb_keys t /\ dk_column_ids k = rl_target_column_ids r;
  ro_deferred : rl_initially_deferred r = true -> rl_deferrable r = true;
}.

Definition relation_in (content : SchemiiDesignContent) (name : string) (rel : relation) : Prop :=
  match rel with
  | RTable t => t ∈ content_tables content /\ tb_name t = name
  | RView v => v ∈ content_views content /\ vw_name v = name
  end.

(** A trigger's timing suits its relation and orientation, the columns it names
    exist, and a designed function it calls by a plain name returns [trigger]. *)
Record trigger_ok (content : SchemiiDesignContent) (t : DesignTrigger) : Prop := {
  go_name : valid_name (tr_name t);
  go_relation : exists rel, relation_in content (tr_relation_name t) rel /\
    (tr_timing t = TInsteadOf -> is_view rel = true) /\
    (is_view rel = true -> tr_orientation t = ORow -> tr_timing t = TInsteadOf) /\
    (forall table, rel = RTable table -> tr_referenced_columns t ⊆ dc_name <$> tb_columns table);
  go_instead : tr_timing t = TInsteadOf -> tr_orientation t = ORow;
  go_truncate : ETruncate ∈ tr_events t -> tr_orientation t = OStatement;
  go_function : str_contains "." (tr_function_name t) = false ->
    forall f, f ∈ content_functions content -> fn_name f = tr_function_name t ->
      fn_identity_arguments f = "" ->
      fn_kind f = RFunction /\ exists rt, fn_return_type f = Some rt /\ py_lower rt = "trigger";
}.

Section spec.
Context `{Pglast} `{Sqlglot}.

Record design_ok (content : SchemiiDesignContent) : Prop := {
  do_names : NoDup (type_names content ++ relation_names content)%list;
  do_ids : NoDup (all_object_ids content);
  do_types : Forall (fun t => valid_name (dt_name t) /\
    forall k n, k ∈ dt_checks t -> dck_name k = Some n -> valid_name n) (content_types content);
  do_type_order : types_analyzed content /\ forall n, ~ tc (depends_on content) n n;
  do_tables : Forall table_ok (content_tables content);
  do_relationships : Forall (relationship_ok content) (content_relationships content);
  do_relationship_names :
    NoDup ((fun r => (rl_source_table_id r, rl_name r)) <$> content_relationships content);
  do_routine_signatures : NoDup (routine_signature <$> content_functions content);
  do_routines : Forall (fun f => valid_name (fn_name f) /\ valid_name (fn_language f))
    (content_functions content);
  do_views : Forall (fun v => valid_name (vw_name v) /\
    exists q, parse_query_definition (vw_definition v) = Ok q) (content_views content);
  do_trigger_names :
    NoDup ((fun t => tr_relation_name t ++ "." ++ tr_name t) <$> content_triggers content);
  do_triggers : Forall (trigger_ok content) (content_triggers content);
}.
End spec.

(** ** The checks, one by one *)

Lemma valid_identifier_Ok s category u : valid_identifier s category = Ok u <-> valid_name s.
Proof.
  unfold valid_identifier, valid_name. rewrite guard_err_Ok, orb_false_iff, bool_decide_eq_false.
  intuition lia.
Qed.

Lemma safe_fragment_Ok s category u : safe_fragment s category = Ok u <-> safe_sql s.
Proof. unfold safe_fragment. by rewrite guard_err_Ok. Qed.

Lemma count_gt_1_not_NoDup (l : list string) v :
  1 < length (filter (fun w => w = v) l) -> ~ NoDup l.
Proof.
  intros Hlen Hnd. apply (NoDup_filter (fun w => w = v)) in Hnd.
  assert (Hall : Forall (fun w => w = v) (filter (fun w => w = v) l)).
  { apply Forall_forall. by intros w [? _]%list_elem_of_filter. }
  destruct (filter _ l) as [|a [|b r]]; simpl in Hlen; [lia|lia|].
  inversion Hall as [|?? -> Hr]; subst. inversion Hr as [|?? -> _]; subst.
  apply NoDup_cons in Hnd as [Hn _]. set_solver.
Qed.

Lemma NoDup_count_le_1 (l : list string) :
  (forall v, v ∈ l -> length (filter (fun w => w = v) l) <= 1) -> NoDup l.
Proof.
  induction l as [|a l IH]; intros Hc; [constructor|].
  pose proof (Hc a ltac:(left)) as Ha. rewrite filter_cons_True in Ha by done. simpl in Ha.
  assert (Hnil : filter (fun w => w = a) l = []) by (apply length_zero_iff_nil; lia).
  apply filter_nil_iff in Hnil. rewrite Forall_forall in Hnil.
  apply NoDup_cons. split; [intros Hin; by eapply Hnil|].
  apply IH. intros v Hv. specialize (Hc v ltac:(by right)).
  destruct (decide (a = v)) as [->|]; [by destruct (Hnil v)|].
  by rewrite filter_cons_False in Hc.
Qed.

Lemma duplicate_values_nil l : duplicate_values l = [] <-> NoDup l.
Proof.
  unfold duplicate_values. set (d := filter _ _).
  assert (Hd : merge_sort String.le d = [] <-> d = []).
  { split; [|by intros ->]. intros E. pose proof (merge_sort_Permutation String.le d) as Hp.
    rewrite E in Hp. by apply Permutation_nil in Hp. }
  rewrite Hd. unfold d. rewrite filter_nil_iff, Forall_forall. split.
  - intros Hl. apply NoDup_count_le_1. intros v Hv.
    specialize (Hl v). rewrite elem_of_dict_fromkeys in Hl. specialize (Hl Hv). lia.
  - intros Hnd v _ Hlen. by eapply count_gt_1_not_NoDup.
Qed.

Lemma unique_Ok l category u : unique l category = Ok u <-> NoDup l.
Proof.
  unfold unique. rewrite guard_err_Ok, bool_decide_eq_false, <-duplicate_values_nil.
  split; [apply dec_stable|naive_solver].
Qed.

Lemma subset_of_true a b : subset_of a b = true <-> a ⊆ b.
Proof.
  unfold subset_of. rewrite forallb_forall. split.
  - intros Hs x Hx. apply list_elem_of_In, Hs in Hx. by apply bool_decide_eq_true in Hx.
  - intros Hs x Hx. apply bool_decide_eq_true, Hs. by apply list_elem_of_In.
Qed.

Lemma intersects_false a b : intersects a b = false <-> forall x, x ∈ a -> x ∉ b.
Proof.
  unfold intersects. rewrite existsb_false_Forall, Forall_forall.
  split; intros Hs x Hx; specialize (Hs x Hx); by apply bool_decide_eq_false in Hs || apply bool_decide_eq_false.
Qed.

Lemma distinct_true a : distinct a = true <-> NoDup a.
Proof. unfold distinct. apply bool_decide_eq_true. Qed.

(** A sequence of checks succeeds when the first and the rest do. *)
Lemma then_Ok {E A} (m : result E unit) (k : result E A) b :
  result_bind m (fun _ => k) = Ok b <-> m = Ok tt /\ k = Ok b.
Proof. destruct m as [[]|]; simpl; naive_solver. Qed.

Create Rewrite HintDb checks.
#[export] Hint Rewrite @then_Ok @guard_err_Ok valid_identifier_Ok safe_fragment_Ok unique_Ok
  orb_false_iff andb_false_iff negb_false_iff negb_true_iff subset_of_true intersects_false
  distinct_true bool_decide_eq_false bool_decide_eq_true @for_each_Ok : checks.


Lemma local_columns_iff t refs :
  negb (distinct refs) || negb (subset_of refs (dc_id <$> tb_columns t)) = false <->
  local_columns t refs.
Proof. unfold local_columns. by autorewrite with checks. Qed.

Lemma validate_column_Ok t c :
  validate_column t (dc_id <$> tb_columns t) (generated_ids t) c = Ok tt <-> column_ok t c.
Proof.
  unfold validate_column, nonblank_sql. autorewrite with checks.
  assert (Hd : (match dc_default_expression c with
      | Some e => guard_err (is_blank e) (column_error "Default expressions cannot be empty" t c) ;;;
          safe_fragment e ("default for " ++ tb_name t ++ "." ++ dc_name c)
      | None => Ok tt end) = Ok tt <-> forall e, dc_default_expression c = Some e -> nonblank_sql e).
  { destruct (dc_default_expression c); [|naive_solver]. unfold nonblank_sql.
    autorewrite with checks. naive_solver. }
  rewrite Hd. clear Hd. destruct (dc_generated_expression c) as [g|] eqn:Eg; autorewrite with checks.
  - split.
    + intros (? & ? & ? & Hid & ? & ? & ? & ((? & ?) & ?) & ?).
      split; rewrite ?Eg; try done; [lia| |].
      * intros ?. by destruct Hid as [Hid%dec_stable|].
      * intros e [= <-]. by unfold nonblank_sql, local_columns.
    + intros [? ? ? Hid ? Hg _]. rewrite Eg in *. specialize (Hg g eq_refl).
      unfold nonblank_sql, local_columns in Hg. destruct_and!. split_and!; try done; [lia|].
      destruct (dc_identity c); [right; by apply Hid|left; naive_solver].
  - split.
    + intros (? & ? & ? & Hid & ? & Hnil%dec_stable). split; rewrite ?Eg; try done; [lia|].
      intros ?. by destruct Hid as [Hid%dec_stable|].
    + intros [? ? ? Hid ? _ Hg]. rewrite Eg in *. specialize (Hg eq_refl).
      split_and!; try done; [lia| |naive_solver].
      destruct (dc_identity c); [right; by apply Hid|left; naive_solver].
Qed.

Lemma validate_key_Ok t k : validate_key t (dc_id <$> tb_columns t) k = Ok tt <-> key_ok t k.
Proof. unfold validate_key, key_ok. rewrite then_Ok, guard_err_Ok, local_columns_iff. by autorewrite with checks. Qed.

Lemma validate_check_Ok t k : validate_check t (dc_id <$> tb_columns t) k = Ok tt <-> check_ok t k.
Proof.
  unfold validate_check, check_ok, nonblank_sql.
  rewrite !then_Ok, !guard_err_Ok, local_columns_iff. autorewrite with checks. tauto.
Qed.

Lemma validate_index_part_Ok t i part sources category empty foreign dangling :
  validate_index_part t (dc_id <$> tb_columns t) i part sources category empty foreign dangling = Ok tt
  <-> index_part_ok t part sources.
Proof.
  destruct part; simpl; unfold nonblank_sql.
  - rewrite !then_Ok, !guard_err_Ok, local_columns_iff. autorewrite with checks. tauto.
  - rewrite guard_err_Ok, bool_decide_eq_false. split; [apply dec_stable|naive_solver].
Qed.

Lemma validate_index_Ok t i : validate_index t (dc_id <$> tb_columns t) i = Ok tt <-> index_ok t i.
Proof.
  unfold validate_index. rewrite !then_Ok, !validate_index_part_Ok, !guard_err_Ok.
  rewrite local_columns_iff, orb_false_iff, local_columns_iff. autorewrite with checks. split.
  - intros (? & ? & Hn & ? & (? & ?) & ? & ?). split; try done.
  - intros [? ? Hn ? ? ? ? ?]. tauto.
Qed.

Lemma validate_table_Ok t : validate_table t = Ok tt <-> table_ok t.
Proof.
  unfold validate_table. cbv zeta. autorewrite with checks.
  assert (Hc : Forall (fun x => validate_column t (dc_id <$> tb_columns t) (generated_ids t) x = Ok tt)
                 (tb_columns t) <-> Forall (column_ok t) (tb_columns t)).
  { apply Forall_iff. intros c. apply validate_column_Ok. }
  assert (Hk : Forall (fun x => validate_key t (dc_id <$> tb_columns t) x = Ok tt) (tb_keys t)
               <-> Forall (key_ok t) (tb_keys t)) by (apply Forall_iff; intros; apply validate_key_Ok).
  assert (Hch : Forall (fun x => validate_check t (dc_id <$> tb_columns t) x = Ok tt) (tb_checks t)
               <-> Forall (check_ok t) (tb_checks t)) by (apply Forall_iff; intros; apply validate_check_Ok).
  assert (Hi : Forall (fun x => validate_index t (dc_id <$> tb_columns t) x = Ok tt) (tb_indexes t)
               <-> Forall (index_ok t) (tb_indexes t)) by (apply Forall_iff; intros; apply validate_index_Ok).
  rewrite Hc, Hk, Hch, Hi. split.
  - intros (? & ? & ? & ? & ? & ? & ? & ? & ?). split; try done. lia.
  - intros [? ? ? ? ? ? ? ? ?]. split_and!; try done. lia.
Qed.

(** ** References *)

Lemma table_by_id_Some content id t :
  NoDup (tb_id <$> content_tables content) ->
  dget id (dict_by tb_id (content_tables content)) = Some t <->
  t ∈ content_tables content /\ tb_id t = id.
Proof.
  intros Hnd. split; [apply dict_by_Some|]. intros [Ht <-]. by apply dict_by_elem.
Qed.

Lemma validate_relationship_Ok content seen r seen' :
  NoDup (tb_id <$> content_tables content) ->
  validate_relationship (dict_by tb_id (content_tables content)) seen r = Ok seen' <->
  relationship_ok content r /\ ((rl_source_table_id r, rl_name r) ∉ seen) /\
  seen' = (rl_source_table_id r, rl_name r) :: seen.
Proof.
  intros Hnd. unfold validate_relationship.
  destruct (dget (rl_source_table_id r) _) as [s|] eqn:Es;
    [destruct (dget (rl_target_table_id r) _) as [t|] eqn:Et|].
  - rewrite table_by_id_Some in Es, Et by done. destruct Es as [Hs His], Et as [Ht Hit].
    autorewrite with checks. rewrite His.
    assert (Hkey : rl_target_column_ids r ∈ dk_column_ids <$> tb_keys t <->
      exists k, k ∈ tb_keys t /\ dk_column_ids k = rl_target_column_ids r).
    { rewrite list_elem_of_fmap. naive_solver. }
    rewrite Hkey. split.
    + intros (? & ((((? & ?) & ?) & ?) & ?) & ? & Hdef & ? & [= <-]). split; [|done].
      split; [done|done|exists s|exists t|]; unfold local_columns; [done|done|].
      intros Hi. rewrite Hi in Hdef. naive_solver.
    + intros ([? ? (s' & Hs' & His' & Hsc) (t' & Ht' & Hit' & Htc & Hk) Hdef] & ? & ->).
      assert (s' = s) as ->. { eapply NoDup_fmap_elem_eq; [exact Hnd|done..|]. congruence. }
      assert (t' = t) as ->. { eapply NoDup_fmap_elem_eq; [exact Hnd|done..|]. congruence. }
      destruct Hsc, Htc. split_and!; try done.
      destruct (rl_initially_deferred r); [right; by rewrite Hdef|by left].
  - split; [done|]. intros ([_ _ _ (t' & Ht' & Hit' & _) _] & _).
    rewrite <-Hit', dict_by_elem in Et by done. done.
  - split; [done|]. intros ([_ _ (s' & Hs' & His' & _) _ _] & _).
    rewrite <-His', dict_by_elem in Es by done. done.
Qed.

Lemma validate_relationships_Ok content rs seen :
  NoDup (tb_id <$> content_tables content) ->
  validate_relationships (dict_by tb_id (content_tables content)) rs seen = Ok tt <->
  Forall (relationship_ok content) rs /\
  NoDup ((fun r => (rl_source_table_id r, rl_name r)) <$> rs) /\
  (forall p, p ∈ (fun r => (rl_source_table_id r, rl_name r)) <$> rs -> p ∉ seen).
Proof.
  intros Hnd. revert seen. induction rs as [|r rs IH]; intros seen; csimpl.
  - split; [|done]. intros _. split_and!; [constructor|constructor|set_solver].
  - rewrite result_bind_Ok, Forall_cons, NoDup_cons. split.
    + intros (seen' & Hr & Hrs). rewrite validate_relationship_Ok in Hr by done.
      destruct Hr as (? & ? & ->). apply IH in Hrs as (? & ? & Hd).
      split_and!; try done.
      * intros Hin. apply (Hd _ Hin). left.
      * intros p [->|Hp]%elem_of_cons; [done|]. intros Hs. apply (Hd _ Hp). by right.
    + intros ([? ?] & [Hn ?] & Hd). eexists. rewrite validate_relationship_Ok by done.
      split; [split_and!; [done|apply Hd; left|done]|]. apply IH. split_and!; [done|done|].
      intros p Hp [->|Hs]%elem_of_cons; [done|]. apply (Hd p); [by right|done].
Qed.

Lemma relation_by_name_Some content n rel :
  NoDup (relation_names content) ->
  dget n (relation_by_name content) = Some rel <-> relation_in content n rel.
Proof.
  unfold relation_names, relation_by_name. intros (Ht & Hd & Hv)%NoDup_app. split.
  - intros [(v & ? & ? & <-)|[_ [(t & ? & ? & <-)|[? ?]]%dict_fill_Some]]%dict_fill_Some; done.
  - destruct rel as [t|v]; intros [Hin <-].
    + rewrite dict_fill_None; [by apply dict_fill_elem|]. by apply Hd, list_elem_of_fmap_2.
    + by apply (dict_fill_elem vw_name RView).
Qed.

Lemma routine_keys_NoDup content :
  NoDup (routine_signature <$> content_functions content) ->
  NoDup ((fun f => (fn_name f, fn_identity_arguments f)) <$> content_functions content).
Proof.
  intros Hnd.
  apply (NoDup_fmap_1 (fun p : string * string => p.1 ++ "(" ++ p.2 ++ ")")).
  by rewrite <-list_fmap_compose.
Qed.

Lemma unknown_columns_nil t table :
  unknown_columns t table = [] <-> tr_referenced_columns t ⊆ (dc_name <$> tb_columns table).
Proof.
  unfold unknown_columns. set (d := filter _ _).
  assert (Hd : merge_sort String.le d = [] <-> d = []).
  { split; [|by intros ->]. intros E. pose proof (merge_sort_Permutation String.le d) as Hp.
    rewrite E in Hp. by apply Permutation_nil in Hp. }
  rewrite Hd. unfold d. rewrite filter_nil_iff, Forall_forall. split.
  - intros Hl x Hx. apply dec_stable, Hl. by apply elem_of_dict_fromkeys.
  - intros Hs x Hx Hn. apply Hn, Hs. by apply elem_of_dict_fromkeys.
Qed.

(** The condition on the function a trigger calls. *)
Lemma trigger_function_Ok content t :
  NoDup (routine_signature <$> content_functions content) ->
  (match py_split "."%char (tr_function_name t) with
   | [function] =>
       match dget (function, "") (routine_by_signature content) with
       | Some routine =>
           let! bad := not_trigger_function routine in
           guard_err bad
             (DesignValidationError
                "A designed trigger function must be a no-argument function returning trigger"
                [("trigger", JStr (tr_name t)); ("function", JStr (tr_function_name t))])
       | None => Ok tt
       end
   | _ => Ok tt
   end) = Ok tt <->
  (str_contains "." (tr_function_name t) = false ->
   forall f, f ∈ content_functions content -> fn_name f = tr_function_name t ->
     fn_identity_arguments f = "" ->
     fn_kind f = RFunction /\ exists rt, fn_return_type f = Some rt /\ py_lower rt = "trigger").
Proof.
  intros Hnd%routine_keys_NoDup.
  destruct (str_contains "." (tr_function_name t)) eqn:Edot.
  { split; [done|]. intros _. destruct (py_split _ _) as [|w [|]] eqn:Es; try done.
    apply py_split_single in Es as [_ Es]. congruence. }
  rewrite (proj2 (py_split_single "."%char _ _) (conj eq_refl Edot)).
  unfold routine_by_signature.
  destruct (dget (tr_function_name t, "") _) as [f|] eqn:Ef.
  - apply dict_by_Some in Ef as [Hf [= Hname Hargs]].
    assert (Huniq : forall g, g ∈ content_functions content -> fn_name g = tr_function_name t ->
      fn_identity_arguments g = "" -> g = f).
    { intros g Hg Hgn Hga. eapply (NoDup_fmap_elem_eq _ _ _ _ Hnd); [done|done|]. simpl. congruence. }
    rewrite result_bind_Ok. unfold not_trigger_function. split.
    + intros (bad & Hbad & Hg%guard_err_Ok) _ g Hg1 Hg2 Hg3. rewrite (Huniq g) by done.
      destruct (fn_kind f); [|congruence]. destruct (fn_return_type f) as [rt|]; [|done].
      injection Hbad as <-. rewrite negb_false_iff, bool_decide_eq_true in Hg. eauto.
    + intros Hall. destruct (Hall eq_refl f Hf Hname Hargs) as (-> & rt & -> & Hrt).
      eexists. split; [done|]. by rewrite bool_decide_eq_true_2.
  - apply dict_by_None in Ef. split; [|done]. intros _ _ f Hf Hn Ha. destruct Ef.
    rewrite <-Hn, <-Ha. by apply (list_elem_of_fmap_2 (fun f => (fn_name f, fn_identity_arguments f))).
Qed.

Lemma validate_trigger_Ok content t :
  NoDup (relation_names content) -> NoDup (routine_signature <$> content_functions content) ->
  validate_trigger content t = Ok tt <-> trigger_ok content t.
Proof.
  intros Hrel Hfun. unfold validate_trigger. rewrite then_Ok, valid_identifier_Ok.
  destruct (dget (tr_relation_name t) _) as [rel|] eqn:Er.
  - apply relation_by_name_Some in Er; [|done].
    assert (Hun : (match rel with
      | RTable table => guard_err (bool_decide (unknown_columns t table <> []))
          (DesignValidationError "Trigger column references must exist on the target table"
             [("trigger", JStr (tr_name t)); ("relation", JStr (tr_relation_name t));
              ("columns", json_strs (unknown_columns t table))])
      | RView _ => Ok tt
      end) = Ok tt <->
      (forall table, rel = RTable table -> tr_referenced_columns t ⊆ dc_name <$> tb_columns table)).
    { destruct rel as [table|v]; [|done]. rewrite guard_err_Ok, bool_decide_eq_false. split.
      - intros Hn%dec_stable ? [= <-]. by apply unknown_columns_nil.
      - intros Hs Hn. by apply Hn, unknown_columns_nil, Hs. }
    rewrite !then_Ok, trigger_function_Ok, Hun by done. clear Hun. autorewrite with checks.
    split.
    + intros (? & H1 & H2 & H3 & H4 & H5 & H6). split; try done.
      * exists rel. split_and!; [done| | |done]; destruct (is_view rel), (tr_timing t), (tr_orientation t);
          naive_solver.
      * destruct (tr_timing t), (tr_orientation t); naive_solver.
      * destruct (tr_orientation t); naive_solver.
    + intros [? (rel' & Hin & H1 & H2 & H5) H3 H4 H6].
      assert (rel' = rel) as ->.
      { apply relation_by_name_Some in Hin, Er; [|done..]. congruence. }
      split_and!; try done.
      * destruct (tr_timing t); naive_solver.
      * destruct (is_view rel), (tr_timing t), (tr_orientation t); naive_solver.
      * destruct (tr_timing t), (tr_orientation t); naive_solver.
      * destruct (tr_orientation t); [left|right]; naive_solver.
  - split; [naive_solver|]. intros [_ (rel & Hin & _) _ _ _].
    apply relation_by_name_Some in Hin; [|done]. congruence.
Qed.

Lemma validate_type_Ok t :
  validate_type t = Ok tt <->
  valid_name (dt_name t) /\
  forall k n, k ∈ dt_checks t -> dck_name k = Some n -> valid_name n.
Proof.
  unfold validate_type. rewrite then_Ok, valid_identifier_Ok, for_each_Ok, Forall_forall.
  apply and_iff_compat_l. split.
  - intros Hc k n Hk Hn. specialize (Hc k Hk). rewrite Hn in Hc. by apply valid_identifier_Ok in Hc.
  - intros Hc k Hk. destruct (dck_name k) as [n|] eqn:E; [|done]. apply valid_identifier_Ok. eauto.
Qed.

Section exactness.
Context `{Pglast} `{Sqlglot}.

Lemma validate_view_Ok v :
  validate_view v = Ok tt <->
  valid_name (vw_name v) /\ exists q, parse_query_definition (vw_definition v) = Ok q.
Proof.
  unfold validate_view. rewrite then_Ok, valid_identifier_Ok.
  destruct (parse_query_definition (vw_definition v)) as [q|[]]; naive_solver.
Qed.

Lemma validate_design_content_iff content :
  validate_design_content content = Ok tt <-> design_ok content.
Proof.
  unfold validate_design_content. rewrite !then_Ok, !unique_Ok, !for_each_Ok, result_bind_Ok.
  setoid_rewrite validate_type_Ok. split.
  - intros (Htn & Hn & Htypes & ordered & Ho & Hrest). cbv zeta in Hrest.
    rewrite !then_Ok, !unique_Ok, !for_each_Ok in Hrest.
    destruct Hrest as (Htab & Hrels & Hsig & Hrout & Hviews & Htrn & Htrig & Hids).
    pose proof (table_ids_NoDup _ Hids) as Htid.
    assert (Hrn : NoDup (relation_names content)) by by apply NoDup_app in Hn as (_ & _ & ?).
    apply validate_relationships_Ok in Hrels as (? & ? & _); [|done].
    split; try done.
    + apply type_order_Ok_iff; [done|eauto].
    + eapply Forall_impl; [exact Htab|]. intros ?. by rewrite validate_table_Ok.
    + eapply Forall_impl; [exact Hrout|]. intros f. unfold validate_routine.
      by rewrite then_Ok, !valid_identifier_Ok.
    + eapply Forall_impl; [exact Hviews|]. intros ?. by rewrite validate_view_Ok.
    + eapply Forall_impl; [exact Htrig|]. intros ?. by rewrite validate_trigger_Ok.
  - intros [Hn Hids Htypes Horder Htab Hrels Hrelnames Hsig Hrout Hviews Htrn Htrig].
    pose proof (table_ids_NoDup _ Hids) as Htid.
    assert (Htn : NoDup (type_names content)) by by apply NoDup_app in Hn as (? & _ & _).
    assert (Hrn : NoDup (relation_names content)) by by apply NoDup_app in Hn as (_ & _ & ?).
    destruct (proj2 (type_order_Ok_iff content Htn) Horder) as [ordered Ho].
    split_and!; try done. exists ordered. split; [done|]. cbv zeta.
    rewrite !then_Ok, !unique_Ok, !for_each_Ok. split_and!; try done.
    + eapply Forall_impl; [exact Htab|]. intros ?. by rewrite validate_table_Ok.
    + apply validate_relationships_Ok; [done|]. split_and!; [done|done|set_solver].
    + eapply Forall_impl; [exact Hrout|]. intros f. unfold validate_routine.
      by rewrite then_Ok, !valid_identifier_Ok.
    + eapply Forall_impl; [exact Hviews|]. intros ?. by rewrite validate_view_Ok.
    + eapply Forall_impl; [exact Htrig|]. intros ?. by rewrite validate_trigger_Ok.
Qed.

(** C14. The validator accepts a design exactly when it is consistent: names and
    IDs are unique, every local reference names distinct columns of its own table,
    every foreign key joins existing columns to a key, domains are not circular,
    triggers fit their relation and every view is one read-only query. *)
Theorem validation_exact content :
  validate_design_content content = Ok tt <-> design_ok content.
Proof. apply validate_design_content_iff. Qed.
End exactness.

(** ** Exceptions *)

(** The only exception a computation can raise is [DesignValidationError]. *)
Definition only_validation {A} (m : checked A) : Prop :=
  forall e, m = Err e -> exists message details, e = DesignValidationError message details.

Lemma only_validation_Ok {A} (a : A) : only_validation (Ok a).
Proof. by intros e [=]. Qed.

Lemma only_validation_Err {A} message details :
  only_validation (A := A) (Err (DesignValidationError message details)).
Proof. intros e [= <-]. eauto. Qed.

Lemma only_validation_guard b message details :
  only_validation (guard_err b (DesignValidationError message details)).
Proof. destruct b; [apply only_validation_Err|apply only_validation_Ok]. Qed.

Lemma only_validation_bind {A B} (m : checked A) (k : A -> checked B) :
  only_validation m -> (forall a, m = Ok a -> only_validation (k a)) ->
  only_validation (result_bind m k).
Proof. intros Hm Hk. destruct m as [a|e']; simpl; [auto|]. intros e [= <-]. by apply Hm. Qed.

Lemma only_validation_for_each {A} (f : A -> checked unit) l :
  (forall x, x ∈ l -> only_validation (f x)) -> only_validation (for_each f l).
Proof.
  induction l as [|x l IH]; intros Hf; simpl; [apply only_validation_Ok|].
  apply only_validation_bind; [apply Hf; left|]. intros _ _. apply IH. intros y Hy. apply Hf. by right.
Qed.

Create HintDb only_validation.
#[export] Hint Resolve only_validation_Ok only_validation_Err only_validation_guard
  only_validation_bind only_validation_for_each : only_validation.
#[export] Hint Unfold valid_identifier unique safe_fragment column_error local_reference_error
  trigger_error : only_validation.

(** Follows the structure of a check. *)
Ltac only_validation :=
  repeat (autounfold with only_validation;
  match goal with
  | |- only_validation (guard_err _ _) => apply only_validation_guard
  | |- only_validation (Ok _) => apply only_validation_Ok
  | |- only_validation (Err _) => apply only_validation_Err
  | |- only_validation (result_bind _ _) => apply only_validation_bind; [|intros ? _]
  | |- only_validation (for_each _ _) => apply only_validation_for_each; intros ? _
  | |- only_validation (match ?x with _ => _ end) => destruct x eqn:?
  end).

Lemma validate_table_only t : only_validation (validate_table t).
Proof.
  unfold validate_table, validate_column, validate_key, validate_check, validate_index,
    validate_index_part. only_validation.
Qed.

Lemma validate_relationships_only tbi rs seen : only_validation (validate_relationships tbi rs seen).
Proof.
  revert seen. induction rs as [|r rs IH]; intros seen; simpl; [only_validation|].
  apply only_validation_bind; [|intros; apply IH]. unfold validate_relationship. only_validation.
Qed.

Lemma validate_trigger_only content t :
  Forall (fun f => fn_kind f = RFunction -> is_Some (fn_return_type f)) (content_functions content) ->
  only_validation (validate_trigger content t).
Proof.
  rewrite Forall_forall. intros Hf. unfold validate_trigger, routine_by_signature.
  only_validation.
  match goal with H : dget _ (dict_by _ _) = Some ?f |- _ =>
    apply dict_by_Some in H as [Hin _]; specialize (Hf f Hin) end.
  unfold not_trigger_function. only_validation. naive_solver.
Qed.

Section exceptions.
Context `{Pglast} `{Sqlglot}.

(** Content as the model validators build it: types and routines carry what
    their definitions derive. *)
Record content_derived (content : SchemiiDesignContent) : Prop := {
  cd_types : types_analyzed content;
  cd_functions : Forall (fun f => exists c,
    analyze_routine_definition (fn_definition f) = Ok c /\
    fn_kind f = rd_kind c /\ fn_return_type f = rd_return_type c) (content_functions content);
}.

Lemma parse_query_definition_error d e :
  parse_query_definition d = Err e -> exists code message, e = QueryDefinitionError code message.
Proof.
  unfold parse_query_definition, guard_err.
  repeat (case_match; simpl; try (intros [= <-]; eauto)).
Qed.

Lemma validate_view_only v : only_validation (validate_view v).
Proof.
  unfold validate_view. only_validation;
  match goal with H : parse_query_definition _ = Err _ |- _ =>
    apply parse_query_definition_error in H as (? & ? & [=]) end.
Qed.

Lemma type_order_only content :
  types_analyzed content -> only_validation (design_types_in_dependency_order content).
Proof.
  intros Ha e He. pose proof (type_order_spec content Ha) as Hs. rewrite He in Hs.
  destruct Hs as (n & -> & _). unfold circular_error. eauto.
Qed.

(** On content built by the model validators every rejection is a
    [DesignValidationError] with its message and details: no key, attribute or
    parser exception escapes the validator, and its search terminates. *)
Theorem validation_error_kind content e :
  content_derived content -> validate_design_content content = Err e ->
  exists message details, e = DesignValidationError message details.
Proof.
  intros [Hty Hfn]. revert e. change (only_validation (validate_design_content content)).
  assert (Hret : Forall (fun f => fn_kind f = RFunction -> is_Some (fn_return_type f))
                   (content_functions content)).
  { eapply Forall_impl; [exact Hfn|]. intros f (c & Hc & -> & ->).
    apply (analyze_routine_return _ _ Hc). }
  unfold validate_design_content, validate_type, validate_routine.
  repeat match goal with
    | |- only_validation (result_bind _ _) => apply only_validation_bind; [|intros ? _]
    | |- only_validation (for_each _ _) => apply only_validation_for_each; intros ? _
    end;
    eauto using validate_table_only, validate_relationships_only, validate_view_only,
      type_order_only, validate_trigger_only; only_validation.
Qed.
End exceptions.

(** ** Witnesses *)

(** A query analyser for which every non-empty text is one plain SELECT. *)
Definition sample_sqlglot : Sqlglot :=
  {| sql_expression := string; sqlglot_parse := fun s => Ok [Some s];
     subquery_this := fun _ => None; is_select_or_set_operation := fun _ => true;
     find_forbidden := fun _ _ => false; find_into := fun _ => false |}.

Definition int_column (id name : string) : DesignColumn :=
  {| dc_id := id; dc_name := name; dc_data_type := "integer"; dc_nullable := false;
     dc_default_expression := None; dc_identity := None; dc_generated_expression := None;
     dc_generated_source_column_ids := [] |}.

Definition keyed_table (id name : string) (cols : list DesignColumn) : DesignTable :=
  {| tb_id := id; tb_name := name; tb_columns := cols;
     tb_keys := [{| dk_id := id ++ "k"; dk_name := name ++ "_pkey"; dk_kind := KPrimary;
                    dk_column_ids := match cols with c :: _ => [dc_id c] | [] => [] end |}];
     tb_checks := []; tb_indexes := [] |}.

(** Orders that reference people. *)
Definition shop_design : SchemiiDesignContent :=
  {| content_types := [];
     content_tables := [keyed_table "t1" "people" [int_column "c1" "id"];
                        keyed_table "t2" "orders" [int_column "c2" "id"; int_column "c3" "person"]];
     content_relationships :=
       [{| rl_id := "r1"; rl_name := "orders_person_fkey"; rl_source_table_id := "t2";
           rl_source_column_ids := ["c3"]; rl_target_table_id := "t1";
           rl_target_column_ids := ["c1"]; rl_on_update := NoAction; rl_on_delete := Cascade;
           rl_deferrable := false; rl_initially_deferred := false |}];
     content_functions := []; content_views := []; content_triggers := [] |}.

Example shop_design_valid :
  @validate_design_content domain_pglast sample_sqlglot shop_design = Ok tt.
Proof. vm_compute. reflexivity. Qed.

(** The same design with a foreign key to a column that is no key. *)
Definition dangling_design : SchemiiDesignContent :=
  {| content_types := []; content_tables := content_tables shop_design;
     content_relationships :=
       [{| rl_id := "r1"; rl_name := "self_fkey"; rl_source_table_id := "t2";
           rl_source_column_ids := ["c2"]; rl_target_table_id := "t2";
           rl_target_column_ids := ["c3"]; rl_on_update := NoAction; rl_on_delete := NoAction;
           rl_deferrable := false; rl_initially_deferred := false |}];
     content_functions := []; content_views := []; content_triggers := [] |}.

Lemma validation_error_kind_witness :
  exists message details,
    @validate_design_content domain_pglast sample_sqlglot dangling_design =
      Err (DesignValidationError message details) /\
    exists m d, DesignValidationError message details = DesignValidationError m d.
Proof.
  do 2 eexists. split; [vm_compute; reflexivity|].
  apply (@validation_error_kind domain_pglast sample_sqlglot dangling_design).
  - split; constructor.
  - vm_compute. reflexivity.
Defined.

(** Relation and trigger names are joined with a dot before they are compared,
    so distinct pairs of quoted names can be rejected as duplicates. *)
Definition plain_trigger (id name relation : string) : DesignTrigger :=
  {| tr_id := id; tr_name := name; tr_relation_name := relation; tr_timing := TAfter;
     tr_events := [EInsert]; tr_orientation := ORow; tr_function_name := "audit.log";
     tr_function_arguments := []; tr_update_columns := []; tr_referenced_columns := [];
     tr_when_expression := None; tr_transition_relations := []; tr_constraint := false;
     tr_deferrable := false; tr_initially_deferred := false; tr_definition := "" |}.

Definition dotted_triggers : SchemiiDesignContent :=
  {| content_types := [];
     content_tables := [keyed_table "t1" "a" [int_column "c1" "id"];
                        keyed_table "t2" "a.b" [int_column "c2" "id"]];
     content_relationships := []; content_functions := []; content_views := [];
     content_triggers := [plain_trigger "g1" "b.c" "a"; plain_trigger "g2" "c" "a.b"] |}.

Lemma dotted_trigger_names_collide :
  @validate_design_content domain_pglast sample_sqlglot dotted_triggers =
    Err (DesignValidationError "trigger names per relation must be unique"
      [("category", JStr "trigger names per relation"); ("values", JList [JStr "a.b.c"])]) /\
  NoDup ((fun t => (tr_relation_name t, tr_name t)) <$> content_triggers dotted_triggers).
Proof. split; [vm_compute; reflexivity|]. apply (bool_decide_unpack _). vm_compute. exact I. Qed.
