(* ===== verification/DeletionImpact.v ===== *)
(** * Deletion consequences and design transitions

    [designs/deletion_impact.py]: the inventory of objects and of what depends on
    them, the recursive preflight of a deletion, and the transition check that a
    replacement must pass.

    Three things are parameters: [query_sources], the relations and columns
    [analyze_query_definition] (sqlglot) finds in a view, [None] when it rejects
    the definition; [casefold], which only orders names; and [set_order], the order
    in which Python iterates a set, of which only [Permutation] is assumed. *)

From stdpp Require Import pretty.
From Stdlib Require Import Ascii String.
From S2P Require Import Prelude Json PyString DesignModels DefinitionAnalysis DesignValidation.
Open Scope string_scope.
Open Scope result_scope.

(** ** Objects and the inventory *)

Record InventoryObject := {
  obj_id : string;
  obj_kind : object_kind;
  obj_name : string;
  obj_consequence : string;
  obj_severity : deletion_severity;
  obj_context : option string;
  obj_table_id : option string;
  obj_table_name : option string;
}.

Record Inventory := {
  inv_objects : list (string * InventoryObject);
  inv_dependents : list (string * list string);
}.

Definition dependents_of (inv : Inventory) (id : string) : list string :=
  match dget id (inv_dependents inv) with Some s => s | None => [] end.

Definition inv_add (item : InventoryObject) (inv : Inventory) : Inventory :=
  {| inv_objects := dset (obj_id item) item (inv_objects inv);
     inv_dependents := dset (obj_id item) (dependents_of inv (obj_id item)) (inv_dependents inv) |}.

Definition inv_link (target_id dependent_id : string) (inv : Inventory) : Inventory :=
  if bool_decide (target_id = dependent_id) then inv else
  {| inv_objects := inv_objects inv;
     inv_dependents := dset target_id (fromkeys_step (dependents_of inv target_id) dependent_id)
                         (inv_dependents inv) |}.

(** [for target in targets: inventory.link(target, dependent)]. *)
Definition link_all (targets : list string) (dependent_id : string) (inv : Inventory) : Inventory :=
  foldl (fun inv t => inv_link t dependent_id inv) inv targets.

(** ** Names in SQL texts *)

(** The double quote. *)
Definition quote : ascii := ascii_of_nat 34.

Definition strip_quotes (s : string) : string :=
  let fix lstrip s := match s with
    | String c s' => if bool_decide (c = quote) then lstrip s' else s
    | EmptyString => EmptyString
    end in
  py_rstrip_char quote (lstrip s).

(** The last dotted part of a function name, stripped of whitespace and then of
    double quotes. *)
Definition routine_name (value : string) : string :=
  strip_quotes (py_strip (List.last (py_split "."%char value) "")).

Definition word_char (c : ascii) : bool :=
  let x := byte_of c in
  bool_decide ((65 <= x <= 90) \/ (97 <= x <= 122) \/ (48 <= x <= 57) \/ x = 95 \/ x = 36)%N.

(** The first regular expression of [_mentions_type] matches a quoted identifier:
    an opening quote, one or more items (a character other than the quote, or a
    doubled quote) and a closing quote.  [quoted_group] runs it after an opening
    quote: [items] are the items read so far, latest first ([None] for a doubled
    quote), and [fallback] is the match that backtracking finds when the text ends
    without a closing quote: the one that closes at the latest doubled quote.  The
    result is the unescaped group and the text after the closing quote. *)
Definition items_text (items : list (option ascii)) : string :=
  string_of_list_ascii (rev ((fun i => match i with Some c => c | None => quote end) <$> items)).

Fixpoint quoted_group (items : list (option ascii)) (fallback : option (string * string))
    (s : string) : option (string * string) :=
  match s with
  | EmptyString => fallback
  | String c s' =>
      if bool_decide (c = quote) then
        match s' with
        | String d s'' =>
            if bool_decide (d = quote) then
              quoted_group (None :: items)
                (match items with [] => fallback | _ => Some (items_text items, s') end) s''
            else match items with [] => None | _ => Some (items_text items, s') end
        | EmptyString => match items with [] => None | _ => Some (items_text items, s') end
        end
      else quoted_group (Some c :: items) fallback s'
  end.

(** [re.sub(pattern, unescape, value)]; every round consumes a character. *)
Fixpoint unquote_fuel (fuel : nat) (s : string) : string :=
  match fuel with
  | 0 => s
  | S fuel' =>
      match s with
      | EmptyString => EmptyString
      | String c s' =>
          match (if bool_decide (c = quote) then quoted_group [] None s' else None) with
          | Some (group, rest) => group ++ unquote_fuel fuel' rest
          | None => String c (unquote_fuel fuel' s')
          end
      end
  end.

Definition unquote (s : string) : string := unquote_fuel (String.length s) s.

Definition starts_word (s : string) : bool :=
  match s with String c _ => word_char c | EmptyString => false end.

(** [re.search] of the escaped name between non-word characters; [before] tells
    whether a word character precedes the position. *)
Fixpoint search_word (needle : string) (before : bool) (s : string) : bool :=
  (negb before && String.prefix (py_lower needle) (py_lower s)
   && negb (starts_word (str_drop (String.length needle) s)))
  || match s with
     | EmptyString => false
     | String c s' => search_word needle (word_char c) s'
     end.

Definition mentions_type (value : option string) (type_name : string) : bool :=
  match value with
  | Some v => if bool_decide (v = "") then false else search_word type_name false (unquote v)
  | None => false
  end.

Section impact.
Variable query_sources : string -> json -> option (list (string * list string)).
Variable casefold : string -> string.
Variable set_order : list string -> list string.

(** ** Building the inventory *)

Definition view_kind_text (k : view_kind) : string :=
  match k with VView => "view" | VMaterialized => "materialized_view" end.

Definition query_relations (content : SchemiiDesignContent) : json :=
  JList (((fun t => JDict [("namespace", JStr "desired"); ("name", JStr (tb_name t));
                          ("kind", JStr "table");
                          ("columns", JList ((fun c => JDict [("name", JStr (dc_name c));
                              ("data_type", JStr (dc_data_type c))]) <$> tb_columns t))])
            <$> content_tables content) ++
         ((fun v => JDict [("namespace", JStr "desired"); ("name", JStr (vw_name v));
                          ("kind", JStr (view_kind_text (vw_kind v))); ("columns", JList [])])
            <$> content_views content))%list.

Definition plain_object (id : string) (kind : object_kind) (name consequence : string)
    (severity : deletion_severity) (context : string) : InventoryObject :=
  {| obj_id := id; obj_kind := kind; obj_name := name; obj_consequence := consequence;
     obj_severity := severity; obj_context := Some context; obj_table_id := None;
     obj_table_name := None |}.

Definition table_object (t : DesignTable) (id : string) (kind : object_kind)
    (name consequence : string) (severity : deletion_severity) (context : string) : InventoryObject :=
  {| obj_id := id; obj_kind := kind; obj_name := name; obj_consequence := consequence;
     obj_severity := severity; obj_context := Some context; obj_table_id := Some (tb_id t);
     obj_table_name := Some (tb_name t) |}.

Definition add_type (inv : Inventory) (t : DesignType) : Inventory :=
  inv_add (plain_object (dt_id t) KType (dt_name t)
    ("Applying this change removes the " ++ type_kind_text (dt_kind t) ++ " type contract.")
    SevIntegrity (type_kind_text (dt_kind t))) inv.

Definition add_column (t : DesignTable) (inv : Inventory) (c : DesignColumn) : Inventory :=
  let inv := inv_add (table_object t (dc_id c) KColumn (dc_name c)
    ("Applying this change permanently deletes the data stored in " ++ tb_name t ++ "."
       ++ dc_name c ++ ".") SevDataLoss (tb_name t)) inv in
  if bool_decide (length (tb_columns t) = 1) then inv_link (dc_id c) (tb_id t) inv else inv.

Definition add_key (t : DesignTable) (inv : Inventory) (k : DesignKeyConstraint) : Inventory :=
  let label := match dk_kind k with KPrimary => "Primary key" | KUnique => "Unique key" end in
  let inv := inv_add (table_object t (dk_id k) KKey (dk_name k)
    ("Applying this change removes " ++ py_lower label ++ " enforcement from " ++ tb_name t ++ ".")
    SevIntegrity (tb_name t ++ " · " ++ label)) inv in
  link_all (tb_id t :: dk_column_ids k) (dk_id k) inv.

Definition add_check (t : DesignTable) (inv : Inventory) (k : DesignCheckConstraint) : Inventory :=
  let inv := inv_add (table_object t (ck_id k) KCheck (ck_name k)
    ("Applying this change stops PostgreSQL from enforcing this check on " ++ tb_name t ++ ".")
    SevIntegrity (tb_name t)) inv in
  link_all (tb_id t :: ck_column_ids k) (ck_id k) inv.

Definition add_index (t : DesignTable) (inv : Inventory) (i : DesignIndex) : Inventory :=
  let inv := inv_add (table_object t (ix_id i) KIndex (ix_name i)
    (if ix_unique i
     then "Applying this change removes uniqueness enforcement and its access path from "
            ++ tb_name t ++ "."
     else "Applying this change removes a query access path from " ++ tb_name t
            ++ "; affected queries may become slower.")
    (if ix_unique i then SevIntegrity else SevPerformance) (tb_name t)) inv in
  link_all (tb_id t :: ix_column_ids i ++ ix_include_column_ids i
              ++ ix_expression_source_column_ids i ++ ix_predicate_column_ids i)%list (ix_id i) inv.

Definition add_table (inv : Inventory) (t : DesignTable) : Inventory :=
  let columns := pretty (length (tb_columns t)) in
  let inv := inv_add (table_object t (tb_id t) KTable (tb_name t)
    ("Applying this change drops the table and permanently deletes data stored in its "
       ++ columns ++ " column(s).") SevDataLoss (columns ++ " columns")) inv in
  let inv := foldl (add_column t) inv (tb_columns t) in
  let inv := foldl (add_key t) inv (tb_keys t) in
  let inv := foldl (add_check t) inv (tb_checks t) in
  let inv := foldl (add_index t) inv (tb_indexes t) in
  foldl (fun inv g => link_all (dc_generated_source_column_ids g) (dc_id g) inv) inv (tb_columns t).

(** [tables_by_id\[id\]]. *)
Definition table_at (content : SchemiiDesignContent) (id : string) : checked DesignTable :=
  match dget id (dict_by tb_id (content_tables content)) with
  | Some t => Ok t
  | None => Err (KeyErrorRaised id)
  end.

Definition add_relationship (content : SchemiiDesignContent) (inv : Inventory)
    (r : DesignRelationship) : checked Inventory :=
  let! source := table_at content (rl_source_table_id r) in
  let! target := table_at content (rl_target_table_id r) in
  let inv := inv_add (table_object source (rl_id r) KRelationship (rl_name r)
    ("Applying this change stops PostgreSQL from enforcing the reference from " ++ tb_name source
       ++ " to " ++ tb_name target ++ ".") SevIntegrity
    (tb_name source ++ " → " ++ tb_name target)) inv in
  let inv := link_all (tb_id source :: rl_source_column_ids r ++ rl_target_column_ids r)%list
               (rl_id r) inv in
  let target_key := List.find (fun k => bool_decide (dk_column_ids k = rl_target_column_ids r))
                      (tb_keys target) in
  Ok (inv_link (match target_key with Some k => dk_id k | None => tb_id target end) (rl_id r) inv).

Fixpoint add_relationships (content : SchemiiDesignContent) (inv : Inventory)
    (rs : list DesignRelationship) : checked Inventory :=
  match rs with
  | [] => Ok inv
  | r :: rest => let! inv := add_relationship content inv r in add_relationships content inv rest
  end.

Definition add_routine (inv : Inventory) (f : DesignFunction) : Inventory :=
  inv_add (plain_object (fn_id f) KRoutine (routine_signature f)
    ("Applying this change removes the callable " ++ routine_kind_text (fn_kind f) ++ " interface.")
    SevBehavior (fn_language f)) inv.

Definition add_view (inv : Inventory) (v : DesignView) : Inventory :=
  match vw_kind v with
  | VMaterialized => inv_add (plain_object (vw_id v) KView (vw_name v)
      "Applying this change drops the materialized view and permanently deletes its stored result data."
      SevDataLoss "Materialized view") inv
  | VView => inv_add (plain_object (vw_id v) KView (vw_name v)
      "Applying this change removes the view interface from PostgreSQL." SevBehavior "View") inv
  end.

(** [relations_by_name] after the table and view loops; [relation_ids] is the same. *)
Definition relations_by_name (content : SchemiiDesignContent) : list (string * string) :=
  dict_fill vw_name vw_id (content_views content)
    (dict_fill tb_name tb_id (content_tables content) []).

Definition nonempty (o : option string) : option string :=
  if truthy o then o else None.

Definition add_trigger (content : SchemiiDesignContent) (inv : Inventory) (t : DesignTrigger)
    : Inventory :=
  let target_id := nonempty (dget (tr_relation_name t) (relations_by_name content)) in
  let target := match target_id with
                | Some id => dget id (dict_by tb_id (content_tables content))
                | None => None
                end in
  let inv := inv_add
    {| obj_id := tr_id t; obj_kind := KTrigger; obj_name := tr_name t;
       obj_consequence := "Applying this change stops the automatic behavior on "
                            ++ tr_relation_name t ++ ".";
       obj_severity := SevBehavior; obj_context := Some (tr_relation_name t);
       obj_table_id := tb_id <$> target; obj_table_name := tb_name <$> target |} inv in
  let inv := match target_id with Some id => inv_link id (tr_id t) inv | None => inv end in
  let inv := match List.find (fun f => bool_decide (fn_name f = routine_name (tr_function_name t)))
                     (content_functions content) with
             | Some f => inv_link (fn_id f) (tr_id t) inv
             | None => inv
             end in
  match target with
  | Some table =>
      link_all (dc_id <$> filter (fun c => dc_name c ∈ (tr_update_columns t ++ tr_referenced_columns t)%list)
                            (tb_columns table)) (tr_id t) inv
  | None => inv
  end.

(** [column_ids]. *)
Definition columns_by_name (content : SchemiiDesignContent) : list ((string * string) * string) :=
  foldl (fun d t => dict_fill (fun c => (tb_name t, dc_name c)) dc_id (tb_columns t) d) []
    (content_tables content).

Definition link_found (target : option string) (dependent : string) (inv : Inventory) : Inventory :=
  match nonempty target with Some id => inv_link id dependent inv | None => inv end.

Definition link_view (content : SchemiiDesignContent) (inv : Inventory) (v : DesignView) : Inventory :=
  match query_sources (vw_definition v) (query_relations content) with
  | None => inv
  | Some sources =>
      foldl (fun inv source =>
        foldl (fun inv column => link_found (dget (source.1, column) (columns_by_name content)) (vw_id v) inv)
          (link_found (dget source.1 (relations_by_name content)) (vw_id v) inv) source.2)
        inv sources
  end.

Definition link_type (content : SchemiiDesignContent) (inv : Inventory) (d : DesignType) : Inventory :=
  let inv := foldl (fun inv t => foldl (fun inv c =>
      if mentions_type (Some (dc_data_type c)) (dt_name d) then inv_link (dt_id d) (dc_id c) inv else inv)
      inv (tb_columns t)) inv (content_tables content) in
  let inv := foldl (fun inv e =>
      if negb (bool_decide (dt_id e = dt_id d)) && mentions_type (dt_base_type e) (dt_name d)
      then inv_link (dt_id d) (dt_id e) inv else inv) inv (content_types content) in
  foldl (fun inv f =>
      if mentions_type (Some (fn_arguments f)) (dt_name d)
         || mentions_type (fn_return_type f) (dt_name d)
      then inv_link (dt_id d) (fn_id f) inv else inv) inv (content_functions content).

Definition inventory (content : SchemiiDesignContent) : checked Inventory :=
  let inv := {| inv_objects := []; inv_dependents := [] |} in
  let inv := foldl add_type inv (content_types content) in
  let inv := foldl add_table inv (content_tables content) in
  let! inv := add_relationships content inv (content_relationships content) in
  let inv := foldl add_routine inv (content_functions content) in
  let inv := foldl add_view inv (content_views content) in
  let inv := foldl (add_trigger content) inv (content_triggers content) in
  let inv := foldl (link_view content) inv (content_views content) in
  Ok (foldl (link_type content) inv (content_types content)).

(** ** The preflight of a deletion *)

Inductive DesignDeletionImpactNode :=
| ImpactNode (item : InventoryObject) (children : list DesignDeletionImpactNode).

Definition node_object (n : DesignDeletionImpactNode) : InventoryObject :=
  match n with ImpactNode item _ => item end.
Definition node_children (n : DesignDeletionImpactNode) : list DesignDeletionImpactNode :=
  match n with ImpactNode _ children => children end.

Record DesignDeletionImpact := {
  di_design_revision : Z;
  di_target : DesignDeletionImpactNode;
  di_blocked : bool;
  di_dependents : list DesignDeletionImpactNode;
}.

Definition object_at (inv : Inventory) (id : string) : checked InventoryObject :=
  match dget id (inv_objects inv) with Some o => Ok o | None => Err (KeyErrorRaised id) end.

(** An object with the key it was found under. *)
Definition entry_at (inv : Inventory) (id : string) : checked (string * InventoryObject) :=
  let! o := object_at inv id in Ok (id, o).

(** Order of the sort keys [(kind, name.casefold())]. *)
Definition kind_name_le (a b : string * InventoryObject) : Prop :=
  if decide (obj_kind a.2 = obj_kind b.2)
  then String.le (casefold (obj_name a.2)) (casefold (obj_name b.2))
  else String.le (object_kind_text (obj_kind a.2)) (object_kind_text (obj_kind b.2)).

#[global] Instance kind_name_le_dec : RelDecision kind_name_le.
Proof. intros a b. unfold kind_name_le. destruct (decide _); apply _. Defined.

Definition name_le (a b : InventoryObject) : Prop :=
  String.le (casefold (obj_name a)) (casefold (obj_name b)).

#[global] Instance name_le_dec : RelDecision name_le.
Proof. intros a b. unfold name_le. apply _. Defined.

(** The constructor of [DesignDeletionImpactNode].  Contexts, consequences and table
    names are made of identifiers of a validated content and always fit; the
    signature of a routine and the number of children may not. *)
Definition make_node (item : InventoryObject) (children : list DesignDeletionImpactNode)
    : checked DesignDeletionImpactNode :=
  let! _ := guard_err (negb (length_between 1 512 (obj_name item))) (PydanticErrorRaised "name") in
  let! _ := guard_err (bool_decide (20000 < N.of_nat (length children))%N) (PydanticErrorRaised "children") in
  Ok (ImpactNode item children).

(** [_node] at depth [32 - remaining]. *)
Fixpoint node (inv : Inventory) (remaining : nat) (trail : list string) (object_id : string)
    : checked DesignDeletionImpactNode :=
  let! item := object_at inv object_id in
  let next_trail := object_id :: trail in
  let! children :=
    match remaining with
    | 0 => Ok []
    | S remaining' =>
        let! found := result_map (entry_at inv)
          (set_order (filter (fun d => d ∉ next_trail) (dependents_of inv object_id))) in
        result_map (fun o => node inv remaining' next_trail o.1) (merge_sort kind_name_le found)
    end in
  make_node item children.

Definition MAX_IMPACT_DEPTH : nat := 32.

(** [DesignObjectNotFoundError] is a [LookupError]. *)
Definition design_deletion_impact (content : SchemiiDesignContent) (design_revision : Z)
    (object_id : string) : checked DesignDeletionImpact :=
  let! inv := inventory content in
  match dget object_id (inv_objects inv) with
  | None => Err (KeyErrorRaised object_id)
  | Some _ =>
      let! target := node inv MAX_IMPACT_DEPTH [] object_id in
      Ok {| di_design_revision := design_revision;
            di_target := ImpactNode (node_object target) [];
            di_blocked := negb (bool_decide (length (node_children target) = 0));
            di_dependents := node_children target |}
  end.

(** ** Transitions *)

(** The surviving objects that depended on a removed one. *)
Definition blockers (old new : Inventory) (object_id : string) : list string :=
  filter (fun d => d ∈ dkeys (inv_objects new)) (dependents_of old object_id).

Definition quoted_name (o : InventoryObject) : string :=
  object_kind_text (obj_kind o) ++ " “" ++ obj_name o ++ "”".

Definition check_removed (old new : Inventory) (object_id : string) : checked unit :=
  match blockers old new object_id with
  | [] => Ok tt
  | found =>
      let! target := object_at old object_id in
      let! items := result_map (object_at old) (set_order found) in
      Err (ValueErrorRaised ("Delete or update "
        ++ py_join ", " (quoted_name <$> merge_sort name_le items)
        ++ " before deleting " ++ quoted_name target ++ "."))
  end.

Definition removed_objects (old new : Inventory) : list string :=
  merge_sort String.le
    (filter (fun id => id ∉ dkeys (inv_objects new)) (dkeys (inv_objects old))).

Definition validate_design_transition (before after : SchemiiDesignContent) : checked unit :=
  let! old := inventory before in
  let! new := inventory after in
  for_each (check_removed old new) (removed_objects old new).

End impact.
