(* ===== verification/DeletionGraph.v ===== *)
(** * The dependency graph behind deletion checks

    Correctness of [DeletionImpact] against an abstract graph: [design_links] lists
    the dependency edges of a design as one comprehension, [all_object_ids] its
    objects.  The inventory computes exactly this graph, the transition check
    accepts exactly the removals that leave no dependent behind, the preflight
    tree holds exactly the simple paths of at most 32 edges, and preflight and
    transition check agree. *)

From Stdlib Require Import Ascii String.
From S2P Require Import Prelude Json PyString DesignModels DefinitionAnalysis DesignValidation.
From S2P Require Import DeletionImpact.
Open Scope string_scope.
Open Scope result_scope.
Open Scope list_scope.

Abbreviation edge := (string * string)%type.

(** ** The abstract graph *)

Definition edges_to (targets : list string) (d : string) : list edge := (fun t => (t, d)) <$> targets.

Section graph.
Variable query_sources : string -> json -> option (list (string * list string)).

Definition column_links (t : DesignTable) (c : DesignColumn) : list edge :=
  if bool_decide (length (tb_columns t) = 1) then [(dc_id c, tb_id t)] else [].
Definition key_links (t : DesignTable) (k : DesignKeyConstraint) : list edge :=
  edges_to (tb_id t :: dk_column_ids k) (dk_id k).
Definition check_links (t : DesignTable) (k : DesignCheckConstraint) : list edge :=
  edges_to (tb_id t :: ck_column_ids k) (ck_id k).
Definition index_links (t : DesignTable) (i : DesignIndex) : list edge :=
  edges_to (tb_id t :: ix_column_ids i ++ ix_include_column_ids i
              ++ ix_expression_source_column_ids i ++ ix_predicate_column_ids i) (ix_id i).
Definition generated_links (g : DesignColumn) : list edge :=
  edges_to (dc_generated_source_column_ids g) (dc_id g).

Definition table_links (t : DesignTable) : list edge :=
  concat (column_links t <$> tb_columns t) ++ concat (key_links t <$> tb_keys t)
  ++ concat (check_links t <$> tb_checks t) ++ concat (index_links t <$> tb_indexes t)
  ++ concat (generated_links <$> tb_columns t).

(** The key a foreign key targets, or the target table when there is none. *)
Definition target_key_id (target : DesignTable) (r : DesignRelationship) : string :=
  match List.find (fun k => bool_decide (dk_column_ids k = rl_target_column_ids r)) (tb_keys target) with
  | Some k => dk_id k
  | None => tb_id target
  end.

Definition relationship_links (content : SchemiiDesignContent) (r : DesignRelationship) : list edge :=
  match table_at content (rl_source_table_id r), table_at content (rl_target_table_id r) with
  | Ok source, Ok target =>
      edges_to (tb_id source :: rl_source_column_ids r ++ rl_target_column_ids r) (rl_id r)
      ++ [(target_key_id target r, rl_id r)]
  | _, _ => []
  end.

Definition found_link (target : option string) (d : string) : list edge :=
  match nonempty target with Some t => [(t, d)] | None => [] end.

Definition trigger_links (content : SchemiiDesignContent) (t : DesignTrigger) : list edge :=
  let target_id := nonempty (dget (tr_relation_name t) (relations_by_name content)) in
  match target_id with Some id => [(id, tr_id t)] | None => [] end
  ++ match List.find (fun f => bool_decide (fn_name f = routine_name (tr_function_name t)))
             (content_functions content) with
     | Some f => [(fn_id f, tr_id t)]
     | None => []
     end
  ++ match target_id ≫= fun id => dget id (dict_by tb_id (content_tables content)) with
     | Some table =>
         edges_to (dc_id <$> filter (fun c => dc_name c ∈ tr_update_columns t ++ tr_referenced_columns t)
                               (tb_columns table)) (tr_id t)
     | None => []
     end.

Definition view_links (content : SchemiiDesignContent) (v : DesignView) : list edge :=
  match query_sources (vw_definition v) (query_relations content) with
  | None => []
  | Some sources =>
      concat ((fun source =>
        found_link (dget source.1 (relations_by_name content)) (vw_id v)
        ++ concat ((fun column => found_link (dget (source.1, column) (columns_by_name content)) (vw_id v))
                     <$> source.2)) <$> sources)
  end.

Definition type_links (content : SchemiiDesignContent) (d : DesignType) : list edge :=
  concat ((fun t => concat ((fun c =>
      if mentions_type (Some (dc_data_type c)) (dt_name d) then [(dt_id d, dc_id c)] else [])
      <$> tb_columns t)) <$> content_tables content)
  ++ concat ((fun e => if negb (bool_decide (dt_id e = dt_id d)) && mentions_type (dt_base_type e) (dt_name d)
                       then [(dt_id d, dt_id e)] else []) <$> content_types content)
  ++ concat ((fun f => if mentions_type (Some (fn_arguments f)) (dt_name d)
                          || mentions_type (fn_return_type f) (dt_name d)
                       then [(dt_id d, fn_id f)] else []) <$> content_functions content).

Definition design_links (content : SchemiiDesignContent) : list edge :=
  concat (table_links <$> content_tables content)
  ++ concat (relationship_links content <$> content_relationships content)
  ++ concat (trigger_links content <$> content_triggers content)
  ++ concat (view_links content <$> content_views content)
  ++ concat (type_links content <$> content_types content).

(** [d] depends on [t] in a design. *)
Definition depends (content : SchemiiDesignContent) (t d : string) : Prop :=
  (t, d) ∈ design_links content /\ t <> d.

Definition relationships_resolve (content : SchemiiDesignContent) : Prop :=
  Forall (fun r => rl_source_table_id r ∈ tb_id <$> content_tables content /\
                   rl_target_table_id r ∈ tb_id <$> content_tables content)
    (content_relationships content).
End graph.

(** ** Inventories as graphs *)

Record inv_ok (inv : Inventory) : Prop := {
  iok_objects : dwf (inv_objects inv);
  iok_keys : forall id o, dget id (inv_objects inv) = Some o -> obj_id o = id;
  iok_dependents : forall t d, d ∈ dependents_of inv t -> d <> t /\ d ∈ dkeys (inv_objects inv);
  iok_sets : forall t, NoDup (dependents_of inv t);
}.

(** [inv'] is [inv] with the objects [ids] and the edges [links] added. *)
Record grows (inv inv' : Inventory) (ids : list string) (links : list edge) : Prop := {
  gr_ok : inv_ok inv';
  gr_ids : forall k, k ∈ dkeys (inv_objects inv') <-> k ∈ dkeys (inv_objects inv) \/ k ∈ ids;
  gr_links : forall t d, d ∈ dependents_of inv' t <->
    d ∈ dependents_of inv t \/ ((t, d) ∈ links /\ t <> d);
}.

Lemma grows_refl inv : inv_ok inv -> grows inv inv [] [].
Proof. intros Hi. split; [done|set_solver|set_solver]. Qed.

Lemma grows_trans a b c ids1 ids2 links1 links2 :
  grows a b ids1 links1 -> grows b c ids2 links2 -> grows a c (ids1 ++ ids2) (links1 ++ links2).
Proof.
  intros [_ Hi1 Hl1] [Hok Hi2 Hl2]. split; [done| |].
  - intros k. rewrite Hi2, Hi1, elem_of_app. tauto.
  - intros t d. rewrite Hl2, Hl1, elem_of_app. tauto.
Qed.

Lemma dependents_add item inv t : dependents_of (inv_add item inv) t = dependents_of inv t.
Proof.
  unfold dependents_of at 1. simpl. rewrite dget_dset. by case_decide; subst.
Qed.

Lemma grows_add item inv : inv_ok inv -> grows inv (inv_add item inv) [obj_id item] [].
Proof.
  intros Hok.
  assert (Hkeys : forall k, k ∈ dkeys (inv_objects (inv_add item inv)) <->
    k ∈ dkeys (inv_objects inv) \/ k ∈ [obj_id item]).
  { intros k. simpl. rewrite <-!dget_is_Some, dget_dset, list_elem_of_singleton.
    case_decide; subst; naive_solver. }
  split; [split|done|].
  - apply dset_wf, Hok.
  - intros id o. simpl. rewrite dget_dset. case_decide; [naive_solver|]. apply Hok.
  - intros t d. rewrite dependents_add, Hkeys. intros Hd%(iok_dependents _ Hok). naive_solver.
  - intros t. rewrite dependents_add. apply Hok.
  - intros t d. rewrite dependents_add. set_solver.
Qed.

Lemma elem_of_link t d inv t' d' :
  d' ∈ dependents_of (inv_link t d inv) t' <->
  d' ∈ dependents_of inv t' \/ (t' = t /\ d' = d /\ t <> d).
Proof.
  unfold inv_link. case_bool_decide as He; [naive_solver|].
  unfold dependents_of at 1. simpl. rewrite dget_dset. case_decide as Ht; subst.
  - rewrite elem_of_fromkeys_step. naive_solver.
  - fold (dependents_of inv t'). naive_solver.
Qed.

Lemma grows_link t d inv :
  inv_ok inv -> d ∈ dkeys (inv_objects inv) -> grows inv (inv_link t d inv) [] [(t, d)].
Proof.
  intros Hok Hd.
  assert (Hobj : inv_objects (inv_link t d inv) = inv_objects inv)
    by (unfold inv_link; by case_bool_decide).
  split; [split|intros k; rewrite Hobj; set_solver|].
  - rewrite Hobj. apply Hok.
  - rewrite Hobj. apply Hok.
  - intros t' d'. rewrite elem_of_link, Hobj. intros [?|(-> & -> & ?)]; [by apply Hok|done].
  - intros t'. unfold inv_link. case_bool_decide; [apply Hok|].
    unfold dependents_of at 1. simpl. rewrite dget_dset. case_decide; [|apply Hok].
    unfold fromkeys_step. case_decide; [apply Hok|].
    apply NoDup_app. split_and!; [apply Hok|set_solver|apply NoDup_singleton].
  - intros t' d'. rewrite elem_of_link, list_elem_of_singleton. naive_solver.
Qed.

(** A loop whose steps add [ids x] and [links x] adds all of them. *)
Lemma grows_foldl {A} (f : Inventory -> A -> Inventory) (ids : A -> list string)
    (links : A -> list edge) l inv :
  inv_ok inv ->
  (forall inv' x, x ∈ l -> inv_ok inv' ->
     (forall k, k ∈ dkeys (inv_objects inv) -> k ∈ dkeys (inv_objects inv')) ->
     grows inv' (f inv' x) (ids x) (links x)) ->
  grows inv (foldl f inv l) (concat (ids <$> l)) (concat (links <$> l)).
Proof.
  revert inv. induction l as [|x l IH]; intros inv Hok Hf; csimpl; [by apply grows_refl|].
  pose proof (Hf inv x ltac:(left) Hok ltac:(auto)) as Hx.
  eapply grows_trans; [exact Hx|]. apply IH; [apply Hx|].
  intros inv' y Hy Hok' Hk. apply Hf; [by right|done|].
  intros k Hkk. apply Hk, (gr_ids _ _ _ _ Hx). by left.
Qed.

(** A loop that adds edges only. *)
Lemma grows_links {A} (f : Inventory -> A -> Inventory) (links : A -> list edge) l inv :
  inv_ok inv ->
  (forall inv' x, x ∈ l -> inv_ok inv' ->
     (forall k, k ∈ dkeys (inv_objects inv) -> k ∈ dkeys (inv_objects inv')) ->
     grows inv' (f inv' x) [] (links x)) ->
  grows inv (foldl f inv l) [] (concat (links <$> l)).
Proof.
  intros Hok Hf. pose proof (grows_foldl f (fun _ => []) links l inv Hok Hf) as Hg.
  replace (concat ((fun _ : A => []) <$> l)) with (@nil string) in Hg; [done|].
  clear. induction l; csimpl; auto.
Qed.

Lemma grows_link_all ts d inv :
  inv_ok inv -> d ∈ dkeys (inv_objects inv) -> grows inv (link_all ts d inv) [] (edges_to ts d).
Proof.
  intros Hok Hd. unfold link_all, edges_to.
  replace ((fun t => (t, d)) <$> ts) with (concat ((fun t => [(t, d)]) <$> ts)).
  - apply grows_links; [done|]. intros inv' t _ Hok' Hk. apply grows_link; auto.
  - induction ts; csimpl; [done|]. by f_equal.
Qed.

Lemma grows_ids_in inv inv' ids links k : grows inv inv' ids links -> k ∈ ids -> k ∈ dkeys (inv_objects inv').
Proof. intros Hg Hk. apply (gr_ids _ _ _ _ Hg). by right. Qed.

Lemma grows_keeps inv inv' ids links k :
  grows inv inv' ids links -> k ∈ dkeys (inv_objects inv) -> k ∈ dkeys (inv_objects inv').
Proof. intros Hg Hk. apply (gr_ids _ _ _ _ Hg). by left. Qed.

Create HintDb grows.
#[export] Hint Resolve gr_ok grows_refl grows_add grows_link grows_link_all grows_ids_in grows_keeps : grows.

(** ** Every loop of the inventory, as growth of the graph *)

Lemma grows_object item ts inv :
  inv_ok inv ->
  grows inv (link_all ts (obj_id item) (inv_add item inv)) [obj_id item] (edges_to ts (obj_id item)).
Proof.
  intros Hok. pose proof (grows_add item inv Hok) as Ha.
  apply (grows_trans _ _ _ [_] [] [] _ Ha), grows_link_all; [apply Ha|].
  eapply grows_ids_in; [exact Ha|left].
Qed.

(** Solves the growth of one [add] followed by its links. *)
Ltac grows_object :=
  match goal with
  | Hok : inv_ok ?inv |- grows ?inv (link_all ?ts _ (inv_add ?item ?inv)) _ _ =>
      exact (grows_object item ts inv Hok)
  end.

Lemma add_key_grows t inv k : inv_ok inv -> grows inv (add_key t inv k) [dk_id k] (key_links t k).
Proof. intros Hok. unfold add_key. cbv zeta. grows_object. Qed.

Lemma add_check_grows t inv k : inv_ok inv -> grows inv (add_check t inv k) [ck_id k] (check_links t k).
Proof. intros Hok. unfold add_check. cbv zeta. grows_object. Qed.

Lemma add_index_grows t inv i : inv_ok inv -> grows inv (add_index t inv i) [ix_id i] (index_links t i).
Proof. intros Hok. unfold add_index. cbv zeta. grows_object. Qed.

Lemma add_column_grows t inv c :
  inv_ok inv -> tb_id t ∈ dkeys (inv_objects inv) ->
  grows inv (add_column t inv c) [dc_id c] (column_links t c).
Proof.
  intros Hok Ht. unfold add_column, column_links. case_bool_decide; [|by apply grows_add].
  set (item := table_object _ _ _ _ _ _ _). pose proof (grows_add item inv Hok) as Ha.
  apply (grows_trans _ _ _ [_] [] [] _ Ha), grows_link; [apply Ha|]. by eapply grows_keeps.
Qed.

Lemma grows_ext inv inv' ids ids' links links' :
  grows inv inv' ids links ->
  (forall k, k ∈ ids <-> k ∈ ids') -> (forall p, p ∈ links <-> p ∈ links') ->
  grows inv inv' ids' links'.
Proof.
  intros [Hok Hi Hl] Hids Hlinks. split; [done| |]; intros; [rewrite Hi, Hids|rewrite Hl, Hlinks]; done.
Qed.

Lemma concat_singletons {A B} (f : A -> B) l : concat ((fun x => [f x]) <$> l) = f <$> l.
Proof. induction l; csimpl; [done|]. by f_equal. Qed.

Lemma add_table_grows inv t :
  inv_ok inv -> grows inv (add_table inv t) (table_object_ids t) (table_links t).
Proof.
  intros Hok. unfold add_table. cbv zeta.
  set (item := table_object _ _ _ _ _ _ _). pose proof (grows_add item inv Hok) as G0.
  set (i0 := inv_add item inv) in *.
  assert (Ht0 : tb_id t ∈ dkeys (inv_objects i0)) by (eapply grows_ids_in; [exact G0|left]).
  pose proof (grows_foldl (add_column t) (fun c => [dc_id c]) (column_links t) (tb_columns t) i0
    (gr_ok _ _ _ _ G0) ltac:(intros; apply add_column_grows; auto)) as G1.
  set (i1 := foldl (add_column t) i0 _) in *. rewrite concat_singletons in G1.
  pose proof (grows_foldl (add_key t) (fun k => [dk_id k]) (key_links t) (tb_keys t) i1
    (gr_ok _ _ _ _ G1) ltac:(intros; by apply add_key_grows)) as G2.
  set (i2 := foldl (add_key t) i1 _) in *. rewrite concat_singletons in G2.
  pose proof (grows_foldl (add_check t) (fun k => [ck_id k]) (check_links t) (tb_checks t) i2
    (gr_ok _ _ _ _ G2) ltac:(intros; by apply add_check_grows)) as G3.
  set (i3 := foldl (add_check t) i2 _) in *. rewrite concat_singletons in G3.
  pose proof (grows_foldl (add_index t) (fun k => [ix_id k]) (index_links t) (tb_indexes t) i3
    (gr_ok _ _ _ _ G3) ltac:(intros; by apply add_index_grows)) as G4.
  set (i4 := foldl (add_index t) i3 _) in *. rewrite concat_singletons in G4.
  assert (Hcols : forall c, c ∈ tb_columns t -> dc_id c ∈ dkeys (inv_objects i4)).
  { intros c Hc. eapply grows_keeps, grows_keeps, grows_keeps, grows_ids_in; [exact G4|exact G3|exact G2|exact G1|].
    by apply list_elem_of_fmap_2. }
  pose proof (grows_links (fun inv g => link_all (dc_generated_source_column_ids g) (dc_id g) inv)
    generated_links (tb_columns t) i4 (gr_ok _ _ _ _ G4)
    ltac:(intros; apply grows_link_all; auto)) as G5.
  pose proof (grows_trans _ _ _ _ _ _ _ G0 (grows_trans _ _ _ _ _ _ _ G1
    (grows_trans _ _ _ _ _ _ _ G2 (grows_trans _ _ _ _ _ _ _ G3 (grows_trans _ _ _ _ _ _ _ G4 G5))))) as G.
  eapply grows_ext; [exact G| |].
  - intros k. unfold table_object_ids. simpl. rewrite app_nil_r. done.
  - done.
Qed.

Lemma type_id_in content t : t ∈ content_types content -> dt_id t ∈ all_object_ids content.
Proof. intros Ht. unfold all_object_ids. rewrite !elem_of_app. left. by apply list_elem_of_fmap_2. Qed.

Lemma function_id_in content f : f ∈ content_functions content -> fn_id f ∈ all_object_ids content.
Proof.
  intros Hf. unfold all_object_ids. rewrite !elem_of_app. do 3 right. left. by apply list_elem_of_fmap_2.
Qed.

Lemma column_id_in content t c :
  t ∈ content_tables content -> c ∈ tb_columns t -> dc_id c ∈ all_object_ids content.
Proof.
  intros Ht Hc. unfold all_object_ids. rewrite !elem_of_app. right. left.
  apply list_elem_of_In, in_concat. exists (table_object_ids t). rewrite <-!list_elem_of_In. split.
  - by apply list_elem_of_fmap_2.
  - right. rewrite !elem_of_app. left. by apply list_elem_of_fmap_2.
Qed.

Section inventory_grows.
Variable query_sources : string -> json -> option (list (string * list string)).

Lemma add_relationship_grows content inv r inv' :
  inv_ok inv -> add_relationship content inv r = Ok inv' ->
  grows inv inv' [rl_id r] (relationship_links content r).
Proof.
  intros Hok. unfold add_relationship, relationship_links.
  destruct (table_at content (rl_source_table_id r)) as [s|]; [|done].
  destruct (table_at content (rl_target_table_id r)) as [t|]; [|done].
  cbn [result_bind]. intros [= <-]. fold (target_key_id t r).
  set (item := table_object _ _ _ _ _ _ _).
  pose proof (grows_object item (tb_id s :: rl_source_column_ids r ++ rl_target_column_ids r) inv Hok) as G.
  apply (grows_trans _ _ _ [_] [] _ [_] G), grows_link; [apply G|].
  eapply grows_ids_in; [exact G|left].
Qed.

Lemma add_relationships_grows content inv rs inv' :
  inv_ok inv -> add_relationships content inv rs = Ok inv' ->
  grows inv inv' (rl_id <$> rs) (concat (relationship_links content <$> rs)).
Proof.
  revert inv. induction rs as [|r rs IH]; intros inv Hok; csimpl; [intros [= <-]; by apply grows_refl|].
  intros (inv1 & H1 & H2)%result_bind_Ok. pose proof (add_relationship_grows _ _ _ _ Hok H1) as G1.
  apply (grows_trans _ _ _ [_] _ _ _ G1), IH; [apply G1|done].
Qed.

Lemma add_relationships_total content inv rs :
  Forall (fun r => (rl_source_table_id r ∈ tb_id <$> content_tables content) /\
                   (rl_target_table_id r ∈ tb_id <$> content_tables content)) rs ->
  exists inv', add_relationships content inv rs = Ok inv'.
Proof.
  intros Hrs. revert inv. induction Hrs as [|r rs [Hs Ht] _ IH]; intros inv; simpl; [eauto|].
  unfold add_relationship, table_at. apply dict_by_is_Some in Hs as [s ->], Ht as [t ->].
  cbn [result_bind]. apply IH.
Qed.

Lemma add_trigger_grows content inv t :
  inv_ok inv -> grows inv (add_trigger content inv t) [tr_id t] (trigger_links content t).
Proof.
  intros Hok. unfold add_trigger, trigger_links. cbv zeta.
  set (target_id := nonempty _). set (item := {| obj_id := _ |}).
  pose proof (grows_add item inv Hok) as G0.
  assert (Hd0 : tr_id t ∈ dkeys (inv_objects (inv_add item inv))) by (eapply grows_ids_in; [exact G0|left]).
  set (i0 := inv_add item inv) in *.
  set (l1 := match target_id with Some id => [(id, tr_id t)] | None => [] end).
  set (i1 := match target_id with Some id => inv_link id (tr_id t) i0 | None => i0 end).
  assert (G1 : grows i0 i1 [] l1).
  { unfold i1, l1. destruct target_id; [apply grows_link|apply grows_refl]; try done; apply G0. }
  assert (Hd1 : tr_id t ∈ dkeys (inv_objects i1)) by by eapply grows_keeps.
  set (l2 := match List.find _ _ with Some f => [(fn_id f, tr_id t)] | None => [] end).
  set (i2 := match List.find _ _ with Some f => inv_link (fn_id f) (tr_id t) i1 | None => i1 end).
  assert (G2 : grows i1 i2 [] l2).
  { unfold i2, l2. destruct (List.find _ _); [apply grows_link|apply grows_refl]; try done; apply G1. }
  assert (Hd2 : tr_id t ∈ dkeys (inv_objects i2)) by by eapply grows_keeps.
  apply (grows_trans _ _ _ [_] [] [] _ G0), (grows_trans _ _ _ [] [] _ _ G1), (grows_trans _ _ _ [] [] _ _ G2).
  destruct target_id as [id|]; simpl; [|apply grows_refl, G2].
  destruct (dget id _); [|apply grows_refl, G2]. apply grows_link_all; [apply G2|done].
Qed.

Lemma link_found_grows target d inv :
  inv_ok inv -> d ∈ dkeys (inv_objects inv) ->
  grows inv (link_found target d inv) [] (found_link target d).
Proof.
  intros. unfold link_found, found_link. destruct (nonempty target); [by apply grows_link|by apply grows_refl].
Qed.

Lemma link_view_grows content inv v :
  inv_ok inv -> vw_id v ∈ dkeys (inv_objects inv) ->
  grows inv (link_view query_sources content inv v) [] (view_links query_sources content v).
Proof.
  intros Hok Hv. unfold link_view, view_links. destruct (query_sources _ _) as [sources|]; [|by apply grows_refl].
  apply grows_links; [done|]. intros inv1 source _ Hok1 Hk1.
  pose proof (link_found_grows (dget source.1 (relations_by_name content)) (vw_id v) inv1 Hok1 (Hk1 _ Hv)) as G.
  apply (grows_trans _ _ _ [] [] _ _ G), grows_links; [apply G|].
  intros inv2 column _ Hok2 Hk2. apply link_found_grows; [done|]. eapply Hk2, grows_keeps; eauto.
Qed.

(** A conditional link. *)
Lemma grows_if (b : bool) t d inv :
  inv_ok inv -> d ∈ dkeys (inv_objects inv) ->
  grows inv (if b then inv_link t d inv else inv) [] (if b then [(t, d)] else []).
Proof. intros. destruct b; [by apply grows_link|by apply grows_refl]. Qed.

Lemma link_type_grows content inv d :
  inv_ok inv ->
  (forall t c, t ∈ content_tables content -> c ∈ tb_columns t -> dc_id c ∈ dkeys (inv_objects inv)) ->
  (forall e, e ∈ content_types content -> dt_id e ∈ dkeys (inv_objects inv)) ->
  (forall f, f ∈ content_functions content -> fn_id f ∈ dkeys (inv_objects inv)) ->
  grows inv (link_type content inv d) [] (type_links content d).
Proof.
  intros Hok Hc Ht Hf. unfold link_type, type_links. cbv zeta.
  match goal with |- grows _ (foldl _ (foldl ?f2 (foldl ?f1 _ _) _) _) _
    (concat (?g1 <$> _) ++ concat (?g2 <$> _) ++ _) =>
    assert (G1 : grows inv (foldl f1 inv (content_tables content)) [] (concat (g1 <$> content_tables content)));
    [|set (i1 := foldl f1 inv (content_tables content)) in *;
      assert (G2 : grows i1 (foldl f2 i1 (content_types content)) [] (concat (g2 <$> content_types content)))]
  end.
  - apply grows_links; [done|]. intros inv1 t Hin1 Hok1 Hk1. apply grows_links; [done|].
    intros inv2 c Hin2 Hok2 Hk2. apply grows_if; eauto.
  - apply grows_links; [apply G1|]. intros inv1 e Hin Hok1 Hk1. apply grows_if; [done|].
    eapply Hk1, grows_keeps; eauto.
  - apply (grows_trans _ _ _ [] [] _ _ G1), (grows_trans _ _ _ [] [] _ _ G2), grows_links; [apply G2|].
    intros inv1 g Hin Hok1 Hk1. apply grows_if; [done|]. eapply Hk1, grows_keeps, grows_keeps; eauto.
Qed.

Lemma add_view_grows inv v : inv_ok inv -> grows inv (add_view inv v) [vw_id v] [].
Proof.
  intros Hok. unfold add_view. destruct (vw_kind v);
    match goal with |- grows _ (inv_add ?item _) _ _ => exact (grows_add item inv Hok) end.
Qed.

(** A loop that adds objects without edges. *)
Lemma grows_objects {A} (f : Inventory -> A -> Inventory) (id : A -> string) l inv :
  inv_ok inv -> (forall inv' x, inv_ok inv' -> grows inv' (f inv' x) [id x] []) ->
  grows inv (foldl f inv l) (id <$> l) [].
Proof.
  intros Hok Hf. pose proof (grows_foldl f (fun x => [id x]) (fun _ => []) l inv Hok
    ltac:(intros; auto)) as Hg. rewrite concat_singletons in Hg.
  replace (concat ((fun _ : A => []) <$> l)) with (@nil edge) in Hg; [done|].
  clear. induction l; csimpl; auto.
Qed.

Definition empty_inventory : Inventory := {| inv_objects := []; inv_dependents := [] |}.

Lemma empty_inventory_ok : inv_ok empty_inventory.
Proof. split; [constructor|done|set_solver|constructor]. Qed.

(** The graph an inventory holds. *)
Record represents (inv : Inventory) (content : SchemiiDesignContent) : Prop := {
  rep_ok : inv_ok inv;
  rep_ids : forall k, k ∈ dkeys (inv_objects inv) <-> k ∈ all_object_ids content;
  rep_links : forall t d, d ∈ dependents_of inv t <-> depends query_sources content t d;
}.

Lemma inventory_represents content inv :
  inventory query_sources content = Ok inv -> represents inv content.
Proof.
  unfold inventory. cbv zeta. fold empty_inventory.
  pose proof (grows_objects add_type dt_id (content_types content) empty_inventory empty_inventory_ok
    ltac:(intros; by apply grows_add)) as G1.
  set (i1 := foldl add_type _ _) in *.
  pose proof (grows_foldl add_table table_object_ids table_links (content_tables content) i1
    (gr_ok _ _ _ _ G1) ltac:(intros; by apply add_table_grows)) as G2.
  set (i2 := foldl add_table _ _) in *.
  intros (i3 & H3 & [= <-])%result_bind_Ok.
  pose proof (add_relationships_grows _ _ _ _ (gr_ok _ _ _ _ G2) H3) as G3.
  pose proof (grows_objects add_routine fn_id (content_functions content) i3 (gr_ok _ _ _ _ G3)
    ltac:(intros; by apply grows_add)) as G4.
  set (i4 := foldl add_routine _ _) in *.
  pose proof (grows_objects add_view vw_id (content_views content) i4 (gr_ok _ _ _ _ G4)
    ltac:(intros; by apply add_view_grows)) as G5.
  set (i5 := foldl add_view _ _) in *.
  pose proof (grows_foldl (add_trigger content) (fun t => [tr_id t]) (trigger_links content)
    (content_triggers content) i5 (gr_ok _ _ _ _ G5) ltac:(intros; by apply add_trigger_grows)) as G6.
  rewrite concat_singletons in G6. set (i6 := foldl (add_trigger content) _ _) in *.
  pose proof (grows_links (link_view query_sources content) (view_links query_sources content)
    (content_views content) i6 (gr_ok _ _ _ _ G6)) as G7.
  assert (Hview : forall v, v ∈ content_views content -> vw_id v ∈ dkeys (inv_objects i6)).
  { intros v Hv. eapply grows_keeps, grows_ids_in; [exact G6|exact G5|by apply list_elem_of_fmap_2]. }
  specialize (G7 ltac:(intros; apply link_view_grows; auto)).
  set (i7 := foldl (link_view _ content) _ _) in *.
  pose proof (grows_trans _ _ _ _ _ _ _ G1 (grows_trans _ _ _ _ _ _ _ G2 (grows_trans _ _ _ _ _ _ _ G3
    (grows_trans _ _ _ _ _ _ _ G4 (grows_trans _ _ _ _ _ _ _ G5 (grows_trans _ _ _ _ _ _ _ G6 G7)))))) as G.
  simpl in G.
  assert (Hids : forall k, k ∈ dkeys (inv_objects i7) <-> k ∈ all_object_ids content).
  { intros k. rewrite (gr_ids _ _ _ _ G). unfold all_object_ids. rewrite app_nil_r.
    split; [intros [?%not_elem_of_nil|?]; done|by right]. }
  pose proof (grows_links (link_type content) (type_links content) (content_types content) i7
    (gr_ok _ _ _ _ G)) as G8.
  assert (Hkeep : forall inv', (forall k, k ∈ dkeys (inv_objects i7) -> k ∈ dkeys (inv_objects inv')) ->
    forall k, k ∈ all_object_ids content -> k ∈ dkeys (inv_objects inv')) by (intros; naive_solver).
  specialize (G8 ltac:(intros inv' x _ Hok' Hk'; apply link_type_grows; [done|..]; intros;
    apply Hkeep; try done; by eauto using type_id_in, column_id_in, function_id_in)).
  split; [apply G8| |].
  - intros k. rewrite (gr_ids _ _ _ _ G8), Hids. set_solver.
  - intros t d. rewrite (gr_links _ _ _ _ G8), (gr_links _ _ _ _ G).
    unfold depends, design_links. rewrite !elem_of_app. split.
    + intros [[?%not_elem_of_nil|?]|?]; [done|naive_solver|naive_solver].
    + naive_solver.
Qed.

Lemma inventory_total content :
  relationships_resolve content ->
  exists inv, inventory query_sources content = Ok inv /\ represents inv content.
Proof.
  intros Hr. assert (exists inv, inventory query_sources content = Ok inv) as [inv Hinv].
  { unfold inventory. cbv zeta.
    destruct (add_relationships_total content
      (foldl add_table (foldl add_type {| inv_objects := []; inv_dependents := [] |} (content_types content))
         (content_tables content)) (content_relationships content) Hr) as [inv ->].
    simpl. eauto. }
  exists inv. split; [done|by apply inventory_represents].
Qed.
End inventory_grows.

(** ** Paths of the preflight tree *)

Inductive tree_path : DesignDeletionImpactNode -> list string -> Prop :=
| tree_path_here n : tree_path n [obj_id (node_object n)]
| tree_path_child n c p :
    c ∈ node_children n -> tree_path c p -> tree_path n (obj_id (node_object n) :: p).

Section link_path.
Variable R : string -> string -> Prop.

(** Consecutive members are related. *)
Fixpoint link_path (p : list string) : Prop :=
  match p with
  | a :: (b :: _) as r => R a b /\ link_path r
  | _ => True
  end.
End link_path.

Lemma link_path_iff (R R' : string -> string -> Prop) p :
  (forall a b, R a b <-> R' a b) -> link_path R p <-> link_path R' p.
Proof.
  intros HR. induction p as [|a p IH]; [done|]. destruct p as [|b p]; [done|].
  simpl in *. by rewrite HR, IH.
Qed.

Section checks.
Variable query_sources : string -> json -> option (list (string * list string)).
Variable casefold : string -> string.
Variable set_order : list string -> list string.
Hypothesis set_order_perm : forall l, set_order l ≡ₚ l.

Lemma object_at_total inv k : k ∈ dkeys (inv_objects inv) -> exists o, object_at inv k = Ok o.
Proof. unfold object_at. intros [o ->]%dget_is_Some. eauto. Qed.

Lemma entries_total inv l :
  Forall (fun k => k ∈ dkeys (inv_objects inv)) l ->
  exists es, result_map (entry_at inv) l = Ok es /\ es.*1 = l.
Proof.
  induction 1 as [|k l Hk _ (es & IH & Hes)]; simpl; [by exists []|].
  destruct (object_at_total _ _ Hk) as [o Ho]. unfold entry_at at 1. rewrite Ho. simpl.
  rewrite IH. simpl. eexists. split; [done|]. csimpl. by rewrite Hes.
Qed.

(** Every label and every set of dependents fits the model of a preview node. *)
Definition inv_fits (inv : Inventory) : bool :=
  forallb (fun kv => length_between 1 512 (obj_name kv.2)) (inv_objects inv) &&
  bool_decide (N.of_nat (length (inv_objects inv)) <= 20000)%N.

Definition preview_fits (content : SchemiiDesignContent) : bool :=
  match inventory query_sources content with Ok inv => inv_fits inv | Err _ => false end.

Lemma make_node_fits inv id item children :
  inv_ok inv -> inv_fits inv = true -> object_at inv id = Ok item ->
  length children <= length (inv_objects inv) -> make_node item children = Ok (ImpactNode item children).
Proof.
  unfold inv_fits, make_node, object_at, guard_err. intros _ Hf Hi Hlen.
  apply andb_true_iff in Hf as [Hn Hc]. apply bool_decide_eq_true in Hc. rewrite forallb_forall in Hn.
  destruct (dget id (inv_objects inv)) as [o|] eqn:E; [|done]. injection Hi as ->.
  apply dget_Some_elem, list_elem_of_In, Hn in E. simpl in E. rewrite E. simpl.
  rewrite bool_decide_eq_false_2 by lia. done.
Qed.

Lemma node_Ok inv remaining trail id n :
  node casefold set_order inv (S remaining) trail id = Ok n ->
  length (node_children n) = length (filter (fun d => d ∉ id :: trail) (dependents_of inv id)).
Proof.
  cbn [node]. unfold make_node. intros Hn. result_inv. cbn [node_children].
  match goal with H : result_map (fun o => node _ _ _ _ _ _) _ = Ok _ |- _ =>
    apply result_map_Ok in H; apply Forall2_length in H; rewrite <-H, merge_sort_Permutation end.
  match goal with H : result_map (entry_at _) _ = Ok _ |- _ =>
    apply result_map_Ok in H; apply Forall2_length in H; rewrite <-H, set_order_perm end.
  done.
Qed.

Lemma node_step inv remaining trail id :
  inv_ok inv -> inv_fits inv = true -> id ∈ dkeys (inv_objects inv) ->
  (forall c, c ∈ dkeys (inv_objects inv) ->
     exists n, node casefold set_order inv remaining (id :: trail) c = Ok n /\ obj_id (node_object n) = c) ->
  exists item children,
    node casefold set_order inv (S remaining) trail id = Ok (ImpactNode item children) /\
    obj_id item = id /\
    (forall n, n ∈ children <-> exists c, c ∈ dependents_of inv id /\ (c ∉ id :: trail) /\
       node casefold set_order inv remaining (id :: trail) c = Ok n).
Proof.
  intros Hok Hfit Hid Hchild. destruct (object_at_total _ _ Hid) as [item Hitem].
  assert (Hobj : obj_id item = id).
  { unfold object_at in Hitem. destruct (dget id _) eqn:E; [|done]. simplify_eq. by apply Hok. }
  set (deps := set_order (filter (fun d => d ∉ id :: trail) (dependents_of inv id))).
  assert (Hdeps : forall c, c ∈ deps <-> c ∈ dependents_of inv id /\ (c ∉ id :: trail)).
  { intros c. unfold deps. rewrite set_order_perm, list_elem_of_filter. tauto. }
  destruct (entries_total inv deps) as (es & Hes & Hkeys).
  { apply Forall_forall. intros c [Hc _]%Hdeps. by apply Hok in Hc as [_ ?]. }
  assert (Hsort : forall c, (exists o, (c, o) ∈ merge_sort (kind_name_le casefold) es) <-> c ∈ deps).
  { intros c. rewrite <-Hkeys. setoid_rewrite merge_sort_Permutation.
    rewrite list_elem_of_fmap. split; [intros [o Ho]; by exists (c, o)|intros ([? o] & -> & Ho); eauto]. }
  set (step := fun o : string * InventoryObject => node casefold set_order inv remaining (id :: trail) o.1).
  destruct (result_map_total step (merge_sort (kind_name_le casefold) es)) as [children Hch].
  { apply Forall_forall. intros [c o] Ho. unfold step. simpl.
    destruct (Hchild c) as (n & Hn & _); [|eauto].
    assert (Hc : c ∈ deps) by (apply Hsort; eauto). apply Hdeps in Hc as [Hc _].
    by apply Hok in Hc as [_ ?]. }
  exists item, children. split_and!; [|done|].
  - cbn [node]. rewrite Hitem. cbn [result_bind]. fold deps. rewrite Hes. cbn [result_bind].
    fold step. rewrite Hch. cbn [result_bind]. eapply make_node_fits; [done..|].
    apply result_map_Ok, Forall2_length in Hch. rewrite <-Hch, merge_sort_Permutation.
    rewrite <-(length_fmap fst es), Hkeys, <-(length_fmap fst (inv_objects inv)).
    apply submseteq_length, NoDup_submseteq.
    + unfold deps. rewrite set_order_perm. apply NoDup_filter, Hok.
    + intros c [Hc _]%Hdeps. by apply Hok in Hc as [_ ?].
  - intros n. rewrite result_map_Ok in Hch. split.
    + intros [i Hi]%list_elem_of_lookup.
      destruct (Forall2_lookup_r _ _ _ _ _ Hch Hi) as ([c o] & Hc & Hn).
      assert (Hd : c ∈ deps) by (apply Hsort; exists o; by eapply list_elem_of_lookup_2).
      apply Hdeps in Hd as [? ?]. by exists c.
    + intros (c & Hc & Hnt & Hn). assert (Hd : c ∈ deps) by by apply Hdeps.
      apply Hsort in Hd as [o [i Hi]%list_elem_of_lookup].
      destruct (Forall2_lookup_l _ _ _ _ _ Hch Hi) as (m & Hm & Hstep).
      unfold step in Hstep. simpl in Hstep. assert (m = n) as -> by congruence.
      by eapply list_elem_of_lookup_2.
Qed.

(** The paths of the tree are the simple paths of bounded length. *)
Lemma node_paths inv remaining trail id :
  inv_ok inv -> inv_fits inv = true -> id ∈ dkeys (inv_objects inv) ->
  exists n, node casefold set_order inv remaining trail id = Ok n /\ obj_id (node_object n) = id /\
    forall p, tree_path n p <-> exists q, p = id :: q /\
      link_path (fun a b => b ∈ dependents_of inv a) (id :: q) /\ NoDup (id :: q) /\
      (forall x, x ∈ q -> x ∉ trail) /\ length q <= remaining.
Proof.
  intros Hok Hfit. revert trail id. induction remaining as [|remaining IH]; intros trail id Hid.
  { destruct (object_at_total _ _ Hid) as [item Hitem].
    assert (Hobj : obj_id item = id).
    { unfold object_at in Hitem. destruct (dget id _) eqn:E; [|done]. simplify_eq. by apply Hok. }
    exists (ImpactNode item []). cbn [node]. rewrite Hitem. cbn [result_bind].
    split_and!; [eapply make_node_fits; [done..|simpl; lia]|done|]. intros p. split.
    - inversion 1; simplify_eq/=; [|set_solver]. exists [].
      split_and!; [done|done|apply NoDup_singleton|set_solver|done].
    - intros (q & -> & _ & _ & _ & Hq). destruct q; simpl in Hq; [|lia].
      rewrite <-Hobj. apply (tree_path_here (ImpactNode item [])). }
  destruct (node_step inv remaining trail id Hok Hfit Hid) as (item & children & Hn & Hobj & Hch).
  { intros c Hc. destruct (IH (id :: trail) c Hc) as (n & ? & ? & _). eauto. }
  exists (ImpactNode item children). split_and!; [done|done|]. intros p. split.
  - inversion 1 as [|? c p' Hc Hp']; simplify_eq/=.
    + exists []. split_and!; [done|done|apply NoDup_singleton|set_solver|simpl; lia].
    + apply Hch in Hc as (c' & Hdep & Hnt & Hnode).
      destruct (IH (obj_id item :: trail) c') as (n & Hn' & _ & Hpaths); [by apply Hok in Hdep as [_ ?]|].
      assert (n = c) as -> by congruence.
      apply Hpaths in Hp' as (q & -> & Hl & Hnd & Hdisj & Hlen). exists (c' :: q).
      split_and!; [done|done|done| | |simpl; lia].
      * apply NoDup_cons. split; [|done]. intros [He|Hin]%elem_of_cons; [set_solver|].
        apply (Hdisj _ Hin). left.
      * intros x [->|Hx]%elem_of_cons; [set_solver|]. specialize (Hdisj _ Hx). set_solver.
  - intros (q & -> & Hl & Hnd & Hdisj & Hlen). destruct q as [|c q].
    { rewrite <-Hobj. apply (tree_path_here (ImpactNode item children)). }
    destruct Hl as [Hdep Hl]. apply NoDup_cons in Hnd as [Hnin Hnd].
    destruct (IH (id :: trail) c) as (n & Hnode & _ & Hpaths); [by apply Hok in Hdep as [_ ?]|].
    rewrite <-Hobj at 1. apply (tree_path_child (ImpactNode item children) n).
    + apply Hch. exists c. split_and!; [done| |done]. specialize (Hdisj c ltac:(left)). set_solver.
    + apply Hpaths. exists q. split_and!; [done|done|done| |simpl in Hlen; lia].
      intros x Hx. specialize (Hdisj x ltac:(by right)). set_solver.
Qed.

Lemma blockers_elem old new t d :
  d ∈ blockers old new t <-> d ∈ dependents_of old t /\ d ∈ dkeys (inv_objects new).
Proof. unfold blockers. rewrite list_elem_of_filter. tauto. Qed.

Lemma check_removed_spec old new t :
  inv_ok old -> t ∈ dkeys (inv_objects old) ->
  match check_removed casefold set_order old new t with
  | Ok _ => forall d, d ∉ blockers old new t
  | Err e => (exists message, e = ValueErrorRaised message) /\ exists d, d ∈ blockers old new t
  end.
Proof.
  intros Hok Ht. unfold check_removed. destruct (blockers old new t) as [|b bs] eqn:E; [set_solver|].
  destruct (object_at_total _ _ Ht) as [o ->]. cbn [result_bind].
  destruct (result_map_total (object_at old) (set_order (b :: bs))) as [items ->].
  - apply Forall_forall. intros d. rewrite set_order_perm, <-E, blockers_elem.
    intros [[_ Hd]%(iok_dependents _ Hok) _]. by apply object_at_total.
  - simpl. split; [eauto|]. exists b. left.
Qed.

Lemma for_each_Err {A} (f : A -> checked unit) l e :
  for_each f l = Err e -> exists x, x ∈ l /\ f x = Err e.
Proof.
  induction l as [|x l IH]; simpl; [done|]. destruct (f x) as [|e'] eqn:E; simpl.
  - intros (y & ? & ?)%IH. exists y. split; [by right|done].
  - intros [= <-]. exists x. split; [left|done].
Qed.

Lemma removed_objects_elem old new t :
  t ∈ removed_objects old new <-> t ∈ dkeys (inv_objects old) /\ t ∉ dkeys (inv_objects new).
Proof. unfold removed_objects. rewrite merge_sort_Permutation, list_elem_of_filter. tauto. Qed.

(** The transition check on inventories. *)
Lemma transition_spec old new :
  inv_ok old ->
  match for_each (check_removed casefold set_order old new) (removed_objects old new) with
  | Ok _ => forall t d, t ∈ dkeys (inv_objects old) -> t ∉ dkeys (inv_objects new) ->
      d ∈ dependents_of old t -> d ∉ dkeys (inv_objects new)
  | Err e => (exists message, e = ValueErrorRaised message) /\
      exists t d, t ∈ dkeys (inv_objects old) /\ (t ∉ dkeys (inv_objects new)) /\
        d ∈ dependents_of old t /\ d ∈ dkeys (inv_objects new)
  end.
Proof.
  intros Hok. destruct (for_each _ _) as [u|e] eqn:E.
  - intros t d Ht Hn Hd Hs. apply for_each_Ok in E. rewrite Forall_forall in E.
    specialize (E t (proj2 (removed_objects_elem _ _ _) (conj Ht Hn))).
    pose proof (check_removed_spec old new t Hok Ht) as Hc. rewrite E in Hc.
    apply (Hc d). by apply blockers_elem.
  - apply for_each_Err in E as (t & [Ht Hn]%removed_objects_elem & He).
    pose proof (check_removed_spec old new t Hok Ht) as Hc. rewrite He in Hc.
    destruct Hc as [? [d [? ?]%blockers_elem]]. eauto 10.
Qed.

(** C15. The transition check accepts a replacement exactly when no object that
    survives depended, in the old design's dependency graph, on an object the
    replacement removes; otherwise it raises [ValueError] and nothing else. *)
Theorem transition_exact before after :
  relationships_resolve before -> relationships_resolve after ->
  match validate_design_transition query_sources casefold set_order before after with
  | Ok _ => forall t d, depends query_sources before t d ->
      t ∈ all_object_ids before -> t ∉ all_object_ids after -> d ∉ all_object_ids after
  | Err e => (exists message, e = ValueErrorRaised message) /\
      exists t d, depends query_sources before t d /\ t ∈ all_object_ids before /\
        (t ∉ all_object_ids after) /\ d ∈ all_object_ids after
  end.
Proof.
  intros Hb Ha. unfold validate_design_transition.
  destruct (inventory_total query_sources before Hb) as (old & -> & [Hok Hids Hlinks]).
  destruct (inventory_total query_sources after Ha) as (new & -> & [_ Hids' _]).
  cbn [result_bind]. pose proof (transition_spec old new Hok) as Hs.
  destruct (for_each _ _) as [u|e].
  - intros t d Hd Ht Hn. rewrite <-Hids'. apply (Hs t d); [by apply Hids|by rewrite Hids'|by apply Hlinks].
  - destruct Hs as (? & t & d & Ht & Hn & Hd & Hs). split; [done|]. exists t, d.
    by rewrite <-Hlinks, <-Hids, <-!Hids'.
Qed.

(** When its labels fit, the preflight of a deletion answers for every object of
    the design: its tree contains exactly the dependency paths from the object that repeat no
    object and have at most 32 edges, so the search terminates on cyclic graphs. *)
Theorem preflight_paths content revision id :
  relationships_resolve content -> preview_fits content = true -> id ∈ all_object_ids content ->
  exists impact,
    design_deletion_impact query_sources casefold set_order content revision id = Ok impact /\
    obj_id (node_object (di_target impact)) = id /\
    forall p, (exists n, n ∈ di_dependents impact /\ tree_path n p) <->
      p <> [] /\ link_path (depends query_sources content) (id :: p) /\ NoDup (id :: p) /\
      length p <= 32.
Proof.
  intros Hr Hfit Hid. unfold design_deletion_impact. unfold preview_fits in Hfit.
  destruct (inventory_total query_sources content Hr) as (inv & Hinv & [Hok Hids Hlinks]).
  rewrite Hinv in *.
  cbn [result_bind]. apply Hids in Hid.
  destruct (proj2 (dget_is_Some id (inv_objects inv)) Hid) as [o ->].
  destruct (node_paths inv MAX_IMPACT_DEPTH [] id Hok Hfit Hid) as ([item children] & -> & Hobj & Hpaths).
  cbn [result_bind]. eexists. split; [done|]. split; [done|]. cbn [di_dependents node_children]. intros p.
  assert (Htree : (exists n, n ∈ children /\ tree_path n p) <->
    p <> [] /\ tree_path (ImpactNode item children) (id :: p)).
  { simpl in Hobj. split.
    - intros (n & Hn & Hp). split; [by destruct Hp|]. rewrite <-Hobj.
      by apply (tree_path_child (ImpactNode item children) n).
    - intros [Hne Hp]. inversion Hp; simplify_eq/=. eauto. }
  rewrite Htree, Hpaths.
  rewrite (link_path_iff (depends query_sources content) (fun a b => b ∈ dependents_of inv a))
    by (intros; by rewrite Hlinks).
  split.
  - by intros [Hne (q & [= <-] & Hl & Hnd & _ & Hlen)].
  - intros (Hne & Hl & Hnd & Hlen). split; [done|]. exists p. do 3 (split; [done|]). split; [set_solver|done].
Qed.

(** Preflight and enforcement agree: a replacement that removes exactly one
    object and keeps all the others passes the transition check precisely when
    the preflight of that object reports it is not blocked. *)
Theorem preflight_agrees before after revision id impact :
  relationships_resolve before -> relationships_resolve after ->
  id ∈ all_object_ids before ->
  (forall k, k ∈ all_object_ids after <-> k ∈ all_object_ids before /\ k <> id) ->
  design_deletion_impact query_sources casefold set_order before revision id = Ok impact ->
  validate_design_transition query_sources casefold set_order before after = Ok tt <->
  di_blocked impact = false.
Proof.
  intros Hb Ha Hid Hafter. unfold design_deletion_impact, validate_design_transition.
  destruct (inventory_total query_sources before Hb) as (old & -> & [Hok Hids Hlinks]).
  destruct (inventory_total query_sources after Ha) as (new & -> & [_ Hids' _]).
  cbn [result_bind]. apply Hids in Hid.
  destruct (proj2 (dget_is_Some id (inv_objects old)) Hid) as [o ->].
  change MAX_IMPACT_DEPTH with 32.
  destruct (node casefold set_order old 32 [] id) as [n|] eqn:Hn; [|done]. cbn [result_bind]. intros [= <-]. simpl.
  apply node_Ok in Hn. rewrite negb_false_iff, bool_decide_eq_true.
  assert (Hempty : length (node_children n) = 0 <-> forall d, d ∉ dependents_of old id).
  { rewrite Hn, length_zero_iff_nil, filter_nil_iff, Forall_forall. split; intros Hd d Hin.
    - apply (Hd d Hin). destruct (iok_dependents _ Hok _ _ Hin) as [Hne _]. set_solver.
    - by destruct (Hd d). }
  rewrite Hempty. pose proof (transition_spec old new Hok) as Hs. split.
  - intros E d Hd. rewrite E in Hs. specialize (Hs id d Hid).
    destruct (iok_dependents _ Hok _ _ Hd) as [Hne Hk]. apply Hs; [|done|].
    + rewrite Hids', Hafter. tauto.
    + rewrite Hids', Hafter, <-Hids. done.
  - intros Hnone. destruct (for_each _ _) as [[]|e]; [done|].
    destruct Hs as (_ & t & d & Ht & Hnt & Hd & _). rewrite Hids', Hafter, <-Hids in Hnt.
    destruct (decide (t = id)) as [->|]; [by destruct (Hnone d)|tauto].
Qed.
End checks.

(** ** Witnesses *)

Definition graph_column (id name : string) : DesignColumn :=
  {| dc_id := id; dc_name := name; dc_data_type := "integer"; dc_nullable := false;
     dc_default_expression := None; dc_identity := None; dc_generated_expression := None;
     dc_generated_source_column_ids := [] |}.

Definition graph_table (keys : list DesignKeyConstraint) : DesignTable :=
  {| tb_id := "t1"; tb_name := "people";
     tb_columns := [graph_column "c1" "id"; graph_column "c2" "age"];
     tb_keys := keys; tb_checks := []; tb_indexes := [] |}.

Definition graph_content (keys : list DesignKeyConstraint) (rs : list DesignRelationship)
    : SchemiiDesignContent :=
  {| content_types := []; content_tables := [graph_table keys]; content_relationships := rs;
     content_functions := []; content_views := []; content_triggers := [] |}.

Definition people_key : DesignKeyConstraint :=
  {| dk_id := "k1"; dk_name := "people_pkey"; dk_kind := KPrimary; dk_column_ids := ["c1"] |}.

Definition people_fkey : DesignRelationship :=
  {| rl_id := "r1"; rl_name := "people_self"; rl_source_table_id := "t1";
     rl_source_column_ids := ["c2"]; rl_target_table_id := "t1"; rl_target_column_ids := ["c1"];
     rl_on_update := NoAction; rl_on_delete := NoAction; rl_deferrable := false;
     rl_initially_deferred := false |}.

Definition no_queries : string -> json -> option (list (string * list string)) := fun _ _ => None.

(** Dropping the key while the foreign key stays is rejected. *)
Lemma transition_exact_witness :
  exists e, validate_design_transition no_queries id id
      (graph_content [people_key] [people_fkey]) (graph_content [] [people_fkey]) = Err e /\
    exists message, e = ValueErrorRaised message.
Proof.
  eexists. split; [vm_compute; reflexivity|].
  pose proof (transition_exact no_queries id id (fun l => reflexivity _)
    (graph_content [people_key] [people_fkey]) (graph_content [] [people_fkey])) as Ht.
  assert (Hr : forall keys, relationships_resolve (graph_content keys [people_fkey])).
  { intros keys. repeat constructor. }
  specialize (Ht (Hr _) (Hr _)). vm_compute in Ht. exact (proj1 Ht).
Defined.

Lemma preflight_paths_witness :
  exists impact,
    design_deletion_impact no_queries id id (graph_content [people_key] [people_fkey]) 7 "c1" = Ok impact /\
    exists n, n ∈ di_dependents impact /\ tree_path n ["k1"; "r1"].
Proof.
  destruct (preflight_paths no_queries id id (fun l => reflexivity _)
    (graph_content [people_key] [people_fkey]) 7 "c1") as (impact & Hi & _ & Hp).
  - repeat constructor.
  - vm_compute. reflexivity.
  - apply (bool_decide_unpack _). vm_compute. exact I.
  - exists impact. split; [exact Hi|]. apply Hp. split; [discriminate|]. split.
    + repeat split; try discriminate; apply (bool_decide_unpack _); vm_compute; exact I.
    + split; [apply (bool_decide_unpack _); vm_compute; exact I|]. simpl. lia.
Defined.

Lemma preflight_agrees_witness :
  exists impact,
    design_deletion_impact no_queries id id (graph_content [people_key] [people_fkey]) 7 "r1" = Ok impact /\
    validate_design_transition no_queries id id (graph_content [people_key] [people_fkey])
      (graph_content [people_key] []) = Ok tt.
Proof.
  eexists. split; [vm_compute; reflexivity|].
  eapply (preflight_agrees no_queries id id (fun l => reflexivity _)
    (graph_content [people_key] [people_fkey]) (graph_content [people_key] []) 7 "r1").
  - repeat constructor.
  - repeat constructor.
  - apply (bool_decide_unpack _). vm_compute. exact I.
  - intros k. change (all_object_ids (graph_content [people_key] [people_fkey])) with ["t1"; "c1"; "c2"; "k1"; "r1"].
    change (all_object_ids (graph_content [people_key] [])) with ["t1"; "c1"; "c2"; "k1"].
    set_solver by done.
  - vm_compute. reflexivity.
  - reflexivity.
Defined.
