(* ===== verification/HistorySummary.v ===== *)
(** * Semantic summaries of design changes

    [designs/history.py]: the stable objects of a design and the summary of a
    transition between two designs.  A serialised object ([model_dump]) is
    represented by the object itself, whose fields it holds; table objects keep
    their name and the order of their parts.  [casefold] and the iteration order of
    sets are parameters, as in [DeletionImpact]. *)

From stdpp Require Import pretty.
From Stdlib Require Import Ascii String.
From S2P Require Import Prelude Json PyString DesignModels DefinitionAnalysis DesignValidation.
Open Scope string_scope.
Open Scope result_scope.

Inductive history_value :=
| HVType (t : DesignType)
| HVTable (name : string) (column_order key_order check_order index_order : list string)
| HVColumn (c : DesignColumn)
| HVKey (k : DesignKeyConstraint)
| HVCheck (k : DesignCheckConstraint)
| HVIndex (i : DesignIndex)
| HVRelationship (r : DesignRelationship)
| HVRoutine (f : DesignFunction)
| HVView (v : DesignView)
| HVTrigger (t : DesignTrigger).

#[export] Instance history_value_eq_dec : EqDecision history_value. Proof. solve_decision. Defined.

Record HistoryObject := {
  ho_kind : object_kind;
  ho_name : string;
  ho_value : history_value;
}.

#[export] Instance HistoryObject_eq_dec : EqDecision HistoryObject. Proof. solve_decision. Defined.

Definition history_object (kind : object_kind) (name : string) (value : history_value) : HistoryObject :=
  {| ho_kind := kind; ho_name := name; ho_value := value |}.

(** The assignments of the table loop, in order. *)
Definition table_entries (t : DesignTable) : list (string * HistoryObject) :=
  ((tb_id t, history_object KTable (tb_name t)
      (HVTable (tb_name t) (dc_id <$> tb_columns t) (dk_id <$> tb_keys t) (ck_id <$> tb_checks t)
         (ix_id <$> tb_indexes t)))
   :: ((fun c => (dc_id c, history_object KColumn (tb_name t ++ "." ++ dc_name c) (HVColumn c)))
         <$> tb_columns t)
   ++ ((fun k => (dk_id k, history_object KKey (dk_name k) (HVKey k))) <$> tb_keys t)
   ++ ((fun k => (ck_id k, history_object KCheck (ck_name k) (HVCheck k))) <$> tb_checks t)
   ++ ((fun i => (ix_id i, history_object KIndex (ix_name i) (HVIndex i))) <$> tb_indexes t))%list.

(** All assignments of [_objects], in order. *)
Definition history_entries (content : SchemiiDesignContent) : list (string * HistoryObject) :=
  (((fun t => (dt_id t, history_object KType (dt_name t) (HVType t))) <$> content_types content)
   ++ concat (table_entries <$> content_tables content)
   ++ ((fun r => (rl_id r, history_object KRelationship (rl_name r) (HVRelationship r)))
         <$> content_relationships content)
   ++ ((fun f => (fn_id f, history_object KRoutine (routine_signature f) (HVRoutine f)))
         <$> content_functions content)
   ++ ((fun v => (vw_id v, history_object KView (vw_name v) (HVView v))) <$> content_views content)
   ++ ((fun t => (tr_id t, history_object KTrigger (tr_name t) (HVTrigger t)))
         <$> content_triggers content))%list.

(** [_objects]. *)
Definition objects (content : SchemiiDesignContent) : list (string * HistoryObject) :=
  dict_fill fst snd (history_entries content) [].

(** ** The summary *)

Definition label_ok (s : string) : bool := length_between 1 512 s.

(** The constructor of [DesignChangeItem], which checks its field lengths. *)
Definition make_item (op : change_operation) (kind : object_kind) (name : string)
    (previous : option string) : checked DesignChangeItem :=
  guard_err (negb (label_ok name)) (PydanticErrorRaised "name") ;;;
  guard_err (negb (opt_check label_ok previous)) (PydanticErrorRaised "previous_name") ;;;
  Ok {| chg_operation := op; chg_kind := kind; chg_name := name; chg_previous_name := previous |}.

Definition make_summary (title : string) (changes : list DesignChangeItem) : checked DesignChangeSummary :=
  guard_err (negb (length_between 1 1024 title)) (PydanticErrorRaised "title") ;;;
  guard_err (bool_decide (20000 < N.of_nat (length changes))%N) (PydanticErrorRaised "changes") ;;;
  Ok {| sum_title := title; sum_change_count := length changes; sum_changes := changes |}.

Definition verb (op : change_operation) : string :=
  match op with
  | ChAdded => "Create" | ChRemoved => "Delete" | ChChanged => "Update" | ChRenamed => "Rename"
  end.

Definition summary_title (changes : list DesignChangeItem) : string :=
  match changes with
  | [] => "No schema changes"
  | [first] =>
      match chg_operation first with
      | ChRenamed => "Rename " ++ object_kind_text (chg_kind first) ++ " "
          ++ match chg_previous_name first with Some p => p | None => "None" end
          ++ " to " ++ chg_name first
      | op => verb op ++ " " ++ object_kind_text (chg_kind first) ++ " " ++ chg_name first
      end
  | first :: _ =>
      verb (chg_operation first) ++ " " ++ object_kind_text (chg_kind first) ++ " " ++ chg_name first
        ++ " and " ++ pretty (length changes - 1) ++ " related change(s)"
  end.

Section summary.
Variable casefold : string -> string.
Variable set_order : list string -> list string.

(** Order of the sort key [(kind, name.casefold())]. *)
Definition object_le (a b : string * HistoryObject) : Prop :=
  if decide (ho_kind a.2 = ho_kind b.2)
  then String.le (casefold (ho_name a.2)) (casefold (ho_name b.2))
  else String.le (object_kind_text (ho_kind a.2)) (object_kind_text (ho_kind b.2)).

#[global] Instance object_le_dec : RelDecision object_le.
Proof. intros a b. unfold object_le. destruct (decide _); apply _. Defined.

(** The entries of a set of keys of [d], sorted. *)
Definition sorted_entries (d : list (string * HistoryObject)) (keys : list string)
    : list (string * HistoryObject) :=
  merge_sort object_le (omap (fun k => (fun o => (k, o)) <$> dget k d) (set_order keys)).

Definition removed_keys (old new : list (string * HistoryObject)) : list string :=
  filter (fun k => k ∉ dkeys new) (dkeys old).
Definition common_keys (old new : list (string * HistoryObject)) : list string :=
  filter (fun k => k ∈ dkeys new) (dkeys old).

(** One pass of the third loop: nothing when the object is unchanged. *)
Definition changed_item (old : list (string * HistoryObject)) (entry : string * HistoryObject)
    : option (change_operation * object_kind * string * option string) :=
  match dget entry.1 old with
  | None => None
  | Some previous =>
      let current := entry.2 in
      if bool_decide (ho_value previous = ho_value current) && bool_decide (ho_name previous = ho_name current)
      then None
      else if bool_decide (ho_name previous <> ho_name current)
      then Some (ChRenamed, ho_kind current, ho_name current, Some (ho_name previous))
      else Some (ChChanged, ho_kind current, ho_name current, None)
  end.

(** The arguments of the [DesignChangeItem] calls, in order. *)
Definition raw_changes (old new : list (string * HistoryObject))
    : list (change_operation * object_kind * string * option string) :=
  (((fun e => (ChRemoved, ho_kind e.2, ho_name e.2, None)) <$> sorted_entries old (removed_keys old new))
   ++ ((fun e => (ChAdded, ho_kind e.2, ho_name e.2, None)) <$> sorted_entries new (removed_keys new old))
   ++ omap (changed_item old) (sorted_entries new (common_keys new old)))%list.

Definition design_change_summary (before after : SchemiiDesignContent) : checked DesignChangeSummary :=
  let! changes := result_map (fun '(op, kind, name, previous) => make_item op kind name previous)
    (raw_changes (objects before) (objects after)) in
  make_summary (summary_title changes) changes.
End summary.

(** ** The objects of a design *)

Lemma history_entries_ids content : (history_entries content).*1 = all_object_ids content.
Proof.
  unfold history_entries, all_object_ids. rewrite !fmap_app, fmap_concat, <-!list_fmap_compose.
  rewrite (list_fmap_ext ((fun l : list (string * HistoryObject) => l.*1) ∘ table_entries) table_object_ids
    (content_tables content)); [done|].
  intros _ t _. unfold table_object_ids, table_entries. csimpl.
  f_equal. by rewrite !fmap_app, <-!list_fmap_compose.
Qed.

Lemma objects_keys content k : k ∈ dkeys (objects content) <-> k ∈ all_object_ids content.
Proof.
  unfold objects. rewrite <-dget_is_Some, dict_fill_is_Some, history_entries_ids. simpl.
  rewrite is_Some_alt. naive_solver.
Qed.

Lemma objects_lookup content k o :
  NoDup (all_object_ids content) ->
  dget k (objects content) = Some o <-> (k, o) ∈ history_entries content.
Proof.
  rewrite <-history_entries_ids. intros Hnd. split.
  - intros [([k' o'] & ? & ? & ?)|[_ ?]]%dict_fill_Some; simplify_eq/=; done.
  - intros Hin. by apply (dict_fill_elem fst snd _ [] (k, o)).
Qed.

Lemma objects_wf content : dwf (objects content).
Proof. apply dict_fill_wf, NoDup_nil_2. Qed.

Definition value_kind (v : history_value) : object_kind :=
  match v with
  | HVType _ => KType | HVTable _ _ _ _ _ => KTable | HVColumn _ => KColumn | HVKey _ => KKey
  | HVCheck _ => KCheck | HVIndex _ => KIndex | HVRelationship _ => KRelationship
  | HVRoutine _ => KRoutine | HVView _ => KView | HVTrigger _ => KTrigger
  end.

(** The kind of an entry is that of its value, and an entry comes from the object
    of the design it is about. *)
Lemma table_entries_kind t k o : (k, o) ∈ table_entries t -> ho_kind o = value_kind (ho_value o).
Proof.
  unfold table_entries. rewrite elem_of_cons, !elem_of_app, !list_elem_of_fmap.
  intros Hin. by repeat (destruct Hin as [Hin|Hin]); simplify_eq/=; try destruct Hin as (? & ? & ?); simplify_eq/=.
Qed.

Lemma entry_cases content k o :
  (k, o) ∈ history_entries content ->
  match ho_value o with
  | HVType t => t ∈ content_types content
  | HVRelationship r => r ∈ content_relationships content
  | HVRoutine f => f ∈ content_functions content
  | HVView v => v ∈ content_views content
  | HVTrigger t => t ∈ content_triggers content
  | _ => exists t, t ∈ content_tables content /\ (k, o) ∈ table_entries t
  end /\ ho_kind o = value_kind (ho_value o).
Proof.
  unfold history_entries. rewrite !elem_of_app, !list_elem_of_fmap.
  intros [Hin|[Hin|Hin]].
  - destruct Hin as (t & [= -> ->] & Ht). done.
  - apply list_elem_of_In, in_concat in Hin as (es & Hes & Hin). rewrite <-list_elem_of_In in Hes. rewrite <-list_elem_of_In in Hin.
    apply list_elem_of_fmap in Hes as (t & -> & Ht). split; [|by eapply table_entries_kind].
    assert (Hex : exists t, t ∈ content_tables content /\ (k, o) ∈ table_entries t) by eauto.
    destruct (ho_value o) eqn:E; try done; exfalso; clear Hex;
      unfold table_entries in Hin; rewrite elem_of_cons, !elem_of_app, !list_elem_of_fmap in Hin;
      repeat (destruct Hin as [Hin|Hin]); simplify_eq/=; destruct Hin as (? & ? & ?); simplify_eq/=.
  - repeat (destruct Hin as [Hin|Hin]); destruct Hin as (x & [= -> ->] & Hx); done.
Qed.

(** ** Which changes are reported *)

Section reported.
Variable casefold : string -> string.
Variable set_order : list string -> list string.
Hypothesis set_order_perm : forall l, set_order l ≡ₚ l.

Lemma elem_of_sorted_entries d keys k o :
  (k, o) ∈ sorted_entries casefold set_order d keys <-> k ∈ keys /\ dget k d = Some o.
Proof.
  unfold sorted_entries. rewrite merge_sort_Permutation, list_elem_of_omap. split.
  - intros (k' & Hk & (o' & Ho & [= -> ->])%fmap_Some). by rewrite set_order_perm in Hk.
  - intros [Hk Ho]. exists k. rewrite set_order_perm, Ho. done.
Qed.

Lemma changed_item_None old k o :
  changed_item old (k, o) = None <->
  forall p, dget k old = Some p -> ho_value p = ho_value o /\ ho_name p = ho_name o.
Proof.
  unfold changed_item. simpl. destruct (dget k old) as [p|]; [|naive_solver].
  repeat case_bool_decide; simpl; naive_solver.
Qed.

Lemma raw_changes_nil old new :
  raw_changes casefold set_order old new = [] <->
  (forall k, k ∈ dkeys old <-> k ∈ dkeys new) /\
  (forall k p o, dget k old = Some p -> dget k new = Some o -> ho_value p = ho_value o /\ ho_name p = ho_name o).
Proof.
  assert (Hnil : forall {A B} (f : A -> B) l, f <$> l = [] <-> forall x, x ∉ l).
  { intros A B f l. destruct l; csimpl; split; try set_solver. }
  assert (Homap : forall l, omap (changed_item old) l = [] <-> forall x, x ∈ l -> changed_item old x = None).
  { induction l as [|x l IH]; simpl; [set_solver|]. destruct (changed_item old x) eqn:E.
    - split; [done|]. intros Hx. specialize (Hx x ltac:(left)). congruence.
    - rewrite IH. split; [intros ? y [->|]%elem_of_cons; auto|]. intros Hx y Hy. apply Hx. by right. }
  unfold raw_changes. rewrite !app_nil, !Hnil, Homap. unfold removed_keys, common_keys. split.
  - intros (Hr & Ha & Hc). split.
    + intros k. split; intros Hk; apply dget_is_Some in Hk as [o Ho]; apply dec_stable; intros Hn.
      * apply (Hr (k, o)). rewrite elem_of_sorted_entries, list_elem_of_filter. eauto using dget_Some_key.
      * apply (Ha (k, o)). rewrite elem_of_sorted_entries, list_elem_of_filter. eauto using dget_Some_key.
    + intros k p o Hp Ho. specialize (Hc (k, o)). rewrite changed_item_None in Hc. apply Hc; [|done].
      rewrite elem_of_sorted_entries, list_elem_of_filter. eauto using dget_Some_key.
  - intros [Hk Hv]. split_and!.
    + intros [k o]. rewrite elem_of_sorted_entries, list_elem_of_filter. naive_solver.
    + intros [k o]. rewrite elem_of_sorted_entries, list_elem_of_filter. naive_solver.
    + intros [k o] [_ Ho]%elem_of_sorted_entries. apply changed_item_None. eauto.
Qed.

Lemma summary_nil_iff before after s :
  design_change_summary casefold set_order before after = Ok s ->
  sum_change_count s = 0 <-> raw_changes casefold set_order (objects before) (objects after) = [].
Proof.
  unfold design_change_summary. intros (changes & Hc & Hs)%result_bind_Ok.
  apply result_map_Ok, Forall2_length in Hc. unfold make_summary in Hs. result_inv. simpl.
  rewrite <-Hc, length_zero_iff_nil. done.
Qed.

(** The two designs have the same objects, up to the order of the top-level lists. *)
Record same_design (a b : SchemiiDesignContent) : Prop := {
  sd_types : content_types a ≡ₚ content_types b;
  sd_tables : content_tables a ≡ₚ content_tables b;
  sd_relationships : content_relationships a ≡ₚ content_relationships b;
  sd_functions : content_functions a ≡ₚ content_functions b;
  sd_views : content_views a ≡ₚ content_views b;
  sd_triggers : content_triggers a ≡ₚ content_triggers b;
}.

(** Reading the objects of each kind back from the entries. *)
Definition entry_types (es : list (string * HistoryObject)) : list DesignType :=
  omap (fun e => match ho_value e.2 with HVType t => Some t | _ => None end) es.
Definition entry_relationships (es : list (string * HistoryObject)) : list DesignRelationship :=
  omap (fun e => match ho_value e.2 with HVRelationship r => Some r | _ => None end) es.
Definition entry_functions (es : list (string * HistoryObject)) : list DesignFunction :=
  omap (fun e => match ho_value e.2 with HVRoutine f => Some f | _ => None end) es.
Definition entry_views (es : list (string * HistoryObject)) : list DesignView :=
  omap (fun e => match ho_value e.2 with HVView v => Some v | _ => None end) es.
Definition entry_triggers (es : list (string * HistoryObject)) : list DesignTrigger :=
  omap (fun e => match ho_value e.2 with HVTrigger t => Some t | _ => None end) es.

Lemma omap_fmap_Some {A B C} (g : B -> option C) (f : A -> B) (h : A -> C) (l : list A) :
  (forall x, g (f x) = Some (h x)) -> omap g (f <$> l) = h <$> l.
Proof. intros Hg. induction l; csimpl; [done|]. rewrite Hg. by f_equal. Qed.

Lemma omap_fmap_None {A B C} (g : B -> option C) (f : A -> B) (l : list A) :
  (forall x, g (f x) = None) -> omap g (f <$> l) = [].
Proof. intros Hg. induction l; csimpl; [done|]. by rewrite Hg. Qed.

Lemma omap_tables_None {C} (g : string * HistoryObject -> option C) content :
  (forall t e, e ∈ table_entries t -> g e = None) ->
  omap g (concat (table_entries <$> content_tables content)) = [].
Proof.
  intros Hg. induction (content_tables content) as [|t ts IH]; [done|].
  rewrite fmap_cons. cbn [concat]. rewrite omap_app, IH, app_nil_r.
  specialize (Hg t). induction (table_entries t) as [|e es IHe]; simpl; [done|].
  rewrite Hg by left. apply IHe. intros e' He'. apply Hg. by right.
Qed.

Lemma table_entries_value t e :
  e ∈ table_entries t ->
  match ho_value e.2 with
  | HVType _ | HVRelationship _ | HVRoutine _ | HVView _ | HVTrigger _ => False
  | _ => True
  end.
Proof.
  unfold table_entries. rewrite elem_of_cons, !elem_of_app, !list_elem_of_fmap.
  intros Hin. by repeat (destruct Hin as [Hin|Hin]); simplify_eq/=; try destruct Hin as (? & ? & ?); simplify_eq/=.
Qed.

Ltac read_back :=
  unfold history_entries; rewrite !omap_app;
  rewrite omap_tables_None by (intros t [k o] He%table_entries_value; simpl in *; by destruct (ho_value o));
  rewrite ?(omap_fmap_Some _ _ (fun x => x)) by done;
  rewrite ?omap_fmap_None by done; by rewrite ?list_fmap_id, ?app_nil_r.

Lemma entry_types_eq content : entry_types (history_entries content) = content_types content.
Proof. unfold entry_types. read_back. Qed.
Lemma entry_relationships_eq content :
  entry_relationships (history_entries content) = content_relationships content.
Proof. unfold entry_relationships. read_back. Qed.
Lemma entry_functions_eq content : entry_functions (history_entries content) = content_functions content.
Proof. unfold entry_functions. read_back. Qed.
Lemma entry_views_eq content : entry_views (history_entries content) = content_views content.
Proof. unfold entry_views. read_back. Qed.
Lemma entry_triggers_eq content : entry_triggers (history_entries content) = content_triggers content.
Proof. unfold entry_triggers. read_back. Qed.

Lemma table_entry_in content t e :
  t ∈ content_tables content -> e ∈ table_entries t -> e ∈ history_entries content.
Proof.
  intros Ht He. unfold history_entries. rewrite !elem_of_app. right. left.
  apply list_elem_of_In, in_concat. exists (table_entries t). rewrite <-!list_elem_of_In.
  split; [by apply list_elem_of_fmap_2|done].
Qed.

Lemma entries_functional content k o o' :
  NoDup (all_object_ids content) ->
  (k, o) ∈ history_entries content -> (k, o') ∈ history_entries content -> o = o'.
Proof. intros Hnd. rewrite <-!objects_lookup by done. congruence. Qed.

Lemma fmap_eq_pointwise {A B} (f : A -> B) (l l' : list A) :
  f <$> l = f <$> l' -> (forall x y, x ∈ l -> y ∈ l' -> f x = f y -> x = y) -> l = l'.
Proof.
  revert l'. induction l as [|x l IH]; intros [|y l']; csimpl; try done. intros [= Hf Hfs] He. f_equal.
  - apply He; [left|left|done].
  - apply IH; [done|]. intros. apply He; [by right|by right|done].
Qed.

(** The parts of a table are read back in the recorded order. *)
Lemma table_parts_eq {P} (part_id : P -> string) (kind : object_kind) (name : P -> string)
    (value : P -> history_value) content content' (l l' : list P) :
  NoDup (all_object_ids content') ->
  (forall e, e ∈ history_entries content -> e ∈ history_entries content') ->
  (forall x y, value x = value y -> x = y) ->
  (forall x, x ∈ l -> exists n, (part_id x, history_object kind n (value x)) ∈ history_entries content) ->
  (forall x, x ∈ l' -> exists n, (part_id x, history_object kind n (value x)) ∈ history_entries content') ->
  part_id <$> l = part_id <$> l' -> l = l'.
Proof.
  intros Hnd Hsub Hinj Hl Hl' Hids. apply (fmap_eq_pointwise part_id); [done|].
  intros x y Hx Hy Hxy. destruct (Hl x Hx) as [n Hn], (Hl' y Hy) as [m Hm].
  apply Hsub in Hn. rewrite Hxy in Hn. pose proof (entries_functional _ _ _ _ Hnd Hn Hm). naive_solver.
Qed.

Lemma column_entry t c : c ∈ tb_columns t ->
  (dc_id c, history_object KColumn (tb_name t ++ "." ++ dc_name c) (HVColumn c)) ∈ table_entries t.
Proof.
  intros Hc. unfold table_entries. rewrite elem_of_cons, !elem_of_app, !list_elem_of_fmap. right. left. eauto.
Qed.

Lemma key_entry t k : k ∈ tb_keys t -> (dk_id k, history_object KKey (dk_name k) (HVKey k)) ∈ table_entries t.
Proof.
  intros Hc. unfold table_entries. rewrite elem_of_cons, !elem_of_app, !list_elem_of_fmap. do 2 right. left. eauto.
Qed.

Lemma check_entry t k :
  k ∈ tb_checks t -> (ck_id k, history_object KCheck (ck_name k) (HVCheck k)) ∈ table_entries t.
Proof.
  intros Hc. unfold table_entries. rewrite elem_of_cons, !elem_of_app, !list_elem_of_fmap. do 3 right. left. eauto.
Qed.

Lemma index_entry t i :
  i ∈ tb_indexes t -> (ix_id i, history_object KIndex (ix_name i) (HVIndex i)) ∈ table_entries t.
Proof.
  intros Hc. unfold table_entries. rewrite elem_of_cons, !elem_of_app, !list_elem_of_fmap. do 4 right. eauto.
Qed.

Lemma table_head_inv t k name cols keys checks indexes :
  (k, history_object KTable name (HVTable name cols keys checks indexes)) ∈ table_entries t ->
  k = tb_id t /\ name = tb_name t /\ cols = dc_id <$> tb_columns t /\ keys = dk_id <$> tb_keys t /\
  checks = ck_id <$> tb_checks t /\ indexes = ix_id <$> tb_indexes t.
Proof.
  unfold table_entries. rewrite elem_of_cons, !elem_of_app, !list_elem_of_fmap.
  intros [[=]|Hin]; [naive_solver|]. repeat (destruct Hin as [Hin|Hin]); naive_solver.
Qed.

Lemma table_transfer a b t :
  NoDup (all_object_ids b) ->
  (forall e, e ∈ history_entries a -> e ∈ history_entries b) ->
  t ∈ content_tables a -> t ∈ content_tables b.
Proof.
  intros Hnd Hsub Ht.
  assert (Hhead : (tb_id t, history_object KTable (tb_name t)
    (HVTable (tb_name t) (dc_id <$> tb_columns t) (dk_id <$> tb_keys t) (ck_id <$> tb_checks t)
       (ix_id <$> tb_indexes t))) ∈ history_entries b).
  { apply Hsub. eapply table_entry_in; [done|left]. }
  apply entry_cases in Hhead as [(t' & Ht' & Hhead) _].
  apply table_head_inv in Hhead as (Hid & Hname & Hco & Hko & Hcho & Hio).
  assert (tb_columns t = tb_columns t').
  { eapply (table_parts_eq dc_id KColumn dc_name HVColumn a b); try done; [naive_solver|..];
      intros; eexists; by eapply table_entry_in, column_entry. }
  assert (tb_keys t = tb_keys t').
  { eapply (table_parts_eq dk_id KKey dk_name HVKey a b); try done; [naive_solver|..];
      intros; eexists; by eapply table_entry_in, key_entry. }
  assert (tb_checks t = tb_checks t').
  { eapply (table_parts_eq ck_id KCheck ck_name HVCheck a b); try done; [naive_solver|..];
      intros; eexists; by eapply table_entry_in, check_entry. }
  assert (tb_indexes t = tb_indexes t').
  { eapply (table_parts_eq ix_id KIndex ix_name HVIndex a b); try done; [naive_solver|..];
      intros; eexists; by eapply table_entry_in, index_entry. }
  assert (t = t') as ->; [|done]. destruct t, t'; simpl in *; by subst.
Qed.

Lemma same_design_entries a b : same_design a b -> history_entries a ≡ₚ history_entries b.
Proof.
  intros [H1 H2 H3 H4 H5 H6]. unfold history_entries. rewrite H1, H3, H4, H5, H6.
  do 2 f_equiv. by apply concat_fmap_Permutation.
Qed.

Lemma entries_same_design a b :
  NoDup (all_object_ids a) -> NoDup (all_object_ids b) ->
  history_entries a ≡ₚ history_entries b -> same_design a b.
Proof.
  intros Ha Hb Hp. split.
  - rewrite <-(entry_types_eq a), <-(entry_types_eq b). unfold entry_types. by rewrite Hp.
  - assert (Hids : forall c, NoDup (all_object_ids c) -> NoDup (content_tables c)).
    { intros c Hc. by apply (NoDup_fmap_1 tb_id), table_ids_NoDup. }
    apply NoDup_Permutation; [auto|auto|]. intros t.
    split; apply table_transfer; try done; intros e; by rewrite Hp.
  - rewrite <-(entry_relationships_eq a), <-(entry_relationships_eq b). unfold entry_relationships. by rewrite Hp.
  - rewrite <-(entry_functions_eq a), <-(entry_functions_eq b). unfold entry_functions. by rewrite Hp.
  - rewrite <-(entry_views_eq a), <-(entry_views_eq b). unfold entry_views. by rewrite Hp.
  - rewrite <-(entry_triggers_eq a), <-(entry_triggers_eq b). unfold entry_triggers. by rewrite Hp.
Qed.

Lemma unchanged_iff a b :
  NoDup (all_object_ids a) -> NoDup (all_object_ids b) ->
  raw_changes casefold set_order (objects a) (objects b) = [] <-> history_entries a ≡ₚ history_entries b.
Proof.
  intros Ha Hb. rewrite raw_changes_nil. split.
  - intros [Hk Hv]. assert (Hsame : forall e, e ∈ history_entries a <-> e ∈ history_entries b).
    { assert (Heq : forall k o o', dget k (objects a) = Some o -> dget k (objects b) = Some o' -> o = o').
      { intros k o o' Ho Ho'. destruct (Hv k o o' Ho Ho') as [Hval Hname].
        apply objects_lookup in Ho, Ho'; [|done..].
        apply entry_cases in Ho as [_ Hko], Ho' as [_ Hko'].
        destruct o, o'; simpl in *. congruence. }
      intros [k o]. rewrite <-!objects_lookup by done. split; intros Ho.
      - destruct (proj2 (dget_is_Some k (objects b))) as [o' Ho']; [by eapply Hk, dget_Some_key|].
        by rewrite (Heq k o o').
      - destruct (proj2 (dget_is_Some k (objects a))) as [o' Ho']; [by eapply Hk, dget_Some_key|].
        by rewrite <-(Heq k o' o). }
    apply NoDup_Permutation; [| |done]; apply (NoDup_fmap_1 fst); by rewrite history_entries_ids.
  - intros Hp. split.
    + intros k. by rewrite !objects_keys, <-!history_entries_ids, Hp.
    + intros k p o. rewrite !objects_lookup by done. rewrite Hp. intros H1 H2.
      by rewrite (entries_functional b k p o).
Qed.

(** The summary of a transition reports no change exactly when the two designs
    hold the same objects, that is when they differ at most in the order of their
    top-level lists: no edit of a type, table part, relationship, routine, view or
    trigger goes unreported, and nothing is reported for an unchanged design. *)
Theorem summary_empty_iff before after s :
  NoDup (all_object_ids before) -> NoDup (all_object_ids after) ->
  design_change_summary casefold set_order before after = Ok s ->
  sum_change_count s = 0 <-> same_design before after.
Proof.
  intros Hb Ha Hs. rewrite (summary_nil_iff _ _ _ Hs), unchanged_iff by done.
  split; [by apply entries_same_design|apply same_design_entries].
Qed.

Lemma make_item_Ok op kind name previous item :
  make_item op kind name previous = Ok item -> label_ok name = true.
Proof. unfold make_item. intros ?. result_inv. by rewrite negb_false_iff in *. Qed.

(** A design that adds a routine whose signature is longer than 512 characters
    cannot be summarised: the item constructor rejects the name, so the summary,
    and with it every history view of that transition, raises instead. *)
Theorem long_signature_not_summarised before after f s :
  NoDup (all_object_ids after) -> f ∈ content_functions after ->
  fn_id f ∉ all_object_ids before -> 512 < py_len (routine_signature f) ->
  design_change_summary casefold set_order before after <> Ok s.
Proof.
  intros Hnd Hf Hnew Hlen (changes & Hc & _)%result_bind_Ok.
  set (o := history_object KRoutine (routine_signature f) (HVRoutine f)).
  assert (Ho : dget (fn_id f) (objects after) = Some o).
  { apply objects_lookup; [done|]. unfold history_entries. rewrite !elem_of_app. do 3 right. left.
    by apply (list_elem_of_fmap_2 (fun f => (fn_id f, history_object KRoutine (routine_signature f) (HVRoutine f)))). }
  assert (Hin : (ChAdded, KRoutine, routine_signature f, None) ∈
    raw_changes casefold set_order (objects before) (objects after)).
  { unfold raw_changes. rewrite !elem_of_app. right. left.
    apply (list_elem_of_fmap_2 (fun e : string * HistoryObject => (ChAdded, ho_kind e.2, ho_name e.2, None)) _ (fn_id f, o)).
    apply elem_of_sorted_entries. split; [|done]. unfold removed_keys.
    rewrite list_elem_of_filter, objects_keys. split; [done|by eapply dget_Some_key]. }
  destruct (fold_result_map_ok _ _ _ _ Hc Hin) as (item & _ & Hitem%make_item_Ok).
  unfold label_ok, length_between in Hitem. apply bool_decide_eq_true in Hitem. lia.
Qed.
End reported.

(** ** Witnesses *)

Definition summary_function (id arguments : string) : DesignFunction :=
  {| fn_id := id; fn_name := "f"; fn_kind := RFunction; fn_arguments := arguments;
     fn_identity_arguments := arguments; fn_return_type := Some "integer"; fn_language := "sql";
     fn_definition := "" |}.

Definition with_functions (fs : list DesignFunction) : SchemiiDesignContent :=
  {| content_types := []; content_tables := []; content_relationships := []; content_functions := fs;
     content_views := []; content_triggers := [] |}.

Lemma summary_empty_iff_witness :
  exists s, design_change_summary id id
      (with_functions [summary_function "a" "integer"; summary_function "b" "text"])
      (with_functions [summary_function "b" "text"; summary_function "a" "integer"]) = Ok s /\
    sum_change_count s = 0.
Proof.
  eexists. split; [vm_compute; reflexivity|].
  apply (summary_empty_iff id id (fun l => reflexivity _)
      (with_functions [summary_function "a" "integer"; summary_function "b" "text"])
      (with_functions [summary_function "b" "text"; summary_function "a" "integer"])).
  - apply (bool_decide_unpack _). vm_compute. exact I.
  - apply (bool_decide_unpack _). vm_compute. exact I.
  - vm_compute. reflexivity.
  - split; try reflexivity. simpl. constructor.
Defined.

Fixpoint repeat_text (n : nat) (s : string) : string :=
  match n with 0 => "" | S n' => s ++ repeat_text n' s end.

(** Twenty-five arguments of a common type are enough. *)
Definition many_arguments : DesignFunction :=
  summary_function "a" ("integer" ++ repeat_text 24 ", timestamp with time zone").

Lemma long_signature_not_summarised_witness :
  design_change_summary id id EMPTY_DESIGN_CONTENT (with_functions [many_arguments]) =
    Err (PydanticErrorRaised "name") /\
  forall s, design_change_summary id id EMPTY_DESIGN_CONTENT (with_functions [many_arguments]) <> Ok s.
Proof.
  split; [vm_compute; reflexivity|]. intros s.
  apply (long_signature_not_summarised id id (fun l => reflexivity _) _ _ many_arguments).
  - apply NoDup_singleton.
  - left.
  - apply not_elem_of_nil.
  - apply Nat.ltb_lt. vm_compute. reflexivity.
Defined.
