(* ===== verification/DesignDocument.v ===== *)
(** * Serialised designs

    [SchemiiDesignContent.model_dump(mode="json")] with field names or with their
    camel-case aliases, [authored_content_document], [canonical_content] (the text
    [json.dumps] gives with sorted keys) and [design_fingerprint] of
    [designs/store.py].  SHA-256 is a parameter. *)

From stdpp Require Import pretty.
From Stdlib Require Import Ascii String.
From S2P Require Import Prelude Json JsonDelta PyString DesignModels DefinitionAnalysis DesignValidation.
From S2P Require Import DeletionImpact.
Open Scope string_scope.
Open Scope list_scope.

(** ** Field documents *)

(** The key of a field: its name, or its alias. *)
Definition key (by_alias : bool) (name alias : string) : string := if by_alias then alias else name.

Definition fk_action_text (a : fk_action) : string :=
  match a with
  | NoAction => "NO ACTION" | Restrict => "RESTRICT" | Cascade => "CASCADE"
  | SetNull => "SET NULL" | SetDefault => "SET DEFAULT"
  end.

Definition identity_text (i : identity_kind) : string :=
  match i with IdAlways => "always" | IdByDefault => "by_default" end.

Definition key_kind_text (k : key_kind) : string :=
  match k with KPrimary => "primary" | KUnique => "unique" end.

Section documents.
Variable by_alias : bool.

Definition DesignDomainCheck_document (c : DesignDomainCheck) : json :=
  JDict [("name", json_opt (dck_name c)); ("expression", JStr (dck_expression c))].

Definition DesignType_document (t : DesignType) : json :=
  JDict [("id", JStr (dt_id t)); ("name", JStr (dt_name t)); ("kind", JStr (type_kind_text (dt_kind t)));
         (key by_alias "enum_values" "enumValues", json_strs (dt_enum_values t));
         (key by_alias "base_type" "baseType", json_opt (dt_base_type t));
         (key by_alias "default_expression" "defaultExpression", json_opt (dt_default_expression t));
         (key by_alias "not_null" "notNull", JBool (dt_not_null t));
         ("checks", JList (DesignDomainCheck_document <$> dt_checks t));
         ("collation", json_opt (dt_collation t)); ("definition", JStr (dt_definition t))].

Definition DesignColumn_document (c : DesignColumn) : json :=
  JDict [("id", JStr (dc_id c)); ("name", JStr (dc_name c));
         (key by_alias "data_type" "dataType", JStr (dc_data_type c));
         ("nullable", JBool (dc_nullable c));
         (key by_alias "default_expression" "defaultExpression", json_opt (dc_default_expression c));
         ("identity", json_opt (identity_text <$> dc_identity c));
         (key by_alias "generated_expression" "generatedExpression", json_opt (dc_generated_expression c));
         (key by_alias "generated_source_column_ids" "generatedSourceColumnIds",
            json_strs (dc_generated_source_column_ids c))].

Definition DesignKeyConstraint_document (k : DesignKeyConstraint) : json :=
  JDict [("id", JStr (dk_id k)); ("name", JStr (dk_name k)); ("kind", JStr (key_kind_text (dk_kind k)));
         (key by_alias "column_ids" "columnIds", json_strs (dk_column_ids k))].

Definition DesignCheckConstraint_document (k : DesignCheckConstraint) : json :=
  JDict [("id", JStr (ck_id k)); ("name", JStr (ck_name k)); ("expression", JStr (ck_expression k));
         (key by_alias "column_ids" "columnIds", json_strs (ck_column_ids k))].

Definition DesignIndex_document (i : DesignIndex) : json :=
  JDict [("id", JStr (ix_id i)); ("name", JStr (ix_name i)); ("method", JStr (ix_method i));
         (key by_alias "column_ids" "columnIds", json_strs (ix_column_ids i));
         (key by_alias "include_column_ids" "includeColumnIds", json_strs (ix_include_column_ids i));
         ("expression", json_opt (ix_expression i));
         (key by_alias "expression_source_column_ids" "expressionSourceColumnIds",
            json_strs (ix_expression_source_column_ids i));
         ("predicate", json_opt (ix_predicate i));
         (key by_alias "predicate_column_ids" "predicateColumnIds", json_strs (ix_predicate_column_ids i));
         ("unique", JBool (ix_unique i))].

Definition DesignTable_document (t : DesignTable) : json :=
  JDict [("id", JStr (tb_id t)); ("name", JStr (tb_name t));
         ("columns", JList (DesignColumn_document <$> tb_columns t));
         ("keys", JList (DesignKeyConstraint_document <$> tb_keys t));
         ("checks", JList (DesignCheckConstraint_document <$> tb_checks t));
         ("indexes", JList (DesignIndex_document <$> tb_indexes t))].

Definition DesignRelationship_document (r : DesignRelationship) : json :=
  JDict [("id", JStr (rl_id r)); ("name", JStr (rl_name r));
         (key by_alias "source_table_id" "sourceTableId", JStr (rl_source_table_id r));
         (key by_alias "source_column_ids" "sourceColumnIds", json_strs (rl_source_column_ids r));
         (key by_alias "target_table_id" "targetTableId", JStr (rl_target_table_id r));
         (key by_alias "target_column_ids" "targetColumnIds", json_strs (rl_target_column_ids r));
         (key by_alias "on_update" "onUpdate", JStr (fk_action_text (rl_on_update r)));
         (key by_alias "on_delete" "onDelete", JStr (fk_action_text (rl_on_delete r)));
         ("deferrable", JBool (rl_deferrable r));
         (key by_alias "initially_deferred" "initiallyDeferred", JBool (rl_initially_deferred r))].

Definition DesignFunction_document (f : DesignFunction) : json :=
  JDict [("id", JStr (fn_id f)); ("name", JStr (fn_name f)); ("kind", JStr (routine_kind_text (fn_kind f)));
         ("arguments", JStr (fn_arguments f));
         (key by_alias "identity_arguments" "identityArguments", JStr (fn_identity_arguments f));
         (key by_alias "return_type" "returnType", json_opt (fn_return_type f));
         ("language", JStr (fn_language f)); ("definition", JStr (fn_definition f))].

Definition DesignTrigger_document (t : DesignTrigger) : json :=
  JDict [("id", JStr (tr_id t)); ("name", JStr (tr_name t));
         (key by_alias "relation_name" "relationName", JStr (tr_relation_name t));
         ("timing", JStr (timing_text (tr_timing t)));
         ("events", json_strs (event_text <$> tr_events t));
         ("orientation", JStr (orientation_text (tr_orientation t)));
         (key by_alias "function_name" "functionName", JStr (tr_function_name t));
         (key by_alias "function_arguments" "functionArguments", json_strs (tr_function_arguments t));
         (key by_alias "update_columns" "updateColumns", json_strs (tr_update_columns t));
         (key by_alias "referenced_columns" "referencedColumns", json_strs (tr_referenced_columns t));
         (key by_alias "when_expression" "whenExpression", json_opt (tr_when_expression t));
         (key by_alias "transition_relations" "transitionRelations", json_strs (tr_transition_relations t));
         ("constraint", JBool (tr_constraint t)); ("deferrable", JBool (tr_deferrable t));
         (key by_alias "initially_deferred" "initiallyDeferred", JBool (tr_initially_deferred t));
         ("definition", JStr (tr_definition t))].

Definition DesignView_document (v : DesignView) : json :=
  JDict [("id", JStr (vw_id v)); ("name", JStr (vw_name v)); ("kind", JStr (view_kind_text (vw_kind v)));
         ("definition", JStr (vw_definition v));
         (key by_alias "populate_on_create" "populateOnCreate",
            match vw_populate_on_create v with Some b => JBool b | None => JNull end)].

(** [content.model_dump(mode="json", by_alias=by_alias)]. *)
Definition content_document (content : SchemiiDesignContent) : json :=
  JDict [("types", JList (DesignType_document <$> content_types content));
         ("tables", JList (DesignTable_document <$> content_tables content));
         ("relationships", JList (DesignRelationship_document <$> content_relationships content));
         ("functions", JList (DesignFunction_document <$> content_functions content));
         ("views", JList (DesignView_document <$> content_views content));
         ("triggers", JList (DesignTrigger_document <$> content_triggers content))].

(** An object of which only the source is authored. *)
Definition authored_source (id definition : string) : json :=
  JDict [("id", JStr id); ("definition", JStr definition)].

(** The assignments replace the values of existing keys. *)
Definition authored_content_document (content : SchemiiDesignContent) : json :=
  JDict [("types", JList ((fun t => authored_source (dt_id t) (dt_definition t)) <$> content_types content));
         ("tables", JList (DesignTable_document <$> content_tables content));
         ("relationships", JList (DesignRelationship_document <$> content_relationships content));
         ("functions", JList ((fun f => authored_source (fn_id f) (fn_definition f)) <$> content_functions content));
         ("views", JList (DesignView_document <$> content_views content));
         ("triggers", JList ((fun t => authored_source (tr_id t) (tr_definition t)) <$> content_triggers content))].
End documents.

(** ** Canonical text *)

Definition hex_char (n : N) : ascii :=
  ascii_of_N (if bool_decide (n < 10)%N then 48 + n else 87 + n).

(** The escape of one byte with [ensure_ascii=False]. *)
Definition escape_char (c : ascii) : string :=
  let x := byte_of c in
  if bool_decide (x = 34)%N then String "\" (String (ascii_of_nat 34) "")
  else if bool_decide (x = 92)%N then "\\"
  else if bool_decide (x = 10)%N then "\n"
  else if bool_decide (x = 13)%N then "\r"
  else if bool_decide (x = 9)%N then "\t"
  else if bool_decide (x = 12)%N then "\f"
  else if bool_decide (x = 8)%N then "\b"
  else if bool_decide (x < 32)%N then
    ("\u00" ++ String (hex_char (x / 16)) (String (hex_char (x mod 16)) ""))%string
  else String c "".

Fixpoint escape (s : string) : string :=
  match s with
  | EmptyString => EmptyString
  | String c s' => (escape_char c ++ escape s')%string
  end.

Definition quote_text : string := String (ascii_of_nat 34) "".
Definition quoted (s : string) : string := (quote_text ++ escape s ++ quote_text)%string.

Definition item_le (a b : string * string) : Prop := String.le a.1 b.1.
#[export] Instance item_le_dec : RelDecision item_le.
Proof. intros a b. unfold item_le. apply _. Defined.

Definition member_text (kv : string * string) : string := (quoted kv.1 ++ ":" ++ kv.2)%string.

(** [json.dumps(v, ensure_ascii=False, separators=(",", ":"), sort_keys=True)]. *)
Fixpoint json_dumps (v : json) : string :=
  match v with
  | JNull => "null"
  | JBool true => "true"
  | JBool false => "false"
  | JInt z => pretty z
  | JStr s => quoted s
  | JList l => ("[" ++ py_join "," (map json_dumps l) ++ "]")%string
  | JDict d =>
      ("{" ++ py_join "," (map member_text
                (merge_sort item_le (map (fun kv => match kv with (k, x) => (k, json_dumps x) end) d))) ++ "}")%string
  end.

Definition canonical_content (content : SchemiiDesignContent) : string :=
  json_dumps (authored_content_document false content).

(** What the store uses of hashlib. *)
Class Sha256 := { sha256_hex : string -> string }.

Definition design_fingerprint `{Sha256} (content : SchemiiDesignContent) : string :=
  sha256_hex (canonical_content content).

(** ** Design documents are accepted by the delta machinery *)

(** A document both sides of the delta accept. *)
Definition doc_ok (v : json) : Prop := json_wf v /\ json_safe v.

Lemma doc_ok_dict d :
  NoDup (dkeys d) -> Forall (fun k => k ∉ UNSAFE_KEYS) (dkeys d) -> Forall (fun kv => doc_ok kv.2) d ->
  doc_ok (JDict d).
Proof.
  intros Hnd Hs Hd. unfold doc_ok. rewrite json_wf_dict, json_safe_dict. split_and!; try done.
  - eapply Forall_impl; [exact Hd|]. by intros ? [].
  - eapply Forall_impl; [exact Hd|]. by intros ? [].
Qed.

Lemma doc_ok_list {A} (f : A -> json) (l : list A) :
  (Z.of_nat (length l) <= max_safe_integer)%Z -> (forall x, x ∈ l -> doc_ok (f x)) ->
  doc_ok (JList (f <$> l)).
Proof.
  intros Hlen Hf. unfold doc_ok. rewrite json_wf_list, json_safe_list, length_fmap, !Forall_fmap, !Forall_forall.
  split_and!; [|done|]; intros x Hx; by apply Hf.
Qed.

Lemma doc_ok_strs l : (Z.of_nat (length l) <= max_safe_integer)%Z -> doc_ok (json_strs l).
Proof. intros Hl. by apply doc_ok_list. Qed.

Lemma doc_ok_opt o : doc_ok (json_opt o).
Proof. by destruct o. Qed.

Lemma list_check_length {A} (f : A -> bool) lo hi l :
  list_check f lo hi l = true -> (hi <= 20000)%N -> (Z.of_nat (length l) <= max_safe_integer)%Z.
Proof.
  unfold list_check. rewrite andb_true_iff, bool_decide_eq_true. unfold max_safe_integer. lia.
Qed.

Lemma list_check_elem {A} (f : A -> bool) lo hi l x : list_check f lo hi l = true -> x ∈ l -> f x = true.
Proof.
  unfold list_check. rewrite andb_true_iff, forallb_forall. intros [Hf _] Hx. by apply Hf, list_elem_of_In.
Qed.

Create HintDb documents.
#[export] Hint Resolve doc_ok_opt : documents.

(** Splits a record document into its members. *)
Ltac doc_members :=
  apply doc_ok_dict;
    [apply (bool_decide_unpack _); vm_compute; exact I
    |apply (bool_decide_unpack _); vm_compute; exact I
    |rewrite ?Forall_cons; repeat split; auto with documents; try apply doc_ok_opt].

Ltac split_check :=
  repeat match goal with
  | H : (_ && _)%bool = true |- _ => apply andb_true_iff in H; destruct H
  end.

(** A list of texts whose length the model bounds. *)
Ltac doc_strs :=
  match goal with
  | H : list_check _ _ _ ?l = true |- _ =>
      first [apply doc_ok_strs, (list_check_length _ _ _ _ H); lia
            |apply doc_ok_strs; rewrite length_fmap; apply (list_check_length _ _ _ _ H); lia]
  end.

Section documents_ok.
Variable by_alias : bool.

Lemma DesignType_document_ok t : DesignType_check t = true -> doc_ok (DesignType_document by_alias t).
Proof.
  unfold DesignType_check. intros Hc. split_check. destruct by_alias; doc_members; try doc_strs;
    (apply doc_ok_list;
       [match goal with H : list_check DesignDomainCheck_check _ _ _ = true |- _ =>
          apply (list_check_length _ _ _ _ H); lia end
       |intros c _; doc_members]).
Qed.

Lemma DesignColumn_document_ok c : DesignColumn_check c = true -> doc_ok (DesignColumn_document by_alias c).
Proof.
  unfold DesignColumn_check, ids_check. intros Hc. split_check. destruct by_alias; doc_members; doc_strs.
Qed.

Lemma DesignKeyConstraint_document_ok k :
  DesignKeyConstraint_check k = true -> doc_ok (DesignKeyConstraint_document by_alias k).
Proof.
  unfold DesignKeyConstraint_check. intros Hc. split_check. destruct by_alias; doc_members; doc_strs.
Qed.

Lemma DesignCheckConstraint_document_ok k :
  DesignCheckConstraint_check k = true -> doc_ok (DesignCheckConstraint_document by_alias k).
Proof.
  unfold DesignCheckConstraint_check, ids_check. intros Hc. split_check. destruct by_alias; doc_members; doc_strs.
Qed.

Lemma DesignIndex_document_ok i : DesignIndex_check i = true -> doc_ok (DesignIndex_document by_alias i).
Proof.
  unfold DesignIndex_check, ids_check. intros Hc. split_check. destruct by_alias; doc_members; doc_strs.
Qed.

(** A list member whose length and elements the model checks. *)
Lemma doc_ok_checked {A} (f : A -> json) (check : A -> bool) lo hi l :
  list_check check lo hi l = true -> (hi <= 20000)%N ->
  (forall x, check x = true -> doc_ok (f x)) -> doc_ok (JList (f <$> l)).
Proof.
  intros Hl Hhi Hf. apply doc_ok_list; [by eapply list_check_length|].
  intros x Hx. by eapply Hf, list_check_elem.
Qed.

Lemma DesignTable_document_ok t : DesignTable_check t = true -> doc_ok (DesignTable_document by_alias t).
Proof.
  unfold DesignTable_check. intros Hc. split_check.
  doc_members; eapply doc_ok_checked; try eassumption; try lia;
    auto using DesignColumn_document_ok, DesignKeyConstraint_document_ok,
      DesignCheckConstraint_document_ok, DesignIndex_document_ok.
Qed.

Lemma DesignRelationship_document_ok r :
  DesignRelationship_check r = true -> doc_ok (DesignRelationship_document by_alias r).
Proof.
  unfold DesignRelationship_check. intros Hc. split_check. destruct by_alias; doc_members; doc_strs.
Qed.

Lemma DesignFunction_document_ok f : doc_ok (DesignFunction_document by_alias f).
Proof. destruct by_alias; doc_members. Qed.

Lemma DesignTrigger_document_ok t : DesignTrigger_check t = true -> doc_ok (DesignTrigger_document by_alias t).
Proof.
  unfold DesignTrigger_check. intros Hc. split_check. destruct by_alias; doc_members; doc_strs.
Qed.

Lemma DesignView_document_ok v : doc_ok (DesignView_document by_alias v).
Proof. destruct by_alias; doc_members; by destruct (vw_populate_on_create v). Qed.

Lemma content_document_ok content :
  SchemiiDesignContent_check content = true -> doc_ok (content_document by_alias content).
Proof.
  unfold SchemiiDesignContent_check. intros Hc. split_check.
  doc_members; eapply doc_ok_checked; try eassumption; try lia;
    auto using DesignType_document_ok, DesignTable_document_ok, DesignRelationship_document_ok,
      DesignFunction_document_ok, DesignView_document_ok, DesignTrigger_document_ok.
Qed.
End documents_ok.
