(* ===== verification/CanonicalText.v ===== *)
(** * The canonical text determines the authored design

    [json_dumps] is injective on documents without numbers, up to Python equality;
    hence two designs with the same canonical text have the same authored content,
    and two with the same fingerprint do unless SHA-256 collides on their texts. *)

From Stdlib Require Import Ascii String.
From S2P Require Import Prelude Json JsonDelta PyString DesignModels DefinitionAnalysis.
From S2P Require Import DesignValidation DeletionImpact DesignDocument.
Open Scope string_scope.

(** ** Reading escapes back *)

Definition hex_value (c : ascii) : N :=
  let x := byte_of c in if bool_decide (x < 58)%N then (x - 48)%N else (x - 87)%N.

(** The character an escaped text starts with, and the rest. *)
Definition unescape_one (s : string) : option (ascii * string) :=
  match s with
  | EmptyString => None
  | String a s1 =>
      let x := byte_of a in
      if bool_decide (x = 34)%N then None
      else if bool_decide (x = 92)%N then
        match s1 with
        | EmptyString => None
        | String b s2 =>
            let y := byte_of b in
            if bool_decide (y = 110)%N then Some (ascii_of_N 10, s2)
            else if bool_decide (y = 114)%N then Some (ascii_of_N 13, s2)
            else if bool_decide (y = 116)%N then Some (ascii_of_N 9, s2)
            else if bool_decide (y = 102)%N then Some (ascii_of_N 12, s2)
            else if bool_decide (y = 98)%N then Some (ascii_of_N 8, s2)
            else if bool_decide (y = 117)%N then
              match s2 with
              | String _ (String _ (String h (String l s3))) =>
                  Some (ascii_of_N (hex_value h * 16 + hex_value l), s3)
              | _ => None
              end
            else Some (b, s2)
        end
      else Some (a, s1)
  end.

Lemma unescape_escape c r : unescape_one (escape_char c ++ r) = Some (c, r).
Proof. destruct c as [[] [] [] [] [] [] [] []]; reflexivity. Qed.

Lemma escape_inj s s' r r' :
  escape s ++ quote_text ++ r = escape s' ++ quote_text ++ r' -> s = s' /\ r = r'.
Proof.
  revert s'. induction s as [|c s IH]; intros [|c' s']; cbn [escape].
  - intros H. by injection H.
  - rewrite str_app_assoc. intros H. apply (f_equal unescape_one) in H. by rewrite unescape_escape in H.
  - rewrite str_app_assoc. intros H. apply (f_equal unescape_one) in H. by rewrite unescape_escape in H.
  - rewrite !str_app_assoc. intros H. apply (f_equal unescape_one) in H.
    rewrite !unescape_escape in H. injection H as -> H. apply IH in H as [-> ->]. done.
Qed.

Lemma quoted_inj s s' r r' : quoted s ++ r = quoted s' ++ r' -> s = s' /\ r = r'.
Proof.
  unfold quoted. rewrite !str_app_assoc. intros H. injection H as H. by apply escape_inj.
Qed.

(** ** Separated items *)

Section items.
Context {A : Type} (text : A -> string) (R : A -> A -> Prop).

(** Reading one item leaves the same rest. *)
Definition readable (x y : A) : Prop :=
  forall r r', text x ++ r = text y ++ r' -> R x y /\ r = r'.

(** The items after the first one, each with its comma. *)
Fixpoint tail_text (l : list A) (rest : string) : string :=
  match l with
  | [] => rest
  | x :: l' => "," ++ text x ++ tail_text l' rest
  end.

Lemma join_tail x l rest : py_join "," (map text (x :: l)) ++ rest = text x ++ tail_text l rest.
Proof.
  revert x. induction l as [|y l IH]; intros x; [done|].
  change (py_join "," (map text (x :: y :: l))) with (text x ++ "," ++ py_join "," (map text (y :: l))).
  rewrite !str_app_assoc, IH. done.
Qed.

Lemma tail_inj close l l' r r' :
  close <> ","%char -> (forall x y, x ∈ l -> y ∈ l' -> readable x y) ->
  tail_text l (String close r) = tail_text l' (String close r') -> Forall2 R l l' /\ r = r'.
Proof.
  intros Hclose. revert l'. induction l as [|x l IH]; intros [|y l'] Hr; cbn [tail_text].
  - intros H. injection H as ->. done.
  - intros H. injection H as Hc _. by destruct Hclose.
  - intros H. injection H as Hc _. by destruct Hclose.
  - intros H. injection H as H. apply (Hr x y) in H as [? H]; [|left|left].
    apply IH in H as [? ->]; [by split; [constructor|]|].
    intros. apply Hr; by right.
Qed.

Lemma join_inj close l l' r r' :
  close <> ","%char -> (forall x y, x ∈ l -> y ∈ l' -> readable x y) ->
  (forall x r r', x ∈ l \/ x ∈ l' -> text x ++ r <> String close r') ->
  py_join "," (map text l) ++ String close r = py_join "," (map text l') ++ String close r' ->
  Forall2 R l l' /\ r = r'.
Proof.
  intros Hclose Hr Hhead. destruct l as [|x l], l' as [|y l']; rewrite ?join_tail.
  - simpl. intros H. injection H as ->. done.
  - simpl. intros H. symmetry in H. apply Hhead in H; [done|right; left].
  - simpl. intros H. apply Hhead in H; [done|left; left].
  - intros H. apply (Hr x y) in H as [? H]; [|left|left].
    apply tail_inj in H as [? ->]; [by split; [constructor|]|done|]. intros. apply Hr; by right.
Qed.
End items.

(** ** Documents *)

(** Documents without numbers; design documents have none. *)
Fixpoint no_ints (v : json) : Prop :=
  match v with
  | JInt _ => False
  | JList l => (fix go l := match l with [] => True | x :: l' => no_ints x /\ go l' end) l
  | JDict d => (fix go d := match d with [] => True | kv :: d' => no_ints kv.2 /\ go d' end) d
  | _ => True
  end.

Lemma no_ints_list l : no_ints (JList l) <-> Forall no_ints l.
Proof. induction l as [|x l IH]; simpl; [split; [constructor|done]|]. by rewrite Forall_cons, <-IH. Qed.

Lemma no_ints_dict d : no_ints (JDict d) <-> Forall (fun kv => no_ints kv.2) d.
Proof. induction d as [|x d IH]; simpl; [split; [constructor|done]|]. by rewrite Forall_cons, <-IH. Qed.

Definition printable (v : json) : Prop := json_wf v /\ no_ints v.

(** No text of a document starts with a bracket that closes or with a comma. *)
Lemma dumps_head v r c r' :
  no_ints v -> c ∈ ["]"%char; "}"%char] -> json_dumps v ++ r <> String c r'.
Proof.
  intros Hv Hc H. destruct v as [|[]| | | |]; try done; simpl in H; injection H as H _; subst;
    rewrite !elem_of_cons, elem_of_nil in Hc; destruct Hc as [Hc|[Hc|[]]]; discriminate Hc.
Qed.

Definition dumped_member (kv : string * json) : string * string :=
  match kv with (k, x) => (k, json_dumps x) end.

Lemma sorted_members d kt :
  kt ∈ merge_sort item_le (map dumped_member d) <-> exists v, (kt.1, v) ∈ d /\ kt.2 = json_dumps v.
Proof.
  rewrite merge_sort_Permutation. setoid_rewrite list_elem_of_fmap. split.
  - intros ([k v] & -> & Hin). simpl. eauto.
  - intros (v & Hin & Ht). exists (kt.1, v). split; [|done]. destruct kt; simpl in *. by subst.
Qed.

(** Printed members of two dictionaries that print equal values. *)
Definition member_rel (d d' : list (string * json)) (a b : string * string) : Prop :=
  a.1 = b.1 /\ exists x y, (a.1, x) ∈ d /\ a.2 = json_dumps x /\
    (b.1, y) ∈ d' /\ b.2 = json_dumps y /\ py_eq x y = true.

(** One direction of dictionary equality from the sorted members. *)
Lemma members_cover d d' k v :
  dwf d -> dwf d' ->
  Forall2 (member_rel d d') (merge_sort item_le (map dumped_member d))
    (merge_sort item_le (map dumped_member d')) ->
  dget k d = Some v -> exists w, dget k d' = Some w /\ py_eq v w = true.
Proof.
  intros Hd Hd' HR Hv. apply dget_Some_elem in Hv.
  assert (Hin : (k, json_dumps v) ∈ merge_sort item_le (map dumped_member d)).
  { apply sorted_members. simpl. eauto. }
  apply list_elem_of_lookup in Hin as [i Hi].
  destruct (Forall2_lookup_l _ _ _ _ _ HR Hi) as ([k' t] & _ & Hk & x & y & Hx & _ & Hy & _ & He).
  simpl in *. subst k'. exists y. split; [by apply dget_elem_wf|].
  apply dget_elem_wf in Hx, Hv; [|done..]. congruence.
Qed.

Lemma dumps_inj v v' r r' :
  printable v -> printable v' -> json_dumps v ++ r = json_dumps v' ++ r' ->
  py_eq v v' = true /\ r = r'.
Proof.
  intros Hv Hv'. revert v' r r' Hv Hv'.
  induction v as [|b|z|s|l IH|d IH] using json_nested_ind;
    intros [|b'|z'|s'|l'|d'] r r' [Hw Hn] [Hw' Hn']; try done;
    try (destruct b); try (destruct b');
    try (cbn [json_dumps]; intros H; first [discriminate H|injection H; naive_solver]).
  - cbn [json_dumps]. intros [-> ->]%quoted_inj. split; [|done]. simpl. by apply bool_decide_eq_true.
  - apply no_ints_list in Hn, Hn'. apply json_wf_list in Hw, Hw'.
    rewrite Forall_forall in IH, Hn, Hn', Hw, Hw'.
    cbn [json_dumps]. rewrite !str_app_assoc. intros H. injection H as H.
    apply (join_inj json_dumps (fun x y => py_eq x y = true)) in H as [HR ->]; [|done|..].
    + split; [by apply py_eq_list|done].
    + intros x y Hx Hy r0 r0' H0. apply IH; [done|split; auto|split; auto|done].
    + intros x r0 r0' Hx. apply dumps_head; [|left]. naive_solver.
  - apply no_ints_dict in Hn, Hn'. apply json_wf_dict in Hw as [Hd Hw], Hw' as [Hd' Hw'].
    rewrite Forall_forall in IH, Hn, Hn', Hw, Hw'.
    cbn [json_dumps]. rewrite !str_app_assoc. intros H. injection H as H.
    fold dumped_member in H.
    apply (join_inj member_text (member_rel d d')) in H as [HR ->]; [|done|..].
    + split; [|done]. simpl. apply andb_true_iff. split.
      * apply bool_decide_eq_true. apply Forall2_length in HR.
        by rewrite !(Permutation_length (merge_sort_Permutation _ _)), !length_map in HR.
      * apply forallb_iff, Forall_forall. intros [k x] Hx. simpl.
        destruct (members_cover d d' k x Hd Hd' HR) as (w & -> & ?); [by apply dget_elem_wf|done].
    + intros [k t] [k' t'] (x & Hx & Ht)%sorted_members (y & Hy & Ht')%sorted_members r0 r0' H0.
      simpl in *. subst t t'. unfold member_text in H0. simpl in H0. rewrite !str_app_assoc in H0.
      apply quoted_inj in H0 as [<- H0]. injection H0 as H0.
      apply (IH (k, x) Hx) in H0 as [? ->];
        [|split; [by apply (Hw (k, x))|by apply (Hn (k, x))]|split; [by apply (Hw' (k, y))|by apply (Hn' (k, y))]].
      split; [|done]. split; [done|]. exists x, y. done.
    + by intros [k t] r0 r0' _ [=].
Qed.

(** ** Authored documents *)

Lemma printable_dict d : NoDup (dkeys d) -> Forall (fun kv => printable kv.2) d -> printable (JDict d).
Proof.
  intros Hnd Hd. unfold printable. rewrite json_wf_dict, no_ints_dict. split_and!; [done|..];
    (eapply Forall_impl; [exact Hd|]); by intros ? [].
Qed.

Lemma printable_list {A} (f : A -> json) l : (forall x, printable (f x)) -> printable (JList (f <$> l)).
Proof.
  intros Hf. unfold printable. rewrite json_wf_list, no_ints_list, !Forall_fmap, !Forall_forall.
  split; intros x _; apply Hf.
Qed.

Lemma printable_strs l : printable (json_strs l).
Proof. by apply printable_list. Qed.

Lemma printable_opt o : printable (json_opt o).
Proof. by destruct o. Qed.

Ltac printable :=
  apply printable_dict;
    [apply (bool_decide_unpack _); vm_compute; exact I
    |rewrite ?Forall_cons; repeat match goal with |- _ /\ _ => split end; cbn [snd];
     first [apply printable_strs|apply printable_opt|apply printable_list|apply Forall_nil_2|done|idtac]].

Lemma DesignTable_printable t : printable (DesignTable_document false t).
Proof. printable; intros x; printable. Qed.

Lemma DesignRelationship_printable r : printable (DesignRelationship_document false r).
Proof. printable. Qed.

Lemma DesignView_printable v : printable (DesignView_document false v).
Proof. printable; by destruct (vw_populate_on_create v). Qed.

Lemma authored_printable content : printable (authored_content_document false content).
Proof.
  printable; auto using DesignTable_printable, DesignRelationship_printable, DesignView_printable;
    intros x; printable.
Qed.

(** Equal dictionaries have equal members. *)
Lemma member_eq d e k v w :
  dwf d -> dwf e -> py_eq (JDict d) (JDict e) = true ->
  dget k d = Some v -> dget k e = Some w -> py_eq v w = true.
Proof.
  intros Hd He Heq Hv Hw. apply py_eq_dict in Heq; [|done..]. specialize (Heq k).
  rewrite Hv, Hw in Heq. by inversion Heq.
Qed.

(** Adds the equality of the member with key [k]. *)
Ltac member H k :=
  let Hm := fresh "Hm" in
  unshelve epose proof (member_eq _ _ k _ _ _ _ H eq_refl eq_refl) as Hm;
  [apply (bool_decide_unpack _); vm_compute; exact I
  |apply (bool_decide_unpack _); vm_compute; exact I|].

Lemma py_eq_str s t : py_eq (JStr s) (JStr t) = true -> s = t.
Proof. simpl. apply bool_decide_eq_true. Qed.

Lemma py_eq_bool a b : py_eq (JBool a) (JBool b) = true -> a = b.
Proof. by destruct a, b. Qed.

Lemma py_eq_opt a b : py_eq (json_opt a) (json_opt b) = true -> a = b.
Proof. destruct a, b; simpl; try done. by intros ->%bool_decide_eq_true. Qed.

Lemma py_eq_map {A} (f : A -> json) (l m : list A) :
  (forall x y, py_eq (f x) (f y) = true -> x = y) -> py_eq (JList (f <$> l)) (JList (f <$> m)) = true -> l = m.
Proof.
  intros Hf Hlm. apply py_eq_list in Hlm. revert m Hlm.
  induction l as [|x l IH]; intros [|y m]; csimpl; inversion 1; subst; [done|]. f_equal; auto.
Qed.

Lemma py_eq_strs l m : py_eq (json_strs l) (json_strs m) = true -> l = m.
Proof. apply py_eq_map. intros x y. apply py_eq_str. Qed.

Ltac read_members :=
  repeat match goal with
  | H : py_eq (JStr _) (JStr _) = true |- _ => apply py_eq_str in H
  | H : py_eq (JBool _) (JBool _) = true |- _ => apply py_eq_bool in H
  | H : py_eq (json_opt _) (json_opt _) = true |- _ => apply py_eq_opt in H
  | H : py_eq (json_strs _) (json_strs _) = true |- _ => apply py_eq_strs in H
  end.

Lemma column_document_inj x y : py_eq (DesignColumn_document false x) (DesignColumn_document false y) = true -> x = y.
Proof.
  intros H. member H "id". member H "name". member H "data_type". member H "nullable".
  member H "default_expression". member H "identity". member H "generated_expression".
  member H "generated_source_column_ids". clear H. read_members. destruct x, y; simpl in *.
  assert (dc_identity = dc_identity0) by by destruct dc_identity as [[]|], dc_identity0 as [[]|]. by subst.
Qed.

Lemma key_document_inj x y :
  py_eq (DesignKeyConstraint_document false x) (DesignKeyConstraint_document false y) = true -> x = y.
Proof.
  intros H. member H "id". member H "name". member H "kind". member H "column_ids". clear H.
  read_members. destruct x, y; simpl in *. assert (dk_kind = dk_kind0) by by destruct dk_kind, dk_kind0. by subst.
Qed.

Lemma check_document_inj x y :
  py_eq (DesignCheckConstraint_document false x) (DesignCheckConstraint_document false y) = true -> x = y.
Proof.
  intros H. member H "id". member H "name". member H "expression". member H "column_ids". clear H.
  read_members. destruct x, y; simpl in *. by subst.
Qed.

Lemma index_document_inj x y : py_eq (DesignIndex_document false x) (DesignIndex_document false y) = true -> x = y.
Proof.
  intros H. member H "id". member H "name". member H "method". member H "column_ids".
  member H "include_column_ids". member H "expression". member H "expression_source_column_ids".
  member H "predicate". member H "predicate_column_ids". member H "unique". clear H.
  read_members. destruct x, y; simpl in *. by subst.
Qed.

Lemma table_document_inj x y : py_eq (DesignTable_document false x) (DesignTable_document false y) = true -> x = y.
Proof.
  intros H. member H "id". member H "name". member H "columns". member H "keys". member H "checks".
  member H "indexes". clear H. read_members.
  repeat match goal with H : py_eq (JList _) (JList _) = true |- _ =>
    apply py_eq_map in H; [|eauto using column_document_inj, key_document_inj, check_document_inj, index_document_inj] end.
  destruct x, y; simpl in *. by subst.
Qed.

Lemma relationship_document_inj x y :
  py_eq (DesignRelationship_document false x) (DesignRelationship_document false y) = true -> x = y.
Proof.
  intros H. member H "id". member H "name". member H "source_table_id". member H "source_column_ids".
  member H "target_table_id". member H "target_column_ids". member H "on_update". member H "on_delete".
  member H "deferrable". member H "initially_deferred". clear H. read_members. destruct x, y; simpl in *.
  assert (rl_on_update = rl_on_update0) by by destruct rl_on_update, rl_on_update0.
  assert (rl_on_delete = rl_on_delete0) by by destruct rl_on_delete, rl_on_delete0. by subst.
Qed.

Lemma view_document_inj x y : py_eq (DesignView_document false x) (DesignView_document false y) = true -> x = y.
Proof.
  intros H. member H "id". member H "name". member H "kind". member H "definition".
  member H "populate_on_create". clear H. read_members. destruct x, y; simpl in *.
  assert (vw_kind = vw_kind0) by by destruct vw_kind, vw_kind0.
  assert (vw_populate_on_create = vw_populate_on_create0)
    by by destruct vw_populate_on_create as [[]|], vw_populate_on_create0 as [[]|]. by subst.
Qed.

(** What a user authors: complete tables, relationships and views, and the source
    of types, routines and triggers. *)
Record authored_eq (a b : SchemiiDesignContent) : Prop := {
  ae_types : (fun t => (dt_id t, dt_definition t)) <$> content_types a =
             (fun t => (dt_id t, dt_definition t)) <$> content_types b;
  ae_tables : content_tables a = content_tables b;
  ae_relationships : content_relationships a = content_relationships b;
  ae_functions : (fun f => (fn_id f, fn_definition f)) <$> content_functions a =
                 (fun f => (fn_id f, fn_definition f)) <$> content_functions b;
  ae_views : content_views a = content_views b;
  ae_triggers : (fun t => (tr_id t, tr_definition t)) <$> content_triggers a =
                (fun t => (tr_id t, tr_definition t)) <$> content_triggers b;
}.

Lemma sources_document {A} (f g : A -> string) (l : list A) :
  (fun x => authored_source (f x) (g x)) <$> l =
  (fun p => authored_source p.1 p.2) <$> ((fun x => (f x, g x)) <$> l).
Proof. by rewrite <-list_fmap_compose. Qed.

Lemma source_document_inj (p q : string * string) :
  py_eq (authored_source p.1 p.2) (authored_source q.1 q.2) = true -> p = q.
Proof.
  intros H. member H "id". member H "definition". clear H. read_members. destruct p, q; simpl in *. by subst.
Qed.

Lemma canonical_authored a b : canonical_content a = canonical_content b <-> authored_eq a b.
Proof.
  split.
  - intros Heq. assert (H : py_eq (authored_content_document false a) (authored_content_document false b) = true).
    { apply (dumps_inj _ _ "" ""); [apply authored_printable..|]. unfold canonical_content in Heq. by rewrite Heq. }
    clear Heq. member H "types". member H "tables". member H "relationships". member H "functions".
    member H "views". member H "triggers". clear H.
    rewrite !(sources_document dt_id dt_definition), !(sources_document fn_id fn_definition),
      !(sources_document tr_id tr_definition) in *.
    repeat match goal with H : py_eq (JList _) (JList _) = true |- _ =>
      apply py_eq_map in H; [|eauto using source_document_inj, table_document_inj, relationship_document_inj,
                               view_document_inj] end.
    by split.
  - intros [H1 H2 H3 H4 H5 H6]. unfold canonical_content, authored_content_document.
    rewrite !(sources_document dt_id dt_definition), !(sources_document fn_id fn_definition),
      !(sources_document tr_id tr_definition). by rewrite H1, H2, H3, H4, H5, H6.
Qed.

(** Two designs have the same canonical text exactly when their authored
    content is the same: complete tables, relationships and views in order, and
    the identity and source of every type, routine and trigger. *)
Theorem canonical_content_exact a b : canonical_content a = canonical_content b <-> authored_eq a b.
Proof. apply canonical_authored. Qed.
