(* ===== verification/DesignStore.v ===== *)
(** * The design repository

    [InMemoryDesignRepository] of [designs/store.py] with [_history_state] and
    [_MemoryHistoryEntry]: designs, layouts and undo histories per owner and
    workspace.  Every method is a [method] over the repository record; the
    repository lock makes them atomic, so a run is a sequence of calls.

    - [guard] is the answer of the mutation guard callback at the call (always
      false when no guard is set), [now] the clock at the call;
    - the walk from the tip to the root of a history runs with one unit of fuel
      per stored entry and one more; [active_chain_spec] shows it is enough in
      every reachable repository;
    - object identity is not modelled: the repository copies what it stores and
      returns, so no caller shares its values;
    - the patterns of [SchemiiDesign]'s workspace ID and fingerprint fields hold
      for route parameters and SHA-256 digests and are not checked again here. *)

From stdpp Require Import pretty.
From Stdlib Require Import Ascii String.
From S2P Require Import Prelude Json JsonDelta HistoryRetention PyString DesignModels.
From S2P Require Import DefinitionAnalysis DesignValidation DeletionImpact HistorySummary DesignDocument.
Open Scope string_scope.
Open Scope method_scope.

(** ** State *)

Record MemoryHistoryEntry := {
  he_id : Z;
  he_parent_id : option Z;
  he_source_design_revision : Z;
  he_operation_kind : string;
  he_operation_group_id : option string;
  he_content : SchemiiDesignContent;
  he_created_at : Z;
}.

#[export] Instance MemoryHistoryEntry_entry : HistoryEntry MemoryHistoryEntry := {
  entry_id := he_id;
  operation_group_id := he_operation_group_id;
}.

Abbreviation design_key := (string * string)%type.
Abbreviation position_dict := (list (string * DesignObjectPosition)).

Record DesignRepo := {
  rp_designs : gmap design_key SchemiiDesign;
  rp_layouts : gmap design_key SchemiiDesignLayout;
  rp_history : gmap design_key (gmap Z MemoryHistoryEntry);
  rp_history_state : gmap design_key (Z * Z);
  rp_position_memory : gmap design_key position_dict;
  rp_next_history_id : Z;
  rp_history_action_limit : nat;
}.

Definition set_designs d r := {| rp_designs := d; rp_layouts := rp_layouts r; rp_history := rp_history r;
  rp_history_state := rp_history_state r; rp_position_memory := rp_position_memory r;
  rp_next_history_id := rp_next_history_id r; rp_history_action_limit := rp_history_action_limit r |}.
Definition set_layouts l r := {| rp_designs := rp_designs r; rp_layouts := l; rp_history := rp_history r;
  rp_history_state := rp_history_state r; rp_position_memory := rp_position_memory r;
  rp_next_history_id := rp_next_history_id r; rp_history_action_limit := rp_history_action_limit r |}.
Definition set_history h r := {| rp_designs := rp_designs r; rp_layouts := rp_layouts r; rp_history := h;
  rp_history_state := rp_history_state r; rp_position_memory := rp_position_memory r;
  rp_next_history_id := rp_next_history_id r; rp_history_action_limit := rp_history_action_limit r |}.
Definition set_history_state h r := {| rp_designs := rp_designs r; rp_layouts := rp_layouts r;
  rp_history := rp_history r; rp_history_state := h; rp_position_memory := rp_position_memory r;
  rp_next_history_id := rp_next_history_id r; rp_history_action_limit := rp_history_action_limit r |}.
Definition set_position_memory m r := {| rp_designs := rp_designs r; rp_layouts := rp_layouts r;
  rp_history := rp_history r; rp_history_state := rp_history_state r; rp_position_memory := m;
  rp_next_history_id := rp_next_history_id r; rp_history_action_limit := rp_history_action_limit r |}.
Definition set_next_history_id n r := {| rp_designs := rp_designs r; rp_layouts := rp_layouts r;
  rp_history := rp_history r; rp_history_state := rp_history_state r;
  rp_position_memory := rp_position_memory r; rp_next_history_id := n;
  rp_history_action_limit := rp_history_action_limit r |}.

(** [__init__]; [None] is the rejected limit. *)
Definition InMemoryDesignRepository (history_action_limit : Z) : option DesignRepo :=
  if bool_decide (history_action_limit < 1)%Z then None else
  Some {| rp_designs := ∅; rp_layouts := ∅; rp_history := ∅; rp_history_state := ∅;
          rp_position_memory := ∅; rp_next_history_id := 1;
          rp_history_action_limit := Z.to_nat history_action_limit |}.

(** ** History views *)

Record DesignHistoryAction := {
  ha_title : string;
  ha_change_count : nat;
  ha_crosses_baseline : bool;
  ha_delta : list delta_op;
}.

Record DesignHistoryState := {
  hs_design_revision : Z;
  hs_can_undo : bool;
  hs_can_redo : bool;
  hs_undo : option DesignHistoryAction;
  hs_redo : option DesignHistoryAction;
  hs_baseline : DesignHistoryBaseline;
  hs_can_reset_to_baseline : bool;
  hs_reset_blocked_reason : option string;
  hs_retained_action_limit : nat;
}.

Record DesignWorkspaceSnapshot := {
  snap_design : SchemiiDesign;
  snap_layout : SchemiiDesignLayout;
  snap_history : DesignHistoryState;
}.

Definition layer_text (l : layer_kind) : string :=
  match l with LTables => "tables" | LViews => "views" end.

Section store.
Context `{Pglast} `{Sqlglot} `{Sha256}.
Variable query_sources : string -> json -> option (list (string * list string)).
Variable casefold : string -> string.
Variable set_order : list string -> list string.

Abbreviation repo_method := (method DesignRepo design_error).

(** ** Private helpers *)

Definition empty_design (workspace_id : string) : SchemiiDesign :=
  {| design_workspace_id := workspace_id; design_revision := 0;
     design_content := EMPTY_DESIGN_CONTENT;
     design_fingerprint_field := design_fingerprint EMPTY_DESIGN_CONTENT |}.

(** [_design]. *)
Definition current_design (r : DesignRepo) (k : design_key) : SchemiiDesign :=
  match rp_designs r !! k with Some d => d | None => empty_design k.2 end.

(** [_layout]. *)
Definition current_layout (r : DesignRepo) (k : design_key) (design_revision : Z) : SchemiiDesignLayout :=
  match rp_layouts r !! k with
  | Some l => l
  | None => {| layout_workspace_id := k.2; layout_revision := 0;
               layout_design_revision := design_revision;
               layout_content := {| layout_objects := [] |} |}
  end.

Definition position_allowed (content : SchemiiDesignContent) (p : DesignObjectPosition) : bool :=
  bool_decide (dget (pos_object_id p) (design_object_ids content) = Some (pos_layer p)).

Definition memory_of (r : DesignRepo) (k : design_key) : position_dict :=
  match rp_position_memory r !! k with Some m => m | None => [] end.

Definition remember (objects : list DesignObjectPosition) (m : position_dict) : position_dict :=
  dict_fill pos_object_id (fun p => p) objects m.

(** The constructor of [SchemiiDesignLayoutContent]; positions were validated before. *)
Definition make_layout_content (objects : list DesignObjectPosition)
    : checked SchemiiDesignLayoutContent :=
  result_bind (guard_err (bool_decide (20000 < N.of_nat (length objects))%N) (PydanticErrorRaised "objects"))
    (fun _ => result_bind (guard_err (negb (bool_decide (NoDup (pos_object_id <$> objects))))
                             (PydanticErrorRaised "objects"))
    (fun _ => Ok {| layout_objects := objects |})).

(** The positions [_advance_layout] keeps and those it restores from memory. *)
Definition advanced_objects (content : SchemiiDesignContent) (current : list DesignObjectPosition)
    (memory : position_dict) : list DesignObjectPosition :=
  let objects := filter (fun p => position_allowed content p = true) current in
  let retained_ids := pos_object_id <$> objects in
  (objects ++ omap (fun entry =>
     if bool_decide (entry.1 ∉ retained_ids)
        && bool_decide (dget entry.1 (design_object_ids content) = Some (pos_layer entry.2))
     then Some entry.2 else None) memory)%list.

Definition advance_layout (k : design_key) (design : SchemiiDesign) : repo_method unit :=
  let* r := m_get in
  let current := current_layout r k (design_revision design - 1) in
  let* content := m_lift (make_layout_content
    (advanced_objects (design_content design) (layout_objects (layout_content current)) (memory_of r k))) in
  m_update (fun r => set_layouts (<[k := {|
      layout_workspace_id := k.2; layout_revision := layout_revision current + 1;
      layout_design_revision := design_revision design; layout_content := content |}]> (rp_layouts r)) r).

(** [_guard_mutation]. *)
Definition guard_mutation (guard : bool) (operation_kind : string) : repo_method unit :=
  m_guard (negb (bool_decide (operation_kind = "checkpoint")) && guard) DesignMutationBlockedError.

Definition history_of (r : DesignRepo) (k : design_key) : gmap Z MemoryHistoryEntry :=
  match rp_history r !! k with Some h => h | None => ∅ end.

Definition new_history_entry (now : Z) (k : design_key) (parent_id : option Z)
    (source_design_revision : Z) (operation_kind : string) (operation_group_id : option string)
    (content : SchemiiDesignContent) : repo_method MemoryHistoryEntry :=
  let* r := m_get in
  let entry := {| he_id := rp_next_history_id r; he_parent_id := parent_id;
                  he_source_design_revision := source_design_revision;
                  he_operation_kind := operation_kind; he_operation_group_id := operation_group_id;
                  he_content := content; he_created_at := now |} in
  m_update (fun r => set_history (<[k := <[he_id entry := entry]> (history_of r k)]> (rp_history r))
                       (set_next_history_id (rp_next_history_id r + 1) r)) ;;*
  m_return entry.

Definition set_cursor (k : design_key) (cursor tip : Z) : repo_method unit :=
  m_update (fun r => set_history_state (<[k := (cursor, tip)]> (rp_history_state r)) r).

Definition ensure_history (now : Z) (k : design_key) (design : SchemiiDesign) : repo_method unit :=
  let* r := m_get in
  match rp_history_state r !! k with
  | Some _ => m_return tt
  | None =>
      let* entry := new_history_entry now k None (design_revision design) "initial" None
                      (design_content design) in
      set_cursor k (he_id entry) (he_id entry) ;;*
      m_update (fun r => set_position_memory (<[k := memory_of r k]> (rp_position_memory r)) r)
  end.

(** The [while] loop of [_active_chain]; the chain from [current] down, nearest first. *)
Fixpoint chain_up (by_id : gmap Z MemoryHistoryEntry) (fuel : nat) (current : option Z)
    : checked (list MemoryHistoryEntry) :=
  match current with
  | None => Ok []
  | Some i =>
      match fuel with
      | 0 => Err OutOfFuel
      | S fuel' =>
          match by_id !! i with
          | None => Err (KeyErrorRaised (pretty i))
          | Some entry =>
              result_bind (chain_up by_id fuel' (he_parent_id entry)) (fun rest => Ok (entry :: rest))
          end
      end
  end.

Definition key_text (k : design_key) : string := k.1 ++ "," ++ k.2.

(** [_active_chain]: root first, with the index of the cursor. *)
Definition active_chain (r : DesignRepo) (k : design_key) : checked (list MemoryHistoryEntry * nat) :=
  match rp_history_state r !! k, rp_history r !! k with
  | Some (cursor_id, tip_id), Some by_id =>
      result_bind (chain_up by_id (S (size by_id)) (Some tip_id)) (fun up =>
        let chain := reverse up in
        match list_find (fun e => he_id e = cursor_id) chain with
        | Some (index, _) => Ok (chain, index)
        | None => Err StopIterationRaised
        end)
  | _, _ => Err (KeyErrorRaised (key_text k))
  end.

(** The loop of [_prune_history]: parents are relinked along the retained entries. *)
Fixpoint relink (previous_id : option Z) (retained : list MemoryHistoryEntry) : list MemoryHistoryEntry :=
  match retained with
  | [] => []
  | e :: rest =>
      {| he_id := he_id e; he_parent_id := previous_id;
         he_source_design_revision := he_source_design_revision e;
         he_operation_kind := he_operation_kind e; he_operation_group_id := he_operation_group_id e;
         he_content := he_content e; he_created_at := he_created_at e |} :: relink (Some (he_id e)) rest
  end.

Definition entries_by_id (entries : list MemoryHistoryEntry) : gmap Z MemoryHistoryEntry :=
  foldl (fun m e => <[he_id e := e]> m) ∅ entries.

Definition prune_history (k : design_key) : repo_method unit :=
  let* r := m_get in
  let* chain := m_lift (active_chain r k) in
  let retained := retained_history_entries chain.1 (rp_history_action_limit r) in
  m_update (fun r => set_history (<[k := entries_by_id (relink None retained)]> (rp_history r)) r).

(** ** Public operations *)

(** The loop over the positions of a submitted layout. *)
Definition check_positions (message : string) (content : SchemiiDesignContent)
    (objects : list DesignObjectPosition) : checked unit :=
  for_each (fun p => guard_err (negb (position_allowed content p))
    (DesignValidationError message
       [("objectId", JStr (pos_object_id p)); ("layer", JStr (layer_text (pos_layer p)))])) objects.

Definition initialize (now : Z) (owner_id workspace_id : string) (content : SchemiiDesignContent)
    (layout : SchemiiDesignLayoutContent) : repo_method (SchemiiDesign * SchemiiDesignLayout) :=
  let k := (owner_id, workspace_id) in
  m_lift (validate_design_content content) ;;*
  m_lift (check_positions "Initial layout positions must reference imported design objects" content
            (layout_objects layout)) ;;*
  let* r := m_get in
  match rp_designs r !! k with
  | Some current => m_raise (DesignConflictError (design_revision current))
  | None =>
      let design := {| design_workspace_id := workspace_id; design_revision := 1;
                       design_content := content;
                       design_fingerprint_field := design_fingerprint content |} in
      let saved_layout := {| layout_workspace_id := workspace_id; layout_revision := 1;
                             layout_design_revision := 1; layout_content := layout |} in
      m_update (fun r => set_layouts (<[k := saved_layout]> (rp_layouts r))
                           (set_designs (<[k := design]> (rp_designs r)) r)) ;;*
      let* entry := new_history_entry now k None (design_revision design) "initial" None
                      (design_content design) in
      set_cursor k (he_id entry) (he_id entry) ;;*
      m_update (fun r => set_position_memory
        (<[k := remember (layout_objects layout) []]> (rp_position_memory r)) r) ;;*
      m_return (design, saved_layout)
  end.

Definition discard_initialization (owner_id workspace_id : string) : repo_method unit :=
  let k := (owner_id, workspace_id) in
  m_update (fun r =>
    {| rp_designs := delete k (rp_designs r); rp_layouts := delete k (rp_layouts r);
       rp_history := delete k (rp_history r); rp_history_state := delete k (rp_history_state r);
       rp_position_memory := delete k (rp_position_memory r);
       rp_next_history_id := rp_next_history_id r;
       rp_history_action_limit := rp_history_action_limit r |}).

Definition get (owner_id workspace_id : string) : repo_method SchemiiDesign :=
  let* r := m_get in m_return (current_design r (owner_id, workspace_id)).

(** [ValueError]s of the transition check become validation errors. *)
Definition checked_transition (before after : SchemiiDesignContent) : checked unit :=
  match validate_design_transition query_sources casefold set_order before after with
  | Err (ValueErrorRaised message) =>
      Err (DesignValidationError message [("reason", JStr "dependent_object")])
  | other => other
  end.

(** The end of [replace]: the revised design, its history entry and its layout. *)
Definition save_revision (now : Z) (k : design_key) (revised : SchemiiDesign) (operation_kind : string)
    (history_group_id : option string) : repo_method SchemiiDesign :=
  m_update (fun r => set_designs (<[k := revised]> (rp_designs r)) r) ;;*
  let* r := m_get in
  match rp_history_state r !! k with
  | None => m_raise (KeyErrorRaised (key_text k))
  | Some (cursor_id, _) =>
      let* entry := new_history_entry now k (Some cursor_id) (design_revision revised) operation_kind
                      history_group_id (design_content revised) in
      set_cursor k (he_id entry) (he_id entry) ;;*
      prune_history k ;;*
      advance_layout k revised ;;*
      m_return revised
  end.

Definition replace (guard : bool) (now : Z) (owner_id workspace_id : string)
    (request : SchemiiDesignReplace) (operation_kind : string) : repo_method SchemiiDesign :=
  let k := (owner_id, workspace_id) in
  m_lift (validate_design_content (drep_content request)) ;;*
  guard_mutation guard operation_kind ;;*
  let* r := m_get in
  let current := current_design r k in
  ensure_history now k current ;;*
  m_guard (negb (bool_decide (design_revision current = drep_expected_design_revision request)))
    (DesignConflictError (design_revision current)) ;;*
  if bool_decide (operation_kind = "edit")
     && bool_decide (design_fingerprint_field current = design_fingerprint (drep_content request))
  then m_return current else
  m_lift (checked_transition (design_content current) (drep_content request)) ;;*
  let revised := {| design_workspace_id := workspace_id; design_revision := design_revision current + 1;
                    design_content := drep_content request;
                    design_fingerprint_field := design_fingerprint (drep_content request) |} in
  save_revision now k revised operation_kind (drep_history_group_id request).

(** The end of [_move_history]: the cursor moves, the tip stays. *)
Definition restore_revision (k : design_key) (revised : SchemiiDesign) (target : MemoryHistoryEntry)
    : repo_method SchemiiDesign :=
  m_update (fun r => set_designs (<[k := revised]> (rp_designs r)) r) ;;*
  let* r := m_get in
  match rp_history_state r !! k with
  | None => m_raise (KeyErrorRaised (key_text k))
  | Some (_, tip_id) =>
      set_cursor k (he_id target) tip_id ;;*
      advance_layout k revised ;;*
      m_return revised
  end.

Definition move_history (guard : bool) (now : Z) (owner_id workspace_id : string)
    (expected_design_revision : Z) (action : history_action) : repo_method SchemiiDesign :=
  let k := (owner_id, workspace_id) in
  guard_mutation guard "edit" ;;*
  let* r := m_get in
  let current := current_design r k in
  m_guard (negb (bool_decide (design_revision current = expected_design_revision)))
    (DesignConflictError (design_revision current)) ;;*
  ensure_history now k current ;;*
  let* r := m_get in
  let* chain := m_lift (active_chain r k) in
  match history_target_index chain.1 chain.2 action with
  | None => m_raise (DesignHistoryBoundaryError (match action with Undo => "undo" | Redo => "redo" end))
  | Some target_index =>
      match chain.1 !! target_index with
      | None => m_raise (KeyErrorRaised (pretty target_index))
      | Some target =>
          m_lift (validate_design_content (he_content target)) ;;*
          let revised := {| design_workspace_id := workspace_id;
                            design_revision := design_revision current + 1;
                            design_content := he_content target;
                            design_fingerprint_field := design_fingerprint (he_content target) |} in
          restore_revision k revised target
      end
  end.

Definition undo guard now owner_id workspace_id expected := 
  move_history guard now owner_id workspace_id expected Undo.
Definition redo guard now owner_id workspace_id expected :=
  move_history guard now owner_id workspace_id expected Redo.

Definition initial_content (now : Z) (owner_id workspace_id : string)
    : repo_method (Z * SchemiiDesignContent) :=
  let k := (owner_id, workspace_id) in
  let* r := m_get in
  ensure_history now k (current_design r k) ;;*
  let* r := m_get in
  let* chain := m_lift (active_chain r k) in
  match chain.1 with
  | [] => m_raise (KeyErrorRaised "0")
  | root :: _ => m_return (he_source_design_revision root, he_content root)
  end.

Definition get_layout (owner_id workspace_id : string) : repo_method SchemiiDesignLayout :=
  let k := (owner_id, workspace_id) in
  let* r := m_get in
  m_return (current_layout r k (design_revision (current_design r k))).

Definition replace_layout (owner_id workspace_id : string) (request : SchemiiDesignLayoutReplace)
    : repo_method SchemiiDesignLayout :=
  let k := (owner_id, workspace_id) in
  let* r := m_get in
  let design := current_design r k in
  let current := current_layout r k (design_revision design) in
  m_guard (negb (bool_decide (layout_revision current = lrep_expected_layout_revision request))
           || negb (bool_decide (design_revision design = lrep_expected_design_revision request)))
    (DesignLayoutConflictError (layout_revision current) (design_revision design)) ;;*
  m_lift (check_positions "Layout positions must reference a design object on its correct layer"
            (design_content design) (layout_objects (lrep_content request))) ;;*
  let revised := {| layout_workspace_id := workspace_id; layout_revision := layout_revision current + 1;
                    layout_design_revision := design_revision design;
                    layout_content := lrep_content request |} in
  m_update (fun r => set_position_memory
      (<[k := remember (layout_objects (lrep_content request)) (memory_of r k)]> (rp_position_memory r))
      (set_layouts (<[k := revised]> (rp_layouts r)) r)) ;;*
  m_return revised.

(** ** The history view *)

Definition crosses_baseline (baseline_index : option nat) (cursor_index target_index : nat)
    (action : history_action) : bool :=
  match baseline_index with
  | None => false
  | Some b =>
      match action with
      | Undo => bool_decide (target_index < b /\ b <= cursor_index)
      | Redo => bool_decide (cursor_index < b /\ b <= target_index)
      end
  end.

Definition op_path (op : delta_op) : json_path :=
  match op with OpAdd p _ | OpRemove p | OpReplace p _ => p end.

(** The constructor of [DesignHistoryAction] and of its delta operations; the
    title was checked when the summary was built. *)
Definition make_action (title : string) (change_count : nat) (crosses : bool) (delta : list delta_op)
    : checked DesignHistoryAction :=
  result_bind (guard_err (bool_decide (50000 < N.of_nat (length delta))%N) (PydanticErrorRaised "delta"))
    (fun _ => result_bind (guard_err (existsb (fun op => bool_decide (128 < length (op_path op))) delta)
                             (PydanticErrorRaised "path"))
    (fun _ => Ok {| ha_title := title; ha_change_count := change_count;
                    ha_crosses_baseline := crosses; ha_delta := delta |})).

(** The nested function [action]. *)
Definition history_view (entries : list MemoryHistoryEntry) (cursor_index : nat)
    (baseline_index : option nat) (target_index : option nat) (action : history_action)
    : checked (option DesignHistoryAction) :=
  match target_index with
  | None => Ok None
  | Some target =>
      match entries !! target, entries !! cursor_index with
      | Some te, Some ce =>
          let (before, after) := match action with Undo => (te, ce) | Redo => (ce, te) end in
          result_bind (design_change_summary casefold set_order (he_content before) (he_content after))
            (fun summary =>
          result_bind (make_action (sum_title summary) (Nat.max 1 (sum_change_count summary))
            (crosses_baseline baseline_index cursor_index target action)
            (json_delta (content_document true (he_content ce)) (content_document true (he_content te))))
            (fun a => Ok (Some a)))
      | _, _ => Err (KeyErrorRaised (pretty target))
      end
  end.

Definition history_state_of (design : SchemiiDesign) (entries : list MemoryHistoryEntry)
    (cursor_index : nat) (baseline : DesignHistoryBaseline) : checked DesignHistoryState :=
  let undo_index := history_target_index entries cursor_index Undo in
  let redo_index := history_target_index entries cursor_index Redo in
  let baseline_index := fst <$> list_find (fun e => he_source_design_revision e = hb_design_revision baseline)
                                  entries in
  result_bind (history_view entries cursor_index baseline_index undo_index Undo) (fun undo_action =>
  result_bind (history_view entries cursor_index baseline_index redo_index Redo) (fun redo_action =>
  Ok {| hs_design_revision := design_revision design;
        hs_can_undo := bool_decide (undo_index <> None);
        hs_can_redo := bool_decide (redo_index <> None);
        hs_undo := undo_action;
        hs_redo := redo_action;
        hs_baseline := baseline;
        hs_can_reset_to_baseline :=
          hb_complete baseline && negb (bool_decide (design_fingerprint_field design = hb_fingerprint baseline));
        hs_reset_blocked_reason :=
          if hb_complete baseline then None
          else Some "The current PostgreSQL baseline is incomplete and cannot be restored losslessly.";
        hs_retained_action_limit := 100 |})).

Definition history_state (now : Z) (owner_id workspace_id : string) (baseline : DesignHistoryBaseline)
    : repo_method DesignHistoryState :=
  let k := (owner_id, workspace_id) in
  let* r := m_get in
  let design := current_design r k in
  ensure_history now k design ;;*
  let* r := m_get in
  let* chain := m_lift (active_chain r k) in
  m_lift (history_state_of design chain.1 chain.2 baseline).

(** [DesignWorkspaceSnapshot] with its validator [one_design_revision]. *)
Definition make_snapshot (design : SchemiiDesign) (layout : SchemiiDesignLayout)
    (history : DesignHistoryState) : checked DesignWorkspaceSnapshot :=
  result_bind (guard_err (negb (bool_decide (design_revision design = layout_design_revision layout
                                /\ design_revision design = hs_design_revision history)))
                 (PydanticErrorRaised "design snapshots must use one semantic design revision"))
    (fun _ => Ok {| snap_design := design; snap_layout := layout; snap_history := history |}).

Definition snapshot (now : Z) (owner_id workspace_id : string) (baseline : DesignHistoryBaseline)
    : repo_method DesignWorkspaceSnapshot :=
  let k := (owner_id, workspace_id) in
  let* r := m_get in
  let design := current_design r k in
  ensure_history now k design ;;*
  let* r := m_get in
  let* chain := m_lift (active_chain r k) in
  let layout := current_layout r k (design_revision design) in
  let* history := m_lift (history_state_of design chain.1 chain.2 baseline) in
  m_lift (make_snapshot design layout history).

End store.
