(* ===== verification/DesignStoreInv.v ===== *)
(** * Invariants of the design repository

    The invariant [repo_inv] of every reachable repository and the behaviour of
    the private helpers under it: the history of a workspace is one linked chain
    from its root to its tip, compact and with distinct IDs, its cursor is a member
    whose snapshot is the current design, and layouts only place objects of the
    current design, once each. *)

From Stdlib Require Import Ascii String.
From S2P Require Import Prelude Json JsonDelta HistoryRetention PyString DesignModels.
From S2P Require Import DefinitionAnalysis DesignValidation ValidationSpec DeletionImpact DeletionGraph.
From S2P Require Import HistorySummary DesignDocument DesignStore.
Open Scope string_scope.
Open Scope list_scope.

(** ** Chains *)

(** Every entry points to its predecessor. *)
Fixpoint linked (previous : option Z) (l : list MemoryHistoryEntry) : Prop :=
  match l with
  | [] => True
  | e :: rest => he_parent_id e = previous /\ linked (Some (he_id e)) rest
  end.

Lemma linked_app previous l k :
  linked previous (l ++ k) <->
  linked previous l /\ linked (match last l with Some e => Some (he_id e) | None => previous end) k.
Proof.
  revert previous. induction l as [|e l IH]; intros previous; [simpl; tauto|].
  change ((e :: l) ++ k) with (e :: (l ++ k)). cbn [linked]. rewrite IH.
  destruct l as [|m l]; [simpl; tauto|]. change (last (e :: m :: l)) with (last (m :: l)).
  destruct (last (m :: l)) eqn:E; [tauto|]. by apply last_None in E.
Qed.

Lemma linked_snoc previous l e :
  linked previous (l ++ [e]) <->
  linked previous l /\ he_parent_id e = match last l with Some x => Some (he_id x) | None => previous end.
Proof. rewrite linked_app. simpl. tauto. Qed.

Lemma relink_linked previous l : linked previous (relink previous l).
Proof. revert previous. induction l as [|e l IH]; intros previous; simpl; [done|]. split; [done|apply IH]. Qed.

(** Entries that agree on everything but their parents. *)
Definition same_entry (a b : MemoryHistoryEntry) : Prop :=
  he_id a = he_id b /\ he_source_design_revision a = he_source_design_revision b /\
  he_operation_kind a = he_operation_kind b /\ he_operation_group_id a = he_operation_group_id b /\
  he_content a = he_content b /\ he_created_at a = he_created_at b.

Lemma relink_same previous l : Forall2 same_entry (relink previous l) l.
Proof. revert previous. induction l as [|e l IH]; intros previous; simpl; constructor; done. Qed.

Lemma relink_ids previous l : he_id <$> relink previous l = he_id <$> l.
Proof. revert previous. induction l as [|e l IH]; intros previous; csimpl; [done|]. by rewrite IH. Qed.

Lemma relink_contents previous l : he_content <$> relink previous l = he_content <$> l.
Proof. revert previous. induction l as [|e l IH]; intros previous; csimpl; [done|]. by rewrite IH. Qed.

Lemma relink_length previous l : length (relink previous l) = length l.
Proof. by rewrite <-(length_fmap he_id), relink_ids, length_fmap. Qed.

Lemma same_entry_group a b : same_entry a b -> history_group a = history_group b.
Proof. intros (Hi & _ & _ & Hg & _). unfold history_group. simpl. by rewrite Hi, Hg. Qed.

Lemma group_at_same l k i : Forall2 same_entry l k -> group_at l i = group_at k i.
Proof.
  intros Hlk. unfold group_at. destruct (l !! i) as [a|] eqn:Ha.
  - destruct (Forall2_lookup_l _ _ _ _ _ Hlk Ha) as (b & -> & Hb). by apply same_entry_group.
  - rewrite lookup_ge_None in Ha. rewrite (proj2 (lookup_ge_None k i)); [done|].
    by rewrite <-(Forall2_length _ _ _ Hlk).
Qed.

Lemma relink_compact previous l : compact l -> compact (relink previous l).
Proof.
  intros Hc i Hi Hlen. rewrite relink_length in Hlen.
  rewrite !(group_at_same _ _ _ (relink_same previous l)). by apply Hc.
Qed.

Lemma chain_up_linked by_id chain fuel :
  linked None chain -> Forall (fun e => by_id !! he_id e = Some e) chain -> length chain <= fuel ->
  chain_up by_id fuel (he_id <$> last chain) = Ok (reverse chain).
Proof.
  revert fuel. induction chain as [|e chain IH] using rev_ind; intros fuel Hl Hf Hlen.
  { by destruct fuel. }
  rewrite length_app in Hlen. simpl in Hlen. destruct fuel as [|fuel]; [lia|].
  apply linked_snoc in Hl as [Hl Hp]. rewrite Forall_app, Forall_singleton in Hf.
  destruct Hf as [Hf He]. rewrite last_snoc. simpl. rewrite He.
  assert (Hp' : he_parent_id e = he_id <$> last chain) by (rewrite Hp; by destruct (last chain)).
  rewrite Hp', IH by (done || lia). simpl. by rewrite reverse_snoc.
Qed.

Lemma NoDup_size {V} (m : gmap Z V) (l : list Z) :
  NoDup l -> Forall (fun i => is_Some (m !! i)) l -> length l <= size m.
Proof.
  intros Hnd Hl. rewrite <-(size_dom (D := gset Z)). rewrite <-(size_list_to_set (C := gset Z)) by done.
  apply subseteq_size. intros i. rewrite elem_of_list_to_set, elem_of_dom.
  rewrite Forall_forall in Hl. auto.
Qed.

Lemma list_find_id (chain : list MemoryHistoryEntry) c i e :
  NoDup (he_id <$> chain) -> chain !! i = Some e -> he_id e = c ->
  list_find (fun e => he_id e = c) chain = Some (i, e).
Proof.
  intros Hnd Hi Hc. apply list_find_Some. split_and!; [done|done|].
  intros j y Hj Hlt Hy.
  assert (j = i); [|lia]. eapply (NoDup_lookup (he_id <$> chain)); [done| |].
  - by rewrite list_lookup_fmap, Hj.
  - rewrite list_lookup_fmap, Hi. simpl. congruence.
Qed.

Lemma entries_by_id_fold (m : gmap Z MemoryHistoryEntry) (l : list MemoryHistoryEntry) :
  NoDup (he_id <$> l) -> Forall (fun e => foldl (fun m e => <[he_id e := e]> m) m l !! he_id e = Some e) l /\
  (forall i, i ∉ he_id <$> l -> foldl (fun m e => <[he_id e := e]> m) m l !! i = m !! i).
Proof.
  revert m. induction l as [|e l IH]; intros m; csimpl; [done|].
  intros [He Hnd]%NoDup_cons. destruct (IH (<[he_id e := e]> m) Hnd) as [Hf Ho]. split.
  - constructor; [|done]. rewrite Ho by done. by rewrite lookup_insert_eq.
  - intros i [Hne Hi]%not_elem_of_cons. rewrite Ho by done. by rewrite lookup_insert_ne.
Qed.

Lemma entries_by_id_lookup l :
  NoDup (he_id <$> l) -> Forall (fun e => entries_by_id l !! he_id e = Some e) l.
Proof. intros Hnd. by apply (entries_by_id_fold ∅). Qed.

(** ** The invariant *)

Section invariant.
Context `{Pglast} `{Sqlglot} `{Sha256}.

(** Content as the repository stores it. *)
Definition content_ok (c : SchemiiDesignContent) : Prop :=
  validate_design_content c = Ok tt /\ SchemiiDesignContent_check c = true.

Lemma empty_content_ok : content_ok EMPTY_DESIGN_CONTENT.
Proof. split; reflexivity. Qed.

(** One history: its chain, root first. *)
Record chain_ok (by_id : gmap Z MemoryHistoryEntry) (cursor tip next : Z)
    (chain : list MemoryHistoryEntry) : Prop := {
  ch_linked : linked None chain;
  ch_tip : he_id <$> last chain = Some tip;
  ch_stored : Forall (fun e => by_id !! he_id e = Some e) chain;
  ch_ids : NoDup (he_id <$> chain);
  ch_fresh : Forall (fun e => (he_id e < next)%Z) chain;
  ch_cursor : cursor ∈ he_id <$> chain;
  ch_compact : compact chain;
  ch_contents : Forall (fun e => content_ok (he_content e)) chain;
}.

Definition positions_ok (content : SchemiiDesignContent) (objects : list DesignObjectPosition) : Prop :=
  NoDup (pos_object_id <$> objects) /\ Forall (fun p => position_allowed content p = true) objects.

Definition memory_ok (m : position_dict) : Prop :=
  dwf m /\ Forall (fun kv => pos_object_id kv.2 = kv.1) m.

Record key_ok (r : DesignRepo) (k : design_key) : Prop := {
  ko_design : forall d, rp_designs r !! k = Some d ->
    design_workspace_id d = k.2 /\ (1 <= design_revision d)%Z /\
    design_fingerprint_field d = design_fingerprint (design_content d) /\
    is_Some (rp_history_state r !! k);
  ko_history : forall cursor tip, rp_history_state r !! k = Some (cursor, tip) ->
    exists by_id chain, rp_history r !! k = Some by_id /\
      chain_ok by_id cursor tip (rp_next_history_id r) chain /\
      length chain <= rp_history_action_limit r + 2 /\
      exists i e, chain !! i = Some e /\ he_id e = cursor /\
        he_content e = design_content (current_design r k);
  ko_layout : forall l, rp_layouts r !! k = Some l ->
    layout_design_revision l = design_revision (current_design r k) /\
    positions_ok (design_content (current_design r k)) (layout_objects (layout_content l));
  ko_covers : forall l p, rp_layouts r !! k = Some l -> p ∈ layout_objects (layout_content l) ->
    dget (pos_object_id p) (memory_of r k) = Some p;
  ko_memory : memory_ok (memory_of r k);
}.

Record repo_inv (r : DesignRepo) : Prop := {
  ri_keys : forall k, key_ok r k;
  ri_limit : 1 <= rp_history_action_limit r;
}.

(** What one workspace of one owner sees. *)
Definition same_at (r r' : DesignRepo) (k : design_key) : Prop :=
  rp_designs r' !! k = rp_designs r !! k /\ rp_layouts r' !! k = rp_layouts r !! k /\
  rp_history r' !! k = rp_history r !! k /\ rp_history_state r' !! k = rp_history_state r !! k /\
  rp_position_memory r' !! k = rp_position_memory r !! k.

(** An update that concerns only [k]. *)
Record local_update (k : design_key) (r r' : DesignRepo) : Prop := {
  lu_others : forall k', k' <> k -> same_at r r' k';
  lu_next : (rp_next_history_id r <= rp_next_history_id r')%Z;
  lu_limit : rp_history_action_limit r' = rp_history_action_limit r;
}.

Lemma local_update_refl k r : local_update k r r.
Proof. split; [done|lia|done]. Qed.

Lemma local_update_trans k r1 r2 r3 :
  local_update k r1 r2 -> local_update k r2 r3 -> local_update k r1 r3.
Proof.
  intros [Ha Hb Hc] [Ha' Hb' Hc']. split; [|lia|congruence].
  intros k' Hk. specialize (Ha k' Hk). specialize (Ha' k' Hk). unfold same_at in *. intuition congruence.
Qed.

Lemma current_design_same r r' k : rp_designs r' !! k = rp_designs r !! k -> current_design r' k = current_design r k.
Proof. unfold current_design. by intros ->. Qed.

Lemma chain_ok_next by_id cursor tip next next' chain :
  (next <= next')%Z -> chain_ok by_id cursor tip next chain -> chain_ok by_id cursor tip next' chain.
Proof.
  intros Hn [H1' H2' H3' H4' H5' H6' H7' H8']. split; try done.
  eapply Forall_impl; [exact H5'|]. simpl. intros; lia.
Qed.

Lemma key_ok_same r r' k :
  key_ok r k -> same_at r r' k -> (rp_next_history_id r <= rp_next_history_id r')%Z ->
  rp_history_action_limit r' = rp_history_action_limit r -> key_ok r' k.
Proof.
  intros [Kd Kh Kl Kc Km] (Hd & Hl & Hh & Hs & Hm) Hn Hlim. pose proof (current_design_same r r' k Hd) as Hc.
  split.
  - intros d. rewrite Hd, Hs. apply Kd.
  - intros cursor tip. rewrite Hs, Hh, Hc. intros Hcur.
    destruct (Kh _ _ Hcur) as (by_id & chain & ? & Hchain & ? & ?).
    exists by_id, chain. rewrite Hlim. split_and!; [done|by eapply chain_ok_next|done..].
  - intros l. rewrite Hl, Hc. apply Kl.
  - intros l p. rewrite Hl. unfold memory_of. rewrite Hm. apply Kc.
  - unfold memory_of. rewrite Hm. exact Km.
Qed.

(** A local update that keeps the invariant of its own key keeps the invariant. *)
Lemma repo_inv_local k r r' : repo_inv r -> local_update k r r' -> key_ok r' k -> repo_inv r'.
Proof.
  intros [Hk Hl] [Ho Hn Hlim] Hk'. split; [|by rewrite Hlim].
  intros k0. destruct (decide (k0 = k)) as [->|Hne]; [done|].
  eapply key_ok_same; [apply Hk|by apply Ho|done..].
Qed.

(** The walk from the tip returns any linked chain of stored entries. *)
Lemma active_chain_linked r k by_id cursor tip chain i e :
  rp_history_state r !! k = Some (cursor, tip) -> rp_history r !! k = Some by_id ->
  linked None chain -> he_id <$> last chain = Some tip ->
  Forall (fun e => by_id !! he_id e = Some e) chain -> NoDup (he_id <$> chain) ->
  chain !! i = Some e -> he_id e = cursor ->
  active_chain r k = Ok (chain, i).
Proof.
  intros Hs Hh Hl Htip Hst Hnd Hi He. unfold active_chain. rewrite Hs, Hh.
  assert (Hup : chain_up by_id (S (size by_id)) (Some tip) = Ok (reverse chain)).
  { rewrite <-Htip. apply chain_up_linked; [done..|].
    rewrite <-(length_fmap he_id). transitivity (size by_id); [|lia]. apply NoDup_size; [done|].
    rewrite Forall_fmap. eapply Forall_impl; [exact Hst|]. simpl. eauto. }
  rewrite Hup. cbn [result_bind]. rewrite reverse_involutive.
  by rewrite (list_find_id chain cursor i e Hnd).
Qed.

(** The active chain exists and is the chain of the invariant. *)
Lemma active_chain_spec r k cursor tip :
  key_ok r k -> rp_history_state r !! k = Some (cursor, tip) ->
  exists by_id chain i e,
    rp_history r !! k = Some by_id /\ chain_ok by_id cursor tip (rp_next_history_id r) chain /\
    active_chain r k = Ok (chain, i) /\ chain !! i = Some e /\ he_id e = cursor /\
    he_content e = design_content (current_design r k) /\ length chain <= rp_history_action_limit r + 2.
Proof.
  intros Hk Hs. destruct (ko_history _ _ Hk _ _ Hs) as (by_id & chain & Hh & Hc & Hlen & i & e & Hi & He & Hcon).
  exists by_id, chain, i, e. split_and!; try done.
  by eapply active_chain_linked; [exact Hs|exact Hh|apply Hc..|exact Hi|].
Qed.

(** ** Layouts *)

Lemma design_object_ids_length content :
  SchemiiDesignContent_check content = true -> (N.of_nat (length (dkeys (design_object_ids content))) <= 15000)%N.
Proof.
  unfold SchemiiDesignContent_check. intros Hc. split_check.
  assert (Hlen : length (dkeys (design_object_ids content)) <=
    length ((tb_id <$> content_tables content) ++ (vw_id <$> content_views content))).
  { apply submseteq_length, NoDup_submseteq.
    - apply dict_fill_wf, dict_fill_wf, NoDup_nil_2.
    - intros x Hx. apply dget_is_Some in Hx. unfold design_object_ids in Hx.
      rewrite !dict_fill_is_Some in Hx. simpl in Hx. rewrite elem_of_app.
      destruct Hx as [?|[?|[? ?]]]; [by right|by left|done]. }
  rewrite length_app, !length_fmap in Hlen. unfold list_check in *.
  repeat match goal with H : (_ && bool_decide _)%bool = true |- _ =>
    apply andb_true_iff in H as [_ H%bool_decide_eq_true] end.
  lia.
Qed.

Lemma advanced_objects_ok content current memory :
  NoDup (pos_object_id <$> current) -> memory_ok memory ->
  positions_ok content (advanced_objects content current memory).
Proof.
  intros Hnd [Hwf Hids]. unfold advanced_objects.
  set (kept := filter (fun p => position_allowed content p = true) current).
  set (restore := fun entry : string * DesignObjectPosition => _).
  assert (Hrest : forall p, p ∈ omap restore memory ->
    (pos_object_id p, p) ∈ memory /\ (pos_object_id p ∉ pos_object_id <$> kept) /\ position_allowed content p = true).
  { intros p (entry & Hin & Hp)%list_elem_of_omap. unfold restore in Hp.
    rewrite Forall_forall in Hids. specialize (Hids _ Hin). destruct entry as [i q]; simpl in *.
    case_bool_decide; [|done]. case_bool_decide as Ha; [|done]. simpl in Hp. simplify_eq.
    split_and!; [done|done|]. unfold position_allowed. by apply bool_decide_eq_true. }
  split.
  - rewrite fmap_app. apply NoDup_app. split_and!.
    + eapply NoDup_submseteq_fmap; [|exact Hnd]. unfold kept. apply sublist_submseteq, sublist_filter.
    + intros x (p & -> & Hp)%list_elem_of_fmap Hx. apply list_elem_of_fmap in Hx as (q & Hq & Hqin).
      apply Hrest in Hqin as (_ & Hn & _). apply Hn. rewrite <-Hq. by apply list_elem_of_fmap_2.
    + clear Hrest. unfold dwf, dkeys in Hwf. induction memory as [|[i p] memory IH]; simpl; [constructor|].
      apply Forall_cons in Hids as [Hi Hids]. rewrite fmap_cons in Hwf. apply NoDup_cons in Hwf as [Hn Hwf].
      assert (Hsub : forall x, x ∈ pos_object_id <$> omap restore memory -> x ∈ memory.*1).
      { intros x (q & -> & (entry & Hin & Hq)%list_elem_of_omap)%list_elem_of_fmap.
        rewrite Forall_forall in Hids. specialize (Hids _ Hin). unfold restore in Hq.
        case_match; [|done]. simplify_eq. rewrite Hids. by apply list_elem_of_fmap_2. }
      destruct (restore (i, p)) as [q|] eqn:E; [|by apply IH].
      csimpl. apply NoDup_cons. split; [|by apply IH]. intros Hin. apply Hn.
      unfold restore in E. case_match; [|done]. simplify_eq. simpl in *. rewrite <-Hi. by apply Hsub.
  - apply Forall_app. split.
    + apply Forall_forall. by intros p [? _]%list_elem_of_filter.
    + apply Forall_forall. intros p Hp. by apply Hrest.
Qed.

(** When the memory covers the current positions, the advanced layout places
    exactly the remembered objects the design has. *)
Lemma elem_of_advanced_objects content current memory p :
  memory_ok memory -> (forall q, q ∈ current -> dget (pos_object_id q) memory = Some q) ->
  p ∈ advanced_objects content current memory <->
  dget (pos_object_id p) memory = Some p /\ position_allowed content p = true.
Proof.
  intros [Hwf Hids] Hcov. unfold advanced_objects. rewrite elem_of_app, list_elem_of_filter, list_elem_of_omap.
  rewrite Forall_forall in Hids. split.
  - intros [[Ha Hp]|([i q] & Hin & Hq)]; [auto|]. specialize (Hids _ Hin). simpl in *.
    case_bool_decide; [|done]. case_bool_decide as Ha; [|done]. simpl in Hq. simplify_eq.
    split; [by apply dget_elem_wf|]. unfold position_allowed. by apply bool_decide_eq_true.
  - intros [Hm Ha].
    destruct (decide (pos_object_id p ∈ pos_object_id <$> filter (fun p => position_allowed content p = true) current))
      as [Hin|Hn].
    + left. apply list_elem_of_fmap in Hin as (q & Hq & [Hqa Hqin]%list_elem_of_filter).
      pose proof (Hcov _ Hqin) as Hqm. rewrite <-Hq, Hm in Hqm. by simplify_eq.
    + right. exists (pos_object_id p, p). split; [by apply dget_Some_elem|]. simpl.
      rewrite bool_decide_eq_true_2 by done. unfold position_allowed in Ha. by rewrite Ha.
Qed.

Lemma positions_ok_length content objects :
  SchemiiDesignContent_check content = true -> positions_ok content objects -> (N.of_nat (length objects) <= 15000)%N.
Proof.
  intros Hc [Hnd Ha]. pose proof (design_object_ids_length _ Hc) as Hlen.
  rewrite <-(length_fmap pos_object_id).
  enough (length (pos_object_id <$> objects) <= length (dkeys (design_object_ids content))) by lia.
  apply submseteq_length, NoDup_submseteq; [done|].
  intros x (p & -> & Hp)%list_elem_of_fmap. rewrite Forall_forall in Ha. specialize (Ha p Hp).
  unfold position_allowed in Ha. apply bool_decide_eq_true in Ha. by eapply dget_Some_key.
Qed.

(** The constructor of the advanced layout never rejects its positions. *)
Lemma make_layout_content_ok content objects :
  SchemiiDesignContent_check content = true -> positions_ok content objects ->
  make_layout_content objects = Ok {| layout_objects := objects |}.
Proof.
  intros Hc Hp. pose proof (positions_ok_length _ _ Hc Hp) as Hlen. unfold make_layout_content, guard_err.
  rewrite bool_decide_eq_false_2 by lia. rewrite bool_decide_eq_true_2 by apply Hp. done.
Qed.

(** The layout [_advance_layout] saves. *)
Definition advanced_layout (r : DesignRepo) (k : design_key) (design : SchemiiDesign) : SchemiiDesignLayout :=
  let current := current_layout r k (design_revision design - 1) in
  {| layout_workspace_id := k.2; layout_revision := layout_revision current + 1;
     layout_design_revision := design_revision design;
     layout_content := {| layout_objects :=
       advanced_objects (design_content design) (layout_objects (layout_content current)) (memory_of r k) |} |}.

Lemma advance_layout_spec r k design :
  SchemiiDesignContent_check (design_content design) = true ->
  NoDup (pos_object_id <$> layout_objects (layout_content (current_layout r k (design_revision design - 1)))) ->
  memory_ok (memory_of r k) ->
  advance_layout k design r =
    (set_layouts (<[k := advanced_layout r k design]> (rp_layouts r)) r, Ok tt) /\
  positions_ok (design_content design) (layout_objects (layout_content (advanced_layout r k design))).
Proof.
  intros Hc Hnd Hm. pose proof (advanced_objects_ok (design_content design) _ _ Hnd Hm) as Hok.
  split; [|exact Hok]. unfold advance_layout, m_bind, m_get, m_lift, m_update.
  by rewrite (make_layout_content_ok _ _ Hc Hok).
Qed.

Lemma remember_ok objects m :
  memory_ok m -> memory_ok (remember objects m).
Proof.
  intros [Hwf Hids]. unfold remember. split; [by apply dict_fill_wf|].
  apply Forall_forall. intros [i p] Hin.
  assert (Hwf' : dwf (dict_fill pos_object_id (fun p => p) objects m)) by by apply dict_fill_wf.
  apply (dget_elem_wf _ _ _ Hwf') in Hin.
  apply dict_fill_Some in Hin as [(q & _ & <- & ->)|[_ Hin]]; [done|].
  apply dget_Some_elem in Hin. rewrite Forall_forall in Hids. by apply (Hids (i, p)).
Qed.

Lemma check_positions_Ok message content objects u :
  check_positions message content objects = Ok u <->
  Forall (fun p => position_allowed content p = true) objects.
Proof.
  unfold check_positions. rewrite for_each_Ok. apply Forall_iff. intros p.
  rewrite guard_err_Ok. by rewrite negb_false_iff.
Qed.

Lemma memory_ok_nil : memory_ok [].
Proof. split; [apply NoDup_nil_2|constructor]. Qed.

Lemma start_inv limit start : InMemoryDesignRepository limit = Some start -> repo_inv start.
Proof.
  unfold InMemoryDesignRepository. case_bool_decide; [done|]. intros [= <-]. split; [|simpl; lia].
  intros k. split; simpl; intros; rewrite ?lookup_empty in *; try done. apply memory_ok_nil.
Qed.

Lemma check_positions_Err message content objects e :
  check_positions message content objects = Err e -> (exists details, e = DesignValidationError message details) /\
  ~ Forall (fun p => position_allowed content p = true) objects.
Proof.
  unfold check_positions. induction objects as [|p objects IH]; simpl; [done|].
  unfold guard_err at 1. rewrite Forall_cons. destruct (position_allowed content p); simpl.
  - intros He. destruct (IH He). tauto.
  - intros [= <-]. split; [eauto|intros [? _]; done].
Qed.
End invariant.
