(* ===== verification/DesignStoreSpec.v ===== *)
(** * Behaviour of the design repository

    What each operation of [DesignStore] does on every branch, over every
    reachable repository: replacement, undo and redo, layouts and the history
    view, isolation of owners and workspaces, and the exceptions that can occur. *)

From Stdlib Require Import Ascii String.
From S2P Require Import Prelude Json JsonDelta HistoryRetention PyString DesignModels.
From S2P Require Import DefinitionAnalysis DesignValidation TypeOrder ValidationSpec DeletionImpact.
From S2P Require Import DeletionGraph HistorySummary DesignDocument CanonicalText DesignStore DesignStoreInv.
Open Scope string_scope.
Open Scope list_scope.

Ltac run_method :=
  unfold m_bind, m_get, m_update, m_lift, m_guard, m_return, m_raise, set_cursor in *; simpl in *.

Section spec.
Context `{Pglast} `{Sqlglot} `{Sha256}.
Variable query_sources : string -> json -> option (list (string * list string)).
Variable casefold : string -> string.
Variable set_order : list string -> list string.

Abbreviation replace := (replace query_sources casefold set_order).

(** ** Histories are created on demand *)

Lemma ensure_history_spec now r k :
  repo_inv r ->
  exists r', ensure_history now k (current_design r k) r = (r', Ok tt) /\
    repo_inv r' /\ local_update k r r' /\
    rp_designs r' = rp_designs r /\ rp_layouts r' = rp_layouts r /\ memory_of r' k = memory_of r k /\
    is_Some (rp_history_state r' !! k).
Proof.
  intros Hinv. pose proof (ri_keys _ Hinv k) as Hk. unfold ensure_history.
  destruct (rp_history_state r !! k) as [[cursor tip]|] eqn:Hs.
  { exists r. run_method. rewrite Hs. split_and!; eauto using local_update_refl. }
  assert (Hd : rp_designs r !! k = None).
  { destruct (rp_designs r !! k) as [d|] eqn:E; [|done].
    destruct (ko_design _ _ Hk d E) as (_ & _ & _ & [? ?]). congruence. }
  unfold new_history_entry. run_method. rewrite Hs. eexists. split; [reflexivity|].
  set (entry := {| he_id := _ |}). set (r' := set_position_memory _ _).
  assert (Hlocal : local_update k r r').
  { split; [|simpl; lia|done]. intros k' Hne. unfold same_at. simpl.
    by rewrite !lookup_insert_ne by done. }
  assert (Hmem : memory_of r' k = memory_of r k).
  { unfold memory_of at 1. simpl. by rewrite lookup_insert_eq. }
  split_and!; try done; [|simpl; rewrite lookup_insert_eq; eauto].
  eapply repo_inv_local; [done|done|].
  assert (Hcur : current_design r' k = current_design r k) by by apply current_design_same.
  assert (Hempty : current_design r k = empty_design k.2) by (unfold current_design; by rewrite Hd).
  split.
  - intros d. simpl. by rewrite Hd.
  - intros cursor tip. simpl. rewrite !lookup_insert_eq. intros [= <- <-].
    eexists _, [entry]. split; [reflexivity|]. split_and!; [|simpl; lia|].
    + split; simpl; try done.
      * rewrite Forall_singleton. by rewrite lookup_insert_eq.
      * apply NoDup_singleton.
      * rewrite Forall_singleton. simpl. lia.
      * left.
      * intros i ?. simpl. lia.
      * rewrite Forall_singleton. change (content_ok (design_content (current_design r k))). rewrite Hempty. apply empty_content_ok.
    + exists 0, entry. by rewrite Hcur.
  - intros l. simpl. rewrite Hcur. apply Hk.
  - intros l p. rewrite Hmem. apply Hk.
  - rewrite Hmem. apply Hk.
Qed.

(** ** Saving a revision *)

Lemma current_layout_NoDup r k n :
  key_ok r k -> NoDup (pos_object_id <$> layout_objects (layout_content (current_layout r k n))).
Proof.
  intros Hk. unfold current_layout. destruct (rp_layouts r !! k) as [l|] eqn:E; [|apply NoDup_nil_2].
  by apply (ko_layout _ _ Hk l E).
Qed.

Lemma current_layout_covers r k n p :
  key_ok r k -> p ∈ layout_objects (layout_content (current_layout r k n)) ->
  dget (pos_object_id p) (memory_of r k) = Some p.
Proof.
  intros Hk. unfold current_layout. destruct (rp_layouts r !! k) as [l|] eqn:E; [|set_solver].
  by apply (ko_covers _ _ Hk l p E).
Qed.

(** The positions a saved layout holds, in terms of the remembered ones. *)
Lemma elem_of_advanced_layout r k design p :
  key_ok r k ->
  p ∈ layout_objects (layout_content (advanced_layout r k design)) <->
  dget (pos_object_id p) (memory_of r k) = Some p /\ position_allowed (design_content design) p = true.
Proof.
  intros Hk. apply elem_of_advanced_objects; [apply Hk|]. intros q. by apply current_layout_covers.
Qed.

Lemma advanced_layout_covers r r' k design p :
  key_ok r k -> memory_of r' k = memory_of r k ->
  p ∈ layout_objects (layout_content (advanced_layout r k design)) ->
  dget (pos_object_id p) (memory_of r' k) = Some p.
Proof. intros Hk Hm Hp. rewrite Hm. by apply (elem_of_advanced_layout r k design) in Hp as [? _]. Qed.

(** The chain a new entry extends: the entries up to the cursor. *)
Lemma chain_extend by_id cursor tip next chain i e entry :
  chain_ok by_id cursor tip next chain -> chain !! i = Some e -> he_id e = cursor ->
  he_id entry = next -> he_parent_id entry = Some cursor -> content_ok (he_content entry) ->
  let longer := take (S i) chain ++ [entry] in
  linked None longer /\ last longer = Some entry /\
  Forall (fun x => <[next := entry]> by_id !! he_id x = Some x) longer /\
  NoDup (he_id <$> longer) /\ Forall (fun x => (he_id x < next + 1)%Z) longer /\
  Forall (fun x => content_ok (he_content x)) longer /\ last (take (S i) chain) = Some e.
Proof.
  intros Hc Hi He Hid Hpar Hcon longer. unfold longer.
  assert (Hlast : last (take (S i) chain) = Some e).
  { by rewrite (take_S_r _ _ _ Hi), last_snoc. }
  assert (Hfresh : Forall (fun x => (he_id x < next)%Z) (take (S i) chain)) by apply Forall_take, Hc.
  split_and!.
  - apply linked_snoc. rewrite Hlast, Hpar, He. split; [|done].
    pose proof (ch_linked _ _ _ _ _ Hc) as Hl. rewrite <-(take_drop (S i) chain) in Hl.
    by apply linked_app in Hl as [? _].
  - apply last_snoc.
  - apply Forall_app. split; [|apply Forall_singleton; by rewrite Hid, lookup_insert_eq].
    apply Forall_forall. intros x Hx. rewrite Forall_forall in Hfresh. specialize (Hfresh _ Hx).
    rewrite lookup_insert_ne by lia. pose proof (ch_stored _ _ _ _ _ Hc) as Hst.
    rewrite Forall_forall in Hst. apply Hst. by eapply elem_of_take in Hx as (? & ?%list_elem_of_lookup_2 & _).
  - rewrite fmap_app. apply NoDup_app. split_and!.
    + rewrite fmap_take. eapply NoDup_sub; [apply sublist_submseteq, sublist_take|apply Hc].
    + intros x (y & -> & Hy)%list_elem_of_fmap. csimpl. rewrite list_elem_of_singleton, Hid.
      rewrite Forall_forall in Hfresh. specialize (Hfresh _ Hy). lia.
    + apply NoDup_singleton.
  - apply Forall_app. split; [|apply Forall_singleton; lia].
    eapply Forall_impl; [exact Hfresh|]. simpl. intros. lia.
  - apply Forall_app. split; [apply Forall_take, Hc|by apply Forall_singleton].
  - done.
Qed.

Lemma same_entry_lookup l n i e :
  l !! i = Some e -> exists e', relink n l !! i = Some e' /\ same_entry e' e.
Proof.
  intros Hi. destruct (Forall2_lookup_r _ _ _ _ _ (relink_same n l) Hi) as (e' & ? & ?). eauto.
Qed.

(** Pruning keeps a well-formed chain that ends in the same entry. *)
Lemma chain_retained longer entry next limit :
  last longer = Some entry -> NoDup (he_id <$> longer) ->
  Forall (fun x => (he_id x < next)%Z) longer -> Forall (fun x => content_ok (he_content x)) longer ->
  let kept := relink None (retained_history_entries longer limit) in
  chain_ok (entries_by_id kept) (he_id entry) (he_id entry) next kept /\
  exists e', kept !! (length kept - 1) = Some e' /\ same_entry e' entry.
Proof.
  intros Hlast Hnd Hfresh Hcon kept.
  destruct (retained_spec longer limit) as (_ & _ & Hl & Hsub). rewrite Hlast in Hl.
  set (kept0 := retained_history_entries longer limit) in *.
  assert (Hids : NoDup (he_id <$> kept)).
  { unfold kept. rewrite relink_ids. eapply NoDup_submseteq_fmap; [|exact Hnd]. by apply sublist_submseteq. }
  assert (Hlen : kept0 !! (length kept0 - 1) = Some entry) by by apply last_lookup_Some.
  destruct (same_entry_lookup kept0 None _ _ Hlen) as (e' & He' & Hsame).
  assert (Hlk : kept !! (length kept - 1) = Some e').
  { unfold kept. by rewrite relink_length. }
  split; [|by exists e']. split.
  - apply relink_linked.
  - destruct (last kept) as [x|] eqn:E.
    + apply last_lookup_Some in E. rewrite Hlk in E. simplify_eq/=. f_equal. apply Hsame.
    + apply last_None in E. by rewrite E in Hlk.
  - by apply entries_by_id_lookup.
  - done.
  - apply (Forall_fmap he_id (fun i => (i < next)%Z)). unfold kept. rewrite relink_ids.
    apply Forall_fmap. eapply Forall_submseteq; [by apply sublist_submseteq|done].
  - rewrite <-(proj1 Hsame). apply list_elem_of_fmap_2. by eapply list_elem_of_lookup_2.
  - apply relink_compact, retained_compact.
  - apply (Forall_fmap he_content content_ok). unfold kept. rewrite relink_contents.
    apply Forall_fmap. eapply Forall_submseteq; [by apply sublist_submseteq|done].
Qed.

(** A design record as the repository writes it. *)
Definition design_record_ok (k : design_key) (d : SchemiiDesign) : Prop :=
  design_workspace_id d = k.2 /\ (1 <= design_revision d)%Z /\
  design_fingerprint_field d = design_fingerprint (design_content d) /\ content_ok (design_content d).

(** A repository that differs at one key keeps the invariant when that key holds a
    new design, its layout, and a chain whose cursor has the design's content. *)
Lemma revised_inv r r' k revised by_id cursor tip chain i e :
  repo_inv r -> design_record_ok k revised -> local_update k r r' ->
  rp_designs r' !! k = Some revised -> rp_layouts r' !! k = Some (advanced_layout r k revised) ->
  memory_of r' k = memory_of r k ->
  rp_history_state r' !! k = Some (cursor, tip) -> rp_history r' !! k = Some by_id ->
  chain_ok by_id cursor tip (rp_next_history_id r') chain -> length chain <= rp_history_action_limit r' + 2 ->
  chain !! i = Some e -> he_id e = cursor -> he_content e = design_content revised ->
  positions_ok (design_content revised) (layout_objects (layout_content (advanced_layout r k revised))) ->
  repo_inv r' /\ current_design r' k = revised /\ active_chain r' k = Ok (chain, i).
Proof.
  intros Hinv (Hws & Hrev & Hfp & Hcon) Hlu Hd Hl Hm Hs Hh Hc Hlen Hi He Hec Hpos.
  pose proof (ri_keys _ Hinv k) as Hk.
  assert (Hcur : current_design r' k = revised) by (unfold current_design; by rewrite Hd).
  split_and!; [|done|by eapply active_chain_linked; [exact Hs|exact Hh|apply Hc..|exact Hi|]].
  eapply repo_inv_local; [done|done|]. split.
  - intros d. rewrite Hd, Hs. intros [= <-]. split_and!; [done..|eauto].
  - intros c t. rewrite Hs. intros [= <- <-]. exists by_id, chain. split_and!; [done..|].
    exists i, e. by rewrite Hcur.
  - intros l. rewrite Hl, Hcur. intros [= <-]. split; [done|exact Hpos].
  - intros l p. rewrite Hl. intros [= <-]. by apply advanced_layout_covers.
  - rewrite Hm. apply Hk.
Qed.

Lemma save_revision_spec now r k revised kind group cursor tip :
  repo_inv r -> rp_history_state r !! k = Some (cursor, tip) -> design_record_ok k revised ->
  exists r' chain i e entry,
    active_chain r k = Ok (chain, i) /\ chain !! i = Some e /\
    he_content e = design_content (current_design r k) /\
    save_revision now k revised kind group r = (r', Ok revised) /\
    repo_inv r' /\ local_update k r r' /\ current_design r' k = revised /\
    rp_layouts r' !! k = Some (advanced_layout r k revised) /\
    memory_of r' k = memory_of r k /\ is_Some (rp_history_state r' !! k) /\
    he_content entry = design_content revised /\ he_operation_group_id entry = group /\
    he_id entry = rp_next_history_id r /\
    let kept := relink None (retained_history_entries (take (S i) chain ++ [entry]) (rp_history_action_limit r)) in
    active_chain r' k = Ok (kept, length kept - 1).
Proof.
  intros Hinv Hs Hrec. pose proof (ri_keys _ Hinv k) as Hk. pose proof Hrec as (_ & _ & _ & Hcon).
  destruct (active_chain_spec r k cursor tip Hk Hs) as (by_id & chain & i & e & Hh & Hc & Hact & Hi & He & Hec & _).
  set (entry := {| he_id := rp_next_history_id r; he_parent_id := Some cursor;
    he_source_design_revision := design_revision revised; he_operation_kind := kind;
    he_operation_group_id := group; he_content := design_content revised; he_created_at := now |}).
  destruct (chain_extend by_id cursor tip _ chain i e entry Hc Hi He eq_refl eq_refl Hcon)
    as (Hl1 & Hl2 & Hl3 & Hl4 & Hl5 & Hl6 & _).
  set (longer := take (S i) chain ++ [entry]) in *.
  destruct (chain_retained longer entry _ (rp_history_action_limit r) Hl2 Hl4 Hl5 Hl6)
    as [Hkept (e' & Hke' & Hsame)].
  set (kept := relink None (retained_history_entries longer (rp_history_action_limit r))) in *.
  set (r1 := set_history_state (<[k := (he_id entry, he_id entry)]> (rp_history_state r))
    (set_history (<[k := <[he_id entry := entry]> (history_of r k)]> (rp_history r))
      (set_next_history_id (rp_next_history_id r + 1) (set_designs (<[k := revised]> (rp_designs r)) r)))).
  assert (Hact1 : active_chain r1 k = Ok (longer, length longer - 1)).
  { eapply (active_chain_linked r1 k (<[he_id entry := entry]> by_id) (he_id entry) (he_id entry) longer _ entry);
      [simpl; by rewrite lookup_insert_eq| |done|by rewrite Hl2|done|done| |done].
    - simpl. rewrite lookup_insert_eq. unfold history_of. by rewrite Hh.
    - by apply last_lookup_Some. }
  set (r2 := set_history (<[k := entries_by_id kept]> (rp_history r1)) r1).
  destruct (advance_layout_spec r2 k revised (proj2 Hcon)) as [Hadv Hpos];
    [by apply (current_layout_NoDup r k)|apply Hk|].
  set (r3 := set_layouts (<[k := advanced_layout r2 k revised]> (rp_layouts r2)) r2) in *.
  assert (Hlocal : local_update k r r3).
  { split; [|simpl; lia|done]. intros k' Hne. unfold same_at. simpl. by rewrite !lookup_insert_ne by done. }
  destruct (revised_inv r r3 k revised (entries_by_id kept) (he_id entry) (he_id entry) kept (length kept - 1) e')
    as (Hinv' & Hcur & Hact'); try done; try (simpl; by rewrite lookup_insert_eq); try apply Hsame.
  { unfold kept. rewrite relink_length. by apply retained_spec. }
  exists r3, chain, i, e, entry. split_and!; try done; try (simpl; rewrite lookup_insert_eq; by eauto).
  unfold save_revision, new_history_entry, prune_history. run_method. rewrite Hs. simpl.
  fold entry. change (he_id entry) with (rp_next_history_id r) in *.
  match goal with |- context [active_chain ?x k] => change x with r1 end.
  rewrite Hact1. simpl. fold longer. fold kept.
  match goal with |- context [advance_layout k revised ?x] => change x with r2 end.
  by rewrite Hadv.
Qed.

Lemma restore_revision_spec r k revised target cursor tip chain i j :
  repo_inv r -> rp_history_state r !! k = Some (cursor, tip) -> design_record_ok k revised ->
  active_chain r k = Ok (chain, i) -> chain !! j = Some target ->
  design_content revised = he_content target ->
  exists r', restore_revision k revised target r = (r', Ok revised) /\
    repo_inv r' /\ local_update k r r' /\ current_design r' k = revised /\
    rp_layouts r' !! k = Some (advanced_layout r k revised) /\
    memory_of r' k = memory_of r k /\ is_Some (rp_history_state r' !! k) /\
    active_chain r' k = Ok (chain, j).
Proof.
  intros Hinv Hs Hrec Hact Hj Heq. pose proof (ri_keys _ Hinv k) as Hk. pose proof Hrec as (_ & _ & _ & Hcon).
  destruct (active_chain_spec r k cursor tip Hk Hs) as (by_id & chain' & i' & e & Hh & Hc & Hact' & Hi & He & Hec & Hlen).
  assert (chain' = chain /\ i' = i) as [-> ->] by (split; congruence).
  set (r1 := set_history_state (<[k := (he_id target, tip)]> (rp_history_state r))
    (set_designs (<[k := revised]> (rp_designs r)) r)).
  destruct (advance_layout_spec r1 k revised (proj2 Hcon)) as [Hadv Hpos];
    [by apply (current_layout_NoDup r k)|apply Hk|].
  set (r2 := set_layouts (<[k := advanced_layout r1 k revised]> (rp_layouts r1)) r1) in *.
  assert (Hlocal : local_update k r r2).
  { split; [|simpl; lia|done]. intros k' Hne. unfold same_at. simpl. by rewrite !lookup_insert_ne by done. }
  destruct (revised_inv r r2 k revised by_id (he_id target) tip chain j target)
    as (Hinv' & Hcur & Hact2); try done; try (simpl; by rewrite lookup_insert_eq).
  { destruct Hc as [? ? ? ? ? ? ? ?]. split; try done. apply list_elem_of_fmap_2. by eapply list_elem_of_lookup_2. }
  exists r2. split_and!; try done; try (simpl; rewrite lookup_insert_eq; by eauto).
  unfold restore_revision. run_method. rewrite Hs. simpl.
  match goal with |- context [advance_layout k revised ?x] => change x with r1 end. by rewrite Hadv.
Qed.

(** ** Operations, branch by branch *)

(** The design and the layout of a workspace are as before. *)
Definition unchanged (k : design_key) (r r' : DesignRepo) : Prop :=
  rp_designs r' !! k = rp_designs r !! k /\ rp_layouts r' !! k = rp_layouts r !! k /\
  memory_of r' k = memory_of r k.

Lemma unchanged_design k r r' : unchanged k r r' -> current_design r' k = current_design r k.
Proof. intros (Hd & _). by apply current_design_same. Qed.

(** The next revision of a design. *)
Definition revised_design (k : design_key) (current : SchemiiDesign) (content : SchemiiDesignContent)
    : SchemiiDesign :=
  {| design_workspace_id := k.2; design_revision := design_revision current + 1;
     design_content := content; design_fingerprint_field := design_fingerprint content |}.

Lemma current_revision_nonneg r k : key_ok r k -> (0 <= design_revision (current_design r k))%Z.
Proof.
  intros Hk. unfold current_design. destruct (rp_designs r !! k) as [d|] eqn:E; simpl; [|lia].
  destruct (ko_design _ _ Hk d E) as (_ & ? & _). lia.
Qed.

Lemma revised_design_ok r k content :
  key_ok r k -> content_ok content -> design_record_ok k (revised_design k (current_design r k) content).
Proof.
  intros Hk Hc. pose proof (current_revision_nonneg r k Hk). split_and!; simpl; try done. lia.
Qed.

(** The history group of the entry an accepted request writes. *)
Definition new_entry_group (r : DesignRepo) (group : option string) : string :=
  history_group {| he_id := rp_next_history_id r; he_parent_id := None; he_source_design_revision := 0;
    he_operation_kind := ""; he_operation_group_id := group; he_content := EMPTY_DESIGN_CONTENT;
    he_created_at := 0 |}.

(** The request starts a new logical action: it does not extend the group of the
    entry under the cursor. *)
Definition starts_action (r : DesignRepo) (k : design_key) (group : option string) : bool :=
  match active_chain r k with
  | Ok (chain, S i) =>
      match chain !! S i with
      | Some e => negb (bool_decide (history_group e = new_entry_group r group))
      | None => true
      end
  | _ => true
  end.

(** The snapshot an undo leads to. *)
Definition undo_leads_to (r : DesignRepo) (k : design_key) (content : SchemiiDesignContent) : Prop :=
  exists chain i j e, active_chain r k = Ok (chain, i) /\
    history_target_index chain i Undo = Some j /\ chain !! j = Some e /\ he_content e = content.

Lemma undo_leads_back r chain i (e entry : MemoryHistoryEntry) n :
  compact chain -> chain !! i = Some e -> 1 <= n ->
  he_id entry = rp_next_history_id r ->
  (1 <= i -> history_group e <> new_entry_group r (he_operation_group_id entry)) ->
  let kept := relink None (retained_history_entries (take (S i) chain ++ [entry]) n) in
  exists j e', history_target_index kept (length kept - 1) Undo = Some j /\ kept !! j = Some e' /\
    he_content e' = he_content e.
Proof.
  intros Hc Hi Hn Hid Hg kept.
  assert (Hgrp : new_entry_group r (he_operation_group_id entry) = history_group entry).
  { unfold new_entry_group, history_group. simpl. by rewrite Hid. }
  assert (Hlong : compact (take (S i) chain ++ [entry])).
  { apply compact_snoc.
    - intros j Hj Hlen. rewrite length_take in Hlen. unfold group_at. rewrite !lookup_take_lt by lia.
      apply Hc; lia.
    - intros kept' Hlen Hl. rewrite length_take in Hlen. rewrite (take_S_r _ _ _ Hi), last_snoc in Hl.
      injection Hl as <-. rewrite <-Hgrp. apply Hg. lia. }
  unfold kept. rewrite (take_S_r _ _ _ Hi), <-app_assoc in *. cbn [app] in *.
  pose proof (retained_compact (take i chain ++ [e; entry]) n) as Hrc.
  destruct (retained_new_action (take i chain) e entry n Hlong Hn) as (pre & Hpre). rewrite Hpre in *.
  assert (Hat : (pre ++ [e; entry]) !! length pre = Some e).
  { rewrite lookup_app_r, Nat.sub_diag by lia. done. }
  destruct (same_entry_lookup _ None _ _ Hat) as (e' & He' & Hsame).
  assert (Hcut : relink None (pre ++ [e; entry]) = take (length pre) (relink None (pre ++ [e; entry])) ++
    drop (length pre) (relink None (pre ++ [e; entry]))) by by rewrite take_drop.
  exists (length pre), e'. split_and!; [|done|apply Hsame].
  rewrite relink_length, length_app. cbn [length]. replace (length pre + 2 - 1) with (S (length pre)) by lia.
  pose proof (relink_compact None _ Hrc) as Hrc'.
  destruct (drop (length pre) (relink None (pre ++ [e; entry]))) as [|a [|b [|? ?]]] eqn:Hd;
    apply (f_equal length) in Hd as Hdl; rewrite length_drop, relink_length, length_app in Hdl; simpl in Hdl; try lia.
  rewrite Hcut in Hrc' |- *. apply undo_new_action in Hrc'.
  rewrite length_take, relink_length, length_app in Hrc'. rewrite Nat.min_l in Hrc' by (simpl; lia). done.
Qed.

(** The outcome of [replace] on a request that passes validation and the guard. *)
Definition replace_outcome (k : design_key) (r : DesignRepo) (request : SchemiiDesignReplace)
    (operation_kind : string) (out : DesignRepo * checked SchemiiDesign) : Prop :=
  let current := current_design r k in
  if decide (design_revision current <> drep_expected_design_revision request) then
    unchanged k r out.1 /\ out.2 = Err (DesignConflictError (design_revision current))
  else if decide (operation_kind = "edit" /\
                  design_fingerprint_field current = design_fingerprint (drep_content request)) then
    unchanged k r out.1 /\ out.2 = Ok current
  else match checked_transition query_sources casefold set_order (design_content current) (drep_content request) with
       | Err e => unchanged k r out.1 /\ out.2 = Err e
       | Ok _ =>
           let revised := revised_design k current (drep_content request) in
           out.2 = Ok revised /\ current_design out.1 k = revised /\
           rp_layouts out.1 !! k = Some (advanced_layout r k revised) /\ memory_of out.1 k = memory_of r k /\
           (starts_action r k (drep_history_group_id request) = true ->
            undo_leads_to out.1 k (design_content current))
       end.

Lemma advanced_layout_same r r' k design :
  unchanged k r r' -> advanced_layout r' k design = advanced_layout r k design.
Proof. intros (_ & Hl & Hm). unfold advanced_layout, current_layout. by rewrite Hl, Hm. Qed.

(** A history created on demand has only its root, so any request starts an action. *)
Lemma starts_action_differs now r r1 k group chain i e :
  ensure_history now k (current_design r k) r = (r1, Ok tt) -> active_chain r1 k = Ok (chain, i) ->
  chain !! i = Some e -> 1 <= i -> starts_action r k group = true ->
  history_group e <> new_entry_group r1 group.
Proof.
  unfold ensure_history, new_history_entry. run_method.
  destruct (rp_history_state r !! k) as [p|] eqn:Hs.
  - intros [= <-] Hact He Hi. unfold starts_action. rewrite Hact. destruct i as [|i]; [lia|].
    rewrite He. rewrite negb_true_iff, bool_decide_eq_false. done.
  - intros [= <-] Hact He Hi _. exfalso. revert Hact. unfold active_chain. simpl.
    rewrite !lookup_insert_eq. cbn [chain_up he_parent_id].
    replace (chain_up _ _ None) with (Ok [] : checked (list MemoryHistoryEntry))
      by by destruct (size _).
    cbn [result_bind].
    destruct (list_find _ _) as [[j x]|] eqn:E; [|done]. intros [= <- <-].
    apply list_find_Some in E as (E & _ & _). destruct j as [|j]; [lia|done].
Qed.

Lemma replace_spec guard now r owner ws request kind :
  repo_inv r -> SchemiiDesignContent_check (drep_content request) = true ->
  let k := (owner, ws) in
  let out := replace guard now owner ws request kind r in
  repo_inv out.1 /\ local_update k r out.1 /\
  match validate_design_content (drep_content request) with
  | Err e => out = (r, Err e)
  | Ok _ =>
      if guard && negb (bool_decide (kind = "checkpoint"))
      then out = (r, Err DesignMutationBlockedError)
      else replace_outcome k r request kind out
  end.
Proof.
  intros Hinv Hcheck k out. assert (Hout : replace guard now owner ws request kind r = out) by done.
  clearbody out. unfold DesignStore.replace, guard_mutation, m_guard, m_lift in Hout. fold k in Hout.
  unfold m_bind at 1 in Hout.
  destruct (validate_design_content (drep_content request)) as [[]|e] eqn:Hv;
    [|subst out; split_and!; [done|apply local_update_refl|done]].
  unfold m_bind at 1 in Hout. rewrite andb_comm in Hout.
  destruct (guard && negb (bool_decide (kind = "checkpoint"))) eqn:Hg; simpl in Hout;
    [subst out; split_and!; [done|apply local_update_refl|done]|].
  unfold m_bind at 1, m_get at 1 in Hout.
  destruct (ensure_history_spec now r k Hinv) as (r1 & He & Hinv1 & Hlu1 & Hd1 & Hl1 & Hm1 & [[cursor tip] Hs1]).
  unfold m_bind at 1 in Hout. rewrite He in Hout.
  assert (Hun : unchanged k r r1) by (unfold unchanged; rewrite Hd1, Hl1; done).
  assert (Hcur : current_design r1 k = current_design r k) by by apply unchanged_design.
  unfold replace_outcome. cbn zeta. unfold m_bind at 1, guard_err at 1 in Hout.
  destruct (decide (design_revision (current_design r k) <> drep_expected_design_revision request)) as [Hne|Heq].
  { rewrite bool_decide_eq_false_2 in Hout by done. by subst out. }
  apply dec_stable in Heq. rewrite bool_decide_eq_true_2 in Hout by done. simpl in Hout.
  destruct (decide (kind = "edit" /\ _)) as [[Hk Hf]|Hn].
  { rewrite !bool_decide_eq_true_2 in Hout by done. by subst out. }
  assert (Hb : bool_decide (kind = "edit") &&
    bool_decide (design_fingerprint_field (current_design r k) = design_fingerprint (drep_content request)) = false).
  { apply not_true_iff_false. rewrite andb_true_iff, !bool_decide_eq_true. done. }
  rewrite Hb in Hout. unfold m_bind at 1 in Hout.
  destruct (checked_transition _ _ _ _ _) as [[]|e]; [|by subst out].
  change (save_revision now k (revised_design k (current_design r k) (drep_content request)) kind
    (drep_history_group_id request) r1 = out) in Hout.
  destruct (save_revision_spec now r1 k (revised_design k (current_design r k) (drep_content request)) kind
    (drep_history_group_id request) cursor tip Hinv1 Hs1) as
    (r2 & chain & i & e & entry & Hact & Hi & Hec & Hsave & Hinv2 & Hlu2 & Hcur2 & Hlay2 & Hm2 & _ & _ & Hgrp & Hid & Hact2).
  { rewrite <-Hcur. apply revised_design_ok; [apply Hinv1|done]. }
  rewrite Hsave in Hout. subst out. simpl. split_and!; try done.
  - by eapply local_update_trans.
  - rewrite Hlay2. f_equal. by apply advanced_layout_same.
  - by rewrite Hm2.
  - intros Hst. destruct (ko_history _ _ (ri_keys _ Hinv1 k) _ _ Hs1) as (by_id & chain' & Hh & Hc & _ & i' & e' & Hi' & He' & _).
    assert (Hact' : active_chain r1 k = Ok (chain', i'))
      by by eapply active_chain_linked; [exact Hs1|exact Hh|apply Hc..|exact Hi'|].
    rewrite Hact in Hact'. injection Hact' as <- <-.
    destruct (undo_leads_back r1 chain i e entry (rp_history_action_limit r1)) as (j & e2 & Hj & Hl & Hcon2);
      [apply Hc|done|apply Hinv1|done| |].
    + intros Hi1. rewrite Hgrp. by apply (starts_action_differs now r r1 k _ chain i).
    + eexists _, _, j, e2. split_and!; [exact Hact2|exact Hj|exact Hl|]. by rewrite Hcon2, Hec, Hcur.
Qed.

(** C1. Replacing a design, branch by branch, in any reachable repository: invalid
    content and a blocked workspace raise without any effect; a stale revision, an
    edit with the same fingerprint and a removal that leaves dependents behind keep
    the design and its layout; otherwise the design gets the requested content and
    the next revision, and the layout follows it.  Only the addressed workspace of
    the addressed owner is touched, and the repository invariant is kept. *)
Theorem replace_behaviour guard now r owner ws request kind :
  repo_inv r -> SchemiiDesignContent_check (drep_content request) = true ->
  let k := (owner, ws) in
  let out := replace guard now owner ws request kind r in
  repo_inv out.1 /\ local_update k r out.1 /\
  match validate_design_content (drep_content request) with
  | Err e => out = (r, Err e)
  | Ok _ =>
      if guard && negb (bool_decide (kind = "checkpoint"))
      then out = (r, Err DesignMutationBlockedError)
      else replace_outcome k r request kind out
  end.
Proof. apply replace_spec. Qed.

(** ** Undo and redo *)

Definition action_text (action : history_action) : string :=
  match action with Undo => "undo" | Redo => "redo" end.

(** Where an undo or redo leads: the repository with its history, the chain, the
    cursor and the target. *)
Definition move_outcome (k : design_key) (r : DesignRepo) (action : history_action)
    (out : DesignRepo * checked SchemiiDesign) : Prop :=
  exists r1 chain i,
    unchanged k r r1 /\ (is_Some (rp_history_state r !! k) -> r1 = r) /\
    active_chain r1 k = Ok (chain, i) /\ i < length chain /\ compact chain /\
    he_content <$> chain !! i = Some (design_content (current_design r k)) /\
    Forall (fun e => content_ok (he_content e)) chain /\
    match history_target_index chain i action with
    | None => unchanged k r out.1 /\ out.2 = Err (DesignHistoryBoundaryError (action_text action))
    | Some j =>
        exists target, chain !! j = Some target /\
          let revised := revised_design k (current_design r k) (he_content target) in
          out.2 = Ok revised /\ current_design out.1 k = revised /\
          rp_layouts out.1 !! k = Some (advanced_layout r k revised) /\
          memory_of out.1 k = memory_of r k /\ is_Some (rp_history_state out.1 !! k) /\
          active_chain out.1 k = Ok (chain, j)
    end.

Lemma ensure_history_present now r k :
  is_Some (rp_history_state r !! k) -> ensure_history now k (current_design r k) r = (r, Ok tt).
Proof. intros [p Hp]. unfold ensure_history. run_method. by rewrite Hp. Qed.

Lemma move_spec guard now r owner ws expected action :
  repo_inv r ->
  let k := (owner, ws) in
  let out := move_history guard now owner ws expected action r in
  repo_inv out.1 /\ local_update k r out.1 /\
  if guard then out = (r, Err DesignMutationBlockedError)
  else if decide (design_revision (current_design r k) <> expected)
  then out = (r, Err (DesignConflictError (design_revision (current_design r k))))
  else move_outcome k r action out.
Proof.
  intros Hinv k out. assert (Hout : move_history guard now owner ws expected action r = out) by done.
  clearbody out. unfold move_history, guard_mutation, m_guard, m_lift in Hout. fold k in Hout.
  unfold m_bind at 1 in Hout. rewrite bool_decide_eq_false_2 in Hout by done. simpl in Hout.
  destruct guard; simpl in Hout; [subst out; split_and!; [done|apply local_update_refl|done]|].
  unfold m_bind at 1, m_get at 1 in Hout. unfold m_bind at 1, guard_err at 1 in Hout.
  destruct (decide (design_revision (current_design r k) <> expected)) as [Hne|Heq].
  { rewrite bool_decide_eq_false_2 in Hout by done. simpl in Hout. subst out.
    split_and!; [done|apply local_update_refl|done]. }
  apply dec_stable in Heq. rewrite bool_decide_eq_true_2 in Hout by done. simpl in Hout.
  pose proof (ensure_history_present now r k) as Hpres.
  destruct (ensure_history_spec now r k Hinv) as (r1 & He & Hinv1 & Hlu1 & Hd1 & Hl1 & Hm1 & [[cursor tip] Hs1]).
  unfold m_bind at 1 in Hout. rewrite He in Hout, Hpres.
  assert (Hun : unchanged k r r1) by (unfold unchanged; rewrite Hd1, Hl1; done).
  assert (Hcur : current_design r1 k = current_design r k) by by apply unchanged_design.
  unfold m_bind at 1, m_get at 1 in Hout.
  destruct (active_chain_spec r1 k cursor tip (ri_keys _ Hinv1 k) Hs1) as
    (by_id & chain & i & e & Hh & Hc & Hact & Hi & Hec & Hcon & _).
  unfold m_bind at 1 in Hout. rewrite Hact in Hout. simpl in Hout.
  assert (Hilt : i < length chain) by by eapply lookup_lt_Some.
  assert (Hmo : unchanged k r r1 /\ (is_Some (rp_history_state r !! k) -> r1 = r) /\
    active_chain r1 k = Ok (chain, i) /\ i < length chain /\ compact chain /\
    he_content <$> chain !! i = Some (design_content (current_design r k)) /\
    Forall (fun e => content_ok (he_content e)) chain).
  { split_and!; try done; [intros Hp; specialize (Hpres Hp); by simplify_eq|apply Hc| |apply Hc].
    rewrite Hi. simpl. by rewrite Hcon, Hcur. }
  destruct (history_target_index chain i action) as [j|] eqn:Hj.
  - destruct (lookup_lt_is_Some_2 chain j) as [target Ht]; [by eapply history_target_lt|].
    rewrite Ht in Hout.
    assert (Htok : content_ok (he_content target)).
    { pose proof (ch_contents _ _ _ _ _ Hc) as Hcs. rewrite Forall_forall in Hcs.
      by apply Hcs; eapply list_elem_of_lookup_2. }
    unfold m_bind at 1 in Hout. rewrite (proj1 Htok) in Hout.
    change (restore_revision k (revised_design k (current_design r k) (he_content target)) target r1 = out) in Hout.
    destruct (restore_revision_spec r1 k (revised_design k (current_design r k) (he_content target)) target
      cursor tip chain i j Hinv1 Hs1) as (r2 & Hres & Hinv2 & Hlu2 & Hcur2 & Hlay2 & Hm2 & Hs2 & Hact2); try done.
    { rewrite <-Hcur. apply revised_design_ok; [apply Hinv1|done]. }
    rewrite Hres in Hout. subst out. simpl. split_and!; [done|by eapply local_update_trans|].
    exists r1, chain, i. rewrite Hj. destruct Hmo as (?&?&?&?&?&?&?). do 7 (split; [done|]).
    exists target. simpl. split_and!; try done; [|by rewrite Hm2].
    rewrite Hlay2. f_equal. by apply advanced_layout_same.
  - subst out. simpl. split_and!; [done|done|]. exists r1, chain, i. rewrite Hj.
    destruct Hmo as (?&?&?&?&?&?&?). do 7 (split; [done|]). split; [done|]. by destruct action.
Qed.

(** Undo and redo, branch by branch, in any reachable repository: a blocked
    workspace and a stale revision raise without any effect; with no retained
    action in that direction the boundary error is raised and the design and layout
    stay; otherwise the design becomes the target snapshot under the next revision,
    the layout follows, and the chain is kept with its cursor on the target.  The
    stored snapshot never fails validation, and other workspaces are untouched. *)
Theorem undo_redo_behaviour guard now r owner ws expected action :
  repo_inv r ->
  let k := (owner, ws) in
  let out := move_history guard now owner ws expected action r in
  repo_inv out.1 /\ local_update k r out.1 /\
  if guard then out = (r, Err DesignMutationBlockedError)
  else if decide (design_revision (current_design r k) <> expected)
  then out = (r, Err (DesignConflictError (design_revision (current_design r k))))
  else move_outcome k r action out.
Proof. apply move_spec. Qed.
End spec.

(** ** Witnesses *)

Definition sample_sha : Sha256 := {| sha256_hex := fun s => s |}.

Definition sample_id (prefix last_digit : string) : string :=
  prefix ++ "_0000000000000000000000000000000" ++ last_digit.

Definition people_table : DesignTable :=
  {| tb_id := sample_id "table" "1"; tb_name := "people";
     tb_columns := [int_column (sample_id "column" "1") "id"];
     tb_keys := []; tb_checks := []; tb_indexes := [] |}.

Definition people_design : SchemiiDesignContent :=
  {| content_types := []; content_tables := [people_table]; content_relationships := [];
     content_functions := []; content_views := []; content_triggers := [] |}.

Definition empty_repo : DesignRepo :=
  {| rp_designs := ∅; rp_layouts := ∅; rp_history := ∅; rp_history_state := ∅;
     rp_position_memory := ∅; rp_next_history_id := 1; rp_history_action_limit := 100 |}.

Lemma empty_repo_inv : @repo_inv domain_pglast sample_sqlglot sample_sha empty_repo.
Proof. by apply (start_inv 100). Qed.

Definition people_request (revision : Z) : SchemiiDesignReplace :=
  {| drep_expected_design_revision := revision; drep_content := people_design;
     drep_history_group_id := None |}.

Abbreviation sample_replace := (@DesignStore.replace domain_pglast sample_sqlglot sample_sha no_queries id id).

Definition people_repo : DesignRepo := (sample_replace false 0 "alice" "ws" (people_request 0) "edit" empty_repo).1.

Lemma replace_behaviour_witness :
  repo_inv (H := domain_pglast) (H0 := sample_sqlglot) (H1 := sample_sha) people_repo /\
  current_design (H1 := sample_sha) people_repo ("bob", "ws") = empty_design (H1 := sample_sha) "ws" /\
  design_revision (current_design (H1 := sample_sha) people_repo ("alice", "ws")) = 1%Z.
Proof.
  destruct (@replace_behaviour domain_pglast sample_sqlglot sample_sha no_queries id id false 0
    empty_repo "alice" "ws" (people_request 0) "edit" empty_repo_inv) as (Hinv & _ & _);
    [vm_compute; reflexivity|].
  split; [exact Hinv|]. split; vm_compute; reflexivity.
Defined.

Lemma people_repo_inv : @repo_inv domain_pglast sample_sqlglot sample_sha people_repo.
Proof. apply replace_spec; [apply empty_repo_inv|vm_compute; reflexivity]. Qed.

Lemma undo_redo_behaviour_witness :
  (@move_history domain_pglast sample_sqlglot sample_sha false 0 "alice" "ws" 0 Undo people_repo)
    = (people_repo, Err (DesignConflictError 1)) /\
  repo_inv (H := domain_pglast) (H0 := sample_sqlglot) (H1 := sample_sha)
    (move_history (H := domain_pglast) (H0 := sample_sqlglot) (H1 := sample_sha) false 0 "alice" "ws" 1 Undo people_repo).1.
Proof.
  split.
  - destruct (@undo_redo_behaviour domain_pglast sample_sqlglot sample_sha false 0 people_repo "alice" "ws" 0 Undo
      people_repo_inv) as (_ & _ & Hb). cbn zeta in Hb. vm_compute in Hb |- *. exact Hb.
  - destruct (@undo_redo_behaviour domain_pglast sample_sqlglot sample_sha false 0 people_repo "alice" "ws" 1 Undo
      people_repo_inv) as (Hinv & _ & _). exact Hinv.
Defined.
