(* ===== verification/DesignStoreReach.v ===== *)
(** * Reachable design repositories

    The remaining writers of [DesignStore] (initialisation, its rollback and layout
    replacement), the runs of the repository as sequences of calls, and what holds
    in every repository a run reaches: the invariant, the round trip of an edit and
    its undo, the positions of restored objects and the history view. *)

From Stdlib Require Import Ascii String.
From S2P Require Import Prelude Json JsonDelta HistoryRetention PyString DesignModels.
From S2P Require Import DefinitionAnalysis DesignValidation TypeOrder ValidationSpec DeletionImpact.
From S2P Require Import DeletionGraph HistorySummary DesignDocument CanonicalText DesignStore DesignStoreInv.
From S2P Require Import DesignStoreSpec.
Open Scope string_scope.
Open Scope list_scope.

Section reach.
Context `{Pglast} `{Sqlglot} `{Sha256}.
Variable query_sources : string -> json -> option (list (string * list string)).
Variable casefold : string -> string.
Variable set_order : list string -> list string.

Abbreviation replace := (replace query_sources casefold set_order).

(** ** Initialisation and its rollback *)

Lemma layout_check_NoDup layout :
  SchemiiDesignLayoutContent_check layout = true -> NoDup (pos_object_id <$> layout_objects layout).
Proof.
  unfold SchemiiDesignLayoutContent_check. intros [_ Hnd]%andb_true_iff. by apply bool_decide_eq_true in Hnd.
Qed.

(** The state [initialize] writes for its key. *)
Definition initialized (k : design_key) (content : SchemiiDesignContent) (layout : SchemiiDesignLayoutContent)
    (r : DesignRepo) : Prop :=
  rp_designs r !! k = Some {| design_workspace_id := k.2; design_revision := 1; design_content := content;
                              design_fingerprint_field := design_fingerprint content |} /\
  rp_layouts r !! k = Some {| layout_workspace_id := k.2; layout_revision := 1; layout_design_revision := 1;
                              layout_content := layout |} /\
  memory_of r k = remember (layout_objects layout) [].

Lemma single_chain_ok entry next m :
  (he_id entry < next)%Z -> he_parent_id entry = None -> content_ok (he_content entry) ->
  chain_ok (<[he_id entry := entry]> m) (he_id entry) (he_id entry) next [entry].
Proof.
  intros Hn Hp Hc. split; simpl; try done.
  - rewrite Forall_singleton. by rewrite lookup_insert_eq.
  - apply NoDup_singleton.
  - by rewrite Forall_singleton.
  - left.
  - intros i ?. simpl. lia.
  - by rewrite Forall_singleton.
Qed.

Lemma initialize_spec now r owner ws content layout :
  repo_inv r -> SchemiiDesignContent_check content = true -> SchemiiDesignLayoutContent_check layout = true ->
  let k := (owner, ws) in
  let out := initialize now owner ws content layout r in
  repo_inv out.1 /\ local_update k r out.1 /\
  match validate_design_content content with
  | Err e => out = (r, Err e)
  | Ok _ =>
      if decide (Forall (fun p => position_allowed content p = true) (layout_objects layout)) then
        match rp_designs r !! k with
        | Some d => out = (r, Err (DesignConflictError (design_revision d)))
        | None => initialized k content layout out.1 /\
                  out.2 = Ok (current_design out.1 k, current_layout out.1 k 1)
        end
      else out.1 = r /\ exists details, out.2 =
        Err (DesignValidationError "Initial layout positions must reference imported design objects" details)
  end.
Proof.
  intros Hinv Hcheck Hlcheck k out.
  assert (Hout : initialize now owner ws content layout r = out) by done. clearbody out.
  unfold initialize, m_lift in Hout. fold k in Hout. unfold m_bind at 1 in Hout.
  destruct (validate_design_content content) as [[]|e] eqn:Hv;
    [|subst out; split_and!; [done|apply local_update_refl|done]].
  unfold m_bind at 1 in Hout.
  destruct (check_positions _ _ _) as [u|e] eqn:Hp; cycle 1.
  { subst out. split_and!; [done|apply local_update_refl|].
    apply check_positions_Err in Hp as [[? ->] Hn]. rewrite decide_False by done. eauto. }
  apply check_positions_Ok in Hp. rewrite decide_True by done.
  unfold m_bind at 1, m_get at 1 in Hout. destruct (rp_designs r !! k) as [d|] eqn:Hd.
  { subst out. split_and!; [done|apply local_update_refl|done]. }
  unfold new_history_entry in Hout. run_method.
  set (entry := {| he_id := rp_next_history_id r |}) in Hout. set (r' := set_position_memory _ _) in Hout.
  subst out. cbn [fst snd].
  assert (Hmem : memory_of r' k = remember (layout_objects layout) []).
  { unfold memory_of. simpl. by rewrite lookup_insert_eq. }
  assert (Hini : initialized k content layout r').
  { unfold initialized. rewrite Hmem. simpl. by rewrite !lookup_insert_eq. }
  destruct Hini as (Hi1 & Hi2 & Hi3). unfold current_design, current_layout. rewrite Hi1, Hi2.
  assert (Hcur : current_design r' k = {| design_workspace_id := k.2; design_revision := 1;
    design_content := content; design_fingerprint_field := design_fingerprint content |})
    by (unfold current_design; by rewrite Hi1).
  assert (Hlocal : local_update k r r').
  { split; [|simpl; lia|done]. intros k' Hne. unfold same_at. simpl. by rewrite !lookup_insert_ne by done. }
  pose proof (layout_check_NoDup _ Hlcheck) as Hnd.
  split_and!; [|done|by split_and!|done]. eapply repo_inv_local; [done|done|]. split.
  - intros d. rewrite Hi1. intros [= <-]. simpl. rewrite lookup_insert_eq. split_and!; eauto; lia.
  - intros c t. simpl. rewrite !lookup_insert_eq. intros [= <- <-]. eexists _, [entry]. split; [reflexivity|].
    split; [apply single_chain_ok; [simpl; lia|done|split; done]|]. split; [simpl; lia|].
    exists 0, entry. by rewrite Hcur.
  - intros l. rewrite Hi2, Hcur. intros [= <-]. done.
  - intros l p. rewrite Hi2, Hmem. intros [= <-] Hin. by apply (dict_fill_elem pos_object_id).
  - rewrite Hmem. apply remember_ok, memory_ok_nil.
Qed.

Lemma discard_initialization_spec r owner ws :
  repo_inv r ->
  let k := (owner, ws) in
  let out := discard_initialization owner ws r in
  repo_inv out.1 /\ local_update k r out.1 /\ out.2 = Ok tt /\
  rp_designs out.1 !! k = None /\ rp_layouts out.1 !! k = None /\ rp_history out.1 !! k = None /\
  rp_history_state out.1 !! k = None /\ rp_position_memory out.1 !! k = None.
Proof.
  intros Hinv k out. unfold discard_initialization in out. unfold out. run_method. fold k.
  set (r' := {| rp_designs := delete k (rp_designs r) |}).
  assert (Hlocal : local_update k r r').
  { split; [|simpl; lia|done]. intros k' Hne. unfold same_at. simpl. by rewrite !lookup_delete_ne by done. }
  split_and!; simpl; try apply lookup_delete_eq; try done.
  eapply repo_inv_local; [done|done|].
  split; simpl; intros; rewrite ?lookup_delete_eq in *; try done.
  unfold memory_of. simpl. rewrite lookup_delete_eq. apply memory_ok_nil.
Qed.

(** ** Layout replacement *)

Lemma replace_layout_spec r owner ws request :
  repo_inv r -> SchemiiDesignLayoutContent_check (lrep_content request) = true ->
  let k := (owner, ws) in
  let out := replace_layout owner ws request r in
  let design := current_design r k in
  let current := current_layout r k (design_revision design) in
  repo_inv out.1 /\ local_update k r out.1 /\ rp_designs out.1 = rp_designs r /\
  rp_history out.1 = rp_history r /\ rp_history_state out.1 = rp_history_state r /\
  if decide (layout_revision current = lrep_expected_layout_revision request /\
             design_revision design = lrep_expected_design_revision request) then
    if decide (Forall (fun p => position_allowed (design_content design) p = true)
                 (layout_objects (lrep_content request))) then
      let revised := {| layout_workspace_id := ws; layout_revision := layout_revision current + 1;
                        layout_design_revision := design_revision design;
                        layout_content := lrep_content request |} in
      out.2 = Ok revised /\ rp_layouts out.1 !! k = Some revised /\
      memory_of out.1 k = remember (layout_objects (lrep_content request)) (memory_of r k)
    else out.1 = r /\ exists details, out.2 =
      Err (DesignValidationError "Layout positions must reference a design object on its correct layer" details)
  else out = (r, Err (DesignLayoutConflictError (layout_revision current) (design_revision design))).
Proof.
  intros Hinv Hlcheck k out design current.
  assert (Hout : replace_layout owner ws request r = out) by done. clearbody out.
  unfold replace_layout, m_lift, m_guard, guard_err in Hout. fold k in Hout.
  unfold m_bind at 1, m_get at 1 in Hout. fold design in Hout. fold current in Hout. unfold m_bind at 1 in Hout.
  destruct (decide (_ /\ _)) as [Hrev|Hrev]; cycle 1.
  { assert (Hb : negb (bool_decide (layout_revision current = lrep_expected_layout_revision request))
      || negb (bool_decide (design_revision design = lrep_expected_design_revision request)) = true).
    { rewrite orb_true_iff, !negb_true_iff, !bool_decide_eq_false.
      destruct (decide (layout_revision current = lrep_expected_layout_revision request)); [right; intros ?; by apply Hrev|by left]. }
    rewrite Hb in Hout.
    subst out. split_and!; try done. }
  destruct Hrev as [Hr1 Hr2]. rewrite !bool_decide_eq_true_2 in Hout by done. simpl in Hout.
  unfold m_bind at 1 in Hout. destruct (check_positions _ _ _) as [u|e] eqn:Hp; cycle 1.
  { subst out. simpl. split_and!; try done.
    apply check_positions_Err in Hp as [[? ->] Hn]. rewrite decide_False by done. eauto. }
  apply check_positions_Ok in Hp. rewrite decide_True by done. run_method.
  set (r' := set_position_memory _ _) in Hout. subst out. cbn [fst snd].
  assert (Hmem : memory_of r' k = remember (layout_objects (lrep_content request)) (memory_of r k)).
  { unfold memory_of at 1. simpl. by rewrite lookup_insert_eq. }
  assert (Hlocal : local_update k r r').
  { split; [|simpl; lia|done]. intros k' Hne. unfold same_at. simpl. by rewrite !lookup_insert_ne by done. }
  pose proof (layout_check_NoDup _ Hlcheck) as Hnd. pose proof (ri_keys _ Hinv k) as Hk.
  split_and!; try done; [|simpl; by rewrite lookup_insert_eq].
  eapply repo_inv_local; [done|done|]. change (current_design r' k) with design. split; simpl.
  - apply Hk.
  - apply Hk.
  - intros l. rewrite lookup_insert_eq. intros [= <-]. done.
  - intros l p. rewrite lookup_insert_eq, Hmem. intros [= <-] Hin. by apply (dict_fill_elem pos_object_id).
  - rewrite Hmem. apply remember_ok, Hk.
Qed.

(** ** Reads *)

Lemma active_chain_state r k p : active_chain r k = Ok p -> is_Some (rp_history_state r !! k).
Proof. unfold active_chain. destruct (rp_history_state r !! k); [eauto|done]. Qed.

(** Every read first makes sure that a history exists and then walks its chain. *)
Lemma ensure_chain now r k :
  repo_inv r ->
  exists r1 chain i e, ensure_history now k (current_design r k) r = (r1, Ok tt) /\
    repo_inv r1 /\ local_update k r r1 /\ unchanged k r r1 /\
    active_chain r1 k = Ok (chain, i) /\ chain !! i = Some e /\
    he_content e = design_content (current_design r k) /\ compact chain /\
    Forall (fun e => content_ok (he_content e)) chain /\
    (is_Some (rp_history_state r !! k) -> r1 = r).
Proof.
  intros Hinv. pose proof (ensure_history_present now r k) as Hp.
  destruct (ensure_history_spec now r k Hinv) as (r1 & He & Hinv1 & Hlu & Hd & Hl & Hm & [[cursor tip] Hs]).
  destruct (active_chain_spec r1 k cursor tip (ri_keys _ Hinv1 k) Hs) as
    (by_id & chain & i & e & _ & Hc & Hact & Hi & _ & Hcon & _).
  assert (Hun : unchanged k r r1) by (unfold unchanged; by rewrite Hd, Hl).
  exists r1, chain, i, e. rewrite <-(unchanged_design _ _ _ Hun). split_and!; try done; try apply Hc.
  - by rewrite (unchanged_design _ _ _ Hun).
  - intros Hs0. specialize (Hp Hs0). congruence.
Qed.

Lemma history_state_spec now r owner ws baseline :
  repo_inv r ->
  let k := (owner, ws) in
  let out := history_state casefold set_order now owner ws baseline r in
  repo_inv out.1 /\ local_update k r out.1 /\ unchanged k r out.1 /\
  exists chain i e, active_chain out.1 k = Ok (chain, i) /\ chain !! i = Some e /\
    he_content e = design_content (current_design r k) /\
    Forall (fun e => content_ok (he_content e)) chain /\
    (is_Some (rp_history_state r !! k) -> out.1 = r) /\ is_Some (rp_history_state out.1 !! k) /\
    out.2 = history_state_of casefold set_order (current_design r k) chain i baseline.
Proof.
  intros Hinv k out. destruct (ensure_chain now r k Hinv) as
    (r1 & chain & i & e & He & Hinv1 & Hlu & Hun & Hact & Hi & Hcon & _ & Hf & Hsame).
  assert (Hout : out = (r1, history_state_of casefold set_order (current_design r k) chain i baseline)).
  { unfold out, history_state. fold k. run_method. rewrite He. simpl. by rewrite Hact. }
  rewrite Hout. simpl. split_and!; try done. exists chain, i, e. split_and!; try done.
  by eapply active_chain_state.
Qed.

Lemma initial_content_spec now r owner ws :
  repo_inv r ->
  let k := (owner, ws) in
  let out := initial_content now owner ws r in
  repo_inv out.1 /\ local_update k r out.1 /\ unchanged k r out.1 /\ exists p, out.2 = Ok p.
Proof.
  intros Hinv k out. destruct (ensure_chain now r k Hinv) as
    (r1 & chain & i & e & He & Hinv1 & Hlu & Hun & Hact & Hi & _).
  destruct chain as [|root rest]; [done|].
  assert (Hout : out = (r1, Ok (he_source_design_revision root, he_content root))).
  { unfold out, initial_content. fold k. run_method. rewrite He. simpl. by rewrite Hact. }
  rewrite Hout. simpl. split_and!; eauto.
Qed.

Lemma current_layout_revision r k :
  key_ok r k -> layout_design_revision (current_layout r k (design_revision (current_design r k))) =
    design_revision (current_design r k).
Proof.
  intros Hk. unfold current_layout. destruct (rp_layouts r !! k) as [l|] eqn:E; [|done].
  by apply (ko_layout _ _ Hk l E).
Qed.

Lemma history_state_of_revision design chain i baseline st :
  history_state_of casefold set_order design chain i baseline = Ok st ->
  hs_design_revision st = design_revision design.
Proof. unfold history_state_of. intros Hok. repeat result_inv. by simplify_eq/=. Qed.

Lemma snapshot_spec now r owner ws baseline :
  repo_inv r ->
  let k := (owner, ws) in
  let out := snapshot casefold set_order now owner ws baseline r in
  let seen := history_state casefold set_order now owner ws baseline r in
  out.1 = seen.1 /\
  out.2 = result_bind seen.2 (fun history =>
    Ok {| snap_design := current_design r k;
          snap_layout := current_layout r k (design_revision (current_design r k));
          snap_history := history |}).
Proof.
  intros Hinv k out seen. destruct (ensure_chain now r k Hinv) as
    (r1 & chain & i & e & He & _ & _ & Hun & Hact & _).
  assert (Hl : forall n, current_layout r1 k n = current_layout r k n).
  { intros n. unfold current_layout. by rewrite (proj1 (proj2 Hun)). }
  unfold out, seen, snapshot, history_state. fold k. run_method. rewrite He. simpl. rewrite Hact. simpl.
  rewrite Hl. destruct (history_state_of _ _ _ _ _ _) as [st|err] eqn:Hst; [|done]. simpl. split; [done|].
  unfold make_snapshot, guard_err. rewrite bool_decide_eq_true_2; [done|].
  rewrite current_layout_revision by apply Hinv. by rewrite (history_state_of_revision _ _ _ _ _ Hst).
Qed.

(** ** Runs *)

(** One call of a public method, with a request the models accept. *)
Inductive repo_step (r : DesignRepo) : DesignRepo -> Prop :=
| step_initialize now owner ws content layout :
    SchemiiDesignContent_check content = true -> SchemiiDesignLayoutContent_check layout = true ->
    repo_step r (initialize now owner ws content layout r).1
| step_discard owner ws : repo_step r (discard_initialization owner ws r).1
| step_get owner ws : repo_step r (get owner ws r).1
| step_replace guard now owner ws request kind :
    SchemiiDesignContent_check (drep_content request) = true ->
    repo_step r (replace guard now owner ws request kind r).1
| step_undo guard now owner ws expected : repo_step r (undo guard now owner ws expected r).1
| step_redo guard now owner ws expected : repo_step r (redo guard now owner ws expected r).1
| step_history_state now owner ws baseline :
    repo_step r (history_state casefold set_order now owner ws baseline r).1
| step_snapshot now owner ws baseline :
    repo_step r (snapshot casefold set_order now owner ws baseline r).1
| step_initial_content now owner ws : repo_step r (initial_content now owner ws r).1
| step_get_layout owner ws : repo_step r (get_layout owner ws r).1
| step_replace_layout owner ws request :
    SchemiiDesignLayoutContent_check (lrep_content request) = true ->
    repo_step r (replace_layout owner ws request r).1.

(** The repositories any sequence of calls leads to. *)
Definition reachable (r : DesignRepo) : Prop :=
  exists limit start, InMemoryDesignRepository limit = Some start /\ rtc repo_step start r.

Lemma step_inv r r' : repo_inv r -> repo_step r r' -> repo_inv r'.
Proof.
  intros Hinv Hstep. destruct Hstep; try done.
  - by apply initialize_spec.
  - by apply discard_initialization_spec.
  - by apply replace_spec.
  - by apply (move_spec guard now r owner ws expected Undo).
  - by apply (move_spec guard now r owner ws expected Redo).
  - by apply history_state_spec.
  - rewrite (proj1 (snapshot_spec now r owner ws baseline Hinv)). by apply history_state_spec.
  - by apply initial_content_spec.
  - by apply replace_layout_spec.
Qed.

Lemma reachable_inv r : reachable r -> repo_inv r.
Proof.
  intros (limit & start & Hs & Hr). apply start_inv in Hs.
  induction Hr as [|x y z Hxy _ IH]; [done|]. by eapply IH, step_inv.
Qed.

(** C3. In every reachable repository and for every workspace: a stored design is
    valid, has a positive revision and the fingerprint of its content; a history is
    one chain the walk from its tip returns, of at most two entries more than the
    action limit, and its cursor holds the current design; a stored layout carries
    the revision of the current design and places objects of it, on their layer
    and at most once. *)
Theorem reachable_repositories r k :
  reachable r ->
  (forall d, rp_designs r !! k = Some d ->
    validate_design_content (design_content d) = Ok tt /\ (1 <= design_revision d)%Z /\
    design_fingerprint_field d = design_fingerprint (design_content d)) /\
  (is_Some (rp_history_state r !! k) -> exists chain i,
    active_chain r k = Ok (chain, i) /\ length chain <= rp_history_action_limit r + 2 /\
    NoDup (he_id <$> chain) /\
    he_content <$> chain !! i = Some (design_content (current_design r k))) /\
  (forall l, rp_layouts r !! k = Some l ->
    layout_design_revision l = design_revision (current_design r k) /\
    positions_ok (design_content (current_design r k)) (layout_objects (layout_content l))).
Proof.
  intros Hr. apply reachable_inv in Hr as [Hk _]. specialize (Hk k). split_and!.
  - intros d Hd. destruct (ko_design _ _ Hk d Hd) as (_ & Hrev & Hf & [[cursor tip] Hs]).
    split_and!; [|done|done].
    destruct (active_chain_spec r k _ _ Hk Hs) as (by_id & chain & i & e & _ & Hc & _ & Hi & _ & Hcon & _).
    unfold current_design in Hcon. rewrite Hd in Hcon. rewrite <-Hcon.
    pose proof (ch_contents _ _ _ _ _ Hc) as Hall. rewrite Forall_forall in Hall.
    by apply Hall; eapply list_elem_of_lookup_2.
  - intros [[cursor tip] Hs].
    destruct (active_chain_spec r k _ _ Hk Hs) as (by_id & chain & i & e & _ & Hc & Hact & Hi & _ & Hcon & Hlen).
    exists chain, i. split_and!; [done|done|apply Hc|]. rewrite Hi. simpl. by rewrite Hcon.
  - intros l Hl. by apply (ko_layout _ _ Hk l Hl).
Qed.

(** ** An edit and its undo *)

Lemma placed_objects r k p :
  key_ok r k -> p ∈ layout_objects (layout_content (current_layout r k (design_revision (current_design r k)))) ->
  dget (pos_object_id p) (memory_of r k) = Some p /\
  position_allowed (design_content (current_design r k)) p = true.
Proof.
  intros Hk. unfold current_layout. destruct (rp_layouts r !! k) as [l|] eqn:E; [|set_solver].
  intros Hp. split; [by apply (ko_covers _ _ Hk l)|].
  destruct (ko_layout _ _ Hk l E) as [_ [_ Hall]]. rewrite Forall_forall in Hall. by apply Hall.
Qed.

(** C2. Undoing an accepted change: when the change starts a new action, undo
    succeeds from the revision it returned, restores the content before it, and
    every object that was placed is placed again where it was, even one the change
    had removed. *)
Theorem undo_after_replace now now' r owner ws request kind r1 d1 :
  let k := (owner, ws) in
  reachable r -> SchemiiDesignContent_check (drep_content request) = true ->
  replace false now owner ws request kind r = (r1, Ok d1) ->
  design_revision d1 <> design_revision (current_design r k) ->
  starts_action r k (drep_history_group_id request) = true ->
  exists r2 d2, undo false now' owner ws (design_revision d1) r1 = (r2, Ok d2) /\
    design_content d2 = design_content (current_design r k) /\
    design_revision d2 = (design_revision (current_design r k) + 2)%Z /\
    forall p, p ∈ layout_objects (layout_content (current_layout r k (design_revision (current_design r k)))) ->
      p ∈ layout_objects (layout_content (current_layout r2 k (design_revision d2))).
Proof.
  intros k Hr Hcheck Hrep Hne Hst. apply reachable_inv in Hr as Hinv.
  destruct (replace_spec query_sources casefold set_order false now r owner ws request kind Hinv Hcheck)
    as (Hinv1 & _ & Hout). rewrite Hrep in Hinv1, Hout. cbn [fst snd andb] in *.
  destruct (validate_design_content _) as [[]|e]; [|done]. unfold replace_outcome in Hout. cbn zeta in Hout. fold k in Hout.
  case_decide; [naive_solver|]. case_decide; [naive_solver|].
  destruct (checked_transition _ _ _ _ _) as [[]|e]; [|naive_solver].
  destruct Hout as ([= ->] & Hcur & _ & Hm & Hlead). simpl in Hcur, Hm, Hlead.
  destruct (Hlead Hst) as (chain & i & j & e & Hact & Hj & He & Hcon).
  destruct (move_spec false now' r1 owner ws (design_revision (current_design r1 k)) Undo Hinv1)
    as (_ & _ & Hmv). fold k in Hmv. cbn zeta in Hmv. rewrite decide_False in Hmv by naive_solver.
  destruct Hmv as (r1' & chain' & i' & _ & Hsame & Hact' & _ & _ & _ & _ & Hmv).
  rewrite Hsame, Hact in Hact' by (by apply active_chain_state in Hact). injection Hact' as <- <-.
  rewrite Hj in Hmv. destruct Hmv as (target & Ht & Hres & _ & Hlay & _). rewrite He in Ht. injection Ht as <-.
  rewrite Hcur in Hres. rewrite Hcur in Hlay. unfold undo.
  destruct (move_history _ _ _ _ _ Undo r1) as [r2 res]. simpl in Hres, Hlay. subst res.
  eexists r2, _. split; [reflexivity|]. split_and!; [done|simpl; lia|].
  intros p Hp. apply placed_objects in Hp as [Hpm Hpa]; [|apply Hinv].
  unfold current_layout at 1. rewrite Hlay. apply (elem_of_advanced_layout r1 k); [apply Hinv1|].
  rewrite Hm. simpl. by rewrite Hcon.
Qed.

(** Redo after undo restores the design exactly: the same content (two
    revisions later), whatever was retained, with the same remembered positions. *)
Theorem redo_restores_design now now' r owner ws expected r1 d1 :
  reachable r ->
  undo false now owner ws expected r = (r1, Ok d1) ->
  exists r2 d2, redo false now' owner ws (design_revision d1) r1 = (r2, Ok d2) /\
    design_content d2 = design_content (current_design r (owner, ws)) /\
    design_revision d2 = (design_revision (current_design r (owner, ws)) + 2)%Z /\
    memory_of r2 (owner, ws) = memory_of r (owner, ws).
Proof.
  intros Hr Hundo. apply reachable_inv in Hr as Hinv. set (k := (owner, ws)).
  pose proof (move_spec false now r owner ws expected Undo Hinv) as (Hinv1 & _ & Hb). cbn zeta in Hb.
  unfold undo in Hundo. rewrite Hundo in Hb, Hinv1. simpl in Hb, Hinv1. fold k in Hb.
  destruct (decide _); [done|].
  destruct Hb as (r0 & chain & i & _ & _ & Hact & Hi & Hcomp & Hcon & _ & Hb).
  destruct (history_target_index chain i Undo) as [j|] eqn:Hj; [|by destruct Hb].
  destruct Hb as (target & Ht & [= ->] & Hcur & _ & Hm & Hs & Hact1). simpl in Hcur, Hm, Hs, Hact1.
  destruct (compact_redo_undo chain i j Hcomp Hi Hj) as [-> Hredo].
  pose proof (move_spec false now' r1 owner ws
    (design_revision (revised_design k (current_design r k) (he_content target))) Redo Hinv1) as (_ & _ & Hb').
  cbn zeta in Hb'. fold k in Hb'. rewrite Hcur in Hb'.
  rewrite decide_False in Hb' by (intros Hd; by apply Hd).
  destruct Hb' as (r0' & chain' & i' & _ & Hsame & Hact1' & _ & _ & _ & _ & Hb').
  rewrite (Hsame Hs), Hact1 in Hact1'. injection Hact1' as <- <-.
  rewrite Hredo in Hb'. destruct Hb' as (e & He & Hout & _ & _ & Hm' & _).
  unfold redo. destruct (move_history _ _ _ _ _ Redo r1) as [r2 res] eqn:Eq. simpl in Hout, Hm'. subst res.
  eexists r2, _. split; [reflexivity|]. rewrite He in Hcon. simpl in Hcon. injection Hcon as Hcon.
  split_and!; [done| |by rewrite Hm', Hm]. simpl. rewrite Hcur. simpl. lia.
Qed.

(** ** The history view *)

(** The previewed action of a direction. *)
Definition previewed (action : history_action) (st : DesignHistoryState) : option DesignHistoryAction :=
  match action with Undo => hs_undo st | Redo => hs_redo st end.

(** The delta of a preview leads from the document under the cursor to the target. *)
Definition preview_of (chain : list MemoryHistoryEntry) (i : nat) (action : history_action)
    (preview : option DesignHistoryAction) : Prop :=
  match preview with
  | None => history_target_index chain i action = None
  | Some a => exists j te ce, history_target_index chain i action = Some j /\
      chain !! j = Some te /\ chain !! i = Some ce /\
      ha_delta a = json_delta (content_document true (he_content ce)) (content_document true (he_content te))
  end.

Lemma history_view_preview chain i b action view :
  history_view casefold set_order chain i b (history_target_index chain i action) action = Ok view ->
  preview_of chain i action view.
Proof.
  unfold history_view, preview_of. destruct (history_target_index chain i action) as [j|] eqn:Hj; [|by intros [= <-]].
  destruct (chain !! j) as [te|] eqn:Ht, (chain !! i) as [ce|] eqn:Hc; try done.
  destruct action; unfold make_action; intros Hok; result_inv; by exists j, te, ce.
Qed.

Lemma history_state_previews design chain i baseline st action :
  history_state_of casefold set_order design chain i baseline = Ok st ->
  preview_of chain i action (previewed action st).
Proof.
  unfold history_state_of. intros Hok. result_inv. destruct action; simpl; by eapply history_view_preview.
Qed.

Lemma content_delta_roundtrip a b :
  content_ok a -> content_ok b ->
  exists doc, applyJsonDelta (content_document true a) (json_delta (content_document true a) (content_document true b))
    = Some doc /\ py_eq doc (content_document true b) = true.
Proof.
  intros [_ Ha] [_ Hb]. apply (content_document_ok true) in Ha as [Hwa Hsa].
  apply (content_document_ok true) in Hb as [Hwb Hsb].
  destruct (append_delta_sub_ok _ Hwb Hsb _ Hwa Hsa) as (_ & _ & doc & Hd & Heq & _). by exists doc.
Qed.

(** The history view tells what undo and redo will do.  A previewed action can
    be taken from the revision on view, and its delta, applied in the browser to the
    current document, gives the document of the design the action returns; without
    a preview the action raises the boundary error. *)
Theorem history_preview_exact now now' r owner ws baseline r1 st action :
  let k := (owner, ws) in
  reachable r -> history_state casefold set_order now owner ws baseline r = (r1, Ok st) ->
  let out := move_history false now' owner ws (hs_design_revision st) action r1 in
  match previewed action st with
  | None => out.2 = Err (DesignHistoryBoundaryError (action_text action))
  | Some a =>
      exists d doc, out.2 = Ok d /\
        applyJsonDelta (content_document true (design_content (current_design r k))) (ha_delta a) = Some doc /\
        py_eq doc (content_document true (design_content d)) = true
  end.
Proof.
  intros k Hr Hst out. apply reachable_inv in Hr as Hinv.
  destruct (history_state_spec now r owner ws baseline Hinv) as
    (Hinv1 & _ & Hun & chain & i & e & Hact & Hi & Hcon & Hall & _ & Hs & Hres).
  rewrite Hst in *. simpl in Hinv1, Hun, Hact, Hs, Hres. fold k in Hun, Hact, Hcon, Hs, Hres.
  symmetry in Hres. pose proof (history_state_of_revision _ _ _ _ _ Hres) as Hrev.
  pose proof (history_state_previews _ _ _ _ _ action Hres) as Hpre.
  destruct (move_spec false now' r1 owner ws (hs_design_revision st) action Hinv1) as (_ & _ & Hmv).
  fold k out in Hmv. cbn zeta in Hmv. rewrite (unchanged_design _ _ _ Hun) in Hmv.
  rewrite decide_False in Hmv by naive_solver.
  destruct Hmv as (r1' & chain' & i' & _ & Hsame & Hact' & _ & _ & _ & _ & Hmv).
  rewrite (Hsame Hs), Hact in Hact'. injection Hact' as <- <-.
  unfold preview_of in Hpre. destruct (previewed action st) as [a|].
  - destruct Hpre as (j & te & ce & Hj & Ht & Hc & Hd). rewrite Hj in Hmv.
    destruct Hmv as (target & Ht' & Ho & _). assert (target = te) as -> by congruence.
    assert (ce = e) as -> by congruence. rewrite Forall_forall in Hall.
    assert (Hok : content_ok (he_content e) /\ content_ok (he_content te)).
    { split; apply Hall; by eapply list_elem_of_lookup_2. }
    destruct (content_delta_roundtrip (he_content e) (he_content te)) as (doc & Hdoc & Heq); [apply Hok..|].
    eexists _, doc. split; [exact Ho|]. rewrite Hd, <-Hcon. done.
  - rewrite Hpre in Hmv. apply Hmv.
Qed.

(** A workspace snapshot is one consistent view: it shows the current design,
    the layout and the history of the same revision, and it never fails the
    revision check of its model; it raises exactly when the history view does. *)
Theorem snapshot_consistent now r owner ws baseline :
  let k := (owner, ws) in
  reachable r ->
  let seen := snd (history_state casefold set_order now owner ws baseline r) in
  match snd (snapshot casefold set_order now owner ws baseline r) with
  | Ok s => snap_design s = current_design r k /\
      snap_layout s = current_layout r k (design_revision (current_design r k)) /\
      layout_design_revision (snap_layout s) = design_revision (snap_design s) /\
      hs_design_revision (snap_history s) = design_revision (snap_design s) /\
      seen = Ok (snap_history s)
  | Err e => seen = Err e
  end.
Proof.
  intros k Hr seen. apply reachable_inv in Hr as Hinv.
  rewrite (proj2 (snapshot_spec now r owner ws baseline Hinv)). fold seen k.
  destruct seen as [st|e] eqn:Hseen; [|done]. simpl. split_and!; try done; [by apply current_layout_revision, Hinv|].
  destruct (history_state_spec now r owner ws baseline Hinv) as (_ & _ & _ & chain & i & e & _ & _ & _ & _ & _ & _ & Hres).
  unfold seen in Hseen. rewrite Hseen in Hres. by eapply history_state_of_revision.
Qed.
End reach.

(** ** Witnesses *)

#[local] Existing Instances domain_pglast sample_sqlglot sample_sha.

Abbreviation sample_reachable := (reachable no_queries id id).

(** A repository with one table, placed on the canvas. *)
Definition people_position : DesignObjectPosition :=
  {| pos_object_id := sample_id "table" "1"; pos_layer := LTables;
     pos_x := SpecFloat.S754_zero false; pos_y := SpecFloat.S754_zero false |}.

Definition place_people : SchemiiDesignLayoutReplace :=
  {| lrep_expected_layout_revision := 1; lrep_expected_design_revision := 1;
     lrep_content := {| layout_objects := [people_position] |} |}.

Definition placed_repo : DesignRepo := (replace_layout "alice" "ws" place_people people_repo).1.

Lemma people_repo_reachable : sample_reachable people_repo.
Proof.
  exists 100%Z, empty_repo. split; [reflexivity|]. apply rtc_once.
  exact (step_replace no_queries id id empty_repo false 0 "alice" "ws" (people_request 0) "edit"
    ltac:(vm_compute; reflexivity)).
Qed.

Lemma placed_repo_reachable : sample_reachable placed_repo.
Proof.
  exists 100%Z, empty_repo. split; [reflexivity|].
  eapply rtc_l; [exact (step_replace no_queries id id empty_repo false 0 "alice" "ws" (people_request 0) "edit"
    ltac:(vm_compute; reflexivity))|].
  apply rtc_once. exact (step_replace_layout no_queries id id people_repo "alice" "ws" place_people
    ltac:(vm_compute; reflexivity)).
Qed.

Lemma reachable_repositories_witness :
  exists l, rp_layouts placed_repo !! ("alice", "ws") = Some l /\
    layout_objects (layout_content l) = [people_position] /\
    layout_design_revision l = design_revision (current_design placed_repo ("alice", "ws")).
Proof.
  eexists. split; [vm_compute; reflexivity|]. split; [vm_compute; reflexivity|].
  destruct (reachable_repositories no_queries id id placed_repo ("alice", "ws")
    placed_repo_reachable) as (_ & _ & Hl).
  eapply Hl. vm_compute. reflexivity.
Defined.

(** Dropping the table and undoing the drop places it again. *)
Definition drop_people : SchemiiDesignReplace :=
  {| drep_expected_design_revision := 1; drep_content := EMPTY_DESIGN_CONTENT; drep_history_group_id := None |}.

Definition dropped_repo : DesignRepo := (sample_replace false 0 "alice" "ws" drop_people "edit" placed_repo).1.

Lemma undo_after_replace_witness :
  rp_layouts dropped_repo !! ("alice", "ws") =
    Some {| layout_workspace_id := "ws"; layout_revision := 3; layout_design_revision := 2;
            layout_content := {| layout_objects := [] |} |} /\
  exists r2 d2, undo false 0 "alice" "ws" 2
      dropped_repo = (r2, Ok d2) /\
    design_content d2 = people_design /\
    people_position ∈ layout_objects (layout_content (current_layout r2 ("alice", "ws")
      (design_revision d2))).
Proof.
  split; [vm_compute; reflexivity|].
  edestruct (undo_after_replace no_queries id id 0 0 placed_repo "alice" "ws"
    drop_people "edit" dropped_repo) as (r2 & d2 & Hu & Hc & _ & Hp);
    [exact placed_repo_reachable|vm_compute; reflexivity|vm_compute; reflexivity|vm_compute; discriminate|
     vm_compute; reflexivity|].
  exists r2, d2. split; [exact Hu|]. split; [exact Hc|]. apply Hp.
  vm_compute. left.
Defined.

Definition start_baseline : DesignHistoryBaseline :=
  {| hb_kind := BWorkspaceStart; hb_id := "start"; hb_revision := 0; hb_design_revision := 0;
     hb_label := "Workspace start"; hb_fingerprint := ""; hb_complete := true |}.

Lemma history_preview_exact_witness :
  exists r1 st, history_state id id 0 "alice" "ws"
      start_baseline placed_repo = (r1, Ok st) /\
    is_Some (hs_undo st) /\ hs_redo st = None /\
    (move_history false 0 "alice" "ws"
      (hs_design_revision st) Redo r1).2 = Err (DesignHistoryBoundaryError "redo").
Proof.
  do 2 eexists. split; [vm_compute; reflexivity|]. split; [vm_compute; eauto|]. split; [reflexivity|].
  match goal with |- (move_history _ _ _ _ (hs_design_revision ?st) _ ?r1).2 = _ =>
    exact (history_preview_exact no_queries id id 0 0 placed_repo "alice" "ws" start_baseline r1 st Redo
      placed_repo_reachable ltac:(vm_compute; reflexivity)) end.
Defined.

Lemma snapshot_consistent_witness :
  exists s, (snapshot id id 0 "alice" "ws"
      start_baseline placed_repo).2 = Ok s /\
    layout_design_revision (snap_layout s) = design_revision (snap_design s).
Proof.
  eexists. split; [vm_compute; reflexivity|].
  pose proof (snapshot_consistent no_queries id id 0 placed_repo "alice" "ws"
    start_baseline placed_repo_reachable) as Hs. vm_compute in Hs |- *. apply Hs.
Defined.

Lemma redo_restores_design_witness :
  exists r1 d1 r2 d2,
    undo false 0 "alice" "ws" 1 people_repo = (r1, Ok d1) /\
    redo false 0 "alice" "ws" (design_revision d1) r1 = (r2, Ok d2) /\
    design_content d2 = people_design /\ design_revision d2 = 3%Z.
Proof.
  do 2 eexists.
  edestruct (redo_restores_design no_queries id id 0 0 people_repo "alice" "ws" 1)
    as (r2 & d2 & Hredo & Hc & Hr & _); [exact people_repo_reachable|vm_compute; reflexivity|].
  exists r2, d2. split; [vm_compute; reflexivity|]. split; [exact Hredo|]. split; [exact Hc|exact Hr].
Defined.
