(* ===== verification/MigrationModels.v ===== *)
(** * Migration reviews and executions: data

    [schemii/migrations/models.py] and the records of [migrations/repository.py]:
    plans, executions, baselines, the legal status transitions and the exceptions.
    Values of type [Any] are [json]; a [datetime] is a [Z]; the inspected catalog is
    a type parameter, of which the repository only reads the fingerprint. *)

From Stdlib Require Import Ascii String.
From S2P Require Import Prelude Json PyString DesignModels DefinitionAnalysis DesignValidation.
Open Scope string_scope.

(** ** Enumerations *)

Inductive plan_status := PReviewable | PBlocked | PExpired | PClaimed | PResolved.
Inductive drift_status := DriftNone | DriftCompatible | DriftConflicting.
Inductive execution_status := SReserved | SApplying | SSucceeded | SFailed | SUncertain | SReconciliationRequired.
Inductive migration_object_kind :=
| MSchema | MType | MTable | MColumn | MConstraint | MIndex | MRelationship | MFunction
| MProcedure | MView | MMaterializedView | MTrigger.
Inductive external_operation := XAdded | XRemoved | XChanged | XRenamed.
Inductive conflict_category := CDirect | CStructural | CDependency | COpaque.
Inductive conflict_resolution := PullLive | KeepDesign.
Inductive commit_outcome_kind := Committed | RolledBack | CommitUncertain.
Inductive sync_kind := SyncPending | SyncSucceeded | SyncConflict | SyncFailed.
Inductive conversion_strategy := Strict | Custom.

#[export] Instance conversion_strategy_eq_dec : EqDecision conversion_strategy. Proof. solve_decision. Defined.

#[export] Instance plan_status_eq_dec : EqDecision plan_status. Proof. solve_decision. Defined.
#[export] Instance execution_status_eq_dec : EqDecision execution_status. Proof. solve_decision. Defined.
#[export] Instance commit_outcome_eq_dec : EqDecision commit_outcome_kind. Proof. solve_decision. Defined.
#[export] Instance sync_kind_eq_dec : EqDecision sync_kind. Proof. solve_decision. Defined.

Definition execution_status_text (s : execution_status) : string :=
  match s with
  | SReserved => "reserved" | SApplying => "applying" | SSucceeded => "succeeded" | SFailed => "failed"
  | SUncertain => "uncertain" | SReconciliationRequired => "reconciliation_required"
  end.

(** ** Parts of a plan *)

Record ColumnTypeConversion := {
  ctc_column_id : string;
  ctc_table_id : string;
  ctc_table_name : string;
  ctc_column_name : string;
  ctc_source_type : string;
  ctc_target_type : string;
  ctc_reason : string;
  ctc_default_expression : string;
  ctc_strategy : option conversion_strategy;
  ctc_expression : option string;
  ctc_validation_error : option string;
}.

Record MigrationWarning := {
  mw_code : string;
  mw_message : string;
  mw_object_path : option string;
}.

Record MigrationExternalChange := {
  mec_id : string;
  mec_object_kind : migration_object_kind;
  mec_object_path : string;
  mec_operation : external_operation;
  mec_summary : string;
  mec_baseline_value : json;
  mec_live_value : json;
}.

Record MigrationConflict := {
  mcf_id : string;
  mcf_category : conflict_category;
  mcf_object_kind : migration_object_kind;
  mcf_object_path : string;
  mcf_summary : string;
  mcf_baseline_value : json;
  mcf_design_value : json;
  mcf_live_value : json;
  mcf_affected_objects : list string;
  mcf_allowed_resolutions : list conflict_resolution;
}.

Record MigrationStep := {
  mst_index : Z;
  mst_object_kind : migration_object_kind;
  mst_object_path : string;
  mst_operation : string;
  mst_sql : string;
  mst_destructive : bool;
  mst_requires_lock : bool;
  mst_data_movement : bool;
}.

Record MigrationColumnOrderRebuild := {
  mcr_table_id : string;
  mcr_table_name : string;
  mcr_current_order : list string;
  mcr_desired_order : list string;
  mcr_selected : bool;
  mcr_eligible : bool;
  mcr_contains_data : bool;
  mcr_blocking_reasons : list string;
}.

(** ** Plans and executions *)

Record MigrationPlan := {
  mp_id : string;
  mp_workspace_id : string;
  mp_status : plan_status;
  mp_workspace_revision : Z;
  mp_design_revision : Z;
  mp_design_fingerprint : string;
  mp_baseline_revision : Z;
  mp_catalog_fingerprint : string;
  mp_merged_design_fingerprint : string;
  mp_review_digest : string;
  mp_drift_status : drift_status;
  mp_complete : bool;
  mp_apply_capable : bool;
  mp_destructive : bool;
  mp_column_type_conversions : list ColumnTypeConversion;
  mp_requires_external_change_acknowledgement : bool;
  mp_column_order_rebuilds : list MigrationColumnOrderRebuild;
  mp_steps : list MigrationStep;
  mp_external_changes : list MigrationExternalChange;
  mp_conflicts : list MigrationConflict;
  mp_warnings : list MigrationWarning;
  mp_blocking_differences : list MigrationWarning;
  mp_created_at : Z;
  mp_expires_at : Z;
}.

(** [plan.model_copy(update={"status": status})]. *)
Definition with_plan_status (status : plan_status) (p : MigrationPlan) : MigrationPlan :=
  {| mp_id := mp_id p; mp_workspace_id := mp_workspace_id p; mp_status := status;
     mp_workspace_revision := mp_workspace_revision p; mp_design_revision := mp_design_revision p;
     mp_design_fingerprint := mp_design_fingerprint p; mp_baseline_revision := mp_baseline_revision p;
     mp_catalog_fingerprint := mp_catalog_fingerprint p;
     mp_merged_design_fingerprint := mp_merged_design_fingerprint p; mp_review_digest := mp_review_digest p;
     mp_drift_status := mp_drift_status p; mp_complete := mp_complete p; mp_apply_capable := mp_apply_capable p;
     mp_destructive := mp_destructive p; mp_column_type_conversions := mp_column_type_conversions p;
     mp_requires_external_change_acknowledgement := mp_requires_external_change_acknowledgement p;
     mp_column_order_rebuilds := mp_column_order_rebuilds p; mp_steps := mp_steps p;
     mp_external_changes := mp_external_changes p; mp_conflicts := mp_conflicts p; mp_warnings := mp_warnings p;
     mp_blocking_differences := mp_blocking_differences p; mp_created_at := mp_created_at p;
     mp_expires_at := mp_expires_at p |}.

(** [error_message] is filled by [model_copy], which does not validate, from a
    member of the error detail; [JNull] is [None]. *)
Record MigrationExecution := {
  mx_id : string;
  mx_plan_id : string;
  mx_workspace_id : string;
  mx_revision : Z;
  mx_status : execution_status;
  mx_completed_step_count : Z;
  mx_transaction_id : option string;
  mx_commit_outcome : option commit_outcome_kind;
  mx_sync_status : option sync_kind;
  mx_error_code : option string;
  mx_error_message : json;
  mx_reconcile_required : bool;
  mx_recovery_available_at : option Z;
  mx_created_at : Z;
  mx_updated_at : Z;
}.

Record MigrationDriftResolution := {
  mdr_id : string;
  mdr_plan_id : string;
  mdr_workspace_id : string;
  mdr_design_revision : Z;
  mdr_design_fingerprint : string;
  mdr_baseline_revision : Z;
  mdr_catalog_fingerprint : string;
  mdr_incorporated_external_changes : list MigrationExternalChange;
  mdr_created_at : Z;
}.

Record ColumnTypeConversionChoice := {
  ccc_column_id : string;
  ccc_strategy : conversion_strategy;
  ccc_expression : option string;
}.

(** The validator [explicit_expression]; [None] is the rejected choice. *)
Definition explicit_expression (c : ColumnTypeConversionChoice) : option ColumnTypeConversionChoice :=
  match ccc_strategy c, ccc_expression c with
  | Custom, None => None
  | Custom, Some e => if is_blank e then None else Some c
  | Strict, Some _ => None
  | Strict, None => Some c
  end.

(** ** Exceptions *)

Inductive migration_error :=
| MigrationNotFoundError (message : string)
| MigrationConflictError (code message : string) (details : list (string * json))
| ClaimGuardError (message : string)
| MigrationValueError (message : string)
| MigrationTypeError
| MigrationKeyError (key : string)
| DesignErrorRaised (e : design_error).

(** ** Stored records *)

Section records.
Variable Catalog : Type.

Record BaselineRecord := {
  bl_id : string;
  bl_owner_id : string;
  bl_workspace_id : string;
  bl_revision : Z;
  bl_predecessor_id : option string;
  bl_connection_id : string;
  bl_connection_revision : Z;
  bl_database : string;
  bl_namespace : string;
  bl_design_revision : Z;
  bl_content : SchemiiDesignContent;
  bl_catalog : Catalog;
  bl_complete : bool;
  bl_issues : list json;
  bl_source : string;
  bl_source_execution_id : option string;
  bl_created_at : Z;
  bl_connection_owner_id : option string;
}.

Record PlanAuthority := {
  pa_baseline_content : SchemiiDesignContent;
  pa_desired_content : SchemiiDesignContent;
  pa_merged_content : SchemiiDesignContent;
  pa_live_content : SchemiiDesignContent;
  pa_live_catalog : Catalog;
  pa_allow_destructive : bool;
  pa_connection_id : string;
  pa_connection_revision : Z;
  pa_database : string;
  pa_namespace : string;
  pa_required_empty_tables : list string;
  pa_rebuild_table_ids : list string;
  pa_connection_owner_id : option string;
}.

Record PlanRecord := {
  pr_owner_id : string;
  pr_baseline_id : string;
  pr_plan : MigrationPlan;
  pr_authority : PlanAuthority;
}.

Record WorkspaceImportBaseline := {
  wib_connection_revision : Z;
  wib_content : SchemiiDesignContent;
  wib_catalog : Catalog;
  wib_complete : bool;
  wib_issues : list json;
}.
End records.
Arguments bl_id {Catalog}. Arguments bl_owner_id {Catalog}. Arguments bl_workspace_id {Catalog}.
Arguments bl_revision {Catalog}. Arguments bl_predecessor_id {Catalog}. Arguments bl_content {Catalog}.
Arguments bl_design_revision {Catalog}. Arguments bl_catalog {Catalog}.
Arguments pa_live_catalog {Catalog}. Arguments pa_connection_id {Catalog}.
Arguments pa_connection_revision {Catalog}. Arguments pa_database {Catalog}. Arguments pa_namespace {Catalog}.
Arguments pa_connection_owner_id {Catalog}. Arguments pr_owner_id {Catalog}. Arguments pr_baseline_id {Catalog}.
Arguments pr_plan {Catalog}. Arguments pr_authority {Catalog}. Arguments wib_connection_revision {Catalog}.
Arguments wib_content {Catalog}. Arguments wib_catalog {Catalog}. Arguments wib_complete {Catalog}.
Arguments wib_issues {Catalog}.

Abbreviation json_object := (list (string * json)).

Record ExecutionRecord := {
  er_owner_id : string;
  er_execution : MigrationExecution;
  er_confirmed_review_digest : string;
  er_destructive_confirmed : bool;
  er_external_changes_confirmed : bool;
  er_target_identity : option json_object;
  er_intended_result : option json_object;
  er_error_detail : option json_object;
  er_lease_owner : option string;
  er_lease_expires_at : option Z;
}.

Record ExecutionReservation := {
  rs_record : ExecutionRecord;
  rs_reserved_now : bool;
}.

Inductive execution_work_kind := WExecute | WReconcile | WSync.

Record ExecutionWork := {
  wk_kind : execution_work_kind;
  wk_record : ExecutionRecord;
}.

(** ** The status machine *)

(** [_LEGAL_EXECUTION_TRANSITIONS]. *)
Definition legal_execution_transitions (s : execution_status) : list execution_status :=
  match s with
  | SReserved => [SApplying; SFailed]
  | SApplying => [SApplying; SSucceeded; SFailed; SUncertain; SReconciliationRequired]
  | SUncertain => [SSucceeded; SFailed; SReconciliationRequired]
  | SReconciliationRequired => [SSucceeded; SFailed; SReconciliationRequired]
  | SSucceeded => [SSucceeded; SReconciliationRequired]
  | SFailed => []
  end.

(** [_ACTIVE_EXECUTION_STATUSES] and [_ABANDONED_PLAN_STATUSES]. *)
Definition active_execution_statuses : list execution_status :=
  [SReserved; SApplying; SUncertain; SReconciliationRequired].
Definition abandoned_plan_statuses : list plan_status := [PReviewable; PBlocked; PExpired].

(** [sync_status in {"pending", "failed"}]. *)
Definition sync_unsettled (s : option sync_kind) : bool :=
  bool_decide (s = Some SyncPending \/ s = Some SyncFailed).

Definition blocks_lifecycle (record : ExecutionRecord) : bool :=
  let execution := er_execution record in
  bool_decide (mx_status execution ∈ active_execution_statuses) ||
  (bool_decide (mx_status execution = SSucceeded) &&
   bool_decide (mx_commit_outcome execution = Some Committed) &&
   sync_unsettled (mx_sync_status execution)).

Definition holds_execution_lease (status : execution_status) (sync : option sync_kind) : bool :=
  bool_decide (status ∈ [SReserved; SApplying]) ||
  (bool_decide (status = SSucceeded) && sync_unsettled sync).

Definition validate_execution_transition (current : MigrationExecution) (expected_revision : Z)
    (allowed_from : list execution_status) (status : execution_status) : result migration_error unit :=
  result_bind (guard_err (negb (bool_decide (mx_revision current = expected_revision)))
    (MigrationConflictError "migration_execution_changed" "The migration execution changed in another request"
       [("currentExecutionRevision", JInt (mx_revision current))])) (fun _ =>
  guard_err (negb (bool_decide (mx_status current ∈ allowed_from)) ||
             negb (bool_decide (status ∈ legal_execution_transitions (mx_status current))))
    (MigrationConflictError "migration_execution_transition_invalid"
       ("Migration execution cannot transition from " ++ execution_status_text (mx_status current)
          ++ " to " ++ execution_status_text status)
       [("currentStatus", JStr (execution_status_text (mx_status current)));
        ("requestedStatus", JStr (execution_status_text status))])).

Definition validate_execution_authorization (plan : MigrationPlan) (review_digest : string)
    (confirm_destructive confirm_external_changes : bool) : result migration_error unit :=
  result_bind (guard_err (negb (bool_decide (review_digest = mp_review_digest plan)))
    (MigrationConflictError "migration_review_changed" "Migration review digest does not match" [])) (fun _ =>
  result_bind (guard_err (mp_destructive plan && negb confirm_destructive)
    (MigrationConflictError "destructive_confirmation_required"
       "Destructive changes require confirmation" [])) (fun _ =>
  guard_err (mp_requires_external_change_acknowledgement plan && negb confirm_external_changes)
    (MigrationConflictError "external_changes_confirmation_required"
       "Compatible external changes require acknowledgement" []))).
