(* ===== verification/MigrationStore.v ===== *)
(** * The migration repository

    [InMemoryMigrationRepository] of [migrations/repository.py]: baselines, plans,
    executions and their leases.  Every method is a [method] over the repository
    record; the repository lock makes each atomic.

    - The design repository is used through the interface [DesignRepositoryOps];
      an exception of it is passed on as [DesignErrorRaised].
    - [claim_guard] is what entering the workspace claim guard gives ([Ok] when no
      guard is installed); the locked part runs inside it.
    - Fresh random tokens and the clock are arguments.
    - Dictionaries whose iteration order is visible are lists of their items in
      insertion order. *)

From Stdlib Require Import Ascii String.
From S2P Require Import Prelude Json PyString DesignModels DefinitionAnalysis DesignValidation MigrationModels.
Open Scope string_scope.
Open Scope method_scope.

(** ** What the repository uses of the design repository *)

Class DesignRepositoryOps (D : Type) := {
  designs_replace : Z -> string -> string -> SchemiiDesignReplace -> string -> method D design_error SchemiiDesign;
}.

(** ** State *)

Abbreviation repo_key := (string * string)%type.

Record MigrationRepo (D Catalog : Type) := {
  mg_designs : D;
  mg_baselines : gmap repo_key (list (BaselineRecord Catalog));
  mg_plans : list (repo_key * PlanRecord Catalog);
  mg_executions : list (repo_key * ExecutionRecord);
  mg_execution_by_plan : gmap repo_key string;
}.
Arguments mg_designs {D Catalog}. Arguments mg_baselines {D Catalog}. Arguments mg_plans {D Catalog}.
Arguments mg_executions {D Catalog}. Arguments mg_execution_by_plan {D Catalog}.

(** An optional keyword argument whose default is [UNSET]. *)
Inductive field (A : Type) := UNSET | Given (a : A).
Arguments UNSET {A}. Arguments Given {A} a.

Definition field_or {A} (f : field A) (current : A) : A := match f with UNSET => current | Given a => a end.

(** Keyword arguments of [transition_execution]. *)
Record transition_changes := {
  ch_completed_step_count : field Z;
  ch_transaction_id : field (option string);
  ch_target_identity : field (option json_object);
  ch_intended_result : field (option json_object);
  ch_commit_outcome : field (option commit_outcome_kind);
  ch_sync_status : field (option sync_kind);
  ch_error_code : field (option string);
  ch_error_detail : field (option json_object);
}.

(** Keyword arguments of [create_baseline]. *)
Record baseline_values (Catalog : Type) := {
  bv_owner_id : string;
  bv_workspace_id : string;
  bv_connection_id : string;
  bv_connection_owner_id : option string;
  bv_connection_revision : Z;
  bv_database : string;
  bv_namespace : string;
  bv_design_revision : Z;
  bv_content : SchemiiDesignContent;
  bv_catalog : Catalog;
  bv_complete : bool;
  bv_issues : list json;
  bv_source : string;
  bv_expected_predecessor_id : option string;
  bv_source_execution_id : option string;
}.

(** [a or b] on strings. *)
Definition or_else (a : option string) (b : string) : string :=
  match a with Some s => if bool_decide (s = "") then b else s | None => b end.

Section store.
Context {D Catalog : Type} `{!DesignRepositoryOps D}.
Variable catalog_fingerprint : Catalog -> string.
Variable claim_guard : string -> string -> result migration_error unit.

Abbreviation Repo := (MigrationRepo D Catalog).
Abbreviation mig_method := (method Repo migration_error).

Definition InMemoryMigrationRepository (designs : D) : Repo :=
  {| mg_designs := designs; mg_baselines := ∅; mg_plans := []; mg_executions := []; mg_execution_by_plan := ∅ |}.

Definition put_designs d (s : Repo) : Repo := {| mg_designs := d; mg_baselines := mg_baselines s;
  mg_plans := mg_plans s; mg_executions := mg_executions s; mg_execution_by_plan := mg_execution_by_plan s |}.
Definition put_baselines b (s : Repo) : Repo := {| mg_designs := mg_designs s; mg_baselines := b;
  mg_plans := mg_plans s; mg_executions := mg_executions s; mg_execution_by_plan := mg_execution_by_plan s |}.
Definition put_plans p (s : Repo) : Repo := {| mg_designs := mg_designs s; mg_baselines := mg_baselines s;
  mg_plans := p; mg_executions := mg_executions s; mg_execution_by_plan := mg_execution_by_plan s |}.
Definition put_executions e (s : Repo) : Repo := {| mg_designs := mg_designs s; mg_baselines := mg_baselines s;
  mg_plans := mg_plans s; mg_executions := e; mg_execution_by_plan := mg_execution_by_plan s |}.
Definition put_execution_by_plan m (s : Repo) : Repo := {| mg_designs := mg_designs s;
  mg_baselines := mg_baselines s; mg_plans := mg_plans s; mg_executions := mg_executions s;
  mg_execution_by_plan := m |}.

(** ** Baselines *)

Definition baselines_of (s : Repo) (k : repo_key) : list (BaselineRecord Catalog) :=
  match mg_baselines s !! k with Some rows => rows | None => [] end.

Definition current_baseline (owner_id workspace_id : string) : mig_method (option (BaselineRecord Catalog)) :=
  let* s := m_get in m_return (last (baselines_of s (owner_id, workspace_id))).

Definition create_baseline (now : Z) (token : string) (values : baseline_values Catalog)
    : mig_method (BaselineRecord Catalog) :=
  let k := (bv_owner_id _ values, bv_workspace_id _ values) in
  let* s := m_get in
  let rows := baselines_of s k in
  m_update (fun s => put_baselines (<[k := rows]> (mg_baselines s)) s) ;;*
  let predecessor_id := bl_id <$> last rows in
  m_guard (negb (bool_decide (bv_expected_predecessor_id _ values = predecessor_id)))
    (MigrationConflictError "baseline_changed" "The workspace synchronization baseline changed"
       [("currentBaselineId", json_opt predecessor_id)]) ;;*
  let record := {|
    bl_id := "mbl_" ++ token; bl_owner_id := bv_owner_id _ values; bl_workspace_id := bv_workspace_id _ values;
    bl_revision := Z.of_nat (length rows) + 1; bl_predecessor_id := predecessor_id;
    bl_connection_id := bv_connection_id _ values;
    bl_connection_owner_id := Some (or_else (bv_connection_owner_id _ values) (bv_owner_id _ values));
    bl_connection_revision := bv_connection_revision _ values; bl_database := bv_database _ values;
    bl_namespace := bv_namespace _ values; bl_design_revision := bv_design_revision _ values;
    bl_content := bv_content _ values; bl_catalog := bv_catalog _ values; bl_complete := bv_complete _ values;
    bl_issues := bv_issues _ values; bl_source := bv_source _ values;
    bl_source_execution_id := bv_source_execution_id _ values; bl_created_at := now |} in
  m_update (fun s => put_baselines (<[k := (rows ++ [record])%list]> (mg_baselines s)) s) ;;*
  m_return record.

Definition create_import_baseline (now : Z) (token : string) (has_metadata_cursor : bool)
    (owner_id workspace_id connection_id : string) (connection_owner_id : option string)
    (database namespace : string) (baseline : WorkspaceImportBaseline Catalog)
    : mig_method (BaselineRecord Catalog) :=
  m_guard has_metadata_cursor
    (MigrationValueError "In-memory imports cannot join a PostgreSQL transaction") ;;*
  create_baseline now token {|
    bv_owner_id := owner_id; bv_workspace_id := workspace_id; bv_connection_id := connection_id;
    bv_connection_owner_id := Some (or_else connection_owner_id owner_id);
    bv_connection_revision := wib_connection_revision baseline; bv_database := database;
    bv_namespace := namespace; bv_design_revision := 1; bv_content := wib_content baseline;
    bv_catalog := wib_catalog baseline; bv_complete := wib_complete baseline;
    bv_issues := wib_issues baseline; bv_source := "import"; bv_expected_predecessor_id := None;
    bv_source_execution_id := None |}.

(** ** Workspace state *)

(** [any(... for (candidate_owner, _), record in self._executions.items())]. *)
Definition any_execution (s : Repo) (owner_id workspace_id : string) (P : ExecutionRecord -> bool) : bool :=
  existsb (fun kv => bool_decide (kv.1.1 = owner_id)
    && bool_decide (mx_workspace_id (er_execution kv.2) = workspace_id) && P kv.2) (mg_executions s).

Definition has_active_execution (owner_id workspace_id : string) : mig_method bool :=
  let* s := m_get in
  m_return (any_execution s owner_id workspace_id
    (fun r => bool_decide (mx_status (er_execution r) ∈ active_execution_statuses))).

Definition blocks_workspace_lifecycle (owner_id workspace_id : string) : mig_method bool :=
  let* s := m_get in m_return (any_execution s owner_id workspace_id blocks_lifecycle).

(** ** Plans *)

Definition abandoned (s : Repo) (record : PlanRecord Catalog) (kv : repo_key * PlanRecord Catalog) : bool :=
  bool_decide (pr_owner_id kv.2 = pr_owner_id record)
  && bool_decide (mp_status (pr_plan kv.2) ∈ abandoned_plan_statuses)
  && bool_decide (mp_expires_at (pr_plan kv.2) <= mp_created_at (pr_plan record))%Z
  && bool_decide (mg_execution_by_plan s !! kv.1 = None).

Definition create_plan_locked (record : PlanRecord Catalog) : mig_method MigrationPlan :=
  let* s := m_get in
  m_guard (any_execution s (pr_owner_id record) (mp_workspace_id (pr_plan record)) blocks_lifecycle)
    (MigrationConflictError "migration_execution_active"
       "Finish or reconcile the current migration execution before creating another review" []) ;;*
  let kept := filter (fun kv => abandoned s record kv = false) (mg_plans s) in
  m_update (put_plans (dset (pr_owner_id record, mp_id (pr_plan record)) record kept)) ;;*
  m_return (pr_plan record).

Definition create_plan (record : PlanRecord Catalog) : mig_method MigrationPlan :=
  m_lift (claim_guard (pr_owner_id record) (mp_workspace_id (pr_plan record))) ;;*
  create_plan_locked record.

Definition get_plan (owner_id plan_id : string) : mig_method (PlanRecord Catalog) :=
  let* s := m_get in
  match dget (owner_id, plan_id) (mg_plans s) with
  | Some record => m_return record
  | None => m_raise (MigrationNotFoundError "Migration plan was not found")
  end.

Definition with_status (status : plan_status) (record : PlanRecord Catalog) : PlanRecord Catalog :=
  {| pr_owner_id := pr_owner_id record; pr_baseline_id := pr_baseline_id record;
     pr_plan := with_plan_status status (pr_plan record); pr_authority := pr_authority record |}.

(** ** Reservations *)

Definition new_execution (id plan_id workspace_id : string) (reserved_at : Z) : MigrationExecution :=
  {| mx_id := id; mx_plan_id := plan_id; mx_workspace_id := workspace_id; mx_revision := 1;
     mx_status := SReserved; mx_completed_step_count := 0; mx_transaction_id := None;
     mx_commit_outcome := None; mx_sync_status := None; mx_error_code := None; mx_error_message := JNull;
     mx_reconcile_required := false; mx_recovery_available_at := None; mx_created_at := reserved_at;
     mx_updated_at := reserved_at |}.

(** [if existing_id]: a stored ID starts with [mex_], so it is never the empty text. *)
Definition reserve_execution_locked (token owner_id plan_id review_digest : string)
    (confirm_destructive confirm_external_changes : bool) (reserved_at : Z)
    : mig_method ExecutionReservation :=
  let* record := get_plan owner_id plan_id in
  let plan := pr_plan record in
  m_lift (validate_execution_authorization plan review_digest confirm_destructive confirm_external_changes) ;;*
  let* s := m_get in
  match mg_execution_by_plan s !! (owner_id, plan_id) with
  | Some existing_id =>
      match dget (owner_id, existing_id) (mg_executions s) with
      | Some existing => m_return {| rs_record := existing; rs_reserved_now := false |}
      | None => m_raise (MigrationKeyError existing_id)
      end
  | None =>
      m_guard (any_execution s owner_id (mp_workspace_id plan) blocks_lifecycle)
        (MigrationConflictError "migration_execution_active"
           "Finish or reconcile the current migration execution before starting another" []) ;;*
      m_guard (bool_decide (mp_expires_at plan <= reserved_at)%Z)
        (MigrationConflictError "migration_plan_expired" "Refresh the migration review" []) ;;*
      m_guard (negb (bool_decide (mp_status plan = PReviewable)) || negb (mp_apply_capable plan))
        (MigrationConflictError "migration_plan_not_executable" "Migration plan cannot be executed" []) ;;*
      let execution := new_execution ("mex_" ++ token) plan_id (mp_workspace_id plan) reserved_at in
      let execution_record := {|
        er_owner_id := owner_id; er_execution := execution; er_confirmed_review_digest := review_digest;
        er_destructive_confirmed := confirm_destructive;
        er_external_changes_confirmed := confirm_external_changes; er_target_identity := None;
        er_intended_result := None; er_error_detail := None; er_lease_owner := None;
        er_lease_expires_at := None |} in
      m_update (fun s => put_execution_by_plan
        (<[(owner_id, plan_id) := mx_id execution]> (mg_execution_by_plan s)) s) ;;*
      m_update (fun s => put_executions
        (dset (owner_id, mx_id execution) execution_record (mg_executions s)) s) ;;*
      m_update (fun s => put_plans (dset (owner_id, plan_id) (with_status PClaimed record) (mg_plans s)) s) ;;*
      m_return {| rs_record := execution_record; rs_reserved_now := true |}
  end.

Definition reserve_execution (token owner_id plan_id review_digest : string)
    (confirm_destructive confirm_external_changes : bool) (reserved_at : Z)
    : mig_method ExecutionReservation :=
  let* record := get_plan owner_id plan_id in
  m_lift (claim_guard owner_id (mp_workspace_id (pr_plan record))) ;;*
  reserve_execution_locked token owner_id plan_id review_digest confirm_destructive
    confirm_external_changes reserved_at.

(** ** Leases *)

(** [record.lease_expires_at is not None and record.lease_expires_at <= at]. *)
Definition lease_expired (record : ExecutionRecord) (at_ : Z) : bool :=
  match er_lease_expires_at record with Some e => bool_decide (e <= at_)%Z | None => false end.

Definition lease_available (record : ExecutionRecord) (claimed_at : Z) : bool :=
  bool_decide (er_lease_owner record = None) || lease_expired record claimed_at.

(** The work an execution needs, with its priority. *)
Definition needed_work (execution : MigrationExecution) : option (Z * execution_work_kind) :=
  match mx_status execution with
  | SApplying => Some (0%Z, WReconcile)
  | SReserved => Some (1%Z, WExecute)
  | SSucceeded =>
      if bool_decide (mx_commit_outcome execution = Some Committed) && sync_unsettled (mx_sync_status execution)
      then Some (2%Z, WSync) else None
  | _ => None
  end.

Abbreviation candidate := (Z * execution_work_kind * ExecutionRecord)%type.

Definition eligible_work (s : Repo) (claimed_at : Z) : list candidate :=
  omap (fun kv => if lease_available kv.2 claimed_at
                  then (fun w => (w, kv.2)) <$> needed_work (er_execution kv.2) else None) (mg_executions s).

(** The compared part of a candidate tuple: priority, creation time and ID. *)
Definition candidate_compare (a b : candidate) : comparison :=
  match Z.compare a.1.1 b.1.1 with
  | Eq => match Z.compare (mx_created_at (er_execution a.2)) (mx_created_at (er_execution b.2)) with
          | Eq => String.compare (mx_id (er_execution a.2)) (mx_id (er_execution b.2))
          | c => c
          end
  | c => c
  end.

(** [min] on the candidate tuples; records are not ordered, so a tie raises. *)
Fixpoint min_candidate (best : candidate) (rest : list candidate) : result migration_error candidate :=
  match rest with
  | [] => Ok best
  | c :: rest' =>
      match candidate_compare c best with
      | Lt => min_candidate c rest'
      | Gt => min_candidate best rest'
      | Eq => Err MigrationTypeError
      end
  end.

Definition with_recovery (at_ : option Z) (e : MigrationExecution) : MigrationExecution :=
  {| mx_id := mx_id e; mx_plan_id := mx_plan_id e; mx_workspace_id := mx_workspace_id e;
     mx_revision := mx_revision e; mx_status := mx_status e;
     mx_completed_step_count := mx_completed_step_count e; mx_transaction_id := mx_transaction_id e;
     mx_commit_outcome := mx_commit_outcome e; mx_sync_status := mx_sync_status e;
     mx_error_code := mx_error_code e; mx_error_message := mx_error_message e;
     mx_reconcile_required := mx_reconcile_required e; mx_recovery_available_at := at_;
     mx_created_at := mx_created_at e; mx_updated_at := mx_updated_at e |}.

Definition claimed_execution (e : MigrationExecution) (claimed_at lease_expires_at : Z) : MigrationExecution :=
  {| mx_id := mx_id e; mx_plan_id := mx_plan_id e; mx_workspace_id := mx_workspace_id e;
     mx_revision := mx_revision e + 1; mx_status := mx_status e;
     mx_completed_step_count := mx_completed_step_count e; mx_transaction_id := mx_transaction_id e;
     mx_commit_outcome := mx_commit_outcome e; mx_sync_status := mx_sync_status e;
     mx_error_code := mx_error_code e; mx_error_message := mx_error_message e;
     mx_reconcile_required := mx_reconcile_required e; mx_recovery_available_at := Some lease_expires_at;
     mx_created_at := mx_created_at e; mx_updated_at := claimed_at |}.

(** The record of an execution under a lease. *)
Definition leased (r : ExecutionRecord) (execution : MigrationExecution) (lease_owner : string)
    (lease_expires_at : Z) : ExecutionRecord :=
  {| er_owner_id := er_owner_id r; er_execution := execution;
     er_confirmed_review_digest := er_confirmed_review_digest r;
     er_destructive_confirmed := er_destructive_confirmed r;
     er_external_changes_confirmed := er_external_changes_confirmed r;
     er_target_identity := er_target_identity r; er_intended_result := er_intended_result r;
     er_error_detail := er_error_detail r; er_lease_owner := Some lease_owner;
     er_lease_expires_at := Some lease_expires_at |}.

Definition claim_next_execution (claimed_at : Z) (lease_owner : string) (lease_expires_at : Z)
    : mig_method (option ExecutionWork) :=
  let* s := m_get in
  match eligible_work s claimed_at with
  | [] => m_return None
  | first :: rest =>
      let* best := m_lift (min_candidate first rest) in
      let current := best.2 in
      let claimed := leased current (claimed_execution (er_execution current) claimed_at lease_expires_at)
                       lease_owner lease_expires_at in
      m_update (fun s => put_executions
        (dset (er_owner_id current, mx_id (er_execution current)) claimed (mg_executions s)) s) ;;*
      m_return (Some {| wk_kind := best.1.2; wk_record := claimed |})
  end.

Definition renew_execution_lease (owner_id execution_id lease_owner : string) (lease_expires_at : Z)
    : mig_method bool :=
  let* s := m_get in
  match dget (owner_id, execution_id) (mg_executions s) with
  | None => m_return false
  | Some current =>
      if bool_decide (er_lease_owner current <> Some lease_owner) then m_return false else
      if bool_decide (mx_status (er_execution current) ∉ [SReserved; SApplying; SSucceeded])
      then m_return false else
      m_update (fun s => put_executions (dset (owner_id, execution_id)
        (leased current (with_recovery (Some lease_expires_at) (er_execution current)) lease_owner
           lease_expires_at) (mg_executions s)) s) ;;*
      m_return true
  end.

(** ** Reads *)

Definition get_execution (owner_id execution_id : string) : mig_method ExecutionRecord :=
  let* s := m_get in
  match dget (owner_id, execution_id) (mg_executions s) with
  | Some record => m_return record
  | None => m_raise (MigrationNotFoundError "Migration execution was not found")
  end.

Definition newer_first (a b : MigrationExecution) : Prop := (mx_created_at b <= mx_created_at a)%Z.
#[global] Instance newer_first_dec : RelDecision newer_first.
Proof. intros a b. unfold newer_first. apply _. Defined.

Definition list_executions (owner_id workspace_id : string) (limit : nat) : mig_method (list MigrationExecution) :=
  let* s := m_get in
  let values := (fun kv => er_execution kv.2) <$>
    filter (fun kv => kv.1.1 = owner_id /\ mx_workspace_id (er_execution kv.2) = workspace_id) (mg_executions s) in
  m_return (take limit (merge_sort newer_first values)).

Definition recoverable (stale_at : Z) (record : ExecutionRecord) : bool :=
  let execution := er_execution record in
  (bool_decide (mx_status execution = SReserved) && bool_decide (er_lease_owner record = None)) ||
  (bool_decide (mx_status execution ∈ [SReserved; SApplying]) && lease_expired record stale_at) ||
  (bool_decide (mx_status execution = SSucceeded) && bool_decide (mx_commit_outcome execution = Some Committed)
   && sync_unsettled (mx_sync_status execution)
   && (bool_decide (er_lease_owner record = None) || lease_expired record stale_at)).

(** Order of the sort keys [(lease_expires_at or datetime.min, id)]; a lease expires
    after [datetime.min]. *)
Definition stale_first (a b : ExecutionRecord) : Prop :=
  match er_lease_expires_at a, er_lease_expires_at b with
  | None, Some _ => True
  | Some _, None => False
  | None, None => String.le (mx_id (er_execution a)) (mx_id (er_execution b))
  | Some x, Some y => (x < y)%Z \/ (x = y /\ String.le (mx_id (er_execution a)) (mx_id (er_execution b)))
  end.
#[global] Instance stale_first_dec : RelDecision stale_first.
Proof. intros a b. unfold stale_first. repeat case_match; apply _. Defined.

Definition list_recoverable_executions (stale_at : Z) (limit : nat) : mig_method (list ExecutionRecord) :=
  let* s := m_get in
  m_return (take limit (merge_sort stale_first
    (filter (fun r => recoverable stale_at r = true) (mg_executions s).*2))).

(** ** Transitions *)

(** The execution after a transition. *)
Definition revised_execution (e : MigrationExecution) (status : execution_status) (recovery : option Z)
    (now : Z) (changes : transition_changes) : MigrationExecution :=
  {| mx_id := mx_id e; mx_plan_id := mx_plan_id e; mx_workspace_id := mx_workspace_id e;
     mx_revision := mx_revision e + 1; mx_status := status;
     mx_completed_step_count := field_or (ch_completed_step_count changes) (mx_completed_step_count e);
     mx_transaction_id := field_or (ch_transaction_id changes) (mx_transaction_id e);
     mx_commit_outcome := field_or (ch_commit_outcome changes) (mx_commit_outcome e);
     mx_sync_status := field_or (ch_sync_status changes) (mx_sync_status e);
     mx_error_code := field_or (ch_error_code changes) (mx_error_code e);
     mx_error_message :=
       match ch_error_detail changes with
       | UNSET => mx_error_message e
       | Given None => JNull
       | Given (Some d) => match dget "message" d with Some v => v | None => JNull end
       end;
     mx_reconcile_required := bool_decide (status ∈ [SUncertain; SReconciliationRequired]);
     mx_recovery_available_at := recovery; mx_created_at := mx_created_at e; mx_updated_at := now |}.

Definition lease_matches (lease_owner : option string) (current : ExecutionRecord) : bool :=
  bool_decide (lease_owner <> None) && bool_decide (lease_owner = er_lease_owner current).

Definition lease_is_stale (recover_expired_before : option Z) (current : ExecutionRecord) : bool :=
  match recover_expired_before with Some t => lease_expired current t | None => false end.

Definition transition_execution (now : Z) (owner_id execution_id : string) (expected_revision : Z)
    (allowed_from : list execution_status) (status : execution_status) (lease_owner : option string)
    (lease_expires_at recover_expired_before : option Z) (changes : transition_changes)
    : mig_method ExecutionRecord :=
  let* current := get_execution owner_id execution_id in
  m_lift (validate_execution_transition (er_execution current) expected_revision allowed_from status) ;;*
  m_guard (bool_decide (er_lease_owner current <> None) && negb (lease_matches lease_owner current)
           && negb (lease_is_stale recover_expired_before current))
    (MigrationConflictError "migration_execution_lease_active"
       "The migration execution is owned by an active worker lease"
       [("recoveryAvailableAt", match er_lease_expires_at current with Some t => JInt t | None => JNull end)]) ;;*
  let holds_lease := holds_execution_lease status
    (field_or (ch_sync_status changes) (mx_sync_status (er_execution current))) in
  m_guard (holds_lease && (bool_decide (lease_owner = None) || bool_decide (lease_expires_at = None)))
    (MigrationValueError "leased migration execution transitions require an owner and expiry") ;;*
  let next_lease_owner := if holds_lease then lease_owner else None in
  let next_lease_expires_at := if holds_lease then lease_expires_at else None in
  let record := {|
    er_owner_id := owner_id;
    er_execution := revised_execution (er_execution current) status next_lease_expires_at now changes;
    er_confirmed_review_digest := er_confirmed_review_digest current;
    er_destructive_confirmed := er_destructive_confirmed current;
    er_external_changes_confirmed := er_external_changes_confirmed current;
    er_target_identity := field_or (ch_target_identity changes) (er_target_identity current);
    er_intended_result := field_or (ch_intended_result changes) (er_intended_result current);
    er_error_detail := field_or (ch_error_detail changes) (er_error_detail current);
    er_lease_owner := next_lease_owner; er_lease_expires_at := next_lease_expires_at |} in
  m_update (fun s => put_executions (dset (owner_id, execution_id) record (mg_executions s)) s) ;;*
  m_return record.

(** ** Drift *)

(** A call of the design repository. *)
Definition on_designs {A} (m : method D design_error A) : mig_method A := fun s =>
  match m (mg_designs s) with
  | (d, Ok a) => (put_designs d s, Ok a)
  | (d, Err e) => (put_designs d s, Err (DesignErrorRaised e))
  end.

Definition reconcile_drift_locked (now : Z) (baseline_token resolution_token : string)
    (record : PlanRecord Catalog) (expected_design_revision : Z)
    (resolved_content live_content : SchemiiDesignContent) : mig_method MigrationDriftResolution :=
  let plan := pr_plan record in
  let authority := pr_authority record in
  let* s := m_get in
  m_guard (any_execution s (pr_owner_id record) (mp_workspace_id plan) blocks_lifecycle)
    (MigrationConflictError "migration_execution_active"
       "Finish or reconcile the current migration execution before resolving drift" []) ;;*
  let* design := on_designs (designs_replace now (pr_owner_id record) (mp_workspace_id plan)
    {| drep_expected_design_revision := expected_design_revision; drep_content := resolved_content;
       drep_history_group_id := None |} "checkpoint") in
  let* baseline := create_baseline now baseline_token {|
    bv_owner_id := pr_owner_id record; bv_workspace_id := mp_workspace_id plan;
    bv_connection_id := pa_connection_id authority;
    bv_connection_owner_id := Some (or_else (pa_connection_owner_id authority) (pr_owner_id record));
    bv_connection_revision := pa_connection_revision authority; bv_database := pa_database authority;
    bv_namespace := pa_namespace authority; bv_design_revision := design_revision design;
    bv_content := live_content; bv_catalog := pa_live_catalog authority; bv_complete := true;
    bv_issues := []; bv_source := "drift_reconciliation";
    bv_expected_predecessor_id := Some (pr_baseline_id record); bv_source_execution_id := None |} in
  m_update (fun s => put_plans
    (dset (pr_owner_id record, mp_id plan) (with_status PResolved record) (mg_plans s)) s) ;;*
  m_return {| mdr_id := "mdr_" ++ resolution_token; mdr_plan_id := mp_id plan;
              mdr_workspace_id := mp_workspace_id plan; mdr_design_revision := design_revision design;
              mdr_design_fingerprint := design_fingerprint_field design;
              mdr_baseline_revision := bl_revision baseline;
              mdr_catalog_fingerprint := catalog_fingerprint (pa_live_catalog authority);
              mdr_incorporated_external_changes := mp_external_changes plan; mdr_created_at := now |}.

Definition reconcile_drift (now : Z) (baseline_token resolution_token : string) (record : PlanRecord Catalog)
    (expected_design_revision : Z) (resolved_content live_content : SchemiiDesignContent)
    : mig_method MigrationDriftResolution :=
  m_lift (claim_guard (pr_owner_id record) (mp_workspace_id (pr_plan record))) ;;*
  reconcile_drift_locked now baseline_token resolution_token record expected_design_revision
    resolved_content live_content.
End store.
