(* ===== verification/MigrationSpec.v ===== *)
(** * Behaviour of the migration repository

    What each method of [MigrationStore] does to one execution or baseline: the
    progress an execution can make, when its lease is consistent, and the effect of
    claiming, renewing, transitions and new baselines on every branch. *)

From Stdlib Require Import Ascii String.
From S2P Require Import Prelude Json PyString DesignModels DefinitionAnalysis DesignValidation.
From S2P Require Import MigrationModels MigrationStore.
Open Scope string_scope.
Open Scope list_scope.

Ltac run_store := unfold m_bind, m_get, m_update, m_lift, m_guard, m_return, m_raise, guard_err in *; simpl in *.

(** ** The status machine *)

Definition legal (a b : execution_status) : Prop := b ∈ legal_execution_transitions a.

(** What an execution records about its run in the target database. *)
Definition run_evidence (r : ExecutionRecord) :=
  (mx_status (er_execution r), mx_transaction_id (er_execution r), mx_commit_outcome (er_execution r),
   mx_sync_status (er_execution r), er_target_identity r, er_intended_result r).

(** What never changes about an execution, and how its status and revision move. *)
Record progress (r r' : ExecutionRecord) : Prop := {
  pg_owner : er_owner_id r' = er_owner_id r;
  pg_id : mx_id (er_execution r') = mx_id (er_execution r);
  pg_plan : mx_plan_id (er_execution r') = mx_plan_id (er_execution r);
  pg_workspace : mx_workspace_id (er_execution r') = mx_workspace_id (er_execution r);
  pg_created : mx_created_at (er_execution r') = mx_created_at (er_execution r);
  pg_digest : er_confirmed_review_digest r' = er_confirmed_review_digest r;
  pg_destructive : er_destructive_confirmed r' = er_destructive_confirmed r;
  pg_external : er_external_changes_confirmed r' = er_external_changes_confirmed r;
  pg_revision : (mx_revision (er_execution r) <= mx_revision (er_execution r'))%Z;
  pg_status : rtc legal (mx_status (er_execution r)) (mx_status (er_execution r'));
  pg_failed : mx_status (er_execution r) = SFailed -> r' = r;
  pg_evidence : mx_revision (er_execution r') = mx_revision (er_execution r) -> run_evidence r' = run_evidence r;
}.

Lemma progress_refl r : progress r r.
Proof. by split. Qed.

Lemma failed_final s : rtc legal SFailed s -> s = SFailed.
Proof.
  remember SFailed as f eqn:Hf. induction 1 as [|x y z Hxy _ _]; [done|]. subst x.
  by apply not_elem_of_nil in Hxy.
Qed.

Lemma progress_trans a b c : progress a b -> progress b c -> progress a c.
Proof.
  intros [] []. split; try congruence.
  - lia.
  - by etrans.
  - intros Hf. assert (b = a) as -> by auto. auto.
  - intros Hrev. transitivity (run_evidence b); [apply pg_evidence1; lia|apply pg_evidence0; lia].
Qed.

#[export] Instance progress_preorder : PreOrder progress.
Proof. split; [exact progress_refl|exact progress_trans]. Qed.

(** ** Invariants of one execution *)

Definition lease_ok (r : ExecutionRecord) : Prop :=
  mx_recovery_available_at (er_execution r) = er_lease_expires_at r /\
  (er_lease_owner r = None <-> er_lease_expires_at r = None) /\
  (er_lease_owner r <> None ->
   holds_execution_lease (mx_status (er_execution r)) (mx_sync_status (er_execution r)) = true) /\
  (mx_status (er_execution r) = SApplying -> er_lease_owner r <> None) /\
  mx_reconcile_required (er_execution r) =
    bool_decide (mx_status (er_execution r) ∈ [SUncertain; SReconciliationRequired]) /\
  (1 <= mx_revision (er_execution r))%Z.

(** What claims, renewals and transitions do to the record of an execution. *)
Definition claim_change (claimed_at : Z) (w : string) (expires : Z) (r r' : ExecutionRecord) : Prop :=
  lease_available r claimed_at = true /\ is_Some (needed_work (er_execution r)) /\
  r' = leased r (claimed_execution (er_execution r) claimed_at expires) w expires.

Definition renew_change (w : string) (expires : Z) (r r' : ExecutionRecord) : Prop :=
  er_lease_owner r = Some w /\ mx_status (er_execution r) ∈ [SReserved; SApplying; SSucceeded] /\
  r' = leased r (with_recovery (Some expires) (er_execution r)) w expires.

Record transition_change (owner : string) (status : execution_status) (lease_owner : option string)
    (expires recover : option Z) (now : Z) (changes : transition_changes) (r r' : ExecutionRecord) : Prop := {
  tc_legal : legal (mx_status (er_execution r)) status;
  tc_fence : er_lease_owner r = None \/ lease_matches lease_owner r = true \/ lease_is_stale recover r = true;
  tc_lease : let holds := holds_execution_lease status
               (field_or (ch_sync_status changes) (mx_sync_status (er_execution r))) in
    er_lease_owner r' = (if holds then lease_owner else None) /\
    er_lease_expires_at r' = (if holds then expires else None) /\
    (holds = true -> lease_owner <> None /\ expires <> None);
  tc_owner : er_owner_id r' = owner;
  tc_execution : er_execution r' = revised_execution (er_execution r) status (er_lease_expires_at r') now changes;
  tc_digest : er_confirmed_review_digest r' = er_confirmed_review_digest r;
  tc_destructive : er_destructive_confirmed r' = er_destructive_confirmed r;
  tc_external : er_external_changes_confirmed r' = er_external_changes_confirmed r;
  tc_identity : er_target_identity r' = field_or (ch_target_identity changes) (er_target_identity r);
  tc_intended : er_intended_result r' = field_or (ch_intended_result changes) (er_intended_result r);
}.

Lemma needed_work_holds e :
  is_Some (needed_work e) -> holds_execution_lease (mx_status e) (mx_sync_status e) = true.
Proof.
  unfold needed_work, holds_execution_lease. intros [w Hw]. destruct (mx_status e); try done.
  destruct (_ && _) eqn:E; [|done]. by apply andb_true_iff in E as [_ ->].
Qed.

Lemma claim_change_ok t w x r r' :
  claim_change t w x r r' -> lease_ok r -> lease_ok r' /\ progress r r'.
Proof.
  intros (_ & Hw & ->) (_ & _ & _ & _ & Hrec & Hrev). split.
  - split_and!; simpl; try done; [|lia]. intros _. by apply needed_work_holds.
  - split; simpl; try done; [lia|]. intros Hf. unfold needed_work in Hw. rewrite Hf in Hw. by destruct Hw.
Qed.

Lemma renew_change_ok w x r r' :
  renew_change w x r r' -> lease_ok r -> lease_ok r' /\ progress r r'.
Proof.
  intros (Ho & Hs & ->) (_ & _ & Hh & _ & Hrec & Hrev). split.
  - split_and!; simpl; try done. intros _. apply Hh. by rewrite Ho.
  - split; simpl; try done. intros Hf. rewrite Hf in Hs. set_solver.
Qed.

Lemma transition_change_ok owner st lo x rec now ch r r' :
  transition_change owner st lo x rec now ch r r' -> er_owner_id r = owner ->
  lease_ok r -> lease_ok r' /\ progress r r'.
Proof.
  intros [Hl _ Htc Ho He Hd1 Hd2 Hd3 _ _] Hown (_ & _ & _ & _ & _ & Hrev). cbn zeta in Htc.
  destruct Htc as (Hlo & Hx & Hh). split.
  - unfold lease_ok. rewrite He. simpl. rewrite Hlo, Hx. split_and!; try done.
    + destruct (holds_execution_lease _ _); [|done]. destruct (Hh eq_refl). by destruct lo, x.
    + by destruct (holds_execution_lease _ _).
    + intros ->. simpl in *. destruct (Hh eq_refl). done.
    + lia.
  - split; rewrite ?He; simpl; try done; [by rewrite Ho|lia|by apply rtc_once| |lia].
    intros Hf. rewrite Hf in Hl. by apply not_elem_of_nil in Hl.
Qed.

Section repo.
Context {D Catalog : Type} `{!DesignRepositoryOps D}.
Variable catalog_fingerprint : Catalog -> string.
Variable claim_guard : string -> string -> result migration_error unit.

Abbreviation Repo := (MigrationRepo D Catalog).
Implicit Types s : Repo.

Definition set_execution (k : repo_key) (r : ExecutionRecord) s : Repo :=
  put_executions (dset k r (mg_executions s)) s.

(** ** Outcomes of the writers of executions *)

Abbreviation candidate := (Z * execution_work_kind * ExecutionRecord)%type.

Definition candidate_le (a b : candidate) : Prop :=
  (a.1.1 < b.1.1)%Z \/ (a.1.1 = b.1.1 /\ (mx_created_at (er_execution a.2) <= mx_created_at (er_execution b.2))%Z).

Lemma candidate_compare_le a b :
  (candidate_compare a b <> Gt -> candidate_le a b) /\ (candidate_compare a b = Gt -> candidate_le b a) /\
  (candidate_compare a b = Eq -> mx_id (er_execution a.2) = mx_id (er_execution b.2)).
Proof.
  unfold candidate_compare, candidate_le.
  destruct (Z.compare_spec a.1.1 b.1.1); [|split_and!; (done || lia)..].
  destruct (Z.compare_spec (mx_created_at (er_execution a.2)) (mx_created_at (er_execution b.2)));
    [|split_and!; (done || lia)..].
  split_and!; [lia|lia|]. apply String.compare_eq_iff.
Qed.

Lemma min_candidate_Ok best rest c :
  min_candidate best rest = Ok c -> c ∈ best :: rest /\ Forall (candidate_le c) (best :: rest).
Proof.
  assert (Hrefl : forall x, candidate_le x x) by (unfold candidate_le; lia).
  revert best. induction rest as [|d rest IH]; intros best; simpl.
  { intros [= <-]. split; [left|]. by repeat constructor. }
  destruct (candidate_compare_le d best) as (Hle & Hgt & _).
  destruct (candidate_compare d best); [done|..]; intros [Hin Hall]%IH.
  - apply Forall_cons in Hall as [Hd Hall]. split; [set_solver|]. rewrite !Forall_cons. split_and!; try done.
    specialize (Hle ltac:(done)). unfold candidate_le in *. lia.
  - apply Forall_cons in Hall as [Hb Hall]. split; [set_solver|]. rewrite !Forall_cons. split_and!; try done.
    specialize (Hgt eq_refl). unfold candidate_le in *. lia.
Qed.

Definition candidate_id (c : candidate) : string := mx_id (er_execution c.2).

Lemma min_candidate_total best rest :
  NoDup (candidate_id <$> best :: rest) -> exists c, min_candidate best rest = Ok c.
Proof.
  revert best. induction rest as [|d rest IH]; intros best; [simpl; eauto|]. csimpl. rewrite !NoDup_cons.
  intros (Hb & Hd & Hr). destruct (candidate_compare_le d best) as (_ & _ & Heq).
  destruct (candidate_compare d best).
  - exfalso. apply Hb. apply elem_of_cons. left. symmetry. by apply Heq.
  - apply IH. csimpl. by apply NoDup_cons.
  - apply IH. csimpl. apply NoDup_cons. split; [|done]. intros Hin. apply Hb. by right.
Qed.

Lemma elem_of_eligible s t c :
  c ∈ eligible_work s t <->
  exists k, (k, c.2) ∈ mg_executions s /\ lease_available c.2 t = true /\
    needed_work (er_execution c.2) = Some c.1.
Proof.
  unfold eligible_work. rewrite list_elem_of_omap. split.
  - intros ([k r] & Hin & Hc). simpl in Hc. destruct (lease_available r t) eqn:Hl; [|done].
    destruct (needed_work (er_execution r)) as [w|] eqn:Hw; [|done]. simplify_eq/=. by exists k.
  - intros (k & Hin & Hl & Hw). exists (k, c.2). split; [done|]. simpl. rewrite Hl, Hw. by destruct c.
Qed.

(** The outcome of a claim. *)
Lemma claim_spec t w x s :
  let out := claim_next_execution t w x s in
  match out.2 with
  | Ok None => out.1 = s /\ eligible_work s t = []
  | Ok (Some work) => exists c r',
      c ∈ eligible_work s t /\ Forall (candidate_le c) (eligible_work s t) /\
      claim_change t w x c.2 r' /\ work = {| wk_kind := c.1.2; wk_record := r' |} /\
      out.1 = set_execution (er_owner_id c.2, mx_id (er_execution c.2)) r' s
  | Err e => out.1 = s /\ ~ NoDup (candidate_id <$> eligible_work s t)
  end.
Proof.
  intros out. assert (Hout : claim_next_execution t w x s = out) by done. clearbody out.
  unfold claim_next_execution in Hout. run_store.
  destruct (eligible_work s t) as [|first rest] eqn:E; [by subst out|].
  destruct (min_candidate first rest) as [c|e] eqn:Hm; subst out; simpl.
  - apply min_candidate_Ok in Hm as [Hc Hall]. rewrite <-E in Hc.
    apply elem_of_eligible in Hc as Hel. destruct Hel as (k & _ & Hl & Hw).
    eexists c, _. split; [by rewrite <-E|]. split; [done|]. split; [|by split].
    split; [done|]. split; [by rewrite Hw|done].
  - split; [done|]. intros Hnd. destruct (min_candidate_total _ _ Hnd) as [c Hc]. congruence.
Qed.

Lemma renew_spec o i w x s :
  let out := renew_execution_lease o i w x s in
  (out = (s, Ok false)) \/
  exists r r', dget (o, i) (mg_executions s) = Some r /\ renew_change w x r r' /\
    out = (set_execution (o, i) r' s, Ok true).
Proof.
  intros out. assert (Hout : renew_execution_lease o i w x s = out) by done. clearbody out.
  unfold renew_execution_lease in Hout. run_store.
  destruct (dget (o, i) (mg_executions s)) as [r|] eqn:Hr; [|by left].
  case_bool_decide as Ho; [by left|]. case_bool_decide as Hs; [by left|]. right. subst out.
  eexists r, _. split; [done|]. split; [|reflexivity].
  by split_and!.
Qed.

Lemma execution_transition_spec now o i rev from st lo x rec ch s :
  let out := transition_execution now o i rev from st lo x rec ch s in
  (out.1 = s /\ exists e, out.2 = Err e) \/
  exists r r', dget (o, i) (mg_executions s) = Some r /\ mx_revision (er_execution r) = rev /\
    mx_status (er_execution r) ∈ from /\ transition_change o st lo x rec now ch r r' /\
    out = (set_execution (o, i) r' s, Ok r').
Proof.
  intros out. assert (Hout : transition_execution now o i rev from st lo x rec ch s = out) by done.
  clearbody out. unfold transition_execution, get_execution, validate_execution_transition in Hout. run_store.
  destruct (dget (o, i) (mg_executions s)) as [r|] eqn:Hr; [|subst out; left; eauto].
  case_bool_decide as Hrev; simpl in Hout; [|subst out; left; eauto].
  case_bool_decide as Hfrom; simpl in Hout; [|subst out; left; eauto].
  case_bool_decide as Hleg; simpl in Hout; [|subst out; left; eauto].
  destruct (bool_decide (er_lease_owner r <> None) && _ && _) eqn:Hf; [subst out; left; eauto|].
  destruct (holds_execution_lease st _ && _) eqn:Hh; [subst out; left; eauto|]. subst out.
  right. eexists r, _. split_and!; [done|done|done| |reflexivity]. split; try done.
  - destruct (er_lease_owner r) as [lw|]; [|by left]. right. rewrite bool_decide_eq_true_2 in Hf by done.
    destruct (lease_matches lo r); [by left|]. right. simpl in Hf. by destruct (lease_is_stale rec r).
  - split_and!; [done|done|]. intros E. rewrite E in Hh. simpl in Hh.
    apply orb_false_iff in Hh as [?%bool_decide_eq_false ?%bool_decide_eq_false]. done.
Qed.
End repo.
