(* ===== verification/MigrationReach.v ===== *)
(** * Reachable migration repositories

    The invariant of the migration repository, reservations, plans and drift on every
    branch, runs as sequences of calls, and how a later repository of a run relates to
    an earlier one. *)

From Stdlib Require Import Ascii String.
From S2P Require Import Prelude Json PyString DesignModels DefinitionAnalysis DesignValidation.
From S2P Require Import MigrationModels MigrationStore MigrationSpec.
Open Scope string_scope.
Open Scope list_scope.

Section reach.
Context {D Catalog : Type} `{!DesignRepositoryOps D}.
Variable catalog_fingerprint : Catalog -> string.
Variable claim_guard : string -> string -> result migration_error unit.

Abbreviation Repo := (MigrationRepo D Catalog).
Implicit Types s : Repo.

(** ** The invariant *)

Abbreviation plan_dict := (list (repo_key * PlanRecord Catalog)).

(** The reviewed plan an execution was reserved for: the caller confirmed what the
    plan asks for, and the plan cannot be reserved again. *)
Definition authorized (plans : plan_dict) (by_plan : gmap repo_key string) (k : repo_key)
    (r : ExecutionRecord) : Prop :=
  by_plan !! (k.1, mx_plan_id (er_execution r)) = Some k.2 /\
  exists p, dget (k.1, mx_plan_id (er_execution r)) plans = Some p /\
    mp_workspace_id (pr_plan p) = mx_workspace_id (er_execution r) /\
    mp_status (pr_plan p) ∈ [PClaimed; PResolved] /\
    validate_execution_authorization (pr_plan p) (er_confirmed_review_digest r)
      (er_destructive_confirmed r) (er_external_changes_confirmed r) = Ok tt.

Definition exec_ok (plans : plan_dict) (by_plan : gmap repo_key string) (k : repo_key)
    (r : ExecutionRecord) : Prop :=
  (er_owner_id r, mx_id (er_execution r)) = k /\ lease_ok r /\ authorized plans by_plan k r.

(** Baselines of one workspace: numbered and linked to their predecessors. *)
Definition baselines_linked (k : repo_key) (rows : list (BaselineRecord Catalog)) : Prop :=
  forall i b, rows !! i = Some b ->
    bl_revision b = (Z.of_nat i + 1)%Z /\ (bl_owner_id b, bl_workspace_id b) = k /\
    bl_predecessor_id b = match i with 0 => None | S j => bl_id <$> rows !! j end.

Record mig_inv s : Prop := {
  mi_wf : dwf (mg_executions s);
  mi_plans_wf : dwf (mg_plans s);
  mi_ids : NoDup ((fun k : repo_key => k.2) <$> dkeys (mg_executions s));
  mi_exec : forall k r, dget k (mg_executions s) = Some r -> exec_ok (mg_plans s) (mg_execution_by_plan s) k r;
  mi_by_plan : forall o p id, mg_execution_by_plan s !! (o, p) = Some id ->
    exists r, dget (o, id) (mg_executions s) = Some r /\ mx_plan_id (er_execution r) = p;
  mi_plan_keys : forall k p, dget k (mg_plans s) = Some p -> (pr_owner_id p, mp_id (pr_plan p)) = k;
  mi_baselines : forall k rows, mg_baselines s !! k = Some rows -> baselines_linked k rows;
}.

Lemma start_ok designs : mig_inv (InMemoryMigrationRepository designs).
Proof. split; simpl; try done; try apply NoDup_nil_2; intros; by rewrite ?lookup_empty in *. Qed.

(** ** Updates of one execution *)

Lemma authorized_progress plans by_plan k r r' :
  progress r r' -> authorized plans by_plan k r -> authorized plans by_plan k r'.
Proof. intros Hp. unfold authorized. by rewrite (pg_plan _ _ Hp), (pg_workspace _ _ Hp), (pg_digest _ _ Hp), (pg_destructive _ _ Hp), (pg_external _ _ Hp). Qed.

Lemma set_execution_inv s k r r' :
  mig_inv s -> dget k (mg_executions s) = Some r -> progress r r' -> lease_ok r' ->
  mig_inv (set_execution k r' s).
Proof.
  intros Hinv Hr Hp Hl. destruct Hinv as [Hwf Hpw Hids Hex Hbp Hpk Hbl].
  assert (Hk : k ∈ dkeys (mg_executions s)) by by eapply dget_Some_key.
  split; simpl; try done.
  - by apply dset_wf.
  - by rewrite dkeys_dset_old.
  - intros k' x. rewrite dget_dset. case_decide as Heq; [|by apply Hex]. intros [= <-]. subst k'.
    destruct (Hex _ _ Hr) as (Hkey & _ & Ha). split_and!; [|done|by eapply authorized_progress].
    by rewrite (pg_owner _ _ Hp), (pg_id _ _ Hp).
  - intros o p id Hb. destruct (Hbp _ _ _ Hb) as (x & Hx & Hxp). rewrite dget_dset.
    case_decide as Heq; [|eauto]. exists r'. split; [done|]. rewrite (pg_plan _ _ Hp).
    rewrite Heq, Hr in Hx. by simplify_eq.
Qed.

Lemma claim_inv t w x s : mig_inv s -> mig_inv (claim_next_execution t w x s).1.
Proof.
  intros Hinv. pose proof (claim_spec t w x s) as Hs. cbn zeta in Hs.
  destruct (claim_next_execution t w x s) as [s' [[work|]|e]]; simpl in *; [|by destruct Hs as [-> _]..].
  destruct Hs as (c & r' & Hc & _ & Hch & _ & ->).
  apply elem_of_eligible in Hc as (k & Hin & _ & _).
  apply (dget_elem_wf _ _ _ (mi_wf _ Hinv)) in Hin as Hk. destruct (mi_exec _ Hinv _ _ Hk) as (Hkey & Hl & _).
  rewrite Hkey. destruct (claim_change_ok _ _ _ _ _ Hch Hl). by eapply set_execution_inv.
Qed.

Lemma renew_inv o i w x s : mig_inv s -> mig_inv (renew_execution_lease o i w x s).1.
Proof.
  intros Hinv. destruct (renew_spec o i w x s) as [->|(r & r' & Hr & Hch & ->)]; [done|]. simpl.
  destruct (mi_exec _ Hinv _ _ Hr) as (_ & Hl & _).
  destruct (renew_change_ok _ _ _ _ Hch Hl). by eapply set_execution_inv.
Qed.

Lemma transition_inv now o i rev from st lo x rec ch s :
  mig_inv s -> mig_inv (transition_execution now o i rev from st lo x rec ch s).1.
Proof.
  intros Hinv. destruct (execution_transition_spec now o i rev from st lo x rec ch s) as [[-> _]|(r & r' & Hr & _ & _ & Hch & ->)];
    [done|]. simpl. destruct (mi_exec _ Hinv _ _ Hr) as (Hkey & Hl & _). injection Hkey as Ho _.
  destruct (transition_change_ok _ _ _ _ _ _ _ _ _ Hch Ho Hl). by eapply set_execution_inv.
Qed.

(** ** Baselines *)

Lemma baselines_linked_snoc k rows b :
  baselines_linked k rows -> bl_revision b = (Z.of_nat (length rows) + 1)%Z ->
  (bl_owner_id b, bl_workspace_id b) = k -> bl_predecessor_id b = bl_id <$> last rows ->
  baselines_linked k (rows ++ [b]).
Proof.
  intros Hl Hr Hk Hp i x Hx. destruct (decide (i < length rows)) as [Hi|Hi].
  - rewrite lookup_app_l in Hx by done. destruct (Hl i x Hx) as (? & ? & Hpre). split_and!; [done|done|].
    rewrite Hpre. destruct i as [|j]; [done|]. by rewrite lookup_app_l by lia.
  - apply lookup_lt_Some in Hx as Hlt. rewrite length_app in Hlt. simpl in Hlt.
    assert (i = length rows) as -> by lia. rewrite lookup_app_r, Nat.sub_diag in Hx by lia. simpl in Hx. simplify_eq.
    split_and!; [done|done|]. rewrite Hp, last_lookup. destruct (length rows) as [|j] eqn:Hlen; [|].
    + by apply nil_length_inv in Hlen as ->.
    + simpl. by rewrite lookup_app_l by lia.
Qed.

Lemma baselines_of_linked s k : mig_inv s -> baselines_linked k (baselines_of s k).
Proof.
  intros Hinv. unfold baselines_of. destruct (mg_baselines s !! k) as [rows|] eqn:E; [by apply Hinv|].
  by intros i b Hb.
Qed.

(** The outcome of [create_baseline]: optimistic concurrency on the current head. *)
Lemma create_baseline_spec now token v s :
  let k := (bv_owner_id _ v, bv_workspace_id _ v) in
  let out := create_baseline now token v s in
  let rows := baselines_of s k in
  let head := bl_id <$> last rows in
  if decide (bv_expected_predecessor_id _ v = head) then
    exists b, out.2 = Ok b /\ out.1 = put_baselines (<[k := rows ++ [b]]> (mg_baselines s)) s /\
      bl_id b = ("mbl_" ++ token)%string /\ (bl_owner_id b, bl_workspace_id b) = k /\
      bl_revision b = (Z.of_nat (length rows) + 1)%Z /\ bl_predecessor_id b = head /\
      bl_content b = bv_content _ v /\ bl_design_revision b = bv_design_revision _ v /\
      bl_catalog b = bv_catalog _ v
  else out.1 = put_baselines (<[k := rows]> (mg_baselines s)) s /\
       out.2 = Err (MigrationConflictError "baseline_changed" "The workspace synchronization baseline changed"
                      [("currentBaselineId", json_opt head)]).
Proof.
  intros k out rows head. assert (Hout : create_baseline now token v s = out) by done. clearbody out.
  unfold create_baseline in Hout. fold k in Hout. run_store. fold rows in Hout. fold head in Hout.
  case_decide as Hh.
  - rewrite bool_decide_eq_true_2 in Hout by done. simpl in Hout. subst out. eexists. split; [reflexivity|].
    simpl. rewrite insert_insert_eq. by split_and!.
  - rewrite bool_decide_eq_false_2 in Hout by done. simpl in Hout. by subst out.
Qed.

Lemma put_baselines_inv s k rows :
  mig_inv s -> baselines_linked k rows -> mig_inv (put_baselines (<[k := rows]> (mg_baselines s)) s).
Proof.
  intros [Hwf Hpw Hids Hex Hbp Hpk Hbl] Hl. split; simpl; try done.
  intros k' rows'. rewrite lookup_insert. case_decide; [|by apply Hbl]. by intros [= <-]; subst.
Qed.

Lemma create_baseline_inv now token v s : mig_inv s -> mig_inv (create_baseline now token v s).1.
Proof.
  intros Hinv. pose proof (create_baseline_spec now token v s) as Hs. cbn zeta in Hs.
  pose proof (baselines_of_linked s (bv_owner_id _ v, bv_workspace_id _ v) Hinv) as Hl.
  case_decide.
  - destruct Hs as (b & _ & -> & _ & ? & ? & ? & _). apply put_baselines_inv; [done|].
    by apply baselines_linked_snoc.
  - destruct Hs as [-> _]. by apply put_baselines_inv.
Qed.

(** ** Plans *)

(** Changing the plans keeps the invariant when the reserved ones stay reserved. *)
Lemma put_plans_inv s plans :
  mig_inv s -> dwf plans -> (forall k p, dget k plans = Some p -> (pr_owner_id p, mp_id (pr_plan p)) = k) ->
  (forall k r, dget k (mg_executions s) = Some r -> authorized (mg_plans s) (mg_execution_by_plan s) k r ->
     authorized plans (mg_execution_by_plan s) k r) ->
  mig_inv (put_plans plans s).
Proof.
  intros [Hwf Hpw Hids Hex Hbp Hpk Hbl] Hw Hk Ha. split; simpl; try done.
  intros k r Hr. destruct (Hex k r Hr) as (? & ? & ?). split_and!; [done|done|]. by apply (Ha k r).
Qed.

Lemma dget_filter {V} (P : repo_key * V -> Prop) `{forall x, Decision (P x)} (d : list (repo_key * V)) k v :
  dwf d -> dget k (filter P d) = Some v <-> dget k d = Some v /\ P (k, v).
Proof.
  intros Hwf. assert (Hwf' : dwf (filter P d)).
  { unfold dwf, dkeys in *. eapply NoDup_submseteq_fmap; [apply sublist_submseteq, sublist_filter|done]. }
  split.
  - intros Hg%dget_Some_elem%list_elem_of_filter. destruct Hg as [? Hg]. split; [|done]. by apply dget_elem_wf.
  - intros [Hg HP]. apply dget_elem_wf; [done|]. apply list_elem_of_filter. split; [done|]. by apply dget_Some_elem.
Qed.

Lemma create_plan_inv record s :
  mig_inv s -> dget (pr_owner_id record, mp_id (pr_plan record)) (mg_plans s) = None ->
  mig_inv (create_plan claim_guard record s).1.
Proof.
  intros Hinv Hfresh. unfold create_plan, create_plan_locked. run_store.
  destruct (claim_guard _ _) as [[]|]; [|done]. destruct (any_execution _ _ _ _); [done|]. simpl.
  pose proof (mi_plans_wf _ Hinv) as Hpw.
  assert (Hkept : dwf (filter (fun kv => abandoned s record kv = false) (mg_plans s))).
  { unfold dwf, dkeys in *. eapply NoDup_submseteq_fmap; [apply sublist_submseteq, sublist_filter|done]. }
  apply put_plans_inv; [done|by apply dset_wf| |].
  - intros k p. rewrite dget_dset. case_decide as Hk; [by intros [= <-]|].
    rewrite dget_filter by done. intros [Hp _]. by apply Hinv.
  - intros k r _ (Hbp & p & Hp & Hrest). split; [done|]. exists p. split; [|done].
    rewrite dget_dset. case_decide as Hk; [by rewrite Hk, Hfresh in Hp|].
    rewrite dget_filter by done. split; [done|]. unfold abandoned. simpl.
    rewrite (bool_decide_eq_false_2 (mg_execution_by_plan s !! _ = None)); [by rewrite andb_false_r|].
    by rewrite Hbp.
Qed.

(** ** Reservations *)

(** The receipt of a new reservation and the repository that holds it. *)
Definition receipt (token owner plan_id digest : string) (cd ce : bool) (at_ : Z) (workspace : string)
    : ExecutionRecord :=
  {| er_owner_id := owner; er_execution := new_execution ("mex_" ++ token) plan_id workspace at_;
     er_confirmed_review_digest := digest; er_destructive_confirmed := cd; er_external_changes_confirmed := ce;
     er_target_identity := None; er_intended_result := None; er_error_detail := None; er_lease_owner := None;
     er_lease_expires_at := None |}.

Definition reserved (owner plan_id : string) (p : PlanRecord Catalog) (r : ExecutionRecord) s : Repo :=
  {| mg_designs := mg_designs s; mg_baselines := mg_baselines s;
     mg_plans := dset (owner, plan_id) (with_status PClaimed p) (mg_plans s);
     mg_executions := dset (owner, mx_id (er_execution r)) r (mg_executions s);
     mg_execution_by_plan := <[(owner, plan_id) := mx_id (er_execution r)]> (mg_execution_by_plan s) |}.

(** A plan that may be reserved now. *)
Definition reservable (owner plan_id : string) (p : PlanRecord Catalog) (at_ : Z) s : Prop :=
  mg_execution_by_plan s !! (owner, plan_id) = None /\
  any_execution s owner (mp_workspace_id (pr_plan p)) blocks_lifecycle = false /\
  (at_ < mp_expires_at (pr_plan p))%Z /\ mp_status (pr_plan p) = PReviewable /\
  mp_apply_capable (pr_plan p) = true.

Lemma reserve_spec token owner plan_id digest cd ce at_ s :
  let out := reserve_execution claim_guard token owner plan_id digest cd ce at_ s in
  (out.1 = s /\ exists e, out.2 = Err e) \/
  exists p, dget (owner, plan_id) (mg_plans s) = Some p /\
    validate_execution_authorization (pr_plan p) digest cd ce = Ok tt /\
    ((exists id r, mg_execution_by_plan s !! (owner, plan_id) = Some id /\
        dget (owner, id) (mg_executions s) = Some r /\
        out = (s, Ok {| rs_record := r; rs_reserved_now := false |})) \/
     (reservable owner plan_id p at_ s /\
        let r := receipt token owner plan_id digest cd ce at_ (mp_workspace_id (pr_plan p)) in
        out = (reserved owner plan_id p r s, Ok {| rs_record := r; rs_reserved_now := true |}))).
Proof.
  intros out. assert (Hout : reserve_execution claim_guard token owner plan_id digest cd ce at_ s = out) by done.
  clearbody out. unfold reserve_execution, reserve_execution_locked, get_plan in Hout. run_store.
  destruct (dget (owner, plan_id) (mg_plans s)) as [p|] eqn:Hp; [|subst out; left; eauto]. rewrite Hp in Hout.
  destruct (claim_guard _ _) as [u|e]; [|subst out; left; eauto].
  destruct (validate_execution_authorization _ _ _ _) as [[]|e] eqn:Ha; [|subst out; left; eauto].
  destruct (mg_execution_by_plan s !! (owner, plan_id)) as [id|] eqn:Hb.
  { destruct (dget (owner, id) (mg_executions s)) as [r|] eqn:Hr; subst out; [|left; eauto].
    right. exists p. split_and!; [done|done|]. left. by exists id, r. }
  destruct (any_execution _ _ _ _) eqn:Hany; [subst out; left; eauto|].
  case_bool_decide as Hexp; [subst out; left; eauto|].
  case_bool_decide as Hst; simpl in Hout; [|subst out; left; eauto].
  destruct (mp_apply_capable (pr_plan p)) eqn:Hcap; simpl in Hout; subst out; [|left; eauto].
  right. exists p. split_and!; [done|done|]. right. split; [|done]. unfold reservable. by split_and!; try lia.
Qed.

Lemma receipt_lease_ok token owner plan_id digest cd ce at_ ws :
  lease_ok (receipt token owner plan_id digest cd ce at_ ws).
Proof. by split_and!. Qed.

Lemma reserve_inv token owner plan_id digest cd ce at_ s :
  mig_inv s -> ("mex_" ++ token)%string ∉ (fun k : repo_key => k.2) <$> dkeys (mg_executions s) ->
  mig_inv (reserve_execution claim_guard token owner plan_id digest cd ce at_ s).1.
Proof.
  intros Hinv Hfresh.
  destruct (reserve_spec token owner plan_id digest cd ce at_ s)
    as [[-> _]|(p & Hp & Ha & [(id & r & _ & _ & ->)|[(Hb & _) ->]])]; [done|done|]. simpl.
  set (r := receipt _ _ _ _ _ _ _ _). set (id := ("mex_" ++ token)%string) in *.
  destruct Hinv as [Hwf Hpw Hids Hex Hbp Hpk Hbl].
  assert (Hk : (owner, id) ∉ dkeys (mg_executions s)).
  { intros Hin. apply Hfresh. by apply (list_elem_of_fmap_2 (fun k : repo_key => k.2)) in Hin. }
  assert (Hauth : forall k x, k <> (owner, id) ->
    authorized (mg_plans s) (mg_execution_by_plan s) k x ->
    authorized (mg_plans (reserved owner plan_id p r s)) (mg_execution_by_plan (reserved owner plan_id p r s)) k x).
  { intros k x _ (Hb' & q & Hq & Hrest). unfold authorized. simpl.
    assert ((k.1, mx_plan_id (er_execution x)) <> (owner, plan_id)) as Hne.
    { intros Heq. rewrite Heq in Hb'. congruence. }
    rewrite lookup_insert_ne by done. split; [done|]. exists q. rewrite dget_dset_ne by done. done. }
  split; simpl; try done.
  - by apply dset_wf.
  - by apply dset_wf.
  - rewrite dkeys_dset_new by done. rewrite fmap_app. apply NoDup_app. split_and!; [done| |apply NoDup_singleton].
    intros x Hx. csimpl. rewrite list_elem_of_singleton. intros ->. done.
  - intros k x. rewrite dget_dset. case_decide as Heq.
    + intros [= <-]. subst k. split_and!; [done|apply receipt_lease_ok|]. split; simpl; [by rewrite lookup_insert_eq|].
      exists (with_status PClaimed p). rewrite dget_dset_eq. split_and!; [done|done|by left|exact Ha].
    + intros Hx. destruct (Hex _ _ Hx) as (? & ? & ?). split_and!; [done|done|]. by apply Hauth.
  - intros o q i. rewrite lookup_insert. case_decide as Heq.
    + intros [= <-]. simplify_eq. exists r. by rewrite dget_dset_eq.
    + intros Hi. destruct (Hbp _ _ _ Hi) as (x & Hx & Hxp). exists x. split; [|done].
      rewrite dget_dset_ne; [done|]. intros Heq'. apply dget_Some_key in Hx. apply Hk. by rewrite Heq' in Hx.
  - intros k q. rewrite dget_dset. case_decide as Heq; [|by apply Hpk]. intros [= <-]. simpl.
    by rewrite (Hpk _ _ Hp), Heq.
Qed.

(** ** Drift *)

(** The record a client passes is the stored plan, up to its status. *)
Definition same_review (a b : PlanRecord Catalog) : Prop := with_status PClaimed a = with_status PClaimed b.

Lemma put_designs_inv s d : mig_inv s -> mig_inv (put_designs d s).
Proof. by intros []; split. Qed.

Lemma resolve_plan_inv s record stored :
  mig_inv s -> dget (pr_owner_id record, mp_id (pr_plan record)) (mg_plans s) = Some stored ->
  same_review stored record ->
  mig_inv (put_plans (dset (pr_owner_id record, mp_id (pr_plan record)) (with_status PResolved record)
                        (mg_plans s)) s).
Proof.
  intros Hinv Hst Hsame. apply put_plans_inv; [done|by apply dset_wf, Hinv| |].
  - intros k p. rewrite dget_dset. case_decide as Hk; [by intros [= <-]|apply Hinv].
  - intros k r _ (Hb & p & Hp & Hw & Hps & Ha). split; [done|]. rewrite dget_dset.
    case_decide as Hk; [|by exists p]. rewrite Hk, Hst in Hp. injection Hp as <-.
    exists (with_status PResolved record). split; [done|].
    pose proof (f_equal pr_plan Hsame) as Hplan. cbn [with_status pr_plan] in Hplan.
    assert (Hfield : forall {A} (f : MigrationPlan -> A),
      (forall st q, f (with_plan_status st q) = f q) -> f (pr_plan record) = f (pr_plan stored)).
    { intros A f Hf. rewrite <-(Hf PClaimed (pr_plan record)), <-(Hf PClaimed (pr_plan stored)).
      by rewrite Hplan. }
    simpl. split_and!; [by rewrite (Hfield _ mp_workspace_id)|set_solver|].
    rewrite <-Ha. unfold validate_execution_authorization. simpl.
    by rewrite (Hfield _ mp_review_digest), (Hfield _ mp_destructive),
      (Hfield _ mp_requires_external_change_acknowledgement).
Qed.

(** The design request a reconciliation sends. *)
Definition drift_request (revision : Z) (content : SchemiiDesignContent) : SchemiiDesignReplace :=
  {| drep_expected_design_revision := revision; drep_content := content; drep_history_group_id := None |}.

Definition drift_baseline (now : Z) (token : string) (record : PlanRecord Catalog) (revision : Z)
    (live_content : SchemiiDesignContent) (s' : Repo) : Repo * result migration_error (BaselineRecord Catalog) :=
  create_baseline now token {|
    bv_owner_id := pr_owner_id record; bv_workspace_id := mp_workspace_id (pr_plan record);
    bv_connection_id := pa_connection_id (pr_authority record);
    bv_connection_owner_id := Some (or_else (pa_connection_owner_id (pr_authority record)) (pr_owner_id record));
    bv_connection_revision := pa_connection_revision (pr_authority record);
    bv_database := pa_database (pr_authority record);
    bv_namespace := pa_namespace (pr_authority record); bv_design_revision := revision;
    bv_content := live_content; bv_catalog := pa_live_catalog (pr_authority record); bv_complete := true;
    bv_issues := []; bv_source := "drift_reconciliation";
    bv_expected_predecessor_id := Some (pr_baseline_id record); bv_source_execution_id := None |} s'.

Lemma reconcile_spec now bt rt record revision resolved live s :
  let out := reconcile_drift catalog_fingerprint claim_guard now bt rt record revision resolved live s in
  let k := (pr_owner_id record, mp_id (pr_plan record)) in
  (out.1 = s /\ exists e, out.2 = Err e) \/
  (any_execution s (pr_owner_id record) (mp_workspace_id (pr_plan record)) blocks_lifecycle = false /\
   match designs_replace now (pr_owner_id record) (mp_workspace_id (pr_plan record))
           (drift_request revision resolved) "checkpoint" (mg_designs s) with
   | (d, Err e) => out = (put_designs d s, Err (DesignErrorRaised e))
   | (d, Ok design) =>
       match drift_baseline now bt record (design_revision design) live (put_designs d s) with
       | (s', Err e) => out = (s', Err e)
       | (s', Ok b) =>
           out.1 = put_plans (dset k (with_status PResolved record) (mg_plans s')) s' /\
           exists res, out.2 = Ok res /\ mdr_design_revision res = design_revision design /\
             mdr_baseline_revision res = bl_revision b
       end
   end).
Proof.
  intros out k.
  assert (Hout : reconcile_drift catalog_fingerprint claim_guard now bt rt record revision resolved live s = out) by done.
  clearbody out. unfold reconcile_drift, reconcile_drift_locked, on_designs in Hout.
  unfold m_bind, m_get, m_update, m_guard, m_return, guard_err in Hout. unfold m_lift in Hout.
  destruct (claim_guard _ _) as [u|e]; [|subst out; left; eauto].
  destruct (any_execution _ _ _ _); [subst out; left; eauto|]. right. split; [done|].
  unfold drift_request.
  destruct (designs_replace _ _ _ _ _ _) as [d [design|e]]; [|by subst out].
  unfold drift_baseline. destruct (create_baseline _ _ _ _) as [s' [b|e]]; subst out; [|done].
  simpl. eauto.
Qed.

Lemma reconcile_inv now bt rt record stored revision resolved live s :
  mig_inv s -> dget (pr_owner_id record, mp_id (pr_plan record)) (mg_plans s) = Some stored ->
  same_review stored record ->
  mig_inv (reconcile_drift catalog_fingerprint claim_guard now bt rt record revision resolved live s).1.
Proof.
  intros Hinv Hst Hsame.
  destruct (reconcile_spec now bt rt record revision resolved live s) as [[-> _]|[_ Hs]]; [done|].
  destruct (designs_replace _ _ _ _ _ _) as [d [design|e]]; [|rewrite Hs; by apply put_designs_inv].
  unfold drift_baseline in Hs.
  match type of Hs with context [create_baseline now bt ?v ?s0] =>
    pose proof (create_baseline_spec now bt v s0) as Hc;
    pose proof (create_baseline_inv now bt v s0 (put_designs_inv s d Hinv)) as Hinv';
    destruct (create_baseline now bt v s0) as [s' [b|e]]; [|rewrite Hs; exact Hinv'] end.
  destruct Hs as [-> _]. eapply resolve_plan_inv; [done| |exact Hsame].
  cbn zeta in Hc. case_decide; [destruct Hc as (? & _ & Hs' & _)|destruct Hc as [Hs' _]];
    simpl in Hs'; subst s'; exact Hst.
Qed.

(** ** Runs *)

(** One call of a public method.  New IDs are fresh, and a reconciled plan is one
    the repository stores.  Other clients may change the designs at any time. *)
Inductive mig_step s : Repo -> Prop :=
| ms_designs d : mig_step s (put_designs d s)
| ms_create_baseline now token v : mig_step s (create_baseline now token v s).1
| ms_import_baseline now token cursor owner ws conn conn_owner db ns b :
    mig_step s (create_import_baseline now token cursor owner ws conn conn_owner db ns b s).1
| ms_create_plan record :
    dget (pr_owner_id record, mp_id (pr_plan record)) (mg_plans s) = None ->
    mig_step s (create_plan claim_guard record s).1
| ms_reserve token owner plan_id digest cd ce at_ :
    ("mex_" ++ token)%string ∉ (fun k : repo_key => k.2) <$> dkeys (mg_executions s) ->
    mig_step s (reserve_execution claim_guard token owner plan_id digest cd ce at_ s).1
| ms_claim at_ worker expires : mig_step s (claim_next_execution at_ worker expires s).1
| ms_renew owner id worker expires : mig_step s (renew_execution_lease owner id worker expires s).1
| ms_transition now owner id revision from status worker expires recover changes :
    mig_step s (transition_execution now owner id revision from status worker expires recover changes s).1
| ms_reconcile now bt rt record stored revision resolved live :
    dget (pr_owner_id record, mp_id (pr_plan record)) (mg_plans s) = Some stored -> same_review stored record ->
    mig_step s (reconcile_drift catalog_fingerprint claim_guard now bt rt record revision resolved live s).1.

Definition mig_reachable s : Prop := exists designs, rtc mig_step (InMemoryMigrationRepository designs) s.

Lemma mig_step_inv s s' : mig_inv s -> mig_step s s' -> mig_inv s'.
Proof.
  intros Hinv []; eauto using put_designs_inv, create_baseline_inv, create_plan_inv, reserve_inv, claim_inv,
    renew_inv, transition_inv, reconcile_inv.
  unfold create_import_baseline. unfold m_bind at 1, m_guard, m_lift, guard_err.
  destruct cursor; [done|]. by apply create_baseline_inv.
Qed.

Lemma mig_run_inv s s' : mig_inv s -> rtc mig_step s s' -> mig_inv s'.
Proof. intros Hinv. induction 1 as [|x y z Hxy _ IH]; [done|]. by eapply IH, mig_step_inv. Qed.

Lemma mig_reachable_inv s : mig_reachable s -> mig_inv s.
Proof. intros [designs Hr]. eapply mig_run_inv; [apply start_ok|done]. Qed.

(** ** What a step keeps *)

(** Everything later states remember of an earlier one. *)
Record later s s' : Prop := {
  lt_executions : forall k r, dget k (mg_executions s) = Some r ->
    exists r', dget k (mg_executions s') = Some r' /\ progress r r';
  lt_by_plan : forall k id, mg_execution_by_plan s !! k = Some id -> mg_execution_by_plan s' !! k = Some id;
  lt_plans : forall k id p, mg_execution_by_plan s !! k = Some id -> dget k (mg_plans s) = Some p ->
    exists p', dget k (mg_plans s') = Some p' /\ same_review p p';
  lt_baselines : forall k, baselines_of s k `prefix_of` baselines_of s' k;
}.

Lemma same_review_refl p : same_review p p.
Proof. done. Qed.

Lemma later_refl s : later s s.
Proof. split; eauto using progress_refl, same_review_refl. Qed.

Lemma later_trans s1 s2 s3 : later s1 s2 -> later s2 s3 -> later s1 s3.
Proof.
  intros [He Hb Hp Hl] [He' Hb' Hp' Hl']. split.
  - intros k r Hr. destruct (He _ _ Hr) as (r2 & Hr2 & ?). destruct (He' _ _ Hr2) as (r3 & ? & ?).
    exists r3. split; [done|]. by etrans.
  - eauto.
  - intros k id p Hk Hkp. destruct (Hp _ _ _ Hk Hkp) as (p2 & Hp2 & ?).
    destruct (Hp' _ _ _ (Hb _ _ Hk) Hp2) as (p3 & ? & ?). exists p3. split; [done|]. unfold same_review in *. congruence.
  - intros k. etrans; [apply Hl|apply Hl'].
Qed.

Lemma set_execution_later s k r r' :
  dget k (mg_executions s) = Some r -> progress r r' -> later s (set_execution k r' s).
Proof.
  intros Hr Hp. split; simpl; eauto using same_review_refl.
  intros k' x Hx. rewrite dget_dset. case_decide as Heq; [|eauto using progress_refl].
  subst k'. assert (x = r) as -> by congruence. eauto.
Qed.

Lemma claim_later t w x s : mig_inv s -> later s (claim_next_execution t w x s).1.
Proof.
  intros Hinv. pose proof (claim_spec t w x s) as Hs. cbn zeta in Hs.
  destruct (claim_next_execution t w x s) as [s' [[work|]|e]]; simpl in *;
    [|destruct Hs as [-> _]; apply later_refl..].
  destruct Hs as (c & r' & Hc & _ & Hch & _ & ->). apply elem_of_eligible in Hc as (k & Hin & _ & _).
  apply (dget_elem_wf _ _ _ (mi_wf _ Hinv)) in Hin as Hk. destruct (mi_exec _ Hinv _ _ Hk) as (Hkey & Hl & _).
  rewrite Hkey. destruct (claim_change_ok _ _ _ _ _ Hch Hl). by eapply set_execution_later.
Qed.

Lemma renew_later o i w x s : mig_inv s -> later s (renew_execution_lease o i w x s).1.
Proof.
  intros Hinv. destruct (renew_spec o i w x s) as [->|(r & r' & Hr & Hch & ->)]; [apply later_refl|]. simpl.
  destruct (mi_exec _ Hinv _ _ Hr) as (_ & Hl & _).
  destruct (renew_change_ok _ _ _ _ Hch Hl). by eapply set_execution_later.
Qed.

Lemma transition_later now o i rev from st lo x rec ch s :
  mig_inv s -> later s (transition_execution now o i rev from st lo x rec ch s).1.
Proof.
  intros Hinv. destruct (execution_transition_spec now o i rev from st lo x rec ch s) as [[-> _]|(r & r' & Hr & _ & _ & Hch & ->)];
    [apply later_refl|]. simpl. destruct (mi_exec _ Hinv _ _ Hr) as (Hkey & Hl & _). injection Hkey as Ho _.
  destruct (transition_change_ok _ _ _ _ _ _ _ _ _ Hch Ho Hl). by eapply set_execution_later.
Qed.

Lemma create_baseline_later now token v s : later s (create_baseline now token v s).1.
Proof.
  pose proof (create_baseline_spec now token v s) as Hs. cbn zeta in Hs.
  set (k := (bv_owner_id _ v, bv_workspace_id _ v)) in *.
  assert (Hput : forall rows, baselines_of s k `prefix_of` rows ->
    later s (put_baselines (<[k := rows]> (mg_baselines s)) s)).
  { intros rows Hpre. split; simpl; eauto using progress_refl, same_review_refl. intros k'.
    unfold baselines_of at 2. simpl. destruct (decide (k = k')) as [<-|Hne]; [by rewrite lookup_insert_eq|].
    by rewrite lookup_insert_ne by done. }
  case_decide; [destruct Hs as (b & _ & -> & _)|destruct Hs as [-> _]]; apply Hput; [by apply prefix_app_r|done].
Qed.

Lemma create_plan_later record s :
  mig_inv s -> dget (pr_owner_id record, mp_id (pr_plan record)) (mg_plans s) = None ->
  later s (create_plan claim_guard record s).1.
Proof.
  intros Hinv Hfresh. unfold create_plan, create_plan_locked. run_store.
  destruct (claim_guard _ _) as [[]|]; [|apply later_refl]. destruct (any_execution _ _ _ _); [apply later_refl|].
  simpl. split; simpl; eauto using progress_refl. intros k id p Hb Hp. exists p. split; [|done].
  rewrite dget_dset. case_decide as Hk; [by rewrite Hk, Hfresh in Hp|].
  rewrite dget_filter by apply Hinv. split; [done|]. unfold abandoned. simpl.
  rewrite (bool_decide_eq_false_2 (mg_execution_by_plan s !! _ = None)); [by rewrite andb_false_r|]. by rewrite Hb.
Qed.

Lemma reserve_later token owner plan_id digest cd ce at_ s :
  mig_inv s -> ("mex_" ++ token)%string ∉ (fun k : repo_key => k.2) <$> dkeys (mg_executions s) ->
  later s (reserve_execution claim_guard token owner plan_id digest cd ce at_ s).1.
Proof.
  intros Hinv Hfresh.
  destruct (reserve_spec token owner plan_id digest cd ce at_ s)
    as [[-> _]|(p & Hp & Ha & [(id & r & _ & _ & ->)|[(Hb & _) ->]])]; [apply later_refl..|]. simpl.
  split; simpl; [| | |done].
  - intros k r Hr. exists r. split; [|done]. rewrite dget_dset_ne; [done|]. intros ->.
    apply Hfresh, (list_elem_of_fmap_2 (fun k : repo_key => k.2) _ (owner, ("mex_" ++ token)%string)).
    by eapply dget_Some_key.
  - intros k id Hk. rewrite lookup_insert_ne; [done|]. intros <-. congruence.
  - intros k id q Hk Hq. exists q. rewrite dget_dset_ne; [done|]. intros ->. congruence.
Qed.

Lemma reconcile_later now bt rt record stored revision resolved live s :
  mig_inv s -> dget (pr_owner_id record, mp_id (pr_plan record)) (mg_plans s) = Some stored ->
  same_review stored record ->
  later s (reconcile_drift catalog_fingerprint claim_guard now bt rt record revision resolved live s).1.
Proof.
  intros Hinv Hst Hsame.
  assert (Hput : forall d, later s (put_designs d s)) by (intros d; split; eauto using progress_refl, same_review_refl).
  destruct (reconcile_spec now bt rt record revision resolved live s) as [[-> _]|[_ Hs]]; [apply later_refl|].
  destruct (designs_replace _ _ _ _ _ _) as [d [design|e]]; [|rewrite Hs; apply Hput].
  unfold drift_baseline in Hs.
  match type of Hs with context [create_baseline now bt ?v ?s0] =>
    pose proof (create_baseline_later now bt v s0) as Hc; pose proof (create_baseline_spec now bt v s0) as Hspec;
    destruct (create_baseline now bt v s0) as [s' [b|e]]; [|rewrite Hs; by eapply later_trans] end.
  destruct Hs as [-> _]. simpl in Hc. eapply later_trans; [apply Hput|]. eapply later_trans; [exact Hc|].
  assert (Hplans : mg_plans s' = mg_plans s).
  { cbn zeta in Hspec. case_decide; [destruct Hspec as (? & _ & E & _)|destruct Hspec as [E _]]; simpl in E; by subst s'. }
  split; simpl; eauto using progress_refl. intros k id p _ Hp. rewrite dget_dset.
  case_decide as Hk; [|eauto using same_review_refl]. eexists. split; [reflexivity|].
  rewrite Hplans, Hk, Hst in Hp. injection Hp as <-. unfold same_review in *. by rewrite Hsame.
Qed.

Lemma mig_step_later s s' : mig_inv s -> mig_step s s' -> later s s'.
Proof.
  intros Hinv []; eauto using create_baseline_later, create_plan_later, reserve_later, claim_later,
    renew_later, transition_later, reconcile_later.
  - split; eauto using progress_refl, same_review_refl.
  - unfold create_import_baseline. unfold m_bind at 1, m_guard, m_lift, guard_err.
    destruct cursor; [apply later_refl|]. apply create_baseline_later.
Qed.

Lemma mig_run_later s s' : mig_inv s -> rtc mig_step s s' -> later s s'.
Proof.
  intros Hinv Hr. induction Hr as [|x y z Hxy _ IH]; [apply later_refl|].
  eapply later_trans; [by apply mig_step_later|]. by eapply IH, mig_step_inv.
Qed.
End reach.
