(* ===== verification/MigrationTheorems.v ===== *)
(** * Guarantees of the migration repository

    The properties of [MigrationStore] over every run: executions follow the status
    machine, are authorized and single-use, leases exclude other workers until they
    expire, no work is lost, baselines form chains, and drift is reconciled against
    the interface of the design repository. *)

From Stdlib Require Import Ascii String.
From S2P Require Import Prelude Json PyString DesignModels DefinitionAnalysis DesignValidation.
From S2P Require Import TypeOrder ValidationSpec DeletionGraph DesignDocument DesignStore DesignStoreInv DesignStoreSpec.
From S2P Require Import MigrationModels MigrationStore MigrationSpec MigrationReach.
Open Scope string_scope.
Open Scope list_scope.

Section theorems.
Context {D Catalog : Type} `{!DesignRepositoryOps D}.
Variable catalog_fingerprint : Catalog -> string.
Variable claim_guard : string -> string -> result migration_error unit.

Abbreviation Repo := (MigrationRepo D Catalog).
Abbreviation step := (mig_step catalog_fingerprint claim_guard).
Abbreviation reachable := (mig_reachable catalog_fingerprint claim_guard).
Implicit Types s : Repo.

(** A new execution ID that is not in use. *)
Definition fresh_execution (token : string) s : Prop :=
  ("mex_" ++ token)%string ∉ (fun k : repo_key => k.2) <$> dkeys (mg_executions s).

(** An execution that needs work and that no live lease holds. *)
Definition claimable s (t : Z) (k : repo_key) (r : ExecutionRecord) : Prop :=
  dget k (mg_executions s) = Some r /\ lease_available r t = true /\ is_Some (needed_work (er_execution r)).

(** The baselines of a workspace after a run: appended to, and linked. *)
Definition baselines_extend s s' (k : repo_key) : Prop :=
  baselines_of s k `prefix_of` baselines_of s' k /\ baselines_linked k (baselines_of s' k).

(** An execution as a later state of a run has it. *)
Definition execution_advances s' (k : repo_key) (r : ExecutionRecord) : Prop :=
  exists r', dget k (mg_executions s') = Some r' /\ progress r r'.

(** C16. Executions follow the status machine: along any run an execution keeps its
    identity, plan, workspace and confirmations, its revision never decreases, its
    status moves along legal transitions only, and a failed execution never changes. *)
Theorem execution_lifecycle s s' k r :
  reachable s -> rtc step s s' -> dget k (mg_executions s) = Some r -> execution_advances s' k r.
Proof.
  intros Hr Hrun Hk. apply mig_reachable_inv in Hr.
  by apply (lt_executions _ _ (mig_run_later _ _ _ _ Hr Hrun)).
Qed.

(** ** Authorization *)

(** What a caller must have confirmed for a plan. *)
Definition confirmed (p : MigrationPlan) (r : ExecutionRecord) : Prop :=
  er_confirmed_review_digest r = mp_review_digest p /\
  (mp_destructive p = true -> er_destructive_confirmed r = true) /\
  (mp_requires_external_change_acknowledgement p = true -> er_external_changes_confirmed r = true).

Lemma authorization_Ok p digest cd ce :
  validate_execution_authorization p digest cd ce = Ok tt <->
  digest = mp_review_digest p /\ (mp_destructive p = true -> cd = true) /\
  (mp_requires_external_change_acknowledgement p = true -> ce = true).
Proof.
  unfold validate_execution_authorization. split.
  - intros Hv. result_inv. repeat match goal with H : negb _ = false |- _ => apply negb_false_iff in H end.
    match goal with H : bool_decide _ = true |- _ => apply bool_decide_eq_true in H end.
    repeat match goal with H : (_ && negb _) = false |- _ => apply andb_false_iff in H end.
    destruct (mp_destructive p), (mp_requires_external_change_acknowledgement p), cd, ce; naive_solver.
  - intros (-> & Hd & He). rewrite bool_decide_eq_true_2 by done. simpl.
    destruct (mp_destructive p); [rewrite Hd by done|]; simpl;
      (destruct (mp_requires_external_change_acknowledgement p); [rewrite He by done|]; done).
Qed.

(** C17. No execution without its review: every execution of a reachable repository
    belongs to a stored plan of its owner and workspace that is claimed or resolved,
    the caller confirmed that plan's digest, and a destructive plan or external
    changes were confirmed explicitly; and a plan has at most one execution. *)
Theorem executions_authorized s k r :
  reachable s -> dget k (mg_executions s) = Some r ->
  (exists p, dget (k.1, mx_plan_id (er_execution r)) (mg_plans s) = Some p /\
     mp_workspace_id (pr_plan p) = mx_workspace_id (er_execution r) /\
     mp_status (pr_plan p) ∈ [PClaimed; PResolved] /\ confirmed (pr_plan p) r) /\
  forall k' r', dget k' (mg_executions s) = Some r' -> k'.1 = k.1 ->
    mx_plan_id (er_execution r') = mx_plan_id (er_execution r) -> k' = k.
Proof.
  intros Hr Hk. apply mig_reachable_inv in Hr as Hinv.
  destruct (mi_exec _ Hinv _ _ Hk) as (_ & _ & Hb & p & Hp & Hw & Hs & Ha). split.
  - exists p. split_and!; [done|done|done|]. by apply authorization_Ok in Ha.
  - intros k' r' Hk' Ho Hpl. destruct (mi_exec _ Hinv _ _ Hk') as (_ & _ & Hb' & _).
    rewrite Ho, Hpl, Hb in Hb'. injection Hb' as Hid. destruct k, k'; simpl in *; congruence.
Qed.

(** Reserving is idempotent: after a successful reservation, the same request
    at any later time returns the receipt of that execution as it is then, reserves
    nothing and changes nothing. *)
Theorem reserve_idempotent s s1 s2 token token' owner plan_id digest cd ce at_ at' a :
  reachable s -> fresh_execution token s ->
  reserve_execution claim_guard token owner plan_id digest cd ce at_ s = (s1, Ok a) ->
  rtc step s1 s2 -> (forall o w, claim_guard o w = Ok tt) ->
  exists r, reserve_execution claim_guard token' owner plan_id digest cd ce at' s2 =
      (s2, Ok {| rs_record := r; rs_reserved_now := false |}) /\ progress (rs_record a) r.
Proof.
  intros Hr Hfresh Ha Hrun Hguard. apply mig_reachable_inv in Hr as Hinv.
  pose proof (reserve_inv claim_guard token owner plan_id digest cd ce at_ s Hinv Hfresh) as Hinv1.
  pose proof (reserve_spec claim_guard token owner plan_id digest cd ce at_ s) as Hs. cbn zeta in Hs.
  rewrite Ha in Hinv1, Hs. simpl in Hinv1.
  assert (Hnow : exists id p, mg_execution_by_plan s1 !! (owner, plan_id) = Some id /\
    dget (owner, id) (mg_executions s1) = Some (rs_record a) /\
    dget (owner, plan_id) (mg_plans s1) = Some p /\
    validate_execution_authorization (pr_plan p) digest cd ce = Ok tt).
  { destruct Hs as [[_ [e ?]]|(p & Hp & Hv & [(id & r & Hb & Hrr & Heq)|[_ Heq]])]; [done|..]; injection Heq as -> ->.
    - exists id, p. done.
    - eexists _, (with_status PClaimed p). simpl. rewrite lookup_insert_eq, !dget_dset_eq. split_and!; done. }
  destruct Hnow as (id & p & Hb & Hrec & Hp & Hv).
  pose proof (mig_run_later _ _ _ _ Hinv1 Hrun) as Hlater.
  destruct (lt_executions _ _ Hlater _ _ Hrec) as (r' & Hr' & Hprog).
  destruct (lt_plans _ _ Hlater _ _ _ Hb Hp) as (p' & Hp' & Hsame).
  apply (lt_by_plan _ _ Hlater) in Hb. exists r'. split; [|done].
  assert (Hv' : validate_execution_authorization (pr_plan p') digest cd ce = Ok tt).
  { rewrite authorization_Ok in Hv |- *. apply (f_equal pr_plan) in Hsame. cbn [with_status pr_plan] in Hsame.
    change (mp_review_digest (pr_plan p')) with (mp_review_digest (with_plan_status PClaimed (pr_plan p'))).
    change (mp_destructive (pr_plan p')) with (mp_destructive (with_plan_status PClaimed (pr_plan p'))).
    change (mp_requires_external_change_acknowledgement (pr_plan p')) with
      (mp_requires_external_change_acknowledgement (with_plan_status PClaimed (pr_plan p'))).
    rewrite <-Hsame. exact Hv. }
  unfold reserve_execution, reserve_execution_locked, get_plan. run_store. rewrite Hp'. rewrite Hguard. rewrite Hp'.
  rewrite Hv', Hb, Hr'. done.
Qed.

(** ** Exclusion *)

Lemma any_execution_false s o w P :
  any_execution s o w P = false <->
  forall k r, (k, r) ∈ mg_executions s -> k.1 = o -> mx_workspace_id (er_execution r) = w -> P r = false.
Proof.
  unfold any_execution. rewrite <-not_true_iff_false, existsb_exists. split.
  - intros Hn k r Hin Ho Hw. apply not_true_iff_false. intros HP. apply Hn. exists (k, r).
    rewrite <-list_elem_of_In. split; [done|]. simpl. by rewrite !bool_decide_eq_true_2.
  - intros Hall ([k r] & Hin & Hb). rewrite <-list_elem_of_In in Hin.
    rewrite !andb_true_iff, !bool_decide_eq_true in Hb. destruct Hb as [[Ho Hw] HP].
    specialize (Hall k r Hin Ho Hw). simpl in *. congruence.
Qed.

(** A new reservation is exclusive: it is granted only for a reviewable, capable,
    unexpired plan, and afterwards the reserved execution is the only one of its
    workspace that blocks the workspace. *)
Theorem reservation_exclusive s s1 token owner plan_id digest cd ce at_ a :
  reachable s -> fresh_execution token s ->
  reserve_execution claim_guard token owner plan_id digest cd ce at_ s = (s1, Ok a) ->
  rs_reserved_now a = true ->
  (exists p, dget (owner, plan_id) (mg_plans s) = Some p /\ reservable owner plan_id p at_ s) /\
  forall k r, dget k (mg_executions s1) = Some r -> k.1 = owner ->
    mx_workspace_id (er_execution r) = mx_workspace_id (er_execution (rs_record a)) ->
    blocks_lifecycle r = true -> r = rs_record a.
Proof.
  intros Hr Hfresh Ha Hnew. apply mig_reachable_inv in Hr as Hinv.
  pose proof (reserve_spec claim_guard token owner plan_id digest cd ce at_ s) as Hs. cbn zeta in Hs.
  rewrite Ha in Hs. destruct Hs as [[_ [e ?]]|(p & Hp & _ & [(id & r & _ & _ & Heq)|[Hres Heq]])];
    [done|by injection Heq as -> ->|]. injection Heq as -> ->. split; [by exists p|].
  intros k r. simpl. rewrite dget_dset. case_decide as Hk; [by intros [= <-]|].
  intros Hg Ho Hw Hbl. destruct Hres as (_ & Hany & _). rewrite any_execution_false in Hany.
  rewrite (Hany k r) in Hbl; [done|by apply dget_Some_elem|done|done].
Qed.

(** ** Leases *)

(** Steps that are not made by the holder [w] of a lease and happen before it
    expires at [e]: the clock readings of claims and of takeovers are earlier. *)
Inductive foreign_step (w : string) (e : Z) s : Repo -> Prop :=
| fs_claim t w' x : (t < e)%Z -> foreign_step w e s (claim_next_execution t w' x s).1
| fs_renew o i w' x : w' <> w -> foreign_step w e s (renew_execution_lease o i w' x s).1
| fs_transition now o i rev from st lo x rec ch :
    lo <> Some w -> (forall t, rec = Some t -> (t < e)%Z) ->
    foreign_step w e s (transition_execution now o i rev from st lo x rec ch s).1
| fs_reserve token owner plan_id digest cd ce at_ :
    ("mex_" ++ token)%string ∉ (fun k : repo_key => k.2) <$> dkeys (mg_executions s) ->
    foreign_step w e s (reserve_execution claim_guard token owner plan_id digest cd ce at_ s).1
| fs_create_plan record :
    dget (pr_owner_id record, mp_id (pr_plan record)) (mg_plans s) = None ->
    foreign_step w e s (create_plan claim_guard record s).1
| fs_create_baseline now token v : foreign_step w e s (create_baseline now token v s).1
| fs_import_baseline now token cursor owner ws conn conn_owner db ns b :
    foreign_step w e s (create_import_baseline now token cursor owner ws conn conn_owner db ns b s).1
| fs_reconcile now bt rt record stored revision resolved live :
    dget (pr_owner_id record, mp_id (pr_plan record)) (mg_plans s) = Some stored -> same_review stored record ->
    foreign_step w e s
      (reconcile_drift catalog_fingerprint claim_guard now bt rt record revision resolved live s).1
| fs_designs d : foreign_step w e s (put_designs d s).

Lemma foreign_step_step w e s s' : foreign_step w e s s' -> step s s'.
Proof. destruct 1; by econstructor. Qed.

Lemma lease_held r w e t :
  er_lease_owner r = Some w -> er_lease_expires_at r = Some e -> (t < e)%Z -> lease_expired r t = false.
Proof. intros _ He Ht. unfold lease_expired. rewrite He. apply bool_decide_eq_false. lia. Qed.

Lemma set_execution_other s k k' r r' :
  dget k (mg_executions s) = Some r -> k <> k' -> dget k (mg_executions (set_execution k' r' s)) = Some r.
Proof. intros Hk Hne. simpl. by rewrite dget_dset_ne. Qed.

Lemma create_baseline_executions now token v s :
  mg_executions (create_baseline now token v s).1 = mg_executions s.
Proof.
  pose proof (create_baseline_spec now token v s) as Hs. cbn zeta in Hs.
  case_decide; [destruct Hs as (? & _ & -> & _)|destruct Hs as [-> _]]; done.
Qed.

Lemma reconcile_executions now bt rt record revision resolved live s :
  mg_executions (reconcile_drift catalog_fingerprint claim_guard now bt rt record revision resolved live s).1 =
  mg_executions s.
Proof.
  destruct (reconcile_spec catalog_fingerprint claim_guard now bt rt record revision resolved live s)
    as [[-> _]|[_ Hs]]; [done|].
  destruct (designs_replace _ _ _ _ _ _) as [d [design|err]]; [|by rewrite Hs]. unfold drift_baseline in Hs.
  match type of Hs with context [create_baseline now bt ?v ?s0] =>
    pose proof (create_baseline_executions now bt v s0) as Hc;
    destruct (create_baseline now bt v s0) as [s' [b|err]]; [|rewrite Hs; exact Hc] end.
  destruct Hs as [-> _]. exact Hc.
Qed.

Lemma foreign_step_keeps w e s s' k r :
  mig_inv s -> foreign_step w e s s' -> dget k (mg_executions s) = Some r ->
  er_lease_owner r = Some w -> er_lease_expires_at r = Some e -> dget k (mg_executions s') = Some r.
Proof.
  intros Hinv Hstep Hk Ho He.
  destruct Hstep as [t w' x Ht|o i w' x Hw|now o i rev from st lo x rec ch Hlo Hrec|token owner plan_id digest cd ce at_ Hf
    |record Hf|now token v|now token cursor owner ws conn co db ns b|now bt rt record stored rev resolved live Hf Hsame|d];
    [..|done].
  - pose proof (claim_spec t w' x s) as Hs. cbn zeta in Hs.
    destruct (claim_next_execution t w' x s) as [s' [[work|]|err]]; simpl in *; [|by destruct Hs as [-> _]..].
    destruct Hs as (c & r' & Hc & _ & _ & _ & ->). apply elem_of_eligible in Hc as (k' & Hin & Hl & _).
    apply (dget_elem_wf _ _ _ (mi_wf _ Hinv)) in Hin as Hk'. destruct (mi_exec _ Hinv _ _ Hk') as (Hkey & _).
    rewrite Hkey. apply set_execution_other; [done|]. intros ->. assert (c.2 = r) as Hcr by congruence.
    rewrite Hcr in Hl. unfold lease_available in Hl. rewrite (lease_held r w e t), Ho in Hl by done. done.
  - destruct (renew_spec o i w' x s) as [->|(r0 & r' & Hr & (Hw0 & _) & ->)]; [done|]. simpl.
    apply set_execution_other; [done|]. intros ->. congruence.
  - destruct (execution_transition_spec now o i rev from st lo x rec ch s) as [[-> _]|(r0 & r' & Hr & _ & _ & Hch & ->)]; [done|].
    simpl. apply set_execution_other; [done|]. intros ->. assert (r0 = r) as -> by congruence.
    destruct (tc_fence _ _ _ _ _ _ _ _ _ Hch) as [Hn|[Hm|Hst]]; [congruence| |].
    + unfold lease_matches in Hm. apply andb_true_iff in Hm as [_ Hm%bool_decide_eq_true]. congruence.
    + unfold lease_is_stale in Hst. destruct rec as [t|]; [|done].
      by rewrite (lease_held r w e t) in Hst by eauto.
  - destruct (reserve_spec claim_guard token owner plan_id digest cd ce at_ s)
      as [[-> _]|(p & _ & _ & [(id & r0 & _ & _ & ->)|[_ ->]])]; [done|done|]. simpl.
    rewrite dget_dset_ne; [done|]. intros ->. apply Hf.
    apply (list_elem_of_fmap_2 (fun k : repo_key => k.2) _ (owner, ("mex_" ++ token)%string)).
    by eapply dget_Some_key.
  - unfold create_plan, create_plan_locked. run_store. destruct (claim_guard _ _) as [[]|]; [|done].
    by destruct (any_execution _ _ _ _).
  - by rewrite create_baseline_executions.
  - unfold create_import_baseline. unfold m_bind at 1, m_guard, m_lift, guard_err.
    destruct cursor; [done|]. by rewrite create_baseline_executions.
  - by rewrite reconcile_executions.
Qed.

(** C18. Leases fence: while a worker's lease has not expired, no sequence of calls
    by others (claims, renewals, transitions, new plans and reservations) changes
    the execution it holds. *)
Theorem lease_excludes s s' k r w e :
  reachable s -> dget k (mg_executions s) = Some r ->
  er_lease_owner r = Some w -> er_lease_expires_at r = Some e ->
  rtc (foreign_step w e) s s' -> dget k (mg_executions s') = Some r.
Proof.
  intros Hr Hk Ho He Hrun. apply mig_reachable_inv in Hr. revert Hr Hk.
  induction Hrun as [|x y z Hxy _ IH]; [done|]. intros Hinv Hk.
  apply IH; [by eapply mig_step_inv, foreign_step_step|by eapply foreign_step_keeps].
Qed.

(** ** Claiming *)

Lemma eligible_ids s t : mig_inv s -> NoDup (candidate_id <$> eligible_work s t).
Proof.
  intros Hinv. pose proof (mi_ids _ Hinv) as Hids. pose proof (mi_wf _ Hinv) as Hwf.
  assert (Hkeys : Forall (fun kv : repo_key * ExecutionRecord => mx_id (er_execution kv.2) = kv.1.2) (mg_executions s)).
  { apply Forall_forall. intros [k r] Hin. apply (dget_elem_wf _ _ _ Hwf) in Hin.
    destruct (mi_exec _ Hinv _ _ Hin) as (<- & _). done. }
  unfold eligible_work, dkeys in *. clear Hwf. induction (mg_executions s) as [|[k r] l IH]; simpl; [constructor|].
  apply Forall_cons in Hkeys as [Hk Hkeys]. rewrite !fmap_cons in Hids. apply NoDup_cons in Hids as [Hn Hids].
  specialize (IH Hids Hkeys).
  destruct (if lease_available r t then _ else None) as [c|] eqn:E; [|done]. csimpl. apply NoDup_cons. split; [|done].
  intros Hin. apply Hn. destruct (lease_available r t); [|done].
  destruct (needed_work (er_execution r)) as [w|]; [|done]. simplify_eq/=. unfold candidate_id in Hin. simpl in *.
  rewrite <-Hk. apply list_elem_of_fmap in Hin as (c & -> & (kv & Hkv & Hc)%list_elem_of_omap).
  rewrite Forall_forall in Hkeys. destruct (lease_available kv.2 t); [|done].
  destruct (needed_work (er_execution kv.2)) as [w'|]; [|done]. simplify_eq/=. rewrite (Hkeys _ Hkv).
  apply (list_elem_of_fmap_2 (fun k : repo_key => k.2)). by apply list_elem_of_fmap_2.
Qed.

(** C28. No work is lost: a claim never fails; it returns nothing only when every
    execution either needs no work or is held by an unexpired lease; otherwise it
    leases exactly one execution that needs work to the worker, changes no other,
    and prefers recovery over new work over synchronization, older first. *)
Theorem claim_complete s t w x :
  reachable s ->
  match claim_next_execution t w x s with
  | (s', Ok None) => s' = s /\ forall k r, ~ claimable s t k r
  | (s', Ok (Some work)) => exists k r priority,
      claimable s t k r /\ needed_work (er_execution r) = Some (priority, wk_kind work) /\
      er_lease_owner (wk_record work) = Some w /\ er_lease_expires_at (wk_record work) = Some x /\
      progress r (wk_record work) /\
      (forall k', dget k' (mg_executions s') = if decide (k' = k) then Some (wk_record work)
                                               else dget k' (mg_executions s)) /\
      (forall k' r' priority' kind', claimable s t k' r' -> needed_work (er_execution r') = Some (priority', kind') ->
         (priority < priority')%Z \/ (priority = priority' /\
           (mx_created_at (er_execution r) <= mx_created_at (er_execution r'))%Z))
  | (_, Err _) => False
  end.
Proof.
  intros Hr. apply mig_reachable_inv in Hr as Hinv. pose proof (mi_wf _ Hinv) as Hwf.
  pose proof (claim_spec t w x s) as Hs. cbn zeta in Hs.
  destruct (claim_next_execution t w x s) as [s' [[work|]|err]]; simpl in Hs.
  - destruct Hs as ([[pr kd] r] & r' & Hc & Hmin & Hch & -> & ->). simpl in *.
    apply elem_of_eligible in Hc as (k & Hin & Hl & Hw). simpl in *.
    apply (dget_elem_wf _ _ _ Hwf) in Hin as Hk. destruct (mi_exec _ Hinv _ _ Hk) as (Hkey & Hlo & _). rewrite Hkey.
    assert (Hcl : claimable s t k r) by (unfold claimable; by rewrite Hw).
    exists k, r, pr. split_and!; try done; try by destruct Hch as (_ & _ & ->).
    + by destruct (claim_change_ok _ _ _ _ _ Hch Hlo).
    + intros k'. simpl. rewrite dget_dset. done.
    + intros k' y p' kd' (Hk' & Hl' & _) Hw'. rewrite Forall_forall in Hmin.
      specialize (Hmin ((p', kd'), y)). apply Hmin. apply elem_of_eligible. exists k'. simpl.
      split_and!; [by apply dget_Some_elem|done|done].
  - destruct Hs as [-> Hnil]. split; [done|]. intros k r (Hk & Hl & wk & Hw).
    apply (not_elem_of_nil (wk, r)). rewrite <-Hnil.
    apply elem_of_eligible. exists k. split_and!; [by apply dget_Some_elem|done|done].
  - destruct Hs as [_ Hs]. by apply Hs, eligible_ids.
Qed.

(** Recovery and claiming agree: when its limit covers the executions, the
    recovery listing at a time shows exactly the executions a claim at that time
    could take. *)
Theorem recoverable_iff_claimable s t limit r :
  reachable s -> length (mg_executions s) <= limit ->
  (exists l, list_recoverable_executions t limit s = (s, Ok l) /\ r ∈ l) <-> exists k, claimable s t k r.
Proof.
  intros Hr Hlim. apply mig_reachable_inv in Hr as Hinv. pose proof (mi_wf _ Hinv) as Hwf.
  assert (Hiff : forall k, dget k (mg_executions s) = Some r ->
    (recoverable t r = true <-> lease_available r t = true /\ is_Some (needed_work (er_execution r)))).
  { intros k Hk. destruct (mi_exec _ Hinv _ _ Hk) as (_ & (_ & Hle & _ & Happ & _) & _).
    unfold recoverable, lease_available, needed_work, lease_expired.
    destruct (sync_unsettled (mx_sync_status (er_execution r))), (mx_status (er_execution r)),
      (er_lease_owner r) as [lw|], (er_lease_expires_at r) as [le|]; simpl;
      repeat case_bool_decide; simpl; naive_solver. }
  set (found := filter (fun r => recoverable t r = true) (mg_executions s).*2).
  assert (Hlist : forall y, y ∈ take limit (merge_sort stale_first found) <-> y ∈ found).
  { intros y. rewrite take_ge; [by rewrite merge_sort_Permutation|]. rewrite merge_sort_Permutation.
    transitivity (length (mg_executions s).*2); [apply length_filter|by rewrite length_fmap]. }
  unfold list_recoverable_executions. run_store. fold found. split.
  - intros (l & [= <-] & Hin%Hlist). unfold found in Hin. apply list_elem_of_filter in Hin as [Hrec Hin].
    apply list_elem_of_fmap in Hin as ([k y] & -> & Hin). apply (dget_elem_wf _ _ _ Hwf) in Hin as Hk.
    exists k. split; [done|]. by apply (Hiff k).
  - intros (k & Hk & Hc). eexists. split; [reflexivity|]. apply Hlist. unfold found. apply list_elem_of_filter.
    split; [by apply (Hiff k)|]. apply (list_elem_of_fmap_2 snd _ (k, r)). by apply dget_Some_elem.
Qed.

(** ** Baselines *)

(** Synchronization baselines form one growing chain per workspace: rows are
    never changed or removed, the revision of a row is its position, and each names
    its predecessor. *)
Theorem baselines_chain s s' k :
  reachable s -> rtc step s s' ->
  baselines_extend s s' k.
Proof.
  intros Hr Hrun. apply mig_reachable_inv in Hr as Hinv. split.
  - apply (lt_baselines _ _ (mig_run_later _ _ _ _ Hinv Hrun)).
  - apply baselines_of_linked. by eapply mig_run_inv.
Qed.
End theorems.

(** ** Reconciling drift against the design repository *)

(** What the migration repository relies on. *)
Class DesignRepositoryLaws (D : Type) `{!DesignRepositoryOps D} := {
  designs_current : D -> repo_key -> SchemiiDesign;
  designs_ok : D -> Prop;
  designs_checkpoint : forall now owner ws request d,
    designs_ok d -> SchemiiDesignContent_check (drep_content request) = true ->
    let out := designs_replace now owner ws request "checkpoint" d in
    designs_ok out.1 /\ (forall k, k <> (owner, ws) -> designs_current out.1 k = designs_current d k) /\
    match out.2 with
    | Ok design =>
        design_revision (designs_current d (owner, ws)) = drep_expected_design_revision request /\
        designs_current out.1 (owner, ws) = design /\ design_content design = drep_content request /\
        design_revision design = (drep_expected_design_revision request + 1)%Z
    | Err _ => designs_current out.1 (owner, ws) = designs_current d (owner, ws)
    end;
}.

Section design_store.
Context `{Pglast} `{Sqlglot} `{Sha256}.
Variable query_sources : string -> json -> option (list (string * list string)).
Variable casefold : string -> string.
Variable set_order : list string -> list string.
Variable guard : bool.

(** The in-memory design repository discharges the interface. *)
Definition design_store_ops : DesignRepositoryOps DesignRepo :=
  {| designs_replace := DesignStore.replace query_sources casefold set_order guard |}.

Lemma design_store_checkpoint now owner ws request d :
  repo_inv d -> SchemiiDesignContent_check (drep_content request) = true ->
  let out := designs_replace (DesignRepositoryOps := design_store_ops) now owner ws request "checkpoint" d in
  repo_inv out.1 /\ (forall k, k <> (owner, ws) -> current_design out.1 k = current_design d k) /\
  match out.2 with
  | Ok design =>
      design_revision (current_design d (owner, ws)) = drep_expected_design_revision request /\
      current_design out.1 (owner, ws) = design /\ design_content design = drep_content request /\
      design_revision design = (drep_expected_design_revision request + 1)%Z
  | Err _ => current_design out.1 (owner, ws) = current_design d (owner, ws)
  end.
Proof.
  intros Hinv Hc out. unfold designs_replace, design_store_ops in out.
  pose proof (replace_spec query_sources casefold set_order guard now d owner ws request "checkpoint" Hinv Hc) as Hs.
  cbn zeta in Hs. fold out in Hs. clearbody out. destruct Hs as (Hinv' & Hlu & Hs). split; [done|]. split.
  { intros k Hk. destruct (lu_others _ _ _ Hlu k Hk) as (Hd & _). by apply current_design_same. }
  destruct (validate_design_content _) as [[]|e]; [|by subst out].
  rewrite bool_decide_eq_true_2, andb_false_r in Hs by done. unfold replace_outcome in Hs. cbn zeta in Hs.
  case_decide as Hrev; [destruct Hs as [Hu ->]; by apply unchanged_design|].
  case_decide as Hk; [by destruct Hk|].
  destruct (checked_transition _ _ _ _ _) as [[]|e]; [|destruct Hs as [Hu ->]; by apply unchanged_design].
  destruct Hs as (-> & -> & _). simpl. split_and!; [done|done|done|lia].
Qed.

Definition design_store_laws : @DesignRepositoryLaws DesignRepo design_store_ops :=
  {| designs_current := current_design : DesignRepo -> repo_key -> SchemiiDesign; designs_ok := repo_inv;
     designs_checkpoint := design_store_checkpoint |}.
End design_store.

Section drift.
Context {D Catalog : Type} `{!DesignRepositoryOps D} `{!DesignRepositoryLaws D}.
Variable catalog_fingerprint : Catalog -> string.
Variable claim_guard : string -> string -> result migration_error unit.
Implicit Types s : MigrationRepo D Catalog.

(** The design of a workspace as the migration repository sees it. *)
Definition design_of s (k : repo_key) : SchemiiDesign := designs_current (mg_designs s) k.

Lemma reconcile_drift_spec now bt rt record revision resolved live s :
  designs_ok (mg_designs s) -> SchemiiDesignContent_check resolved = true ->
  let k := (pr_owner_id record, mp_workspace_id (pr_plan record)) in
  let out := reconcile_drift catalog_fingerprint claim_guard now bt rt record revision resolved live s in
  (forall k', k' <> k -> design_of out.1 k' = design_of s k') /\
  match out.2 with
  | Ok res =>
      design_content (design_of out.1 k) = resolved /\
      design_revision (design_of out.1 k) = (revision + 1)%Z /\ mdr_design_revision res = (revision + 1)%Z /\
      (exists b, baselines_of out.1 k = baselines_of s k ++ [b] /\ bl_content b = live /\
         bl_design_revision b = (revision + 1)%Z /\ bl_predecessor_id b = Some (pr_baseline_id record) /\
         bl_revision b = mdr_baseline_revision res) /\
      dget (pr_owner_id record, mp_id (pr_plan record)) (mg_plans out.1) = Some (with_status PResolved record)
  | Err _ =>
      baselines_of out.1 k = baselines_of s k /\ mg_plans out.1 = mg_plans s /\
      (design_of out.1 k = design_of s k \/
       (bl_id <$> last (baselines_of s k) <> Some (pr_baseline_id record) /\
        design_content (design_of out.1 k) = resolved))
  end.
Proof.
  intros Hok Hcheck k out. unfold design_of.
  pose proof (reconcile_spec catalog_fingerprint claim_guard now bt rt record revision resolved live s) as Hspec.
  cbn zeta in Hspec. fold out in Hspec. clearbody out. destruct Hspec as [[Hs [e He]]|[_ Hs]].
  { rewrite He, Hs. split_and!; try done. by left. }
  pose proof (designs_checkpoint now (pr_owner_id record) (mp_workspace_id (pr_plan record))
    (drift_request revision resolved) (mg_designs s) Hok Hcheck) as (_ & Hother & Hd). fold k in Hother, Hd.
  destruct (designs_replace _ _ _ _ _ _) as [d [design|e]]; simpl in Hother, Hd; cycle 1.
  { rewrite Hs. simpl. split; [done|]. split_and!; try done. by left. }
  destruct Hd as (_ & Hcur & Hcon & Hrev). unfold drift_baseline in Hs.
  match type of Hs with context [create_baseline now bt ?v ?s0] =>
    pose proof (create_baseline_spec now bt v s0) as Hc; destruct (create_baseline now bt v s0) as [s' [b|e]] end;
    cbn zeta in Hc; cbn [fst snd bv_owner_id bv_workspace_id bv_expected_predecessor_id] in Hc; fold k in Hc;
    change (baselines_of (put_designs d s) k) with (baselines_of s k) in Hc.
  - case_decide as Hhead; [|by destruct Hc]. destruct Hc as (b' & [= <-] & Hs' & _ & _ & _ & Hpre & Hlive & Hdr & _).
    destruct Hs as [Hs (res & Hres & Hr1 & Hr2)]. rewrite Hres, Hs. simpl.
    assert (Hdes : mg_designs s' = d) by (by subst s'). rewrite Hdes. split; [done|].
    split_and!; try (by rewrite Hcur); try congruence.
    + exists b. rewrite <-Hhead in Hpre. split_and!; try done; [|by rewrite Hdr].
      unfold baselines_of at 1. subst s'. simpl. by rewrite lookup_insert_eq.
    + by rewrite dget_dset_eq.
  - case_decide as Hhead; [naive_solver|]. destruct Hc as [Hs' _]. rewrite Hs. simpl.
    assert (Hdes : mg_designs s' = d) by (by subst s'). rewrite Hdes. split; [done|]. split_and!.
    + unfold baselines_of at 1. subst s'. simpl. by rewrite lookup_insert_eq.
    + by subst s'.
    + right. split; [by apply not_eq_sym|]. by rewrite Hcur.
Qed.

(** Reconciling drift: on success the design has the resolved content under the
    next revision, the live content is the new baseline after the reviewed one, and
    the plan is resolved.  On failure the design is as before, except when the
    baseline head is no longer the reviewed one: then the design was replaced
    although the call raises. *)
Theorem reconcile_drift_outcome now bt rt record revision resolved live s :
  designs_ok (mg_designs s) -> SchemiiDesignContent_check resolved = true ->
  let k := (pr_owner_id record, mp_workspace_id (pr_plan record)) in
  let out := reconcile_drift catalog_fingerprint claim_guard now bt rt record revision resolved live s in
  (forall k', k' <> k -> design_of out.1 k' = design_of s k') /\
  match out.2 with
  | Ok res =>
      design_content (design_of out.1 k) = resolved /\
      design_revision (design_of out.1 k) = (revision + 1)%Z /\ mdr_design_revision res = (revision + 1)%Z /\
      (exists b, baselines_of out.1 k = baselines_of s k ++ [b] /\ bl_content b = live /\
         bl_design_revision b = (revision + 1)%Z /\ bl_predecessor_id b = Some (pr_baseline_id record) /\
         bl_revision b = mdr_baseline_revision res) /\
      dget (pr_owner_id record, mp_id (pr_plan record)) (mg_plans out.1) = Some (with_status PResolved record)
  | Err _ =>
      baselines_of out.1 k = baselines_of s k /\ mg_plans out.1 = mg_plans s /\
      (design_of out.1 k = design_of s k \/
       (bl_id <$> last (baselines_of s k) <> Some (pr_baseline_id record) /\
        design_content (design_of out.1 k) = resolved))
  end.
Proof. apply reconcile_drift_spec. Qed.
End drift.

(** ** Witnesses *)

#[local] Existing Instances domain_pglast sample_sqlglot sample_sha.
#[local] Instance sample_ops : DesignRepositoryOps DesignRepo := design_store_ops no_queries id id false.
#[local] Instance sample_laws : DesignRepositoryLaws DesignRepo := design_store_laws no_queries id id false.

Definition open_guard (owner ws : string) : result migration_error unit := Ok tt.

Abbreviation SampleRepo := (MigrationRepo DesignRepo string).
Abbreviation sample_step := (mig_step (D := DesignRepo) (Catalog := string) id open_guard).
Abbreviation sample_reached := (mig_reachable (D := DesignRepo) (Catalog := string) id open_guard).

Definition sample_plan : MigrationPlan :=
  {| mp_id := "mpl_1"; mp_workspace_id := "ws"; mp_status := PReviewable; mp_workspace_revision := 1;
     mp_design_revision := 1; mp_design_fingerprint := ""; mp_baseline_revision := 1; mp_catalog_fingerprint := "";
     mp_merged_design_fingerprint := ""; mp_review_digest := "digest"; mp_drift_status := DriftNone;
     mp_complete := true; mp_apply_capable := true; mp_destructive := true; mp_column_type_conversions := [];
     mp_requires_external_change_acknowledgement := false; mp_column_order_rebuilds := []; mp_steps := [];
     mp_external_changes := []; mp_conflicts := []; mp_warnings := []; mp_blocking_differences := [];
     mp_created_at := 10; mp_expires_at := 100 |}.

Definition sample_record : PlanRecord string :=
  {| pr_owner_id := "alice"; pr_baseline_id := "mbl_1"; pr_plan := sample_plan;
     pr_authority := {| pa_baseline_content := EMPTY_DESIGN_CONTENT; pa_desired_content := people_design;
       pa_merged_content := people_design; pa_live_content := EMPTY_DESIGN_CONTENT; pa_live_catalog := "catalog";
       pa_allow_destructive := true; pa_connection_id := "c"; pa_connection_revision := 1; pa_database := "db";
       pa_namespace := "public"; pa_required_empty_tables := []; pa_rebuild_table_ids := [];
       pa_connection_owner_id := None |} |}.

Definition planned_repo : SampleRepo :=
  (create_plan open_guard sample_record (InMemoryMigrationRepository empty_repo)).1.

Abbreviation sample_reserve token := (reserve_execution (D := DesignRepo) (Catalog := string) open_guard token
  "alice" "mpl_1" "digest" true false 20).

Definition reserved_repo : SampleRepo := (sample_reserve "1" planned_repo).1.
Definition claimed_repo : SampleRepo := (claim_next_execution 30 "worker" 60 reserved_repo).1.

Lemma planned_reached : sample_reached planned_repo.
Proof. exists empty_repo. apply rtc_once. apply ms_create_plan. reflexivity. Qed.

Lemma fresh_sample : ("mex_" ++ "1")%string ∉ (fun k : repo_key => k.2) <$> dkeys (mg_executions planned_repo).
Proof. apply (bool_decide_unpack _). vm_compute. exact I. Qed.

Lemma reserve_sample_step : sample_step planned_repo reserved_repo.
Proof. apply ms_reserve. exact fresh_sample. Qed.

Lemma reserved_reached : sample_reached reserved_repo.
Proof.
  destruct planned_reached as [d Hd]. exists d. eapply rtc_r; [exact Hd|exact reserve_sample_step].
Qed.

Lemma claim_sample_step : sample_step reserved_repo claimed_repo.
Proof. apply ms_claim. Qed.

Lemma claimed_reached : sample_reached claimed_repo.
Proof.
  destruct reserved_reached as [d Hd]. exists d. eapply rtc_r; [exact Hd|exact claim_sample_step].
Qed.

Lemma execution_lifecycle_witness :
  exists r, dget ("alice", "mex_1") (mg_executions reserved_repo) = Some r /\
    mx_status (er_execution r) = SReserved /\ execution_advances claimed_repo ("alice", "mex_1") r.
Proof.
  eexists. split; [vm_compute; reflexivity|]. split; [reflexivity|].
  apply (execution_lifecycle id open_guard reserved_repo claimed_repo).
  - exact reserved_reached.
  - apply rtc_once. exact claim_sample_step.
  - vm_compute. reflexivity.
Defined.

Lemma executions_authorized_witness :
  exists r p, dget ("alice", "mex_1") (mg_executions claimed_repo) = Some r /\
    dget ("alice", "mpl_1") (mg_plans claimed_repo) = Some p /\ mp_destructive (pr_plan p) = true /\
    confirmed (pr_plan p) r.
Proof.
  eexists.
  edestruct (executions_authorized id open_guard claimed_repo ("alice", "mex_1")) as [(p & Hp & _ & _ & Hc) _];
    [exact claimed_reached|vm_compute; reflexivity|].
  exists p. split; [vm_compute; reflexivity|]. split; [exact Hp|]. split; [|exact Hc].
  vm_compute in Hp. injection Hp as <-. reflexivity.
Defined.

Lemma reserve_idempotent_witness :
  exists a r, sample_reserve "1" planned_repo = (reserved_repo, Ok a) /\
    sample_reserve "2" claimed_repo = (claimed_repo, Ok {| rs_record := r; rs_reserved_now := false |}) /\
    progress (rs_record a) r.
Proof.
  eexists.
  edestruct (reserve_idempotent id open_guard planned_repo reserved_repo claimed_repo "1" "2" "alice" "mpl_1" "digest"
    true false 20 20) as (r & Hr & Hp);
    [exact planned_reached|exact fresh_sample|vm_compute; reflexivity|apply rtc_once; exact claim_sample_step|
     intros o w; reflexivity|].
  exists r. split; [vm_compute; reflexivity|]. split; [exact Hr|exact Hp].
Defined.

Lemma reservation_exclusive_witness :
  exists a, sample_reserve "1" planned_repo = (reserved_repo, Ok a) /\
    exists p, dget ("alice", "mpl_1") (mg_plans planned_repo) = Some p /\
      reservable "alice" "mpl_1" p 20 planned_repo.
Proof.
  eexists.
  edestruct (reservation_exclusive id open_guard planned_repo reserved_repo "1" "alice" "mpl_1" "digest" true false 20)
    as [Hp _]; [exact planned_reached|exact fresh_sample|vm_compute; reflexivity|reflexivity|].
  split; [vm_compute; reflexivity|exact Hp].
Defined.

(** A second worker cannot take the claimed execution before its lease expires. *)
Lemma lease_excludes_witness :
  exists r, dget ("alice", "mex_1") (mg_executions claimed_repo) = Some r /\
    dget ("alice", "mex_1") (mg_executions (claim_next_execution 59 "other" 90 claimed_repo).1) = Some r.
Proof.
  eexists. split; [vm_compute; reflexivity|].
  eapply (lease_excludes id open_guard claimed_repo _ _ _ "worker" 60);
    [exact claimed_reached|vm_compute; reflexivity|reflexivity|reflexivity|].
  apply rtc_once. apply fs_claim. lia.
Defined.

Lemma claim_complete_witness :
  exists s' work, claim_next_execution 30 "worker" 60 reserved_repo = (s', Ok (Some work)) /\
    er_lease_owner (wk_record work) = Some "worker".
Proof.
  pose proof (claim_complete id open_guard reserved_repo 30 "worker" 60 reserved_reached) as Hc.
  destruct (claim_next_execution 30 "worker" 60 reserved_repo) as [s' [[work|]|e]] eqn:E.
  - exists s', work. split; [reflexivity|]. destruct Hc as (k & r & p & _ & _ & Ho & _). exact Ho.
  - vm_compute in E. discriminate E.
  - destruct Hc.
Defined.

Lemma recoverable_iff_claimable_witness :
  exists r l, list_recoverable_executions 30 5 reserved_repo = (reserved_repo, Ok l) /\ r ∈ l.
Proof.
  eexists.
  apply (proj2 (recoverable_iff_claimable id open_guard reserved_repo 30 5 _ reserved_reached
    ltac:(vm_compute; lia))).
  exists ("alice", "mex_1"). split; [vm_compute; reflexivity|]. split; [reflexivity|]. eexists. reflexivity.
Defined.

Definition first_baseline : baseline_values string :=
  {| bv_owner_id := "alice"; bv_workspace_id := "ws"; bv_connection_id := "c"; bv_connection_owner_id := None;
     bv_connection_revision := 1; bv_database := "db"; bv_namespace := "public"; bv_design_revision := 0;
     bv_content := EMPTY_DESIGN_CONTENT; bv_catalog := "catalog"; bv_complete := true; bv_issues := [];
     bv_source := "import"; bv_expected_predecessor_id := None; bv_source_execution_id := None |}.

Definition based_repo : SampleRepo := (create_baseline 5 "1" first_baseline planned_repo).1.

Lemma baselines_chain_witness :
  length (baselines_of based_repo ("alice", "ws")) = 1 /\
  baselines_linked ("alice", "ws") (baselines_of based_repo ("alice", "ws")).
Proof.
  split; [vm_compute; reflexivity|].
  apply (baselines_chain id open_guard planned_repo based_repo);
    [exact planned_reached|apply rtc_once; apply ms_create_baseline].
Defined.

Lemma reconcile_drift_outcome_witness :
  exists s' res,
    reconcile_drift id open_guard 40 "2" "1" sample_record 0 people_design EMPTY_DESIGN_CONTENT based_repo =
      (s', Ok res) /\
    design_content (design_of s' ("alice", "ws")) = people_design /\ mdr_design_revision res = 1%Z.
Proof.
  pose proof (reconcile_drift_outcome id open_guard 40 "2" "1" sample_record 0 people_design EMPTY_DESIGN_CONTENT
    based_repo empty_repo_inv ltac:(vm_compute; reflexivity)) as [_ Hm].
  destruct (reconcile_drift id open_guard 40 "2" "1" sample_record 0 people_design EMPTY_DESIGN_CONTENT based_repo)
    as [s' [res|e]] eqn:E.
  - exists s', res. destruct Hm as (Hc & _ & Hr & _). split; [reflexivity|]. split; [exact Hc|exact Hr].
  - vm_compute in E. discriminate E.
Defined.

(** Reconciliation in memory is not atomic: with a baseline head other than the
    reviewed one the call raises [baseline_changed], keeps plans and baselines, and
    leaves the design replaced. *)
Theorem stale_reconciliation_replaces_design :
  let out := reconcile_drift id open_guard 40 "2" "1" sample_record 0 people_design EMPTY_DESIGN_CONTENT
               planned_repo in
  out.2 = Err (MigrationConflictError "baseline_changed" "The workspace synchronization baseline changed"
                 [("currentBaselineId", JNull)]) /\
  design_content (design_of planned_repo ("alice", "ws")) = EMPTY_DESIGN_CONTENT /\
  design_content (design_of out.1 ("alice", "ws")) = people_design.
Proof. vm_compute. repeat split. Qed.
