(* ===== verification/TypeChanges.v ===== *)
(** * Column type changes

    [migrations/type_changes.py]: which changes of a column type are accepted
    without a conversion expression.  Type declarations are ASCII texts; the regular
    expressions are deterministic on normalized declarations and are written as
    parsers that consume the text from the left.

    The meaning of a declaration is the set of values its columns can store
    ([stores]); an accepted change keeps every stored value. *)

From Stdlib Require Import Ascii String.
From S2P Require Import Prelude PyString.
Open Scope string_scope.

(** ** Declarations *)

Inductive disposition := Equivalent | Safe | Blocked.

#[export] Instance disposition_eq_dec : EqDecision disposition. Proof. solve_decision. Defined.

Record TypeChangeDecision := {
  tcd_disposition : disposition;
  tcd_reason : string;
}.

Inductive type_family := FInteger | FFloat | FBoolean | FString | FNumeric | FTimestamp | FTime.

(** [variant] is the text of a rank for integers and floats. *)
Inductive type_variant := Rank (n : Z) | Named (name : string).

#[export] Instance type_family_eq_dec : EqDecision type_family. Proof. solve_decision. Defined.
#[export] Instance type_variant_eq_dec : EqDecision type_variant. Proof. solve_decision. Defined.

Record ParsedType := {
  pt_family : type_family;
  pt_variant : type_variant;
  pt_modifiers : list Z;
}.

#[export] Instance ParsedType_eq_dec : EqDecision ParsedType. Proof. solve_decision. Defined.

Definition INTEGER_RANKS : list (string * Z) :=
  [("smallint", 0); ("int2", 0); ("integer", 1); ("int", 1); ("int4", 1); ("bigint", 2); ("int8", 2)]%Z.
Definition FLOAT_RANKS : list (string * Z) :=
  [("real", 0); ("float4", 0); ("double precision", 1); ("float8", 1)]%Z.

(** ** Normalization *)

(** The leading run without whitespace, and the rest. *)
Fixpoint take_word (s : string) : string * string :=
  match s with
  | EmptyString => ("", "")
  | String c s' =>
      match drop_space s with
      | Some _ => ("", s)
      | None => let (w, rest) := take_word s' in (String c w, rest)
      end
  end.

(** [s.split()]; every word consumes at least one byte. *)
Fixpoint words_fuel (fuel : nat) (s : string) : list string :=
  match fuel with
  | 0 => []
  | S fuel' =>
      match py_lstrip s with
      | EmptyString => []
      | s' => let (w, rest) := take_word s' in w :: words_fuel fuel' rest
      end
  end.

Definition py_words (s : string) : list string := words_fuel (String.length s) s.

Definition normalized (value : string) : string := py_join " " (py_words (py_lower (py_strip value))).

(** ** Parsing *)

Definition eat (p s : string) : option string :=
  if String.prefix p s then Some (str_drop (String.length p) s) else None.

(** At least one whitespace character. *)
Definition eat_spaces (s : string) : option string :=
  match drop_space s with Some s' => Some (py_lstrip s') | None => None end.

Definition digit_value (c : ascii) : option Z :=
  if bool_decide (48 <= byte_of c <= 57)%N then Some (Z.of_N (byte_of c) - 48)%Z else None.

(** Further digits of the number read so far. *)
Fixpoint more_digits (n : Z) (s : string) : Z * string :=
  match s with
  | String c s' =>
      match digit_value c with
      | Some d => more_digits (10 * n + d) s'
      | None => (n, s)
      end
  | EmptyString => (n, s)
  end.

(** A number of at least one digit. *)
Definition eat_number (s : string) : option (Z * string) :=
  match s with
  | String c s' =>
      match digit_value c with
      | Some d => Some (more_digits d s')
      | None => None
      end
  | EmptyString => None
  end.

(** An optional number in parentheses. *)
Definition optional_length (s : string) : option Z * string :=
  match
    s1 ← eat "(" s;
    '(n, s2) ← eat_number (py_lstrip s1);
    s3 ← eat ")" (py_lstrip s2);
    Some (n, s3)
  with
  | Some (n, rest) => (Some n, rest)
  | None => (None, s)
  end.

(** An optional precision and scale in parentheses. *)
Definition optional_precision (s : string) : option (Z * option Z) * string :=
  match
    s1 ← eat "(" s;
    '(p, s2) ← eat_number (py_lstrip s1);
    let s2 := py_lstrip s2 in
    match
      s3 ← eat "," s2;
      '(sc, s4) ← eat_number (py_lstrip s3);
      s5 ← eat ")" (py_lstrip s4);
      Some (sc, s5)
    with
    | Some (sc, rest) => Some (p, Some sc, rest)
    | None => rest ← eat ")" s2; Some (p, None, rest)
    end
  with
  | Some (p, sc, rest) => (Some (p, sc), rest)
  | None => (None, s)
  end.

(** An optional [with time zone] or [without time zone]: whether the zone is kept. *)
Definition optional_zone (s : string) : option bool * string :=
  match
    s1 ← eat "with" s;
    let '(kept, s2) := match eat "out" s1 with Some r => (false, r) | None => (true, s1) end in
    s3 ← eat_spaces s2;
    s4 ← eat "time" s3;
    s5 ← eat_spaces s4;
    s6 ← eat "zone" s5;
    Some (kept, s6)
  with
  | Some (kept, rest) => (Some kept, rest)
  | None => (None, s)
  end.

Definition varchar_type (s : string) : option ParsedType :=
  s1 ← match
         r1 ← eat "character" s;
         r2 ← eat_spaces r1;
         eat "varying" r2
       with
       | Some r => Some r
       | None => eat "varchar" s
       end;
  match optional_length (py_lstrip s1) with
  | (n, "") => Some {| pt_family := FString; pt_variant := Named "varchar";
                       pt_modifiers := match n with Some n => [n] | None => [] end |}
  | _ => None
  end.

Definition numeric_type (s : string) : option ParsedType :=
  s1 ← match eat "numeric" s with Some r => Some r | None => eat "decimal" s end;
  match optional_precision (py_lstrip s1) with
  | (None, "") => Some {| pt_family := FNumeric; pt_variant := Named "numeric"; pt_modifiers := [] |}
  | (Some (p, sc), "") =>
      Some {| pt_family := FNumeric; pt_variant := Named "numeric";
              pt_modifiers := [p; match sc with Some sc => sc | None => 0%Z end] |}
  | _ => None
  end.

(** [int(group or 6)]: the group is a non-empty text when it matched. *)
Definition precision_or_six (n : option Z) : Z := match n with Some n => n | None => 6%Z end.

Definition zoned_type (word : string) (family : type_family) (s : string) : option ParsedType :=
  s1 ← eat word s;
  let '(n, s2) := optional_length (py_lstrip s1) in
  match optional_zone (py_lstrip s2) with
  | (zone, "") =>
      Some {| pt_family := family;
              pt_variant := Named (match zone with Some true => "with time zone" | _ => "without time zone" end);
              pt_modifiers := [precision_or_six n] |}
  | _ => None
  end.

Definition alias_type (word : string) (family : type_family) (s : string) : option ParsedType :=
  s1 ← eat word s;
  match optional_length (py_lstrip s1) with
  | (n, "") => Some {| pt_family := family; pt_variant := Named "with time zone";
                       pt_modifiers := [precision_or_six n] |}
  | _ => None
  end.

Definition or_parse (a b : option ParsedType) : option ParsedType := match a with Some t => Some t | None => b end.

Definition parse_type (value : string) : option ParsedType :=
  let s := normalized value in
  match dget s INTEGER_RANKS with
  | Some r => Some {| pt_family := FInteger; pt_variant := Rank r; pt_modifiers := [] |}
  | None =>
  match dget s FLOAT_RANKS with
  | Some r => Some {| pt_family := FFloat; pt_variant := Rank r; pt_modifiers := [] |}
  | None =>
  if bool_decide (s ∈ ["boolean"; "bool"])
  then Some {| pt_family := FBoolean; pt_variant := Named "boolean"; pt_modifiers := [] |} else
  or_parse (varchar_type s) (
  if bool_decide (s = "text") then Some {| pt_family := FString; pt_variant := Named "text"; pt_modifiers := [] |} else
  or_parse (numeric_type s) (
  or_parse (zoned_type "timestamp" FTimestamp s) (
  or_parse (alias_type "timestamptz" FTimestamp s) (
  or_parse (zoned_type "time" FTime s) (
  alias_type "timetz" FTime s)))))
  end end.

(** ** Classification *)

Definition decision (d : disposition) (reason : string) : TypeChangeDecision :=
  {| tcd_disposition := d; tcd_reason := reason |}.

Definition narrowing : TypeChangeDecision :=
  decision Blocked "The conversion can narrow, reinterpret, or reject existing values".

(** [int(variant)]. *)
Definition rank_of (v : type_variant) : Z := match v with Rank n => n | Named _ => 0%Z end.

Definition classify_string (old new : ParsedType) : TypeChangeDecision :=
  if bool_decide (pt_variant new = Named "text") then decision Safe "The target has no length limit" else
  if bool_decide (pt_variant old = Named "text") then
    match pt_modifiers new with
    | [] => decision Safe "The target has no length limit"
    | _ => narrowing
    end
  else
    match pt_modifiers new, pt_modifiers old with
    | [], _ => decision Safe "The target removes the length limit"
    | n :: _, o :: _ => if bool_decide (o <= n)%Z then decision Safe "The character limit only increases" else narrowing
    | _, [] => narrowing
    end.

Definition classify_numeric (old new : ParsedType) : TypeChangeDecision :=
  match pt_modifiers new, pt_modifiers old with
  | [], _ => decision Safe "The target removes precision and scale limits"
  | [new_precision; new_scale], [old_precision; old_scale] =>
      if bool_decide (old_scale <= new_scale)%Z
         && bool_decide (old_precision - old_scale <= new_precision - new_scale)%Z
      then decision Safe "The target preserves both integral digits and fractional scale" else narrowing
  | _, _ => narrowing
  end.

Definition classify_temporal (old new : ParsedType) : TypeChangeDecision :=
  match pt_modifiers new, pt_modifiers old with
  | n :: _, o :: _ =>
      if bool_decide (pt_variant old = pt_variant new) && bool_decide (o < n)%Z
      then decision Safe "The temporal precision only increases" else narrowing
  | _, _ => narrowing
  end.

Definition classify_type_change (before after : string) : TypeChangeDecision :=
  if bool_decide (normalized before = normalized after)
  then decision Equivalent "The type declarations are identical" else
  match parse_type before, parse_type after with
  | Some old, Some new =>
      if bool_decide (old = new) then decision Equivalent "The declarations are PostgreSQL aliases" else
      if negb (bool_decide (pt_family old = pt_family new)) then narrowing else
      match pt_family old with
      | FInteger =>
          if bool_decide (rank_of (pt_variant old) < rank_of (pt_variant new))%Z
          then decision Safe "The integer range only increases" else narrowing
      | FFloat =>
          if bool_decide (rank_of (pt_variant old) < rank_of (pt_variant new))%Z
          then decision Safe "The floating-point precision only increases" else narrowing
      | FString => classify_string old new
      | FNumeric => classify_numeric old new
      | FTimestamp | FTime => classify_temporal old new
      | FBoolean => narrowing
      end
  | _, _ => decision Blocked "The conversion is not in Schemii's value-preserving type map"
  end.

(** ** Stored values *)

(** A value a column can hold: floats and numerics as an integer times a power of
    two or ten, texts by their characters, moments in microseconds. *)
Inductive pg_value :=
| VInt (z : Z)
| VFloat (mantissa exponent : Z)
| VBool (b : bool)
| VText (s : string)
| VNumeric (unscaled scale : Z)
| VMoment (family : type_family) (zone : type_variant) (microseconds : Z).

Definition integer_bits (rank : Z) : Z := 16 * 2 ^ rank - 1.

(** Mantissa bits and exponent range of the two IEEE formats. *)
Definition float_format (rank : Z) : Z * Z * Z :=
  if bool_decide (rank = 0)%Z then (24, -149, 104)%Z else (53, -1074, 971)%Z.

(** The microseconds a temporal precision can tell apart. *)
Definition tick (precision : Z) : Z := 10 ^ (6 - Z.min 6 precision).

(** The values a column of a type can store. *)
Definition stores (t : ParsedType) (v : pg_value) : Prop :=
  match pt_family t, v with
  | FInteger, VInt z => (- 2 ^ integer_bits (rank_of (pt_variant t)) <= z < 2 ^ integer_bits (rank_of (pt_variant t)))%Z
  | FFloat, VFloat m e =>
      let '(bits, emin, emax) := float_format (rank_of (pt_variant t)) in
      (Z.abs m < 2 ^ bits /\ emin <= e <= emax)%Z
  | FBoolean, VBool _ => True
  | FString, VText s => match pt_modifiers t with n :: _ => (Z.of_nat (py_len s) <= n)%Z | [] => True end
  | FNumeric, VNumeric m k =>
      (0 <= k)%Z /\
      match pt_modifiers t with
      | [p; s] => (k <= s /\ (m = 0 \/ (0 <= p - s + k /\ Z.abs m < 10 ^ (p - s + k))))%Z
      | _ => True
      end
  | FTimestamp, VMoment FTimestamp zone us | FTime, VMoment FTime zone us =>
      zone = pt_variant t /\ match pt_modifiers t with p :: _ => (tick p | us)%Z | [] => True end
  | _, _ => False
  end.

(** ** Safe changes keep every value *)

Lemma or_parse_Some a b t : or_parse a b = Some t -> a = Some t \/ b = Some t.
Proof. destruct a; simpl; auto. Qed.

(** What the parsers of parameterised types produce. *)
Lemma varchar_shape s t : varchar_type s = Some t -> pt_family t = FString /\ pt_variant t = Named "varchar".
Proof.
  unfold varchar_type. destruct (match _ with Some r => Some r | None => eat "varchar" s end) as [r|]; simpl; [|done].
  destruct (optional_length _) as [n []]; [|done]. by intros [= <-].
Qed.

Lemma numeric_shape s t : numeric_type s = Some t -> pt_family t = FNumeric.
Proof.
  unfold numeric_type. destruct (match eat "numeric" s with Some r => Some r | None => _ end) as [r|]; simpl; [|done].
  destruct (optional_precision _) as [[[p sc]|] []]; try done; by intros [= <-].
Qed.

Lemma zoned_shape word family s t : zoned_type word family s = Some t -> pt_family t = family.
Proof.
  unfold zoned_type. destruct (eat word s) as [r|]; simpl; [|done]. destruct (optional_length _) as [n r2].
  destruct (optional_zone _) as [zone []]; [|done]. by intros [= <-].
Qed.

Lemma alias_shape word family s t : alias_type word family s = Some t -> pt_family t = family.
Proof.
  unfold alias_type. destruct (eat word s) as [r|]; simpl; [|done].
  destruct (optional_length _) as [n []]; [|done]. by intros [= <-].
Qed.

Lemma dget_forall {V} (P : V -> Prop) (d : list (string * V)) k v :
  Forall (fun kv => P kv.2) d -> dget k d = Some v -> P v.
Proof. rewrite Forall_forall. intros Hd Hv%dget_Some_elem. by apply (Hd (k, v)). Qed.

(** Integers and floats have a rank from their tables; [text] has no length. *)
Definition well_parsed (t : ParsedType) : Prop :=
  match pt_family t with
  | FInteger | FFloat => (0 <= rank_of (pt_variant t))%Z
  | FString => pt_variant t = Named "text" -> pt_modifiers t = []
  | _ => True
  end.

Lemma parse_well value t : parse_type value = Some t -> well_parsed t.
Proof.
  unfold parse_type, well_parsed. set (s := normalized value).
  destruct (dget s INTEGER_RANKS) as [r|] eqn:Hi.
  { intros [= <-]. simpl. revert Hi. apply (dget_forall (fun r => (0 <= r)%Z)). by repeat constructor. }
  destruct (dget s FLOAT_RANKS) as [r|] eqn:Hf.
  { intros [= <-]. simpl. revert Hf. apply (dget_forall (fun r => (0 <= r)%Z)). by repeat constructor. }
  case_bool_decide; [by intros [= <-]|].
  intros [[-> ->]%varchar_shape|Ht]%or_parse_Some; [done|].
  revert Ht. case_bool_decide; [by intros [= <-]|].
  intros [Ht%numeric_shape|[Ht%zoned_shape|[Ht%alias_shape|[Ht%zoned_shape|Ht%alias_shape]%or_parse_Some]%or_parse_Some]%or_parse_Some]%or_parse_Some;
    by rewrite Ht.
Qed.

Lemma integer_grows r r' v :
  (0 <= r < r')%Z -> (- 2 ^ integer_bits r <= v < 2 ^ integer_bits r)%Z ->
  (- 2 ^ integer_bits r' <= v < 2 ^ integer_bits r')%Z.
Proof.
  intros Hr Hv. unfold integer_bits in *.
  assert (2 ^ r <= 2 ^ r')%Z by (apply Z.pow_le_mono_r; lia).
  assert (2 ^ (16 * 2 ^ r - 1) <= 2 ^ (16 * 2 ^ r' - 1))%Z by (apply Z.pow_le_mono_r; lia). lia.
Qed.

Lemma numeric_grows p s p' s' m k :
  (s <= s')%Z -> (p - s <= p' - s')%Z -> (0 <= p - s + k)%Z -> (Z.abs m < 10 ^ (p - s + k))%Z ->
  (Z.abs m < 10 ^ (p' - s' + k))%Z.
Proof.
  intros Hs Hp Hk Hm. eapply Z.lt_le_trans; [exact Hm|]. apply Z.pow_le_mono_r; lia.
Qed.

Lemma tick_divides p p' us : (p < p')%Z -> (tick p | us)%Z -> (tick p' | us)%Z.
Proof.
  intros Hp Hd. etransitivity; [|exact Hd]. unfold tick.
  exists (10 ^ (6 - Z.min 6 p - (6 - Z.min 6 p')))%Z. rewrite <-Z.pow_add_r by lia. f_equal. lia.
Qed.

Lemma stores_moment t v :
  (pt_family t = FTimestamp \/ pt_family t = FTime) -> stores t v ->
  exists us, v = VMoment (pt_family t) (pt_variant t) us /\
    match pt_modifiers t with p :: _ => (tick p | us)%Z | [] => True end.
Proof.
  unfold stores. intros [Hf|Hf]; rewrite Hf; destruct v as [| | | | |[] zone us]; try done; intros [-> ?]; by exists us.
Qed.

Lemma classify_temporal_keeps old new v :
  pt_family old = pt_family new -> pt_family new = FTimestamp \/ pt_family new = FTime ->
  tcd_disposition (classify_temporal old new) <> Blocked -> stores old v -> stores new v.
Proof.
  intros Hf Hk. unfold classify_temporal.
  destruct (pt_modifiers new) as [|n ?] eqn:Hn, (pt_modifiers old) as [|o ?] eqn:Ho; try done.
  case_bool_decide as Hv; [|done]. case_bool_decide as Hlt; [|done]. intros _ Hs.
  destruct (stores_moment old v) as (us & -> & Hd); [by rewrite Hf|done|]. rewrite Ho in Hd.
  unfold stores. rewrite Hf, Hn, Hv. destruct Hk as [-> | ->]; split; (done || by eapply tick_divides).
Qed.

Lemma classify_string_keeps old new v :
  well_parsed new -> pt_family old = FString -> pt_family new = FString ->
  tcd_disposition (classify_string old new) <> Blocked -> stores old v -> stores new v.
Proof.
  unfold well_parsed, classify_string, stores. intros Hn -> Hf. rewrite Hf in *. destruct v; try done.
  destruct (pt_modifiers new) as [|n ?]; [done|]. case_bool_decide as Ht; [by specialize (Hn Ht)|].
  case_bool_decide; [done|]. destruct (pt_modifiers old) as [|o ?]; [done|].
  case_bool_decide; [|done]. intros _ ?. lia.
Qed.

Lemma classify_numeric_keeps old new v :
  pt_family old = FNumeric -> pt_family new = FNumeric ->
  tcd_disposition (classify_numeric old new) <> Blocked -> stores old v -> stores new v.
Proof.
  unfold classify_numeric, stores. intros -> ->. destruct v as [| | | |m k|]; try done.
  destruct (pt_modifiers new) as [|p' [|s' []]]; [naive_solver|naive_solver| |naive_solver].
  destruct (pt_modifiers old) as [|p [|s []]]; try done.
  case_bool_decide as Hs; [|done]. case_bool_decide as Hp; [|done].
  intros _ (Hk & Hks & Hm). split; [done|]. split; [lia|].
  destruct Hm as [->|[Hm0 Hm]]; [by left|]. right. split; [lia|]. by eapply numeric_grows.
Qed.

(** Any change between distinct parsed types that is not blocked. *)
Lemma classify_keeps before after old new v :
  parse_type before = Some old -> parse_type after = Some new -> normalized before <> normalized after ->
  tcd_disposition (classify_type_change before after) <> Blocked -> stores old v -> stores new v.
Proof.
  intros Ho Hn Hne. unfold classify_type_change. rewrite Ho, Hn, bool_decide_eq_false_2 by done.
  apply parse_well in Ho, Hn. case_bool_decide as He; [by subst|].
  case_bool_decide as Hf; [|done]. unfold well_parsed in Ho. simpl.
  destruct (pt_family old) eqn:Hof; try done.
  - case_bool_decide as Hlt; [|done]. intros _. unfold stores. rewrite Hof, <-Hf. destruct v; try done.
    apply integer_grows. lia.
  - case_bool_decide as Hlt; [|done]. intros _. unfold stores. rewrite Hof, <-Hf. destruct v; try done.
    unfold float_format. repeat case_bool_decide; lia.
  - by apply classify_string_keeps.
  - by apply classify_numeric_keeps.
  - apply classify_temporal_keeps; [congruence|auto].
  - apply classify_temporal_keeps; [congruence|auto].
Qed.

(** C31. A change of column type that is not blocked is accepted for one of two
    reasons: the declarations are the same text up to case and whitespace, or both are
    understood and every value a column of the old type can store is a value of the new type. *)
Theorem accepted_change_keeps_values before after :
  tcd_disposition (classify_type_change before after) <> Blocked ->
  normalized before = normalized after \/
  exists old new, parse_type before = Some old /\ parse_type after = Some new /\
    forall v, stores old v -> stores new v.
Proof.
  intros Hd. destruct (decide (normalized before = normalized after)) as [|Hne]; [by left|]. right.
  destruct (parse_type before) as [old|] eqn:Ho, (parse_type after) as [new|] eqn:Hn;
    [|exfalso; apply Hd; unfold classify_type_change; rewrite Ho, ?Hn, bool_decide_eq_false_2; done..].
  exists old, new. split; [done|]. split; [done|]. intros v. by eapply classify_keeps.
Qed.

Lemma accepted_change_keeps_values_witness :
  tcd_disposition (classify_type_change "Numeric( 10, 2)" "decimal (12,3)") = Safe /\
  (normalized "Numeric( 10, 2)" = normalized "decimal (12,3)" \/
   exists old new, parse_type "Numeric( 10, 2)" = Some old /\ parse_type "decimal (12,3)" = Some new /\
     forall v, stores old v -> stores new v).
Proof.
  split; [vm_compute; reflexivity|].
  apply (accepted_change_keeps_values "Numeric( 10, 2)" "decimal (12,3)"). vm_compute. discriminate.
Defined.
