(* ===== verification/CheckExpressions.v ===== *)
(** * Comparing CHECK expressions

    [migrations/checks.py]: two CHECK expressions are equivalent when they are the
    same text or when their parse trees agree after removing parentheses and the casts
    PostgreSQL itself adds to literals.

    A sqlglot expression is its class name with its arguments, as [node.args] holds
    them; [this], [expression] and [expressions] are arguments of that name.  Parsing,
    the class hierarchy, the derived attributes and the comparison of trees are
    sqlglot's and belong to the class [SqlglotTrees]. *)

From Stdlib Require Import Ascii String.
From S2P Require Import Prelude Json PyString.
Open Scope string_scope.

Inductive sql_tree :=
| TNode (cls : string) (args : list (string * sql_tree))
| TList (items : list sql_tree)
| TValue (v : json).

(** What the comparison uses of sqlglot; [parse_one] gives [None] for [ParseError]
    and [ValueError]. *)
Class SqlglotTrees := {
  parse_one : string -> option sql_tree;
  is_instance : string -> string -> bool;
  column_table : sql_tree -> bool;
  node_name : sql_tree -> string;
  literal_is_string : sql_tree -> bool;
  datatype_is : sql_tree -> string -> bool;
  tree_eq : sql_tree -> sql_tree -> bool;
}.

(** [node.args.get(name)]. *)
Definition arg (name : string) (t : sql_tree) : sql_tree :=
  match t with
  | TNode _ args => match dget name args with Some x => x | None => TValue JNull end
  | _ => TValue JNull
  end.

(** [node.set(name, value)]: an argument set to [None] is removed. *)
Definition node_set (name : string) (value : sql_tree) (t : sql_tree) : sql_tree :=
  match t with
  | TNode cls args =>
      match value with
      | TValue JNull => TNode cls (dpop name args)
      | _ => TNode cls (dset name value args)
      end
  | _ => t
  end.

Definition items_of (t : sql_tree) : list sql_tree := match t with TList l => l | _ => [] end.

Section checks.
Context `{SqlglotTrees}.

Definition isinstance (t : sql_tree) (cls : string) : bool :=
  match t with TNode c _ => is_instance c cls | _ => false end.

(** [_unparen]. *)
Fixpoint unparen (t : sql_tree) : sql_tree :=
  match t with
  | TNode cls args =>
      if is_instance cls "Paren"
      then match dget "this" (map (fun kv => match kv with (k, x) => (k, unparen x) end) args) with
           | Some this => this
           | None => TValue JNull
           end
      else t
  | _ => t
  end.

(** [data_type.lower().split("(", 1)[0].strip()]. *)
Definition declared_type (data_type : string) : string :=
  match py_split "("%char (py_lower data_type) with
  | first :: _ => py_strip first
  | [] => ""
  end.

Definition literal_for_column (node column : sql_tree) (column_types : list (string * string)) : sql_tree :=
  let node := unparen node in
  let column := unparen column in
  if negb (isinstance column "Column") || column_table column || negb (isinstance node "Cast") then node else
  let literal := unparen (arg "this" node) in
  if negb (isinstance literal "Literal") then node else
  let cast_type := arg "to" node in
  match dget (node_name column) column_types with
  | None => node
  | Some data_type =>
      if bool_decide (data_type = "") || negb (isinstance cast_type "DataType")
         || negb (bool_decide (items_of (arg "expressions" cast_type) = [])) then node else
      let declared := declared_type data_type in
      if (bool_decide (declared ∈ ["numeric"; "decimal"]) && negb (literal_is_string literal)
          && datatype_is cast_type "DECIMAL")
         || (bool_decide (declared = "text") && literal_is_string literal && datatype_is cast_type "TEXT")
      then literal else node
  end.

Definition comparison_classes : list string := ["EQ"; "NEQ"; "GT"; "GTE"; "LT"; "LTE"].

(** The rewriting of one node whose arguments are normalized. *)
Definition normalize_comparison (column_types : list (string * string)) (node : sql_tree) : sql_tree :=
  if existsb (isinstance node) comparison_classes then
    let left := arg "this" node in
    let right := arg "expression" node in
    node_set "expression" (literal_for_column right left column_types)
      (node_set "this" (literal_for_column left right column_types) node)
  else node.

Definition normalize_membership (column_types : list (string * string)) (node : sql_tree) : sql_tree :=
  if isinstance node "In" && negb (bool_decide (items_of (arg "expressions" node) = [])) then
    node_set "expressions" (TList ((fun item => literal_for_column item (arg "this" node) column_types)
                                     <$> items_of (arg "expressions" node))) node
  else node.

(** [= ANY (ARRAY[...])] over literals becomes [IN (...)]. *)
Definition normalize_any (column_types : list (string * string)) (node : sql_tree) : sql_tree :=
  let this := arg "this" node in
  let right := arg "expression" node in
  if isinstance node "EQ" && isinstance this "Column"
     && bool_decide (declared_type (match dget (node_name this) column_types with Some t => t | None => "" end)
                       ∈ ["text"; "numeric"; "decimal"])
     && isinstance right "Any" && isinstance (arg "this" right) "Array"
  then
    let values := (fun item => literal_for_column item this column_types)
                    <$> items_of (arg "expressions" (arg "this" right)) in
    if negb (bool_decide (values = [])) && forallb (fun item => isinstance item "Literal") values
    then TNode "In" [("this", this); ("expressions", TList values)]
    else node
  else node.

(** [_normalize]; parentheses are removed before the copy. *)
Fixpoint normalize (column_types : list (string * string)) (t : sql_tree) : sql_tree :=
  match t with
  | TNode cls args =>
      if is_instance cls "Paren"
      then match dget "this" (map (fun kv => match kv with (k, x) => (k, normalize column_types x) end) args) with
           | Some this => this
           | None => TValue JNull
           end
      else
        let args' := map (fun kv => match kv with (k, x) =>
                       (k, match x with
                           | TNode _ _ => normalize column_types x
                           | TList l => TList (map (normalize column_types) l)
                           | TValue v => TValue v
                           end) end) args in
        normalize_any column_types (normalize_membership column_types
          (normalize_comparison column_types (TNode cls args')))
  | _ => t
  end.

Definition equivalent_check_expressions (left right : string) (column_types : list (string * string)) : bool :=
  bool_decide (left = right) ||
  match parse_one left, parse_one right with
  | Some l, Some r => tree_eq (normalize column_types l) (normalize column_types r)
  | _, _ => false
  end.

Lemma equivalent_check_refl e types : equivalent_check_expressions e e types = true.
Proof. unfold equivalent_check_expressions. by rewrite bool_decide_eq_true_2. Qed.
End checks.
