(* ===== verification/DesignMerge.v ===== *)
(** * Three-way reconciliation of design documents

    [_Merger] of [migrations/planner.py] with its helpers: the baseline, the desired
    and the live design are merged as JSON documents, compatible external changes are
    collected, and collisions become conflicts that a resolution may settle.

    - [_MISSING] is [None]; a value present is [Some].
    - The lists the merger appends to are part of what [merge] returns; [resolutions]
      and [check_column_types] are arguments.
    - The source recurses on three documents at once.  [merge] runs with one unit of
      fuel per level of the deepest one and one more; [merge_unfold] is the source's
      equation without fuel.
    - Paths are bounded by the nesting of a design and so fit the length limits of the
      reported models; these are not checked again. *)

From stdpp Require Import pretty.
From Stdlib Require Import Ascii String.
From S2P Require Import Prelude Json PyString DesignModels DefinitionAnalysis DesignValidation DesignDocument.
From S2P Require Import MigrationModels CheckExpressions.
Open Scope string_scope.
Open Scope list_scope.

(** ** Identifiers and paths *)

Abbreviation canonical := json_dumps.

(** [value\[:n\]]. *)
Definition str_take (n : nat) (s : string) : string := String.substring 0 n s.

Definition identifier `{Sha256} (prefix : string) (values : list json) : string :=
  (prefix ++ "_" ++ str_take 32 (sha256_hex (py_join nul_text (canonical <$> values))))%string.

Definition kind_of_path (path : string) : migration_object_kind :=
  if str_contains ".columns[" path then MColumn else
  if str_contains ".keys[" path || str_contains ".checks[" path then MConstraint else
  if str_contains ".indexes[" path then MIndex else
  if String.prefix "types[" path then MType else
  if String.prefix "tables[" path then MTable else
  if String.prefix "relationships[" path then MRelationship else
  if String.prefix "functions[" path then MFunction else
  if String.prefix "views[" path then MView else
  if String.prefix "triggers[" path then MTrigger else MSchema.

(** [s.lstrip(c)] for one character. *)
Fixpoint py_lstrip_char (c : ascii) (s : string) : string :=
  match s with
  | EmptyString => EmptyString
  | String a s' => if bool_decide (a = c) then py_lstrip_char c s' else s
  end.

Definition display_path (path : string) : string :=
  py_rstrip_char "."%char (py_lstrip_char "."%char
    (py_replace_char "]"%char "" (py_replace_char "["%char "." path))).

Definition operation_of (before after : option json) : external_operation :=
  match before, after with
  | None, _ => XAdded
  | _, None => XRemoved
  | _, _ => XChanged
  end.

Definition operation_text (o : external_operation) : string :=
  match o with XAdded => "added" | XRemoved => "removed" | XChanged => "changed" | XRenamed => "renamed" end.

(** [_value]: a missing value is reported as [None]. *)
Definition value_of (v : option json) : json := match v with Some x => x | None => JNull end.

(** [s.endswith(suffix)]. *)
Definition py_endswith (suffix s : string) : bool :=
  bool_decide (String.length suffix <= String.length s)
  && bool_decide (str_drop (String.length s - String.length suffix) s = suffix).

Definition UNORDERED_DEPENDENCY_FIELDS : list string :=
  ["column_ids"; "expression_source_column_ids"; "generated_source_column_ids"; "predicate_column_ids"].

(** [path.rsplit(".", 1)\[-1\]]. *)
Definition last_field (path : string) : string :=
  match last (py_split "."%char path) with Some f => f | None => "" end.

Definition unordered_dependency_path (path : string) : bool :=
  let field := last_field path in
  if negb (bool_decide (field ∈ UNORDERED_DEPENDENCY_FIELDS)) then false else
  if bool_decide (field = "column_ids") then str_contains ".checks[" path else true.

(** The run of characters before the first closing bracket, and what follows it. *)
Fixpoint bracketed (s : string) : option (string * string) :=
  match s with
  | EmptyString => None
  | String c s' =>
      if bool_decide (c = "]"%char) then Some ("", s')
      else match bracketed s' with Some (w, rest) => Some (String c w, rest) | None => None end
  end.

(** An opening text, then a non-empty bracketed run. *)
Definition bracketed_after (opening s : string) : option (string * string) :=
  if String.prefix opening s then
    match bracketed (str_drop (String.length opening) s) with
    | Some ("", _) => None
    | other => other
    end
  else None.

(** The table of the path of a CHECK expression, by the pattern of the source. *)
Definition check_expression_table (path : string) : option string :=
  match bracketed_after "tables[" path with
  | Some (table, rest) =>
      match bracketed_after ".checks[" rest with
      | Some (_, ".expression") => Some table
      | _ => None
      end
  | None => None
  end.

(** ** Items *)

Definition item_id (v : json) : option string :=
  match v with
  | JDict d => match dget "id" d with Some (JStr s) => Some s | _ => None end
  | _ => None
  end.

Definition id_list (v : json) : bool :=
  match v with
  | JList l => forallb (fun item => bool_decide (is_Some (item_id item))) l
  | _ => false
  end.

Definition id_of (v : json) : string := match item_id v with Some s => s | None => "" end.

Definition items (v : option json) : list json := match v with Some (JList l) => l | _ => [] end.
Definition members (v : option json) : list (string * json) := match v with Some (JDict d) => d | _ => [] end.

(** [_item_map]: the last item with an ID wins. *)
Definition item_map (v : option json) : list (string * json) := dict_by id_of (items v).

Definition is_text (v : json) : bool := match v with JStr _ => true | _ => false end.
Definition text_of (v : json) : string := match v with JStr s => s | _ => "" end.

(** [d.keys() == e.keys()]. *)
Definition same_keys {V W} (d : list (string * V)) (e : list (string * W)) : bool :=
  bool_decide (Forall (fun k => k ∈ dkeys e) (dkeys d)) && bool_decide (Forall (fun k => k ∈ dkeys d) (dkeys e)).

(** [f"{path}\[{i}\]"] and [f"{path}.{key}" if path else key]. *)
Definition item_path (path i : string) : string := (path ++ "[" ++ i ++ "]")%string.
Definition member_path (path key : string) : string :=
  if bool_decide (path = "") then key else (path ++ "." ++ key)%string.

(** ** Equivalence of values *)

Abbreviation column_types_by_table := (list (string * list (string * string))).

Section merger.
Context `{SqlglotTrees} `{Sha256}.
Variable check_column_types : column_types_by_table.

(** The test on CHECK expressions; [None] when it does not apply. *)
Definition check_equivalence (path left right : string) : option bool :=
  if py_endswith ".expression" path then
    match check_expression_table path with
    | Some table =>
        match dget table check_column_types with
        | Some types => Some (equivalent_check_expressions left right types)
        | None => None
        end
    | None => None
    end
  else None.

Abbreviation comparison := (string -> json -> bool).

(** Columns are compared by ID; [left] holds the comparisons of its items. *)
Definition items_equivalent (path : string) (left : list (string * comparison)) (right : list (string * json)) : bool :=
  same_keys left right &&
  forallb (fun kv => match dget kv.1 right with
                     | Some item => kv.2 (item_path path kv.1) item
                     | None => false
                     end) left.

Definition members_equivalent (path : string) (left : list (string * comparison)) (right : list (string * json)) : bool :=
  same_keys left right &&
  forallb (fun kv => match dget kv.1 right with
                     | Some v => kv.2 (member_path path kv.1) v
                     | None => false
                     end) left.

(** Lists position by position. *)
Fixpoint elements_equivalent (path : string) (i : nat) (left : list comparison) (right : list json) : bool :=
  match left, right with
  | [], [] => true
  | f :: left', v :: right' => f (item_path path (pretty i)) v && elements_equivalent path (S i) left' right'
  | _, _ => false
  end.

(** [_equivalent_value] on values that are present. *)
Fixpoint equivalent (left : json) (path : string) (right : json) {struct left} : bool :=
  match left with
  | JStr a =>
      match right with
      | JStr b => match check_equivalence path a b with Some e => e | None => bool_decide (a = b) end
      | _ => false
      end
  | JDict d =>
      match right with
      | JDict e => members_equivalent path (map (fun kv => match kv with (k, x) => (k, equivalent x) end) d) e
      | _ => false
      end
  | JList l =>
      match right with
      | JList m =>
          if py_endswith ".columns" path && id_list left && id_list right then
            items_equivalent path
              (dict_fill fst snd (map (fun x => (id_of x, equivalent x)) l) []) (dict_by id_of m)
          else if unordered_dependency_path path && forallb is_text (l ++ m) then
            same_keys (map (fun x => (text_of x, tt)) l) (map (fun x => (text_of x, tt)) m)
          else elements_equivalent path 0 (map equivalent l) m
      | _ => false
      end
  | _ => py_eq left right
  end.

(** [_equivalent_value]. *)
Definition equivalent_value (path : string) (left right : option json) : bool :=
  match left, right with
  | Some a, Some b => equivalent a path b
  | None, None => true
  | _, _ => false
  end.

(** ** Merging *)

Variable resolutions : list (string * conflict_resolution).

Record merge_out := {
  mo_value : option json;
  mo_external : list MigrationExternalChange;
  mo_conflicts : list MigrationConflict;
}.

Definition take_value (v : option json) : merge_out :=
  {| mo_value := v; mo_external := []; mo_conflicts := [] |}.

(** [_external]. *)
Definition external_change (path : string) (baseline live : option json) : MigrationExternalChange :=
  let operation := operation_of baseline live in
  {| mec_id := identifier "mec" [JStr path; value_of baseline; value_of live];
     mec_object_kind := kind_of_path path; mec_object_path := display_path path;
     mec_operation := operation;
     mec_summary := ("PostgreSQL " ++ operation_text operation ++ " " ++ display_path path ++ " outside Schemii")%string;
     mec_baseline_value := value_of baseline; mec_live_value := value_of live |}.

Definition conflict_record (path : string) (baseline desired live : option json) (category : conflict_category)
    : MigrationConflict :=
  {| mcf_id := identifier "mcf" [JStr path; value_of baseline; value_of desired; value_of live];
     mcf_category := category; mcf_object_kind := kind_of_path path; mcf_object_path := display_path path;
     mcf_summary := ("Schemii and PostgreSQL changed " ++ display_path path ++ " differently")%string;
     mcf_baseline_value := value_of baseline; mcf_design_value := value_of desired;
     mcf_live_value := value_of live; mcf_affected_objects := [];
     mcf_allowed_resolutions := [PullLive; KeepDesign] |}.

(** [_conflict]. *)
Definition conflict (path : string) (baseline desired live : option json) (category : conflict_category) : merge_out :=
  let record := conflict_record path baseline desired live category in
  match dget (mcf_id record) resolutions with
  | Some PullLive => take_value live
  | Some KeepDesign => take_value desired
  | None => {| mo_value := desired; mo_external := []; mo_conflicts := [record] |}
  end.

Definition missing_or_dict (v : option json) : bool :=
  match v with None | Some (JDict _) => true | _ => false end.

Definition missing_or_id_list (v : option json) : bool :=
  match v with None => true | Some x => id_list x end.

(** The lists collected over the parts of a container. *)
Definition collect (value : option json) (parts : list (string * merge_out)) : merge_out :=
  {| mo_value := value; mo_external := concat ((fun p => mo_external p.2) <$> parts);
     mo_conflicts := concat ((fun p => mo_conflicts p.2) <$> parts) |}.

Definition present (parts : list (string * merge_out)) : list (string * json) :=
  omap (fun p => pair p.1 <$> mo_value p.2) parts.

Definition merge_members (rec : option json -> option json -> option json -> string -> merge_out)
    (baseline desired live : option json) (path : string) : merge_out :=
  let keys := dict_fromkeys (dkeys (members baseline) ++ dkeys (members desired) ++ dkeys (members live)) in
  let parts := (fun key => (key, rec (dget key (members baseline)) (dget key (members desired))
                                   (dget key (members live)) (member_path path key))) <$> keys in
  collect (Some (JDict (present parts))) parts.

Definition merge_items (rec : option json -> option json -> option json -> string -> merge_out)
    (baseline desired live : option json) (path : string) : merge_out :=
  let order := dict_fromkeys (id_of <$> items desired ++ items baseline ++ items live) in
  let parts := (fun i => (i, rec (dget i (item_map baseline)) (dget i (item_map desired))
                               (dget i (item_map live)) (item_path path i))) <$> order in
  collect (Some (JList (snd <$> present parts))) parts.

(** The body of [merge]. *)
Definition merge_step (rec : option json -> option json -> option json -> string -> merge_out)
    (baseline desired live : option json) (path : string) : merge_out :=
  if bool_decide (desired = None) && bool_decide (live = None) then take_value None else
  if equivalent_value path desired live then take_value desired else
  if bool_decide (is_Some baseline) && (bool_decide (desired = None) || bool_decide (live = None))
  then conflict path baseline desired live CStructural else
  if missing_or_dict baseline && missing_or_dict desired && missing_or_dict live
  then merge_members rec baseline desired live path else
  if missing_or_id_list baseline && missing_or_id_list desired && missing_or_id_list live
  then merge_items rec baseline desired live path else
  if equivalent_value path desired baseline then
    {| mo_value := live;
       mo_external := if equivalent_value path live baseline then [] else [external_change path baseline live];
       mo_conflicts := [] |}
  else if equivalent_value path live baseline then take_value desired
  else conflict path baseline desired live CDirect.

Fixpoint merge_fuel (fuel : nat) (baseline desired live : option json) (path : string) : merge_out :=
  match fuel with
  | 0 => take_value desired
  | S fuel' => merge_step (merge_fuel fuel') baseline desired live path
  end.

Fixpoint json_depth (v : json) : nat :=
  match v with
  | JList l => S (list_max (map json_depth l))
  | JDict d => S (list_max (map (fun kv => match kv with (_, x) => json_depth x end) d))
  | _ => 0
  end.

Definition depth (v : option json) : nat := match v with Some x => json_depth x | None => 0 end.

Definition merge_bound (baseline desired live : option json) : nat :=
  S (Nat.max (depth baseline) (Nat.max (depth desired) (depth live))).

Definition merge (baseline desired live : option json) (path : string) : merge_out :=
  merge_fuel (merge_bound baseline desired live) baseline desired live path.
End merger.
