(* ===== verification/MergeProps.v ===== *)
(** * What reconciliation guarantees

    Correctness of [DesignMerge.merge]: it computes the source's recursion, it has
    enough fuel, its equivalence is reflexive, resolutions remove exactly the
    conflicts they name, and without drift (or without edits) the merged document is
    the desired (or the live) one. *)

From stdpp Require Import pretty.
From Stdlib Require Import Ascii String.
From S2P Require Import Prelude Json PyString DesignModels DefinitionAnalysis DesignValidation DesignDocument.
From S2P Require Import MigrationModels CheckExpressions DesignMerge.
Open Scope string_scope.
Open Scope list_scope.

(** ** Depth *)

Lemma list_max_le_iff (l : list nat) n : list_max l <= n <-> Forall (fun x => x <= n) l.
Proof. apply List.list_max_le. Qed.

Lemma json_depth_member k v d : dget k d = Some v -> json_depth v < json_depth (JDict d).
Proof.
  intros Hk%dget_Some_elem. simpl. apply Nat.lt_succ_r.
  assert (Forall (fun x => x <= list_max (map (fun kv => match kv with (_, x) => json_depth x end) d))
    (map (fun kv : string * json => match kv with (_, x) => json_depth x end) d)) as Hall
    by (by apply list_max_le_iff).
  rewrite Forall_forall in Hall. apply Hall.
  apply (list_elem_of_fmap_2 (fun kv : string * json => let (_, x) := kv in json_depth x) d (k, v) Hk).
Qed.

Lemma json_depth_item v l : v ∈ l -> json_depth v < json_depth (JList l).
Proof.
  intros Hv. simpl. apply Nat.lt_succ_r.
  assert (Forall (fun x => x <= list_max (map json_depth l)) (map json_depth l)) as Hall by (by apply list_max_le_iff).
  rewrite Forall_forall in Hall. apply Hall. by apply (list_elem_of_fmap_2 json_depth).
Qed.

Lemma depth_member k v : depth (dget k (members v)) <= pred (depth v).
Proof.
  destruct v as [[| | | | |d]|]; simpl; try lia.
  destruct (dget k d) as [x|] eqn:E; simpl; [|lia]. apply json_depth_member in E. simpl in E. lia.
Qed.

Lemma item_map_elem v i x : dget i (item_map v) = Some x -> x ∈ items v /\ id_of x = i.
Proof. apply dict_by_Some. Qed.

Lemma depth_item i v : depth (dget i (item_map v)) <= pred (depth v).
Proof.
  destruct (dget i (item_map v)) as [x|] eqn:E; simpl; [|lia].
  apply item_map_elem in E as [E _]. destruct v as [[| | | |l|]|]; simpl in E; try by apply not_elem_of_nil in E.
  apply json_depth_item in E. simpl in *. lia.
Qed.

Section props.
Context `{SqlglotTrees} `{Sha256}.
Variable types : column_types_by_table.
Abbreviation equiv_at := (equivalent types).
Abbreviation equiv := (equivalent_value types).

(** ** Unfolding *)

Lemma merge_step_ext res rec rec' b d l path :
  (forall k p, rec (dget k (members b)) (dget k (members d)) (dget k (members l)) p =
               rec' (dget k (members b)) (dget k (members d)) (dget k (members l)) p) ->
  (forall i p, rec (dget i (item_map b)) (dget i (item_map d)) (dget i (item_map l)) p =
               rec' (dget i (item_map b)) (dget i (item_map d)) (dget i (item_map l)) p) ->
  merge_step types res rec b d l path = merge_step types res rec' b d l path.
Proof.
  intros Hm Hi. unfold merge_step. do 3 (case_match; [done|]). case_match.
  - unfold merge_members. erewrite (list_fmap_ext _ _ (dict_fromkeys _)); [reflexivity|].
    intros j k _. simpl. by rewrite Hm.
  - case_match; [|done]. unfold merge_items. erewrite (list_fmap_ext _ _ (dict_fromkeys _)); [reflexivity|].
    intros j k _. simpl. by rewrite Hi.
Qed.

Lemma merge_fuel_none res n path : merge_fuel types res n None None None path = take_value None.
Proof. by destruct n. Qed.

Abbreviation max_depth b d l := (Nat.max (depth b) (Nat.max (depth d) (depth l))).

(** Any fuel above the depth of the documents gives the same result. *)
Lemma merge_fuel_enough res n m b d l path :
  max_depth b d l < n -> max_depth b d l < m ->
  merge_fuel types res n b d l path = merge_fuel types res m b d l path.
Proof.
  revert m b d l path. induction n as [|n IH]; intros [|m] b d l path Hn Hm; [lia..|]. simpl.
  assert (forall b' d' l' p, depth b' <= pred (depth b) -> depth d' <= pred (depth d) -> depth l' <= pred (depth l) ->
    (max_depth b d l = 0 -> b' = None /\ d' = None /\ l' = None) ->
    merge_fuel types res n b' d' l' p = merge_fuel types res m b' d' l' p) as Hpart.
  { intros b' d' l' p Hb Hd Hl Hz. destruct (decide (max_depth b d l = 0)) as [E|E].
    - destruct (Hz E) as (-> & -> & ->). by rewrite !merge_fuel_none.
    - apply IH; lia. }
  apply merge_step_ext; intros k p; apply Hpart; auto using depth_member, depth_item; intros Hz.
  - destruct b as [[]|], d as [[]|], l as [[]|]; simpl in Hz; try lia; done.
  - destruct b as [[]|], d as [[]|], l as [[]|]; simpl in Hz; try lia; done.
Qed.

(** The equation of the source, without fuel. *)
Lemma merge_unfold res b d l path :
  merge types res b d l path = merge_step types res (merge types res) b d l path.
Proof.
  unfold merge at 1, merge_bound. simpl. apply merge_step_ext; intros k p; unfold merge, merge_bound.
  - pose proof (depth_member k b); pose proof (depth_member k d); pose proof (depth_member k l).
    destruct (decide (max_depth b d l = 0)) as [E|E]; [|apply merge_fuel_enough; lia].
    destruct b as [[]|], d as [[]|], l as [[]|]; simpl in E; try lia; by rewrite !merge_fuel_none.
  - pose proof (depth_item k b); pose proof (depth_item k d); pose proof (depth_item k l).
    destruct (decide (max_depth b d l = 0)) as [E|E]; [|apply merge_fuel_enough; lia].
    destruct b as [[]|], d as [[]|], l as [[]|]; simpl in E; try lia; by rewrite !merge_fuel_none.
Qed.

(** Induction along the recursion of [merge]. *)
Lemma merge_ind (P : option json -> option json -> option json -> string -> Prop) :
  (forall b d l path,
     (forall k p, k ∈ dkeys (members b) ++ dkeys (members d) ++ dkeys (members l) ->
        P (dget k (members b)) (dget k (members d)) (dget k (members l)) p) ->
     (forall i p, i ∈ id_of <$> items d ++ items b ++ items l ->
        P (dget i (item_map b)) (dget i (item_map d)) (dget i (item_map l)) p) ->
     P b d l path) ->
  forall b d l path, P b d l path.
Proof.
  intros Hstep. enough (forall n b d l path, max_depth b d l < n -> P b d l path) as Hn
    by (intros b d l path; eapply Hn, Nat.lt_succ_diag_r).
  induction n as [|n IH]; intros b d l path Hlt; [lia|]. apply Hstep.
  - intros k p Hk. apply IH.
    pose proof (depth_member k b); pose proof (depth_member k d); pose proof (depth_member k l).
    destruct (decide (max_depth b d l = 0)) as [E|E]; [|lia].
    destruct b as [[]|], d as [[]|], l as [[]|]; simpl in E, Hk; try lia; by apply not_elem_of_nil in Hk.
  - intros k p Hk. apply IH.
    pose proof (depth_item k b); pose proof (depth_item k d); pose proof (depth_item k l).
    destruct (decide (max_depth b d l = 0)) as [E|E]; [|lia].
    destruct b as [[]|], d as [[]|], l as [[]|]; simpl in E, Hk; try lia; by apply not_elem_of_nil in Hk.
Qed.

(** ** Resolutions *)

Definition unresolved (res : list (string * conflict_resolution)) (c : MigrationConflict) : Prop :=
  dget (mcf_id c) res = None.
#[global] Instance unresolved_dec res c : Decision (unresolved res c).
Proof. unfold unresolved. apply _. Defined.

Lemma filter_concat {A} (P : A -> Prop) `{forall x, Decision (P x)} (ls : list (list A)) :
  filter P (concat ls) = concat ((fun l : list A => filter P l) <$> ls).
Proof. induction ls as [|l ls IH]; csimpl; [done|]. by rewrite filter_app, IH. Qed.

(** What a resolution may change of the result for one part. *)
Definition resolved_from (res : list (string * conflict_resolution)) (out plain : merge_out) : Prop :=
  mo_external out = mo_external plain /\
  mo_conflicts out = filter (unresolved res) (mo_conflicts plain) /\
  (Forall (fun kv => kv.2 = KeepDesign) res -> mo_value out = mo_value plain).

Lemma resolved_refl res v ext : resolved_from res {| mo_value := v; mo_external := ext; mo_conflicts := [] |}
  {| mo_value := v; mo_external := ext; mo_conflicts := [] |}.
Proof. done. Qed.

Lemma resolved_conflict res path b d l c :
  resolved_from res (conflict res path b d l c) (conflict [] path b d l c).
Proof.
  unfold conflict at 2. simpl. unfold resolved_from. cbn [mo_external mo_conflicts mo_value].
  unfold conflict. destruct (dget _ res) as [r|] eqn:E; simpl.
  - rewrite filter_cons_False by (intros Hu; unfold unresolved in Hu; simpl in Hu, E; by rewrite Hu in E). split; [by destruct r|].
    split; [by destruct r|]. intros Hk. rewrite Forall_forall in Hk.
    apply dget_Some_elem, Hk in E. simpl in E. by subst r.
  - by rewrite filter_cons_True.
Qed.

Lemma resolved_collect res (keys : list string) (f g : string -> merge_out) (mk : list (string * json) -> json) :
  (forall k, k ∈ keys -> resolved_from res (f k) (g k)) ->
  resolved_from res (collect (Some (mk (present ((fun k => (k, f k)) <$> keys)))) ((fun k => (k, f k)) <$> keys))
    (collect (Some (mk (present ((fun k => (k, g k)) <$> keys)))) ((fun k => (k, g k)) <$> keys)).
Proof.
  intros Hall. unfold resolved_from, collect. simpl. rewrite <-!list_fmap_compose, filter_concat, <-list_fmap_compose.
  split_and!.
  - f_equal. apply list_fmap_ext. intros i k Hk%list_elem_of_lookup_2. simpl. by apply Hall.
  - f_equal. apply list_fmap_ext. intros i k Hk%list_elem_of_lookup_2. simpl. by apply Hall.
  - intros Hres. do 2 f_equal. unfold present. clear -Hall Hres. induction keys as [|k keys IH]; [done|]. csimpl.
    rewrite IH by (intros; apply Hall; by right). destruct (Hall k) as (_ & _ & ->); [left|done|done].
Qed.

Lemma merge_resolved res b d l path : resolved_from res (merge types res b d l path) (merge types [] b d l path).
Proof.
  revert b d l path. apply merge_ind. intros b d l path Hm Hi.
  rewrite !merge_unfold. unfold merge_step. case_match; [apply resolved_refl|].
  case_match; [apply resolved_refl|]. case_match; [apply resolved_conflict|]. case_match.
  { unfold merge_members. apply (resolved_collect res _ _ _ JDict). intros k Hk. apply Hm. by rewrite elem_of_dict_fromkeys in Hk. }
  case_match.
  { unfold merge_items. apply (resolved_collect res _ _ _ (fun m => JList (snd <$> m))).
    intros k Hk. apply Hi. by rewrite elem_of_dict_fromkeys in Hk. }
  repeat case_match; (apply resolved_refl || apply resolved_conflict).
Qed.

(** ** Equivalence *)

Lemma dict_fill_pairs {A K V} `{EqDecision K} (f : A -> K) (g : A -> V) l d :
  dict_fill fst snd (map (fun x => (f x, g x)) l) d = dict_fill f g l d.
Proof. revert d. induction l as [|x l IH]; intros d; [done|]. simpl. by rewrite !dict_fill_cons, IH. Qed.

Lemma item_comparisons (l : list json) :
  dict_fill fst snd (map (fun x => (id_of x, equiv_at x)) l) [] =
  map (fun kv => (kv.1, equiv_at kv.2)) (dict_by id_of l).
Proof. rewrite dict_fill_pairs. apply (dict_fill_by_map id_of equiv_at l []). Qed.

Lemma member_comparisons (d : list (string * json)) :
  map (fun kv => match kv with (k, x) => (k, equiv_at x) end) d = map (fun kv => (kv.1, equiv_at kv.2)) d.
Proof. apply map_ext. by intros []. Qed.

(** Keyed values are compared key by key. *)
Lemma keyed_equivalent (at_ : string -> string) (d e : list (string * json)) :
  dwf d ->
  (same_keys (map (fun kv => (kv.1, equiv_at kv.2)) d) e &&
   forallb (fun kv => match dget kv.1 e with Some v => kv.2 (at_ kv.1) v | None => false end)
     (map (fun kv => (kv.1, equiv_at kv.2)) d)) = true <->
  forall k, option_Forall2 (fun x y => equiv_at x (at_ k) y = true) (dget k d) (dget k e).
Proof.
  intros Hd. rewrite andb_true_iff, forallb_iff, Forall_forall.
  unfold same_keys. rewrite andb_true_iff, !bool_decide_eq_true, !Forall_forall, dkeys_map. split.
  - intros [[H1 H2] Hall] k. destruct (dget k d) as [x|] eqn:E.
    + apply dget_Some_key in E as Hke. apply H1, dget_is_Some in Hke as [y Hy].
      specialize (Hall (k, equiv_at x)). simpl in Hall. rewrite Hy in *. constructor. apply Hall.
      apply dget_Some_elem in E. by apply (list_elem_of_fmap_2 (fun kv : string * json => (kv.1, equiv_at kv.2)) d (k, x)).
    + destruct (dget k e) as [y|] eqn:E'; [|constructor]. apply dget_Some_key, H2, dget_is_Some in E' as [? ?]. congruence.
  - intros Hall. split; [split|].
    + intros k [x Hx]%dget_is_Some. specialize (Hall k). rewrite Hx in Hall. inversion Hall; subst. by eapply dget_Some_key.
    + intros k [y Hy]%dget_is_Some. specialize (Hall k). rewrite Hy in Hall. inversion Hall; subst. by eapply dget_Some_key.
    + intros kv ([k x] & -> & Hin)%list_elem_of_fmap. simpl. specialize (Hall k).
      rewrite (dget_elem_wf _ _ _ Hd Hin) in Hall. inversion Hall; subst. done.
Qed.

Lemma members_equivalent_iff path d e :
  dwf d -> equiv_at (JDict d) path (JDict e) = true <->
  forall k, option_Forall2 (fun x y => equiv_at x (member_path path k) y = true) (dget k d) (dget k e).
Proof. intros Hd. simpl. rewrite member_comparisons. by apply (keyed_equivalent (member_path path)). Qed.

Lemma columns_equivalent_iff path l m :
  items_equivalent path (dict_fill fst snd (map (fun x => (id_of x, equiv_at x)) l) []) (dict_by id_of m) = true <->
  forall i, option_Forall2 (fun x y => equiv_at x (item_path path i) y = true)
    (dget i (dict_by id_of l)) (dget i (dict_by id_of m)).
Proof. rewrite item_comparisons. apply (keyed_equivalent (item_path path)), dict_by_wf. Qed.

Lemma elements_equivalent_iff path i l m :
  elements_equivalent path i (map equiv_at l) m = true <->
  length l = length m /\
  forall j x y, l !! j = Some x -> m !! j = Some y -> equiv_at x (item_path path (pretty (i + j))) y = true.
Proof.
  revert i m. induction l as [|x l IH]; intros i [|y m]; simpl.
  - split; [|done]. intros _. split; [done|]. intros j ? ?. by rewrite lookup_nil.
  - split; [done|]. by intros [? _].
  - split; [done|]. by intros [? _].
  - rewrite andb_true_iff, IH. split.
    + intros [Hx [Hlen Hall]]. split; [by rewrite Hlen|]. intros [|j] u v; simpl; intros Hu Hv.
      * simplify_eq. by rewrite Nat.add_0_r.
      * rewrite Nat.add_succ_r. by apply Hall.
    + intros [Hlen Hall]. split; [specialize (Hall 0 x y eq_refl eq_refl); by rewrite Nat.add_0_r in Hall|].
      split; [lia|]. intros j u v Hu Hv. specialize (Hall (S j) u v Hu Hv). by rewrite Nat.add_succ_r in Hall.
Qed.

Lemma same_keys_refl {V} (d : list (string * V)) : same_keys d d = true.
Proof. unfold same_keys. rewrite bool_decide_eq_true_2; [done|]. by apply Forall_forall. Qed.

(** Every value is equivalent to itself. *)
Lemma equivalent_refl v path : json_wf v -> equiv_at v path v = true.
Proof.
  revert path. induction v as [|b|z|s|l IH|d IH] using json_nested_ind; intros path Hwf;
    try (by apply (py_eq_refl _ Hwf)).
  - simpl. unfold check_equivalence. repeat case_match; simplify_eq; rewrite ?equivalent_check_refl; try done;
      by rewrite bool_decide_eq_true_2.
  - apply json_wf_list in Hwf. rewrite Forall_forall in Hwf, IH.
    assert (forall x p, x ∈ l -> equiv_at x p x = true) as Hx by (intros; apply IH; auto).
    simpl. case_match; [apply columns_equivalent_iff; intros i|].
    + destruct (dget i (dict_by id_of l)) as [x|] eqn:E; constructor. apply Hx. by apply dict_by_Some in E as [? _].
    + case_match; [apply same_keys_refl|]. apply elements_equivalent_iff. split; [done|].
      intros j x y Hj Hj'. simplify_eq. by apply Hx, list_elem_of_lookup_2 with j.
  - pose proof Hwf as [Hd Hall]%json_wf_dict. apply members_equivalent_iff; [done|]. intros k.
    destruct (dget k d) as [x|] eqn:E; constructor. apply dget_Some_elem in E.
    rewrite Forall_forall in IH, Hall. by apply (IH (k, x)), (Hall (k, x)).
Qed.

Lemma equiv_value_refl v path : (forall x, v = Some x -> json_wf x) -> equiv path v v = true.
Proof. destruct v; simpl; [|done]. intros Hw. by apply equivalent_refl, Hw. Qed.

(** ** Well-formed documents *)

(** Lists of identified objects hold every ID once. *)
Fixpoint ids_distinct (v : json) : Prop :=
  match v with
  | JList l => (id_list v = true -> NoDup (id_of <$> l)) /\ Forall (fun P => P) (map ids_distinct l)
  | JDict d => Forall (fun P => P) (map (fun kv => match kv with (_, x) => ids_distinct x end) d)
  | _ => True
  end.

Definition doc_wf (v : json) : Prop := json_wf v /\ ids_distinct v.
Definition doc_wf_opt (v : option json) : Prop := forall x, v = Some x -> doc_wf x.

Lemma Forall_map_prop {A} (f : A -> Prop) (l : list A) : Forall (fun P => P) (map f l) <-> Forall f l.
Proof. by rewrite (Forall_fmap f (fun P => P) l). Qed.

Lemma doc_wf_member k v : doc_wf_opt v -> doc_wf_opt (dget k (members v)).
Proof.
  intros Hv x Hx. destruct v as [[| | | | |d]|]; simpl in Hx; try done.
  destruct (Hv _ eq_refl) as [Hw Hi]. split; [by eapply json_wf_dget|].
  simpl in Hi. rewrite (Forall_map_prop (fun kv : string * json => let (_, x) := kv in ids_distinct x)) in Hi.
  rewrite Forall_forall in Hi. by apply dget_Some_elem, Hi in Hx.
Qed.

Lemma doc_wf_elem v x : doc_wf_opt v -> x ∈ items v -> doc_wf x.
Proof.
  intros Hv Hx. destruct v as [[| | | |l|]|]; simpl in Hx; try by apply not_elem_of_nil in Hx.
  destruct (Hv _ eq_refl) as [Hw [_ Hi]]. apply json_wf_list in Hw.
  rewrite (Forall_map_prop ids_distinct) in Hi. rewrite Forall_forall in Hi, Hw. split; auto.
Qed.

Lemma doc_wf_item i v : doc_wf_opt v -> doc_wf_opt (dget i (item_map v)).
Proof. intros Hv x [Hx _]%item_map_elem. by eapply doc_wf_elem. Qed.

Lemma doc_wf_ids v : doc_wf_opt v -> missing_or_id_list v = true -> NoDup (id_of <$> items v).
Proof.
  intros Hv Hi. destruct v as [[| | | |l|]|]; simpl; try apply NoDup_nil_2. by apply (Hv _ eq_refl).
Qed.

(** An item of a list with distinct IDs is found by its ID. *)
Lemma item_map_Some v x : doc_wf_opt v -> missing_or_id_list v = true -> x ∈ items v ->
  dget (id_of x) (item_map v) = Some x.
Proof. intros Hv Hi Hx. apply dict_by_elem; [by apply doc_wf_ids|done]. Qed.

Lemma item_map_None v i : i ∉ id_of <$> items v <-> dget i (item_map v) = None.
Proof. by rewrite <-dict_by_None. Qed.

(** ** The parts of a merged container *)

Lemma dget_present (keys : list string) (f : string -> merge_out) k :
  NoDup keys ->
  dget k (present ((fun k => (k, f k)) <$> keys)) = if decide (k ∈ keys) then mo_value (f k) else None.
Proof.
  unfold present. induction keys as [|k' keys IH]; [done|]. csimpl. intros [Hn Hnd]%NoDup_cons.
  destruct (mo_value (f k')) as [v|] eqn:E; csimpl; rewrite IH by done;
    repeat case_decide; subst; rewrite ?E; try done; set_solver.
Qed.

Lemma present_keys (keys : list string) (f : string -> merge_out) :
  dkeys (present ((fun k => (k, f k)) <$> keys)) `sublist_of` keys.
Proof.
  unfold present, dkeys. induction keys as [|k keys IH]; [constructor|]. csimpl.
  destruct (mo_value (f k)); csimpl; by constructor.
Qed.

Lemma present_dwf (keys : list string) (f : string -> merge_out) :
  NoDup keys -> dwf (present ((fun k => (k, f k)) <$> keys)).
Proof. unfold dwf. intros. eapply sublist_NoDup; [done|apply present_keys]. Qed.

Lemma present_app f (ks ks' : list string) :
  present ((fun k => (k, f k)) <$> ks ++ ks') =
  present ((fun k => (k, f k)) <$> ks) ++ present ((fun k => (k, f k)) <$> ks').
Proof. unfold present. by rewrite fmap_app, omap_app. Qed.

Lemma present_absent (f : string -> merge_out) (ks : list string) :
  (forall k, k ∈ ks -> mo_value (f k) = None) -> present ((fun k => (k, f k)) <$> ks) = [].
Proof.
  unfold present. induction ks as [|k ks IH]; intros Hn; [done|]. csimpl.
  rewrite (Hn k) by left. simpl. apply IH. intros. apply Hn. by right.
Qed.

(** The first of two lists without repetition comes first, and the rest is new. *)
Lemma fromkeys_app_NoDup {A} `{EqDecision A} (l k : list A) :
  NoDup l -> exists r, dict_fromkeys (l ++ k) = l ++ r /\ (forall x, x ∈ r -> x ∉ l).
Proof.
  intros Hl. destruct (dict_fromkeys_prefix l k) as [r Hr].
  assert (dict_fromkeys l = l) as El.
  { clear -Hl. unfold dict_fromkeys. rewrite <-(app_nil_l l) at 2.
    assert (forall acc, NoDup (acc ++ l) -> foldl fromkeys_step acc l = acc ++ l) as Hgen; [|by apply Hgen].
    clear Hl. induction l as [|x l IH]; intros acc Hnd; simpl; [by rewrite app_nil_r|].
    unfold fromkeys_step at 2. rewrite decide_False; [rewrite IH; by rewrite <-app_assoc|].
    apply NoDup_app in Hnd as (_ & Hd & _). intros Hx. apply (Hd x Hx). left. }
  exists r. rewrite Hr, El. split; [done|]. intros x Hx Hxl.
  pose proof (NoDup_dict_fromkeys (l ++ k)) as Hnd. rewrite Hr, El in Hnd.
  apply NoDup_app in Hnd as (_ & Hd & _). by apply (Hd x Hxl).
Qed.

(** ** The same document *)

(** Equal up to the order of keys in dictionaries. *)
Inductive json_same : json -> json -> Prop :=
| same_value v : json_same v v
| same_list l m : Forall2 json_same l m -> json_same (JList l) (JList m)
| same_dict d e : dwf d -> dwf e -> (forall k, option_Forall2 json_same (dget k d) (dget k e)) -> json_same (JDict d) (JDict e).

Lemma json_same_py_eq v w : json_wf v -> json_wf w -> json_same v w -> py_eq v w = true.
Proof.
  revert w. induction v as [|b|z|s|l IH|d IH] using json_nested_ind; intros w Hv Hw Hs;
    inversion Hs as [|l' m Hall|d' e Hd He Hall]; subst; try (by apply py_eq_refl).
  - apply py_eq_list. rewrite json_wf_list in Hv, Hw. clear Hs. revert IH Hv Hw.
    induction Hall as [|x y l m Hxy _ IHl]; intros IH Hv Hw; [constructor|].
    apply Forall_cons in IH as [Hx IH], Hv as [? Hv], Hw as [? Hw]. constructor; [by apply Hx|by apply IHl].
  - apply py_eq_dict; [done..|]. intros k. specialize (Hall k). rewrite Forall_forall in IH.
    destruct (dget k d) as [x|] eqn:Ex, (dget k e) as [y|] eqn:Ey; inversion Hall; subst; constructor.
    apply (IH (k, x)); [by apply dget_Some_elem|exact (json_wf_dget _ _ _ Hv Ex)|exact (json_wf_dget _ _ _ Hw Ey)|done].
Qed.

(** ** Merging without drift *)

(** A dictionary of parts with the desired values is the desired dictionary. *)
Lemma members_follow_desired (keys : list string) (f : string -> merge_out) (d : list (string * json)) :
  dwf d -> NoDup keys -> (forall k, k ∈ dkeys d -> k ∈ keys) ->
  (forall k, k ∈ keys -> option_Forall2 json_same (mo_value (f k)) (dget k d)) ->
  json_same (JDict (present ((fun k => (k, f k)) <$> keys))) (JDict d).
Proof.
  intros Hd Hnd Hsub Hall. apply same_dict; [by apply present_dwf|done|]. intros k.
  rewrite dget_present by done. case_decide as Hk; [by apply Hall|].
  destruct (dget k d) as [x|] eqn:E; [|constructor]. by apply dget_Some_key, Hsub in E.
Qed.

Lemma items_follow_desired (f : string -> merge_out) (l : list json) (rest : list string) :
  NoDup (id_of <$> l) -> (forall i, i ∈ rest -> i ∉ id_of <$> l) ->
  (forall i, option_Forall2 json_same (mo_value (f i)) (dget i (dict_by id_of l))) ->
  json_same (JList (snd <$> present ((fun i => (i, f i)) <$> (id_of <$> l) ++ rest))) (JList l).
Proof.
  intros Hnd Hrest Hall. rewrite present_app, fmap_app, (present_absent f rest), app_nil_r.
  2: { intros i Hi. specialize (Hall i). apply Hrest, dict_by_None in Hi. rewrite Hi in Hall. by inversion Hall. }
  apply same_list. assert (forall x, x ∈ l -> exists y, mo_value (f (id_of x)) = Some y /\ json_same y x) as Hx.
  { intros x Hx. specialize (Hall (id_of x)). rewrite (dict_by_elem id_of l x) in Hall by done.
    inversion Hall; subst; eauto. }
  clear -Hx. unfold present. induction l as [|x l IH]; [constructor|]. csimpl.
  destruct (Hx x) as (y & -> & Hy); [left|]. csimpl. constructor; [done|]. apply IH. intros. apply Hx. by right.
Qed.

Lemma parts_no_external value (keys : list string) (f : string -> merge_out) :
  (forall k, k ∈ keys -> mo_external (f k) = []) -> mo_external (collect value ((fun k => (k, f k)) <$> keys)) = [].
Proof.
  unfold collect. simpl. rewrite <-list_fmap_compose. intros Hall. apply List.concat_nil_Forall.
  apply Forall_fmap, Forall_forall. intros k Hk. by apply Hall.
Qed.

(** Past the first tests nothing is missing on one side only. *)
Lemma both_or_new (b d l : option json) :
  bool_decide (d = None) && bool_decide (l = None) = false ->
  bool_decide (is_Some b) && (bool_decide (d = None) || bool_decide (l = None)) = false ->
  (b = None /\ (is_Some d \/ is_Some l)) \/ (is_Some b /\ is_Some d /\ is_Some l).
Proof. destruct b, d, l; simpl; try done; intros _ _; eauto 10. Qed.

Lemma dict_cases v : missing_or_dict v = true -> v = None \/ exists d, v = Some (JDict d).
Proof. destruct v as [[]|]; simpl; try done; eauto. Qed.

Lemma id_list_cases v : missing_or_id_list v = true -> v = None \/ exists l, v = Some (JList l) /\ id_list (JList l) = true.
Proof. destruct v as [[]|]; simpl; try done; eauto. Qed.

(** When PostgreSQL is as the baseline, the merged document is the desired one and
    no external change is reported. *)
Lemma merge_no_drift b d path :
  doc_wf_opt b -> doc_wf_opt d ->
  option_Forall2 json_same (mo_value (merge types [] b d b path)) d /\
  mo_external (merge types [] b d b path) = [].
Proof.
  enough (forall l, l = b -> doc_wf_opt b -> doc_wf_opt d ->
    option_Forall2 json_same (mo_value (merge types [] b d l path)) d /\
    mo_external (merge types [] b d l path) = []) as Hgen by (by apply Hgen).
  intros l. revert b d l path. refine (merge_ind (fun b d l path => l = b -> doc_wf_opt b -> doc_wf_opt d -> _) _).
  intros b d l path Hm Hi -> Hb Hd.
  assert (option_Forall2 json_same d d) as Hrefl.
  { destruct d as [x|]; repeat constructor. }
  rewrite merge_unfold. unfold merge_step.
  destruct (bool_decide (d = None) && bool_decide (b = None)) eqn:E1.
  { apply andb_true_iff in E1 as [->%bool_decide_eq_true _]. by repeat constructor. }
  destruct (equiv path d b) eqn:E2; [done|].
  destruct (bool_decide (is_Some b) && _) eqn:E3; [by unfold conflict|].
  destruct (missing_or_dict b && missing_or_dict d && missing_or_dict b) eqn:E4.
  { apply andb_true_iff in E4 as [[_ Hdd]%andb_true_iff _].
    destruct (dict_cases d Hdd) as [->|[dd ->]]; [by destruct (both_or_new _ _ _ E1 E3) as [[-> [[]|[]]]|(? & [] & _)]|].
    unfold merge_members. split.
    - simpl. constructor. apply members_follow_desired; [|apply NoDup_dict_fromkeys|..].
      + by destruct (Hd _ eq_refl) as [[? _]%json_wf_dict _].
      + intros k Hk. apply elem_of_dict_fromkeys. set_solver.
      + intros k Hk. rewrite elem_of_dict_fromkeys in Hk. eapply proj1, Hm; auto using doc_wf_member.
    - apply parts_no_external. intros k Hk. rewrite elem_of_dict_fromkeys in Hk.
      eapply proj2, Hm; auto using doc_wf_member. }
  destruct (missing_or_id_list b && missing_or_id_list d && missing_or_id_list b) eqn:E5.
  { apply andb_true_iff in E5 as [[_ Hdl]%andb_true_iff _].
    destruct (id_list_cases d Hdl) as [->|(dl & -> & _)]; [by destruct (both_or_new _ _ _ E1 E3) as [[-> [[]|[]]]|(? & [] & _)]|].
    unfold merge_items. split.
    - simpl. constructor. rewrite !fmap_app.
      destruct (fromkeys_app_NoDup (id_of <$> dl) ((id_of <$> items b) ++ (id_of <$> items b))) as (r & -> & Hr);
        [by apply (doc_wf_ids (Some (JList dl)))|].
      apply items_follow_desired; [by apply (doc_wf_ids (Some (JList dl)))|done|].
      intros i. destruct (decide (i ∈ id_of <$> items (Some (JList dl)) ++ items b ++ items b)) as [Hin|Hout].
      + eapply proj1, Hi; auto using doc_wf_item.
      + rewrite !fmap_app, !not_elem_of_app in Hout. destruct Hout as (Ho1 & Ho2 & _).
        apply item_map_None in Ho1, Ho2. rewrite Ho2. unfold item_map, items in Ho1.
        change (dget i (item_map (Some (JList dl)))) with (dget i (dict_by id_of dl)). rewrite Ho1.
        rewrite merge_unfold. constructor.
    - apply parts_no_external. intros k Hk. rewrite elem_of_dict_fromkeys in Hk.
      eapply proj2, Hi; auto using doc_wf_item. }
  rewrite (equiv_value_refl b) by (intros x Hx; by apply Hb). done.
Qed.

(** ** Conflicts *)

Lemma endswith_last suffix s : suffix <> "" -> py_endswith suffix s = true -> last_char s = last_char suffix.
Proof.
  intros Hne. unfold py_endswith. rewrite andb_true_iff, !bool_decide_eq_true. intros [Hlen Hdrop].
  rewrite <-(str_take_drop (String.length s - String.length suffix) s) by lia. rewrite Hdrop. by apply last_char_app.
Qed.

(** IDs are compared as plain texts. *)
Lemma id_path_plain path : py_endswith ".expression" (member_path path "id") = false.
Proof.
  destruct (py_endswith ".expression" (member_path path "id")) eqn:E; [|done].
  apply endswith_last in E; [|done]. unfold member_path in E. case_bool_decide; [done|].
  rewrite last_char_app in E by done. done.
Qed.

(** Everything identified in [b] is still in [d]: the members of dictionaries, and the
    items of lists of identified objects. *)
Fixpoint retained (b d : json) : Prop :=
  match b with
  | JDict m =>
      match d with
      | JDict e => Forall (fun P => P) (map (fun kv => match kv with (k, x) =>
          match dget k e with Some y => retained x y | None => False end end) m)
      | _ => True
      end
  | JList l =>
      match d with
      | JList l' =>
          if id_list b && id_list d then Forall (fun P => P) (map (fun x =>
            match dget (id_of x) (dict_by id_of l') with Some y => retained x y | None => False end) l)
          else True
      | _ => True
      end
  | _ => True
  end.

Definition retained_opt (b d : option json) : Prop :=
  match b, d with
  | None, _ => True
  | Some x, Some y => retained x y
  | Some _, None => False
  end.

Lemma retained_dict m e : dwf m ->
  retained (JDict m) (JDict e) <-> forall k, retained_opt (dget k m) (dget k e).
Proof.
  intros Hm. simpl. rewrite (Forall_map_prop (fun kv : string * json => let (k, x) := kv in
    match dget k e with Some y => retained x y | None => False end)), Forall_forall. split.
  - intros Hall k. destruct (dget k m) as [x|] eqn:E; [|done]. apply dget_Some_elem, Hall in E.
    by destruct (dget k e).
  - intros Hall [k x] Hin. specialize (Hall k). rewrite (dget_elem_wf _ _ _ Hm Hin) in Hall. by destruct (dget k e).
Qed.

Lemma retained_list l l' : NoDup (id_of <$> l) -> id_list (JList l) = true -> id_list (JList l') = true ->
  retained (JList l) (JList l') <-> forall i, retained_opt (dget i (dict_by id_of l)) (dget i (dict_by id_of l')).
Proof.
  intros Hnd Hl Hl'. cbn [retained]. rewrite Hl, Hl'. simpl.
  rewrite (Forall_map_prop (fun x => match dget (id_of x) (dict_by id_of l') with Some y => retained x y | None => False end)), Forall_forall. split.
  - intros Hall i. destruct (dget i (dict_by id_of l)) as [x|] eqn:E; [|done]. apply dict_by_Some in E as [E <-].
    apply Hall in E. by destruct (dget (id_of x) (dict_by id_of l')).
  - intros Hall x Hx. specialize (Hall (id_of x)). rewrite (dict_by_elem id_of l x) in Hall by done.
    by destruct (dget (id_of x) (dict_by id_of l')).
Qed.

(** Equivalent objects have the same ID. *)
Lemma equivalent_id x y path : json_wf x -> is_Some (item_id x) -> equiv_at x path y = true -> item_id y = item_id x.
Proof.
  intros Hwf [i Hi] He. destruct x as [| | | | |m]; simpl in Hi; try done.
  destruct y as [| | | | |e]; try done. apply json_wf_dict in Hwf as [Hm _].
  rewrite members_equivalent_iff in He by done. specialize (He "id"). simpl.
  destruct (dget "id" m) as [[]|]; try done. inversion He as [u v Hs|]; subst. destruct v; try done.
  simpl in Hs. unfold check_equivalence in Hs. rewrite id_path_plain in Hs. by apply bool_decide_eq_true in Hs as ->.
Qed.

Definition mutual (x y : json) : Prop := retained x y /\ retained y x.

Lemma mutual_keyed (d e : option json) : option_Forall2 mutual d e -> retained_opt d e /\ retained_opt e d.
Proof. by intros [x y []|]. Qed.

(** Items paired by position and with equal IDs are paired by ID. *)
Lemma paired_items (l m : list json) i :
  NoDup (id_of <$> l) -> NoDup (id_of <$> m) -> length l = length m ->
  (forall j x y, l !! j = Some x -> m !! j = Some y -> id_of y = id_of x /\ mutual x y) ->
  option_Forall2 mutual (dget i (dict_by id_of l)) (dget i (dict_by id_of m)).
Proof.
  intros Hl Hm Hlen Hall. destruct (dget i (dict_by id_of l)) as [x|] eqn:Ex.
  - apply dict_by_Some in Ex as [[j Hj]%list_elem_of_lookup <-].
    destruct (lookup_lt_is_Some_2 m j) as [y Hy]; [rewrite <-Hlen; by eapply lookup_lt_Some|].
    destruct (Hall j x y Hj Hy) as [E Hxy]. rewrite <-E, (dict_by_elem id_of m y); [by constructor|done|].
    by eapply list_elem_of_lookup_2.
  - apply dict_by_None in Ex. destruct (dget i (dict_by id_of m)) as [y|] eqn:Ey; [|constructor].
    apply dict_by_Some in Ey as [[j Hj]%list_elem_of_lookup <-]. destruct Ex.
    destruct (lookup_lt_is_Some_2 l j) as [x Hx]; [rewrite Hlen; by eapply lookup_lt_Some|].
    destruct (Hall j x y Hx Hj) as [-> _]. by eapply list_elem_of_fmap_2, list_elem_of_lookup_2.
Qed.

Lemma doc_wf_list_elem l x : doc_wf (JList l) -> x ∈ l -> doc_wf x.
Proof. intros Hw Hx. by apply (doc_wf_elem (Some (JList l))); [intros ? [= <-]|]. Qed.

Lemma doc_wf_dict_get d k x : doc_wf (JDict d) -> dget k d = Some x -> doc_wf x.
Proof. intros Hw Hx. by apply (doc_wf_member k (Some (JDict d))); [intros ? [= <-]|]. Qed.

Lemma id_list_elem l x : id_list (JList l) = true -> x ∈ l -> is_Some (item_id x).
Proof. cbn [id_list]. rewrite forallb_forall. intros Hall Hx. by apply list_elem_of_In, Hall, bool_decide_eq_true in Hx. Qed.

Lemma texts_not_items l : forallb is_text l = true -> id_list (JList l) = true -> l = [].
Proof. destruct l as [|x l]; [done|]. simpl. by destruct x. Qed.

Lemma lists_mutual l m : doc_wf (JList l) -> doc_wf (JList m) ->
  (id_list (JList l) = true -> id_list (JList m) = true ->
   forall i, option_Forall2 mutual (dget i (dict_by id_of l)) (dget i (dict_by id_of m))) ->
  mutual (JList l) (JList m).
Proof.
  intros Hwl Hwm Hall. destruct (id_list (JList l)) eqn:El, (id_list (JList m)) eqn:Em.
  2-4: unfold mutual; cbn [retained]; by rewrite El, Em.
  split; (apply retained_list; [by apply Hwl || by apply Hwm|done|done|]); intros i;
    by destruct (mutual_keyed _ _ (Hall eq_refl eq_refl i)).
Qed.

Lemma equivalent_mutual x path y : doc_wf x -> doc_wf y -> equiv_at x path y = true -> mutual x y.
Proof.
  revert path y. induction x as [|b|z|s|l IH|d IH] using json_nested_ind; intros path y Hx Hy He;
    try (split; [done|by destruct y]).
  - destruct y as [| | | |m|]; try done. rewrite Forall_forall in IH.
    assert (forall a p c, a ∈ l -> c ∈ m -> equiv_at a p c = true -> mutual a c) as Hrec.
    { intros a p c Ha Hc. apply IH; eauto using doc_wf_list_elem. }
    apply lists_mutual; [done..|]. intros El Em i. cbn [equivalent] in He. case_match eqn:Ec.
    + rewrite columns_equivalent_iff in He. specialize (He i).
      destruct (dget i (dict_by id_of l)) as [a|] eqn:Ea, (dget i (dict_by id_of m)) as [c|] eqn:Eb; inversion He; subst;
        constructor. apply dict_by_Some in Ea as [? _], Eb as [? _]. by eapply Hrec.
    + case_match eqn:Et.
      * apply andb_true_iff in Et as [_ Et]. rewrite forallb_app, andb_true_iff in Et. destruct Et as [Hl Hm].
        apply texts_not_items in Hl, Hm; [|done..]. subst. constructor.
      * rewrite elements_equivalent_iff in He. destruct He as [Hlen He].
        apply paired_items; [by apply Hx|by apply Hy|done|]. intros j a c Ha Hc. specialize (He j a c Ha Hc).
        apply list_elem_of_lookup_2 in Ha, Hc. split; [|by eapply Hrec].
        unfold id_of. rewrite (equivalent_id a c _ (proj1 (doc_wf_list_elem _ _ Hx Ha)) (id_list_elem _ _ El Ha) He). done.
  - destruct y as [| | | | |e]; try done. rewrite Forall_forall in IH.
    pose proof Hx as [[Hd _]%json_wf_dict _]. pose proof Hy as [[Hew _]%json_wf_dict _].
    rewrite members_equivalent_iff in He by done.
    assert (forall k, option_Forall2 mutual (dget k d) (dget k e)) as Hall.
    { intros k. specialize (He k). destruct (dget k d) as [a|] eqn:Ea, (dget k e) as [c|] eqn:Eb; inversion He; subst;
        constructor. eapply (IH (k, a)); [by apply dget_Some_elem|..|done]; eauto using doc_wf_dict_get. }
    split; apply retained_dict; try done; intros k; by destruct (mutual_keyed _ _ (Hall k)).
Qed.

Lemma parts_no_conflict value (keys : list string) (f : string -> merge_out) :
  mo_conflicts (collect value ((fun k => (k, f k)) <$> keys)) = [] <-> forall k, k ∈ keys -> mo_conflicts (f k) = [].
Proof.
  unfold collect. simpl. rewrite <-list_fmap_compose, List.concat_nil_Forall, Forall_fmap, Forall_forall. done.
Qed.

(** One side is the baseline, the other is [x]. *)
Definition one_sided (b d l x : option json) : Prop := (l = b /\ x = d) \/ (d = b /\ x = l).

Lemma one_sided_map (f : option json -> option json) b d l x : one_sided b d l x -> one_sided (f b) (f d) (f l) (f x).
Proof. intros [[-> ->]|[-> ->]]; [by left|by right]. Qed.

(** A key outside of all three parts is retained. *)
Lemma keyed_retained {V} (g : V -> option json) (f : V -> list (string * json)) (b x : V) (keys : list string)
    (P : string -> Prop) :
  (forall k, k ∈ dkeys (f b) -> k ∈ keys) ->
  (forall k, k ∈ keys -> P k <-> retained_opt (dget k (f b)) (dget k (f x))) ->
  (forall k, k ∈ keys -> P k) <-> forall k, retained_opt (dget k (f b)) (dget k (f x)).
Proof.
  intros Hkeys HP. split; [|intros Hall k Hk; by apply HP]. intros Hall k.
  destruct (dget k (f b)) as [v|] eqn:E; [|done]. rewrite <-E. apply dget_Some_key, Hkeys in E. by apply HP, Hall.
Qed.

Lemma incompatible_retained b x :
  b = None \/ is_Some x -> missing_or_dict b && missing_or_dict x = false ->
  missing_or_id_list b && missing_or_id_list x = false -> retained_opt b x.
Proof.
  intros Hp H4 H5. destruct b as [[]|], x as [[]|]; simpl in Hp; try done; try (by destruct Hp as [|[]]).
  unfold retained_opt. cbn [retained]. unfold missing_or_id_list in H5. by rewrite H5.
Qed.

(** When only one side changed, there is no conflict exactly when that side kept every
    identified object. *)
Lemma merge_conflict_free b d l path x :
  one_sided b d l x -> doc_wf_opt b -> doc_wf_opt x ->
  mo_conflicts (merge types [] b d l path) = [] <-> retained_opt b x.
Proof.
  revert b d l path x.
  refine (merge_ind (fun b d l path => forall x, one_sided b d l x -> doc_wf_opt b -> doc_wf_opt x ->
    mo_conflicts (merge types [] b d l path) = [] <-> retained_opt b x) _).
  intros b d l path Hm Hi x Hside Hb Hx. rewrite merge_unfold. unfold merge_step.
  destruct (bool_decide (d = None) && bool_decide (l = None)) eqn:E1.
  { apply andb_true_iff in E1 as [->%bool_decide_eq_true ->%bool_decide_eq_true].
    by destruct Hside as [[<- ->]|[<- ->]]. }
  destruct (equiv path d l) eqn:E2.
  { destruct d as [d|], l as [l|]; simpl in E2; try done. split; [intros _|done].
    destruct Hside as [[<- ->]|[<- ->]].
    - apply (equivalent_mutual d path l); [by apply Hx|by apply Hb|done].
    - apply (equivalent_mutual d path l); [by apply Hb|by apply Hx|done]. }
  destruct (bool_decide (is_Some b) && _) eqn:E3.
  { split; [done|]. intros Hr. exfalso. apply andb_true_iff in E3 as [[b' ->]%bool_decide_eq_true E3].
    apply orb_true_iff in E3. rewrite !bool_decide_eq_true in E3. destruct Hside as [[-> ->]|[-> ->]];
    destruct E3 as [E3|E3]; simplify_eq; done. }
  destruct (missing_or_dict b && missing_or_dict d && missing_or_dict l) eqn:E4.
  { unfold merge_members. rewrite parts_no_conflict. rewrite !andb_true_iff in E4. destruct E4 as [[Db Dd] Dl].
    assert (missing_or_dict x = true) as Dx by (by destruct Hside as [[-> ->]|[-> ->]]).
    rewrite (keyed_retained id members b x (dict_fromkeys _)).
    - destruct (dict_cases b Db) as [->|[m ->]]; [done|]. destruct (dict_cases x Dx) as [->|[e ->]].
      { exfalso. by destruct Hside as [[-> <-]|[-> <-]]. }
      symmetry. apply retained_dict. by destruct (Hb _ eq_refl) as [[? _]%json_wf_dict _].
    - intros k Hk. apply elem_of_dict_fromkeys. set_solver.
    - intros k Hk. rewrite elem_of_dict_fromkeys in Hk. apply Hm; [done| |auto using doc_wf_member..].
      by apply (one_sided_map (fun v => dget k (members v))). }
  destruct (missing_or_id_list b && missing_or_id_list d && missing_or_id_list l) eqn:E5.
  { unfold merge_items. rewrite parts_no_conflict. rewrite !andb_true_iff in E5. destruct E5 as [[Db Dd] Dl].
    assert (missing_or_id_list x = true) as Dx by (by destruct Hside as [[-> ->]|[-> ->]]).
    rewrite (keyed_retained id item_map b x (dict_fromkeys _)).
    - destruct (id_list_cases b Db) as [->|(m & -> & Hml)]; [done|]. destruct (id_list_cases x Dx) as [->|(e & -> & He)].
      { exfalso. by destruct Hside as [[-> <-]|[-> <-]]. }
      symmetry. apply retained_list; [|done..]. by apply (doc_wf_ids (Some (JList m))).
    - intros k Hk. apply elem_of_dict_fromkeys. apply (dkeys_dict_by id_of) in Hk. rewrite !fmap_app, !elem_of_app. right; left. exact Hk.
    - intros k Hk. rewrite elem_of_dict_fromkeys in Hk. apply Hi; [done| |auto using doc_wf_item..].
      by apply (one_sided_map (fun v => dget k (item_map v))). }
  assert (retained_opt b x) as Hr.
  { apply incompatible_retained.
    - destruct (both_or_new _ _ _ E1 E3) as [[-> _]|(_ & ? & ?)]; [by left|right]. by destruct Hside as [[_ ->]|[_ ->]].
    - destruct Hside as [[-> ->]|[-> ->]]; revert E4; destruct (missing_or_dict b); simpl; by rewrite ?andb_true_r.
    - destruct Hside as [[-> ->]|[-> ->]]; revert E5; destruct (missing_or_id_list b); simpl; by rewrite ?andb_true_r. }
  split; [done|intros _]. destruct (equiv path d b) eqn:E6; [done|]. destruct (equiv path l b) eqn:E7; [done|]. exfalso.
  pose proof (equiv_value_refl b path (fun y Hy => proj1 (Hb y Hy))).
  destruct Hside as [[-> _]|[-> _]]; congruence.
Qed.

(** ** Merging without edits *)

(** [r] has everything of [l], member by member and object by object, up to equivalence;
    lists of objects may be in another order. *)
Inductive follows : string -> json -> json -> Prop :=
| follows_equiv p r l : equiv_at r p l = true -> follows p r l
| follows_members p r l :
    (forall k, k ∈ dkeys r <-> k ∈ dkeys l) ->
    (forall k x y, dget k r = Some x -> dget k l = Some y -> follows (member_path p k) x y) ->
    follows p (JDict r) (JDict l)
| follows_items p r l :
    (forall y, y ∈ l -> exists x, x ∈ r /\ follows (item_path p (id_of y)) x y) ->
    (forall x, x ∈ r -> exists y, y ∈ l /\ follows (item_path p (id_of y)) x y) ->
    follows p (JList r) (JList l).

Definition follows_opt (p : string) : option json -> option json -> Prop := option_Forall2 (follows p).

Lemma members_follow_live p (keys : list string) (f : string -> merge_out) (l : list (string * json)) :
  NoDup keys -> (forall k, k ∈ dkeys l -> k ∈ keys) ->
  (forall k, k ∈ keys -> follows_opt (member_path p k) (mo_value (f k)) (dget k l)) ->
  follows p (JDict (present ((fun k => (k, f k)) <$> keys))) (JDict l).
Proof.
  intros Hnd Hsub Hall. apply follows_members.
  - intros k. rewrite <-!dget_is_Some, dget_present by done. case_decide as Hk.
    + destruct (Hall k Hk); rewrite ?is_Some_alt; done.
    + split; [by intros []|]. intros Hl%dget_is_Some. destruct (Hk (Hsub k Hl)).
  - intros k x y. rewrite dget_present by done. case_decide as Hk; [|done]. intros Hx Hy.
    specialize (Hall k Hk). rewrite Hx, Hy in Hall. by inversion Hall.
Qed.

Lemma elem_of_present (keys : list string) (f : string -> merge_out) k v :
  (k, v) ∈ present ((fun k => (k, f k)) <$> keys) <-> k ∈ keys /\ mo_value (f k) = Some v.
Proof.
  unfold present. rewrite list_elem_of_omap. split.
  - intros ([k' o] & (i & -> & Hi)%list_elem_of_fmap & He). simpl in He. destruct (mo_value (f i)) eqn:E; simpl in He; naive_solver.
  - intros [Hk Hv]. exists (k, f k). split; [by apply (list_elem_of_fmap_2 (fun k => (k, f k)))|]. simpl. by rewrite Hv.
Qed.

Lemma items_follow_live p (keys : list string) (f : string -> merge_out) (l : list json) :
  NoDup (id_of <$> l) -> (forall y, y ∈ l -> id_of y ∈ keys) ->
  (forall i, i ∈ keys -> follows_opt (item_path p i) (mo_value (f i)) (dget i (dict_by id_of l))) ->
  follows p (JList (snd <$> present ((fun i => (i, f i)) <$> keys))) (JList l).
Proof.
  intros Hnd Hsub Hall. apply follows_items.
  - intros y Hy. specialize (Hall (id_of y) (Hsub y Hy)). rewrite (dict_by_elem id_of l y) in Hall by done.
    inversion Hall as [x ? Hf Hx|]; subst. exists x. split; [|done]. apply list_elem_of_fmap. exists (id_of y, x).
    split; [done|]. apply elem_of_present. auto.
  - intros x ([i x'] & -> & [Hi Hv]%elem_of_present)%list_elem_of_fmap. specialize (Hall i Hi). rewrite Hv in Hall.
    inversion Hall as [? y Hf E Hy|]; subst. symmetry in Hy. apply dict_by_Some in Hy as [Hy <-]. eauto.
Qed.

(** When the design is as the baseline and PostgreSQL kept its objects, the merged
    document has everything of PostgreSQL. *)
Lemma merge_no_edits b l path :
  doc_wf_opt b -> doc_wf_opt l -> retained_opt b l ->
  follows_opt path (mo_value (merge types [] b b l path)) l.
Proof.
  enough (forall d, d = b -> doc_wf_opt b -> doc_wf_opt l -> retained_opt b l ->
    follows_opt path (mo_value (merge types [] b d l path)) l) as Hgen by (by apply Hgen).
  intros d. revert b d l path.
  refine (merge_ind (fun b d l path => d = b -> doc_wf_opt b -> doc_wf_opt l -> retained_opt b l ->
    follows_opt path (mo_value (merge types [] b d l path)) l) _).
  intros b d l path Hm Hi -> Hb Hl Hr. rewrite merge_unfold. unfold merge_step.
  destruct (bool_decide (b = None) && bool_decide (l = None)) eqn:E1.
  { apply andb_true_iff in E1 as [_ ->%bool_decide_eq_true]. constructor. }
  destruct (equiv path b l) eqn:E2.
  { destruct b as [b|], l as [l|]; simpl in E2; try done; constructor. by apply follows_equiv. }
  destruct (bool_decide (is_Some b) && _) eqn:E3.
  { exfalso. apply andb_true_iff in E3 as [[b' ->]%bool_decide_eq_true E3].
    rewrite orb_true_iff, !bool_decide_eq_true in E3. destruct E3 as [|]; [done|by subst]. }
  destruct (missing_or_dict b && missing_or_dict b && missing_or_dict l) eqn:E4.
  { rewrite !andb_true_iff in E4. destruct E4 as [[Db _] Dl].
    destruct (dict_cases l Dl) as [->|[e ->]]; [by destruct b; [destruct Hr|]|]. unfold merge_members. simpl. constructor.
    apply members_follow_live; [apply NoDup_dict_fromkeys|intros; apply elem_of_dict_fromkeys; set_solver|].
    intros k Hk. rewrite elem_of_dict_fromkeys in Hk. apply Hm; auto using doc_wf_member.
    destruct (dict_cases b Db) as [->|[m ->]]; [done|]. apply (retained_dict m e); [|done].
    by destruct (Hb _ eq_refl) as [[? _]%json_wf_dict _]. }
  destruct (missing_or_id_list b && missing_or_id_list b && missing_or_id_list l) eqn:E5.
  { rewrite !andb_true_iff in E5. destruct E5 as [[Db _] Dl].
    destruct (id_list_cases l Dl) as [->|(e & -> & He)]; [by destruct b; [destruct Hr|]|]. unfold merge_items. simpl. constructor.
    apply items_follow_live; [by apply (doc_wf_ids (Some (JList e)))| |].
    - intros y Hy. apply elem_of_dict_fromkeys, list_elem_of_fmap_2. rewrite !elem_of_app. by right; right.
    - intros i Hk. rewrite elem_of_dict_fromkeys in Hk. apply Hi; auto using doc_wf_item.
      destruct (id_list_cases b Db) as [->|(m & -> & Hml)]; [done|]. apply (retained_list m e); [|done..].
      by apply (doc_wf_ids (Some (JList m))). }
  rewrite equiv_value_refl by (intros; by apply Hb). simpl.
  destruct l as [l|]; constructor. apply follows_equiv, equivalent_refl, Hl. done.
Qed.
End props.
