(* ===== verification/MergeTheorems.v ===== *)
(** * Theorems on reconciliation

    The properties of the three-way merge, and what they say about designs: without
    external changes a reconciliation is free of conflicts exactly when the design still
    has every object of the baseline. *)

From stdpp Require Import pretty.
From Stdlib Require Import Ascii String.
From S2P Require Import Prelude Json PyString DesignModels DefinitionAnalysis DesignValidation TypeOrder ValidationSpec.
From S2P Require Import DesignDocument MigrationModels CheckExpressions DesignMerge MergeProps.
Open Scope string_scope.
Open Scope list_scope.

(** ** Documents of designs *)

Abbreviation document := (content_document false).

Lemma strs_wf l : json_wf (json_strs l).
Proof. apply json_wf_list. apply Forall_fmap, Forall_forall. done. Qed.

Lemma opt_wf o : json_wf (json_opt o).
Proof. by destruct o. Qed.

Lemma list_wf {A} (f : A -> json) l : (forall x, json_wf (f x)) -> json_wf (JList (f <$> l)).
Proof. intros Hf. apply json_wf_list, Forall_fmap, Forall_forall. intros x _. apply Hf. Qed.

Create HintDb wf_documents.
#[local] Hint Resolve strs_wf opt_wf : wf_documents.
#[local] Hint Extern 2 (json_wf _) => exact I : wf_documents.

(** The members of a record have distinct names. *)
Ltac record_wf :=
  intros; apply json_wf_dict; split;
    [apply (bool_decide_unpack _); vm_compute; exact I
    |rewrite ?Forall_cons; repeat split; cbn [snd]; auto with wf_documents].

Lemma check_document_wf c : json_wf (DesignDomainCheck_document c). Proof. record_wf. Qed.
Lemma type_document_wf t : json_wf (DesignType_document false t).
Proof. record_wf. apply list_wf, check_document_wf. Qed.
Lemma column_document_wf c : json_wf (DesignColumn_document false c). Proof. record_wf. Qed.
Lemma key_document_wf c : json_wf (DesignKeyConstraint_document false c). Proof. record_wf. Qed.
Lemma constraint_document_wf c : json_wf (DesignCheckConstraint_document false c). Proof. record_wf. Qed.
Lemma index_document_wf c : json_wf (DesignIndex_document false c). Proof. record_wf. Qed.
Lemma table_document_wf t : json_wf (DesignTable_document false t).
Proof.
  record_wf; apply list_wf; auto using column_document_wf, key_document_wf, constraint_document_wf, index_document_wf.
Qed.
Lemma relationship_document_wf r : json_wf (DesignRelationship_document false r). Proof. record_wf. Qed.
Lemma function_document_wf f : json_wf (DesignFunction_document false f). Proof. record_wf. Qed.
Lemma view_document_wf v : json_wf (DesignView_document false v).
Proof. record_wf. by destruct (vw_populate_on_create v). Qed.
Lemma trigger_document_wf t : json_wf (DesignTrigger_document false t). Proof. record_wf. Qed.

Lemma document_wf content : json_wf (document content).
Proof.
  record_wf; apply list_wf; auto using type_document_wf, table_document_wf, relationship_document_wf, function_document_wf,
    view_document_wf, trigger_document_wf.
Qed.

(** *** Identified objects *)

Lemma texts_distinct l : ids_distinct (json_strs l).
Proof.
  unfold json_strs. split.
  - destruct l as [|s l]; [constructor|done].
  - apply (Forall_map_prop ids_distinct), Forall_fmap, Forall_forall. done.
Qed.

Lemma opt_distinct o : ids_distinct (json_opt o).
Proof. by destruct o. Qed.

Lemma objects_distinct {A} (f : A -> json) (key : A -> string) l :
  (forall x, item_id (f x) = Some (key x)) -> NoDup (key <$> l) -> (forall x, x ∈ l -> ids_distinct (f x)) ->
  ids_distinct (JList (f <$> l)).
Proof.
  intros Hid Hnd Hall. split.
  - intros _. rewrite <-list_fmap_compose. erewrite list_fmap_ext; [exact Hnd|]. intros i x _. simpl. unfold id_of. by rewrite Hid.
  - apply (Forall_map_prop ids_distinct), Forall_fmap, Forall_forall. done.
Qed.

(** Objects without IDs are not compared by ID. *)
Lemma anonymous_distinct {A} (f : A -> json) l :
  (forall x, item_id (f x) = None) -> (forall x, ids_distinct (f x)) -> ids_distinct (JList (f <$> l)).
Proof.
  intros Hid Hall. split.
  - destruct l as [|x l]; [constructor|]. cbn [id_list]. simpl. rewrite Hid. done.
  - apply (Forall_map_prop ids_distinct), Forall_fmap, Forall_forall. intros. apply Hall.
Qed.

Ltac record_distinct :=
  apply (Forall_map_prop (fun kv : string * json => let (_, x) := kv in ids_distinct x));
  rewrite ?Forall_cons, Forall_nil; repeat match goal with |- _ /\ _ => split end; cbn beta iota; try exact I;
  auto using texts_distinct, opt_distinct.

Lemma type_document_distinct t : ids_distinct (DesignType_document false t).
Proof. record_distinct. apply anonymous_distinct; [done|]. intros. record_distinct. Qed.
Lemma column_document_distinct c : ids_distinct (DesignColumn_document false c). Proof. record_distinct. Qed.
Lemma key_document_distinct c : ids_distinct (DesignKeyConstraint_document false c). Proof. record_distinct. Qed.
Lemma constraint_document_distinct c : ids_distinct (DesignCheckConstraint_document false c). Proof. record_distinct. Qed.
Lemma index_document_distinct c : ids_distinct (DesignIndex_document false c). Proof. record_distinct. Qed.
Lemma relationship_document_distinct r : ids_distinct (DesignRelationship_document false r). Proof. record_distinct. Qed.
Lemma function_document_distinct f : ids_distinct (DesignFunction_document false f). Proof. record_distinct. Qed.
Lemma view_document_distinct v : ids_distinct (DesignView_document false v).
Proof. record_distinct. by destruct (vw_populate_on_create v). Qed.
Lemma trigger_document_distinct t : ids_distinct (DesignTrigger_document false t). Proof. record_distinct. Qed.

Lemma table_document_distinct t : NoDup (table_object_ids t) -> ids_distinct (DesignTable_document false t).
Proof.
  intros [_ Hids]%NoDup_cons. apply NoDup_app in Hids as (Hc & _ & Hids). apply NoDup_app in Hids as (Hk & _ & Hids).
  apply NoDup_app in Hids as (Hch & _ & Hi). record_distinct.
  - by apply (objects_distinct _ dc_id); auto using column_document_distinct.
  - by apply (objects_distinct _ dk_id); auto using key_document_distinct.
  - by apply (objects_distinct _ ck_id); auto using constraint_document_distinct.
  - by apply (objects_distinct _ ix_id); auto using index_document_distinct.
Qed.

(** The document of a design whose objects have their own IDs is well formed. *)
Lemma document_doc_wf content : NoDup (all_object_ids content) -> doc_wf (document content).
Proof.
  intros Hids. split; [apply document_wf|]. pose proof (table_ids_NoDup _ Hids) as Htables. unfold all_object_ids in Hids.
  apply NoDup_app in Hids as (Hty & _ & Hids). apply NoDup_app in Hids as (Htb & _ & Hids).
  apply NoDup_app in Hids as (Hr & _ & Hids). apply NoDup_app in Hids as (Hf & _ & Hids).
  apply NoDup_app in Hids as (Hv & _ & Htr). record_distinct.
  - by apply (objects_distinct _ dt_id); auto using type_document_distinct.
  - apply (objects_distinct _ tb_id); [done..|]. intros t Ht. apply table_document_distinct.
    apply list_elem_of_split in Ht as (l & r & Hsplit). rewrite Hsplit, fmap_app, fmap_cons, concat_app in Htb.
    apply NoDup_app in Htb as (_ & _ & Htb). cbn [concat] in Htb. by apply NoDup_app in Htb as [? _].
  - by apply (objects_distinct _ rl_id); auto using relationship_document_distinct.
  - by apply (objects_distinct _ fn_id); auto using function_document_distinct.
  - by apply (objects_distinct _ vw_id); auto using view_document_distinct.
  - by apply (objects_distinct _ tr_id); auto using trigger_document_distinct.
Qed.

(** ** Kept objects *)

(** Every object of [l] is still in [l'], and the kept ones satisfy [R]. *)
Definition keeps {A} (key : A -> string) (R : A -> A -> Prop) (l l' : list A) : Prop :=
  forall x, x ∈ l -> exists y, dget (key x) (dict_by key l') = Some y /\ R x y.

Abbreviation keeps_all key := (keeps key (fun _ _ => True)).

Record keeps_table (t t' : DesignTable) : Prop := {
  kt_columns : keeps_all dc_id (tb_columns t) (tb_columns t');
  kt_keys : keeps_all dk_id (tb_keys t) (tb_keys t');
  kt_checks : keeps_all ck_id (tb_checks t) (tb_checks t');
  kt_indexes : keeps_all ix_id (tb_indexes t) (tb_indexes t');
}.

Record keeps_objects (b d : SchemiiDesignContent) : Prop := {
  ko_types : keeps_all dt_id (content_types b) (content_types d);
  ko_tables : keeps tb_id keeps_table (content_tables b) (content_tables d);
  ko_relationships : keeps_all rl_id (content_relationships b) (content_relationships d);
  ko_functions : keeps_all fn_id (content_functions b) (content_functions d);
  ko_views : keeps_all vw_id (content_views b) (content_views d);
  ko_triggers : keeps_all tr_id (content_triggers b) (content_triggers d);
}.

Lemma dict_by_documents {A} (f : A -> json) (key : A -> string) (l : list A) i :
  (forall x, item_id (f x) = Some (key x)) -> dget i (dict_by id_of (f <$> l)) = f <$> dget i (dict_by key l).
Proof.
  intros Hid. unfold dict_by. assert (forall acc, dict_fill id_of (fun x => x) (f <$> l) (map (fun kv => (kv.1, f kv.2)) acc) =
    map (fun kv => (kv.1, f kv.2)) (dict_fill key (fun x => x) l acc)) as Hgen.
  { induction l as [|x l IH]; intros acc; [done|]. rewrite fmap_cons, !dict_fill_cons, <-IH. f_equal.
    unfold id_of at 1. rewrite Hid. symmetry. apply (dset_map f). }
  specialize (Hgen []). simpl in Hgen. rewrite Hgen. apply dget_map.
Qed.

Lemma objects_retained {A} (f : A -> json) (key : A -> string) (R : A -> A -> Prop) l l' :
  (forall x, item_id (f x) = Some (key x)) -> (forall x y, retained (f x) (f y) <-> R x y) ->
  retained (JList (f <$> l)) (JList (f <$> l')) <-> keeps key R l l'.
Proof.
  intros Hid HR. assert (forall k, id_list (JList (f <$> k)) = true) as Hil.
  { intros k. apply forallb_forall. intros y (x & -> & _)%list_elem_of_In%list_elem_of_fmap. by rewrite Hid. }
  cbn [retained]. rewrite !Hil. simpl.
  rewrite (Forall_map_prop (fun x => match dget (id_of x) (dict_by id_of (f <$> l')) with Some y => retained x y | None => False end)).
  rewrite Forall_fmap, Forall_forall. unfold keeps. apply forall_proper. intros x. apply forall_proper. intros _. simpl.
  unfold id_of at 1. rewrite Hid, (dict_by_documents f key) by done.
  destruct (dget (key x) (dict_by key l')) as [y|]; simpl; naive_solver.
Qed.

Lemma texts_retained l l' : retained (json_strs l) (json_strs l').
Proof. unfold json_strs. cbn [retained]. destruct l as [|s l]; [by case_match; constructor|done]. Qed.

Lemma opt_retained o v : retained (json_opt o) v.
Proof. by destruct o. Qed.

Lemma anonymous_retained {A} (f : A -> json) l l' : (forall x, item_id (f x) = None) ->
  retained (JList (f <$> l)) (JList (f <$> l')).
Proof.
  intros Hid. cbn [retained]. destruct l as [|x l]; [by case_match; constructor|]. cbn [id_list]. simpl. by rewrite Hid.
Qed.

(** Records of the same fields are compared field by field. *)
Lemma record_retained (b d : list (string * json)) :
  dkeys b = dkeys d -> dwf d -> retained (JDict b) (JDict d) <-> Forall2 (fun x y => retained x.2 y.2) b d.
Proof.
  intros Hkeys Hd. change (retained (JDict b) (JDict d)) with
    (Forall (fun P => P) (map (fun kv : string * json => match kv with (k, x) =>
      match dget k d with Some y => retained x y | None => False end end) b)).
  rewrite (Forall_map_prop (fun kv : string * json => let (k, x) := kv in
    match dget k d with Some y => retained x y | None => False end)).
  assert (forall d0 d1, d = d0 ++ d1 -> dkeys b = dkeys d1 ->
    Forall (fun kv : string * json => let (k, x) := kv in match dget k d with Some y => retained x y | None => False end) b <->
    Forall2 (fun x y => retained x.2 y.2) b d1) as Hgen; [|by apply (Hgen [] d)].
  clear Hkeys. induction b as [|[k x] b IH]; intros d0 [|[k' y] d1] Hsplit Hk; try done.
  injection Hk as -> Hk. rewrite Forall_cons, Forall2_cons. simpl.
  rewrite (dget_elem_wf k' d y Hd) by (rewrite Hsplit; set_solver). f_equiv.
  apply (IH (d0 ++ [(k', y)])); [by rewrite <-app_assoc|done].
Qed.

Ltac as_record v := let r := eval hnf in v in change v with r.
Ltac fields_retained :=
  match goal with |- context [retained ?b ?d] => as_record b; as_record d end;
  rewrite record_retained by (reflexivity || (apply (bool_decide_unpack _); vm_compute; exact I));
  rewrite ?Forall2_cons, Forall2_nil; cbn [snd].
Ltac plain_fields :=
  intros; fields_retained; repeat match goal with |- _ /\ _ => split end;
  auto using texts_retained, opt_retained; exact I || idtac.

Lemma type_retained t t' : retained (DesignType_document false t) (DesignType_document false t').
Proof. plain_fields. by apply anonymous_retained. Qed.
Lemma column_retained c c' : retained (DesignColumn_document false c) (DesignColumn_document false c').
Proof. plain_fields. Qed.
Lemma key_retained c c' : retained (DesignKeyConstraint_document false c) (DesignKeyConstraint_document false c').
Proof. plain_fields. Qed.
Lemma constraint_retained c c' : retained (DesignCheckConstraint_document false c) (DesignCheckConstraint_document false c').
Proof. plain_fields. Qed.
Lemma index_retained c c' : retained (DesignIndex_document false c) (DesignIndex_document false c').
Proof. plain_fields. Qed.
Lemma relationship_retained c c' : retained (DesignRelationship_document false c) (DesignRelationship_document false c').
Proof. plain_fields. Qed.
Lemma function_retained c c' : retained (DesignFunction_document false c) (DesignFunction_document false c').
Proof. plain_fields. Qed.
Lemma view_retained c c' : retained (DesignView_document false c) (DesignView_document false c').
Proof. plain_fields. by destruct (vw_populate_on_create c). Qed.
Lemma trigger_retained c c' : retained (DesignTrigger_document false c) (DesignTrigger_document false c').
Proof. plain_fields. Qed.

Lemma table_retained t t' : retained (DesignTable_document false t) (DesignTable_document false t') <-> keeps_table t t'.
Proof.
  fields_retained.
  rewrite (objects_retained _ dc_id (fun _ _ => True)), (objects_retained _ dk_id (fun _ _ => True)),
    (objects_retained _ ck_id (fun _ _ => True)), (objects_retained _ ix_id (fun _ _ => True))
    by (done || intros; split; auto using column_retained, key_retained, constraint_retained, index_retained).
  split; [|by intros []]. intros (_ & _ & ? & ? & ? & ? & _). by split.
Qed.

Lemma document_retained b d : retained (document b) (document d) <-> keeps_objects b d.
Proof.
  fields_retained.
  rewrite (objects_retained _ dt_id (fun _ _ => True)), (objects_retained _ tb_id keeps_table),
    (objects_retained _ rl_id (fun _ _ => True)), (objects_retained _ fn_id (fun _ _ => True)),
    (objects_retained _ vw_id (fun _ _ => True)), (objects_retained _ tr_id (fun _ _ => True))
    by (done || apply table_retained || intros; split; auto using type_retained, relationship_retained, function_retained,
        view_retained, trigger_retained).
  split; [|by intros []]. intros (? & ? & ? & ? & ? & ? & _). by split.
Qed.

(** ** Theorems *)

Section theorems.
Context `{SqlglotTrees} `{Sha256}.
Variable types : column_types_by_table.

Abbreviation reconcile b d l res := (merge types res (Some (document b)) (Some (document d)) (Some (document l)) "").

Lemma document_wf_opt content : NoDup (all_object_ids content) -> doc_wf_opt (Some (document content)).
Proof. intros Hids x [= <-]. by apply document_doc_wf. Qed.

Lemma no_drift b d : NoDup (all_object_ids b) -> NoDup (all_object_ids d) ->
  exists v, mo_value (reconcile b d b []) = Some v /\ json_same v (document d) /\ mo_external (reconcile b d b []) = [].
Proof.
  intros Hb Hd. destruct (merge_no_drift types (Some (document b)) (Some (document d)) "") as [Hv Hx];
    [by apply document_wf_opt..|]. inversion Hv; subst. eauto.
Qed.

Lemma one_sided_conflicts b d : NoDup (all_object_ids b) -> NoDup (all_object_ids d) ->
  mo_conflicts (reconcile b d b []) = [] <-> keeps_objects b d.
Proof.
  intros Hb Hd. rewrite <-document_retained.
  apply (merge_conflict_free types (Some (document b)) (Some (document d)) (Some (document b)) "" (Some (document d))); [by left|by apply document_wf_opt..].
Qed.

(** A reconciliation in which PostgreSQL still is as the baseline gives the desired
    design back and reports no external change. *)
Theorem no_drift_keeps_design b d :
  NoDup (all_object_ids b) -> NoDup (all_object_ids d) ->
  (exists v, mo_value (reconcile b d b []) = Some v /\ json_same v (document d)) /\
  mo_external (reconcile b d b []) = [].
Proof.
  intros Hb Hd. destruct (no_drift b d Hb Hd) as (v & ? & ? & ?). eauto.
Qed.

(** When only one side changed since the baseline, reconciliation is free of conflicts
    exactly when that side still has every object of the baseline: additions and edits of
    either side never conflict, and every removal does. *)
Theorem conflict_free_iff_objects_kept b d :
  NoDup (all_object_ids b) -> NoDup (all_object_ids d) ->
  (mo_conflicts (reconcile b d b []) = [] <-> keeps_objects b d) /\
  (mo_conflicts (reconcile b b d []) = [] <-> keeps_objects b d).
Proof.
  intros Hb Hd. split; [by apply one_sided_conflicts|]. rewrite <-document_retained.
  apply (merge_conflict_free types (Some (document b)) (Some (document b)) (Some (document d)) "" (Some (document d))); [by right|by apply document_wf_opt..].
Qed.

(** When the design is as the baseline and PostgreSQL kept its objects, the merged
    document has everything PostgreSQL has, up to the order of objects and equivalent
    expressions: external changes are incorporated, none is lost. *)
Theorem external_changes_incorporated b l :
  NoDup (all_object_ids b) -> NoDup (all_object_ids l) -> keeps_objects b l ->
  exists v, mo_value (reconcile b b l []) = Some v /\ follows types "" v (document l).
Proof.
  intros Hb Hl Hk. assert (follows_opt types "" (mo_value (reconcile b b l [])) (Some (document l))) as Hf
    by (apply merge_no_edits; by (apply document_wf_opt || apply document_retained)).
  inversion Hf; subst. eauto.
Qed.

(** Resolutions remove exactly the conflicts they name and change no external change
    that is reported; resolutions that keep the design do not change the merged document. *)
Theorem resolutions_settle_conflicts b d l res path :
  mo_external (merge types res b d l path) = mo_external (merge types [] b d l path) /\
  mo_conflicts (merge types res b d l path) =
    filter (fun c => dget (mcf_id c) res = None) (mo_conflicts (merge types [] b d l path)) /\
  (Forall (fun kv => kv.2 = KeepDesign) res ->
   mo_value (merge types res b d l path) = mo_value (merge types [] b d l path)).
Proof. destruct (merge_resolved types res b d l path) as (? & -> & ?). done. Qed.

(** A design that removes an object conflicts with a PostgreSQL nobody changed, and
    keeping the design does not help: the resolved document is the same design again, so
    the next reconciliation, whose baseline is the live schema, reports the conflict
    again. *)
Theorem removal_conflicts_forever b d res :
  NoDup (all_object_ids b) -> NoDup (all_object_ids d) -> ~ keeps_objects b d ->
  Forall (fun kv => kv.2 = KeepDesign) res ->
  mo_conflicts (reconcile b d b []) <> [] /\
  exists v, mo_value (reconcile b d b res) = Some v /\ json_same v (document d).
Proof.
  intros Hb Hd Hn Hres. split.
  - intros Hc. by apply Hn, one_sided_conflicts.
  - destruct (merge_resolved types res (Some (document b)) (Some (document d)) (Some (document b)) "") as (_ & _ & ->); [|done].
    destruct (no_drift b d Hb Hd) as (v & ? & ? & ?). eauto.
Qed.
End theorems.

(** ** Witnesses *)

(** A parser that reads no CHECK expression, so that only equal texts agree. *)
Definition sample_trees : SqlglotTrees :=
  {| parse_one := fun _ => None; is_instance := fun _ _ => false; column_table := fun _ => false;
     node_name := fun _ => ""; literal_is_string := fun _ => false; datatype_is := fun _ _ => false;
     tree_eq := fun _ _ => false |}.
Definition plain_sha : Sha256 := {| sha256_hex := fun s => s |}.
#[local] Existing Instances sample_trees plain_sha.

(** People without their orders. *)
Definition people_only : SchemiiDesignContent :=
  {| content_types := []; content_tables := [keyed_table "t1" "people" [int_column "c1" "id"]];
     content_relationships := []; content_functions := []; content_views := []; content_triggers := [] |}.

Ltac distinct_ids := apply (bool_decide_unpack _); vm_compute; exact I.

Lemma no_drift_keeps_design_witness :
  mo_external (merge [] [] (Some (document people_only)) (Some (document shop_design)) (Some (document people_only)) "") = [].
Proof. apply (no_drift_keeps_design [] people_only shop_design); distinct_ids. Defined.

Lemma conflict_free_iff_objects_kept_witness : keeps_objects people_only shop_design /\ ~ keeps_objects shop_design people_only.
Proof.
  split.
  - apply (conflict_free_iff_objects_kept [] people_only shop_design); [distinct_ids..|]. vm_compute. reflexivity.
  - intros Hk. apply (conflict_free_iff_objects_kept [] shop_design people_only) in Hk; [|distinct_ids..].
    vm_compute in Hk. discriminate Hk.
Defined.

Lemma external_changes_incorporated_witness :
  exists v, mo_value (merge [] [] (Some (document people_only)) (Some (document people_only)) (Some (document shop_design)) "") = Some v /\
    follows [] "" v (document shop_design).
Proof.
  apply (external_changes_incorporated [] people_only shop_design); [distinct_ids..|].
  repeat split; intros x Hx; repeat (apply elem_of_cons in Hx as [->|Hx]); try (by apply not_elem_of_nil in Hx).
  eexists. split; [reflexivity|]. repeat split; intros y Hy; repeat (apply elem_of_cons in Hy as [->|Hy]);
    try (by apply not_elem_of_nil in Hy); eexists; split; reflexivity || exact I.
Defined.

Lemma removal_conflicts_forever_witness :
  mo_conflicts (merge [] [] (Some (document shop_design)) (Some (document people_only)) (Some (document shop_design)) "") <> [].
Proof.
  apply (removal_conflicts_forever [] shop_design people_only []); [distinct_ids..| |constructor].
  intros Hk. destruct (ko_tables _ _ Hk (keyed_table "t2" "orders" [int_column "c2" "id"; int_column "c3" "person"])) as (y & Hy & _).
  - right. left.
  - vm_compute in Hy. discriminate Hy.
Defined.
