(* ===== verification/DesignDecode.v ===== *)
(** * Reading design documents

    [SchemiiDesignContent.model_validate] on JSON documents: the validators of
    [designs/models.py] that run before the fields are read, the fields by their name or
    alias, their defaults, the refusal of other keys, and the constraints of each model.
    [None] is Pydantic's [ValidationError].

    Values of another JSON type than the field's are refused: Pydantic's coercions (a text
    for a boolean, say) have no use on documents that were dumped from designs. *)

From stdpp Require Import pretty.
From Stdlib Require Import Ascii String.
From S2P Require Import Prelude Json PyString DesignModels DefinitionAnalysis DesignValidation DeletionImpact DesignDocument.
Open Scope string_scope.
Open Scope list_scope.

(** ** Values *)

Definition as_text (v : json) : option string := match v with JStr s => Some s | _ => None end.
Definition as_bool (v : json) : option bool := match v with JBool b => Some b | _ => None end.
Definition as_optional {A} (f : json -> option A) (v : json) : option (option A) :=
  match v with JNull => Some None | _ => Some <$> f v end.
Definition as_list {A} (f : json -> option A) (v : json) : option (list A) :=
  match v with JList l => mapM f l | _ => None end.

(** A [Literal], by the texts of its values. *)
Definition as_literal {A} (text : A -> string) (values : list A) (v : json) : option A :=
  match v with JStr s => List.find (fun a => bool_decide (text a = s)) values | _ => None end.

Definition type_kinds : list type_kind := [TKEnum; TKDomain].
Definition identity_kinds : list identity_kind := [IdAlways; IdByDefault].
Definition key_kinds : list key_kind := [KPrimary; KUnique].
Definition fk_actions : list fk_action := [NoAction; Restrict; Cascade; SetNull; SetDefault].
Definition routine_kinds : list routine_kind := [RFunction; RProcedure].
Definition trigger_timings : list trigger_timing := [TBefore; TAfter; TInsteadOf].
Definition trigger_events : list trigger_event := [EInsert; EUpdate; EDelete; ETruncate].
Definition trigger_orientations : list trigger_orientation := [ORow; OStatement].
Definition view_kinds : list view_kind := [VView; VMaterialized].

(** ** Fields *)

Abbreviation fields := (list (string * json)).

(** The value of a field, by its alias or its name. *)
Definition find_field (name alias : string) (d : fields) : option json :=
  match dget alias d with Some v => Some v | None => dget name d end.

(** A required field. *)
Definition required {A} (name alias : string) (f : json -> option A) (d : fields) : option A :=
  v ← find_field name alias d; f v.

(** A field with a default. *)
Definition default {A} (a : A) (name alias : string) (f : json -> option A) (d : fields) : option A :=
  match find_field name alias d with Some v => f v | None => Some a end.

(** [extra="forbid"]. *)
Definition only_keys (known : list string) (d : fields) : bool := forallb (fun k => bool_decide (k ∈ known)) (dkeys d).

Definition checked_value {A} (check : A -> bool) (a : A) : option A := if check a then Some a else None.

(** A model: a dictionary of known keys, read and checked. *)
Definition model {A} (known : list string) (read : fields -> option A) (check : A -> bool) (v : json) : option A :=
  match v with
  | JDict d => if only_keys known d then a ← read d; checked_value check a else None
  | _ => None
  end.

(** ** Models *)

Definition decode_domain_check : json -> option DesignDomainCheck :=
  model ["name"; "expression"] (fun d =>
    name ← default None "name" "name" (as_optional as_text) d;
    expression ← required "expression" "expression" as_text d;
    Some {| dck_name := name; dck_expression := expression |}) DesignDomainCheck_check.

Definition type_fields : list string :=
  ["id"; "name"; "kind"; "enum_values"; "enumValues"; "base_type"; "baseType"; "default_expression"; "defaultExpression";
   "not_null"; "notNull"; "checks"; "collation"; "definition"].

Definition read_type (d : fields) : option DesignType :=
  id ← required "id" "id" as_text d;
  name ← required "name" "name" as_text d;
  kind ← required "kind" "kind" (as_literal type_kind_text type_kinds) d;
  enum_values ← default [] "enum_values" "enumValues" (as_list as_text) d;
  base_type ← default None "base_type" "baseType" (as_optional as_text) d;
  default_expression ← default None "default_expression" "defaultExpression" (as_optional as_text) d;
  not_null ← default false "not_null" "notNull" as_bool d;
  checks ← default [] "checks" "checks" (as_list decode_domain_check) d;
  collation ← default None "collation" "collation" (as_optional as_text) d;
  definition ← required "definition" "definition" as_text d;
  Some {| dt_id := id; dt_name := name; dt_kind := kind; dt_enum_values := enum_values; dt_base_type := base_type;
          dt_default_expression := default_expression; dt_not_null := not_null; dt_checks := checks;
          dt_collation := collation; dt_definition := definition |}.

(** A validator that runs before the fields are read. *)
Definition after_validator {A} (validator : json -> result definition_error json) (decode : json -> option A) (v : json)
    : option A := match validator v with Ok v' => decode v' | Err _ => None end.

Definition decode_column : json -> option DesignColumn :=
  model ["id"; "name"; "data_type"; "dataType"; "nullable"; "default_expression"; "defaultExpression"; "identity";
         "generated_expression"; "generatedExpression"; "generated_source_column_ids"; "generatedSourceColumnIds"] (fun d =>
    id ← required "id" "id" as_text d;
    name ← required "name" "name" as_text d;
    data_type ← required "data_type" "dataType" as_text d;
    nullable ← default true "nullable" "nullable" as_bool d;
    default_expression ← default None "default_expression" "defaultExpression" (as_optional as_text) d;
    identity ← default None "identity" "identity" (as_optional (as_literal identity_text identity_kinds)) d;
    generated_expression ← default None "generated_expression" "generatedExpression" (as_optional as_text) d;
    sources ← default [] "generated_source_column_ids" "generatedSourceColumnIds" (as_list as_text) d;
    Some {| dc_id := id; dc_name := name; dc_data_type := data_type; dc_nullable := nullable;
            dc_default_expression := default_expression; dc_identity := identity;
            dc_generated_expression := generated_expression; dc_generated_source_column_ids := sources |})
    DesignColumn_check.

Definition decode_key : json -> option DesignKeyConstraint :=
  model ["id"; "name"; "kind"; "column_ids"; "columnIds"] (fun d =>
    id ← required "id" "id" as_text d;
    name ← required "name" "name" as_text d;
    kind ← required "kind" "kind" (as_literal key_kind_text key_kinds) d;
    column_ids ← required "column_ids" "columnIds" (as_list as_text) d;
    Some {| dk_id := id; dk_name := name; dk_kind := kind; dk_column_ids := column_ids |}) DesignKeyConstraint_check.

Definition decode_check : json -> option DesignCheckConstraint :=
  model ["id"; "name"; "expression"; "column_ids"; "columnIds"] (fun d =>
    id ← required "id" "id" as_text d;
    name ← required "name" "name" as_text d;
    expression ← required "expression" "expression" as_text d;
    column_ids ← default [] "column_ids" "columnIds" (as_list as_text) d;
    Some {| ck_id := id; ck_name := name; ck_expression := expression; ck_column_ids := column_ids |})
    DesignCheckConstraint_check.

Definition decode_index : json -> option DesignIndex :=
  model ["id"; "name"; "method"; "column_ids"; "columnIds"; "include_column_ids"; "includeColumnIds"; "expression";
         "expression_source_column_ids"; "expressionSourceColumnIds"; "predicate"; "predicate_column_ids";
         "predicateColumnIds"; "unique"] (fun d =>
    id ← required "id" "id" as_text d;
    name ← required "name" "name" as_text d;
    method ← default "btree" "method" "method" as_text d;
    column_ids ← default [] "column_ids" "columnIds" (as_list as_text) d;
    include_column_ids ← default [] "include_column_ids" "includeColumnIds" (as_list as_text) d;
    expression ← default None "expression" "expression" (as_optional as_text) d;
    expression_sources ← default [] "expression_source_column_ids" "expressionSourceColumnIds" (as_list as_text) d;
    predicate ← default None "predicate" "predicate" (as_optional as_text) d;
    predicate_columns ← default [] "predicate_column_ids" "predicateColumnIds" (as_list as_text) d;
    unique ← default false "unique" "unique" as_bool d;
    Some {| ix_id := id; ix_name := name; ix_method := method; ix_column_ids := column_ids;
            ix_include_column_ids := include_column_ids; ix_expression := expression;
            ix_expression_source_column_ids := expression_sources; ix_predicate := predicate;
            ix_predicate_column_ids := predicate_columns; ix_unique := unique |}) DesignIndex_check.

Definition decode_table : json -> option DesignTable :=
  model ["id"; "name"; "columns"; "keys"; "checks"; "indexes"] (fun d =>
    id ← required "id" "id" as_text d;
    name ← required "name" "name" as_text d;
    columns ← required "columns" "columns" (as_list decode_column) d;
    keys ← default [] "keys" "keys" (as_list decode_key) d;
    checks ← default [] "checks" "checks" (as_list decode_check) d;
    indexes ← default [] "indexes" "indexes" (as_list decode_index) d;
    Some {| tb_id := id; tb_name := name; tb_columns := columns; tb_keys := keys; tb_checks := checks; tb_indexes := indexes |})
    DesignTable_check.

Definition decode_relationship : json -> option DesignRelationship :=
  model ["id"; "name"; "source_table_id"; "sourceTableId"; "source_column_ids"; "sourceColumnIds"; "target_table_id";
         "targetTableId"; "target_column_ids"; "targetColumnIds"; "on_update"; "onUpdate"; "on_delete"; "onDelete";
         "deferrable"; "initially_deferred"; "initiallyDeferred"] (fun d =>
    id ← required "id" "id" as_text d;
    name ← required "name" "name" as_text d;
    source_table_id ← required "source_table_id" "sourceTableId" as_text d;
    source_column_ids ← required "source_column_ids" "sourceColumnIds" (as_list as_text) d;
    target_table_id ← required "target_table_id" "targetTableId" as_text d;
    target_column_ids ← required "target_column_ids" "targetColumnIds" (as_list as_text) d;
    on_update ← default NoAction "on_update" "onUpdate" (as_literal fk_action_text fk_actions) d;
    on_delete ← default NoAction "on_delete" "onDelete" (as_literal fk_action_text fk_actions) d;
    deferrable ← default false "deferrable" "deferrable" as_bool d;
    initially_deferred ← default false "initially_deferred" "initiallyDeferred" as_bool d;
    Some {| rl_id := id; rl_name := name; rl_source_table_id := source_table_id; rl_source_column_ids := source_column_ids;
            rl_target_table_id := target_table_id; rl_target_column_ids := target_column_ids; rl_on_update := on_update;
            rl_on_delete := on_delete; rl_deferrable := deferrable; rl_initially_deferred := initially_deferred |})
    DesignRelationship_check.

Definition read_function (d : fields) : option DesignFunction :=
  id ← required "id" "id" as_text d;
  name ← required "name" "name" as_text d;
  kind ← required "kind" "kind" (as_literal routine_kind_text routine_kinds) d;
  arguments ← required "arguments" "arguments" as_text d;
  identity_arguments ← required "identity_arguments" "identityArguments" as_text d;
  return_type ← default None "return_type" "returnType" (as_optional as_text) d;
  language ← required "language" "language" as_text d;
  definition ← required "definition" "definition" as_text d;
  Some {| fn_id := id; fn_name := name; fn_kind := kind; fn_arguments := arguments;
          fn_identity_arguments := identity_arguments; fn_return_type := return_type; fn_language := language;
          fn_definition := definition |}.

Definition read_trigger (d : fields) : option DesignTrigger :=
  id ← required "id" "id" as_text d;
  name ← required "name" "name" as_text d;
  relation_name ← required "relation_name" "relationName" as_text d;
  timing ← required "timing" "timing" (as_literal timing_text trigger_timings) d;
  events ← required "events" "events" (as_list (as_literal event_text trigger_events)) d;
  orientation ← required "orientation" "orientation" (as_literal orientation_text trigger_orientations) d;
  function_name ← required "function_name" "functionName" as_text d;
  function_arguments ← default [] "function_arguments" "functionArguments" (as_list as_text) d;
  update_columns ← default [] "update_columns" "updateColumns" (as_list as_text) d;
  referenced_columns ← default [] "referenced_columns" "referencedColumns" (as_list as_text) d;
  when_expression ← default None "when_expression" "whenExpression" (as_optional as_text) d;
  transition_relations ← default [] "transition_relations" "transitionRelations" (as_list as_text) d;
  constraint ← required "constraint" "constraint" as_bool d;
  deferrable ← required "deferrable" "deferrable" as_bool d;
  initially_deferred ← required "initially_deferred" "initiallyDeferred" as_bool d;
  definition ← required "definition" "definition" as_text d;
  Some {| tr_id := id; tr_name := name; tr_relation_name := relation_name; tr_timing := timing; tr_events := events;
          tr_orientation := orientation; tr_function_name := function_name; tr_function_arguments := function_arguments;
          tr_update_columns := update_columns; tr_referenced_columns := referenced_columns;
          tr_when_expression := when_expression; tr_transition_relations := transition_relations;
          tr_constraint := constraint; tr_deferrable := deferrable; tr_initially_deferred := initially_deferred;
          tr_definition := definition |}.

Definition read_view (d : fields) : option DesignView :=
  id ← required "id" "id" as_text d;
  name ← required "name" "name" as_text d;
  kind ← required "kind" "kind" (as_literal view_kind_text view_kinds) d;
  definition ← required "definition" "definition" as_text d;
  populate ← default None "populate_on_create" "populateOnCreate" (as_optional as_bool) d;
  Some {| vw_id := id; vw_name := name; vw_kind := kind; vw_definition := definition; vw_populate_on_create := populate |}.

Definition decode_view (v : json) : option DesignView :=
  view ← model ["id"; "name"; "kind"; "definition"; "populate_on_create"; "populateOnCreate"] read_view DesignView_check
           (migrate_legacy_population_intent v);
  valid_population_intent view.

Section decode.
Context `{Pglast}.

Definition decode_type : json -> option DesignType :=
  after_validator DesignType_derive_contract (model type_fields read_type DesignType_check).

Definition decode_function : json -> option DesignFunction :=
  after_validator DesignFunction_derive_contract
    (model ["id"; "name"; "kind"; "arguments"; "identity_arguments"; "identityArguments"; "return_type"; "returnType";
            "language"; "definition"] read_function DesignFunction_check).

Definition decode_trigger : json -> option DesignTrigger :=
  after_validator DesignTrigger_derive_contract
    (model ["id"; "name"; "relation_name"; "relationName"; "timing"; "events"; "orientation"; "function_name";
            "functionName"; "function_arguments"; "functionArguments"; "update_columns"; "updateColumns";
            "referenced_columns"; "referencedColumns"; "when_expression"; "whenExpression"; "transition_relations";
            "transitionRelations"; "constraint"; "deferrable"; "initially_deferred"; "initiallyDeferred"; "definition"]
       read_trigger DesignTrigger_check).

(** [SchemiiDesignContent.model_validate]. *)
Definition decode_content : json -> option SchemiiDesignContent :=
  model ["types"; "tables"; "relationships"; "functions"; "views"; "triggers"] (fun d =>
    types ← default [] "types" "types" (as_list decode_type) d;
    tables ← default [] "tables" "tables" (as_list decode_table) d;
    relationships ← default [] "relationships" "relationships" (as_list decode_relationship) d;
    functions ← default [] "functions" "functions" (as_list decode_function) d;
    views ← default [] "views" "views" (as_list decode_view) d;
    triggers ← default [] "triggers" "triggers" (as_list decode_trigger) d;
    Some {| content_types := types; content_tables := tables; content_relationships := relationships;
            content_functions := functions; content_views := views; content_triggers := triggers |})
    SchemiiDesignContent_check.
End decode.

(** ** Round trip *)

Arguments as_list : simpl never.
Arguments as_optional : simpl never.
Arguments as_literal : simpl never.
#[local] Arguments json_strs : simpl never.
#[local] Arguments json_opt : simpl never.
#[local] Arguments DesignDomainCheck_check : simpl never.
#[local] Arguments DesignType_check : simpl never.
#[local] Arguments DesignColumn_check : simpl never.
#[local] Arguments DesignKeyConstraint_check : simpl never.
#[local] Arguments DesignCheckConstraint_check : simpl never.
#[local] Arguments DesignIndex_check : simpl never.
#[local] Arguments DesignTable_check : simpl never.
#[local] Arguments DesignRelationship_check : simpl never.
#[local] Arguments DesignFunction_check : simpl never.
#[local] Arguments DesignTrigger_check : simpl never.
#[local] Arguments DesignView_check : simpl never.
#[local] Arguments SchemiiDesignContent_check : simpl never.

Lemma as_list_documents {A B} (f : A -> json) (g : json -> option B) (h : A -> B) (l : list A) :
  (forall x, x ∈ l -> g (f x) = Some (h x)) -> as_list g (JList (f <$> l)) = Some (h <$> l).
Proof. intros Hf. unfold as_list. apply mapM_Some, Forall2_fmap, Forall_Forall2_diag, Forall_forall. exact Hf. Qed.

Lemma as_list_models {A} (f : A -> json) (g : json -> option A) (check : A -> bool) lo hi (l : list A) :
  (forall x, check x = true -> g (f x) = Some x) -> list_check check lo hi l = true ->
  as_list g (JList (f <$> l)) = Some l.
Proof.
  intros Hf Hc. rewrite (as_list_documents f g id); [by rewrite list_fmap_id|].
  intros x Hx. by eapply Hf, list_check_elem.
Qed.

Lemma as_texts l : as_list as_text (json_strs l) = Some l.
Proof. unfold json_strs. rewrite (as_list_documents _ _ id) by done. by rewrite list_fmap_id. Qed.

Lemma as_optional_text o : as_optional as_text (json_opt o) = Some o.
Proof. by destruct o. Qed.

(** A literal is read back when its value is listed and its text is its own. *)
Lemma as_literal_text {A} (text : A -> string) (values : list A) a :
  (forall b, b ∈ values -> text b = text a -> b = a) -> a ∈ values -> as_literal text values (JStr (text a)) = Some a.
Proof.
  intros Hinj Ha. unfold as_literal. destruct (List.find _ values) as [b|] eqn:E.
  - apply List.find_some in E as [Hb Eb%bool_decide_eq_true]. f_equal. apply Hinj; [by apply list_elem_of_In|done].
  - apply list_elem_of_In in Ha. apply (List.find_none _ _ E) in Ha. by rewrite bool_decide_eq_true_2 in Ha.
Qed.

Lemma as_optional_identity o :
  as_optional (as_literal identity_text identity_kinds) (json_opt (identity_text <$> o)) = Some o.
Proof. by destruct o as [[]|]. Qed.

Lemma as_events l : as_list (as_literal event_text trigger_events) (json_strs (event_text <$> l)) = Some l.
Proof.
  unfold json_strs. rewrite <-list_fmap_compose, (as_list_documents _ _ id); [by rewrite list_fmap_id|].
  by intros [].
Qed.

Lemma fk_action_read a : as_literal fk_action_text fk_actions (JStr (fk_action_text a)) = Some a.
Proof. by destruct a. Qed.

Create Rewrite HintDb decode.
#[export] Hint Rewrite as_texts as_optional_text as_optional_identity as_events fk_action_read : decode.

(** Reads the fields of a dumped model. *)
Ltac read_model :=
  unfold model;
  match goal with |- context [only_keys ?l ?d] => replace (only_keys l d) with true by (vm_compute; reflexivity) end;
  unfold required, default, find_field; simpl; autorewrite with decode; simpl;
  autorewrite with decode; simpl; unfold checked_value.

Section roundtrip.
Context `{Pglast}.
Variable by_alias : bool.

Lemma decode_domain_check_document c : DesignDomainCheck_check c = true -> decode_domain_check (DesignDomainCheck_document c) = Some c.
Proof. intros Hc. unfold decode_domain_check, DesignDomainCheck_document. destruct c; read_model. by rewrite Hc. Qed.

Lemma decode_column_document c : DesignColumn_check c = true -> decode_column (DesignColumn_document by_alias c) = Some c.
Proof. intros Hc. unfold decode_column, DesignColumn_document. destruct by_alias, c; read_model; by rewrite Hc. Qed.

Lemma decode_key_document c : DesignKeyConstraint_check c = true -> decode_key (DesignKeyConstraint_document by_alias c) = Some c.
Proof. intros Hc. unfold decode_key, DesignKeyConstraint_document. destruct by_alias, c as [? ? [] ?]; read_model; by rewrite Hc. Qed.

Lemma decode_check_document c : DesignCheckConstraint_check c = true -> decode_check (DesignCheckConstraint_document by_alias c) = Some c.
Proof. intros Hc. unfold decode_check, DesignCheckConstraint_document. destruct by_alias, c; read_model; by rewrite Hc. Qed.

Lemma decode_index_document c : DesignIndex_check c = true -> decode_index (DesignIndex_document by_alias c) = Some c.
Proof. intros Hc. unfold decode_index, DesignIndex_document. destruct by_alias, c; read_model; by rewrite Hc. Qed.

Lemma decode_relationship_document c :
  DesignRelationship_check c = true -> decode_relationship (DesignRelationship_document by_alias c) = Some c.
Proof. intros Hc. unfold decode_relationship, DesignRelationship_document. destruct by_alias, c; read_model; by rewrite Hc. Qed.
Lemma decode_table_document t : DesignTable_check t = true -> decode_table (DesignTable_document by_alias t) = Some t.
Proof.
  intros Hc. pose proof Hc as Hparts. unfold DesignTable_check in Hparts. split_check.
  unfold decode_table, DesignTable_document. destruct t as [id name columns keys checks indexes]; cbn [tb_columns tb_keys tb_checks tb_indexes] in *. read_model.
  rewrite (as_list_models _ _ _ _ _ _ decode_column_document ltac:(eassumption)).
  rewrite (as_list_models _ _ _ _ _ _ decode_key_document ltac:(eassumption)). simpl.
  rewrite (as_list_models _ _ _ _ _ _ decode_check_document ltac:(eassumption)). simpl.
  rewrite (as_list_models _ _ _ _ _ _ decode_index_document ltac:(eassumption)). simpl.
  by rewrite Hc.
Qed.

(** What the validators make of the metadata of an object: it is what its definition
    derives. *)
Definition type_derived (t : DesignType) : Prop :=
  exists c, analyze_type_definition (dt_definition t) = Ok c /\
    dt_name t = td_name c /\ dt_kind t = td_kind c /\ dt_enum_values t = td_enum_values c /\
    dt_base_type t = td_base_type c /\ dt_default_expression t = td_default_expression c /\
    dt_not_null t = td_not_null c /\
    dt_checks t = (fun k => {| dck_name := dcd_name k; dck_expression := dcd_expression k |}) <$> td_checks c /\
    dt_collation t = td_collation c.

Definition function_derived (f : DesignFunction) : Prop :=
  exists c, analyze_routine_definition (fn_definition f) = Ok c /\
    fn_name f = rd_name c /\ fn_kind f = rd_kind c /\ fn_arguments f = rd_arguments c /\
    fn_identity_arguments f = rd_identity_arguments c /\ fn_return_type f = rd_return_type c /\ fn_language f = rd_language c.

Definition trigger_derived (t : DesignTrigger) : Prop :=
  exists c, analyze_trigger_definition (tr_definition t) = Ok c /\
    tr_name t = trd_name c /\ tr_relation_name t = trd_relation_name c /\ tr_timing t = trd_timing c /\
    tr_events t = trd_events c /\ tr_orientation t = trd_orientation c /\ tr_function_name t = trd_function_name c /\
    tr_function_arguments t = trd_function_arguments c /\ tr_update_columns t = trd_update_columns c /\
    tr_referenced_columns t = trd_referenced_columns c /\ tr_when_expression t = trd_when_expression c /\
    tr_transition_relations t = trd_transition_relations c /\ tr_constraint t = trd_constraint c /\
    tr_deferrable t = trd_deferrable c /\ tr_initially_deferred t = trd_initially_deferred c.

Lemma decode_function_document f :
  DesignFunction_check f = true -> function_derived f -> decode_function (DesignFunction_document by_alias f) = Some f.
Proof.
  intros Hc (c & Hd & E1 & E2 & E3 & E4 & E5 & E6).
  unfold decode_function, after_validator, DesignFunction_derive_contract, derive_contract, DesignFunction_document.
  destruct f, c; cbn in E1, E2, E3, E4, E5, E6, Hd; subst.
  destruct by_alias; simpl; rewrite Hd; cbn [result_bind]; destruct rd_kind; unfold read_function; read_model; by rewrite Hc.
Qed.

Lemma decode_type_document t :
  DesignType_check t = true -> type_derived t -> decode_type (DesignType_document by_alias t) = Some t.
Proof.
  intros Hc (c & Hd & E1 & E2 & E3 & E4 & E5 & E6 & E7 & E8).
  assert (list_check DesignDomainCheck_check 0 10000 (dt_checks t) = true) as Hchecks.
  { unfold DesignType_check in Hc. split_check. done. }
  unfold decode_type, after_validator, DesignType_derive_contract, derive_contract, DesignType_document, type_fields.
  destruct t, c; cbn in E1, E2, E3, E4, E5, E6, E7, E8, Hd, Hchecks; subst.
  assert ((fun k => JDict [("name", json_opt (dcd_name k)); ("expression", JStr (dcd_expression k))]) <$> td_checks =
    DesignDomainCheck_document <$> ((fun k => {| dck_name := dcd_name k; dck_expression := dcd_expression k |}) <$> td_checks)) as Hdoc.
  { by rewrite <-list_fmap_compose. }
  destruct by_alias; simpl; rewrite Hd; cbn [result_bind]; unfold type_contract_items; cbn [DefinitionAnalysis.td_checks];
    rewrite Hdoc; destruct td_kind; unfold read_type; read_model;
    rewrite (as_list_models _ _ _ _ _ _ decode_domain_check_document Hchecks); simpl;
    autorewrite with decode; simpl; by rewrite Hc.
Qed.

Lemma decode_trigger_document t :
  DesignTrigger_check t = true -> trigger_derived t -> decode_trigger (DesignTrigger_document by_alias t) = Some t.
Proof.
  intros Hc (c & Hd & E1 & E2 & E3 & E4 & E5 & E6 & E7 & E8 & E9 & E10 & E11 & E12 & E13 & E14).
  unfold decode_trigger, after_validator, DesignTrigger_derive_contract, derive_contract, DesignTrigger_document.
  destruct t, c; cbn in E1, E2, E3, E4, E5, E6, E7, E8, E9, E10, E11, E12, E13, E14, Hd; subst.
  destruct by_alias; simpl; rewrite Hd; cbn [result_bind]; destruct trd_timing, trd_orientation; unfold read_trigger; read_model;
    by rewrite Hc.
Qed.

Lemma decode_view_document v :
  DesignView_check v = true -> valid_population_intent v = Some v -> decode_view (DesignView_document by_alias v) = Some v.
Proof.
  intros Hc Hp. unfold decode_view, DesignView_document.
  destruct by_alias, v as [? ? [] ? [[]|]]; simpl in Hp; try done; simpl migrate_legacy_population_intent; unfold read_view; read_model;
    by rewrite Hc.
Qed.

(** Content as the models build it. *)
Record content_built (content : SchemiiDesignContent) : Prop := {
  cb_check : SchemiiDesignContent_check content = true;
  cb_types : Forall type_derived (content_types content);
  cb_functions : Forall function_derived (content_functions content);
  cb_views : Forall (fun v => valid_population_intent v = Some v) (content_views content);
  cb_triggers : Forall trigger_derived (content_triggers content);
}.

Lemma as_list_built {A} (f : A -> json) (g : json -> option A) (check : A -> bool) (P : A -> Prop) lo hi (l : list A) :
  (forall x, check x = true -> P x -> g (f x) = Some x) -> list_check check lo hi l = true -> Forall P l ->
  as_list g (JList (f <$> l)) = Some l.
Proof.
  intros Hf Hc HP. rewrite Forall_forall in HP. rewrite (as_list_documents f g id); [by rewrite list_fmap_id|].
  intros x Hx. apply Hf; [by eapply list_check_elem|by apply HP].
Qed.

Lemma decode_document content : content_built content -> decode_content (content_document by_alias content) = Some content.
Proof.
  intros [Hc Hty Hf Hv Htr]. pose proof Hc as Hparts. unfold SchemiiDesignContent_check in Hparts. split_check.
  unfold decode_content, content_document. destruct content as [types tables relationships functions views triggers].
  cbn [content_types content_tables content_relationships content_functions content_views content_triggers] in *. read_model.
  rewrite (as_list_built _ _ _ _ _ _ _ decode_type_document ltac:(eassumption) Hty). simpl.
  rewrite (as_list_models _ _ _ _ _ _ decode_table_document ltac:(eassumption)). simpl.
  rewrite (as_list_models _ _ _ _ _ _ decode_relationship_document ltac:(eassumption)). simpl.
  rewrite (as_list_built _ _ _ _ _ _ _ decode_function_document ltac:(eassumption) Hf). simpl.
  rewrite (as_list_built _ _ _ _ _ _ _ decode_view_document ltac:(eassumption) Hv). simpl.
  rewrite (as_list_built _ _ _ _ _ _ _ decode_trigger_document ltac:(eassumption) Htr). simpl.
  by rewrite Hc.
Qed.
End roundtrip.
