(* ===== verification/Reconcile.v ===== *)
(** * Reconciling a design with PostgreSQL

    [_identity_maps], [_aligned_content], [catalog_design], [reconcile_designs] and
    [new_baseline_content] of [migrations/planner.py].  The live design is the import of
    the inspected catalog with its IDs aligned to the baseline and the desired design by
    names; the three documents are merged, and the merged document is read back and
    validated.

    - The import of a catalog is an argument, [ImportedDesign].
    - [_identity_maps] is given on designs instead of their documents; [replace] works on
      the document, where it also reaches texts that are no IDs.
    - [validation_text] is the text of Pydantic's error on a document it refuses. *)

From stdpp Require Import pretty.
From Stdlib Require Import Ascii String.
From S2P Require Import Prelude Json PyString DesignModels DefinitionAnalysis DesignValidation DesignDocument DesignDecode.
From S2P Require Import MigrationModels CheckExpressions TypeChanges DesignMerge.
Open Scope string_scope.
Open Scope result_scope.

(** ** Imports *)

Record ImportIssue := {
  ii_category : string;
  ii_object_name : string;
  ii_reason : string;
}.

Record ImportedDesign := {
  imp_content : SchemiiDesignContent;
  imp_issues : list ImportIssue;
  imp_complete : bool;
}.

(** The exceptions a reconciliation can raise. *)
Inductive reconcile_error :=
| ModelRefused
| DesignRefused (e : design_error).

(** ** Identities *)

Record identity_maps := {
  im_types : list ((type_kind * string) * string);
  im_tables : list (string * string);
  im_columns : list (string * list (string * string));
  im_keys : list (string * list (string * string));
  im_checks : list (string * list (string * string));
  im_indexes : list (string * list (string * string));
  im_functions : list ((routine_kind * string * string) * string);
  im_views : list ((view_kind * string) * string);
  im_triggers : list ((string * string) * string);
  im_relationships : list ((option string * string) * string);
}.

Definition type_identity (t : DesignType) := (dt_kind t, dt_name t).
Definition function_identity (f : DesignFunction) := (fn_kind f, fn_name f, fn_identity_arguments f).
Definition view_identity (v : DesignView) := (vw_kind v, vw_name v).
Definition trigger_identity (t : DesignTrigger) := (tr_relation_name t, tr_name t).

(** [{table\["id"\]: table.get("name") for table in ...}]. *)
Definition table_names (content : SchemiiDesignContent) : list (string * string) :=
  dict_fill tb_id tb_name (content_tables content) [].
Definition relationship_identity (names : list (string * string)) (r : DesignRelationship) :=
  (dget (rl_source_table_id r) names, rl_name r).

(** The names of the parts of each table. *)
Definition child_maps {A} (parts : DesignTable -> list A) (name id : A -> string) (content : SchemiiDesignContent)
    : list (string * list (string * string)) :=
  dict_fill tb_name (fun t => dict_fill name id (parts t) []) (content_tables content) [].

(** [_identity_maps]. *)
Definition identity_maps_of (content : SchemiiDesignContent) : identity_maps :=
  {| im_types := dict_fill type_identity dt_id (content_types content) [];
     im_tables := dict_fill tb_name tb_id (content_tables content) [];
     im_columns := child_maps tb_columns dc_name dc_id content;
     im_keys := child_maps tb_keys dk_name dk_id content;
     im_checks := child_maps tb_checks ck_name ck_id content;
     im_indexes := child_maps tb_indexes ix_name ix_id content;
     im_functions := dict_fill function_identity fn_id (content_functions content) [];
     im_views := dict_fill view_identity vw_id (content_views content) [];
     im_triggers := dict_fill trigger_identity tr_id (content_triggers content) [];
     im_relationships := dict_fill (relationship_identity (table_names content)) rl_id (content_relationships content) [] |}.

(** The first reference that knows a key. *)
Definition candidate {K} `{EqDecision K} (maps : list (list (K * string))) (k : K) : option string :=
  head (omap (dget k) maps).
Definition child_candidate (maps : list (list (string * list (string * string)))) (table_name name : string) : option string :=
  head (omap (fun m => names ← dget table_name m; dget name names) maps).

(** An ID to replace, when the candidate is a non-empty text. *)
Definition replacement (id : string) (c : option string) : list (string * string) :=
  match c with Some new => if bool_decide (new = "") then [] else [(id, new)] | None => [] end.

Definition child_replacements {A} (maps : list (list (string * list (string * string)))) (parts : DesignTable -> list A)
    (name id : A -> string) (t : DesignTable) : list (string * string) :=
  concat ((fun c => replacement (id c) (child_candidate maps (tb_name t) (name c))) <$> parts t).

Definition table_replacements (maps : list identity_maps) (t : DesignTable) : list (string * string) :=
  (replacement (tb_id t) (candidate (im_tables <$> maps) (tb_name t))
   ++ child_replacements (im_columns <$> maps) tb_columns dc_name dc_id t
   ++ child_replacements (im_keys <$> maps) tb_keys dk_name dk_id t
   ++ child_replacements (im_checks <$> maps) tb_checks ck_name ck_id t
   ++ child_replacements (im_indexes <$> maps) tb_indexes ix_name ix_id t)%list.

(** The dictionary [replacements], in the order of its assignments. *)
Definition replacements (source : SchemiiDesignContent) (references : list SchemiiDesignContent) : list (string * string) :=
  let maps := identity_maps_of <$> references in
  let live_table_names := table_names source in
  dict_fill fst snd
    (concat ((fun t => replacement (dt_id t) (candidate (im_types <$> maps) (type_identity t))) <$> content_types source)
     ++ concat (table_replacements maps <$> content_tables source)
     ++ concat ((fun f => replacement (fn_id f) (candidate (im_functions <$> maps) (function_identity f))) <$> content_functions source)
     ++ concat ((fun v => replacement (vw_id v) (candidate (im_views <$> maps) (view_identity v))) <$> content_views source)
     ++ concat ((fun t => replacement (tr_id t) (candidate (im_triggers <$> maps) (trigger_identity t))) <$> content_triggers source)
     ++ concat ((fun r => replacement (rl_id r) (candidate (im_relationships <$> maps) (relationship_identity live_table_names r)))
                  <$> content_relationships source))%list [].

(** [replace]. *)
Fixpoint replace_ids (reps : list (string * string)) (v : json) : json :=
  match v with
  | JStr s => JStr (match dget s reps with Some new => new | None => s end)
  | JList l => JList (map (replace_ids reps) l)
  | JDict d => JDict (map (fun kv => match kv with (k, x) => (k, replace_ids reps x) end) d)
  | _ => v
  end.

(** ** Column types both sides agree on *)

Definition agreed (live_columns : list (string * DesignColumn)) (column : DesignColumn) : bool :=
  match dget (dc_name column) live_columns with
  | Some live => bool_decide (tcd_disposition (classify_type_change (dc_data_type column) (dc_data_type live)) = Equivalent)
  | None => false
  end.

Definition agreed_column_types (live_table table : DesignTable) : list (string * string) :=
  let live_columns := dict_by dc_name (tb_columns live_table) in
  dict_fill dc_name dc_data_type (filter (fun column => agreed live_columns column = true) (tb_columns table)) [].

Definition check_column_types_of (live desired : SchemiiDesignContent) : column_types_by_table :=
  let live_tables := dict_by tb_id (content_tables live) in
  dict_fill fst snd (omap (fun table =>
    live_table ← dget (tb_id table) live_tables; Some (tb_id table, agreed_column_types live_table table))
    (content_tables desired)) [].

(** ** Reconciliation *)

Record ReconciliationResult := {
  rr_merged : option SchemiiDesignContent;
  rr_live : SchemiiDesignContent;
  rr_external_changes : list MigrationExternalChange;
  rr_conflicts : list MigrationConflict;
  rr_warnings : list MigrationWarning;
  rr_import_complete : bool;
}.

Definition warning_document (w : MigrationWarning) : json :=
  JDict [("code", JStr (mw_code w)); ("message", JStr (mw_message w)); ("object_path", json_opt (mw_object_path w))].

Definition import_warning (issue : ImportIssue) : MigrationWarning :=
  {| mw_code := "unrepresented_postgresql_object"; mw_message := ii_reason issue;
     mw_object_path := Some (ii_category issue ++ "." ++ ii_object_name issue) |}.

(** A conflict of the whole schema, which only PostgreSQL's side can settle. *)
Definition schema_conflict `{Sha256} (path key summary : string) (category : conflict_category) (live_value : json)
    : MigrationConflict :=
  {| mcf_id := identifier "mcf" [JStr path; JStr key]; mcf_category := category; mcf_object_kind := MSchema;
     mcf_object_path := path; mcf_summary := summary; mcf_baseline_value := JNull; mcf_design_value := JNull;
     mcf_live_value := live_value; mcf_affected_objects := []; mcf_allowed_resolutions := [PullLive] |}.

Section reconcile.
Context `{Pglast} `{Sqlglot} `{SqlglotTrees} `{Sha256}.
Variable validation_text : json -> string.

(** [_aligned_content]. *)
Definition aligned_content (source : SchemiiDesignContent) (references : list SchemiiDesignContent)
    : result reconcile_error SchemiiDesignContent :=
  match decode_content (replace_ids (replacements source references) (content_document false source)) with
  | Some content => Ok content
  | None => Err ModelRefused
  end.

(** [catalog_design], on the import of the catalog. *)
Definition catalog_design (imported : ImportedDesign) (references : list SchemiiDesignContent)
    : result reconcile_error (SchemiiDesignContent * list MigrationWarning * bool) :=
  let! content := aligned_content (imp_content imported) references in
  Ok (content, import_warning <$> imp_issues imported, imp_complete imported).

(** The report on a merged document that is refused. *)
Definition refused_conflict (merged : option SchemiiDesignContent) (message : string)
    : result reconcile_error (option SchemiiDesignContent * list MigrationConflict) :=
  let summary := "The combined schema is invalid: " ++ message in
  if length_between 1 2048 summary
  then Ok (merged, [schema_conflict "schema.structure" message summary CStructural JNull])
  else Err ModelRefused.

(** The merged document read back.  Only [ValueError] is caught; [DesignValidationError]
    is a [RuntimeError] and escapes. *)
Definition read_merged (merged_document : json)
    : result reconcile_error (option SchemiiDesignContent * list MigrationConflict) :=
  match decode_content merged_document with
  | Some merged =>
      match validate_design_content merged with
      | Ok _ => Ok (Some merged, [])
      | Err (ValueErrorRaised message) => refused_conflict (Some merged) message
      | Err e => Err (DesignRefused e)
      end
  | None => refused_conflict None (validation_text merged_document)
  end.

Definition coverage_conflict (fingerprint : string) (warnings : list MigrationWarning) : MigrationConflict :=
  schema_conflict "schema.coverage" fingerprint
    "PostgreSQL contains objects the desired-design model cannot preserve losslessly" COpaque
    (JList (warning_document <$> warnings)).

(** [reconcile_designs]. *)
Definition reconcile_designs (baseline desired : SchemiiDesignContent) (imported : ImportedDesign) (fingerprint : string)
    (resolutions : list (string * conflict_resolution)) : result reconcile_error ReconciliationResult :=
  let! (live, warnings, complete) := catalog_design imported [baseline; desired] in
  let merger := merge (check_column_types_of live desired) resolutions
    (Some (content_document false baseline)) (Some (content_document false desired)) (Some (content_document false live)) "" in
  let! (merged, invalid) := read_merged (value_of (mo_value merger)) in
  Ok {| rr_merged := merged; rr_live := live; rr_external_changes := mo_external merger;
        rr_conflicts := (mo_conflicts merger ++ invalid ++ (if complete : bool then [] else [coverage_conflict fingerprint warnings]))%list;
        rr_warnings := warnings; rr_import_complete := complete |}.

(** [new_baseline_content]. *)
Definition new_baseline_content (imported : ImportedDesign) (desired : SchemiiDesignContent) :=
  catalog_design imported [desired].
End reconcile.
