(* ===== verification/ReconcileProps.v ===== *)
(** * What reconciling designs guarantees

    Reading a document does not depend on the order of its keys; so, without drift, a
    reconciliation gives exactly the desired design back. *)

From stdpp Require Import pretty.
From Stdlib Require Import Ascii String.
From S2P Require Import Prelude Json PyString DesignModels DefinitionAnalysis DesignValidation TypeOrder ValidationSpec.
From S2P Require Import DesignDocument DesignDecode MigrationModels CheckExpressions TypeChanges DesignMerge MergeProps MergeTheorems Reconcile.
Open Scope string_scope.
Open Scope result_scope.

(** ** Key order *)

Definition same_fields (d e : list (string * json)) : Prop :=
  dwf d /\ dwf e /\ forall k, option_Forall2 json_same (dget k d) (dget k e).

Definition respects {A} (f : json -> option A) : Prop := forall v w, json_same v w -> f v = f w.
Definition respects_fields {A} (f : list (string * json) -> option A) : Prop := forall d e, same_fields d e -> f d = f e.

Lemma same_fields_sym_keys d e k : same_fields d e -> k ∈ dkeys d <-> k ∈ dkeys e.
Proof.
  intros (_ & _ & Hall). rewrite <-!dget_is_Some. specialize (Hall k). by destruct Hall; rewrite ?is_Some_alt.
Qed.

Lemma text_respects : respects as_text.
Proof. by intros v w []. Qed.
Lemma bool_respects : respects as_bool.
Proof. by intros v w []. Qed.
Lemma literal_respects {A} (text : A -> string) values : respects (as_literal text values).
Proof. by intros v w []. Qed.

Lemma optional_respects {A} (f : json -> option A) : respects f -> respects (as_optional f).
Proof. intros Hf v w Hs. unfold as_optional. destruct Hs; [done|by rewrite (Hf _ _ (same_list _ _ H))|]. by rewrite (Hf (JDict d) (JDict e)) by by constructor. Qed.

Lemma list_respects {A} (f : json -> option A) : respects f -> respects (as_list f).
Proof.
  intros Hf v w []; [done| |done]. unfold as_list. induction H as [|x y l m Hxy _ IH]; [done|].
  change (mapM f (x :: l)) with (y ← f x; k ← mapM f l; Some (y :: k)).
  change (mapM f (y :: m)) with (y ← f y; k ← mapM f m; Some (y :: k)).
  by rewrite IH, (Hf _ _ Hxy).
Qed.

Lemma find_field_respects {A} name alias (f : json -> option A) (none : option A) d e : respects f -> same_fields d e ->
  match find_field name alias d with Some v => f v | None => none end =
  match find_field name alias e with Some v => f v | None => none end.
Proof.
  intros Hf (_ & _ & Hall). unfold find_field. pose proof (Hall alias) as Ha. pose proof (Hall name) as Hn.
  destruct Ha as [x y Hxy|]; [by apply Hf|]. destruct Hn as [x y Hxy|]; [by apply Hf|done].
Qed.

Lemma required_respects {A} name alias (f : json -> option A) : respects f -> respects_fields (required name alias f).
Proof. intros Hf d e Hs. by apply (find_field_respects name alias f None). Qed.

Lemma default_respects {A} (a : A) name alias (f : json -> option A) : respects f -> respects_fields (default a name alias f).
Proof. intros Hf d e Hs. by apply (find_field_respects name alias f (Some a)). Qed.

Lemma bind_respects {A B} (m : list (string * json) -> option A) (k : A -> list (string * json) -> option B) :
  respects_fields m -> (forall a, respects_fields (k a)) -> respects_fields (fun d => a ← m d; k a d).
Proof. intros Hm Hk d e Hs. rewrite (Hm d e Hs). destruct (m e); [|done]. simpl. by apply Hk. Qed.

Lemma const_respects {A} (a : option A) : respects_fields (fun _ => a).
Proof. done. Qed.

Lemma model_respects {A} known (read : list (string * json) -> option A) check : respects_fields read -> respects (model known read check).
Proof.
  intros Hr v w Hs. destruct Hs as [| |d e Hd He Hall]; [done..|]. unfold model.
  assert (same_fields d e) as Hf by done. rewrite (Hr d e Hf).
  assert (only_keys known d = only_keys known e) as ->; [|done].
  apply eq_iff_eq_true. unfold only_keys. rewrite !forallb_forall.
  split; intros Hk k Hin; apply Hk, list_elem_of_In, (same_fields_sym_keys d e k Hf), list_elem_of_In, Hin.
Qed.

Create HintDb respects.
#[local] Hint Resolve text_respects bool_respects literal_respects optional_respects list_respects
  required_respects default_respects const_respects : respects.

(** Follows the chain of reads of a model. *)
Ltac respects :=
  apply model_respects;
  repeat (apply bind_respects; [solve [auto 6 with respects]|intros ?]);
  apply const_respects.

Lemma domain_check_respects : respects decode_domain_check.
Proof. respects. Qed.
Lemma column_respects : respects decode_column.
Proof. respects. Qed.
Lemma key_respects : respects decode_key.
Proof. respects. Qed.
Lemma check_respects : respects decode_check.
Proof. respects. Qed.
Lemma index_respects : respects decode_index.
Proof. respects. Qed.
Lemma relationship_respects : respects decode_relationship.
Proof. respects. Qed.
#[local] Hint Resolve domain_check_respects column_respects key_respects check_respects index_respects relationship_respects : respects.
Lemma table_respects : respects decode_table.
Proof. respects. Qed.
#[local] Hint Resolve table_respects : respects.

(** *** Validators *)

Lemma same_fields_dpop k d e : same_fields d e -> same_fields (dpop k d) (dpop k e).
Proof.
  intros (Hd & He & Hall). split_and!; [by apply dpop_wf..|]. intros k'. rewrite !dget_dpop. case_decide; [constructor|done].
Qed.

Lemma same_fields_dset k v w d e : json_same v w -> same_fields d e -> same_fields (dset k v d) (dset k w e).
Proof.
  intros Hv (Hd & He & Hall). split_and!; [by apply dset_wf..|]. intros k'. rewrite !dget_dset. case_decide; [by constructor|done].
Qed.

Lemma same_fields_pop_all keys d e : same_fields d e -> same_fields (dict_pop_all keys d) (dict_pop_all keys e).
Proof.
  unfold dict_pop_all. revert d e. induction keys as [|k keys IH]; intros d e Hs; simpl; [done|].
  by apply IH, same_fields_dpop.
Qed.

Lemma same_fields_update items d e : same_fields d e -> same_fields (dict_update items d) (dict_update items e).
Proof.
  unfold dict_update. revert d e. induction items as [|kv items IH]; intros d e Hs; simpl; [done|].
  apply IH, same_fields_dset; [constructor|done].
Qed.

Lemma same_fields_dict d e : same_fields d e -> json_same (JDict d) (JDict e).
Proof. intros (? & ? & ?). by constructor. Qed.

Lemma derived_respects {A C} (analyze : string -> result definition_error C) keys items (f : json -> option A) :
  respects f -> respects (after_validator (derive_contract analyze keys items) f).
Proof.
  intros Hf v w Hs. pose proof Hs as Hs'. destruct Hs as [| |d e Hd He Hall]; [done|by apply Hf|].
  unfold after_validator, derive_contract. pose proof (Hall "definition") as Hdef.
  destruct Hdef as [x y Hxy|]; [|by apply Hf].
  destruct Hxy; try by (destruct v; try by apply Hf). 2-3: by apply Hf.
  destruct v as [| | |definition| |]; try by apply Hf. destruct (analyze definition) as [c|]; [|done]. simpl.
  by apply Hf, same_fields_dict, same_fields_update, same_fields_pop_all.
Qed.

Section decoders.
Context `{Pglast}.

Lemma type_respects : respects decode_type.
Proof. apply derived_respects. unfold read_type. respects. Qed.

Lemma function_respects : respects decode_function.
Proof. apply derived_respects. unfold read_function. respects. Qed.

Lemma trigger_respects : respects decode_trigger.
Proof. apply derived_respects. unfold read_trigger. respects. Qed.

Lemma legacy_same v w : json_same v w -> json_same (migrate_legacy_population_intent v) (migrate_legacy_population_intent w).
Proof.
  intros Hs. destruct Hs as [v|l m Hl|d e Hd He Hall]; [constructor|by constructor|]. simpl.
  assert (same_fields (dpop "populated" d) (dpop "populated" e)) as Hp by (by apply same_fields_dpop).
  pose proof Hp as (_ & _ & Hp'). pose proof (Hp' "populateOnCreate") as H1. pose proof (Hp' "populate_on_create") as H2.
  destruct H1; [by apply same_fields_dict|]. destruct H2; [by apply same_fields_dict|].
  destruct (Hall "populated") as [x y Hxy|]; [|by apply same_fields_dict].
  destruct Hxy as [x| |]; [destruct x|..];
    solve [by apply same_fields_dict | apply same_fields_dict, same_fields_dset; [by constructor|done]].
Qed.

Lemma view_respects : respects decode_view.
Proof.
  intros v w Hs. unfold decode_view. f_equal. enough (respects (model
    ["id"; "name"; "kind"; "definition"; "populate_on_create"; "populateOnCreate"] read_view DesignView_check)) as Hm
    by (by apply Hm, legacy_same).
  unfold read_view. respects.
Qed.
#[local] Hint Resolve type_respects function_respects trigger_respects view_respects : respects.

(** Reading a design does not depend on the order of keys. *)
Lemma content_respects : respects decode_content.
Proof. unfold decode_content. respects. Qed.
End decoders.

(** ** Theorems *)

Section theorems.
Context `{Pglast} `{Sqlglot} `{SqlglotTrees} `{Sha256}.
Variable validation_text : json -> string.

(** C38. A design the models accept survives its document: dumped by field names or by
    aliases and read back, it is the same design. *)
Theorem design_document_roundtrip by_alias content :
  content_built content -> decode_content (content_document by_alias content) = Some content.
Proof. apply decode_document. Qed.

Lemma no_drift_reconciliation baseline desired imported fingerprint warnings complete :
  design_ok desired -> content_built desired -> NoDup (all_object_ids baseline) ->
  catalog_design imported [baseline; desired] = Ok (baseline, warnings, complete) ->
  exists r, reconcile_designs validation_text baseline desired imported fingerprint [] = Ok r /\
    rr_merged r = Some desired /\ rr_live r = baseline /\ rr_external_changes r = [] /\ rr_warnings r = warnings /\
    (complete = true -> rr_conflicts r = [] <-> keeps_objects baseline desired).
Proof.
  intros Hok Hbuilt Hb Hcat. unfold reconcile_designs. rewrite Hcat. cbn [result_bind].
  pose proof (do_ids _ Hok) as Hd. set (types := check_column_types_of baseline desired).
  destruct (no_drift types baseline desired Hb Hd) as (v & Hv & Hsame & Hext).
  rewrite Hv. cbn [value_of]. unfold read_merged.
  rewrite (content_respects v (content_document false desired)), (decode_document false desired) by done.
  rewrite (proj2 (validate_design_content_iff desired)) by done. cbn [result_bind].
  eexists. split; [reflexivity|]. cbn [rr_merged rr_live rr_external_changes rr_conflicts rr_warnings]. split_and!; [done..|].
  intros ->. rewrite !app_nil_r. by apply one_sided_conflicts.
Qed.

(** When PostgreSQL is as the baseline and the desired design is valid, the
    reconciliation succeeds, its merged design is exactly the desired design, no external
    change is reported, and with a complete import there is no conflict exactly when the
    design still has every object of the baseline. *)
Theorem reconciliation_without_drift baseline desired imported fingerprint warnings complete :
  design_ok desired -> content_built desired -> NoDup (all_object_ids baseline) ->
  catalog_design imported [baseline; desired] = Ok (baseline, warnings, complete) ->
  exists r, reconcile_designs validation_text baseline desired imported fingerprint [] = Ok r /\
    rr_merged r = Some desired /\ rr_live r = baseline /\ rr_external_changes r = [] /\ rr_warnings r = warnings /\
    (complete = true -> rr_conflicts r = [] <-> keeps_objects baseline desired).
Proof. apply no_drift_reconciliation. Qed.
End theorems.

(** ** A small schema *)

#[local] Existing Instances domain_pglast sample_sqlglot sample_trees plain_sha.

(** An object ID of 32 equal hexadecimal digits. *)
Definition object_id (prefix : string) (digit : ascii) : string :=
  prefix ++ "_" ++ String.concat "" (repeat (String digit "") 32).

Definition keyed (table column key : ascii) (key_name : option string) : SchemiiDesignContent :=
  {| content_types := [];
     content_tables :=
       [{| tb_id := object_id "table" table; tb_name := "people";
           tb_columns := [int_column (object_id "column" column) "id"];
           tb_keys := match key_name with
             | Some name => [{| dk_id := object_id "key" key; dk_name := name; dk_kind := KPrimary;
                                dk_column_ids := [object_id "column" column] |}]
             | None => []
             end;
           tb_checks := []; tb_indexes := [] |}];
     content_relationships := []; content_functions := []; content_views := []; content_triggers := [] |}.

(** The baseline, the same schema with a key, and imports with other IDs. *)
Definition bare_people := keyed "1" "2" "3" None.
Definition keyed_people := keyed "1" "2" "3" (Some "people_pkey").
Definition imported_as (content : SchemiiDesignContent) : ImportedDesign :=
  {| imp_content := content; imp_issues := []; imp_complete := true |}.

Lemma keyed_built key_name : length_between 1 63 key_name = true -> content_built (keyed "1" "2" "3" (Some key_name)).
Proof.
  intros Hn. split; [|constructor..]. unfold SchemiiDesignContent_check, list_check. simpl.
  unfold DesignTable_check, DesignKeyConstraint_check, DesignIdentifier, list_check. simpl. rewrite Hn. vm_compute. reflexivity.
Qed.

Lemma design_document_roundtrip_witness :
  decode_content (content_document true keyed_people) = Some keyed_people.
Proof. apply (design_document_roundtrip true keyed_people), keyed_built. vm_compute. reflexivity. Defined.

Lemma reconciliation_without_drift_witness :
  exists r, reconcile_designs (fun _ => "") bare_people keyed_people (imported_as (keyed "a" "b" "c" None)) "f" [] = Ok r /\
    rr_merged r = Some keyed_people.
Proof.
  destruct (reconciliation_without_drift (fun _ => "") bare_people keyed_people (imported_as (keyed "a" "b" "c" None)) "f" [] true)
    as (r & Hr & Hm & _).
  - apply validate_design_content_iff. vm_compute. reflexivity.
  - apply keyed_built. vm_compute. reflexivity.
  - apply (bool_decide_unpack _). vm_compute. exact I.
  - vm_compute. reflexivity.
  - exists r. split; [exact Hr|exact Hm].
Defined.

(** A combined schema that is invalid is not reported as a conflict: when the design
    and PostgreSQL each add a primary key, the validator's error escapes from the
    reconciliation, because only [ValueError] is caught. *)
Theorem invalid_combination_escapes :
  validate_design_content keyed_people = Ok tt /\
  reconcile_designs (fun _ => "") bare_people keyed_people (imported_as (keyed "a" "b" "c" (Some "people_pk"))) "f" [] =
    Err (DesignRefused (DesignValidationError "A table may have only one primary key" [("table", JStr "people")])).
Proof. split; vm_compute; reflexivity. Qed.
