(* ===== verification/SqlText.v ===== *)
(** * SQL texts

    The text builders of [migrations/planner.py] ([_quote], [_qualified], [_statement],
    [_column_definition], [_create_table], [_create_index], [_relationship_sql],
    [_constraint_sql], [_literal]).  [columns\[item\]] raises [KeyError] on an unknown
    ID, so the builders that look columns up return results.

    [lex_quoted] is the rule by which PostgreSQL reads a quoted token; the lemmas show
    that a quoted name or literal is read back exactly, whatever it contains. *)

From stdpp Require Import pretty.
From Stdlib Require Import Ascii String.
From S2P Require Import Prelude Json PyString DesignModels DefinitionAnalysis DesignValidation DesignDocument.
Open Scope string_scope.
Open Scope result_scope.

(** The exceptions planning can raise. *)
Inductive plan_error :=
| KeyError (key : string)
| IndexError
| AttributeError
| ParseError
| QueryError (e : definition_error)
| ValidationError.

Abbreviation planned A := (result plan_error A).

(** ** Tokens *)

(** [_quote]. *)
Definition quote (identifier : string) : string :=
  quote_text ++ py_replace_char quote_char (quote_text ++ quote_text) identifier ++ quote_text.

(** [_qualified]. *)
Definition qualified (namespace name : string) : string := quote namespace ++ "." ++ quote name.

(** [source.strip().rstrip(";")]. *)
Definition statement_body (source : string) : string := py_rstrip_char ";"%char (py_strip source).

(** [_statement]. *)
Definition statement (source : string) : string := statement_body source ++ ";".

(** [_literal]. *)
Definition literal (value : string) : string := "'" ++ py_replace_char "'"%char "''" value ++ "'".

(** ** Statements *)

Abbreviation column_map := (list (string * DesignColumn)).
Abbreviation table_map := (list (string * DesignTable)).

(** [d\[key\]]. *)
Definition get_item {V} (key : string) (d : list (string * V)) : planned V :=
  match dget key d with Some v => Ok v | None => Err (KeyError key) end.

(** [_quote(columns\[item\].name)]. *)
Definition quoted_column (columns : column_map) (item : string) : planned string :=
  let! c := get_item item columns in Ok (quote (dc_name c)).

(** [", ".join(_quote(columns\[item\].name) for item in ids)]. *)
Definition column_list (columns : column_map) (ids : list string) : planned string :=
  let! names := result_map (quoted_column columns) ids in Ok (py_join ", " names).

Definition key_text (kind : key_kind) : string :=
  match kind with KPrimary => "PRIMARY KEY" | KUnique => "UNIQUE" end.

(** [_column_definition]. *)
Definition column_definition (column : DesignColumn) : string :=
  py_join " "
    ([quote (dc_name column); py_strip (dc_data_type column)]
     ++ match dc_generated_expression column with
        | Some e => [("GENERATED ALWAYS AS (" ++ py_strip e ++ ") STORED")%string]
        | None =>
            match dc_identity column with
            | Some i => [("GENERATED " ++ match i with IdAlways => "ALWAYS" | IdByDefault => "BY DEFAULT" end
                          ++ " AS IDENTITY")%string]
            | None => match dc_default_expression column with Some e => [("DEFAULT " ++ py_strip e)%string] | None => [] end
            end
        end
     ++ (if dc_nullable column then [] else ["NOT NULL"]))%list.

(** [_table_maps]. *)
Definition table_maps (content : SchemiiDesignContent) : table_map * column_map :=
  (dict_by tb_id (content_tables content),
   dict_by dc_id (concat (tb_columns <$> content_tables content))).

Definition key_definition (columns : column_map) (key : DesignKeyConstraint) : planned string :=
  let! names := column_list columns (dk_column_ids key) in
  Ok ("CONSTRAINT " ++ quote (dk_name key) ++ " " ++ key_text (dk_kind key) ++ " (" ++ names ++ ")").

Definition check_definition (check : DesignCheckConstraint) : string :=
  "CONSTRAINT " ++ quote (ck_name check) ++ " CHECK (" ++ py_strip (ck_expression check) ++ ")".

(** [_create_table]. *)
Definition create_table (namespace : string) (table : DesignTable) (columns : column_map) : planned string :=
  let! keys := result_map (key_definition columns) (tb_keys table) in
  let definitions := ((column_definition <$> tb_columns table) ++ keys ++ (check_definition <$> tb_checks table))%list in
  Ok ("CREATE TABLE " ++ qualified namespace (tb_name table) ++ " (" ++ newline_text ++ "  "
      ++ py_join ("," ++ newline_text ++ "  ") definitions ++ newline_text ++ ");").

(** A field tested for truth: absent and empty texts are false. *)
Definition nonempty_text (o : option string) : option string :=
  match o with Some "" => None | _ => o end.

(** [_create_index]. *)
Definition create_index (namespace : string) (table : DesignTable) (index : DesignIndex) (columns : column_map)
    : planned string :=
  let! entries := result_map (quoted_column columns) (ix_column_ids index) in
  let entries := (entries ++ match nonempty_text (ix_expression index) with Some e => [py_strip e] | None => [] end)%list in
  let sql := "CREATE " ++ (if ix_unique index then "UNIQUE " else "") ++ "INDEX " ++ quote (ix_name index)
             ++ " ON " ++ qualified namespace (tb_name table)
             ++ " USING " ++ quote (ix_method index) ++ " (" ++ py_join ", " entries ++ ")" in
  let! included :=
    match ix_include_column_ids index with
    | [] => Ok ""
    | ids => let! names := column_list columns ids in Ok (" INCLUDE (" ++ names ++ ")")
    end in
  Ok (sql ++ included
      ++ match nonempty_text (ix_predicate index) with Some p => " WHERE " ++ py_strip p | None => "" end ++ ";").

(** [_relationship_sql]. *)
Definition relationship_sql (namespace : string) (relationship : DesignRelationship)
    (tables : table_map) (columns : column_map) : planned string :=
  let! source := get_item (rl_source_table_id relationship) tables in
  let! target := get_item (rl_target_table_id relationship) tables in
  let! source_columns := column_list columns (rl_source_column_ids relationship) in
  let! target_columns := column_list columns (rl_target_column_ids relationship) in
  Ok ("ALTER TABLE " ++ qualified namespace (tb_name source) ++ " ADD CONSTRAINT "
      ++ quote (rl_name relationship) ++ " FOREIGN KEY (" ++ source_columns ++ ") REFERENCES "
      ++ qualified namespace (tb_name target) ++ " (" ++ target_columns ++ ") "
      ++ "ON UPDATE " ++ fk_action_text (rl_on_update relationship)
      ++ " ON DELETE " ++ fk_action_text (rl_on_delete relationship)
      ++ (if rl_deferrable relationship
          then " DEFERRABLE" ++ (if rl_initially_deferred relationship then " INITIALLY DEFERRED" else "")
          else "") ++ ";").

(** The table constraints [_constraint_sql] takes: only keys have a kind. *)
Inductive table_constraint :=
| KeyItem (k : DesignKeyConstraint)
| CheckItem (c : DesignCheckConstraint).

Definition tc_name (item : table_constraint) : string :=
  match item with KeyItem k => dk_name k | CheckItem c => ck_name c end.

(** [_constraint_sql]. *)
Definition constraint_sql (namespace : string) (table : DesignTable) (item : table_constraint) (columns : column_map)
    : planned string :=
  let! definition :=
    match item with
    | KeyItem k => let! names := column_list columns (dk_column_ids k) in Ok (key_text (dk_kind k) ++ " (" ++ names ++ ")")
    | CheckItem c => Ok ("CHECK (" ++ py_strip (ck_expression c) ++ ")")
    end in
  Ok ("ALTER TABLE " ++ qualified namespace (tb_name table) ++ " ADD CONSTRAINT "
      ++ quote (tc_name item) ++ " " ++ definition ++ ";").

(** ** Reading quoted tokens back *)

(** The rest of a token opened by [q]: a doubled [q] stands for one, a single [q] ends
    the token. *)
Fixpoint lex_quoted_rest (q : ascii) (s : string) : option (string * string) :=
  match s with
  | EmptyString => None
  | String a s' =>
      if decide (a = q) then
        match s' with
        | String b s'' =>
            if decide (b = q) then
              match lex_quoted_rest q s'' with Some (w, rest) => Some (String q w, rest) | None => None end
            else Some ("", s')
        | EmptyString => Some ("", s')
        end
      else match lex_quoted_rest q s' with Some (w, rest) => Some (String a w, rest) | None => None end
  end.

(** A token quoted with [q], and the text after it. *)
Definition lex_quoted (q : ascii) (s : string) : option (string * string) :=
  match s with
  | String a s' => if decide (a = q) then lex_quoted_rest q s' else None
  | EmptyString => None
  end.

Definition starts_with_char (q : ascii) (s : string) : bool :=
  match s with String a _ => bool_decide (a = q) | EmptyString => false end.

Lemma lex_quoted_rest_exact q w rest :
  starts_with_char q rest = false ->
  lex_quoted_rest q (py_replace_char q (String q (String q "")) w ++ String q rest) = Some (w, rest).
Proof.
  intros Hrest. induction w as [|a w IH]; simpl.
  - rewrite decide_True by done. destruct rest as [|b rest]; [done|]. simpl in Hrest.
    rewrite bool_decide_eq_false in Hrest. by rewrite decide_False.
  - case_bool_decide as Ha; simpl.
    + subst a. rewrite !decide_True by done. rewrite str_app_nil_l. by rewrite IH.
    + rewrite decide_False by done. rewrite ?str_app_nil_l. by rewrite IH.
Qed.

(** A token quoted by doubling its quotation marks is read back exactly. *)
Lemma lex_quoted_exact q w rest :
  starts_with_char q rest = false ->
  lex_quoted q (String q (py_replace_char q (String q (String q "")) w ++ String q rest)) = Some (w, rest).
Proof. intros. simpl. rewrite decide_True by done. by apply lex_quoted_rest_exact. Qed.

Lemma quote_unfold w rest :
  quote w ++ rest = String quote_char (py_replace_char quote_char (String quote_char (String quote_char "")) w ++ String quote_char rest).
Proof. unfold quote, quote_text, quote_char. rewrite !str_app_assoc. reflexivity. Qed.

Lemma lex_quote w rest : starts_with_char quote_char rest = false -> lex_quoted quote_char (quote w ++ rest) = Some (w, rest).
Proof. intros. rewrite quote_unfold. by apply lex_quoted_exact. Qed.

Lemma lex_literal w rest : starts_with_char "'"%char rest = false -> lex_quoted "'"%char (literal w ++ rest) = Some (w, rest).
Proof. intros. unfold literal. rewrite !str_app_assoc. by apply (lex_quoted_exact "'"%char). Qed.

(** Names in a qualified name cannot be confused, nor run into what follows. *)
Lemma qualified_inj ns n ns' n' rest rest' :
  starts_with_char quote_char rest = false -> starts_with_char quote_char rest' = false ->
  qualified ns n ++ rest = qualified ns' n' ++ rest' -> ns = ns' /\ n = n' /\ rest = rest'.
Proof.
  intros Hr Hr' Heq. unfold qualified in Heq. rewrite !str_app_assoc in Heq.
  assert (forall m r, starts_with_char quote_char ("." ++ quote m ++ r) = false) as Hdot by done.
  pose proof (f_equal (lex_quoted quote_char) Heq) as H1. rewrite !lex_quote in H1 by done.
  apply (inj Some), pair_equal_spec in H1 as [-> H2].
  assert (quote n ++ rest = quote n' ++ rest') as H3' by (by apply (f_equal (fun s => match s with String _ t => t | "" => "" end)) in H2). pose proof (f_equal (lex_quoted quote_char) H3') as H3.
  rewrite !lex_quote in H3 by done. by injection H3 as -> ->.
Qed.
