(* ===== verification/PlanAnalysis.v ===== *)
(** * What the planner compares

    The comparisons of [migrations/planner.py] that decide whether an object needs a
    change: declarations of routine parameters, checks and indexes up to the order of
    their dependencies, column types, the views that read a table, and the physical
    order of columns.  [preserve_column_display_order] and
    [physical_column_order_mismatches] work on the same order.

    [referenced_relations] of [common/postgres/query_analysis.py] walks a sqlglot tree;
    the class [SqlglotRelations] gives the two lists of nodes it reads. *)

From stdpp Require Import pretty.
From Stdlib Require Import Ascii String.
From S2P Require Import Prelude Json PyString DesignModels DefinitionAnalysis DesignValidation DesignDocument.
From S2P Require Import MigrationModels CheckExpressions TypeChanges SqlText.
Open Scope string_scope.
Open Scope result_scope.

(** ** Sets of IDs *)

(** [sorted(set(a) | set(b))] and [sorted(set(a) & set(b))]. *)
Definition sorted_union (a b : list string) : list string := merge_sort String.le (dict_fromkeys (a ++ b)%list).
Definition sorted_inter (a b : list string) : list string :=
  merge_sort String.le (filter (fun x => x ∈ b) (dict_fromkeys a)).
(** [sorted(set(a))]. *)
Definition sorted_set (a : list string) : list string := merge_sort String.le (dict_fromkeys a).
(** [set(a) == set(b)]. *)
Definition same_set (a b : list string) : bool := subset_of a b && subset_of b a.

(** ** Routine parameters *)

Definition input_modes : list param_mode := [FUNC_PARAM_DEFAULT; FUNC_PARAM_IN].

Definition normalized_mode (m : param_mode) : param_mode :=
  if bool_decide (m ∈ input_modes) then FUNC_PARAM_IN else m.

Section routines.
Context `{Pglast}.

(** [parse_sql(definition)\[0\].stmt.parameters or ()]; other statements have no
    parameters. *)
Definition declared_parameters (definition : string) : planned (list pg_parameter) :=
  match parse_sql definition with
  | None => Err ParseError
  | Some [] => Err IndexError
  | Some (CreateFunctionStmt s :: _) => Ok (cf_parameters s)
  | Some _ => Err AttributeError
  end.

Definition parameter_requires_migration (old new : pg_parameter) : bool :=
  let old_mode := normalized_mode (fp_mode old) in
  let new_mode := normalized_mode (fp_mode new) in
  (negb (bool_decide (old_mode = new_mode))
   || negb (bool_decide (raw_stream (fp_argType old) = raw_stream (fp_argType new))))
  || (negb (bool_decide (fp_name old = fp_name new))
      && (bool_decide (is_Some (fp_name old)) || negb (bool_decide (old_mode ∈ input_modes))))
  || (bool_decide (is_Some (fp_defexpr old)) && bool_decide (fp_defexpr new = None)).

Definition routine_parameters_require_migration (before after : DesignFunction) : planned bool :=
  let! old_parameters := declared_parameters (fn_definition before) in
  let! new_parameters := declared_parameters (fn_definition after) in
  if negb (bool_decide (length old_parameters = length new_parameters)) then Ok true else
  Ok (existsb (fun p => parameter_requires_migration p.1 p.2) (zip old_parameters new_parameters)).
End routines.

(** ** Checks and indexes *)

(** [_same_dependency_set]. *)
Definition same_dependency_set (left right : list string) : bool := same_set left right.

(** The fields of [_same_index], the dependency lists sorted. *)
Definition sorted_dependencies (i : DesignIndex) : DesignIndex :=
  {| ix_id := ix_id i; ix_name := ix_name i; ix_method := ix_method i; ix_column_ids := ix_column_ids i;
     ix_include_column_ids := ix_include_column_ids i; ix_expression := ix_expression i;
     ix_expression_source_column_ids := merge_sort String.le (ix_expression_source_column_ids i);
     ix_predicate := ix_predicate i; ix_predicate_column_ids := merge_sort String.le (ix_predicate_column_ids i);
     ix_unique := ix_unique i |}.

(** [_same_index], with [_same_except_dependency_order] at its two fields. *)
Definition same_index (left right : DesignIndex) : bool :=
  bool_decide (sorted_dependencies left = sorted_dependencies right).

(** [_same_check]: everything but the expression, the column IDs sorted, then the
    expressions up to equivalence. *)
Definition same_check `{SqlglotTrees} (left right : DesignCheckConstraint) (column_types : list (string * string)) : bool :=
  bool_decide ((ck_id left, ck_name left, merge_sort String.le (ck_column_ids left)) =
               (ck_id right, ck_name right, merge_sort String.le (ck_column_ids right)))
  && equivalent_check_expressions (ck_expression left) (ck_expression right) column_types.

(** ** Column types *)

(** [_column_type_changes]: the dictionary of changes is used only by its keys and
    values, so the order of the sets does not matter. *)
Definition column_type_changes (live_tables desired_tables : table_map) : list (string * TypeChangeDecision) :=
  dict_fill fst snd
    (concat ((fun table_id =>
       match dget table_id live_tables, dget table_id desired_tables with
       | Some before, Some after =>
           let before_columns := dict_by dc_id (tb_columns before) in
           let after_columns := dict_by dc_id (tb_columns after) in
           omap (fun column_id =>
             match dget column_id before_columns, dget column_id after_columns with
             | Some old, Some new =>
                 let decision := classify_type_change (dc_data_type old) (dc_data_type new) in
                 if bool_decide (tcd_disposition decision = Equivalent) then None else Some (column_id, decision)
             | _, _ => None
             end) (sorted_inter (dkeys before_columns) (dkeys after_columns))
       | _, _ => []
       end) <$> sorted_inter (dkeys live_tables) (dkeys desired_tables))) [].

(** A new column that cannot populate existing rows. *)
Definition cannot_populate (c : DesignColumn) : bool :=
  negb (dc_nullable c) && bool_decide (dc_default_expression c = None)
  && bool_decide (dc_identity c = None) && bool_decide (dc_generated_expression c = None).

Definition tables_requiring_empty_for_required_columns (live desired : SchemiiDesignContent) : list string :=
  let live_tables := dict_by tb_id (content_tables live) in
  let desired_tables := dict_by tb_id (content_tables desired) in
  dict_fromkeys (concat ((fun table_id =>
    match dget table_id live_tables, dget table_id desired_tables with
    | Some before, Some after =>
        (fun _ => tb_name before) <$>
          filter (fun c => (dc_id c ∉ dc_id <$> tb_columns before) /\ cannot_populate c = true) (tb_columns after)
    | _, _ => []
    end) <$> sorted_inter (dkeys live_tables) (dkeys desired_tables))).

(** ** Relations of a query *)

Definition MAX_ANALYSIS_ITEMS : nat := 512.

(** For the nodes [statement.find_all] gives: the names of the common table expressions,
    and the [db] and [name] of the tables. *)
Class SqlglotRelations `{Sqlglot} := {
  cte_names : sql_expression -> list string;
  table_nodes : sql_expression -> list (string * string);
}.

Section relations.
Context `{SqlglotRelations}.

Fixpoint collect_relations (ctes : list string) (current_namespace : string) (tables references : list (string * string))
    : list (string * string) :=
  match tables with
  | [] => references
  | (db, name) :: rest =>
      if bool_decide (db = "") && bool_decide (name ∈ ctes) then collect_relations ctes current_namespace rest references else
      let identity := (if bool_decide (db = "") then current_namespace else db, name) in
      let references := if bool_decide (identity ∈ references) then references else (references ++ [identity])%list in
      if bool_decide (MAX_ANALYSIS_ITEMS <= length references) then references
      else collect_relations ctes current_namespace rest references
  end.

Definition referenced_relations (definition current_namespace : string) : result definition_error (list (string * string)) :=
  let! statement := parse_query_definition definition in
  Ok (collect_relations (cte_names statement) current_namespace (table_nodes statement) []).

(** [_dependent_view_names]. *)
Definition dependent_view_names (namespace table_name : string) (live desired : SchemiiDesignContent)
    : planned (list string) :=
  let! names := result_map (fun view =>
    match referenced_relations (vw_definition view) namespace with
    | Ok references => Ok (if bool_decide ((namespace, table_name) ∈ references) then [vw_name view] else [])
    | Err e => Err (QueryError e)
    end) (content_views live ++ content_views desired)%list in
  Ok (sorted_set (concat names)).

(** ** Physical column order *)

Record ColumnOrderDifference := {
  cod_table_id : string;
  cod_table_name : string;
  cod_current_order : list string;
  cod_desired_order : list string;
  cod_blocking_reasons : list string;
}.

(** A character of [\w]; a byte outside ASCII is taken for part of a letter. *)
Definition is_word_char (c : ascii) : bool :=
  let x := byte_of c in
  bool_decide ((48 <= x <= 57) \/ (65 <= x <= 90) \/ x = 95 \/ (97 <= x <= 122) \/ 128 <= x)%N.

(** [re.search(r"\bnextval\s*\(", s, re.IGNORECASE)] on the lower-cased text; [word]
    says whether the character before is of [\w]. *)
Fixpoint calls_nextval (word : bool) (s : string) : bool :=
  (negb word && String.prefix "nextval" s
   && String.prefix "(" (py_lstrip (str_drop (String.length "nextval") s)))
  || match s with
     | EmptyString => false
     | String c s' => calls_nextval (is_word_char c) s'
     end.

Definition order_column_reasons (before after : DesignTable) : list string :=
  let current_ids := dc_id <$> tb_columns before in
  let desired_ids := dc_id <$> tb_columns after in
  let before_columns := dict_by dc_id (tb_columns before) in
  let after_columns := dict_by dc_id (tb_columns after) in
  if negb (same_set current_ids desired_ids) then
    ["Apply this table's column additions or removals before rebuilding its physical order."]
  else if existsb (fun item => negb (bool_decide (dget item before_columns = dget item after_columns))) current_ids then
    ["Apply this table's column edits before rebuilding its physical order."]
  else [].

(** The scan over two dictionaries that stops at the first edited involved object. *)
Definition edited_involved {A} `{EqDecision A} (involved : A -> bool) (live desired : list (string * A)) : bool :=
  existsb (fun i =>
    let old := dget i live in let new := dget i desired in
    (match old with Some o => involved o | None => false end || match new with Some o => involved o | None => false end)
    && negb (bool_decide (old = new))) (sorted_union (dkeys live) (dkeys desired)).

Definition relationship_involves (table_id : string) (r : DesignRelationship) : bool :=
  bool_decide (table_id = rl_source_table_id r) || bool_decide (table_id = rl_target_table_id r).

Definition order_reasons (namespace : string) (live desired : SchemiiDesignContent) (table_id : string)
    (before after : DesignTable) : planned (list string) :=
  let! dependent_views := dependent_view_names namespace (tb_name before) live desired in
  Ok (order_column_reasons before after
      ++ (if bool_decide (tb_name before = tb_name after) then []
          else ["Apply the table rename before rebuilding its physical order."])
      ++ (if bool_decide (tb_keys before = tb_keys after) && bool_decide (tb_checks before = tb_checks after)
             && bool_decide (tb_indexes before = tb_indexes after) then []
          else ["Apply this table's constraint and index edits before rebuilding its physical order."])
      ++ (if edited_involved (relationship_involves table_id)
               (dict_by rl_id (content_relationships live)) (dict_by rl_id (content_relationships desired))
          then ["Apply foreign-key edits involving this table before rebuilding its physical order."] else [])
      ++ (if edited_involved (fun t => bool_decide (tr_relation_name t ∈ [tb_name before; tb_name after]))
               (dict_by tr_id (content_triggers live)) (dict_by tr_id (content_triggers desired))
          then ["Apply trigger edits on this table before rebuilding its physical order."] else [])
      ++ match dependent_views with
         | [] => []
         | _ => [("Rebuild or remove dependent views first: " ++ py_join ", " dependent_views)%string]
         end
      ++ (if existsb (fun c => bool_decide (is_Some (dc_generated_expression c))) (tb_columns after)
          then ["Physical reordering of generated columns is not yet lossless."] else [])
      ++ (if existsb (fun c => match dc_default_expression c with
                               | Some e => calls_nextval false (py_lower e)
                               | None => false
                               end) (tb_columns after)
          then ["Serial-sequence defaults must be converted to identity columns before physical reordering."] else []))%list.

Definition column_order_difference (namespace : string) (live desired : SchemiiDesignContent)
    (table_id : string) (before after : DesignTable) : planned (list ColumnOrderDifference) :=
  if bool_decide (dc_id <$> tb_columns before = dc_id <$> tb_columns after) then Ok [] else
  let! reasons := order_reasons namespace live desired table_id before after in
  Ok [{| cod_table_id := table_id; cod_table_name := tb_name after;
         cod_current_order := dc_name <$> tb_columns before; cod_desired_order := dc_name <$> tb_columns after;
         cod_blocking_reasons := dict_fromkeys reasons |}].

Definition column_order_differences (namespace : string) (live desired : SchemiiDesignContent)
    : planned (list ColumnOrderDifference) :=
  let live_tables := dict_by tb_id (content_tables live) in
  let desired_tables := dict_by tb_id (content_tables desired) in
  let! differences := result_map (fun table_id =>
    match dget table_id live_tables, dget table_id desired_tables with
    | Some before, Some after => column_order_difference namespace live desired table_id before after
    | _, _ => Ok []
    end) (sorted_inter (dkeys live_tables) (dkeys desired_tables)) in
  Ok (concat differences).
End relations.

Definition physical_column_order_mismatches (live desired : SchemiiDesignContent) (table_ids : list string) : list string :=
  let live_tables := dict_by tb_id (content_tables live) in
  let desired_tables := dict_by tb_id (content_tables desired) in
  omap (fun table_id =>
    match dget table_id live_tables, dget table_id desired_tables with
    | Some before, Some after =>
        if bool_decide (dc_id <$> tb_columns before = dc_id <$> tb_columns after) then None else Some (tb_name after)
    | None, Some after => Some (tb_name after)
    | _, None => Some table_id
    end) (sorted_set table_ids).

(** The preferred order of the columns that still exist, then the others.  A design
    decodes to itself, so the step through documents is left out. *)
Definition preferred_order (columns preferred : list DesignColumn) : list DesignColumn :=
  let by_id := dict_by dc_id columns in
  let ordered := omap (fun c => dget (dc_id c) by_id) preferred in
  (ordered ++ filter (fun c => dc_id c ∉ dc_id <$> ordered) columns)%list.

Definition preserve_column_display_order (inspected preferred : SchemiiDesignContent) : SchemiiDesignContent :=
  let preferred_tables := dict_by tb_id (content_tables preferred) in
  {| content_types := content_types inspected;
     content_tables := (fun table =>
       match dget (tb_id table) preferred_tables with
       | None => table
       | Some preferred_table =>
           {| tb_id := tb_id table; tb_name := tb_name table;
              tb_columns := preferred_order (tb_columns table) (tb_columns preferred_table);
              tb_keys := tb_keys table; tb_checks := tb_checks table; tb_indexes := tb_indexes table |}
       end) <$> content_tables inspected;
     content_relationships := content_relationships inspected; content_functions := content_functions inspected;
     content_views := content_views inspected; content_triggers := content_triggers inspected |}.
