(* ===== verification/MigrationPlanner.v ===== *)
(** * Compiling a migration

    [compile_migration_steps] of [migrations/planner.py] and the passes it runs: one
    function per [_plan_*] pass and per loop body, in the order of the source.

    - A pass returns what it appends: [Pending] for [plan.pending], [Blocking] for
      [plan.blocking].  The two lists are only appended to, and only the final
      function reads them.
    - [_MigrationPlan]'s inputs are the record [plan_inputs].
    - A lookup that fails is [KeyError]; a report whose text exceeds the limits of its
      model is [ValidationError]. *)

From stdpp Require Import pretty.
From Stdlib Require Import Ascii String.
From S2P Require Import Prelude Json PyString DesignModels DefinitionAnalysis DesignValidation DesignDocument.
From S2P Require Import MigrationModels CheckExpressions TypeChanges SqlText PlanAnalysis.
Open Scope string_scope.
Open Scope result_scope.

(** ** What is planned *)

Record PendingStep := {
  ps_phase : nat;
  ps_kind : migration_object_kind;
  ps_path : string;
  ps_operation : string;
  ps_sql : string;
  ps_destructive : bool;
  ps_requires_lock : bool;
  ps_data_movement : bool;
  ps_order : nat;
}.

Record CompiledConversion := {
  cc_review : ColumnTypeConversion;
  cc_expression : string;
  cc_target_type : string;
  cc_validation_sql : string;
  cc_guard_sql : option string;
}.

Inductive emission :=
| Pending (s : PendingStep)
| Blocking (w : MigrationWarning).

Abbreviation emissions := (planned (list emission)).

(** A step with the defaults of the source but for the given flags. *)
Definition ordered_step (order phase : nat) (kind : migration_object_kind) (path operation sql : string)
    (destructive data_movement : bool) : PendingStep :=
  {| ps_phase := phase; ps_kind := kind; ps_path := path; ps_operation := operation; ps_sql := sql;
     ps_destructive := destructive; ps_requires_lock := true; ps_data_movement := data_movement; ps_order := order |}.
Definition flagged_step := ordered_step 0.
Definition plain_step (phase : nat) (kind : migration_object_kind) (path operation sql : string) : PendingStep :=
  flagged_step phase kind path operation sql false false.

Definition emit (s : PendingStep) : emissions := Ok [Pending s].

Definition warning_valid (w : MigrationWarning) : bool :=
  length_between 1 128 (mw_code w) && length_between 1 2048 (mw_message w)
  && opt_check (length_between 0 1024) (mw_object_path w).

Definition block (code message path : string) : emissions :=
  let w := {| mw_code := code; mw_message := message; mw_object_path := Some path |} in
  if warning_valid w then Ok [Blocking w] else Err ValidationError.

Definition both (a b : emissions) : emissions :=
  let! x := a in let! y := b in Ok (x ++ y)%list.
Arguments both : simpl never.
Infix "+++" := both (at level 60, right associativity) : result_scope.

Definition nothing : emissions := Ok [].
Definition when (b : bool) (e : emissions) : emissions := if b then e else nothing.
Definition each {A} (f : A -> emissions) (l : list A) : emissions :=
  let! parts := result_map f l in Ok (concat parts).
(** [enumerate(l)]. *)
Definition enumerate {A} (l : list A) : list (nat * A) := zip (seq 0 (length l)) l.

Record plan_inputs := {
  plan_namespace : string;
  plan_live : SchemiiDesignContent;
  plan_desired : SchemiiDesignContent;
  plan_empty_tables : list string;
  plan_live_tables : table_map;
  plan_desired_tables : table_map;
  plan_desired_columns : column_map;
  plan_safe_type_change_ids : list string;
  plan_conversions : list (string * CompiledConversion);
}.

Section planner.
Context `{Pglast} `{SqlglotRelations} `{SqlglotTrees} `{Sha256}.

(** ** Physical column order *)

Definition reorder_detach (namespace : string) (live : SchemiiDesignContent) (live_tables : table_map)
    (table_id : string) (before : DesignTable) : emissions :=
  let qualified_table := qualified namespace (tb_name before) in
  each (fun r =>
    if negb (relationship_involves table_id r) then nothing else
    let! source := get_item (rl_source_table_id r) live_tables in
    emit (plain_step 5 MRelationship ("relationships." ++ rl_name r) "drop_for_physical_reorder"
      ("ALTER TABLE " ++ qualified namespace (tb_name source) ++ " DROP CONSTRAINT " ++ quote (rl_name r) ++ ";")))
    (content_relationships live)
  +++ each (fun t =>
    when (bool_decide (tr_relation_name t = tb_name before))
      (emit (plain_step 6 MTrigger ("triggers." ++ tb_name before ++ "." ++ tr_name t) "drop_for_physical_reorder"
        ("DROP TRIGGER " ++ quote (tr_name t) ++ " ON " ++ qualified_table ++ ";"))))
    (content_triggers live)
  +++ each (fun i =>
    emit (plain_step 7 MIndex ("tables." ++ tb_name before ++ ".indexes." ++ ix_name i) "drop_for_physical_reorder"
      ("DROP INDEX " ++ qualified namespace (ix_name i) ++ ";")))
    (tb_indexes before)
  +++ each (fun item =>
    emit (plain_step 8 MConstraint ("tables." ++ tb_name before ++ ".constraints." ++ tc_name item)
      "drop_for_physical_reorder"
      ("ALTER TABLE " ++ qualified_table ++ " DROP CONSTRAINT " ++ quote (tc_name item) ++ ";")))
    ((KeyItem <$> tb_keys before) ++ (CheckItem <$> tb_checks before))%list.

Definition reorder_columns (namespace : string) (table_path backup_name column_names : string)
    (before after : DesignTable) (contains_data : bool) : emissions :=
  let qualified_table := qualified namespace (tb_name before) in
  each (fun oc =>
    emit (ordered_step oc.1 9 MColumn ("tables." ++ tb_name before ++ ".columns." ++ dc_name oc.2)
      "remove_for_physical_reorder"
      ("ALTER TABLE " ++ qualified_table ++ " DROP COLUMN " ++ quote (dc_name oc.2) ++ ";")
      contains_data contains_data))
    (enumerate (tb_columns before))
  +++ when contains_data
    (emit (flagged_step 10 MTable table_path "clear_staged_rows_for_physical_reorder"
      ("TRUNCATE TABLE " ++ qualified_table ++ ";") true true))
  +++ each (fun oc =>
    emit (ordered_step oc.1 40 MColumn ("tables." ++ tb_name after ++ ".columns." ++ dc_name oc.2)
      "restore_in_physical_order"
      ("ALTER TABLE " ++ qualified_table ++ " ADD COLUMN " ++ column_definition oc.2 ++ ";")
      false contains_data))
    (enumerate (tb_columns after))
  +++ when contains_data
    (let identity_override :=
       if existsb (fun c => bool_decide (is_Some (dc_identity c))) (tb_columns after)
       then " OVERRIDING SYSTEM VALUE" else "" in
     emit (flagged_step 45 MTable table_path "restore_rows_after_physical_reorder"
      ("INSERT INTO " ++ qualified_table ++ " (" ++ column_names ++ ")" ++ identity_override ++ " "
       ++ "SELECT " ++ column_names ++ " FROM pg_temp." ++ quote backup_name ++ ";") false true))
  +++ each (fun c =>
    if bool_decide (dc_identity c = None) then nothing else
    let sequence_lookup :=
      "pg_get_serial_sequence(" ++ literal (qualified namespace (tb_name after)) ++ ", "
      ++ literal (dc_name c) ++ ")::regclass" in
    emit (flagged_step 46 MColumn ("tables." ++ tb_name after ++ ".columns." ++ dc_name c)
      "synchronize_identity_after_physical_reorder"
      ("SELECT setval(" ++ sequence_lookup ++ ", " ++ "COALESCE(GREATEST(MAX(" ++ quote (dc_name c) ++ "), 1), 1), "
       ++ "MAX(" ++ quote (dc_name c) ++ ") IS NOT NULL) FROM " ++ qualified_table ++ ";") false contains_data))
    (tb_columns after).

Definition reorder_restore (namespace : string) (desired : SchemiiDesignContent) (desired_tables : table_map)
    (desired_columns : column_map) (table_id : string) (after : DesignTable) : emissions :=
  each (fun item =>
    let! sql := constraint_sql namespace after item desired_columns in
    emit (plain_step 60 MConstraint ("tables." ++ tb_name after ++ ".constraints." ++ tc_name item)
      "restore_after_physical_reorder" sql))
    ((KeyItem <$> tb_keys after) ++ (CheckItem <$> tb_checks after))%list
  +++ each (fun i =>
    let! sql := create_index namespace after i desired_columns in
    emit (plain_step 65 MIndex ("tables." ++ tb_name after ++ ".indexes." ++ ix_name i)
      "restore_after_physical_reorder" sql))
    (tb_indexes after)
  +++ each (fun r =>
    if negb (relationship_involves table_id r) then nothing else
    let! sql := relationship_sql namespace r desired_tables desired_columns in
    emit (plain_step 70 MRelationship ("relationships." ++ rl_name r) "restore_after_physical_reorder" sql))
    (content_relationships desired)
  +++ each (fun t =>
    when (bool_decide (tr_relation_name t = tb_name after))
      (emit (plain_step 80 MTrigger ("triggers." ++ tb_name after ++ "." ++ tr_name t)
        "restore_after_physical_reorder" (statement (tr_definition t)))))
    (content_triggers desired).

(** [_append_column_order_rebuild]. *)
Definition append_column_order_rebuild (namespace : string) (live desired : SchemiiDesignContent)
    (table_id : string) (contains_data : bool) : emissions :=
  let live_tables := (table_maps live).1 in
  let '(desired_tables, desired_columns) := table_maps desired in
  let! before := get_item table_id live_tables in
  let! after := get_item table_id desired_tables in
  let table_path := "tables." ++ tb_name after ++ ".column_order" in
  let qualified_table := qualified namespace (tb_name before) in
  let backup_name := "schemii_reorder_" ++ String.substring 0 20 (sha256_hex table_id) in
  let column_names := py_join ", " ((fun c => quote (dc_name c)) <$> tb_columns before) in
  emit (flagged_step 1 MTable table_path "lock_for_physical_reorder"
    ("LOCK TABLE " ++ qualified_table ++ " IN ACCESS EXCLUSIVE MODE;") false contains_data)
  +++ when contains_data
    (emit (flagged_step 2 MTable table_path "stage_rows_for_physical_reorder"
      ("CREATE TEMP TABLE " ++ quote backup_name ++ " ON COMMIT DROP AS "
       ++ "SELECT " ++ column_names ++ " FROM " ++ qualified_table ++ ";") false true))
  +++ reorder_detach namespace live live_tables table_id before
  +++ reorder_columns namespace table_path backup_name column_names before after contains_data
  +++ reorder_restore namespace desired desired_tables desired_columns table_id after.

(** [_plan_physical_column_rebuilds]. *)
Definition plan_physical_column_rebuilds (plan : plan_inputs) (rebuild_table_ids populated_rebuild_table_ids : list string)
    : emissions :=
  let! differences := column_order_differences (plan_namespace plan) (plan_live plan) (plan_desired plan) in
  let order_differences := dict_by cod_table_id differences in
  each (fun table_id =>
    match dget table_id order_differences with
    | None =>
        block "physical_column_order_not_available"
          "This table no longer has a physical column-order difference to rebuild."
          ("tables." ++ table_id ++ ".column_order")
    | Some difference =>
        match cod_blocking_reasons difference with
        | [] => append_column_order_rebuild (plan_namespace plan) (plan_live plan) (plan_desired plan) table_id
                  (bool_decide (table_id ∈ populated_rebuild_table_ids))
        | reasons =>
            block "physical_column_order_rebuild_blocked" (py_join " " reasons)
              ("tables." ++ cod_table_name difference ++ ".column_order")
        end
    end) (sorted_set rebuild_table_ids).

(** ** Relationships *)

Definition relationship_columns (r : option DesignRelationship) : list string :=
  match r with Some r => (rl_source_column_ids r ++ rl_target_column_ids r)%list | None => [] end.

Definition plan_relationship (plan : plan_inputs) (before after : option DesignRelationship) : emissions :=
  let changed_relationship_column :=
    intersects (plan_safe_type_change_ids plan) (relationship_columns before ++ relationship_columns after)%list in
  if bool_decide (before = after) && negb changed_relationship_column then nothing else
  match before with
  | Some before =>
      let! table := get_item (rl_source_table_id before) (plan_live_tables plan) in
      emit (flagged_step 10 MRelationship ("relationships." ++ rl_name before) "drop"
        ("ALTER TABLE " ++ qualified (plan_namespace plan) (tb_name table) ++ " DROP CONSTRAINT "
         ++ quote (rl_name before) ++ ";") (bool_decide (after = None)) false)
  | None => nothing
  end
  +++ match after with
      | Some after =>
          let! sql := relationship_sql (plan_namespace plan) after (plan_desired_tables plan) (plan_desired_columns plan) in
          emit (plain_step 70 MRelationship ("relationships." ++ rl_name after) "create" sql)
      | None => nothing
      end.

(** The loops of the passes: every ID of either side, in order. *)
Definition each_id {A} (live desired : list (string * A)) (f : string -> option A -> option A -> emissions) : emissions :=
  each (fun i => f i (dget i live) (dget i desired)) (sorted_union (dkeys live) (dkeys desired)).

(** [_plan_relationship_changes]. *)
Definition plan_relationship_changes (plan : plan_inputs) : emissions :=
  each_id (dict_by rl_id (content_relationships (plan_live plan)))
    (dict_by rl_id (content_relationships (plan_desired plan))) (fun _ => plan_relationship plan).

(** ** Columns *)

Section table.
Variable plan : plan_inputs.
Variables before after : DesignTable.
Variable active_name : string.

Abbreviation alter_table := ("ALTER TABLE " ++ qualified (plan_namespace plan) active_name).
Abbreviation alter_column name := (alter_table ++ " ALTER COLUMN " ++ quote name).

Definition column_path (name : string) : string := "tables." ++ tb_name after ++ ".columns." ++ name.

Definition plan_new_column (new : DesignColumn) : emissions :=
  let path := column_path (dc_name new) in
  if cannot_populate new && negb (bool_decide (tb_name before ∈ plan_empty_tables plan)) then
    block "required_column_population_required"
      ("Adding required column " ++ tb_name after ++ "." ++ dc_name new ++ " needs a default, "
       ++ "identity, generated expression, or an empty live table") path
  else
    emit (flagged_step 45 MColumn path "add" (alter_table ++ " ADD COLUMN " ++ column_definition new ++ ";") false
      (bool_decide (is_Some (dc_default_expression new)) || bool_decide (is_Some (dc_identity new))
       || bool_decide (is_Some (dc_generated_expression new)))).

Definition plan_dropped_column (old : DesignColumn) : emissions :=
  emit (flagged_step 20 MColumn (column_path (dc_name old)) "drop"
    (alter_table ++ " DROP COLUMN " ++ quote (dc_name old) ++ ";") true true).

(** The steps of an accepted conversion before the type is altered. *)
Definition plan_conversion_guards (path current_column_name : string) (old : DesignColumn)
    (conversion : option CompiledConversion) : emissions :=
  match conversion with
  | None => nothing
  | Some c =>
      emit (plain_step 5 MTable ("tables." ++ tb_name before) "lock_for_conversion"
        ("LOCK TABLE " ++ qualified (plan_namespace plan) (tb_name before) ++ " IN ACCESS EXCLUSIVE MODE;"))
      +++ match nonempty_text (cc_guard_sql c) with
          | Some guard => emit (plain_step 46 MColumn path "validate_conversion" guard)
          | None => nothing
          end
      +++ when (bool_decide (is_Some (dc_default_expression old)))
            (emit (plain_step 47 MColumn path "drop_default_for_conversion"
              (alter_column current_column_name ++ " DROP DEFAULT;")))
  end.

Definition plan_column_type (column_id path current_column_name : string) (old new : DesignColumn)
    (conversion : option CompiledConversion) : emissions :=
  let type_change := classify_type_change (dc_data_type old) (dc_data_type new) in
  if bool_decide (tcd_disposition type_change = Safe) || bool_decide (is_Some conversion) then
    let dependent_generated :=
      merge_sort String.le (dc_name <$> filter (fun c => column_id ∈ dc_generated_source_column_ids c) (tb_columns after)) in
    let! views_after := dependent_view_names (plan_namespace plan) (tb_name after) (plan_live plan) (plan_desired plan) in
    let! views_before := dependent_view_names (plan_namespace plan) (tb_name before) (plan_live plan) (plan_desired plan) in
    let dependencies :=
      (((fun name => ("generated column " ++ tb_name after ++ "." ++ name)%string) <$> dependent_generated)
       ++ ((fun name => ("view " ++ name)%string) <$> sorted_union views_after views_before))%list in
    match dependencies with
    | _ :: _ =>
        block "column_type_dependency_requires_review"
          ("Changing " ++ tb_name after ++ "." ++ dc_name new ++ " requires rebuilding " ++ py_join ", " dependencies) path
    | [] =>
        plan_conversion_guards path current_column_name old conversion
        +++ emit (flagged_step 48 MColumn path "alter_type"
          (alter_column current_column_name ++ " TYPE "
           ++ match conversion with Some c => cc_target_type c | None => py_strip (dc_data_type new) end
           ++ match conversion with Some c => " USING " ++ cc_expression c | None => "" end ++ ";")
          (match conversion with Some c => bool_decide (ctc_strategy (cc_review c) = Some Custom) | None => false end) true)
    end
  else when (bool_decide (tcd_disposition type_change = Blocked))
    (block "column_type_conversion_required"
      ("Changing " ++ tb_name after ++ "." ++ dc_name new ++ " from " ++ dc_data_type old ++ " to "
       ++ dc_data_type new ++ " requires a reviewed USING expression: " ++ tcd_reason type_change) path).

Definition plan_kept_column (column_id : string) (old new : DesignColumn) : emissions :=
  let path := column_path (dc_name new) in
  let renamed := negb (bool_decide (dc_name old = dc_name new)) in
  let current_column_name := if renamed then dc_name new else dc_name old in
  let conversion := dget column_id (plan_conversions plan) in
  when renamed
    (emit (plain_step 42 MColumn path "rename"
      (alter_table ++ " RENAME COLUMN " ++ quote (dc_name old) ++ " TO " ++ quote (dc_name new) ++ ";")))
  +++ plan_column_type column_id path current_column_name old new conversion
  +++ when (negb (bool_decide (dc_identity old = dc_identity new))
            || negb (bool_decide (dc_generated_expression old = dc_generated_expression new))
            || negb (same_dependency_set (dc_generated_source_column_ids old) (dc_generated_source_column_ids new)))
    (block "column_generation_change_unsupported"
      ("Changing generated or identity behavior for " ++ tb_name after ++ "." ++ dc_name new ++ " is not yet lossless") path)
  +++ when ((negb (bool_decide (dc_default_expression old = dc_default_expression new))
             || (bool_decide (is_Some conversion) && bool_decide (is_Some (dc_default_expression old))))
            && bool_decide (dc_generated_expression new = None))
    (emit (plain_step 50 MColumn path "alter_default"
      (alter_column current_column_name ++ " "
       ++ match dc_default_expression new with None => "DROP DEFAULT" | Some e => "SET DEFAULT " ++ py_strip e end ++ ";")))
  +++ when (negb (bool_decide (dc_nullable old = dc_nullable new)))
    (emit (flagged_step 52 MColumn path "alter_nullability"
      (alter_column current_column_name ++ " " ++ (if dc_nullable new then "DROP NOT NULL" else "SET NOT NULL") ++ ";")
      false (negb (dc_nullable new)))).

Definition plan_column (column_id : string) (old new : option DesignColumn) : emissions :=
  match old, new with
  | None, Some new => plan_new_column new
  | Some old, None => plan_dropped_column old
  | Some old, Some new => plan_kept_column column_id old new
  | None, None => nothing
  end.

(** [_plan_table_column_changes]. *)
Definition plan_table_column_changes : emissions :=
  each_id (dict_by dc_id (tb_columns before)) (dict_by dc_id (tb_columns after)) plan_column.

(** ** Constraints and indexes *)

Definition constraint_category (item : table_constraint) : string :=
  match item with KeyItem _ => "keys" | CheckItem _ => "checks" end.

Definition replace_constraint (old new : option table_constraint) : emissions :=
  match old with
  | Some old =>
      emit (flagged_step 15 MConstraint ("tables." ++ tb_name after ++ "." ++ constraint_category old ++ "." ++ tc_name old)
        "drop" (alter_table ++ " DROP CONSTRAINT " ++ quote (tc_name old) ++ ";") (bool_decide (new = None)) false)
  | None => nothing
  end
  +++ match new with
      | Some new =>
          let! sql := constraint_sql (plan_namespace plan) after new (plan_desired_columns plan) in
          emit (plain_step 60 MConstraint
            ("tables." ++ tb_name after ++ "." ++ constraint_category new ++ "." ++ tc_name new) "create" sql)
      | None => nothing
      end.

Definition plan_key (old new : option DesignKeyConstraint) : emissions :=
  if bool_decide (old = new) then nothing else replace_constraint (KeyItem <$> old) (KeyItem <$> new).

Definition after_column_types : list (string * string) := dict_fill dc_name dc_data_type (tb_columns after) [].

Definition plan_check (old new : option DesignCheckConstraint) : emissions :=
  if bool_decide (old = new)
     || match old, new with Some o, Some n => same_check o n after_column_types | _, _ => false end
  then nothing else replace_constraint (CheckItem <$> old) (CheckItem <$> new).

(** [_plan_table_constraint_changes]. *)
Definition plan_table_constraint_changes : emissions :=
  each_id (dict_by dk_id (tb_keys before)) (dict_by dk_id (tb_keys after)) (fun _ => plan_key)
  +++ each_id (dict_by ck_id (tb_checks before)) (dict_by ck_id (tb_checks after)) (fun _ => plan_check).

Definition plan_index (old new : option DesignIndex) : emissions :=
  if bool_decide (old = new) || match old, new with Some o, Some n => same_index o n | _, _ => false end
  then nothing else
  match old with
  | Some old =>
      emit (flagged_step 12 MIndex ("tables." ++ tb_name after ++ ".indexes." ++ ix_name old) "drop"
        ("DROP INDEX " ++ qualified (plan_namespace plan) (ix_name old) ++ ";") (bool_decide (new = None)) false)
  | None => nothing
  end
  +++ match new with
      | Some new =>
          let! sql := create_index (plan_namespace plan) after new (plan_desired_columns plan) in
          emit (plain_step 65 MIndex ("tables." ++ tb_name after ++ ".indexes." ++ ix_name new) "create" sql)
      | None => nothing
      end.

(** [_plan_table_index_changes]. *)
Definition plan_table_index_changes : emissions :=
  each_id (dict_by ix_id (tb_indexes before)) (dict_by ix_id (tb_indexes after)) (fun _ => plan_index).
End table.

(** ** Tables *)

Definition plan_new_table (plan : plan_inputs) (after : DesignTable) : emissions :=
  (let! sql := create_table (plan_namespace plan) after (plan_desired_columns plan) in
   emit (plain_step 40 MTable ("tables." ++ tb_name after) "create" sql))
  +++ each (fun i =>
    let! sql := create_index (plan_namespace plan) after i (plan_desired_columns plan) in
    emit (plain_step 65 MIndex ("tables." ++ tb_name after ++ ".indexes." ++ ix_name i) "create" sql))
    (tb_indexes after).

Definition plan_kept_table (plan : plan_inputs) (before after : DesignTable) : emissions :=
  let renamed := negb (bool_decide (tb_name before = tb_name after)) in
  let active_name := if renamed then tb_name after else tb_name before in
  when renamed
    (emit (plain_step 35 MTable ("tables." ++ tb_name before) "rename"
      ("ALTER TABLE " ++ qualified (plan_namespace plan) (tb_name before) ++ " RENAME TO " ++ quote (tb_name after) ++ ";")))
  +++ plan_table_column_changes plan before after active_name
  +++ plan_table_constraint_changes plan before after active_name
  +++ plan_table_index_changes plan before after.

Definition plan_table (plan : plan_inputs) (before after : option DesignTable) : emissions :=
  match before, after with
  | None, Some after => plan_new_table plan after
  | Some before, None =>
      emit (flagged_step 30 MTable ("tables." ++ tb_name before) "drop"
        ("DROP TABLE " ++ qualified (plan_namespace plan) (tb_name before) ++ ";") true true)
  | Some before, Some after => plan_kept_table plan before after
  | None, None => nothing
  end.

(** [_plan_table_changes]. *)
Definition plan_table_changes (plan : plan_inputs) : emissions :=
  each_id (plan_live_tables plan) (plan_desired_tables plan) (fun _ => plan_table plan).

(** ** Types, routines, views and triggers *)

Definition plan_type (plan : plan_inputs) (before after : option DesignType) : emissions :=
  if bool_decide (before = after) then nothing else
  match before, after with
  | None, Some after => emit (plain_step 38 MType ("types." ++ dt_name after) "create" (statement (dt_definition after)))
  | Some before, None =>
      emit (flagged_step 32 MType ("types." ++ dt_name before) "drop"
        ("DROP " ++ match dt_kind before with TKDomain => "DOMAIN" | TKEnum => "TYPE" end ++ " "
         ++ qualified (plan_namespace plan) (dt_name before) ++ ";") true false)
  | Some _, Some after =>
      block "type_replacement_unsupported"
        ("Changing type " ++ dt_name after ++ " requires a specialized PostgreSQL type migration") ("types." ++ dt_name after)
  | None, None => nothing
  end.

(** [_plan_type_changes]. *)
Definition plan_type_changes (plan : plan_inputs) : emissions :=
  each_id (dict_by dt_id (content_types (plan_live plan))) (dict_by dt_id (content_types (plan_desired plan)))
    (fun _ => plan_type plan).

(** A word of a pattern at the start of a text, whatever its case. *)
Definition eat_keyword (word s : string) : option string :=
  if String.prefix word (py_lower s) then Some (str_drop (String.length word) s) else None.

Definition at_word_boundary (s : string) : bool :=
  match s with EmptyString => true | String c _ => bool_decide (is_Some (drop_space s)) || negb (is_word_char c) end.

(** [_CREATE_ROUTINE.sub(..., source, count=1)]: the pattern is anchored at the start. *)
Definition create_or_replace (source : string) : string :=
  match eat_keyword "create" (py_lstrip source) with
  | Some rest =>
      match drop_space rest with
      | None => source
      | Some _ =>
          let rest := py_lstrip rest in
          match eat_keyword "function" rest, eat_keyword "procedure" rest with
          | Some tail, _ => if at_word_boundary tail then "CREATE OR REPLACE FUNCTION" ++ tail else source
          | None, Some tail => if at_word_boundary tail then "CREATE OR REPLACE PROCEDURE" ++ tail else source
          | None, None => source
          end
      end
  | None => source
  end.

Definition routine_object_kind (k : routine_kind) : migration_object_kind :=
  match k with RFunction => MFunction | RProcedure => MProcedure end.
Definition routine_path (f : DesignFunction) : string :=
  "functions." ++ fn_name f ++ "(" ++ fn_identity_arguments f ++ ")".

(** The steps of a routine that may be created, replaced or dropped. *)
Definition plan_routine_steps (plan : plan_inputs) (before after : option DesignFunction) : emissions :=
  match before, after with
  | Some before, None =>
      emit (flagged_step 18 (routine_object_kind (fn_kind before)) (routine_path before) "drop"
        ("DROP " ++ match fn_kind before with RProcedure => "PROCEDURE" | RFunction => "FUNCTION" end ++ " "
         ++ qualified (plan_namespace plan) (fn_name before) ++ "(" ++ py_strip (fn_identity_arguments before) ++ ");")
        true false)
  | _, Some after =>
      let source := statement (fn_definition after) in
      match before with
      | Some _ => emit (plain_step 55 (routine_object_kind (fn_kind after)) (routine_path after) "replace"
                    (create_or_replace source))
      | None => emit (plain_step 55 (routine_object_kind (fn_kind after)) (routine_path after) "create" source)
      end
  | None, None => nothing
  end.

Definition plan_function (plan : plan_inputs) (before after : option DesignFunction) : emissions :=
  if bool_decide (before = after) then nothing else
  match before, after with
  | Some b, Some a =>
      if negb (bool_decide ((fn_kind b, fn_name b, fn_identity_arguments b) = (fn_kind a, fn_name a, fn_identity_arguments a)))
      then block "routine_identity_change_unsupported"
             ("Changing the name, kind, or input types of " ++ fn_name b ++ " "
              ++ "requires a dependency-aware routine migration; restore the "
              ++ "original identity before applying this design.") (routine_path a)
      else if negb (bool_decide (fn_return_type b = fn_return_type a))
      then block "routine_return_type_change_unsupported"
             ("Changing the return type of " ++ fn_name b ++ " requires a "
              ++ "dependency-aware drop and recreation; restore the original "
              ++ "return type before applying this design.") (routine_path a)
      else
        let! migrate := routine_parameters_require_migration b a in
        if migrate : bool
        then block "routine_parameter_change_unsupported"
               ("Changing parameter declarations of " ++ fn_name b ++ " requires "
                ++ "a dependency-aware routine migration; restore the original "
                ++ "parameter declarations before applying this design.") (routine_path a)
        else plan_routine_steps plan before after
  | _, _ => plan_routine_steps plan before after
  end.

(** [_plan_function_changes]. *)
Definition plan_function_changes (plan : plan_inputs) : emissions :=
  each_id (dict_by fn_id (content_functions (plan_live plan))) (dict_by fn_id (content_functions (plan_desired plan)))
    (fun _ => plan_function plan).

Definition view_object_kind (k : view_kind) : migration_object_kind :=
  match k with VView => MView | VMaterialized => MMaterializedView end.
Definition view_kind_words (k : view_kind) : string :=
  match k with VView => "VIEW" | VMaterialized => "MATERIALIZED VIEW" end.

Definition create_view_sql (namespace prefix : string) (after : DesignView) : string :=
  prefix ++ " " ++ qualified namespace (vw_name after) ++ " AS" ++ newline_text ++ statement_body (vw_definition after)
  ++ match vw_kind after with
     | VMaterialized => newline_text ++ match vw_populate_on_create after with
                                        | Some true => "WITH DATA" | _ => "WITH NO DATA" end
     | VView => ""
     end ++ ";".

Definition plan_view (plan : plan_inputs) (before after : option DesignView) : emissions :=
  if bool_decide (before = after) then nothing else
  match before, after with
  | Some b, None =>
      emit (flagged_step 14 (view_object_kind (vw_kind b)) ("views." ++ vw_name b) "drop"
        ("DROP " ++ view_kind_words (vw_kind b) ++ " " ++ qualified (plan_namespace plan) (vw_name b) ++ ";") true false)
  | Some b, Some a =>
      if negb (bool_decide ((vw_kind b, vw_name b) = (vw_kind a, vw_name a)))
      then block "view_identity_change_unsupported"
             ("Changing the name or kind of view " ++ vw_name b ++ " requires a "
              ++ "dependency-aware view migration; restore the original name "
              ++ "and kind before applying this design.") ("views." ++ vw_name a)
      else if bool_decide (vw_kind a = VMaterialized)
      then block "materialized_view_replacement_unsupported"
             ("Replacing materialized view " ++ vw_name a ++ " requires preservation analysis") ("views." ++ vw_name a)
      else emit (plain_step 75 (view_object_kind (vw_kind a)) ("views." ++ vw_name a) "replace"
             (create_view_sql (plan_namespace plan) "CREATE OR REPLACE VIEW" a))
  | None, Some a =>
      emit (plain_step 75 (view_object_kind (vw_kind a)) ("views." ++ vw_name a) "create"
        (create_view_sql (plan_namespace plan) ("CREATE " ++ view_kind_words (vw_kind a)) a))
  | None, None => nothing
  end.

(** [_plan_view_changes]. *)
Definition plan_view_changes (plan : plan_inputs) : emissions :=
  each_id (dict_by vw_id (content_views (plan_live plan))) (dict_by vw_id (content_views (plan_desired plan)))
    (fun _ => plan_view plan).

Definition plan_trigger (plan : plan_inputs) (before after : option DesignTrigger) : emissions :=
  if bool_decide (before = after) then nothing else
  match before with
  | Some b =>
      emit (flagged_step 11 MTrigger ("triggers." ++ tr_relation_name b ++ "." ++ tr_name b) "drop"
        ("DROP TRIGGER " ++ quote (tr_name b) ++ " ON " ++ qualified (plan_namespace plan) (tr_relation_name b) ++ ";")
        (bool_decide (after = None)) false)
  | None => nothing
  end
  +++ match after with
      | Some a =>
          emit (plain_step 80 MTrigger ("triggers." ++ tr_relation_name a ++ "." ++ tr_name a) "create"
            (statement (tr_definition a)))
      | None => nothing
      end.

(** [_plan_trigger_changes]. *)
Definition plan_trigger_changes (plan : plan_inputs) : emissions :=
  each_id (dict_by tr_id (content_triggers (plan_live plan))) (dict_by tr_id (content_triggers (plan_desired plan)))
    (fun _ => plan_trigger plan).
End planner.

(** ** Ordering *)

Definition pending_of (es : list emission) : list PendingStep :=
  omap (fun e => match e with Pending s => Some s | Blocking _ => None end) es.
Definition blocking_of (es : list emission) : list MigrationWarning :=
  omap (fun e => match e with Blocking w => Some w | Pending _ => None end) es.

Definition step_key (s : PendingStep) : nat * string := (ps_phase s, ps_sql s).

(** [unique_pending]: [setdefault] keeps the first step of a key. *)
Fixpoint unique_pending (steps : list PendingStep) (seen : list (nat * string)) : list PendingStep :=
  match steps with
  | [] => []
  | s :: rest => if bool_decide (step_key s ∈ seen) then unique_pending rest seen
                 else s :: unique_pending rest (step_key s :: seen)
  end.

(** Order of the sort key [(phase, order, path, operation)]. *)
Definition step_le (a b : PendingStep) : Prop :=
  if decide (ps_phase a = ps_phase b) then
    if decide (ps_order a = ps_order b) then
      if decide (ps_path a = ps_path b) then String.le (ps_operation a) (ps_operation b)
      else String.le (ps_path a) (ps_path b)
    else ps_order a <= ps_order b
  else ps_phase a <= ps_phase b.

#[export] Instance step_le_dec : RelDecision step_le.
Proof. intros a b. unfold step_le. repeat case_decide; apply _. Defined.

Definition migration_step (index : nat) (s : PendingStep) : MigrationStep :=
  {| mst_index := Z.of_nat index; mst_object_kind := ps_kind s; mst_object_path := ps_path s;
     mst_operation := ps_operation s; mst_sql := ps_sql s; mst_destructive := ps_destructive s;
     mst_requires_lock := ps_requires_lock s; mst_data_movement := ps_data_movement s |}.

Definition step_valid (s : MigrationStep) : bool :=
  bool_decide (1 <= mst_index s)%Z && length_between 1 1024 (mst_object_path s)
  && length_between 1 128 (mst_operation s)
  && bool_decide (1 <= N.of_nat (py_len (mst_sql s)) <= 1024 * 1024)%N.

(** [_finalize_migration_plan]. *)
Definition finalize_migration_plan (es : list emission) : planned (list MigrationStep * list MigrationWarning) :=
  let ordered := merge_sort step_le (unique_pending (pending_of es) []) in
  let! steps := result_map (fun i_s =>
    let step := migration_step i_s.1 i_s.2 in
    if step_valid step then Ok step else Err ValidationError) (zip (seq 1 (length ordered)) ordered) in
  Ok (steps, blocking_of es).

Section compile.
Context `{Pglast} `{SqlglotRelations} `{SqlglotTrees} `{Sha256}.

(** The inputs [compile_migration_steps] gives its passes. *)
Definition compile_inputs (namespace : string) (live desired : SchemiiDesignContent) (empty_tables : list string)
    (conversions : list (string * CompiledConversion)) : plan_inputs :=
  let live_tables := (table_maps live).1 in
  let '(desired_tables, desired_columns) := table_maps desired in
  {| plan_namespace := namespace; plan_live := live; plan_desired := desired; plan_empty_tables := empty_tables;
     plan_live_tables := live_tables; plan_desired_tables := desired_tables; plan_desired_columns := desired_columns;
     plan_safe_type_change_ids :=
       fst <$> filter (fun cd => tcd_disposition cd.2 = Safe \/ cd.1 ∈ dkeys conversions)
                 (column_type_changes live_tables desired_tables);
     plan_conversions := conversions |}.

(** The passes, in order. *)
Definition plan_passes (plan : plan_inputs) (rebuild_table_ids populated_rebuild_table_ids : list string) : emissions :=
  plan_physical_column_rebuilds plan rebuild_table_ids populated_rebuild_table_ids
  +++ plan_relationship_changes plan
  +++ plan_table_changes plan
  +++ plan_type_changes plan
  +++ plan_function_changes plan
  +++ plan_view_changes plan
  +++ plan_trigger_changes plan.

Definition compile_migration_steps (namespace : string) (live desired : SchemiiDesignContent)
    (empty_tables rebuild_table_ids populated_rebuild_table_ids : list string)
    (column_type_conversions : list (string * CompiledConversion))
    : planned (list MigrationStep * list MigrationWarning) :=
  let plan := compile_inputs namespace live desired empty_tables column_type_conversions in
  let! es := plan_passes plan rebuild_table_ids populated_rebuild_table_ids in
  finalize_migration_plan es.
End compile.
