(* ===== verification/PlannerProps.v ===== *)
(** * What planning guarantees

    Correctness of [MigrationPlanner.compile_migration_steps]: the order and numbering
    of the steps, that an empty plan means the same schema and the other way round,
    that lost objects are announced as destructive, and which exceptions can escape. *)

From stdpp Require Import pretty.
From Stdlib Require Import Ascii String.
From S2P Require Import Prelude Json PyString DesignModels DefinitionAnalysis DesignValidation TypeOrder ValidationSpec.
From S2P Require Import DesignDocument MigrationModels CheckExpressions TypeChanges SqlText PlanAnalysis MigrationPlanner.
Open Scope string_scope.
Open Scope result_scope.

(** ** Emissions *)

Lemma both_Ok a b es : both a b = Ok es <-> exists x y, a = Ok x /\ b = Ok y /\ es = (x ++ y)%list.
Proof. unfold both. rewrite result_bind_Ok. setoid_rewrite result_bind_Ok. naive_solver. Qed.

Lemma each_Ok {A} (f : A -> emissions) l es :
  each f l = Ok es <-> exists parts, Forall2 (fun x p => f x = Ok p) l parts /\ es = concat parts.
Proof. unfold each. rewrite result_bind_Ok. setoid_rewrite result_map_Ok. naive_solver. Qed.

Lemma both_nil a b : both a b = Ok [] <-> a = Ok [] /\ b = Ok [].
Proof.
  rewrite both_Ok. split; [|naive_solver]. intros (x & y & -> & -> & Hxy). by destruct x, y.
Qed.

Lemma each_nil {A} (f : A -> emissions) l : each f l = Ok [] <-> forall x, x ∈ l -> f x = Ok [].
Proof.
  rewrite each_Ok. split.
  - intros (parts & Hall & Hnil). symmetry in Hnil. apply List.concat_nil_Forall in Hnil. rewrite Forall_forall in Hnil.
    intros x [i Hi]%list_elem_of_lookup. destruct (Forall2_lookup_l _ _ _ _ _ Hall Hi) as (p & Hp & ->).
    by rewrite (Hnil p) by (by eapply list_elem_of_lookup_2).
  - intros Hall. exists ((fun _ => []) <$> l). split.
    + apply Forall2_fmap_r, Forall2_same_length_lookup. split; [done|]. intros i x y Hx Hy. simplify_eq.
      by apply Hall, list_elem_of_lookup_2 with i.
    + clear Hall. by induction l.
Qed.

Lemma emit_nil s : emit s = Ok [] <-> False.
Proof. by unfold emit. Qed.

Lemma block_nil code message path : block code message path = Ok [] <-> False.
Proof. unfold block. by case_match. Qed.

Lemma when_nil b e : when b e = Ok [] <-> (b = true -> e = Ok []).
Proof. destruct b; simpl; naive_solver. Qed.

(** A part of an emission that is present in the whole. *)
Lemma both_l a b es x : both a b = Ok es -> (forall ys, a = Ok ys -> x ∈ ys) -> x ∈ es.
Proof. rewrite both_Ok. intros (xs & ys & Ha & _ & ->) Hx. apply elem_of_app. left. auto. Qed.

Lemma both_r a b es x : both a b = Ok es -> (forall ys, b = Ok ys -> x ∈ ys) -> x ∈ es.
Proof. rewrite both_Ok. intros (xs & ys & _ & Hb & ->) Hx. apply elem_of_app. right. auto. Qed.

Lemma each_elem {A} (f : A -> emissions) l es y x :
  each f l = Ok es -> y ∈ l -> (forall ys, f y = Ok ys -> x ∈ ys) -> x ∈ es.
Proof.
  rewrite each_Ok. intros (parts & Hall & ->) [i Hi]%list_elem_of_lookup Hx.
  destruct (Forall2_lookup_l _ _ _ _ _ Hall Hi) as (p & Hp & Hf).
  apply list_elem_of_In, in_concat. exists p. rewrite <-!list_elem_of_In. split; [by eapply list_elem_of_lookup_2|auto].
Qed.

Lemma elem_of_sorted_union a b x : x ∈ sorted_union a b <-> x ∈ a \/ x ∈ b.
Proof. unfold sorted_union. by rewrite merge_sort_Permutation, elem_of_dict_fromkeys, elem_of_app. Qed.

Lemma elem_of_sorted_inter a b x : x ∈ sorted_inter a b <-> x ∈ a /\ x ∈ b.
Proof. unfold sorted_inter. rewrite merge_sort_Permutation, list_elem_of_filter, elem_of_dict_fromkeys. tauto. Qed.

Lemma elem_of_sorted_set a x : x ∈ sorted_set a <-> x ∈ a.
Proof. unfold sorted_set. by rewrite merge_sort_Permutation, elem_of_dict_fromkeys. Qed.

Lemma same_set_true a b : same_set a b = true <-> forall x, x ∈ a <-> x ∈ b.
Proof.
  unfold same_set. rewrite andb_true_iff, !subset_of_true. set_solver.
Qed.

Lemma each_id_nil {A} (live desired : list (string * A)) f :
  (forall i, f i None None = Ok []) ->
  each_id live desired f = Ok [] <-> forall i, f i (dget i live) (dget i desired) = Ok [].
Proof.
  intros Hnone. unfold each_id. rewrite each_nil. setoid_rewrite elem_of_sorted_union. split; [|auto].
  intros Hall i. destruct (decide (i ∈ dkeys live \/ i ∈ dkeys desired)) as [Hi|Hi]; [auto|].
  apply Decidable.not_or in Hi as [H1 H2]. apply dget_None in H1, H2. by rewrite H1, H2.
Qed.

(** An object only the live side has. *)
Lemma each_id_live {A} (live desired : list (string * A)) f es i x e :
  each_id live desired f = Ok es -> dget i live = Some x ->
  (forall ys, f i (Some x) (dget i desired) = Ok ys -> e ∈ ys) -> e ∈ es.
Proof.
  unfold each_id. intros Hes Hi Hf. eapply (each_elem _ _ _ i); [exact Hes| |].
  - apply elem_of_sorted_union. left. by eapply dget_Some_key.
  - simpl. by rewrite Hi.
Qed.

(** ** Exceptions *)

Definition raises_only (P : plan_error -> Prop) {A} (m : planned A) : Prop := forall e, m = Err e -> P e.

Section raises.
Context (P : plan_error -> Prop).

Lemma raises_Ok {A} (a : A) : raises_only P (Ok a).
Proof. by intros e. Qed.

Lemma raises_bind {A B} (m : planned A) (k : A -> planned B) :
  raises_only P m -> (forall a, m = Ok a -> raises_only P (k a)) -> raises_only P (result_bind m k).
Proof. intros Hm Hk e. destruct m; simpl; [by apply Hk|]. intros [= <-]. by apply Hm. Qed.

Lemma raises_map {A B} (f : A -> planned B) l :
  (forall x, x ∈ l -> raises_only P (f x)) -> raises_only P (result_map f l).
Proof.
  induction l as [|x l IH]; intros Hf; [apply raises_Ok|]. apply raises_bind; [apply Hf; left|]. intros y _.
  apply raises_bind; [apply IH; intros; apply Hf; by right|]. intros ys _. apply raises_Ok.
Qed.

Lemma raises_each {A} (f : A -> emissions) l : (forall x, x ∈ l -> raises_only P (f x)) -> raises_only P (each f l).
Proof. intros Hf. apply raises_bind; [by apply raises_map|]. intros. apply raises_Ok. Qed.

Lemma raises_both a b : raises_only P a -> raises_only P b -> raises_only P (both a b).
Proof. intros Ha Hb. apply raises_bind; [done|]. intros. apply raises_bind; [done|]. intros. apply raises_Ok. Qed.

Lemma raises_when b e : (b = true -> raises_only P e) -> raises_only P (when b e).
Proof. destruct b; simpl; [auto|]. intros _. apply raises_Ok. Qed.

Lemma raises_emit s : raises_only P (emit s).
Proof. apply raises_Ok. Qed.

Lemma raises_block code message path : P ValidationError -> raises_only P (block code message path).
Proof. intros HP. unfold block. case_match; [apply raises_Ok|]. by intros e [= <-]. Qed.

Lemma raises_get {V} k (d : list (string * V)) : k ∈ dkeys d -> raises_only P (get_item k d).
Proof. intros [v Hv]%dget_is_Some. unfold get_item. rewrite Hv. apply raises_Ok. Qed.
End raises.

(** ** The final order *)

#[export] Instance step_le_total : Total step_le.
Proof.
  intros a b. unfold step_le. repeat case_decide; try congruence; try lia.
  - apply (total String.le).
  - apply (total String.le).
Qed.

#[export] Instance step_le_trans : Transitive step_le.
Proof.
  intros a b c. unfold step_le. repeat case_decide; try congruence; try lia; intros ? ?.
  - by etransitivity.
  - assert (ps_path a = ps_path b); [|congruence].
    apply (anti_symm String.le); [done|]. replace (ps_path a) with (ps_path c) by congruence. done.
  - by etransitivity.
Qed.

Lemma unique_pending_sub steps seen : unique_pending steps seen `sublist_of` steps.
Proof.
  revert seen. induction steps as [|s steps IH]; intros seen; simpl; [constructor|].
  case_bool_decide; by constructor.
Qed.

Lemma unique_pending_keys steps seen s :
  s ∈ unique_pending steps seen -> step_key s ∉ seen.
Proof.
  revert seen. induction steps as [|s' steps IH]; intros seen; simpl; [by intros ?%elem_of_nil|].
  case_bool_decide as Hs; [apply IH|]. rewrite elem_of_cons. intros [->|Hin]; [done|].
  apply IH in Hin. set_solver.
Qed.

Lemma unique_pending_NoDup steps seen : NoDup (step_key <$> unique_pending steps seen).
Proof.
  revert seen. induction steps as [|s steps IH]; intros seen; simpl; [constructor|].
  case_bool_decide as Hs; [apply IH|]. csimpl. constructor; [|apply IH].
  intros (s' & -> & Hin%unique_pending_keys)%list_elem_of_fmap. set_solver.
Qed.

(** The first step of a key is the one kept. *)
Lemma unique_pending_first steps seen s :
  s ∈ steps -> step_key s ∉ seen ->
  exists s', s' ∈ unique_pending steps seen /\ step_key s' = step_key s.
Proof.
  revert seen. induction steps as [|s' steps IH]; intros seen; simpl; [by intros ?%elem_of_nil|].
  rewrite elem_of_cons. intros [->|Hin] Hseen.
  - rewrite bool_decide_eq_false_2 by done. exists s'. split; [left|done].
  - case_bool_decide as Hs'; [by apply IH|].
    destruct (decide (step_key s = step_key s')) as [E|E].
    + exists s'. split; [left|done].
    + destruct (IH (step_key s' :: seen) Hin) as (s'' & ? & ?); [set_solver|]. exists s''. split; [by right|done].
Qed.

Definition planned_order (es : list emission) : list PendingStep :=
  merge_sort step_le (unique_pending (pending_of es) []).

Lemma elem_of_pending_of es s : s ∈ pending_of es <-> Pending s ∈ es.
Proof.
  unfold pending_of. rewrite list_elem_of_omap. split.
  - intros ([s'|] & Hin & [= ->]). done.
  - intros Hin. by exists (Pending s).
Qed.

Lemma finalize_Ok es steps warnings :
  finalize_migration_plan es = Ok (steps, warnings) <->
  steps = zip_with migration_step (seq 1 (length (planned_order es))) (planned_order es) /\
  Forall (fun s => step_valid s = true) steps /\ warnings = blocking_of es.
Proof.
  unfold finalize_migration_plan. fold (planned_order es). rewrite result_bind_Ok.
  assert (forall (l : list (nat * PendingStep)) steps,
    result_map (fun i_s => let step := migration_step i_s.1 i_s.2 in
      if step_valid step then Ok step else Err ValidationError) l = Ok steps <->
    steps = (fun i_s => migration_step i_s.1 i_s.2) <$> l /\ Forall (fun s => step_valid s = true) steps) as Hmap.
  { clear. intros l steps. rewrite result_map_Ok. split.
    - induction 1 as [|[i s] step l steps Hs _ [-> IH]]; [by split|]. simpl in Hs.
      destruct (step_valid _) eqn:E; [|done]. injection Hs as <-. split; [done|by constructor].
    - intros [-> Hall]. rewrite Forall_fmap in Hall. apply Forall2_fmap_r.
      induction Hall as [|[i s] l Hv _ IH]; constructor; [|done]. simpl in *. by rewrite Hv. }
  setoid_rewrite Hmap.
  assert (forall l k, (fun i_s : nat * PendingStep => migration_step i_s.1 i_s.2) <$> zip l k = zip_with migration_step l k) as Hzip.
  { clear. intros l k. revert k. induction l as [|i l IH]; intros [|s k]; csimpl; [done..|]. by rewrite IH. }
  rewrite Hzip. naive_solver.
Qed.

Lemma finalize_nil es : finalize_migration_plan es = Ok ([], []) <-> es = [].
Proof.
  rewrite finalize_Ok. split; [|by intros ->]. intros (Hsteps & _ & Hblock).
  assert (planned_order es = []) as Ho by (by destruct (planned_order es)).
  destruct es as [|[s|w] es]; [done| |done]. exfalso.
  pose proof (merge_sort_Permutation step_le (unique_pending (pending_of (Pending s :: es)) [])) as Hp.
  change (planned_order (Pending s :: es) ≡ₚ unique_pending (pending_of (Pending s :: es)) []) in Hp.
  rewrite Ho in Hp. apply Permutation_nil in Hp. done.
Qed.

(** ** The same schema *)

(** Objects are paired by their IDs. *)
Definition matched {A} (key : A -> string) (R : A -> A -> Prop) (l l' : list A) : Prop :=
  forall i, option_Forall2 R (dget i (dict_by key l)) (dget i (dict_by key l')).

Record same_column (old new : DesignColumn) : Prop := {
  sc_name : dc_name old = dc_name new;
  sc_type : tcd_disposition (classify_type_change (dc_data_type old) (dc_data_type new)) = Equivalent;
  sc_nullable : dc_nullable old = dc_nullable new;
  sc_default : dc_default_expression old = dc_default_expression new;
  sc_identity : dc_identity old = dc_identity new;
  sc_generated : dc_generated_expression old = dc_generated_expression new;
  sc_sources : forall x, x ∈ dc_generated_source_column_ids old <-> x ∈ dc_generated_source_column_ids new;
}.

Section same.
Context `{SqlglotTrees}.

(** The order of columns, the order of dependencies, the spelling of types and the
    form of CHECK expressions do not count. *)
Record same_table (before after : DesignTable) : Prop := {
  st_name : tb_name before = tb_name after;
  st_columns : matched dc_id same_column (tb_columns before) (tb_columns after);
  st_keys : matched dk_id eq (tb_keys before) (tb_keys after);
  st_checks : matched ck_id (fun o n => same_check o n (after_column_types after) = true) (tb_checks before) (tb_checks after);
  st_indexes : matched ix_id (fun o n => sorted_dependencies o = sorted_dependencies n) (tb_indexes before) (tb_indexes after);
}.

Record same_design (live desired : SchemiiDesignContent) : Prop := {
  sd_types : matched dt_id eq (content_types live) (content_types desired);
  sd_tables : matched tb_id same_table (content_tables live) (content_tables desired);
  sd_relationships : matched rl_id eq (content_relationships live) (content_relationships desired);
  sd_functions : matched fn_id eq (content_functions live) (content_functions desired);
  sd_views : matched vw_id eq (content_views live) (content_views desired);
  sd_triggers : matched tr_id eq (content_triggers live) (content_triggers desired);
}.
End same.

Lemma matched_eq {A} (key : A -> string) (l l' : list A) :
  matched key eq l l' <-> forall i, dget i (dict_by key l) = dget i (dict_by key l').
Proof.
  unfold matched. split; intros Hall i; specialize (Hall i).
  - by destruct Hall; subst.
  - rewrite Hall. by destruct (dget i (dict_by key l')); constructor.
Qed.

Lemma matched_iff {A} (key : A -> string) (R : A -> A -> Prop) (f : option A -> option A -> Prop) (l l' : list A) :
  f None None -> (forall x, x ∈ l -> ~ f (Some x) None) -> (forall y, y ∈ l' -> ~ f None (Some y)) ->
  (forall x y, x ∈ l -> y ∈ l' -> f (Some x) (Some y) <-> R x y) ->
  (forall i, f (dget i (dict_by key l)) (dget i (dict_by key l'))) <-> matched key R l l'.
Proof.
  intros H0 H1 H2 H3. unfold matched. split; intros Hall i; specialize (Hall i).
  - destruct (dget i (dict_by key l)) as [x|] eqn:Ex, (dget i (dict_by key l')) as [y|] eqn:Ey;
      try apply dict_by_Some in Ex as [Ex _]; try apply dict_by_Some in Ey as [Ey _]; try constructor; naive_solver.
  - destruct (dget i (dict_by key l)) as [x|] eqn:Ex, (dget i (dict_by key l')) as [y|] eqn:Ey;
      try apply dict_by_Some in Ex as [Ex _]; try apply dict_by_Some in Ey as [Ey _];
      inversion Hall; subst; naive_solver.
Qed.

Create Rewrite HintDb emissions.
#[export] Hint Rewrite both_nil when_nil emit_nil block_nil : emissions.

Section exactness.
Context `{Pglast} `{SqlglotRelations} `{SqlglotTrees} `{Sha256}.
Implicit Types plan : plan_inputs.

(** ** Passes that emit nothing *)

Lemma bind_emit_nil {A} (m : planned A) (f : A -> PendingStep) : (let! x := m in emit (f x)) = Ok [] <-> False.
Proof. by destruct m. Qed.

Lemma plan_type_nil plan b a : plan_type plan b a = Ok [] <-> b = a.
Proof.
  unfold plan_type. case_bool_decide as E; [done|]. destruct b, a; rewrite ?emit_nil, ?block_nil; try tauto; congruence.
Qed.

Lemma plan_function_nil plan b a : plan_function plan b a = Ok [] <-> b = a.
Proof.
  unfold plan_function. case_bool_decide as E; [done|]. split; [|congruence]. intros Hnil. exfalso.
  destruct b as [b|], a as [a|]; simpl in Hnil; rewrite ?emit_nil in Hnil; try congruence.
  repeat (case_match; try by apply block_nil in Hnil).
  apply result_bind_Ok in Hnil as ([] & _ & Hnil); [by apply block_nil in Hnil|done].
Qed.

Lemma plan_view_nil plan b a : plan_view plan b a = Ok [] <-> b = a.
Proof.
  unfold plan_view. case_bool_decide as E; [done|]. split; [|congruence]. intros Hnil. exfalso.
  destruct b, a; repeat case_match; rewrite ?emit_nil, ?block_nil in Hnil; done || congruence.
Qed.

Lemma plan_trigger_nil plan b a : plan_trigger plan b a = Ok [] <-> b = a.
Proof.
  unfold plan_trigger. case_bool_decide as E; [done|]. rewrite both_nil.
  destruct b, a; rewrite ?emit_nil; try tauto; split; try congruence; tauto.
Qed.

Lemma plan_relationship_nil plan b a :
  plan_safe_type_change_ids plan = [] -> plan_relationship plan b a = Ok [] <-> b = a.
Proof.
  intros Hsafe. unfold plan_relationship. rewrite Hsafe. simpl. case_bool_decide as E; [done|]. simpl.
  rewrite both_nil. destruct b, a; rewrite ?bind_emit_nil; try tauto; split; try congruence; tauto.
Qed.

Lemma intersects_nil l : intersects l [] = false.
Proof. apply intersects_false. intros x _. apply not_elem_of_nil. Qed.

Lemma plan_relationship_none plan : plan_relationship plan None None = Ok [].
Proof. unfold plan_relationship. by rewrite intersects_nil. Qed.

(** What a relationship that plans nothing satisfies, whatever the type changes. *)
Lemma plan_relationship_eq plan b a : plan_relationship plan b a = Ok [] -> b = a.
Proof.
  unfold plan_relationship. destruct (bool_decide (b = a)) eqn:E; [by apply bool_decide_eq_true in E|]. simpl.
  rewrite both_nil. destruct b, a; rewrite ?bind_emit_nil; tauto.
Qed.

Lemma replace_constraint_nil plan after name old new :
  replace_constraint plan after name old new = Ok [] <-> old = None /\ new = None.
Proof.
  unfold replace_constraint. rewrite both_nil. destruct old, new; rewrite ?emit_nil, ?bind_emit_nil; naive_solver.
Qed.

Lemma plan_key_nil plan after name b a : plan_key plan after name b a = Ok [] <-> b = a.
Proof.
  unfold plan_key. case_bool_decide as E; [done|]. rewrite replace_constraint_nil, !fmap_None. naive_solver.
Qed.

Lemma same_check_refl c types : same_check c c types = true.
Proof. unfold same_check. by rewrite bool_decide_eq_true_2, equivalent_check_refl. Qed.

Lemma plan_check_nil plan after name (b a : option DesignCheckConstraint) :
  plan_check plan after name b a = Ok [] <->
  option_Forall2 (fun o n => same_check o n (after_column_types after) = true) b a.
Proof.
  unfold plan_check. destruct (bool_decide (b = a)) eqn:E; simpl.
  - apply bool_decide_eq_true in E as ->. split; [intros _|done].
    destruct a; constructor. apply same_check_refl.
  - destruct b as [o|], a as [n|]; simpl; try done.
    + destruct (same_check o n (after_column_types after)) eqn:Es; [split; [by constructor|done]|].
      rewrite replace_constraint_nil. split; [by intros []|inversion 1; congruence].
    + rewrite replace_constraint_nil. split; [by intros []|inversion 1].
    + rewrite replace_constraint_nil. split; [by intros []|inversion 1].
Qed.

Lemma plan_index_nil plan after (b a : option DesignIndex) :
  plan_index plan after b a = Ok [] <->
  option_Forall2 (fun o n => sorted_dependencies o = sorted_dependencies n) b a.
Proof.
  unfold plan_index. destruct (bool_decide (b = a)) eqn:E; simpl.
  - apply bool_decide_eq_true in E as ->. split; [intros _|done]. by destruct a; constructor.
  - clear E. destruct b as [o|], a as [n|]; simpl; unfold same_index; try done.
    + case_bool_decide as Es; [split; [by constructor|done]|].
      rewrite both_nil, emit_nil. split; [tauto|inversion 1; congruence].
    + rewrite both_nil, emit_nil. split; [tauto|inversion 1].
    + rewrite both_nil, bind_emit_nil. split; [tauto|inversion 1].
    + split; [constructor|done].
Qed.

Lemma plan_conversion_nil plan before after name cid path cur old new :
  plan_column_type plan before after name cid path cur old new None = Ok [] <->
  tcd_disposition (classify_type_change (dc_data_type old) (dc_data_type new)) = Equivalent.
Proof.
  unfold plan_column_type. rewrite (bool_decide_eq_false_2 (is_Some None)) by (by intros []).
  rewrite orb_false_r. case_bool_decide as Es.
  - rewrite Es. split; [|done]. intros Hnil. apply result_bind_Ok in Hnil as (va & _ & Hnil).
    apply result_bind_Ok in Hnil as (vb & _ & Hnil). cbv zeta in Hnil. case_match.
    + apply both_nil in Hnil as [_ Hnil]. by apply emit_nil in Hnil.
    + by apply block_nil in Hnil.
  - rewrite when_nil, bool_decide_eq_true, block_nil.
    destruct (tcd_disposition _); naive_solver.
Qed.

Lemma plan_kept_column_nil plan t t' before after name cid old new :
  plan_conversions plan = [] -> column_ok t old -> column_ok t' new ->
  plan_kept_column plan before after name cid old new = Ok [] <-> same_column old new.
Proof.
  intros Hconv Ho Hn. unfold plan_kept_column. rewrite Hconv. simpl.
  rewrite !both_nil, !when_nil, plan_conversion_nil, !emit_nil, !block_nil.
  rewrite negb_true_iff, !orb_true_iff, andb_true_iff, !orb_true_iff, !negb_true_iff, !bool_decide_eq_false, bool_decide_eq_true.
  split.
  - intros (Hname & Htype & Hgen & Hdef & Hnull).
    assert (same_dependency_set (dc_generated_source_column_ids old) (dc_generated_source_column_ids new) = true) as Hs
      by (destruct (same_dependency_set _ _); tauto).
    assert (dc_generated_expression old = dc_generated_expression new) as Hg by (apply dec_stable; tauto).
    assert (dc_name old = dc_name new) by (apply dec_stable; tauto).
    assert (dc_nullable old = dc_nullable new) by (apply dec_stable; tauto).
    assert (dc_identity old = dc_identity new) by (apply dec_stable; tauto).
    split; [done..| |done|done|by apply same_set_true].
    destruct (decide (dc_generated_expression new = None)) as [E|E].
    + apply dec_stable. tauto.
    + pose proof (co_one_value _ _ Ho). pose proof (co_one_value _ _ Hn). rewrite Hg in *.
      destruct (dc_generated_expression new); [|done]. simpl in *.
      destruct (dc_default_expression old), (dc_default_expression new); simpl in *; try lia; done.
  - intros [E1 E2 E3 E4 E5 E6 E7]. apply same_set_true in E7. unfold same_dependency_set. rewrite E7.
    split_and!; [done|done|intuition congruence| |done].
    by intros [[|] _].
Qed.

(** ** A table that plans nothing *)

Lemma plan_columns_nil plan before after name :
  plan_conversions plan = [] -> table_ok before -> table_ok after ->
  plan_table_column_changes plan before after name = Ok [] <->
  matched dc_id same_column (tb_columns before) (tb_columns after).
Proof.
  intros Hconv Hb Ha. unfold plan_table_column_changes. rewrite each_id_nil by done. unfold plan_column.
  pose proof (to_columns _ Hb) as Hcb. pose proof (to_columns _ Ha) as Hca. rewrite Forall_forall in Hcb, Hca.
  split.
  - intros Hall i. specialize (Hall i).
    destruct (dget i (dict_by dc_id (tb_columns before))) as [x|] eqn:Ex,
      (dget i (dict_by dc_id (tb_columns after))) as [y|] eqn:Ey.
    + apply dict_by_Some in Ex as [Ex _], Ey as [Ey _]. constructor.
      eapply (plan_kept_column_nil plan before after); eauto.
    + by apply emit_nil in Hall.
    + exfalso. unfold plan_new_column in Hall. case_match; [by apply block_nil in Hall|by apply emit_nil in Hall].
    + constructor.
  - intros Hall i. specialize (Hall i).
    destruct (dget i (dict_by dc_id (tb_columns before))) as [x|] eqn:Ex,
      (dget i (dict_by dc_id (tb_columns after))) as [y|] eqn:Ey; inversion Hall; subst; [|done].
    apply dict_by_Some in Ex as [Ex _], Ey as [Ey _]. eapply (plan_kept_column_nil plan before after); eauto.
Qed.

Lemma plan_kept_table_nil plan before after :
  plan_conversions plan = [] -> table_ok before -> table_ok after ->
  plan_kept_table plan before after = Ok [] <-> same_table before after.
Proof.
  intros Hconv Hb Ha. unfold plan_kept_table. rewrite !both_nil, when_nil, emit_nil, plan_columns_nil by done.
  unfold plan_table_constraint_changes, plan_table_index_changes. rewrite both_nil, !each_id_nil by done.
  setoid_rewrite plan_key_nil. setoid_rewrite plan_check_nil. setoid_rewrite plan_index_nil.
  rewrite <-(matched_eq dk_id), negb_true_iff, bool_decide_eq_false. split.
  - intros (Hname & ? & [? ?] & ?). split; try done. apply dec_stable. tauto.
  - intros []. tauto.
Qed.

Lemma plan_tables_nil plan (live desired : SchemiiDesignContent) :
  plan_conversions plan = [] -> Forall table_ok (content_tables live) -> Forall table_ok (content_tables desired) ->
  plan_live_tables plan = dict_by tb_id (content_tables live) ->
  plan_desired_tables plan = dict_by tb_id (content_tables desired) ->
  plan_table_changes plan = Ok [] <-> matched tb_id same_table (content_tables live) (content_tables desired).
Proof.
  intros Hconv Hl Hd Etl Etd. rewrite Forall_forall in Hl, Hd. unfold plan_table_changes. rewrite each_id_nil, Etl, Etd by done.
  apply (matched_iff tb_id same_table (fun b a => plan_table plan b a = Ok [])); [done|..].
  - intros x _ Hx. by apply emit_nil in Hx.
  - intros y _ Hy. simpl in Hy. apply both_nil in Hy as [Hy _]. by apply bind_emit_nil in Hy.
  - intros x y Hx Hy. apply plan_kept_table_nil; auto.
Qed.

(** ** Whole designs *)

Lemma view_parses live v : design_ok live -> v ∈ content_views live -> exists q, parse_query_definition (vw_definition v) = Ok q.
Proof. intros Hl Hv. pose proof (do_views _ Hl) as Hvs. rewrite Forall_forall in Hvs. by apply Hvs. Qed.

Lemma map_then_total {A B C} (f : A -> planned B) (g : list B -> C) l :
  (forall x, x ∈ l -> exists y, f x = Ok y) -> exists z, (let! ys := result_map f l in Ok (g ys)) = Ok z.
Proof. intros Hf%Forall_forall. destruct (result_map_total f l Hf) as [ys Hys]. rewrite Hys. by eexists. Qed.

Lemma dependent_view_names_total ns name live desired :
  design_ok live -> design_ok desired -> exists names, dependent_view_names ns name live desired = Ok names.
Proof.
  intros Hl Hd. unfold dependent_view_names.
  apply map_then_total. intros v [Hv|Hv]%elem_of_app; (eapply view_parses in Hv as [q Hq]; [|done]);
    unfold referenced_relations; rewrite Hq; simpl; eauto.
Qed.

Lemma column_order_differences_total ns live desired :
  design_ok live -> design_ok desired -> exists ds, column_order_differences ns live desired = Ok ds.
Proof.
  intros Hl Hd. unfold column_order_differences.
  apply map_then_total. intros i _. repeat case_match; eauto. unfold column_order_difference.
  case_match; [eauto|]. unfold order_reasons.
  destruct (dependent_view_names_total ns (tb_name d) live desired) as [names Hn]; [done..|].
  rewrite Hn. simpl. eauto.
Qed.

(** A plan without requested rebuilds rebuilds nothing. *)
Lemma plan_rebuilds_nil plan : 
  design_ok (plan_live plan) -> design_ok (plan_desired plan) -> plan_physical_column_rebuilds plan [] [] = Ok [].
Proof.
  intros Hl Hd. unfold plan_physical_column_rebuilds.
  destruct (column_order_differences_total (plan_namespace plan) (plan_live plan) (plan_desired plan)) as [ds Hds]; [done..|].
  by rewrite Hds.
Qed.

Lemma same_tables_same_types live desired :
  matched tb_id same_table (content_tables live) (content_tables desired) ->
  column_type_changes (dict_by tb_id (content_tables live)) (dict_by tb_id (content_tables desired)) = [].
Proof.
  intros Hm. unfold column_type_changes.
  match goal with |- dict_fill _ _ ?l _ = _ => assert (l = []) as ->; [|done] end.
  apply List.concat_nil_Forall, Forall_fmap, Forall_forall. intros i _. simpl. specialize (Hm i).
  destruct Hm as [b a Hs|]; [|done].
  apply omap_nil.
  intros j _. pose proof (st_columns _ _ Hs j) as Hj. destruct Hj as [o n Ho|]; [|done].
  by rewrite bool_decide_eq_true_2 by apply Ho.
Qed.

Abbreviation compile := compile_migration_steps.

Lemma compile_nil_iff ns live desired empty :
  compile ns live desired empty [] [] [] = Ok ([], []) <->
  plan_passes (compile_inputs ns live desired empty []) [] [] = Ok [].
Proof.
  unfold compile_migration_steps. rewrite result_bind_Ok. setoid_rewrite finalize_nil.
  split; [by intros (es & ? & ->)|eauto].
Qed.

Lemma compile_nothing ns live desired empty :
  design_ok live -> design_ok desired ->
  compile ns live desired empty [] [] [] = Ok ([], []) <-> same_design live desired.
Proof.
  intros Hl Hd. rewrite compile_nil_iff. unfold plan_passes. rewrite !both_nil.
  rewrite plan_rebuilds_nil by done.
  rewrite (plan_tables_nil _ live desired) by (reflexivity || by apply do_tables).
  unfold plan_relationship_changes, plan_type_changes, plan_function_changes, plan_view_changes, plan_trigger_changes.
  rewrite !each_id_nil by (done || intros; apply plan_relationship_none).
  setoid_rewrite plan_type_nil. setoid_rewrite plan_function_nil.
  setoid_rewrite plan_view_nil. setoid_rewrite plan_trigger_nil.
  cbn [compile_inputs table_maps plan_live plan_desired].
  rewrite <-(matched_eq dt_id), <-(matched_eq fn_id), <-(matched_eq vw_id), <-(matched_eq tr_id). split.
  - intros (_ & Hr & ? & ? & ? & ? & ?). split; try done. apply matched_eq. intros i.
    specialize (Hr i). by apply plan_relationship_eq in Hr.
  - intros []. split_and!; try done. intros i.
    rewrite plan_relationship_nil; [by apply (matched_eq rl_id)|].
    simpl. by rewrite same_tables_same_types.
Qed.
End exactness.
