(* ===== verification/PlannerSafety.v ===== *)
(** * Safety of migration plans

    Facts about every step a plan holds: its phase is determined by what it does, so
    the numbered steps come in phase order; and every table, column, type, routine or
    view that a plan removes is announced by a destructive step.  Then the exceptions:
    planning between valid designs can only fail on a report that exceeds the limits of
    its model. *)

From stdpp Require Import pretty.
From Stdlib Require Import Ascii String.
From S2P Require Import Prelude Json PyString DesignModels DefinitionAnalysis DesignValidation TypeOrder ValidationSpec.
From S2P Require Import DesignDocument MigrationModels CheckExpressions TypeChanges SqlText PlanAnalysis MigrationPlanner.
From S2P Require Import PlannerProps.
Open Scope string_scope.
Open Scope result_scope.

(** ** Phases *)

Definition operation_phases : list ((migration_object_kind * string) * nat) :=
  [((MTable, "lock_for_physical_reorder"), 1); ((MTable, "stage_rows_for_physical_reorder"), 2);
   ((MRelationship, "drop_for_physical_reorder"), 5); ((MTable, "lock_for_conversion"), 5);
   ((MTrigger, "drop_for_physical_reorder"), 6); ((MIndex, "drop_for_physical_reorder"), 7);
   ((MConstraint, "drop_for_physical_reorder"), 8); ((MColumn, "remove_for_physical_reorder"), 9);
   ((MTable, "clear_staged_rows_for_physical_reorder"), 10); ((MRelationship, "drop"), 10);
   ((MTrigger, "drop"), 11); ((MIndex, "drop"), 12); ((MView, "drop"), 14); ((MMaterializedView, "drop"), 14);
   ((MConstraint, "drop"), 15); ((MFunction, "drop"), 18); ((MProcedure, "drop"), 18); ((MColumn, "drop"), 20);
   ((MTable, "drop"), 30); ((MType, "drop"), 32); ((MTable, "rename"), 35); ((MType, "create"), 38);
   ((MTable, "create"), 40); ((MColumn, "restore_in_physical_order"), 40); ((MColumn, "rename"), 42);
   ((MColumn, "add"), 45); ((MTable, "restore_rows_after_physical_reorder"), 45);
   ((MColumn, "synchronize_identity_after_physical_reorder"), 46); ((MColumn, "validate_conversion"), 46);
   ((MColumn, "drop_default_for_conversion"), 47); ((MColumn, "alter_type"), 48); ((MColumn, "alter_default"), 50);
   ((MColumn, "alter_nullability"), 52); ((MFunction, "create"), 55); ((MFunction, "replace"), 55);
   ((MProcedure, "create"), 55); ((MProcedure, "replace"), 55); ((MConstraint, "create"), 60);
   ((MConstraint, "restore_after_physical_reorder"), 60); ((MIndex, "create"), 65);
   ((MIndex, "restore_after_physical_reorder"), 65); ((MRelationship, "create"), 70);
   ((MRelationship, "restore_after_physical_reorder"), 70); ((MView, "create"), 75); ((MView, "replace"), 75);
   ((MMaterializedView, "create"), 75); ((MTrigger, "create"), 80); ((MTrigger, "restore_after_physical_reorder"), 80)].

#[export] Instance migration_object_kind_eq_dec : EqDecision migration_object_kind. Proof. solve_decision. Defined.

(** The phase of a published step, from its object kind and operation. *)
Definition phase_of (kind : migration_object_kind) (operation : string) : option nat :=
  dget (kind, operation) operation_phases.
Definition published_phase (s : MigrationStep) : option nat := phase_of (mst_object_kind s) (mst_operation s).

(** The phases in which objects are removed for good. *)
Definition removal_phases : list nat := [14; 18; 20; 30; 32].

Definition step_disciplined (s : PendingStep) : bool :=
  bool_decide (phase_of (ps_kind s) (ps_operation s) = Some (ps_phase s))
  && (negb (bool_decide (ps_phase s ∈ removal_phases)) || ps_destructive s)
  && ps_requires_lock s.

Definition disciplined (e : emission) : Prop :=
  match e with Pending s => step_disciplined s = true | Blocking _ => True end.

(** ** What every emission satisfies *)

Definition emits (m : emissions) : Prop := forall es, m = Ok es -> Forall disciplined es.

Lemma emits_both a b : emits a -> emits b -> emits (both a b).
Proof. intros Ha Hb es (x & y & Hx & Hy & ->)%both_Ok. apply Forall_app. auto. Qed.

Lemma emits_each {A} (f : A -> emissions) l : (forall x, emits (f x)) -> emits (each f l).
Proof.
  intros Hf es (parts & Hall & ->)%each_Ok. apply Forall_concat.
  induction Hall as [|x p l parts Hx _ IH]; constructor; [by eapply Hf|done].
Qed.

Lemma emits_emit s : step_disciplined s = true -> emits (emit s).
Proof. intros Hs es [= <-]. by repeat constructor. Qed.

Lemma emits_block code message path : emits (block code message path).
Proof. unfold block. case_match; intros es; [intros [= <-]; by repeat constructor|done]. Qed.

Lemma emits_nothing : emits nothing.
Proof. intros es [= <-]. constructor. Qed.

Lemma emits_when b e : emits e -> emits (when b e).
Proof. destruct b; simpl; [done|]. intros _. apply emits_nothing. Qed.

Lemma emits_bind {A} (m : planned A) (k : A -> emissions) : (forall a, emits (k a)) -> emits (result_bind m k).
Proof. intros Hk es (a & _ & Ha)%result_bind_Ok. by eapply Hk. Qed.

Create HintDb emits.
#[export] Hint Resolve emits_block emits_nothing : emits.

(** Descends through the combinators of a pass to its steps. *)
Ltac emits :=
  cbv zeta;
  repeat match goal with
  | |- emits (both _ _) => apply emits_both
  | |- emits (each _ _) => apply emits_each; intros ?
  | |- emits (each_id _ _ _) => apply emits_each; intros ?
  | |- emits (when _ _) => apply emits_when
  | |- emits (result_bind _ _) => apply emits_bind; intros ?
  | |- emits (emit _) => apply emits_emit; vm_compute; reflexivity
  | |- emits (block _ _ _) => apply emits_block
  | |- emits nothing => apply emits_nothing
  | |- emits (if _ then _ else _) => case_match
  | |- emits (match ?x with _ => _ end) => destruct x
  | |- emits (let _ := _ in _) => cbv zeta
  end.

Section discipline.
Context `{Pglast} `{SqlglotRelations} `{SqlglotTrees} `{Sha256}.

Lemma rebuilds_disciplined plan ids populated : emits (plan_physical_column_rebuilds plan ids populated).
Proof.
  unfold plan_physical_column_rebuilds, append_column_order_rebuild, reorder_detach, reorder_columns, reorder_restore.
  emits.
Qed.

Lemma relationships_disciplined plan : emits (plan_relationship_changes plan).
Proof. unfold plan_relationship_changes, plan_relationship. emits. Qed.

Lemma columns_disciplined plan before after name : emits (plan_table_column_changes plan before after name).
Proof.
  unfold plan_table_column_changes, plan_column, plan_new_column, plan_dropped_column, plan_kept_column,
    plan_column_type, plan_conversion_guards. emits.
Qed.

Lemma constraints_disciplined plan before after name : emits (plan_table_constraint_changes plan before after name).
Proof. unfold plan_table_constraint_changes, plan_key, plan_check, replace_constraint. emits. Qed.

Lemma tables_disciplined plan : emits (plan_table_changes plan).
Proof.
  unfold plan_table_changes, plan_table, plan_new_table, plan_kept_table, plan_table_index_changes, plan_index.
  emits; auto using columns_disciplined, constraints_disciplined.
Qed.

Lemma types_disciplined plan : emits (plan_type_changes plan).
Proof. unfold plan_type_changes, plan_type. emits. Qed.

Lemma functions_disciplined plan : emits (plan_function_changes plan).
Proof.
  unfold plan_function_changes, plan_function, plan_routine_steps. emits;
    apply emits_emit;
    match goal with |- context [routine_object_kind (fn_kind ?f)] => destruct (fn_kind f) end; vm_compute; reflexivity.
Qed.

Lemma views_disciplined plan : emits (plan_view_changes plan).
Proof.
  unfold plan_view_changes, plan_view. emits; apply emits_emit;
    match goal with |- context [view_object_kind (vw_kind ?v)] => destruct (vw_kind v) end; vm_compute; (reflexivity || done).
Qed.

Lemma triggers_disciplined plan : emits (plan_trigger_changes plan).
Proof. unfold plan_trigger_changes, plan_trigger. emits. Qed.

Lemma passes_disciplined plan ids populated : emits (plan_passes plan ids populated).
Proof.
  unfold plan_passes. emits; auto using rebuilds_disciplined, relationships_disciplined, tables_disciplined,
    types_disciplined, functions_disciplined, views_disciplined, triggers_disciplined.
Qed.
End discipline.

(** ** The published steps *)

(** Steps in phase order, numbered from one, within the limits of the model, and no
    statement twice in a phase. *)
Record well_ordered (steps : list MigrationStep) : Prop := {
  wo_index : forall i s, steps !! i = Some s -> mst_index s = Z.of_nat (S i);
  wo_phases : exists phases, Forall2 (fun s p => published_phase s = Some p) steps phases /\ StronglySorted le phases;
  wo_once : NoDup ((fun s => (published_phase s, mst_sql s)) <$> steps);
  wo_valid : Forall (fun s => step_valid s = true) steps;
  wo_locks : Forall (fun s => mst_requires_lock s = true) steps;
}.

Lemma step_le_phase a b : step_le a b -> ps_phase a <= ps_phase b.
Proof. unfold step_le. repeat case_decide; lia. Qed.

Lemma planned_order_elem es s : s ∈ planned_order es -> Pending s ∈ es.
Proof.
  unfold planned_order. rewrite merge_sort_Permutation. intros Hs. apply elem_of_pending_of.
  by eapply elem_of_submseteq, sublist_submseteq, unique_pending_sub.
Qed.

Lemma numbered_published (f : MigrationStep -> Prop) start (l : list PendingStep) :
  (forall i s, s ∈ l -> f (migration_step i s)) -> Forall f (zip_with migration_step (seq start (length l)) l).
Proof.
  revert start. induction l as [|s l IH]; intros start Hf; simpl; constructor; [apply Hf; left|].
  apply IH. intros. apply Hf. by right.
Qed.

Lemma numbered_fmap {B} (f : MigrationStep -> B) (g : PendingStep -> B) start (l : list PendingStep) :
  (forall i s, s ∈ l -> f (migration_step i s) = g s) ->
  f <$> zip_with migration_step (seq start (length l)) l = g <$> l.
Proof.
  revert start. induction l as [|s l IH]; intros start Hf; csimpl; [done|].
  rewrite Hf by left. f_equal. apply IH. intros. apply Hf. by right.
Qed.

Lemma disciplined_step es s :
  Forall disciplined es -> Pending s ∈ es -> step_disciplined s = true.
Proof. intros Hall Hs. rewrite Forall_forall in Hall. apply (Hall _ Hs). Qed.

Lemma disciplined_phase s : step_disciplined s = true -> phase_of (ps_kind s) (ps_operation s) = Some (ps_phase s).
Proof. unfold step_disciplined. rewrite !andb_true_iff, bool_decide_eq_true. tauto. Qed.

Lemma finalize_well_ordered es steps warnings :
  Forall disciplined es -> finalize_migration_plan es = Ok (steps, warnings) -> well_ordered steps.
Proof.
  intros Hes (-> & Hvalid & _)%finalize_Ok.
  assert (forall s, s ∈ planned_order es -> step_disciplined s = true) as Hd
    by (intros s Hs; eapply disciplined_step, planned_order_elem; done).
  split; [| | |done|].
  - intros i s Hs. apply lookup_zip_with_Some in Hs as (n & p & -> & Hn & _).
    apply lookup_seq in Hn as [-> _]. simpl. lia.
  - exists (ps_phase <$> planned_order es). split.
    + apply Forall2_same_length_lookup. rewrite length_fmap, length_zip_with, length_seq. split; [lia|].
      intros i s p Hs Hp. apply lookup_zip_with_Some in Hs as (n & q & -> & _ & Hq).
      rewrite list_lookup_fmap, Hq in Hp. injection Hp as <-. unfold published_phase. simpl.
      by apply disciplined_phase, Hd, list_elem_of_lookup_2 with i.
    + assert (StronglySorted step_le (planned_order es)) as Hs by (unfold planned_order; apply StronglySorted_merge_sort; apply _).
      clear -Hs. induction Hs as [|s l _ IH Hall]; csimpl; [constructor|]. constructor; [done|].
      apply Forall_fmap. eapply Forall_impl; [exact Hall|]. intros. by apply step_le_phase.
  - rewrite (numbered_fmap _ (fun s => (Some (ps_phase s), ps_sql s))).
    + pose proof (unique_pending_NoDup (pending_of es) []) as Hnd.
      rewrite <-(merge_sort_Permutation step_le) in Hnd. fold (planned_order es) in Hnd.
      clear -Hnd. induction (planned_order es) as [|s l IH]; csimpl in *; [constructor|].
      apply NoDup_cons in Hnd as [Hn Hnd]. constructor; [|by apply IH].
      intros (s' & [= E1 E2] & Hs')%list_elem_of_fmap. apply Hn, list_elem_of_fmap. exists s'.
      unfold step_key. by rewrite E1, E2.
    + intros i s Hs. unfold published_phase. simpl. by rewrite disciplined_phase by auto.
  - apply numbered_published. intros i s Hs%Hd. simpl. unfold step_disciplined in Hs.
    by apply andb_true_iff in Hs as [_ ?].
Qed.

(** ** Announced losses *)

(** A destructive step with the given statement. *)
Definition announced (steps : list MigrationStep) (sql : string) : Prop :=
  exists s, s ∈ steps /\ mst_sql s = sql /\ mst_destructive s = true.

Lemma finalize_announces es steps warnings s :
  Forall disciplined es -> finalize_migration_plan es = Ok (steps, warnings) ->
  Pending s ∈ es -> ps_phase s ∈ removal_phases -> announced steps (ps_sql s).
Proof.
  intros Hes (-> & _ & _)%finalize_Ok Hs Hp.
  destruct (unique_pending_first (pending_of es) [] s) as (s' & Hs' & [= E1 E2]);
    [by apply elem_of_pending_of|apply not_elem_of_nil|].
  rewrite <-(merge_sort_Permutation step_le) in Hs'. fold (planned_order es) in Hs'.
  assert (ps_destructive s' = true) as Hdes.
  { pose proof (disciplined_step _ _ Hes (planned_order_elem _ _ Hs')) as Hd. unfold step_disciplined in Hd.
    rewrite E1, (bool_decide_eq_true_2 (ps_phase s ∈ removal_phases)) in Hd by done.
    rewrite !andb_true_iff in Hd. tauto. }
  apply list_elem_of_lookup in Hs' as [i Hi]. exists (migration_step (1 + i) s'). split; [|done].
  apply list_elem_of_lookup. exists i. apply lookup_zip_with_Some. exists (1 + i), s'. split_and!; [done| |done].
  apply lookup_seq. split; [lia|]. by apply lookup_lt_Some in Hi.
Qed.

(** Objects of a valid design have their own IDs. *)
Lemma object_ids_NoDup (content : SchemiiDesignContent) :
  NoDup (all_object_ids content) ->
  NoDup (dt_id <$> content_types content) /\ NoDup (tb_id <$> content_tables content) /\
  NoDup (fn_id <$> content_functions content) /\ NoDup (vw_id <$> content_views content) /\
  (forall t, t ∈ content_tables content -> NoDup (table_object_ids t)).
Proof.
  intros Hids. pose proof (table_ids_NoDup _ Hids) as Htables. unfold all_object_ids in Hids.
  apply NoDup_app in Hids as (Hty & _ & Hids). apply NoDup_app in Hids as (Htb & _ & Hids).
  apply NoDup_app in Hids as (_ & _ & Hids). apply NoDup_app in Hids as (Hfn & _ & Hids).
  apply NoDup_app in Hids as (Hvw & _ & _). split_and!; try done.
  intros t (l & r & Hsplit)%list_elem_of_split. rewrite Hsplit, fmap_app, fmap_cons, concat_app in Htb.
  apply NoDup_app in Htb as (_ & _ & Htb). simpl in Htb. apply NoDup_cons in Htb as [Ht Htb].
  apply NoDup_app in Htb as (Htb & Hd & _). unfold table_object_ids. constructor; [set_solver|done].
Qed.

Lemma column_ids_NoDup (content : SchemiiDesignContent) t :
  NoDup (all_object_ids content) -> t ∈ content_tables content -> NoDup (dc_id <$> tb_columns t).
Proof.
  intros Hids Ht. apply object_ids_NoDup in Hids as (_ & _ & _ & _ & Hall). apply Hall in Ht.
  unfold table_object_ids in Ht. apply NoDup_cons in Ht as [_ Ht]. by apply NoDup_app in Ht as [? _].
Qed.

Record losses_announced (ns : string) (live desired : SchemiiDesignContent) (steps : list MigrationStep) : Prop := {
  la_tables : forall t, t ∈ content_tables live -> tb_id t ∉ tb_id <$> content_tables desired ->
    announced steps ("DROP TABLE " ++ qualified ns (tb_name t) ++ ";");
  la_columns : forall t t' c, t ∈ content_tables live -> t' ∈ content_tables desired -> tb_id t = tb_id t' ->
    c ∈ tb_columns t -> dc_id c ∉ dc_id <$> tb_columns t' ->
    announced steps ("ALTER TABLE " ++ qualified ns (tb_name t') ++ " DROP COLUMN " ++ quote (dc_name c) ++ ";");
  la_types : forall t, t ∈ content_types live -> dt_id t ∉ dt_id <$> content_types desired ->
    announced steps ("DROP " ++ match dt_kind t with TKDomain => "DOMAIN" | TKEnum => "TYPE" end ++ " "
                     ++ qualified ns (dt_name t) ++ ";");
  la_functions : forall f, f ∈ content_functions live -> fn_id f ∉ fn_id <$> content_functions desired ->
    announced steps ("DROP " ++ match fn_kind f with RProcedure => "PROCEDURE" | RFunction => "FUNCTION" end ++ " "
                     ++ qualified ns (fn_name f) ++ "(" ++ py_strip (fn_identity_arguments f) ++ ");");
  la_views : forall v, v ∈ content_views live -> vw_id v ∉ vw_id <$> content_views desired ->
    announced steps ("DROP " ++ view_kind_words (vw_kind v) ++ " " ++ qualified ns (vw_name v) ++ ";");
}.

Section losses.
Context `{Pglast} `{SqlglotRelations} `{SqlglotTrees} `{Sha256}.

(** A pass reports an object that only the live side has. *)
Lemma pass_reports_lost {A} (key : A -> string) (live desired : list A) f es x s :
  each_id (dict_by key live) (dict_by key desired) f = Ok es -> NoDup (key <$> live) ->
  x ∈ live -> key x ∉ key <$> desired ->
  (forall ys, f (key x) (Some x) None = Ok ys -> Pending s ∈ ys) -> Pending s ∈ es.
Proof.
  intros Hes Hnd Hx Hlost%dict_by_None Hf. eapply each_id_live; [exact Hes|by apply dict_by_elem|].
  by rewrite Hlost.
Qed.

Lemma lost_column_pending plan t t' c es :
  NoDup (dc_id <$> tb_columns t) -> c ∈ tb_columns t -> dc_id c ∉ dc_id <$> tb_columns t' ->
  plan_kept_table plan t t' = Ok es ->
  Pending (flagged_step 20 MColumn (column_path t' (dc_name c)) "drop"
    ("ALTER TABLE " ++ qualified (plan_namespace plan) (tb_name t') ++ " DROP COLUMN " ++ quote (dc_name c) ++ ";") true true) ∈ es.
Proof.
  intros Hnd Hc Hlost Hes. unfold plan_kept_table in Hes.
  eapply both_r; [exact Hes|]. intros es2 Hes2. eapply both_l; [exact Hes2|]. intros es3 Hes3.
  eapply pass_reports_lost; [exact Hes3|done..|]. intros ys [= <-]. simpl.
  assert ((if negb (bool_decide (tb_name t = tb_name t')) then tb_name t' else tb_name t) = tb_name t') as ->
    by (case_bool_decide; done).
  rewrite str_app_assoc. apply list_elem_of_singleton. done.
Qed.

Lemma compile_announces ns live desired empty ids populated conversions steps warnings :
  design_ok live -> design_ok desired ->
  compile_migration_steps ns live desired empty ids populated conversions = Ok (steps, warnings) ->
  losses_announced ns live desired steps.
Proof.
  intros Hl Hd (es & Hes & Hfin)%result_bind_Ok.
  pose proof (passes_disciplined _ _ _ _ Hes) as Hdis.
  destruct (object_ids_NoDup live) as (Hty & Htb & Hfn & Hvw & _); [by apply do_ids|].
  destruct (object_ids_NoDup desired) as (_ & Htb' & _ & _ & _); [by apply do_ids|].
  unfold plan_passes in Hes.
  apply both_Ok in Hes as (e0 & r0 & _ & Hes & ->). apply both_Ok in Hes as (e1 & r1 & _ & Hes & ->).
  apply both_Ok in Hes as (e2 & r2 & Htables & Hes & ->). apply both_Ok in Hes as (e3 & r3 & Htypes & Hes & ->).
  apply both_Ok in Hes as (e4 & r4 & Hfuns & Hes & ->). apply both_Ok in Hes as (e5 & r5 & Hviews & _ & ->).
  assert (forall phase kind path op sql d m, Pending (flagged_step phase kind path op sql d m) ∈ (e2 ++ e3 ++ e4 ++ e5)%list ->
    phase ∈ removal_phases -> announced steps sql) as Hann.
  { intros phase kind path op sql d m Hs Hp.
    apply (finalize_announces _ _ _ (flagged_step phase kind path op sql d m) Hdis Hfin); [set_solver|done]. }
  split.
  - intros t Ht Hlost. eapply (Hann 30); [apply elem_of_app; left|by compute; set_solver].
    eapply pass_reports_lost; [exact Htables|done..|]. intros ys [= <-]. apply list_elem_of_singleton. reflexivity.
  - intros t t' c Ht Ht' Eid Hc Hlost. eapply (Hann 20); [apply elem_of_app; left|by compute; set_solver].
    eapply (each_id_live _ _ _ _ (tb_id t) t); [exact Htables|by apply dict_by_elem|].
    intros ys Hys. simpl in Hys. rewrite Eid, (dict_by_elem tb_id _ t') in Hys by done. eapply (lost_column_pending (compile_inputs ns live desired empty conversions) t t' c); [|done..|exact Hys].
    apply (column_ids_NoDup live); [by apply do_ids|done].
  - intros t Ht Hlost. eapply (Hann 32); [do 1 (apply elem_of_app; right); apply elem_of_app; left|by compute; set_solver].
    eapply pass_reports_lost; [exact Htypes|done..|]. intros ys [= <-]. apply list_elem_of_singleton. reflexivity.
  - intros t Ht Hlost. eapply (Hann 18); [do 2 (apply elem_of_app; right); apply elem_of_app; left|by compute; set_solver].
    eapply pass_reports_lost; [exact Hfuns|done..|]. intros ys [= <-]. apply list_elem_of_singleton. reflexivity.
  - intros t Ht Hlost. eapply (Hann 14); [do 3 (apply elem_of_app; right)|by compute; set_solver].
    eapply pass_reports_lost; [exact Hviews|done..|]. intros ys [= <-]. apply list_elem_of_singleton. reflexivity.
Qed.
End losses.

(** ** Exceptions *)

Abbreviation reports_only := (raises_only (eq ValidationError)).

Create HintDb raises.
#[export] Hint Resolve raises_Ok raises_emit raises_get : raises.
#[export] Hint Extern 1 (raises_only _ (block _ _ _)) => apply raises_block; reflexivity : raises.
#[export] Hint Extern 1 (raises_only _ nothing) => apply raises_Ok : raises.

(** Descends through the combinators of a pass to its lookups. *)
Ltac raises :=
  cbv zeta;
  repeat match goal with
  | |- raises_only _ (both _ _) => apply raises_both
  | |- raises_only _ (each _ _) => apply raises_each; intros ? ?
  | |- raises_only _ (when _ _) => apply raises_when; intros ?
  | |- raises_only _ (result_bind _ _) => apply raises_bind; [|intros ? ?]
  | |- raises_only _ (if _ then _ else _) => case_match
  | |- raises_only _ (match ?x with _ => _ end) => destruct x eqn:?
  end; auto with raises.

Section exceptions.
Context `{Pglast} `{SqlglotRelations} `{SqlglotTrees} `{Sha256}.

Lemma quoted_columns_raise columns ids :
  (forall i, i ∈ ids -> i ∈ dkeys columns) -> reports_only (result_map (quoted_column columns) ids).
Proof. intros Hall. apply raises_map. intros i Hi. unfold quoted_column. raises. Qed.

Lemma column_list_raise columns ids : (forall i, i ∈ ids -> i ∈ dkeys columns) -> reports_only (column_list columns ids).
Proof. intros Hall. unfold column_list. raises. by apply quoted_columns_raise. Qed.

(** The columns of a table are among those of its design. *)
Lemma local_known (content : SchemiiDesignContent) t ids :
  t ∈ content_tables content -> local_columns t ids -> forall i, i ∈ ids -> i ∈ dkeys (table_maps content).2.
Proof.
  intros Ht [_ Hsub] i Hi. apply Hsub in Hi. apply list_elem_of_fmap in Hi as (c & -> & Hc).
  simpl. apply dkeys_dict_by, list_elem_of_fmap. exists c. split; [done|].
  apply list_elem_of_In, in_concat. exists (tb_columns t). rewrite <-!list_elem_of_In.
  split; [by apply list_elem_of_fmap_2|done].
Qed.

Section design.
Variable content : SchemiiDesignContent.
Hypothesis Hok : design_ok content.
Abbreviation tables := (table_maps content).1.
Abbreviation columns := (table_maps content).2.

Lemma valid_table t : t ∈ content_tables content -> table_ok t.
Proof. pose proof (do_tables _ Hok) as Hall. rewrite Forall_forall in Hall. apply Hall. Qed.

Lemma known_table t : t ∈ content_tables content -> tb_id t ∈ dkeys tables.
Proof. intros. apply dkeys_dict_by. by apply list_elem_of_fmap_2. Qed.

Lemma key_columns_known t k : t ∈ content_tables content -> k ∈ tb_keys t -> forall i, i ∈ dk_column_ids k -> i ∈ dkeys columns.
Proof.
  intros Ht Hk. eapply local_known; [done|]. pose proof (to_keys _ (valid_table t Ht)) as Hall.
  rewrite Forall_forall in Hall. by apply Hall.
Qed.

Lemma create_index_raise ns t i : t ∈ content_tables content -> i ∈ tb_indexes t -> reports_only (create_index ns t i columns).
Proof.
  intros Ht Hi. pose proof (to_indexes _ (valid_table t Ht)) as Hall. rewrite Forall_forall in Hall. specialize (Hall _ Hi).
  unfold create_index. raises.
  - apply quoted_columns_raise, (local_known _ t); [done|apply Hall].
  - apply column_list_raise, (local_known _ t); [done|]. rewrite <-Heql. apply Hall.
Qed.

Lemma create_table_raise ns t : t ∈ content_tables content -> reports_only (create_table ns t columns).
Proof.
  intros Ht. unfold create_table. raises. apply raises_map. intros k Hk. unfold key_definition. raises.
  by apply column_list_raise, (key_columns_known t).
Qed.

Definition own_constraint (t : DesignTable) (item : table_constraint) : Prop :=
  match item with KeyItem k => k ∈ tb_keys t | CheckItem c => c ∈ tb_checks t end.

Lemma constraint_sql_raise ns t item :
  t ∈ content_tables content -> own_constraint t item -> reports_only (constraint_sql ns t item columns).
Proof.
  intros Ht Hitem. unfold constraint_sql. raises. apply column_list_raise. by apply (key_columns_known t).
Qed.

Lemma relationship_known r : r ∈ content_relationships content ->
  rl_source_table_id r ∈ dkeys tables /\ rl_target_table_id r ∈ dkeys tables /\
  (forall i, i ∈ rl_source_column_ids r -> i ∈ dkeys columns) /\ (forall i, i ∈ rl_target_column_ids r -> i ∈ dkeys columns).
Proof.
  intros Hr. pose proof (do_relationships _ Hok) as Hall. rewrite Forall_forall in Hall. apply Hall in Hr as Hr'.
  destruct (ro_source _ _ Hr') as (s & Hs & <- & Hsc), (ro_target _ _ Hr') as (t & Ht & <- & Htc & _).
  split_and!; eauto using known_table, local_known.
Qed.

Lemma relationship_sql_raise ns r : r ∈ content_relationships content -> reports_only (relationship_sql ns r tables columns).
Proof.
  intros (Hs & Ht & Hsc & Htc)%relationship_known. unfold relationship_sql. raises; by apply column_list_raise.
Qed.
End design.

(** The definition is one the parser reads as a routine. *)
Definition routine_readable (f : DesignFunction) : Prop :=
  exists s rest, parse_sql (fn_definition f) = Some (CreateFunctionStmt s :: rest).

Section passes.
Variables (ns : string) (live desired : SchemiiDesignContent) (empty : list string).
Variable conversions : list (string * CompiledConversion).
Hypothesis Hl : design_ok live.
Hypothesis Hd : design_ok desired.
Hypothesis Hroutines : Forall routine_readable (content_functions live ++ content_functions desired)%list.
Abbreviation plan := (compile_inputs ns live desired empty conversions).

Lemma views_raise name : reports_only (dependent_view_names ns name live desired).
Proof. destruct (dependent_view_names_total ns name live desired Hl Hd) as [ys ->]. apply raises_Ok. Qed.

Lemma table_columns_raise before after name : reports_only (plan_table_column_changes plan before after name).
Proof.
  unfold plan_table_column_changes, each_id, plan_column, plan_new_column, plan_dropped_column, plan_kept_column,
    plan_column_type, plan_conversion_guards. raises; try apply views_raise.
Qed.

Lemma replace_constraint_raise after name old new :
  after ∈ content_tables desired -> (forall item, new = Some item -> own_constraint after item) ->
  reports_only (replace_constraint plan after name old new).
Proof. intros Ha Hn. unfold replace_constraint. raises. by apply (constraint_sql_raise desired Hd); [|apply Hn]. Qed.

Lemma constraints_raise before after name :
  after ∈ content_tables desired -> reports_only (plan_table_constraint_changes plan before after name).
Proof.
  intros Ha. unfold plan_table_constraint_changes, each_id, plan_key, plan_check.
  apply raises_both; (apply raises_each; intros i _); (case_match; [apply raises_Ok|]).
  - apply replace_constraint_raise; [done|]. intros item (k & Hk & ->)%fmap_Some. by apply dict_by_Some in Hk as [? _].
  - apply replace_constraint_raise; [done|]. intros item (k & Hk & ->)%fmap_Some. by apply dict_by_Some in Hk as [? _].
Qed.

Lemma indexes_raise before after : after ∈ content_tables desired -> reports_only (plan_table_index_changes plan before after).
Proof.
  intros Ha. unfold plan_table_index_changes, each_id, plan_index. raises;
    match goal with Hi : dget _ (dict_by ix_id (tb_indexes after)) = Some _ |- _ =>
      apply dict_by_Some in Hi as [? _]; by apply (create_index_raise desired Hd) end.
Qed.

Lemma tables_raise : reports_only (plan_table_changes plan).
Proof.
  unfold plan_table_changes, each_id, plan_table, plan_new_table, plan_kept_table. raises;
    repeat match goal with Hi : dget _ (plan_desired_tables plan) = Some _ |- _ => apply dict_by_Some in Hi as [? _] end;
    auto using table_columns_raise, constraints_raise, indexes_raise;
    by apply (create_table_raise desired Hd) || by apply (create_index_raise desired Hd).
Qed.

Lemma relationships_raise : reports_only (plan_relationship_changes plan).
Proof.
  unfold plan_relationship_changes, each_id, plan_relationship. raises;
    repeat match goal with Hi : dget _ (dict_by rl_id _) = Some _ |- _ => apply dict_by_Some in Hi as [? _] end;
    try (by apply (relationship_sql_raise desired Hd)).
  by apply raises_get, (relationship_known live Hl).
Qed.

Lemma functions_raise : reports_only (plan_function_changes plan).
Proof.
  rewrite Forall_app in Hroutines. destruct Hroutines as [Hr Hr']. rewrite Forall_forall in Hr, Hr'.
  unfold plan_function_changes, each_id, plan_function, plan_routine_steps. raises.
  repeat match goal with Hi : dget _ (dict_by fn_id _) = Some _ |- _ => apply dict_by_Some in Hi as [? _] end.
  unfold routine_parameters_require_migration, declared_parameters.
  destruct (Hr d) as (s & rest & ->); [done|]. destruct (Hr' d0) as (s' & rest' & ->); [done|]. simpl. case_match; apply raises_Ok.
Qed.

Lemma types_raise : reports_only (plan_type_changes plan).
Proof. unfold plan_type_changes, each_id, plan_type. raises. Qed.

Lemma view_changes_raise : reports_only (plan_view_changes plan).
Proof. unfold plan_view_changes, each_id, plan_view. raises. Qed.

Lemma triggers_raise : reports_only (plan_trigger_changes plan).
Proof. unfold plan_trigger_changes, each_id, plan_trigger. raises. Qed.

(** A difference of column order is between two tables of the designs. *)
Lemma difference_tables ds table_id difference :
  column_order_differences ns live desired = Ok ds -> dget table_id (dict_by cod_table_id ds) = Some difference ->
  table_id ∈ dkeys (table_maps live).1 /\ table_id ∈ dkeys (table_maps desired).1.
Proof.
  intros (parts & Hparts & [= <-])%result_bind_Ok [Hin <-]%dict_by_Some.
  apply list_elem_of_In, in_concat in Hin as (part & Hpart & Hin). rewrite <-list_elem_of_In in Hpart. rewrite <-list_elem_of_In in Hin.
  apply list_elem_of_lookup in Hpart as [i Hi]. apply result_map_Ok in Hparts.
  destruct (Forall2_lookup_r _ _ _ _ _ Hparts Hi) as (tid & Htid & Hf).
  apply list_elem_of_lookup_2, elem_of_sorted_inter in Htid.
  assert (cod_table_id difference = tid) as ->; [|done].
  repeat case_match; simplify_eq; try by apply not_elem_of_nil in Hin.
  unfold column_order_difference in Hf. case_match; simplify_eq; [by apply not_elem_of_nil in Hin|].
  apply result_bind_Ok in Hf as (rs & _ & [= <-]). by apply list_elem_of_singleton in Hin as ->.
Qed.

Lemma append_rebuild_raise table_id contains_data :
  table_id ∈ dkeys (table_maps live).1 -> table_id ∈ dkeys (table_maps desired).1 ->
  reports_only (append_column_order_rebuild ns live desired table_id contains_data).
Proof.
  intros [before Hb]%dget_is_Some [after Ha]%dget_is_Some. unfold append_column_order_rebuild.
  rewrite (surjective_pairing (table_maps desired)). unfold get_item at 1 2. rewrite Hb, Ha. simpl result_bind.
  apply dict_by_Some in Ha as [Ha _]. unfold reorder_detach, reorder_columns, reorder_restore. raises.
  - by apply raises_get, (relationship_known live Hl).
  - apply (constraint_sql_raise desired Hd); [done|].
    match goal with Hi : _ ∈ (_ ++ _)%list |- _ =>
      apply elem_of_app in Hi as [(? & -> & ?)%list_elem_of_fmap|(? & -> & ?)%list_elem_of_fmap] end; done.
  - by apply (create_index_raise desired Hd).
  - by apply (relationship_sql_raise desired Hd).
Qed.

Lemma rebuilds_raise ids populated : reports_only (plan_physical_column_rebuilds plan ids populated).
Proof.
  unfold plan_physical_column_rebuilds. apply raises_bind.
  { destruct (column_order_differences_total ns live desired Hl Hd) as [ds Hds]. simpl. rewrite Hds. apply raises_Ok. }
  intros ds Hds. raises. apply append_rebuild_raise; by eapply (difference_tables ds x).
Qed.

Lemma passes_raise ids populated : reports_only (plan_passes plan ids populated).
Proof.
  unfold plan_passes. raises; auto using rebuilds_raise, relationships_raise, tables_raise, types_raise,
    functions_raise, view_changes_raise, triggers_raise.
Qed.

Lemma compile_raises ids populated :
  reports_only (compile_migration_steps ns live desired empty ids populated conversions).
Proof.
  unfold compile_migration_steps. apply raises_bind; [apply passes_raise|]. intros es _.
  unfold finalize_migration_plan. apply raises_bind; [|intros; apply raises_Ok].
  apply raises_map. intros [i s] _. simpl. case_match; [apply raises_Ok|]. by intros e [= <-].
Qed.
End passes.
End exceptions.
