(* ===== verification/PlannerTheorems.v ===== *)
(** * Theorems on migration plans

    The properties of [compile_migration_steps] and of the text builders, each applied
    to a small design, and three plans PostgreSQL cannot run. *)

From stdpp Require Import pretty.
From Stdlib Require Import Ascii String.
From S2P Require Import Prelude Json PyString DesignModels DefinitionAnalysis DesignValidation TypeOrder ValidationSpec.
From S2P Require Import DesignDocument MigrationModels CheckExpressions TypeChanges SqlText PlanAnalysis MigrationPlanner.
From S2P Require Import DesignMerge MergeProps MergeTheorems PlannerProps PlannerSafety.
Open Scope string_scope.
Open Scope result_scope.

Section theorems.
Context `{Pglast} `{SqlglotRelations} `{SqlglotTrees} `{Sha256}.

(** C32. Between valid designs the planner emits neither a step nor a blocker exactly when
    the designs describe the same schema: objects paired by ID are equal up to the order
    of columns and dependencies, the spelling of types and equivalent CHECK expressions. *)
Theorem empty_plan_iff_same_schema ns live desired empty :
  design_ok live -> design_ok desired ->
  compile_migration_steps ns live desired empty [] [] [] = Ok ([], []) <-> same_design live desired.
Proof. apply compile_nothing. Qed.

(** C33. Every table, column, type, routine and view of the live schema that the desired
    design no longer has is dropped by a step of the plan that is flagged destructive,
    whatever rebuilds and conversions are requested. *)
Theorem losses_are_announced ns live desired empty ids populated conversions steps warnings :
  design_ok live -> design_ok desired ->
  compile_migration_steps ns live desired empty ids populated conversions = Ok (steps, warnings) ->
  losses_announced ns live desired steps.
Proof. apply compile_announces. Qed.

(** C37. The steps of a plan are numbered from one, come in the order of the phases of
    their operations, hold no statement twice in a phase and fit the limits of the
    published model. *)
Theorem steps_in_phase_order ns live desired empty ids populated conversions steps warnings :
  compile_migration_steps ns live desired empty ids populated conversions = Ok (steps, warnings) ->
  well_ordered steps.
Proof.
  intros (es & Hes & Hfin)%result_bind_Ok. eapply finalize_well_ordered; [|exact Hfin].
  by eapply passes_disciplined.
Qed.

(** Planning between valid designs whose routines parse raises no key, attribute or
    parser exception: the only failure is a step or warning beyond the limits of its
    model. *)
Theorem planning_error_kind ns live desired empty ids populated conversions e :
  design_ok live -> design_ok desired ->
  Forall routine_readable (content_functions live ++ content_functions desired)%list ->
  compile_migration_steps ns live desired empty ids populated conversions = Err e -> e = ValidationError.
Proof. intros Hl Hd Hr He. symmetry. exact (compile_raises ns live desired empty conversions Hl Hd Hr ids populated e He). Qed.
End theorems.

(** A quoted identifier and a quoted literal are read back exactly, whatever
    characters the name holds and whatever follows it but another quotation mark: no name
    can end its own token.  Qualified names are unambiguous. *)
Theorem quoted_tokens_read_back (name namespace rest : string) :
  starts_with_char quote_char rest = false ->
  lex_quoted quote_char (quote name ++ rest) = Some (name, rest) /\
  lex_quoted quote_char (qualified namespace name ++ rest) = Some (namespace, "." ++ quote name ++ rest) /\
  (starts_with_char "'"%char rest = false -> lex_quoted "'"%char (literal name ++ rest) = Some (name, rest)).
Proof.
  intros Hr. split; [by apply lex_quote|]. split; [|by apply lex_literal].
  unfold qualified. rewrite !str_app_assoc. by apply lex_quote.
Qed.

(** ** Display order *)

(** Keeping the displayed column order only permutes the inspected columns of each
    table; when the same columns exist the result has exactly the preferred order. *)
Theorem display_order_kept columns preferred :
  NoDup (dc_id <$> columns) -> NoDup (dc_id <$> preferred) ->
  preferred_order columns preferred ≡ₚ columns /\
  ((forall i, i ∈ dc_id <$> columns <-> i ∈ dc_id <$> preferred) ->
   dc_id <$> preferred_order columns preferred = dc_id <$> preferred).
Proof.
  intros Hc Hp. unfold preferred_order. set (ordered := omap _ preferred).
  assert (forall c, c ∈ ordered <-> c ∈ columns /\ dc_id c ∈ dc_id <$> preferred) as Helem.
  { intros c. unfold ordered. rewrite list_elem_of_omap. split.
    - intros (p & Hin & [Hc' E]%dict_by_Some). split; [done|]. rewrite E. by apply list_elem_of_fmap_2.
    - intros [Hc' (p & E & Hin)%list_elem_of_fmap]. exists p. split; [done|]. rewrite <-E. by apply dict_by_elem. }
  assert (dc_id <$> ordered = filter (fun i => i ∈ dc_id <$> columns) (dc_id <$> preferred)) as Hids.
  { unfold ordered. clear. induction preferred as [|p preferred IH]; [done|]. csimpl.
    destruct (dget (dc_id p) (dict_by dc_id columns)) as [c|] eqn:E; csimpl; rewrite IH.
    - apply dict_by_Some in E as [Hin <-]. by rewrite filter_cons_True by (by apply list_elem_of_fmap_2).
    - apply dict_by_None in E. by rewrite filter_cons_False. }
  assert (NoDup ordered) as Hnd.
  { apply (NoDup_fmap_1 dc_id). rewrite Hids. by apply NoDup_filter. }
  assert (NoDup columns) as Hndc by (by apply NoDup_fmap_1 in Hc).
  split.
  - apply NoDup_Permutation; [|done|].
    + apply NoDup_app. split_and!; [done| |by apply NoDup_filter].
      intros c Hin [Hout _]%list_elem_of_filter. apply Hout. by apply list_elem_of_fmap_2.
    + intros c. rewrite elem_of_app, list_elem_of_filter, Helem.
      destruct (decide (dc_id c ∈ dc_id <$> ordered)) as [Hin|]; [|tauto]. split; [tauto|]. intros Hcc. left.
      split; [done|]. apply list_elem_of_fmap in Hin as (c' & -> & [_ ?]%Helem). done.
  - intros Hsame. rewrite fmap_app, Hids. rewrite filter_all by (apply Forall_forall; intros; by apply Hsame).
    rewrite (proj2 (filter_nil_iff _ _)), app_nil_r; [done|]. apply Forall_forall. intros c Hin Hout.
    by apply Hout, Hsame, list_elem_of_fmap_2.
Qed.

(** ** A small schema *)

Definition sample_relations : @SqlglotRelations sample_sqlglot :=
  @Build_SqlglotRelations sample_sqlglot (fun _ => []) (fun _ => []).
#[local] Existing Instances domain_pglast sample_sqlglot sample_relations sample_trees plain_sha.

Definition with_tables (tables : list DesignTable) : SchemiiDesignContent :=
  {| content_types := []; content_tables := tables; content_relationships := [];
     content_functions := []; content_views := []; content_triggers := [] |}.

Definition nullable_column (id name type : string) : DesignColumn :=
  {| dc_id := id; dc_name := name; dc_data_type := type; dc_nullable := true;
     dc_default_expression := None; dc_identity := None; dc_generated_expression := None;
     dc_generated_source_column_ids := [] |}.

Definition people (name : string) (columns : list DesignColumn) : DesignTable := keyed_table "t1" name columns.
Definition id_column := int_column "c1" "id".
Definition email_column := nullable_column "c2" "email" "text".

Definition people_live := with_tables [people "people" [id_column; email_column]].

Lemma valid_by_computation content : validate_design_content content = Ok tt -> design_ok content.
Proof. apply validate_design_content_iff. Qed.

(** The same table with its columns in another order and another spelling of a type. *)
Definition people_reordered :=
  with_tables [{| tb_id := "t1"; tb_name := "people"; tb_columns := [nullable_column "c2" "email" " TEXT "; id_column];
                  tb_keys := tb_keys (people "people" [id_column]); tb_checks := []; tb_indexes := [] |}].

Lemma empty_plan_iff_same_schema_witness : same_design people_live people_reordered.
Proof.
  apply (empty_plan_iff_same_schema "public" people_live people_reordered []).
  - apply valid_by_computation. vm_compute. reflexivity.
  - apply valid_by_computation. vm_compute. reflexivity.
  - vm_compute. reflexivity.
Defined.

Definition people_shorter := with_tables [people "people" [id_column]].
Definition plan_of (live desired : SchemiiDesignContent) : list MigrationStep :=
  match compile_migration_steps "public" live desired [] [] [] [] with Ok (steps, _) => steps | Err _ => [] end.

Lemma losses_are_announced_witness :
  announced (plan_of people_live people_shorter)
    ("ALTER TABLE " ++ qualified "public" "people" ++ " DROP COLUMN " ++ quote "email" ++ ";").
Proof.
  refine (la_columns _ _ _ _ (losses_are_announced "public" people_live people_shorter [] [] [] []
    (plan_of people_live people_shorter) [] _ _ _)
    (people "people" [id_column; email_column]) (people "people" [id_column]) email_column _ _ _ _ _).
  - apply valid_by_computation. vm_compute. reflexivity.
  - apply valid_by_computation. vm_compute. reflexivity.
  - vm_compute. reflexivity.
  - left.
  - left.
  - reflexivity.
  - right. left.
  - apply (bool_decide_unpack _). vm_compute. exact I.
Defined.

Lemma steps_in_phase_order_witness :
  well_ordered (plan_of people_live shop_design) /\ length (plan_of people_live shop_design) = 3.
Proof.
  split; [|vm_compute; reflexivity].
  apply (steps_in_phase_order "public" people_live shop_design [] [] [] [] (plan_of people_live shop_design) []).
  vm_compute. reflexivity.
Defined.

Lemma quoted_tokens_read_back_witness :
  starts_with_char quote_char " CASCADE" = false /\
  lex_quoted quote_char (quote ("a" ++ quote_text ++ "; DROP TABLE b; --") ++ " CASCADE")
    = Some ("a" ++ quote_text ++ "; DROP TABLE b; --", " CASCADE").
Proof. split; [reflexivity|]. apply (quoted_tokens_read_back _ "public" " CASCADE"). reflexivity. Defined.

Lemma display_order_kept_witness :
  dc_id <$> preferred_order [id_column; email_column] [email_column; id_column] = ["c2"; "c1"].
Proof.
  apply (display_order_kept [id_column; email_column] [email_column; id_column]).
  - apply (bool_decide_unpack _). vm_compute. exact I.
  - apply (bool_decide_unpack _). vm_compute. exact I.
  - intros i. simpl. set_solver.
Defined.

(** ** Plans PostgreSQL cannot run *)

(** When a table is renamed and one of its columns is removed in the same plan, the
    column is dropped under the new name of the table by a step that runs before the
    rename. *)
Theorem renamed_table_column_dropped_first :
  (fun s => (mst_index s, mst_operation s, mst_sql s)) <$>
    plan_of people_live (with_tables [people "members" [id_column]]) =
  [(1%Z, "drop", "ALTER TABLE " ++ qualified "public" "members" ++ " DROP CONSTRAINT " ++ quote "people_pkey" ++ ";");
   (2%Z, "drop", "ALTER TABLE " ++ qualified "public" "members" ++ " DROP COLUMN " ++ quote "email" ++ ";");
   (3%Z, "rename", "ALTER TABLE " ++ qualified "public" "people" ++ " RENAME TO " ++ quote "members" ++ ";");
   (4%Z, "create", "ALTER TABLE " ++ qualified "public" "members" ++ " ADD CONSTRAINT " ++ quote "members_pkey"
      ++ " PRIMARY KEY (" ++ quote "id" ++ ");")].
Proof. vm_compute. reflexivity. Qed.

(** Amounts based on the domain of money. *)
Definition amount_types : SchemiiDesignContent :=
  with_types [domain_type "t1" "amount" "amount:money"; domain_type "t2" "money" "money:numeric"].

(** New types are created in the order of their names: a domain is created before the
    domain it is based on, although the dependency order of the design puts it after. *)
Theorem types_created_out_of_order :
  validate_design_content amount_types = Ok tt /\
  (exists ordered, design_types_in_dependency_order amount_types = Ok ordered /\
    (dt_name <$> ordered) = ["money"; "amount"]) /\
  mst_sql <$> plan_of EMPTY_DESIGN_CONTENT amount_types = ["amount:money;"; "money:numeric;"].
Proof. split; [vm_compute; reflexivity|]. split; [eexists; split; vm_compute; reflexivity|]. vm_compute. reflexivity. Qed.

(** *** A routine with many arguments *)

Fixpoint repeated (n : nat) (s : string) : string :=
  match n with 0 => "" | S n' => s ++ repeated n' s end.

Definition routine_pglast : Pglast :=
  {| parse_sql := fun s => Some [CreateFunctionStmt
       {| cf_is_procedure := false; cf_funcname := ["f"]; cf_parameters := []; cf_returnType := None; cf_options := [] |}];
     raw_stream := fun _ => ""; TRIGGER_TYPE_BEFORE := 2; TRIGGER_TYPE_INSTEAD := 64; TRIGGER_TYPE_INSERT := 4;
     TRIGGER_TYPE_UPDATE := 16; TRIGGER_TYPE_DELETE := 8; TRIGGER_TYPE_TRUNCATE := 32 |}.

(** Fifty arguments of a type with a long name. *)
Definition wide_routine : SchemiiDesignContent :=
  {| content_types := []; content_tables := []; content_relationships := [];
     content_functions := [{| fn_id := "f1"; fn_name := "wide"; fn_kind := RFunction; fn_arguments := "";
       fn_identity_arguments := "integer" ++ repeated 50 ", timestamp with time zone"; fn_return_type := Some "void";
       fn_language := "sql"; fn_definition := "CREATE FUNCTION wide()" |}];
     content_views := []; content_triggers := [] |}.

Lemma planning_error_kind_witness :
  @compile_migration_steps routine_pglast _ _ _ _ "public" EMPTY_DESIGN_CONTENT wide_routine [] [] [] [] = Err ValidationError.
Proof.
  destruct (@compile_migration_steps routine_pglast _ _ _ _ "public" EMPTY_DESIGN_CONTENT wide_routine [] [] [] []) as [r|e] eqn:E.
  - exfalso. vm_compute in E. discriminate E.
  - f_equal. apply (@planning_error_kind routine_pglast _ _ _ _ "public" EMPTY_DESIGN_CONTENT wide_routine [] [] [] [] e).
    + apply (@validate_design_content_iff routine_pglast _ EMPTY_DESIGN_CONTENT). vm_compute. reflexivity.
    + apply (@validate_design_content_iff routine_pglast _ wide_routine). vm_compute. reflexivity.
    + apply Forall_singleton. eexists _, _. reflexivity.
    + exact E.
Defined.
