(* ===== verification/Conversions.v ===== *)
(** * Reviewed column conversions

    [migrations/conversions.py]: a column type change that PostgreSQL cannot be trusted
    with is compiled from a reviewed USING expression.  The expression is parsed, every
    node of the tree is checked against fixed lists, names are rewritten so that they
    resolve in [pg_catalog] only, and the tree is rendered again.

    A pglast node is its class name with its attributes in order; a tuple is a list.
    Parsing and rendering belong to the class [PglastTrees]. *)

From Stdlib Require Import Ascii String.
From S2P Require Import Prelude Json PyString DesignModels MigrationModels TypeChanges CheckExpressions SqlText MigrationPlanner.
Open Scope string_scope.
Open Scope result_scope.

(** ** Lists of what is accepted *)

Definition CONVERSION_TYPES : list string :=
  ["int2"; "int4"; "int8"; "smallint"; "integer"; "bigint"; "numeric"; "decimal"; "float4"; "float8"; "real"; "text";
   "varchar"; "bpchar"; "bool"; "boolean"; "date"; "timestamp"; "timestamptz"; "time"; "timetz"; "interval"; "uuid";
   "json"; "jsonb"; "bytea"].
Definition CONVERSION_FUNCTIONS : list string :=
  ["lower"; "upper"; "btrim"; "ltrim"; "rtrim"; "replace"; "substring"; "substr"; "left"; "right"; "length";
   "char_length"; "round"; "trunc"; "abs"; "ceil"; "ceiling"; "floor"].
Definition CONVERSION_NODES : list string :=
  ["ColumnRef"; "A_Const"; "Integer"; "Float"; "String"; "Boolean"; "TypeCast"; "TypeName"; "A_Expr"; "BoolExpr";
   "NullTest"; "BooleanTest"; "CaseExpr"; "CaseWhen"; "CoalesceExpr"; "MinMaxExpr"; "FuncCall"].
Definition CONVERSION_OPERATORS : list string :=
  ["+"; "-"; "*"; "/"; "%"; "^"; "||"; "="; "<>"; "<"; ">"; "<="; ">="].

(** ** Trees *)

(** What is used of pglast: [parse_trees] gives the [stmt] of each statement, [None]
    for any exception; [render_tree] is [RawStream()]. *)
Class PglastTrees := {
  parse_trees : string -> option (list sql_tree);
  render_tree : sql_tree -> string;
}.

Definition class_of (t : sql_tree) : string := match t with TNode cls _ => cls | _ => "" end.

(** The truth value of an attribute. *)
Definition truthy (t : sql_tree) : bool :=
  match t with
  | TNode _ _ => true
  | TList l => negb (bool_decide (l = []))
  | TValue JNull => false
  | TValue (JBool b) => b
  | TValue (JInt z) => negb (bool_decide (z = 0%Z))
  | TValue (JStr s) => negb (bool_decide (s = ""))
  | TValue (JList l) => negb (bool_decide (l = []))
  | TValue (JDict d) => negb (bool_decide (d = []))
  end.

Definition text_value (t : sql_tree) : string := match t with TValue (JStr s) => s | _ => "" end.

(** [ast.String(sval=s)] and [\[part.sval for part in parts or ()\]]. *)
Definition string_node (s : string) : sql_tree := TNode "String" [("sval", TValue (JStr s))].
Definition part_names (parts : sql_tree) : list string := (fun p => text_value (arg "sval" p)) <$> items_of parts.
Definition catalog_name (s : string) : sql_tree := TList [string_node "pg_catalog"; string_node s].

(** [_walk]: the nodes of a tree, each before its parts. *)
Fixpoint walk (t : sql_tree) : list sql_tree :=
  match t with
  | TNode _ attrs => t :: concat (map (fun kv => match kv with (_, x) => walk x end) attrs)
  | TList items => concat (map walk items)
  | TValue _ => []
  end.

(** The last part of a name of one part, or of two parts in [pg_catalog]. *)
Definition builtin_name (names : list string) : option string :=
  match names with
  | [name] => Some name
  | [schema; name] => if bool_decide (schema = "pg_catalog") then Some name else None
  | _ => None
  end.

Definition one_of (accepted : list string) (name : option string) : option string :=
  match name with
  | Some n => if bool_decide (n ∈ accepted) then Some n else None
  | None => None
  end.

Abbreviation converted A := (result string A).

Section conversions.
Context `{PglastTrees}.

(** [_expression]: the single target of [SELECT (source)]. *)
Definition excluded_clauses : list string :=
  ["fromClause"; "whereClause"; "withClause"; "intoClause"; "sortClause"; "groupClause"; "havingClause"; "limitCount";
   "limitOffset"; "larg"; "rarg"].

Definition scalar_target (statements : list sql_tree) : option sql_tree :=
  match statements with
  | [statement] =>
      if bool_decide (class_of statement = "SelectStmt") && negb (existsb (fun key => truthy (arg key statement)) excluded_clauses)
      then match items_of (arg "targetList" statement) with [target] => Some (arg "val" target) | _ => None end
      else None
  | _ => None
  end.

Definition parse_expression (source : string) : converted sql_tree :=
  match parse_trees ("SELECT (" ++ source ++ ")") with
  | Some statements =>
      match scalar_target statements with
      | Some tree => Ok tree
      | None => Err "Enter one scalar USING expression, without statements or subqueries."
      end
  | None => Err "Enter one scalar USING expression, without statements or subqueries."
  end.

(** [_builtin_type]: the names the type node gets. *)
Definition builtin_type (node : sql_tree) : converted sql_tree :=
  match one_of CONVERSION_TYPES (builtin_name (part_names (arg "names" node))) with
  | Some name =>
      if truthy (arg "arrayBounds" node) || truthy (arg "setof" node)
      then Err "Reviewed conversions currently support PostgreSQL built-in scalar types only."
      else Ok (catalog_name name)
  | None => Err "Reviewed conversions currently support PostgreSQL built-in scalar types only."
  end.

Definition integer_constant (modifier : sql_tree) : bool :=
  bool_decide (class_of modifier = "A_Const") && bool_decide (class_of (arg "val" modifier) = "Integer").

Definition type_sql (value : string) : converted string :=
  let! tree := parse_expression ("NULL::" ++ value) in
  guard_err (negb (bool_decide (class_of tree = "TypeCast")) || negb (bool_decide (class_of (arg "arg" tree) = "A_Const"))
             || negb (truthy (arg "isnull" (arg "arg" tree))))
    "The conversion type must be a PostgreSQL scalar type." ;;;
  let node := arg "typeName" tree in
  let! names := builtin_type node in
  guard_err (negb (forallb integer_constant (items_of (arg "typmods" node)))) "Type modifiers must be integer constants." ;;;
  Ok (render_tree (match node with TNode cls attrs => TNode cls (dset "names" names attrs) | _ => node end)).

(** ** The tree walk of [expression_sql] *)

(** [renamed or column]. *)
Definition column_name_or (column : string) (renamed : option string) : string :=
  match renamed with Some "" | None => column | Some r => r end.

Definition function_options : list string := ["over"; "agg_star"; "agg_distinct"; "agg_order"; "agg_filter"].

(** The check of one node; the attribute that is rewritten, with its new value. *)
Definition check_node (column : string) (renamed : option string) (node : sql_tree) : converted (option (string * sql_tree)) :=
  let cls := class_of node in
  if negb (bool_decide (cls ∈ CONVERSION_NODES))
  then Err "Use a scalar expression of this column; queries, aggregates and window functions are not supported."
  else if bool_decide (cls = "ColumnRef") then
    match items_of (arg "fields" node) with
    | [field] =>
        if bool_decide (class_of field = "String") && bool_decide (text_value (arg "sval" field) = column)
        then Ok (Some ("fields", TList [string_node (column_name_or column renamed)]))
        else Err ("The expression may reference only " ++ quote column ++ ". Use its desired column name.")
    | _ => Err ("The expression may reference only " ++ quote column ++ ". Use its desired column name.")
    end
  else if bool_decide (cls = "TypeName") then
    let! names := builtin_type node in Ok (Some ("names", names))
  else if bool_decide (cls = "FuncCall") then
    match one_of CONVERSION_FUNCTIONS (builtin_name (part_names (arg "funcname" node))) with
    | Some name =>
        if existsb (fun key => truthy (arg key node)) function_options
        then Err "Use built-in scalar functions such as lower, trim, round or trunc; custom routines and aggregates are not supported."
        else Ok (Some ("funcname", catalog_name name))
    | None => Err "Use built-in scalar functions such as lower, trim, round or trunc; custom routines and aggregates are not supported."
    end
  else if bool_decide (cls = "A_Expr") then
    match one_of CONVERSION_OPERATORS (builtin_name (part_names (arg "name" node))) with
    | Some name => Ok (Some ("name", catalog_name name))
    | None => Err "This conversion operator is not supported."
    end
  else Ok None.

Definition rewritten (rewrite : option (string * sql_tree)) (key : string) : option sql_tree :=
  match rewrite with
  | Some (k, value) => if bool_decide (k = key) then Some value else None
  | None => None
  end.

(** The loop over [_walk(tree)], which checks and rewrites a node before it descends
    into it.  A rewritten attribute holds [String] nodes only, which every check
    accepts. *)
Fixpoint admit_tree (column : string) (renamed : option string) (t : sql_tree) : converted sql_tree :=
  match t with
  | TNode cls attrs =>
      let! rewrite := check_node column renamed t in
      let! attrs' := result_map (fun kv => match kv with (key, x) =>
          match rewritten rewrite key with
          | Some value => Ok (key, value)
          | None => let! x' := admit_tree column renamed x in Ok (key, x')
          end end) attrs in
      Ok (TNode cls attrs')
  | TList items => let! items' := result_map (admit_tree column renamed) items in Ok (TList items')
  | TValue v => Ok (TValue v)
  end.

Definition expression_sql (source column : string) (renamed : option string) : converted string :=
  let! tree := parse_expression source in
  let! tree' := admit_tree column renamed tree in
  Ok (render_tree tree').

(** ** Compilation *)

(** [loss_query]. *)
Definition loss_query (source_type target_type table column expr : string) : string :=
  "SELECT EXISTS (SELECT 1 FROM " ++ table ++ " WHERE (" ++ quote column ++ "::pg_catalog.text COLLATE " ++ quote "C"
  ++ ") IS DISTINCT FROM (((" ++ expr ++ ")::" ++ target_type ++ ")::" ++ source_type ++ ")::pg_catalog.text COLLATE "
  ++ quote "C" ++ ")".

Definition guard_body (query : string) : string :=
  "BEGIN IF (" ++ query ++ ") THEN RAISE EXCEPTION USING ERRCODE = 'SC001', "
  ++ "MESSAGE = 'Strict conversion would change existing values'; END IF; END".

(** The text that is parsed; [None] in an f-string is the text [None]. *)
Definition chosen_source (choice : ColumnTypeConversionChoice) (default_text : string) : string :=
  match ccc_strategy choice with
  | Custom => match ccc_expression choice with Some e => e | None => "None" end
  | Strict => default_text
  end.

Definition compile_conversion (namespace : string) (before_table after_table : DesignTable) (old new : DesignColumn)
    (choice : ColumnTypeConversionChoice) : converted CompiledConversion :=
  let! source_type := type_sql (dc_data_type old) in
  let! target_type := type_sql (dc_data_type new) in
  let default_text := quote (dc_name new) ++ "::" ++ target_type in
  let source := chosen_source choice default_text in
  let! expression := expression_sql source (dc_name new) None in
  let! live_expression := expression_sql source (dc_name new) (Some (dc_name old)) in
  let live_table := qualified namespace (tb_name before_table) in
  let target_table := qualified namespace (tb_name after_table) in
  let strict := bool_decide (ccc_strategy choice = Strict) in
  Ok {| cc_review :=
          {| ctc_column_id := dc_id new; ctc_table_id := tb_id after_table; ctc_table_name := tb_name after_table;
             ctc_column_name := dc_name new; ctc_source_type := dc_data_type old; ctc_target_type := dc_data_type new;
             ctc_reason := tcd_reason (classify_type_change (dc_data_type old) (dc_data_type new));
             ctc_default_expression := default_text; ctc_strategy := Some (ccc_strategy choice);
             ctc_expression := Some expression; ctc_validation_error := None |};
        cc_expression := "(" ++ expression ++ ")::" ++ target_type;
        cc_target_type := target_type;
        cc_validation_sql :=
          if strict then loss_query source_type target_type live_table (dc_name old) live_expression ++ " AS invalid"
          else "SELECT count((" ++ live_expression ++ ")::" ++ target_type ++ ") FROM " ++ live_table;
        cc_guard_sql :=
          if strict
          then Some ("DO " ++ literal (guard_body (loss_query source_type target_type target_table (dc_name new) expression)) ++ ";")
          else None |}.

(** [conversion_candidates]. *)
Definition conversion_candidate (before after : DesignTable) (new : DesignColumn)
    : option (DesignTable * DesignTable * DesignColumn * DesignColumn) :=
  match dget (dc_id new) (dict_by dc_id (tb_columns before)) with
  | Some old =>
      match tcd_disposition (classify_type_change (dc_data_type old) (dc_data_type new)) with
      | Blocked => Some (before, after, old, new)
      | _ => None
      end
  | None => None
  end.

Definition conversion_candidates (live desired : SchemiiDesignContent)
    : list (DesignTable * DesignTable * DesignColumn * DesignColumn) :=
  concat ((fun after =>
    match dget (tb_id after) (dict_by tb_id (content_tables live)) with
    | Some before => omap (conversion_candidate before after) (tb_columns after)
    | None => []
    end) <$> content_tables desired).
End conversions.
