(* ===== verification/ConversionProps.v ===== *)
(** * What a reviewed conversion can do

    A compiled conversion only reads the converted column and only uses built-in
    scalar functions, operators and types, named in [pg_catalog]; the expression the
    preview evaluates on the live table is the applied one with the column's live
    name. *)

From Stdlib Require Import Ascii String.
From S2P Require Import Prelude Json PyString DesignModels MigrationModels TypeChanges CheckExpressions SqlText MigrationPlanner Conversions.
Open Scope string_scope.
Open Scope result_scope.

(** ** Induction over trees *)

Section sql_tree_ind.
Variable P : sql_tree -> Prop.
Hypothesis HNode : forall cls attrs, Forall (fun kv => P kv.2) attrs -> P (TNode cls attrs).
Hypothesis HList : forall items, Forall P items -> P (TList items).
Hypothesis HValue : forall v, P (TValue v).

Fixpoint sql_tree_nested_ind (t : sql_tree) : P t :=
  match t with
  | TNode cls attrs => HNode cls attrs
      ((fix go l : Forall (fun kv => P kv.2) l :=
          match l with
          | [] => Forall_nil_2 _
          | kv :: l' => Forall_cons_2 _ _ _ (sql_tree_nested_ind kv.2) (go l')
          end) attrs)
  | TList items => HList items
      ((fix go l : Forall P l :=
          match l with
          | [] => Forall_nil_2 _
          | x :: l' => Forall_cons_2 _ _ _ (sql_tree_nested_ind x) (go l')
          end) items)
  | TValue v => HValue v
  end.
End sql_tree_ind.

(** ** Confined nodes *)

(** The name parts are [pg_catalog] and one of the accepted names. *)
Definition catalog_qualified (accepted : list string) (parts : sql_tree) : Prop :=
  exists name, name ∈ accepted /\ part_names parts = ["pg_catalog"; name].

(** What a node of an accepted expression over [column] looks like. *)
Record confined (column : string) (node : sql_tree) : Prop := {
  confined_class : class_of node ∈ CONVERSION_NODES;
  confined_column : class_of node = "ColumnRef" -> part_names (arg "fields" node) = [column];
  confined_type : class_of node = "TypeName" ->
    catalog_qualified CONVERSION_TYPES (arg "names" node) /\
    truthy (arg "arrayBounds" node) = false /\ truthy (arg "setof" node) = false;
  confined_function : class_of node = "FuncCall" ->
    catalog_qualified CONVERSION_FUNCTIONS (arg "funcname" node) /\
    Forall (fun key => truthy (arg key node) = false) function_options;
  confined_operator : class_of node = "A_Expr" -> catalog_qualified CONVERSION_OPERATORS (arg "name" node);
}.

(** Replacing the column an expression reads. *)
Fixpoint rename_column (name : string) (t : sql_tree) : sql_tree :=
  match t with
  | TNode cls attrs =>
      TNode cls (map (fun kv => match kv with (key, x) =>
        (key, if bool_decide (cls = "ColumnRef") && bool_decide (key = "fields")
              then TList [string_node name] else rename_column name x) end) attrs)
  | TList items => TList (map (rename_column name) items)
  | TValue v => TValue v
  end.

Section properties.
Context `{PglastTrees}.

Lemma one_of_Some accepted name n : one_of accepted name = Some n <-> name = Some n /\ n ∈ accepted.
Proof. destruct name as [m|]; simpl; [case_bool_decide|]; naive_solver. Qed.

Lemma part_names_catalog accepted n : n ∈ accepted -> catalog_qualified accepted (catalog_name n).
Proof. by exists n. Qed.

(** Attributes of an admitted node: the rewritten one has its new value, the others are
    admitted, hence as true as before. *)
Lemma admit_truthy column renamed t t' : admit_tree column renamed t = Ok t' -> truthy t' = truthy t.
Proof.
  destruct t as [cls attrs|items|v]; simpl; intros Ha; result_inv; try done.
  simpl. rename H0 into Hm. apply result_map_Ok, Forall2_length in Hm. destruct items, x; simpl in *; congruence.
Qed.

Lemma admit_attr column renamed rewrite key cls attrs attrs' :
  result_map (fun kv : string * sql_tree => match kv with (key, x) =>
    match rewritten rewrite key with
    | Some value => Ok (key, value)
    | None => let! x' := admit_tree column renamed x in Ok (key, x')
    end end) attrs = Ok attrs' ->
  match rewritten rewrite key with
  | Some value => truthy (arg key (TNode cls attrs)) -> arg key (TNode cls attrs') = value
  | None => truthy (arg key (TNode cls attrs')) = truthy (arg key (TNode cls attrs))
  end.
Proof.
  rewrite result_map_Ok. unfold arg. induction 1 as [|[k x] [k' x'] attrs attrs' Hx _ IH]; simpl.
  - by destruct rewritten.
  - destruct (rewritten rewrite k) as [w|] eqn:Hk; result_inv; simplify_eq; simpl.
    + case_decide as Hd; [|done]. subst. by rewrite Hk.
    + case_decide as Hd; [|done]. subst. rewrite Hk. by eapply admit_truthy.
Qed.

Lemma string_node_confined column s : confined column (string_node s).
Proof. constructor; simpl; [set_solver|discriminate..]. Qed.

(** The value a check puts into a node consists of [String] nodes. *)
Lemma rewritten_confined column c renamed node key value :
  check_node column renamed node = Ok (Some (key, value)) -> Forall (confined c) (walk value).
Proof.
  unfold check_node, builtin_type. intros Hc.
  repeat (case_match; result_inv; try discriminate); simplify_eq/=;
    repeat (constructor; [apply string_node_confined|]); constructor.
Qed.

Lemma truthy_items parts : items_of parts <> [] -> truthy parts = true.
Proof. destruct parts as [|items|]; simpl; try done. intros ?. by rewrite bool_decide_eq_false_2. Qed.

Lemma truthy_names parts n : builtin_name (part_names parts) = Some n -> truthy parts = true.
Proof. intros Hn. apply truthy_items. intros Hi. unfold part_names in Hn. by rewrite Hi in Hn. Qed.

(** The attributes [attrs'] of a node after the rewriting of one attribute. *)
Definition attributes_admitted (rewrite : option (string * sql_tree)) (node node' : sql_tree) : Prop :=
  forall key, match rewritten rewrite key with
              | Some value => truthy (arg key node) -> arg key node' = value
              | None => truthy (arg key node') = truthy (arg key node)
              end.

Lemma attribute_rewritten key value node node' :
  attributes_admitted (Some (key, value)) node node' -> truthy (arg key node) = true -> arg key node' = value.
Proof. intros Hattr Ht. specialize (Hattr key). unfold rewritten in Hattr. rewrite bool_decide_eq_true_2 in Hattr by done. apply Hattr. by rewrite Ht. Qed.

Lemma attribute_kept key' key value node node' :
  attributes_admitted (Some (key', value)) node node' -> key' <> key -> truthy (arg key node') = truthy (arg key node).
Proof. intros Hattr Hk. specialize (Hattr key). unfold rewritten in Hattr. by rewrite bool_decide_eq_false_2 in Hattr. Qed.

(** A node that passed its check is confined once its attributes are admitted. *)
Lemma checked_confined column renamed cls attrs attrs' rewrite :
  check_node column renamed (TNode cls attrs) = Ok rewrite ->
  attributes_admitted rewrite (TNode cls attrs) (TNode cls attrs') ->
  confined (column_name_or column renamed) (TNode cls attrs').
Proof.
  unfold check_node. cbn [class_of]. intros Hc Hattr.
  destruct (bool_decide (cls ∈ _)) eqn:Hin; [|done]. cbn [negb] in Hc.
  apply bool_decide_eq_true in Hin. constructor; [done|..]; cbn [class_of]; intros ->;
    repeat first [rewrite bool_decide_eq_true_2 in Hc by done|rewrite bool_decide_eq_false_2 in Hc by done].
  - destruct (items_of _) as [|f [|]] eqn:Hi; try done. case_match; [|done]. injection Hc as <-.
    by rewrite (attribute_rewritten _ _ _ _ Hattr) by (apply truthy_items; by rewrite Hi).
  - result_inv. unfold builtin_type in *. rename H0 into Hb.
    destruct (one_of _ _) as [n|] eqn:Hn; [|done]. apply one_of_Some in Hn as [Hn ?].
    destruct (_ || _) eqn:Hf; [done|]. apply orb_false_iff in Hf as [Hf1 Hf2]. injection Hb as <-.
    rewrite (attribute_rewritten _ _ _ _ Hattr) by (by eapply truthy_names).
    rewrite !(attribute_kept _ _ _ _ _ Hattr) by done. split_and!; [by apply part_names_catalog|done..].
  - destruct (one_of _ _) as [n|] eqn:Hn; [|done]. apply one_of_Some in Hn as [Hn ?].
    destruct (existsb _ _) eqn:Hf; [done|]. apply existsb_false_Forall in Hf. injection Hc as <-. split.
    + rewrite (attribute_rewritten _ _ _ _ Hattr) by (by eapply truthy_names). by apply part_names_catalog.
    + rewrite Forall_forall in Hf |- *. intros key Hkey. rewrite <- (Hf key Hkey).
      apply (attribute_kept _ _ _ _ _ Hattr). intros <-. set_solver.
  - destruct (one_of _ _) as [n|] eqn:Hn; [|done]. apply one_of_Some in Hn as [Hn ?]. injection Hc as <-.
    rewrite (attribute_rewritten _ _ _ _ Hattr) by (by eapply truthy_names). by apply part_names_catalog.
Qed.

Lemma Forall_concat_map {A B} (P : B -> Prop) (f : A -> list B) l :
  Forall (fun x => Forall P (f x)) l -> Forall P (concat (map f l)).
Proof. induction 1; simpl; [constructor|by apply Forall_app]. Qed.

Lemma Forall2_transport {A B} (R : A -> B -> Prop) (P : A -> Prop) (Q : B -> Prop) l k :
  Forall2 R l k -> Forall P l -> (forall x y, R x y -> P x -> Q y) -> Forall Q k.
Proof. intros HR HP HQ. induction HR; apply Forall_cons in HP || constructor. constructor; naive_solver. Qed.

(** Every node of an admitted tree is confined. *)
Lemma admit_confined column renamed t t' :
  admit_tree column renamed t = Ok t' -> Forall (confined (column_name_or column renamed)) (walk t').
Proof.
  revert t'. induction t as [cls attrs IH|items IH|v] using sql_tree_nested_ind; intros t' Ha; simpl in Ha; result_inv; simpl.
  - rename x into rewrite, x0 into attrs', H0 into Hc, H1 into Hm. constructor.
    { eapply checked_confined; [done|]. intros key. by eapply admit_attr. }
    rewrite result_map_Ok in Hm. apply Forall_concat_map. eapply Forall2_transport; [exact Hm|exact IH|].
    intros [k x] [k' x'] Hx IHx. destruct (rewritten rewrite k) as [w|] eqn:Hk; result_inv; simplify_eq; [|by apply IHx].
    unfold rewritten in Hk. destruct rewrite as [[k0 v0]|]; [|done]. case_match; simplify_eq. by eapply rewritten_confined.
  - rename H0 into Hm. rewrite result_map_Ok in Hm. apply Forall_concat_map.
    eapply Forall2_transport; [exact Hm|exact IH|]. intros a b Hb IHa. by apply IHa.
  - constructor.
Qed.

(** ** The previewed expression *)

Lemma check_node_renamed column renamed node :
  check_node column renamed node =
  (let! rewrite := check_node column None node in
   Ok (if bool_decide (class_of node = "ColumnRef")
       then Some ("fields", TList [string_node (column_name_or column renamed)]) else rewrite)).
Proof.
  unfold check_node. destruct (negb _); [done|].
  destruct (bool_decide (class_of node = "ColumnRef")) eqn:Hcls.
  - destruct (items_of _) as [|? []]; [done| |done]. by case_match.
  - repeat case_match; try done; by destruct builtin_type.
Qed.

Lemma result_map_post {E A B} (f g : A -> result E B) (h : B -> B) l :
  Forall (fun x => f x = let! y := g x in Ok (h y)) l ->
  result_map f l = let! ys := result_map g l in Ok (map h ys).
Proof.
  induction 1 as [|x l Hx _ IH]; [done|]. simpl. rewrite Hx. destruct (g x); simpl; [|done].
  rewrite IH. by destruct (result_map g l).
Qed.

Lemma rewritten_fixed column name node key value :
  check_node column None node = Ok (Some (key, value)) -> class_of node <> "ColumnRef" -> rename_column name value = value.
Proof.
  unfold check_node, builtin_type. intros Hc Hcls. rewrite (bool_decide_eq_false_2 (class_of node = "ColumnRef")) in Hc by done.
  repeat (case_match; result_inv; try discriminate); simplify_eq/=; done.
Qed.

(** Checking under another name accepts the same expressions and gives the same tree
    with the column renamed. *)
Lemma admit_renamed column renamed t :
  admit_tree column renamed t =
  let! t' := admit_tree column None t in Ok (rename_column (column_name_or column renamed) t').
Proof.
  set (name := column_name_or column renamed).
  induction t as [cls attrs IH|items IH|v] using sql_tree_nested_ind; simpl; [| |done].
  - rewrite check_node_renamed. destruct (check_node column None (TNode cls attrs)) as [rewrite|] eqn:Hc; simpl; [|done].
    rewrite (result_map_post _ (fun kv : string * sql_tree => match kv with (key, x) =>
          match rewritten rewrite key with
          | Some value => Ok (key, value)
          | None => let! x' := admit_tree column None x in Ok (key, x')
          end end)
        (fun kv => match kv with (key, x) => (key, if bool_decide (cls = "ColumnRef") && bool_decide (key = "fields")
              then TList [string_node name] else rename_column name x) end)).
    { by destruct (result_map _ _). }
    eapply Forall_impl; [exact IH|]. intros [key x] IHx; simpl in *.
    case_bool_decide as Hcls; simpl.
    + assert (rewrite = Some ("fields", TList [string_node column])) as ->.
      { unfold check_node in Hc. cbn [class_of] in Hc. subst cls. repeat (case_match; try done); by simplify_eq. }
      simpl. unfold rewritten. destruct (decide (key = "fields")) as [->|Hk].
      * by rewrite !bool_decide_eq_true_2.
      * rewrite !bool_decide_eq_false_2 by done. rewrite IHx. by destruct (admit_tree column None x); simpl; rewrite ?bool_decide_eq_false_2 by done.
    + destruct (rewritten rewrite key) as [w|] eqn:Hk; simpl.
      * unfold rewritten in Hk. destruct rewrite as [[k0 v0]|]; [|done]. case_match; simplify_eq.
        by rewrite (rewritten_fixed _ _ _ _ _ Hc).
      * rewrite IHx. by destruct (admit_tree column None x).
  - rewrite (result_map_post _ (admit_tree column None) (rename_column name)) by done. by destruct (result_map _ _).
Qed.

(** ** Compiled conversions *)

Lemma expression_sql_Ok source column renamed sql :
  expression_sql source column renamed = Ok sql <->
  exists tree tree', parse_expression source = Ok tree /\ admit_tree column None tree = Ok tree' /\
    sql = render_tree (rename_column (column_name_or column renamed) tree').
Proof.
  unfold expression_sql. rewrite result_bind_Ok. split.
  - intros (tree & ? & Hr). rewrite admit_renamed in Hr. destruct (admit_tree column None tree) as [tree'|] eqn:Ha; simplify_eq/=. eauto 10.
  - intros (tree & tree' & ? & Ha & ->). exists tree. by rewrite admit_renamed, Ha.
Qed.

Lemma admit_fixed column t t' : admit_tree column None t = Ok t' -> rename_column column t' = t'.
Proof.
  intros Ha. pose proof (admit_renamed column None t) as Hr. rewrite Ha in Hr. simpl in Hr. congruence.
Qed.

(** The query the preview runs on the live table, over the expression [expr]. *)
Definition preview_query (strategy : conversion_strategy) (source_type target_type table column expr : string) : string :=
  match strategy with
  | Strict => loss_query source_type target_type table column expr ++ " AS invalid"
  | Custom => "SELECT count((" ++ expr ++ ")::" ++ target_type ++ ") FROM " ++ table
  end.

End properties.

(** ** A parser for one table *)

Definition sample_type (name : string) : sql_tree :=
  TNode "TypeName" [("names", TList [string_node name]); ("setof", TValue (JBool false));
                    ("typmods", TValue JNull); ("arrayBounds", TValue JNull)].
Definition sample_cast (operand : sql_tree) (type : string) : sql_tree :=
  TNode "TypeCast" [("arg", operand); ("typeName", sample_type type)].
Definition sample_null : sql_tree := TNode "A_Const" [("isnull", TValue (JBool true))].
Definition sample_column (name : string) : sql_tree := TNode "ColumnRef" [("fields", TList [string_node name])].
Definition sample_call (function : string) (args : list sql_tree) : sql_tree :=
  TNode "FuncCall" [("funcname", TList [string_node function]); ("args", TList args); ("agg_star", TValue (JBool false))].

Definition sample_expressions : list (string * sql_tree) :=
  [("NULL::text", sample_cast sample_null "text"); ("NULL::integer", sample_cast sample_null "integer");
   (quote "code" ++ "::pg_catalog.integer", sample_cast (sample_column "code") "integer");
   ("length(code)", sample_call "length" [sample_column "code"]);
   ("length(secret)", sample_call "length" [sample_column "secret"]);
   ("pg_sleep(code)", sample_call "pg_sleep" [sample_column "code"])].

Definition sample_select (t : sql_tree) : sql_tree := TNode "SelectStmt" [("targetList", TList [TNode "ResTarget" [("val", t)]])].

#[local] Instance sample_pglast_trees : PglastTrees := {
  parse_trees := fun s => dget s ((fun kv => ("SELECT (" ++ kv.1 ++ ")", [sample_select kv.2])) <$> sample_expressions);
  render_tree := fun t => py_join "." (omap (fun n => match arg "sval" n with TValue (JStr s) => Some s | _ => None end) (walk t));
}.

Definition code_column (name type : string) : DesignColumn :=
  {| dc_id := "c"; dc_name := name; dc_data_type := type; dc_nullable := true; dc_default_expression := None;
     dc_identity := None; dc_generated_expression := None; dc_generated_source_column_ids := [] |}.
Definition code_table (name : string) (column : DesignColumn) : DesignTable :=
  {| tb_id := "t"; tb_name := name; tb_columns := [column]; tb_keys := []; tb_checks := []; tb_indexes := [] |}.
Definition sample_conversion (strategy : conversion_strategy) (expression : option string) : result string CompiledConversion :=
  compile_conversion "public" (code_table "items" (code_column "label" "text")) (code_table "items" (code_column "code" "integer"))
    (code_column "label" "text") (code_column "code" "integer")
    {| ccc_column_id := "c"; ccc_strategy := strategy; ccc_expression := expression |}.

Definition sample_compiled (strategy : conversion_strategy) (expression : option string) : CompiledConversion :=
  match sample_conversion strategy expression with
  | Ok compiled => compiled
  | Err _ => {| cc_review := {| ctc_column_id := ""; ctc_table_id := ""; ctc_table_name := ""; ctc_column_name := "";
                  ctc_source_type := ""; ctc_target_type := ""; ctc_reason := ""; ctc_default_expression := "";
                  ctc_strategy := None; ctc_expression := None; ctc_validation_error := None |};
                cc_expression := ""; cc_target_type := ""; cc_validation_sql := ""; cc_guard_sql := None |}
  end.

