(* ===== verification/MigrationReview.v ===== *)
(** * Reviews of migrations

    [MigrationService] of [migrations/service.py]: [create_plan], [get_plan],
    [analyze_column_type] and [resolve_drift], over the in-memory migration repository,
    and the check [on_intended] of [migrations/execution.py] by which a running
    migration accepts the schema it produced.

    PostgreSQL is outside the program: what connections and the gateway answer during
    one call are the record [target_answers]; the import of a catalog is the parameter
    [import_catalog].  The clock and random tokens are arguments.  The in-memory
    repository never raises [MigrationStorageUnavailableError]. *)

From stdpp Require Import pretty.
From Stdlib Require Import Ascii String.
From S2P Require Import Prelude Json PyString DesignModels DefinitionAnalysis DesignValidation DesignDocument DesignStore MigrationModels MigrationStore TypeChanges CheckExpressions DesignMerge Reconcile SqlText PlanAnalysis MigrationPlanner Conversions.
Open Scope string_scope.
Open Scope result_scope.

(** ** Requests and answers *)

Record MigrationPlanCreate := {
  mpc_expected_workspace_revision : Z;
  mpc_expected_design_revision : Z;
  mpc_expected_catalog_fingerprint : option string;
  mpc_allow_destructive : bool;
  mpc_column_type_conversions : list ColumnTypeConversionChoice;
  mpc_rebuild_table_ids : option (list string);
}.

(** What a review reads of a workspace. *)
Record SchemiiWorkspace := {
  ws_revision : Z;
  ws_connection_id : option string;
  ws_connection_owner_id : option string;
  ws_database : option string;
  ws_namespace : option string;
}.

Record connection_view := {
  cn_database : string;
  cn_owner_id : option string;
  cn_revision : Z;
}.

Inductive gateway_error :=
| ConnectionNotFoundError (message : string)
| PostgresGatewayError (message : string).

Abbreviation answer A := (result gateway_error A).

(** What a [with self._connections.use(...)] block and the calls inside it give. *)
Record target_answers (Catalog : Type) := {
  ta_connection : answer connection_view;
  ta_catalog : answer Catalog;
  ta_second_connection : answer connection_view;
  ta_emptiness : answer (list (string * bool));
  ta_rebuild_blockers : answer (list (string * list string));
  ta_conversion_connection : string -> answer connection_view;
  ta_conversion : string -> answer (option string);
}.
Arguments ta_connection {Catalog}. Arguments ta_catalog {Catalog}. Arguments ta_second_connection {Catalog}.
Arguments ta_emptiness {Catalog}. Arguments ta_rebuild_blockers {Catalog}.
Arguments ta_conversion_connection {Catalog}. Arguments ta_conversion {Catalog}.

(** The exceptions of the service: its own, and those that pass through it. *)
Inductive service_error :=
| MigrationServiceError (status : Z) (code message : string) (details : json_object) (retryable : bool)
| PlanningRaised (e : plan_error)
| ReconciliationRaised (e : reconcile_error)
| ModelRaised
| RepositoryRaised (e : migration_error)
| DesignsRaised (e : design_error).

Abbreviation reviewed A := (result service_error A).

Definition conflict_error (code message : string) : service_error := MigrationServiceError 409 code message [] false.

Definition from_planner {A} (r : planned A) : reviewed A := match r with Ok a => Ok a | Err e => Err (PlanningRaised e) end.
Definition from_reconciliation {A} (r : result reconcile_error A) : reviewed A :=
  match r with Ok a => Ok a | Err e => Err (ReconciliationRaised e) end.

(** [except ConnectionNotFoundError] and [except PostgresGatewayError]. *)
Definition from_gateway {A} (code : string) (r : answer A) : reviewed A :=
  match r with
  | Ok a => Ok a
  | Err (ConnectionNotFoundError message) => Err (MigrationServiceError 404 "connection_not_found" message [] false)
  | Err (PostgresGatewayError message) => Err (MigrationServiceError 502 code message [] true)
  end.

(** A model that is constructed with a value outside its limits raises. *)
Definition checked_model {A} (valid : A -> bool) (a : A) : reviewed A := if valid a then Ok a else Err ModelRaised.

Definition warning (code message path : string) : reviewed MigrationWarning :=
  checked_model warning_valid {| mw_code := code; mw_message := message; mw_object_path := Some path |}.

(** [MigrationDriftResolutionRequest]; its validator refuses a conflict named twice. *)
Record MigrationDriftResolutionRequest := {
  mdq_expected_design_revision : Z;
  mdq_review_digest : string;
  mdq_resolutions : list (string * conflict_resolution);
}.

Record ColumnTypeAnalysis := {
  cta_requires_conversion : bool;
  cta_source_type : option string;
  cta_target_type : string;
  cta_reason : string;
}.

(** ** Physical column order *)

(** The limits of [MigrationColumnOrderRebuild]. *)
Definition rebuild_valid (r : MigrationColumnOrderRebuild) : bool :=
  bool_decide (1 <= length (mcr_current_order r) <= 1600) && bool_decide (1 <= length (mcr_desired_order r) <= 1600)
  && bool_decide (length (mcr_blocking_reasons r) <= 100) && forallb (length_between 1 2048) (mcr_blocking_reasons r).

Definition empty_tables_of (emptiness : list (string * bool)) : list string := fst <$> filter (fun kv => kv.2 = true) emptiness.

Definition blockers_of (rebuild_blockers : list (string * list string)) (table_name : string) : list string :=
  match dget table_name rebuild_blockers with Some reasons => reasons | None => [] end.

(** [requested_rebuild_ids]. *)
Definition requested_rebuilds (request : MigrationPlanCreate) (differences : list ColumnOrderDifference)
    (empty_tables : list string) (rebuild_blockers : list (string * list string)) : list string :=
  match mpc_rebuild_table_ids request with
  | Some ids => ids
  | None => cod_table_id <$> filter (fun d => cod_table_name d ∈ empty_tables /\ cod_blocking_reasons d = []
                                              /\ blockers_of rebuild_blockers (cod_table_name d) = []) differences
  end.

(** One turn of the loop over the differences: the published choice, and the blocker of
    a selected table that cannot be rebuilt. *)
Definition review_rebuild (requested empty_tables : list string) (rebuild_blockers : list (string * list string))
    (d : ColumnOrderDifference) : reviewed (MigrationColumnOrderRebuild * list MigrationWarning) :=
  let reasons := (cod_blocking_reasons d ++ blockers_of rebuild_blockers (cod_table_name d))%list in
  let selected := bool_decide (cod_table_id d ∈ requested) in
  let! rebuild := checked_model rebuild_valid
    {| mcr_table_id := cod_table_id d; mcr_table_name := cod_table_name d; mcr_current_order := cod_current_order d;
       mcr_desired_order := cod_desired_order d; mcr_selected := selected; mcr_eligible := bool_decide (reasons = []);
       mcr_contains_data := negb (bool_decide (cod_table_name d ∈ empty_tables)); mcr_blocking_reasons := reasons |} in
  if selected && negb (mcr_eligible rebuild) then
    let! w := warning "physical_column_order_rebuild_blocked"
      ("PostgreSQL column order for " ++ cod_table_name d ++ " cannot be rebuilt: " ++ py_join " " reasons)
      ("tables." ++ cod_table_name d ++ ".column_order") in
    Ok (rebuild, [w])
  else Ok (rebuild, []).

Record rebuild_review := {
  rv_rebuilds : list MigrationColumnOrderRebuild;
  rv_blockers : list MigrationWarning;
}.

Definition review_rebuilds (request : MigrationPlanCreate) (differences : list ColumnOrderDifference)
    (empty_tables : list string) (rebuild_blockers : list (string * list string)) : reviewed rebuild_review :=
  let requested := requested_rebuilds request differences empty_tables rebuild_blockers in
  let! parts := result_map (review_rebuild requested empty_tables rebuild_blockers) differences in
  let! unknown := result_map (fun table_id => warning "physical_column_order_not_available"
      "The requested table no longer has a physical column-order difference." ("tables." ++ table_id ++ ".column_order"))
    (sorted_set (filter (fun i => i ∉ (cod_table_id <$> differences)) requested)) in
  Ok {| rv_rebuilds := parts.*1; rv_blockers := (concat parts.*2 ++ unknown)%list |}.

Definition eligible_rebuild (r : MigrationColumnOrderRebuild) : bool := mcr_selected r && mcr_eligible r.
Definition eligible_rebuild_ids (review : rebuild_review) : list string :=
  mcr_table_id <$> filter (fun r => eligible_rebuild r = true) (rv_rebuilds review).
Definition populated_rebuild_ids (review : rebuild_review) : list string :=
  mcr_table_id <$> filter (fun r => eligible_rebuild r = true /\ mcr_contains_data r = true) (rv_rebuilds review).
Definition selected_empty_rebuild_names (review : rebuild_review) : list string :=
  mcr_table_name <$> filter (fun r => eligible_rebuild r = true /\ mcr_contains_data r = false) (rv_rebuilds review).

(** ** Conversions *)

Definition with_validation_error (e : option string) (c : ColumnTypeConversion) : ColumnTypeConversion :=
  {| ctc_column_id := ctc_column_id c; ctc_table_id := ctc_table_id c; ctc_table_name := ctc_table_name c;
     ctc_column_name := ctc_column_name c; ctc_source_type := ctc_source_type c; ctc_target_type := ctc_target_type c;
     ctc_reason := ctc_reason c; ctc_default_expression := ctc_default_expression c; ctc_strategy := ctc_strategy c;
     ctc_expression := ctc_expression c; ctc_validation_error := e |}.

Definition with_review (r : ColumnTypeConversion) (c : CompiledConversion) : CompiledConversion :=
  {| cc_review := r; cc_expression := cc_expression c; cc_target_type := cc_target_type c;
     cc_validation_sql := cc_validation_sql c; cc_guard_sql := cc_guard_sql c |}.

(** The outcome of one candidate. *)
Record conversion_review := {
  cr_review : ColumnTypeConversion;
  cr_compiled : option CompiledConversion;
  cr_blockers : list MigrationWarning;
}.

#[export] Instance conflict_resolution_eq_dec : EqDecision conflict_resolution. Proof. solve_decision. Defined.

(** ** The digest of a review *)

Definition object_kind_text (k : migration_object_kind) : string :=
  match k with
  | MSchema => "schema" | MType => "type" | MTable => "table" | MColumn => "column" | MConstraint => "constraint"
  | MIndex => "index" | MRelationship => "relationship" | MFunction => "function" | MProcedure => "procedure"
  | MView => "view" | MMaterializedView => "materialized_view" | MTrigger => "trigger"
  end.
Definition strategy_text (s : conversion_strategy) : string := match s with Strict => "strict" | Custom => "custom" end.
Definition category_text (c : conflict_category) : string :=
  match c with CDirect => "direct" | CStructural => "structural" | CDependency => "dependency" | COpaque => "opaque" end.
Definition resolution_text (r : conflict_resolution) : string :=
  match r with PullLive => "pull_live" | KeepDesign => "keep_design" end.

(** [model_dump(mode="json", by_alias=True)] of the parts of a plan. *)
Definition conversion_document (c : ColumnTypeConversion) : json :=
  JDict [("columnId", JStr (ctc_column_id c)); ("tableId", JStr (ctc_table_id c)); ("tableName", JStr (ctc_table_name c));
         ("columnName", JStr (ctc_column_name c)); ("sourceType", JStr (ctc_source_type c));
         ("targetType", JStr (ctc_target_type c)); ("reason", JStr (ctc_reason c));
         ("defaultExpression", JStr (ctc_default_expression c)); ("strategy", json_opt (strategy_text <$> ctc_strategy c));
         ("expression", json_opt (ctc_expression c)); ("validationError", json_opt (ctc_validation_error c))].
Definition rebuild_document (r : MigrationColumnOrderRebuild) : json :=
  JDict [("tableId", JStr (mcr_table_id r)); ("tableName", JStr (mcr_table_name r));
         ("currentOrder", json_strs (mcr_current_order r)); ("desiredOrder", json_strs (mcr_desired_order r));
         ("selected", JBool (mcr_selected r)); ("eligible", JBool (mcr_eligible r));
         ("containsData", JBool (mcr_contains_data r)); ("blockingReasons", json_strs (mcr_blocking_reasons r))].
Definition step_document (s : MigrationStep) : json :=
  JDict [("index", JInt (mst_index s)); ("objectKind", JStr (object_kind_text (mst_object_kind s)));
         ("objectPath", JStr (mst_object_path s)); ("operation", JStr (mst_operation s)); ("sql", JStr (mst_sql s));
         ("destructive", JBool (mst_destructive s)); ("requiresLock", JBool (mst_requires_lock s));
         ("dataMovement", JBool (mst_data_movement s))].
Definition external_change_document (c : MigrationExternalChange) : json :=
  JDict [("id", JStr (mec_id c)); ("objectKind", JStr (object_kind_text (mec_object_kind c)));
         ("objectPath", JStr (mec_object_path c)); ("operation", JStr (operation_text (mec_operation c)));
         ("summary", JStr (mec_summary c)); ("baselineValue", mec_baseline_value c); ("liveValue", mec_live_value c)].
Definition conflict_document (c : MigrationConflict) : json :=
  JDict [("id", JStr (mcf_id c)); ("category", JStr (category_text (mcf_category c)));
         ("objectKind", JStr (object_kind_text (mcf_object_kind c))); ("objectPath", JStr (mcf_object_path c));
         ("summary", JStr (mcf_summary c)); ("baselineValue", mcf_baseline_value c);
         ("designValue", mcf_design_value c); ("liveValue", mcf_live_value c);
         ("affectedObjects", json_strs (mcf_affected_objects c));
         ("allowedResolutions", json_strs (resolution_text <$> mcf_allowed_resolutions c))].
Definition blocker_document (w : MigrationWarning) : json :=
  JDict [("code", JStr (mw_code w)); ("message", JStr (mw_message w)); ("objectPath", json_opt (mw_object_path w))].

Section review.
Context {D Catalog : Type}.
Context `{Pglast} `{SqlglotRelations} `{SqlglotTrees} `{Sha256} `{PglastTrees}.

Variable catalog_fingerprint : Catalog -> string.
Variable import_catalog : Catalog -> ImportedDesign.
Variable validation_text : json -> string.

Abbreviation answers := (target_answers Catalog).

(** A [connection] whose owner is not the owner of the workspace's target. *)
Definition other_owner (owner_id : string) (workspace : SchemiiWorkspace) (connection : connection_view) : bool :=
  negb (bool_decide (or_else (cn_owner_id connection) owner_id = or_else (ws_connection_owner_id workspace) owner_id)).

Definition initial_review (after : DesignTable) (old new : DesignColumn) (choice : option ColumnTypeConversionChoice)
    : ColumnTypeConversion :=
  {| ctc_column_id := dc_id new; ctc_table_id := tb_id after; ctc_table_name := tb_name after;
     ctc_column_name := dc_name new; ctc_source_type := dc_data_type old; ctc_target_type := dc_data_type new;
     ctc_reason := tcd_reason (classify_type_change (dc_data_type old) (dc_data_type new));
     ctc_default_expression := quote (dc_name new) ++ "::" ++ dc_data_type new;
     ctc_strategy := ccc_strategy <$> choice; ctc_expression := match choice with Some c => ccc_expression c | None => None end;
     ctc_validation_error := None |}.

(** The compiled conversion with the answer of the preview; a refused expression is an
    answer too. *)
Definition preview_conversion (owner_id namespace : string) (workspace : SchemiiWorkspace) (a : answers)
    (before after : DesignTable) (old new : DesignColumn) (choice : ColumnTypeConversionChoice)
    : reviewed (ColumnTypeConversion * option CompiledConversion) :=
  match compile_conversion namespace before after old new choice with
  | Err message => Ok (with_validation_error (Some message) (initial_review after old new (Some choice)), None)
  | Ok compiled =>
      match ta_conversion_connection a (dc_id new) with
      | Err (ConnectionNotFoundError message) | Err (PostgresGatewayError message) =>
          Err (MigrationServiceError 502 "conversion_validation_unavailable" message [] true)
      | Ok connection =>
          guard_err (other_owner owner_id workspace connection)
            (conflict_error "workspace_target_changed" "The workspace PostgreSQL identity changed") ;;;
          match ta_conversion a (dc_id new) with
          | Err (ConnectionNotFoundError message) | Err (PostgresGatewayError message) =>
              Err (MigrationServiceError 502 "conversion_validation_unavailable" message [] true)
          | Ok failure =>
              let review := with_validation_error failure (cc_review compiled) in
              Ok (review, match nonempty_text failure with None => Some (with_review review compiled) | Some _ => None end)
          end
      end
  end.

Definition review_conversion (owner_id namespace : string) (workspace : SchemiiWorkspace) (a : answers)
    (choices : list (string * ColumnTypeConversionChoice)) (candidate : DesignTable * DesignTable * DesignColumn * DesignColumn)
    : reviewed conversion_review :=
  let '(before, after, old, new) := candidate in
  match dget (dc_id new) choices with
  | None => Ok {| cr_review := initial_review after old new None; cr_compiled := None; cr_blockers := [] |}
  | Some choice =>
      let! (review, compiled) := preview_conversion owner_id namespace workspace a before after old new choice in
      match nonempty_text (ctc_validation_error review) with
      | Some message =>
          let! w := warning "column_type_conversion_invalid" message ("tables." ++ tb_name after ++ ".columns." ++ dc_name new) in
          Ok {| cr_review := review; cr_compiled := compiled; cr_blockers := [w] |}
      | None => Ok {| cr_review := review; cr_compiled := compiled; cr_blockers := [] |}
      end
  end.

(** The loop over the candidates; a popped choice is not found again. *)
Fixpoint review_conversions (owner_id namespace : string) (workspace : SchemiiWorkspace) (a : answers)
    (choices : list (string * ColumnTypeConversionChoice))
    (candidates : list (DesignTable * DesignTable * DesignColumn * DesignColumn)) : reviewed (list conversion_review) :=
  match candidates with
  | [] =>
      guard_err (negb (bool_decide (dkeys choices = [])))
        (conflict_error "column_conversion_changed" "A selected column no longer requires conversion. Refresh the review.") ;;;
      Ok []
  | candidate :: rest =>
      let! review := review_conversion owner_id namespace workspace a choices candidate in
      let! reviews := review_conversions owner_id namespace workspace a (dpop (dc_id candidate.2) choices) rest in
      Ok (review :: reviews)
  end.

(** [conversions\[new.id\] = compiled]. *)
Definition accepted_conversions (reviews : list conversion_review) : list (string * CompiledConversion) :=
  foldl (fun d r => match cr_compiled r with Some c => dset (ctc_column_id (cr_review r)) c d | None => d end) [] reviews.

(** ** The plan *)

(** What [create_plan] has read when it starts to review. *)
Record review_basis := {
  rb_owner_id : string;
  rb_workspace_id : string;
  rb_workspace : SchemiiWorkspace;
  rb_connection_id : string;
  rb_database : string;
  rb_namespace : string;
  rb_design : SchemiiDesign;
  rb_baseline : BaselineRecord Catalog;
  rb_catalog : Catalog;
  rb_connection_revision : Z;
}.

(** The tables whose rows the review asks for. *)
Definition inspected_table_names (required_empty : list string) (differences : list ColumnOrderDifference) : list string :=
  sorted_set (required_empty ++ (cod_table_name <$> differences))%list.

(** The second use of the connection: which inspected tables are empty, and what stands
    against rebuilding those whose order differs. *)
Definition inspect_tables (basis : review_basis) (a : answers) (names : list string)
    (differences : list ColumnOrderDifference) : reviewed (list string * list (string * list string)) :=
  if bool_decide (names = []) then Ok ([], []) else
  let! connection := from_gateway "postgres_emptiness_check_failed" (ta_second_connection a) in
  guard_err (negb (bool_decide (cn_revision connection = rb_connection_revision basis))
             || other_owner (rb_owner_id basis) (rb_workspace basis) connection)
    (conflict_error "connection_changed" "The PostgreSQL connection changed during migration review") ;;;
  let! emptiness := from_gateway "postgres_emptiness_check_failed" (ta_emptiness a) in
  if bool_decide (filter (fun d => cod_blocking_reasons d = []) differences = [])
  then Ok (empty_tables_of emptiness, [])
  else let! rebuild_blockers := from_gateway "postgres_emptiness_check_failed" (ta_rebuild_blockers a) in
       Ok (empty_tables_of emptiness, rebuild_blockers).

(** What a review finds, before it is written down as a plan. *)
Record review_findings := {
  rf_reconciliation : ReconciliationResult;
  rf_merged : SchemiiDesignContent;
  rf_rebuilds : rebuild_review;
  rf_conversions : list ColumnTypeConversion;
  rf_steps : list MigrationStep;
  rf_compiler_blockers : list MigrationWarning;
  rf_required_empty_preconditions : list string;
}.

Definition review_target (basis : review_basis) (request : MigrationPlanCreate) (a : answers) : reviewed review_findings :=
  let namespace := rb_namespace basis in
  let! reconciliation := from_reconciliation
    (reconcile_designs validation_text (bl_content (rb_baseline basis)) (design_content (rb_design basis))
       (import_catalog (rb_catalog basis)) (catalog_fingerprint (rb_catalog basis)) []) in
  let live := rr_live reconciliation in
  let merged := match rr_merged reconciliation with Some m => m | None => design_content (rb_design basis) end in
  let! differences := from_planner (column_order_differences namespace live merged) in
  let required_empty := tables_requiring_empty_for_required_columns live merged in
  let! (empty_tables, rebuild_blockers) := inspect_tables basis a (inspected_table_names required_empty differences) differences in
  let! rebuilds := review_rebuilds request differences empty_tables rebuild_blockers in
  let! conversions := review_conversions (rb_owner_id basis) namespace (rb_workspace basis) a
    (dict_by ccc_column_id (mpc_column_type_conversions request)) (conversion_candidates live merged) in
  let! (steps, compiler_blockers) := from_planner
    (compile_migration_steps namespace live merged empty_tables (eligible_rebuild_ids rebuilds) (populated_rebuild_ids rebuilds)
       (accepted_conversions conversions)) in
  Ok {| rf_reconciliation := reconciliation; rf_merged := merged; rf_rebuilds := rebuilds;
        rf_conversions := cr_review <$> conversions; rf_steps := steps;
        rf_compiler_blockers := (compiler_blockers ++ concat (cr_blockers <$> conversions))%list;
        rf_required_empty_preconditions :=
          (filter (fun t => t ∈ empty_tables) required_empty ++ selected_empty_rebuild_names rebuilds)%list |}.

Definition external_warning (f : review_findings) : list MigrationWarning :=
  match rr_external_changes (rf_reconciliation f) with
  | [] => []
  | changes =>
      [{| mw_code := "compatible_external_changes";
          mw_message := "PostgreSQL contains " ++ pretty (length changes) ++ " compatible "
            ++ "external change(s). They will be preserved and incorporated into the workspace.";
          mw_object_path := Some "schema" |}]
  end.
Definition plan_warnings (f : review_findings) : list MigrationWarning :=
  (external_warning f ++ rr_warnings (rf_reconciliation f))%list.

Definition destructive_steps (f : review_findings) : bool := existsb mst_destructive (rf_steps f).

(** [blocking]. *)
Definition plan_blocking (request : MigrationPlanCreate) (f : review_findings) : list MigrationWarning :=
  (rf_compiler_blockers f ++ rv_blockers (rf_rebuilds f)
   ++ (if destructive_steps f && negb (mpc_allow_destructive request)
       then [{| mw_code := "destructive_review_required";
                mw_message := "Enable destructive changes to review and authorize this complete migration";
                mw_object_path := Some "schema" |}] else [])
   ++ match rr_conflicts (rf_reconciliation f) with
      | [] => []
      | conflicts =>
          [{| mw_code := "external_change_conflict";
              mw_message := "Resolve " ++ pretty (length conflicts) ++ " conflict(s) between the "
                ++ "workspace and PostgreSQL before applying";
              mw_object_path := Some "schema" |}]
      end)%list.

Definition review_drift_status (f : review_findings) : drift_status :=
  match rr_conflicts (rf_reconciliation f), rr_external_changes (rf_reconciliation f) with
  | _ :: _, _ => DriftConflicting
  | [], _ :: _ => DriftCompatible
  | [], [] => DriftNone
  end.

Definition review_complete (f : review_findings) : bool :=
  bool_decide (rr_conflicts (rf_reconciliation f) = []) && bool_decide (rf_compiler_blockers f = [])
  && bool_decide (rv_blockers (rf_rebuilds f) = []).

Definition review_apply_capable (request : MigrationPlanCreate) (f : review_findings) : bool :=
  review_complete f && (mpc_allow_destructive request || negb (destructive_steps f)).

Definition digest_document (plan_id : string) (basis : review_basis) (request : MigrationPlanCreate) (f : review_findings) : json :=
  JDict
    [("version", JInt 1); ("planId", JStr plan_id); ("workspaceId", JStr (rb_workspace_id basis));
     ("workspaceRevision", JInt (ws_revision (rb_workspace basis)));
     ("designRevision", JInt (design_revision (rb_design basis)));
     ("designFingerprint", JStr (design_fingerprint_field (rb_design basis)));
     ("baselineId", JStr (bl_id (rb_baseline basis))); ("baselineRevision", JInt (bl_revision (rb_baseline basis)));
     ("catalogFingerprint", JStr (catalog_fingerprint (rb_catalog basis)));
     ("mergedDesignFingerprint", JStr (design_fingerprint (rf_merged f)));
     ("connectionId", JStr (rb_connection_id basis)); ("connectionRevision", JInt (rb_connection_revision basis));
     ("database", JStr (rb_database basis)); ("namespace", JStr (rb_namespace basis));
     ("allowDestructive", JBool (mpc_allow_destructive request));
     ("columnTypeConversions", JList (conversion_document <$> rf_conversions f));
     ("rebuildTableIds", json_strs (sorted_set (eligible_rebuild_ids (rf_rebuilds f))));
     ("requiredEmptyTables", json_strs (sorted_set (rf_required_empty_preconditions f)));
     ("columnOrderRebuilds", JList (rebuild_document <$> rv_rebuilds (rf_rebuilds f)));
     ("steps", JList (step_document <$> rf_steps f));
     ("externalChanges", JList (external_change_document <$> rr_external_changes (rf_reconciliation f)));
     ("conflicts", JList (conflict_document <$> rr_conflicts (rf_reconciliation f)));
     ("warnings", JList (blocker_document <$> plan_warnings f));
     ("blockingDifferences", JList (blocker_document <$> plan_blocking request f))].

Definition review_digest (plan_id : string) (basis : review_basis) (request : MigrationPlanCreate) (f : review_findings) : string :=
  sha256_hex (json_dumps (digest_document plan_id basis request f)).

Definition review_plan (now plan_ttl : Z) (plan_id : string) (basis : review_basis) (request : MigrationPlanCreate)
    (f : review_findings) : MigrationPlan :=
  {| mp_id := plan_id; mp_workspace_id := rb_workspace_id basis;
     mp_status := if review_apply_capable request f then PReviewable else PBlocked;
     mp_workspace_revision := ws_revision (rb_workspace basis); mp_design_revision := design_revision (rb_design basis);
     mp_design_fingerprint := design_fingerprint_field (rb_design basis);
     mp_baseline_revision := bl_revision (rb_baseline basis);
     mp_catalog_fingerprint := catalog_fingerprint (rb_catalog basis);
     mp_merged_design_fingerprint := design_fingerprint (rf_merged f);
     mp_review_digest := review_digest plan_id basis request f; mp_drift_status := review_drift_status f;
     mp_complete := review_complete f; mp_apply_capable := review_apply_capable request f;
     mp_destructive := destructive_steps f; mp_column_type_conversions := rf_conversions f;
     mp_requires_external_change_acknowledgement :=
       negb (bool_decide (length (rr_external_changes (rf_reconciliation f)) = 0));
     mp_column_order_rebuilds := rv_rebuilds (rf_rebuilds f); mp_steps := rf_steps f;
     mp_external_changes := rr_external_changes (rf_reconciliation f);
     mp_conflicts := rr_conflicts (rf_reconciliation f); mp_warnings := plan_warnings f;
     mp_blocking_differences := plan_blocking request f; mp_created_at := now; mp_expires_at := (now + plan_ttl)%Z |}.

(** The limits of [MigrationPlan] on its lists and revisions. *)
Definition plan_valid (p : MigrationPlan) : bool :=
  bool_decide (1 <= mp_workspace_revision p)%Z && bool_decide (0 <= mp_design_revision p)%Z
  && bool_decide (1 <= mp_baseline_revision p)%Z && bool_decide (N.of_nat (length (mp_column_type_conversions p)) <= 160000)%N
  && bool_decide (length (mp_column_order_rebuilds p) <= 100) && bool_decide (N.of_nat (length (mp_steps p)) <= 10000)%N
  && bool_decide (N.of_nat (length (mp_external_changes p)) <= 20000)%N
  && bool_decide (N.of_nat (length (mp_conflicts p)) <= 20000)%N && bool_decide (N.of_nat (length (mp_warnings p)) <= 10000)%N
  && bool_decide (N.of_nat (length (mp_blocking_differences p)) <= 10000)%N.

Definition plan_record (basis : review_basis) (request : MigrationPlanCreate) (f : review_findings) (plan : MigrationPlan)
    : PlanRecord Catalog :=
  {| pr_owner_id := rb_owner_id basis; pr_baseline_id := bl_id (rb_baseline basis); pr_plan := plan;
     pr_authority :=
       {| pa_baseline_content := bl_content (rb_baseline basis); pa_desired_content := design_content (rb_design basis);
          pa_merged_content := rf_merged f; pa_live_content := rr_live (rf_reconciliation f);
          pa_live_catalog := rb_catalog basis; pa_allow_destructive := mpc_allow_destructive request;
          pa_connection_id := rb_connection_id basis; pa_connection_revision := rb_connection_revision basis;
          pa_database := rb_database basis; pa_namespace := rb_namespace basis;
          pa_required_empty_tables := sorted_set (rf_required_empty_preconditions f);
          pa_rebuild_table_ids := sorted_set (eligible_rebuild_ids (rf_rebuilds f));
          pa_connection_owner_id := Some (or_else (ws_connection_owner_id (rb_workspace basis)) (rb_owner_id basis)) |} |}.

(** ** The service *)

Variable claim_guard : string -> string -> result migration_error unit.
Variable designs_get : string -> string -> method D design_error SchemiiDesign.

Abbreviation Repo := (MigrationRepo D Catalog).
Abbreviation service_method := (method Repo service_error).

(** [except MigrationConflictError as error: raise self._repository_conflict(error)]. *)
Definition repository_error (e : migration_error) : service_error :=
  match e with
  | MigrationConflictError code message details => MigrationServiceError 409 code message details false
  | e => RepositoryRaised e
  end.

Definition on_repository {A} (m : method Repo migration_error A) : service_method A := fun s =>
  match m s with (s', Ok a) => (s', Ok a) | (s', Err e) => (s', Err (repository_error e)) end.

Open Scope method_scope.

(** [self._design(...)]. *)
Definition service_design (owner_id workspace_id : string) : service_method SchemiiDesign := fun s =>
  match designs_get owner_id workspace_id (mg_designs s) with
  | (d, Ok design) => (put_designs d s, Ok design)
  | (d, Err e) => (put_designs d s, Err (DesignsRaised e))
  end.

(** [self._workspace(...)]; [Err] is [WorkspaceNotFoundError]. *)
Definition service_workspace (workspace : result string SchemiiWorkspace) : service_method SchemiiWorkspace :=
  match workspace with
  | Ok w => m_return w
  | Err message => m_raise (MigrationServiceError 404 "workspace_not_found" message [] false)
  end.

(** The target of a workspace made from PostgreSQL. *)
Definition workspace_target (w : SchemiiWorkspace) : option (string * string * string) :=
  match ws_connection_id w, ws_database w, ws_namespace w with
  | Some c, Some d, Some n => Some (c, d, n)
  | _, _, _ => None
  end.

(** The first use of the connection. *)
Definition inspect_catalog (owner_id database : string) (workspace : SchemiiWorkspace) (a : answers)
    : reviewed (connection_view * Catalog) :=
  (let! connection := from_gateway "postgres_inspection_failed" (ta_connection a) in
   guard_err (negb (bool_decide (cn_database connection = database)) || other_owner owner_id workspace connection)
     (conflict_error "workspace_target_changed" "The connection no longer targets the workspace database") ;;;
   let! catalog := from_gateway "postgres_inspection_failed" (ta_catalog a) in
   Ok (connection, catalog))%result.

(** What has to hold before a review starts, in the order of the checks. *)
Definition review_start (owner_id workspace_id : string) (workspace : result string SchemiiWorkspace)
    (request : MigrationPlanCreate) (a : answers) : service_method review_basis :=
  let* w := service_workspace workspace in
  match workspace_target w with
  | None => m_raise (conflict_error "database_design_required"
              "Migrations are available only in editable designs created from PostgreSQL")
  | Some (connection_id, database, namespace) =>
      let* unsettled := on_repository (blocks_workspace_lifecycle owner_id workspace_id) in
      m_guard unsettled (conflict_error "migration_execution_active"
        "Finish or reconcile the current migration execution before creating another review") ;;*
      let* design := service_design owner_id workspace_id in
      m_guard (negb (bool_decide (design_revision design = mpc_expected_design_revision request)))
        (MigrationServiceError 409 "design_changed" "The desired design changed after it was opened"
           [("currentDesignRevision", JInt (design_revision design))] false) ;;*
      let* found := on_repository (current_baseline owner_id workspace_id) in
      match found with
      | None => m_raise (MigrationServiceError 409 "migration_baseline_missing"
                  "The database-derived workspace is missing its original PostgreSQL baseline"
                  [("workspaceId", JStr workspace_id)] false)
      | Some baseline =>
          m_guard (negb (bool_decide ((bl_connection_id _ baseline, bl_database _ baseline, bl_namespace _ baseline)
                                        = (connection_id, database, namespace))))
            (conflict_error "workspace_target_changed" "The workspace target differs from its synchronization baseline") ;;*
          m_guard (negb (bool_decide (or_else (bl_connection_owner_id _ baseline) owner_id
                                        = or_else (ws_connection_owner_id w) owner_id)))
            (conflict_error "workspace_target_changed" "The workspace PostgreSQL identity differs from its baseline") ;;*
          let* (connection, catalog) := m_lift (inspect_catalog owner_id database w a) in
          m_guard (match mpc_expected_catalog_fingerprint request with
                   | Some expected => negb (bool_decide (expected = catalog_fingerprint catalog))
                   | None => false
                   end)
            (MigrationServiceError 409 "catalog_changed" "PostgreSQL changed after the catalog shown in the browser"
               [("currentCatalogFingerprint", JStr (catalog_fingerprint catalog))] false) ;;*
          m_return {| rb_owner_id := owner_id; rb_workspace_id := workspace_id; rb_workspace := w;
                      rb_connection_id := connection_id; rb_database := database; rb_namespace := namespace;
                      rb_design := design; rb_baseline := baseline; rb_catalog := catalog;
                      rb_connection_revision := cn_revision connection |}
      end
  end.

(** [MigrationService.create_plan]. *)
Definition service_create_plan (now plan_ttl : Z) (plan_token owner_id workspace_id : string)
    (workspace : result string SchemiiWorkspace) (request : MigrationPlanCreate) (a : answers)
    : service_method MigrationPlan :=
  let* basis := review_start owner_id workspace_id workspace request a in
  let* f := m_lift (review_target basis request a) in
  let* plan := m_lift (checked_model plan_valid (review_plan now plan_ttl ("mpl_" ++ plan_token) basis request f)) in
  on_repository (create_plan claim_guard (plan_record basis request f plan)).

(** [MigrationService.get_plan]: an expired review is shown as such. *)
Definition expired_plan (p : MigrationPlan) : MigrationPlan :=
  let p := with_plan_status PExpired p in
  {| mp_id := mp_id p; mp_workspace_id := mp_workspace_id p; mp_status := mp_status p;
     mp_workspace_revision := mp_workspace_revision p; mp_design_revision := mp_design_revision p;
     mp_design_fingerprint := mp_design_fingerprint p; mp_baseline_revision := mp_baseline_revision p;
     mp_catalog_fingerprint := mp_catalog_fingerprint p;
     mp_merged_design_fingerprint := mp_merged_design_fingerprint p; mp_review_digest := mp_review_digest p;
     mp_drift_status := mp_drift_status p; mp_complete := mp_complete p; mp_apply_capable := false;
     mp_destructive := mp_destructive p; mp_column_type_conversions := mp_column_type_conversions p;
     mp_requires_external_change_acknowledgement := mp_requires_external_change_acknowledgement p;
     mp_column_order_rebuilds := mp_column_order_rebuilds p; mp_steps := mp_steps p;
     mp_external_changes := mp_external_changes p; mp_conflicts := mp_conflicts p; mp_warnings := mp_warnings p;
     mp_blocking_differences := mp_blocking_differences p; mp_created_at := mp_created_at p;
     mp_expires_at := mp_expires_at p |}.

(** [self._plan(...)]. *)
Definition service_plan (owner_id plan_id : string) : service_method (PlanRecord Catalog) := fun s =>
  match get_plan owner_id plan_id s with
  | (s', Ok record) => (s', Ok record)
  | (s', Err (MigrationNotFoundError message)) => (s', Err (MigrationServiceError 404 "migration_plan_not_found" message [] false))
  | (s', Err e) => (s', Err (RepositoryRaised e))
  end.

Definition service_get_plan (now : Z) (owner_id plan_id : string) : service_method MigrationPlan :=
  let* record := service_plan owner_id plan_id in
  let plan := pr_plan record in
  m_return (if bool_decide (mp_status plan ∈ [PReviewable; PBlocked]) && bool_decide (mp_expires_at plan <= now)%Z
            then expired_plan plan else plan).

(** [MigrationService.analyze_column_type]. *)
Definition baseline_column (content : SchemiiDesignContent) (column_id : string) : option DesignColumn :=
  List.find (fun c => bool_decide (dc_id c = column_id)) (concat (tb_columns <$> content_tables content)).

Definition analyze_column_type (owner_id workspace_id : string) (workspace : result string SchemiiWorkspace)
    (column_id target_type : string) : service_method ColumnTypeAnalysis :=
  let* w := service_workspace workspace in
  let* found := match nonempty_text (ws_connection_id w) with
                | Some _ => on_repository (current_baseline owner_id workspace_id)
                | None => m_return None
                end in
  match (baseline ← found; baseline_column (bl_content baseline) column_id) with
  | None => m_return {| cta_requires_conversion := false; cta_source_type := None; cta_target_type := target_type;
                        cta_reason := "This column has no live baseline to convert." |}
  | Some source =>
      let decision := classify_type_change (dc_data_type source) target_type in
      m_return {| cta_requires_conversion := bool_decide (tcd_disposition decision = Blocked);
                  cta_source_type := Some (dc_data_type source); cta_target_type := target_type;
                  cta_reason := tcd_reason decision |}
  end.

(** ** Drift resolution *)

(** The checks of [resolve_drift] that need the stored plan only; the submitted choices. *)
Definition resolvable (now : Z) (plan : MigrationPlan) (request : MigrationDriftResolutionRequest)
    : reviewed (list (string * conflict_resolution)) :=
  (guard_err (negb (bool_decide (mp_status plan = PBlocked)) || bool_decide (length (mp_conflicts plan) = 0))
     (conflict_error "drift_plan_not_resolvable" "This migration plan is not awaiting drift resolution") ;;;
   guard_err (bool_decide (mp_expires_at plan <= now)%Z) (conflict_error "migration_plan_expired" "Refresh the migration review") ;;;
   guard_err (negb (bool_decide (mdq_review_digest request = mp_review_digest plan)))
     (conflict_error "migration_review_changed" "Migration review digest does not match") ;;;
   guard_err (negb (bool_decide (mdq_expected_design_revision request = mp_design_revision plan)))
     (MigrationServiceError 409 "design_changed" "The requested design revision does not match the drift review"
        [("reviewedDesignRevision", JInt (mp_design_revision plan))] false) ;;;
   let conflict_by_id := dict_by mcf_id (mp_conflicts plan) in
   let submitted := dict_fill fst snd (mdq_resolutions request) [] in
   guard_err (negb (same_set (dkeys submitted) (dkeys conflict_by_id)))
     (MigrationServiceError 422 "incomplete_drift_resolutions" "Every server-generated conflict must be resolved exactly once"
        [("requiredConflictIds", json_strs (sorted_set (dkeys conflict_by_id)));
         ("submittedConflictIds", json_strs (sorted_set (dkeys submitted)))] false) ;;;
   for_each (fun choice =>
     match dget choice.1 conflict_by_id with
     | Some c => guard_err (negb (bool_decide (choice.2 ∈ mcf_allowed_resolutions c)))
         (MigrationServiceError 422 "drift_resolution_not_allowed" "The selected resolution is not valid for this conflict"
            [("conflictId", JStr choice.1); ("resolution", JStr (resolution_text choice.2))] false)
     | None => Err (RepositoryRaised (MigrationKeyError choice.1))
     end) submitted ;;;
   Ok submitted)%result.

(** The workspace and the connection are still those of the review, and so is the
    catalog. *)
Definition target_unchanged (owner_id : string) (workspace : SchemiiWorkspace) (authority : PlanAuthority Catalog) (a : answers)
    : reviewed Catalog :=
  let reviewed_owner := or_else (pa_connection_owner_id authority) owner_id in
  (guard_err (negb (bool_decide (ws_connection_id workspace = Some (pa_connection_id authority)))
              || negb (bool_decide (or_else (ws_connection_owner_id workspace) owner_id = reviewed_owner))
              || negb (bool_decide (ws_database workspace = Some (pa_database authority)))
              || negb (bool_decide (ws_namespace workspace = Some (pa_namespace authority))))
     (conflict_error "workspace_target_changed" "Workspace target changed after review") ;;;
   let! connection := from_gateway "postgres_inspection_failed" (ta_connection a) in
   guard_err (negb (bool_decide (cn_revision connection = pa_connection_revision authority))
              || negb (bool_decide (or_else (cn_owner_id connection) owner_id = reviewed_owner)))
     (conflict_error "connection_changed" "Connection changed after review") ;;;
   let! catalog := from_gateway "postgres_inspection_failed" (ta_catalog a) in
   guard_err (negb (bool_decide (catalog_fingerprint catalog = catalog_fingerprint (pa_live_catalog authority))))
     (MigrationServiceError 409 "catalog_changed" "PostgreSQL changed again after the drift review; refresh before resolving"
        [("currentCatalogFingerprint", JStr (catalog_fingerprint catalog))] false) ;;;
   Ok catalog)%result.

Context `{!DesignRepositoryOps D}.

(** The exceptions of the repository's [reconcile_drift]. *)
Definition resolution_error (e : migration_error) : service_error :=
  match e with
  | DesignErrorRaised (DesignConflictError current) =>
      MigrationServiceError 409 "design_changed" "The workspace design changed during reconciliation"
        [("currentDesignRevision", JInt current)] false
  | e => repository_error e
  end.

(** The resolved design and the live design of a drift. *)
Definition resolve_contents (authority : PlanAuthority Catalog) (catalog : Catalog)
    (submitted : list (string * conflict_resolution)) : reviewed (SchemiiDesignContent * SchemiiDesignContent) :=
  (let! reconciliation := from_reconciliation
     (reconcile_designs validation_text (pa_baseline_content _ authority) (pa_desired_content _ authority)
        (import_catalog catalog) (catalog_fingerprint catalog) submitted) in
   let unresolved := filter (fun c => mcf_id c ∉ dkeys submitted) (rr_conflicts reconciliation) in
   match unresolved, rr_merged reconciliation with
   | [], Some merged => Ok (merged, rr_live reconciliation)
   | _, _ => Err (MigrationServiceError 409 "drift_resolution_incomplete"
                    "The selected changes do not produce a valid lossless design"
                    [("conflicts", JList (conflict_document <$> unresolved))] false)
   end)%result.

(** [MigrationService.resolve_drift]. *)
Definition service_resolve_drift (now : Z) (baseline_token resolution_token owner_id plan_id : string)
    (workspace : string -> result string SchemiiWorkspace) (request : MigrationDriftResolutionRequest) (a : answers)
    : service_method MigrationDriftResolution :=
  let* record := service_plan owner_id plan_id in
  let* submitted := m_lift (resolvable now (pr_plan record) request) in
  let* w := service_workspace (workspace (mp_workspace_id (pr_plan record))) in
  let* catalog := m_lift (target_unchanged owner_id w (pr_authority record) a) in
  let* (merged, live) := m_lift (resolve_contents (pr_authority record) catalog submitted) in
  fun s =>
    match reconcile_drift catalog_fingerprint claim_guard now baseline_token resolution_token record
            (mdq_expected_design_revision request) merged live s with
    | (s', Ok resolution) => (s', Ok resolution)
    | (s', Err e) => (s', Err (resolution_error e))
    end.

(** ** Accepting the result of a migration *)

(** [on_intended] of [MigrationExecutionCoordinator._execute_claimed], up to the record of
    the intended result: the schema PostgreSQL has before the commit, or the exception
    that rolls the transaction back. *)
Definition accept_result (authority : PlanAuthority Catalog) (catalog : Catalog) : reviewed SchemiiDesignContent :=
  (let merged := pa_merged_content _ authority in
   let! (inspected, issues, complete) := from_reconciliation (new_baseline_content (import_catalog catalog) merged) in
   let mismatches := physical_column_order_mismatches inspected merged (pa_rebuild_table_ids _ authority) in
   let candidate := preserve_column_display_order inspected merged in
   let! (remaining, blockers) := from_planner (compile_migration_steps (pa_namespace authority) candidate merged [] [] [] []) in
   guard_err (negb complete || negb (bool_decide (length issues = 0)) || negb (bool_decide (length remaining = 0))
              || negb (bool_decide (length blockers = 0)) || negb (bool_decide (length mismatches = 0)))
     (MigrationServiceError 409 "migration_result_mismatch"
        "PostgreSQL did not produce the complete reviewed schema; the transaction was rolled back"
        [("remainingStepCount", JInt (Z.of_nat (length remaining))); ("issues", JList (blocker_document <$> issues));
         ("blockers", JList (blocker_document <$> blockers)); ("physicalOrderMismatches", json_strs mismatches)] false) ;;;
   Ok candidate)%result.
End review.
