(* ===== verification/ReviewTheorems.v ===== *)
(** * Reviews are sound

    The theorems about [MigrationReview]: what a stored plan promises, what a review of
    a workspace in step with PostgreSQL gives, what resolving drift leaves behind, and
    what a migration that is accepted before its commit has produced. *)

From stdpp Require Import pretty.
From Stdlib Require Import Ascii String.
From S2P Require Import Prelude Json PyString DesignModels DefinitionAnalysis DesignValidation ValidationSpec DeletionImpact DesignDocument DesignStore MigrationModels MigrationStore MigrationTheorems TypeChanges CheckExpressions DesignMerge MergeTheorems DesignDecode Reconcile ReconcileProps SqlText PlanAnalysis MigrationPlanner PlannerProps PlannerSafety Conversions MigrationReview.
Open Scope string_scope.
Open Scope result_scope.

Lemma m_bind_inv {S E A B} (m : method S E A) (k : A -> method S E B) s s' b :
  m_bind m k s = (s', Ok b) -> exists s1 a, m s = (s1, Ok a) /\ k a s1 = (s', Ok b).
Proof. unfold m_bind. destruct (m s) as [s1 [a|e]]; [eauto|discriminate]. Qed.

Lemma m_guard_inv {S E} (b : bool) (e : E) (s s' : S) u : m_guard b e s = (s', Ok u) -> s' = s /\ b = false.
Proof. unfold m_guard, m_lift. destruct b; simpl; intros Hm; by simplify_eq. Qed.

Lemma m_lift_inv {S E A} (r : result E A) (s s' : S) a : m_lift r s = (s', Ok a) -> s' = s /\ r = Ok a.
Proof. unfold m_lift. intros Hm; by simplify_eq. Qed.

Section theorems.
Context {D Catalog : Type}.
Context `{Pglast} `{SqlglotRelations} `{SqlglotTrees} `{Sha256} `{PglastTrees}.
Variable catalog_fingerprint : Catalog -> string.
Variable import_catalog : Catalog -> ImportedDesign.
Variable validation_text : json -> string.
Variable claim_guard : string -> string -> result migration_error unit.
Variable designs_get : string -> string -> method D design_error SchemiiDesign.

Abbreviation Repo := (MigrationRepo D Catalog).
Abbreviation start := (review_start catalog_fingerprint designs_get).
Abbreviation target := (review_target catalog_fingerprint import_catalog validation_text).
Abbreviation create := (service_create_plan catalog_fingerprint import_catalog validation_text claim_guard designs_get).

Lemma on_repository_inv {A} (m : method Repo migration_error A) s s' a :
  on_repository m s = (s', Ok a) -> m s = (s', Ok a).
Proof. unfold on_repository. destruct (m s) as [s1 [x|e]]; congruence. Qed.

Lemma checked_model_Ok {A} (valid : A -> bool) a b : checked_model valid a = Ok b -> a = b /\ valid a = true.
Proof. unfold checked_model. destruct (valid a) eqn:Hv; [|done]. by intros [= <-]. Qed.

Lemma from_planner_Ok {A} (r : planned A) a : from_planner r = Ok a <-> r = Ok a.
Proof. destruct r; simpl; naive_solver. Qed.
Lemma from_reconciliation_Ok {A} (r : result reconcile_error A) a : from_reconciliation r = Ok a <-> r = Ok a.
Proof. destruct r; simpl; naive_solver. Qed.

Lemma create_plan_stored record (s s' : Repo) plan :
  create_plan claim_guard record s = (s', Ok plan) ->
  plan = pr_plan record /\ dget (pr_owner_id record, mp_id plan) (mg_plans s') = Some record /\
  mg_executions s' = mg_executions s /\ mg_baselines s' = mg_baselines s.
Proof.
  unfold create_plan. intros Hc. apply m_bind_inv in Hc as (? & [] & [-> _]%m_lift_inv & Hc). unfold create_plan_locked in Hc.
  apply m_bind_inv in Hc as (? & s0 & Hg & Hc). injection Hg as <- <-.
  apply m_bind_inv in Hc as (? & [] & [-> _]%m_guard_inv & Hc). apply m_bind_inv in Hc as (? & [] & Hu & Hc).
  injection Hu as <-. injection Hc as <- <-. simpl. by rewrite dget_dset_eq.
Qed.

(** A stored plan is the plan of a review. *)
Lemma create_plan_reviewed now ttl token owner ws workspace request a s s' plan :
  create now ttl token owner ws workspace request a s = (s', Ok plan) ->
  exists basis f s1, start owner ws workspace request a s = (s1, Ok basis) /\ target basis request a = Ok f /\
    plan = review_plan catalog_fingerprint now ttl ("mpl_" ++ token) basis request f /\ plan_valid plan = true /\
    create_plan claim_guard (plan_record basis request f plan) s1 = (s', Ok plan).
Proof.
  unfold service_create_plan. intros Hc. apply m_bind_inv in Hc as (s1 & basis & Hs & Hc).
  apply m_bind_inv in Hc as (? & f & [-> Hf]%m_lift_inv & Hc). apply m_bind_inv in Hc as (? & p & [-> Hp]%m_lift_inv & Hc).
  apply on_repository_inv in Hc. apply checked_model_Ok in Hp as [<- Hv].
  assert (plan = review_plan catalog_fingerprint now ttl ("mpl_" ++ token) basis request f) as ->
    by (by apply create_plan_stored in Hc as [-> _]).
  by exists basis, f, s1.
Qed.

Lemma from_gateway_Ok {A} code (r : answer A) a : from_gateway code r = Ok a <-> r = Ok a.
Proof. destruct r as [|[]]; simpl; naive_solver. Qed.

(** What a review is based on: the current design and baseline of the workspace, and the
    catalog of the target both were made for. *)
Record current_basis (owner ws : string) (workspace : result string SchemiiWorkspace) (request : MigrationPlanCreate)
    (a : target_answers Catalog) (s s1 : Repo) (basis : review_basis (Catalog := Catalog)) : Prop := {
  cb_owner : rb_owner_id basis = owner;
  cb_workspace_id : rb_workspace_id basis = ws;
  cb_workspace : workspace = Ok (rb_workspace basis);
  cb_target : workspace_target (rb_workspace basis) = Some (rb_connection_id basis, rb_database basis, rb_namespace basis);
  cb_settled : any_execution s owner ws blocks_lifecycle = false;
  cb_state : s1 = put_designs (mg_designs s1) s;
  cb_design : designs_get owner ws (mg_designs s) = (mg_designs s1, Ok (rb_design basis));
  cb_revision : design_revision (rb_design basis) = mpc_expected_design_revision request;
  cb_baseline : last (baselines_of s (owner, ws)) = Some (rb_baseline basis);
  cb_same_target : (bl_connection_id _ (rb_baseline basis), bl_database _ (rb_baseline basis), bl_namespace _ (rb_baseline basis)) =
    (rb_connection_id basis, rb_database basis, rb_namespace basis);
  cb_catalog : ta_catalog a = Ok (rb_catalog basis);
  cb_expected : forall e, mpc_expected_catalog_fingerprint request = Some e -> e = catalog_fingerprint (rb_catalog basis);
}.

Lemma review_start_Ok owner ws workspace request a s s1 basis :
  start owner ws workspace request a s = (s1, Ok basis) -> current_basis owner ws workspace request a s s1 basis.
Proof.
  unfold review_start. intros Hc. apply m_bind_inv in Hc as (? & w & Hw & Hc).
  destruct workspace as [w'|]; [|done]. injection Hw as <- <-.
  destruct (workspace_target w') as [[[cid db] ns]|] eqn:Ht; [|done].
  apply m_bind_inv in Hc as (? & b & Hb%on_repository_inv & Hc). unfold blocks_workspace_lifecycle, m_bind, m_get, m_return in Hb.
  injection Hb as <- <-. apply m_bind_inv in Hc as (? & [] & [-> Hu]%m_guard_inv & Hc).
  apply m_bind_inv in Hc as (? & design & Hd & Hc). unfold service_design in Hd.
  destruct (designs_get owner ws (mg_designs s)) as [d [dd|]] eqn:Hg; [|done]. injection Hd as <- <-.
  apply m_bind_inv in Hc as (? & [] & [-> Hr]%m_guard_inv & Hc).
  apply m_bind_inv in Hc as (? & found & Hf%on_repository_inv & Hc). unfold current_baseline, m_bind, m_get, m_return in Hf.
  injection Hf as <- Hf. destruct found as [baseline|]; [|done].
  apply m_bind_inv in Hc as (? & [] & [-> Hg1]%m_guard_inv & Hc). apply m_bind_inv in Hc as (? & [] & [-> Hg2]%m_guard_inv & Hc).
  apply m_bind_inv in Hc as (? & [connection catalog] & [-> Hi]%m_lift_inv & Hc).
  apply m_bind_inv in Hc as (? & [] & [-> Hg3]%m_guard_inv & Hc). injection Hc as <- <-.
  rewrite negb_false_iff, bool_decide_eq_true in Hr, Hg1. unfold inspect_catalog in Hi. result_inv.
  constructor; cbn; try done.
  - by eapply from_gateway_Ok.
  - intros e He. rewrite He in Hg3. by rewrite negb_false_iff, bool_decide_eq_true in Hg3.
Qed.

(** A reconciliation without conflicts has a valid merged design. *)
Lemma conflict_free_valid baseline desired imported fingerprint res r :
  reconcile_designs validation_text baseline desired imported fingerprint res = Ok r -> rr_conflicts r = [] ->
  imp_complete imported = true /\ exists merged, rr_merged r = Some merged /\ design_ok merged.
Proof.
  unfold reconcile_designs, catalog_design. intros Hr Hc. result_inv.
  destruct (read_merged validation_text _) as [[merged invalid]|] eqn:Hm; [|done]. cbn [result_bind] in *. simplify_eq. simpl in *.
  apply app_eq_nil in Hc as [_ [-> Hcomplete]%app_eq_nil]. split; [by destruct (imp_complete imported)|].
  unfold read_merged, refused_conflict in Hm. repeat (case_match; try done); simplify_eq. eexists. split; [done|].
  match goal with v : () |- _ => destruct v end. by apply validate_design_content_iff.
Qed.

Lemma review_target_Ok basis request a f :
  target basis request a = Ok f ->
  reconcile_designs validation_text (bl_content (rb_baseline basis)) (design_content (rb_design basis))
    (import_catalog (rb_catalog basis)) (catalog_fingerprint (rb_catalog basis)) [] = Ok (rf_reconciliation f) /\
  rf_merged f = match rr_merged (rf_reconciliation f) with Some m => m | None => design_content (rb_design basis) end /\
  exists empty ids populated conversions blockers,
    compile_migration_steps (rb_namespace basis) (rr_live (rf_reconciliation f)) (rf_merged f) empty ids populated conversions =
      Ok (rf_steps f, blockers) /\ blockers `prefix_of` rf_compiler_blockers f.
Proof.
  unfold review_target. intros Hf. apply result_bind_Ok in Hf as (r & Hr%from_reconciliation_Ok & Hf).
  apply result_bind_Ok in Hf as (differences & _ & Hf). apply result_bind_Ok in Hf as ([empty rb] & _ & Hf).
  apply result_bind_Ok in Hf as (rebuilds & _ & Hf). apply result_bind_Ok in Hf as (conversions & _ & Hf).
  apply result_bind_Ok in Hf as ([steps blockers] & Hc%from_planner_Ok & Hf). injection Hf as <-. simpl. split_and!; [done..|].
  eexists _, _, _, _, blockers. split; [exact Hc|]. by eexists.
Qed.

(** Nothing blocks a plan exactly when it is capable of being applied. *)
Lemma capable_iff request f : review_apply_capable request f = true <-> plan_blocking request f = [].
Proof.
  unfold review_apply_capable, review_complete, plan_blocking. rewrite !app_nil, !andb_true_iff, !bool_decide_eq_true, orb_true_iff, negb_true_iff.
  destruct (rr_conflicts _), (destructive_steps f), (mpc_allow_destructive request); simpl; naive_solver.
Qed.

(** C34. A plan that a review stores can be applied exactly when it lists no blocking
    difference; it is reviewable then and blocked otherwise.  A plan that can be applied
    has no conflicts, leads to a valid design from a completely understood catalog, and
    holds a destructive step only if the request allowed that. *)
Theorem stored_plans_capable now ttl token owner ws workspace request a s s' plan :
  create now ttl token owner ws workspace request a s = (s', Ok plan) ->
  (mp_apply_capable plan = true <-> mp_blocking_differences plan = []) /\
  mp_status plan = (if mp_apply_capable plan then PReviewable else PBlocked) /\
  exists record, dget (owner, mp_id plan) (mg_plans s') = Some record /\ pr_plan record = plan /\
    (mp_apply_capable plan = true ->
       mp_conflicts plan = [] /\ mp_drift_status plan <> DriftConflicting /\
       design_ok (pa_merged_content _ (pr_authority record)) /\
       imp_complete (import_catalog (pa_live_catalog (pr_authority record))) = true /\
       (forall step, step ∈ mp_steps plan -> mst_destructive step = true -> mpc_allow_destructive request = true)).
Proof.
  intros Hc. apply create_plan_reviewed in Hc as (basis & f & s1 & Hs & Hf & Hplan & _ & Hc).
  apply review_start_Ok in Hs. apply create_plan_stored in Hc as (_ & Hstored & _).
  apply review_target_Ok in Hf as (Hr & Hmerged & _).
  split_and!; [rewrite Hplan; apply capable_iff|by rewrite Hplan|].
  exists (plan_record basis request f plan). split_and!; [by rewrite <-(cb_owner _ _ _ _ _ _ _ _ Hs)|done|].
  cbn [plan_record pr_authority pa_merged_content pa_live_catalog]. rewrite Hplan. cbn [review_plan mp_apply_capable mp_conflicts mp_drift_status mp_steps].
  unfold review_apply_capable, review_complete, review_drift_status. rewrite !andb_true_iff, !bool_decide_eq_true.
  intros [[[Hconf _] _] Hd]. destruct (conflict_free_valid _ _ _ _ _ _ Hr Hconf) as (Hcomplete & merged & Hm & Hok).
  rewrite Hmerged, Hm, Hconf. split_and!; try done.
  - by destruct (rr_external_changes _).
  - intros step Hstep Hdes. apply orb_true_iff in Hd as [|Hd%negb_true_iff]; [done|].
    unfold destructive_steps in Hd. rewrite existsb_false_Forall, Forall_forall in Hd.
    by rewrite (Hd _ Hstep) in Hdes.
Qed.

(** A stored plan reviews the current state: the design has the requested revision,
    the baseline is the newest of the workspace and has the workspace's target, the
    catalog is the inspected one and the one the browser showed, and no execution of the
    workspace is unsettled.  Executions and baselines are left as they are. *)
Theorem reviews_are_current now ttl token owner ws workspace request a s s' plan :
  create now ttl token owner ws workspace request a s = (s', Ok plan) ->
  exists w baseline design catalog,
    workspace = Ok w /\ last (baselines_of s (owner, ws)) = Some baseline /\
    (designs_get owner ws (mg_designs s)).2 = Ok design /\ ta_catalog a = Ok catalog /\
    any_execution s owner ws blocks_lifecycle = false /\
    workspace_target w = Some (bl_connection_id _ baseline, bl_database _ baseline, bl_namespace _ baseline) /\
    mp_design_revision plan = mpc_expected_design_revision request /\ mp_design_revision plan = design_revision design /\
    mp_baseline_revision plan = bl_revision baseline /\ mp_catalog_fingerprint plan = catalog_fingerprint catalog /\
    (forall e, mpc_expected_catalog_fingerprint request = Some e -> mp_catalog_fingerprint plan = e) /\
    mg_executions s' = mg_executions s /\ mg_baselines s' = mg_baselines s.
Proof.
  intros Hc. apply create_plan_reviewed in Hc as (basis & f & s1 & Hs & _ & -> & _ & Hc).
  apply review_start_Ok in Hs. destruct Hs as [? ? ? Ht ? Hs1 Hd ? ? Htarget ? Hexp].
  apply create_plan_stored in Hc as (_ & _ & He & Hb).
  exists (rb_workspace basis), (rb_baseline basis), (rb_design basis), (rb_catalog basis). simpl.
  rewrite Hd, He, Hb, Hs1. simpl. split_and!; try done; [|by intros e ->%Hexp].
  rewrite Ht. by injection Htarget as -> -> ->.
Qed.

(** ** Accepted results *)

Lemma omap_nil_elem {A B} (f : A -> option B) l x : omap f l = [] -> x ∈ l -> f x = None.
Proof.
  intros Hnil Hx. destruct (f x) as [y|] eqn:Hf; [|done].
  assert (y ∈ omap f l) as Hy by (apply list_elem_of_omap; eauto). rewrite Hnil in Hy. set_solver.
Qed.

Lemma mismatches_nil live desired ids i :
  physical_column_order_mismatches live desired ids = [] -> i ∈ ids ->
  exists before after, dget i (dict_by tb_id (content_tables live)) = Some before /\
    dget i (dict_by tb_id (content_tables desired)) = Some after /\ dc_id <$> tb_columns before = dc_id <$> tb_columns after.
Proof.
  unfold physical_column_order_mismatches. intros Hnil Hi%elem_of_sorted_set.
  pose proof (omap_nil_elem _ _ _ Hnil Hi) as Hn. simpl in Hn.
  destruct (dget i (dict_by tb_id (content_tables live))) as [before|], (dget i (dict_by tb_id (content_tables desired))) as [after|];
    try done. case_bool_decide; [|done]. eauto 10.
Qed.

(** C35. A migration is committed only with the reviewed schema: when the check before the
    commit accepts, the import of the catalog is complete and without issues, the schema
    it gives describes the reviewed design object by object, and every rebuilt table has
    its columns in the reviewed order. *)
Theorem accepted_results_match authority catalog candidate :
  design_ok candidate -> design_ok (pa_merged_content Catalog authority) ->
  accept_result import_catalog authority catalog = Ok candidate ->
  imp_complete (import_catalog catalog) = true /\ imp_issues (import_catalog catalog) = [] /\
  same_design candidate (pa_merged_content _ authority) /\
  exists inspected, aligned_content (imp_content (import_catalog catalog)) [pa_merged_content _ authority] = Ok inspected /\
    candidate = preserve_column_display_order inspected (pa_merged_content _ authority) /\
    forall i, i ∈ pa_rebuild_table_ids _ authority -> exists before after,
      dget i (dict_by tb_id (content_tables inspected)) = Some before /\
      dget i (dict_by tb_id (content_tables (pa_merged_content _ authority))) = Some after /\
      dc_id <$> tb_columns before = dc_id <$> tb_columns after.
Proof.
  intros Hc Hm Ha. unfold accept_result in Ha.
  apply result_bind_Ok in Ha as ([[inspected issues] complete] & Hi%from_reconciliation_Ok & Ha).
  apply result_bind_Ok in Ha as ([remaining blockers] & Hp%from_planner_Ok & Ha).
  apply result_bind_Ok in Ha as (u & Hg%guard_err_Ok & Ha). injection Ha as <-.
  rewrite !orb_false_iff, !negb_false_iff, !bool_decide_eq_true, !length_zero_iff_nil in Hg.
  destruct Hg as [[[[-> ->] ->] ->] Horder].
  unfold new_baseline_content, catalog_design in Hi. apply result_bind_Ok in Hi as (content & Hal & Hi). injection Hi as -> Hissues Hcomplete.
  apply fmap_nil_inv in Hissues. split_and!; [done..| |].
  - by apply (compile_nothing (pa_namespace authority) _ _ []).
  - exists inspected. split_and!; [done..|]. intros i. by apply mismatches_nil.
Qed.

(** ** Workspaces in step with PostgreSQL *)

(** The tables of both designs have their columns in the same order. *)
Definition same_column_order (live desired : SchemiiDesignContent) : Prop :=
  forall before after, before ∈ content_tables live -> after ∈ content_tables desired -> tb_id before = tb_id after ->
    dc_id <$> tb_columns before = dc_id <$> tb_columns after.

Lemma matched_keeps_all {A} (key : A -> string) (R : A -> A -> Prop) l l' :
  matched key R l l' -> keeps key (fun _ _ => True) l l'.
Proof.
  intros Hm x Hx. specialize (Hm (key x)).
  destruct (proj2 (dict_by_is_Some key l (key x))) as [x' Hx']; [by apply list_elem_of_fmap_2|]. rewrite Hx' in Hm.
  inversion Hm; subst. eauto.
Qed.

Lemma same_design_keeps live desired : design_ok live -> same_design live desired -> keeps_objects live desired.
Proof.
  intros Hok [? Htables ? ? ? ?]. constructor; try by eapply matched_keeps_all.
  intros t Ht. specialize (Htables (tb_id t)). rewrite dict_by_elem in Htables by (done || apply table_ids_NoDup, Hok).
  inversion Htables as [? t' Hsame|]; subst. exists t'. split; [done|]. destruct Hsame. constructor; by eapply matched_keeps_all.
Qed.

Lemma no_differences ns live desired : same_column_order live desired -> column_order_differences ns live desired = Ok [].
Proof.
  intros Hsame. unfold column_order_differences.
  match goal with |- (let! _ := result_map ?f ?l in _) = _ => assert (result_map f l = Ok (replicate (length l) [])) as -> end.
  - apply result_map_Ok. generalize (sorted_inter (dkeys (dict_by tb_id (content_tables live))) (dkeys (dict_by tb_id (content_tables desired)))) as l.
    intros l. induction l as [|i l IH]; simpl; constructor; [|done].
    destruct (dget i (dict_by tb_id (content_tables live))) as [before|] eqn:Hb; [|done].
    destruct (dget i (dict_by tb_id (content_tables desired))) as [after|] eqn:Ha; [|done].
    apply dict_by_Some in Hb as [Hb <-]. apply dict_by_Some in Ha as [Ha Hid].
    unfold column_order_difference. by rewrite bool_decide_eq_true_2 by (by apply Hsame).
  - simpl. f_equal. by induction (length _).
Qed.

Lemma concat_fmap_nil {A B} (f : A -> list B) l : (forall x, x ∈ l -> f x = []) -> concat (f <$> l) = [].
Proof. induction l as [|x l IH]; intros Hf; [done|]. simpl. rewrite Hf by set_solver. apply IH. set_solver. Qed.

Lemma no_required_empty live desired :
  same_column_order live desired -> tables_requiring_empty_for_required_columns live desired = [].
Proof.
  intros Hsame. unfold tables_requiring_empty_for_required_columns. rewrite concat_fmap_nil; [done|]. intros i _.
  destruct (dget i (dict_by tb_id (content_tables live))) as [before|] eqn:Hb; [|done].
  destruct (dget i (dict_by tb_id (content_tables desired))) as [after|] eqn:Ha; [|done].
  apply dict_by_Some in Hb as [Hb <-]. apply dict_by_Some in Ha as [Ha Hid].
  rewrite (Hsame before after) by done. rewrite (proj2 (filter_nil_iff _ _)); [done|].
  apply Forall_forall. intros c Hc [Hn _]. apply Hn. by apply list_elem_of_fmap_2.
Qed.

Lemma no_conversions live desired : design_ok desired -> same_design live desired -> conversion_candidates live desired = [].
Proof.
  intros Hok Hsame. unfold conversion_candidates. apply concat_fmap_nil. intros after Hafter.
  pose proof (sd_tables _ _ Hsame (tb_id after)) as Hm.
  rewrite (dict_by_elem tb_id (content_tables desired)) in Hm by (done || apply table_ids_NoDup, Hok).
  inversion Hm as [before ? Ht Hb|]; subst. clear Hm.
  apply omap_nil. intros new Hnew. unfold conversion_candidate. pose proof (st_columns _ _ Ht (dc_id new)) as Hm.
  rewrite (dict_by_elem dc_id (tb_columns after)) in Hm by (done || by apply (column_ids_NoDup desired); [apply Hok|]).
  inversion Hm as [old ? Hcol Hold|]; subst. by rewrite (sc_type _ _ Hcol).
Qed.

(** A review of a workspace in step with PostgreSQL is clean: when the imported
    catalog is the baseline and the design describes the same schema in the same column
    order, the review needs no further answer from PostgreSQL, finds no drift and no
    step, and the plan can be applied. *)
Theorem clean_review basis request a :
  let baseline := bl_content (rb_baseline basis) in
  let desired := design_content (rb_design basis) in
  design_ok baseline -> design_ok desired -> content_built desired ->
  same_design baseline desired -> same_column_order baseline desired ->
  catalog_design (import_catalog (rb_catalog basis)) [baseline; desired] = Ok (baseline, [], true) ->
  mpc_column_type_conversions request = [] -> mpc_rebuild_table_ids request = None ->
  exists f, target basis request a = Ok f /\ rf_merged f = desired /\ rf_steps f = [] /\
    plan_blocking request f = [] /\ review_apply_capable request f = true /\
    review_drift_status f = DriftNone /\ plan_warnings f = [].
Proof.
  intros baseline desired Hb Hd Hbuilt Hsame Horder Hcat Hconv Hreb.
  destruct (no_drift_reconciliation validation_text baseline desired (import_catalog (rb_catalog basis))
    (catalog_fingerprint (rb_catalog basis)) [] true Hd Hbuilt (do_ids _ Hb) Hcat) as (r & Hr & Hm & Hl & Hx & Hw & Hc).
  pose proof (proj2 (Hc eq_refl) (same_design_keeps _ _ Hb Hsame)) as Hconf. clear Hc.
  pose proof (proj2 (compile_nothing (rb_namespace basis) baseline desired [] Hb Hd) Hsame) as Hsteps.
  unfold review_target. fold baseline desired. rewrite Hr. cbn [from_reconciliation result_bind]. rewrite Hm, Hl.
  rewrite (no_differences _ _ _ Horder), (no_required_empty _ _ Horder). cbn [from_planner result_bind].
  unfold inspect_tables, inspected_table_names. cbn [app fmap list_fmap]. rewrite bool_decide_eq_true_2 by done. cbn [result_bind].
  unfold review_rebuilds, requested_rebuilds. rewrite Hreb. cbn -[compile_migration_steps conversion_candidates].
  rewrite (no_conversions _ _ Hd Hsame), Hconv. cbn -[compile_migration_steps].
  rewrite bool_decide_eq_true_2 by done. cbn -[compile_migration_steps]. rewrite Hsteps. cbn.
  eexists. split; [reflexivity|]. unfold plan_blocking, review_apply_capable, review_complete, review_drift_status, plan_warnings,
    external_warning, destructive_steps. cbn. rewrite Hconf, Hx, Hw. cbn. by rewrite orb_true_r.
Qed.

(** ** Resolved drift *)

Lemma model_check {A} known (read : list (string * json) -> option A) check v a :
  model known read check v = Some a -> check a = true.
Proof.
  unfold model, checked_value. destruct v as [| | | | |d]; try done. destruct (only_keys known d); [|done].
  destruct (read d) as [c|]; simpl; [|done]. destruct (check c) eqn:Hc; [|done]. by intros [= <-].
Qed.

Lemma reconciled_check baseline desired imported fingerprint res r merged :
  reconcile_designs validation_text baseline desired imported fingerprint res = Ok r -> rr_merged r = Some merged ->
  SchemiiDesignContent_check merged = true.
Proof.
  unfold reconcile_designs. intros Hr Hm. apply result_bind_Ok in Hr as ([[live warnings] complete] & _ & Hr).
  apply result_bind_Ok in Hr as ([m invalid] & Hread & Hr). injection Hr as <-. simpl in Hm. subst m.
  unfold read_merged in Hread. destruct (decode_content _) as [c|] eqn:Hd; [|unfold refused_conflict in Hread; by case_match].
  assert (merged = c) as -> by (unfold refused_conflict in Hread; repeat (case_match; try done); by simplify_eq).
  by eapply model_check.
Qed.

(** The submitted choices settle each conflict of a blocked plan in an allowed way. *)
Record choices_complete (now : Z) (plan : MigrationPlan) (request : MigrationDriftResolutionRequest)
    (submitted : list (string * conflict_resolution)) : Prop := {
  sc_blocked : mp_status plan = PBlocked;
  sc_unexpired : (now < mp_expires_at plan)%Z;
  sc_digest : mdq_review_digest request = mp_review_digest plan;
  sc_revision : mdq_expected_design_revision request = mp_design_revision plan;
  sc_covered : forall i, i ∈ dkeys submitted <-> i ∈ mcf_id <$> mp_conflicts plan;
  sc_allowed : forall i r, (i, r) ∈ submitted -> exists c, c ∈ mp_conflicts plan /\ mcf_id c = i /\ r ∈ mcf_allowed_resolutions c;
}.

Lemma resolvable_Ok now plan request submitted :
  resolvable now plan request = Ok submitted -> choices_complete now plan request submitted.
Proof.
  unfold resolvable. intros Hr. result_inv.
  rewrite ?orb_false_iff, ?negb_false_iff, ?bool_decide_eq_true, ?bool_decide_eq_false in *.
  match goal with Hs : same_set _ _ = true |- _ => rewrite same_set_true in Hs; rename Hs into Hcover end.
  match goal with Hf : for_each _ _ = Ok _ |- _ => rewrite for_each_Ok, Forall_forall in Hf; rename Hf into Hall end.
  constructor; try tauto; [lia| |].
  - intros i. by rewrite Hcover, dkeys_dict_by.
  - intros i r Hin. specialize (Hall _ Hin). simpl in Hall.
    destruct (dget i (dict_by mcf_id (mp_conflicts plan))) as [c|] eqn:Hc; [|done].
    apply guard_err_Ok in Hall. rewrite negb_false_iff, bool_decide_eq_true in Hall. apply dict_by_Some in Hc as [? ?]. eauto.
Qed.

Context `{!DesignRepositoryOps D} `{!DesignRepositoryLaws D}.
Abbreviation resolve := (service_resolve_drift catalog_fingerprint import_catalog validation_text claim_guard).

(** A resolved drift leaves a design and a baseline that agree with the choices: every
    conflict of the blocked plan was settled in an allowed way, the target is still the
    reviewed one, and the reconciliation with these choices has no other conflict.  The
    design then has its merged content under the next revision, the baseline is the live
    schema, and the plan is resolved. *)
Theorem drift_resolved now bt rt owner plan_id workspace request a s s' resolution :
  designs_ok (mg_designs s) ->
  resolve now bt rt owner plan_id workspace request a s = (s', Ok resolution) ->
  exists record submitted catalog r merged,
    let k := (pr_owner_id record, mp_workspace_id (pr_plan record)) in
    let authority := pr_authority record in
    dget (owner, plan_id) (mg_plans s) = Some record /\ choices_complete now (pr_plan record) request submitted /\
    catalog_fingerprint catalog = catalog_fingerprint (pa_live_catalog authority) /\
    reconcile_designs validation_text (pa_baseline_content _ authority) (pa_desired_content _ authority)
      (import_catalog catalog) (catalog_fingerprint catalog) submitted = Ok r /\ rr_merged r = Some merged /\
    (forall c, c ∈ rr_conflicts r -> mcf_id c ∈ dkeys submitted) /\
    design_content (design_of s' k) = merged /\
    design_revision (design_of s' k) = (mp_design_revision (pr_plan record) + 1)%Z /\
    (exists b, baselines_of s' k = (baselines_of s k ++ [b])%list /\ bl_content b = rr_live r) /\
    dget (pr_owner_id record, mp_id (pr_plan record)) (mg_plans s') = Some (with_status PResolved record).
Proof.
  intros Hok Hr. unfold service_resolve_drift in Hr. apply m_bind_inv in Hr as (s1 & record & Hp & Hr).
  assert (s1 = s /\ dget (owner, plan_id) (mg_plans s) = Some record) as [-> Hplan].
  { unfold service_plan, get_plan, m_bind, m_get, m_return, m_raise in Hp.
    destruct (dget (owner, plan_id) (mg_plans s)) as [p|]; cbn in Hp; [|done]. by injection Hp as -> ->. }
  apply m_bind_inv in Hr as (? & submitted & [-> Hs%resolvable_Ok]%m_lift_inv & Hr).
  apply m_bind_inv in Hr as (? & w & Hw & Hr). unfold service_workspace in Hw.
  destruct (workspace (mp_workspace_id (pr_plan record))) as [w'|]; [|done]. injection Hw as <- <-.
  apply m_bind_inv in Hr as (? & catalog & [-> Hcat]%m_lift_inv & Hr).
  apply m_bind_inv in Hr as (? & [merged live] & [-> Hres]%m_lift_inv & Hr).
  unfold target_unchanged in Hcat. result_inv.
  match goal with Hf : negb (bool_decide (catalog_fingerprint _ = _)) = false |- _ =>
    rewrite negb_false_iff, bool_decide_eq_true in Hf; rename Hf into Hfp end.
  unfold resolve_contents in Hres. apply result_bind_Ok in Hres as (r & Hrec%from_reconciliation_Ok & Hres).
  destruct (filter _ (rr_conflicts r)) eqn:Hunres; [|done]. destruct (rr_merged r) as [m|] eqn:Hm; [|done]. injection Hres as -> <-.
  pose proof (reconcile_drift_spec catalog_fingerprint claim_guard now bt rt record (mdq_expected_design_revision request)
    merged (rr_live r) s Hok (reconciled_check _ _ _ _ _ _ _ Hrec Hm)) as [_ Hout].
  destruct (reconcile_drift _ _ _ _ _ _ _ _ _ s) as [s1 [out|e]]; [|done]. injection Hr as -> <-.
  destruct Hout as (Hcontent & Hrev & _ & (b & Hb & Hbc & _) & Hstored).
  exists record, submitted, catalog, r, merged. split_and!; try done; [|by rewrite <-(sc_revision _ _ _ _ Hs)|by exists b].
  intros c Hc. destruct (decide (mcf_id c ∈ dkeys submitted)); [done|]. apply filter_nil_iff in Hunres.
  rewrite Forall_forall in Hunres. by destruct (Hunres c Hc).
Qed.
End theorems.
