(* ===== verification/ReviewExamples.v ===== *)
(** * Reviews of a small schema

    Instances of the theorems of [ReviewTheorems], with the in-memory design repository
    behind the service, and a review that asks PostgreSQL about a table under a name it
    does not have yet. *)

From stdpp Require Import pretty.
From Stdlib Require Import Ascii String.
From S2P Require Import Prelude Json PyString DesignModels DefinitionAnalysis DesignValidation TypeOrder ValidationSpec DeletionImpact DeletionGraph DesignDocument DesignStore DesignStoreInv DesignStoreSpec MigrationModels MigrationStore MigrationTheorems TypeChanges CheckExpressions DesignMerge MergeTheorems DesignDecode Reconcile ReconcileProps SqlText PlanAnalysis MigrationPlanner PlannerProps PlannerTheorems Conversions ConversionProps MigrationReview ReviewTheorems.
Open Scope string_scope.

#[local] Existing Instances domain_pglast sample_sqlglot sample_relations sample_trees sample_sha sample_pglast_trees.
#[local] Instance review_ops : DesignRepositoryOps DesignRepo := design_store_ops no_queries id id false.
#[local] Instance review_laws : DesignRepositoryLaws DesignRepo := design_store_laws no_queries id id false.

(** A catalog is the design it imports as. *)
Abbreviation ReviewRepo := (MigrationRepo DesignRepo SchemiiDesignContent).
Definition content_fingerprint_of (c : SchemiiDesignContent) : string := design_fingerprint c.

Definition sample_workspace : SchemiiWorkspace :=
  {| ws_revision := 1; ws_connection_id := Some "c"; ws_connection_owner_id := None; ws_database := Some "db";
     ws_namespace := Some "public" |}.
Definition sample_connection : connection_view := {| cn_database := "db"; cn_owner_id := None; cn_revision := 4 |}.
Definition sample_answers (catalog : SchemiiDesignContent) (empty : list (string * bool)) : target_answers SchemiiDesignContent :=
  {| ta_connection := Ok sample_connection; ta_catalog := Ok catalog; ta_second_connection := Ok sample_connection;
     ta_emptiness := Ok empty; ta_rebuild_blockers := Ok []; ta_conversion_connection := fun _ => Ok sample_connection;
     ta_conversion := fun _ => Ok None |}.

(** A workspace whose design is [desired], over the baseline [baseline]. *)
Definition review_repo (baseline desired : SchemiiDesignContent) : ReviewRepo :=
  let designs := (DesignStore.replace no_queries id id false 0 "alice" "ws"
    {| drep_expected_design_revision := 0; drep_content := desired; drep_history_group_id := None |} "edit" empty_repo).1 in
  (create_baseline 5 "1"
     {| bv_owner_id := "alice"; bv_workspace_id := "ws"; bv_connection_id := "c"; bv_connection_owner_id := None;
        bv_connection_revision := 4; bv_database := "db"; bv_namespace := "public"; bv_design_revision := 0;
        bv_content := baseline; bv_catalog := baseline; bv_complete := true; bv_issues := []; bv_source := "import";
        bv_expected_predecessor_id := None; bv_source_execution_id := None |}
     (InMemoryMigrationRepository designs)).1.

Definition review_request (allow_destructive : bool) : MigrationPlanCreate :=
  {| mpc_expected_workspace_revision := 1; mpc_expected_design_revision := 1; mpc_expected_catalog_fingerprint := None;
     mpc_allow_destructive := allow_destructive; mpc_column_type_conversions := []; mpc_rebuild_table_ids := None |}.

Abbreviation sample_review catalog s :=
  (service_create_plan content_fingerprint_of imported_as (fun _ => "") open_guard DesignStore.get 10 100 "1" "alice" "ws"
    (Ok sample_workspace) (review_request false) (sample_answers catalog []) s).

Definition plan_of_review (out : ReviewRepo * result service_error MigrationPlan) : MigrationPlan :=
  match out.2 with Ok p => p | Err _ => sample_plan end.

(** The imported schema has other IDs; the design adds a key. *)
Definition keyed_review := sample_review (keyed "a" "b" "c" None) (review_repo bare_people keyed_people).

Lemma keyed_review_Ok : sample_review (keyed "a" "b" "c" None) (review_repo bare_people keyed_people) = (keyed_review.1, Ok (plan_of_review keyed_review)).
Proof. vm_compute. reflexivity. Qed.

Lemma stored_plans_capable_witness :
  mst_sql <$> mp_steps (plan_of_review keyed_review) =
    ["ALTER TABLE " ++ qualified "public" "people" ++ " ADD CONSTRAINT " ++ quote "people_pkey" ++ " PRIMARY KEY (" ++ quote "id" ++ ");"] /\
  mp_blocking_differences (plan_of_review keyed_review) = [] /\ mp_apply_capable (plan_of_review keyed_review) = true.
Proof.
  destruct (stored_plans_capable content_fingerprint_of imported_as (fun _ => "") open_guard DesignStore.get 10 100 "1" "alice" "ws"
    (Ok sample_workspace) (review_request false) (sample_answers (keyed "a" "b" "c" None) [])
    (review_repo bare_people keyed_people) keyed_review.1 (plan_of_review keyed_review) keyed_review_Ok) as [[_ Hcapable] _].
  assert (mp_blocking_differences (plan_of_review keyed_review) = []) as Hb by (vm_compute; reflexivity).
  split; [vm_compute; reflexivity|]. split; [exact Hb|exact (Hcapable Hb)].
Defined.

Lemma reviews_are_current_witness :
  mp_design_revision (plan_of_review keyed_review) = 1%Z /\
  mg_baselines keyed_review.1 = mg_baselines (review_repo bare_people keyed_people).
Proof.
  destruct (reviews_are_current content_fingerprint_of imported_as (fun _ => "") open_guard DesignStore.get 10 100 "1" "alice" "ws"
    (Ok sample_workspace) (review_request false) (sample_answers (keyed "a" "b" "c" None) [])
    (review_repo bare_people keyed_people) keyed_review.1 (plan_of_review keyed_review) keyed_review_Ok)
    as (w & baseline & design & catalog & _ & _ & _ & _ & _ & _ & Hrev & _ & _ & _ & _ & _ & Hb).
  split; [exact Hrev|exact Hb].
Defined.

(** The plan of the key, carried out: PostgreSQL then has the key. *)
Definition keyed_authority : PlanAuthority SchemiiDesignContent :=
  {| pa_baseline_content := bare_people; pa_desired_content := keyed_people; pa_merged_content := keyed_people;
     pa_live_content := bare_people; pa_live_catalog := bare_people; pa_allow_destructive := false; pa_connection_id := "c";
     pa_connection_revision := 4; pa_database := "db"; pa_namespace := "public"; pa_required_empty_tables := [];
     pa_rebuild_table_ids := []; pa_connection_owner_id := Some "alice" |}.

Lemma keyed_people_ok : design_ok keyed_people.
Proof. apply validate_design_content_iff. vm_compute. reflexivity. Qed.

Lemma accepted_results_match_witness :
  accept_result imported_as keyed_authority (keyed "a" "b" "c" (Some "people_pkey")) = Ok keyed_people /\
  same_design keyed_people keyed_people /\
  (exists e, accept_result imported_as keyed_authority (keyed "a" "b" "c" None) = Err e).
Proof.
  assert (accept_result imported_as keyed_authority (keyed "a" "b" "c" (Some "people_pkey")) = Ok keyed_people) as Ha
    by (vm_compute; reflexivity).
  split; [exact Ha|]. split; [|eexists; vm_compute; reflexivity].
  destruct (accepted_results_match imported_as keyed_authority (keyed "a" "b" "c" (Some "people_pkey")) keyed_people
    keyed_people_ok keyed_people_ok Ha) as (_ & _ & Hsame & _). exact Hsame.
Defined.

(** A review of an unchanged workspace. *)
Definition clean_basis : review_basis (Catalog := SchemiiDesignContent) :=
  {| rb_owner_id := "alice"; rb_workspace_id := "ws"; rb_workspace := sample_workspace; rb_connection_id := "c";
     rb_database := "db"; rb_namespace := "public";
     rb_design := {| design_workspace_id := "ws"; design_revision := 1; design_fingerprint_field := "";
                     design_content := keyed_people |};
     rb_baseline := {| bl_id := "mbl_1"; bl_owner_id := "alice"; bl_workspace_id := "ws"; bl_revision := 1;
       bl_predecessor_id := None; bl_connection_id := "c"; bl_connection_revision := 4; bl_database := "db";
       bl_namespace := "public"; bl_design_revision := 1; bl_content := keyed_people; bl_catalog := keyed_people;
       bl_complete := true; bl_issues := []; bl_source := "import"; bl_source_execution_id := None; bl_created_at := 0;
       bl_connection_owner_id := None |};
     rb_catalog := keyed "a" "b" "c" (Some "people_pkey"); rb_connection_revision := 4 |}.

Lemma clean_review_witness :
  exists f, review_target content_fingerprint_of imported_as (fun _ => "") clean_basis (review_request false)
    (sample_answers keyed_people []) = Ok f /\ rf_steps f = [] /\ review_apply_capable (review_request false) f = true.
Proof.
  destruct (clean_review content_fingerprint_of imported_as (fun _ => "") clean_basis (review_request false)
    (sample_answers keyed_people [])) as (f & Hf & _ & Hs & _ & Hc & _).
  - exact keyed_people_ok.
  - exact keyed_people_ok.
  - apply keyed_built. vm_compute. reflexivity.
  - apply (compile_nothing "public" keyed_people keyed_people [] keyed_people_ok keyed_people_ok). vm_compute. reflexivity.
  - intros before after Hb Ha _. apply list_elem_of_singleton in Hb as ->. by apply list_elem_of_singleton in Ha as ->.
  - vm_compute. reflexivity.
  - reflexivity.
  - reflexivity.
  - exists f. split; [exact Hf|]. split; [exact Hs|exact Hc].
Defined.

(** The design dropped the key PostgreSQL still has; the key is pulled back. *)
Definition blocked_review := sample_review (keyed "a" "b" "c" (Some "people_pkey")) (review_repo keyed_people bare_people).
Definition pull_request : MigrationDriftResolutionRequest :=
  {| mdq_expected_design_revision := 1; mdq_review_digest := mp_review_digest (plan_of_review blocked_review);
     mdq_resolutions := (fun c => (mcf_id c, PullLive)) <$> mp_conflicts (plan_of_review blocked_review) |}.
Abbreviation pull_drift := (service_resolve_drift content_fingerprint_of imported_as (fun _ => "") open_guard 20 "2" "1" "alice" "mpl_1"
  (fun _ => Ok sample_workspace) pull_request (sample_answers (keyed "a" "b" "c" (Some "people_pkey")) [])).
Definition pulled := pull_drift blocked_review.1.
Definition dummy_resolution : MigrationDriftResolution :=
  {| mdr_id := ""; mdr_plan_id := ""; mdr_workspace_id := ""; mdr_design_revision := 0; mdr_design_fingerprint := "";
     mdr_baseline_revision := 0; mdr_catalog_fingerprint := ""; mdr_incorporated_external_changes := []; mdr_created_at := 0 |}.
Definition resolution_of (out : ReviewRepo * result service_error MigrationDriftResolution) : MigrationDriftResolution :=
  match out.2 with Ok r => r | Err _ => dummy_resolution end.

Lemma blocked_designs_ok : designs_ok (mg_designs blocked_review.1).
Proof.
  assert (mg_designs blocked_review.1 = mg_designs (review_repo keyed_people bare_people)) as -> by (vm_compute; reflexivity).
  apply replace_spec; [apply empty_repo_inv|vm_compute; reflexivity].
Qed.

Lemma drift_resolved_witness :
  length (mp_conflicts (plan_of_review blocked_review)) = 1 /\
  design_content (design_of pulled.1 ("alice", "ws")) = keyed_people /\
  exists (record : PlanRecord SchemiiDesignContent) submitted, choices_complete 20 (pr_plan record) pull_request submitted.
Proof.
  assert (pull_drift blocked_review.1 = (pulled.1, Ok (resolution_of pulled))) as Hp by (vm_compute; reflexivity).
  split; [vm_compute; reflexivity|]. split; [vm_compute; reflexivity|].
  destruct (drift_resolved content_fingerprint_of imported_as (fun _ => "") open_guard 20 "2" "1" "alice" "mpl_1"
    (fun _ => Ok sample_workspace) pull_request (sample_answers (keyed "a" "b" "c" (Some "people_pkey")) []) blocked_review.1
    pulled.1 (resolution_of pulled)) as (record & submitted & _ & _ & _ & _ & Hc & _).
  - exact blocked_designs_ok.
  - exact Hp.
  - exists record, submitted. exact Hc.
Defined.

(** A review of a design that renames a table and drops one of its columns asks for the
    rows of the table under its new name, which PostgreSQL does not have, so the answer
    is an error of the gateway and the review raises it. *)
Theorem renamed_table_inspected_by_new_name :
  let renamed := with_tables [people "members" [id_column]] in
  (exists differences, column_order_differences "public" people_live renamed = Ok differences /\
     inspected_table_names (tables_requiring_empty_for_required_columns people_live renamed) differences = ["members"]) /\
  tb_name <$> content_tables people_live = ["people"].
Proof. split; [eexists; split; vm_compute; reflexivity|reflexivity]. Qed.

(** A plan cannot hold more than one hundred choices of column order, so a design that
    adds a column to more tables than that is not planned at all. *)
Theorem many_orders_refused now ttl plan_id (basis : review_basis (Catalog := SchemiiDesignContent)) request f :
  100 < length (rv_rebuilds (rf_rebuilds f)) ->
  checked_model plan_valid (review_plan content_fingerprint_of now ttl plan_id basis request f) = Err ModelRaised.
Proof.
  intros Hmany. unfold checked_model, plan_valid. cbn [review_plan mp_column_order_rebuilds].
  rewrite (bool_decide_eq_false_2 (length (rv_rebuilds (rf_rebuilds f)) <= 100)) by lia. by rewrite !andb_false_r.
Qed.
