(* ===== verification/DesignExport.v ===== *)
(** * Exports of a design

    [designs/export.py]: one saved design revision as a PostgreSQL script or as a JSON
    document.  The script creates types in dependency order, then tables, relationships,
    indexes, routines, views and triggers; optionally it drops them first, in reverse.

    Each object contributes its lines; [export_items] keeps them with the ID of the object,
    in the order in which the source extends its list of lines. *)

From stdpp Require Import pretty.
From Stdlib Require Import Ascii String.
From S2P Require Import Prelude Json PyString DesignModels DefinitionAnalysis DesignValidation TypeOrder ValidationSpec DesignDocument MigrationModels CheckExpressions SqlText PlanAnalysis MigrationPlanner PlannerProps PlannerSafety PlannerTheorems.
Open Scope string_scope.
Open Scope result_scope.

Inductive export_format := PostgresqlSql | SchemiiJson.

Record SchemiiDesignExportRequest := {
  exq_expected_design_revision : Z;
  exq_format : export_format;
  exq_include_drop_statements : bool;
}.

Record SchemiiDesignExport := {
  exp_workspace_id : string;
  exp_design_revision : Z;
  exp_file_name : string;
  exp_media_type : string;
  exp_content : string;
  exp_sha256 : string;
}.

Inductive export_error :=
| ExportDesignError (e : design_error)
| ExportLookupError (e : plan_error)
| ExportModelError.

Abbreviation exported A := (result export_error A).

Definition from_design {A} (r : checked A) : exported A := match r with Ok a => Ok a | Err e => Err (ExportDesignError e) end.
Definition from_lookup {A} (r : planned A) : exported A := match r with Ok a => Ok a | Err e => Err (ExportLookupError e) end.

(** ** Statements without a namespace *)

Definition export_table (columns : column_map) (table : DesignTable) : planned (list string) :=
  let! keys := result_map (key_definition columns) (tb_keys table) in
  let definitions := ((column_definition <$> tb_columns table) ++ keys ++ (check_definition <$> tb_checks table))%list in
  Ok ["CREATE TABLE " ++ quote (tb_name table) ++ " ("; py_join ("," ++ newline_text) (append "    " <$> definitions); ");"; ""].

Definition export_relationship (tables : table_map) (columns : column_map) (relationship : DesignRelationship) : planned (list string) :=
  let! source := get_item (rl_source_table_id relationship) tables in
  let! target := get_item (rl_target_table_id relationship) tables in
  let! source_columns := column_list columns (rl_source_column_ids relationship) in
  let! target_columns := column_list columns (rl_target_column_ids relationship) in
  let statement := "ALTER TABLE " ++ quote (tb_name source) ++ " ADD CONSTRAINT " ++ quote (rl_name relationship) ++ " "
      ++ "FOREIGN KEY (" ++ source_columns ++ ") REFERENCES " ++ quote (tb_name target) ++ " (" ++ target_columns ++ ") "
      ++ "ON UPDATE " ++ fk_action_text (rl_on_update relationship) ++ " ON DELETE " ++ fk_action_text (rl_on_delete relationship)
      ++ (if rl_deferrable relationship
          then " DEFERRABLE" ++ (if rl_initially_deferred relationship then " INITIALLY DEFERRED" else "") else "") in
  Ok [statement ++ ";"; ""].

Definition export_index (columns : column_map) (table : DesignTable) (index : DesignIndex) : planned (list string) :=
  let! entries := result_map (quoted_column columns) (ix_column_ids index) in
  let entries := (entries ++ match nonempty_text (ix_expression index) with Some e => [py_strip e] | None => [] end)%list in
  let statement := "CREATE " ++ (if ix_unique index then "UNIQUE " else "") ++ "INDEX " ++ quote (ix_name index)
      ++ " ON " ++ quote (tb_name table) ++ " USING " ++ quote (ix_method index) ++ " (" ++ py_join ", " entries ++ ")" in
  let! included :=
    match ix_include_column_ids index with
    | [] => Ok ""
    | ids => let! names := column_list columns ids in Ok (" INCLUDE (" ++ names ++ ")")
    end in
  Ok [statement ++ included
      ++ match nonempty_text (ix_predicate index) with Some p => " WHERE " ++ py_strip p | None => "" end ++ ";"; ""].

Definition export_statement (definition : string) : list string := [statement_body definition ++ ";"; ""].

Definition export_view (view : DesignView) : list string :=
  let body := statement_body (vw_definition view) in
  let body := match vw_kind view with
              | VMaterialized => body ++ newline_text ++ match vw_populate_on_create view with Some true => "WITH DATA" | _ => "WITH NO DATA" end
              | VView => body
              end in
  ["CREATE " ++ view_kind_words (vw_kind view) ++ " " ++ quote (vw_name view) ++ " AS"; body ++ ";"; ""].

Section export.
Context `{Pglast} `{Sqlglot} `{Sha256}.

(** Every object with the lines it adds. *)
Definition export_items (content : SchemiiDesignContent) : exported (list (string * list string)) :=
  let! types := from_design (design_types_in_dependency_order content) in
  let '(tables, columns) := table_maps content in
  let! table_lines := from_lookup (result_map (fun t => let! lines := export_table columns t in Ok (tb_id t, lines))
    (content_tables content)) in
  let! relationship_lines := from_lookup (result_map (fun r => let! lines := export_relationship tables columns r in Ok (rl_id r, lines))
    (content_relationships content)) in
  let! index_lines := from_lookup (result_map (fun ti => let! lines := export_index columns ti.1 ti.2 in Ok (ix_id ti.2, lines))
    (concat ((fun t => pair t <$> tb_indexes t) <$> content_tables content))) in
  Ok (((fun t => (dt_id t, export_statement (dt_definition t))) <$> types)
      ++ table_lines ++ relationship_lines ++ index_lines
      ++ ((fun f => (fn_id f, export_statement (fn_definition f))) <$> content_functions content)
      ++ ((fun v => (vw_id v, export_view v)) <$> content_views content)
      ++ ((fun t => (tr_id t, export_statement (tr_definition t))) <$> content_triggers content))%list.

(** The statements of [include_drops]. *)
Definition drop_lines (content : SchemiiDesignContent) : exported (list string) :=
  let! types := from_design (design_types_in_dependency_order content) in
  let drop (words name : string) : string := "DROP " ++ words ++ " IF EXISTS " ++ name ++ " CASCADE;" in
  let drop_trigger t := drop "TRIGGER" (quote (tr_name t) ++ " ON " ++ quote (tr_relation_name t)) in
  let drop_routine f := drop (match fn_kind f with RProcedure => "PROCEDURE" | RFunction => "FUNCTION" end)
                          (quote (fn_name f) ++ "(" ++ py_strip (fn_identity_arguments f) ++ ")") in
  let drop_type t := drop (match dt_kind t with TKDomain => "DOMAIN" | TKEnum => "TYPE" end) (quote (dt_name t)) in
  Ok ((drop_trigger <$> reverse (content_triggers content))
      ++ ((fun v => drop (view_kind_words (vw_kind v)) (quote (vw_name v))) <$> reverse (content_views content))
      ++ (drop_routine <$> reverse (content_functions content))
      ++ ((fun t => drop "TABLE" (quote (tb_name t))) <$> reverse (content_tables content))
      ++ (drop_type <$> reverse types)
      ++ (if bool_decide (length (content_types content) + length (content_tables content) + length (content_views content)
                          + length (content_functions content) + length (content_triggers content) = 0)
          then [] else [""]))%list.

Definition export_header (design : SchemiiDesign) : list string :=
  ["-- Generated by Schemii from saved desired state."; "-- Workspace: " ++ design_workspace_id design;
   "-- Design revision: " ++ pretty (design_revision design); "-- Design fingerprint: " ++ design_fingerprint_field design; ""].

(** [_postgresql_sql]. *)
Definition postgresql_sql (design : SchemiiDesign) (include_drops : bool) : exported string :=
  let content := design_content design in
  let! drops := if include_drops then drop_lines content else Ok [] in
  let! items := export_items content in
  Ok (py_rstrip (py_join newline_text (export_header design ++ drops ++ concat items.*2)%list) ++ newline_text).

(** ** JSON documents *)

Fixpoint spaces (n : nat) : string := match n with 0 => "" | S n' => " " ++ spaces n' end.

(** [json.dumps(v, ensure_ascii=False, indent=2, sort_keys=True)], at a depth. *)
Fixpoint json_dumps_indented (depth : nat) (v : json) : string :=
  let inner := newline_text ++ spaces (2 * S depth) in
  let outer := newline_text ++ spaces (2 * depth) in
  match v with
  | JList (_ :: _ as l) => "[" ++ inner ++ py_join ("," ++ inner) (map (json_dumps_indented (S depth)) l) ++ outer ++ "]"
  | JDict (_ :: _ as d) =>
      "{" ++ inner
      ++ py_join ("," ++ inner) (map (fun kv => quoted kv.1 ++ ": " ++ kv.2)
           (merge_sort item_le (map (fun kv => match kv with (k, x) => (k, json_dumps_indented (S depth) x) end) d)))
      ++ outer ++ "}"
  | v => json_dumps v
  end.

Definition export_document (design : SchemiiDesign) : json :=
  JDict [("formatVersion", JInt 1); ("workspaceId", JStr (design_workspace_id design));
         ("designRevision", JInt (design_revision design)); ("fingerprint", JStr (design_fingerprint_field design));
         ("content", authored_content_document true (design_content design))].

(** The limits of the published model. *)
Definition export_valid (e : SchemiiDesignExport) : bool :=
  length_between 1 255 (exp_file_name e) && bool_decide (N.of_nat (py_len (exp_content e)) <= 16777216)%N.

(** [export_design]. *)
Definition export_design (design : SchemiiDesign) (request : SchemiiDesignExportRequest) : exported SchemiiDesignExport :=
  let! (content, extension, media_type) :=
    match exq_format request with
    | SchemiiJson => Ok (json_dumps_indented 0 (export_document design) ++ newline_text, "json", "application/json")
    | PostgresqlSql =>
        let! content := postgresql_sql design (exq_include_drop_statements request) in Ok (content, "sql", "application/sql")
    end in
  let e := {| exp_workspace_id := design_workspace_id design; exp_design_revision := design_revision design;
              exp_file_name := "schemii-" ++ design_workspace_id design ++ "-r" ++ pretty (design_revision design) ++ "." ++ extension;
              exp_media_type := media_type; exp_content := content; exp_sha256 := sha256_hex content |} in
  if export_valid e then Ok e else Err ExportModelError.
End export.

(** ** Scripts are complete *)

Section completeness.
Context `{Pglast} `{Sqlglot} `{Sha256}.

Lemma quoted_columns_total columns ids :
  (forall i, i ∈ ids -> i ∈ dkeys columns) -> exists names, result_map (quoted_column columns) ids = Ok names.
Proof.
  intros Hall. apply result_map_total, Forall_forall. intros i Hi. unfold quoted_column, get_item.
  destruct (proj2 (dget_is_Some i columns) (Hall i Hi)) as [c ->]. eauto.
Qed.

Lemma column_list_total columns ids :
  (forall i, i ∈ ids -> i ∈ dkeys columns) -> exists names, column_list columns ids = Ok names.
Proof. intros Hall. unfold column_list. destruct (quoted_columns_total columns ids Hall) as [names ->]. eauto. Qed.

Section design.
Variable content : SchemiiDesignContent.
Hypothesis Hok : design_ok content.
Abbreviation tables := (table_maps content).1.
Abbreviation columns := (table_maps content).2.

Lemma export_table_total t : t ∈ content_tables content -> exists lines, export_table columns t = Ok lines.
Proof.
  intros Ht. unfold export_table.
  destruct (result_map_total (key_definition columns) (tb_keys t)) as [keys ->]; [|simpl; eauto].
  apply Forall_forall. intros k Hk. unfold key_definition.
  destruct (column_list_total columns (dk_column_ids k)) as [names ->]; [by apply (key_columns_known content Hok t)|simpl; eauto].
Qed.

Lemma export_relationship_total r :
  r ∈ content_relationships content -> exists lines, export_relationship tables columns r = Ok lines.
Proof.
  intros (Hs & Ht & Hsc & Htc)%(relationship_known content Hok). unfold export_relationship, get_item.
  apply dget_is_Some in Hs as [s ->]. apply dget_is_Some in Ht as [t ->]. cbn [result_bind].
  destruct (column_list_total columns _ Hsc) as [? ->], (column_list_total columns _ Htc) as [? ->]. simpl. eauto.
Qed.

Lemma export_index_total t i :
  t ∈ content_tables content -> i ∈ tb_indexes t -> exists lines, export_index columns t i = Ok lines.
Proof.
  intros Ht Hi. pose proof (to_indexes _ (valid_table content Hok t Ht)) as Hall. rewrite Forall_forall in Hall. specialize (Hall _ Hi).
  unfold export_index. destruct (quoted_columns_total columns (ix_column_ids i)) as [? ->].
  { apply (local_known _ t); [done|apply Hall]. }
  cbn [result_bind]. destruct (ix_include_column_ids i) as [|y ids] eqn:Hinc; [simpl; eauto|].
  destruct (column_list_total columns (y :: ids)) as [? ->]; [|simpl; eauto].
  apply (local_known _ t); [done|]. rewrite <-Hinc. apply Hall.
Qed.
End design.

Lemma items_total {A} (f : A -> planned (list string)) (key : A -> string) l :
  (forall x, x ∈ l -> exists lines, f x = Ok lines) ->
  exists items, result_map (fun x => let! lines := f x in Ok (key x, lines)) l = Ok items /\ items.*1 = key <$> l.
Proof.
  intros Hf. induction l as [|x l IH]; [by exists []|].
  destruct (Hf x) as [lines Hx]; [by left|]. destruct IH as (items & Hi & Hk); [intros; apply Hf; by right|].
  exists ((key x, lines) :: items). cbn [result_map]. rewrite Hx. cbn [result_bind]. rewrite Hi. split; [done|].
  rewrite !fmap_cons. by rewrite Hk.
Qed.

Lemma elem_of_indexes (content : SchemiiDesignContent) t i :
  (t, i) ∈ concat ((fun t => pair t <$> tb_indexes t) <$> content_tables content) -> t ∈ content_tables content /\ i ∈ tb_indexes t.
Proof.
  intros Hin. apply list_elem_of_In, in_concat in Hin as (part & Hpart & Hin). apply list_elem_of_In in Hpart. apply list_elem_of_In in Hin.
  apply list_elem_of_fmap in Hpart as (t' & -> & Ht). apply list_elem_of_fmap in Hin as (i' & [= -> ->] & Hi). done.
Qed.

(** An element of an earlier part of a list comes before one of a later part. *)
Lemma lookup_before {A} (pre mid post : list A) x y :
  x ∈ pre -> y ∈ mid -> exists i k, ((pre ++ mid ++ post) !! i = Some x /\ (pre ++ mid ++ post) !! k = Some y /\ i < k)%list.
Proof.
  intros [i Hi]%list_elem_of_lookup [k Hk]%list_elem_of_lookup. pose proof (lookup_lt_Some _ _ _ Hi).
  exists i, (length pre + k). rewrite lookup_app_l by done. split_and!; [done| |lia].
  rewrite lookup_app_r by lia. replace (length pre + k - length pre) with k by lia.
  rewrite lookup_app_l by (by eapply lookup_lt_Some). done.
Qed.

(** The script of a valid design is complete: exporting does not raise, every type,
    table, relationship, index, routine, view and trigger is created exactly once, types
    after the types they are based on, and relationships after the tables they join. *)
Theorem export_complete design include_drops :
  let content := design_content design in
  design_ok content ->
  exists ordered items text,
    postgresql_sql design include_drops = Ok text /\ export_items content = Ok items /\
    ordered ≡ₚ content_types content /\
    (forall i t b, ordered !! i = Some t -> designed_base content t = Some b ->
       exists j u, j < i /\ ordered !! j = Some u /\ dt_name u = b) /\
    items.*1 = ((dt_id <$> ordered) ++ (tb_id <$> content_tables content) ++ (rl_id <$> content_relationships content)
      ++ concat ((fun t => ix_id <$> tb_indexes t) <$> content_tables content) ++ (fn_id <$> content_functions content)
      ++ (vw_id <$> content_views content) ++ (tr_id <$> content_triggers content))%list /\
    (forall r id, r ∈ content_relationships content -> id ∈ [rl_source_table_id r; rl_target_table_id r] ->
       exists i k, items.*1 !! i = Some id /\ items.*1 !! k = Some (rl_id r) /\ i < k).
Proof.
  intros content Hok. destruct (do_type_order _ Hok) as [Hanalyzed Hacyclic].
  pose proof (type_order_result content (proj1 (proj1 (NoDup_app _ _) (do_names _ Hok))) Hanalyzed) as Horder.
  destruct (design_types_in_dependency_order content) as [ordered|e] eqn:Hordered; [|destruct Horder as (n & _ & Hn); by destruct (Hacyclic n)].
  destruct Horder as (Hperm & Hbase & _).
  destruct (items_total (export_table (table_maps content).2) tb_id (content_tables content)) as (tl & Htl & Htk).
  { apply export_table_total, Hok. }
  destruct (items_total (export_relationship (table_maps content).1 (table_maps content).2) rl_id (content_relationships content))
    as (rl & Hrl & Hrk). { apply export_relationship_total, Hok. }
  destruct (items_total (fun ti => export_index (table_maps content).2 ti.1 ti.2) (fun ti => ix_id ti.2)
    (concat ((fun t => pair t <$> tb_indexes t) <$> content_tables content))) as (il & Hil & Hik).
  { intros [t i] [Ht Hi]%elem_of_indexes. by apply export_index_total. }
  assert (exists items, export_items content = Ok items /\ items.*1 = ((dt_id <$> ordered) ++ (tb_id <$> content_tables content)
    ++ (rl_id <$> content_relationships content) ++ concat ((fun t => ix_id <$> tb_indexes t) <$> content_tables content)
    ++ (fn_id <$> content_functions content) ++ (vw_id <$> content_views content) ++ (tr_id <$> content_triggers content))%list)
    as (items & Hitems & Hids).
  { unfold export_items. rewrite Hordered, (surjective_pairing (table_maps content)). cbn [from_design result_bind].
    rewrite Htl. cbn [from_lookup result_bind]. rewrite Hrl. cbn [from_lookup result_bind]. rewrite Hil. cbn [from_lookup result_bind].
    eexists. split; [reflexivity|]. rewrite !fmap_app, Htk, Hrk, Hik. rewrite <-!list_fmap_compose. do 3 f_equal.
    rewrite fmap_concat, <-list_fmap_compose. f_equal. f_equal. apply list_fmap_ext. intros _ t _. simpl. by rewrite <-list_fmap_compose. }
  assert (exists text, postgresql_sql design include_drops = Ok text) as [text Htext].
  { unfold postgresql_sql, drop_lines. fold content. rewrite Hordered, Hitems. by destruct include_drops; eexists. }
  exists ordered, items, text. split_and!; try done. intros r id Hr Hid. rewrite Hids.
  rewrite app_assoc. apply lookup_before; [|by apply list_elem_of_fmap_2].
  destruct (relationship_known content Hok r Hr) as (Hs & Ht & _).
  change (table_maps content).1 with (dict_by tb_id (content_tables content)) in Hs, Ht. rewrite dkeys_dict_by in Hs, Ht.
  apply elem_of_app. right. apply elem_of_cons in Hid as [->|Hid]; [exact Hs|].
  apply list_elem_of_singleton in Hid as ->. exact Ht.
Qed.
End completeness.

(** ** A small export *)

#[local] Existing Instances domain_pglast sample_sqlglot.
#[local] Instance export_sha : Sha256 := {| sha256_hex := fun s => s |}.

Definition export_sample : SchemiiDesign :=
  {| design_workspace_id := "ws"; design_revision := 2; design_fingerprint_field := "f";
     design_content := {| content_types := [domain_type "d1" "amount" "amount:money"; domain_type "d2" "money" "money:numeric"];
       content_tables := content_tables people_live;
       content_relationships := []; content_functions := []; content_views := []; content_triggers := [] |} |}.

Definition exported_lines : list string :=
  ["-- Generated by Schemii from saved desired state."; "-- Workspace: ws"; "-- Design revision: 2"; "-- Design fingerprint: f"; "";
   "money:numeric;"; ""; "amount:money;"; ""; "CREATE TABLE " ++ quote "people" ++ " (";
   "    " ++ quote "id" ++ " integer NOT NULL,"; "    " ++ quote "email" ++ " text,";
   "    CONSTRAINT " ++ quote "people_pkey" ++ " PRIMARY KEY (" ++ quote "id" ++ ")"; ");"; ""].

Lemma export_complete_witness :
  postgresql_sql export_sample false = Ok (py_join newline_text exported_lines) /\
  exists ordered items text, postgresql_sql export_sample true = Ok text /\ export_items (design_content export_sample) = Ok items /\
    ordered ≡ₚ content_types (design_content export_sample).
Proof.
  split; [vm_compute; reflexivity|].
  destruct (export_complete export_sample true) as (ordered & items & text & Ht & Hi & Hp & _).
  - apply validate_design_content_iff. vm_compute. reflexivity.
  - exists ordered, items, text. split; [exact Ht|]. split; [exact Hi|exact Hp].
Defined.
