(* ===== verification/SchemaSource.v ===== *)
(** * Definitions of a catalog

    [common/postgres/schema_source.py]: what a design can hold of the CHECK constraints,
    indexes, routines and triggers whose definitions PostgreSQL prints.

    - The texts pglast and sqlglot give are those of the classes [Pglast], [SqlglotTrees]
      and [SchemaRendering]: [columns_of] lists the [exp.Column] nodes of a tree in the
      order of [find_all]; [routine_as] and [trigger_as] are the text [RawStream] gives for
      the parsed statement of a definition after its name, or its function's name, was
      replaced and the schema of a trigger's relation removed.
    - [None] in place of a list is the empty list: the code only iterates over both. *)

From Stdlib Require Import Ascii String.
From S2P Require Import Prelude Json PyString DesignModels DefinitionAnalysis CheckExpressions.
Open Scope string_scope.
Open Scope result_scope.

Class SchemaRendering := {
  columns_of : sql_tree -> list sql_tree;
  routine_as : string -> list string -> string;
  trigger_as : string -> list string -> string;
}.

(** [SchemaSourceError] with its message. *)
Abbreviation sourced := (result string).

(** [IndexSource]. *)
Record IndexSource := {
  xs_name : string;
  xs_table : string;
  xs_method : string;
  xs_unique : bool;
  xs_columns : list string;
  xs_included_columns : list string;
  xs_expression : option string;
  xs_predicate : option string;
}.

(** [not text]. *)
Definition falsy (text : option string) : bool :=
  match text with Some s => bool_decide (s = "") | None => true end.

Definition text_or (fallback : string) (text : option string) : string :=
  match text with Some s => if bool_decide (s = "") then fallback else s | None => fallback end.

Section source.
Context `{Pglast} `{SqlglotTrees} `{SchemaRendering}.

(** The names of a list that are available, once each, in the order of first use. *)
Definition first_uses (available : list string) (names : list string) : list string :=
  foldl (fun found name => if bool_decide (name ∈ available) && negb (bool_decide (name ∈ found))
                           then (found ++ [name])%list else found) [] names.

Definition expression_column_names (expression : string) (available : list string) : sourced (list string) :=
  match parse_one ("SELECT " ++ expression) with
  | None => Err "The PostgreSQL expression could not be parsed"
  | Some statement => Ok (first_uses available (node_name <$> columns_of statement))
  end.

(** An [IndexError] of an empty list of statements is handled like a parse error. *)
Definition check_expression (definition : string) : sourced string :=
  match parse_sql ("ALTER TABLE schemii_import ADD CONSTRAINT schemii_import " ++ definition) with
  | None | Some [] => Err "The PostgreSQL check constraint could not be parsed"
  | Some (AlterTableStmt [Some constraint] :: _) =>
      if bool_decide (cn_contype constraint = CONSTR_CHECK) then
        match cn_raw_expr constraint with
        | Some raw => Ok (py_strip (raw_stream raw))
        | None => Err "The PostgreSQL definition is not a CHECK constraint"
        end
      else Err "The PostgreSQL definition is not a CHECK constraint"
  | Some (AlterTableStmt [None] :: _) => Err "The PostgreSQL definition is not a CHECK constraint"
  | Some (_ :: _) => Err "The PostgreSQL check constraint is not supported"
  end.

(** One index parameter that is a plain column. *)
Definition simple_parameter (parameter : pg_index_elem) : bool :=
  negb (falsy (ie_name parameter)) && negb (bool_decide (is_Some (ie_expr parameter)))
  && bool_decide (ie_collation parameter = []) && bool_decide (ie_opclass parameter = [])
  && bool_decide (length (ie_opclassopts parameter) = 0)
  && bool_decide (ie_ordering parameter = SORTBY_DEFAULT)
  && bool_decide (ie_nulls_ordering parameter = SORTBY_NULLS_DEFAULT).

(** The part of [index_source] after the checks of the statement. *)
Definition index_contract (name : string) (statement : pg_index) : sourced IndexSource :=
  let parameters := is_indexParams statement in
  let simple := forallb simple_parameter parameters in
  guard_err (existsb falsy (ie_name <$> is_indexIncludingParams statement)) "INCLUDE index entries must be columns" ;;;
  Ok {| xs_name := name; xs_table := is_relname statement; xs_method := text_or "btree" (is_accessMethod statement);
        xs_unique := is_unique statement;
        xs_columns := if simple then omap ie_name parameters else [];
        xs_included_columns := omap ie_name (is_indexIncludingParams statement);
        xs_expression := if simple then None
                         else Some (py_join ", " ((fun parameter => py_strip (raw_stream (ie_node parameter))) <$> parameters));
        xs_predicate := (fun node => py_strip (raw_stream node)) <$> is_whereClause statement |}.

Definition index_source (definition : string) : sourced IndexSource :=
  match parse_sql definition with
  | None => Err "The PostgreSQL index definition could not be parsed"
  | Some [IndexStmt statement] =>
      guard_err (falsy (is_idxname statement) || bool_decide (is_relname statement = ""))
        "The PostgreSQL index identity could not be derived" ;;;
      guard_err (negb (bool_decide (length (is_options statement) = 0)))
        "Index storage parameters are not represented by the design index model" ;;;
      guard_err (negb (falsy (is_tableSpace statement))) "Index tablespaces are not represented by the design index model" ;;;
      guard_err (is_nulls_not_distinct statement) "NULLS NOT DISTINCT is not represented by the design index model" ;;;
      index_contract (text_or "" (is_idxname statement)) statement
  | Some _ => Err "The PostgreSQL definition is not one CREATE INDEX statement"
  end.

(** A name without the imported namespace. *)
Definition local_name (namespace : string) (names : list string) : list string :=
  match names with
  | [schema; name] => if bool_decide (schema = namespace) then [name] else names
  | _ => names
  end.

Definition target_independent_routine (definition namespace : string) : sourced string :=
  match parse_sql definition with
  | None => Err "The PostgreSQL routine definition could not be parsed"
  | Some [CreateFunctionStmt statement] =>
      let names := local_name namespace (cf_funcname statement) in
      guard_err (negb (bool_decide (length names = 1))) "The routine belongs to a different namespace" ;;;
      Ok (py_strip (routine_as definition names))
  | Some _ => Err "The PostgreSQL routine definition is not supported"
  end.

Definition target_independent_trigger (definition namespace : string) : sourced string :=
  match parse_sql definition with
  | None => Err "The PostgreSQL trigger definition could not be parsed"
  | Some [CreateTrigStmt statement] =>
      guard_err (negb (bool_decide (ct_schemaname statement ∈ [None; Some namespace])))
        "The trigger belongs to a different namespace" ;;;
      Ok (py_strip (trigger_as definition (local_name namespace (ct_funcname statement))))
  | Some _ => Err "The PostgreSQL trigger definition is not supported"
  end.
End source.
