(* ===== verification/CatalogModels.v ===== *)
(** * Catalogs

    The strict models of [common/postgres/models.py]: what a snapshot of a PostgreSQL
    namespace holds, the test of each model's fields, the document of a catalog and the
    fingerprint derived from it.

    - Primary keys and unique constraints have the same fields, as have views and
      materialized views apart from [populated]: one record each.
    - Times are integers; the offset of [captured_at] is not modelled. *)

From stdpp Require Import pretty.
From Stdlib Require Import Ascii String.
From S2P Require Import Prelude Json PyString DesignModels DefinitionAnalysis DesignValidation DesignDocument.
Open Scope string_scope.

Definition MAX_CATALOG_TEXT_BYTES : N := 1024 * 1024.

Definition validate_identifier (value : string) : bool :=
  negb (str_contains nul_text value) && bool_decide (String.length value <= 63).
Definition validate_catalog_text (value : string) : bool :=
  negb (str_contains nul_text value) && bool_decide (N.of_nat (String.length value) <= MAX_CATALOG_TEXT_BYTES)%N.

Definition PostgresIdentifier (value : string) : bool := negb (bool_decide (value = "")) && validate_identifier value.
Definition CatalogText (value : string) : bool := validate_catalog_text value.

(** ** Literals *)

Inductive generated_kind := GStored | GVirtual.
Inductive trigger_enabled := EnabledOrigin | EnabledDisabled | EnabledReplica | EnabledAlways.
Inductive match_kind := MatchFull | MatchPartial | MatchSimple.
Inductive table_kind := PlainTable | PartitionedTable.

#[export] Instance generated_kind_eq_dec : EqDecision generated_kind. Proof. solve_decision. Defined.
#[export] Instance trigger_enabled_eq_dec : EqDecision trigger_enabled. Proof. solve_decision. Defined.
#[export] Instance match_kind_eq_dec : EqDecision match_kind. Proof. solve_decision. Defined.
#[export] Instance table_kind_eq_dec : EqDecision table_kind. Proof. solve_decision. Defined.

Definition generated_text (g : generated_kind) : string := match g with GStored => "stored" | GVirtual => "virtual" end.
Definition enabled_text (e : trigger_enabled) : string :=
  match e with EnabledOrigin => "origin" | EnabledDisabled => "disabled" | EnabledReplica => "replica" | EnabledAlways => "always" end.
Definition match_text (m : match_kind) : string :=
  match m with MatchFull => "FULL" | MatchPartial => "PARTIAL" | MatchSimple => "SIMPLE" end.
Definition table_kind_text (k : table_kind) : string :=
  match k with PlainTable => "table" | PartitionedTable => "partitioned_table" end.

(** ** Models *)

Record PostgresColumn := {
  pc_name : string;
  pc_ordinal : Z;
  pc_data_type : string;
  pc_nullable : bool;
  pc_default_expression : option string;
  pc_identity : option identity_kind;
  pc_generated : option generated_kind;
  pc_collation_schema : option string;
  pc_collation_name : option string;
}.

(** [PostgresPrimaryKey] and [PostgresUniqueConstraint]. *)
Record PostgresKey := {
  pk_name : string;
  pk_table : string;
  pk_columns : list string;
  pk_definition : string;
  pk_validated : bool;
  pk_deferrable : bool;
  pk_initially_deferred : bool;
}.

(** [PostgresCheckConstraint] and [PostgresNotNullConstraint]. *)
Record PostgresCheck := {
  pq_name : string;
  pq_table : string;
  pq_columns : list string;
  pq_definition : string;
  pq_validated : bool;
}.

Record PostgresIndex := {
  px_name : string;
  px_table : string;
  px_definition : string;
  px_method : string;
  px_unique : bool;
  px_valid : bool;
  px_predicate : option string;
}.

Record PostgresTrigger := {
  pt_name : string;
  pt_table : string;
  pt_definition : string;
  pt_enabled : trigger_enabled;
}.

Record PostgresForeignKeyRelationship := {
  pr_name : string;
  pr_source_namespace : string;
  pr_source_table : string;
  pr_source_columns : list string;
  pr_target_namespace : string;
  pr_target_table : string;
  pr_target_columns : list string;
  pr_definition : string;
  pr_on_update : fk_action;
  pr_on_delete : fk_action;
  pr_match_type : match_kind;
  pr_validated : bool;
  pr_deferrable : bool;
  pr_initially_deferred : bool;
}.

Record PostgresFunction := {
  pf_namespace : string;
  pf_name : string;
  pf_kind : routine_kind;
  pf_identity_arguments : string;
  pf_arguments : string;
  pf_return_type : option string;
  pf_language : string;
  pf_definition : string;
}.

Record PostgresType := {
  py_namespace : string;
  py_name : string;
  py_kind : type_kind;
  py_definition : string;
}.

(** [PostgresView] has no [populated]; [PostgresMaterializedView] has. *)
Record PostgresView := {
  pv_namespace : string;
  pv_name : string;
  pv_columns : list PostgresColumn;
  pv_query_definition : string;
  pv_populated : option bool;
}.

Record PostgresTable := {
  pb_namespace : string;
  pb_name : string;
  pb_kind : table_kind;
  pb_is_partition : bool;
  pb_partition_key : option string;
  pb_columns : list PostgresColumn;
  pb_primary_key : option PostgresKey;
  pb_unique_constraints : list PostgresKey;
  pb_checks : list PostgresCheck;
  pb_not_null_constraints : list PostgresCheck;
  pb_exclusion_constraints : list PostgresKey;
  pb_indexes : list PostgresIndex;
  pb_triggers : list PostgresTrigger;
}.

(** [_PostgresCatalogContent]. *)
Record PostgresCatalogContent := {
  pg_database : string;
  pg_namespace : string;
  pg_server_version : string;
  pg_server_version_num : Z;
  pg_server_timezone : string;
  pg_types : list PostgresType;
  pg_tables : list PostgresTable;
  pg_relationships : list PostgresForeignKeyRelationship;
  pg_functions : list PostgresFunction;
  pg_views : list PostgresView;
  pg_materialized_views : list PostgresView;
}.

Record PostgresCatalog := {
  pg_content : PostgresCatalogContent;
  pg_captured_at : Z;
  pg_fingerprint : string;
}.

(** ** Field constraints *)

Definition names_check (lo hi : N) (names : list string) : bool := list_check PostgresIdentifier lo hi names.

Definition PostgresColumn_check (c : PostgresColumn) : bool :=
  PostgresIdentifier (pc_name c) && bool_decide (1 <= pc_ordinal c <= 1600)%Z && CatalogText (pc_data_type c)
  && opt_check CatalogText (pc_default_expression c) && opt_check PostgresIdentifier (pc_collation_schema c)
  && opt_check PostgresIdentifier (pc_collation_name c)
  && Bool.eqb (bool_decide (pc_collation_schema c = None)) (bool_decide (pc_collation_name c = None)).

Definition PostgresKey_check (lo : N) (k : PostgresKey) : bool :=
  PostgresIdentifier (pk_name k) && PostgresIdentifier (pk_table k) && names_check lo 1600 (pk_columns k)
  && CatalogText (pk_definition k).

Definition PostgresCheck_check (lo hi : N) (c : PostgresCheck) : bool :=
  PostgresIdentifier (pq_name c) && PostgresIdentifier (pq_table c) && names_check lo hi (pq_columns c)
  && CatalogText (pq_definition c).

Definition PostgresIndex_check (i : PostgresIndex) : bool :=
  PostgresIdentifier (px_name i) && PostgresIdentifier (px_table i) && CatalogText (px_definition i)
  && PostgresIdentifier (px_method i) && opt_check CatalogText (px_predicate i).

Definition PostgresTrigger_check (t : PostgresTrigger) : bool :=
  PostgresIdentifier (pt_name t) && PostgresIdentifier (pt_table t) && CatalogText (pt_definition t).

Definition PostgresForeignKeyRelationship_check (r : PostgresForeignKeyRelationship) : bool :=
  PostgresIdentifier (pr_name r) && PostgresIdentifier (pr_source_namespace r) && PostgresIdentifier (pr_source_table r)
  && names_check 1 1600 (pr_source_columns r) && PostgresIdentifier (pr_target_namespace r)
  && PostgresIdentifier (pr_target_table r) && names_check 1 1600 (pr_target_columns r) && CatalogText (pr_definition r)
  && bool_decide (length (pr_source_columns r) = length (pr_target_columns r)).

Definition PostgresFunction_check (f : PostgresFunction) : bool :=
  PostgresIdentifier (pf_namespace f) && PostgresIdentifier (pf_name f) && CatalogText (pf_identity_arguments f)
  && CatalogText (pf_arguments f) && opt_check CatalogText (pf_return_type f) && PostgresIdentifier (pf_language f)
  && CatalogText (pf_definition f).

Definition PostgresType_check (t : PostgresType) : bool :=
  PostgresIdentifier (py_namespace t) && PostgresIdentifier (py_name t) && CatalogText (py_definition t).

Definition PostgresView_check (materialized : bool) (v : PostgresView) : bool :=
  PostgresIdentifier (pv_namespace v) && PostgresIdentifier (pv_name v) && forallb PostgresColumn_check (pv_columns v)
  && CatalogText (pv_query_definition v) && Bool.eqb (bool_decide (is_Some (pv_populated v))) materialized.

Definition PostgresTable_check (t : PostgresTable) : bool :=
  PostgresIdentifier (pb_namespace t) && PostgresIdentifier (pb_name t) && opt_check CatalogText (pb_partition_key t)
  && forallb PostgresColumn_check (pb_columns t) && opt_check (PostgresKey_check 1) (pb_primary_key t)
  && forallb (PostgresKey_check 1) (pb_unique_constraints t) && forallb (PostgresCheck_check 0 1600) (pb_checks t)
  && forallb (PostgresCheck_check 1 1) (pb_not_null_constraints t)
  && forallb (PostgresKey_check 0) (pb_exclusion_constraints t)
  && forallb PostgresIndex_check (pb_indexes t) && forallb PostgresTrigger_check (pb_triggers t).

Definition PostgresCatalogContent_check (c : PostgresCatalogContent) : bool :=
  PostgresIdentifier (pg_database c) && PostgresIdentifier (pg_namespace c) && CatalogText (pg_server_version c)
  && bool_decide (0 <= pg_server_version_num c)%Z && CatalogText (pg_server_timezone c)
  && forallb PostgresType_check (pg_types c) && forallb PostgresTable_check (pg_tables c)
  && forallb PostgresForeignKeyRelationship_check (pg_relationships c) && forallb PostgresFunction_check (pg_functions c)
  && forallb (PostgresView_check false) (pg_views c) && forallb (PostgresView_check true) (pg_materialized_views c).

(** ** Documents and fingerprints *)

Definition catalog_column_document (c : PostgresColumn) : json := JDict
  [("name", JStr (pc_name c)); ("ordinal", JInt (pc_ordinal c)); ("data_type", JStr (pc_data_type c));
   ("nullable", JBool (pc_nullable c)); ("default_expression", json_opt (pc_default_expression c));
   ("identity", json_opt (identity_text <$> pc_identity c)); ("generated", json_opt (generated_text <$> pc_generated c));
   ("collation_schema", json_opt (pc_collation_schema c)); ("collation_name", json_opt (pc_collation_name c))].

Definition catalog_key_document (k : PostgresKey) : json := JDict
  [("name", JStr (pk_name k)); ("table", JStr (pk_table k)); ("columns", json_strs (pk_columns k));
   ("definition", JStr (pk_definition k)); ("validated", JBool (pk_validated k)); ("deferrable", JBool (pk_deferrable k));
   ("initially_deferred", JBool (pk_initially_deferred k))].

Definition catalog_check_document (c : PostgresCheck) : json := JDict
  [("name", JStr (pq_name c)); ("table", JStr (pq_table c)); ("columns", json_strs (pq_columns c));
   ("definition", JStr (pq_definition c)); ("validated", JBool (pq_validated c))].

Definition catalog_index_document (i : PostgresIndex) : json := JDict
  [("name", JStr (px_name i)); ("table", JStr (px_table i)); ("definition", JStr (px_definition i));
   ("method", JStr (px_method i)); ("unique", JBool (px_unique i)); ("valid", JBool (px_valid i));
   ("predicate", json_opt (px_predicate i))].

Definition catalog_trigger_document (t : PostgresTrigger) : json := JDict
  [("name", JStr (pt_name t)); ("table", JStr (pt_table t)); ("definition", JStr (pt_definition t));
   ("enabled", JStr (enabled_text (pt_enabled t)))].

Definition catalog_relationship_document (r : PostgresForeignKeyRelationship) : json := JDict
  [("name", JStr (pr_name r)); ("source_namespace", JStr (pr_source_namespace r)); ("source_table", JStr (pr_source_table r));
   ("source_columns", json_strs (pr_source_columns r)); ("target_namespace", JStr (pr_target_namespace r));
   ("target_table", JStr (pr_target_table r)); ("target_columns", json_strs (pr_target_columns r));
   ("definition", JStr (pr_definition r)); ("on_update", JStr (fk_action_text (pr_on_update r)));
   ("on_delete", JStr (fk_action_text (pr_on_delete r))); ("match_type", JStr (match_text (pr_match_type r)));
   ("validated", JBool (pr_validated r)); ("deferrable", JBool (pr_deferrable r));
   ("initially_deferred", JBool (pr_initially_deferred r))].

Definition catalog_function_document (f : PostgresFunction) : json := JDict
  [("namespace", JStr (pf_namespace f)); ("name", JStr (pf_name f)); ("kind", JStr (routine_kind_text (pf_kind f)));
   ("identity_arguments", JStr (pf_identity_arguments f)); ("arguments", JStr (pf_arguments f));
   ("return_type", json_opt (pf_return_type f)); ("language", JStr (pf_language f)); ("definition", JStr (pf_definition f))].

Definition catalog_type_document (t : PostgresType) : json := JDict
  [("namespace", JStr (py_namespace t)); ("name", JStr (py_name t)); ("kind", JStr (type_kind_text (py_kind t)));
   ("definition", JStr (py_definition t))].

Definition catalog_view_document (v : PostgresView) : json := JDict
  ([("namespace", JStr (pv_namespace v)); ("name", JStr (pv_name v));
    ("columns", JList (catalog_column_document <$> pv_columns v)); ("query_definition", JStr (pv_query_definition v))]
   ++ match pv_populated v with Some b => [("populated", JBool b)] | None => [] end)%list.

Definition catalog_table_document (t : PostgresTable) : json := JDict
  [("namespace", JStr (pb_namespace t)); ("name", JStr (pb_name t)); ("kind", JStr (table_kind_text (pb_kind t)));
   ("is_partition", JBool (pb_is_partition t)); ("partition_key", json_opt (pb_partition_key t));
   ("columns", JList (catalog_column_document <$> pb_columns t));
   ("primary_key", match pb_primary_key t with Some k => catalog_key_document k | None => JNull end);
   ("unique_constraints", JList (catalog_key_document <$> pb_unique_constraints t));
   ("checks", JList (catalog_check_document <$> pb_checks t));
   ("not_null_constraints", JList (catalog_check_document <$> pb_not_null_constraints t));
   ("exclusion_constraints", JList (catalog_key_document <$> pb_exclusion_constraints t));
   ("indexes", JList (catalog_index_document <$> pb_indexes t)); ("triggers", JList (catalog_trigger_document <$> pb_triggers t))].

(** The payload of [_catalog_digest]. *)
Definition catalog_payload (c : PostgresCatalogContent) : json := JDict
  [("database", JStr (pg_database c)); ("namespace", JStr (pg_namespace c)); ("server_version", JStr (pg_server_version c));
   ("server_version_num", JInt (pg_server_version_num c)); ("server_timezone", JStr (pg_server_timezone c));
   ("types", JList (catalog_type_document <$> pg_types c)); ("tables", JList (catalog_table_document <$> pg_tables c));
   ("relationships", JList (catalog_relationship_document <$> pg_relationships c));
   ("functions", JList (catalog_function_document <$> pg_functions c)); ("views", JList (catalog_view_document <$> pg_views c));
   ("materialized_views", JList (catalog_view_document <$> pg_materialized_views c))].

Section digest.
Context `{Sha256}.

Definition catalog_digest (c : PostgresCatalogContent) : string := sha256_hex (json_dumps (catalog_payload c)).

Definition compute_catalog_fingerprint (c : PostgresCatalog) : string := catalog_digest (pg_content c).

(** [PostgresCatalog]: the fields and [require_matching_fingerprint]. *)
Definition PostgresCatalog_check (c : PostgresCatalog) : bool :=
  PostgresCatalogContent_check (pg_content c) && prefixed_hex "" 64 (pg_fingerprint c)
  && bool_decide (pg_fingerprint c = catalog_digest (pg_content c)).

(** [None] when Pydantic refuses a field. *)
Definition build_postgres_catalog (content : PostgresCatalogContent) (captured_at : Z) : option PostgresCatalog :=
  if PostgresCatalogContent_check content then
    let catalog := {| pg_content := content; pg_captured_at := captured_at; pg_fingerprint := catalog_digest content |} in
    if PostgresCatalog_check catalog then Some catalog else None
  else None.
End digest.
