(* ===== verification/CatalogImport.v ===== *)
(** * Importing a catalog

    [designs/importer.py]: a catalog becomes a design, with an issue for everything the
    design does not hold.

    - Issues are written in the order the code appends them: [importing] is the result of
      a step with the issues it wrote.  An issue outside the limits of its model raises, as
      does every model built outside a [try].
    - [validation_text] is the text of the exception Pydantic raises for a model and the
      fields given to it.
    - [py_repr] is [repr] of a text without unprintable characters outside ASCII; the text
      of a [KeyError] is the [repr] of its key.
    - [ceil_sqrt] is [math.ceil(math.sqrt(n))], which is exact on the numbers of objects a
      design can have. *)

From stdpp Require Import pretty.
From Stdlib Require Import Ascii String Floats.SpecFloat.
From S2P Require Import Prelude Json PyString DesignModels DefinitionAnalysis DesignValidation DeletionImpact DesignDocument DesignDecode CheckExpressions Reconcile SchemaSource CatalogModels.
Open Scope string_scope.

(** ** Python *)

Definition repr_char (quote_mark c : ascii) : string :=
  if bool_decide (c = quote_mark) || bool_decide (c = "\"%char) then String "\" (String c "")
  else if bool_decide (byte_of c = 10)%N then "\n"
  else if bool_decide (byte_of c = 13)%N then "\r"
  else if bool_decide (byte_of c = 9)%N then "\t"
  else if bool_decide (byte_of c < 32)%N || bool_decide (byte_of c = 127)%N
  then String "\" (String "x" (String (hex_char (byte_of c / 16)) (String (hex_char (byte_of c mod 16)) "")))
  else String c "".

Fixpoint repr_body (quote_mark : ascii) (s : string) : string :=
  match s with EmptyString => "" | String c s' => repr_char quote_mark c ++ repr_body quote_mark s' end.

Definition py_repr (s : string) : string :=
  let mark := if str_contains "'" s && negb (str_contains quote_text s) then quote_char else "'"%char in
  String mark (repr_body mark s ++ String mark "").

(** [str(KeyError((table, column)))]. *)
Definition missing_column_text (table column : string) : string := "(" ++ py_repr table ++ ", " ++ py_repr column ++ ")".

Definition ceil_sqrt (n : nat) : nat := let root := Nat.sqrt n in if bool_decide (root * root = n) then root else root + 1.

(** [float(z)]. *)
Definition float_of (z : Z) : spec_float := binary_normalize 53 1024 z 0 false.

(** ** Issues *)

Inductive import_error :=
| ImportModelRefused
| ImportColumnMissing (table column : string)
| ImportDesignRefused (e : design_error).

Definition importing (A : Type) : Type := result import_error (A * list ImportIssue).

Definition i_return {A} (a : A) : importing A := Ok (a, []).
Definition i_bind {A B} (m : importing A) (k : A -> importing B) : importing B :=
  match m with
  | Ok (a, issues) => match k a with Ok (b, issues') => Ok (b, (issues ++ issues')%list) | Err e => Err e end
  | Err e => Err e
  end.

Declare Scope import_scope.
Notation "'let%' x ':=' m 'in' k" := (i_bind m (fun x => k)) 
  (at level 10, x pattern, m at level 100, k at level 200) : import_scope.
Notation "m ';;%' k" := (i_bind m (fun _ : unit => k)) (at level 199, right associativity) : import_scope.
Open Scope import_scope.

Definition issue_valid (i : ImportIssue) : bool :=
  length_between 1 64 (ii_category i) && length_between 1 255 (ii_object_name i) && length_between 1 1024 (ii_reason i).

(** [_issue]. *)
Definition issue (category object_name reason : string) : importing unit :=
  let i := {| ii_category := category; ii_object_name := object_name; ii_reason := reason |} in
  if issue_valid i then Ok (tt, [i]) else Err ImportModelRefused.

Definition issue_when (condition : bool) (category object_name reason : string) : importing unit :=
  if condition then issue category object_name reason else i_return tt.

(** A model built outside a [try]. *)
Definition build {A} (check : A -> bool) (a : A) : importing A := if check a then i_return a else Err ImportModelRefused.

Fixpoint i_each {A} (f : A -> importing unit) (l : list A) : importing unit :=
  match l with [] => i_return tt | x :: rest => f x ;;% i_each f rest end.

(** A loop that collects what each item gives, if anything. *)
Fixpoint i_collect {A B} (f : A -> importing (option B)) (l : list A) : importing (list B) :=
  match l with
  | [] => i_return []
  | x :: rest =>
      let% item := f x in
      let% items := i_collect f rest in
      i_return (match item with Some b => b :: items | None => items end)
  end.

Record WorkspaceImportSummary := {
  wis_catalog_fingerprint : string;
  wis_catalog_captured_at : Z;
  wis_complete : bool;
  wis_imported_objects : list (string * nat);
  wis_issues : list ImportIssue;
}.

(** [ImportedDesign]. *)
Record ImportResult := {
  ir_content : SchemiiDesignContent;
  ir_layout : SchemiiDesignLayoutContent;
  ir_summary : WorkspaceImportSummary;
}.

(** What reconciliation uses of an import. *)
Definition imported_design (r : ImportResult) : ImportedDesign :=
  {| imp_content := ir_content r; imp_issues := wis_issues (ir_summary r); imp_complete := wis_complete (ir_summary r) |}.

Definition ordinal_le (a b : PostgresColumn) : Prop := (pc_ordinal a <= pc_ordinal b)%Z.
#[export] Instance ordinal_le_dec : RelDecision ordinal_le.
Proof. intros a b. unfold ordinal_le. apply _. Defined.

Abbreviation column_dict := (list ((string * string) * string)).

Definition truthy (text : option string) : option string :=
  match text with Some s => if bool_decide (s = "") then None else Some s | None => None end.

Section import.
Context `{Pglast} `{Sqlglot} `{SqlglotTrees} `{SchemaRendering} `{Sha256}.
Variable validation_text : string -> json -> string.
Variable catalog : PostgresCatalog.

Abbreviation namespace := (pg_namespace (pg_content catalog)).

(** [_semantic_id]. *)
Definition semantic_id (prefix : string) (parts : list string) : string :=
  prefix ++ "_" ++ String.substring 0 32 (sha256_hex (py_join nul_text (pg_fingerprint catalog :: prefix :: parts))).

(** [_ordered_expression_column_names]. *)
Definition ordered_expression_column_names (expression : string) (columns : list PostgresColumn) : sourced (list string) :=
  match expression_column_names expression (pc_name <$> columns) with
  | Ok referenced => Ok (filter (fun name => name ∈ referenced) (pc_name <$> merge_sort ordinal_le columns))
  | Err message => Err message
  end.

(** ** Types *)

Definition import_type (source : PostgresType) : importing (option DesignType) :=
  let fields := JDict [("id", JStr (semantic_id "type" [type_kind_text (py_kind source); py_name source]));
                       ("definition", JStr (py_definition source))] in
  match decode_type fields with
  | Some t => i_return (Some t)
  | None => issue "type" (py_name source) (validation_text "DesignType" fields) ;;% i_return None
  end.

(** ** Tables *)

Definition object_name_of (t : PostgresTable) : string := pb_namespace t ++ "." ++ pb_name t.
Definition column_id (t : PostgresTable) (name : string) : string := semantic_id "column" [pb_name t; name].

(** The expression of a generated column and the columns it uses. *)
Definition import_generated (t : PostgresTable) (source : PostgresColumn) : importing (option string * list string) :=
  let generated_expression := match pc_generated source with Some _ => pc_default_expression source | None => None end in
  match truthy generated_expression with
  | None => i_return (generated_expression, [])
  | Some expression =>
      match ordered_expression_column_names expression (pb_columns t) with
      | Ok names => i_return (generated_expression, column_id t <$> names)
      | Err message => issue "column" (object_name_of t ++ "." ++ pc_name source) message ;;% i_return (None, [])
      end
  end.

Definition unusual_collation (source : PostgresColumn) : bool :=
  negb (bool_decide (pc_collation_name source ∈ [None; Some "default"]))
  || negb (bool_decide (pc_collation_schema source ∈ [None; Some "pg_catalog"])).

Definition import_column (t : PostgresTable) (source : PostgresColumn) : importing DesignColumn :=
  let% (generated_expression, sources) := import_generated t source in
  issue_when (unusual_collation source) "column" (object_name_of t ++ "." ++ pc_name source)
    "Non-default column collation is not represented by the desired-design model" ;;%
  build DesignColumn_check
    {| dc_id := column_id t (pc_name source); dc_name := pc_name source; dc_data_type := pc_data_type source;
       dc_nullable := pc_nullable source;
       dc_default_expression := match pc_generated source, pc_identity source with
                                | None, None => pc_default_expression source
                                | _, _ => None
                                end;
       dc_identity := pc_identity source; dc_generated_expression := generated_expression;
       dc_generated_source_column_ids := sources |}.

(** [column_ids\[(table, name)\] for name in names]; the first missing column otherwise. *)
Fixpoint columns_at (ids : column_dict) (table : string) (names : list string) : result string (list string) :=
  match names with
  | [] => Ok []
  | name :: rest =>
      match dget (table, name) ids with
      | None => Err name
      | Some id => match columns_at ids table rest with Ok others => Ok (id :: others) | Err e => Err e end
      end
  end.

(** The same outside a [try], and where the exception becomes an issue. *)
Definition columns_or_raise (ids : column_dict) (table : string) (names : list string) : importing (list string) :=
  match columns_at ids table names with Ok found => i_return found | Err name => Err (ImportColumnMissing table name) end.
Definition columns_or_reason (ids : column_dict) (table : string) (names : list string) : result string (list string) :=
  match columns_at ids table names with Ok found => Ok found | Err name => Err (missing_column_text table name) end.

Definition import_key (ids : column_dict) (t : PostgresTable) (source : key_kind * PostgresKey) : importing (option DesignKeyConstraint) :=
  let '(kind, key) := source in
  let% found := columns_or_raise ids (pb_name t) (pk_columns key) in
  let% built := build DesignKeyConstraint_check
    {| dk_id := semantic_id "key" [pb_name t; pk_name key]; dk_name := pk_name key; dk_kind := kind; dk_column_ids := found |} in
  issue_when (pk_deferrable key || pk_initially_deferred key) "constraint" (object_name_of t ++ "." ++ pk_name key)
    "Key deferrability is not represented by the desired-design model" ;;%
  issue_when (negb (pk_validated key)) "constraint" (object_name_of t ++ "." ++ pk_name key)
    "Unvalidated key state is not represented by the desired-design model" ;;%
  i_return (Some built).

Definition source_keys (t : PostgresTable) : list (key_kind * PostgresKey) :=
  (match pb_primary_key t with Some k => [(KPrimary, k)] | None => [] end ++ (pair KUnique <$> pb_unique_constraints t))%list.

(** The body of the [try] of a CHECK constraint. *)
Definition read_check (ids : column_dict) (t : PostgresTable) (source : PostgresCheck) : result string (string * list string) :=
  match check_expression (pq_definition source) with
  | Err message => Err message
  | Ok expression =>
      match ordered_expression_column_names expression (pb_columns t) with
      | Err message => Err message
      | Ok names => match columns_or_reason ids (pb_name t) names with Ok found => Ok (expression, found) | Err e => Err e end
      end
  end.

Definition import_check (ids : column_dict) (t : PostgresTable) (source : PostgresCheck) : importing (option DesignCheckConstraint) :=
  let name := object_name_of t ++ "." ++ pq_name source in
  match read_check ids t source with
  | Err message => issue "constraint" name (text_or "The check references an unavailable column" (Some message)) ;;% i_return None
  | Ok (expression, dependencies) =>
      let% built := build DesignCheckConstraint_check
        {| ck_id := semantic_id "check" [pb_name t; pq_name source]; ck_name := pq_name source; ck_expression := expression;
           ck_column_ids := dependencies |} in
      issue_when (negb (pq_validated source)) "constraint" name
        "NOT VALID check state is not represented by the desired-design model" ;;%
      i_return (Some built)
  end.

(** The columns an optional expression of an index uses. *)
Definition expression_columns (ids : column_dict) (t : PostgresTable) (expression : option string) : result string (list string) :=
  match truthy expression with
  | None => Ok []
  | Some text =>
      match ordered_expression_column_names text (pb_columns t) with
      | Err message => Err message
      | Ok names => columns_or_reason ids (pb_name t) names
      end
  end.

(** The body of the [try] of an index. *)
Definition read_index (ids : column_dict) (t : PostgresTable) (source : PostgresIndex) : result string DesignIndex :=
  result_bind (index_source (px_definition source)) (fun parsed =>
  result_bind (columns_or_reason ids (pb_name t) (xs_columns parsed)) (fun direct_ids =>
  result_bind (columns_or_reason ids (pb_name t) (xs_included_columns parsed)) (fun include_ids =>
  result_bind (expression_columns ids t (xs_expression parsed)) (fun expression_ids =>
  result_bind (expression_columns ids t (xs_predicate parsed)) (fun predicate_ids =>
  Ok {| ix_id := semantic_id "index" [pb_name t; px_name source]; ix_name := xs_name parsed; ix_method := xs_method parsed;
        ix_column_ids := direct_ids; ix_include_column_ids := include_ids; ix_expression := xs_expression parsed;
        ix_expression_source_column_ids := expression_ids; ix_predicate := xs_predicate parsed;
        ix_predicate_column_ids := predicate_ids; ix_unique := xs_unique parsed |}))))).

Definition import_index (ids : column_dict) (t : PostgresTable) (source : PostgresIndex) : importing (option DesignIndex) :=
  let name := object_name_of t ++ "." ++ px_name source in
  match read_index ids t source with
  | Err message => issue "index" name (text_or "The index references an unavailable column" (Some message)) ;;% i_return None
  | Ok index =>
      let% built := build DesignIndex_check index in
      issue_when (negb (px_valid source)) "index" name
        "Invalid PostgreSQL index state is not represented by the desired-design model" ;;%
      i_return (Some built)
  end.

(** The features of a table a design has no place for. *)
Definition table_issues (t : PostgresTable) : importing unit :=
  issue_when (bool_decide (pb_kind t = PartitionedTable) || pb_is_partition t) "table" (object_name_of t)
    "Partitioning is not represented by the desired-design model" ;;%
  i_each (fun c => issue "constraint" (object_name_of t ++ "." ++ pq_name c)
    "Named NOT NULL constraint identity is represented only as column nullability") (pb_not_null_constraints t) ;;%
  i_each (fun c => issue "constraint" (object_name_of t ++ "." ++ pk_name c)
    "Exclusion constraints are not represented by the desired-design model") (pb_exclusion_constraints t).

(** The columns of a table enter [column_ids]. *)
Definition register_columns (t : PostgresTable) (ids : column_dict) : column_dict :=
  foldl (fun d c => dset (pb_name t, pc_name c) (column_id t (pc_name c)) d) ids (merge_sort ordinal_le (pb_columns t)).

Definition import_table (ids : column_dict) (t : PostgresTable) : importing (option DesignTable) :=
  if bool_decide (length (pb_columns t) = 0) then
    issue "table" (object_name_of t) "Tables without columns are not represented by the desired-design model" ;;% i_return None
  else
    let% columns := i_collect (fun c => let% built := import_column t c in i_return (Some built)) (merge_sort ordinal_le (pb_columns t)) in
    let% keys := i_collect (import_key ids t) (source_keys t) in
    let% checks := i_collect (import_check ids t) (pb_checks t) in
    let% indexes := i_collect (import_index ids t) (pb_indexes t) in
    table_issues t ;;%
    let% built := build DesignTable_check
      {| tb_id := semantic_id "table" [pb_name t]; tb_name := pb_name t; tb_columns := columns; tb_keys := keys;
         tb_checks := checks; tb_indexes := indexes |} in
    i_return (Some built).

Fixpoint import_tables (ids : column_dict) (sources : list PostgresTable) : importing (list DesignTable * column_dict) :=
  match sources with
  | [] => i_return ([], ids)
  | t :: rest =>
      let ids' := register_columns t ids in
      let% table := import_table ids' t in
      let% (tables, last) := import_tables ids' rest in
      i_return (match table with Some built => built :: tables | None => tables end, last)
  end.

(** ** Relationships *)

Definition table_by_name (tables : list DesignTable) : list (string * DesignTable) :=
  foldl (fun d t => dset (tb_name t) t d) [] tables.

(** The columns of both sides; [None] for a [KeyError]. *)
Definition relationship_columns (ids : column_dict) (source target : DesignTable) (r : PostgresForeignKeyRelationship)
    : option (list string * list string) :=
  match columns_at ids (tb_name source) (pr_source_columns r), columns_at ids (tb_name target) (pr_target_columns r) with
  | Ok source_ids, Ok target_ids => Some (source_ids, target_ids)
  | _, _ => None
  end.

Definition import_relationship (ids : column_dict) (tables : list (string * DesignTable)) (r : PostgresForeignKeyRelationship)
    : importing (option DesignRelationship) :=
  let object_name := pr_source_namespace r ++ "." ++ pr_source_table r ++ "." ++ pr_name r in
  match dget (pr_source_table r) tables,
        (if bool_decide (pr_target_namespace r = namespace) then dget (pr_target_table r) tables else None) with
  | Some source, Some target =>
      match relationship_columns ids source target r with
      | None => issue "relationship" object_name "The foreign key references a column omitted from the imported design" ;;% i_return None
      | Some (source_ids, target_ids) =>
          let% built := build DesignRelationship_check
            {| rl_id := semantic_id "relationship" [pr_source_table r; pr_name r]; rl_name := pr_name r;
               rl_source_table_id := tb_id source; rl_source_column_ids := source_ids; rl_target_table_id := tb_id target;
               rl_target_column_ids := target_ids; rl_on_update := pr_on_update r; rl_on_delete := pr_on_delete r;
               rl_deferrable := pr_deferrable r; rl_initially_deferred := pr_initially_deferred r |} in
          issue_when (negb (bool_decide (pr_match_type r = MatchSimple))) "relationship" object_name
            ("MATCH " ++ match_text (pr_match_type r) ++ " is not represented by the desired-design model") ;;%
          issue_when (negb (pr_validated r)) "relationship" object_name
            "NOT VALID foreign-key state is not represented by the desired-design model" ;;%
          i_return (Some built)
      end
  | _, _ => issue "relationship" object_name "Foreign keys outside the imported namespace are not represented" ;;% i_return None
  end.

(** ** Routines, views and triggers *)

Definition function_identity_text (f : PostgresFunction) : string := pf_name f ++ "(" ++ pf_identity_arguments f ++ ")".

Definition import_function (f : PostgresFunction) : importing (option DesignFunction) :=
  let identity := function_identity_text f in
  match target_independent_routine (pf_definition f) namespace with
  | Err message => issue "routine" identity message ;;% i_return None
  | Ok definition =>
      let fields := JDict [("id", JStr (semantic_id "function" [identity])); ("name", JStr (pf_name f));
        ("kind", JStr (routine_kind_text (pf_kind f))); ("arguments", JStr (pf_arguments f));
        ("identity_arguments", JStr (pf_identity_arguments f)); ("return_type", json_opt (pf_return_type f));
        ("language", JStr (pf_language f)); ("definition", JStr definition)] in
      match decode_function fields with
      | Some built => i_return (Some built)
      | None => issue "routine" identity (validation_text "DesignFunction" fields) ;;% i_return None
      end
  end.

Definition query_error_message (e : definition_error) : string :=
  match e with
  | TypeDefinitionError message _ | RoutineDefinitionError message _ | TriggerDefinitionError message _
  | QueryDefinitionError _ message => message
  end.

Definition import_view (source : view_kind * PostgresView) : importing (option DesignView) :=
  let '(kind, view) := source in
  match parse_query_definition (pv_query_definition view) with
  | Err e => issue "view" (pv_name view) (query_error_message e) ;;% i_return None
  | Ok _ =>
      let fields := JDict [("id", JStr (semantic_id "view" [view_kind_text kind; pv_name view])); ("name", JStr (pv_name view));
        ("kind", JStr (view_kind_text kind)); ("definition", JStr (pv_query_definition view));
        ("populate_on_create", match kind, pv_populated view with VMaterialized, Some b => JBool b | _, _ => JNull end)] in
      match decode_view fields with
      | Some built => i_return (Some built)
      | None => issue "view" (pv_name view) (validation_text "DesignView" fields) ;;% i_return None
      end
  end.

Definition source_views : list (view_kind * PostgresView) :=
  ((pair VView <$> pg_views (pg_content catalog)) ++ (pair VMaterialized <$> pg_materialized_views (pg_content catalog)))%list.

Definition trigger_fields (t : PostgresTable) (source : PostgresTrigger) (definition : string) : json := JDict
  [("id", JStr (semantic_id "trigger" [pb_name t; pt_name source])); ("name", JStr (pt_name source));
   ("relation_name", JStr (pb_name t)); ("timing", JStr "before"); ("events", json_strs ["insert"]); ("orientation", JStr "row");
   ("function_name", JStr "placeholder"); ("constraint", JBool false); ("deferrable", JBool false);
   ("initially_deferred", JBool false); ("definition", JStr definition)].

Definition import_trigger (tables : list (string * DesignTable)) (source : PostgresTable * PostgresTrigger)
    : importing (option DesignTrigger) :=
  let '(t, trigger) := source in
  let object_name := pb_name t ++ "." ++ pt_name trigger in
  match dget (pb_name t) tables with
  | None => issue "trigger" object_name "The trigger target was omitted from the imported design" ;;% i_return None
  | Some _ =>
      match target_independent_trigger (pt_definition trigger) namespace with
      | Err message => issue "trigger" object_name message ;;% i_return None
      | Ok definition =>
          match decode_trigger (trigger_fields t trigger definition) with
          | None => issue "trigger" object_name (validation_text "DesignTrigger" (trigger_fields t trigger definition)) ;;% i_return None
          | Some built =>
              issue_when (negb (bool_decide (pt_enabled trigger = EnabledOrigin))) "trigger" object_name
                ("Trigger enabled mode " ++ py_repr (enabled_text (pt_enabled trigger)) ++ " is not represented by the desired-design model") ;;%
              i_return (Some built)
          end
      end
  end.

Definition source_triggers : list (PostgresTable * PostgresTrigger) :=
  t ← pg_tables (pg_content catalog); pair t <$> pb_triggers t.

(** ** Layout *)

(** Objects in rows of [ceil_sqrt] of their number. *)
Definition placed (layer : layer_kind) (width column_step row_step : nat) (ids : list string) : list DesignObjectPosition :=
  imap (fun index id => {| pos_object_id := id; pos_layer := layer;
    pos_x := float_of (100 + Z.of_nat (index mod width) * Z.of_nat column_step);
    pos_y := float_of (100 + Z.of_nat (index / width) * Z.of_nat row_step) |}) ids.

(** [_layout]. *)
Definition layout (content : SchemiiDesignContent) : list DesignObjectPosition :=
  let tables := tb_id <$> content_tables content in
  let views := vw_id <$> content_views content in
  (placed LTables (Nat.max 1 (ceil_sqrt (length tables))) 380 340 tables
   ++ placed LViews (Nat.max 1 (ceil_sqrt (length views))) 420 360 views)%list.

(** ** The import *)

Definition import_content : importing SchemiiDesignContent :=
  let% types := i_collect import_type (pg_types (pg_content catalog)) in
  let% (tables, ids) := import_tables [] (pg_tables (pg_content catalog)) in
  let by_name := table_by_name tables in
  let% relationships := i_collect (import_relationship ids by_name) (pg_relationships (pg_content catalog)) in
  let% functions := i_collect import_function (pg_functions (pg_content catalog)) in
  let% views := i_collect import_view source_views in
  let% triggers := i_collect (import_trigger by_name) source_triggers in
  build SchemiiDesignContent_check
    {| content_types := types; content_tables := tables; content_relationships := relationships; content_functions := functions;
       content_views := views; content_triggers := triggers |}.

Definition imported_objects (content : SchemiiDesignContent) : list (string * nat) :=
  let tables := content_tables content in
  [("tables", length tables); ("columns", sum_list ((fun t => length (tb_columns t)) <$> tables));
   ("keys", sum_list ((fun t => length (tb_keys t)) <$> tables)); ("checks", sum_list ((fun t => length (tb_checks t)) <$> tables));
   ("indexes", sum_list ((fun t => length (tb_indexes t)) <$> tables)); ("relationships", length (content_relationships content));
   ("functions", length (content_functions content)); ("views", length (content_views content));
   ("triggers", length (content_triggers content)); ("types", length (content_types content))].

Definition summary_valid (s : WorkspaceImportSummary) : bool :=
  prefixed_hex "" 64 (wis_catalog_fingerprint s) && list_check issue_valid 0 20000 (wis_issues s).

Definition import_postgres_catalog : result import_error ImportResult :=
  match import_content with
  | Err e => Err e
  | Ok (content, issues) =>
      match validate_design_content content with
      | Err e => Err (ImportDesignRefused e)
      | Ok _ =>
          let summary := {| wis_catalog_fingerprint := pg_fingerprint catalog; wis_catalog_captured_at := pg_captured_at catalog;
                            wis_complete := bool_decide (length issues = 0); wis_imported_objects := imported_objects content;
                            wis_issues := issues |} in
          let positions := {| layout_objects := layout content |} in
          if summary_valid summary && SchemiiDesignLayoutContent_check positions
          then Ok {| ir_content := content; ir_layout := positions; ir_summary := summary |}
          else Err ImportModelRefused
      end
  end.
End import.
