(* ===== verification/ImportProps.v ===== *)
(** * What an import holds

    Facts about the steps of [CatalogImport]: every source object is either built into the
    design or named by an issue, and a step that writes no issue built all of them, field
    by field. *)

From Stdlib Require Import Ascii String Floats.SpecFloat.
From S2P Require Import Prelude Json PyString DesignModels DefinitionAnalysis DesignValidation DeletionImpact DesignDocument DesignDecode CheckExpressions Reconcile SchemaSource CatalogModels CatalogImport.
Open Scope string_scope.
Open Scope list_scope.
Open Scope import_scope.

(** ** Steps *)

Lemma i_bind_Ok {A B} (m : importing A) (k : A -> importing B) b issues :
  i_bind m k = Ok (b, issues) ->
  exists a first second, m = Ok (a, first) /\ k a = Ok (b, second) /\ issues = first ++ second.
Proof. unfold i_bind. destruct m as [[a first]|e]; [|done]. destruct (k a) as [[b' second]|e] eqn:Hk; [|done]. intros [= -> <-]. eauto 7. Qed.

Lemma i_return_Ok {A} (a b : A) issues : i_return a = Ok (b, issues) -> b = a /\ issues = [].
Proof. by intros [= -> ->]. Qed.

Lemma issue_Ok category name reason u issues :
  issue category name reason = Ok (u, issues) ->
  issues = [{| ii_category := category; ii_object_name := name; ii_reason := reason |}].
Proof. unfold issue. destruct (issue_valid _); [|done]. by intros [= _ <-]. Qed.

Lemma issue_when_Ok condition category name reason u issues :
  issue_when condition category name reason = Ok (u, issues) ->
  if condition then issues = [{| ii_category := category; ii_object_name := name; ii_reason := reason |}] else issues = [].
Proof. destruct condition; [apply issue_Ok|]. by intros [= _ <-]. Qed.

Lemma build_Ok {A} (check : A -> bool) a b issues : build check a = Ok (b, issues) -> b = a /\ issues = [] /\ check a = true.
Proof. unfold build. destruct (check a); [|done]. by intros [= -> ->]. Qed.

(** Takes apart an import that succeeded. *)
Ltac import_inv :=
  repeat match goal with
  | H : i_bind _ _ = Ok _ |- _ => apply i_bind_Ok in H as (? & ? & ? & ? & H & ?); subst
  | H : i_return _ = Ok _ |- _ => apply i_return_Ok in H as [? ?]; subst
  | H : issue _ _ _ = Ok _ |- _ => apply issue_Ok in H; subst
  | H : build _ _ = Ok _ |- _ => apply build_Ok in H as (? & ? & ?); subst
  | H : Err _ = Ok _ |- _ => discriminate H
  end.

(** [x] is built as [b] with the issues [own], or is named by one of them. *)
Definition accounted {A B} (R : A -> B -> list ImportIssue -> Prop) (name : A -> string) (x : A) (o : option B)
    (issues : list ImportIssue) : Prop :=
  match o with
  | Some b => R x b issues
  | None => exists i, i ∈ issues /\ ii_object_name i = name x
  end.

Lemma named_by (own issues : list ImportIssue) name :
  ii_object_name <$> own = [name] -> own ⊆ issues -> exists i, i ∈ issues /\ ii_object_name i = name.
Proof. destruct own as [|i []]; [done| |done]. intros [= <-] Hsub. exists i. split; [apply Hsub; left|done]. Qed.

Lemma named_here category name reason issues :
  exists i, i ∈ {| ii_category := category; ii_object_name := name; ii_reason := reason |} :: issues /\ ii_object_name i = name.
Proof. eexists. by split; [left|]. Qed.

(** Every item of [l] is built into [bs] or named by an issue, [bs] has nothing else, and
    all of [l] is built, in order and in full, when there is no issue. *)
Definition all_accounted {A B} (R : A -> B -> list ImportIssue -> Prop) (name : A -> string) (l : list A) (bs : list B)
    (issues : list ImportIssue) : Prop :=
  (forall x, x ∈ l -> (exists b own, b ∈ bs /\ R x b own /\ own ⊆ issues) \/ (exists i, i ∈ issues /\ ii_object_name i = name x)) /\
  (forall b, b ∈ bs -> exists x own, x ∈ l /\ R x b own /\ own ⊆ issues) /\
  (issues = [] -> Forall2 (fun x b => R x b []) l bs).

Lemma all_accounted_nil {A B} (R : A -> B -> list ImportIssue -> Prop) name : all_accounted R name [] [] [].
Proof. split_and!; [..|by constructor]; intros x Hx; by apply not_elem_of_nil in Hx. Qed.

Lemma all_accounted_cons {A B} (R : A -> B -> list ImportIssue -> Prop) name x o own l bs issues :
  accounted R name x o own -> all_accounted R name l bs issues ->
  all_accounted R name (x :: l) (match o with Some b => b :: bs | None => bs end) (own ++ issues).
Proof.
  intros Hx (Hall & Hown & Hnil). split_and!.
  - intros y [->|Hy]%elem_of_cons.
    + destruct o as [b|]; simpl in Hx.
      * left. exists b, own. set_solver.
      * right. destruct Hx as (i & Hi & Hn). exists i. set_solver.
    + destruct (Hall y Hy) as [(b & own' & Hb & Hr & Hsub)|(i & Hi & Hn)].
      * left. exists b, own'. split; [by destruct o; set_solver|]. set_solver.
      * right. exists i. set_solver.
  - intros b Hb. assert ((b ∈ bs) \/ o = Some b) as [Hin| ->] by (destruct o; [apply elem_of_cons in Hb as [->|]|]; auto).
    + destruct (Hown b Hin) as (y & own' & Hy & Hr & Hsub). exists y, own'. set_solver.
    + exists x, own. set_solver.
  - intros [Hn1 Hn2]%app_nil. subst. destruct o as [b|]; simpl in Hx.
    + constructor; [done|by apply Hnil].
    + destruct Hx as (i & Hi & _). by apply not_elem_of_nil in Hi.
Qed.


(** More issues account for as much. *)
Lemma all_accounted_more {A B} (R : A -> B -> list ImportIssue -> Prop) name l bs own issues :
  all_accounted R name l bs own -> own ⊆ issues -> all_accounted R name l bs issues.
Proof.
  intros (Hall & Hown & Hnil) Hsub. split_and!.
  - intros x Hx. destruct (Hall x Hx) as [(b & o & ? & ? & ?)|(i & ? & ?)]; [left; exists b, o; set_solver|right; exists i; set_solver].
  - intros b Hb. destruct (Hown b Hb) as (x & o & ? & ? & ?). exists x, o. set_solver.
  - intros ->. apply Hnil. by apply list_nil_subseteq.
Qed.

Lemma i_collect_accounted {A B} (f : A -> importing (option B)) R (name : A -> string) l : forall bs issues,
  (forall x o own, f x = Ok (o, own) -> accounted R name x o own) -> i_collect f l = Ok (bs, issues) ->
  all_accounted R name l bs issues.
Proof.
  induction l as [|x l IH]; intros bs issues Hf Hc; simpl in Hc.
  { import_inv. apply all_accounted_nil. }
  import_inv. rewrite app_nil_r. apply all_accounted_cons; [by apply Hf|by apply IH].
Qed.


Lemma i_each_Ok {A} (f : A -> importing unit) (l : list A) u issues :
  i_each f l = Ok (u, issues) -> forall x, x ∈ l -> exists own, f x = Ok (tt, own) /\ own ⊆ issues.
Proof.
  revert u issues. induction l as [|x l IH]; intros u issues He y Hy; simpl in He; [by apply not_elem_of_nil in Hy|].
  import_inv. destruct x0. apply elem_of_cons in Hy as [->|Hy]; [exists x1; set_solver|].
  destruct (IH _ _ He y Hy) as (own & ? & ?). exists own. set_solver.
Qed.

Section facts.
Context `{Pglast} `{Sqlglot} `{SqlglotTrees} `{SchemaRendering} `{Sha256}.
Variable validation_text : string -> json -> string.
Variable catalog : PostgresCatalog.
Implicit Types (t : PostgresTable) (own : list ImportIssue) (ids : column_dict).

Abbreviation id_of := (semantic_id catalog).
Abbreviation col_id := (column_id catalog).

(** ** Columns *)

(** The IDs of columns are derived from the names of their tables and their own. *)
Definition ids_ok ids : Prop := forall k v, dget k ids = Some v -> v = id_of "column" [k.1; k.2].

Lemma ids_ok_nil : ids_ok [].
Proof. done. Qed.

Lemma register_ok t ids : ids_ok ids -> ids_ok (register_columns catalog t ids).
Proof.
  unfold register_columns. generalize (merge_sort ordinal_le (pb_columns t)). intros l. revert ids.
  induction l as [|c l IH]; intros ids Hids; [done|]. simpl. apply IH. intros k v. rewrite dget_dset. case_decide; [|by apply Hids].
  intros [= <-]. by subst.
Qed.

Lemma columns_at_Ok ids table names found :
  ids_ok ids -> columns_at ids table names = Ok found -> found = (fun n => id_of "column" [table; n]) <$> names.
Proof.
  intros Hids. revert found. induction names as [|n names IH]; intros found; simpl; [by intros [= <-]|].
  destruct (dget (table, n) ids) as [id|] eqn:Hd; [|done]. destruct (columns_at ids table names) as [others|] eqn:Hc; [|done].
  intros [= <-]. apply Hids in Hd as ->. csimpl. f_equal. by apply IH.
Qed.

Lemma columns_or_raise_Ok ids table names found own :
  ids_ok ids -> columns_or_raise ids table names = Ok (found, own) -> found = (fun n => id_of "column" [table; n]) <$> names /\ own = [].
Proof.
  intros Hids. unfold columns_or_raise. destruct (columns_at _ _ _) eqn:Hc; [|done]. intros [= -> <-]. by apply columns_at_Ok in Hc.
Qed.

Lemma columns_or_reason_Ok ids table names found :
  ids_ok ids -> columns_or_reason ids table names = Ok found -> found = (fun n => id_of "column" [table; n]) <$> names.
Proof. intros Hids. unfold columns_or_reason. destruct (columns_at _ _ _) eqn:Hc; [|done]. intros [= ->]. by apply columns_at_Ok in Hc. Qed.

Definition column_held t (c : PostgresColumn) (d : DesignColumn) own : Prop :=
  dc_id d = col_id t (pc_name c) /\ dc_name d = pc_name c /\ dc_data_type d = pc_data_type c /\ dc_nullable d = pc_nullable c /\
  dc_identity d = pc_identity c /\
  dc_default_expression d = match pc_generated c, pc_identity c with None, None => pc_default_expression c | _, _ => None end /\
  (own = [] -> dc_generated_expression d = match pc_generated c with Some _ => pc_default_expression c | None => None end /\
     unusual_collation c = false).

Lemma import_column_held t c o own :
  i_bind (import_column catalog t c) (fun built => i_return (Some built)) = Ok (o, own) ->
  accounted (column_held t) (fun c => (object_name_of t ++ "." ++ pc_name c)%string) c o own.
Proof.
  intros Hc. apply i_bind_Ok in Hc as (built & o0 & o0' & Hc & Hr & ->). apply i_return_Ok in Hr as [-> ->].
  unfold import_column in Hc. apply i_bind_Ok in Hc as ([generated sources] & o1 & o2 & Hg & Hc & ->).
  apply i_bind_Ok in Hc as (u & o3 & o4 & Hu & Hb & ->). apply build_Ok in Hb as (-> & -> & _). apply issue_when_Ok in Hu.
  rewrite !app_nil_r. simpl. split_and!; try done. intros [-> ->]%app_nil. split; [|by destruct (unusual_collation c)].
  unfold import_generated in Hg. destruct (truthy _); [|by apply i_return_Ok in Hg as [[= -> ->] _]].
  destruct (ordered_expression_column_names _ _); [by apply i_return_Ok in Hg as [[= -> ->] _]|].
  apply i_bind_Ok in Hg as (? & o5 & o6 & Hi & _ & Hn). by apply issue_Ok in Hi as ->.
Qed.

(** ** Keys, checks and indexes *)

Definition key_held t (source : key_kind * PostgresKey) (d : DesignKeyConstraint) own : Prop :=
  dk_id d = id_of "key" [pb_name t; pk_name source.2] /\ dk_name d = pk_name source.2 /\ dk_kind d = source.1 /\
  dk_column_ids d = col_id t <$> pk_columns source.2 /\
  (own = [] -> pk_deferrable source.2 = false /\ pk_initially_deferred source.2 = false /\ pk_validated source.2 = true).

Lemma import_key_held ids t source o own :
  ids_ok ids -> import_key catalog ids t source = Ok (o, own) ->
  accounted (key_held t) (fun s => (object_name_of t ++ "." ++ pk_name s.2)%string) source o own.
Proof.
  intros Hids. destruct source as [kind key]. intros Hk. unfold import_key in Hk.
  apply i_bind_Ok in Hk as (found & o1 & o2 & Hf & Hk & ->). apply columns_or_raise_Ok in Hf as [-> ->]; [|done].
  apply i_bind_Ok in Hk as (d & o3 & o4 & Hb & Hk & ->). apply build_Ok in Hb as (-> & -> & _).
  apply i_bind_Ok in Hk as (u & o5 & o6 & Hu & Hk & ->). apply issue_when_Ok in Hu.
  apply i_bind_Ok in Hk as (u2 & o7 & o8 & Hu2 & Hk & ->). apply issue_when_Ok in Hu2. apply i_return_Ok in Hk as [-> ->].
  unfold accounted, key_held. simpl. split_and!; try done. rewrite app_nil_r. intros [-> ->]%app_nil.
  destruct (pk_deferrable key), (pk_initially_deferred key), (pk_validated key); done.
Qed.

Definition check_held t (c : PostgresCheck) (d : DesignCheckConstraint) own : Prop :=
  ck_id d = id_of "check" [pb_name t; pq_name c] /\ ck_name d = pq_name c /\
  check_expression (pq_definition c) = Ok (ck_expression d) /\
  (exists names, ordered_expression_column_names (ck_expression d) (pb_columns t) = Ok names /\ ck_column_ids d = col_id t <$> names) /\
  (own = [] -> pq_validated c = true).

Lemma import_check_held ids t c o own :
  ids_ok ids -> import_check catalog ids t c = Ok (o, own) ->
  accounted (check_held t) (fun c => (object_name_of t ++ "." ++ pq_name c)%string) c o own.
Proof.
  intros Hids. unfold import_check, read_check. destruct (check_expression (pq_definition c)) as [expression|m] eqn:He; cycle 1.
  { intros Hc. import_inv. apply named_here. }
  destruct (ordered_expression_column_names expression (pb_columns t)) as [names|m] eqn:Ho; cycle 1.
  { intros Hc. import_inv. apply named_here. }
  destruct (columns_or_reason ids (pb_name t) names) as [found|m] eqn:Hf; cycle 1.
  { intros Hc. import_inv. apply named_here. }
  apply columns_or_reason_Ok in Hf as ->; [|done]. intros Hc.
  apply i_bind_Ok in Hc as (d & o1 & o2 & Hb & Hc & ->). apply build_Ok in Hb as (-> & -> & _).
  apply i_bind_Ok in Hc as (u & o3 & o4 & Hu & Hc & ->). apply issue_when_Ok in Hu. import_inv. simpl. split_and!; try done.
  - exists names. done.
  - rewrite app_nil_r. intros ->. by destruct (pq_validated c).
Qed.

Definition index_held t (x : PostgresIndex) (d : DesignIndex) own : Prop := exists parsed,
  index_source (px_definition x) = Ok parsed /\ ix_id d = id_of "index" [pb_name t; px_name x] /\ ix_name d = xs_name parsed /\
  ix_method d = xs_method parsed /\ ix_unique d = xs_unique parsed /\ ix_expression d = xs_expression parsed /\
  ix_predicate d = xs_predicate parsed /\ ix_column_ids d = col_id t <$> xs_columns parsed /\
  ix_include_column_ids d = col_id t <$> xs_included_columns parsed /\ (own = [] -> px_valid x = true).

Lemma import_index_held ids t x o own :
  ids_ok ids -> import_index catalog ids t x = Ok (o, own) ->
  accounted (index_held t) (fun x => (object_name_of t ++ "." ++ px_name x)%string) x o own.
Proof.
  intros Hids. unfold import_index. destruct (read_index catalog ids t x) as [d|m] eqn:Hr; cycle 1.
  { intros Hc. import_inv. apply named_here. }
  intros Hc. apply i_bind_Ok in Hc as (d' & o1 & o2 & Hb & Hc & ->). apply build_Ok in Hb as (-> & -> & _).
  apply i_bind_Ok in Hc as (u & o3 & o4 & Hu & Hc & ->). apply issue_when_Ok in Hu. import_inv. unfold read_index in Hr.
  destruct (index_source (px_definition x)) as [parsed|] eqn:Hp; [|done]. simpl in Hr.
  destruct (columns_or_reason ids (pb_name t) (xs_columns parsed)) as [direct|] eqn:Hd; [|done]. simpl in Hr.
  destruct (columns_or_reason ids (pb_name t) (xs_included_columns parsed)) as [included|] eqn:Hi; [|done]. simpl in Hr.
  destruct (expression_columns _ _ (xs_expression parsed)); [|done]. simpl in Hr.
  destruct (expression_columns _ _ (xs_predicate parsed)); [|done]. simpl in Hr. injection Hr as <-.
  apply columns_or_reason_Ok in Hd as ->, Hi as ->; [|done..]. exists parsed. simpl. split_and!; try done.
  rewrite app_nil_r. intros ->. by destruct (px_valid x).
Qed.

(** ** Objects with a definition *)

Lemma as_list_read {A B} (f : A -> json) (g : json -> option B) (h : A -> B) l l' :
  (forall x y, g (f x) = Some y -> y = h x) -> as_list g (JList (f <$> l)) = Some l' -> l' = h <$> l.
Proof.
  intros Hg. unfold as_list. rewrite mapM_Some, Forall2_fmap_l. induction 1 as [|x y l0 l0' Hxy _ IH]; [done|].
  csimpl. by rewrite <-IH, <-(Hg _ _ Hxy).
Qed.

Lemma decode_type_inv id definition (t : DesignType) :
  decode_type (JDict [("id", JStr id); ("definition", JStr definition)]) = Some t ->
  dt_id t = id /\ dt_definition t = definition /\ type_derived t.
Proof.
  unfold decode_type, after_validator, DesignType_derive_contract, derive_contract, type_fields. simpl.
  destruct (analyze_type_definition definition) as [c|] eqn:Hd; [|done]. cbn [result_bind]. unfold type_contract_items.
  intros Ht. assert (exists checks, checks = (fun k => {| dck_name := dcd_name k; dck_expression := dcd_expression k |}) <$> td_checks c /\
    t = {| dt_id := id; dt_name := td_name c; dt_kind := td_kind c; dt_enum_values := td_enum_values c; dt_base_type := td_base_type c;
           dt_default_expression := td_default_expression c; dt_not_null := td_not_null c; dt_checks := checks;
           dt_collation := td_collation c; dt_definition := definition |}) as (checks & -> & ->).
  2: { split_and!; [done..|]. by exists c. }
  revert Ht. destruct c as [name [] ? ? ? ? checks]; unfold read_type; read_model.
  all: destruct (as_list _ _) as [checks'|] eqn:Hl; [|done]; simpl; autorewrite with decode; simpl; destruct (DesignType_check _); [|done].
  all: intros [= <-]; exists checks'; split; [|done]; revert Hl; apply as_list_read; intros [n e] y; unfold decode_domain_check; read_model.
  all: by destruct (DesignDomainCheck_check _); [intros [= <-]|].
Qed.

Lemma decode_function_inv id name kind arguments identity_arguments return_type language definition f :
  decode_function (JDict [("id", JStr id); ("name", name); ("kind", kind); ("arguments", arguments);
    ("identity_arguments", identity_arguments); ("return_type", return_type); ("language", language); ("definition", JStr definition)]) = Some f ->
  fn_id f = id /\ fn_definition f = definition /\ function_derived f.
Proof.
  unfold decode_function, after_validator, DesignFunction_derive_contract, derive_contract. simpl.
  destruct (analyze_routine_definition definition) as [c|] eqn:Hd; [|done]. cbn [result_bind]. unfold routine_contract_items.
  intros Ht. assert (f = {| fn_id := id; fn_name := rd_name c; fn_kind := rd_kind c; fn_arguments := rd_arguments c;
    fn_identity_arguments := rd_identity_arguments c; fn_return_type := rd_return_type c; fn_language := rd_language c; fn_definition := definition |}) as ->.
  2: { split_and!; [done..|]. by exists c. }
  revert Ht. destruct c as [? [] ? ? ? ?]; unfold read_function; read_model; (destruct (DesignFunction_check _); [|done]).
  all: by intros [= <-].
Qed.

Lemma decode_trigger_inv t source definition d :
  decode_trigger (trigger_fields catalog t source definition) = Some d ->
  tr_id d = id_of "trigger" [pb_name t; pt_name source] /\ tr_definition d = definition /\ trigger_derived d.
Proof.
  unfold decode_trigger, after_validator, DesignTrigger_derive_contract, derive_contract, trigger_fields. simpl.
  destruct (analyze_trigger_definition definition) as [c|] eqn:Hd; [|done]. cbn [result_bind]. unfold trigger_contract_items.
  intros Ht. assert (d = {| tr_id := id_of "trigger" [pb_name t; pt_name source]; tr_name := trd_name c; tr_relation_name := trd_relation_name c;
    tr_timing := trd_timing c; tr_events := trd_events c; tr_orientation := trd_orientation c; tr_function_name := trd_function_name c;
    tr_function_arguments := trd_function_arguments c; tr_update_columns := trd_update_columns c;
    tr_referenced_columns := trd_referenced_columns c; tr_when_expression := trd_when_expression c;
    tr_transition_relations := trd_transition_relations c; tr_constraint := trd_constraint c; tr_deferrable := trd_deferrable c;
    tr_initially_deferred := trd_initially_deferred c; tr_definition := definition |}) as ->.
  2: { split_and!; [done..|]. by exists c. }
  revert Ht. generalize (id_of "trigger" [pb_name t; pt_name source]). intros id.
  destruct c as [? ? [] ? []]; unfold read_trigger; read_model; (destruct (DesignTrigger_check _); [|done]).
  all: by intros [= <-].
Qed.

Definition type_held (y : PostgresType) (d : DesignType) own : Prop :=
  dt_id d = id_of "type" [type_kind_text (py_kind y); py_name y] /\ dt_definition d = py_definition y /\ type_derived d.

Lemma import_type_held y o own : import_type validation_text catalog y = Ok (o, own) -> accounted type_held py_name y o own.
Proof.
  unfold import_type. destruct (decode_type _) as [d|] eqn:Hd; intros Hc; import_inv; [by apply decode_type_inv in Hd|].
  apply named_here.
Qed.

Definition function_held (f : PostgresFunction) (d : DesignFunction) own : Prop :=
  fn_id d = id_of "function" [function_identity_text f] /\
  target_independent_routine (pf_definition f) (pg_namespace (pg_content catalog)) = Ok (fn_definition d) /\ function_derived d.

Lemma import_function_held f o own :
  import_function validation_text catalog f = Ok (o, own) -> accounted function_held function_identity_text f o own.
Proof.
  unfold import_function. destruct (target_independent_routine _ _) as [definition|m] eqn:Ht; cycle 1.
  { intros Hc. import_inv. apply named_here. }
  destruct (decode_function _) as [d|] eqn:Hd; intros Hc; import_inv.
  - apply decode_function_inv in Hd as (Hi & <- & Hd). done.
  - apply named_here.
Qed.

Definition view_held (source : view_kind * PostgresView) (d : DesignView) own : Prop :=
  vw_id d = id_of "view" [view_kind_text source.1; pv_name source.2] /\ vw_name d = pv_name source.2 /\ vw_kind d = source.1 /\
  vw_definition d = pv_query_definition source.2 /\
  vw_populate_on_create d = match source.1 with VView => None | VMaterialized => Some (from_option id true (pv_populated source.2)) end /\
  (exists query, parse_query_definition (vw_definition d) = Ok query).

Lemma import_view_held source o own :
  import_view validation_text catalog source = Ok (o, own) -> accounted view_held (fun s => pv_name s.2) source o own.
Proof.
  destruct source as [kind view]. unfold import_view. destruct (parse_query_definition (pv_query_definition view)) as [q|e] eqn:Hq; cycle 1.
  { intros Hc. import_inv. apply named_here. }
  destruct (decode_view _) as [d|] eqn:Hd; intros Hc; import_inv; [|apply named_here].
  unfold accounted, view_held. cbn [fst snd]. revert Hd. generalize (id_of "view" [view_kind_text kind; pv_name view]). intros id.
  unfold decode_view. destruct kind, view as [ns nm cols def [populated|]]; simpl migrate_legacy_population_intent; unfold read_view; read_model.
  all: destruct (DesignView_check _); [|done]; simpl; intros [= <-]; simpl in *; split_and!; eauto.
Qed.

Definition trigger_held (source : PostgresTable * PostgresTrigger) (d : DesignTrigger) own : Prop :=
  tr_id d = id_of "trigger" [pb_name source.1; pt_name source.2] /\
  target_independent_trigger (pt_definition source.2) (pg_namespace (pg_content catalog)) = Ok (tr_definition d) /\ trigger_derived d /\
  (own = [] -> pt_enabled source.2 = EnabledOrigin).

Lemma import_trigger_held tables source o own :
  import_trigger validation_text catalog tables source = Ok (o, own) ->
  accounted trigger_held (fun s => (pb_name s.1 ++ "." ++ pt_name s.2)%string) source o own.
Proof.
  destruct source as [t trigger]. unfold import_trigger. destruct (dget (pb_name t) tables) as [known|]; cycle 1.
  { intros Hc. import_inv. apply named_here. }
  destruct (target_independent_trigger _ _) as [definition|m] eqn:Ht; cycle 1.
  { intros Hc. import_inv. apply named_here. }
  destruct (decode_trigger _) as [d|] eqn:Hd; intros Hc.
  - apply i_bind_Ok in Hc as (u & o1 & o2 & Hu & Hr & ->). apply i_return_Ok in Hr as [-> ->]. apply issue_when_Ok in Hu.
    apply decode_trigger_inv in Hd as (Hi & <- & Hd). split_and!; [done..|]. rewrite app_nil_r. intros ->.
    by destruct (bool_decide_reflect (pt_enabled trigger = EnabledOrigin)).
  - import_inv. apply named_here.
Qed.

(** ** Tables *)

(** Everything a table has is in its design or named by an issue; some things never are in
    the design. *)
Record table_held t (d : DesignTable) own : Prop := {
  th_id : tb_id d = id_of "table" [pb_name t];
  th_name : tb_name d = pb_name t;
  th_columns : all_accounted (column_held t) (fun c => (object_name_of t ++ "." ++ pc_name c)%string)
    (merge_sort ordinal_le (pb_columns t)) (tb_columns d) own;
  th_keys : all_accounted (key_held t) (fun s => (object_name_of t ++ "." ++ pk_name s.2)%string) (source_keys t) (tb_keys d) own;
  th_checks : all_accounted (check_held t) (fun c => (object_name_of t ++ "." ++ pq_name c)%string) (pb_checks t) (tb_checks d) own;
  th_indexes : all_accounted (index_held t) (fun x => (object_name_of t ++ "." ++ px_name x)%string) (pb_indexes t) (tb_indexes d) own;
  th_partitioning : pb_kind t = PartitionedTable \/ pb_is_partition t = true ->
    exists i, i ∈ own /\ ii_object_name i = object_name_of t;
  th_not_null : forall c, c ∈ pb_not_null_constraints t -> exists i, i ∈ own /\ ii_object_name i = (object_name_of t ++ "." ++ pq_name c)%string;
  th_exclusion : forall k, k ∈ pb_exclusion_constraints t -> exists i, i ∈ own /\ ii_object_name i = (object_name_of t ++ "." ++ pk_name k)%string;
}.

Lemma import_table_held ids t o own :
  ids_ok ids -> import_table catalog ids t = Ok (o, own) -> accounted table_held object_name_of t o own.
Proof.
  intros Hids. unfold import_table. case_bool_decide as Hn; intros Ht.
  { import_inv. apply named_here. }
  apply i_bind_Ok in Ht as (columns & o1 & r1 & Hcolumns & Ht & ->). apply i_bind_Ok in Ht as (keys & o2 & r2 & Hkeys & Ht & ->).
  apply i_bind_Ok in Ht as (checks & o3 & r3 & Hchecks & Ht & ->). apply i_bind_Ok in Ht as (indexes & o4 & r4 & Hindexes & Ht & ->).
  apply i_bind_Ok in Ht as (u & o5 & r5 & Hissues & Ht & ->). apply i_bind_Ok in Ht as (d & o6 & r6 & Hb & Ht & ->).
  apply build_Ok in Hb as (-> & -> & _). apply i_return_Ok in Ht as [-> ->]. rewrite !app_nil_r.
  unfold table_issues in Hissues. apply i_bind_Ok in Hissues as (? & p1 & p2 & Hpart & Hissues & ->). apply issue_when_Ok in Hpart.
  apply i_bind_Ok in Hissues as (? & p3 & p4 & Hnulls & Hexclusions & ->).
  constructor; simpl; try done.
  - apply (all_accounted_more _ _ _ _ o1); [|set_solver]. eapply i_collect_accounted; [|done]. apply import_column_held.
  - apply (all_accounted_more _ _ _ _ o2); [|set_solver]. eapply i_collect_accounted; [|done]. intros. by eapply import_key_held.
  - apply (all_accounted_more _ _ _ _ o3); [|set_solver]. eapply i_collect_accounted; [|done]. intros. by eapply import_check_held.
  - apply (all_accounted_more _ _ _ _ o4); [|set_solver]. eapply i_collect_accounted; [|done]. intros. by eapply import_index_held.
  - intros Hp. replace (_ || _) with true in Hpart. 2: { destruct Hp as [-> | ->]; [done|by rewrite orb_true_r]. }
    apply (named_by p1); [by rewrite Hpart|set_solver].
  - intros c Hc. destruct (i_each_Ok _ _ _ _ Hnulls c Hc) as (own & Hi & Hsub). apply issue_Ok in Hi.
    apply (named_by own); [by rewrite Hi|set_solver].
  - intros k Hk. destruct (i_each_Ok _ _ _ _ Hexclusions k Hk) as (own & Hi & Hsub). apply issue_Ok in Hi.
    apply (named_by own); [by rewrite Hi|set_solver].
Qed.

Lemma import_tables_held sources : forall ids tables last issues,
  ids_ok ids -> import_tables catalog ids sources = Ok (tables, last, issues) ->
  ids_ok last /\ all_accounted table_held object_name_of sources tables issues /\
  Forall (fun d => tb_id d = id_of "table" [tb_name d]) tables.
Proof.
  induction sources as [|t sources IH]; intros ids tables last issues Hids Hi; simpl in Hi.
  { apply i_return_Ok in Hi as [[= -> ->] ->]. split; [done|]. split; [apply all_accounted_nil|by constructor]. }
  apply i_bind_Ok in Hi as (o & o1 & r1 & Ht & Hi & ->). apply i_bind_Ok in Hi as ([others last'] & o2 & r2 & Hrest & Hi & ->).
  apply i_return_Ok in Hi as [[= -> ->] ->]. rewrite app_nil_r. apply (register_ok t) in Hids.
  destruct (IH _ _ _ _ Hids Hrest) as (Hlast & Hall & Hown). apply import_table_held in Ht; [|done].
  split_and!; [done|by apply all_accounted_cons|]. destruct o as [d|]; [|done]. constructor; [|done].
  simpl in Ht. by rewrite (th_id _ _ _ Ht), (th_name _ _ _ Ht).
Qed.

(** ** Relationships *)

Lemma table_by_name_known tables name d : dget name (table_by_name tables) = Some d -> d ∈ tables /\ tb_name d = name.
Proof.
  unfold table_by_name. assert (forall start : list (string * DesignTable),
    dget name (foldl (fun m x => dset (tb_name x) x m) start tables) = Some d -> dget name start = Some d \/ (d ∈ tables /\ tb_name d = name)) as Hf.
  { induction tables as [|x tables IH]; simpl; intros start Hd; [by left|]. apply IH in Hd as [Hd|[? ?]]; [|right; set_solver].
    rewrite dget_dset in Hd. case_decide; [|by left]. injection Hd as ->. right. set_solver. }
  intros Hd. by destruct (Hf [] Hd).
Qed.

Definition relationship_held (tables : list DesignTable) (r : PostgresForeignKeyRelationship) (d : DesignRelationship) own : Prop :=
  rl_id d = id_of "relationship" [pr_source_table r; pr_name r] /\ rl_name d = pr_name r /\
  rl_source_table_id d = id_of "table" [pr_source_table r] /\ rl_target_table_id d = id_of "table" [pr_target_table r] /\
  rl_source_column_ids d = (fun n => id_of "column" [pr_source_table r; n]) <$> pr_source_columns r /\
  rl_target_column_ids d = (fun n => id_of "column" [pr_target_table r; n]) <$> pr_target_columns r /\
  rl_on_update d = pr_on_update r /\ rl_on_delete d = pr_on_delete r /\ rl_deferrable d = pr_deferrable r /\
  rl_initially_deferred d = pr_initially_deferred r /\ pr_target_namespace r = pg_namespace (pg_content catalog) /\
  pr_source_table r ∈ tb_name <$> tables /\ pr_target_table r ∈ tb_name <$> tables /\
  (own = [] -> pr_match_type r = MatchSimple /\ pr_validated r = true).

Definition relationship_name (r : PostgresForeignKeyRelationship) : string :=
  (pr_source_namespace r ++ "." ++ pr_source_table r ++ "." ++ pr_name r)%string.

Lemma import_relationship_held ids tables r o own :
  ids_ok ids -> Forall (fun d => tb_id d = id_of "table" [tb_name d]) tables ->
  import_relationship catalog ids (table_by_name tables) r = Ok (o, own) ->
  accounted (relationship_held tables) relationship_name r o own.
Proof.
  intros Hids Htables. rewrite Forall_forall in Htables. unfold import_relationship.
  destruct (dget (pr_source_table r) (table_by_name tables)) as [source|] eqn:Hs; cycle 1.
  { intros Hc. import_inv. apply named_here. }
  case_bool_decide as Hns; [|intros Hc; import_inv; apply named_here].
  destruct (dget (pr_target_table r) (table_by_name tables)) as [target|] eqn:Ht; cycle 1.
  { intros Hc. import_inv. apply named_here. }
  apply table_by_name_known in Hs as [Hsin Hs], Ht as [Htin Ht]. unfold relationship_columns.
  destruct (columns_at ids (tb_name source) _) as [source_ids|] eqn:Hc1; [|intros Hc; import_inv; apply named_here].
  destruct (columns_at ids (tb_name target) _) as [target_ids|] eqn:Hc2; [|intros Hc; import_inv; apply named_here].
  apply columns_at_Ok in Hc1 as ->, Hc2 as ->; [|done..]. intros Hc.
  apply i_bind_Ok in Hc as (d & o1 & r1 & Hb & Hc & ->). apply build_Ok in Hb as (-> & -> & _).
  apply i_bind_Ok in Hc as (u & o2 & r2 & Hm & Hc & ->). apply issue_when_Ok in Hm.
  apply i_bind_Ok in Hc as (u2 & o3 & r3 & Hv & Hc & ->). apply issue_when_Ok in Hv. apply i_return_Ok in Hc as [-> ->].
  unfold accounted, relationship_held. simpl. rewrite app_nil_r, !Htables, Hs, Ht by done.
  split_and!; try done; [rewrite <-Hs|rewrite <-Ht|]; [by apply list_elem_of_fmap_2..|]. intros [-> ->]%app_nil.
  destruct (bool_decide_reflect (pr_match_type r = MatchSimple)), (pr_validated r); done.
Qed.

(** ** Content *)

(** What a catalog has, against what its design holds and its issues name. *)
Record catalog_accounted (content : SchemiiDesignContent) (issues : list ImportIssue) : Prop := {
  ca_types : all_accounted type_held py_name (pg_types (pg_content catalog)) (content_types content) issues;
  ca_tables : all_accounted table_held object_name_of (pg_tables (pg_content catalog)) (content_tables content) issues;
  ca_relationships : all_accounted (relationship_held (content_tables content)) relationship_name
    (pg_relationships (pg_content catalog)) (content_relationships content) issues;
  ca_functions : all_accounted function_held function_identity_text (pg_functions (pg_content catalog)) (content_functions content) issues;
  ca_views : all_accounted view_held (fun s => pv_name s.2) (source_views catalog) (content_views content) issues;
  ca_triggers : all_accounted trigger_held (fun s => (pb_name s.1 ++ "." ++ pt_name s.2)%string) (source_triggers catalog)
    (content_triggers content) issues;
}.

Lemma import_content_accounted content issues :
  import_content validation_text catalog = Ok (content, issues) -> SchemiiDesignContent_check content = true /\ catalog_accounted content issues.
Proof.
  unfold import_content. intros Hc. apply i_bind_Ok in Hc as (types & o1 & r1 & Htypes & Hc & ->).
  apply i_bind_Ok in Hc as ([tables ids] & o2 & r2 & Htables & Hc & ->). apply i_bind_Ok in Hc as (rels & o3 & r3 & Hrels & Hc & ->).
  apply i_bind_Ok in Hc as (functions & o4 & r4 & Hfunctions & Hc & ->). apply i_bind_Ok in Hc as (views & o5 & r5 & Hviews & Hc & ->).
  apply i_bind_Ok in Hc as (triggers & o6 & r6 & Htriggers & Hc & ->). apply build_Ok in Hc as (-> & -> & Hcheck).
  apply import_tables_held in Htables as (Hids & Htables & Hown); [|apply ids_ok_nil]. split; [done|]. constructor; simpl.
  - apply (all_accounted_more _ _ _ _ o1); [|set_solver]. eapply i_collect_accounted; [|done]. apply import_type_held.
  - apply (all_accounted_more _ _ _ _ o2); [done|set_solver].
  - apply (all_accounted_more _ _ _ _ o3); [|set_solver]. eapply i_collect_accounted; [|done]. intros. by eapply import_relationship_held.
  - apply (all_accounted_more _ _ _ _ o4); [|set_solver]. eapply i_collect_accounted; [|done]. apply import_function_held.
  - apply (all_accounted_more _ _ _ _ o5); [|set_solver]. eapply i_collect_accounted; [|done]. apply import_view_held.
  - apply (all_accounted_more _ _ _ _ o6); [|set_solver]. eapply i_collect_accounted; [|done]. apply import_trigger_held.
Qed.

End facts.
