(* ===== verification/ImportTheorems.v ===== *)
(** * Imports

    What an import promises: nothing a catalog has is dropped without an issue that names
    it, an import without issues mirrors its catalog, and the result is a design the store
    accepts, laid out without overlaps. *)

From Stdlib Require Import Ascii String Floats.SpecFloat.
From S2P Require Import Prelude PyString Json DesignModels DefinitionAnalysis DesignValidation ValidationSpec DeletionImpact DesignDocument DesignStore DesignStoreReach TypeChanges CheckExpressions DesignMerge DesignDecode Reconcile ReconcileProps SchemaSource CatalogModels CatalogImport ImportProps.
Open Scope string_scope.
Open Scope list_scope.
Open Scope import_scope.

(** ** Coordinates *)

(** The integer a finite float is, rounded towards zero. *)
Definition float_to_Z (f : spec_float) : Z :=
  match f with
  | S754_finite s m e =>
      let magnitude := if bool_decide (e < 0)%Z then (Z.pos m / 2 ^ (- e))%Z else (Z.pos m * 2 ^ e)%Z in
      if s then (- magnitude)%Z else magnitude
  | _ => 0%Z
  end.

(** The steps of the layout, on the rows and columns there can be. *)
Definition exact_step (step : nat) : bool :=
  forallb (fun i => bool_decide (float_to_Z (float_of (100 + Z.of_nat i * Z.of_nat step)) = 100 + Z.of_nat i * Z.of_nat step)%Z) (seq 0 160).

Lemma float_step_inj step i j :
  exact_step step = true -> step <> 0 -> i < 160 -> j < 160 ->
  float_of (100 + Z.of_nat i * Z.of_nat step) = float_of (100 + Z.of_nat j * Z.of_nat step) -> i = j.
Proof.
  unfold exact_step. rewrite forallb_forall. intros Hall Hs Hi Hj Heq.
  assert (forall k, k < 160 -> float_to_Z (float_of (100 + Z.of_nat k * Z.of_nat step)) = (100 + Z.of_nat k * Z.of_nat step)%Z) as Hexact.
  { intros k Hk. eapply bool_decide_unpack, Is_true_true, Hall, List.in_seq. lia. }
  pose proof (Hexact i Hi) as Ei. rewrite Heq, (Hexact j Hj) in Ei. nia.
Qed.

Lemma ceil_sqrt_spec n : n <= ceil_sqrt n * ceil_sqrt n /\ ceil_sqrt n <= Nat.sqrt n + 1.
Proof. unfold ceil_sqrt. pose proof (Nat.sqrt_spec' n). case_bool_decide; lia. Qed.

(** No two objects of a layer are on one spot. *)
Lemma placed_distinct layer column_step row_step ids p q i j :
  exact_step column_step = true -> exact_step row_step = true -> column_step <> 0 -> row_step <> 0 -> length ids < 150 * 150 ->
  let l := placed layer (Nat.max 1 (ceil_sqrt (length ids))) column_step row_step ids in
  l !! i = Some p -> l !! j = Some q -> pos_x p = pos_x q -> pos_y p = pos_y q -> i = j.
Proof.
  intros Hc Hr Hc0 Hr0 Hlen l. unfold l, placed. rewrite !list_lookup_imap, !fmap_Some.
  intros (x & Hx & ->) (y & Hy & ->). cbn [pos_x pos_y]. apply lookup_lt_Some in Hx, Hy.
  destruct (ceil_sqrt_spec (length ids)) as [Hge Hle]. set (w := Nat.max 1 (ceil_sqrt (length ids))).
  apply Nat.sqrt_lt_square in Hlen. assert (Hw : length ids <= w * w /\ 1 <= w < 160).
  { split; [|unfold w; lia]. etransitivity; [exact Hge|]. apply Nat.mul_le_mono; apply Nat.le_max_r. }
  assert (forall k, k < length ids -> k mod w < 160 /\ k / w < 160) as Hb.
  { intros k Hk. pose proof (Nat.mod_upper_bound k w). assert (k / w < w) by (apply Nat.Div0.div_lt_upper_bound; lia). lia. }
  intros Hpx Hpy. apply float_step_inj in Hpx, Hpy; try done; try (by apply Hb).
  rewrite (Nat.div_mod_eq i w), (Nat.div_mod_eq j w). congruence.
Qed.

Section import.
Context `{Pglast} `{Sqlglot} `{SqlglotTrees} `{SchemaRendering} `{Sha256}.
Variable validation_text : string -> json -> string.
Variable catalog : PostgresCatalog.

Abbreviation import := (import_postgres_catalog validation_text catalog).

(** What an import that succeeds went through. *)
Lemma import_Ok r :
  import = Ok r ->
  import_content validation_text catalog = Ok (ir_content r, wis_issues (ir_summary r)) /\ validate_design_content (ir_content r) = Ok tt /\
  wis_complete (ir_summary r) = bool_decide (length (wis_issues (ir_summary r)) = 0) /\
  wis_imported_objects (ir_summary r) = imported_objects (ir_content r) /\
  layout_objects (ir_layout r) = layout (ir_content r) /\ SchemiiDesignLayoutContent_check (ir_layout r) = true /\
  summary_valid (ir_summary r) = true.
Proof.
  unfold import_postgres_catalog. destruct (import_content validation_text catalog) as [[content issues]|] eqn:Hc; [|done].
  destruct (validate_design_content content) as [[]|] eqn:Hv; [|done].
  destruct (summary_valid _ && _) eqn:Hs; [|done]. apply andb_true_iff in Hs as [Hs Hl]. intros [= <-]. done.
Qed.

Lemma import_accounted r :
  import = Ok r -> SchemiiDesignContent_check (ir_content r) = true /\ catalog_accounted catalog (ir_content r) (wis_issues (ir_summary r)).
Proof. intros (Hc & _)%import_Ok. by apply import_content_accounted in Hc. Qed.

(** ** Completeness *)

(** A table whose design is all of it. *)
Record table_mirrored (t : PostgresTable) (d : DesignTable) : Prop := {
  tm_id : tb_id d = semantic_id catalog "table" [pb_name t];
  tm_name : tb_name d = pb_name t;
  tm_columns : Forall2 (fun c d => column_held catalog t c d []) (merge_sort ordinal_le (pb_columns t)) (tb_columns d);
  tm_keys : Forall2 (fun k d => key_held catalog t k d []) (source_keys t) (tb_keys d);
  tm_checks : Forall2 (fun c d => check_held catalog t c d []) (pb_checks t) (tb_checks d);
  tm_indexes : Forall2 (fun x d => index_held catalog t x d []) (pb_indexes t) (tb_indexes d);
  tm_plain : pb_kind t = PlainTable /\ pb_is_partition t = false;
  tm_not_null : pb_not_null_constraints t = [];
  tm_exclusion : pb_exclusion_constraints t = [];
}.

Lemma nothing_named {A} (l : list A) (name : A -> string) :
  (forall x, x ∈ l -> exists i, i ∈ @nil ImportIssue /\ ii_object_name i = name x) -> l = [].
Proof. destruct l as [|x l]; [done|]. intros Hl. destruct (Hl x) as (i & Hi & _); [left|]. by apply not_elem_of_nil in Hi. Qed.

Lemma table_held_mirrored t d : table_held catalog t d [] -> table_mirrored t d.
Proof.
  intros [Hid Hname (_ & _ & Hcolumns) (_ & _ & Hkeys) (_ & _ & Hchecks) (_ & _ & Hindexes) Hplain Hnulls Hexclusions].
  constructor; auto.
  - destruct (pb_kind t) eqn:Hk, (pb_is_partition t); [|done|..]; exfalso.
    all: destruct Hplain as (i & Hi & _); auto; by apply not_elem_of_nil in Hi.
  - apply (nothing_named _ (fun c => object_name_of t ++ "." ++ pq_name c)%string), Hnulls.
  - apply (nothing_named _ (fun k => object_name_of t ++ "." ++ pk_name k)%string), Hexclusions.
Qed.


(** C30. No import drops anything silently, and none invents anything. Every type, table, foreign key, routine, view and
    trigger of the catalog is in the design or named by an issue; within an imported table the same holds of its columns,
    keys, CHECK constraints and indexes, and what a design cannot express is named by an issue; and every object of the
    design comes from one of the catalog. *)
Theorem imports_account_for_catalog r :
  import = Ok r -> catalog_accounted catalog (ir_content r) (wis_issues (ir_summary r)).
Proof. apply import_accounted. Qed.

(** ** Soundness *)

Lemma import_built r : import = Ok r -> content_built (ir_content r).
Proof.
  intros Hi. destruct (import_accounted _ Hi) as [Hc [(_ & Hy & _) _ _ (_ & Hf & _) (_ & Hv & _) (_ & Hg & _)]]. constructor; [done|..].
  all: apply Forall_forall; intros d Hd.
  - by destruct (Hy d Hd) as (? & ? & _ & (_ & _ & ?) & _).
  - by destruct (Hf d Hd) as (? & ? & _ & (_ & _ & ?) & _).
  - destruct (Hv d Hd) as ([kind v] & ? & _ & (_ & _ & Hk & _ & Hp & _) & _). unfold valid_population_intent. rewrite Hk, Hp. by destruct kind.
  - by destruct (Hg d Hd) as (? & ? & _ & (_ & _ & ? & _) & _).
Qed.

Lemma placed_ids layer w column_step row_step ids : pos_object_id <$> placed layer w column_step row_step ids = ids.
Proof.
  apply list_eq. intros i. unfold placed. rewrite list_lookup_fmap, list_lookup_imap. by destruct (ids !! i).
Qed.

Lemma layout_ids content : pos_object_id <$> layout content = (tb_id <$> content_tables content) ++ (vw_id <$> content_views content).
Proof. unfold layout. by rewrite fmap_app, !placed_ids. Qed.

Lemma elem_of_placed layer w column_step row_step ids p :
  p ∈ placed layer w column_step row_step ids -> pos_object_id p ∈ ids /\ pos_layer p = layer.
Proof.
  unfold placed. intros (i & x & -> & Hx)%elem_of_lookup_imap. simpl. split; [|done]. by eapply list_elem_of_lookup_2.
Qed.

Lemma layout_allowed content p :
  NoDup ((tb_id <$> content_tables content) ++ (vw_id <$> content_views content)) -> p ∈ layout content -> position_allowed content p = true.
Proof.
  intros (Ht & Hdisjoint & Hv)%NoDup_app. unfold layout. intros Hp. apply bool_decide_eq_true. unfold design_object_ids.
  apply elem_of_app in Hp as [[Hp ->]%elem_of_placed|[Hp ->]%elem_of_placed].
  - rewrite dict_fill_None by (by apply Hdisjoint). apply list_elem_of_fmap in Hp as (t & -> & Hp). by apply (dict_fill_elem tb_id (fun _ => LTables)).
  - apply list_elem_of_fmap in Hp as (v & -> & Hp). by apply (dict_fill_elem vw_id (fun _ => LViews)).
Qed.

Lemma content_sizes content :
  SchemiiDesignContent_check content = true -> length (content_tables content) < 150 * 150 /\ length (content_views content) < 150 * 150.
Proof.
  unfold SchemiiDesignContent_check. intros Hc. split_check. unfold list_check in *.
  repeat match goal with H : (_ && bool_decide _)%bool = true |- _ => apply andb_true_iff in H as [_ H%bool_decide_eq_true] end. lia.
Qed.

Lemma layout_spread content i j p q :
  SchemiiDesignContent_check content = true ->
  layout content !! i = Some p -> layout content !! j = Some q ->
  pos_layer p = pos_layer q -> pos_x p = pos_x q -> pos_y p = pos_y q -> i = j.
Proof.
  intros [Ht Hv]%content_sizes. unfold layout. rewrite <-(length_fmap tb_id) in Ht. rewrite <-(length_fmap vw_id) in Hv.
  set (ts := placed LTables _ _ _ _). set (vs := placed LViews _ _ _ _). rewrite !lookup_app_Some. intros Hi Hj Hl Hx Hy.
  assert (forall k x, ts !! k = Some x -> pos_layer x = LTables) as Hts by (intros k x Hk%list_elem_of_lookup_2; by apply elem_of_placed in Hk as [_ ->]).
  assert (forall k x, vs !! k = Some x -> pos_layer x = LViews) as Hvs by (intros k x Hk%list_elem_of_lookup_2; by apply elem_of_placed in Hk as [_ ->]).
  destruct Hi as [Hi|[Hni Hi]], Hj as [Hj|[Hnj Hj]].
  - eapply placed_distinct; [..|exact Hi|exact Hj|exact Hx|exact Hy]; done.
  - apply Hts in Hi. apply Hvs in Hj. congruence.
  - apply Hvs in Hi. apply Hts in Hj. congruence.
  - enough (i - length ts = j - length ts) by lia. eapply placed_distinct; [..|exact Hi|exact Hj|exact Hx|exact Hy]; done.
Qed.

(** What an import returns is a design the rest of the program accepts. Its content passes every model and the
    validation of designs, with the metadata of types, routines and triggers derived from their definitions; the summary
    says complete exactly when there is no issue and counts the objects of the content; and the layout places every table
    and every view once, on its own layer, no two of a layer on one spot. *)
Theorem imports_are_designs r :
  import = Ok r ->
  content_built (ir_content r) /\ validate_design_content (ir_content r) = Ok tt /\
  (wis_complete (ir_summary r) = true <-> wis_issues (ir_summary r) = []) /\
  wis_imported_objects (ir_summary r) = imported_objects (ir_content r) /\
  SchemiiDesignLayoutContent_check (ir_layout r) = true /\
  pos_object_id <$> layout_objects (ir_layout r) = (tb_id <$> content_tables (ir_content r)) ++ (vw_id <$> content_views (ir_content r)) /\
  Forall (fun p => position_allowed (ir_content r) p = true) (layout_objects (ir_layout r)) /\
  (forall i j p q, layout_objects (ir_layout r) !! i = Some p -> layout_objects (ir_layout r) !! j = Some q ->
     pos_layer p = pos_layer q -> pos_x p = pos_x q -> pos_y p = pos_y q -> i = j).
Proof.
  intros Hi. pose proof (import_built _ Hi) as Hbuilt. destruct (import_Ok _ Hi) as (_ & Hv & Hflag & Hcounts & Hlayout & Hcheck & _).
  assert (NoDup (pos_object_id <$> layout (ir_content r))) as Hnd by (rewrite <-Hlayout; by apply layout_check_NoDup).
  split_and!; try done.
  - rewrite Hflag, bool_decide_eq_true. apply length_zero_iff_nil.
  - by rewrite Hlayout, layout_ids.
  - rewrite Hlayout. apply Forall_forall. intros p Hp. apply layout_allowed; [by rewrite <-layout_ids|done].
  - rewrite Hlayout. intros i j p q. apply layout_spread, Hbuilt.
Qed.
End import.

(** ** A design against itself

    Aligning an import with the design made from it changes nothing, so that the first
    baseline of an imported workspace is the design itself. *)

(** ** Replacements that replace nothing *)

Definition keeps (reps : list (string * string)) : Prop := forall s new, dget s reps = Some new -> new = s.

Lemma replace_ids_keeps reps v : keeps reps -> replace_ids reps v = v.
Proof.
  intros Hk. induction v as [| | |s|l IH|d IH] using json_nested_ind; simpl; try done.
  - destruct (dget s reps) as [new|] eqn:Hd; [|done]. by apply Hk in Hd as ->.
  - f_equal. induction IH as [|v l Hv _ IHl]; [done|]. simpl. by rewrite Hv, IHl.
  - f_equal. induction IH as [|[k v] d Hv _ IHd]; [done|]. simpl in *. by rewrite Hv, IHd.
Qed.

Definition own_pairs (l : list (string * string)) : Prop := Forall (fun kv => kv.2 = kv.1) l.

Lemma keeps_fill l : own_pairs l -> keeps (dict_fill fst snd l []).
Proof.
  intros Hl s new [(kv & Hin & <- & <-)|[_ ?]]%dict_fill_Some; [|done]. unfold own_pairs in Hl. rewrite Forall_forall in Hl. by apply Hl.
Qed.

Lemma own_pairs_concat {A} (f : A -> list (string * string)) l : (forall x, x ∈ l -> own_pairs (f x)) -> own_pairs (concat (f <$> l)).
Proof.
  induction l as [|x l IH]; intros Hf; csimpl; [constructor|]. apply Forall_app. split; [apply Hf; left|]. apply IH. intros y Hy. apply Hf. by right.
Qed.

Lemma own_pairs_replacement id c : c = Some id -> own_pairs (replacement id c).
Proof. intros ->. simpl. case_bool_decide; repeat constructor. Qed.

Lemma candidate_own {K A} `{EqDecision K} (key : A -> K) (val : A -> string) l maps x :
  NoDup (key <$> l) -> x ∈ l -> candidate (dict_fill key val l [] :: maps) (key x) = Some (val x).
Proof. intros Hnd Hx. unfold candidate. simpl. by rewrite (dict_fill_elem key val). Qed.

Lemma child_replacements_own {A} (parts : DesignTable -> list A) name id content maps t :
  NoDup (tb_name <$> content_tables content) -> t ∈ content_tables content -> NoDup (name <$> parts t) ->
  own_pairs (child_replacements (child_maps parts name id content :: maps) parts name id t).
Proof.
  intros Hnames Ht Hnd. apply own_pairs_concat. intros x Hx. apply own_pairs_replacement. unfold child_candidate, child_maps. simpl.
  rewrite (dict_fill_elem tb_name) by done. simpl. by rewrite (dict_fill_elem name id).
Qed.

Section align.
Context `{Pglast} `{Sqlglot} `{SqlglotTrees} `{Sha256}.

Lemma NoDup_by {A B C} (f : A -> B) (g : A -> C) l : (forall x y, x ∈ l -> y ∈ l -> g x = g y -> f x = f y) -> NoDup (f <$> l) -> NoDup (g <$> l).
Proof.
  intros Hfg. induction l as [|x l IH]; csimpl; [constructor|]. intros [Hx Hl]%NoDup_cons. apply NoDup_cons. split.
  - intros (y & Hy & Hin)%list_elem_of_fmap. apply Hx, list_elem_of_fmap. exists y. split; [|done]. apply Hfg; [left|by right|done].
  - apply IH; [|done]. intros y z Hy Hz. apply Hfg; by right.
Qed.

Lemma relationship_identities_distinct content :
  design_ok content -> NoDup (relationship_identity (table_names content) <$> content_relationships content).
Proof.
  intros Hok. apply (NoDup_by (fun r => (rl_source_table_id r, rl_name r))); [|apply Hok]. intros x y Hx Hy. unfold relationship_identity.
  pose proof (do_relationships _ Hok) as Hr. rewrite Forall_forall in Hr.
  destruct (ro_source _ _ (Hr x Hx)) as (s & Hs & Es & _), (ro_source _ _ (Hr y Hy)) as (t & Ht & Et & _). rewrite <-Es, <-Et. unfold table_names.
  pose proof (table_ids_NoDup _ (do_ids _ Hok)) as Hids. rewrite !(dict_fill_elem tb_id tb_name) by done. intros [= Hn ->].
  enough (s = t) as -> by done. destruct (proj1 (NoDup_app _ _) (do_names _ Hok)) as (_ & _ & Hrel). unfold relation_names in Hrel. apply NoDup_app in Hrel as [Hrel _].
  by eapply (NoDup_fmap_elem_eq tb_name).
Qed.

(** Every object of a consistent design is its own candidate in a reference to the design. *)
Lemma replacements_own content references : design_ok content -> keeps (replacements content (content :: references)).
Proof.
  intros Hok. apply keeps_fill. pose proof (do_names _ Hok) as Hnames. apply NoDup_app in Hnames as (Htypes & _ & Hrel).
  pose proof (proj1 (NoDup_app _ _) Hrel) as (Htables & _ & Hviews). pose proof (do_tables _ Hok) as Htab. rewrite Forall_forall in Htab.
  csimpl. repeat apply Forall_app_2; apply own_pairs_concat; intros x Hx.
  - apply own_pairs_replacement, (candidate_own type_identity dt_id); [|done]. apply (NoDup_by dt_name); [|done]. by intros ? ? _ _ [= _ ?].
  - destruct (Htab x Hx) as [_ Hcolumns _ Hconstraints _ _ _ Hindexes _]. apply NoDup_app in Hconstraints as (Hkeys & _ & Hchecks).
    unfold table_replacements. csimpl. repeat apply Forall_app_2; try by apply child_replacements_own.
    by apply own_pairs_replacement, (candidate_own tb_name tb_id).
  - apply own_pairs_replacement, (candidate_own function_identity fn_id); [|done]. apply (NoDup_by routine_signature); [|apply Hok].
    intros f g _ _ [= _ Hn Ha]. unfold routine_signature. by rewrite Hn, Ha.
  - apply own_pairs_replacement, (candidate_own view_identity vw_id); [|done]. apply (NoDup_by vw_name); [|done]. by intros ? ? _ _ [= _ ?].
  - apply own_pairs_replacement, (candidate_own trigger_identity tr_id); [|done].
    apply (NoDup_by (fun t => tr_relation_name t ++ "." ++ tr_name t)%string); [|apply Hok]. by intros ? ? _ _ [= -> ->].
  - apply own_pairs_replacement, (candidate_own (relationship_identity (table_names content)) rl_id); [|done].
    by apply relationship_identities_distinct.
Qed.

Lemma aligned_self content references :
  design_ok content -> content_built content -> aligned_content content (content :: references) = Ok content.
Proof.
  intros Hok Hbuilt. unfold aligned_content. rewrite replace_ids_keeps by by apply replacements_own. by rewrite decode_document.
Qed.
End align.
