(* ===== verification/ImportExamples.v ===== *)
(** * Imports on a sample catalog

    Witnesses for [ImportTheorems] on a small catalog, and a catalog the import refuses. *)

From Stdlib Require Import Ascii String Floats.SpecFloat.
From S2P Require Import Prelude Json PyString DesignModels DefinitionAnalysis DesignValidation DeletionImpact DesignDocument DesignDecode CheckExpressions Reconcile SchemaSource CatalogModels DesignStore ValidationSpec CatalogImport ImportProps ImportTheorems.
Open Scope string_scope.
Open Scope list_scope.

(** ** Libraries *)

Fixpoint bytes_value (s : string) (value : N) : N :=
  match s with
  | EmptyString => value
  | String c s' => bytes_value s' ((value * 257 + byte_of c + 1) mod 2 ^ 128)%N
  end.

Fixpoint hex_digits (n : nat) (value : N) : string :=
  match n with O => "" | S n' => hex_digits n' (value / 16)%N ++ String (hex_char (value mod 16)%N) "" end.

(** A checksum of 64 digits that tells the texts below apart. *)
Definition checksum (s : string) : string := let digits := hex_digits 32 (bytes_value s 1) in digits ++ digits.
#[local] Instance import_sha : Sha256 := {| sha256_hex := checksum |}.

Definition plain_parameter (name : string) : pg_index_elem :=
  {| ie_name := Some name; ie_expr := None; ie_collation := []; ie_opclass := []; ie_opclassopts := [];
     ie_ordering := SORTBY_DEFAULT; ie_nulls_ordering := SORTBY_NULLS_DEFAULT; ie_node := JStr name |}.

Definition email_index_definition : string := "CREATE UNIQUE INDEX people_email ON public.people USING btree (email)".
Definition email_index_statement : pg_index :=
  {| is_idxname := Some "people_email"; is_relname := "people"; is_options := []; is_tableSpace := None;
     is_nulls_not_distinct := false; is_indexParams := [plain_parameter "email"]; is_indexIncludingParams := [];
     is_whereClause := None; is_accessMethod := Some "btree"; is_unique := true |}.

Definition import_pglast : Pglast :=
  {| parse_sql := fun s => if bool_decide (s = email_index_definition) then Some [IndexStmt email_index_statement]
                           else if bool_decide (s = mood_definition) then Some [CreateEnumStmt ["mood"] ["sad"; "ok"]] else None;
     raw_stream := fun v => match v with JStr s => s | _ => "" end;
     TRIGGER_TYPE_BEFORE := 2; TRIGGER_TYPE_INSTEAD := 64; TRIGGER_TYPE_INSERT := 4;
     TRIGGER_TYPE_UPDATE := 16; TRIGGER_TYPE_DELETE := 8; TRIGGER_TYPE_TRUNCATE := 32 |}.
Definition import_trees : SqlglotTrees :=
  {| parse_one := fun _ => None; is_instance := fun _ _ => false; column_table := fun _ => false;
     node_name := fun _ => ""; literal_is_string := fun _ => false; datatype_is := fun _ _ => false;
     tree_eq := fun _ _ => false |}.
Definition import_rendering : SchemaRendering :=
  {| columns_of := fun _ => []; routine_as := fun s _ => s; trigger_as := fun s _ => s |}.
#[local] Existing Instances import_pglast import_trees import_rendering sample_sqlglot.

Definition some_text (model : string) (fields : json) : string := (model ++ " was refused")%string.

(** ** Catalogs *)

Definition text_column (name : string) (ordinal : Z) : PostgresColumn :=
  {| pc_name := name; pc_ordinal := ordinal; pc_data_type := "text"; pc_nullable := false; pc_default_expression := None;
     pc_identity := None; pc_generated := None; pc_collation_schema := Some "pg_catalog"; pc_collation_name := Some "default" |}.

Definition primary (table : string) (columns : list string) : PostgresKey :=
  {| pk_name := (table ++ "_pkey")%string; pk_table := table; pk_columns := columns; pk_definition := "PRIMARY KEY";
     pk_validated := true; pk_deferrable := false; pk_initially_deferred := false |}.

Definition catalog_table (name : string) (columns : list PostgresColumn) (indexes : list PostgresIndex) : PostgresTable :=
  {| pb_namespace := "public"; pb_name := name; pb_kind := PlainTable; pb_is_partition := false; pb_partition_key := None;
     pb_columns := columns; pb_primary_key := Some (primary name ["id"]); pb_unique_constraints := []; pb_checks := [];
     pb_not_null_constraints := []; pb_exclusion_constraints := []; pb_indexes := indexes; pb_triggers := [] |}.

Definition email_index : PostgresIndex :=
  {| px_name := "people_email"; px_table := "people"; px_definition := email_index_definition; px_method := "btree";
     px_unique := true; px_valid := true; px_predicate := None |}.

Definition foreign_key (columns target_columns : list string) : PostgresForeignKeyRelationship :=
  {| pr_name := "orders_person"; pr_source_namespace := "public"; pr_source_table := "orders"; pr_source_columns := columns;
     pr_target_namespace := "public"; pr_target_table := "people"; pr_target_columns := target_columns;
     pr_definition := "FOREIGN KEY"; pr_on_update := NoAction; pr_on_delete := Cascade; pr_match_type := MatchSimple;
     pr_validated := true; pr_deferrable := false; pr_initially_deferred := false |}.

(** People with a unique index on their e-mail, and orders that refer to people by [target]. *)
Definition shop_content (target : string) : PostgresCatalogContent :=
  {| pg_database := "shop"; pg_namespace := "public"; pg_server_version := "17.1"; pg_server_version_num := 170001;
     pg_server_timezone := "UTC";
     pg_types := [{| py_namespace := "public"; py_name := "mood"; py_kind := TKEnum; py_definition := mood_definition |}];
     pg_tables := [catalog_table "orders" [text_column "person" 2; text_column "id" 1] [];
                   catalog_table "people" [text_column "id" 1; text_column "email" 2] [email_index]];
     pg_relationships := [foreign_key ["person"] [target]]; pg_functions := [];
     pg_views := [{| pv_namespace := "public"; pv_name := "emails"; pv_columns := []; pv_query_definition := "SELECT email FROM people";
                     pv_populated := None |}];
     pg_materialized_views := [] |}.

Definition shop (target : string) : PostgresCatalog :=
  {| pg_content := shop_content target; pg_captured_at := 0; pg_fingerprint := catalog_digest (shop_content target) |}.

Definition shop_import : ImportResult :=
  match import_postgres_catalog some_text (shop "id") with
  | Ok r => r
  | Err _ => {| ir_content := {| content_types := []; content_tables := []; content_relationships := []; content_functions := [];
                                 content_views := []; content_triggers := [] |};
                ir_layout := {| layout_objects := [] |};
                ir_summary := {| wis_catalog_fingerprint := ""; wis_catalog_captured_at := 0; wis_complete := false;
                                 wis_imported_objects := []; wis_issues := [] |} |}
  end.

Lemma shop_imported : import_postgres_catalog some_text (shop "id") = Ok shop_import.
Proof. vm_compute. reflexivity. Qed.

(** ** Witnesses *)


Lemma imports_account_for_catalog_witness : catalog_accounted (shop "id") (ir_content shop_import) (wis_issues (ir_summary shop_import)).
Proof. apply (imports_account_for_catalog some_text (shop "id") shop_import). exact shop_imported. Defined.

Lemma imports_are_designs_witness : content_built (ir_content shop_import) /\ length (layout_objects (ir_layout shop_import)) = 3.
Proof.
  split; [|vm_compute; reflexivity]. refine (proj1 (imports_are_designs some_text (shop "id") shop_import _)). exact shop_imported.
Defined.

(** ** A foreign key to a unique index *)

(** A foreign key whose target is the key of a unique index (not of a constraint), which PostgreSQL accepts, is not
    reported as an issue: the import as a whole is refused, though the catalog whose foreign key is
    on the primary key imports completely. *)
Theorem foreign_key_to_unique_index_refused :
  PostgresCatalog_check (shop "email") = true /\
  (exists details, import_postgres_catalog some_text (shop "email") =
     Err (ImportDesignRefused (DesignValidationError "Relationship targets must match a primary or unique key" details))) /\
  wis_complete (ir_summary shop_import) = true.
Proof. split_and!; [vm_compute; reflexivity| |vm_compute; reflexivity]. eexists. vm_compute. reflexivity. Qed.
