(* ===== verification/MigrationTarget.v ===== *)
(** * Migrations in the target database

    [execute_migration], [transaction_status] and their helpers of
    [common/postgres/gateway.py], with the exceptions of [common/postgres/errors.py].

    PostgreSQL itself is outside the program.  A session with it is the record
    [target_session]: what the driver answers to a message, as a function of what the
    target has observed and of everything sent in the session so far.
    [_introspect_connection] is one answer, [ss_inspect].

    - The state the callbacks work on is a type parameter.
    - [pause] is what the rest of the system does to that state before the next message to
      the database; [emit] lets the state see what the target observes: a transaction
      that goes on to apply the reviewed statements, each statement, a commit that took
      effect, and the end of that transaction.
    - [_cleanup] rolls back what was not committed; its own failures are swallowed. *)

From stdpp Require Import pretty.
From Stdlib Require Import Ascii String.
From S2P Require Import Prelude Json PyString DesignModels DefinitionAnalysis DesignValidation MigrationModels CheckExpressions SqlText PlanAnalysis MigrationPlanner Reconcile MigrationReview.
Open Scope string_scope.
Open Scope method_scope.

(** ** Exceptions of the gateway *)

Inductive target_error :=
| TargetConnectionNotFound (message : string)
| TargetGatewayError (code message : string)
| TargetQueryError (sqlstate : option string)
| TargetCapacityError (limit_name : string) (limit observed : Z)
| TargetStaleError (current_fingerprint : string)
| TargetPreconditionError (tables : list string)
| TargetExecutionError (completed_step_count : nat) (sqlstate : option string) (callback_error : option service_error)
| TargetCommitUncertainError.

(** [conversion_validation_message]. *)
Definition conversion_validation_message (sqlstate : option string) : string :=
  match sqlstate with
  | Some s =>
      if bool_decide (s = "SC001")
      then "Strict conversion would alter or lose existing values. Choose a custom expression or revise the target type"
      else if bool_decide (s = "57014")
      then "Conversion validation exceeded the PostgreSQL statement timeout. Ask the administrator to review the configured timeout"
      else if bool_decide (s = "42501")
      then "The connection lacks permission to validate or convert this column"
      else if bool_decide (s ∈ ["42846"; "42804"; "42883"; "42704"])
      then "PostgreSQL cannot use this conversion or its default expression. Review the types and USING expression"
      else if String.prefix "22" s
      then "Some values cannot be converted to the target type. Revise the type or provide an explicit custom expression"
      else if String.prefix "23" s
      then "The conversion violates a required value, unique key, foreign key, or check constraint"
      else "PostgreSQL could not validate the conversion. Check the expression, connection permissions and target availability"
  | None => "PostgreSQL could not validate the conversion. Check the expression, connection permissions and target availability"
  end.

(** [error.code], with the default the coordinator gives [ConnectionNotFoundError]. *)
Definition target_error_code (default : string) (e : target_error) : string :=
  match e with
  | TargetConnectionNotFound _ => default
  | TargetGatewayError code _ => code
  | TargetQueryError _ => "postgres_query_failed"
  | TargetCapacityError _ _ _ => "postgres_connection_capacity_reached"
  | TargetStaleError _ => "postgres_migration_stale"
  | TargetPreconditionError _ => "postgres_migration_precondition_changed"
  | TargetExecutionError _ _ _ => "postgres_migration_failed"
  | TargetCommitUncertainError => "postgres_migration_commit_uncertain"
  end.

(** [str(error)]. *)
Definition target_error_message (e : target_error) : string :=
  match e with
  | TargetConnectionNotFound message => message
  | TargetGatewayError _ message => message
  | TargetQueryError _ => "PostgreSQL catalog query failed"
  | TargetCapacityError _ _ _ =>
      "Schemii is using all configured PostgreSQL connection slots. Wait for an active operation to finish and retry."
  | TargetStaleError _ => "PostgreSQL changed after the migration was reviewed"
  | TargetPreconditionError _ => "A table that had to remain empty received rows after the migration was reviewed"
  | TargetExecutionError _ sqlstate _ =>
      match nonempty_text sqlstate with
      | Some s => conversion_validation_message (Some s)
      | None => "PostgreSQL rejected the migration"
      end ++ "; all migration statements were rolled back"
  | TargetCommitUncertainError => "The PostgreSQL connection ended while the migration commit outcome was unknown"
  end.

Definition catalog_invalid : target_error :=
  TargetGatewayError "postgres_catalog_invalid" "PostgreSQL returned invalid catalog metadata".
Definition namespace_invalid : target_error :=
  TargetGatewayError "postgres_invalid_namespace" "The PostgreSQL namespace is invalid".
Definition database_mismatch : target_error :=
  TargetGatewayError "postgres_database_mismatch" "The connected PostgreSQL database does not match the requested database".
Definition transaction_status_error : target_error :=
  TargetGatewayError "postgres_transaction_status_unavailable" "PostgreSQL could not determine the migration transaction status".

(** [getattr(error, "sqlstate", None)]. *)
Definition target_sqlstate (e : target_error) : option string :=
  match e with
  | TargetQueryError s => s
  | TargetExecutionError _ s _ => s
  | _ => None
  end.

(** ** A session *)

(** Whether [commit()] returned; when it raised, whether PostgreSQL committed anyway. *)
Inductive commit_reply := CommitConfirmed | CommitLost (applied : bool).

(** A statement or query with its parameters. *)
Abbreviation message := (string * list string)%type.

Record target_session (O Catalog : Type) := {
  ss_connect : O -> result target_error unit;
  ss_execute : O -> list message -> result (option string) unit;
  ss_rows : O -> list message -> option (list json_object);
  ss_inspect : O -> list message -> result target_error Catalog;
  ss_commit : O -> commit_reply;
}.
Arguments ss_connect {O Catalog}. Arguments ss_execute {O Catalog}. Arguments ss_rows {O Catalog}.
Arguments ss_inspect {O Catalog}. Arguments ss_commit {O Catalog}.

(** What the target observes of a migration. *)
Inductive target_event :=
| Applying (transaction_id : string) (identity : json_object)
| Statement (sql : string)
| CommittedInTarget
| Closed.

Record PostgresMigrationResult (Catalog : Type) := {
  pmr_catalog : Catalog;
  pmr_transaction_id : string;
  pmr_target_identity : json_object;
  pmr_completed_step_count : nat;
}.
Arguments pmr_catalog {Catalog}. Arguments pmr_transaction_id {Catalog}.
Arguments pmr_target_identity {Catalog}. Arguments pmr_completed_step_count {Catalog}.

(** [PostgresTransactionRecovery]. *)
Record PostgresTransactionRecovery := {
  ptr_status : string;
  ptr_target_identity : json_object;
}.

(** ** Checks of names and rows *)

Definition postgres_name (name : string) : bool :=
  negb (bool_decide (name = "")) && negb (str_contains nul_text name) && bool_decide (String.length name <= 63).

Definition validated_namespace (namespace : string) : result target_error string :=
  if postgres_name namespace then Ok namespace else Err namespace_invalid.

Definition validated_table_names (table_names : list string) : result target_error (list string) :=
  let names := sorted_set table_names in
  if forallb postgres_name names then Ok names else Err catalog_invalid.

(** [_one]. *)
Definition one_row (rows : list json_object) : result target_error json_object :=
  match rows with [row] => Ok row | _ => Err (TargetQueryError None) end.

Definition row_value (name : string) (row : json_object) : json :=
  match dget name row with Some v => v | None => JNull end.

(** [_require_database]. *)
Definition require_database (row : json_object) (expected_database : string) : result target_error unit :=
  match row_value "database" row with
  | JStr database => if bool_decide (database = expected_database) then Ok tt else Err database_mismatch
  | _ => Err (TargetQueryError None)
  end.

(** [isdigit] on ASCII texts. *)
Definition ascii_digit (c : ascii) : bool := (48 <=? nat_of_ascii c)%nat && (nat_of_ascii c <=? 57)%nat.
Fixpoint all_digits (s : string) : bool :=
  match s with EmptyString => true | String c s' => ascii_digit c && all_digits s' end.
Definition py_isdigit (s : string) : bool := negb (bool_decide (s = "")) && all_digits s.

Definition nonempty_str (v : json) : bool := match v with JStr s => negb (bool_decide (s = "")) | _ => false end.

(** The checks of [_target_identity] after the database. *)
Definition identity_complete (identity : json_object) : bool :=
  nonempty_str (row_value "database_oid" identity)
  && match row_value "server_version_num" identity with JStr s => py_isdigit s | _ => false end
  && nonempty_str (row_value "server_address" identity)
  && match row_value "server_port" identity with JInt z => bool_decide (0 <= z)%Z | _ => false end.

(** ** Statements of the gateway *)

Definition IDLE_TRANSACTION_TIMEOUT_MS : Z := 30000.

Definition timeout_ceiling_sql (setting : string) (configured_milliseconds : Z) : string :=
  let value := pretty configured_milliseconds ++ "ms" in
  "SELECT set_config('" ++ setting ++ "', CASE WHEN current_setting('" ++ setting ++ "')::interval = interval '0' "
  ++ "OR current_setting('" ++ setting ++ "')::interval > interval '" ++ value ++ "' THEN '" ++ value
  ++ "' ELSE current_setting('" ++ setting ++ "') END, true)".

Definition begin_write_sql (statement_timeout_ms lock_timeout_ms : Z) (fresh_snapshots : bool) : list string :=
  ["BEGIN TRANSACTION ISOLATION LEVEL " ++ (if fresh_snapshots then "READ COMMITTED" else "SERIALIZABLE");
   timeout_ceiling_sql "statement_timeout" statement_timeout_ms; timeout_ceiling_sql "lock_timeout" lock_timeout_ms;
   timeout_ceiling_sql "idle_in_transaction_session_timeout" IDLE_TRANSACTION_TIMEOUT_MS].

Definition begin_read_only_sql (statement_timeout_ms lock_timeout_ms : Z) : list string :=
  ["BEGIN TRANSACTION READ ONLY";
   timeout_ceiling_sql "statement_timeout" statement_timeout_ms; timeout_ceiling_sql "lock_timeout" lock_timeout_ms;
   timeout_ceiling_sql "idle_in_transaction_session_timeout" IDLE_TRANSACTION_TIMEOUT_MS].

Definition advisory_lock_sql : string := "SELECT pg_advisory_xact_lock(hashtext(current_database()), hashtext(%s))".
Definition lock_table_sql (namespace table_name : string) : string :=
  "LOCK TABLE " ++ qualified namespace table_name ++ " IN ACCESS EXCLUSIVE MODE".
Definition emptiness_sql (namespace table_name : string) : string :=
  "/* schemii_table_emptiness */ SELECT NOT EXISTS (SELECT 1 FROM " ++ qualified namespace table_name ++ " LIMIT 1) AS is_empty".
Definition target_identity_sql : string :=
  "SELECT current_database() AS database, (SELECT oid::text FROM pg_database WHERE datname = current_database()) AS database_oid, "
  ++ "current_setting('server_version_num') AS server_version_num, COALESCE(inet_server_addr()::text, 'local') AS server_address, "
  ++ "COALESCE(inet_server_port(), 0) AS server_port".
Definition transaction_id_sql : string := "SELECT pg_current_xact_id()::text AS transaction_id".
Definition transaction_status_sql : string := "SELECT pg_xact_status(%s::xid8) AS status".

(** ** Running in a session *)

(** The local variables of [execute_migration] that its handlers read, with the messages
    of the session. *)
Record session_progress := {
  sp_sent : list message;
  sp_completed : nat;
  sp_commit_attempted : bool;
}.

Definition session_start : session_progress := {| sp_sent := []; sp_completed := 0; sp_commit_attempted := false |}.

(** What the body of the [try] raises: an exception of the gateway or of a callback. *)
Inductive body_error :=
| InGateway (e : target_error)
| InCallback (e : service_error).

Section session.
Context {S O Catalog : Type}.
Variable observe : S -> O.
Variable catalog_fingerprint : Catalog -> string.
Variables (migration_timeout_ms catalog_timeout_ms lock_timeout_ms : Z).
Variable pause : S -> S.
Variable emit : target_event -> S -> S.

Abbreviation in_session := (method (S * session_progress) body_error).

Definition m_gateway {A} (r : result target_error A) : in_session A :=
  m_lift (match r with Ok a => Ok a | Err e => Err (InGateway e) end).

Definition note (event : target_event) : in_session unit := m_update (fun s => (emit event s.1, s.2)).

(** A message to the target: the rest of the system acts first. *)
Definition send {A} (m : message) (answer : O -> list message -> result target_error A) : in_session A := fun s =>
  let s' := pause s.1 in
  let sent := (sp_sent s.2 ++ [m])%list in
  ((s', {| sp_sent := sent; sp_completed := sp_completed s.2; sp_commit_attempted := sp_commit_attempted s.2 |}),
   match answer (observe s') sent with Ok a => Ok a | Err e => Err (InGateway e) end).

(** [_connect]. *)
Definition connect_target (session : target_session O Catalog) : in_session unit := fun s =>
  let s' := pause s.1 in
  ((s', s.2), match ss_connect session (observe s') with Ok u => Ok u | Err e => Err (InGateway e) end).

(** [_execute_statement]. *)
Definition execute_statement (session : target_session O Catalog) (sql : string) : in_session unit :=
  send (sql, []) (fun o sent =>
    match ss_execute session o sent with Ok u => Ok u | Err sqlstate => Err (TargetQueryError sqlstate) end).

Fixpoint execute_statements (session : target_session O Catalog) (statements : list string) : in_session unit :=
  match statements with
  | [] => m_return tt
  | sql :: rest => execute_statement session sql ;;* execute_statements session rest
  end.

(** [_execute_rows]. *)
Definition execute_rows (session : target_session O Catalog) (m : message) : in_session (list json_object) :=
  send m (fun o sent => match ss_rows session o sent with Some rows => Ok rows | None => Err (TargetQueryError None) end).

Definition execute_one (session : target_session O Catalog) (m : message) : in_session json_object :=
  let* rows := execute_rows session m in m_gateway (one_row rows).

(** [_introspect_connection] in the session. *)
Definition inspect_in_session (session : target_session O Catalog) : in_session Catalog :=
  send ("", []) (ss_inspect session).

(** [_table_emptiness_connection]. *)
Fixpoint table_emptiness (session : target_session O Catalog) (namespace : string) (table_names : list string)
    : in_session (list (string * bool)) :=
  match table_names with
  | [] => m_return []
  | name :: rest =>
      let* row := execute_one session (emptiness_sql namespace name, []) in
      let* is_empty := m_gateway (match row_value "is_empty" row with JBool b => Ok b | _ => Err catalog_invalid end) in
      let* others := table_emptiness session namespace rest in
      m_return ((name, is_empty) :: others)
  end.

(** [_target_identity]. *)
Definition read_target_identity (session : target_session O Catalog) (database : string) : in_session json_object :=
  let* identity := execute_one session (target_identity_sql, []) in
  m_gateway (require_database identity database) ;;*
  m_gateway (if identity_complete identity then Ok tt else Err catalog_invalid) ;;*
  m_return identity.

Definition count_statement : in_session unit := m_update (fun s =>
  (s.1, {| sp_sent := sp_sent s.2; sp_completed := (sp_completed s.2 + 1)%nat; sp_commit_attempted := sp_commit_attempted s.2 |})).

(** The loop over the reviewed statements. *)
Fixpoint apply_statements (session : target_session O Catalog) (statements : list string) : in_session unit :=
  match statements with
  | [] => m_return tt
  | sql :: rest =>
      m_gateway (if is_blank sql then Err catalog_invalid else Ok tt) ;;*
      execute_statement session sql ;;*
      note (Statement sql) ;;*
      count_statement ;;*
      apply_statements session rest
  end.

(** [commit()]. *)
Definition commit_session (session : target_session O Catalog) : in_session unit :=
  m_update (fun s => (pause s.1, {| sp_sent := sp_sent s.2; sp_completed := sp_completed s.2; sp_commit_attempted := true |})) ;;*
  let* s := m_get in
  match ss_commit session (observe s.1) with
  | CommitConfirmed => note CommittedInTarget
  | CommitLost applied =>
      (if applied then note CommittedInTarget else m_return tt) ;;* m_gateway (Err TargetCommitUncertainError)
  end.

Definition in_callback {A} (m : method S service_error A) : in_session A := fun s =>
  match m s.1 with
  | (s', Ok a) => ((s', s.2), Ok a)
  | (s', Err e) => ((s', s.2), Err (InCallback e))
  end.

(** From the connection to the last check before the callbacks: the evidence of the run. *)
Definition prepare_migration (session : target_session O Catalog) (database namespace expected_catalog_fingerprint : string)
    (empty_preconditions conversion_locks : list string) : in_session (string * json_object) :=
  connect_target session ;;*
  execute_statements session
    (begin_write_sql migration_timeout_ms lock_timeout_ms (negb (bool_decide (conversion_locks = [])))) ;;*
  let* _ := execute_rows session (advisory_lock_sql, [namespace]) in
  execute_statements session (lock_table_sql namespace <$> sorted_union empty_preconditions conversion_locks) ;;*
  execute_statements session (if bool_decide (conversion_locks = []) then []
    else ["SET LOCAL row_security = off"; "SET LOCAL extra_float_digits = 3"]) ;;*
  let* live := inspect_in_session session in
  m_gateway (if bool_decide (catalog_fingerprint live = expected_catalog_fingerprint) then Ok tt
             else Err (TargetStaleError (catalog_fingerprint live))) ;;*
  let* emptiness := table_emptiness session namespace empty_preconditions in
  let nonempty := fst <$> filter (fun kv => kv.2 = false) emptiness in
  m_gateway (if bool_decide (nonempty = []) then Ok tt else Err (TargetPreconditionError nonempty)) ;;*
  let* identity := read_target_identity session database in
  let* row := execute_one session (transaction_id_sql, []) in
  m_gateway (match row_value "transaction_id" row with
             | JStr t => if bool_decide (t = "") then Err catalog_invalid else Ok (t, identity)
             | _ => Err catalog_invalid
             end).

(** The reviewed statements, the check of their result and the commit. *)
Definition apply_migration (session : target_session O Catalog) (statements : list string)
    (on_intended : Catalog -> method S service_error unit) (transaction_id : string) (identity : json_object)
    : in_session (PostgresMigrationResult Catalog) :=
  apply_statements session statements ;;*
  let* result_catalog := inspect_in_session session in
  in_callback (on_intended result_catalog) ;;*
  commit_session session ;;*
  let* s := m_get in
  m_return {| pmr_catalog := result_catalog; pmr_transaction_id := transaction_id; pmr_target_identity := identity;
              pmr_completed_step_count := sp_completed s.2 |}.

(** The end of a transaction that had started to apply: [_cleanup]. *)
Definition until_closed {A} (m : in_session A) : in_session A := fun s =>
  let '(s', r) := m s in ((emit Closed s'.1, s'.2), r).

(** The body of the [try]. *)
Definition migration_body (session : target_session O Catalog) (database namespace expected_catalog_fingerprint : string)
    (statements : list string) (on_started : string -> json_object -> method S service_error unit)
    (on_intended : Catalog -> method S service_error unit) (empty_preconditions conversion_locks : list string)
    : in_session (PostgresMigrationResult Catalog) :=
  let* (transaction_id, identity) :=
    prepare_migration session database namespace expected_catalog_fingerprint empty_preconditions conversion_locks in
  in_callback (on_started transaction_id identity) ;;*
  note (Applying transaction_id identity) ;;*
  until_closed (apply_migration session statements on_intended transaction_id identity).

(** The handlers of the [try]. *)
Definition body_failure (p : session_progress) (conversion_locks : list string) (e : body_error) : target_error :=
  match e with
  | InGateway (TargetStaleError _ as e) | InGateway (TargetPreconditionError _ as e)
  | InGateway (TargetCommitUncertainError as e) => e
  | InGateway e =>
      if negb (bool_decide (sp_completed p = 0)) || sp_commit_attempted p
      then TargetExecutionError (sp_completed p) (if bool_decide (conversion_locks = []) then None else target_sqlstate e) None
      else e
  | InCallback e =>
      if sp_commit_attempted p then TargetCommitUncertainError
      else TargetExecutionError (sp_completed p) None (Some e)
  end.

Definition execute_migration (session : target_session O Catalog) (database namespace expected_catalog_fingerprint : string)
    (statements : list string) (on_started : string -> json_object -> method S service_error unit)
    (on_intended : Catalog -> method S service_error unit) (required_empty_tables conversion_tables : list string)
    : method S target_error (PostgresMigrationResult Catalog) :=
  let* namespace := m_lift (validated_namespace namespace) in
  let* empty_preconditions := m_lift (validated_table_names required_empty_tables) in
  let* conversion_locks := m_lift (validated_table_names conversion_tables) in
  fun s =>
    match migration_body session database namespace expected_catalog_fingerprint statements on_started on_intended
            empty_preconditions conversion_locks (s, session_start) with
    | ((s', p), Ok r) => (s', Ok r)
    | ((s', p), Err e) => (s', Err (body_failure p conversion_locks e))
    end.

(** ** Transaction status *)

Definition transaction_status (session : target_session O Catalog) (database transaction_id : string)
    : method S target_error PostgresTransactionRecovery := fun s =>
  if negb (py_isdigit transaction_id) then (s, Err transaction_status_error) else
  match (connect_target session ;;*
         execute_statements session (begin_read_only_sql catalog_timeout_ms lock_timeout_ms) ;;*
         let* identity := read_target_identity session database in
         let* row := execute_one session (transaction_status_sql, [transaction_id]) in
         m_gateway (match row_value "status" row with
                    | JStr status => if bool_decide (status ∈ ["committed"; "aborted"; "in progress"])
                        then Ok {| ptr_status := status; ptr_target_identity := identity |} else Err transaction_status_error
                    | _ => Err transaction_status_error
                    end)) (s, session_start) with
  | ((s', _), Ok r) => (s', Ok r)
  | ((s', _), Err (InGateway e)) => (s', Err e)
  | ((s', _), Err (InCallback _)) => (s', Err transaction_status_error)
  end.
End session.
