(* ===== verification/MigrationExecution.v ===== *)
(** * Executing migrations

    [MigrationExecutionCoordinator] of [migrations/execution.py] and the loop of
    [migrations/worker.py]: claiming work, running a reviewed plan in the target database,
    recovery from transaction evidence, and synchronisation after the commit.

    - A [world] is the migration repository, the log of what the target database observed
      of each execution and by which coordinator, and the number of clock readings,
      tokens and calls so far.
    - Other threads and processes act between any two calls: [interfere] changes the
      repository and the log before every call of the repository and every message to
      the target.
    - [clock] and [token] give the readings of the clock and the random tokens; [target],
      [connections] and [workspaces] what PostgreSQL, the connection service and the
      workspace repository answer at a given time.
    - The renewals of the worker's heartbeat are calls of [renew] made by another thread.
    - Recording a limit event and logging change nothing the coordinator reads. *)

From stdpp Require Import pretty.
From Stdlib Require Import Ascii String.
From S2P Require Import Prelude Json PyString DesignModels DefinitionAnalysis DesignValidation DesignDocument DesignDecode MigrationModels MigrationStore CheckExpressions Reconcile SqlText PlanAnalysis MigrationPlanner MigrationReview MigrationTarget.
Open Scope string_scope.
Open Scope method_scope.

(** ** Changes of a transition *)

Definition no_changes : transition_changes :=
  {| ch_completed_step_count := UNSET; ch_transaction_id := UNSET; ch_target_identity := UNSET; ch_intended_result := UNSET;
     ch_commit_outcome := UNSET; ch_sync_status := UNSET; ch_error_code := UNSET; ch_error_detail := UNSET |}.

Definition with_steps (n : nat) (c : transition_changes) : transition_changes :=
  {| ch_completed_step_count := Given (Z.of_nat n); ch_transaction_id := ch_transaction_id c;
     ch_target_identity := ch_target_identity c; ch_intended_result := ch_intended_result c;
     ch_commit_outcome := ch_commit_outcome c; ch_sync_status := ch_sync_status c; ch_error_code := ch_error_code c;
     ch_error_detail := ch_error_detail c |}.
Definition with_run (transaction_id : string) (identity : json_object) (c : transition_changes) : transition_changes :=
  {| ch_completed_step_count := ch_completed_step_count c; ch_transaction_id := Given (Some transaction_id);
     ch_target_identity := Given (Some identity); ch_intended_result := ch_intended_result c;
     ch_commit_outcome := ch_commit_outcome c; ch_sync_status := ch_sync_status c; ch_error_code := ch_error_code c;
     ch_error_detail := ch_error_detail c |}.
Definition with_intended (intended : json_object) (c : transition_changes) : transition_changes :=
  {| ch_completed_step_count := ch_completed_step_count c; ch_transaction_id := ch_transaction_id c;
     ch_target_identity := ch_target_identity c; ch_intended_result := Given (Some intended);
     ch_commit_outcome := ch_commit_outcome c; ch_sync_status := ch_sync_status c; ch_error_code := ch_error_code c;
     ch_error_detail := ch_error_detail c |}.
Definition with_outcome (o : commit_outcome_kind) (c : transition_changes) : transition_changes :=
  {| ch_completed_step_count := ch_completed_step_count c; ch_transaction_id := ch_transaction_id c;
     ch_target_identity := ch_target_identity c; ch_intended_result := ch_intended_result c;
     ch_commit_outcome := Given (Some o); ch_sync_status := ch_sync_status c; ch_error_code := ch_error_code c;
     ch_error_detail := ch_error_detail c |}.
Definition with_sync (s : sync_kind) (c : transition_changes) : transition_changes :=
  {| ch_completed_step_count := ch_completed_step_count c; ch_transaction_id := ch_transaction_id c;
     ch_target_identity := ch_target_identity c; ch_intended_result := ch_intended_result c;
     ch_commit_outcome := ch_commit_outcome c; ch_sync_status := Given (Some s); ch_error_code := ch_error_code c;
     ch_error_detail := ch_error_detail c |}.
Definition with_error (code : option string) (c : transition_changes) : transition_changes :=
  {| ch_completed_step_count := ch_completed_step_count c; ch_transaction_id := ch_transaction_id c;
     ch_target_identity := ch_target_identity c; ch_intended_result := ch_intended_result c;
     ch_commit_outcome := ch_commit_outcome c; ch_sync_status := ch_sync_status c; ch_error_code := Given code;
     ch_error_detail := ch_error_detail c |}.
Definition with_detail (detail : option json_object) (c : transition_changes) : transition_changes :=
  {| ch_completed_step_count := ch_completed_step_count c; ch_transaction_id := ch_transaction_id c;
     ch_target_identity := ch_target_identity c; ch_intended_result := ch_intended_result c;
     ch_commit_outcome := ch_commit_outcome c; ch_sync_status := ch_sync_status c; ch_error_code := ch_error_code c;
     ch_error_detail := Given detail |}.

(** The changes that report a run that was rolled back, or whose outcome is unknown. *)
Definition rolled_back (code : string) : transition_changes := with_outcome RolledBack (with_error (Some code) no_changes).
Definition uncertain (code : string) : transition_changes := with_outcome CommitUncertain (with_error (Some code) no_changes).

(** [{**a, **b}]. *)
Definition merge_details (a b : json_object) : json_object := foldl (fun d kv => dset kv.1 kv.2 d) a b.

Record MigrationExecutionCreate := {
  mxc_review_digest : string;
  mxc_confirm_destructive : bool;
  mxc_confirm_external_changes : bool;
}.

Abbreviation target_log := (list (repo_key * (string * target_event))).

Record world (D Catalog : Type) := {
  w_repo : MigrationRepo D Catalog;
  w_log : target_log;
  w_ticks : nat;
}.
Arguments w_repo {D Catalog}. Arguments w_log {D Catalog}. Arguments w_ticks {D Catalog}.

Section coordinator.
Context {D Catalog : Type} `{!DesignRepositoryOps D}.
Context `{Pglast} `{SqlglotRelations} `{SqlglotTrees} `{Sha256}.

Variable catalog_fingerprint : Catalog -> string.
Variable import_catalog : Catalog -> ImportedDesign.
Variable claim_guard : string -> string -> result migration_error unit.
Variable designs_get : string -> string -> method D design_error SchemiiDesign.

(** [catalog.model_dump(mode="json")] and [PostgresCatalog.model_validate_json]. *)
Variable catalog_document : Catalog -> json.
Variable read_catalog : json -> option Catalog.

Variable lease_ttl : Z.
Variables (migration_timeout_ms catalog_timeout_ms lock_timeout_ms : Z).
(** Whether the gateway has [execute_migration] and [transaction_status]. *)
Variables (executes_migrations reads_status : bool).

(** The name of this coordinator in the log. *)
Variable me : string.
Variable clock : nat -> Z.
Variable token : nat -> string.
Variable interfere : nat -> MigrationRepo D Catalog * target_log -> MigrationRepo D Catalog * target_log.
Variable target : nat -> target_session target_log Catalog.
Variable connections : nat -> string -> string -> result target_error connection_view.
Variable workspaces : nat -> string -> string -> result string SchemiiWorkspace.

Abbreviation Repo := (MigrationRepo D Catalog).
Abbreviation World := (world D Catalog).
Abbreviation coordinated := (method World service_error).

(** ** Time and other threads *)

Definition tick (w : World) : World := {| w_repo := w_repo w; w_log := w_log w; w_ticks := Datatypes.S (w_ticks w) |}.
Definition pause (w : World) : World :=
  let '(r, l) := interfere (w_ticks w) (w_repo w, w_log w) in
  {| w_repo := r; w_log := l; w_ticks := Datatypes.S (w_ticks w) |}.
Definition emit_for (k : repo_key) (event : target_event) (w : World) : World :=
  {| w_repo := w_repo w; w_log := (w_log w ++ [(k, (me, event))])%list; w_ticks := w_ticks w |}.
Definition put_repo (r : Repo) (w : World) : World := {| w_repo := r; w_log := w_log w; w_ticks := w_ticks w |}.

Definition read_clock : coordinated Z := fun w => (tick w, Ok (clock (w_ticks w))).
Definition fresh_token : coordinated string := fun w => (tick w, Ok (token (w_ticks w))).
Definition lease_deadline : coordinated Z := let* now := read_clock in m_return (now + lease_ttl)%Z.

(** A call of the repository, which reads the clock and draws tokens itself. *)
Definition repository_call {A} (m : Z -> string -> method Repo migration_error A) : method World migration_error A := fun w =>
  let w' := pause w in
  let '(r, result) := m (clock (w_ticks w)) (token (w_ticks w)) (w_repo w') in (put_repo r w', result).

(** The exceptions of a call, translated. *)
Definition mapping_errors {E A} (f : E -> service_error) (m : method World E A) : coordinated A := fun w =>
  match m w with (w', Ok a) => (w', Ok a) | (w', Err e) => (w', Err (f e)) end.

(** [except MigrationNotFoundError]. *)
Definition not_found_error (code : string) (e : migration_error) : service_error :=
  match e with
  | MigrationNotFoundError message => MigrationServiceError 404 code message [] false
  | e => RepositoryRaised e
  end.

Definition execution_plan (owner_id plan_id : string) : coordinated (PlanRecord Catalog) :=
  mapping_errors (not_found_error "migration_plan_not_found") (repository_call (fun _ _ => get_plan owner_id plan_id)).

Definition execution_of (owner_id execution_id : string) : coordinated ExecutionRecord :=
  mapping_errors (not_found_error "migration_execution_not_found")
    (repository_call (fun _ _ => get_execution owner_id execution_id)).

Definition workspace_of (owner_id workspace_id : string) : coordinated SchemiiWorkspace := fun w =>
  (tick w, match workspaces (w_ticks w) owner_id workspace_id with
           | Ok workspace => Ok workspace
           | Err message => Err (MigrationServiceError 404 "workspace_not_found" message [] false)
           end).

(** A call of the design repository.  The in-memory one knows every workspace. *)
Definition designs_call {A} (m : Z -> method D design_error A) : method World design_error A := fun w =>
  let w' := pause w in
  let '(d, result) := m (clock (w_ticks w)) (mg_designs (w_repo w')) in
  (put_repo (put_designs d (w_repo w')) w', result).

Definition design_now (owner_id workspace_id : string) : coordinated SchemiiDesign :=
  mapping_errors DesignsRaised (designs_call (fun _ => designs_get owner_id workspace_id)).

Definition baseline_now (owner_id workspace_id : string) : coordinated (option (BaselineRecord Catalog)) :=
  mapping_errors RepositoryRaised (repository_call (fun _ _ => current_baseline owner_id workspace_id)).

(** ** Transitions *)

Definition retains_lease (status : execution_status) (sync : option sync_kind) : bool :=
  bool_decide (status ∈ [SReserved; SApplying]) || (bool_decide (status = SSucceeded) && sync_unsettled sync).

(** [_transition_execution]. *)
Definition move_execution (record : ExecutionRecord) (status : execution_status) (recover_expired : bool)
    (changes : transition_changes) : coordinated ExecutionRecord :=
  let retains := retains_lease status (field_or (ch_sync_status changes) (mx_sync_status (er_execution record))) in
  let* lease_owner :=
    match er_lease_owner record with
    | Some owner => m_return (Some owner)
    | None => if retains then let* t := fresh_token in m_return (Some ("mls_" ++ t)) else m_return None
    end in
  let* lease_expires_at := if retains then let* t := lease_deadline in m_return (Some t) else m_return None in
  let* recover_expired_before := if recover_expired then let* t := read_clock in m_return (Some t) else m_return None in
  mapping_errors repository_error
    (repository_call (fun now _ =>
       transition_execution now (er_owner_id record) (mx_id (er_execution record)) (mx_revision (er_execution record))
         [mx_status (er_execution record)] status lease_owner lease_expires_at recover_expired_before changes)).

(** A transition whose execution is returned. *)
Definition settle (record : ExecutionRecord) (status : execution_status) (recover_expired : bool)
    (changes : transition_changes) : coordinated MigrationExecution :=
  let* moved := move_execution record status recover_expired changes in m_return (er_execution moved).

(** [_fail_before_apply]. *)
Definition fail_before_apply {A} (record : ExecutionRecord) (status : Z) (code message : string) (details : json_object)
    : coordinated A :=
  let* failed := move_execution record SFailed false
    (with_detail (Some (merge_details [("beforeTargetMutation", JBool true)] details)) (rolled_back code)) in
  m_raise (MigrationServiceError status code message
    (merge_details [("executionId", JStr (mx_id (er_execution failed)))] details) false).

(** ** The queue *)

Definition reserve (owner_id : string) (record : PlanRecord Catalog) (request : MigrationExecutionCreate)
    : coordinated ExecutionReservation :=
  let* reserved_at := read_clock in
  mapping_errors repository_error
    (repository_call (fun _ t =>
       reserve_execution claim_guard t owner_id (mp_id (pr_plan record)) (mxc_review_digest request)
         (mxc_confirm_destructive request) (mxc_confirm_external_changes request) reserved_at)).

Definition claim_next (worker_id : string) : coordinated (option ExecutionWork) :=
  let* now := read_clock in
  mapping_errors RepositoryRaised
    (repository_call (fun _ _ => claim_next_execution now worker_id (now + lease_ttl)%Z)).

Definition renew (work : ExecutionWork) : coordinated bool :=
  match er_lease_owner (wk_record work) with
  | None => m_return false
  | Some lease_owner =>
      let* expires := lease_deadline in
      mapping_errors RepositoryRaised
        (repository_call (fun _ _ => renew_execution_lease (er_owner_id (wk_record work))
           (mx_id (er_execution (wk_record work))) lease_owner expires))
  end.

Definition list_recoverable (limit : nat) : coordinated (list ExecutionRecord) :=
  if bool_decide (1 <= limit <= 250) then
    let* now := read_clock in
    mapping_errors RepositoryRaised (repository_call (fun _ _ => list_recoverable_executions now limit))
  else m_raise (RepositoryRaised (MigrationValueError "recoverable execution limit must be between 1 and 250")).

(** ** Synchronisation after the commit *)

(** The design and catalog an execution intended, from its stored result. *)
Definition intended_content (intended : json_object) : reviewed SchemiiDesignContent :=
  match dget "content" intended with
  | Some v => match decode_content v with Some content => Ok content | None => Err ModelRaised end
  | None => Err (RepositoryRaised (MigrationKeyError "content"))
  end.

Definition intended_catalog (intended : json_object) : reviewed Catalog :=
  match dget "catalog" intended with
  | Some v => match read_catalog v with Some catalog => Ok catalog | None => Err ModelRaised end
  | None => Err (RepositoryRaised (MigrationKeyError "catalog"))
  end.

(** The design of the workspace becomes the intended one, unless it changed since the
    review: the design as read last, and whether it conflicts. *)
Definition sync_design (owner_id : string) (record : PlanRecord Catalog) (merged : SchemiiDesignContent)
    : coordinated (SchemiiDesign * bool) :=
  let plan := pr_plan record in
  let* design := design_now owner_id (mp_workspace_id plan) in
  if bool_decide (design_fingerprint_field design = design_fingerprint merged) then m_return (design, false) else
  if negb (bool_decide (design_revision design = mp_design_revision plan))
     || negb (bool_decide (design_fingerprint_field design = mp_design_fingerprint plan))
  then m_return (design, true)
  else fun w =>
    match designs_call (fun now => designs_replace now owner_id (mp_workspace_id plan)
            {| drep_expected_design_revision := design_revision design; drep_content := merged; drep_history_group_id := None |}
            "checkpoint") w with
    | (w', Ok design') => (w', Ok (design', false))
    | (w', Err (DesignConflictError _)) => (w', Ok (design, true))
    | (w', Err e) => (w', Err (DesignsRaised e))
    end.

Definition sync_baseline_values (owner_id execution_id : string) (record : PlanRecord Catalog) (design_revision : Z)
    (merged : SchemiiDesignContent) (catalog : Catalog) (head : option string) : baseline_values Catalog :=
  let authority := pr_authority record in
  {| bv_owner_id := owner_id; bv_workspace_id := mp_workspace_id (pr_plan record);
     bv_connection_id := pa_connection_id authority;
     bv_connection_owner_id := Some (or_else (pa_connection_owner_id authority) owner_id);
     bv_connection_revision := pa_connection_revision authority; bv_database := pa_database authority;
     bv_namespace := pa_namespace authority; bv_design_revision := design_revision; bv_content := merged;
     bv_catalog := catalog; bv_complete := true; bv_issues := []; bv_source := "migration";
     bv_expected_predecessor_id := head; bv_source_execution_id := Some execution_id |}.

Definition at_catalog (catalog : Catalog) (baseline : option (BaselineRecord Catalog)) : bool :=
  match baseline with
  | Some b => bool_decide (catalog_fingerprint (bl_catalog b) = catalog_fingerprint catalog)
  | None => false
  end.

(** The committed catalog becomes the baseline; [false] when another head took its place. *)
Definition sync_baseline (owner_id execution_id : string) (record : PlanRecord Catalog) (design_revision : Z)
    (merged : SchemiiDesignContent) (catalog : Catalog) : coordinated bool :=
  let workspace_id := mp_workspace_id (pr_plan record) in
  let* baseline := baseline_now owner_id workspace_id in
  if at_catalog catalog baseline then m_return true else fun w =>
    match repository_call (fun now t => create_baseline now t
            (sync_baseline_values owner_id execution_id record design_revision merged catalog (bl_id <$> baseline))) w with
    | (w', Ok _) => (w', Ok true)
    | (w', Err (MigrationConflictError _ _ _)) =>
        (let* head := baseline_now owner_id workspace_id in m_return (at_catalog catalog head)) w'
    | (w', Err e) => (w', Err (RepositoryRaised e))
    end.

(** [_sync_committed]. *)
Definition sync_committed (owner_id : string) (record : PlanRecord Catalog) (execution_record : ExecutionRecord)
    : coordinated MigrationExecution :=
  match er_intended_result execution_record with
  | None | Some [] =>
      settle execution_record SReconciliationRequired false
        (with_outcome Committed (with_sync SyncFailed (with_error (Some "migration_result_evidence_missing") no_changes)))
  | Some intended =>
      let plan := pr_plan record in
      let* merged := m_lift (intended_content intended) in
      let* catalog := m_lift (intended_catalog intended) in
      let* (design, conflict) := sync_design owner_id record merged in
      let* advanced := sync_baseline owner_id (mx_id (er_execution execution_record)) record
        (if conflict : bool then mp_design_revision plan else design_revision design) merged catalog in
      if negb advanced then
        settle execution_record SSucceeded false
          (with_outcome Committed (with_sync SyncConflict (with_error (Some "post_commit_baseline_changed") no_changes)))
      else
        let* latest := design_now owner_id (mp_workspace_id plan) in
        if conflict || negb (bool_decide (design_fingerprint_field latest = design_fingerprint merged)) then
          settle execution_record SSucceeded false
            (with_outcome Committed (with_sync SyncConflict (with_error (Some "post_commit_design_changed")
              (with_detail (Some [("preservedDesignRevision", JInt (design_revision latest)); ("baselineAdvanced", JBool true)])
                 no_changes))))
        else
          settle execution_record SSucceeded false
            (with_outcome Committed (with_sync SyncSucceeded (with_error None (with_detail None no_changes))))
  end.

(** ** Recovery *)

(** The answer of [transaction_status] on the connection of the plan. *)
Definition ask_status (owner_id transaction_id : string) (authority : PlanAuthority Catalog)
    : method World target_error PostgresTransactionRecovery := fun w =>
  match connections (w_ticks w) owner_id (pa_connection_id authority) with
  | Err e => (tick w, Err e)
  | Ok connection =>
      if bool_decide (or_else (cn_owner_id connection) owner_id = or_else (pa_connection_owner_id authority) owner_id)
      then transaction_status w_log catalog_timeout_ms lock_timeout_ms pause (target (w_ticks w))
             (cn_database connection) transaction_id (tick w)
      else (tick w, Err (TargetConnectionNotFound "Migration PostgreSQL identity changed"))
  end.

Definition same_identity (recorded : option json_object) (current : json_object) : bool :=
  match recorded with Some i => py_eq (JDict current) (JDict i) | None => false end.

(** [_reconcile_transaction]. *)
Definition reconcile_transaction (owner_id : string) (plan : PlanRecord Catalog) (execution_record : ExecutionRecord)
    (transaction_id : string) (automatic : bool) : coordinated MigrationExecution :=
  if negb reads_status then
    if automatic
    then settle execution_record SReconciliationRequired false (uncertain "postgres_transaction_status_unavailable")
    else m_raise (MigrationServiceError 503 "postgres_transaction_status_unavailable"
           "The configured PostgreSQL gateway cannot reconcile transactions" [] false)
  else fun w =>
    match ask_status owner_id transaction_id (pr_authority plan) w with
    | (w', Err e) =>
        let code := target_error_code "postgres_reconciliation_failed" e in
        if automatic then settle execution_record SReconciliationRequired false (uncertain code) w'
        else (w', Err (MigrationServiceError 502 code (target_error_message e) [] true))
    | (w', Ok recovery) =>
        (if negb (same_identity (er_target_identity execution_record) (ptr_target_identity recovery)) then
           settle execution_record SReconciliationRequired (negb automatic)
             (with_detail (Some [("reconciliationRequired", JBool true);
                                 ("expectedTargetIdentity", match er_target_identity execution_record with
                                                            | Some i => JDict i | None => JNull end);
                                 ("currentTargetIdentity", JDict (ptr_target_identity recovery))])
                (uncertain "migration_target_identity_changed"))
         else if bool_decide (ptr_status recovery = "aborted") then
           settle execution_record SFailed (negb automatic) (rolled_back "migration_transaction_aborted")
         else if bool_decide (ptr_status recovery = "in progress") then
           settle execution_record (if automatic then SApplying else SReconciliationRequired) (negb automatic)
             (uncertain "migration_transaction_in_progress")
         else
           let* committed := move_execution execution_record SSucceeded (negb automatic)
             (with_outcome Committed (with_sync SyncPending (with_error None (with_detail None no_changes)))) in
           sync_committed owner_id plan committed) w'
    end.

(** [not execution.transaction_id]: no text, or the empty one. *)
Definition recorded_transaction (execution : MigrationExecution) : option string := nonempty_text (mx_transaction_id execution).

(** [_recover_claimed]. *)
Definition recover_claimed (execution_record : ExecutionRecord) : coordinated MigrationExecution :=
  let execution := er_execution execution_record in
  match recorded_transaction execution with
  | None => settle execution_record SFailed false (rolled_back "migration_never_started")
  | Some transaction_id =>
      let* plan := execution_plan (er_owner_id execution_record) (mx_plan_id execution) in
      reconcile_transaction (er_owner_id execution_record) plan execution_record transaction_id true
  end.

(** [reconcile]. *)
Definition reconcile (owner_id execution_id : string) (expected_execution_revision : Z) : coordinated MigrationExecution :=
  let* execution_record := execution_of owner_id execution_id in
  let execution := er_execution execution_record in
  m_guard (negb (bool_decide (mx_revision execution = expected_execution_revision)))
    (MigrationServiceError 409 "migration_execution_changed" "The migration execution changed after it was opened"
       [("currentExecutionRevision", JInt (mx_revision execution))] false) ;;*
  let* now := read_clock in
  match er_lease_owner execution_record, er_lease_expires_at execution_record with
  | Some _, Some expires =>
      m_guard (bool_decide (now < expires)%Z)
        (MigrationServiceError 409 "migration_execution_lease_active"
           "The migration execution is still owned by an active worker" [("recoveryAvailableAt", JInt expires)] true)
  | _, _ => m_return tt
  end ;;*
  if bool_decide (mx_commit_outcome execution = Some Committed) then
    let* plan := execution_plan owner_id (mx_plan_id execution) in
    sync_committed owner_id plan execution_record
  else if bool_decide (mx_status execution ∉ [SReserved; SApplying; SUncertain; SReconciliationRequired]) then
    m_return execution
  else
    match recorded_transaction execution with
    | None => settle execution_record SFailed true (rolled_back "migration_never_started")
    | Some transaction_id =>
        let* plan := execution_plan owner_id (mx_plan_id execution) in
        reconcile_transaction owner_id plan execution_record transaction_id false
    end.

(** ** Executing a claimed plan *)

(** The variables of [_execute_claimed] its callbacks assign. *)
Record execution_locals := {
  lc_record : ExecutionRecord;
  lc_intended : json_object;
}.

Abbreviation running := (method (World * execution_locals) service_error).

Definition moving (status : execution_status) (changes : transition_changes) : running unit := fun s =>
  match move_execution (lc_record s.2) status false changes s.1 with
  | (w, Ok moved) => ((w, {| lc_record := moved; lc_intended := lc_intended s.2 |}), Ok tt)
  | (w, Err e) => ((w, s.2), Err e)
  end.

(** [on_started]. *)
Definition on_started (transaction_id : string) (target_identity : json_object) : running unit :=
  moving SApplying (with_run transaction_id target_identity no_changes).

(** The intended result of a migration. *)
Definition intended_result (catalog : Catalog) (candidate : SchemiiDesignContent) : json_object :=
  [("catalog", catalog_document catalog); ("content", content_document false candidate);
   ("catalogFingerprint", JStr (catalog_fingerprint catalog)); ("designFingerprint", JStr (design_fingerprint candidate))].

(** [on_intended]. *)
Definition on_intended (record : PlanRecord Catalog) (catalog : Catalog) : running unit :=
  let* candidate := m_lift (accept_result import_catalog (pr_authority record) catalog) in
  let intended := intended_result catalog candidate in
  m_update (fun s => (s.1, {| lc_record := lc_record s.2; lc_intended := merge_details (lc_intended s.2) intended |})) ;;*
  let* s := m_get in
  moving SApplying (with_steps (length (mp_steps (pr_plan record))) (with_intended (lc_intended s.2) no_changes)).

Definition conversion_table_names (record : PlanRecord Catalog) : list string :=
  let conversion_ids := ctc_table_id <$> filter (fun c => is_Some (ctc_strategy c) /\ nonempty_text (ctc_validation_error c) = None)
                          (mp_column_type_conversions (pr_plan record)) in
  tb_name <$> filter (fun t => tb_id t ∈ conversion_ids) (content_tables (pa_live_content _ (pr_authority record))).

(** The run in the target database, with the connection it needs. *)
Definition run_in_target (record : PlanRecord Catalog) (connection : connection_view)
    : method (World * execution_locals) target_error (PostgresMigrationResult Catalog) := fun s =>
  let k := (er_owner_id (lc_record s.2), mx_id (er_execution (lc_record s.2))) in
  let authority := pr_authority record in
  execute_migration (fun s => w_log s.1) catalog_fingerprint migration_timeout_ms lock_timeout_ms (fun s => (pause s.1, s.2))
    (fun event s => (emit_for k event s.1, s.2)) (target (w_ticks s.1)) (cn_database connection)
    (pa_namespace authority) (catalog_fingerprint (pa_live_catalog authority)) (mst_sql <$> mp_steps (pr_plan record))
    on_started (on_intended record) (pa_required_empty_tables _ authority) (conversion_table_names record)
    (tick s.1, s.2).

(** A transition to [failed] and the exception that reports it. *)
Definition fail_run {A} (record : ExecutionRecord) (changes : transition_changes) (e : service_error) : coordinated A :=
  let* _ := move_execution record SFailed false changes in m_raise e.

(** The handlers of the target's exceptions. *)
Definition handle_target_error (plan : MigrationPlan) (execution_record : ExecutionRecord) (e : target_error)
    : coordinated MigrationExecution :=
  let message := target_error_message e in
  let code := target_error_code "connection_not_found" e in
  match e with
  | TargetStaleError current_fingerprint =>
      let details := [("currentCatalogFingerprint", JStr current_fingerprint)] in
      fail_run execution_record (with_detail (Some details) (rolled_back code))
        (MigrationServiceError 409 code message details false)
  | TargetPreconditionError tables =>
      let details := [("tables", json_strs tables)] in
      fail_run execution_record (with_detail (Some details) (rolled_back code))
        (MigrationServiceError 409 code message details false)
  | TargetCommitUncertainError =>
      settle execution_record SUncertain false
        (with_detail (Some [("reconciliationRequired", JBool true)]) (uncertain code))
  | TargetExecutionError _ _ (Some (MigrationServiceError status callback_code callback_message details retryable)) =>
      let raised := MigrationServiceError status callback_code callback_message details retryable in
      if bool_decide (callback_code = "migration_result_mismatch")
      then fail_run execution_record (with_detail (Some details) (rolled_back callback_code)) raised
      else m_raise raised
  | TargetExecutionError completed _ _ =>
      let details := [("message", JStr message);
                      ("objectPath", json_opt (mst_object_path <$> mp_steps plan !! completed))] in
      fail_run execution_record (with_steps completed (with_detail (Some details) (rolled_back code)))
        (MigrationServiceError 409 code message details false)
  | TargetCapacityError limit_name limit observed =>
      let details := [("resource", JStr "postgres_connections"); ("limitName", JStr limit_name); ("limit", JInt limit);
                      ("observed", JInt observed)] in
      fail_run execution_record (with_detail (Some details) (rolled_back code))
        (MigrationServiceError 503 code message details true)
  | TargetConnectionNotFound _ | TargetGatewayError _ _ | TargetQueryError _ =>
      fail_run execution_record (rolled_back code) (MigrationServiceError 502 code message [] true)
  end.

(** The [try] around the run, and what follows a commit. *)
Definition execute_in_target (owner_id : string) (record : PlanRecord Catalog) (execution_record : ExecutionRecord)
    : coordinated MigrationExecution := fun w =>
  let authority := pr_authority record in
  match connections (w_ticks w) owner_id (pa_connection_id authority) with
  | Err e => handle_target_error (pr_plan record) execution_record e (tick w)
  | Ok connection =>
      if negb (bool_decide (cn_revision connection = pa_connection_revision authority))
         || negb (bool_decide (or_else (cn_owner_id connection) owner_id = or_else (pa_connection_owner_id authority) owner_id))
      then fail_before_apply execution_record 409 "connection_changed"
             "The PostgreSQL connection changed after the migration review" [] (tick w)
      else
        match run_in_target record connection (tick w, {| lc_record := execution_record; lc_intended := [] |}) with
        | ((w', locals), Err e) => handle_target_error (pr_plan record) (lc_record locals) e w'
        | ((w', locals), Ok result) =>
            (let* committed := move_execution (lc_record locals) SSucceeded false
               (with_steps (pmr_completed_step_count result)
                  (with_run (pmr_transaction_id result) (pmr_target_identity result)
                     (with_intended (lc_intended locals)
                        (with_outcome Committed (with_sync SyncPending (with_error None (with_detail None no_changes))))))) in
             sync_committed owner_id record committed) w'
        end
  end.

(** The workspace still has the target of the review. *)
Definition workspace_changed (owner_id : string) (workspace : SchemiiWorkspace) (authority : PlanAuthority Catalog) : bool :=
  negb (bool_decide (ws_connection_id workspace = Some (pa_connection_id authority)))
  || negb (bool_decide (or_else (ws_connection_owner_id workspace) owner_id = or_else (pa_connection_owner_id authority) owner_id))
  || negb (bool_decide (ws_database workspace = Some (pa_database authority)))
  || negb (bool_decide (ws_namespace workspace = Some (pa_namespace authority))).

Definition reviewed_baseline (record : PlanRecord Catalog) (baseline : option (BaselineRecord Catalog)) : bool :=
  match baseline with
  | Some b => bool_decide (bl_id b = pr_baseline_id record) && bool_decide (bl_revision b = mp_baseline_revision (pr_plan record))
  | None => false
  end.

(** [_execute_claimed]. *)
Definition execute_claimed (execution_record : ExecutionRecord) : coordinated MigrationExecution :=
  let owner_id := er_owner_id execution_record in
  let* record := execution_plan owner_id (mx_plan_id (er_execution execution_record)) in
  let plan := pr_plan record in
  let* workspace := workspace_of owner_id (mp_workspace_id plan) in
  let* design := design_now owner_id (mp_workspace_id plan) in
  if workspace_changed owner_id workspace (pr_authority record) then
    fail_before_apply execution_record 409 "workspace_changed" "The workspace target changed after the migration review" []
  else if negb (bool_decide (design_revision design = mp_design_revision plan))
          || negb (bool_decide (design_fingerprint_field design = mp_design_fingerprint plan)) then
    fail_before_apply execution_record 409 "design_changed" "The desired design changed after the migration review" []
  else
    let* baseline := baseline_now owner_id (mp_workspace_id plan) in
    if negb (reviewed_baseline record baseline) then
      fail_before_apply execution_record 409 "baseline_changed"
        "The PostgreSQL synchronization baseline changed after the migration review"
        [("reviewedBaselineId", JStr (pr_baseline_id record)); ("reviewedBaselineRevision", JInt (mp_baseline_revision plan));
         ("currentBaselineId", json_opt (bl_id <$> baseline));
         ("currentBaselineRevision", match baseline with Some b => JInt (bl_revision b) | None => JNull end)]
    else if negb executes_migrations then
      fail_before_apply execution_record 503 "postgres_migration_execution_unavailable"
        "The configured PostgreSQL gateway does not support migrations" []
    else execute_in_target owner_id record execution_record.

(** ** Units of work *)

(** The [try] of [_record_processing_failure]. *)
Definition processing_failure (work : ExecutionWork) (error_code : string) (error_detail : json_object)
    : coordinated MigrationExecution :=
  let stale := wk_record work in
  let* current := mapping_errors RepositoryRaised
    (repository_call (fun _ _ => get_execution (er_owner_id stale) (mx_id (er_execution stale)))) in
  let execution := er_execution current in
  if negb (bool_decide (er_lease_owner current = er_lease_owner stale)) then m_return execution
  else match mx_status execution with
  | SReserved => settle current SFailed false
      (with_detail (Some (merge_details [("beforeTargetMutation", JBool true)] error_detail)) (rolled_back error_code))
  | SApplying => settle current SReconciliationRequired false
      (with_detail (Some (merge_details [("reconciliationRequired", JBool true)] error_detail)) (uncertain error_code))
  | SSucceeded =>
      if bool_decide (mx_commit_outcome execution = Some Committed)
      then settle current SSucceeded false
             (with_sync SyncFailed (with_error (Some error_code)
                (with_detail (if bool_decide (length error_detail = 0) then None else Some error_detail) no_changes)))
      else m_return execution
  | _ => m_return execution
  end.

(** [_record_processing_failure]: an exception while recording one is swallowed. *)
Definition record_processing_failure (work : ExecutionWork) (error_code : string) (error_detail : json_object)
    : coordinated MigrationExecution := fun w =>
  match processing_failure work error_code error_detail w with
  | (w', Ok execution) => (w', Ok execution)
  | (w', Err _) => (w', Ok (er_execution (wk_record work)))
  end.

(** The [try] of [process]. *)
Definition process_work (work : ExecutionWork) : coordinated MigrationExecution :=
  match wk_kind work with
  | WExecute => execute_claimed (wk_record work)
  | WReconcile => recover_claimed (wk_record work)
  | WSync =>
      let* record := execution_plan (er_owner_id (wk_record work)) (mx_plan_id (er_execution (wk_record work))) in
      sync_committed (er_owner_id (wk_record work)) record (wk_record work)
  end.

(** [process]. *)
Definition process (work : ExecutionWork) : coordinated MigrationExecution := fun w =>
  match process_work work w with
  | (w', Ok execution) => (w', Ok execution)
  | (w', Err (MigrationServiceError _ code _ details _)) => record_processing_failure work code details w'
  | (w', Err _) => record_processing_failure work "migration_worker_failed" [] w'
  end.

(** [MigrationExecutionWorker.run_once]. *)
Definition run_once (worker_id : string) : coordinated bool :=
  let* work := claim_next worker_id in
  match work with
  | None => m_return false
  | Some work => let* _ := process work in m_return true
  end.
End coordinator.
