(* ===== verification/ExecutionInv.v ===== *)
(** * The log of migrations and the repository

    What holds between the migration repository and what the target databases observed,
    at every moment of every run: [run_inv].  A migration's statements are applied in one
    transaction only, in their order; an execution that says it was committed was, and one
    that says it was rolled back never will be.

    [others_act] is what a coordinator relies on about the others. *)

From Stdlib Require Import Ascii String.
From S2P Require Import Prelude Json PyString DesignModels DefinitionAnalysis DesignValidation MigrationModels MigrationStore MigrationSpec MigrationReach SqlText MigrationTarget MigrationExecution.
Open Scope string_scope.
Open Scope list_scope.

(** ** Postconditions of methods *)

(** [Q] holds of the state and the outcome of [m] from [s]. *)
Definition wp {S E A} (m : method S E A) (s : S) (Q : S -> result E A -> Prop) : Prop := Q (m s).1 (m s).2.

Section wp.
Context {S E : Type}.

Lemma wp_bind {A B} (m : method S E A) (k : A -> method S E B) s Q :
  wp m s (fun s' r => match r with Ok a => wp (k a) s' Q | Err e => Q s' (Err e) end) -> wp (m_bind m k) s Q.
Proof. unfold wp, m_bind. by destruct (m s) as [s' [a|e]]. Qed.

Lemma wp_mono {A} (m : method S E A) s (P Q : S -> result E A -> Prop) :
  wp m s P -> (forall s' r, P s' r -> Q s' r) -> wp m s Q.
Proof. unfold wp. auto. Qed.

Lemma wp_return {A} (a : A) s (Q : S -> result E A -> Prop) : Q s (Ok a) -> wp (m_return a) s Q.
Proof. done. Qed.

Lemma wp_raise {A} e s (Q : S -> result E A -> Prop) : Q s (Err e) -> wp (m_raise e) s Q.
Proof. done. Qed.

Lemma wp_lift {A} (r : result E A) s (Q : S -> result E A -> Prop) : Q s r -> wp (m_lift r) s Q.
Proof. done. Qed.
End wp.

(** ** Runs in the log *)

(** The entries of one execution. *)
Definition events (k : repo_key) (l : target_log) : list (string * target_event) := (filter (fun e => e.1 = k) l).*2.

Lemma events_app k l l' : events k (l ++ l') = events k l ++ events k l'.
Proof. unfold events. by rewrite filter_app, fmap_app. Qed.

Lemma events_one k k' e : events k [(k', e)] = if decide (k' = k) then [e] else [].
Proof. unfold events. rewrite filter_cons. simpl. by case_decide. Qed.

(** The entries of one run by [who]: a transaction, a prefix of the reviewed statements,
    the commit only after all of them, and the end. *)
Definition run_of (who t : string) (i : json_object) (statements : list string) (evs : list (string * target_event)) : Prop :=
  exists done tail, done `prefix_of` statements /\
    evs = pair who <$> (Applying t i :: (Statement <$> done) ++ tail) /\
    (tail = [] \/ tail = [Closed] \/
     (done = statements /\ (tail = [CommittedInTarget] \/ tail = [CommittedInTarget; Closed]))).

(** The run is over and was not committed. *)
Definition abandoned_run (evs : list (string * target_event)) : Prop := Closed ∈ evs.*2 /\ CommittedInTarget ∉ evs.*2.

Lemma pair_fmap_snd {A B} (who : A) (l : list B) : (pair who <$> l).*2 = l.
Proof. induction l; csimpl; congruence. Qed.

Lemma pair_fmap_fst {A B} (who : A) (l : list B) e : e ∈ pair who <$> l -> e.1 = who.
Proof. by intros (? & -> & _)%list_elem_of_fmap. Qed.

Lemma statements_no_end (done : list string) : (Closed ∉ (Statement <$> done)) /\ (CommittedInTarget ∉ (Statement <$> done)).
Proof. split; intros (? & ? & _)%list_elem_of_fmap; done. Qed.

(** The end of a run is its last entry. *)
Lemma run_removelast done tail t i :
  tail = [] \/ tail = [Closed] \/ tail = [CommittedInTarget] \/ tail = [CommittedInTarget; Closed] ->
  Closed ∉ removelast (Applying t i :: (Statement <$> done) ++ tail).
Proof.
  intros Ht. destruct (statements_no_end done) as [Hd _].
  assert (forall l : list target_event, Closed ∉ l -> Closed ∉ removelast l) as Hr.
  { intros l Hl Hc. apply Hl. revert Hc. induction l as [|a [|b l'] IH]; [done|set_solver|].
    change (removelast (a :: b :: l')) with (a :: removelast (b :: l')). set_solver. }
  destruct Ht as [->|[->|[->| ->]]].
  - apply Hr. set_solver.
  - rewrite app_comm_cons, removelast_last. set_solver.
  - apply Hr. set_solver.
  - replace [CommittedInTarget; Closed] with ([CommittedInTarget] ++ [Closed]) by done.
    rewrite app_comm_cons, app_assoc, removelast_last. set_solver.
Qed.

(** A finished run has no further entries. *)
Lemma run_closed who t i st evs more : run_of who t i st (evs ++ more) -> Closed ∈ evs.*2 -> more = [].
Proof.
  intros (done & tail & _ & Heq & Ht) Hc. apply (f_equal (fmap snd)) in Heq.
  rewrite fmap_app, pair_fmap_snd in Heq. apply list_elem_of_split in Hc as (a & b & Hab).
  destruct (decide (more = [])) as [|Hm]; [done|exfalso].
  apply (run_removelast done tail t i); [naive_solver|]. rewrite <-Heq, Hab, <-app_assoc. simpl.
  rewrite removelast_app by done. apply elem_of_app. right.
  change (Closed :: b ++ more.*2) with ([Closed] ++ (b ++ more.*2)). rewrite removelast_app; [set_solver|].
  intros [_ Hn]%app_nil. by destruct more.
Qed.

(** ** The invariant *)

Section inv.
Context {D Catalog : Type}.
Abbreviation Repo := (MigrationRepo D Catalog).
Implicit Types (r : Repo) (l : target_log).

(** Which results of a reviewed plan may be committed. *)
Variable accepted : PlanAuthority Catalog -> json_object -> Prop.

Definition statements_of (p : PlanRecord Catalog) : list string := mst_sql <$> mp_steps (pr_plan p).

(** The record of an execution whose plan is being or was applied as [t] on [i]. *)
Record started r (k : repo_key) (x : ExecutionRecord) (t : string) (i : json_object) (statements : list string) : Prop := {
  sd_record : dget k (mg_executions r) = Some x;
  sd_status : mx_status (er_execution x) <> SReserved;
  sd_transaction : mx_transaction_id (er_execution x) = Some t;
  sd_nonempty : t <> "";
  sd_identity : er_target_identity x = Some i;
  sd_plan : exists p, dget (k.1, mx_plan_id (er_execution x)) (mg_plans r) = Some p /\ statements_of p = statements;
}.

Record run_inv r l : Prop := {
  ri_repo : mig_inv r;
  ri_runs : forall k, events k l <> [] -> exists who x t i st, started r k x t i st /\ run_of who t i st (events k l);
  ri_reserved : forall k x, dget k (mg_executions r) = Some x -> mx_status (er_execution x) = SReserved ->
    mx_commit_outcome (er_execution x) = None;
  ri_evidence : forall k x, dget k (mg_executions r) = Some x -> mx_transaction_id (er_execution x) <> None -> events k l <> [];
  ri_rolled_back : forall k x, dget k (mg_executions r) = Some x -> mx_commit_outcome (er_execution x) = Some RolledBack ->
    events k l = [] \/ abandoned_run (events k l);
  ri_committed : forall k x, dget k (mg_executions r) = Some x -> mx_commit_outcome (er_execution x) = Some Committed ->
    CommittedInTarget ∈ (events k l).*2;
  ri_accepted : forall k x, dget k (mg_executions r) = Some x -> CommittedInTarget ∈ (events k l).*2 ->
    exists p intended, dget (k.1, mx_plan_id (er_execution x)) (mg_plans r) = Some p /\
      er_intended_result x = Some intended /\ accepted (pr_authority p) intended;
}.

(** What the coordinators [acts] and the users of the repository may do. *)
Record others_act (acts : string -> Prop) (a b : Repo * target_log) : Prop := {
  oa_later : later a.1 b.1;
  oa_log : exists added, b.2 = a.2 ++ added /\ Forall (fun e => acts e.2.1) added;
  oa_inv : run_inv b.1 b.2;
  oa_intended : forall k x y, dget k (mg_executions a.1) = Some x -> dget k (mg_executions b.1) = Some y ->
    er_intended_result y = er_intended_result x \/ exists who e, acts who /\ (who, e) ∈ events k b.2;
}.

Lemma others_act_refl acts a : run_inv a.1 a.2 -> others_act acts a a.
Proof. intros Ha. split; [apply later_refl| |done|]; [exists []; by rewrite app_nil_r|]. intros k x y Hx Hy. left. congruence. Qed.

Lemma others_act_trans acts a b c : others_act acts a b -> others_act acts b c -> others_act acts a c.
Proof.
  intros [Hl1 (x & Hx & Hxs) _ Hn1] [Hl2 (y & Hy & Hys) Hi Hn2]. split; [by eapply later_trans| |done|].
  - exists (x ++ y). rewrite Hy, Hx, <-app_assoc. split; [done|by apply Forall_app].
  - intros k e e' He He'. destruct (lt_executions _ _ Hl1 _ _ He) as (e1 & He1 & _).
    destruct (Hn1 _ _ _ He He1) as [<-|(who & ev & ? & ?)]; [by apply Hn2|].
    right. exists who, ev. split; [done|]. rewrite Hy, events_app. set_solver.
Qed.

Lemma others_act_mono (acts acts' : string -> Prop) a b :
  (forall who, acts who -> acts' who) -> others_act acts a b -> others_act acts' a b.
Proof. 
  intros Hsub [Hl (x & Hx & Hxs) Hi Hn]. split; [done| |done|].
  - exists x. split; [done|]. eapply Forall_impl; [done|]. auto.
  - intros k y z Hy Hz. destruct (Hn _ _ _ Hy Hz) as [?|(who & e & ? & ?)]; eauto 6.
Qed.

(** ** Facts *)

Lemma reserved_idle r l k x :
  run_inv r l -> dget k (mg_executions r) = Some x -> mx_status (er_execution x) = SReserved -> events k l = [].
Proof.
  intros Hi Hx Hs. destruct (decide (events k l = [])) as [|Hn]; [done|].
  destruct (ri_runs _ _ Hi _ Hn) as (who & x' & t & i & st & [] & _). congruence.
Qed.

Lemma unstarted_idle r l k x :
  run_inv r l -> dget k (mg_executions r) = Some x -> recorded_transaction (er_execution x) = None -> events k l = [].
Proof.
  intros Hi Hx Hs. destruct (decide (events k l = [])) as [|Hn]; [done|].
  destruct (ri_runs _ _ Hi _ Hn) as (who & x' & t & i & st & [Hx' _ Ht Hne _ _] & _). simplify_eq.
  unfold recorded_transaction, nonempty_text in Hs. rewrite Ht in Hs. by destruct t.
Qed.

(** The entries of a run that this coordinator started are its own. *)
Lemma others_keep_run acts me a b k evs :
  ~ acts me -> others_act acts a b -> events k a.2 = evs -> (exists e rest, evs = (me, e) :: rest) -> events k b.2 = evs.
Proof.
  intros Hme [_ (added & Hb & Hadd) Hi _] Ha (e & rest & ->). rewrite Hb, events_app, Ha.
  destruct (decide (events k added = [])) as [->|Hn]; [by rewrite app_nil_r|exfalso].
  destruct (ri_runs _ _ Hi k) as (who & x & t & i & st & _ & (done & tail & _ & Heq & _)).
  { rewrite Hb, events_app, Ha. done. }
  rewrite Hb, events_app, Ha in Heq.
  assert (who = me) as -> by (simpl in Heq; by injection Heq).
  destruct (events k added) as [|x0 xs] eqn:Hev; [done|].
  assert (x0.1 = me) as Hmine.
  { eapply pair_fmap_fst. rewrite <-Heq. set_solver. }
  assert (x0 ∈ events k added) as Hx0 by (rewrite Hev; left). unfold events in Hx0.
  apply list_elem_of_fmap in Hx0 as ([k0 ev] & -> & [_ Hin]%list_elem_of_filter). rewrite Forall_forall in Hadd.
  specialize (Hadd _ Hin). simpl in *. by subst.
Qed.

(** ** Updates *)

(** The plan of an execution keeps its review. *)
Lemma plan_kept r r' k x x' p :
  mig_inv r -> later r r' -> dget k (mg_executions r) = Some x -> mx_plan_id (er_execution x') = mx_plan_id (er_execution x) ->
  dget (k.1, mx_plan_id (er_execution x)) (mg_plans r) = Some p ->
  exists p', dget (k.1, mx_plan_id (er_execution x')) (mg_plans r') = Some p' /\ statements_of p' = statements_of p /\
    pr_authority p' = pr_authority p.
Proof.
  intros Hi Hl Hx -> Hp. destruct (mi_exec _ Hi _ _ Hx) as (_ & _ & Hb & _).
  destruct (lt_plans _ _ Hl _ _ _ Hb Hp) as (p' & Hp' & Hsame). exists p'. split; [done|].
  split; [apply (f_equal (fun p => mp_steps (pr_plan p))) in Hsame; unfold statements_of; simpl in Hsame; by rewrite Hsame|].
  by apply (f_equal pr_authority) in Hsame.
Qed.

(** A repository with the same executions and the reviews of their plans. *)
Lemma run_inv_repo r r' l :
  run_inv r l -> mig_inv r' -> later r r' ->
  (forall k x', dget k (mg_executions r') = Some x' ->
     (exists x, dget k (mg_executions r) = Some x /\ run_evidence x' = run_evidence x) \/
     (dget k (mg_executions r) = None /\ mx_transaction_id (er_execution x') = None /\ mx_commit_outcome (er_execution x') = None)) ->
  run_inv r' l.
Proof.
  intros Hi Hr' Hl He. unfold run_evidence in He. split; [done| | | | | |].
  - intros k Hn. destruct (ri_runs _ _ Hi _ Hn) as (who & x & t & i & st & Hs & Hrun).
    destruct Hs as [Hx Hst Ht Hne Hid (p & Hp & Hps)]. destruct (lt_executions _ _ Hl _ _ Hx) as (x' & Hx' & Hpr).
    destruct (He _ _ Hx') as [(x0 & Hx0 & Hev)|(Hno & _)]; [|congruence]. simplify_eq.
    destruct (plan_kept _ _ _ _ _ _ (ri_repo _ _ Hi) Hl Hx (pg_plan _ _ Hpr) Hp) as (p' & Hp' & Hst' & _).
    exists who, x', t, i, (statements_of p). split; [|done]. split; try congruence. eauto.
  - intros k x' Hx' Ht. destruct (He _ _ Hx') as [(x & Hx & Hev)|(Hno & _ & ?)]; [|congruence].
    transitivity (mx_commit_outcome (er_execution x)); [congruence|]. eapply (ri_reserved _ _ Hi); [done|congruence].
  - intros k x' Hx' Ht. destruct (He _ _ Hx') as [(x & Hx & Hev)|(Hno & ? & _)]; [|congruence].
    eapply (ri_evidence _ _ Hi); [done|congruence].
  - intros k x' Hx' Ht. destruct (He _ _ Hx') as [(x & Hx & Hev)|(Hno & _ & ?)]; [|congruence].
    eapply (ri_rolled_back _ _ Hi); [done|congruence].
  - intros k x' Hx' Ht. destruct (He _ _ Hx') as [(x & Hx & Hev)|(Hno & _ & ?)]; [|congruence].
    eapply (ri_committed _ _ Hi); [done|congruence].
  - intros k x' Hx' Hc. destruct (He _ _ Hx') as [(x & Hx & Hev)|(Hno & _ & ?)]; cycle 1.
    { destruct (ri_runs _ _ Hi k) as (? & ? & ? & ? & ? & [] & _); [|congruence]. intros Hn. rewrite Hn in Hc. set_solver. }
    destruct (ri_accepted _ _ Hi _ _ Hx Hc) as (p & intended & Hp & Hin & Ha).
    destruct (lt_executions _ _ Hl _ _ Hx) as (x2 & Hx2 & Hpr). simplify_eq.
    destruct (plan_kept _ _ _ _ _ _ (ri_repo _ _ Hi) Hl Hx (pg_plan _ _ Hpr) Hp) as (p' & Hp' & _ & Hau).
    exists p', intended. rewrite Hau. split; [done|]. split; [congruence|done].
Qed.

(** A step of the users of the repository: what was recorded of the runs stays. *)
Lemma others_act_repo acts r r' l :
  run_inv r l -> mig_inv r' -> later r r' ->
  (forall k x', dget k (mg_executions r') = Some x' ->
     (exists x, dget k (mg_executions r) = Some x /\ run_evidence x' = run_evidence x) \/
     (dget k (mg_executions r) = None /\ mx_transaction_id (er_execution x') = None /\ mx_commit_outcome (er_execution x') = None)) ->
  others_act acts (r, l) (r', l).
Proof.
  intros Hi Hr' Hl He. split; simpl; [done|exists []; by rewrite app_nil_r|by eapply run_inv_repo|].
  intros k x y Hx Hy. left. destruct (He _ _ Hy) as [(x0 & Hx0 & Hev)|[Hn _]]; unfold run_evidence in *; congruence.
Qed.

(** A lease that is taken or renewed. *)
Lemma others_act_lease acts r l k x x' :
  run_inv r l -> mig_inv (set_execution k x' r) -> dget k (mg_executions r) = Some x -> progress x x' ->
  run_evidence x' = run_evidence x -> others_act acts (r, l) (set_execution k x' r, l).
Proof.
  intros Hi Hr' Hx Hp He. apply others_act_repo; [done|done|by eapply set_execution_later|]. intros k' y. simpl. rewrite dget_dset.
  case_decide as Hk; [intros [= <-]; subst|]; eauto.
Qed.

(** What a transition may record about a run whose entries are [evs]. *)
Definition truthful (changes : transition_changes) (x : ExecutionRecord) (evs : list (string * target_event)) : Prop :=
  (ch_commit_outcome changes = Given (Some RolledBack) -> evs = [] \/ abandoned_run evs) /\
  (ch_commit_outcome changes = Given (Some Committed) -> CommittedInTarget ∈ evs.*2) /\
  field_or (ch_transaction_id changes) (mx_transaction_id (er_execution x)) = mx_transaction_id (er_execution x) /\
  field_or (ch_target_identity changes) (er_target_identity x) = er_target_identity x /\
  (CommittedInTarget ∈ evs.*2 -> field_or (ch_intended_result changes) (er_intended_result x) = er_intended_result x).

Lemma legal_not_reserved a b : legal a b -> b <> SReserved.
Proof. unfold legal. destruct a; simpl; set_solver. Qed.

Lemma transition_run_inv r l k x x' st lo ex rec now ch :
  run_inv r l -> dget k (mg_executions r) = Some x -> transition_change k.1 st lo ex rec now ch x x' ->
  truthful ch x (events k l) -> run_inv (set_execution k x' r) l /\ later r (set_execution k x' r).
Proof.
  intros Hi Hx Hch (Hrb & Hc & Ht & Hid & Hint). pose proof (ri_repo _ _ Hi) as Hm.
  destruct (mi_exec _ Hm _ _ Hx) as (Hkey & Hlease & _).
  assert (er_owner_id x = k.1) as Ho by (by rewrite <-Hkey).
  destruct (transition_change_ok _ _ _ _ _ _ _ _ _ Hch Ho Hlease) as [Hl' Hp].
  assert (later r (set_execution k x' r)) as Hlater by by eapply set_execution_later.
  split; [|done]. assert (mx_transaction_id (er_execution x') = mx_transaction_id (er_execution x)) as Ht'
    by (rewrite (tc_execution _ _ _ _ _ _ _ _ _ Hch); done).
  assert (er_target_identity x' = er_target_identity x) as Hid' by (by rewrite (tc_identity _ _ _ _ _ _ _ _ _ Hch)).
  assert (mx_commit_outcome (er_execution x') = field_or (ch_commit_outcome ch) (mx_commit_outcome (er_execution x))) as Ho'
    by (rewrite (tc_execution _ _ _ _ _ _ _ _ _ Hch); done).
  assert (mx_status (er_execution x') <> SReserved) as Hs'.
  { rewrite (tc_execution _ _ _ _ _ _ _ _ _ Hch). simpl. eapply legal_not_reserved, (tc_legal _ _ _ _ _ _ _ _ _ Hch). }
  split; [by eapply set_execution_inv| | | | | |].
  - intros k' Hn. destruct (ri_runs _ _ Hi _ Hn) as (who & y & t & i & sts & [Hy Hyst Hyt Hyne Hyi Hyp] & Hrun).
    destruct (decide (k' = k)) as [->|Hne].
    + simplify_eq. exists who, x', t, i, sts. split; [|done]. split; try congruence.
      * simpl. by rewrite dget_dset_eq.
      * by rewrite (pg_plan _ _ Hp).
    + exists who, y, t, i, sts. split; [|done]. split; try done. simpl. by rewrite dget_dset_ne.
  - intros k' y. simpl. rewrite dget_dset. case_decide as Hk; [|by apply (ri_reserved _ _ Hi)]. by intros [= <-].
  - intros k' y. simpl. rewrite dget_dset. case_decide as Hk; [|by apply (ri_evidence _ _ Hi)]. intros [= <-] Hty. subst.
    eapply (ri_evidence _ _ Hi); [done|congruence].
  - intros k' y. simpl. rewrite dget_dset. case_decide as Hk; [|by apply (ri_rolled_back _ _ Hi)]. intros [= <-] Hoy. subst.
    rewrite Ho' in Hoy. destruct (ch_commit_outcome ch) as [|[o|]]; simpl in Hoy; [by eapply (ri_rolled_back _ _ Hi)| |done].
    apply Hrb. by rewrite Hoy.
  - intros k' y. simpl. rewrite dget_dset. case_decide as Hk; [|by apply (ri_committed _ _ Hi)]. intros [= <-] Hoy. subst.
    rewrite Ho' in Hoy. destruct (ch_commit_outcome ch) as [|[o|]]; simpl in Hoy; [by eapply (ri_committed _ _ Hi)| |done].
    apply Hc. by rewrite Hoy.
  - intros k' y. simpl. rewrite dget_dset. case_decide as Hk; [|by apply (ri_accepted _ _ Hi)]. intros [= <-] Hcm. subst.
    destruct (ri_accepted _ _ Hi _ _ Hx Hcm) as (p & intended & Hpl & Hin & Ha). exists p, intended.
    rewrite (pg_plan _ _ Hp), (tc_intended _ _ _ _ _ _ _ _ _ Hch). split; [done|]. split; [|done]. by rewrite Hint.
Qed.
(** ** Entries of a run *)

Lemma events_snoc k l k' e : events k (l ++ [(k', e)]) = if decide (k' = k) then events k l ++ [e] else events k l.
Proof. rewrite events_app, events_one. case_decide; by rewrite ?app_nil_r. Qed.

(** The result the execution recorded may be committed. *)
Definition recorded_result r (k : repo_key) (x : ExecutionRecord) : Prop := exists p intended,
  dget (k.1, mx_plan_id (er_execution x)) (mg_plans r) = Some p /\
  er_intended_result x = Some intended /\ accepted (pr_authority p) intended.

(** The next entry of an open run. *)
Lemma emit_run_inv r l k x who t i sts ev :
  run_inv r l -> started r k x t i sts -> events k l <> [] -> Closed ∉ (events k l).*2 ->
  run_of who t i sts (events k l ++ [(who, ev)]) -> (ev = CommittedInTarget -> recorded_result r k x) ->
  run_inv r (l ++ [(k, (who, ev))]).
Proof.
  intros Hi Hs Hne Hopen Hrun Hok. pose proof (sd_record _ _ _ _ _ _ Hs) as Hx. split; [apply Hi| |apply Hi| | | |].
  - intros k' Hn. rewrite events_snoc in Hn |- *. case_decide as Hk; [|by apply Hi]. subst. by exists who, x, t, i, sts.
  - intros k' y Hy Ht Hn. rewrite events_snoc in Hn. by apply (ri_evidence _ _ Hi _ _ Hy Ht); case_decide; [apply app_nil in Hn as []|].
  - intros k' y Hy Ho. rewrite events_snoc. case_decide as Hk; [|by eapply (ri_rolled_back _ _ Hi)]. subst.
    destruct (ri_rolled_back _ _ Hi _ _ Hy Ho) as [?|[? _]]; done.
  - intros k' y Hy Ho. rewrite events_snoc. apply (ri_committed _ _ Hi _ _ Hy) in Ho. case_decide; [|done].
    rewrite fmap_app. set_solver.
  - intros k' y Hy. rewrite events_snoc. case_decide as Hk; [|by apply (ri_accepted _ _ Hi)]. subst. simplify_eq.
    rewrite fmap_app, elem_of_app. intros [Hc|Hc]; [by apply (ri_accepted _ _ Hi)|]. apply Hok. simpl in Hc. set_solver.
Qed.

(** The first entry, with the transition that records it. *)
Lemma start_run_inv r l k x x' p who t i lo ex rec now :
  run_inv r l -> dget k (mg_executions r) = Some x -> mx_status (er_execution x) = SReserved ->
  transition_change k.1 SApplying lo ex rec now (with_run t i no_changes) x x' -> t <> "" ->
  dget (k.1, mx_plan_id (er_execution x)) (mg_plans r) = Some p ->
  run_inv (set_execution k x' r) (l ++ [(k, (who, Applying t i))]) /\ later r (set_execution k x' r) /\
  started (set_execution k x' r) k x' t i (statements_of p) /\ events k (l ++ [(k, (who, Applying t i))]) = [(who, Applying t i)].
Proof.
  intros Hi Hx Hst Hch Ht Hp. pose proof (reserved_idle _ _ _ _ Hi Hx Hst) as Hidle. pose proof (ri_repo _ _ Hi) as Hm.
  pose proof (ri_reserved _ _ Hi _ _ Hx Hst) as Hout.
  destruct (mi_exec _ Hm _ _ Hx) as (Hkey & Hlease & _). assert (er_owner_id x = k.1) as Ho by (by rewrite <-Hkey).
  destruct (transition_change_ok _ _ _ _ _ _ _ _ _ Hch Ho Hlease) as [Hl' Hpr].
  assert (later r (set_execution k x' r)) as Hlater by by eapply set_execution_later.
  assert (dget k (mg_executions (set_execution k x' r)) = Some x') as Hx' by (simpl; by rewrite dget_dset_eq).
  pose proof (tc_execution _ _ _ _ _ _ _ _ _ Hch) as He. pose proof (tc_identity _ _ _ _ _ _ _ _ _ Hch) as Hid.
  assert (mx_commit_outcome (er_execution x') = None) as Hout' by by rewrite He.
  assert (started (set_execution k x' r) k x' t i (statements_of p)) as Hs.
  { split; try done; [by rewrite He|by rewrite He|]. exists p. by rewrite (pg_plan _ _ Hpr). }
  assert (events k (l ++ [(k, (who, Applying t i))]) = [(who, Applying t i)]) as Hev
    by (rewrite events_snoc, decide_True by done; by rewrite Hidle).
  split; [|done]. split; [by eapply set_execution_inv| | | | | |].
  - intros k' Hn. destruct (decide (k = k')) as [<-|Hk].
    + exists who, x', t, i, (statements_of p). split; [done|]. rewrite Hev. exists [], []. split; [apply prefix_nil|]. auto.
    + rewrite events_snoc, decide_False in Hn |- * by done.
      destruct (ri_runs _ _ Hi _ Hn) as (w & y & t' & i' & sts & [] & Hrun).
      exists w, y, t', i', sts. split; [|done]. split; try done. simpl. by rewrite dget_dset_ne.
  - intros k' y. simpl. rewrite dget_dset. case_decide; [by intros [= <-]|]. by apply Hi.
  - intros k' y. simpl. rewrite dget_dset. case_decide as Hk; [subst; by rewrite Hev|]. rewrite events_snoc, decide_False by done.
    by apply Hi.
  - intros k' y. simpl. rewrite dget_dset. case_decide as Hk; [intros [= <-]; congruence|].
    rewrite events_snoc, decide_False by done. by apply Hi.
  - intros k' y. simpl. rewrite dget_dset. case_decide as Hk; [intros [= <-]; congruence|].
    rewrite events_snoc, decide_False by done. by apply Hi.
  - intros k' y. simpl. rewrite dget_dset. case_decide as Hk; [subst; rewrite Hev; set_solver|].
    rewrite events_snoc, decide_False by done. by apply Hi.
Qed.
(** A repository in which nothing was started, and nothing observed. *)
Lemma run_inv_unstarted r :
  mig_inv r -> (forall k x, dget k (mg_executions r) = Some x ->
    mx_transaction_id (er_execution x) = None /\ mx_commit_outcome (er_execution x) = None) -> run_inv r [].
Proof.
  intros Hi Hx. split; try done; intros k x Hk; destruct (Hx k x Hk) as [Ht Ho]; congruence || set_solver.
Qed.
End inv.

Arguments ri_repo {D Catalog accepted}.
Arguments ri_runs {D Catalog accepted}.
Arguments ri_reserved {D Catalog accepted}.
Arguments ri_evidence {D Catalog accepted}.
Arguments ri_rolled_back {D Catalog accepted}.
Arguments ri_committed {D Catalog accepted}.
Arguments ri_accepted {D Catalog accepted}.
Arguments oa_later {D Catalog accepted}.
Arguments oa_intended {D Catalog accepted}.
Arguments oa_log {D Catalog accepted}.
Arguments oa_inv {D Catalog accepted}.
Arguments transition_run_inv {D Catalog accepted}.
Arguments others_keep_run {D Catalog accepted}.
Arguments emit_run_inv {D Catalog accepted}.
Arguments start_run_inv {D Catalog accepted}.
Arguments others_act_repo {D Catalog accepted}.
Arguments others_act_lease {D Catalog accepted}.
Arguments reserved_idle {D Catalog accepted}.
Arguments unstarted_idle {D Catalog accepted}.
