(* ===== verification/TargetProps.v ===== *)
(** * Sessions with the target

    What every part of [MigrationTarget] leaves alone: until the callbacks run, a session
    only lets the rest of the system act.  [calm] is any preorder on states that the
    actions of others respect. *)

From Stdlib Require Import Ascii String.
From S2P Require Import Prelude Json PyString MigrationModels SqlText PlanAnalysis MigrationReview MigrationTarget ExecutionInv.
Open Scope string_scope.
Open Scope list_scope.

Section target.
Context {S O Catalog : Type}.
Variable observe : S -> O.
Variable catalog_fingerprint : Catalog -> string.
Variables (migration_timeout_ms catalog_timeout_ms lock_timeout_ms : Z).
Variable pause : S -> S.
Variable emit : target_event -> S -> S.

Variable calm : S -> S -> Prop.
Variable ok : S -> Prop.
Hypothesis calm_refl : forall s, ok s -> calm s s.
Hypothesis calm_trans : forall s1 s2 s3, calm s1 s2 -> calm s2 s3 -> calm s1 s3.
Hypothesis calm_ok : forall s s', calm s s' -> ok s'.
Hypothesis pause_calm : forall s, ok s -> calm s (pause s).

Abbreviation in_session := (method (S * session_progress) body_error).
Implicit Types (session : target_session O Catalog) (p : session_progress).

Definition same_counts p p' : Prop := sp_completed p' = sp_completed p /\ sp_commit_attempted p' = sp_commit_attempted p.

(** A part of a session that lets others act, and whose results satisfy [Q]. *)
Definition quietly {A} (m : in_session A) (Q : A -> Prop) : Prop := forall s p, ok s ->
  wp m (s, p) (fun s' r => calm s s'.1 /\ same_counts p s'.2 /\
    match r with Ok a => Q a | Err (InGateway _) => True | Err (InCallback _) => False end).

Lemma quietly_mono {A} (m : in_session A) (P Q : A -> Prop) : quietly m P -> (forall a, P a -> Q a) -> quietly m Q.
Proof. intros Hm HQ s p Hs. eapply wp_mono; [by apply Hm|]. intros s' [a|[]] (? & ? & ?); naive_solver. Qed.

Lemma quietly_bind {A B} (m : in_session A) (k : A -> in_session B) P Q :
  quietly m P -> (forall a, P a -> quietly (k a) Q) -> quietly (m_bind m k) Q.
Proof.
  intros Hm Hk s p Hs. apply wp_bind. eapply wp_mono; [by apply Hm|]. intros [s' p'] [a|e] (Hc & Hp & Ha); simpl in *; [|done].
  eapply wp_mono; [apply Hk; [done|by eapply calm_ok]|]. intros [s2 p2] res (Hc2 & Hp2 & Hr). simpl in *.
  split; [by eapply calm_trans|]. split; [|done]. unfold same_counts in *. intuition congruence.
Qed.

Lemma quietly_return {A} (a : A) (Q : A -> Prop) : Q a -> quietly (m_return a) Q.
Proof. intros Ha s p Hs. apply wp_return. by split_and!; [apply calm_refl|..]. Qed.

Lemma quietly_gateway {A} (r : result target_error A) (Q : A -> Prop) : (forall a, r = Ok a -> Q a) -> quietly (m_gateway r) Q.
Proof. intros Ha s p Hs. apply wp_lift. destruct r; split_and!; auto using calm_refl; done. Qed.

Lemma quietly_send {A} (m : message) (answer : O -> list message -> result target_error A) :
  quietly (send observe pause m answer) (fun _ => True).
Proof.
  intros s p Hs. unfold wp, send. simpl. split; [by apply pause_calm|]. split; [done|]. by destruct (answer _ _).
Qed.

Lemma quietly_connect session : quietly (connect_target observe pause session) (fun _ => True).
Proof. intros s p Hs. unfold wp, connect_target. simpl. split; [by apply pause_calm|]. split; [done|]. by destruct (ss_connect _ _). Qed.

Lemma quietly_statements session statements :
  quietly (execute_statements observe pause session statements) (fun _ => True).
Proof.
  induction statements as [|sql rest IH]; [by apply quietly_return|].
  eapply quietly_bind; [apply quietly_send|]. done.
Qed.

Lemma quietly_one session m : quietly (execute_one observe pause session m) (fun _ => True).
Proof. eapply quietly_bind; [apply quietly_send|]. intros rows _. by apply quietly_gateway. Qed.

Lemma quietly_identity session database : quietly (read_target_identity observe pause session database) (fun _ => True).
Proof.
  eapply quietly_bind; [apply quietly_one|]. intros identity _.
  eapply quietly_bind; [by apply (quietly_gateway _ (fun _ => True))|]. intros _ _.
  eapply quietly_bind; [by apply (quietly_gateway _ (fun _ => True))|]. intros _ _. by apply quietly_return.
Qed.

Lemma quietly_emptiness session namespace names :
  quietly (MigrationTarget.table_emptiness observe pause session namespace names) (fun _ => True).
Proof.
  induction names as [|name rest IH]; [by apply quietly_return|].
  eapply quietly_bind; [apply quietly_one|]. intros row _.
  eapply quietly_bind; [by apply (quietly_gateway _ (fun _ => True))|]. intros b _.
  eapply quietly_bind; [apply IH|]. intros others _. by apply quietly_return.
Qed.

Lemma quietly_prepare session database namespace fingerprint empty locks :
  quietly (prepare_migration observe catalog_fingerprint migration_timeout_ms lock_timeout_ms pause session database namespace
             fingerprint empty locks) (fun ti => ti.1 <> "").
Proof.
  eapply quietly_bind; [apply quietly_connect|]. intros _ _.
  eapply quietly_bind; [apply quietly_statements|]. intros _ _.
  eapply quietly_bind; [apply quietly_send|]. intros _ _.
  eapply quietly_bind; [apply quietly_statements|]. intros _ _.
  eapply quietly_bind; [apply quietly_statements|]. intros _ _.
  eapply quietly_bind; [apply quietly_send|]. intros live _.
  eapply quietly_bind; [by apply (quietly_gateway _ (fun _ => True))|]. intros _ _.
  eapply quietly_bind; [apply quietly_emptiness|]. intros emptiness _.
  eapply quietly_bind; [by apply (quietly_gateway _ (fun _ => True))|]. intros _ _.
  eapply quietly_bind; [apply quietly_identity|]. intros identity _.
  eapply quietly_bind; [apply quietly_one|]. intros row _.
  apply quietly_gateway. intros [t i] Hr. destruct (row_value _ _); try done. case_bool_decide; [done|]. by simplify_eq.
Qed.

(** The answer of [transaction_status]: the identity and the status the session gave last. *)
Lemma transaction_status_spec session database t s :
  ok s ->
  wp (transaction_status observe catalog_timeout_ms lock_timeout_ms pause session database t) s (fun s' r =>
    calm s s' /\
    forall recovery, r = Ok recovery -> exists s1 sent row,
      ss_rows session (observe s1) (sent ++ [(target_identity_sql, [])]) = Some [ptr_target_identity recovery] /\
      ss_rows session (observe s') ((sent ++ [(target_identity_sql, [])]) ++ [(transaction_status_sql, [t])]) = Some [row] /\
      row_value "status" row = JStr (ptr_status recovery) /\ ptr_status recovery ∈ ["committed"; "aborted"; "in progress"]).
Proof.
  intros Hs. unfold transaction_status. unfold wp. destruct (py_isdigit t); cbn [negb]; [|by split; [apply calm_refl|]].
  match goal with |- context [match ?m (s, session_start) with _ => _ end] => set (body := m) end.
  assert (wp body (s, session_start) (fun s' r => calm s s'.1 /\ forall recovery, r = Ok recovery -> exists s1 sent row,
      ss_rows session (observe s1) (sent ++ [(target_identity_sql, [])]) = Some [ptr_target_identity recovery] /\
      ss_rows session (observe s'.1) ((sent ++ [(target_identity_sql, [])]) ++ [(transaction_status_sql, [t])]) = Some [row] /\
      row_value "status" row = JStr (ptr_status recovery) /\ ptr_status recovery ∈ ["committed"; "aborted"; "in progress"])) as Hb.
  { subst body. apply wp_bind. eapply wp_mono; [by apply quietly_connect|]. intros [s1 p1] [[]|e] (Hc1 & _); [|done].
    apply wp_bind. eapply wp_mono; [apply quietly_statements; by eapply calm_ok|].
    intros [s2 p2] [[]|e] (Hc2 & _); [|split; [by eapply calm_trans|done]].
    assert (calm s s2) as Hc by by eapply calm_trans. clear s1 p1 Hc1 Hc2. unfold read_target_identity, execute_one, execute_rows.
    apply wp_bind, wp_bind, wp_bind. unfold send at 1, wp at 1. simpl.
    assert (calm s (pause s2)) as Hc' by (eapply calm_trans; [done|]; apply pause_calm; by eapply calm_ok).
    destruct (ss_rows session (observe (pause s2)) _) as [rows|] eqn:Hi; [|done]. apply wp_lift.
    destruct (one_row rows) as [identity|] eqn:Hone; [|done]. destruct rows as [|? []]; simplify_eq/=.
    apply wp_bind, wp_lift. destruct (require_database identity database); [|done].
    apply wp_bind, wp_lift. destruct (identity_complete identity); [|done]. apply wp_return.
    apply wp_bind, wp_bind. unfold send at 1, wp at 1. simpl.
    assert (calm s (pause (pause s2))) as Hc2 by (eapply calm_trans; [done|]; apply pause_calm; by eapply calm_ok).
    destruct (ss_rows session (observe (pause (pause s2))) _) as [rows|] eqn:Hst; [|done]. apply wp_lift.
    destruct (one_row rows) as [row|] eqn:Hone; [|done]. destruct rows as [|? []]; simplify_eq/=.
    apply wp_lift. split; [done|]. intros recovery Hr. destruct (row_value "status" row) as [| | |status| |] eqn:Hv; try done.
    case_bool_decide; simplify_eq/=. by exists (pause s2), (sp_sent p2), row. }
  unfold wp in Hb. destruct (body (s, session_start)) as [[s' p'] [recovery|[e|e]]]; simpl in *;
    (destruct Hb as [Hc Hr]; split; [done|intros ? [= <-]; by apply Hr]).
Qed.
End target.
