(* ===== verification/ExecutionProps.v ===== *)
(** * What a coordinator does

    Postconditions of the methods of [MigrationExecution] under arbitrary interference by
    other threads: every call keeps [run_inv], and a coordinator emits entries only for
    the run it started. *)

From Stdlib Require Import Ascii String.
From S2P Require Import Prelude Json PyString DesignModels DefinitionAnalysis DesignValidation DesignDocument MigrationModels MigrationStore MigrationSpec MigrationReach CheckExpressions Reconcile SqlText PlanAnalysis MigrationReview MigrationTarget MigrationExecution ExecutionInv TargetProps.
Open Scope string_scope.
Open Scope list_scope.

Definition key_of (x : ExecutionRecord) : repo_key := (er_owner_id x, mx_id (er_execution x)).

(** The evidence of an execution after a transition. *)
Definition evidence_after (st : execution_status) (ch : transition_changes) (x : ExecutionRecord) :=
  (st, field_or (ch_transaction_id ch) (mx_transaction_id (er_execution x)),
   field_or (ch_commit_outcome ch) (mx_commit_outcome (er_execution x)),
   field_or (ch_sync_status ch) (mx_sync_status (er_execution x)),
   field_or (ch_target_identity ch) (er_target_identity x), field_or (ch_intended_result ch) (er_intended_result x)).

(** What PostgreSQL documents of [pg_xact_status]: in a session that identified itself, the
    reported outcome of a transaction that applied a migration there is the real one. *)
Definition honest_status {Catalog} (target : nat -> target_session target_log Catalog) : Prop :=
  forall n l l' sent identity row t status k who i,
    ss_rows (target n) l (sent ++ [(target_identity_sql, [])]) = Some [identity] ->
    ss_rows (target n) l' ((sent ++ [(target_identity_sql, [])]) ++ [(transaction_status_sql, [t])]) = Some [row] ->
    row_value "status" row = JStr status -> py_eq (JDict identity) (JDict i) = true -> (who, Applying t i) ∈ events k l' ->
    (status = "aborted" -> abandoned_run (events k l')) /\
    (status = "committed" -> CommittedInTarget ∈ (events k l').*2).

Section coordinator.
Context {D Catalog : Type} `{!DesignRepositoryOps D}.
Context `{Pglast} `{SqlglotRelations} `{SqlglotTrees} `{Sha256}.
Variable catalog_fingerprint : Catalog -> string.
Variable import_catalog : Catalog -> ImportedDesign.
Variable designs_get : string -> string -> method D design_error SchemiiDesign.
Variable catalog_document : Catalog -> json.
Variable read_catalog : json -> option Catalog.
Variable lease_ttl : Z.
Variables (migration_timeout_ms catalog_timeout_ms lock_timeout_ms : Z).
Variables (executes_migrations reads_status : bool).
Variable me : string.
(** The other coordinators. *)
Variable others : string -> Prop.
Variable clock : nat -> Z.
Variable token : nat -> string.
Variable interfere : nat -> MigrationRepo D Catalog * target_log -> MigrationRepo D Catalog * target_log.
Variable target : nat -> target_session target_log Catalog.
Variable connections : nat -> string -> string -> result target_error connection_view.
Variable workspaces : nat -> string -> string -> result string SchemiiWorkspace.

Abbreviation World := (world D Catalog).
Abbreviation move := (move_execution lease_ttl clock token interfere).
Abbreviation pausing := (pause interfere).
Implicit Types (w : World) (x y : ExecutionRecord).

Definition view w : MigrationRepo D Catalog * target_log := (w_repo w, w_log w).

(** The results the coordinator commits: those its review accepts. *)
Definition accepts (authority : PlanAuthority Catalog) (intended : json_object) : Prop := exists catalog candidate,
  accept_result import_catalog authority catalog = Ok candidate /\
  intended = merge_details [] (intended_result catalog_fingerprint catalog_document catalog candidate).
Abbreviation inv := (run_inv accepts).

Definition good w : Prop := inv (w_repo w) (w_log w).
(** From [w] to [w'] this coordinator emitted nothing. *)
Definition quiet w w' : Prop := others_act accepts others (view w) (view w').

Hypothesis Hme : ~ others me.
Hypothesis Hothers : forall n a, inv a.1 a.2 -> others_act accepts others a (interfere n a).
Hypothesis Hhonest : honest_status target.

(** ** Quiet stretches *)

Lemma quiet_good w w' : quiet w w' -> good w'.
Proof. by intros [_ _ Hi _]. Qed.

Lemma quiet_refl w w' : good w -> view w' = view w -> quiet w w'.
Proof. intros Hg Hv. unfold quiet. rewrite Hv. by apply others_act_refl. Qed.

Lemma quiet_trans w1 w2 w3 : quiet w1 w2 -> quiet w2 w3 -> quiet w1 w3.
Proof. apply others_act_trans. Qed.

Lemma pause_quiet w : good w -> quiet w (pausing w).
Proof.
  intros Hg. unfold quiet, pause. destruct (interfere (w_ticks w) (w_repo w, w_log w)) as [r l] eqn:E.
  unfold view. simpl. rewrite <-E. by apply Hothers.
Qed.

(** An execution as it was read at some earlier time. *)
Definition seen w x : Prop := exists y, dget (key_of x) (mg_executions (w_repo w)) = Some y /\ progress x y.

Lemma seen_quiet w w' x : quiet w w' -> seen w x -> seen w' x.
Proof.
  intros [Hl _ _ _] (y & Hy & Hp). destruct (lt_executions _ _ Hl _ _ Hy) as (z & Hz & Hp').
  exists z. split; [done|by etrans].
Qed.

Lemma progress_key x y : progress x y -> key_of y = key_of x.
Proof. intros []. unfold key_of. congruence. Qed.

Lemma seen_now w x : dget (key_of x) (mg_executions (w_repo w)) = Some x -> seen w x.
Proof. intros Hx. by exists x. Qed.

Lemma stored_key w k x : good w -> dget k (mg_executions (w_repo w)) = Some x -> key_of x = k.
Proof. intros Hg Hx. by destruct (mi_exec _ (ri_repo _ _ Hg) _ _ Hx) as (Hk & _). Qed.

(** Calls of a repository that leave its executions and baselines' chains consistent. *)
Lemma wp_repository_call {A} (m : Z -> string -> method (MigrationRepo D Catalog) migration_error A) w Q :
  (forall now t w', quiet w w' -> Q (put_repo (m now t (w_repo w')).1 w') (m now t (w_repo w')).2) -> good w ->
  wp (repository_call clock token interfere m) w Q.
Proof.
  intros HQ Hg. unfold wp, repository_call.
  specialize (HQ (clock (w_ticks w)) (token (w_ticks w)) (pausing w) (pause_quiet w Hg)). by destruct (m _ _ _).
Qed.

Lemma wp_mapping {E A} (f : E -> service_error) (m : method World E A) w Q :
  wp m w (fun w' r => Q w' (match r with Ok a => Ok a | Err e => Err (f e) end)) -> wp (mapping_errors f m) w Q.
Proof. unfold wp, mapping_errors. by destruct (m w) as [w' [a|e]]. Qed.

(** A method whose clock readings and tokens do not matter. *)
Definition only_ticks {A} (m : method World service_error A) : Prop := forall w, exists a, view (m w).1 = view w /\ (m w).2 = Ok a.

Lemma ticks_return {A} (a : A) : only_ticks (m_return a).
Proof. intros w. by exists a. Qed.
Lemma ticks_bind {A B} (m : method World service_error A) (k : A -> method World service_error B) :
  only_ticks m -> (forall a, only_ticks (k a)) -> only_ticks (m_bind m k).
Proof.
  intros Hm Hk w. destruct (Hm w) as (a & Hv & Ha). unfold m_bind. destruct (m w) as [w' r]. simpl in *. subst r.
  destruct (Hk a w') as (b & Hv' & Hb). exists b. by rewrite Hv'.
Qed.
Lemma ticks_clock : only_ticks (read_clock clock).
Proof. intros w. by eexists. Qed.
Lemma ticks_token : only_ticks (fresh_token token).
Proof. intros w. by eexists. Qed.

Lemma wp_ticks {A B} (m : method World service_error A) (k : A -> method World service_error B) w Q :
  only_ticks m -> (forall a w', view w' = view w -> wp (k a) w' Q) -> wp (m_bind m k) w Q.
Proof.
  intros Hm Hk. apply wp_bind. unfold wp at 1. destruct (Hm w) as (a & Hv & ->). by apply Hk.
Qed.

(** ** Transitions *)

(** A transition is a call of the repository: the lease is worked out before it. *)
Lemma wp_move x st rec ch w Q :
  (forall lo ex before w', view w' = view w ->
     wp (mapping_errors repository_error (repository_call clock token interfere (fun now _ =>
       transition_execution now (er_owner_id x) (mx_id (er_execution x)) (mx_revision (er_execution x))
         [mx_status (er_execution x)] st lo ex before ch))) w' Q) ->
  wp (move x st rec ch) w Q.
Proof.
  intros HQ. unfold move_execution.
  apply wp_ticks. { destruct (er_lease_owner x); [apply ticks_return|]. destruct (retains_lease _ _); [|apply ticks_return].
    apply ticks_bind; [apply ticks_token|intros; apply ticks_return]. }
  intros lo w1 Hv1. apply wp_ticks. { destruct (retains_lease _ _); [|apply ticks_return]. apply ticks_bind; [|intros; apply ticks_return].
    apply ticks_bind; [apply ticks_clock|intros; apply ticks_return]. }
  intros ex w2 Hv2. apply wp_ticks. { destruct rec; [|apply ticks_return]. apply ticks_bind; [apply ticks_clock|intros; apply ticks_return]. }
  intros before w3 Hv3. apply HQ. congruence.
Qed.

Lemma move_raw x st rec ch w :
  good w -> seen w x ->
  wp (move x st rec ch) w (fun w' res => exists w1, quiet w w1 /\
    match res with
    | Err _ => view w' = view w1
    | Ok x' => exists y now lo ex before, dget (key_of x) (mg_executions (w_repo w1)) = Some y /\
        mx_revision (er_execution y) = mx_revision (er_execution x) /\ run_evidence y = run_evidence x /\
        transition_change (key_of x).1 st lo ex before now ch y x' /\
        view w' = (set_execution (key_of x) x' (w_repo w1), w_log w1)
    end).
Proof.
  intros Hg Hseen. apply wp_move. intros lo ex before w3 Hv.
  assert (good w3) as Hg3 by (unfold good; injection Hv as -> ->; done).
  apply wp_mapping, wp_repository_call; [|done]. intros now t w' Hq.
  exists w'. split; [eapply quiet_trans; [by apply quiet_refl|done]|].
  assert (seen w' x) as Hs' by (eapply seen_quiet; [done|]; destruct Hseen as (y & Hy & Hp); exists y; injection Hv as -> _; done).
  destruct (execution_transition_spec now (er_owner_id x) (mx_id (er_execution x)) (mx_revision (er_execution x))
    [mx_status (er_execution x)] st lo ex before ch (w_repo w')) as [[Heq (e & He)]|(y & x' & Hy & Hrev & _ & Hch & Heq)].
  - rewrite He. by rewrite Heq.
  - rewrite Heq. simpl. exists y, now, lo, ex, before. split_and!; try done.
    destruct Hs' as (z & Hz & Hp). unfold key_of in Hz. rewrite Hy in Hz. simplify_eq. by apply (pg_evidence _ _ Hp).
Qed.

(** [changes] are true of a run with the entries [evs], and keep the recorded result. *)
Definition reports (ch : transition_changes) y (evs : list (string * target_event)) : Prop :=
  truthful ch y evs /\ field_or (ch_intended_result ch) (er_intended_result y) = er_intended_result y.

(** If the execution read as [x] is still unchanged, [changes] are true of its run. *)
Definition tells_truth w x (ch : transition_changes) : Prop := forall w1 y, quiet w w1 ->
  dget (key_of x) (mg_executions (w_repo w1)) = Some y -> mx_revision (er_execution y) = mx_revision (er_execution x) ->
  run_evidence y = run_evidence x -> reports ch y (events (key_of x) (w_log w1)).

(** A transition that tells the truth about the run. *)
Lemma move_execution_spec x st rec ch w :
  good w -> seen w x ->
  tells_truth w x ch ->
  wp (move x st rec ch) w (fun w' res => quiet w w' /\ forall x', res = Ok x' ->
    key_of x' = key_of x /\ dget (key_of x) (mg_executions (w_repo w')) = Some x' /\ run_evidence x' = evidence_after st ch x).
Proof.
  intros Hg Hs Ht. eapply wp_mono; [by apply move_raw|]. intros w' res (w1 & Hq & Hres). destruct res as [x'|e].
  - destruct Hres as (y & now & lo & ex & before & Hy & Hrev & Hev & Hch & Hv).
    pose proof (quiet_good _ _ Hq) as Hg1.
    destruct (Ht w1 y Hq Hy Hrev Hev) as [Hr Hkept].
    destruct (transition_run_inv (w_repo w1) (w_log w1) (key_of x) y x' _ _ _ _ _ _ Hg1 Hy Hch Hr) as [Hi Hl].
    assert (dget (key_of x) (mg_executions (w_repo w')) = Some x') as Hx'.
    { injection Hv as -> _. simpl. by rewrite dget_dset_eq. }
    assert (quiet w1 w') as Hq'.
    { split; rewrite Hv; simpl; [done| |done|]; [exists []; by rewrite app_nil_r|]. intros k a b Ha Hb. left. rewrite dget_dset in Hb. revert Hb.
      case_decide as Hk; intros Hb; [|congruence]. injection Hb as <-. rewrite (tc_intended _ _ _ _ _ _ _ _ _ Hch). congruence. }
    split; [by eapply quiet_trans|]. intros ? [= <-]. split; [|split; [done|]].
    + eapply stored_key; [|done]. by eapply quiet_good.
    + destruct Hch as [_ _ _ _ He _ _ _ Hid Hin]. unfold run_evidence, evidence_after in *. rewrite He. simpl.
      injection Hev as _ Ht1 Ho1 Hs1 Hi1 Hi2. by rewrite Hid, Hin, Ht1, Ho1, Hs1, Hi1, Hi2.
  - split; [|done]. eapply quiet_trans; [done|]. apply quiet_refl; [by eapply quiet_good|done].
Qed.

Lemma settle_spec x st rec ch w :
  good w -> seen w x ->
  tells_truth w x ch ->
  wp (settle lease_ttl clock token interfere x st rec ch) w (fun w' _ => quiet w w').
Proof.
  intros Hg Hs Ht. apply wp_bind. eapply wp_mono; [by apply move_execution_spec|]. intros w' [x'|e] [Hq _]; done.
Qed.

(** Truthful changes. *)
Definition silent (ch : transition_changes) : Prop :=
  ch_transaction_id ch = UNSET /\ ch_target_identity ch = UNSET /\ ch_intended_result ch = UNSET /\
  match ch_commit_outcome ch with UNSET | Given None | Given (Some CommitUncertain) => True | _ => False end.

Lemma silent_truthful ch y evs : silent ch -> reports ch y evs.
Proof. intros (Ht & Hi & Hn & Ho). repeat split; rewrite ?Ht, ?Hi, ?Hn; try done; intros Hc; by rewrite Hc in Ho. Qed.

Lemma rolled_back_truthful ch y evs :
  ch_transaction_id ch = UNSET -> ch_target_identity ch = UNSET -> ch_intended_result ch = UNSET -> ch_commit_outcome ch = Given (Some RolledBack) ->
  evs = [] \/ abandoned_run evs -> reports ch y evs.
Proof. intros Ht Hi Hn Ho He. repeat split; rewrite ?Ht, ?Hi, ?Hn, ?Ho; done. Qed.

Lemma committed_truthful ch y evs :
  ch_transaction_id ch = UNSET -> ch_target_identity ch = UNSET -> ch_intended_result ch = UNSET -> ch_commit_outcome ch = Given (Some Committed) ->
  CommittedInTarget ∈ evs.*2 -> reports ch y evs.
Proof. intros Ht Hi Hn Ho He. repeat split; rewrite ?Ht, ?Hi, ?Hn, ?Ho; done. Qed.

(** ** Calls of the other repositories *)

(** A change of the repository that leaves the executions and their plans alone. *)
Lemma executions_kept w r' :
  good w -> mig_inv r' -> later (w_repo w) r' -> mg_executions r' = mg_executions (w_repo w) -> quiet w (put_repo r' w).
Proof.
  intros Hg Hi Hl He. apply others_act_repo; [done|done|done|]. intros k x. simpl. rewrite He. eauto.
Qed.

Lemma designs_call_quiet {A} (m : Z -> method D design_error A) w :
  good w -> wp (designs_call clock interfere m) w (fun w' _ => quiet w w').
Proof.
  intros Hg. unfold wp, designs_call. pose proof (pause_quiet w Hg) as Hq. destruct (m _ _) as [d res]. simpl.
  eapply quiet_trans; [done|]. pose proof (quiet_good _ _ Hq) as Hg'. apply executions_kept; try done.
  - apply put_designs_inv, Hg'.
  - split; simpl; eauto using progress_refl, same_review_refl.
Qed.

Lemma create_baseline_quiet v w :
  good w -> wp (repository_call clock token interfere (fun now t => create_baseline now t v)) w (fun w' _ => quiet w w').
Proof.
  intros Hg. apply wp_repository_call; [|done]. intros now t w' Hq. pose proof (quiet_good _ _ Hq) as Hg'.
  eapply quiet_trans; [done|]. apply executions_kept; [done|apply create_baseline_inv, Hg'|apply create_baseline_later|].
  pose proof (create_baseline_spec now t v (w_repo w')) as Hs. cbn zeta in Hs.
  case_decide; [destruct Hs as (b & _ & -> & _)|destruct Hs as [-> _]]; done.
Qed.

(** Calls that only read. *)
Lemma read_quiet {A} (m : Z -> string -> method (MigrationRepo D Catalog) migration_error A) w :
  (forall now t r, (m now t r).1 = r) -> good w ->
  wp (repository_call clock token interfere m) w (fun w' res => quiet w w' /\ exists now t w1, quiet w w1 /\ view w' = view w1 /\ res = (m now t (w_repo w1)).2).
Proof.
  intros Hm Hg. apply wp_repository_call; [|done]. intros now t w' Hq. rewrite Hm. split.
  - eapply quiet_trans; [done|]. apply quiet_refl; [by eapply quiet_good|done].
  - by exists now, t, w'.
Qed.

Lemma plan_quiet owner plan_id w :
  good w -> wp (execution_plan clock token interfere owner plan_id) w (fun w' res => quiet w w' /\
    forall p, res = Ok p -> exists w1, quiet w w1 /\ view w' = view w1 /\ dget (owner, plan_id) (mg_plans (w_repo w1)) = Some p).
Proof.
  intros Hg. apply wp_mapping. eapply wp_mono; [apply read_quiet; [|done]; intros; unfold get_plan; run_store; by case_match|].
  intros w' res (Hq & now & t & w1 & Hq1 & Hv & ->). split; [done|]. intros p Hp. exists w1. split; [done|]. split; [done|].
  unfold get_plan in Hp. run_store. destruct (dget _ _) eqn:Hd in Hp; simpl in Hp; by simplify_eq.
Qed.

Lemma execution_quiet owner id w :
  good w -> wp (repository_call clock token interfere (fun _ _ => get_execution owner id)) w (fun w' res => quiet w w' /\
    forall x, res = Ok x -> dget (owner, id) (mg_executions (w_repo w')) = Some x).
Proof.
  intros Hg. eapply wp_mono; [apply read_quiet; [|done]; intros; unfold get_execution; run_store; by case_match|].
  intros w' res (Hq & now & t & w1 & Hq1 & Hv & ->). split; [done|]. intros p Hp.
  injection Hv as -> _. unfold get_execution in Hp. run_store. destruct (dget _ _) eqn:Hd in Hp; simpl in Hp; by simplify_eq.
Qed.

Lemma baseline_quiet owner ws w : good w -> wp (baseline_now clock token interfere owner ws) w (fun w' _ => quiet w w').
Proof. intros Hg. apply wp_mapping. eapply wp_mono; [by apply read_quiet|]. by intros w' res [? _]. Qed.

Lemma design_quiet owner ws w : good w -> wp (design_now designs_get clock interfere owner ws) w (fun w' _ => quiet w w').
Proof. intros Hg. apply wp_mapping. eapply wp_mono; [by apply designs_call_quiet|]. done. Qed.

(** ** Synchronisation *)

(** Continues after a quiet call. *)
Lemma quiet_bind {A B} (m : method World service_error A) (k : A -> method World service_error B) w :
  wp m w (fun w' _ => quiet w w') -> (forall a w', quiet w w' -> wp (k a) w' (fun w2 _ => quiet w' w2)) ->
  wp (m_bind m k) w (fun w' _ => quiet w w').
Proof.
  intros Hm Hk. apply wp_bind. eapply wp_mono; [exact Hm|]. intros w' [a|e] Hq; [|done].
  eapply wp_mono; [by apply Hk|]. intros w2 r2 Hq2. by eapply quiet_trans.
Qed.

Lemma lift_quiet {A} (r : result service_error A) w : good w -> wp (m_lift r) w (fun w' _ => quiet w w').
Proof. intros Hg. apply wp_lift. by apply quiet_refl. Qed.

Lemma sync_design_quiet owner p merged w :
  good w -> wp (sync_design designs_get clock interfere owner p merged) w (fun w' _ => quiet w w').
Proof.
  intros Hg. apply quiet_bind; [by apply design_quiet|]. intros design w1 Hq1. pose proof (quiet_good _ _ Hq1) as Hg1.
  case_bool_decide; [by apply lift_quiet|]. destruct (_ || _); [by apply lift_quiet|].
  match goal with |- context [designs_call clock interfere ?m] => pose proof (designs_call_quiet m w1 Hg1) as Hq end.
  unfold wp in *. by destruct (designs_call _ _ _ _) as [w2 [d|[]]].
Qed.

Lemma sync_baseline_quiet owner id p rev merged catalog w :
  good w -> wp (sync_baseline catalog_fingerprint clock token interfere owner id p rev merged catalog) w (fun w' _ => quiet w w').
Proof.
  intros Hg. apply quiet_bind; [by apply baseline_quiet|]. intros baseline w1 Hq1. pose proof (quiet_good _ _ Hq1) as Hg1.
  destruct (at_catalog _ _ _); [by apply lift_quiet|].
  pose proof (create_baseline_quiet (sync_baseline_values owner id p rev merged catalog (bl_id <$> baseline)) w1 Hg1) as Hq.
  unfold wp in *. destruct (repository_call _ _ _ _ _) as [w2 [d|[]]]; simpl in *; try done.
  eapply quiet_trans; [exact Hq|].
  apply (quiet_bind (baseline_now clock token interfere owner (mp_workspace_id (pr_plan p)))
    (fun head => m_return (at_catalog catalog_fingerprint catalog head))).
  - apply baseline_quiet. by eapply quiet_good.
  - intros head w3 Hq3. apply lift_quiet. by eapply quiet_good.
Qed.

Lemma committed_events w x y :
  good w -> mx_commit_outcome (er_execution x) = Some Committed -> dget (key_of x) (mg_executions (w_repo w)) = Some y ->
  run_evidence y = run_evidence x -> CommittedInTarget ∈ (events (key_of x) (w_log w)).*2.
Proof.
  intros Hg Hx Hy Hev. eapply (ri_committed _ _ Hg); [done|]. unfold run_evidence in Hev. congruence.
Qed.

Lemma settle_committed x st ch w :
  good w -> seen w x -> mx_commit_outcome (er_execution x) = Some Committed ->
  ch_transaction_id ch = UNSET -> ch_target_identity ch = UNSET -> ch_intended_result ch = UNSET -> ch_commit_outcome ch = Given (Some Committed) ->
  wp (settle lease_ttl clock token interfere x st false ch) w (fun w' _ => quiet w w').
Proof.
  intros Hg Hs Hc ????. apply settle_spec; [done|done|]. intros w1 y Hq Hy _ Hev. apply committed_truthful; try done.
  eapply committed_events; [|done|done|done]. by eapply quiet_good.
Qed.

Lemma sync_quiet owner p x w :
  good w -> seen w x -> mx_commit_outcome (er_execution x) = Some Committed ->
  wp (sync_committed catalog_fingerprint designs_get read_catalog lease_ttl clock token interfere owner p x) w (fun w' _ => quiet w w').
Proof.
  intros Hg Hs Hc. unfold sync_committed.
  destruct (er_intended_result x) as [[|kv intended]|]; [by apply settle_committed| |by apply settle_committed].
  apply quiet_bind; [by apply lift_quiet|]. intros merged w1 Hq1. apply quiet_bind; [apply lift_quiet; by eapply quiet_good|].
  intros catalog w2 Hq2. apply quiet_bind; [apply sync_design_quiet; by eapply quiet_good|]. intros [design conflict] w3 Hq3.
  apply quiet_bind; [apply sync_baseline_quiet; by eapply quiet_good|]. intros advanced w4 Hq4.
  assert (seen w4 x) as Hs4 by (do 4 (eapply seen_quiet; [done|]); done). pose proof (quiet_good _ _ Hq4) as Hg4.
  destruct advanced; cbn [negb]; [|by apply settle_committed].
  apply quiet_bind; [by apply design_quiet|]. intros latest w5 Hq5. pose proof (quiet_good _ _ Hq5) as Hg5.
  assert (seen w5 x) as Hs5 by by eapply seen_quiet. destruct (_ || _); by apply settle_committed.
Qed.

(** ** Recovery *)

Abbreviation asking := (ask_status catalog_timeout_ms lock_timeout_ms interfere target connections).

(** What an answer says about the execution that recorded the transaction. *)
Lemma ask_spec owner t authority x w :
  good w ->
  wp (asking owner t authority) w (fun w' res => quiet w w' /\
    forall recovery y, res = Ok recovery -> same_identity (er_target_identity x) (ptr_target_identity recovery) = true ->
      recorded_transaction (er_execution x) = Some t ->
      dget (key_of x) (mg_executions (w_repo w')) = Some y -> run_evidence y = run_evidence x ->
      ptr_status recovery ∈ ["committed"; "aborted"; "in progress"] /\
      (ptr_status recovery = "aborted" -> abandoned_run (events (key_of x) (w_log w'))) /\
      (ptr_status recovery = "committed" -> CommittedInTarget ∈ (events (key_of x) (w_log w')).*2)).
Proof.
  intros Hg. unfold ask_status, wp. destruct (connections _ _ _) as [c|e]; [|by split; [apply quiet_refl|]].
  case_bool_decide; [|by split; [apply quiet_refl|]].
  pose proof (transaction_status_spec w_log catalog_timeout_ms lock_timeout_ms pausing quiet good
    (fun w Hw => quiet_refl w w Hw eq_refl) quiet_trans quiet_good pause_quiet
    (target (w_ticks w)) (cn_database c) t (tick w) Hg) as Hs. unfold wp in Hs.
  destruct (transaction_status _ _ _ _ _ _ _ _) as [w' res]. simpl in *. destruct Hs as [Hq Hr]. split; [done|].
  intros recovery y -> Hid Ht Hy Hev. destruct (Hr _ eq_refl) as (w1 & sent & row & Hi & Hst & Hv & Hin). split; [done|].
  unfold same_identity in Hid. destruct (er_target_identity x) as [i|] eqn:Hix; [|done].
  assert (mx_transaction_id (er_execution x) = Some t) as Htx.
  { unfold recorded_transaction, nonempty_text in Ht. by destruct (mx_transaction_id (er_execution x)) as [[]|]; simplify_eq. }
  pose proof (quiet_good _ _ Hq) as Hg'. unfold run_evidence in Hev.
  destruct (ri_runs _ _ Hg' (key_of x)) as (who & z & t' & i' & sts & [Hz _ Htz _ Hiz _] & Hrun).
  { eapply ri_evidence; [done|done|congruence]. }
  assert (t' = t) as -> by congruence. assert (i' = i) as -> by congruence.
  apply (Hhonest _ _ _ _ _ _ _ _ _ who i Hi Hst Hv Hid).
  destruct Hrun as (done & tail & _ & -> & _). set_solver.
Qed.

Abbreviation syncing := (sync_committed catalog_fingerprint designs_get read_catalog lease_ttl clock token interfere).
Abbreviation reconciling := (reconcile_transaction catalog_fingerprint designs_get read_catalog lease_ttl catalog_timeout_ms
  lock_timeout_ms reads_status clock token interfere target connections).

(** The entries of a finished run stay as they are. *)
Lemma abandoned_stays w w' k : quiet w w' -> abandoned_run (events k (w_log w)) -> abandoned_run (events k (w_log w')).
Proof.
  intros [_ (added & Hl & _) Hi _] [Hc Hn]. simpl in *.
  destruct (ri_runs _ _ Hi k) as (who & x & t & i & st & _ & Hrun).
  { rewrite Hl, events_app. intros [He _]%app_nil. rewrite He in Hc. set_solver. }
  rewrite Hl, events_app in Hrun |- *. apply run_closed in Hrun; [|done]. rewrite Hrun, app_nil_r. done.
Qed.

Lemma committed_stays w w' k :
  quiet w w' -> CommittedInTarget ∈ (events k (w_log w)).*2 -> CommittedInTarget ∈ (events k (w_log w')).*2.
Proof. intros [_ (added & Hl & _) _ _] Hc. simpl in *. rewrite Hl, events_app, fmap_app. set_solver. Qed.

(** Whether the execution is unchanged since it was read is decided at the end. *)
Lemma evidence_earlier w w' x y :
  quiet w w' -> seen w x -> dget (key_of x) (mg_executions (w_repo w')) = Some y ->
  mx_revision (er_execution y) = mx_revision (er_execution x) ->
  exists z, dget (key_of x) (mg_executions (w_repo w)) = Some z /\ run_evidence z = run_evidence x.
Proof.
  intros [Hl _ _ _] (z & Hz & Hp) Hy Hrev. destruct (lt_executions _ _ Hl _ _ Hz) as (y' & Hy' & Hp').
  simpl in *. rewrite Hy in Hy'. simplify_eq. exists z. split; [done|]. apply (pg_evidence _ _ Hp).
  pose proof (pg_revision _ _ Hp). pose proof (pg_revision _ _ Hp'). lia.
Qed.

Lemma uncertain_truth w x code : tells_truth w x (uncertain code).
Proof. intros w1 y _ _ _ _. by apply silent_truthful. Qed.

Lemma reconcile_quiet owner p x t automatic w :
  good w -> seen w x -> recorded_transaction (er_execution x) = Some t ->
  wp (reconciling owner p x t automatic) w (fun w' _ => quiet w w').
Proof.
  intros Hg Hs Ht. unfold reconcile_transaction. destruct reads_status; cbn [negb]; cycle 1.
  { destruct automatic; [apply settle_spec; [done|done|apply uncertain_truth]|by apply lift_quiet]. }
  pose proof (ask_spec owner t (pr_authority p) x w Hg) as Ha. unfold wp at 1 in Ha. unfold wp at 1.
  destruct (asking _ _ _ w) as [w1 res]. simpl in Ha. destruct Ha as [Hq Hr].
  assert (good w1) as Hg1 by by eapply quiet_good. assert (seen w1 x) as Hs1 by by eapply seen_quiet.
  assert (forall (m : method World service_error MigrationExecution), wp m w1 (fun w' _ => quiet w1 w') -> quiet w (m w1).1) as Hstep.
  { intros m Hm. eapply quiet_trans; [exact Hq|exact Hm]. }
  destruct res as [recovery|e]; cycle 1.
  { destruct automatic; [|done]. apply Hstep, settle_spec; [done|done|apply uncertain_truth]. }
  destruct (same_identity _ _) eqn:Hid; cbn [negb]; cycle 1.
  { apply Hstep, settle_spec; [done|done|]. intros w2 y _ _ _ _. by apply silent_truthful. }
  assert (forall w2 y, quiet w1 w2 -> dget (key_of x) (mg_executions (w_repo w2)) = Some y ->
    mx_revision (er_execution y) = mx_revision (er_execution x) -> ptr_status recovery ∈ ["committed"; "aborted"; "in progress"] /\
    (ptr_status recovery = "aborted" -> abandoned_run (events (key_of x) (w_log w2))) /\
    (ptr_status recovery = "committed" -> CommittedInTarget ∈ (events (key_of x) (w_log w2)).*2)) as Hfinal.
  { intros w2 y Hq2 Hy Hrev. destruct (evidence_earlier _ _ _ _ Hq2 Hs1 Hy Hrev) as (z & Hz & Hev).
    destruct (Hr recovery z eq_refl Hid Ht Hz Hev) as (Hin & Hab & Hcm). split; [done|].
    split; intros Hst; [eapply abandoned_stays|eapply committed_stays]; eauto. }
  case_bool_decide as Hab.
  { apply Hstep, settle_spec; [done|done|]. intros w2 y Hq2 Hy Hrev _. apply rolled_back_truthful; try done. right.
    by apply (Hfinal w2 y). }
  case_bool_decide as Hpr.
  { apply Hstep, settle_spec; [done|done|]. intros w2 y _ _ _ _. by apply silent_truthful. }
  apply Hstep. apply wp_bind. eapply wp_mono; [apply move_execution_spec; [done|done|]|].
  { intros w2 y Hq2 Hy Hrev _. apply committed_truthful; try done. destruct (Hfinal w2 y Hq2 Hy Hrev) as (Hin & _ & Hc).
    apply Hc. set_solver. }
  intros w2 [x2|e] [Hq2 Hx2]; [|done]. destruct (Hx2 _ eq_refl) as (Hk & Hd & Hev).
  eapply wp_mono; [apply sync_quiet; [by eapply quiet_good|by apply seen_now; rewrite Hk|]|].
  - unfold run_evidence, evidence_after in Hev. by injection Hev.
  - intros w3 res3 Hq3. by eapply quiet_trans.
Qed.

(** An execution without evidence of a transaction has no run. *)
Lemma never_started_truth w x code : good w -> recorded_transaction (er_execution x) = None -> tells_truth w x (rolled_back code).
Proof.
  intros Hg Ht w1 y Hq Hy _ Hev. apply rolled_back_truthful; try done. left. eapply unstarted_idle; [by eapply quiet_good|done|].
  unfold recorded_transaction, run_evidence in *. congruence.
Qed.

Lemma reserved_truth w x ch :
  good w -> mx_status (er_execution x) = SReserved -> ch_transaction_id ch = UNSET -> ch_target_identity ch = UNSET ->
  ch_intended_result ch = UNSET -> ch_commit_outcome ch = Given (Some RolledBack) -> tells_truth w x ch.
Proof.
  intros Hg Ht ???? w1 y Hq Hy _ Hev. apply rolled_back_truthful; try done. left.
  eapply reserved_idle; [by eapply quiet_good|done|]. unfold run_evidence in Hev. congruence.
Qed.

Lemma recover_quiet x w :
  good w -> seen w x ->
  wp (recover_claimed catalog_fingerprint designs_get read_catalog lease_ttl catalog_timeout_ms lock_timeout_ms reads_status clock
        token interfere target connections x) w (fun w' _ => quiet w w').
Proof.
  intros Hg Hs. unfold recover_claimed. destruct (recorded_transaction _) as [t|] eqn:Ht.
  - apply quiet_bind; [eapply wp_mono; [by apply plan_quiet|by intros ?? [? _]]|]. intros p w1 Hq.
    apply reconcile_quiet; [by eapply quiet_good|by eapply seen_quiet|done].
  - apply settle_spec; [done|done|by apply never_started_truth].
Qed.

Lemma reconcile_call_quiet owner id rev w :
  good w ->
  wp (reconcile catalog_fingerprint designs_get read_catalog lease_ttl catalog_timeout_ms lock_timeout_ms reads_status clock
        token interfere target connections owner id rev) w (fun w' _ => quiet w w').
Proof.
  intros Hg. unfold reconcile. apply wp_bind, wp_mapping. eapply wp_mono; [by apply execution_quiet|].
  intros w1 [x|e] [Hq Hx]; [|done]. specialize (Hx _ eq_refl). pose proof (quiet_good _ _ Hq) as Hg1.
  assert (key_of x = (owner, id)) as Hk by by eapply stored_key. assert (seen w1 x) as Hs by (apply seen_now; by rewrite Hk).
  eapply wp_mono; [|intros w' r; eapply quiet_trans; exact Hq]. apply quiet_bind; [by apply lift_quiet|]. intros _ w2 Hq2.
  apply wp_ticks; [apply ticks_clock|]. intros now w3 Hv.
  assert (quiet w1 w3) as Hq3 by (eapply quiet_trans; [done|]; apply quiet_refl; [by eapply quiet_good|done]).
  eapply wp_mono; [|intros w' r; eapply quiet_trans; apply quiet_refl; [by eapply quiet_good|exact Hv]].
  pose proof (quiet_good _ _ Hq3) as Hg3. assert (seen w3 x) as Hs3 by by eapply seen_quiet.
  apply quiet_bind; [destruct (er_lease_owner x), (er_lease_expires_at x); by apply lift_quiet|]. intros _ w4 Hq4.
  pose proof (quiet_good _ _ Hq4) as Hg4. assert (seen w4 x) as Hs4 by by eapply seen_quiet.
  case_bool_decide as Hc.
  { apply quiet_bind; [eapply wp_mono; [by apply plan_quiet|by intros ?? [? _]]|]. intros p w5 Hq5.
    apply sync_quiet; [by eapply quiet_good|by eapply seen_quiet|done]. }
  case_bool_decide; [by apply lift_quiet|]. destruct (recorded_transaction _) as [t|] eqn:Ht.
  - apply quiet_bind; [eapply wp_mono; [by apply plan_quiet|by intros ?? [? _]]|]. intros p w5 Hq5.
    apply reconcile_quiet; [by eapply quiet_good|by eapply seen_quiet|done].
  - apply settle_spec; [done|done|by apply never_started_truth].
Qed.

Lemma failure_quiet work code detail w :
  good w -> wp (record_processing_failure lease_ttl clock token interfere work code detail) w
    (fun w' res => quiet w w' /\ exists e, res = Ok e).
Proof.
  intros Hg. unfold record_processing_failure, wp.
  assert (wp (processing_failure lease_ttl clock token interfere work code detail) w (fun w' _ => quiet w w')) as Hq.
  { unfold processing_failure. apply wp_bind, wp_mapping. eapply wp_mono; [by apply execution_quiet|].
    intros w1 [x|e] [Hq Hx]; [|done]. specialize (Hx _ eq_refl). pose proof (quiet_good _ _ Hq) as Hg1.
    apply stored_key in Hx as Hk; [|done]. assert (seen w1 x) as Hs by (apply seen_now; by rewrite Hk).
    eapply wp_mono; [|intros w' r; eapply quiet_trans; exact Hq].
    destruct (negb _); [by apply lift_quiet|]. destruct (mx_status (er_execution x)) eqn:Hst; try by apply lift_quiet.
    - apply settle_spec; [done|done|by apply reserved_truth].
    - apply settle_spec; [done|done|]. intros w2 y _ _ _ _. by apply silent_truthful.
    - case_bool_decide; [|by apply lift_quiet]. apply settle_spec; [done|done|]. intros w2 y _ _ _ _. by apply silent_truthful. }
  unfold wp in Hq. destruct (processing_failure _ _ _ _ _ _ _ w) as [w' [e|e]]; simpl in *; eauto.
Qed.
(** ** The run of this coordinator *)

Definition acted w w' : Prop := others_act accepts (fun who => who = me \/ others who) (view w) (view w').

Lemma quiet_acted w w' : quiet w w' -> acted w w'.
Proof. apply others_act_mono. auto. Qed.

Lemma acted_trans w1 w2 w3 : acted w1 w2 -> acted w2 w3 -> acted w1 w3.
Proof. apply others_act_trans. Qed.

Lemma acted_good w w' : acted w w' -> good w'.
Proof. by intros [_ _ Hi _]. Qed.

(** The plan of the execution is still the one that was read. *)
Definition reviewed w x (record : PlanRecord Catalog) : Prop := exists p,
  dget ((key_of x).1, mx_plan_id (er_execution x)) (mg_plans (w_repo w)) = Some p /\
  statements_of p = statements_of record /\ pr_authority p = pr_authority record.

Lemma reviewed_quiet w w' x record : good w -> quiet w w' -> seen w x -> reviewed w x record -> reviewed w' x record.
Proof.
  intros Hg [Hl _ _ _] (y & Hy & Hp) (p & Hpl & Hs & Ha).
  destruct (plan_kept _ _ _ _ x p (ri_repo _ _ Hg) Hl Hy) as (p' & Hp' & ? & ?).
  - by rewrite (pg_plan _ _ Hp).
  - by rewrite (pg_plan _ _ Hp).
  - exists p'. split; [done|]. split; congruence.
Qed.

(** This coordinator applies [record] as [t] on [i]; it recorded the execution as [x] last. *)
Record mine (record : PlanRecord Catalog) (t : string) (i : json_object) x w (done : list string) (tail : list target_event) : Prop := {
  my_good : good w;
  my_started : exists y, started (w_repo w) (key_of x) y t i (statements_of record) /\ progress x y /\
    er_intended_result y = er_intended_result x;
  my_plan : reviewed w x record;
  my_events : events (key_of x) (w_log w) = pair me <$> (Applying t i :: (Statement <$> done) ++ tail);
  my_transaction : mx_transaction_id (er_execution x) = Some t;
  my_identity : er_target_identity x = Some i;
}.

Lemma mine_seen record t i x w done tail : mine record t i x w done tail -> seen w x.
Proof. intros [_ (y & [] & ? & _) _ _ _ _]. by exists y. Qed.

Lemma mine_quiet record t i x w w' done tail : quiet w w' -> mine record t i x w done tail -> mine record t i x w' done tail.
Proof.
  intros Hq Hm. pose proof (mine_seen _ _ _ _ _ _ _ Hm) as Hseen. destruct Hm as [Hg (y & Hs & Hp & Hin) Hpl Hev Ht Hid].
  pose proof (quiet_good _ _ Hq) as Hg'. pose proof (reviewed_quiet _ _ _ _ Hg Hq Hseen Hpl) as Hpl'.
  assert (events (key_of x) (w_log w') = pair me <$> (Applying t i :: (Statement <$> done) ++ tail)) as Hev'
    by (eapply (others_keep_run _ me _ _ _ _ Hme Hq Hev); csimpl; eauto).
  split; try done. destruct (lt_executions _ _ (oa_later _ _ _ Hq) _ _ (sd_record _ _ _ _ _ _ Hs)) as (z & Hz & Hp'). simpl in Hz.
  destruct (ri_runs _ _ Hg' (key_of x)) as (who & z' & t' & i' & sts & [Hz' Hst Ht' Hne Hi' (p & Hp0 & _)] & (d' & tl' & _ & Heq & _)).
  { by rewrite Hev'. }
  rewrite Hev' in Heq. csimpl in Heq. injection Heq as _ <- <- _. simplify_eq.
  exists z. split; [split; try done|].
  - destruct Hpl' as (p' & Hp'' & ? & _). exists p'. rewrite (pg_plan _ _ Hp'), (pg_plan _ _ Hp). done.
  - split; [by etrans|]. destruct Hq as [_ _ _ Hn]. destruct (Hn _ _ _ (sd_record _ _ _ _ _ _ Hs) Hz) as [->|(who' & e & Ho & He)]; [done|].
    simpl in He. rewrite Hev' in He. apply pair_fmap_fst in He. simpl in He. by subst.
Qed.
(** The next entry of the run. *)
Lemma mine_emit record t i x w done tail ev done' tail' :
  mine record t i x w done tail -> Closed ∉ tail -> (Statement <$> done) ++ tail ++ [ev] = (Statement <$> done') ++ tail' ->
  done' `prefix_of` statements_of record ->
  (tail' = [] \/ tail' = [Closed] \/
   (done' = statements_of record /\ (tail' = [CommittedInTarget] \/ tail' = [CommittedInTarget; Closed]))) ->
  (ev = CommittedInTarget -> exists intended, er_intended_result x = Some intended /\ accepts (pr_authority record) intended) ->
  mine record t i x (emit_for me (key_of x) ev w) done' tail' /\ acted w (emit_for me (key_of x) ev w).
Proof.
  intros Hm Hopen Happ Hpre Htail Hok. destruct Hm as [Hg (y & Hs & Hp & Hin) Hpl Hev Ht Hid].
  assert (events (key_of x) (w_log w) ++ [(me, ev)] = pair me <$> (Applying t i :: (Statement <$> done') ++ tail')) as Hev'.
  { rewrite <-Happ, app_assoc, app_comm_cons, fmap_app, <-Hev. done. }
  assert (inv (w_repo w) (w_log w ++ [(key_of x, (me, ev))])) as Hi.
  { eapply emit_run_inv; [done|done|by rewrite Hev| | |].
    - rewrite Hev, pair_fmap_snd. destruct (statements_no_end done). set_solver.
    - exists done', tail'. done.
    - intros He. destruct (Hok He) as (intended & Hx & Ha). destruct Hpl as (p & Hpl & _ & Hau). exists p, intended.
      rewrite (pg_plan _ _ Hp), Hau. split; [done|]. split; [congruence|done]. }
  split.
  - split; try done; [by exists y|]. simpl. by rewrite events_snoc, decide_True.
  - split; simpl; [apply later_refl| |done|left; congruence]. exists [(key_of x, (me, ev))]. split; [done|]. apply Forall_singleton. auto.
Qed.

Abbreviation locally := (World * execution_locals)%type.
Abbreviation observing := (fun s : locally => w_log s.1).
Abbreviation pausing_locally := (fun s : locally => (pausing s.1, s.2)).
Abbreviation emitting k := (fun event (s : locally) => (emit_for me k event s.1, s.2)).

(** A message to the target during the run. *)
Lemma send_mine {A} record t i m (answer : target_log -> list message -> result target_error A) (s : locally) p done tail :
  mine record t i (lc_record s.2) s.1 done tail ->
  wp (send observing pausing_locally m answer) (s, p) (fun s' res =>
    s'.1.2 = s.2 /\ quiet s.1 s'.1.1 /\ mine record t i (lc_record s.2) s'.1.1 done tail).
Proof.
  intros Hm. unfold wp, send. simpl. pose proof (pause_quiet _ (my_good _ _ _ _ _ _ _ Hm)) as Hq.
  split; [done|]. split; [done|]. by eapply mine_quiet.
Qed.

Lemma statements_mine record t i (session : target_session target_log Catalog) locals rest : forall done w p,
  mine record t i (lc_record locals) w done [] -> done ++ rest = statements_of record ->
  wp (apply_statements observing pausing_locally (emitting (key_of (lc_record locals))) session rest) ((w, locals), p) (fun s' res =>
    s'.1.2 = locals /\ acted w s'.1.1 /\ exists done', done' `prefix_of` statements_of record /\
      mine record t i (lc_record locals) s'.1.1 done' [] /\ (res = Ok tt -> done' = statements_of record)).
Proof.
  induction rest as [|sql rest IH]; intros done w p Hm Hall.
  { apply wp_return. split; [done|]. split; [apply quiet_acted, quiet_refl; [apply Hm|done]|]. rewrite app_nil_r in Hall. subst.
    by exists (statements_of record). }
  assert (done `prefix_of` statements_of record) as Hpre by (rewrite <-Hall; by apply prefix_app_r).
  cbn [apply_statements]. apply wp_bind, wp_lift. destruct (is_blank sql).
  { split; [done|]. split; [apply quiet_acted, quiet_refl; [apply Hm|done]|]. by exists done. }
  apply wp_bind. eapply wp_mono; [by apply (send_mine record t i _ _ (w, locals) p done [])|].
  intros [[w1 l1] p1] [[]|e] (Hl & Hq & Hm1); simpl in *; subst l1.
  2:{ split; [done|]. split; [by apply quiet_acted|]. by exists done. }
  destruct (mine_emit _ _ _ _ _ _ _ (Statement sql) (done ++ [sql]) [] Hm1) as [Hm2 Ha]; [set_solver| | |auto|done|].
  { by rewrite fmap_app, app_nil_r. }
  { rewrite <-Hall. apply prefix_app, prefix_cons, prefix_nil. }
  unfold note, count_statement. apply wp_bind. unfold m_update at 1, wp at 1. cbn [fst snd].
  apply wp_bind. unfold m_update at 1, wp at 1. cbn [fst snd].
  eapply wp_mono; [apply (IH (done ++ [sql])); [exact Hm2|by rewrite <-app_assoc]|].
  intros s' res (Hl & Ha' & Hrest). split; [done|]. split; [|done].
  eapply acted_trans; [by apply quiet_acted|]. by eapply acted_trans.
Qed.
(** A transition of the running execution that records its intended result. *)
Lemma record_intended record t i x w done intended steps :
  mine record t i x w done [] ->
  wp (move x SApplying false (with_steps steps (with_intended intended no_changes))) w (fun w' res => acted w w' /\
    match res with
    | Ok x' => key_of x' = key_of x /\ er_intended_result x' = Some intended /\ mine record t i x' w' done []
    | Err _ => mine record t i x w' done []
    end).
Proof.
  intros Hm. eapply wp_mono; [apply move_raw; [apply Hm|by eapply mine_seen]|]. intros w' res (w1 & Hq & Hres).
  pose proof (mine_quiet _ _ _ _ _ _ _ _ Hq Hm) as Hm1. destruct res as [x'|e]; cycle 1.
  { assert (quiet w1 w') as Hq1 by (apply quiet_refl; [apply Hm1|done]).
    split; [apply quiet_acted; by eapply quiet_trans|by eapply mine_quiet]. }
  destruct Hres as (y & now & lo & ex & before & Hy & Hrev & Hev & Hch & Hv).
  destruct Hm1 as [Hg (z & [Hz Hzs Hzt Hzn Hzi Hzp] & _) (p & Hpl & Hst & Hau) Hevs Ht Hid].
  assert (CommittedInTarget ∉ (events (key_of x) (w_log w1)).*2) as Hno.
  { rewrite Hevs, pair_fmap_snd. destruct (statements_no_end done). set_solver. }
  destruct (transition_run_inv _ _ _ _ _ _ _ _ _ _ _ Hg Hy Hch) as [Hi Hl]; [by split_and!|].
  assert (dget (key_of x) (mg_executions (w_repo w')) = Some x') as Hx'.
  { injection Hv as -> _. simpl. by rewrite dget_dset_eq. }
  assert (good w') as Hg' by (unfold good; injection Hv as -> ->; done).
  pose proof (stored_key _ _ _ Hg' Hx') as Hk. destruct Hch as [Hlegal _ _ _ He _ _ _ Hident Hint].
  unfold run_evidence in Hev. assert (mx_plan_id (er_execution x') = mx_plan_id (er_execution x)) as Hplan.
  { rewrite He. simpl. destruct (seen_quiet _ _ _ Hq (mine_seen _ _ _ _ _ _ _ Hm)) as (y0 & Hy0 & Hp0). simplify_eq. apply Hp0. }
  split.
  - apply (acted_trans _ w1); [by apply quiet_acted|]. unfold acted. rewrite Hv. split; simpl; [done|exists []; by rewrite app_nil_r|done|].
    intros k a b Ha. rewrite dget_dset. case_decide as Hkk; [|left; congruence]. subst k. right. exists me, (Applying t i).
    split; [by left|]. rewrite Hevs. csimpl. left.
  - split; [done|]. split; [by rewrite Hint|]. injection Hv as Hr Hlog. split; rewrite ?Hk; try done.
    + exists x'. split; [|done]. split; try done.
      * rewrite He. simpl. eapply legal_not_reserved, Hlegal.
      * rewrite He. simpl. congruence.
      * rewrite Hident. simpl. congruence.
      * exists p. rewrite Hplan, Hr. split; [done|congruence].
    + exists p. rewrite Hk, Hplan, Hr. done.
    + by rewrite Hlog.
    + rewrite He. simpl. congruence.
    + rewrite Hident. simpl. congruence.
Qed.

Abbreviation starting := (on_started lease_ttl clock token interfere).
Abbreviation intending := (on_intended catalog_fingerprint import_catalog catalog_document lease_ttl clock token interfere).

Lemma intended_mine record t i catalog w locals done :
  mine record t i (lc_record locals) w done [] -> lc_intended locals = [] ->
  wp (intending record catalog) (w, locals) (fun s' res =>
    acted w s'.1 /\ key_of (lc_record s'.2) = key_of (lc_record locals) /\ mine record t i (lc_record s'.2) s'.1 done [] /\
    (res = Ok tt -> er_intended_result (lc_record s'.2) = Some (lc_intended s'.2) /\ accepts (pr_authority record) (lc_intended s'.2))).
Proof.
  intros Hm Hnil. unfold on_intended. apply wp_bind, wp_lift. destruct (accept_result _ _ _) as [candidate|e] eqn:Hacc; cycle 1.
  { split; [apply quiet_acted, quiet_refl; [apply Hm|done]|]. done. }
  apply wp_bind. unfold m_update at 1, wp at 1. cbn [fst snd]. apply wp_bind. unfold m_get at 1, wp at 1. cbn [fst snd lc_intended lc_record].
  rewrite Hnil. set (intended := merge_details [] _).
  pose proof (record_intended record t i (lc_record locals) w done intended (length (mp_steps (pr_plan record))) Hm) as Hr.
  unfold wp in *. unfold moving. cbn [fst snd lc_record]. destruct (move _ _ _ _ w) as [w' [x'|e]]; cbn [fst snd lc_record lc_intended] in *.
  - destruct Hr as (Ha & Hk & Hint & Hm'). split; [done|]. split; [done|]. split; [done|]. intros _. split; [done|].
    by exists catalog, candidate.
  - destruct Hr as (Ha & Hm'). split; [done|]. split; [done|]. split; [done|]. done.
Qed.
Lemma commit_mine record t i (session : target_session target_log Catalog) w locals p :
  mine record t i (lc_record locals) w (statements_of record) [] ->
  er_intended_result (lc_record locals) = Some (lc_intended locals) -> accepts (pr_authority record) (lc_intended locals) ->
  wp (commit_session observing pausing_locally (emitting (key_of (lc_record locals))) session) ((w, locals), p) (fun s' res =>
    s'.1.2 = locals /\ acted w s'.1.1 /\ exists tail, mine record t i (lc_record locals) s'.1.1 (statements_of record) tail /\
      match res with
      | Ok _ => tail = [CommittedInTarget]
      | Err e => e = InGateway TargetCommitUncertainError /\ (tail = [] \/ tail = [CommittedInTarget])
      end).
Proof.
  intros Hm Hin Hacc. pose proof (pause_quiet _ (my_good _ _ _ _ _ _ _ Hm)) as Hq. pose proof (mine_quiet _ _ _ _ _ _ _ _ Hq Hm) as Hm1.
  destruct (mine_emit _ _ _ _ _ _ _ CommittedInTarget (statements_of record) [CommittedInTarget] Hm1) as [Hm2 Ha];
    [set_solver|done|done|auto|by eauto|].
  assert (acted w (emit_for me (key_of (lc_record locals)) CommittedInTarget (pausing w))) as Ha2.
  { eapply acted_trans; [by apply quiet_acted|done]. }
  unfold commit_session. apply wp_bind. unfold m_update at 1, wp at 1. cbn [fst snd]. apply wp_bind. unfold m_get at 1, wp at 1. cbn [fst snd].
  destruct (ss_commit session _) as [|[]].
  - unfold note, m_update, wp. cbn [fst snd]. split; [done|]. split; [done|]. by exists [CommittedInTarget].
  - apply wp_bind. unfold note, m_update, wp at 1. cbn [fst snd]. apply wp_lift. split; [done|]. split; [done|].
    exists [CommittedInTarget]. auto.
  - apply wp_bind, wp_return, wp_lift. split; [done|]. split; [by apply quiet_acted|]. exists []. auto.
Qed.

(** The state of a run whose body returned [res]. *)
Definition run_over {A} record t i (r : result body_error A) x (intended : json_object) w : Prop :=
  exists done tail, mine record t i x w done tail /\ done `prefix_of` statements_of record /\
    match r with
    | Ok _ => done = statements_of record /\ tail = [CommittedInTarget] /\ er_intended_result x = Some intended
    | Err e => tail = [] \/ (done = statements_of record /\ tail = [CommittedInTarget] /\ e = InGateway TargetCommitUncertainError)
    end.

Lemma apply_mine record t i (session : target_session target_log Catalog) w locals p :
  mine record t i (lc_record locals) w [] [] -> lc_intended locals = [] ->
  wp (apply_migration observing pausing_locally (emitting (key_of (lc_record locals))) session (statements_of record)
        (intending record) t i) ((w, locals), p) (fun s' res =>
    acted w s'.1.1 /\ key_of (lc_record s'.1.2) = key_of (lc_record locals) /\
    run_over record t i res (lc_record s'.1.2) (lc_intended s'.1.2) s'.1.1 /\
    (forall r, res = Ok r -> pmr_transaction_id r = t /\ pmr_target_identity r = i)).
Proof.
  intros Hm Hnil. unfold apply_migration. apply wp_bind. eapply wp_mono; [by apply (statements_mine record t i _ locals _ [])|].
  intros [[w1 l1] p1] res (Hl & Ha1 & done1 & Hpre & Hm1 & Hdone). simpl in *. subst l1. destruct res as [[]|e]; cycle 1.
  { split_and!; try done. exists done1, []. auto. }
  rewrite (Hdone eq_refl) in Hm1. clear Hpre Hdone done1.
  apply wp_bind. eapply wp_mono; [by apply (send_mine record t i _ _ (w1, locals) p1 (statements_of record) [])|].
  intros [[w2 l2] p2] res (Hl & Hq2 & Hm2). simpl in *. subst l2.
  assert (acted w w2) as Ha2 by (eapply acted_trans; [done|by apply quiet_acted]). destruct res as [catalog|e]; cycle 1.
  { split_and!; try done. exists (statements_of record), []. auto. }
  apply wp_bind. unfold in_callback, wp at 1. cbn [fst snd].
  pose proof (intended_mine record t i catalog w2 locals _ Hm2 Hnil) as Hi. unfold wp in Hi.
  destruct (intending record catalog (w2, locals)) as [[w3 l3] [[]|e]]; cbn [fst snd] in *; destruct Hi as (Ha3 & Hk3 & Hm3 & Hi3).
  2:{ split; [by eapply acted_trans|]. split_and!; try done. exists (statements_of record), []. auto. }
  destruct (Hi3 eq_refl) as [Hint Hacc]. apply wp_bind. rewrite <-Hk3. eapply wp_mono; [by apply (commit_mine record t i)|].
  intros [[w4 l4] p4] res (Hl & Ha4 & tail & Hm4 & Htail). simpl in *. subst l4.
  assert (acted w w4) as Haw by (do 2 (eapply acted_trans; [done|]); done). destruct res as [[]|e]; cycle 1.
  { split; [done|]. split; [done|]. split; [|done]. exists (statements_of record), tail.
    destruct Htail as [-> [->| ->]]; auto 6. }
  apply wp_bind. unfold m_get at 1, wp at 1. cbn [fst snd]. apply wp_return. split; [done|]. split; [done|]. subst tail. split.
  - exists (statements_of record), [CommittedInTarget]. auto.
  - by intros r [= <-].
Qed.
(** The transition before the first statement. *)
Lemma start_mine record t i w locals :
  good w -> seen w (lc_record locals) -> reviewed w (lc_record locals) record ->
  mx_status (er_execution (lc_record locals)) = SReserved -> t <> "" ->
  wp (starting t i) (w, locals) (fun s' res =>
    match res with
    | Ok _ => let w' := emit_for me (key_of (lc_record locals)) (Applying t i) s'.1 in
        key_of (lc_record s'.2) = key_of (lc_record locals) /\ lc_intended s'.2 = lc_intended locals /\
        mine record t i (lc_record s'.2) w' [] [] /\ acted w w'
    | Err _ => quiet w s'.1 /\ s'.2 = locals
    end).
Proof.
  intros Hg Hs Hrev Hres Ht. unfold on_started, moving, wp. cbn [fst snd]. set (x := lc_record locals) in *.
  pose proof (move_raw x SApplying false (with_run t i no_changes) w Hg Hs) as Hm. unfold wp in Hm.
  destruct (move x _ _ _ w) as [w' [x'|e]]; cbn [fst snd lc_record lc_intended] in *; destruct Hm as (w1 & Hq & Hm);
    pose proof (quiet_good _ _ Hq) as Hg1; cycle 1.
  { split; [|done]. eapply quiet_trans; [done|]. by apply quiet_refl. }
  destruct Hm as (y & now & lo & ex & before & Hy & _ & Hev & Hch & Hv).
  destruct (reviewed_quiet _ _ _ _ Hg Hq Hs Hrev) as (p & Hp & Hst & Hau).
  destruct (seen_quiet _ _ _ Hq Hs) as (y0 & Hy0 & Hp0). simplify_eq.
  destruct (start_run_inv (w_repo w1) (w_log w1) (key_of x) y x' p me t i lo ex before now Hg1 Hy) as (Hi & Hl & Hstart & Hevs); try done.
  { unfold run_evidence in Hev. congruence. }
  { by rewrite (pg_plan _ _ Hp0). }
  set (w2 := emit_for me (key_of x) (Applying t i) w'). assert (view w2 = (set_execution (key_of x) x' (w_repo w1),
    w_log w1 ++ [(key_of x, (me, Applying t i))])) as Hv2 by (unfold view in *; simpl; injection Hv as Hr Hlg; by rewrite Hr, Hlg).
  clearbody w2. assert (good w2) as Hg2 by (unfold good; injection Hv2 as Hr Hlg; by rewrite Hr, Hlg).
  assert (key_of x' = key_of x) as Hk by (eapply (stored_key w2); [done|]; injection Hv2 as Hr _; rewrite Hr; apply Hstart).
  injection Hv2 as Hr2 Hl2. split; [done|]. split; [done|]. split.
  - destruct Hch as [_ _ _ _ He _ _ _ Hid _]. split; rewrite ?Hk; try done; [| | |by rewrite He].
    + exists x'. split; [|done]. rewrite Hr2. by rewrite <-Hst.
    + exists p. rewrite Hk, Hr2, He. simpl. rewrite (pg_plan _ _ Hp0). done.
    + by rewrite Hl2.
  - apply (acted_trans _ w1); [by apply quiet_acted|]. split; unfold view; rewrite Hr2, Hl2; simpl; [done| |done|].
    + eexists. split; [done|]. apply Forall_singleton. by left.
    + intros k a b Ha. rewrite dget_dset. case_decide as Hkk; [|left; congruence]. subst k. right. exists me, (Applying t i).
      split; [by left|]. rewrite Hevs. left.
Qed.

(** What is left when the run in the target is over; [lost e] when the outcome of the commit is unknown. *)
Definition run_left {E} record x (intended : json_object) w (lost : E) (r : result E (PostgresMigrationResult Catalog)) : Prop :=
  exists t i done tail, mine record t i x w done (tail ++ [Closed]) /\ done `prefix_of` statements_of record /\
    match r with
    | Ok a => tail = [CommittedInTarget] /\ er_intended_result x = Some intended /\ (pmr_transaction_id a, pmr_target_identity a) = (t, i)
    | Err e => tail = [] \/ e = lost
    end.

(** A run from [w] either never started or is over. *)
Definition run_result {E} record w locals (lost : E) (s' : locally) (r : result E (PostgresMigrationResult Catalog)) : Prop :=
  (quiet w s'.1 /\ s'.2 = locals /\ exists e, r = Err e) \/
  (acted w s'.1 /\ key_of (lc_record s'.2) = key_of (lc_record locals) /\
   run_left record (lc_record s'.2) (lc_intended s'.2) s'.1 lost r).

Lemma closed_mine record t i (session : target_session target_log Catalog) w locals p :
  mine record t i (lc_record locals) w [] [] -> lc_intended locals = [] ->
  wp (until_closed (emitting (key_of (lc_record locals))) (apply_migration observing pausing_locally
        (emitting (key_of (lc_record locals))) session (statements_of record) (intending record) t i)) ((w, locals), p) (fun s' res =>
    acted w s'.1.1 /\ key_of (lc_record s'.1.2) = key_of (lc_record locals) /\
    run_left record (lc_record s'.1.2) (lc_intended s'.1.2) s'.1.1 (InGateway TargetCommitUncertainError) res).
Proof.
  intros Hm Hnil. pose proof (apply_mine record t i session w locals p Hm Hnil) as Hap. unfold wp, until_closed in *.
  destruct (apply_migration _ _ _ _ _ _ _ _ _) as [[[w3 l3] p3] res]. cbn [fst snd] in *.
  destruct Hap as (Ha3 & Hk3 & (done & tail & Hm3 & Hpre & Hout) & Hval).
  assert (tail = [] \/ (done = statements_of record /\ tail = [CommittedInTarget])) as Htl by (destruct res; naive_solver).
  destruct (mine_emit _ _ _ _ _ _ _ Closed done (tail ++ [Closed]) Hm3) as [Hm4 Ha4]; try done.
  { destruct Htl as [->|[_ ->]]; set_solver. }
  { destruct Htl as [->|[-> ->]]; auto. }
  rewrite Hk3 in Hm4, Ha4. split; [by eapply acted_trans|]. split; [done|]. exists t, i, done, tail. split; [done|]. split; [done|].
  destruct res as [r|e].
  - destruct Hout as (_ & -> & ->). destruct (Hval r eq_refl) as [-> ->]. done.
  - destruct Hout as [->|(_ & _ & ->)]; auto.
Qed.

(** The whole body, from a state in which the execution is reserved. *)
Lemma body_spec record session database namespace fingerprint empties locks w locals :
  good w -> seen w (lc_record locals) -> reviewed w (lc_record locals) record ->
  mx_status (er_execution (lc_record locals)) = SReserved -> lc_intended locals = [] ->
  wp (migration_body observing catalog_fingerprint migration_timeout_ms lock_timeout_ms pausing_locally
        (emitting (key_of (lc_record locals))) session database namespace fingerprint (statements_of record)
        starting (intending record) empties locks) ((w, locals), session_start)
    (fun s' res => run_result record w locals (InGateway TargetCommitUncertainError) s'.1 res).
Proof.
  intros Hg Hs Hrev Hres Hnil. unfold migration_body. apply wp_bind. eapply wp_mono.
  { apply (quietly_prepare observing catalog_fingerprint migration_timeout_ms lock_timeout_ms pausing_locally
      (fun s s' : locally => quiet s.1 s'.1 /\ s'.2 = s.2) (fun s => good s.1)); [by split; [apply quiet_refl|]| | | |done].
    - intros ??? [] []. split; [by eapply quiet_trans|congruence].
    - intros ?? []. by eapply quiet_good.
    - by split; [apply pause_quiet|]. }
  intros [[w1 l1] p1] res ([Hqw Hl1] & _ & Ht). simpl in Hqw, Hl1. subst l1.
  destruct res as [[t i]|e]; [|left; simpl; by eauto]. pose proof (quiet_good _ _ Hqw) as Hg1.
  pose proof (start_mine record t i w1 locals Hg1 (seen_quiet _ _ _ Hqw Hs) (reviewed_quiet _ _ _ _ Hg Hqw Hs Hrev) Hres Ht) as Hst.
  apply wp_bind. unfold in_callback, wp at 1. cbn [fst snd]. unfold wp at 1 in Hst.
  destruct (starting t i (w1, locals)) as [[w2 l2] [[]|e]]; cbn [fst snd] in *; cycle 1.
  { left. destruct Hst as [Hq2 ->]. split; [by eapply quiet_trans|]. simpl. by eauto. }
  destruct Hst as (Hk & Hl & Hm & Ha). apply wp_bind. unfold note, m_update, wp at 1. cbn [fst snd]. rewrite <-Hk in *.
  eapply wp_mono; [apply (closed_mine record t i session _ l2 p1 Hm); congruence|].
  intros s' res (Ha' & Hk' & Hleft). right. split; [|by rewrite Hk'].
  eapply acted_trans; [apply quiet_acted, Hqw|]. by eapply acted_trans.
Qed.

Lemma run_spec record connection w locals :
  good w -> seen w (lc_record locals) -> reviewed w (lc_record locals) record ->
  mx_status (er_execution (lc_record locals)) = SReserved -> lc_intended locals = [] ->
  wp (run_in_target catalog_fingerprint import_catalog catalog_document lease_ttl migration_timeout_ms lock_timeout_ms me clock token
        interfere target record connection) (w, locals) (run_result record w locals TargetCommitUncertainError).
Proof.
  intros Hg Hs Hrev Hres Hnil. assert (quiet w (tick w)) as Hqt by by apply quiet_refl.
  unfold run_in_target, execute_migration, wp. cbn [fst snd]. unfold m_bind, m_lift.
  destruct (validated_namespace _) as [ns|e]; [|left; simpl; by eauto].
  destruct (validated_table_names (pa_required_empty_tables _ _)) as [empty|e]; [|left; simpl; by eauto].
  destruct (validated_table_names (conversion_table_names record)) as [locked|e]; [|left; simpl; by eauto].
  pose proof (body_spec record (target (w_ticks w)) (cn_database connection) ns
    (catalog_fingerprint (pa_live_catalog (pr_authority record))) empty locked (tick w) locals Hg Hs Hrev Hres Hnil) as Hb.
  unfold wp, key_of, statements_of in Hb. destruct (migration_body _ _ _ _ _ _ _ _ _ _ _ _ _ _ _ _) as [[[w' l'] p'] [r|e]]; cbn [fst snd] in *.
  - destruct Hb as [(_ & _ & e & ?)|(Ha & Hk & Hl)]; [done|]. by right.
  - destruct Hb as [(Hq & Hl & _)|(Ha & Hk & (t & i & done & tail & Hm & Hpre & Hout))]; [left; by eauto|right].
    split; [done|]. split; [done|]. exists t, i, done, tail. split; [done|]. split; [done|].
    destruct Hout as [->| ->]; auto.
Qed.
(** ** Failures and the commit *)

(** The execution was not started or its run is over without a commit. *)
Definition nothing_applied w x : Prop := mx_status (er_execution x) = SReserved \/ abandoned_run (events (key_of x) (w_log w)).

Lemma nothing_applied_truth w x ch :
  good w -> nothing_applied w x -> ch_transaction_id ch = UNSET -> ch_target_identity ch = UNSET -> ch_intended_result ch = UNSET ->
  ch_commit_outcome ch = Given (Some RolledBack) -> tells_truth w x ch.
Proof.
  intros Hg [Hr|Ha] ????; [by apply reserved_truth|]. intros w1 y Hq _ _ _. apply rolled_back_truthful; try done. right.
  by eapply abandoned_stays.
Qed.

Lemma fail_run_quiet {A} x ch e w :
  good w -> seen w x -> tells_truth w x ch ->
  wp (fail_run (A := A) lease_ttl clock token interfere x ch e) w (fun w' _ => quiet w w').
Proof. intros Hg Hs Ht. apply wp_bind. eapply wp_mono; [by apply move_execution_spec|]. by intros w' [x'|e'] [Hq _]. Qed.

Lemma fail_before_quiet {A} x status code message details w :
  good w -> seen w x -> mx_status (er_execution x) = SReserved ->
  wp (fail_before_apply (A := A) lease_ttl clock token interfere x status code message details) w (fun w' _ => quiet w w').
Proof.
  intros Hg Hs Hr. apply wp_bind. eapply wp_mono; [apply move_execution_spec; [done|done|by apply reserved_truth]|]. by intros w' [x'|e'] [Hq _].
Qed.

Lemma target_error_quiet plan x e w :
  good w -> seen w x -> e = TargetCommitUncertainError \/ nothing_applied w x ->
  wp (handle_target_error lease_ttl clock token interfere plan x e) w (fun w' _ => quiet w w').
Proof.
  intros Hg Hs Hn.
  assert (forall ch err, e <> TargetCommitUncertainError -> ch_transaction_id ch = UNSET -> ch_target_identity ch = UNSET ->
    ch_intended_result ch = UNSET -> ch_commit_outcome ch = Given (Some RolledBack) ->
    wp (fail_run (A := MigrationExecution) lease_ttl clock token interfere x ch err) w (fun w' _ => quiet w w')) as Hfail.
  { intros ch err Hne ????. apply fail_run_quiet; [done|done|]. destruct Hn as [?|Hn]; [done|]. by apply nothing_applied_truth. }
  destruct e as [| | | | | |completed state [[]|]|]; simpl; try by apply Hfail.
  - case_bool_decide; [by apply Hfail|by apply lift_quiet].
  - apply settle_spec; [done|done|]. intros w1 y _ _ _ _. by apply silent_truthful.
Qed.

(** The transition after a confirmed commit tells the truth. *)
Lemma commit_truth record t i x w done ch :
  mine record t i x w done [CommittedInTarget; Closed] -> ch_commit_outcome ch = Given (Some Committed) ->
  ch_transaction_id ch = Given (Some t) -> ch_target_identity ch = Given (Some i) ->
  ch_intended_result ch = Given (er_intended_result x) -> tells_truth w x ch.
Proof.
  intros Hm Ho Ht Hi Hin w1 y Hq _ _ Hev. pose proof (mine_quiet _ _ _ _ _ _ _ _ Hq Hm) as [_ _ _ Hevs Htx Hix].
  unfold run_evidence in Hev. repeat split; rewrite ?Ho, ?Ht, ?Hi, ?Hin; simpl; try congruence.
  rewrite Hevs, pair_fmap_snd. intros _. set_solver.
Qed.

Abbreviation executing_in := (execute_in_target catalog_fingerprint import_catalog designs_get catalog_document read_catalog lease_ttl
  migration_timeout_ms lock_timeout_ms me clock token interfere target connections).

Lemma execute_in_target_acted owner record x w :
  good w -> seen w x -> reviewed w x record -> mx_status (er_execution x) = SReserved ->
  wp (executing_in owner record x) w (fun w' _ => acted w w').
Proof.
  intros Hg Hs Hrev Hres. assert (quiet w (tick w)) as Hqt by by apply quiet_refl.
  unfold execute_in_target, wp. destruct (connections _ _ _) as [connection|e]; cycle 1.
  { apply quiet_acted, (target_error_quiet _ _ _ (tick w)); try done. right. by left. }
  destruct (_ || _). { apply quiet_acted, (fail_before_quiet _ _ _ _ _ (tick w)); done. }
  pose proof (run_spec record connection (tick w) {| lc_record := x; lc_intended := [] |} Hg Hs Hrev Hres eq_refl) as Hrun.
  unfold wp in Hrun. destruct (run_in_target _ _ _ _ _ _ _ _ _ _ _ _ _ _) as [[w1 l1] [r|e]]; cbn [fst snd] in *.
  - destruct Hrun as [(_ & _ & e & ?)|(Ha & Hk & (t & i & applied & tail & Hm & _ & -> & Hin & Hval))]; [done|]. simplify_eq/=.
    eapply acted_trans; [exact Ha|].
    apply quiet_acted. match goal with |- quiet w1 (?m w1).1 => change (wp m w1 (fun w' _ => quiet w1 w')) end.
    apply wp_bind. eapply wp_mono; [apply move_execution_spec; [apply Hm|by eapply mine_seen|]|].
    { eapply commit_truth; [exact Hm|done|done|done|]. simpl. by rewrite Hin. }
    intros w2 [x2|e] [Hq2 Hx2]; [|done]. destruct (Hx2 _ eq_refl) as (Hk2 & Hd & Hev).
    eapply wp_mono; [apply sync_quiet; [by eapply quiet_good|by apply seen_now; rewrite Hk2|]|].
    + unfold run_evidence, evidence_after in Hev. by injection Hev.
    + intros w3 res3 Hq3. by eapply quiet_trans.
  - destruct Hrun as [(Hq & Hl & _)|(Ha & Hk & (t & i & applied & tail & Hm & _ & Hout))].
    + simpl in Hq, Hl. subst l1. apply quiet_acted. eapply quiet_trans; [exact Hq|]. apply target_error_quiet; [by eapply quiet_good|by eapply seen_quiet|].
      right. by left.
    + cbn [fst snd] in Ha, Hk, Hm. eapply acted_trans; [exact Ha|]. apply quiet_acted, target_error_quiet; [apply Hm|by eapply mine_seen|].
      destruct Hout as [->| ->]; [right; right|by left]. rewrite (my_events _ _ _ _ _ _ _ Hm). unfold abandoned_run.
      rewrite pair_fmap_snd. destruct (statements_no_end applied). set_solver.
Qed.
(** ** Units of work *)

(** Work that was claimed and not processed yet. *)
Definition claimed_work w (work : ExecutionWork) : Prop :=
  seen w (wk_record work) /\ exists at_, needed_work (er_execution (wk_record work)) = Some (at_, wk_kind work).

Lemma claimed_kind work at_ :
  needed_work (er_execution (wk_record work)) = Some (at_, wk_kind work) ->
  match wk_kind work with
  | WExecute => mx_status (er_execution (wk_record work)) = SReserved
  | WReconcile => mx_status (er_execution (wk_record work)) = SApplying
  | WSync => mx_commit_outcome (er_execution (wk_record work)) = Some Committed
  end.
Proof.
  unfold needed_work. destruct (mx_status _) eqn:Hst; try done; [by intros [= _ <-]..|].
  destruct (_ && _) eqn:Hc; [|done]. intros [= _ <-]. apply andb_true_iff in Hc as [Hc _]. by apply bool_decide_eq_true in Hc.
Qed.

(** Continues after a quiet call with what emits. *)
Lemma acted_bind {A B} (m : method World service_error A) (k : A -> method World service_error B) w :
  wp m w (fun w' _ => quiet w w') -> (forall a w', quiet w w' -> wp (k a) w' (fun w2 _ => acted w' w2)) ->
  wp (m_bind m k) w (fun w' _ => acted w w').
Proof.
  intros Hm Hk. apply wp_bind. eapply wp_mono; [exact Hm|]. intros w' [a|e] Hq; [|by apply quiet_acted].
  eapply wp_mono; [by apply Hk|]. intros w2 r2 Ha. eapply acted_trans; [by apply quiet_acted|done].
Qed.

Lemma acted_quiet {A} (m : method World service_error A) w : wp m w (fun w' _ => quiet w w') -> wp m w (fun w' _ => acted w w').
Proof. intros Hm. eapply wp_mono; [exact Hm|]. intros w' r. apply quiet_acted. Qed.

Abbreviation claiming_run := (execute_claimed catalog_fingerprint import_catalog designs_get catalog_document read_catalog lease_ttl
  migration_timeout_ms lock_timeout_ms executes_migrations me clock token interfere target connections workspaces).

Lemma execute_claimed_acted x w :
  good w -> seen w x -> mx_status (er_execution x) = SReserved -> wp (claiming_run x) w (fun w' _ => acted w w').
Proof.
  intros Hg Hs Hres. unfold execute_claimed. apply wp_bind. eapply wp_mono; [by apply plan_quiet|].
  intros w1 [record|e] [Hq1 Hp]; [|by apply quiet_acted]. destruct (Hp _ eq_refl) as (w0 & Hq0 & Hv & Hpl). clear Hp.
  assert (reviewed w1 x record) as Hrev by (exists record; injection Hv as -> _; done).
  eapply wp_mono; [|intros w' r; eapply acted_trans; apply quiet_acted, Hq1].
  pose proof (quiet_good _ _ Hq1) as Hg1. assert (seen w1 x) as Hs1 by by eapply seen_quiet. clear Hq0 Hv Hpl w0.
  apply acted_bind. { unfold workspace_of, wp. by apply quiet_refl. } intros workspace w2 Hq2.
  apply acted_bind; [apply design_quiet; by eapply quiet_good|]. intros design w3 Hq3.
  assert (quiet w1 w3) as Hq13 by by eapply quiet_trans. pose proof (quiet_good _ _ Hq13) as Hg3.
  assert (seen w3 x) as Hs3 by by eapply seen_quiet.
  destruct (workspace_changed _ _ _); [by apply acted_quiet, fail_before_quiet|].
  destruct (_ || _); [by apply acted_quiet, fail_before_quiet|].
  apply acted_bind; [by apply baseline_quiet|]. intros baseline w4 Hq4.
  assert (quiet w1 w4) as Hq14 by by eapply quiet_trans. pose proof (quiet_good _ _ Hq14) as Hg4.
  assert (seen w4 x) as Hs4 by by eapply seen_quiet. assert (reviewed w4 x record) as Hrev4 by by apply (reviewed_quiet w1).
  destruct (negb (reviewed_baseline _ _)); [by apply acted_quiet, fail_before_quiet|].
  destruct (negb _); [by apply acted_quiet, fail_before_quiet|]. by apply execute_in_target_acted.
Qed.

Abbreviation processing := (process catalog_fingerprint import_catalog designs_get catalog_document read_catalog lease_ttl
  migration_timeout_ms catalog_timeout_ms lock_timeout_ms executes_migrations reads_status me clock token interfere target connections
  workspaces).

Lemma process_acted work w :
  good w -> claimed_work w work -> wp (processing work) w (fun w' res => acted w w' /\ exists e, res = Ok e).
Proof.
  intros Hg [Hs [at_ Hw]]. apply claimed_kind in Hw.
  assert (wp (process_work catalog_fingerprint import_catalog designs_get catalog_document read_catalog lease_ttl migration_timeout_ms
    catalog_timeout_ms lock_timeout_ms executes_migrations reads_status me clock token interfere target connections workspaces work) w
    (fun w' _ => acted w w')) as Hp.
  { unfold process_work. destruct (wk_kind work); [by apply execute_claimed_acted|by apply acted_quiet, recover_quiet|].
    apply acted_quiet, quiet_bind; [eapply wp_mono; [by apply plan_quiet|by intros ?? [? _]]|]. intros p w1 Hq.
    apply sync_quiet; [by eapply quiet_good|by eapply seen_quiet|done]. }
  assert (forall code detail w1, acted w w1 -> acted w (record_processing_failure lease_ttl clock token interfere work code detail w1).1 /\
    exists e, (record_processing_failure lease_ttl clock token interfere work code detail w1).2 = Ok e) as Hfail.
  { intros code detail w1 Ha. destruct (failure_quiet work code detail w1 (acted_good _ _ Ha)) as [Hq He].
    split; [|exact He]. eapply acted_trans; [exact Ha|by apply quiet_acted]. }
  unfold wp, process in *. destruct (process_work _ _ _ _ _ _ _ _ _ _ _ _ _ _ _ _ _ _ _ _) as [w1 [e|[]]]; simpl in *; eauto.
Qed.

Lemma claim_next_quiet worker w :
  good w -> wp (claim_next lease_ttl clock token interfere worker) w (fun w' res => quiet w w' /\
    forall work, res = Ok (Some work) -> claimed_work w' work).
Proof.
  intros Hg. unfold claim_next. apply wp_ticks; [apply ticks_clock|]. intros now w1 Hv1.
  assert (quiet w w1) as Hqw by by apply quiet_refl. apply wp_mapping, wp_repository_call; [|by eapply quiet_good].
  intros now' t w2 Hq2. pose proof (quiet_good _ _ Hq2) as Hg2. assert (quiet w w2) as Hq by by eapply quiet_trans.
  pose proof (claim_spec now worker (now + lease_ttl) (w_repo w2)) as Hc. cbv zeta in Hc.
  pose proof (claim_inv now worker (now + lease_ttl) (w_repo w2) (ri_repo _ _ Hg2)) as Hi.
  destruct (claim_next_execution _ _ _ _) as [r [[work|]|e]]; simpl in *; cycle 1.
  { split; [|done]. destruct Hc as [-> _]. eapply quiet_trans; [done|]. by apply quiet_refl. }
  { split; [|done]. destruct Hc as [-> _]. eapply quiet_trans; [done|]. by apply quiet_refl. }
  destruct Hc as (c & x' & Hc & _ & (Hav & Hn & ->) & -> & ->). apply elem_of_eligible in Hc as (k & Hin & _ & Hw).
  assert (dget k (mg_executions (w_repo w2)) = Some c.2) as Hx by (apply dget_elem_wf; [apply Hg2|done]).
  pose proof (stored_key _ _ _ Hg2 Hx) as Hk. unfold key_of in Hk. rewrite Hk in *.
  assert (progress c.2 (leased c.2 (claimed_execution (er_execution c.2) now (now + lease_ttl)) worker (now + lease_ttl))) as Hp.
  { apply (claim_change_ok now worker (now + lease_ttl)); [done|]. apply (mi_exec _ (ri_repo _ _ Hg2) _ _ Hx). }
  split.
  - eapply quiet_trans; [done|]. by eapply others_act_lease.
  - intros work [= <-]. split; [|by exists c.1.1; unfold needed_work in *; simpl; rewrite Hw; destruct c as [[] ?]].
    exists (leased c.2 (claimed_execution (er_execution c.2) now (now + lease_ttl)) worker (now + lease_ttl)). split; [|done].
    unfold key_of. simpl. rewrite Hk. by rewrite dget_dset_eq.
Qed.

(** One turn of the worker. *)
Lemma run_once_acted worker w :
  good w ->
  wp (run_once catalog_fingerprint import_catalog designs_get catalog_document read_catalog lease_ttl migration_timeout_ms
        catalog_timeout_ms lock_timeout_ms executes_migrations reads_status me clock token interfere target connections workspaces worker)
    w (fun w' _ => acted w w').
Proof.
  intros Hg. unfold run_once. apply wp_bind. eapply wp_mono; [by apply claim_next_quiet|].
  intros w1 [[work|]|e] [Hq Hc]; [|by apply quiet_acted..]. pose proof (quiet_good _ _ Hq) as Hg1.
  apply wp_bind. eapply wp_mono; [by apply process_acted; [|apply Hc]|]. intros w2 r [Ha (e & ->)].
  eapply acted_trans; [by apply quiet_acted|done].
Qed.
End coordinator.
