(* ===== verification/ExecutionTheorems.v ===== *)
(** * Executed migrations

    What holds after any turn of a coordinator, whatever PostgreSQL, the other threads and
    the other processes do in between: a migration is applied at most once, entirely or
    not at all, only with a result its review accepts, and what its execution records
    about it is true.  Every unit of work ends with a recorded execution. *)

From Stdlib Require Import Ascii String.
From S2P Require Import Prelude Json PyString DesignModels DefinitionAnalysis DesignValidation DesignDocument MigrationModels MigrationStore MigrationSpec MigrationReach MigrationTheorems CheckExpressions Reconcile SqlText PlanAnalysis MigrationReview MigrationTarget MigrationExecution ExecutionInv TargetProps ExecutionProps.
Open Scope string_scope.
Open Scope list_scope.

Section coordinator.
Context {D Catalog : Type} `{!DesignRepositoryOps D}.
Context `{Pglast} `{SqlglotRelations} `{SqlglotTrees} `{Sha256}.
Variable catalog_fingerprint : Catalog -> string.
Variable import_catalog : Catalog -> ImportedDesign.
Variable designs_get : string -> string -> method D design_error SchemiiDesign.
Variable catalog_document : Catalog -> json.
Variable read_catalog : json -> option Catalog.
Variable lease_ttl : Z.
Variables (migration_timeout_ms catalog_timeout_ms lock_timeout_ms : Z).
Variables (executes_migrations reads_status : bool).
Variable me : string.
Variable others : string -> Prop.
Variable clock : nat -> Z.
Variable token : nat -> string.
Variable interfere : nat -> MigrationRepo D Catalog * target_log -> MigrationRepo D Catalog * target_log.
Variable target : nat -> target_session target_log Catalog.
Variable connections : nat -> string -> string -> result target_error connection_view.
Variable workspaces : nat -> string -> string -> result string SchemiiWorkspace.

Abbreviation World := (world D Catalog).
Abbreviation accepting := (accepts catalog_fingerprint import_catalog catalog_document).
Abbreviation turn := (run_once catalog_fingerprint import_catalog designs_get catalog_document read_catalog lease_ttl
  migration_timeout_ms catalog_timeout_ms lock_timeout_ms executes_migrations reads_status me clock token interfere target connections
  workspaces).
Abbreviation reconciled := (reconcile catalog_fingerprint designs_get read_catalog lease_ttl catalog_timeout_ms lock_timeout_ms
  reads_status clock token interfere target connections).
Abbreviation processed := (process catalog_fingerprint import_catalog designs_get catalog_document read_catalog lease_ttl
  migration_timeout_ms catalog_timeout_ms lock_timeout_ms executes_migrations reads_status me clock token interfere target connections
  workspaces).
Implicit Types (w : World) (x : ExecutionRecord).

(** A transaction that applied all of a plan's statements in their order and was committed. *)
Definition applied_completely (p : PlanRecord Catalog) (evs : list (string * target_event)) : Prop := exists who t i ending,
  evs = pair who <$> (Applying t i :: (Statement <$> statements_of p) ++ CommittedInTarget :: ending) /\ ending ⊆ [Closed].

(** A state is faithful when every execution tells the truth about the target. *)
Definition faithful_records w : Prop := forall k x p,
  dget k (mg_executions (w_repo w)) = Some x -> dget (k.1, mx_plan_id (er_execution x)) (mg_plans (w_repo w)) = Some p ->
  (mx_commit_outcome (er_execution x) = Some Committed -> applied_completely p (events k (w_log w))) /\
  (mx_commit_outcome (er_execution x) = Some RolledBack ->
     (CommittedInTarget ∉ (events k (w_log w)).*2) /\ (events k (w_log w) = [] \/ Closed ∈ (events k (w_log w)).*2)).

Lemma committed_completely (r : MigrationRepo D Catalog) l k x p :
  run_inv accepting r l -> dget k (mg_executions r) = Some x -> dget (k.1, mx_plan_id (er_execution x)) (mg_plans r) = Some p ->
  CommittedInTarget ∈ (events k l).*2 -> applied_completely p (events k l).
Proof.
  intros Hi Hx Hp Hc. destruct (ri_runs _ _ Hi k) as (who & y & t & i & st & [Hy _ _ _ _ (p' & Hp' & Hst)] & (applied & tail & _ & Hev & Ht)).
  { intros Hn. rewrite Hn in Hc. set_solver. }
  simplify_eq. rewrite Hev in Hc |- *. rewrite pair_fmap_snd in Hc. destruct (statements_no_end applied) as [_ Hno].
  destruct Ht as [->|[->|[-> [->| ->]]]]; [set_solver|set_solver|exists who, t, i, []|exists who, t, i, [Closed]]; split; set_solver.
Qed.

Lemma run_inv_faithful w : run_inv accepting (w_repo w) (w_log w) -> faithful_records w.
Proof.
  intros Hi k x p Hx Hp. split; intros Ho.
  - eapply committed_completely; [done|done|done|]. by eapply ri_committed.
  - destruct (ri_rolled_back _ _ Hi _ _ Hx Ho) as [->|[? ?]]; [set_solver|auto].
Qed.

Section turns.
Hypothesis Hme : ~ others me.
Hypothesis Hothers : forall n a, run_inv accepting a.1 a.2 -> others_act accepting others a (interfere n a).
Hypothesis Hhonest : honest_status target.
Variable w : World.
Hypothesis Hw : run_inv accepting (w_repo w) (w_log w).

Lemma turn_acts worker : others_act accepting (fun who => who = me \/ others who) (view w) (view (turn worker w).1).
Proof. exact (run_once_acted _ _ _ _ _ _ _ _ _ _ _ me others _ _ _ _ _ _ Hme Hothers Hhonest worker w Hw). Qed.

(** C4. A turn of the worker and a call of [reconcile] keep the agreement of the
    repository with the target databases, against every interference by others that keeps
    it and against every answer of PostgreSQL; what they do is in turn such an
    interference for the others. *)
Theorem coordinators_compose worker owner id revision :
  others_act accepting (fun who => who = me \/ others who) (view w) (view (turn worker w).1) /\
  others_act accepting others (view w) (view (reconciled owner id revision w).1).
Proof.
  split; [exact (turn_acts worker)|]. exact (reconcile_call_quiet _ import_catalog _ catalog_document _ _ _ _ _ me others _ _ _ _ _ Hme Hothers Hhonest
    owner id revision w Hw).
Qed.



End turns.
(** ** Synchronisation *)

Section sync.
Context `{!DesignRepositoryLaws D}.
Hypothesis Halone : forall n a, interfere n a = a.
Hypothesis Hget : forall owner ws d, designs_get owner ws d = (d, Ok (designs_current d (owner, ws))).

Definition design_at (k : repo_key) w : SchemiiDesign := designs_current (mg_designs (w_repo w)) k.
Definition head_at (k : repo_key) w : option (BaselineRecord Catalog) := last (baselines_of (w_repo w) k).

Lemma pause_alone w : view (pause interfere w) = view w.
Proof. unfold view, pause. rewrite Halone. done. Qed.

Lemma design_now_alone owner ws w :
  wp (design_now designs_get clock interfere owner ws) w (fun w' res => view w' = view w /\ res = Ok (design_at (owner, ws) w)).
Proof.
  pose proof (pause_alone w) as Hv. apply wp_mapping. unfold wp, designs_call. rewrite Hget. simpl.
  unfold view, design_at in *. simpl in *. injection Hv as Hr Hl. rewrite Hr, Hl. split; [|done].
  f_equal. by destruct (w_repo w).
Qed.

Lemma baseline_now_alone owner ws w :
  wp (baseline_now clock token interfere owner ws) w (fun w' res => view w' = view w /\ res = Ok (head_at (owner, ws) w)).
Proof.
  pose proof (pause_alone w) as Hv. apply wp_mapping. unfold wp, repository_call, head_at, view in *. simpl.
  injection Hv as Hr Hl. rewrite Hr, Hl. done.
Qed.

(** The transition that ends a synchronisation. *)
Lemma settle_alone x st ch w :
  wp (settle lease_ttl clock token interfere x st false ch) w (fun w' res =>
    mg_designs (w_repo w') = mg_designs (w_repo w) /\ mg_baselines (w_repo w') = mg_baselines (w_repo w) /\
    forall e, res = Ok e -> forall s, ch_sync_status ch = Given s -> mx_sync_status e = s).
Proof.
  unfold settle. apply wp_bind, wp_move. intros lo ex before w3 Hv3. apply wp_mapping. unfold wp, repository_call.
  pose proof (pause_alone w3) as Hv. unfold view in *.
  match goal with |- context [transition_execution ?a ?b ?c ?d ?e ?f ?g ?h ?i ?j ?r] =>
    destruct (execution_transition_spec a b c d e f g h i j r) as [[Heq (err & Herr)]|(y & x' & _ & _ & _ & Hch & Heq)] end.
  - rewrite (surjective_pairing (transition_execution _ _ _ _ _ _ _ _ _ _ _)), Heq, Herr. simpl. split; [congruence|]. by split; [congruence|].
  - rewrite Heq. simpl. split; [congruence|]. split; [congruence|]. intros e [= <-] s Hs.
    by rewrite (tc_execution _ _ _ _ _ _ _ _ _ Hch); simpl; rewrite Hs.
Qed.
(** The design of the workspace was left alone, or was the reviewed one and now is [merged]. *)
Definition design_synced (p : PlanRecord Catalog) (merged : SchemiiDesignContent) (before after : SchemiiDesign) : Prop :=
  after = before \/
  (design_revision before = mp_design_revision (pr_plan p) /\ design_fingerprint_field before = mp_design_fingerprint (pr_plan p) /\
   design_content after = merged /\ design_revision after = (design_revision before + 1)%Z).

Lemma sync_design_alone owner p merged w :
  designs_ok (mg_designs (w_repo w)) -> SchemiiDesignContent_check merged = true ->
  wp (sync_design designs_get clock interfere owner p merged) w (fun w' _ =>
    mg_baselines (w_repo w') = mg_baselines (w_repo w) /\
    (forall k, k <> (owner, mp_workspace_id (pr_plan p)) -> design_at k w' = design_at k w) /\
    design_synced p merged (design_at (owner, mp_workspace_id (pr_plan p)) w) (design_at (owner, mp_workspace_id (pr_plan p)) w')).
Proof.
  intros Hok Hc. set (k := (owner, mp_workspace_id (pr_plan p))). unfold sync_design. apply wp_bind.
  eapply wp_mono; [apply design_now_alone|]. intros w1 res [Hv ->]. fold k.
  assert (w_repo w1 = w_repo w) as Hr by (unfold view in Hv; congruence).
  assert (forall k', design_at k' w1 = design_at k' w) as Hd by (intros; unfold design_at; by rewrite Hr).
  case_bool_decide. { apply wp_return. rewrite Hr. split; [done|]. split; [done|]. left. apply Hd. }
  destruct (_ || _) eqn:Hsame. { apply wp_return. rewrite Hr. split; [done|]. split; [done|]. left. apply Hd. }
  apply orb_false_iff in Hsame as [Hrev%negb_false_iff%bool_decide_eq_true Hfp%negb_false_iff%bool_decide_eq_true].
  unfold wp, designs_call. pose proof (pause_alone w1) as Hv1. unfold view in Hv1. injection Hv1 as Hr1 _. rewrite Hr1, Hr.
  set (request := {| drep_expected_design_revision := _; drep_content := _; drep_history_group_id := _ |}).
  pose proof (designs_checkpoint (clock (w_ticks w1)) owner (mp_workspace_id (pr_plan p)) request (mg_designs (w_repo w)) Hok Hc) as Hl.
  cbv zeta in Hl. destruct (designs_replace _ _ _ _ _ _) as [d [design|e]]; simpl in *.
  - destruct Hl as (_ & Hother & Hrv & Hcur & Hcont & Hnext). split; [done|]. split; [done|]. right. unfold design_at. simpl. fold k in Hcur.
    rewrite Hcur. done.
  - destruct Hl as (_ & Hother & Hcur). destruct e; simpl; (split; [done|]; split; [done|]; left; exact Hcur).
Qed.

Lemma sync_baseline_alone owner id p rev merged catalog w :
  wp (sync_baseline catalog_fingerprint clock token interfere owner id p rev merged catalog) w (fun w' res =>
    mg_designs (w_repo w') = mg_designs (w_repo w) /\
    (res = Ok true -> at_catalog catalog_fingerprint catalog (head_at (owner, mp_workspace_id (pr_plan p)) w') = true)).
Proof.
  set (k := (owner, mp_workspace_id (pr_plan p))). unfold sync_baseline. apply wp_bind. eapply wp_mono; [apply baseline_now_alone|].
  intros w1 res [Hv ->]. fold k. assert (w_repo w1 = w_repo w) as Hr by (unfold view in Hv; congruence).
  assert (head_at k w1 = head_at k w) as Hh by (unfold head_at; by rewrite Hr).
  destruct (at_catalog _ _ _) eqn:Hat. { apply wp_return. rewrite Hr, Hh. done. }
  set (v := sync_baseline_values owner id p rev merged catalog (bl_id <$> head_at k w)).
  unfold wp, repository_call. pose proof (pause_alone w1) as Hv1. unfold view in Hv1. injection Hv1 as Hr1 _.
  pose proof (create_baseline_spec (clock (w_ticks w1)) (token (w_ticks w1)) v (w_repo w)) as Hs. cbv zeta in Hs.
  rewrite Hr1, Hr. destruct (create_baseline _ _ _ _) as [r out]. simpl in Hs. rewrite decide_True in Hs by done.
  destruct Hs as (b & -> & -> & _ & _ & _ & _ & _ & _ & Hcat). split; [done|]. intros _. unfold head_at, baselines_of. simpl.
  fold k. rewrite lookup_insert_eq. simpl. rewrite last_snoc. simpl. rewrite Hcat. by apply bool_decide_eq_true.
Qed.

End sync.
End coordinator.

(** ** Users of the repository *)

Section users.
Context {D Catalog : Type} `{!DesignRepositoryOps D}.
Variable catalog_fingerprint : Catalog -> string.
Variable claim_guard : string -> string -> result migration_error unit.
Variable accepted : PlanAuthority Catalog -> json_object -> Prop.
Implicit Types s : MigrationRepo D Catalog.

(** The calls of the repository other than transitions of executions. *)
Inductive user_step s : MigrationRepo D Catalog -> Prop :=
| us_designs d : user_step s (put_designs d s)
| us_create_baseline now token v : user_step s (create_baseline now token v s).1
| us_import_baseline now token cursor owner ws conn conn_owner db ns b :
    user_step s (create_import_baseline now token cursor owner ws conn conn_owner db ns b s).1
| us_create_plan record :
    dget (pr_owner_id record, mp_id (pr_plan record)) (mg_plans s) = None -> user_step s (create_plan claim_guard record s).1
| us_reserve token owner plan_id digest cd ce at_ :
    ("mex_" ++ token)%string ∉ (fun k : repo_key => k.2) <$> dkeys (mg_executions s) ->
    user_step s (reserve_execution claim_guard token owner plan_id digest cd ce at_ s).1
| us_claim at_ worker expires : user_step s (claim_next_execution at_ worker expires s).1
| us_renew owner id worker expires : user_step s (renew_execution_lease owner id worker expires s).1
| us_reconcile now bt rt record stored revision resolved live :
    dget (pr_owner_id record, mp_id (pr_plan record)) (mg_plans s) = Some stored -> same_review stored record ->
    user_step s (reconcile_drift catalog_fingerprint claim_guard now bt rt record revision resolved live s).1.

Lemma user_mig_step s s' : user_step s s' -> mig_step catalog_fingerprint claim_guard s s'.
Proof. intros []; econstructor; eauto. Qed.

Lemma reconcile_keeps_executions now bt rt record revision resolved live s :
  mg_executions (reconcile_drift catalog_fingerprint claim_guard now bt rt record revision resolved live s).1 = mg_executions s.
Proof.
  destruct (reconcile_spec catalog_fingerprint claim_guard now bt rt record revision resolved live s) as [[-> _]|[_ Hs]]; [done|].
  destruct (designs_replace _ _ _ _ _ _) as [d [design|e]]; [|by rewrite Hs]. unfold drift_baseline in Hs.
  match type of Hs with context [create_baseline now bt ?v ?s0] =>
    pose proof (create_baseline_executions now bt v s0) as He; destruct (create_baseline now bt v s0) as [s' [b|e]] end.
  - destruct Hs as [-> _]. done.
  - by rewrite Hs.
Qed.

(** What was recorded of runs stays; new executions have none. *)
Lemma user_step_evidence s s' k x' :
  mig_inv s -> user_step s s' -> dget k (mg_executions s') = Some x' ->
  (exists x, dget k (mg_executions s) = Some x /\ run_evidence x' = run_evidence x) \/
  (dget k (mg_executions s) = None /\ mx_transaction_id (er_execution x') = None /\ mx_commit_outcome (er_execution x') = None).
Proof.
  intros Hi Hs Hx. destruct Hs as [d|now token v|now token cursor owner ws conn co db ns b|record Hf|token owner plan_id digest cd ce at_ Hf
    |at_ worker expires|owner id worker expires|now bt rt record stored revision resolved live Hst Hsame].
  - left. eauto.
  - rewrite create_baseline_executions in Hx. left. eauto.
  - unfold create_import_baseline in Hx. unfold m_bind at 1, m_guard, m_lift, guard_err in Hx. destruct cursor; [left; eauto|].
    rewrite create_baseline_executions in Hx. left. eauto.
  - unfold create_plan, create_plan_locked in Hx. run_store. destruct (claim_guard _ _) as [[]|]; [|left; eauto].
    destruct (any_execution _ _ _ _); left; eauto.
  - destruct (reserve_spec claim_guard token owner plan_id digest cd ce at_ s)
      as [[Heq _]|(p & _ & _ & [(id & r & _ & _ & Heq)|[_ Heq]])]; rewrite Heq in Hx; [left; eauto..|].
    simpl in Hx. rewrite dget_dset in Hx. case_decide as Hk; [|left; eauto]. injection Hx as <-. subst k. right. split; [|done].
    destruct (dget _ _) eqn:Hd; [|done]. apply dget_Some_key in Hd. exfalso.
    apply Hf. by apply (list_elem_of_fmap_2 (fun k : repo_key => k.2) _ (owner, ("mex_" ++ token)%string)).
  - pose proof (claim_spec at_ worker expires s) as Hc. cbv zeta in Hc.
    destruct (claim_next_execution _ _ _ _) as [r [[work|]|e]]; simpl in *; [|destruct Hc as [-> _]; left; by eauto..].
    destruct Hc as (c & y & Hc & _ & (_ & _ & ->) & _ & ->). apply elem_of_eligible in Hc as (k0 & Hin & _).
    assert (dget k0 (mg_executions s) = Some c.2) as Hd by (apply dget_elem_wf; [apply Hi|done]).
    destruct (mi_exec _ Hi _ _ Hd) as (Hk & _). simpl in Hx. rewrite Hk, dget_dset in Hx.
    case_decide; [injection Hx as <-; subst|]; left; eauto.
  - destruct (renew_spec owner id worker expires s) as [Heq|(r & y & Hd & (_ & _ & ->) & Heq)]; rewrite Heq in Hx; [left; by eauto|].
    simpl in Hx. rewrite dget_dset in Hx. case_decide; [injection Hx as <-; subst|]; left; eauto.
  - rewrite reconcile_keeps_executions in Hx. left. eauto.
Qed.

(** The users of the repository are such an interference: reviews, reservations, claims,
    renewals, baselines, drift reconciliation and design edits, in any order and number,
    disturb no coordinator. *)
Theorem users_do_not_disturb acts s s' l :
  run_inv accepted s l -> rtc user_step s s' -> others_act accepted acts (s, l) (s', l).
Proof.
  intros Hi Hs. revert Hi. induction Hs as [s|s1 s2 s3 Hstep _ IH]; intros Hi; [by apply others_act_refl|].
  pose proof (ri_repo _ _ Hi) as Hm. pose proof (user_mig_step _ _ Hstep) as Hmig.
  assert (others_act accepted acts (s1, l) (s2, l)) as Ha.
  { apply others_act_repo; [done|by eapply mig_step_inv|by eapply mig_step_later|]. intros k x'. by apply user_step_evidence. }
  eapply others_act_trans; [exact Ha|]. apply IH. exact (oa_inv _ _ _ Ha).
Qed.
End users.
