(* ===== verification/ExecutionExamples.v ===== *)
(** * Executions of a small migration

    The plan of [ReviewExamples] that adds a key, carried out by a coordinator against a
    small PostgreSQL: instances of [ExecutionTheorems], and two runs in which the program
    does not do what it says. *)

From stdpp Require Import pretty.
From Stdlib Require Import Ascii String.
From S2P Require Import Prelude Json PyString DesignModels DefinitionAnalysis DesignValidation TypeOrder ValidationSpec DeletionImpact DeletionGraph DesignDocument DesignStore DesignStoreInv DesignStoreSpec MigrationModels MigrationStore MigrationSpec MigrationReach MigrationTheorems TypeChanges CheckExpressions DesignMerge MergeTheorems DesignDecode Reconcile ReconcileProps SqlText PlanAnalysis MigrationPlanner PlannerProps PlannerTheorems Conversions ConversionProps MigrationReview ReviewTheorems ReviewExamples MigrationTarget MigrationExecution ExecutionInv TargetProps ExecutionProps ExecutionTheorems.
Open Scope string_scope.

#[local] Existing Instances domain_pglast sample_sqlglot sample_relations sample_trees sample_sha sample_pglast_trees.
#[local] Instance execution_ops : DesignRepositoryOps DesignRepo := design_store_ops no_queries id id false.
#[local] Instance execution_laws : DesignRepositoryLaws DesignRepo := design_store_laws no_queries id id false.

(** ** A small PostgreSQL *)

Definition sample_identity : json_object :=
  [("database", JStr "db"); ("database_oid", JStr "5"); ("server_version_num", JStr "160000"); ("server_address", JStr "local");
   ("server_port", JInt 5432)].

Definition is_commit (e : target_event) : bool := match e with CommittedInTarget => true | _ => false end.
Definition is_closed (e : target_event) : bool := match e with Closed => true | _ => false end.

(** The status of a transaction from what the target observed of its migrations. *)
Definition sample_status (l : target_log) (t : string) : string :=
  let runs := omap (fun e => match e.2.2 with Applying t' _ => if bool_decide (t' = t) then Some e.1 else None | _ => None end) l in
  if forallb (fun k => existsb is_commit (events k l).*2) runs then "committed"
  else if forallb (fun k => existsb is_closed (events k l).*2 && negb (existsb is_commit (events k l).*2)) runs then "aborted"
  else "in progress".

(** Its answers: the table gets its key when the statement was sent. *)
Definition sample_rows (l : target_log) (sent : list message) : option (list json_object) :=
  match last sent with
  | Some (sql, args) =>
      if bool_decide (sql = target_identity_sql) then Some [sample_identity]
      else if bool_decide (sql = transaction_id_sql) then Some [[("transaction_id", JStr "77")]]
      else if bool_decide (sql = transaction_status_sql) then Some [[("status", JStr (sample_status l (hd "" args)))]]
      else Some []
  | None => None
  end.

Definition key_sql : string :=
  "ALTER TABLE " ++ qualified "public" "people" ++ " ADD CONSTRAINT " ++ quote "people_pkey" ++ " PRIMARY KEY (" ++ quote "id" ++ ");".

Definition sample_session (accepts_key : bool) (commit : commit_reply) : target_session target_log SchemiiDesignContent :=
  {| ss_connect := fun _ => Ok tt;
     ss_execute := fun _ sent => if bool_decide (last sent = Some (key_sql, [])) && negb accepts_key then Err (Some "42P16") else Ok tt;
     ss_rows := sample_rows;
     ss_inspect := fun _ sent => Ok (keyed "a" "b" "c" (if bool_decide ((key_sql, []) ∈ sent) then Some "people_pkey" else None));
     ss_commit := fun _ => commit |}.

Definition sample_clock (n : nat) : Z := 20 + Z.of_nat n.
Definition sample_token (n : nat) : string := pretty n.
Abbreviation ReviewWorld := (world DesignRepo SchemiiDesignContent).

(** The reviewed plan in a repository of its own, and its reservation. *)
Definition keyed_record : PlanRecord SchemiiDesignContent :=
  match dget ("alice", "mpl_1") (mg_plans keyed_review.1) with
  | Some record => record
  | None => {| pr_owner_id := "alice"; pr_baseline_id := ""; pr_plan := sample_plan; pr_authority := keyed_authority |}
  end.
Definition planned_key : ReviewRepo := (create_plan open_guard keyed_record (review_repo bare_people keyed_people)).1.
Definition reserved_key : ReviewRepo := (reserve_execution open_guard "1" "alice" "mpl_1"
  (mp_review_digest (pr_plan keyed_record)) false false 20 planned_key).1.
Definition reserved_world : ReviewWorld := {| w_repo := reserved_key; w_log := []; w_ticks := 0 |}.

Lemma planned_key_inv : mig_inv planned_key.
Proof. apply create_plan_inv; [apply create_baseline_inv, start_ok|vm_compute; reflexivity]. Qed.

Lemma reserved_key_inv : mig_inv reserved_key.
Proof. apply reserve_inv; [exact planned_key_inv|]. apply (bool_decide_unpack _). vm_compute. exact I. Qed.

Abbreviation sample_accepts := (accepts content_fingerprint_of imported_as (content_document false)).

Lemma reserved_world_inv : run_inv sample_accepts (w_repo reserved_world) (w_log reserved_world).
Proof.
  apply run_inv_unstarted; [exact reserved_key_inv|]. intros k x Hx. apply dget_Some_elem in Hx.
  assert (Forall (fun kx => mx_transaction_id (er_execution kx.2) = None /\ mx_commit_outcome (er_execution kx.2) = None)
    (mg_executions reserved_key)) as Hall by (vm_compute; repeat constructor).
  rewrite Forall_forall in Hall. exact (Hall _ Hx).
Qed.

(** The small PostgreSQL reports transactions as it documents. *)
Lemma sample_honest accepts_key commit : honest_status (fun _ => sample_session accepts_key commit).
Proof.
  intros n l l' sent identity row t status k who i _ Hrow Hst _ Hin. simpl in Hrow. unfold sample_rows in Hrow. rewrite last_snoc in Hrow.
  rewrite (bool_decide_eq_false_2 (transaction_status_sql = target_identity_sql)) in Hrow by (vm_compute; discriminate).
  rewrite (bool_decide_eq_false_2 (transaction_status_sql = transaction_id_sql)) in Hrow by (vm_compute; discriminate).
  rewrite bool_decide_eq_true_2 in Hrow by done. injection Hrow as <-. simpl in Hst. injection Hst as <-.
  assert (k ∈ omap (fun e : repo_key * (string * target_event) =>
    match e.2.2 with Applying t' _ => if bool_decide (t' = t) then Some e.1 else None | _ => None end) l') as Hk.
  { unfold events in Hin. apply list_elem_of_fmap in Hin as ([k' e] & He & [Hk Hin]%list_elem_of_filter). simpl in *. subst.
    apply list_elem_of_omap. exists (k, (who, Applying t i)). split; [done|]. simpl. by rewrite bool_decide_eq_true_2. }
  assert (forall P, forallb P (omap (fun e : repo_key * (string * target_event) =>
    match e.2.2 with Applying t' _ => if bool_decide (t' = t) then Some e.1 else None | _ => None end) l') = true -> P k = true) as Hall.
  { intros P HP. rewrite forallb_forall in HP. apply HP. by apply list_elem_of_In. }
  unfold sample_status. cbv zeta. destruct (forallb _ _) eqn:Hc; [|destruct (forallb (fun k => _ && _) _) eqn:Ha]; (split; intros Hs; try done).
  - apply Hall, existsb_exists in Hc as (e & He%list_elem_of_In & Hcm). by destruct e.
  - apply Hall, andb_true_iff in Ha as [Hcl Hno]. apply existsb_exists in Hcl as (e & He%list_elem_of_In & Hcm). split; [by destruct e|].
    intros Hin'. apply negb_true_iff in Hno. rewrite <-not_true_iff_false in Hno. apply Hno, existsb_exists. exists CommittedInTarget.
    split; [by apply list_elem_of_In|done].
Qed.

Abbreviation sample_turn accepts_key commit interfere := (run_once content_fingerprint_of imported_as DesignStore.get
  (content_document false) decode_content 60 1000 1000 1000 true true "a" sample_clock sample_token interfere
  (fun _ => sample_session accepts_key commit) (fun _ _ _ => Ok sample_connection) (fun _ _ _ => Ok sample_workspace) "worker").

Definition alone (n : nat) (a : ReviewRepo * target_log) : ReviewRepo * target_log := a.
Definition committed_world : ReviewWorld := (sample_turn true CommitConfirmed alone reserved_world).1.
Definition lost_world : ReviewWorld := (sample_turn true (CommitLost true) alone reserved_world).1.
Definition execution_in (w : ReviewWorld) : option MigrationExecution := er_execution <$> dget ("alice", "mex_1") (mg_executions (w_repo w)).

(** Another client edits another design before every call. *)
Definition edited (n : nat) (a : ReviewRepo * target_log) : ReviewRepo * target_log :=
  (put_designs (DesignStore.replace no_queries id id false (Z.of_nat n) "bob" "other"
     {| drep_expected_design_revision := 0; drep_content := bare_people; drep_history_group_id := None |} "edit"
     (mg_designs a.1)).1 a.1, a.2).
Definition another (who : string) : Prop := who = "b".

Lemma edited_acts n a : run_inv sample_accepts a.1 a.2 -> others_act sample_accepts another a (edited n a).
Proof.
  intros Hi. destruct a as [r l]. unfold edited. simpl in *. apply others_act_repo; [exact Hi|apply put_designs_inv, Hi| |eauto].
  split; simpl; eauto using progress_refl, same_review_refl.
Qed.

Definition busy_world : ReviewWorld := (sample_turn true CommitConfirmed edited reserved_world).1.

Lemma coordinators_compose_witness :
  others_act sample_accepts (fun who => who = "a" \/ another who) (view reserved_world) (view busy_world) /\
  mx_commit_outcome <$> execution_in busy_world = Some (Some Committed) /\
  design_revision (current_design (mg_designs (w_repo busy_world)) ("bob", "other")) = 1%Z.
Proof.
  destruct (coordinators_compose content_fingerprint_of imported_as DesignStore.get (content_document false) decode_content 60 1000 1000 1000
    true true "a" another sample_clock sample_token edited (fun _ => sample_session true CommitConfirmed)
    (fun _ _ _ => Ok sample_connection) (fun _ _ _ => Ok sample_workspace) ltac:(discriminate) edited_acts
    (sample_honest true CommitConfirmed) reserved_world reserved_world_inv "worker" "alice" "mex_1" 1%Z) as [Ha _].
  split; [exact Ha|]. split; vm_compute; reflexivity.
Defined.

Definition keyed_execution (w : ReviewWorld) : ExecutionRecord :=
  match dget ("alice", "mex_1") (mg_executions (w_repo w)) with Some x => x | None => receipt "" "" "" "" false false 0 "" end.



Lemma sample_get owner ws (d : DesignRepo) : DesignStore.get owner ws d = (d, Ok (designs_current d (owner, ws))).
Proof. reflexivity. Qed.

Lemma lost_designs_ok : designs_ok (mg_designs (w_repo lost_world)).
Proof.
  assert (mg_designs (w_repo lost_world) = mg_designs (review_repo bare_people keyed_people)) as -> by (vm_compute; reflexivity).
  apply replace_spec; [apply empty_repo_inv|vm_compute; reflexivity].
Qed.


Lemma users_do_not_disturb_witness :
  mg_executions planned_key = [] /\ others_act sample_accepts another (planned_key, []) (reserved_key, []).
Proof.
  split; [vm_compute; reflexivity|].
  apply (users_do_not_disturb content_fingerprint_of open_guard sample_accepts another planned_key reserved_key []).
  - apply run_inv_unstarted; [exact planned_key_inv|]. intros k x Hx. vm_compute in Hx. discriminate Hx.
  - apply rtc_once. apply us_reserve. apply (bool_decide_unpack _). vm_compute. exact I.
Defined.

(** ** Defects *)

Definition later_import : ReviewWorld := put_repo (create_baseline 200 "2"
  {| bv_owner_id := "alice"; bv_workspace_id := "ws"; bv_connection_id := "c"; bv_connection_owner_id := None;
     bv_connection_revision := 4; bv_database := "db"; bv_namespace := "public"; bv_design_revision := 1;
     bv_content := bare_people; bv_catalog := bare_people; bv_complete := true; bv_issues := []; bv_source := "import";
     bv_expected_predecessor_id := bl_id <$> head_at ("alice", "ws") committed_world; bv_source_execution_id := None |}
  (w_repo committed_world)).1 committed_world.

Abbreviation sample_reconcile := (reconcile content_fingerprint_of DesignStore.get decode_content 60 1000 1000 true sample_clock
  sample_token alone (fun _ => sample_session true CommitConfirmed) (fun _ _ _ => Ok sample_connection) "alice" "mex_1" 6).

(** Asking once more for the reconciliation of an execution that was committed and
    synchronised makes its old catalog the baseline again: after a later import the
    workspace is compared with a catalog the database no longer has, and the call reports
    a successful synchronisation. *)
Theorem reconciled_twice_restores_old_baseline :
  mx_sync_status <$> execution_in committed_world = Some (Some SyncSucceeded) /\
  bl_catalog <$> head_at ("alice", "ws") later_import = Some bare_people /\
  bl_catalog <$> head_at ("alice", "ws") (sample_reconcile later_import).1 = Some (keyed "a" "b" "c" (Some "people_pkey")) /\
  exists e, (sample_reconcile later_import).2 = Ok e /\ mx_sync_status e = Some SyncSucceeded.
Proof. split; [|split; [|split]]; [vm_compute; reflexivity..|]. eexists. split; vm_compute; reflexivity. Qed.

(** A migration whose first statement PostgreSQL rejects is reported as a failed catalog
    query that may be retried, without the step and the object it failed on, although the
    same failure of a later statement is reported as a failed migration. *)
Theorem first_statement_failure_misreported :
  let out := sample_turn false CommitConfirmed alone reserved_world in
  mx_error_code <$> execution_in out.1 = Some (Some "postgres_query_failed") /\
  er_error_detail (keyed_execution out.1) = None /\
  (forall locks n, body_failure {| sp_sent := []; sp_completed := Datatypes.S n; sp_commit_attempted := false |} locks
     (InGateway (TargetQueryError None)) = TargetExecutionError (Datatypes.S n) None None) /\
  target_error_code "" (TargetExecutionError 1 None None) = "postgres_migration_failed".
Proof.
  split; [|split; [|split]]; [vm_compute; reflexivity..| |reflexivity].
  intros locks n. unfold body_failure. simpl. by case_bool_decide.
Qed.
