(* ===== verification/WorkspaceStore.v ===== *)
(** * Saved workspaces

    [workspaces/models.py] and the in-memory repository of [workspaces/store.py].

    - The repository calls the design repository and, through [WorkspaceImportBaselineStore],
      the migration repository; [workspace_world] holds the three of them.  The design
      repository is the one inside the state of the migration repository, as in
      [main.py].
    - [wr_records] is the dictionary of dictionaries the code keeps: per owner, the
      workspaces by ID, in the order of insertion.
    - Guards are callables compared by identity: a type [guard] with what each of them
      answers.
    - [now] is what [datetime.now] gives, [token] what [secrets.token_hex(16)] gives.
    - [model_copy] and [model_validate] of a built model check nothing: [ApiModel] does not
      revalidate instances. *)

From stdpp Require Import pretty.
From Stdlib Require Import Ascii String Floats.SpecFloat.
From S2P Require Import Prelude Json PyString DesignModels DefinitionAnalysis DesignValidation DeletionImpact DesignDocument DesignStore MigrationModels MigrationStore Reconcile CatalogModels CatalogImport.
Open Scope string_scope.
Open Scope method_scope.

Definition MAX_WORKSPACES_PER_OWNER : Z := 1000.
Definition MAX_TABLE_POSITIONS_PER_OWNER : Z := 100000.
Definition MAX_COLUMN_DISPLAY_ORDER_ENTRIES_PER_OWNER : Z := 100000.

(** ** Models *)

(** [_identifier]. *)
Definition workspace_identifier (value : string) : bool :=
  negb (bool_decide (value = "")) && negb (str_contains nul_text value) && bool_decide (String.length value <= 63).

Record TablePosition := {
  tp_name : string;
  tp_x : spec_float;
  tp_y : spec_float;
}.
Definition TablePosition_check (p : TablePosition) : bool :=
  length_between 1 63 (tp_name p) && workspace_identifier (tp_name p) && coordinate_check (tp_x p) && coordinate_check (tp_y p).

Record TableColumnDisplayOrder := {
  tco_name : string;
  tco_columns : list string;
}.
Definition TableColumnDisplayOrder_check (o : TableColumnDisplayOrder) : bool :=
  length_between 1 63 (tco_name o) && workspace_identifier (tco_name o)
  && list_check (fun column => length_between 1 63 column && workspace_identifier column) 1 1600 (tco_columns o)
  && bool_decide (NoDup (tco_columns o)).

(** [SchemiiWorkspaceCreate]: the name is stripped first. *)
Definition normalize_name (value : string) : string := py_strip value.
Definition WorkspaceName (name : string) : bool := length_between 1 128 name.
Definition read_name (value : string) : option string :=
  let name := normalize_name value in if WorkspaceName name then Some name else None.

Record WorkspaceMetadataUpdate := {
  wmu_expected_revision : Z;
  wmu_name : string;
}.

Record WorkspaceCreateRecord := {
  wcr_name : string;
  wcr_connection_id : option string;
  wcr_connection_owner_id : option string;
  wcr_database : option string;
  wcr_namespace : option string;
}.

(** A target is complete or absent. *)
Definition complete_target (connection_id database namespace : option string) : bool :=
  match connection_id, database, namespace with
  | Some _, Some _, Some _ | None, None, None => true
  | _, _, _ => false
  end.

Definition ConnectionId (s : string) : bool := prefixed_hex "pg_" 32 s.
Definition target_check (connection_id database namespace : option string) : bool :=
  opt_check ConnectionId connection_id
  && opt_check workspace_identifier database
  && opt_check (length_between 1 63) namespace && complete_target connection_id database namespace.

(** The fields, [normalize_target] and [complete_optional_target]. *)
Definition WorkspaceCreateRecord_check (r : WorkspaceCreateRecord) : bool :=
  WorkspaceName (wcr_name r) && target_check (wcr_connection_id r) (wcr_database r) (wcr_namespace r)
  && opt_check workspace_identifier (wcr_namespace r).

Record SchemiiWorkspaceLayoutUpdate := {
  wlu_expected_revision : Z;
  wlu_expected_connection_revision : Z;
  wlu_tables : list TablePosition;
  wlu_column_orders : option (list TableColumnDisplayOrder);
}.
Definition SchemiiWorkspaceLayoutUpdate_check (u : SchemiiWorkspaceLayoutUpdate) : bool :=
  bool_decide (1 <= wlu_expected_revision u)%Z && bool_decide (1 <= wlu_expected_connection_revision u)%Z
  && list_check TablePosition_check 0 10000 (wlu_tables u)
  && opt_check (list_check TableColumnDisplayOrder_check 0 10000) (wlu_column_orders u)
  && bool_decide (NoDup (tp_name <$> wlu_tables u))
  && opt_check (fun orders => bool_decide (NoDup (tco_name <$> orders))) (wlu_column_orders u).

Record SchemiiWorkspace := {
  wk_id : string;
  wk_revision : Z;
  wk_name : string;
  wk_connection_id : option string;
  wk_connection_owner_id : option string;
  wk_database : option string;
  wk_namespace : option string;
  wk_tables : list TablePosition;
  wk_column_orders : list TableColumnDisplayOrder;
  wk_import_summary : option WorkspaceImportSummary;
  wk_created_at : Z;
  wk_updated_at : Z;
}.

Definition SchemiiWorkspace_check (w : SchemiiWorkspace) : bool :=
  WorkspaceId (wk_id w) && bool_decide (1 <= wk_revision w)%Z && WorkspaceName (wk_name w)
  && target_check (wk_connection_id w) (wk_database w) (wk_namespace w)
  && bool_decide (wk_created_at w <= wk_updated_at w)%Z
  && bool_decide (NoDup (tp_name <$> wk_tables w)) && bool_decide (NoDup (tco_name <$> wk_column_orders w))
  && match wk_import_summary w, wk_connection_id w with Some _, None => false | _, _ => true end.

(** ** Errors *)

Inductive workspace_error :=
| WorkspaceNotFoundError (message : string)
| WorkspaceConflictError (current_revision : Z)
| WorkspaceLimitError (category : string) (limit : Z)
| WorkspaceStorageUnavailableError (message : string)
| WorkspaceMutationBlockedError (operation : string)
| WorkspaceTargetExistsError (workspace : SchemiiWorkspace)
| WorkspaceValueError (message : string)
| WorkspaceModelRefused
| WorkspaceDesignError (e : design_error)
| WorkspaceMigrationError (e : migration_error).

(** ** State *)

Record WorkspaceDesignBootstrap := {
  wdb_content : SchemiiDesignContent;
  wdb_layout : SchemiiDesignLayoutContent;
  wdb_import_summary : WorkspaceImportSummary;
}.

Abbreviation owner_workspaces := (list (string * SchemiiWorkspace)).

Record WorkspaceRepo (guard : Type) := {
  wr_records : list (string * owner_workspaces);
  wr_max_workspaces_per_owner : Z;
  wr_max_table_positions_per_owner : Z;
  wr_max_column_display_order_entries_per_owner : Z;
  wr_has_designs : bool;
  wr_mutation_guards : list guard;
}.
Arguments wr_records {guard}. Arguments wr_max_workspaces_per_owner {guard}. Arguments wr_max_table_positions_per_owner {guard}.
Arguments wr_max_column_display_order_entries_per_owner {guard}. Arguments wr_has_designs {guard}.
Arguments wr_mutation_guards {guard}.

Record workspace_world (guard Catalog : Type) := {
  ww_workspaces : WorkspaceRepo guard;
  ww_migrations : MigrationRepo DesignRepo Catalog;
}.
Arguments ww_workspaces {guard Catalog}. Arguments ww_migrations {guard Catalog}.

Record ConnectionDependentResource := {
  cdr_provider : string;
  cdr_kind : string;
  cdr_resource_id : string;
  cdr_revision : Z;
  cdr_name : string;
  cdr_target : option string;
  cdr_deletion_blocked : bool;
  cdr_blocking_reason : option string;
}.

Definition created_le (a b : SchemiiWorkspace) : Prop := (wk_created_at a <= wk_created_at b)%Z.
#[export] Instance created_le_dec : RelDecision created_le.
Proof. intros a b. unfold created_le. apply _. Defined.

Definition positions_in (w : SchemiiWorkspace) : Z := Z.of_nat (length (wk_tables w)).
Definition entries_of (orders : list TableColumnDisplayOrder) : Z := Z.of_nat (sum_list ((fun o => length (tco_columns o)) <$> orders)).
Definition entries_in (w : SchemiiWorkspace) : Z := entries_of (wk_column_orders w).

Section store.
Context `{Pglast} `{Sqlglot} `{Sha256}.
Context {guard : Type} `{!EqDecision guard} {Catalog : Type}.
Context `{!DesignRepositoryOps DesignRepo}.
Variable guard_blocks : guard -> MigrationRepo DesignRepo Catalog -> string -> string -> bool.

Abbreviation World := (workspace_world guard Catalog).
Abbreviation workspace_method := (method World workspace_error).
Abbreviation repository := (WorkspaceRepo guard).

(** [__init__]; [None] is the rejected limit. *)
Definition InMemoryWorkspaceRepository (max_workspaces max_positions max_entries : Z) (has_designs : bool) : option repository :=
  if bool_decide (max_workspaces < 1)%Z || bool_decide (max_positions < 1)%Z || bool_decide (max_entries < 1)%Z then None else
  Some {| wr_records := []; wr_max_workspaces_per_owner := max_workspaces; wr_max_table_positions_per_owner := max_positions;
          wr_max_column_display_order_entries_per_owner := max_entries; wr_has_designs := has_designs; wr_mutation_guards := [] |}.

Definition put_records (records : list (string * owner_workspaces)) (w : World) : World :=
  {| ww_workspaces := {| wr_records := records; wr_max_workspaces_per_owner := wr_max_workspaces_per_owner (ww_workspaces w);
       wr_max_table_positions_per_owner := wr_max_table_positions_per_owner (ww_workspaces w);
       wr_max_column_display_order_entries_per_owner := wr_max_column_display_order_entries_per_owner (ww_workspaces w);
       wr_has_designs := wr_has_designs (ww_workspaces w); wr_mutation_guards := wr_mutation_guards (ww_workspaces w) |};
     ww_migrations := ww_migrations w |}.
Definition put_guards (guards : list guard) (w : World) : World :=
  {| ww_workspaces := {| wr_records := wr_records (ww_workspaces w);
       wr_max_workspaces_per_owner := wr_max_workspaces_per_owner (ww_workspaces w);
       wr_max_table_positions_per_owner := wr_max_table_positions_per_owner (ww_workspaces w);
       wr_max_column_display_order_entries_per_owner := wr_max_column_display_order_entries_per_owner (ww_workspaces w);
       wr_has_designs := wr_has_designs (ww_workspaces w); wr_mutation_guards := guards |};
     ww_migrations := ww_migrations w |}.
Definition put_migrations (migrations : MigrationRepo DesignRepo Catalog) (w : World) : World :=
  {| ww_workspaces := ww_workspaces w; ww_migrations := migrations |}.

(** [self._records.get(owner_id, {})]. *)
Definition records_of (w : World) (owner_id : string) : owner_workspaces :=
  match dget owner_id (wr_records (ww_workspaces w)) with Some records => records | None => [] end.
Definition put_owner (owner_id : string) (records : owner_workspaces) (w : World) : World :=
  put_records (dset owner_id records (wr_records (ww_workspaces w))) w.

(** A call of a method of the design repository and of the migration repository. *)
Definition on_designs {A} (m : method DesignRepo design_error A) : workspace_method A := fun w =>
  let '(d, r) := m (mg_designs (ww_migrations w)) in
  (put_migrations (put_designs d (ww_migrations w)) w, match r with Ok a => Ok a | Err e => Err (WorkspaceDesignError e) end).
Definition on_migrations {A} (m : method (MigrationRepo DesignRepo Catalog) migration_error A) : workspace_method A := fun w =>
  let '(s, r) := m (ww_migrations w) in
  (put_migrations s w, match r with Ok a => Ok a | Err e => Err (WorkspaceMigrationError e) end).

(** ** Guards *)

Definition set_mutation_guard (g : guard) : workspace_method unit := m_update (put_guards [g]).
Definition add_mutation_guard (g : guard) : workspace_method unit := m_update (fun w =>
  let guards := wr_mutation_guards (ww_workspaces w) in
  if bool_decide (g ∈ guards) then w else put_guards (guards ++ [g])%list w).

Definition mutation_blocked (w : World) (owner_id workspace_id : string) : bool :=
  existsb (fun g => guard_blocks g (ww_migrations w) owner_id workspace_id) (wr_mutation_guards (ww_workspaces w)).

(** ** Reading *)

(** [_record]. *)
Definition record (owner_id workspace_id : string) : workspace_method SchemiiWorkspace :=
  let* w := m_get in
  match dget workspace_id (records_of w owner_id) with
  | Some workspace => m_return workspace
  | None => m_raise (WorkspaceNotFoundError "Schemii workspace was not found")
  end.

Definition get_workspace (owner_id workspace_id : string) : workspace_method SchemiiWorkspace := record owner_id workspace_id.

Definition list_workspaces (owner_id : string) : workspace_method (list SchemiiWorkspace) :=
  let* w := m_get in m_return (merge_sort created_le (snd <$> records_of w owner_id)).

Definition has_target (connection_id database namespace : string) (workspace : SchemiiWorkspace) : bool :=
  bool_decide (wk_connection_id workspace = Some connection_id) && bool_decide (wk_database workspace = Some database)
  && bool_decide (wk_namespace workspace = Some namespace).

Definition find_by_target (owner_id connection_id database namespace : string) : workspace_method (option SchemiiWorkspace) :=
  let* w := m_get in
  m_return (List.find (has_target connection_id database namespace) (snd <$> records_of w owner_id)).

(** ** Creation *)

Definition below_workspace_limit (owner_id : string) : workspace_method unit :=
  let* w := m_get in
  m_guard (bool_decide (wr_max_workspaces_per_owner (ww_workspaces w) <= Z.of_nat (length (records_of w owner_id)))%Z)
    (WorkspaceLimitError "workspace" (wr_max_workspaces_per_owner (ww_workspaces w))).

Definition fresh_workspace (now : Z) (token : string) (request : WorkspaceCreateRecord) (connection_owner_id : option string)
    (import_summary : option WorkspaceImportSummary) : SchemiiWorkspace :=
  {| wk_id := "ws_" ++ token; wk_revision := 1; wk_name := wcr_name request;
     wk_connection_id := wcr_connection_id request; wk_connection_owner_id := connection_owner_id;
     wk_database := wcr_database request; wk_namespace := wcr_namespace request; wk_tables := []; wk_column_orders := [];
     wk_import_summary := import_summary; wk_created_at := now; wk_updated_at := now |}.

(** [SchemiiWorkspace(...)]. *)
Definition new_workspace (now : Z) (token : string) (request : WorkspaceCreateRecord) (connection_owner_id : option string)
    (import_summary : option WorkspaceImportSummary) : workspace_method SchemiiWorkspace :=
  let workspace := fresh_workspace now token request connection_owner_id import_summary in
  m_lift (if SchemiiWorkspace_check workspace then Ok workspace else Err WorkspaceModelRefused).

(** [records.setdefault(owner_id, {})] and assignments to its result. *)
Definition ensure_owner (owner_id : string) : workspace_method unit := m_update (fun w => put_owner owner_id (records_of w owner_id) w).
Definition store_workspace (owner_id : string) (workspace : SchemiiWorkspace) : workspace_method unit :=
  m_update (fun w => put_owner owner_id (dset (wk_id workspace) workspace (records_of w owner_id)) w).
Definition remove_workspace (owner_id workspace_id : string) : workspace_method unit :=
  m_update (fun w => put_owner owner_id (dpop workspace_id (records_of w owner_id)) w).

Definition create (now : Z) (token : string) (owner_id : string) (request : WorkspaceCreateRecord)
    (bootstrap : option WorkspaceDesignBootstrap) : workspace_method SchemiiWorkspace :=
  ensure_owner owner_id ;;*
  below_workspace_limit owner_id ;;*
  let connection_owner_id :=
    match truthy (wcr_connection_owner_id request), truthy (wcr_connection_id request) with
    | Some owner, _ => Some owner
    | None, Some _ => Some owner_id
    | None, None => None
    end in
  let* workspace := new_workspace now token request connection_owner_id (wdb_import_summary <$> bootstrap) in
  match bootstrap with
  | Some b =>
      let* w := m_get in
      m_guard (negb (wr_has_designs (ww_workspaces w)))
        (WorkspaceStorageUnavailableError "Imported workspace persistence is not configured") ;;*
      let* _ := on_designs (initialize now owner_id (wk_id workspace) (wdb_content b) (wdb_layout b)) in
      m_return tt
  | None => m_return tt
  end ;;*
  store_workspace owner_id workspace ;;*
  m_return workspace.

(** [try: m except Exception: handler; raise]. *)
Definition m_except {A} (m : workspace_method A) (handler : workspace_error -> workspace_method unit) : workspace_method A := fun w =>
  match m w with
  | (w', Ok a) => (w', Ok a)
  | (w', Err e) => match handler e w' with (w'', Ok _) => (w'', Err e) | (w'', Err e') => (w'', Err e') end
  end.

(** The stores of an import, and their rollback. *)
Definition store_import (now : Z) (baseline_token owner_id connection_id database namespace connection_owner_id : string)
    (workspace : SchemiiWorkspace) (bootstrap : WorkspaceDesignBootstrap) (baseline : WorkspaceImportBaseline Catalog)
    : workspace_method SchemiiWorkspace :=
  store_workspace owner_id workspace ;;*
  m_except (let* _ := on_designs (initialize now owner_id (wk_id workspace) (wdb_content bootstrap) (wdb_layout bootstrap)) in m_return tt)
    (fun _ => remove_workspace owner_id (wk_id workspace)) ;;*
  m_except (let* _ := on_migrations (create_import_baseline now baseline_token false owner_id (wk_id workspace) connection_id
              (Some connection_owner_id) database namespace baseline) in m_return tt)
    (fun _ => remove_workspace owner_id (wk_id workspace) ;;*
              on_designs (discard_initialization owner_id (wk_id workspace))) ;;*
  m_return workspace.

Definition create_import (now : Z) (token baseline_token : string) (owner_id : string) (request : WorkspaceCreateRecord)
    (bootstrap : WorkspaceDesignBootstrap) (baseline : WorkspaceImportBaseline Catalog) : workspace_method SchemiiWorkspace :=
  match wcr_connection_id request, wcr_database request, wcr_namespace request with
  | Some connection_id, Some database, Some namespace =>
      let* w := m_get in
      m_guard (negb (wr_has_designs (ww_workspaces w)))
        (WorkspaceStorageUnavailableError "Imported workspace persistence is not configured") ;;*
      ensure_owner owner_id ;;*
      let* existing := find_by_target owner_id connection_id database namespace in
      match existing with
      | Some workspace => m_raise (WorkspaceTargetExistsError workspace)
      | None => m_return tt
      end ;;*
      below_workspace_limit owner_id ;;*
      let connection_owner_id := or_else (wcr_connection_owner_id request) owner_id in
      let* workspace := new_workspace now token request (Some connection_owner_id) (Some (wdb_import_summary bootstrap)) in
      store_import now baseline_token owner_id connection_id database namespace connection_owner_id workspace bootstrap baseline
  | _, _, _ => m_raise (WorkspaceValueError "Imported workspaces require a complete PostgreSQL target")
  end.

(** ** Changes *)

Definition expect_revision (current : SchemiiWorkspace) (expected : Z) : workspace_method unit :=
  m_guard (negb (bool_decide (wk_revision current = expected))) (WorkspaceConflictError (wk_revision current)).

Definition revised (now : Z) (name : string) (tables : list TablePosition) (column_orders : list TableColumnDisplayOrder)
    (current : SchemiiWorkspace) : SchemiiWorkspace :=
  {| wk_id := wk_id current; wk_revision := wk_revision current + 1; wk_name := name; wk_connection_id := wk_connection_id current;
     wk_connection_owner_id := wk_connection_owner_id current; wk_database := wk_database current; wk_namespace := wk_namespace current;
     wk_tables := tables; wk_column_orders := column_orders; wk_import_summary := wk_import_summary current;
     wk_created_at := wk_created_at current; wk_updated_at := now |}.

(** [self._records\[owner_id\]\[workspace_id\] = updated]. *)
Definition replace_workspace (owner_id workspace_id : string) (updated : SchemiiWorkspace) : workspace_method unit :=
  m_update (fun w => put_owner owner_id (dset workspace_id updated (records_of w owner_id)) w).

Definition rename (now : Z) (owner_id workspace_id : string) (request : WorkspaceMetadataUpdate) : workspace_method SchemiiWorkspace :=
  let* current := record owner_id workspace_id in
  expect_revision current (wmu_expected_revision request) ;;*
  let updated := revised now (wmu_name request) (wk_tables current) (wk_column_orders current) current in
  replace_workspace owner_id workspace_id updated ;;*
  m_return updated.

(** The sum of a measure over the other workspaces of an owner. *)
Definition total (measure : SchemiiWorkspace -> Z) (records : owner_workspaces) : Z := foldr Z.add 0%Z ((fun kv => measure kv.2) <$> records).
Definition others (workspace_id : string) (records : owner_workspaces) : owner_workspaces := filter (fun kv => kv.1 <> workspace_id) records.

Definition update_layout (now : Z) (owner_id workspace_id : string) (request : SchemiiWorkspaceLayoutUpdate) : workspace_method SchemiiWorkspace :=
  let* current := record owner_id workspace_id in
  expect_revision current (wlu_expected_revision request) ;;*
  let* w := m_get in
  let other_position_count := total positions_in (others workspace_id (records_of w owner_id)) in
  m_guard (bool_decide (wr_max_table_positions_per_owner (ww_workspaces w)
                        < other_position_count + Z.of_nat (length (wlu_tables request)))%Z)
    (WorkspaceLimitError "table position" (wr_max_table_positions_per_owner (ww_workspaces w))) ;;*
  let* column_orders :=
    match wlu_column_orders request with
    | None => m_return (wk_column_orders current)
    | Some requested =>
        let other_order_entries := total entries_in (others workspace_id (records_of w owner_id)) in
        m_guard (bool_decide (wr_max_column_display_order_entries_per_owner (ww_workspaces w)
                              < other_order_entries + entries_of requested)%Z)
          (WorkspaceLimitError "column display order entry" (wr_max_column_display_order_entries_per_owner (ww_workspaces w))) ;;*
        m_return requested
    end in
  let updated := revised now (wk_name current) (wlu_tables request) column_orders current in
  replace_workspace owner_id workspace_id updated ;;*
  m_return updated.

Definition delete_workspace (owner_id workspace_id : string) (expected_revision : Z) : workspace_method unit :=
  let* current := record owner_id workspace_id in
  expect_revision current expected_revision ;;*
  let* w := m_get in
  m_guard (mutation_blocked w owner_id workspace_id) (WorkspaceMutationBlockedError "deleted") ;;*
  (if wr_has_designs (ww_workspaces w) then on_designs (discard_initialization owner_id workspace_id) else m_return tt) ;;*
  remove_workspace owner_id workspace_id.

(** ** Connections *)

Definition uses_connection (owner_id connection_id : string) (kv : string * SchemiiWorkspace) : bool :=
  bool_decide (wk_connection_id kv.2 = Some connection_id)
  && bool_decide (or_else (wk_connection_owner_id kv.2) kv.1 = owner_id).

(** Every workspace, with the user it belongs to. *)
Definition all_workspaces (w : World) : list (string * SchemiiWorkspace) :=
  entry ← wr_records (ww_workspaces w); pair entry.1 <$> (snd <$> entry.2).

Definition count_for_connection (owner_id connection_id : string) : workspace_method nat :=
  let* w := m_get in m_return (length (filter (fun kv => uses_connection owner_id connection_id kv = true) (all_workspaces w))).

Definition dependency_name : string := "schemiiWorkspaces".

Definition dependent_resource (w : World) (kv : string * SchemiiWorkspace) : ConnectionDependentResource :=
  let blocked := mutation_blocked w kv.1 (wk_id kv.2) in
  {| cdr_provider := dependency_name; cdr_kind := "workspace"; cdr_resource_id := wk_id kv.2; cdr_revision := wk_revision kv.2;
     cdr_name := wk_name kv.2;
     cdr_target := match truthy (wk_database kv.2), truthy (wk_namespace kv.2) with
                   | Some database, Some namespace => Some (database ++ "." ++ namespace)
                   | _, _ => None
                   end;
     cdr_deletion_blocked := blocked;
     cdr_blocking_reason := if blocked then Some "An active or unreconciled migration must finish first." else None |}.

Definition dependencies_for_connection (owner_id connection_id : string) : workspace_method (list ConnectionDependentResource) :=
  let* w := m_get in
  m_return (dependent_resource w <$> filter (fun kv => uses_connection owner_id connection_id kv = true) (all_workspaces w)).

(** [execution_claim_guard]: a claim needs the workspace. *)
Definition execution_claim_guard (owner_id workspace_id : string) (w : World) : result workspace_error unit :=
  match (record owner_id workspace_id w).2 with Ok _ => Ok tt | Err e => Err e end.
End store.
