(* ===== verification/WorkspaceRoutes.v ===== *)
(** * Workspace routes

    [workspaces/routes.py] over the repository of [WorkspaceStore], with the mapping of
    gateway errors of [common/api/postgres.py] and [_create_import_workspace] of
    [migrations/service.py].

    - Connections and PostgreSQL are outside the program: what [connections.use] yields or
      raises, and what [introspect] returns or raises, are arguments.
    - An exception no handler catches becomes status 500 in the framework: [Uncaught].
    - [limit_event] only feeds a log and is left out. *)

From stdpp Require Import pretty.
From Stdlib Require Import Ascii String Floats.SpecFloat.
From S2P Require Import Prelude Json PyString DesignModels DefinitionAnalysis DesignValidation DeletionImpact DesignDocument CheckExpressions DesignStore MigrationModels MigrationStore Reconcile MigrationReview SchemaSource CatalogModels CatalogImport WorkspaceStore.
Open Scope string_scope.
Open Scope method_scope.

(** ** Problems *)

Record ApiProblem := {
  ap_status_code : Z;
  ap_code : string;
  ap_message : string;
  ap_retryable : bool;
  ap_details : json_object;
}.

Definition problem (status : Z) (code message : string) (details : json_object) : ApiProblem :=
  {| ap_status_code := status; ap_code := code; ap_message := message; ap_retryable := false; ap_details := details |}.

(** The exceptions of the gateway an inspection can raise. *)
Inductive inspection_error :=
| PostgresDriverUnavailableError
| PostgresConnectionError
| PostgresConnectionCapacityError (limit_name : string) (limit observed : Z)
| PostgresQueryError (sqlstate : option string)
| PostgresDatabaseMismatchError
| PostgresNamespaceNotFoundError
| PostgresInvalidNamespaceError
| PostgresCatalogLimitError (category : string) (limit : Z) (observed : option Z)
| PostgresCatalogValidationError.

(** [PostgresCatalogLimitError.limit_name]. *)
Definition catalog_limit_name (category : string) : string :=
  if bool_decide (category = "catalog_text") then "postgres.catalog.maximum_definition_bytes"
  else if bool_decide (category = "catalog_text_total") then "postgres.catalog.maximum_total_text_bytes"
  else "postgres.catalog.maximum_" ++ category.

(** [error.code]. *)
Definition inspection_code (e : inspection_error) : string :=
  match e with
  | PostgresDriverUnavailableError => "postgres_driver_unavailable"
  | PostgresConnectionError => "postgres_connection_failed"
  | PostgresConnectionCapacityError _ _ _ => "postgres_connection_capacity_reached"
  | PostgresQueryError _ => "postgres_query_failed"
  | PostgresDatabaseMismatchError => "postgres_database_mismatch"
  | PostgresNamespaceNotFoundError => "postgres_namespace_not_found"
  | PostgresInvalidNamespaceError => "postgres_invalid_namespace"
  | PostgresCatalogLimitError _ _ _ => "postgres_catalog_limit_exceeded"
  | PostgresCatalogValidationError => "postgres_catalog_invalid"
  end.

(** [str(error)]. *)
Definition inspection_message (e : inspection_error) : string :=
  match e with
  | PostgresDriverUnavailableError => "PostgreSQL support is unavailable"
  | PostgresConnectionError => "PostgreSQL connection failed"
  | PostgresConnectionCapacityError _ _ _ =>
      "Schemii is using all configured PostgreSQL connection slots. Wait for an active operation to finish and retry."
  | PostgresQueryError _ => "PostgreSQL catalog query failed"
  | PostgresDatabaseMismatchError => "The connected PostgreSQL database does not match the requested database"
  | PostgresNamespaceNotFoundError => "The requested PostgreSQL namespace was not found"
  | PostgresInvalidNamespaceError => "The PostgreSQL namespace is invalid"
  | PostgresCatalogLimitError category limit _ =>
      "The PostgreSQL catalog has more " ++ category ++ " than Schemii's configured limit of " ++ pretty limit
      ++ ". Reduce the inspected schema or ask the administrator to raise " ++ catalog_limit_name category ++ "."
  | PostgresCatalogValidationError => "PostgreSQL returned invalid catalog metadata"
  end.

Definition limit_details (resource limit_name : string) (limit : Z) (observed : option Z) : json_object :=
  [("resource", JStr resource); ("limitName", JStr limit_name); ("limit", JInt limit);
   ("observed", match observed with Some z => JInt z | None => JNull end)].

Definition postgres_api_problem (e : inspection_error) : ApiProblem :=
  let status := match e with
    | PostgresDriverUnavailableError | PostgresConnectionCapacityError _ _ _ => 503
    | PostgresDatabaseMismatchError => 409
    | PostgresNamespaceNotFoundError => 404
    | PostgresInvalidNamespaceError | PostgresCatalogLimitError _ _ _ => 422
    | _ => 502
    end%Z in
  let retryable := match e with PostgresConnectionError | PostgresConnectionCapacityError _ _ _ => true | _ => false end in
  let details := match e with
    | PostgresCatalogLimitError category limit observed => limit_details category (catalog_limit_name category) limit observed
    | PostgresConnectionCapacityError limit_name limit observed => limit_details "postgres_connections" limit_name limit (Some observed)
    | _ => []
    end in
  {| ap_status_code := status; ap_code := inspection_code e; ap_message := inspection_message e; ap_retryable := retryable;
     ap_details := details |}.

Definition workspace_not_found (message : string) : ApiProblem := problem 404 "workspace_not_found" message [].
Definition connection_not_found (message : string) : ApiProblem := problem 404 "connection_not_found" message [].
Definition workspace_conflict (current_revision : Z) : ApiProblem :=
  problem 409 "workspace_conflict" "Schemii workspace changed in another request" [("currentRevision", JInt current_revision)].

Definition workspace_limit_name (category : string) : string :=
  if bool_decide (category = "workspace") then "resources.maximum_workspaces_per_user"
  else if bool_decide (category = "table position") then "workspace_layout.maximum_table_positions"
  else if bool_decide (category = "column display order") then "workspace_layout.maximum_column_display_orders"
  else "workspace." ++ category.

Definition workspace_limit (category : string) (limit : Z) : ApiProblem :=
  let limit_name := workspace_limit_name category in
  problem 409 "workspace_limit_reached"
    ("The " ++ category ++ " limit of " ++ pretty limit ++ " has been reached. Remove unused " ++ category
     ++ " data or ask the administrator to raise " ++ limit_name ++ ".")
    (limit_details category limit_name limit (Some limit)).

(** What a handler raises. *)
Inductive route_error :=
| Problem (p : ApiProblem)
| Uncaught (e : workspace_error)
| UncaughtImport (e : import_error)
| UncaughtReconciliation (e : reconcile_error)
| UncaughtModel.

(** ** Connections *)

Record saved_connection := {
  sc_id : string;
  sc_database : string;
  sc_owner_id : option string;
  sc_revision : Z;
}.

(** What the [with] block is given: the connection or [ConnectionNotFoundError], and the
    catalog an inspection returns. *)
Record target_access := {
  tac_connection : result string saved_connection;
  tac_catalog : string -> result inspection_error PostgresCatalog;
}.

(** [(getattr(connection, "owner_id", None) or user) != (workspace.connection_owner_id or user)]. *)
Definition other_identity (user : string) (connection : saved_connection) (workspace : SchemiiWorkspace) : bool :=
  negb (bool_decide (or_else (sc_owner_id connection) user = or_else (wk_connection_owner_id workspace) user)).

(** ** Column orders *)

(** [_reconcile_column_orders]: [None] when a model is refused. *)
Definition reconciled_order (preferred : list string) (t : PostgresTable) : TableColumnDisplayOrder :=
  let physical := pc_name <$> merge_sort ordinal_le (pb_columns t) in
  let ordered := filter (fun column => column ∈ physical) preferred in
  {| tco_name := pb_name t; tco_columns := (ordered ++ filter (fun column => column ∉ ordered) physical)%list |}.

Definition reconcile_column_orders (workspace : SchemiiWorkspace) (catalog : PostgresCatalog) : option (list TableColumnDisplayOrder) :=
  let saved := dict_fill tco_name tco_columns (wk_column_orders workspace) [] in
  let reconciled := omap (fun t => preferred ← dget (pb_name t) saved; Some (reconciled_order preferred t))
                         (pg_tables (pg_content catalog)) in
  if forallb TableColumnDisplayOrder_check reconciled then Some reconciled else None.

(** A display order against the columns of its table. *)
Definition order_mismatch (live_columns : list (string * list string)) (order : TableColumnDisplayOrder) : option json :=
  match dget (tco_name order) live_columns with
  | None => Some (JDict [("table", JStr (tco_name order)); ("missingColumns", JList []); ("unknownColumns", json_strs (tco_columns order))])
  | Some expected =>
      let missing := merge_sort String.le (filter (fun c => c ∉ tco_columns order) (remove_dups expected)) in
      let unknown := merge_sort String.le (filter (fun c => c ∉ expected) (remove_dups (tco_columns order))) in
      if bool_decide (missing = []) && bool_decide (unknown = []) then None
      else Some (JDict [("table", JStr (tco_name order)); ("missingColumns", json_strs missing); ("unknownColumns", json_strs unknown)])
  end.

Definition unknown_tables (catalog : PostgresCatalog) (positions : list TablePosition) : list string :=
  merge_sort String.le (filter (fun name => name ∉ pb_name <$> pg_tables (pg_content catalog)) (tp_name <$> positions)).

Definition live_columns_of (catalog : PostgresCatalog) : list (string * list string) :=
  dict_fill pb_name (fun t => pc_name <$> pb_columns t) (pg_tables (pg_content catalog)) [].

Record SchemiiPostgresWorkspaceResponse := {
  spr_created : bool;
  spr_workspace : SchemiiWorkspace;
  spr_design : SchemiiDesign;
  spr_layout : SchemiiDesignLayout;
}.

Record WorkspaceCatalogResponse := {
  wcr_response_workspace : SchemiiWorkspace;
  wcr_response_catalog : PostgresCatalog;
  wcr_response_positions : list TablePosition;
}.

Section routes.
Context `{Pglast} `{Sqlglot} `{SqlglotTrees} `{SchemaRendering} `{Sha256}.
Context {guard : Type} `{!EqDecision guard}.
Context `{!DesignRepositoryOps DesignRepo}.
Variable guard_blocks : guard -> MigrationRepo DesignRepo PostgresCatalog -> string -> string -> bool.
Variable validation_text : string -> json -> string.

Abbreviation World := (workspace_world guard PostgresCatalog).
Abbreviation route := (method World route_error).

(** A call of the repository, with the handlers around it. *)
Definition handling {A} (handlers : workspace_error -> option ApiProblem) (m : method World workspace_error A) : route A := fun w =>
  match m w with
  | (w', Ok a) => (w', Ok a)
  | (w', Err e) => (w', Err (match handlers e with Some p => Problem p | None => Uncaught e end))
  end.

Definition lifecycle_problem (e : workspace_error) : option ApiProblem :=
  match e with
  | WorkspaceNotFoundError message => Some (workspace_not_found message)
  | WorkspaceConflictError current_revision => Some (workspace_conflict current_revision)
  | _ => None
  end.

(** [except WorkspaceNotFoundError] alone, and the handlers of the other routes. *)
Definition missing_problem (e : workspace_error) : option ApiProblem :=
  match e with WorkspaceNotFoundError message => Some (workspace_not_found message) | _ => None end.
Definition limit_problem (e : workspace_error) : option ApiProblem :=
  match e with WorkspaceLimitError category limit => Some (workspace_limit category limit) | _ => None end.
Definition layout_problem (e : workspace_error) : option ApiProblem :=
  match lifecycle_problem e with Some p => Some p | None => limit_problem e end.
Definition deletion_problem (e : workspace_error) : option ApiProblem :=
  match e with
  | WorkspaceMutationBlockedError operation =>
      Some (problem 409 "workspace_mutation_blocked"
        ("The workspace cannot be " ++ operation ++ " while a migration execution is active") [("operation", JStr operation)])
  | _ => lifecycle_problem e
  end.

(** ** Lifecycle *)

Definition list_route (user : string) : route (list SchemiiWorkspace) := handling (fun _ => None) (list_workspaces user).

(** [create_workspace]; the name was read by the request model. *)
Definition create_route (now : Z) (token user name : string) : route SchemiiWorkspace :=
  handling limit_problem (create now token user
    {| wcr_name := name; wcr_connection_id := None; wcr_connection_owner_id := None; wcr_database := None; wcr_namespace := None |} None).

Definition update_workspace_metadata (now : Z) (user workspace_id : string) (body : WorkspaceMetadataUpdate) : route SchemiiWorkspace :=
  handling lifecycle_problem (rename now user workspace_id body).

Definition get_route (user workspace_id : string) : route SchemiiWorkspace := handling missing_problem (get_workspace user workspace_id).

Definition delete_route (user workspace_id : string) (expected_revision : Z) : route unit :=
  handling deletion_problem (delete_workspace guard_blocks user workspace_id expected_revision).

(** ** Opening a schema *)

(** [_create_import_workspace]; [new_baseline_content] imports the catalog again. *)
Definition create_import_workspace (now : Z) (token baseline_token owner_id : string) (request : WorkspaceCreateRecord)
    (imported : ImportResult) (connection_revision : Z) (catalog : PostgresCatalog) : route SchemiiWorkspace :=
  match import_postgres_catalog validation_text catalog with
  | Err e => m_raise (UncaughtImport e)
  | Ok inspected =>
      match new_baseline_content (imported_design inspected) (ir_content imported) with
      | Err e => m_raise (UncaughtReconciliation e)
      | Ok (baseline_content, warnings, complete) =>
          handling limit_problem (create_import now token baseline_token owner_id request
            {| wdb_content := ir_content imported; wdb_layout := ir_layout imported; wdb_import_summary := ir_summary imported |}
            {| wib_connection_revision := connection_revision; wib_content := baseline_content; wib_catalog := catalog;
               wib_complete := complete; wib_issues := blocker_document <$> warnings |})
      end
  end.

(** The record of a workspace for a schema of a connection; [None] when it is refused. *)
Definition target_record (user : string) (connection : saved_connection) (namespace : string) : option WorkspaceCreateRecord :=
  let request := {| wcr_name := normalize_name (sc_database connection ++ "." ++ namespace); wcr_connection_id := Some (sc_id connection);
    wcr_connection_owner_id := Some (or_else (sc_owner_id connection) user); wcr_database := Some (sc_database connection);
    wcr_namespace := Some namespace |} in
  if WorkspaceCreateRecord_check request then Some request else None.

(** [try: ... created = True; except WorkspaceTargetExistsError as error: ...]. *)
Definition created_or_existing (m : route SchemiiWorkspace) : route (SchemiiWorkspace * bool) := fun w =>
  match m w with
  | (w', Ok workspace) => (w', Ok (workspace, true))
  | (w', Err (Uncaught (WorkspaceTargetExistsError workspace))) => (w', Ok (workspace, false))
  | (w', Err e) => (w', Err e)
  end.

(** The [else] branch: the schema is inspected and imported. *)
Definition import_target (now : Z) (token baseline_token user : string) (access : target_access) (connection : saved_connection)
    (namespace : string) : route (SchemiiWorkspace * bool) :=
  match tac_catalog access namespace with
  | Err e => m_raise (Problem (postgres_api_problem e))
  | Ok catalog =>
      match import_postgres_catalog validation_text catalog with
      | Err e => m_raise (UncaughtImport e)
      | Ok imported =>
          match target_record user connection namespace with
          | None => m_raise UncaughtModel
          | Some request =>
              created_or_existing
                (create_import_workspace now token baseline_token user request imported (sc_revision connection) catalog)
          end
      end
  end.

Definition open_postgres_workspace (now : Z) (token baseline_token user : string) (access : target_access) (namespace : string)
    : route SchemiiPostgresWorkspaceResponse :=
  match tac_connection access with
  | Err message => m_raise (Problem (connection_not_found message))
  | Ok connection =>
      let* existing := handling (fun _ => None) (find_by_target user (sc_id connection) (sc_database connection) namespace) in
      let* (workspace, created) :=
        match existing with
        | Some workspace =>
            m_guard (other_identity user connection workspace)
              (Problem (problem 409 "workspace_target_changed" "The saved workspace uses a different PostgreSQL identity" [])) ;;*
            m_return (workspace, false)
        | None => import_target now token baseline_token user access connection namespace
        end in
      let* design := handling (fun _ => None) (on_designs (DesignStore.get user (wk_id workspace))) in
      let* layout := handling (fun _ => None) (on_designs (get_layout user (wk_id workspace))) in
      m_return {| spr_created := created; spr_workspace := workspace; spr_design := design; spr_layout := layout |}
  end.

(** ** Layouts of live tables *)

(** What the connection must still be. *)
Definition same_target (connection : saved_connection) (workspace : SchemiiWorkspace) : route unit :=
  m_guard (negb (bool_decide (wk_database workspace = Some (sc_database connection))))
    (Problem (problem 409 "workspace_target_changed" "The workspace connection no longer targets its saved database" [])).

Definition same_identity (user : string) (connection : saved_connection) (workspace : SchemiiWorkspace) : route unit :=
  m_guard (other_identity user connection workspace)
    (Problem (problem 409 "workspace_target_changed" "The workspace connection identity changed" [])).

(** [introspect(connection, workspace.namespace)]. *)
Definition inspect_workspace (access : target_access) (workspace : SchemiiWorkspace) : route PostgresCatalog :=
  match tac_catalog access (from_option id "" (wk_namespace workspace)) with
  | Err e => m_raise (Problem (postgres_api_problem e))
  | Ok catalog => m_return catalog
  end.

Definition check_layout (catalog : PostgresCatalog) (body : SchemiiWorkspaceLayoutUpdate) : route unit :=
  let unknown := unknown_tables catalog (wlu_tables body) in
  m_guard (negb (bool_decide (unknown = [])))
    (Problem (problem 422 "table_not_found" "Layout positions may reference only live PostgreSQL tables" [("tables", json_strs unknown)])) ;;*
  match wlu_column_orders body with
  | None => m_return tt
  | Some orders =>
      let mismatches := omap (order_mismatch (live_columns_of catalog)) orders in
      m_guard (negb (bool_decide (length mismatches = 0)))
        (Problem (problem 422 "column_order_mismatch" "Custom display order must contain every live table column exactly once"
           [("tables", JList mismatches)]))
  end.

Definition update_workspace_layout (now : Z) (user : string) (access : target_access) (workspace_id : string)
    (body : SchemiiWorkspaceLayoutUpdate) : route SchemiiWorkspace :=
  let* workspace := handling missing_problem (get_workspace user workspace_id) in
  m_guard (negb (bool_decide (wk_revision workspace = wlu_expected_revision body))) (Problem (workspace_conflict (wk_revision workspace))) ;;*
  match wk_connection_id workspace with
  | None => m_raise (Problem (problem 501 "planned_capability" "Local workspace layout requires the planned design repository"
              [("capability", JStr "schemii.local-layout"); ("status", JStr "planned")]))
  | Some _ =>
      match tac_connection access with
      | Err message => m_raise (Problem (connection_not_found message))
      | Ok connection =>
          same_identity user connection workspace ;;*
          m_guard (negb (bool_decide (sc_revision connection = wlu_expected_connection_revision body)))
            (Problem (problem 409 "connection_conflict" "The workspace connection changed before the layout could be saved"
               [("currentRevision", JInt (sc_revision connection))])) ;;*
          same_target connection workspace ;;*
          let* catalog := inspect_workspace access workspace in
          check_layout catalog body ;;*
          handling layout_problem (update_layout now user workspace_id body)
      end
  end.

Definition with_column_orders (orders : list TableColumnDisplayOrder) (w : SchemiiWorkspace) : SchemiiWorkspace :=
  {| wk_id := wk_id w; wk_revision := wk_revision w; wk_name := wk_name w; wk_connection_id := wk_connection_id w;
     wk_connection_owner_id := wk_connection_owner_id w; wk_database := wk_database w; wk_namespace := wk_namespace w;
     wk_tables := wk_tables w; wk_column_orders := orders; wk_import_summary := wk_import_summary w;
     wk_created_at := wk_created_at w; wk_updated_at := wk_updated_at w |}.

Definition get_workspace_catalog (user : string) (access : target_access) (workspace_id : string) : route WorkspaceCatalogResponse :=
  let* workspace := handling missing_problem (get_workspace user workspace_id) in
  match wk_connection_id workspace with
  | None => m_raise (Problem (problem 409 "workspace_target_required"
              "Database catalogs are available only in PostgreSQL-backed workspaces" []))
  | Some _ =>
      match tac_connection access with
      | Err message => m_raise (Problem (connection_not_found message))
      | Ok connection =>
          same_identity user connection workspace ;;*
          same_target connection workspace ;;*
          let* catalog := inspect_workspace access workspace in
          let live := pb_name <$> pg_tables (pg_content catalog) in
          match reconcile_column_orders workspace catalog with
          | None => m_raise UncaughtModel
          | Some orders =>
              m_return {| wcr_response_workspace := with_column_orders orders workspace; wcr_response_catalog := catalog;
                          wcr_response_positions := filter (fun p => tp_name p ∈ live) (wk_tables workspace) |}
          end
      end
  end.
End routes.
