(* ===== verification/WorkspaceProps.v ===== *)
(** * What the workspace repository does

    Each operation of [WorkspaceStore] as one equation or specification, and the invariant
    of the repository. *)

From stdpp Require Import pretty.
From Stdlib Require Import Ascii String Floats.SpecFloat.
From S2P Require Import Prelude Json PyString DesignModels DefinitionAnalysis DesignValidation DeletionImpact DesignDocument DesignStore DesignStoreInv DesignStoreSpec DesignStoreReach MigrationModels MigrationStore Reconcile CatalogModels CatalogImport WorkspaceStore.
Open Scope string_scope.
Open Scope list_scope.

#[local] Arguments fresh_workspace : simpl never.

Section props.
Context `{Pglast} `{Sqlglot} `{Sha256}.
Context {guard : Type} `{!EqDecision guard} {Catalog : Type}.
Variable guard_blocks : guard -> MigrationRepo DesignRepo Catalog -> string -> string -> bool.

Abbreviation World := (workspace_world guard Catalog).
Implicit Types (w : World) (owner ws : string).

(** ** Records *)

Lemma records_of_put owner o records w :
  records_of (put_owner o records w) owner = if decide (owner = o) then records else records_of w owner.
Proof. unfold records_of, put_owner. simpl. rewrite dget_dset. by case_decide. Qed.

Lemma records_of_put_eq owner records w : records_of (put_owner owner records w) owner = records.
Proof. rewrite records_of_put. by rewrite decide_True. Qed.

Lemma put_owner_twice owner records records' w : put_owner owner records (put_owner owner records' w) = put_owner owner records w.
Proof. unfold put_owner, put_records. simpl. by rewrite dset_dset. Qed.

(** The parts of the world an update of one owner's workspaces leaves alone. *)
Lemma put_owner_frame owner records w :
  ww_migrations (put_owner owner records w) = ww_migrations w /\
  wr_max_workspaces_per_owner (ww_workspaces (put_owner owner records w)) = wr_max_workspaces_per_owner (ww_workspaces w) /\
  wr_max_table_positions_per_owner (ww_workspaces (put_owner owner records w)) = wr_max_table_positions_per_owner (ww_workspaces w) /\
  wr_max_column_display_order_entries_per_owner (ww_workspaces (put_owner owner records w)) =
    wr_max_column_display_order_entries_per_owner (ww_workspaces w) /\
  wr_mutation_guards (ww_workspaces (put_owner owner records w)) = wr_mutation_guards (ww_workspaces w).
Proof. done. Qed.

(** ** The operations *)

(** A stored workspace at the expected revision, or the error. *)
Definition at_revision {A} w owner ws (expected : Z) (k : SchemiiWorkspace -> World * result workspace_error A) : World * result workspace_error A :=
  match dget ws (records_of w owner) with
  | None => (w, Err (WorkspaceNotFoundError "Schemii workspace was not found"))
  | Some current =>
      if bool_decide (wk_revision current = expected) then k current else (w, Err (WorkspaceConflictError (wk_revision current)))
  end.

(** The repository with the workspace [ws] of an owner replaced. *)
Definition with_workspace owner ws (updated : SchemiiWorkspace) w : World := put_owner owner (dset ws updated (records_of w owner)) w.

Lemma rename_eq now owner ws request w :
  rename now owner ws request w =
  at_revision w owner ws (wmu_expected_revision request) (fun current =>
    let updated := revised now (wmu_name request) (wk_tables current) (wk_column_orders current) current in
    (with_workspace owner ws updated w, Ok updated)).
Proof.
  unfold rename, record, at_revision, expect_revision, replace_workspace. run_method.
  destruct (dget ws (records_of w owner)) as [current|]; [|done]. by case_bool_decide.
Qed.

Definition layout_orders (current : SchemiiWorkspace) (request : SchemiiWorkspaceLayoutUpdate) : list TableColumnDisplayOrder :=
  from_option id (wk_column_orders current) (wlu_column_orders request).

Lemma update_layout_eq now owner ws request w :
  update_layout now owner ws request w =
  at_revision w owner ws (wlu_expected_revision request) (fun current =>
    let limits := ww_workspaces w in
    let elsewhere := others ws (records_of w owner) in
    if bool_decide (wr_max_table_positions_per_owner limits < total positions_in elsewhere + Z.of_nat (length (wlu_tables request)))%Z
    then (w, Err (WorkspaceLimitError "table position" (wr_max_table_positions_per_owner limits)))
    else if bool_decide (is_Some (wlu_column_orders request)) && bool_decide (wr_max_column_display_order_entries_per_owner limits
              < total entries_in elsewhere + entries_of (layout_orders current request))%Z
    then (w, Err (WorkspaceLimitError "column display order entry" (wr_max_column_display_order_entries_per_owner limits)))
    else let updated := revised now (wk_name current) (wlu_tables request) (layout_orders current request) current in
         (with_workspace owner ws updated w, Ok updated)).
Proof.
  unfold update_layout, record, at_revision, expect_revision, replace_workspace, layout_orders. run_method.
  destruct (dget ws (records_of w owner)) as [current|]; [|done]. case_bool_decide; [|done]. simpl.
  case_bool_decide; [done|]. simpl. destruct (wlu_column_orders request) as [orders|]; [|done]. simpl. by case_bool_decide.
Qed.

(** The repository without the workspace [ws]. *)
Definition without_workspace owner ws w : World := put_owner owner (dpop ws (records_of w owner)) w.

Lemma delete_eq owner ws expected w :
  delete_workspace guard_blocks owner ws expected w =
  at_revision w owner ws expected (fun _ =>
    if mutation_blocked guard_blocks w owner ws then (w, Err (WorkspaceMutationBlockedError "deleted"))
    else let discarded := if wr_has_designs (ww_workspaces w) then
           put_migrations (put_designs (discard_initialization owner ws (mg_designs (ww_migrations w))).1 (ww_migrations w)) w else w in
         (without_workspace owner ws discarded, Ok tt)).
Proof.
  unfold delete_workspace, record, at_revision, expect_revision, remove_workspace, on_designs. run_method.
  destruct (dget ws (records_of w owner)) as [current|]; [|done]. case_bool_decide; [|done]. simpl.
  destruct (mutation_blocked _ w owner ws); [done|]. simpl. by destruct (wr_has_designs (ww_workspaces w)).
Qed.

(** Whether an owner has no room for another workspace. *)
Definition full w owner : bool :=
  bool_decide (wr_max_workspaces_per_owner (ww_workspaces w) <= Z.of_nat (length (records_of w owner)))%Z.

(** [create] without a design, as the route calls it. *)
Lemma create_local_eq now token owner name w :
  let request := {| wcr_name := name; wcr_connection_id := None; wcr_connection_owner_id := None; wcr_database := None; wcr_namespace := None |} in
  let workspace := fresh_workspace now token request None None in
  let ready := put_owner owner (records_of w owner) w in
  create now token owner request None w =
  if full w owner then (ready, Err (WorkspaceLimitError "workspace" (wr_max_workspaces_per_owner (ww_workspaces w))))
  else if SchemiiWorkspace_check workspace then (with_workspace owner (wk_id workspace) workspace w, Ok workspace)
  else (ready, Err WorkspaceModelRefused).
Proof.
  intros request workspace ready. unfold create, ensure_owner, below_workspace_limit, new_workspace, store_workspace. run_method.
  unfold full. rewrite records_of_put_eq. simpl. case_bool_decide; [done|]. simpl. fold request. fold workspace.
  destruct (SchemiiWorkspace_check workspace); [|done]. unfold with_workspace. by rewrite put_owner_twice.
Qed.
(** ** Importing *)

Definition designs_of w : DesignRepo := mg_designs (ww_migrations w).

(** Nothing is stored for a key. *)
Definition untouched (k : design_key) (r : DesignRepo) : Prop :=
  rp_designs r !! k = None /\ rp_layouts r !! k = None /\ rp_history r !! k = None /\ rp_history_state r !! k = None /\
  rp_position_memory r !! k = None.

(** What holds of both worlds apart from the workspaces of [owner] and what is stored for [k]. *)
Record elsewhere_same owner (k : design_key) w w' : Prop := {
  es_records : forall o, o <> owner -> records_of w' o = records_of w o;
  es_limits : wr_max_workspaces_per_owner (ww_workspaces w') = wr_max_workspaces_per_owner (ww_workspaces w) /\
    wr_max_table_positions_per_owner (ww_workspaces w') = wr_max_table_positions_per_owner (ww_workspaces w) /\
    wr_max_column_display_order_entries_per_owner (ww_workspaces w') = wr_max_column_display_order_entries_per_owner (ww_workspaces w);
  es_guards : wr_mutation_guards (ww_workspaces w') = wr_mutation_guards (ww_workspaces w);
  es_designs : local_update k (designs_of w) (designs_of w');
  es_baselines : forall k', k' <> k -> baselines_of (ww_migrations w') k' = baselines_of (ww_migrations w) k';
  es_plans : mg_plans (ww_migrations w') = mg_plans (ww_migrations w);
  es_executions : mg_executions (ww_migrations w') = mg_executions (ww_migrations w) /\
    mg_execution_by_plan (ww_migrations w') = mg_execution_by_plan (ww_migrations w);
}.

(** No reader can tell the worlds apart. *)
Record looks_same owner (k : design_key) w w' : Prop := {
  ls_elsewhere : elsewhere_same owner k w w';
  ls_records : records_of w' owner = records_of w owner;
  ls_designs : same_at (designs_of w) (designs_of w') k;
  ls_baselines : baselines_of (ww_migrations w') k = baselines_of (ww_migrations w) k;
}.

(** A workspace stored with its design and its first baseline. *)
Record imported_as owner (workspace : SchemiiWorkspace) (bootstrap : WorkspaceDesignBootstrap) (baseline : WorkspaceImportBaseline Catalog) w w' : Prop := {
  ia_elsewhere : elsewhere_same owner (owner, wk_id workspace) w w';
  ia_records : records_of w' owner = records_of w owner ++ [(wk_id workspace, workspace)];
  ia_design : initialized (owner, wk_id workspace) (wdb_content bootstrap) (wdb_layout bootstrap) (designs_of w');
  ia_baseline : exists b, baselines_of (ww_migrations w') (owner, wk_id workspace) = [b] /\
    bl_content b = wib_content baseline /\ bl_catalog b = wib_catalog baseline /\ bl_design_revision b = 1%Z /\
    bl_revision b = 1%Z /\ bl_predecessor_id b = None;
}.

Lemma dset_new {V} (key : string) (v : V) (d : list (string * V)) : dget key d = None -> dset key v d = d ++ [(key, v)].
Proof. induction d as [|[k' v'] d IH]; simpl; [done|]. case_decide; [done|]. intros Hd. by rewrite IH. Qed.

Lemma dpop_dset_new {V} (key : string) (v : V) (d : list (string * V)) : dget key d = None -> dpop key (dset key v d) = d.
Proof.
  intros Hd. rewrite dset_new by done. unfold dpop. rewrite filter_app, filter_cons_False, filter_nil, app_nil_r; [|simpl; tauto].
  apply dget_None in Hd. induction d as [|[k' v'] d IH]; [done|]. unfold dkeys in Hd. csimpl in *. apply not_elem_of_cons in Hd as [Hne Hd].
  rewrite filter_cons_True by (simpl; congruence). by rewrite IH.
Qed.

Lemma looks_same_ready owner k w : looks_same owner k w (put_owner owner (records_of w owner) w).
Proof.
  split; [split|..]; try done.
  - intros o Ho. rewrite records_of_put. by rewrite decide_False.
  - by rewrite records_of_put_eq.
Qed.

Lemma records_of_ready owner o w : records_of (put_owner owner (records_of w owner) w) o = records_of w o.
Proof. rewrite records_of_put. case_decide; [by subst|done]. Qed.

Lemma elsewhere_ready owner k w w' : elsewhere_same owner k (put_owner owner (records_of w owner) w) w' -> elsewhere_same owner k w w'.
Proof. intros [Hr Hl Hg Hd Hb Hp He]. split; try done. intros o Ho. rewrite Hr by done. apply records_of_ready. Qed.

(** The world with a workspace stored and its design initialized. *)
Definition begun owner (workspace : SchemiiWorkspace) (d : DesignRepo) w : World :=
  put_migrations (put_designs d (ww_migrations w)) (with_workspace owner (wk_id workspace) workspace w).

Lemma store_import_eq now baseline_token owner connection_id database namespace connection_owner workspace bootstrap baseline w :
  store_import now baseline_token owner connection_id database namespace connection_owner workspace bootstrap baseline w =
  let '(d, r) := initialize now owner (wk_id workspace) (wdb_content bootstrap) (wdb_layout bootstrap) (designs_of w) in
  match r with
  | Err e => (without_workspace owner (wk_id workspace) (begun owner workspace d w), Err (WorkspaceDesignError e))
  | Ok _ =>
      let '(s, b) := create_import_baseline now baseline_token false owner (wk_id workspace) connection_id (Some connection_owner)
        database namespace baseline (put_designs d (ww_migrations w)) in
      match b with
      | Ok _ => (put_migrations s (begun owner workspace d w), Ok workspace)
      | Err e =>
          let back := without_workspace owner (wk_id workspace) (put_migrations s (begun owner workspace d w)) in
          (put_migrations (put_designs (discard_initialization owner (wk_id workspace) (designs_of back)).1 (ww_migrations back)) back,
           Err (WorkspaceMigrationError e))
      end
  end.
Proof.
  unfold store_import, begun, designs_of. unfold m_bind at 1, store_workspace, m_update. unfold m_bind at 1, m_except, on_designs.
  unfold m_bind at 1. simpl mg_designs.
  destruct (initialize now owner (wk_id workspace) (wdb_content bootstrap) (wdb_layout bootstrap) _) as [d [a|e]]; [|done].
  cbn [m_return]. unfold m_bind at 1, on_migrations. unfold m_bind at 1. simpl ww_migrations.
  by destruct (create_import_baseline _ _ _ _ _ _ _ _ _ _ _) as [s [b|e]].
Qed.

(** A first baseline is never refused. *)
Lemma first_baseline now baseline_token owner ws connection_id connection_owner database namespace (baseline : WorkspaceImportBaseline Catalog)
    (s : MigrationRepo DesignRepo Catalog) :
  baselines_of s (owner, ws) = [] ->
  exists b s', create_import_baseline now baseline_token false owner ws connection_id connection_owner database namespace baseline s = (s', Ok b) /\
    s' = put_baselines (<[(owner, ws) := [b]]> (mg_baselines s)) s /\
    bl_content b = wib_content baseline /\ bl_catalog b = wib_catalog baseline /\ bl_design_revision b = 1%Z /\
    bl_revision b = 1%Z /\ bl_predecessor_id b = None.
Proof.
  intros Hb. unfold create_import_baseline, create_baseline. run_method. rewrite Hb. simpl.
  eexists _, _. split; [done|]. split; [|done]. unfold put_baselines. simpl. by rewrite insert_insert_eq.
Qed.

(** A design that cannot be initialized, or all the stores of an import. *)
Lemma store_import_spec now baseline_token owner connection_id database namespace connection_owner workspace bootstrap baseline w :
  let k := (owner, wk_id workspace) in
  let out := store_import now baseline_token owner connection_id database namespace connection_owner workspace bootstrap baseline w in
  repo_inv (designs_of w) -> SchemiiDesignContent_check (wdb_content bootstrap) = true -> SchemiiDesignLayoutContent_check (wdb_layout bootstrap) = true ->
  dget (wk_id workspace) (records_of w owner) = None -> untouched k (designs_of w) -> baselines_of (ww_migrations w) k = [] ->
  repo_inv (designs_of out.1) /\
  match out.2 with
  | Ok got => got = workspace /\ imported_as owner workspace bootstrap baseline w out.1
  | Err e => (exists e', e = WorkspaceDesignError e') /\ looks_same owner k w out.1
  end /\
  (validate_design_content (wdb_content bootstrap) = Ok tt ->
   Forall (fun p => position_allowed (wdb_content bootstrap) p = true) (layout_objects (wdb_layout bootstrap)) -> out.2 = Ok workspace).
Proof.
  intros k out Hinv Hcontent Hlayout Hfresh (Hd & Hl & Hh & Hs & Hm) Hbase.
  destruct (initialize_spec now (designs_of w) owner (wk_id workspace) _ _ Hinv Hcontent Hlayout) as (Hinv' & Hlocal & Hcase). fold k in Hlocal, Hcase.
  unfold out. rewrite store_import_eq. clear out.
  destruct (initialize now owner (wk_id workspace) (wdb_content bootstrap) (wdb_layout bootstrap) (designs_of w)) as [d r] eqn:Hrun. cbn [fst snd] in *.
  assert ((exists e, d = designs_of w /\ r = Err e /\ ~ (validate_design_content (wdb_content bootstrap) = Ok tt /\
      Forall (fun p => position_allowed (wdb_content bootstrap) p = true) (layout_objects (wdb_layout bootstrap)))) \/
    (exists a, r = Ok a /\ initialized k (wdb_content bootstrap) (wdb_layout bootstrap) d)) as [(e & -> & -> & Hno)|(a & -> & Hini)].
  { destruct (validate_design_content (wdb_content bootstrap)) as [[]|e]; [|left; exists e; injection Hcase as -> ->; naive_solver].
    destruct (decide (Forall _ _)) as [Hall|Hnone].
    - rewrite Hd in Hcase. destruct Hcase as [Hini ->]. right. eauto.
    - destruct Hcase as [-> [details ->]]. left. eexists. naive_solver. }
  - cbn [fst snd]. split; [done|]. split; [|intros ? ?; by destruct Hno]. split; [eauto|].
    unfold without_workspace, begun, with_workspace. split; [split|..]; try done.
    + intros o Ho. rewrite !records_of_put, decide_False by done. unfold records_of. simpl. by rewrite dget_dset_ne.
    + rewrite records_of_put_eq. unfold records_of at 1. simpl. rewrite dget_dset_eq. by apply dpop_dset_new.
  - destruct (first_baseline now baseline_token owner (wk_id workspace) connection_id (Some connection_owner) database namespace baseline
      (put_designs d (ww_migrations w))) as (b & s' & -> & -> & Hb); [done|].
    cbn [fst snd]. split; [done|]. split; [|done]. split; [done|]. unfold begun, with_workspace. split; [split|..]; try done.
    + intros o Ho. unfold records_of. simpl. by rewrite dget_dset_ne.
    + intros k' Hk'. unfold baselines_of. simpl. by rewrite lookup_insert_ne.
    + unfold records_of at 1. simpl. rewrite dget_dset_eq. by apply dset_new.
    + exists b. unfold baselines_of. simpl. by rewrite lookup_insert_eq.
Qed.

Section importing.
Variables (now : Z) (token baseline_token owner : string) (request : WorkspaceCreateRecord).
Variables (bootstrap : WorkspaceDesignBootstrap) (baseline : WorkspaceImportBaseline Catalog).
Variables (connection_id database namespace : string).
Hypothesis Hconnection : wcr_connection_id request = Some connection_id.
Hypothesis Hdatabase : wcr_database request = Some database.
Hypothesis Hnamespace : wcr_namespace request = Some namespace.

Let workspace := fresh_workspace now token request (Some (or_else (wcr_connection_owner_id request) owner)) (Some (wdb_import_summary bootstrap)).
Let k : design_key := (owner, wk_id workspace).

(** The errors raised before anything is stored. *)
Definition import_refused w : option workspace_error :=
  if negb (wr_has_designs (ww_workspaces w)) then Some (WorkspaceStorageUnavailableError "Imported workspace persistence is not configured")
  else match List.find (has_target connection_id database namespace) (snd <$> records_of w owner) with
  | Some existing => Some (WorkspaceTargetExistsError existing)
  | None =>
      if full w owner then Some (WorkspaceLimitError "workspace" (wr_max_workspaces_per_owner (ww_workspaces w)))
      else if SchemiiWorkspace_check workspace then None else Some WorkspaceModelRefused
  end.

Lemma create_import_eq w :
  let ready := put_owner owner (records_of w owner) w in
  create_import now token baseline_token owner request bootstrap baseline w =
  match import_refused w with
  | Some e => (if wr_has_designs (ww_workspaces w) then ready else w, Err e)
  | None => store_import now baseline_token owner connection_id database namespace (or_else (wcr_connection_owner_id request) owner)
              workspace bootstrap baseline ready
  end.
Proof.
  intros ready. unfold import_refused, create_import. rewrite Hconnection, Hdatabase, Hnamespace. unfold m_bind at 1, m_get, m_guard, m_lift, guard_err.
  unfold m_bind at 1. destruct (wr_has_designs (ww_workspaces w)); [|done]. simpl negb. cbv iota.
  unfold m_bind at 1, ensure_owner, m_update. unfold m_bind at 1, find_by_target. fold ready. unfold m_bind at 1, m_get, m_return.
  replace (records_of ready owner) with (records_of w owner) by (symmetry; apply records_of_put_eq).
  unfold m_bind at 1. destruct (List.find _ _) as [existing|]; [done|].
  unfold m_bind at 1, below_workspace_limit, m_bind at 1, m_get, m_guard, m_lift, guard_err, full.
  replace (records_of ready owner) with (records_of w owner) by (symmetry; apply records_of_put_eq). simpl wr_max_workspaces_per_owner.
  case_bool_decide; [done|]. unfold m_bind at 1, new_workspace, m_lift. fold workspace. by destruct (SchemiiWorkspace_check workspace).
Qed.

Lemma create_import_spec w :
  repo_inv (designs_of w) -> SchemiiDesignContent_check (wdb_content bootstrap) = true -> SchemiiDesignLayoutContent_check (wdb_layout bootstrap) = true ->
  dget (wk_id workspace) (records_of w owner) = None -> untouched k (designs_of w) -> baselines_of (ww_migrations w) k = [] ->
  let out := create_import now token baseline_token owner request bootstrap baseline w in
  repo_inv (designs_of out.1) /\
  match out.2 with
  | Ok got => got = workspace /\ imported_as owner workspace bootstrap baseline w out.1
  | Err _ => looks_same owner k w out.1
  end /\
  (import_refused w = None -> validate_design_content (wdb_content bootstrap) = Ok tt ->
   Forall (fun p => position_allowed (wdb_content bootstrap) p = true) (layout_objects (wdb_layout bootstrap)) -> out.2 = Ok workspace) /\
  (forall e, import_refused w = Some e -> out.2 = Err e).
Proof.
  intros Hinv Hcontent Hlayout Hfresh Huntouched Hbase out. unfold out. rewrite create_import_eq. destruct (import_refused w) as [e|].
  { cbn [fst snd]. split_and!; [by destruct (wr_has_designs _)| |done|by intros ? [= ->]].
    destruct (wr_has_designs _); [apply looks_same_ready|]. split; [split|..]; done. }
  rewrite <-(records_of_ready owner) in Hfresh.
  destruct (store_import_spec now baseline_token owner connection_id database namespace (or_else (wcr_connection_owner_id request) owner)
    workspace bootstrap baseline (put_owner owner (records_of w owner) w)) as (Hinv' & Hcase & Hok); [done..|].
  split_and!; [done| |by auto|done]. destruct (_.2) as [got|e].
  - destruct Hcase as [-> [He Hr Hd Hb]]. split; [done|]. split; [by apply elsewhere_ready|by rewrite Hr, records_of_ready|done..].
  - destruct Hcase as [_ [He Hr Hd Hb]]. split; [by apply elsewhere_ready|by rewrite Hr, records_of_ready|done..].
Qed.

(** What an import does to the workspaces, whatever the other repositories answer. *)
Lemma create_import_records w :
  dget (wk_id workspace) (records_of w owner) = None ->
  let out := create_import now token baseline_token owner request bootstrap baseline w in
  (forall o, records_of out.1 o = records_of w o) \/
  (import_refused w = None /\ records_of out.1 owner = records_of w owner ++ [(wk_id workspace, workspace)] /\
   forall o, o <> owner -> records_of out.1 o = records_of w o).
Proof.
  intros Hfresh out. unfold out. rewrite create_import_eq. destruct (import_refused w) as [e|] eqn:Hr.
  { left. intros o. destruct (wr_has_designs _); [apply records_of_ready|done]. }
  assert (forall s o, records_of (without_workspace owner (wk_id workspace) (put_migrations s
    (with_workspace owner (wk_id workspace) workspace (put_owner owner (records_of w owner) w)))) o = records_of w o) as Hback.
  { intros s o. unfold without_workspace, with_workspace. rewrite records_of_put. case_decide; [subst o|].
    - unfold records_of at 1. simpl. rewrite dget_dset_eq, records_of_put_eq. by apply dpop_dset_new.
    - unfold records_of at 1. simpl. rewrite !dget_dset_ne by done. done. }
  rewrite store_import_eq. destruct (initialize _ _ _ _ _ _) as [d [a|e]]; [|left; intros o; apply Hback].
  destruct (create_import_baseline _ _ _ _ _ _ _ _ _ _ _) as [s [b|e]]; [right|left; intros o; apply Hback].
  split; [done|]. unfold begun, with_workspace. split.
  - unfold records_of at 1. simpl. by rewrite dget_dset_eq, records_of_put_eq, dset_new.
  - intros o Ho. unfold records_of at 1. simpl. by rewrite !dget_dset_ne.
Qed.
End importing.
End props.
