(* ===== verification/WorkspaceTheorems.v ===== *)
(** * Workspaces

    The invariant of the workspace repository over its runs, and what its operations and
    routes promise. *)

From stdpp Require Import pretty.
From Stdlib Require Import Ascii String Floats.SpecFloat.
From S2P Require Import Prelude Json PyString DesignModels DefinitionAnalysis DesignValidation DeletionImpact DesignDocument DesignDecode DesignStore DesignStoreInv DesignStoreSpec DesignStoreReach MigrationModels MigrationStore CheckExpressions Reconcile ValidationSpec MigrationReview SchemaSource CatalogModels CatalogImport ImportProps ImportTheorems WorkspaceStore WorkspaceRoutes WorkspaceProps.
Open Scope string_scope.
Open Scope list_scope.

(** ** Measures *)

Lemma total_app measure a b : total measure (a ++ b) = (total measure a + total measure b)%Z.
Proof. unfold total. rewrite fmap_app, foldr_app. induction a as [|x a IH]; csimpl; [done|]. rewrite IH. lia. Qed.

Lemma others_none id records : id ∉ dkeys records -> others id records = records.
Proof.
  unfold others, dkeys. induction records as [|[k v] records IH]; [done|]. csimpl. intros [Hne Hr]%not_elem_of_cons.
  rewrite filter_cons_True by (simpl; congruence). by rewrite IH.
Qed.

Lemma total_split measure id ws records :
  dwf records -> dget id records = Some ws -> total measure records = (total measure (others id records) + measure ws)%Z.
Proof.
  unfold dwf, dkeys. induction records as [|[k v] records IH]; [done|]. csimpl. intros [Hk Hwf]%NoDup_cons. unfold others. case_decide as Hid.
  - intros [= ->]. subst. rewrite filter_cons_False by (simpl; tauto). fold (others k records). rewrite others_none by done. unfold total. csimpl. lia.
  - intros Hget. rewrite filter_cons_True by (simpl; congruence). fold (others id records). unfold total in *. csimpl. rewrite IH by done. lia.
Qed.

Lemma others_dset id ws records : others id (dset id ws records) = others id records.
Proof.
  unfold others. induction records as [|[k v] records IH]; simpl; [by rewrite filter_cons_False by (simpl; tauto)|]. case_decide as Hid.
  - subst. by rewrite !filter_cons_False by (simpl; tauto).
  - by rewrite !filter_cons_True, IH by (simpl; congruence).
Qed.

Lemma length_dset_old {V} (id : string) (v : V) records : is_Some (dget id records) -> length (dset id v records) = length records.
Proof. intros Hid%dget_is_Some. rewrite <-!(length_fmap fst). change (fst <$> ?d) with (dkeys d). by rewrite dkeys_dset_old. Qed.

Lemma total_nonneg measure records : (forall x, 0 <= measure x)%Z -> (0 <= total measure records)%Z.
Proof. intros Hm. unfold total. induction records as [|[k v] records IH]; csimpl; [lia|]. specialize (Hm v). lia. Qed.

Lemma total_others measure id records : (forall x, 0 <= measure x)%Z -> (total measure (others id records) <= total measure records)%Z.
Proof.
  intros Hm. unfold others. induction records as [|[k v] records IH]; [done|].
  destruct (decide (k = id)) as [->|Hne]; [rewrite filter_cons_False by (simpl; tauto)|rewrite filter_cons_True by (simpl; congruence)].
  - unfold total in *. csimpl. specialize (Hm v). lia.
  - unfold total in *. csimpl. lia.
Qed.

Section theorems.
Context `{Pglast} `{Sqlglot} `{Sha256}.
Context {guard : Type} `{!EqDecision guard} {Catalog : Type}.
Variable guard_blocks : guard -> MigrationRepo DesignRepo Catalog -> string -> string -> bool.

Abbreviation World := (workspace_world guard Catalog).
Implicit Types (w : World) (owner ws : string).

(** ** The invariant *)

(** The workspaces of one owner: each under its own ID, each a model, within the limits and
    with targets of their own. *)
Record records_ok (limits : WorkspaceRepo guard) (records : owner_workspaces) : Prop := {
  ro_wf : dwf records;
  ro_valid : forall id x, dget id records = Some x -> wk_id x = id /\ SchemiiWorkspace_check x = true;
  ro_count : (Z.of_nat (length records) <= wr_max_workspaces_per_owner limits)%Z;
  ro_positions : (total positions_in records <= wr_max_table_positions_per_owner limits)%Z;
  ro_entries : (total entries_in records <= wr_max_column_display_order_entries_per_owner limits)%Z;
  ro_targets : forall c d n i j x y, dget i records = Some x -> dget j records = Some y ->
    has_target c d n x = true -> has_target c d n y = true -> i = j;
}.

Definition workspace_inv w : Prop := forall owner, records_ok (ww_workspaces w) (records_of w owner).

(** The limits two worlds share. *)
Definition same_limits (a b : WorkspaceRepo guard) : Prop :=
  wr_max_workspaces_per_owner b = wr_max_workspaces_per_owner a /\
  wr_max_table_positions_per_owner b = wr_max_table_positions_per_owner a /\
  wr_max_column_display_order_entries_per_owner b = wr_max_column_display_order_entries_per_owner a.

Lemma records_ok_limits a b records : same_limits a b -> records_ok a records -> records_ok b records.
Proof. intros (Hw & Hp & He) [? ? ? ? ? ?]. split; rewrite ?Hw, ?Hp, ?He; done. Qed.

Lemma workspace_inv_records w w' :
  same_limits (ww_workspaces w) (ww_workspaces w') -> (forall o, records_of w' o = records_of w o) -> workspace_inv w -> workspace_inv w'.
Proof. intros Hl Hr Hinv o. rewrite Hr. by eapply records_ok_limits, Hinv. Qed.

Lemma workspace_inv_put owner records w :
  workspace_inv w -> records_ok (ww_workspaces w) records -> workspace_inv (put_owner owner records w).
Proof.
  intros Hinv Hok o. apply (records_ok_limits (ww_workspaces w)); [done|]. rewrite records_of_put. case_decide; [done|apply Hinv].
Qed.

(** A replacement of one workspace. *)
Lemma records_ok_replace limits records id old new :
  records_ok limits records -> dget id records = Some old ->
  wk_id new = wk_id old -> SchemiiWorkspace_check new = true ->
  (forall c d n, has_target c d n new = has_target c d n old) ->
  (total positions_in (others id records) + positions_in new <= wr_max_table_positions_per_owner limits)%Z ->
  (total entries_in (others id records) + entries_in new <= wr_max_column_display_order_entries_per_owner limits)%Z ->
  records_ok limits (dset id new records).
Proof.
  intros [Hwf Hvalid Hcount Hpos Hent Htargets] Hget Hid Hcheck Hsame Hp He.
  assert (dwf (dset id new records)) as Hwf' by by apply dset_wf. split; try done.
  - intros i x. rewrite dget_dset. case_decide; [|by apply Hvalid]. intros [= <-]. subst. split; [|done]. rewrite Hid. by apply Hvalid.
  - by rewrite length_dset_old by eauto.
  - rewrite (total_split _ id new), others_dset by (done || apply dget_dset_eq). done.
  - rewrite (total_split _ id new), others_dset by (done || apply dget_dset_eq). done.
  - intros c d n i j x y. rewrite !dget_dset. repeat case_decide; subst; try by apply Htargets.
    all: try done. all: intros; simplify_eq; rewrite ?Hsame in *; by eapply Htargets.
Qed.

(** A new workspace without positions. *)
Lemma records_ok_append limits records new :
  records_ok limits records -> dget (wk_id new) records = None -> SchemiiWorkspace_check new = true ->
  (Z.of_nat (length records) < wr_max_workspaces_per_owner limits)%Z -> wk_tables new = [] -> wk_column_orders new = [] ->
  (forall c d n i x, dget i records = Some x -> has_target c d n new = true -> has_target c d n x = false) ->
  records_ok limits (records ++ [(wk_id new, new)]).
Proof.
  intros [Hwf Hvalid Hcount Hpos Hent Htargets] Hfresh Hcheck Hroom Ht Ho Hown.
  assert (records ++ [(wk_id new, new)] = dset (wk_id new) new records) as Heq by (symmetry; by apply dset_new).
  split.
  - rewrite Heq. by apply dset_wf.
  - intros i x. rewrite Heq, dget_dset. case_decide; [by intros [= <-]|]. apply Hvalid.
  - rewrite length_app. simpl. lia.
  - rewrite total_app. replace (total positions_in [_]) with 0%Z; [lia|]. unfold total, positions_in. csimpl. by rewrite Ht.
  - rewrite total_app. replace (total entries_in [_]) with 0%Z; [lia|]. unfold total, entries_in. csimpl. by rewrite Ho.
  - intros c d n i j x y. rewrite Heq, !dget_dset. repeat case_decide; subst; try by apply Htargets.
    all: try done. all: intros; simplify_eq.
    + rewrite (Hown c d n j y) in *; done.
    + rewrite (Hown c d n i x) in *; done.
Qed.

Lemma records_ok_remove limits records id : records_ok limits records -> records_ok limits (dpop id records).
Proof.
  intros [Hwf Hvalid Hcount Hpos Hent Htargets]. split.
  - by apply dpop_wf.
  - intros i x. rewrite dget_dpop. case_decide; [done|]. apply Hvalid.
  - unfold dpop. pose proof (length_filter (fun kv => kv.1 <> id) records). lia.
  - change (dpop id records) with (others id records). etransitivity; [apply total_others|done]. intros. unfold positions_in. lia.
  - change (dpop id records) with (others id records). etransitivity; [apply total_others|done]. intros. unfold entries_in, entries_of. lia.
  - intros c d n i j x y. rewrite !dget_dpop. repeat case_decide; [done..|]. apply Htargets.
Qed.

(** ** Steps *)

(** What the clock and the random tokens give. *)
Definition not_before (now : Z) w : Prop := forall owner id x, dget id (records_of w owner) = Some x -> (wk_updated_at x <= now)%Z.
Definition fresh_token (token : string) w : Prop := forall owner, dget ("ws_" ++ token)%string (records_of w owner) = None.

(** One call of the repository, or a change of the other repositories.  Requests are models
    that were validated; [create] is called as the route calls it. *)
Inductive workspace_step w : World -> Prop :=
| step_create now token owner name :
    not_before now w -> fresh_token token w ->
    workspace_step w (create now token owner {| wcr_name := name; wcr_connection_id := None; wcr_connection_owner_id := None;
      wcr_database := None; wcr_namespace := None |} None w).1
| step_import now token baseline_token owner request bootstrap baseline :
    not_before now w -> fresh_token token w ->
    workspace_step w (create_import now token baseline_token owner request bootstrap baseline w).1
| step_rename now owner ws request :
    not_before now w -> WorkspaceName (wmu_name request) = true ->
    workspace_step w (rename now owner ws request w).1
| step_layout now owner ws request :
    not_before now w -> SchemiiWorkspaceLayoutUpdate_check request = true ->
    workspace_step w (update_layout now owner ws request w).1
| step_delete owner ws expected : workspace_step w (delete_workspace guard_blocks owner ws expected w).1
| step_set_guard g : workspace_step w (set_mutation_guard g w).1
| step_add_guard g : workspace_step w (add_mutation_guard g w).1
| step_elsewhere migrations : workspace_step w (put_migrations migrations w).

Lemma check_revised now name tables orders x :
  SchemiiWorkspace_check x = true -> WorkspaceName name = true -> NoDup (tp_name <$> tables) -> NoDup (tco_name <$> orders) ->
  (wk_updated_at x <= now)%Z -> SchemiiWorkspace_check (revised now name tables orders x) = true.
Proof.
  unfold SchemiiWorkspace_check. rewrite !andb_true_iff, !bool_decide_eq_true. simpl.
  intros (((((((Hid & Hrev) & _) & Htarget) & Htime) & _) & _) & Hsummary) Hname Ht Ho Hnow. split_and!; try done; lia.
Qed.

Lemma check_parts x :
  SchemiiWorkspace_check x = true -> WorkspaceName (wk_name x) = true /\ NoDup (tp_name <$> wk_tables x) /\ NoDup (tco_name <$> wk_column_orders x).
Proof. unfold SchemiiWorkspace_check. rewrite !andb_true_iff, !bool_decide_eq_true. naive_solver. Qed.

Lemma with_workspace_inv now owner ws name tables orders current w :
  workspace_inv w -> not_before now w -> dget ws (records_of w owner) = Some current -> WorkspaceName name = true ->
  NoDup (tp_name <$> tables) -> NoDup (tco_name <$> orders) ->
  (total positions_in (others ws (records_of w owner)) + Z.of_nat (length tables) <= wr_max_table_positions_per_owner (ww_workspaces w))%Z ->
  (total entries_in (others ws (records_of w owner)) + entries_of orders <= wr_max_column_display_order_entries_per_owner (ww_workspaces w))%Z ->
  workspace_inv (with_workspace owner ws (revised now name tables orders current) w).
Proof.
  intros Hinv Hnow Hget Hname Ht Ho Hp He. apply workspace_inv_put; [done|]. destruct (ro_valid _ _ (Hinv owner) _ _ Hget) as [_ Hcheck].
  apply (records_ok_replace _ _ _ current); [apply Hinv|done|done| |done|done|done]. apply check_revised; try done. by eapply Hnow.
Qed.

Lemma old_measures owner ws current w :
  workspace_inv w -> dget ws (records_of w owner) = Some current ->
  (total positions_in (others ws (records_of w owner)) + positions_in current <= wr_max_table_positions_per_owner (ww_workspaces w))%Z /\
  (total entries_in (others ws (records_of w owner)) + entries_in current <= wr_max_column_display_order_entries_per_owner (ww_workspaces w))%Z.
Proof.
  intros Hinv Hget. pose proof (Hinv owner) as Hok. pose proof (ro_wf _ _ Hok) as Hwf.
  split; rewrite <-(total_split _ ws current) by done; apply Hok.
Qed.

Lemma create_import_limits now token baseline_token owner request bootstrap baseline c d n w :
  wcr_connection_id request = Some c -> wcr_database request = Some d -> wcr_namespace request = Some n ->
  same_limits (ww_workspaces w) (ww_workspaces (create_import now token baseline_token owner request bootstrap baseline w).1).
Proof.
  intros Hc Hd Hn. rewrite (create_import_eq _ _ _ _ _ _ _ c d n) by done. destruct (import_refused _ _ _ _ _ _ _ _ _); [by destruct (wr_has_designs _)|].
  rewrite store_import_eq. destruct (initialize _ _ _ _ _ _) as [designs [a|e]]; [|done].
  by destruct (create_import_baseline _ _ _ _ _ _ _ _ _ _ _) as [s [b|e]].
Qed.

(** An import leaves the workspaces alone or appends one. *)
Lemma create_import_effect now token baseline_token owner request bootstrap baseline w :
  fresh_token token w ->
  let w' := (create_import now token baseline_token owner request bootstrap baseline w).1 in
  same_limits (ww_workspaces w) (ww_workspaces w') /\
  ((forall o, records_of w' o = records_of w o) \/
   exists c d n x, wcr_connection_id request = Some c /\ wcr_database request = Some d /\ wcr_namespace request = Some n /\
     x = fresh_workspace now token request (Some (or_else (wcr_connection_owner_id request) owner)) (Some (wdb_import_summary bootstrap)) /\
     import_refused now token owner request bootstrap c d n w = None /\
     records_of w' owner = records_of w owner ++ [(wk_id x, x)] /\ forall o, o <> owner -> records_of w' o = records_of w o).
Proof.
  intros Hfresh. destruct (wcr_connection_id request) as [c|] eqn:Hc; [|unfold create_import; rewrite Hc; split; [done|by left]].
  destruct (wcr_database request) as [d|] eqn:Hd; [|unfold create_import; rewrite Hc, Hd; split; [done|by left]].
  destruct (wcr_namespace request) as [n|] eqn:Hn; [|unfold create_import; rewrite Hc, Hd, Hn; split; [done|by left]].
  split; [by eapply create_import_limits|].
  destruct (create_import_records now token baseline_token owner request bootstrap baseline c d n Hc Hd Hn w (Hfresh owner)) as [Hsame|(Hr & Hown & Hsame)];
    [by left|right]. exists c, d, n. eexists. split_and!; done.
Qed.

Lemma create_import_inv now token baseline_token owner request bootstrap baseline w :
  workspace_inv w -> fresh_token token w -> workspace_inv (create_import now token baseline_token owner request bootstrap baseline w).1.
Proof.
  intros Hinv Hfresh.
  destruct (create_import_effect now token baseline_token owner request bootstrap baseline w Hfresh)
    as [Hl [Hsame|(c & d & n & new & Hc & Hd & Hn & Hnew & Hr & Hown & Hsame)]].
  { by apply (workspace_inv_records w). }
  intros o. apply (records_ok_limits _ _ _ Hl). destruct (decide (o = owner)) as [->|Hne]; [|rewrite Hsame by done; apply Hinv]. rewrite Hown.
  unfold import_refused in Hr. rewrite <-Hnew in Hr. destruct (wr_has_designs _); [|done]. simpl in Hr. destruct (List.find _ _) eqn:Hfind; [done|].
  unfold full in Hr. case_bool_decide as Hfull; [done|]. destruct (SchemiiWorkspace_check new) eqn:Hcheck; [|done]. subst new.
  apply records_ok_append; [apply Hinv|apply Hfresh|done|lia|done|done|].
  intros c' d' n' i x Hx Ht. unfold has_target, fresh_workspace in Ht. simpl in Ht. rewrite Hc, Hd, Hn in Ht.
  rewrite !andb_true_iff, !bool_decide_eq_true in Ht. destruct Ht as [[[= <-] [= <-]] [= <-]].
  eapply List.find_none; [exact Hfind|]. apply list_elem_of_In, list_elem_of_fmap. exists (i, x). split; [done|]. by apply dget_Some_elem.
Qed.

Lemma workspace_step_inv w w' : workspace_step w w' -> workspace_inv w -> workspace_inv w'.
Proof.
  intros [now token owner name Hnow Hfresh|now token btoken owner request bootstrap baseline Hnow Hfresh|now owner ws request Hnow Hname
         |now owner ws request Hnow Hreq|owner ws expected|g|g|m] Hinv.
  - rewrite create_local_eq. assert (workspace_inv (put_owner owner (records_of w owner) w)) as Hready by (by apply workspace_inv_put).
    unfold full. case_bool_decide as Hfull; [done|]. destruct (SchemiiWorkspace_check _) eqn:Hcheck; [|done].
    apply workspace_inv_put; [done|]. rewrite dset_new by apply Hfresh. apply records_ok_append; [apply Hinv|apply Hfresh|done|lia|done|done|done].
  - by apply create_import_inv.
  - rewrite rename_eq. unfold at_revision. destruct (dget ws (records_of w owner)) as [current|] eqn:Hget; [|done]. case_bool_decide; [|done].
    destruct (ro_valid _ _ (Hinv owner) _ _ Hget) as [_ Hcheck]. apply check_parts in Hcheck as (_ & Ht & Ho).
    destruct (old_measures _ _ _ _ Hinv Hget) as [Hp He]. by apply with_workspace_inv.
  - rewrite update_layout_eq. unfold at_revision. destruct (dget ws (records_of w owner)) as [current|] eqn:Hget; [|done]. case_bool_decide; [|done].
    case_bool_decide as Hp; [done|]. destruct (bool_decide _ && _) eqn:He; [done|].
    destruct (ro_valid _ _ (Hinv owner) _ _ Hget) as [_ Hcheck]. apply check_parts in Hcheck as (Hname & Ht & Ho).
    destruct (old_measures _ _ _ _ Hinv Hget) as [_ He']. unfold SchemiiWorkspaceLayoutUpdate_check in Hreq.
    rewrite !andb_true_iff, !bool_decide_eq_true in Hreq. destruct Hreq as (((((_ & _) & _) & _) & Hnt) & Hno).
    apply with_workspace_inv; try done; [|lia|]; unfold layout_orders in *; destruct (wlu_column_orders request) as [orders|]; simpl in *; try done.
    + by apply bool_decide_eq_true in Hno.
    + apply bool_decide_eq_false in He. lia.
  - rewrite delete_eq. unfold at_revision. destruct (dget ws (records_of w owner)) as [current|] eqn:Hget; [|done]. case_bool_decide; [|done].
    destruct (mutation_blocked _ _ _ _); [done|]. assert (forall b m, workspace_inv (if b : bool then put_migrations m w else w)) as Hany by (by intros [] ?).
    apply workspace_inv_put; [apply Hany|]. apply records_ok_remove, Hany.
  - by apply (workspace_inv_records w).
  - unfold add_mutation_guard. run_method. case_bool_decide; [done|]. by apply (workspace_inv_records w).
  - exact Hinv.
Qed.

(** In every run the workspaces of every owner stay consistent and bounded. Whatever calls the repository serves from
    its start, each workspace is stored under its own ID and passes its model, no owner has more workspaces, table
    positions or column-order entries than the limits allow, and no two workspaces of an owner have the same PostgreSQL
    target. *)
Theorem workspaces_stay_bounded max_workspaces max_positions max_entries has_designs repository w w' :
  InMemoryWorkspaceRepository max_workspaces max_positions max_entries has_designs = Some repository ->
  ww_workspaces w = repository -> rtc workspace_step w w' -> workspace_inv w'.
Proof.
  unfold InMemoryWorkspaceRepository. destruct (bool_decide (max_workspaces < 1)%Z || _ || _) eqn:Hb; [done|]. intros [= <-] Hw Hrun.
  rewrite !orb_false_iff, !bool_decide_eq_false in Hb. assert (workspace_inv w) as Hinv.
  { intros o. unfold records_of. rewrite Hw. simpl. split; simpl; try done; [constructor|unfold total; simpl; lia..]. }
  clear Hw. induction Hrun as [|w w1 w' Hstep _ IH]; [done|]. by apply IH, (workspace_step_inv w).
Qed.

(** ** Revisions *)

(** A workspace after some calls: the same, or a later revision with the same identity. *)
Definition later_revision (x y : SchemiiWorkspace) : Prop :=
  y = x \/ (wk_revision x < wk_revision y)%Z.
Definition kept_identity (x y : SchemiiWorkspace) : Prop :=
  wk_id y = wk_id x /\ wk_connection_id y = wk_connection_id x /\ wk_connection_owner_id y = wk_connection_owner_id x /\
  wk_database y = wk_database x /\ wk_namespace y = wk_namespace x /\ wk_import_summary y = wk_import_summary x /\
  wk_created_at y = wk_created_at x.

Lemma unrevised (x y : SchemiiWorkspace) : Some x = Some y -> later_revision x y /\ kept_identity x y.
Proof. intros [= ->]. split; [by left|done]. Qed.

Ltac unrevised := simpl; intros; apply unrevised; congruence.

Lemma kept_or_revised now name tables orders owner ws x w o id y :
  dget ws (records_of w owner) = Some x ->
  dget id (records_of (with_workspace owner ws (revised now name tables orders x) w) o) = Some y ->
  forall z, dget id (records_of w o) = Some z -> later_revision z y /\ kept_identity z y.
Proof.
  intros Hx Hy z Hz. unfold with_workspace in Hy. rewrite records_of_put in Hy. case_decide; subst; [|apply unrevised; congruence].
  rewrite dget_dset in Hy. case_decide; subst; [|apply unrevised; congruence].
  simplify_eq. split; [right; simpl; lia|done].
Qed.

Lemma step_revision w w' owner ws x y :
  workspace_step w w' -> dget ws (records_of w owner) = Some x -> dget ws (records_of w' owner) = Some y ->
  later_revision x y /\ kept_identity x y.
Proof.
  intros [now token o name Hnow Hfresh|now token btoken o request bootstrap baseline Hnow Hfresh|now o id request Hnow Hname
         |now o id request Hnow Hreq|o id expected|g|g|m] Hx.
  - rewrite create_local_eq. destruct (full w o); [|destruct (SchemiiWorkspace_check _)]; simpl.
    + rewrite records_of_ready. intros Hy. apply unrevised. congruence.
    + unfold with_workspace. rewrite records_of_put. case_decide; [subst|intros Hy; apply unrevised; congruence].
      rewrite dget_dset. case_decide as Hid; [|intros Hy; apply unrevised; congruence]. by rewrite Hid, Hfresh in Hx.
    + rewrite records_of_ready. intros Hy. apply unrevised. congruence.
  - intros Hy. destruct (create_import_effect now token btoken o request bootstrap baseline w Hfresh)
      as [_ [Hall|(c & d & n & new & _ & _ & _ & -> & _ & Hown & Hall)]]; apply unrevised; [rewrite Hall in Hy; congruence|].
    destruct (decide (owner = o)) as [->|Hne]; [|rewrite Hall in Hy by done; congruence].
    rewrite Hown, <-dset_new, dget_dset in Hy by apply Hfresh. case_decide as Hid; [|congruence]. subst ws. by rewrite Hfresh in Hx.
  - rewrite rename_eq. unfold at_revision. destruct (dget id (records_of w o)) as [current|] eqn:Hget; [|unrevised].
    case_bool_decide; [|unrevised]. intros Hy. exact (kept_or_revised _ _ _ _ _ _ _ _ _ _ _ Hget Hy _ Hx).
  - rewrite update_layout_eq. unfold at_revision. destruct (dget id (records_of w o)) as [current|] eqn:Hget; [|unrevised].
    case_bool_decide; [|unrevised]. case_bool_decide; [unrevised|]. destruct (bool_decide _ && _); [unrevised|].
    intros Hy. exact (kept_or_revised _ _ _ _ _ _ _ _ _ _ _ Hget Hy _ Hx).
  - rewrite delete_eq. unfold at_revision. destruct (dget id (records_of w o)) as [current|] eqn:Hget; [|unrevised].
    case_bool_decide; [|unrevised]. destruct (mutation_blocked _ _ _ _); [unrevised|]. unfold without_workspace. cbn [fst].
    assert (forall b m o, records_of (if b : bool then put_migrations m w else w) o = records_of w o) as Hany by (by intros []).
    rewrite records_of_put, !Hany. case_decide; [subst|unrevised]. rewrite dget_dpop. case_decide; [done|].
    intros Hy. apply unrevised. congruence.
  - intros Hy. change (dget ws (records_of w owner) = Some y) in Hy. unrevised.
  - unfold add_mutation_guard, m_update. cbn [fst]. case_bool_decide; intros Hy; change (dget ws (records_of w owner) = Some y) in Hy; unrevised.
  - intros Hy. change (dget ws (records_of w owner) = Some y) in Hy. unrevised.
Qed.

(** Calls in which one workspace is never deleted. *)
Definition kept_step owner ws w w' : Prop := workspace_step w w' /\ is_Some (dget ws (records_of w' owner)).

Lemma kept_run owner ws w w' x y :
  rtc (kept_step owner ws) w w' -> dget ws (records_of w owner) = Some x -> dget ws (records_of w' owner) = Some y ->
  later_revision x y /\ kept_identity x y.
Proof.
  intros Hrun. revert x. induction Hrun as [w|w w1 w' [Hstep [z Hz]] _ IH]; intros x Hx Hy; [apply unrevised; congruence|].
  destruct (step_revision _ _ _ _ _ _ Hstep Hx Hz) as [Hxz (? & ? & ? & ? & ? & ? & ?)]. destruct (IH z Hz Hy) as [Hzy (? & ? & ? & ? & ? & ? & ?)].
  split; [|split_and!; congruence]. destruct Hxz as [->|Hxz], Hzy as [->|Hzy]; unfold later_revision; auto; right; lia.
Qed.

(** No update is lost. A rename, a layout update or a deletion that succeeds with the revision a client read, however
    many other calls were served in between, changes exactly the state the client read; with any other revision it is
    refused with the current one and changes nothing; and no call ever changes the identity of a workspace: its target,
    its provenance and its creation. *)
Theorem changes_need_current_state owner ws w w' x y expected :
  rtc (kept_step owner ws) w w' -> dget ws (records_of w owner) = Some x -> dget ws (records_of w' owner) = Some y ->
  kept_identity x y /\
  (forall now request, wmu_expected_revision request = expected -> wk_revision x = expected ->
     match rename now owner ws request w' with
     | (after, Ok z) => y = x /\ z = revised now (wmu_name request) (wk_tables x) (wk_column_orders x) x /\
         dget ws (records_of after owner) = Some z
     | (after, Err e) => after = w' /\ e = WorkspaceConflictError (wk_revision y)
     end) /\
  (forall now request, wlu_expected_revision request = expected -> wk_revision x = expected ->
     match update_layout now owner ws request w' with
     | (after, Ok z) => y = x /\ z = revised now (wk_name x) (wlu_tables request) (layout_orders x request) x /\
         dget ws (records_of after owner) = Some z
     | (after, Err e) => after = w' /\ (e = WorkspaceConflictError (wk_revision y) \/ exists category limit, e = WorkspaceLimitError category limit)
     end) /\
  (wk_revision x = expected ->
     match delete_workspace guard_blocks owner ws expected w' with
     | (after, Ok _) => y = x /\ dget ws (records_of after owner) = None
     | (after, Err e) => after = w' /\ (e = WorkspaceConflictError (wk_revision y) \/ e = WorkspaceMutationBlockedError "deleted")
     end).
Proof.
  intros Hrun Hx Hy. destruct (kept_run _ _ _ _ _ _ Hrun Hx Hy) as [Hlater Hid]. split; [done|].
  assert (wk_revision y = wk_revision x -> y = x) as Heq by (by destruct Hlater as [->|]; [done|lia]).
  split_and!.
  - intros now request <- Hrev. rewrite rename_eq. unfold at_revision. rewrite Hy. case_bool_decide as Hr; [|done].
    assert (y = x) as -> by (apply Heq; lia). split_and!; [done..|]. unfold with_workspace. by rewrite records_of_put_eq, dget_dset_eq.
  - intros now request <- Hrev. rewrite update_layout_eq. unfold at_revision. rewrite Hy. case_bool_decide as Hr; [|auto].
    assert (y = x) as -> by (apply Heq; lia). case_bool_decide; [eauto|]. destruct (bool_decide _ && _); [eauto|].
    split_and!; [done..|]. unfold with_workspace. by rewrite records_of_put_eq, dget_dset_eq.
  - intros Hrev. rewrite delete_eq. unfold at_revision. rewrite Hy. case_bool_decide as Hr; [|auto].
    assert (y = x) as -> by (apply Heq; lia). destruct (mutation_blocked _ _ _ _); [auto|]. split; [done|].
    unfold without_workspace. rewrite records_of_put_eq, dget_dpop. by rewrite decide_True.
Qed.

(** ** Imports *)

(** C13. An import is stored as a whole or not at all. When it succeeds, the workspace is stored with its design at revision
    one, its layout and its first baseline; when it raises at any point, no reader can tell that it was attempted. In both
    cases every other workspace, design, baseline, plan and execution is as it was. It succeeds whenever the target is new,
    there is room, and the design is valid and placed. *)
Theorem imports_are_atomic now token baseline_token owner request bootstrap baseline c d n w :
  wcr_connection_id request = Some c -> wcr_database request = Some d -> wcr_namespace request = Some n ->
  repo_inv (designs_of w) -> SchemiiDesignContent_check (wdb_content bootstrap) = true -> SchemiiDesignLayoutContent_check (wdb_layout bootstrap) = true ->
  fresh_token token w -> untouched (owner, "ws_" ++ token)%string (designs_of w) ->
  baselines_of (ww_migrations w) (owner, "ws_" ++ token)%string = [] ->
  let workspace := fresh_workspace now token request (Some (or_else (wcr_connection_owner_id request) owner)) (Some (wdb_import_summary bootstrap)) in
  let out := create_import now token baseline_token owner request bootstrap baseline w in
  match out.2 with
  | Ok got => got = workspace /\ imported_as owner workspace bootstrap baseline w out.1
  | Err _ => looks_same owner (owner, wk_id workspace) w out.1
  end /\
  (import_refused now token owner request bootstrap c d n w = None -> validate_design_content (wdb_content bootstrap) = Ok tt ->
   Forall (fun p => position_allowed (wdb_content bootstrap) p = true) (layout_objects (wdb_layout bootstrap)) -> out.2 = Ok workspace).
Proof.
  intros Hc Hd Hn Hinv Hcontent Hlayout Hfresh Hun Hbase workspace out.
  destruct (create_import_spec now token baseline_token owner request bootstrap baseline c d n Hc Hd Hn w) as (_ & Hcase & Hok & _); done || apply Hfresh.
Qed.
End theorems.
