(* ===== verification/WorkspaceOpen.v ===== *)
(** * Opening a schema and showing its tables

    The routes of [WorkspaceRoutes]: a schema is imported once, what an import stores is in
    step with its catalog, and saved column orders follow the live columns. *)

From stdpp Require Import pretty.
From Stdlib Require Import Ascii String Floats.SpecFloat.
From S2P Require Import Prelude Json PyString DesignModels DefinitionAnalysis DesignValidation DeletionImpact DesignDocument DesignDecode DesignStore DesignStoreInv DesignStoreSpec DesignStoreReach MigrationModels MigrationStore CheckExpressions Reconcile ValidationSpec MigrationReview SchemaSource CatalogModels CatalogImport ImportProps ImportTheorems WorkspaceStore WorkspaceRoutes WorkspaceProps WorkspaceTheorems.
Open Scope string_scope.
Open Scope list_scope.

(** ** Opening *)

Section opening.
Context `{Pglast} `{Sqlglot} `{SqlglotTrees} `{SchemaRendering} `{Sha256}.
Context {guard : Type} `{!EqDecision guard}.
Variable validation_text : string -> json -> string.

Abbreviation World := (workspace_world guard PostgresCatalog).
Implicit Types (w : World) (user : string).

(** The baseline of an import is the imported design. *)
Lemma import_baseline catalog imported :
  import_postgres_catalog validation_text catalog = Ok imported ->
  new_baseline_content (imported_design imported) (ir_content imported) =
    Ok (ir_content imported, import_warning <$> wis_issues (ir_summary imported), wis_complete (ir_summary imported)).
Proof.
  intros Hi. unfold new_baseline_content, catalog_design. simpl imp_content.
  rewrite aligned_self; [done| |by eapply import_built]. apply validate_design_content_iff. by apply import_Ok in Hi as (_ & ? & _).
Qed.

Section request.
Variables (now : Z) (token baseline_token user namespace : string) (access : target_access) (connection : saved_connection).
Hypothesis Hconnection : tac_connection access = Ok connection.

Abbreviation open := (open_postgres_workspace validation_text now token baseline_token user access namespace).

(** What [open_postgres_workspace] stores for a catalog. *)
Definition bootstrap_of (imported : ImportResult) : WorkspaceDesignBootstrap :=
  {| wdb_content := ir_content imported; wdb_layout := ir_layout imported; wdb_import_summary := ir_summary imported |}.
Definition baseline_of (catalog : PostgresCatalog) (imported : ImportResult) : WorkspaceImportBaseline PostgresCatalog :=
  {| wib_connection_revision := sc_revision connection; wib_content := ir_content imported; wib_catalog := catalog;
     wib_complete := wis_complete (ir_summary imported);
     wib_issues := blocker_document <$> (import_warning <$> wis_issues (ir_summary imported)) |}.

Lemma create_import_workspace_eq request imported catalog w :
  import_postgres_catalog validation_text catalog = Ok imported ->
  create_import_workspace validation_text now token baseline_token user request imported (sc_revision connection) catalog w =
  handling limit_problem (create_import now token baseline_token user request (bootstrap_of imported) (baseline_of catalog imported)) w.
Proof. intros Hi. unfold create_import_workspace. by rewrite Hi, (import_baseline catalog imported Hi). Qed.

(** The workspace of the target, if the user has one. *)
Definition existing w : option SchemiiWorkspace :=
  List.find (has_target (sc_id connection) (sc_database connection) namespace) (snd <$> records_of w user).

(** The response for a stored workspace. *)
Definition response (created : bool) (x : SchemiiWorkspace) w : SchemiiPostgresWorkspaceResponse :=
  {| spr_created := created; spr_workspace := x; spr_design := current_design (designs_of w) (user, wk_id x);
     spr_layout := current_layout (designs_of w) (user, wk_id x) (design_revision (current_design (designs_of w) (user, wk_id x))) |}.

Lemma on_designs_read {A} (m : method DesignRepo design_error A) a w : m (designs_of w) = (designs_of w, Ok a) -> on_designs m w = (w, Ok a).
Proof. unfold designs_of, on_designs. intros ->. by destruct w as [? []]. Qed.

Lemma open_eq w :
  open w =
  match existing w with
  | Some x =>
      if other_identity user connection x
      then (w, Err (Problem (problem 409 "workspace_target_changed" "The saved workspace uses a different PostgreSQL identity" [])))
      else (w, Ok (response false x w))
  | None =>
      match import_target validation_text now token baseline_token user access connection namespace w with
      | (w', Ok (x, created)) => (w', Ok (response created x w'))
      | (w', Err e) => (w', Err e)
      end
  end.
Proof.
  assert (forall x created w, (let* design := handling (fun _ => None) (on_designs (DesignStore.get user (wk_id x))) in
    let* layout := handling (fun _ => None) (on_designs (get_layout user (wk_id x))) in
    m_return {| spr_created := created; spr_workspace := x; spr_design := design; spr_layout := layout |})%method w = (w, Ok (response created x w))) as Hread.
  { intros x created w1. unfold m_bind at 1, handling. rewrite (on_designs_read _ (current_design (designs_of w1) (user, wk_id x))) by done.
    unfold m_bind at 1. rewrite (on_designs_read _ (current_layout (designs_of w1) (user, wk_id x)
      (design_revision (current_design (designs_of w1) (user, wk_id x))))) by done. done. }
  unfold open_postgres_workspace. rewrite Hconnection. unfold m_bind at 1, handling at 1, find_by_target, m_bind at 1, m_get, m_return at 1. fold (existing w).
  destruct (existing w) as [x|].
  - unfold m_bind at 1, m_bind at 1, m_guard, m_lift, guard_err. destruct (other_identity user connection x); [done|]. apply Hread.
  - unfold m_bind at 1. destruct (import_target _ _ _ _ _ _ _ _ w) as [w' [[x created]|e]]; [apply Hread|done].
Qed.

Lemma target_record_Some request :
  target_record user connection namespace = Some request ->
  wcr_connection_id request = Some (sc_id connection) /\ wcr_database request = Some (sc_database connection) /\
  wcr_namespace request = Some namespace /\ wcr_connection_owner_id request = Some (or_else (sc_owner_id connection) user).
Proof. unfold target_record. destruct (WorkspaceCreateRecord_check _); [|done]. by intros [= <-]. Qed.

(** The workspace an import of the target creates. *)
Definition opened (request : WorkspaceCreateRecord) (imported : ImportResult) : SchemiiWorkspace :=
  fresh_workspace now token request (Some (or_else (wcr_connection_owner_id request) user)) (Some (ir_summary imported)).

Lemma opened_target request imported :
  target_record user connection namespace = Some request ->
  has_target (sc_id connection) (sc_database connection) namespace (opened request imported) = true /\
  other_identity user connection (opened request imported) = false.
Proof.
  intros (Hc & Hd & Hn & Ho)%target_record_Some. unfold has_target, other_identity, opened, fresh_workspace. simpl. rewrite Hc, Hd, Hn, Ho.
  rewrite !bool_decide_eq_true_2 by done. split; [done|]. apply negb_false_iff, bool_decide_eq_true.
  unfold or_else. destruct (sc_owner_id connection) as [o|]; repeat case_bool_decide; congruence.
Qed.

(** A request that finds no workspace imports the catalog, or leaves no trace. *)
Lemma import_target_spec w :
  repo_inv (designs_of w) -> fresh_token token w -> untouched (user, "ws_" ++ token)%string (designs_of w) ->
  baselines_of (ww_migrations w) (user, "ws_" ++ token)%string = [] ->
  match import_target validation_text now token baseline_token user access connection namespace w with
  | (w', Ok (x, true)) => existing w = None /\
      exists catalog imported request, tac_catalog access namespace = Ok catalog /\ import_postgres_catalog validation_text catalog = Ok imported /\
        target_record user connection namespace = Some request /\ x = opened request imported /\
        imported_as user x (bootstrap_of imported) (baseline_of catalog imported) w w'
  | (w', Ok (x, false)) => existing w = Some x /\ looks_same user (user, "ws_" ++ token)%string w w'
  | (w', Err _) => looks_same user (user, "ws_" ++ token)%string w w'
  end.
Proof.
  intros Hinv Hfresh Hun Hbase. assert (looks_same user (user, "ws_" ++ token)%string w w) as Hrefl by (split; [split|..]; done || apply local_update_refl).
  unfold import_target. destruct (tac_catalog access namespace) as [catalog|]; [|done].
  destruct (import_postgres_catalog validation_text catalog) as [imported|] eqn:Hi; [|done].
  destruct (target_record user connection namespace) as [request|] eqn:Hr; [|done].
  destruct (target_record_Some _ Hr) as (Hc & Hd & Hn & _). unfold created_or_existing. rewrite create_import_workspace_eq by done. unfold handling.
  destruct (import_accounted _ _ _ Hi) as [Hcheck _]. pose proof (import_Ok _ _ _ Hi) as (_ & _ & _ & _ & _ & Hlayout & _).
  destruct (create_import_spec now token baseline_token user request (bootstrap_of imported) (baseline_of catalog imported) _ _ _ Hc Hd Hn w)
    as (_ & Hcase & _ & Hrefused); [done|done|done|apply Hfresh|done|done|].
  pose proof (create_import_eq now token baseline_token user request (bootstrap_of imported) (baseline_of catalog imported) _ _ _ Hc Hd Hn w) as Heq.
  destruct (create_import _ _ _ _ _ _ _ w) as [w' [x|e]] eqn:Hrun; cbn [fst snd] in *.
  - destruct Hcase as [-> Has]. split; [|by exists catalog, imported, request].
    unfold import_refused in Hrefused. destruct (existing w) as [y|] eqn:He; [|done]. unfold existing in He. rewrite He in Hrefused.
    destruct (negb _); by specialize (Hrefused _ eq_refl).
  - destruct e as [| | | | |y| | | |]; simpl; try done. split; [|done]. destruct (import_refused _ _ _ _ _ _ _ _ _) as [e|] eqn:Href.
    + injection Heq as _ <-. unfold import_refused in Href. destruct (negb _); [done|]. unfold existing. destruct (List.find _ _) as [z|]; [by injection Href as ->|].
      destruct (full _ _); [done|]. by destruct (SchemiiWorkspace_check _).
    + rewrite store_import_eq in Heq. destruct (initialize _ _ _ _ _ _) as [designs [a|e]]; [|done].
      by destruct (create_import_baseline _ _ _ _ _ _ _ _ _ _ _) as [s [b|e]].
Qed.


Lemma existing_imported x bootstrap baseline w w' :
  existing w = None -> has_target (sc_id connection) (sc_database connection) namespace x = true ->
  imported_as user x bootstrap baseline w w' -> existing w' = Some x.
Proof.
  unfold existing. intros Hnone Ht Has. rewrite (ia_records _ _ _ _ _ _ Has), fmap_app. revert Hnone. generalize (snd <$> records_of w user).
  induction l as [|y l IH]; simpl; [by rewrite Ht|]. destruct (has_target _ _ _ y); [done|apply IH].
Qed.

(** Opening a schema gives its one workspace, in step with PostgreSQL. A request that succeeds answers with a workspace
    of the target together with its current design and layout: the one the user has, and then nothing changes, or a new
    one. A new one holds the import of the inspected catalog as its design at revision one, with the layout of the
    import, and its first baseline is that same design: nothing is pending. A request that fails leaves no trace. *)
Theorem opening_is_in_sync w :
  repo_inv (designs_of w) -> fresh_token token w -> untouched (user, "ws_" ++ token)%string (designs_of w) ->
  baselines_of (ww_migrations w) (user, "ws_" ++ token)%string = [] ->
  match open w with
  | (w', Ok r) =>
      r = response (spr_created r) (spr_workspace r) w' /\ existing w' = Some (spr_workspace r) /\
      if spr_created r then
        existing w = None /\ exists catalog imported, tac_catalog access namespace = Ok catalog /\
          import_postgres_catalog validation_text catalog = Ok imported /\
          imported_as user (spr_workspace r) (bootstrap_of imported) (baseline_of catalog imported) w w' /\
          design_content (spr_design r) = ir_content imported /\ design_revision (spr_design r) = 1%Z /\
          layout_content (spr_layout r) = ir_layout imported /\
          exists b, baselines_of (ww_migrations w') (user, wk_id (spr_workspace r)) = [b] /\ bl_content b = design_content (spr_design r) /\
            bl_catalog b = catalog
      else w' = w
  | (w', Err _) => looks_same user (user, "ws_" ++ token)%string w w'
  end.
Proof.
  intros Hinv Hfresh Hun Hbase. rewrite open_eq. destruct (existing w) as [x|] eqn:He.
  { destruct (other_identity user connection x); [|done]. split; [split|..]; done || apply local_update_refl. }
  pose proof (import_target_spec w Hinv Hfresh Hun Hbase) as Hspec. destruct (import_target _ _ _ _ _ _ _ _ w) as [w' [[x []]|e]]; [| |done].
  - destruct Hspec as (_ & catalog & imported & request & Hcat & Hi & Hr & -> & Has). cbn [spr_created spr_workspace response].
    split; [done|]. split; [by eapply existing_imported; [done|apply opened_target|]|]. split; [done|]. exists catalog, imported.
    destruct (ia_design _ _ _ _ _ _ Has) as (Hd & Hl & _). destruct (ia_baseline _ _ _ _ _ _ Has) as (b & Hb & Hbc & Hcatalog & _).
    unfold response, current_design, current_layout. cbn [spr_design spr_layout]. rewrite Hd, Hl. split_and!; try done. by exists b.
  - destruct Hspec as [He' _]. by rewrite He in He'.
Qed.

Lemma open_existing x w : existing w = Some x -> other_identity user connection x = false -> open w = (w, Ok (response false x w)).
Proof. intros He Ho. by rewrite open_eq, He, Ho. Qed.

Lemma opened_identity w w' r :
  repo_inv (designs_of w) -> fresh_token token w -> untouched (user, "ws_" ++ token)%string (designs_of w) ->
  baselines_of (ww_migrations w) (user, "ws_" ++ token)%string = [] -> open w = (w', Ok r) ->
  existing w' = Some (spr_workspace r) /\ other_identity user connection (spr_workspace r) = false /\ r = response (spr_created r) (spr_workspace r) w'.
Proof.
  intros Hinv Hfresh Hun Hbase. rewrite open_eq. destruct (existing w) as [x|] eqn:He.
  { destruct (other_identity user connection x) eqn:Ho; [done|]. by intros [= <- <-]. }
  pose proof (import_target_spec w Hinv Hfresh Hun Hbase) as Hspec. destruct (import_target _ _ _ _ _ _ _ _ w) as [w1 [[x []]|e]]; [| |done].
  - destruct Hspec as (_ & catalog & imported & request & _ & _ & Hr & -> & Has). intros [= <- <-]. cbn [spr_created spr_workspace response].
    destruct (opened_target request imported Hr). split_and!; [by eapply existing_imported|done|done].
  - destruct Hspec as [He' _]. by rewrite He in He'.
Qed.
End request.

(** A schema is imported exactly once. After a request opened it, every further request of the user for it, through the
    same connection and whatever PostgreSQL would answer, gives the same workspace, design and layout, creates nothing and
    changes nothing. A request that was overtaken (it had found no workspace, but another request has since stored one)
    answers with the other's workspace and leaves no trace. *)
Theorem schemas_are_imported_once user namespace connection
    now token baseline_token access w w' r
    now2 token2 baseline_token2 access2 connection2 :
  tac_connection access = Ok connection -> repo_inv (designs_of w) -> fresh_token token w ->
  untouched (user, "ws_" ++ token)%string (designs_of w) -> baselines_of (ww_migrations w) (user, "ws_" ++ token)%string = [] ->
  open_postgres_workspace validation_text now token baseline_token user access namespace w = (w', Ok r) ->
  tac_connection access2 = Ok connection2 -> sc_id connection2 = sc_id connection -> sc_database connection2 = sc_database connection ->
  or_else (sc_owner_id connection2) user = or_else (sc_owner_id connection) user ->
  open_postgres_workspace validation_text now2 token2 baseline_token2 user access2 namespace w' =
    (w', Ok {| spr_created := false; spr_workspace := spr_workspace r; spr_design := spr_design r; spr_layout := spr_layout r |}) /\
  (forall w2 x catalog imported request, existing user namespace connection2 w2 = Some x -> wr_has_designs (ww_workspaces w2) = true ->
     tac_catalog access2 namespace = Ok catalog -> import_postgres_catalog validation_text catalog = Ok imported ->
     target_record user connection2 namespace = Some request ->
     exists w3, import_target validation_text now2 token2 baseline_token2 user access2 connection2 namespace w2 = (w3, Ok (x, false)) /\
       looks_same user (user, "ws_" ++ token2)%string w2 w3).
Proof.
  intros Hconn Hinv Hfresh Hun Hbase Hopen Hconn2 Hid Hdb Howner.
  destruct (opened_identity now token baseline_token user namespace access connection Hconn w w' r) as (He & Ho & Hr); [done..|]. split.
  - rewrite (open_existing now2 token2 baseline_token2 user namespace access2 connection2 Hconn2 (spr_workspace r)).
    + do 2 f_equal. rewrite Hr. done.
    + unfold existing in *. by rewrite Hid, Hdb.
    + unfold other_identity in *. by rewrite Howner.
  - intros w2 x catalog imported request Hx Hhas Hcat Hi Hrecord. unfold import_target. rewrite Hcat, Hi, Hrecord.
    destruct (target_record_Some _ _ _ _ Hrecord) as (Hc & Hd & Hn & _). unfold created_or_existing. rewrite create_import_workspace_eq by done. unfold handling.
    rewrite (create_import_eq _ _ _ _ _ _ _ _ _ _ Hc Hd Hn). unfold import_refused. rewrite Hhas. unfold existing in Hx. simpl. rewrite Hx. simpl.
    eexists. split; [done|]. apply looks_same_ready.
Qed.
End opening.

(** ** Column orders *)

(** A reconciled order has exactly the columns of its table. *)
Lemma reconciled_columns preferred t c : c ∈ tco_columns (reconciled_order preferred t) <-> c ∈ pc_name <$> pb_columns t.
Proof.
  assert (c ∈ pc_name <$> merge_sort ordinal_le (pb_columns t) <-> c ∈ pc_name <$> pb_columns t) as Hsort.
  { by rewrite (merge_sort_Permutation ordinal_le (pb_columns t)). }
  simpl. rewrite elem_of_app, !list_elem_of_filter, Hsort. split; [tauto|]. intros Hc.
  destruct (decide (c ∈ preferred)); [by left|right]. split; [|done]. intros Hin. rewrite ?list_elem_of_filter in Hin. tauto.
Qed.

Lemma reconcile_Some workspace catalog orders :
  reconcile_column_orders workspace catalog = Some orders ->
  Forall (fun o => exists t preferred, t ∈ pg_tables (pg_content catalog) /\
    dget (pb_name t) (dict_fill tco_name tco_columns (wk_column_orders workspace) []) = Some preferred /\
    o = reconciled_order preferred t /\ TableColumnDisplayOrder_check o = true) orders.
Proof.
  unfold reconcile_column_orders. destruct (forallb _ _) eqn:Hall; [|done]. intros [= <-]. rewrite forallb_forall in Hall.
  apply Forall_forall. intros o Ho. pose proof Ho as Hcheck. apply list_elem_of_In, Hall in Hcheck.
  apply list_elem_of_omap in Ho as (t & Ht & Ho). destruct (dget (pb_name t) _) as [preferred|] eqn:Hp; [|done]. injection Ho as <-. eauto 8.
Qed.

Lemma omap_none {A B} (f : A -> option B) l : (forall x, x ∈ l -> f x = None) -> omap f l = [].
Proof. induction l as [|x l IH]; [done|]. intros Hf. csimpl. rewrite Hf by left. apply IH. intros y Hy. apply Hf. by right. Qed.

Lemma matching_order catalog t preferred :
  NoDup (pb_name <$> pg_tables (pg_content catalog)) -> t ∈ pg_tables (pg_content catalog) ->
  order_mismatch (live_columns_of catalog) (reconciled_order preferred t) = None.
Proof.
  intros Hnd Ht. unfold order_mismatch, live_columns_of. change (tco_name (reconciled_order preferred t)) with (pb_name t).
  rewrite (dict_fill_elem pb_name) by done.
  assert (filter (fun c => c ∉ tco_columns (reconciled_order preferred t)) (remove_dups (pc_name <$> pb_columns t)) = []) as ->.
  { apply filter_nil_iff, Forall_forall. intros c Hc Hn. apply Hn, reconciled_columns. by rewrite elem_of_remove_dups in Hc. }
  assert (filter (fun c => c ∉ pc_name <$> pb_columns t) (remove_dups (tco_columns (reconciled_order preferred t))) = []) as ->.
  { apply filter_nil_iff, Forall_forall. intros c Hc Hn. apply Hn, (reconciled_columns preferred). by rewrite elem_of_remove_dups in Hc. }
  done.
Qed.

Section showing.
Context {guard : Type}.
Abbreviation World := (workspace_world guard PostgresCatalog).
Implicit Types (w : World).

(** What is shown can be saved. When the live catalog is shown with a workspace, each saved column order has become an
    arrangement of the columns its table has now (each exactly once, the saved ones that remain first and in their order,
    the others after them by position), positions of tables that are gone are left out, and submitting exactly what was
    shown passes the checks of a layout update against that catalog. *)
Theorem shown_layouts_can_be_saved user access workspace_id revision connection_revision w w' r :
  get_workspace_catalog user access workspace_id w = (w', Ok r) ->
  NoDup (pb_name <$> pg_tables (pg_content (wcr_response_catalog r))) ->
  w' = w /\
  Forall (fun o => exists t preferred, t ∈ pg_tables (pg_content (wcr_response_catalog r)) /\ tco_name o = pb_name t /\
      NoDup (tco_columns o) /\ (forall c, c ∈ tco_columns o <-> c ∈ pc_name <$> pb_columns t) /\
      filter (fun c => c ∈ pc_name <$> pb_columns t) preferred `prefix_of` tco_columns o /\
      exists y, dget workspace_id (records_of w user) = Some y /\ exists o', o' ∈ wk_column_orders y /\ tco_name o' = tco_name o /\ tco_columns o' = preferred)
    (wk_column_orders (wcr_response_workspace r)) /\
  check_layout (wcr_response_catalog r)
    {| wlu_expected_revision := revision; wlu_expected_connection_revision := connection_revision;
       wlu_tables := wcr_response_positions r; wlu_column_orders := Some (wk_column_orders (wcr_response_workspace r)) |} w = (w, Ok tt).
Proof.
  intros Hget Hnd. unfold get_workspace_catalog, get_workspace, record, handling, inspect_workspace, same_identity, same_target in Hget. run_method.
  destruct (dget workspace_id (records_of w user)) as [y|] eqn:Hy; [|done]. simpl in Hget. destruct (wk_connection_id y); [|done].
  destruct (tac_connection access) as [connection|]; [|done]. unfold guard_err in Hget. destruct (other_identity _ _ _); [done|]. simpl in Hget.
  destruct (negb _); [done|]. destruct (tac_catalog _ _) as [catalog|]; [|done]. destruct (reconcile_column_orders y catalog) as [orders|] eqn:Hr; [|done].
  injection Hget as <- <-. simpl in *. apply reconcile_Some in Hr. rewrite Forall_forall in Hr. split; [done|]. split.
  - apply Forall_forall. intros o Ho. destruct (Hr o Ho) as (t & preferred & Ht & Hp & -> & Hcheck). exists t, preferred. split_and!; try done.
    + unfold TableColumnDisplayOrder_check in Hcheck. rewrite !andb_true_iff, !bool_decide_eq_true in Hcheck. by destruct Hcheck as [_ ?].
    + apply reconciled_columns.
    + simpl. erewrite list_filter_iff; [by apply prefix_app_r|]. intros c. simpl. by rewrite (merge_sort_Permutation ordinal_le (pb_columns t)).
    + exists y. split; [done|]. apply dict_fill_Some in Hp as [(o' & Hin & Hn & Hcol)|[_ ?]]; [|done]. exists o'. split_and!; done.
  - unfold check_layout. run_method. assert (unknown_tables catalog (filter (fun p => tp_name p ∈ pb_name <$> pg_tables (pg_content catalog)) (wk_tables y)) = []) as ->.
    { unfold unknown_tables. replace (filter _ _) with (@nil string); [done|]. symmetry. apply filter_nil_iff, Forall_forall.
      intros name (p & -> & [Hp _]%list_elem_of_filter)%list_elem_of_fmap Hn. done. }
    simpl. replace (omap _ orders) with (@nil json); [done|]. symmetry. apply omap_none. intros o Ho.
    destruct (Hr o Ho) as (t & preferred & Ht & _ & -> & _). by apply matching_order.
Qed.

(** ** Defects *)

(** The name of the administrator's limit on column orders is never reported: a layout update that exceeds it raises the
    category "column display order entry", for which the route has no name, and the name it has
    (for "column display order") belongs to no error. *)
Theorem column_order_limit_unnamed now owner ws request w w' category limit :
  update_layout now owner ws request w = (w', Err (WorkspaceLimitError category limit)) ->
  (category = "table position" /\ workspace_limit_name category = "workspace_layout.maximum_table_positions") \/
  (category = "column display order entry" /\ workspace_limit_name category = "workspace.column display order entry").
Proof.
  rewrite update_layout_eq. unfold at_revision. destruct (dget ws (records_of w owner)) as [current|]; [|done]. case_bool_decide; [|done].
  case_bool_decide; [intros [= _ <- _]; by left|]. destruct (bool_decide _ && _); [|done]. intros [= _ <- _]. by right.
Qed.

(** A live table that lost all its columns hides the whole catalog: when a workspace has a column order for such a table,
    showing the catalog raises a model error no handler catches. *)
Theorem emptied_table_hides_catalog user access workspace_id connection catalog t o y w :
  dget workspace_id (records_of w user) = Some y -> is_Some (wk_connection_id y) -> tac_connection access = Ok connection ->
  other_identity user connection y = false -> wk_database y = Some (sc_database connection) ->
  tac_catalog access (from_option id "" (wk_namespace y)) = Ok catalog ->
  t ∈ pg_tables (pg_content catalog) -> pb_columns t = [] -> o ∈ wk_column_orders y -> tco_name o = pb_name t ->
  get_workspace_catalog user access workspace_id w = (w, Err UncaughtModel).
Proof.
  intros Hy [c Hc] Hconn Hid Hdb Hcat Ht Hnone Ho Hname. unfold get_workspace_catalog, get_workspace, record, handling, inspect_workspace, same_identity, same_target. run_method.
  rewrite Hy. simpl. rewrite Hc, Hconn, Hid, Hdb, bool_decide_eq_true_2 by done. simpl. rewrite Hcat.
  enough (reconcile_column_orders y catalog = None) as -> by done. unfold reconcile_column_orders.
  destruct (forallb _ _) eqn:Hall; [|done]. exfalso. rewrite forallb_forall in Hall.
  assert (is_Some (dget (pb_name t) (dict_fill tco_name tco_columns (wk_column_orders y) []))) as [preferred Hp].
  { apply dict_fill_is_Some. left. apply list_elem_of_fmap. exists o. by rewrite Hname. }
  specialize (Hall (reconciled_order preferred t)). assert (TableColumnDisplayOrder_check (reconciled_order preferred t) = true) as Hcheck.
  { apply Hall, list_elem_of_In, list_elem_of_omap. exists t. split; [done|]. by rewrite Hp. }
  assert (tco_columns (reconciled_order preferred t) = []) as Hempty.
  { destruct (tco_columns (reconciled_order preferred t)) as [|x l] eqn:Hl; [done|]. exfalso. assert (x ∈ tco_columns (reconciled_order preferred t)) as Hx by (rewrite Hl; left).
    apply reconciled_columns in Hx. rewrite Hnone in Hx. by apply not_elem_of_nil in Hx. }
  unfold TableColumnDisplayOrder_check, list_check in Hcheck. rewrite Hempty in Hcheck. rewrite !andb_true_iff, !bool_decide_eq_true in Hcheck. simpl in Hcheck. lia.
Qed.
End showing.
