(* ===== verification/WorkspaceExamples.v ===== *)
(** * Workspaces on a sample schema

    Witnesses for [WorkspaceTheorems] and [WorkspaceOpen]: a user opens the schema of
    [ImportExamples]. *)

From stdpp Require Import pretty.
From Stdlib Require Import Ascii String Floats.SpecFloat.
From S2P Require Import Prelude Json PyString DesignModels DefinitionAnalysis DesignValidation DeletionImpact DesignDocument DesignDecode DesignStore DesignStoreInv DesignStoreSpec DesignStoreReach MigrationModels MigrationStore CheckExpressions Reconcile ValidationSpec MigrationReview SchemaSource CatalogModels CatalogImport ImportProps ImportTheorems ImportExamples WorkspaceStore WorkspaceRoutes WorkspaceProps WorkspaceTheorems WorkspaceOpen.
Open Scope string_scope.
Open Scope list_scope.

#[local] Existing Instances import_sha import_pglast import_trees import_rendering sample_sqlglot.

(** One guard: the migrations of the workspace. *)
Definition sample_blocks (g : unit) (s : MigrationRepo DesignRepo PostgresCatalog) (owner ws : string) : bool := any_execution s owner ws blocks_lifecycle.

Definition start_designs : DesignRepo :=
  {| rp_designs := ∅; rp_layouts := ∅; rp_history := ∅; rp_history_state := ∅; rp_position_memory := ∅; rp_next_history_id := 1;
     rp_history_action_limit := 50 |}.
Definition start_repository : WorkspaceRepo unit :=
  {| wr_records := []; wr_max_workspaces_per_owner := MAX_WORKSPACES_PER_OWNER;
     wr_max_table_positions_per_owner := MAX_TABLE_POSITIONS_PER_OWNER;
     wr_max_column_display_order_entries_per_owner := MAX_COLUMN_DISPLAY_ORDER_ENTRIES_PER_OWNER; wr_has_designs := true; wr_mutation_guards := [] |}.
Definition start_world : workspace_world unit PostgresCatalog :=
  {| ww_workspaces := start_repository; ww_migrations := InMemoryMigrationRepository start_designs |}.

Lemma start_designs_inv : repo_inv start_designs.
Proof. apply (start_inv 50). reflexivity. Qed.

Definition hex32 : string := "0123456789abcdef0123456789abcdef".
Definition shop_connection : saved_connection := {| sc_id := "pg_" ++ hex32; sc_database := "shop"; sc_owner_id := None; sc_revision := 4 |}.
Definition shop_access : target_access := {| tac_connection := Ok shop_connection; tac_catalog := fun _ => Ok (shop "id") |}.

(** The result of a run that succeeds. *)
Definition ok_or {E A} (d : A) (r : result E A) : A := match r with Ok a => a | Err _ => d end.

Lemma run_ok {S E A} (d : A) (p : S * result E A) : match p.2 with Ok _ => true | Err _ => false end = true -> p = (p.1, Ok (ok_or d p.2)).
Proof. by destruct p as [s [a|e]]. Qed.

Definition empty_workspace : SchemiiWorkspace :=
  {| wk_id := ""; wk_revision := 0; wk_name := ""; wk_connection_id := None; wk_connection_owner_id := None; wk_database := None;
     wk_namespace := None; wk_tables := []; wk_column_orders := []; wk_import_summary := None; wk_created_at := 0; wk_updated_at := 0 |}.
Definition no_response : SchemiiPostgresWorkspaceResponse :=
  {| spr_created := false; spr_workspace := empty_workspace; spr_design := empty_design ""; spr_layout := current_layout start_designs ("", "") 0 |}.

Abbreviation open_shop := (open_postgres_workspace some_text 10 hex32 "b1" "alice" shop_access "public" start_world).
Definition open_world : workspace_world unit PostgresCatalog := open_shop.1.
Definition open_response : SchemiiPostgresWorkspaceResponse := ok_or no_response open_shop.2.

Lemma shop_opened : open_shop = (open_world, Ok open_response).
Proof. unfold open_world, open_response. refine (run_ok no_response open_shop _). vm_compute. reflexivity. Qed.

Lemma shop_created : spr_created open_response = true.
Proof. vm_compute. reflexivity. Qed.

Lemma start_untouched : untouched ("alice", "ws_" ++ hex32)%string (designs_of start_world).
Proof. done. Qed.

Lemma start_fresh token : fresh_token token start_world.
Proof. done. Qed.

Lemma opening_is_in_sync_witness :
  spr_created open_response = true /\ existing "alice" "public" shop_connection open_world = Some (spr_workspace open_response) /\
  response "alice" true (spr_workspace open_response) open_world = open_response.
Proof.
  pose proof (opening_is_in_sync some_text 10 hex32 "b1" "alice" "public" shop_access shop_connection eq_refl start_world
    start_designs_inv (start_fresh hex32) start_untouched eq_refl) as Hopen.
  rewrite shop_opened in Hopen. destruct Hopen as (Hr & He & _). rewrite shop_created in Hr.
  split; [exact shop_created|]. split; [exact He|]. exact (eq_sym Hr).
Defined.

Definition other_answer : target_access := {| tac_connection := Ok shop_connection; tac_catalog := fun _ => Err PostgresConnectionError |}.

Lemma schemas_are_imported_once_witness :
  open_postgres_workspace some_text 11 "x" "b2" "alice" other_answer "public" open_world =
    (open_world, Ok {| spr_created := false; spr_workspace := spr_workspace open_response; spr_design := spr_design open_response;
                       spr_layout := spr_layout open_response |}).
Proof.
  refine (proj1 (schemas_are_imported_once some_text "alice" "public" shop_connection 10 hex32 "b1" shop_access start_world open_world open_response
    11 "x" "b2" other_answer shop_connection eq_refl start_designs_inv (start_fresh hex32) start_untouched eq_refl shop_opened eq_refl eq_refl eq_refl eq_refl)).
Defined.

(** ** The repository *)

Definition draft_request : WorkspaceCreateRecord :=
  {| wcr_name := "Draft"; wcr_connection_id := None; wcr_connection_owner_id := None; wcr_database := None; wcr_namespace := None |}.
Definition draft_world : workspace_world unit PostgresCatalog := (create 5 hex32 "alice" draft_request None start_world).1.
Definition draft : SchemiiWorkspace := fresh_workspace 5 hex32 draft_request None None.
Definition draft_id : string := "ws_" ++ hex32.

Lemma draft_stored : dget draft_id (records_of draft_world "alice") = Some draft.
Proof. vm_compute. reflexivity. Qed.

Lemma workspaces_stay_bounded_witness : workspace_inv draft_world /\ length (records_of draft_world "alice") = 1.
Proof.
  split; [|vm_compute; reflexivity].
  apply (workspaces_stay_bounded sample_blocks 1000 100000 100000 true start_repository start_world draft_world eq_refl eq_refl).
  apply rtc_once. apply (step_create sample_blocks start_world 5 hex32 "alice" "Draft"); [|apply start_fresh].
  intros owner id x Hx. discriminate Hx.
Defined.

Definition rename_draft : WorkspaceMetadataUpdate := {| wmu_expected_revision := 1; wmu_name := "Shop" |}.

Lemma changes_need_current_state_witness :
  match rename 6 "alice" draft_id rename_draft draft_world with
  | (after, Ok z) => draft = draft /\ z = revised 6 "Shop" [] [] draft /\ dget draft_id (records_of after "alice") = Some z
  | (after, Err e) => after = draft_world /\ e = WorkspaceConflictError 1
  end.
Proof.
  destruct (changes_need_current_state sample_blocks "alice" draft_id draft_world draft_world draft draft 1
    (rtc_refl _ _) draft_stored draft_stored) as (_ & Hrename & _).
  exact (Hrename 6%Z rename_draft eq_refl eq_refl).
Defined.

Definition shop_request : WorkspaceCreateRecord :=
  {| wcr_name := "shop.public"; wcr_connection_id := Some ("pg_" ++ hex32)%string; wcr_connection_owner_id := Some "alice";
     wcr_database := Some "shop"; wcr_namespace := Some "public" |}.

Lemma shop_placed : Forall (fun p => position_allowed (wdb_content (bootstrap_of shop_import)) p = true) (layout_objects (wdb_layout (bootstrap_of shop_import))).
Proof. apply (bool_decide_unpack _). vm_compute. exact I. Qed.
Lemma shop_checked : SchemiiDesignContent_check (wdb_content (bootstrap_of shop_import)) = true.
Proof. vm_compute. reflexivity. Qed.
Lemma shop_laid_out : SchemiiDesignLayoutContent_check (wdb_layout (bootstrap_of shop_import)) = true.
Proof. vm_compute. reflexivity. Qed.
Lemma shop_validated : validate_design_content (wdb_content (bootstrap_of shop_import)) = Ok tt.
Proof. vm_compute. reflexivity. Qed.
Lemma shop_welcome : import_refused 10 hex32 "alice" shop_request (bootstrap_of shop_import) ("pg_" ++ hex32)%string "shop" "public" start_world = None.
Proof. vm_compute. reflexivity. Qed.

Lemma imports_are_atomic_witness :
  (create_import 10 hex32 "b1" "alice" shop_request (bootstrap_of shop_import) (baseline_of shop_connection (shop "id") shop_import) start_world).2 =
  Ok (fresh_workspace 10 hex32 shop_request (Some (or_else (wcr_connection_owner_id shop_request) "alice"))
        (Some (wdb_import_summary (bootstrap_of shop_import)))).
Proof.
  pose proof (imports_are_atomic 10 hex32 "b1" "alice" shop_request (bootstrap_of shop_import) (baseline_of shop_connection (shop "id") shop_import)
    ("pg_" ++ hex32)%string "shop" "public" start_world eq_refl eq_refl eq_refl start_designs_inv shop_checked shop_laid_out (start_fresh hex32)
    start_untouched eq_refl) as Himport.
  cbv zeta in Himport. destruct Himport as [_ Hok]. exact (Hok shop_welcome shop_validated shop_placed).
Defined.

(** ** Showing *)

Abbreviation show_shop := (get_workspace_catalog "alice" shop_access draft_id open_world).
Definition no_catalog : WorkspaceCatalogResponse :=
  {| wcr_response_workspace := empty_workspace; wcr_response_catalog := shop "id"; wcr_response_positions := [] |}.
Definition shown : WorkspaceCatalogResponse := ok_or no_catalog show_shop.2.
Definition shown_world : workspace_world unit PostgresCatalog := show_shop.1.

Lemma shop_shown : show_shop = (shown_world, Ok shown).
Proof. unfold shown_world, shown. refine (run_ok no_catalog show_shop _). vm_compute. reflexivity. Qed.

Lemma shown_tables_distinct : NoDup (pb_name <$> pg_tables (pg_content (wcr_response_catalog shown))).
Proof. apply (bool_decide_unpack _). vm_compute. exact I. Qed.

Lemma shown_layouts_can_be_saved_witness :
  check_layout (wcr_response_catalog shown)
    {| wlu_expected_revision := 1; wlu_expected_connection_revision := 4; wlu_tables := wcr_response_positions shown;
       wlu_column_orders := Some (wk_column_orders (wcr_response_workspace shown)) |} open_world = (open_world, Ok tt).
Proof.
  refine (proj2 (proj2 (shown_layouts_can_be_saved "alice" shop_access draft_id 1 4 open_world shown_world shown shop_shown shown_tables_distinct))).
Defined.

(** ** Defects *)

(** A repository with room for one column, and an order of two. *)
Definition narrow_world : workspace_world unit PostgresCatalog :=
  {| ww_workspaces := {| wr_records := [("alice", [(draft_id, draft)])]; wr_max_workspaces_per_owner := 10; wr_max_table_positions_per_owner := 10;
       wr_max_column_display_order_entries_per_owner := 1; wr_has_designs := true; wr_mutation_guards := [] |};
     ww_migrations := InMemoryMigrationRepository start_designs |}.
Definition two_columns : TableColumnDisplayOrder := {| tco_name := "people"; tco_columns := ["id"; "email"] |}.
Definition wide_layout : SchemiiWorkspaceLayoutUpdate :=
  {| wlu_expected_revision := 1; wlu_expected_connection_revision := 1; wlu_tables := []; wlu_column_orders := Some [two_columns] |}.

Lemma column_order_limit_unnamed_witness :
  update_layout 6 "alice" draft_id wide_layout narrow_world = (narrow_world, Err (WorkspaceLimitError "column display order entry" 1)) /\
  ("column display order entry" = "table position" /\ workspace_limit_name "column display order entry" = "workspace_layout.maximum_table_positions" \/
   "column display order entry" = "column display order entry" /\
   workspace_limit_name "column display order entry" = "workspace.column display order entry").
Proof.
  assert (update_layout 6 "alice" draft_id wide_layout narrow_world = (narrow_world, Err (WorkspaceLimitError "column display order entry" 1))) as Hrun
    by (vm_compute; reflexivity).
  split; [exact Hrun|]. exact (column_order_limit_unnamed 6 "alice" draft_id wide_layout narrow_world narrow_world _ 1 Hrun).
Defined.

Definition arranged : SchemiiWorkspace :=
  {| wk_id := draft_id; wk_revision := 2; wk_name := "Shop"; wk_connection_id := Some ("pg_" ++ hex32)%string;
     wk_connection_owner_id := Some "alice"; wk_database := Some "shop"; wk_namespace := Some "public"; wk_tables := [];
     wk_column_orders := [two_columns]; wk_import_summary := None; wk_created_at := 5; wk_updated_at := 6 |}.
Definition arranged_world : workspace_world unit PostgresCatalog :=
  {| ww_workspaces := {| wr_records := [("alice", [(draft_id, arranged)])]; wr_max_workspaces_per_owner := 10; wr_max_table_positions_per_owner := 10;
       wr_max_column_display_order_entries_per_owner := 10; wr_has_designs := true; wr_mutation_guards := [] |};
     ww_migrations := InMemoryMigrationRepository start_designs |}.
Definition emptied : PostgresTable :=
  {| pb_namespace := "public"; pb_name := "people"; pb_kind := PlainTable; pb_is_partition := false; pb_partition_key := None;
     pb_columns := []; pb_primary_key := None; pb_unique_constraints := []; pb_checks := []; pb_not_null_constraints := [];
     pb_exclusion_constraints := []; pb_indexes := []; pb_triggers := [] |}.
Definition emptied_catalog : PostgresCatalog :=
  {| pg_content := {| pg_database := "shop"; pg_namespace := "public"; pg_server_version := "17.1"; pg_server_version_num := 170001;
       pg_server_timezone := "UTC"; pg_types := []; pg_tables := [emptied]; pg_relationships := []; pg_functions := []; pg_views := [];
       pg_materialized_views := [] |}; pg_captured_at := 0; pg_fingerprint := "" |}.
Definition emptied_access : target_access := {| tac_connection := Ok shop_connection; tac_catalog := fun _ => Ok emptied_catalog |}.

Lemma emptied_table_hides_catalog_witness :
  get_workspace_catalog "alice" emptied_access draft_id arranged_world = (arranged_world, Err UncaughtModel).
Proof.
  apply (emptied_table_hides_catalog "alice" emptied_access draft_id shop_connection emptied_catalog emptied two_columns arranged);
    try reflexivity; [eexists; reflexivity|left..].
Defined.
