(* ===== verification/ConsoleStore.v ===== *)
(** * Console receipts

    The in-memory repository of [schemii/console/repository.py]: executions, explicit
    transactions, retained results, saved queries, query history and preferences of the
    SQL console, with the models of [common/postgres/console/models.py] and
    [schemii/console/models.py] they are stored as.

    - Every dictionary of the code is a list of items in the order of insertion.
    - [now] is the clock reading a call is given, a token is what [secrets.token_hex(16)]
      returns; [succeed] draws one per result, [token i] for the [i]-th.
    - [casefold] is Python's [str.casefold].
    - [model_copy] checks nothing; building a model checks its fields and raises
      [ConsoleModelRefused] (Pydantic's [ValidationError]). *)

From Stdlib Require Import Ascii String.
From S2P Require Import Prelude Json PyString DesignModels.
Open Scope string_scope.
Open Scope method_scope.

(** ** Models *)

Inductive console_status :=
| CReserved | CRunning | CSucceeded | CFailed | CCancelled | CPartialCommitted | CUncertain.
#[global] Instance console_status_dec : EqDecision console_status.
Proof. solve_decision. Defined.

Inductive transaction_status :=
| TOpen | TCommitted | TRolledBack | TExpired | TFailed | TUncertain.
#[global] Instance transaction_status_dec : EqDecision transaction_status.
Proof. solve_decision. Defined.

Record ConsoleResultColumn := {
  rc_name : string;
  rc_data_type : string;
}.
#[global] Instance ConsoleResultColumn_dec : EqDecision ConsoleResultColumn.
Proof. solve_decision. Defined.

(** What a statement gave: a row is a list of JSON values. *)
Record ConsoleQueryResult := {
  qr_statement_index : Z;
  qr_command : string;
  qr_columns : list ConsoleResultColumn;
  qr_rows : list (list json);
  qr_truncated : bool;
  qr_row_count : option Z;
  qr_replayable : bool;
}.

Record ConsoleResultSummary := {
  rs_id : string;
  rs_statement_index : Z;
  rs_command : string;
  rs_columns : list ConsoleResultColumn;
  rs_row_count : option Z;
  rs_has_more : bool;
  rs_replayable : bool;
}.
Definition ConsoleResultSummary_check (s : ConsoleResultSummary) : bool :=
  prefixed_hex "res_" 32 (rs_id s) && bool_decide (0 <= rs_statement_index s)%Z && length_between 1 128 (rs_command s)
  && list_check (fun _ => true) 0 1600 (rs_columns s)
  && match rs_row_count s with Some n => bool_decide (0 <= n)%Z | None => true end.

Record ConsoleExecution := {
  ce_id : string;
  ce_revision : Z;
  ce_workspace_id : option string;
  ce_console_id : string;
  ce_transaction_id : option string;
  ce_status : console_status;
  ce_completed_statement_indexes : list Z;
  ce_results : list ConsoleResultSummary;
  ce_error_code : option string;
  ce_error_message : option string;
  ce_error_statement_index : option Z;
  ce_created_at : Z;
  ce_updated_at : Z;
}.
(** The fields a reservation fills in. *)
Definition optional_check {A} (f : A -> bool) (o : option A) : bool := match o with Some a => f a | None => true end.
Definition ConsoleExecution_check (e : ConsoleExecution) : bool :=
  prefixed_hex "cex_" 32 (ce_id e) && bool_decide (1 <= ce_revision e)%Z
  && optional_check WorkspaceId (ce_workspace_id e) && prefixed_hex "con_" 32 (ce_console_id e)
  && optional_check (prefixed_hex "ctx_" 32) (ce_transaction_id e)
  && forallb (fun i => bool_decide (0 <= i)%Z) (ce_completed_statement_indexes e)
  && list_check ConsoleResultSummary_check 0 1000 (ce_results e)
  && optional_check (length_between 0 128) (ce_error_code e) && optional_check (length_between 0 2048) (ce_error_message e)
  && optional_check (fun i => bool_decide (0 <= i)%Z) (ce_error_statement_index e).

Record ConsoleTransaction := {
  ct_id : string;
  ct_workspace_id : string;
  ct_console_id : string;
  ct_revision : Z;
  ct_status : transaction_status;
  ct_execution_ids : list string;
  ct_created_at : Z;
  ct_updated_at : Z;
  ct_expires_at : Z;
}.
Definition ConsoleTransaction_check (t : ConsoleTransaction) : bool :=
  prefixed_hex "ctx_" 32 (ct_id t) && WorkspaceId (ct_workspace_id t) && prefixed_hex "con_" 32 (ct_console_id t)
  && bool_decide (1 <= ct_revision t)%Z && list_check (fun _ => true) 0 1000 (ct_execution_ids t).

Record ConsoleSavedQuery := {
  sq_id : string;
  sq_workspace_id : string;
  sq_revision : Z;
  sq_name : string;
  sq_sql : string;
  sq_starter : bool;
  sq_created_at : Z;
  sq_updated_at : Z;
}.
Definition QueryName (s : string) : bool := length_between 1 80 s.
Definition QuerySql (s : string) : bool := bool_decide (1 <= Z.of_nat (py_len s) <= 1024 * 1024)%Z.
Definition ConsoleSavedQuery_check (q : ConsoleSavedQuery) : bool :=
  prefixed_hex "sq_" 32 (sq_id q) && WorkspaceId (sq_workspace_id q) && bool_decide (1 <= sq_revision q)%Z
  && QueryName (sq_name q) && QuerySql (sq_sql q).

Arguments ConsoleResultSummary_check : simpl never.
Arguments ConsoleExecution_check : simpl never.
Arguments ConsoleTransaction_check : simpl never.
Arguments ConsoleSavedQuery_check : simpl never.
Arguments QuerySql : simpl never.

Record ConsoleHistoryEntry := {
  hq_sql : string;
  hq_ran_at : Z;
}.

(** ** Records *)

Record ConsoleTarget := {
  tg_connection_id : string;
  tg_connection_revision : Z;
  tg_database : string;
  tg_namespace : string;
  tg_connection_owner_id : option string;
}.
#[global] Instance ConsoleTarget_dec : EqDecision ConsoleTarget.
Proof. solve_decision. Defined.

Record ConsoleExecutionRecord := {
  cer_owner_id : string;
  cer_execution : ConsoleExecution;
  cer_workspace_revision : option Z;
  cer_target : ConsoleTarget;
  cer_statements : list string;
  cer_page_size : Z;
  cer_backend_pid : option Z;
  cer_cancel_requested : bool;
}.

Record ConsoleTransactionRecord := {
  ctr_owner_id : string;
  ctr_transaction : ConsoleTransaction;
  ctr_workspace_revision : Z;
  ctr_target : ConsoleTarget;
  ctr_backend_pid : Z;
  ctr_maximum_expires_at : Z;
}.

Record StoredResult := {
  sr_id : string;
  sr_execution_id : string;
  sr_statement_index : Z;
  sr_command : string;
  sr_columns : list ConsoleResultColumn;
  sr_row_count : option Z;
  sr_truncated : bool;
  sr_replayable : bool;
  sr_expires_at : Z;
  sr_closed_at : option Z;
}.

Inductive console_error :=
| ConsoleNotFoundError
| ConsoleConflictError (code message : string)
| ConsoleResultGoneError
| ConsoleLimitReachedError (resource : string) (limit observed : Z)
| ConsoleStorageUnavailableError
| ConsoleValueError (message : string)
| ConsoleModelRefused.

Record ConsoleRepo := {
  cr_records : list (string * ConsoleExecutionRecord);
  cr_transactions : list (string * ConsoleTransactionRecord);
  cr_results : list (string * StoredResult);
  cr_cursors : list (string * (string * Z * Z * bool));
  cr_saved_queries : list (string * (string * ConsoleSavedQuery));
  cr_history : list (string * string * ConsoleHistoryEntry);
  cr_settings : list (string * (Z * Z));
}.

Definition InMemoryConsoleRepository : ConsoleRepo :=
  {| cr_records := []; cr_transactions := []; cr_results := []; cr_cursors := []; cr_saved_queries := []; cr_history := [];
     cr_settings := [] |}.

Definition put_executions x r : ConsoleRepo :=
  {| cr_records := x; cr_transactions := cr_transactions r; cr_results := cr_results r; cr_cursors := cr_cursors r;
     cr_saved_queries := cr_saved_queries r; cr_history := cr_history r; cr_settings := cr_settings r |}.
Definition put_transactions x r : ConsoleRepo :=
  {| cr_records := cr_records r; cr_transactions := x; cr_results := cr_results r; cr_cursors := cr_cursors r;
     cr_saved_queries := cr_saved_queries r; cr_history := cr_history r; cr_settings := cr_settings r |}.
Definition put_results x r : ConsoleRepo :=
  {| cr_records := cr_records r; cr_transactions := cr_transactions r; cr_results := x; cr_cursors := cr_cursors r;
     cr_saved_queries := cr_saved_queries r; cr_history := cr_history r; cr_settings := cr_settings r |}.
Definition put_cursors x r : ConsoleRepo :=
  {| cr_records := cr_records r; cr_transactions := cr_transactions r; cr_results := cr_results r; cr_cursors := x;
     cr_saved_queries := cr_saved_queries r; cr_history := cr_history r; cr_settings := cr_settings r |}.
Definition put_saved_queries x r : ConsoleRepo :=
  {| cr_records := cr_records r; cr_transactions := cr_transactions r; cr_results := cr_results r; cr_cursors := cr_cursors r;
     cr_saved_queries := x; cr_history := cr_history r; cr_settings := cr_settings r |}.
Definition put_history x r : ConsoleRepo :=
  {| cr_records := cr_records r; cr_transactions := cr_transactions r; cr_results := cr_results r; cr_cursors := cr_cursors r;
     cr_saved_queries := cr_saved_queries r; cr_history := x; cr_settings := cr_settings r |}.
Definition put_settings x r : ConsoleRepo :=
  {| cr_records := cr_records r; cr_transactions := cr_transactions r; cr_results := cr_results r; cr_cursors := cr_cursors r;
     cr_saved_queries := cr_saved_queries r; cr_history := cr_history r; cr_settings := x |}.

Abbreviation console_method := (method ConsoleRepo console_error).

(** ** Copies of receipts *)

(** [_execution]. *)
Definition execution_copy (record : ConsoleExecutionRecord) (status : console_status) (revision now : Z)
    (results : list ConsoleResultSummary) (error_code error_message : option string) (error_statement_index : option Z)
    : ConsoleExecution :=
  let e := cer_execution record in
  {| ce_id := ce_id e; ce_revision := revision; ce_workspace_id := ce_workspace_id e; ce_console_id := ce_console_id e;
     ce_transaction_id := ce_transaction_id e; ce_status := status;
     ce_completed_statement_indexes := rs_statement_index <$> results; ce_results := results;
     ce_error_code := error_code; ce_error_message := error_message; ce_error_statement_index := error_statement_index;
     ce_created_at := ce_created_at e; ce_updated_at := now |}.

(** [model_copy(update={"revision": ..., "updated_at": now})]. *)
Definition execution_touched (e : ConsoleExecution) (now : Z) : ConsoleExecution :=
  {| ce_id := ce_id e; ce_revision := ce_revision e + 1; ce_workspace_id := ce_workspace_id e; ce_console_id := ce_console_id e;
     ce_transaction_id := ce_transaction_id e; ce_status := ce_status e;
     ce_completed_statement_indexes := ce_completed_statement_indexes e; ce_results := ce_results e;
     ce_error_code := ce_error_code e; ce_error_message := ce_error_message e;
     ce_error_statement_index := ce_error_statement_index e; ce_created_at := ce_created_at e; ce_updated_at := now |}.

(** [_replace] with the fields the callers change. *)
Definition replace_record (record : ConsoleExecutionRecord) (execution : ConsoleExecution) (backend_pid : option Z)
    (cancel_requested : bool) : ConsoleExecutionRecord :=
  {| cer_owner_id := cer_owner_id record; cer_execution := execution; cer_workspace_revision := cer_workspace_revision record;
     cer_target := cer_target record; cer_statements := cer_statements record; cer_page_size := cer_page_size record;
     cer_backend_pid := backend_pid; cer_cancel_requested := cancel_requested |}.

(** [_replace_transaction] with a copy of the transaction. *)
Definition transaction_moved (record : ConsoleTransactionRecord) (status : transaction_status) (execution_ids : list string)
    (now expires_at : Z) : ConsoleTransactionRecord :=
  let t := ctr_transaction record in
  {| ctr_owner_id := ctr_owner_id record;
     ctr_transaction := {| ct_id := ct_id t; ct_workspace_id := ct_workspace_id t; ct_console_id := ct_console_id t;
       ct_revision := ct_revision t + 1; ct_status := status; ct_execution_ids := execution_ids;
       ct_created_at := ct_created_at t; ct_updated_at := now; ct_expires_at := expires_at |};
     ctr_workspace_revision := ctr_workspace_revision record; ctr_target := ctr_target record;
     ctr_backend_pid := ctr_backend_pid record; ctr_maximum_expires_at := ctr_maximum_expires_at record |}.

Definition execution_active (record : ConsoleExecutionRecord) : bool :=
  bool_decide (ce_status (cer_execution record) ∈ [CReserved; CRunning]).
Definition transaction_live (record : ConsoleTransactionRecord) : bool :=
  bool_decide (ct_status (ctr_transaction record) ∈ [TOpen; TFailed]).

(** ** Lookups *)

(** [_record]. *)
Definition owned_record (owner_id execution_id : string) : console_method ConsoleExecutionRecord :=
  let* r := m_get in
  match dget execution_id (cr_records r) with
  | Some record => if bool_decide (cer_owner_id record = owner_id) then m_return record else m_raise ConsoleNotFoundError
  | None => m_raise ConsoleNotFoundError
  end.

(** [_transaction_record]. *)
Definition owned_transaction (owner_id transaction_id : string) : console_method ConsoleTransactionRecord :=
  let* r := m_get in
  match dget transaction_id (cr_transactions r) with
  | Some record => if bool_decide (ctr_owner_id record = owner_id) then m_return record else m_raise ConsoleNotFoundError
  | None => m_raise ConsoleNotFoundError
  end.

(** [_result]. *)
Definition open_result (execution_id result_id : string) (now : Z) : console_method StoredResult :=
  let* r := m_get in
  match dget result_id (cr_results r) with
  | Some result =>
      if negb (bool_decide (sr_execution_id result = execution_id)) || bool_decide (is_Some (sr_closed_at result))
         || bool_decide (sr_expires_at result <= now)%Z
      then m_raise ConsoleResultGoneError else m_return result
  | None => m_raise ConsoleResultGoneError
  end.

Definition store_record (execution_id : string) (record : ConsoleExecutionRecord) : console_method unit :=
  m_update (fun r => put_executions (dset execution_id record (cr_records r)) r).
Definition store_transaction (transaction_id : string) (record : ConsoleTransactionRecord) : console_method unit :=
  m_update (fun r => put_transactions (dset transaction_id record (cr_transactions r)) r).

(** ** Preferences *)

Definition settings (owner_id : string) : console_method (Z * option Z) :=
  let* r := m_get in
  m_return (match dget owner_id (cr_settings r) with Some (revision, page_size) => (revision, Some page_size) | None => (1%Z, None) end).

Definition update_settings (owner_id : string) (revision page_size : Z) : console_method unit :=
  let* current := settings owner_id in
  m_guard (negb (bool_decide (current.1 = revision)))
    (ConsoleConflictError "console_settings_changed" "Console preferences changed; reload them before saving") ;;*
  m_update (fun r => put_settings (dset owner_id (revision + 1, page_size)%Z (cr_settings r)) r).

(** ** Start-up *)

Definition interrupted (now : Z) (record : ConsoleExecutionRecord) : ConsoleExecutionRecord :=
  if execution_active record then
    replace_record record
      (execution_copy record CFailed (ce_revision (cer_execution record) + 1) now [] (Some "console_execution_interrupted")
         (Some "Console execution stopped before producing a result") None)
      (cer_backend_pid record) (cer_cancel_requested record)
  else record.
Definition recover_interrupted (now : Z) : console_method unit :=
  m_update (fun r => put_executions (map (fun kv => (kv.1, interrupted now kv.2)) (cr_records r)) r).

Definition lost (now : Z) (record : ConsoleTransactionRecord) : ConsoleTransactionRecord :=
  if transaction_live record then transaction_moved record TExpired (ct_execution_ids (ctr_transaction record)) now now else record.
Definition recover_transactions (now : Z) : console_method unit :=
  m_update (fun r => put_transactions (map (fun kv => (kv.1, lost now kv.2)) (cr_transactions r)) r).

Definition old_receipt (before : Z) (record : ConsoleExecutionRecord) : bool :=
  negb (execution_active record) && bool_decide (ce_updated_at (cer_execution record) < before)%Z.
Definition kept_transaction (before : Z) (records : list (string * ConsoleExecutionRecord)) (identifier : string)
    (record : ConsoleTransactionRecord) : bool :=
  transaction_live record || negb (bool_decide (ct_updated_at (ctr_transaction record) < before)%Z)
  || existsb (fun kv => bool_decide (ce_transaction_id (cer_execution kv.2) = Some identifier)) records.
Definition prune_operational_receipts (before : Z) : console_method unit := m_update (fun r =>
  let removable := (filter (fun kv => old_receipt before kv.2 = true) (cr_records r)).*1 in
  let records := filter (fun kv => kv.1 ∉ removable) (cr_records r) in
  let results := filter (fun kv => sr_execution_id kv.2 ∉ removable) (cr_results r) in
  put_transactions (filter (fun kv => kept_transaction before records kv.1 kv.2 = true) (cr_transactions r))
    (put_results results (put_executions records r))).

(** ** Query history *)

Definition newest_first (a b : string * string * ConsoleHistoryEntry) : Prop := (hq_ran_at b.2 <= hq_ran_at a.2)%Z.
#[global] Instance newest_first_dec : RelDecision newest_first.
Proof. intros a b. unfold newest_first. apply _. Defined.

Definition history_key (value : string * string * ConsoleHistoryEntry) : string * string := value.1.

Fixpoint retain_newest (limit : Z) (counts : list (string * string * Z)) (values : list (string * string * ConsoleHistoryEntry))
    : list (string * string * ConsoleHistoryEntry) :=
  match values with
  | [] => []
  | value :: rest =>
      let count := from_option id 0%Z (dget (history_key value) counts) in
      if bool_decide (limit <= count)%Z then retain_newest limit counts rest
      else value :: retain_newest limit (dset (history_key value) (count + 1)%Z counts) rest
  end.

Definition prune_history (limit : Z) : console_method unit := m_update (fun r =>
  if bool_decide (limit <= 0)%Z then put_history [] r
  else put_history (retain_newest limit [] (merge_sort newest_first (cr_history r))) r).

Definition in_workspace (owner_id workspace_id : string) (value : string * string * ConsoleHistoryEntry) : bool :=
  bool_decide (history_key value = (owner_id, workspace_id)).

Definition list_history (owner_id workspace_id : string) (limit : nat) : console_method (list ConsoleHistoryEntry) :=
  let* r := m_get in
  m_return (take limit (snd <$> merge_sort newest_first (filter (fun v => in_workspace owner_id workspace_id v = true) (cr_history r)))).

(** [for index in reversed(owned[:-limit]): del history[index]]: the first [n] entries of a
    workspace go. *)
Fixpoint drop_owned (owned : string * string * ConsoleHistoryEntry -> bool) (n : nat) (l : list (string * string * ConsoleHistoryEntry)) :=
  match l with
  | [] => []
  | value :: rest =>
      match n with
      | 0 => l
      | S n' => if owned value then drop_owned owned n' rest else value :: drop_owned owned n rest
      end
  end.

Definition record_history (owner_id workspace_id sql : string) (ran_at limit : Z) : console_method unit :=
  if bool_decide (limit <= 0)%Z then m_return tt else
  m_guard (negb (QuerySql sql)) ConsoleModelRefused ;;*
  m_update (fun r =>
    let appended := (cr_history r ++ [(owner_id, workspace_id, {| hq_sql := sql; hq_ran_at := ran_at |})])%list in
    let owned := in_workspace owner_id workspace_id in
    put_history (drop_owned owned (length (filter (fun v => owned v = true) appended) - Z.to_nat limit) appended) r).

(** ** Executions *)

(** [_purge]. *)
Definition purge (now : Z) : console_method unit := m_update (fun r =>
  let expired := filter (fun kv => (sr_expires_at kv.2 <= now)%Z \/ is_Some (sr_closed_at kv.2)) (cr_results r) in
  put_cursors (filter (fun kv => kv.2.1.1.1 ∉ expired.*1 /\ (now < kv.2.1.2)%Z) (cr_cursors r))
    (put_results (filter (fun kv => kv.1 ∉ expired.*1) (cr_results r)) r)).

(** An active execution of the same workspace, or of the same editor outside a workspace. *)
Definition competes (owner_id : string) (workspace_id : option string) (console_id : string) (item : ConsoleExecutionRecord) : bool :=
  bool_decide (cer_owner_id item = owner_id) && bool_decide (ce_workspace_id (cer_execution item) = workspace_id)
  && (bool_decide (is_Some workspace_id) || bool_decide (ce_console_id (cer_execution item) = console_id))
  && execution_active item.

Definition reserved_execution (token : string) (workspace_id : option string) (console_id : string) (transaction_id : option string)
    (now : Z) : ConsoleExecution :=
  {| ce_id := "cex_" ++ token; ce_revision := 1; ce_workspace_id := workspace_id; ce_console_id := console_id;
     ce_transaction_id := transaction_id; ce_status := CReserved; ce_completed_statement_indexes := []; ce_results := [];
     ce_error_code := None; ce_error_message := None; ce_error_statement_index := None; ce_created_at := now; ce_updated_at := now |}.

(** The transaction a reservation is for. *)
Definition reserved_transaction (owner_id : string) (workspace_id : option string) (transaction_id : string)
    (expected_revision transaction_expires_at : option Z) : console_method (ConsoleTransactionRecord * Z) :=
  let* record := owned_transaction owner_id transaction_id in
  m_guard (negb (bool_decide (Some (ct_workspace_id (ctr_transaction record)) = workspace_id))) ConsoleNotFoundError ;;*
  m_guard (negb (bool_decide (ct_status (ctr_transaction record) = TOpen)))
    (ConsoleConflictError "console_transaction_not_open" "The Console transaction is not open") ;;*
  m_guard (negb (bool_decide (Some (ct_revision (ctr_transaction record)) = expected_revision)))
    (ConsoleConflictError "console_transaction_changed" "The Console transaction changed after the editor loaded") ;;*
  match transaction_expires_at with
  | Some expires_at => m_return (record, expires_at)
  | None => m_raise (ConsoleConflictError "console_transaction_expired" "The Console transaction expiry is unavailable")
  end.

Definition reserve (token owner_id : string) (workspace_id : option string) (console_id : string) (workspace_revision : option Z)
    (target : ConsoleTarget) (statements : list string) (page_size now : Z) (transaction_id : option string)
    (expected_transaction_revision transaction_expires_at : option Z) : console_method ConsoleExecutionRecord :=
  purge now ;;*
  let* r := m_get in
  m_guard (existsb (fun kv => competes owner_id workspace_id console_id kv.2) (cr_records r))
    (ConsoleConflictError "console_execution_active"
       (match workspace_id with
        | None => "This query editor already has an active execution"
        | Some _ => "This workspace already has an active Console execution"
        end)) ;;*
  let identifier := "cex_" ++ token in
  let* transaction_record :=
    match transaction_id with
    | None => m_return None
    | Some id => let* found := reserved_transaction owner_id workspace_id id expected_transaction_revision transaction_expires_at in
                 m_return (Some (id, found))
    end in
  let execution := reserved_execution token workspace_id console_id transaction_id now in
  m_guard (negb (ConsoleExecution_check execution)) ConsoleModelRefused ;;*
  let record := {| cer_owner_id := owner_id; cer_execution := execution; cer_workspace_revision := workspace_revision;
                   cer_target := target; cer_statements := statements; cer_page_size := page_size;
                   cer_backend_pid := None; cer_cancel_requested := false |} in
  store_record identifier record ;;*
  match transaction_record with
  | None => m_return record
  | Some (id, (found, expires_at)) =>
      store_transaction id (transaction_moved found (ct_status (ctr_transaction found))
        (ct_execution_ids (ctr_transaction found) ++ [identifier])%list now expires_at) ;;*
      m_return record
  end.

Definition claim (owner_id execution_id : string) (now : Z) : console_method (option ConsoleExecutionRecord) :=
  let* record := owned_record owner_id execution_id in
  if negb (bool_decide (ce_status (cer_execution record) = CReserved)) || cer_cancel_requested record then m_return None else
  let updated := replace_record record
    (execution_copy record CRunning (ce_revision (cer_execution record) + 1) now [] None None None)
    (cer_backend_pid record) (cer_cancel_requested record) in
  store_record execution_id updated ;;*
  m_return (Some updated).

Definition publish_backend (owner_id execution_id : string) (backend_pid now : Z) : console_method bool :=
  let* record := owned_record owner_id execution_id in
  if negb (bool_decide (ce_status (cer_execution record) = CRunning)) then m_return false else
  let updated := replace_record record (execution_touched (cer_execution record) now) (Some backend_pid) (cer_cancel_requested record) in
  store_record execution_id updated ;;*
  m_return (negb (cer_cancel_requested updated)).

Definition fail (owner_id execution_id code message : string) (statement_index : option Z) (cancelled : bool) (now : Z)
    : console_method ConsoleExecutionRecord :=
  let* record := owned_record owner_id execution_id in
  if bool_decide (ce_status (cer_execution record) ∈ [CSucceeded; CFailed; CCancelled]) then m_return record else
  let updated := replace_record record
    (execution_copy record (if cancelled then CCancelled else CFailed) (ce_revision (cer_execution record) + 1) now []
       (Some code) (Some message) statement_index)
    None (cancelled || cer_cancel_requested record) in
  store_record execution_id updated ;;*
  m_return updated.

Definition stored_row_count (query : ConsoleQueryResult) : option Z :=
  match qr_row_count query with
  | Some n => Some n
  | None => if qr_replayable query then None else Some (Z.of_nat (length (qr_rows query)))
  end.

Definition stored_result (result_id execution_id : string) (query : ConsoleQueryResult) (expires_at : Z) : StoredResult :=
  {| sr_id := result_id; sr_execution_id := execution_id; sr_statement_index := qr_statement_index query;
     sr_command := qr_command query; sr_columns := qr_columns query; sr_row_count := stored_row_count query;
     sr_truncated := qr_truncated query; sr_replayable := qr_replayable query; sr_expires_at := expires_at; sr_closed_at := None |}.

Definition result_summary (result_id : string) (page_size : Z) (query : ConsoleQueryResult) : ConsoleResultSummary :=
  {| rs_id := result_id; rs_statement_index := qr_statement_index query; rs_command := qr_command query;
     rs_columns := qr_columns query; rs_row_count := stored_row_count query;
     rs_has_more := match qr_row_count query with Some n => bool_decide (page_size < n)%Z | None => qr_replayable query end;
     rs_replayable := qr_replayable query |}.

(** The loop over the results of an execution. *)
Fixpoint store_results (token : nat -> string) (i : nat) (execution_id : string) (page_size expires_at : Z)
    (results : list ConsoleQueryResult) : console_method (list ConsoleResultSummary) :=
  match results with
  | [] => m_return []
  | query :: rest =>
      let result_id := "res_" ++ token i in
      m_update (fun r => put_results (dset result_id (stored_result result_id execution_id query expires_at) (cr_results r)) r) ;;*
      let summary := result_summary result_id page_size query in
      m_guard (negb (ConsoleResultSummary_check summary)) ConsoleModelRefused ;;*
      let* summaries := store_results token (S i) execution_id page_size expires_at rest in
      m_return (summary :: summaries)
  end.

Definition succeed (token : nat -> string) (owner_id execution_id : string) (results : list ConsoleQueryResult)
    (expires_at now : Z) : console_method ConsoleExecutionRecord :=
  let* record := owned_record owner_id execution_id in
  if cer_cancel_requested record then
    fail owner_id execution_id "postgres_console_cancelled" "Console execution was cancelled" None true now
  else
  let* summaries := store_results token 0 execution_id (cer_page_size record) expires_at results in
  let updated := replace_record record
    (execution_copy record CSucceeded (ce_revision (cer_execution record) + 1) now summaries None None None)
    None (cer_cancel_requested record) in
  store_record execution_id updated ;;*
  m_return updated.

Definition get_record (owner_id execution_id : string) : console_method ConsoleExecutionRecord := owned_record owner_id execution_id.

Definition request_cancel (owner_id execution_id : string) (now : Z) : console_method ConsoleExecutionRecord :=
  let* record := owned_record owner_id execution_id in
  if bool_decide (ce_status (cer_execution record) = CReserved) then
    fail owner_id execution_id "postgres_console_cancelled" "Console execution was cancelled" None true now
  else if negb (bool_decide (ce_status (cer_execution record) = CRunning)) then m_return record else
  let updated := replace_record record (execution_touched (cer_execution record) now) (cer_backend_pid record) true in
  store_record execution_id updated ;;*
  m_return updated.

(** ** Explicit transactions *)

Definition opened_transaction (token workspace_id console_id : string) (created_at expires_at : Z) : ConsoleTransaction :=
  {| ct_id := "ctx_" ++ token; ct_workspace_id := workspace_id; ct_console_id := console_id; ct_revision := 1; ct_status := TOpen;
     ct_execution_ids := []; ct_created_at := created_at; ct_updated_at := created_at; ct_expires_at := expires_at |}.

Definition occupies (owner_id workspace_id : string) (item : ConsoleTransactionRecord) : bool :=
  bool_decide (ctr_owner_id item = owner_id) && bool_decide (ct_workspace_id (ctr_transaction item) = workspace_id)
  && transaction_live item.

Definition create_transaction (token owner_id workspace_id console_id : string) (workspace_revision : Z) (target : ConsoleTarget)
    (backend_pid created_at expires_at maximum_expires_at : Z) : console_method ConsoleTransactionRecord :=
  let* r := m_get in
  m_guard (existsb (fun kv => occupies owner_id workspace_id kv.2) (cr_transactions r))
    (ConsoleConflictError "console_transaction_active" "This workspace already has an open Console transaction") ;;*
  let transaction := opened_transaction token workspace_id console_id created_at expires_at in
  m_guard (negb (ConsoleTransaction_check transaction)) ConsoleModelRefused ;;*
  let record := {| ctr_owner_id := owner_id; ctr_transaction := transaction; ctr_workspace_revision := workspace_revision;
                   ctr_target := target; ctr_backend_pid := backend_pid; ctr_maximum_expires_at := maximum_expires_at |} in
  store_transaction ("ctx_" ++ token) record ;;*
  m_return record.

Definition get_transaction (owner_id transaction_id : string) : console_method ConsoleTransactionRecord :=
  owned_transaction owner_id transaction_id.

Definition finish_transaction (owner_id workspace_id transaction_id : string) (expected_revision : Z)
    (terminal_status : transaction_status) (now : Z) : console_method ConsoleTransactionRecord :=
  m_guard (negb (bool_decide (terminal_status ∈ [TCommitted; TRolledBack; TUncertain])))
    (ConsoleValueError "Unsupported Console transaction terminal status") ;;*
  let* record := owned_transaction owner_id transaction_id in
  m_guard (negb (bool_decide (ct_workspace_id (ctr_transaction record) = workspace_id))) ConsoleNotFoundError ;;*
  m_guard (negb (bool_decide (ct_revision (ctr_transaction record) = expected_revision)))
    (ConsoleConflictError "console_transaction_changed" "The Console transaction changed after the confirmation opened") ;;*
  if negb (transaction_live record) then m_return record else
  let updated := transaction_moved record terminal_status (ct_execution_ids (ctr_transaction record)) now now in
  store_transaction transaction_id updated ;;*
  m_return updated.

Definition fail_transaction (owner_id transaction_id : string) (now : Z) : console_method ConsoleTransactionRecord :=
  let* record := owned_transaction owner_id transaction_id in
  if negb (bool_decide (ct_status (ctr_transaction record) = TOpen)) then m_return record else
  let updated := transaction_moved record TFailed (ct_execution_ids (ctr_transaction record)) now
    (ct_expires_at (ctr_transaction record)) in
  store_transaction transaction_id updated ;;*
  m_return updated.

Definition expire_transaction (owner_id transaction_id : string) (now : Z) : console_method ConsoleTransactionRecord :=
  let* record := owned_transaction owner_id transaction_id in
  if negb (transaction_live record) then m_return record else
  let updated := transaction_moved record TExpired (ct_execution_ids (ctr_transaction record)) now now in
  store_transaction transaction_id updated ;;*
  m_return updated.

(** ** Retained results *)

(** The record of an execution of a workspace. *)
Definition workspace_record (owner_id : string) (workspace_id : option string) (execution_id : string)
    : console_method ConsoleExecutionRecord :=
  let* record := owned_record owner_id execution_id in
  m_guard (negb (bool_decide (ce_workspace_id (cer_execution record) = workspace_id))) ConsoleNotFoundError ;;*
  m_return record.

(** Rows are not kept in this repository: every page is gone. *)
Definition page (owner_id : string) (workspace_id : option string) (execution_id result_id : string) (cursor : option string)
    (now : Z) : console_method unit :=
  let* _ := workspace_record owner_id workspace_id execution_id in
  let* _ := open_result execution_id result_id now in
  match cursor with
  | None => m_raise ConsoleResultGoneError
  | Some token =>
      let* r := m_get in
      match dget token (cr_cursors r) with
      | None => m_raise ConsoleResultGoneError
      | Some (cursor_result, offset, expires_at, consumed) =>
          m_guard (consumed || negb (bool_decide (cursor_result = result_id)) || bool_decide (expires_at <= now)%Z)
            ConsoleResultGoneError ;;*
          m_update (fun r => put_cursors (dset token (cursor_result, offset, expires_at, true) (cr_cursors r)) r) ;;*
          m_raise ConsoleResultGoneError
      end
  end.

Definition close_result (owner_id : string) (workspace_id : option string) (execution_id result_id : string) (now : Z)
    : console_method unit :=
  let* _ := workspace_record owner_id workspace_id execution_id in
  let* result := open_result execution_id result_id now in
  m_update (fun r => put_results (dset result_id
    {| sr_id := sr_id result; sr_execution_id := sr_execution_id result; sr_statement_index := sr_statement_index result;
       sr_command := sr_command result; sr_columns := sr_columns result; sr_row_count := sr_row_count result;
       sr_truncated := sr_truncated result; sr_replayable := sr_replayable result; sr_expires_at := sr_expires_at result;
       sr_closed_at := Some now |} (cr_results r)) r).

(** ** Saved queries *)

Section saved_queries.
Variable casefold : string -> string.

Definition updated_first (a b : ConsoleSavedQuery) : Prop :=
  (sq_updated_at b < sq_updated_at a)%Z \/
  (sq_updated_at b = sq_updated_at a /\ (String.leb (sq_id b) (sq_id a) = true)).
#[global] Instance updated_first_dec : RelDecision updated_first.
Proof. intros a b. unfold updated_first. apply _. Defined.

Definition in_library (owner_id workspace_id : string) (stored : string * ConsoleSavedQuery) : bool :=
  bool_decide (stored.1 = owner_id) && bool_decide (sq_workspace_id stored.2 = workspace_id).
Definition library (r : ConsoleRepo) (owner_id workspace_id : string) : list (string * (string * ConsoleSavedQuery)) :=
  filter (fun kv => in_library owner_id workspace_id kv.2 = true) (cr_saved_queries r).

Definition list_saved_queries (owner_id workspace_id : string) : console_method (list ConsoleSavedQuery) :=
  let* r := m_get in
  m_return (merge_sort updated_first ((fun kv => kv.2.2) <$> library r owner_id workspace_id)).

Definition name_taken (name : string) (queries : list (string * (string * ConsoleSavedQuery))) : bool :=
  existsb (fun kv => bool_decide (casefold (sq_name kv.2.2) = casefold name)) queries.
Definition name_conflict : console_error :=
  ConsoleConflictError "console_saved_query_name_exists" "A saved query already uses this name".
Definition query_changed : console_error :=
  ConsoleConflictError "console_saved_query_changed" "The saved query changed after it was opened".

Definition create_saved_query (token owner_id workspace_id name sql : string) (starter : bool) (now limit : Z)
    : console_method ConsoleSavedQuery :=
  let* r := m_get in
  let count := Z.of_nat (length (library r owner_id workspace_id)) in
  m_guard (bool_decide (limit <= count)%Z) (ConsoleLimitReachedError "saved queries" limit count) ;;*
  m_guard (name_taken name (library r owner_id workspace_id)) name_conflict ;;*
  let query := {| sq_id := "sq_" ++ token; sq_workspace_id := workspace_id; sq_revision := 1; sq_name := name; sq_sql := sql;
                  sq_starter := starter; sq_created_at := now; sq_updated_at := now |} in
  m_guard (negb (ConsoleSavedQuery_check query)) ConsoleModelRefused ;;*
  m_update (fun r => put_saved_queries (dset (sq_id query) (owner_id, query) (cr_saved_queries r)) r) ;;*
  m_return query.

(** The stored query of an owner and a workspace, at the expected revision. *)
Definition stored_query (owner_id workspace_id query_id : string) (expected_revision : Z) : console_method ConsoleSavedQuery :=
  let* r := m_get in
  match dget query_id (cr_saved_queries r) with
  | None => m_raise ConsoleNotFoundError
  | Some stored =>
      m_guard (negb (in_library owner_id workspace_id stored)) ConsoleNotFoundError ;;*
      m_guard (negb (bool_decide (sq_revision stored.2 = expected_revision))) query_changed ;;*
      m_return stored.2
  end.

Definition update_saved_query (owner_id workspace_id query_id : string) (expected_revision : Z) (name sql : option string) (now : Z)
    : console_method ConsoleSavedQuery :=
  let* query := stored_query owner_id workspace_id query_id expected_revision in
  let* r := m_get in
  let next_name := from_option id (sq_name query) name in
  m_guard (name_taken next_name (filter (fun kv => kv.1 <> query_id) (library r owner_id workspace_id))) name_conflict ;;*
  let updated := {| sq_id := sq_id query; sq_workspace_id := sq_workspace_id query; sq_revision := sq_revision query + 1;
                    sq_name := next_name; sq_sql := from_option id (sq_sql query) sql; sq_starter := sq_starter query;
                    sq_created_at := sq_created_at query; sq_updated_at := now |} in
  m_update (fun r => put_saved_queries (dset query_id (owner_id, updated) (cr_saved_queries r)) r) ;;*
  m_return updated.

Definition delete_saved_query (owner_id workspace_id query_id : string) (expected_revision : Z) : console_method unit :=
  let* _ := stored_query owner_id workspace_id query_id expected_revision in
  m_update (fun r => put_saved_queries (dpop query_id (cr_saved_queries r)) r).
End saved_queries.
