(* ===== verification/ConsoleProps.v ===== *)
(** * What the console repository does

    Every call changes executions, transactions and saved queries by one of the elementary
    changes below ([console_change]); the invariant and the life of a receipt are proved
    of these. *)

From Stdlib Require Import Ascii String.
From S2P Require Import Prelude Json PyString DesignModels ConsoleStore DesignStoreSpec.
Open Scope string_scope.
Open Scope list_scope.

#[local] Arguments String.append : simpl never.

Implicit Types (r s : ConsoleRepo) (x y : ConsoleExecutionRecord) (t u : ConsoleTransactionRecord).

(** ** Receipts *)

(** What never changes in the receipt of an execution. *)
Definition receipt_identity x :=
  let e := cer_execution x in
  (cer_owner_id x, ce_id e, ce_workspace_id e, ce_console_id e, ce_transaction_id e, ce_created_at e,
   (cer_workspace_revision x, cer_target x, cer_statements x, cer_page_size x)).

Abbreviation status_of := (fun x => ce_status (cer_execution x)).
Abbreviation revision_of := (fun x => ce_revision (cer_execution x)).

(** One change of a receipt. *)
Record receipt_step x y : Prop := {
  rp_identity : receipt_identity y = receipt_identity x;
  rp_revision : revision_of y = (revision_of x + 1)%Z;
  rp_status : status_of y ∈ [CRunning; CSucceeded; CFailed; CCancelled];
  rp_active : execution_active y = true -> execution_active x = true;
  rp_cancel : cer_cancel_requested x = true -> cer_cancel_requested y = true;
  rp_succeeded : status_of y = CSucceeded -> cer_cancel_requested y = false;
  rp_cancelled : status_of y = CCancelled -> cer_cancel_requested y = true;
  rp_terminal : execution_active x = false -> status_of y = CSucceeded;
}.

(** What never changes in the receipt of a transaction. *)
Definition transaction_identity t :=
  let c := ctr_transaction t in
  (ctr_owner_id t, ct_id c, ct_workspace_id c, ct_console_id c, ct_created_at c,
   (ctr_workspace_revision t, ctr_target t, ctr_backend_pid t, ctr_maximum_expires_at t)).

Abbreviation tx_status := (fun t => ct_status (ctr_transaction t)).
Abbreviation tx_executions := (fun t => ct_execution_ids (ctr_transaction t)).

Record transaction_step t u : Prop := {
  ts_identity : transaction_identity u = transaction_identity t;
  ts_revision : ct_revision (ctr_transaction u) = (ct_revision (ctr_transaction t) + 1)%Z;
  ts_live : transaction_live t = true;
  ts_reopened : tx_status u = TOpen -> tx_status t = TOpen;
  ts_executions : tx_executions t `prefix_of` tx_executions u;
}.

(** ** Invariant *)

(** The place an execution takes: its workspace, or its editor outside a workspace. *)
Definition execution_slot x : string * option string * option string :=
  let e := cer_execution x in
  (cer_owner_id x, ce_workspace_id e, match ce_workspace_id e with Some _ => None | None => Some (ce_console_id e) end).

Definition transaction_slot t : string * string := (ctr_owner_id t, ct_workspace_id (ctr_transaction t)).

Record executions_ok (records : list (string * ConsoleExecutionRecord)) : Prop := {
  eo_wf : dwf records;
  eo_keys : forall k x, dget k records = Some x -> ce_id (cer_execution x) = k;
  eo_one_active : forall k l x y, dget k records = Some x -> dget l records = Some y ->
    execution_active x = true -> execution_active y = true -> execution_slot x = execution_slot y -> k = l;
  eo_cancelled : forall k x, dget k records = Some x -> status_of x = CCancelled -> cer_cancel_requested x = true;
  eo_succeeded : forall k x, dget k records = Some x -> status_of x = CSucceeded -> cer_cancel_requested x = false;
  eo_status : forall k x, dget k records = Some x -> status_of x ∉ [CPartialCommitted; CUncertain];
}.

Record transactions_ok (transactions : list (string * ConsoleTransactionRecord)) : Prop := {
  to_wf : dwf transactions;
  to_keys : forall k t, dget k transactions = Some t -> ct_id (ctr_transaction t) = k;
  to_one_live : forall k l t u, dget k transactions = Some t -> dget l transactions = Some u ->
    transaction_live t = true -> transaction_live u = true -> transaction_slot t = transaction_slot u -> k = l;
}.

(** An execution of a transaction is listed by it. *)
Definition linked (transactions : list (string * ConsoleTransactionRecord)) (k : string) x : Prop :=
  forall id, ce_transaction_id (cer_execution x) = Some id ->
    exists t, dget id transactions = Some t /\ k ∈ tx_executions t /\ ctr_owner_id t = cer_owner_id x /\
              ce_workspace_id (cer_execution x) = Some (ct_workspace_id (ctr_transaction t)).

Section casefold.
Variable casefold : string -> string.

Record queries_ok (queries : list (string * (string * ConsoleSavedQuery))) : Prop := {
  qo_wf : dwf queries;
  qo_names : forall k l p q, dget k queries = Some p -> dget l queries = Some q ->
    p.1 = q.1 -> sq_workspace_id p.2 = sq_workspace_id q.2 -> casefold (sq_name p.2) = casefold (sq_name q.2) -> k = l;
}.

Record console_inv r : Prop := {
  ci_executions : executions_ok (cr_records r);
  ci_transactions : transactions_ok (cr_transactions r);
  ci_linked : forall k x, dget k (cr_records r) = Some x -> linked (cr_transactions r) k x;
  ci_queries : queries_ok (cr_saved_queries r);
}.

(** ** Elementary changes *)

(** [new] is the identifier the change may add. *)
Inductive console_change r (new : option string) : ConsoleRepo -> Prop :=
| change_nothing s :
    cr_records s = cr_records r -> cr_transactions s = cr_transactions r -> cr_saved_queries s = cr_saved_queries r ->
    console_change r new s
| change_reserved s k x :
    new = Some k ->
    dget k (cr_records r) = None -> ce_id (cer_execution x) = k -> ce_transaction_id (cer_execution x) = None ->
    status_of x = CReserved ->
    (forall l y, dget l (cr_records r) = Some y -> execution_active y = true -> execution_slot y <> execution_slot x) ->
    cr_records s = dset k x (cr_records r) -> cr_transactions s = cr_transactions r -> cr_saved_queries s = cr_saved_queries r ->
    console_change r new s
| change_reserved_in s k x id t u :
    new = Some k ->
    dget k (cr_records r) = None -> ce_id (cer_execution x) = k -> ce_transaction_id (cer_execution x) = Some id ->
    status_of x = CReserved ->
    (forall l y, dget l (cr_records r) = Some y -> execution_active y = true -> execution_slot y <> execution_slot x) ->
    dget id (cr_transactions r) = Some t -> transaction_step t u -> k ∈ tx_executions u ->
    ctr_owner_id t = cer_owner_id x -> ce_workspace_id (cer_execution x) = Some (ct_workspace_id (ctr_transaction t)) ->
    tx_status u = TOpen ->
    cr_records s = dset k x (cr_records r) -> cr_transactions s = dset id u (cr_transactions r) ->
    cr_saved_queries s = cr_saved_queries r ->
    console_change r new s
| change_receipt s k x y :
    dget k (cr_records r) = Some x -> receipt_step x y ->
    cr_records s = dset k y (cr_records r) -> cr_transactions s = cr_transactions r -> cr_saved_queries s = cr_saved_queries r ->
    console_change r new s
| change_receipts s (f : ConsoleExecutionRecord -> ConsoleExecutionRecord) :
    (forall x, f x = x \/ receipt_step x (f x)) ->
    cr_records s = map (fun kv => (kv.1, f kv.2)) (cr_records r) -> cr_transactions s = cr_transactions r ->
    cr_saved_queries s = cr_saved_queries r -> console_change r new s
| change_opened s k t :
    new = Some k ->
    dget k (cr_transactions r) = None -> ct_id (ctr_transaction t) = k -> tx_status t = TOpen ->
    (forall l u, dget l (cr_transactions r) = Some u -> transaction_live u = true -> transaction_slot u <> transaction_slot t) ->
    cr_records s = cr_records r -> cr_transactions s = dset k t (cr_transactions r) -> cr_saved_queries s = cr_saved_queries r ->
    console_change r new s
| change_transaction s k t u :
    dget k (cr_transactions r) = Some t -> transaction_step t u ->
    cr_records s = cr_records r -> cr_transactions s = dset k u (cr_transactions r) -> cr_saved_queries s = cr_saved_queries r ->
    console_change r new s
| change_transactions s (f : ConsoleTransactionRecord -> ConsoleTransactionRecord) :
    (forall t, f t = t \/ transaction_step t (f t)) ->
    cr_records s = cr_records r -> cr_transactions s = map (fun kv => (kv.1, f kv.2)) (cr_transactions r) ->
    cr_saved_queries s = cr_saved_queries r -> console_change r new s
| change_pruned s (keep : string -> ConsoleExecutionRecord -> Prop) (retain : string -> ConsoleTransactionRecord -> Prop)
    `{forall k x, Decision (keep k x)} `{forall k t, Decision (retain k t)} :
    (forall k x, execution_active x = true -> dget k (cr_records r) = Some x -> keep k x) ->
    (forall k t, transaction_live t = true -> retain k t) ->
    (forall k x id t, dget k (cr_records r) = Some x -> keep k x -> ce_transaction_id (cer_execution x) = Some id ->
       retain id t) ->
    cr_records s = filter (fun kv => keep kv.1 kv.2) (cr_records r) ->
    cr_transactions s = filter (fun kv => retain kv.1 kv.2) (cr_transactions r) ->
    cr_saved_queries s = cr_saved_queries r -> console_change r new s
| change_query s k (p : string * ConsoleSavedQuery) :
    (forall l q, dget l (cr_saved_queries r) = Some q -> l <> k -> p.1 = q.1 -> sq_workspace_id p.2 = sq_workspace_id q.2 ->
       casefold (sq_name p.2) <> casefold (sq_name q.2)) ->
    cr_records s = cr_records r -> cr_transactions s = cr_transactions r ->
    cr_saved_queries s = dset k p (cr_saved_queries r) -> console_change r new s
| change_unsaved s k :
    cr_records s = cr_records r -> cr_transactions s = cr_transactions r ->
    cr_saved_queries s = dpop k (cr_saved_queries r) -> console_change r new s.
End casefold.

(** ** The changes keep the invariant *)

Section pointwise.
Context {V : Type}.
Implicit Types (d e : list (string * V)).

(** Each item of [e] is one of [d], or one of its changes. *)
Definition follows (R : V -> V -> Prop) d e : Prop :=
  dwf e /\ forall k w, dget k e = Some w -> exists v, dget k d = Some v /\ (w = v \/ R v w).

Lemma follows_refl R d : dwf d -> follows R d d.
Proof. intros Hd. split; [done|]. eauto. Qed.

Lemma follows_dset (R : V -> V -> Prop) d k v w : dwf d -> dget k d = Some v -> R v w -> follows R d (dset k w d).
Proof.
  intros Hd Hv HR. split; [by apply dset_wf|]. intros l w'. rewrite dget_dset. case_decide; [|eauto].
  intros [= <-]. subst. eauto.
Qed.

Lemma follows_map (R : V -> V -> Prop) d (f : V -> V) :
  dwf d -> (forall v, f v = v \/ R v (f v)) -> follows R d (map (fun kv => (kv.1, f kv.2)) d).
Proof.
  intros Hd Hf. split; [unfold dwf; by rewrite dkeys_map|]. intros k w. rewrite dget_map. intros (v & Hv & ->)%fmap_Some.
  exists v. split; [done|]. apply Hf.
Qed.

Lemma follows_filter R d (P : string * V -> Prop) `{forall kv, Decision (P kv)} : dwf d -> follows R d (filter P d).
Proof.
  intros Hd. assert (dwf (filter P d)) as Hwf.
  { unfold dwf, dkeys in *. eapply NoDup_submseteq_fmap; [|exact Hd]. apply sublist_submseteq, sublist_filter. }
  split; [done|]. intros k w [_ Hin]%dget_Some_elem%list_elem_of_filter. exists w. split; [by apply dget_elem_wf|by left].
Qed.
End pointwise.

Lemma same_receipt x y : receipt_identity y = receipt_identity x ->
  cer_owner_id y = cer_owner_id x /\ ce_id (cer_execution y) = ce_id (cer_execution x) /\
  ce_workspace_id (cer_execution y) = ce_workspace_id (cer_execution x) /\
  ce_console_id (cer_execution y) = ce_console_id (cer_execution x) /\
  ce_transaction_id (cer_execution y) = ce_transaction_id (cer_execution x).
Proof. unfold receipt_identity. cbv zeta. intros [=]. done. Qed.

Lemma same_transaction t u : transaction_identity u = transaction_identity t ->
  ctr_owner_id u = ctr_owner_id t /\ ct_id (ctr_transaction u) = ct_id (ctr_transaction t) /\
  ct_workspace_id (ctr_transaction u) = ct_workspace_id (ctr_transaction t).
Proof. unfold transaction_identity. cbv zeta. intros [=]. done. Qed.

Lemma receipt_slot x y : receipt_step x y -> execution_slot y = execution_slot x.
Proof. intros [(Ho & _ & Hw & Hc & _)%same_receipt _ _ _ _ _ _ _]. unfold execution_slot. by rewrite Ho, Hw, Hc. Qed.

Lemma receipt_link transactions k x y : receipt_step x y -> linked transactions k x -> linked transactions k y.
Proof. intros [(Ho & _ & Hw & _ & Htx)%same_receipt _ _ _ _ _ _ _] Hl id. rewrite Htx, Ho, Hw. apply Hl. Qed.

Lemma settled_status st : st ∈ [CRunning; CSucceeded; CFailed; CCancelled] -> st ∉ [CPartialCommitted; CUncertain].
Proof. rewrite !list_elem_of_In. simpl. intuition congruence. Qed.

Lemma executions_follow d e : executions_ok d -> follows receipt_step d e -> executions_ok e.
Proof.
  intros [Hwf Hk Ha Hc Hn Hs] [He Hf]. split; [done|..].
  - intros k y Hy. destruct (Hf _ _ Hy) as (x & Hx & [->|[Hid _ _ _ _ _ _ _]]); [eauto|].
    apply same_receipt in Hid as (_ & -> & _). eauto.
  - intros k l y y' Hy Hy' Hay Hay' Hslot.
    destruct (Hf _ _ Hy) as (x & Hx & Hxy), (Hf _ _ Hy') as (x' & Hx' & Hxy').
    eapply (Ha k l x x'); [done|done|..].
    + destruct Hxy as [->|Hxy]; [done|by eapply rp_active].
    + destruct Hxy' as [->|Hxy']; [done|by eapply rp_active].
    + destruct Hxy as [->|Hxy%receipt_slot], Hxy' as [->|Hxy'%receipt_slot]; congruence.
  - intros k y Hy. destruct (Hf _ _ Hy) as (x & Hx & [->|Hxy]); [eauto|]. apply Hxy.
  - intros k y Hy. destruct (Hf _ _ Hy) as (x & Hx & [->|Hxy]); [eauto|]. apply Hxy.
  - intros k y Hy. destruct (Hf _ _ Hy) as (x & Hx & [->|Hxy]); [eauto|]. destruct Hxy as [_ _ Hst _ _ _ _ _]. by apply settled_status.
Qed.

Lemma executions_reserved d k x :
  executions_ok d -> dget k d = None -> ce_id (cer_execution x) = k -> status_of x = CReserved ->
  (forall l y, dget l d = Some y -> execution_active y = true -> execution_slot y <> execution_slot x) ->
  executions_ok (dset k x d).
Proof.
  intros [Hwf Hk Ha Hc Hn Hs] Hnew Hid Hst Hslot. split; [by apply dset_wf|..].
  - intros k' y. rewrite dget_dset. case_decide as Hk'; [|apply Hk]. intros [= <-]. congruence.
  - intros k' l' y z. rewrite !dget_dset. case_decide as Hk1; case_decide as Hk2; [congruence|..|apply Ha].
    + intros [= <-] Hz _ Haz Heq. destruct (Hslot _ _ Hz Haz). done.
    + intros Hy [= <-] Hay _ Heq. destruct (Hslot _ _ Hy Hay). done.
  - intros k' y. rewrite dget_dset. case_decide; [|apply Hc]. intros [= <-]. congruence.
  - intros k' y. rewrite dget_dset. case_decide; [|apply Hn]. intros [= <-]. congruence.
  - intros k' y. rewrite dget_dset. case_decide; [|apply Hs]. intros [= <-]. rewrite Hst. by apply (bool_decide_unpack _).
Qed.

Lemma transaction_step_slot t u : transaction_step t u -> transaction_slot u = transaction_slot t.
Proof. intros [(Ho & _ & Hw)%same_transaction _ _ _ _]. unfold transaction_slot. by rewrite Ho, Hw. Qed.

Lemma transactions_follow d e : transactions_ok d -> follows transaction_step d e -> transactions_ok e.
Proof.
  intros [Hwf Hk Ha] [He Hf]. split; [done|..].
  - intros k y Hy. destruct (Hf _ _ Hy) as (x & Hx & [->|[Hid _ _ _ _]]); [eauto|].
    apply same_transaction in Hid as (_ & -> & _). eauto.
  - intros k l y y' Hy Hy' Hay Hay' Hslot.
    destruct (Hf _ _ Hy) as (x & Hx & Hxy), (Hf _ _ Hy') as (x' & Hx' & Hxy').
    eapply (Ha k l x x'); [done|done|..].
    + destruct Hxy as [->|Hxy]; [done|by eapply ts_live].
    + destruct Hxy' as [->|Hxy']; [done|by eapply ts_live].
    + destruct Hxy as [->|Hxy%transaction_step_slot], Hxy' as [->|Hxy'%transaction_step_slot]; congruence.
Qed.

Lemma transactions_opened d k t :
  transactions_ok d -> dget k d = None -> ct_id (ctr_transaction t) = k ->
  (forall l u, dget l d = Some u -> transaction_live u = true -> transaction_slot u <> transaction_slot t) ->
  transactions_ok (dset k t d).
Proof.
  intros [Hwf Hk Ha] Hnew Hid Hslot. split; [by apply dset_wf|..].
  - intros k' y. rewrite dget_dset. case_decide as Hk'; [|apply Hk]. intros [= <-]. congruence.
  - intros k' l' y z. rewrite !dget_dset. case_decide as Hk1; case_decide as Hk2; [congruence|..|apply Ha].
    + intros [= <-] Hz _ Haz Heq. destruct (Hslot _ _ Hz Haz). done.
    + intros Hy [= <-] Hay _ Heq. destruct (Hslot _ _ Hy Hay). done.
Qed.

(** Links survive when no linked transaction disappears. *)
Lemma linked_mono d e k x :
  (forall id t, ce_transaction_id (cer_execution x) = Some id -> dget id d = Some t ->
     exists u, dget id e = Some u /\ (u = t \/ transaction_step t u)) ->
  linked d k x -> linked e k x.
Proof.
  intros Hkeep Hl id Hid. destruct (Hl id Hid) as (t & Ht & Hin & Ho & Hw).
  destruct (Hkeep id t Hid Ht) as (u & Hu & [->|[Hident _ _ _ [more Hmore]]]); [by exists t|].
  exists u. apply same_transaction in Hident as (Hown & _ & Hws).
  split_and!; [done| |congruence|congruence]. rewrite Hmore. set_solver.
Qed.

Lemma change_keeps_links casefold r new s :
  console_change casefold r new s -> dwf (cr_transactions r) -> dwf (cr_records r) ->
  (forall k x, dget k (cr_records r) = Some x -> linked (cr_transactions r) k x) ->
  forall k x, dget k (cr_records s) = Some x -> linked (cr_transactions s) k x.
Proof.
  intros Hc Hwt Hwr Hl.
  assert (forall k x id t u, dget id (cr_transactions r) = Some t -> transaction_step t u ->
    linked (cr_transactions r) k x -> linked (dset id u (cr_transactions r)) k x) as Hone.
  { intros k x id t u Ht Htu. apply linked_mono. intros id' t' _ Ht'. rewrite dget_dset. case_decide; [subst|eauto]. simplify_eq. eauto. }
  destruct Hc as [s -> -> _|s k x Hnew Hn Hid Htx Hst Ha -> -> _|s k x id t u Hnew Hn Hid Htx Hst Ha Ht Hs Hin Ho Hw Hop -> -> _
    |s k x y Hx Hxy -> -> _|s f Hf -> -> _|s k t Hnew Hn Hid Hst Ha -> -> _|s k t u Ht Hs -> -> _|s f Hf -> -> _
    |s keep retain ? ? Hkeep Hret Hboth -> -> _|s k p Hp -> -> _|s k -> -> _]; try done.
  - intros k' x'. rewrite dget_dset. case_decide; [|eauto]. intros [= <-] id. congruence.
  - intros k' x'. rewrite dget_dset. case_decide; [subst k'|eauto using Hone]. intros [= <-] id' Hid'. rewrite Htx in Hid'. injection Hid' as <-.
    exists u. rewrite dget_dset_eq. destruct Hs as [(Hown & _ & Hws)%same_transaction _ _ _ _]. split_and!; [done|done|congruence|congruence].
  - intros k' x'. rewrite dget_dset. case_decide; [subst k'|eauto]. intros [= <-]. eapply receipt_link; eauto.
  - intros k' x'. rewrite dget_map. intros (x & Hx & ->)%fmap_Some. destruct (Hf x) as [->|Hs]; [eauto|]. eapply receipt_link; eauto.
  - intros k' x' Hx'. eapply linked_mono; [|eauto]. intros id' t' _ Ht'. rewrite dget_dset. case_decide; [congruence|eauto].
  - intros k' x' Hx'. eauto.
  - intros k' x' Hx'. eapply linked_mono; [|eauto]. intros id' t' _ Ht'. rewrite dget_map, Ht'. simpl. eexists. split; [done|].
    apply Hf.
  - intros k' x' [Hk Hx']%dget_Some_elem%list_elem_of_filter. simpl in Hk. apply dget_elem_wf in Hx'; [|done].
    eapply linked_mono; [|eauto]. intros id t Hid Ht. exists t. split; [|by left]. apply dget_elem_wf.
    + apply (follows_filter transaction_step _ (fun kv => retain kv.1 kv.2) Hwt).
    + apply list_elem_of_filter. split; [|by apply dget_Some_elem]. simpl. eauto.
Qed.

Lemma change_inv casefold r new s : console_change casefold r new s -> console_inv casefold r -> console_inv casefold s.
Proof.
  intros Hc [He Ht Hl Hq]. pose proof (change_keeps_links _ _ _ _ Hc (to_wf _ Ht) (eo_wf _ He) Hl) as Hlinks.
  assert (executions_ok (cr_records s) /\ transactions_ok (cr_transactions s) /\ queries_ok casefold (cr_saved_queries s)) as (? & ? & ?);
    [|by split].
  clear Hlinks. destruct Hc as [s -> -> ->|s k x Hnew Hn Hid Htx Hst Ha -> -> ->|s k x id t u Hnew Hn Hid Htx Hst Ha Hto Hs Hin Ho Hw Hop -> -> ->
    |s k x y Hx Hxy -> -> ->|s f Hf -> -> ->|s k t Hnew Hn Hid Hst Ha -> -> ->|s k t u Hto Hs -> -> ->|s f Hf -> -> ->
    |s keep retain ? ? Hkeep Hret Hboth -> -> ->|s k p Hp -> -> ->|s k -> -> ->]; split_and!; try done.
  - by apply executions_reserved.
  - by apply executions_reserved.
  - eapply transactions_follow, follows_dset; eauto. apply Ht.
  - eapply executions_follow, follows_dset; eauto. apply He.
  - eapply executions_follow, follows_map; eauto. apply He.
  - by apply transactions_opened.
  - eapply transactions_follow, follows_dset; eauto. apply Ht.
  - eapply transactions_follow, follows_map; eauto. apply Ht.
  - eapply executions_follow, follows_filter; [done|apply He].
  - eapply transactions_follow, follows_filter; [done|apply Ht].
  - destruct Hq as [Hwf Hn]. split; [by apply dset_wf|]. intros k' l' p' q'. rewrite !dget_dset. case_decide as Hk1; case_decide as Hk2; [congruence|..|apply Hn].
    + intros [= <-] Hq' Ho Hw Hc. destruct (Hp _ _ Hq' Hk2 Ho Hw Hc).
    + intros Hp' [= <-] Ho Hw Hc. by destruct (Hp _ _ Hp' Hk1 (eq_sym Ho) (eq_sym Hw)).
  - destruct Hq as [Hwf Hn]. split; [by apply dpop_wf|]. intros k' l' p' q'. rewrite !dget_dpop. repeat case_decide; try done. eauto.
Qed.

(** ** The calls *)

Ltac run_console := unfold m_bind, m_get, m_update, m_lift, m_guard, guard_err, m_return, m_raise in *; simpl in *.

Section binds.
Context {S E A B : Type}.
Lemma bind_get (k : S -> method S E A) (a : S) : m_bind m_get k a = k a a.
Proof. done. Qed.
Lemma bind_update f (k : unit -> method S E A) (a : S) : m_bind (m_update f) k a = k tt (f a).
Proof. done. Qed.
Lemma bind_guard b (e : E) (k : unit -> method S E A) (a : S) : m_bind (m_guard b e) k a = if b then (a, Err e) else k tt a.
Proof. by destruct b. Qed.
Lemma bind_return (b : B) (k : B -> method S E A) (a : S) : m_bind (m_return b) k a = k b a.
Proof. done. Qed.
Lemma bind_bind {C} (m : method S E C) (f : C -> method S E B) (k : B -> method S E A) (a : S) : m_bind (m_bind m f) k a = m_bind m (fun c => m_bind (f c) k) a.
Proof. unfold m_bind. by destruct (m a) as [a' [c|e]]. Qed.
End binds.

Lemma owned_record_spec owner k r :
  (exists x, owned_record owner k r = (r, Ok x) /\ dget k (cr_records r) = Some x /\ cer_owner_id x = owner) \/
  owned_record owner k r = (r, Err ConsoleNotFoundError).
Proof.
  unfold owned_record. run_console. destruct (dget k (cr_records r)) as [x|]; [|by right].
  case_bool_decide; [left; eauto|by right].
Qed.

Lemma owned_transaction_spec owner k r :
  (exists t, owned_transaction owner k r = (r, Ok t) /\ dget k (cr_transactions r) = Some t /\ ctr_owner_id t = owner) \/
  owned_transaction owner k r = (r, Err ConsoleNotFoundError).
Proof.
  unfold owned_transaction. run_console. destruct (dget k (cr_transactions r)) as [t|]; [|by right].
  case_bool_decide; [left; eauto|by right].
Qed.

(** Runs a method up to the lookup of its receipt. *)
Ltac lookup_receipt :=
  match goal with
  | |- context [owned_record ?o ?k ?r] =>
      let Hx := fresh "Hx" in let Ho := fresh "Ho" in let Heq := fresh in
      destruct (owned_record_spec o k r) as [(x & Heq & Hx & Ho)|Heq]; rewrite Heq; clear Heq; simpl
  | |- context [owned_transaction ?o ?k ?r] =>
      let Hx := fresh "Ht" in let Ho := fresh "Ho" in let Heq := fresh in
      destruct (owned_transaction_spec o k r) as [(t & Heq & Hx & Ho)|Heq]; rewrite Heq; clear Heq; simpl
  end.

Section calls.
Variable casefold : string -> string.
Abbreviation change := (console_change casefold).

Lemma unchanged r new : change r new r.
Proof. by apply change_nothing. Qed.

Lemma active_status x : execution_active x = true <-> status_of x = CReserved \/ status_of x = CRunning.
Proof. unfold execution_active. rewrite bool_decide_eq_true, list_elem_of_In. simpl. intuition congruence. Qed.

Lemma inactive_status x : execution_active x = false <-> status_of x <> CReserved /\ status_of x <> CRunning.
Proof. rewrite <-not_true_iff_false, active_status. tauto. Qed.

(** A receipt under a new status. *)
Lemma step_copy x st now results code message index pid cancel :
  st ∈ [CRunning; CSucceeded; CFailed; CCancelled] ->
  (st = CRunning -> execution_active x = true) ->
  (cer_cancel_requested x = true -> cancel = true) -> (st = CSucceeded -> cancel = false) ->
  (st = CCancelled -> cancel = true) ->
  (execution_active x = false -> st = CSucceeded) ->
  receipt_step x (replace_record x (execution_copy x st (revision_of x + 1) now results code message index) pid cancel).
Proof.
  intros Hst Hrun Hcancel Hs Hcc Hterm. split; simpl; try done. intros Ha%active_status. simpl in Ha. apply Hrun.
  destruct Ha as [->|]; [|done]. apply (bool_decide_pack _) in Hst. done.
Qed.

Lemma step_touched x now pid cancel :
  status_of x = CRunning -> (cer_cancel_requested x = true -> cancel = true) ->
  receipt_step x (replace_record x (execution_touched (cer_execution x) now) pid cancel).
Proof.
  intros Hst Hc. split; simpl; rewrite ?Hst; try done; [by apply (bool_decide_unpack _)|..].
  - intros [_ []]%inactive_status. done.
Qed.

Lemma fail_change owner k code message index cancelled now r :
  (forall x, dget k (cr_records r) = Some x -> status_of x ∉ [CPartialCommitted; CUncertain]) ->
  change r None (fail owner k code message index cancelled now r).1.
Proof.
  intros Hst. unfold fail. run_console. lookup_receipt; [|apply unchanged]. case_bool_decide as Hdone; [apply unchanged|].
  eapply (change_receipt _ _ _ _ k x); try done. specialize (Hst x Hx). rewrite list_elem_of_In in Hst, Hdone. simpl in *.
  apply step_copy.
  - destruct cancelled; by apply (bool_decide_unpack _).
  - by destruct cancelled.
  - intros ->. by rewrite orb_true_r.
  - by destruct cancelled.
  - by destruct cancelled.
  - intros [H1 H2]%inactive_status. destruct (ce_status (cer_execution x)); intuition congruence.
Qed.

Lemma claim_change owner k now r : change r None (claim owner k now r).1.
Proof.
  unfold claim. run_console. lookup_receipt; [|apply unchanged]. case_bool_decide as Hst; simpl; [|apply unchanged].
  destruct (cer_cancel_requested x) eqn:Hc; [apply unchanged|]. eapply (change_receipt _ _ _ _ k x); try done. apply step_copy; try done.
  - by apply (bool_decide_unpack _).
  - intros _. apply active_status. by left.
  - congruence.
  - intros [[] _]%inactive_status. done.
Qed.

Lemma publish_change owner k pid now r : change r None (publish_backend owner k pid now r).1.
Proof.
  unfold publish_backend. run_console. lookup_receipt; [|apply unchanged]. case_bool_decide as Hst; simpl; [|apply unchanged].
  eapply (change_receipt _ _ _ _ k x); try done. by apply step_touched.
Qed.

(** The loop over results leaves everything else alone. *)
Lemma store_results_frame token i k page_size expires results r :
  cr_records (store_results token i k page_size expires results r).1 = cr_records r /\
  cr_transactions (store_results token i k page_size expires results r).1 = cr_transactions r /\
  cr_saved_queries (store_results token i k page_size expires results r).1 = cr_saved_queries r.
Proof.
  revert i r. induction results as [|q results IH]; intros i r; [done|]. simpl. run_console.
  destruct (ConsoleResultSummary_check _); [|done]. simpl. set (r' := put_results _ r). specialize (IH (S i) r').
  by destruct (store_results _ _ _ _ _ results r') as [r'' [summaries|e]].
Qed.

Lemma succeed_change token owner k results expires now r :
  console_inv casefold r -> change r None (succeed token owner k results expires now r).1.
Proof.
  intros Hi. unfold succeed. run_console. lookup_receipt; [|apply unchanged].
  destruct (cer_cancel_requested x) eqn:Hc. { apply fail_change. intros y Hy. by eapply eo_status, Hy; apply Hi. }
  pose proof (store_results_frame token 0 k (cer_page_size x) expires results r) as (H1 & H2 & H3).
  destruct (store_results _ _ _ _ _ _ r) as [r' [summaries|e]]; simpl in *; [|by apply change_nothing].
  eapply (change_receipt _ _ _ _ k x); try done; [|by rewrite H1]. apply step_copy; try done; [by apply (bool_decide_unpack _)|congruence].
Qed.

Lemma request_cancel_change owner k now r : console_inv casefold r -> change r None (request_cancel owner k now r).1.
Proof.
  intros Hi. unfold request_cancel. run_console. lookup_receipt; [|apply unchanged].
  case_bool_decide. { apply fail_change. intros y Hy. by eapply eo_status, Hy; apply Hi. }
  case_bool_decide as Hst; simpl; [|apply unchanged]. eapply (change_receipt _ _ _ _ k x); try done. by apply step_touched.
Qed.

Lemma recover_interrupted_change now r : change r None (recover_interrupted now r).1.
Proof.
  eapply (change_receipts _ _ _ _ (interrupted now)); try done. intros x. unfold interrupted.
  destruct (execution_active x) eqn:Ha; [right|by left]. apply step_copy; try done; [by apply (bool_decide_unpack _)|congruence].
Qed.

(** *** Reservations *)

Lemma competes_slot owner ws console y x :
  cer_owner_id x = owner -> ce_workspace_id (cer_execution x) = ws -> ce_console_id (cer_execution x) = console ->
  competes owner ws console y = false -> execution_active y = true -> execution_slot y <> execution_slot x.
Proof.
  intros Ho Hw Hc Hn Ha. unfold execution_slot. rewrite Ho, Hw, Hc. intros Heq. injection Heq as Ho' Hw' Hslot.
  revert Hn. unfold competes. rewrite Ha, Ho', Hw', !bool_decide_eq_true_2 by done. simpl. rewrite andb_true_r.
  rewrite orb_false_iff, !bool_decide_eq_false. intros [Hs Hne]. apply Hne. rewrite Hw' in Hslot.
  destruct ws as [w|]; [by destruct Hs|congruence].
Qed.

Lemma none_competes owner ws console (l : list (string * ConsoleExecutionRecord)) k y :
  existsb (fun kv => competes owner ws console kv.2) l = false -> dget k l = Some y -> competes owner ws console y = false.
Proof. rewrite existsb_false_Forall, Forall_forall. intros Hn Hk%dget_Some_elem. exact (Hn _ Hk). Qed.

Lemma reserved_transaction_spec owner ws id rev exp r :
  match reserved_transaction owner ws id rev exp r with
  | (r', Ok (t, expires)) => r' = r /\ dget id (cr_transactions r) = Some t /\ ctr_owner_id t = owner /\
      ws = Some (ct_workspace_id (ctr_transaction t)) /\ tx_status t = TOpen /\ Some (ct_revision (ctr_transaction t)) = rev /\ exp = Some expires
  | (r', Err _) => r' = r
  end.
Proof.
  unfold reserved_transaction. run_console. lookup_receipt; [|done].
  repeat (case_bool_decide; simpl; [|done]). destruct exp; done.
Qed.

Lemma moved_step t st ids now expires :
  transaction_live t = true -> (st = TOpen -> tx_status t = TOpen) -> tx_executions t `prefix_of` ids ->
  transaction_step t (transaction_moved t st ids now expires).
Proof. intros. by split. Qed.

Lemma purge_frame now r :
  let r' := (purge now r).1 in
  cr_records r' = cr_records r /\ cr_transactions r' = cr_transactions r /\ cr_saved_queries r' = cr_saved_queries r.
Proof. done. Qed.

Lemma reserve_change token owner ws console wrev target statements page_size now tx trev texp r :
  dget ("cex_" ++ token)%string (cr_records r) = None ->
  change r (Some ("cex_" ++ token)%string) (reserve token owner ws console wrev target statements page_size now tx trev texp r).1.
Proof.
  intros Hnew. unfold reserve, m_bind at 1. destruct (purge now r) as [r1 [[]|e]] eqn:Hp; [|done].
  assert (cr_records r1 = cr_records r /\ cr_transactions r1 = cr_transactions r /\ cr_saved_queries r1 = cr_saved_queries r) as (H1 & H2 & H3)
    by (pose proof (purge_frame now r) as Hf; by rewrite Hp in Hf).
  assert (forall r' new, r' = r1 -> change r new r') as Hsame by (intros r' new ->; by apply change_nothing).
  rewrite bind_get, bind_guard. destruct (existsb _ (cr_records r1)) eqn:Hcomp; [by apply Hsame|].
  assert (forall x l y, cer_owner_id x = owner -> ce_workspace_id (cer_execution x) = ws -> ce_console_id (cer_execution x) = console ->
    dget l (cr_records r) = Some y -> execution_active y = true -> execution_slot y <> execution_slot x) as Hslot.
  { intros x l y Ho Hw Hc Hy. rewrite <-H1 in Hy. eapply competes_slot; eauto using none_competes. }
  destruct tx as [id|].
  - rewrite bind_bind. unfold m_bind at 1. pose proof (reserved_transaction_spec owner ws id trev texp r1) as Hspec.
    destruct (reserved_transaction _ _ _ _ _ r1) as [r2 [[t expires]|e]]; [|by apply Hsame].
    destruct Hspec as (-> & Ht & Ho & Hws & Hopen & _ & _). rewrite bind_return, bind_guard.
    destruct (ConsoleExecution_check _); [|by apply Hsame]. cbn [negb]. unfold store_record, store_transaction. rewrite !bind_update. cbn [fst m_return].
    rewrite H2 in Ht. match goal with |- change r _ (put_transactions (dset id ?u _) (put_executions (dset ?k ?x _) _)) =>
      apply (change_reserved_in _ r _ _ k x id t u); simpl; try done; [..|by rewrite H1|by rewrite H2] end.
    + intros l y. by apply Hslot.
    + apply moved_step; [|done|by apply prefix_app_r]. unfold transaction_live. by rewrite Hopen.
    + simpl. apply elem_of_app. right. by apply list_elem_of_singleton.
  - rewrite bind_return, bind_guard. destruct (ConsoleExecution_check _); [|by apply Hsame]. cbn [negb].
    unfold store_record. rewrite bind_update. cbn [fst m_return].
    match goal with |- change r _ (put_executions (dset ?k ?x _) _) =>
      apply (change_reserved _ r _ _ k x); simpl; try done; [|by rewrite H1] end. intros l y. by apply Hslot.
Qed.

(** *** Transactions *)

Lemma create_transaction_change token owner ws console wrev target pid created expires maximum r :
  dget ("ctx_" ++ token)%string (cr_transactions r) = None ->
  change r (Some ("ctx_" ++ token)%string) (create_transaction token owner ws console wrev target pid created expires maximum r).1.
Proof.
  intros Hnew. unfold create_transaction. run_console. destruct (existsb _ (cr_transactions r)) eqn:Hocc; [apply unchanged|]. simpl.
  destruct (ConsoleTransaction_check _); [|apply unchanged]. simpl. match goal with |- change r _ (put_transactions (dset ?k ?x _) _) => apply (change_opened _ r _ _ k x); simpl; try done end.
  rewrite existsb_false_Forall, Forall_forall in Hocc. intros l u Hu%dget_Some_elem Hlive Heq. specialize (Hocc _ Hu). simpl in Hocc.
  unfold occupies in Hocc. rewrite Hlive in Hocc. unfold transaction_slot in Heq. simpl in Heq. injection Heq as Ho Hw.
  by rewrite !bool_decide_eq_true_2 in Hocc.
Qed.

Lemma finish_transaction_change owner ws k rev st now r : change r None (finish_transaction owner ws k rev st now r).1.
Proof.
  unfold finish_transaction. run_console. case_bool_decide as Hst; simpl; [|apply unchanged]. lookup_receipt; [|apply unchanged].
  do 2 (case_bool_decide; simpl; [|apply unchanged]). destruct (transaction_live t) eqn:Hl; simpl; [|apply unchanged].
  eapply (change_transaction _ _ _ _ k t); try done. apply moved_step; [done| |done]. intros ->. by apply (bool_decide_pack _) in Hst.
Qed.

Lemma fail_transaction_change owner k now r : change r None (fail_transaction owner k now r).1.
Proof.
  unfold fail_transaction. run_console. lookup_receipt; [|apply unchanged]. case_bool_decide as Hst; simpl; [|apply unchanged].
  eapply (change_transaction _ _ _ _ k t); try done. apply moved_step; try done. unfold transaction_live. by rewrite Hst.
Qed.

Lemma expire_transaction_change owner k now r : change r None (expire_transaction owner k now r).1.
Proof.
  unfold expire_transaction. run_console. lookup_receipt; [|apply unchanged]. destruct (transaction_live t) eqn:Hl; simpl; [|apply unchanged].
  eapply (change_transaction _ _ _ _ k t); try done. by apply moved_step.
Qed.

Lemma recover_transactions_change now r : change r None (recover_transactions now r).1.
Proof.
  eapply (change_transactions _ _ _ _ (lost now)); try done. intros t. unfold lost. destruct (transaction_live t) eqn:Hl; [right|by left].
  by apply moved_step.
Qed.

(** *** Pruning *)

Lemma prune_change before r : dwf (cr_records r) -> change r None (prune_operational_receipts before r).1.
Proof.
  intros Hwf. unfold prune_operational_receipts. run_console.
  set (removable := (filter (fun kv => old_receipt before kv.2 = true) (cr_records r)).*1).
  set (records := filter (fun kv => kv.1 ∉ removable) (cr_records r)).
  apply (@change_pruned _ r _ _ (fun k _ => k ∉ removable) (fun k t => kept_transaction before records k t = true)
    (fun k _ => _ : Decision (k ∉ removable)) (fun k t => _ : Decision (kept_transaction before records k t = true))); [..|done|done|done].
  - intros k x Ha Hx (kv & -> & [Hold Hin]%list_elem_of_filter)%list_elem_of_fmap. destruct kv as [k y]. simpl in *.
    apply dget_elem_wf in Hin; [|done]. rewrite Hx in Hin. injection Hin as <-. unfold old_receipt in Hold. by rewrite Ha in Hold.
  - intros k t Hl. unfold kept_transaction. by rewrite Hl.
  - intros k x id t Hx Hk Hid. unfold kept_transaction. rewrite !orb_true_iff. right. apply existsb_exists. exists (k, x). split.
    + apply list_elem_of_In, list_elem_of_filter. split; [done|by apply dget_Some_elem].
    + simpl. by apply bool_decide_eq_true_2.
Qed.

(** *** Saved queries *)

Lemma free_name name (queries : list (string * (string * ConsoleSavedQuery))) l q :
  name_taken casefold name queries = false -> (l, q) ∈ queries -> casefold name <> casefold (sq_name q.2).
Proof.
  unfold name_taken. rewrite existsb_false_Forall, Forall_forall. intros Hn Hin%Hn. simpl in Hin.
  apply bool_decide_eq_false in Hin. congruence.
Qed.

Lemma in_library_elem r owner ws l q :
  dget l (cr_saved_queries r) = Some q -> owner = q.1 -> ws = sq_workspace_id q.2 -> (l, q) ∈ library r owner ws.
Proof.
  intros Hq%dget_Some_elem -> ->. apply list_elem_of_filter. split; [|done]. unfold in_library. simpl. by rewrite !bool_decide_eq_true_2.
Qed.

Lemma create_saved_query_change token owner ws name sql starter now limit r :
  change r None (create_saved_query casefold token owner ws name sql starter now limit r).1.
Proof.
  unfold create_saved_query. run_console. case_bool_decide; [apply unchanged|]. simpl.
  destruct (name_taken _ _ _) eqn:Hn; [apply unchanged|]. simpl. destruct (ConsoleSavedQuery_check _); [|apply unchanged]. simpl.
  eapply change_query; try done. simpl. intros l q Hq _ Ho Hw. eapply free_name; [done|]. by apply in_library_elem.
Qed.

Lemma stored_query_spec owner ws id rev r :
  (exists q, stored_query owner ws id rev r = (r, Ok q) /\ dget id (cr_saved_queries r) = Some (owner, q) /\
     sq_workspace_id q = ws /\ sq_revision q = rev) \/
  exists e, stored_query owner ws id rev r = (r, Err e).
Proof.
  unfold stored_query, in_library. run_console. destruct (dget id (cr_saved_queries r)) as [[o q]|]; [|eauto]. simpl.
  case_bool_decide; simpl; [|eauto]. case_bool_decide; simpl; [|eauto]. case_bool_decide; simpl; [|eauto]. subst. left. eauto.
Qed.

Lemma update_saved_query_change owner ws id rev name sql now r :
  change r None (update_saved_query casefold owner ws id rev name sql now r).1.
Proof.
  unfold update_saved_query. run_console. destruct (stored_query_spec owner ws id rev r) as [(q & -> & Hq & Hws & _)|[e ->]]; [|apply unchanged].
  destruct (name_taken _ _ _) eqn:Hn; [apply unchanged|]. simpl. eapply change_query; try done. simpl. intros l p Hp Hl Ho Hw.
  eapply free_name; [done|]. apply list_elem_of_filter. split; [done|]. apply in_library_elem; congruence.
Qed.

Lemma delete_saved_query_change owner ws id rev r : change r None (delete_saved_query owner ws id rev r).1.
Proof.
  unfold delete_saved_query. run_console. destruct (stored_query_spec owner ws id rev r) as [(q & -> & Hq & Hws & _)|[e ->]]; [|apply unchanged].
  by eapply change_unsaved.
Qed.

(** *** Results and cursors *)

Lemma page_change owner ws k result cursor now r : change r None (page owner ws k result cursor now r).1.
Proof.
  unfold page, workspace_record, open_result. run_console. lookup_receipt; [|apply unchanged]. case_bool_decide; simpl; [|apply unchanged].
  destruct (dget result (cr_results r)) as [stored|]; [|apply unchanged]. destruct (_ || _); [apply unchanged|]. simpl.
  destruct cursor as [token|]; [|apply unchanged]. destruct (dget token (cr_cursors r)) as [[[[cr offset] exp] consumed]|]; [|apply unchanged].
  destruct (_ || _); [apply unchanged|]. by apply change_nothing.
Qed.

Lemma close_result_change owner ws k result now r : change r None (close_result owner ws k result now r).1.
Proof.
  unfold close_result, workspace_record, open_result. run_console. lookup_receipt; [|apply unchanged]. case_bool_decide; simpl; [|apply unchanged].
  destruct (dget result (cr_results r)) as [stored|]; [|apply unchanged]. destruct (_ || _); [apply unchanged|]. by apply change_nothing.
Qed.

Lemma update_settings_change owner rev page_size r : change r None (update_settings owner rev page_size r).1.
Proof. unfold update_settings, settings. run_console. case_bool_decide; [|apply unchanged]. by apply change_nothing. Qed.

Lemma prune_history_change limit r : change r None (prune_history limit r).1.
Proof. unfold prune_history. run_console. case_bool_decide; by apply change_nothing. Qed.

Lemma record_history_change owner ws sql ran_at limit r : change r None (record_history owner ws sql ran_at limit r).1.
Proof. unfold record_history. case_bool_decide; [apply unchanged|]. run_console. destruct (QuerySql sql); by apply change_nothing. Qed.
End calls.
