(* ===== verification/ConsoleTheorems.v ===== *)
(** * The life of console receipts

    Runs of the console repository: every sequence of calls, with identifiers that are
    never issued twice. *)

From Stdlib Require Import Ascii String.
From S2P Require Import Prelude Json PyString DesignModels ConsoleStore ConsoleProps.
Open Scope string_scope.
Open Scope list_scope.

Section runs.
Variable casefold : string -> string.

(** A call, with the identifiers issued before and after it. *)
Inductive console_call (issued : list string) (r : ConsoleRepo) : list string -> ConsoleRepo -> Prop :=
| call_reserve token owner ws console wrev target statements page_size now tx trev texp :
    ("cex_" ++ token)%string ∉ issued ->
    console_call issued r (("cex_" ++ token)%string :: issued)
      (reserve token owner ws console wrev target statements page_size now tx trev texp r).1
| call_create_transaction token owner ws console wrev target pid created expires maximum :
    ("ctx_" ++ token)%string ∉ issued ->
    console_call issued r (("ctx_" ++ token)%string :: issued)
      (create_transaction token owner ws console wrev target pid created expires maximum r).1
| call_claim owner k now : console_call issued r issued (claim owner k now r).1
| call_publish_backend owner k pid now : console_call issued r issued (publish_backend owner k pid now r).1
| call_succeed token owner k results expires now : console_call issued r issued (succeed token owner k results expires now r).1
| call_fail owner k code message index cancelled now :
    console_call issued r issued (fail owner k code message index cancelled now r).1
| call_request_cancel owner k now : console_call issued r issued (request_cancel owner k now r).1
| call_finish_transaction owner ws k rev st now : console_call issued r issued (finish_transaction owner ws k rev st now r).1
| call_fail_transaction owner k now : console_call issued r issued (fail_transaction owner k now r).1
| call_expire_transaction owner k now : console_call issued r issued (expire_transaction owner k now r).1
| call_recover_interrupted now : console_call issued r issued (recover_interrupted now r).1
| call_recover_transactions now : console_call issued r issued (recover_transactions now r).1
| call_prune_receipts before : console_call issued r issued (prune_operational_receipts before r).1
| call_prune_history limit : console_call issued r issued (prune_history limit r).1
| call_record_history owner ws sql ran_at limit : console_call issued r issued (record_history owner ws sql ran_at limit r).1
| call_page owner ws k result cursor now : console_call issued r issued (page owner ws k result cursor now r).1
| call_close_result owner ws k result now : console_call issued r issued (close_result owner ws k result now r).1
| call_update_settings owner rev page_size : console_call issued r issued (update_settings owner rev page_size r).1
| call_create_saved_query token owner ws name sql starter now limit :
    console_call issued r issued (create_saved_query casefold token owner ws name sql starter now limit r).1
| call_update_saved_query owner ws id rev name sql now :
    console_call issued r issued (update_saved_query casefold owner ws id rev name sql now r).1
| call_delete_saved_query owner ws id rev : console_call issued r issued (delete_saved_query owner ws id rev r).1.

Definition console_step (a b : list string * ConsoleRepo) : Prop := console_call a.1 a.2 b.1 b.2.

(** The invariant, with every identifier issued. *)
Record run_ok (a : list string * ConsoleRepo) : Prop := {
  co_inv : console_inv casefold a.2;
  co_executions : forall k, k ∈ dkeys (cr_records a.2) -> k ∈ a.1;
  co_transactions : forall k, k ∈ dkeys (cr_transactions a.2) -> k ∈ a.1;
}.

(** Everything in the new repository comes from the old one, or is new. *)
Record changed_from (issued : list string) (r s : ConsoleRepo) : Prop := {
  cf_executions : forall k y, dget k (cr_records s) = Some y ->
    (dget k (cr_records r) = None /\ k ∉ issued) \/ exists x, dget k (cr_records r) = Some x /\ (y = x \/ receipt_step x y);
  cf_transactions : forall k u, dget k (cr_transactions s) = Some u ->
    (dget k (cr_transactions r) = None /\ k ∉ issued) \/ exists t, dget k (cr_transactions r) = Some t /\ (u = t \/ transaction_step t u);
}.

Lemma run_fresh a k : run_ok a -> k ∉ a.1 -> dget k (cr_records a.2) = None /\ dget k (cr_transactions a.2) = None.
Proof. intros [_ He Ht] Hk. split; apply dget_None; eauto. Qed.

Lemma change_from issued r new s :
  console_change casefold r new s -> dwf (cr_records r) -> dwf (cr_transactions r) ->
  (forall k, new = Some k -> k ∉ issued) -> changed_from issued r s.
Proof.
  intros Hc Hwr Hwt Hnew0.
  assert ((forall k y, dget k (cr_records s) = Some y -> (dget k (cr_records r) = None /\ new = Some k) \/
             exists x, dget k (cr_records r) = Some x /\ (y = x \/ receipt_step x y)) /\
          (forall k u, dget k (cr_transactions s) = Some u -> (dget k (cr_transactions r) = None /\ new = Some k) \/
             exists t, dget k (cr_transactions r) = Some t /\ (u = t \/ transaction_step t u))) as [He Ht].
  2: { split.
       - intros k y Hy. destruct (He k y Hy) as [[Hn Hk]|?]; [left; eauto|by right].
       - intros k u Hu. destruct (Ht k u Hu) as [[Hn Hk]|?]; [left; eauto|by right]. }
  assert (forall e, follows receipt_step (cr_records r) e -> forall k y, dget k e = Some y -> (dget k (cr_records r) = None /\ new = Some k) \/
             exists x, dget k (cr_records r) = Some x /\ (y = x \/ receipt_step x y)) as Hfe by (intros e [_ Hf]; eauto).
  assert (forall e, follows transaction_step (cr_transactions r) e -> forall k y, dget k e = Some y -> (dget k (cr_transactions r) = None /\ new = Some k) \/
             exists x, dget k (cr_transactions r) = Some x /\ (y = x \/ transaction_step x y)) as Hft by (intros e [_ Hf]; eauto).
  assert (forall k x l y, new = Some k -> dget k (cr_records r) = None -> dget l (dset k x (cr_records r)) = Some y ->
             (dget l (cr_records r) = None /\ new = Some l) \/
             exists x, dget l (cr_records r) = Some x /\ (y = x \/ receipt_step x y)) as Hne.
  { intros k x l y Hk Hn. rewrite dget_dset. case_decide; [subst; left; by split|]. intros Hy. right. eauto. }
  clear Hnew0. destruct Hc as [s -> -> _|s k x Hnew Hn Hid Htx Hst Ha -> -> _|s k x id t u Hnew Hn Hid Htx Hst Ha Hto Hs Hin Ho Hw Hop -> -> _
    |s k x y Hx Hxy -> -> _|s f Hf -> -> _|s k t Hnew Hn Hid Hst Ha -> -> _|s k t u Hto Hs -> -> _|s f Hf -> -> _
    |s keep retain ? ? Hkeep Hret Hboth -> -> _|s k p Hp -> -> _|s k -> -> _]; split;
    try (by apply Hfe, follows_refl); try (by apply Hft, follows_refl); try (by intros; eapply Hne).
  - by eapply Hft, follows_dset.
  - by eapply Hfe, follows_dset.
  - by apply Hfe, follows_map.
  - intros l u. rewrite dget_dset. case_decide; [subst; left; by split|]. intros Hy. right. eauto.
  - by eapply Hft, follows_dset.
  - by apply Hft, follows_map.
  - by apply Hfe, follows_filter.
  - by apply Hft, follows_filter.
Qed.

Lemma call_change a issued s :
  run_ok a -> console_call a.1 a.2 issued s ->
  exists new, console_change casefold a.2 new s /\ (forall k, new = Some k -> k ∉ a.1) /\
    (forall k, k ∈ issued <-> k ∈ a.1 \/ new = Some k).
Proof.
  intros Ha Hc. pose proof (co_inv _ Ha) as Hi.
  destruct Hc.
  1: eexists (Some _); split_and!; [apply reserve_change; by apply run_fresh|by intros k [= <-]|intros k; rewrite elem_of_cons; naive_solver].
  1: eexists (Some _); split_and!; [apply create_transaction_change; by apply run_fresh|by intros k [= <-]|intros k; rewrite elem_of_cons; naive_solver].
  all: exists None; split_and!; [|done|naive_solver].
  - apply claim_change.
  - apply publish_change.
  - by apply succeed_change.
  - apply fail_change. intros x Hx. by eapply eo_status, Hx; apply Hi.
  - by apply request_cancel_change.
  - apply finish_transaction_change.
  - apply fail_transaction_change.
  - apply expire_transaction_change.
  - apply recover_interrupted_change.
  - apply recover_transactions_change.
  - apply prune_change, Hi.
  - apply prune_history_change.
  - apply record_history_change.
  - apply page_change.
  - apply close_result_change.
  - apply update_settings_change.
  - apply create_saved_query_change.
  - apply update_saved_query_change.
  - apply delete_saved_query_change.
Qed.

Lemma step_ok a b : run_ok a -> console_step a b -> run_ok b /\ changed_from a.1 a.2 b.2 /\ (forall k, k ∈ a.1 -> k ∈ b.1).
Proof.
  intros Ha Hs. destruct (call_change a _ _ Ha Hs) as (new & Hc & Hnew & Hiss). pose proof (co_inv _ Ha) as Hi.
  pose proof (change_from a.1 _ _ _ Hc (eo_wf _ (ci_executions _ _ Hi)) (to_wf _ (ci_transactions _ _ Hi)) Hnew) as Hf.
  split_and!; [|done|intros k; rewrite Hiss; by left].
  assert (forall k, (exists y, dget k (cr_records b.2) = Some y) \/ (exists u, dget k (cr_transactions b.2) = Some u) -> k ∈ b.1) as Hkeys.
  { destruct Hc as [s E1 E2 _|s k x Hk Hn _ _ _ _ E1 E2 _|s k x id t u Hk Hn _ _ _ _ Ht _ _ _ _ _ E1 E2 _|s k x y Hx _ E1 E2 _
      |s f _ E1 E2 _|s k t Hk Hn _ _ _ E1 E2 _|s k t u Ht _ E1 E2 _|s f _ E1 E2 _|s keep retain ? ? _ _ _ E1 E2 _|s k p _ E1 E2 _|s k E1 E2 _];
    intros l; rewrite E1, E2, Hiss, ?dget_dset, ?dget_map.
    all: intros [[w Hy]|[w Hy]]; repeat case_decide; subst; try (by right).
    all: try (apply fmap_Some in Hy as (? & Hy & _)); try (apply dget_Some_elem, list_elem_of_filter in Hy as [_ Hy]).
    all: left; try (by apply (co_executions _ Ha); eapply dget_Some_key; eauto); try (by apply (co_transactions _ Ha); eapply dget_Some_key; eauto).
    - apply (co_executions _ Ha). by apply (list_elem_of_fmap_2' fst _ (l, w)).
    - apply (co_transactions _ Ha). by apply (list_elem_of_fmap_2' fst _ (l, w)). }
  split; [by eapply change_inv|..]; intros k [v Hv]%dget_is_Some; eauto.
Qed.

Lemma run_steps_ok a b : run_ok a -> rtc console_step a b -> run_ok b.
Proof. intros Ha. induction 1 as [|a b c Hs _ IH]; [done|]. apply IH. by eapply step_ok. Qed.

Lemma console_start_ok : run_ok ([], InMemoryConsoleRepository).
Proof. split; simpl; [|set_solver..]. repeat split; simpl; try done; apply NoDup_nil_2. Qed.

(** A receipt that is there after a run was there before, if it was issued before, and moved
    along legal changes only. *)
Lemma run_receipt a b k y :
  run_ok a -> rtc console_step a b -> k ∈ a.1 -> dget k (cr_records b.2) = Some y ->
  exists x, dget k (cr_records a.2) = Some x /\ rtc receipt_step x y.
Proof.
  intros Ha Hr Hk Hy. induction Hr as [b|a c b Hs Hr IH]; [by exists y|]. destruct (step_ok _ _ Ha Hs) as (Hc & Hf & Hsub).
  destruct (IH Hc (Hsub _ Hk) Hy) as (x' & Hx' & Hxy). destruct (cf_executions _ _ _ Hf _ _ Hx') as [[_ []]|(x & Hx & Hstep)]; [done|].
  exists x. split; [done|]. destruct Hstep as [->|]; [done|by eapply rtc_l].
Qed.

Lemma run_transaction a b k u :
  run_ok a -> rtc console_step a b -> k ∈ a.1 -> dget k (cr_transactions b.2) = Some u ->
  exists t, dget k (cr_transactions a.2) = Some t /\ rtc transaction_step t u.
Proof.
  intros Ha Hr Hk Hy. induction Hr as [b|a c b Hs Hr IH]; [by exists u|]. destruct (step_ok _ _ Ha Hs) as (Hc & Hf & Hsub).
  destruct (IH Hc (Hsub _ Hk) Hy) as (t' & Ht' & Htu). destruct (cf_transactions _ _ _ Hf _ _ Ht') as [[_ []]|(t & Ht & Hstep)]; [done|].
  exists t. split; [done|]. destruct Hstep as [->|]; [done|by eapply rtc_l].
Qed.

Lemma receipt_life x y :
  rtc receipt_step x y ->
  receipt_identity y = receipt_identity x /\ (revision_of x <= revision_of y)%Z /\ (revision_of y = revision_of x -> y = x) /\
  (cer_cancel_requested x = true -> cer_cancel_requested y = true) /\ (status_of y = CReserved -> y = x) /\
  (execution_active y = true -> execution_active x = true) /\ (execution_active x = false -> y = x \/ status_of y = CSucceeded).
Proof.
  induction 1 as [x|x y z Hs _ (Hid & Hle & Heq & Hc & Hres & Hact & Hterm)]; [split_and!; auto with lia|].
  pose proof Hs as [Hid' Hrev Hst Ha Hcan Hsuc Hcc Ht]. split_and!; try (by eauto); try lia.
  - congruence.
  - intros Hz. exfalso. rewrite (Hres Hz) in Hz. rewrite Hz in Hst. by apply (bool_decide_pack _) in Hst.
  - intros Hx. right. destruct (execution_active y) eqn:Hay; [by rewrite Ha in Hx|]. destruct (Hterm eq_refl) as [->|]; auto.
Qed.

Lemma transaction_life t u :
  rtc transaction_step t u ->
  transaction_identity u = transaction_identity t /\ (ct_revision (ctr_transaction t) <= ct_revision (ctr_transaction u))%Z /\
  tx_executions t `prefix_of` tx_executions u /\ (transaction_live t = false -> u = t) /\ (tx_status u = TOpen -> tx_status t = TOpen).
Proof.
  induction 1 as [t|t u v Hs _ (Hid & Hle & Hp & Hl & Ho)]; [by split_and!|]. pose proof Hs as [Hid' Hrev Hlive Hop Hp'].
  split_and!; [congruence|lia|by etransitivity|congruence|auto].
Qed.

(** C11. In every run the console repository stays consistent: each receipt is stored under its own
    identifier; a workspace (or an editor outside a workspace) has at most one reserved or
    running execution and a workspace at most one open or failed transaction; an execution of
    a transaction is listed by a stored transaction of the same owner and workspace; a cancelled execution had its
    cancellation requested and a successful one had not; and the saved queries of a
    workspace have different names, up to case. *)
Theorem console_stays_consistent issued r :
  rtc console_step ([], InMemoryConsoleRepository) (issued, r) -> console_inv casefold r.
Proof. intros Hr. exact (co_inv _ (run_steps_ok _ _ console_start_ok Hr)). Qed.

End runs.

(** ** Query history *)

Section history.
Implicit Types (l : list (string * string * ConsoleHistoryEntry)).

Lemma drop_owned_owned owned n l :
  filter (fun v => owned v = true) (drop_owned owned n l) = drop n (filter (fun v => owned v = true) l).
Proof.
  revert n. induction l as [|v l IH]; intros n; [by destruct n|]. destruct n as [|n]; [done|]. simpl drop_owned.
  destruct (owned v) eqn:Hv.
  - rewrite filter_cons_True by done. apply IH.
  - rewrite !filter_cons_False by congruence. apply IH.
Qed.

Lemma drop_owned_other owned (P : string * string * ConsoleHistoryEntry -> Prop) `{forall v, Decision (P v)} n l :
  (forall v, P v -> owned v = false) -> filter P (drop_owned owned n l) = filter P l.
Proof.
  intros HP. revert n. induction l as [|v l IH]; intros n; [done|]. destruct n as [|n]; [done|]. simpl drop_owned.
  destruct (owned v) eqn:Hv.
  - rewrite filter_cons_False by (intros Hp; by rewrite HP in Hv). apply IH.
  - rewrite !filter_cons. by rewrite IH.
Qed.

Definition history_of (r : ConsoleRepo) (owner ws : string) : list (string * string * ConsoleHistoryEntry) :=
  filter (fun v => in_workspace owner ws v = true) (cr_history r).

(** A recorded query is added to the history of its workspace, of which the last [limit]
    entries stay; the history of every other workspace is left alone. *)
Theorem history_keeps_last owner ws sql ran_at limit r :
  (0 < limit)%Z -> QuerySql sql = true ->
  let r' := (record_history owner ws sql ran_at limit r).1 in
  let all := history_of r owner ws ++ [(owner, ws, {| hq_sql := sql; hq_ran_at := ran_at |})] in
  history_of r' owner ws = drop (length all - Z.to_nat limit) all /\
  (forall owner' ws', (owner', ws') <> (owner, ws) -> history_of r' owner' ws' = history_of r owner' ws').
Proof.
  intros Hl Hq. unfold record_history, m_bind, m_guard, m_lift, m_update, guard_err. rewrite bool_decide_eq_false_2 by lia. rewrite Hq.
  cbn [negb fst]. unfold history_of. simpl.
  assert (filter (fun v => in_workspace owner ws v = true) (cr_history r ++ [(owner, ws, {| hq_sql := sql; hq_ran_at := ran_at |})]) =
          filter (fun v => in_workspace owner ws v = true) (cr_history r) ++ [(owner, ws, {| hq_sql := sql; hq_ran_at := ran_at |})]) as Happ.
  { rewrite filter_app. f_equal. rewrite filter_cons_True; [done|]. unfold in_workspace. by rewrite bool_decide_eq_true_2. }
  split.
  - rewrite drop_owned_owned, Happ. done.
  - intros owner' ws' Hne. rewrite drop_owned_other, filter_app.
    + rewrite filter_cons_False, app_nil_r; [done|]. unfold in_workspace. rewrite bool_decide_eq_true. simpl. congruence.
    + unfold in_workspace. intros v. rewrite bool_decide_eq_true, bool_decide_eq_false. congruence.
Qed.
End history.
