(* ===== verification/ConsoleSession.v ===== *)
(** * Read sessions of the console

    [PsycopgConsoleReadSession] of [common/postgres/console/gateway.py]: forward-only
    PostgreSQL cursors read page by page, each page bounded in rows and bytes.

    - A row PostgreSQL returns is a value of [raw]; [convert] is [json_console_value] on its
      cells, which raises [ConsoleValueLimitError], and [row_bytes] the length of the JSON
      text of a converted row.  Paging works for every conversion.
    - [cursor] is a cursor of the driver: [fetchmany] returns the next rows or raises, and
      [open_cursor] opens the cursor of a statement.
    - [PostgresConsoleQueryError] holds the message it is built with; its text is cut to 2048
      characters ([gateway_message] of [ConsoleService]).
    - A cancellation that arrives during a read counts as arriving before it.
    - The calls are those outside a turn of the assistant, where [cancellable_connection]
      does nothing. *)

From Stdlib Require Import Ascii String.
From S2P Require Import Prelude Json PyString DesignModels ConsoleStore.
Open Scope string_scope.

(** The errors a session raises, of [common/postgres/errors.py]. *)
Inductive session_error :=
| PostgresQueryError
| PostgresConsoleCancelledError
| PostgresConsoleQueryError (message : string) (statement_index : Z) (sqlstate : option string)
| PostgresConsoleLimitError (statement_index : Z) (resource limit_name : string) (limit observed : Z).

(** What escapes a fetch before [_page] translates it: [ConsoleValueLimitError], the limit of a
    page, or any other exception with the message and the state the driver reports. *)
Inductive fetch_error :=
| ValueLimit (limit observed : Z)
| PageLimit (row_bytes : Z)
| DriverError (message sqlstate : option string).

Section session.
Context {raw cursor : Type}.
Variable convert : raw -> result (Z * Z) (list json).
Variable row_bytes : list json -> Z.
Variable fetchmany : cursor -> nat -> cursor * result (option string * option string) (list raw).
Variable open_cursor : string -> Z -> result (option string * option string) cursor.
Variables (page_memory_bytes : Z).

(** [_ReadCursor]. *)
Record ReadCursor := {
  rd_cursor : option cursor;
  rd_rows : list (list json);
  rd_statement : option string;
  rd_position : Z;
  rd_pending : list raw;
  rd_export_cursor : option cursor;
  rd_export_position : Z;
  rd_export_pending : list raw;
  rd_fixed_row_memory_bytes : option Z;
}.

Record ReadSession := {
  ss_closed : bool;
  ss_cancelled : bool;
  ss_readers : list (Z * ReadCursor);
}.

(** The rows of one batch, by the memory allowance. *)
Definition batch_size (reader : ReadCursor) (wanted : nat) (used_bytes : Z) : nat :=
  match rd_fixed_row_memory_bytes reader with
  | None => 1
  | Some fixed => Z.to_nat (Z.max 1 (Z.min (Z.of_nat wanted) ((page_memory_bytes - used_bytes) / fixed)))
  end.

(** The body of the loop of [_fetch_forward] for the next row; [continue] is the rest of the
    loop. *)
Definition take_row (continue : cursor -> list raw -> list (list json) -> Z -> cursor * result fetch_error (list (list json) * list raw))
    (rows : list (list json)) (used_bytes : Z) (c : cursor) (raw_row : raw) (pending : list raw)
    : cursor * result fetch_error (list (list json) * list raw) :=
  match convert raw_row with
  | Err (limit, observed) => (c, Err (ValueLimit limit observed))
  | Ok converted =>
      let bytes := row_bytes converted in
      if negb (bool_decide (rows = [])) && bool_decide (page_memory_bytes < used_bytes + bytes)%Z then
        (c, Ok (rows, raw_row :: pending))
      else if bool_decide (page_memory_bytes < bytes)%Z then (c, Err (PageLimit bytes))
      else continue c pending (rows ++ [converted])%list (used_bytes + bytes)%Z
  end.

(** The loop of [_fetch_forward]: [wanted] is [page_size - len(rows)]; it returns the cursor,
    and the rows with the rows left over for the next page. *)
Fixpoint fetch_loop (reader : ReadCursor) (wanted : nat) (c : cursor) (pending : list raw) (rows : list (list json)) (used_bytes : Z)
    : cursor * result fetch_error (list (list json) * list raw) :=
  match wanted with
  | O => (c, Ok (rows, pending))
  | S rest =>
      match pending with
      | raw_row :: pending' => take_row (fetch_loop reader rest) rows used_bytes c raw_row pending'
      | [] =>
          match fetchmany c (batch_size reader wanted used_bytes) with
          | (c', Err (message, state)) => (c', Err (DriverError message state))
          | (c', Ok []) => (c', Ok (rows, []))
          | (c', Ok (raw_row :: batch)) => take_row (fetch_loop reader rest) rows used_bytes c' raw_row batch
          end
      end
  end.

(** [rows[offset : offset + page_size]] for [0 <= offset]. *)
Definition row_slice (rows : list (list json)) (offset : Z) (page_size : nat) : list (list json) :=
  take page_size (drop (Z.to_nat offset) rows).

Definition set_paging (reader : ReadCursor) (c : option cursor) (position : Z) (pending : list raw) : ReadCursor :=
  {| rd_cursor := c; rd_rows := rd_rows reader; rd_statement := rd_statement reader; rd_position := position;
     rd_pending := pending; rd_export_cursor := rd_export_cursor reader; rd_export_position := rd_export_position reader;
     rd_export_pending := rd_export_pending reader; rd_fixed_row_memory_bytes := rd_fixed_row_memory_bytes reader |}.
Definition set_export (reader : ReadCursor) (c : option cursor) (position : Z) (pending : list raw) : ReadCursor :=
  {| rd_cursor := rd_cursor reader; rd_rows := rd_rows reader; rd_statement := rd_statement reader; rd_position := rd_position reader;
     rd_pending := rd_pending reader; rd_export_cursor := c; rd_export_position := position;
     rd_export_pending := pending; rd_fixed_row_memory_bytes := rd_fixed_row_memory_bytes reader |}.

(** [PostgresQueryError("Result pages must be read in sequence; ...")] is a [TypeError]: the
    constructor takes no message. *)
Definition out_of_sequence : fetch_error := DriverError None None.

(** [_fetch_forward]; the reader of a failed call keeps its position and its pending rows,
    while its cursor may have moved. *)
Definition read_rows (reader : ReadCursor) (put : ReadCursor -> option cursor -> Z -> list raw -> ReadCursor) (c : cursor)
    (position : Z) (pending : list raw) (offset : Z) (page_size : nat) : ReadCursor * result fetch_error (list (list json)) :=
  if negb (bool_decide (offset = position)) then (put reader (Some c) position pending, Err out_of_sequence) else
  match fetch_loop reader page_size c pending [] 0 with
  | (c', Err e) => (put reader (Some c') position pending, Err e)
  | (c', Ok (rows, remaining)) => (put reader (Some c') (position + Z.of_nat (length rows))%Z remaining, Ok rows)
  end.

Definition fetch_forward (reader : ReadCursor) (statement_index offset : Z) (page_size : nat) (export : bool)
    : ReadCursor * result fetch_error (list (list json)) :=
  if export then
    match rd_export_cursor reader, rd_statement reader with
    | Some c, _ => read_rows reader set_export c (rd_export_position reader) (rd_export_pending reader) offset page_size
    | None, None => (reader, Ok (row_slice (rd_rows reader) offset page_size))
    | None, Some statement =>
        match open_cursor statement statement_index with
        | Err (message, state) => (reader, Err (DriverError message state))
        | Ok c => read_rows reader set_export c (rd_export_position reader) (rd_export_pending reader) offset page_size
        end
    end
  else
    match rd_cursor reader with
    | Some c => read_rows reader set_paging c (rd_position reader) (rd_pending reader) offset page_size
    | None => (reader, Ok (row_slice (rd_rows reader) offset page_size))
    end.

Abbreviation session_method := (method ReadSession session_error).

Definition put_reader (statement_index : Z) (reader : ReadCursor) (s : ReadSession) : ReadSession :=
  {| ss_closed := ss_closed s; ss_cancelled := ss_cancelled s; ss_readers := dset statement_index reader (ss_readers s) |}.

(** [close]: closing cursors and the connection does not raise. *)
Definition close_session : session_method unit := m_update (fun s =>
  if ss_closed s then s else {| ss_closed := true; ss_cancelled := ss_cancelled s; ss_readers := [] |}).

(** [_page] and [_export_page]. *)
Definition read_page (export : bool) (statement_index offset page_size : Z) : session_method (list (list json)) :=
  let* s := m_get in
  m_guard (ss_closed s || bool_decide (offset < 0)%Z || bool_decide (page_size < 1)%Z) PostgresQueryError ;;*
  match dget statement_index (ss_readers s) with
  | None => m_raise PostgresQueryError
  | Some reader =>
      let '(reader', out) := fetch_forward reader statement_index offset (Z.to_nat page_size) export in
      m_update (put_reader statement_index reader') ;;*
      match out with
      | Ok rows => m_return rows
      | Err (PageLimit bytes) =>
          close_session ;;*
          m_raise (PostgresConsoleLimitError statement_index "console_result_page" "console.results.page_memory_bytes" page_memory_bytes bytes)
      | Err (ValueLimit limit observed) =>
          close_session ;;*
          m_raise (PostgresConsoleLimitError statement_index "console_result_cell" "console.results.maximum_cell_bytes" limit observed)
      | Err (DriverError message state) =>
          if ss_cancelled s then m_raise PostgresConsoleCancelledError else
          m_raise (PostgresConsoleQueryError
                     (match message with Some text => if bool_decide (text = "") then "PostgreSQL rejected the query" else text
                                       | None => "PostgreSQL rejected the query" end)
                     statement_index state)
      end
  end%method.

Definition session_page (statement_index offset page_size : Z) : session_method (list (list json)) :=
  let* s := m_get in
  m_guard (ss_cancelled s) PostgresConsoleCancelledError ;;*
  read_page false statement_index offset page_size.
Definition export_page (statement_index offset page_size : Z) : session_method (list (list json)) :=
  let* s := m_get in
  m_guard (ss_cancelled s) PostgresConsoleCancelledError ;;*
  read_page true statement_index offset page_size.

Definition has_buffered_rows (statement_index : Z) (s : ReadSession) : bool :=
  match dget statement_index (ss_readers s) with Some reader => negb (bool_decide (length (rd_pending reader) = 0)) | None => false end.

Definition cancel_session : session_method unit := m_update (fun s =>
  if ss_closed s then s else {| ss_closed := false; ss_cancelled := true; ss_readers := ss_readers s |}).

(** ** Pages put together *)

#[local] Open Scope list_scope.

Section pages.
(** The rows a cursor has still to give, as PostgreSQL documents FETCH. *)
Variable rows_of : cursor -> list raw.
Hypothesis fetch_rows : forall c n c' batch, fetchmany c n = (c', Ok batch) ->
  batch = take n (rows_of c) /\ rows_of c' = drop n (rows_of c).

Lemma batch_size_positive reader wanted used : 1 <= batch_size reader wanted used.
Proof. unfold batch_size. destruct (rd_fixed_row_memory_bytes reader); lia. Qed.

(** The rows of the page, converted, are the first of those to come, the others are still to
    come; the page is within its limits and ends early only for them or at the end. *)
Lemma fetch_loop_spec reader wanted c pending rows used c' page remaining :
  (rows = [] -> used = 0%Z) -> fetch_loop reader wanted c pending rows used = (c', Ok (page, remaining)) ->
  exists raws more, page = rows ++ more /\ pending ++ rows_of c = raws ++ remaining ++ rows_of c' /\
    Forall2 (fun r j => convert r = Ok j) raws more /\ length more <= wanted /\
    (used + foldr Z.add 0 (row_bytes <$> more) <= Z.max used page_memory_bytes)%Z /\
    (length more < wanted -> remaining = [] -> rows_of c' = []) /\
    (rows = [] -> 0 < wanted -> more = [] -> remaining ++ rows_of c' = []).
Proof.
  revert c pending rows used c' page remaining. induction wanted as [|wanted IH]; intros c pending rows used c' page remaining Hempty; simpl.
  { intros [= <- <- <-]. exists [], []. rewrite app_nil_r. split_and!; try done; try (by constructor); simpl; lia. }
  assert (forall d raw_row rest, take_row (fetch_loop reader wanted) rows used d raw_row rest = (c', Ok (page, remaining)) ->
    exists raws more, page = rows ++ more /\ raw_row :: rest ++ rows_of d = raws ++ remaining ++ rows_of c' /\
      Forall2 (fun r j => convert r = Ok j) raws more /\ length more <= S wanted /\
      (used + foldr Z.add 0 (row_bytes <$> more) <= Z.max used page_memory_bytes)%Z /\
      (length more < S wanted -> remaining = [] -> rows_of c' = []) /\
      (rows = [] -> 0 < S wanted -> more = [] -> remaining ++ rows_of c' = [])) as Hstep.
  { intros d raw_row rest. unfold take_row. destruct (convert raw_row) as [converted|[limit observed]] eqn:Hconv; [|done].
    destruct (negb (bool_decide (rows = [])) && bool_decide (page_memory_bytes < used + row_bytes converted)%Z) eqn:Hstop.
    - intros [= <- <- <-]. exists [], []. rewrite app_nil_r. apply andb_true_iff in Hstop as [Hrows%negb_true_iff%bool_decide_eq_false _].
      split_and!; try done; try (by constructor); simpl; lia.
    - destruct (bool_decide (page_memory_bytes < row_bytes converted)%Z) eqn:Hlimit; [done|]. apply bool_decide_eq_false in Hlimit. intros Hloop. apply andb_false_iff in Hstop.
      assert (used + row_bytes converted <= Z.max used page_memory_bytes)%Z as Hused.
      { destruct Hstop as [Hr%negb_false_iff%bool_decide_eq_true|Hb%bool_decide_eq_false]; [|lia]. specialize (Hempty Hr). lia. }
      apply IH in Hloop as (raws & more & -> & Heq & Hf & Hlen & Hsum & Hend & _); [|by destruct rows].
      exists (raw_row :: raws), (converted :: more).
      split_and!; [by rewrite <-app_assoc|simpl; by rewrite Heq|by constructor|simpl; lia| |simpl; intros; apply Hend; [lia|done]|done].
      change (foldr Z.add 0%Z (row_bytes <$> converted :: more)) with (row_bytes converted + foldr Z.add 0 (row_bytes <$> more))%Z. lia. }
  destruct pending as [|raw_row pending]; [|apply Hstep].
  destruct (fetchmany c _) as [d [[|raw_row batch]|[message state]]] eqn:Hfetch; [| |done].
  - intros [= <- <- <-]. apply fetch_rows in Hfetch as [Hb Hd]. exists [], []. rewrite app_nil_r.
    pose proof (batch_size_positive reader (S wanted) used) as Hpos.
    assert (rows_of c = []) as Hnil by (destruct (rows_of c), (batch_size reader (S wanted) used); [done|done|lia|done]).
    rewrite Hnil, drop_nil in Hd. rewrite Hnil, Hd. split_and!; try done; try (by constructor); simpl; lia.
  - intros Hs. apply Hstep in Hs as (raws & more & Hpage & Heq & Hrest). exists raws, more. split; [done|]. split; [|done].
    apply fetch_rows in Hfetch as [Hb Hd]. rewrite <-Heq, Hd. simpl. rewrite <-(take_drop (batch_size reader (S wanted) used) (rows_of c)) at 1.
    by rewrite <-Hb.
Qed.

(** A page starts where the last one ended, and the rows that follow it stay to come. *)
Lemma session_page_ok s s' i offset size rows :
  session_page i offset size s = (s', Ok rows) ->
  exists reader reader', dget i (ss_readers s) = Some reader /\ dget i (ss_readers s') = Some reader' /\ (1 <= size)%Z /\
    match rd_cursor reader with
    | None => rd_cursor reader' = None
    | Some c => exists c' raws, rd_cursor reader' = Some c' /\ rd_position reader = offset /\
        rd_position reader' = (offset + Z.of_nat (length rows))%Z /\
        rd_pending reader ++ rows_of c = raws ++ rd_pending reader' ++ rows_of c' /\ Forall2 (fun r j => convert r = Ok j) raws rows /\
        length rows <= Z.to_nat size /\ ((Z.of_nat (length rows) < size)%Z -> rd_pending reader' = [] -> rows_of c' = [])
    end.
Proof.
  unfold session_page, read_page, m_bind, m_get, m_guard. destruct (ss_cancelled s); [done|]. cbn beta iota delta [guard_err m_lift].
  destruct (ss_closed s || bool_decide (offset < 0)%Z || bool_decide (size < 1)%Z) eqn:Hg; [done|].
  rewrite !orb_false_iff, !bool_decide_eq_false in Hg. destruct Hg as [[_ _] Hsize].
  destruct (dget i (ss_readers s)) as [reader|] eqn:Hr; [|done].
  unfold fetch_forward. destruct (rd_cursor reader) as [c|] eqn:Hc.
  - unfold read_rows. case_bool_decide as Hpos; simpl; [|by destruct (ss_cancelled s)].
    destruct (fetch_loop _ _ _ _ _ _) as [c' [[page remaining]|[| |]]] eqn:Hf; simpl; try done; [|by destruct (ss_cancelled s)]. intros [= <- <-].
    apply fetch_loop_spec in Hf as (raws & more & -> & Heq & Hall & Hlen & _ & Hend & _); [|done].
    exists reader. eexists. split; [done|]. split; [simpl; by rewrite dget_dset, decide_True|]. split; [lia|]. rewrite Hc. exists c', raws. simpl.
    split_and!; try done; try lia. intros Hlt. apply Hend. lia.
  - simpl. intros [= <- <-]. exists reader, reader. split; [done|]. split; [simpl; by rewrite dget_dset, decide_True|]. split; [lia|]. by rewrite Hc.
Qed.

(** Rows that convert and fit a page. *)
Definition fits (r : raw) : Prop := exists j, convert r = Ok j /\ (row_bytes j <= page_memory_bytes)%Z.
Hypothesis fetch_total : forall c n, exists c' batch, fetchmany c n = (c', Ok batch).

Lemma fetch_loop_ok reader wanted c pending rows used :
  Forall fits (pending ++ rows_of c) -> exists c' page remaining, fetch_loop reader wanted c pending rows used = (c', Ok (page, remaining)).
Proof.
  revert c pending rows used. induction wanted as [|wanted IH]; intros c pending rows used Hall; simpl; [by eexists _, _, _|].
  assert (forall d raw_row rest, fits raw_row -> Forall fits (rest ++ rows_of d) ->
    exists c' page remaining, take_row (fetch_loop reader wanted) rows used d raw_row rest = (c', Ok (page, remaining))) as Hstep.
  { intros d raw_row rest (j & Hj & Hb) Hrest. unfold take_row. rewrite Hj. destruct (_ && _); [by eexists _, _, _|].
    rewrite bool_decide_eq_false_2 by lia. by apply IH. }
  destruct pending as [|raw_row pending].
  - destruct (fetch_total c (batch_size reader (S wanted) used)) as (d & batch & Hf). rewrite Hf.
    destruct (fetch_rows _ _ _ _ Hf) as [Hb Hd]. simpl in Hall. rewrite <-(take_drop (batch_size reader (S wanted) used) (rows_of c)), <-Hb, <-Hd in Hall.
    destruct batch as [|raw_row batch]; [by eexists _, _, _|]. simpl in Hall. apply Forall_cons in Hall as [H1 H2]. by apply Hstep.
  - simpl in Hall. apply Forall_cons in Hall as [H1 H2]. by apply Hstep.
Qed.

(** An export of the reader continues at [offset] with the rows [rest]. *)
Definition exports_from (reader : ReadCursor) (i offset : Z) (rest : list raw) : Prop :=
  rd_export_position reader = offset /\ exists c, rest = rd_export_pending reader ++ rows_of c /\
    (rd_export_cursor reader = Some c \/
     rd_export_cursor reader = None /\ exists text, rd_statement reader = Some text /\ open_cursor text i = Ok c).

Lemma export_page_ok s i offset size reader rest :
  ss_closed s = false -> ss_cancelled s = false -> dget i (ss_readers s) = Some reader -> exports_from reader i offset rest ->
  Forall fits rest -> (0 <= offset)%Z -> (1 <= size)%Z ->
  exists s' reader' raws rows rest', export_page i offset size s = (s', Ok rows) /\
    ss_closed s' = false /\ ss_cancelled s' = false /\ dget i (ss_readers s') = Some reader' /\
    rest = raws ++ rest' /\ Forall2 (fun r j => convert r = Ok j) raws rows /\
    exports_from reader' i (offset + Z.of_nat (length rows)) rest' /\ (rows = [] -> rest' = []).
Proof.
  intros Hcl Hca Hr (Hpos & c & Hrest & Hcur) Hfits Hoff Hsize.
  assert (fetch_forward reader i offset (Z.to_nat size) true = read_rows reader set_export c (rd_export_position reader) (rd_export_pending reader) offset (Z.to_nat size)) as Hff.
  { unfold fetch_forward. destruct Hcur as [->|(-> & text & -> & ->)]; done. }
  rewrite Hrest in Hfits. destruct (fetch_loop_ok reader (Z.to_nat size) c (rd_export_pending reader) [] 0 Hfits) as (c' & page & remaining & Hloop).
  pose proof Hloop as Hspec. apply fetch_loop_spec in Hspec as (raws & more & Hpage & Heq & Hall & _ & _ & _ & Hempty); [|done]. simpl in Hpage. subst page.
  eexists _, _, raws, more, (remaining ++ rows_of c'). split_and!.
  - unfold export_page, read_page, m_bind, m_get, m_guard. cbn beta iota delta [guard_err m_lift]. rewrite Hca. cbn [m_return]. rewrite Hcl, Hr.
    rewrite !bool_decide_eq_false_2 by lia. cbn [orb]. rewrite Hff. unfold read_rows. rewrite bool_decide_eq_true_2 by done. cbn [negb].
    rewrite Hloop. reflexivity.
  - simpl. done.
  - simpl. done.
  - simpl. by rewrite dget_dset_eq.
  - by rewrite Hrest.
  - done.
  - split; [simpl; by rewrite Hpos|]. exists c'. split; [done|]. by left.
  - intros Hm. apply Hempty; [done|lia|done].
Qed.
End pages.

(** ** What a call leaves alone *)

(** Readers come from readers; those a call does not page keep their place. *)
Definition readers_from (paged : Z -> Prop) (s s' : ReadSession) : Prop :=
  forall i reader', dget i (ss_readers s') = Some reader' -> exists reader, dget i (ss_readers s) = Some reader /\
    (is_Some (rd_cursor reader') <-> is_Some (rd_cursor reader)) /\
    (~ paged i -> rd_cursor reader' = rd_cursor reader /\ rd_position reader' = rd_position reader /\ rd_pending reader' = rd_pending reader).

Lemma readers_from_refl paged s : readers_from paged s s.
Proof. intros i reader Hr. by exists reader. Qed.

Lemma close_from paged s : readers_from paged s (close_session s).1.
Proof. unfold close_session, m_update. simpl. destruct (ss_closed s); [apply readers_from_refl|]. by intros i reader. Qed.

Lemma cancel_from paged s : readers_from paged s (cancel_session s).1.
Proof. unfold cancel_session, m_update. simpl. destruct (ss_closed s); intros i reader Hr; by exists reader. Qed.

Lemma fetch_forward_from reader i offset size export :
  let reader' := (fetch_forward reader i offset size export).1 in
  (is_Some (rd_cursor reader') <-> is_Some (rd_cursor reader)) /\
  (export = true -> rd_cursor reader' = rd_cursor reader /\ rd_position reader' = rd_position reader /\ rd_pending reader' = rd_pending reader).
Proof.
  unfold fetch_forward, read_rows. destruct export.
  - destruct (rd_export_cursor reader) as [c|]; [|destruct (rd_statement reader) as [text|]; [destruct (open_cursor text i) as [c|[]]|]];
      simpl; try done; case_bool_decide; simpl; try done; by destruct (fetch_loop _ _ _ _ _ _) as [? [[]|]].
  - split; [|done]. destruct (rd_cursor reader) as [c|] eqn:Hc; [|simpl; by rewrite Hc].
    case_bool_decide; simpl; [|by split; eauto]. destruct (fetch_loop _ _ _ _ _ _) as [? [[]|]]; simpl; by split; eauto.
Qed.

Lemma read_page_from export i offset size s :
  readers_from (fun j => j = i /\ export = false) s (read_page export i offset size s).1.
Proof.
  unfold read_page, m_bind, m_get, m_guard. cbn beta iota delta [guard_err m_lift]. destruct (ss_closed s || _ || _); [apply readers_from_refl|].
  destruct (dget i (ss_readers s)) as [reader|] eqn:Hr; [|apply readers_from_refl].
  pose proof (fetch_forward_from reader i offset (Z.to_nat size) export) as Hf.
  destruct (fetch_forward reader i offset (Z.to_nat size) export) as [reader' out]. cbn [fst] in Hf. unfold m_update.
  assert (readers_from (fun j => j = i /\ export = false) s (put_reader i reader' s)) as Hput.
  { intros j x. unfold put_reader. cbn [ss_readers]. rewrite dget_dset. case_decide as Hj; [|by exists x].
    intros [= <-]. subst j. exists reader. split; [done|]. destruct Hf as [Hf1 Hf2]. split; [done|]. destruct export; [|tauto]. intros _. by apply Hf2. }
  destruct out as [rows|[limit observed|bytes|message state]]; simpl; [done| | |by destruct (ss_cancelled s)].
  all: unfold close_session, m_update, put_reader in *; simpl in *; destruct (ss_closed s); [exact Hput|by intros j x].
Qed.

Lemma paging_from (export : bool) i offset size s :
  readers_from (fun j => j = i /\ export = false) s ((if export then export_page else session_page) i offset size s).1.
Proof.
  pose proof (read_page_from export i offset size s) as Hr.
  destruct export; unfold export_page, session_page, m_bind, m_get, m_guard; destruct (ss_cancelled s); simpl; try done; apply readers_from_refl.
Qed.
End session.
