(* ===== verification/ConsoleResults.v ===== *)
(** * Results the console retains

    The registry of [ConsoleService] in [schemii/console/service.py] that holds the results of
    executions while they are read page by page: [_transient_results], [_result_cursors],
    [_protected_results] and [_active_read_sessions], all guarded by one lock.

    - A critical section is one definition.  A request for a page is several of them:
      [page_begin] takes a lease, [page_fetch] reads rows without the lock, [page_publish]
      issues the next cursor and [page_release] gives the lease back; likewise for exports.
    - A read session is an object shared by the results of an execution: results and the table
      of sessions hold its identity, [rg_store] its state, and [rg_released] the sessions
      the registry has called [close] on.
    - Limit events and the telemetry of [_activity] are not modelled.
    - [now] is a reading of the clock, [token] a draw of [secrets.token_hex(16)]. *)

From stdpp Require Import pretty.
From Stdlib Require Import Ascii String.
From S2P Require Import Prelude Json PyString DesignModels ConsoleStore ConsoleSession.
Open Scope string_scope.
Open Scope method_scope.

(** [_TransientConsoleResult]. *)
Record TransientResult := {
  tr_owner_id : string;
  tr_workspace_id : option string;
  tr_execution_id : string;
  tr_result_id : string;
  tr_query : ConsoleQueryResult;
  tr_page_size : Z;
  tr_expires_at : Z;
  tr_read_session : option string;
  tr_first_page_requested : bool;
  tr_active_exports : Z;
  tr_pending_close : bool;
}.

(** [_ActiveConsoleReadSession]; [as_session] is the identity of its session. *)
Record ActiveReadSession := {
  as_owner_id : string;
  as_workspace_id : option string;
  as_connection_id : string;
  as_connection_revision : Z;
  as_session : string;
}.

Inductive results_error :=
| ResultsProblem (status : Z) (code message : string)
| ResultsCapacity (limit_name : string) (limit observed : Z)
| ResultsPostgres (e : session_error).

Section registry.
Context {raw cursor : Type}.
Variable convert : raw -> result (Z * Z) (list json).
Variable row_bytes : list json -> Z.
Variable fetchmany : cursor -> nat -> cursor * result (option string * option string) (list raw).
Variable open_cursor : string -> Z -> result (option string * option string) cursor.
Variable page_memory_bytes : Z.
(** The limits of the service. *)
Variables (maximum_live_read_sessions maximum_live_read_sessions_per_identity : nat) (row_page_size : Z).

Record Registry := {
  rg_results : list (string * TransientResult);
  rg_cursors : list (string * (string * Z * Z));
  rg_protected : list (string * Z);
  rg_sessions : list (string * ActiveReadSession);
  rg_store : list (string * @ReadSession raw cursor);
  rg_released : list string;
}.

Definition empty_registry : Registry :=
  {| rg_results := []; rg_cursors := []; rg_protected := []; rg_sessions := []; rg_store := []; rg_released := [] |}.

Definition with_results x g : Registry :=
  {| rg_results := x; rg_cursors := rg_cursors g; rg_protected := rg_protected g; rg_sessions := rg_sessions g;
     rg_store := rg_store g; rg_released := rg_released g |}.
Definition with_cursors x g : Registry :=
  {| rg_results := rg_results g; rg_cursors := x; rg_protected := rg_protected g; rg_sessions := rg_sessions g;
     rg_store := rg_store g; rg_released := rg_released g |}.
Definition with_protected x g : Registry :=
  {| rg_results := rg_results g; rg_cursors := rg_cursors g; rg_protected := x; rg_sessions := rg_sessions g;
     rg_store := rg_store g; rg_released := rg_released g |}.
Definition with_sessions x g : Registry :=
  {| rg_results := rg_results g; rg_cursors := rg_cursors g; rg_protected := rg_protected g; rg_sessions := x;
     rg_store := rg_store g; rg_released := rg_released g |}.
Definition with_store x g : Registry :=
  {| rg_results := rg_results g; rg_cursors := rg_cursors g; rg_protected := rg_protected g; rg_sessions := rg_sessions g;
     rg_store := x; rg_released := rg_released g |}.

(** A method of a session, called on the session object. *)
Definition on_session {A} (sid : string) (m : method ReadSession session_error A) (g : Registry) : Registry * result session_error A :=
  match dget sid (rg_store g) with
  | None => (g, Err PostgresQueryError)
  | Some s => let '(s', out) := m s in (with_store (dset sid s' (rg_store g)) g, out)
  end.

(** [session.close()], called by the registry. *)
Definition release_session (sid : string) (g : Registry) : Registry :=
  let g' := (on_session sid close_session g).1 in
  {| rg_results := rg_results g'; rg_cursors := rg_cursors g'; rg_protected := rg_protected g'; rg_sessions := rg_sessions g';
     rg_store := rg_store g'; rg_released := rg_released g' ++ [sid] |}%list.

Definition pop_session (execution_id : string) (g : Registry) : Registry := with_sessions (dpop execution_id (rg_sessions g)) g.
Definition unprotect (execution_id : string) (g : Registry) : Registry := with_protected (dpop execution_id (rg_protected g)) g.

(** ** Expiry and eviction *)

Definition referenced (g : Registry) : list string :=
  (fun kv => tr_execution_id kv.2) <$> filter (fun kv => is_Some (tr_read_session kv.2)) (rg_results g).

(** [_close_unreferenced_read_sessions]: [keys] is the list of executions the loop runs over. *)
Fixpoint close_unreferenced (executions : list string) (g : Registry) : Registry :=
  match executions with
  | [] => g
  | execution_id :: rest =>
      if bool_decide (execution_id ∈ referenced g) then close_unreferenced rest g else
      match dget execution_id (rg_sessions g) with
      | None => close_unreferenced rest g
      | Some active => close_unreferenced rest (unprotect execution_id (release_session (as_session active) (pop_session execution_id g)))
      end
  end.
Definition close_unreferenced_read_sessions (g : Registry) : Registry := close_unreferenced (dkeys (rg_sessions g)) g.

Definition lapsed (now : Z) (r : TransientResult) : bool :=
  (bool_decide (tr_expires_at r <= now)%Z || tr_pending_close r) && bool_decide (tr_active_exports r = 0%Z).

(** [_purge_transient_results]. *)
Definition purge_transient_results (now : Z) (g : Registry) : Registry :=
  let expired := filter (fun kv => lapsed now kv.2 = true) (rg_results g) in
  let results := filter (fun kv => kv.1 ∉ expired.*1) (rg_results g) in
  let remaining := (fun kv => tr_execution_id kv.2) <$> results in
  let released := (fun kv => tr_execution_id kv.2) <$> expired in
  let protected := filter (fun kv => ~ (kv.1 ∈ released /\ kv.1 ∉ remaining)) (filter (fun kv => (now < kv.2)%Z) (rg_protected g)) in
  let cursors := filter (fun kv => kv.2.1.1 ∉ expired.*1 /\ (now < kv.2.2)%Z) (rg_cursors g) in
  close_unreferenced_read_sessions (with_cursors cursors (with_protected protected (with_results results g))).

(** [_read_session_evictable]. *)
Definition evictable (g : Registry) (execution_id : string) : bool :=
  negb (bool_decide (execution_id ∈ dkeys (rg_protected g)))
  && negb (existsb (fun kv => bool_decide (tr_execution_id kv.2 = execution_id) && bool_decide (0 < tr_active_exports kv.2)%Z) (rg_results g)).

(** [_evict_read_session], after its session was popped. *)
Definition evict_read_session (execution_id : string) (active : ActiveReadSession) (g : Registry) : Registry :=
  let g1 := release_session (as_session active) g in
  let ids := (filter (fun kv => tr_execution_id kv.2 = execution_id) (rg_results g1)).*1 in
  with_cursors (filter (fun kv => kv.2.1.1 ∉ ids) (rg_cursors g1))
    (with_results (filter (fun kv => kv.1 ∉ ids) (rg_results g1)) g1).

(** The first session that may be evicted, and its eviction. *)
Definition candidate (g : Registry) (sessions : list (string * ActiveReadSession)) : option (string * ActiveReadSession) :=
  List.find (fun kv => evictable g kv.1) sessions.

Definition same_connection (connection_id : string) (connection_revision : Z) (active : ActiveReadSession) : bool :=
  bool_decide (as_connection_id active = connection_id) && bool_decide (as_connection_revision active = connection_revision).

(** [_reclaim_read_session]. *)
Definition reclaim_read_session (now : Z) (connection_id : string) (connection_revision : Z) (global_capacity : bool) (g : Registry)
    : Registry * bool :=
  let g := purge_transient_results now g in
  match candidate g (filter (fun kv => global_capacity || same_connection connection_id connection_revision kv.2 = true) (rg_sessions g)) with
  | None => (g, false)
  | Some (execution_id, active) => (evict_read_session execution_id active (pop_session execution_id g), true)
  end.

(** The inner loop of [_make_read_session_capacity]; [fuel] is the number of matching
    sessions, one of which goes in each round. *)
Fixpoint make_room (fuel : nat) (limit : nat) (limit_name : string) (matching : list (string * ActiveReadSession)) (g : Registry)
    : Registry * result results_error unit :=
  if bool_decide (length matching < limit) then (g, Ok tt) else
  match fuel with
  | O => (g, Ok tt)
  | S fuel' =>
      match candidate g matching with
      | None => (g, Err (ResultsCapacity limit_name (Z.of_nat limit) (Z.of_nat (length matching) + 1)))
      | Some (execution_id, active) =>
          make_room fuel' limit limit_name (filter (fun kv => kv.1 <> execution_id) matching)
            (evict_read_session execution_id active (pop_session execution_id g))
      end
  end.

Definition room_among (global_capacity : bool) (target : ConsoleTarget) (g : Registry) : list (string * ActiveReadSession) :=
  filter (fun kv => global_capacity || same_connection (tg_connection_id target) (tg_connection_revision target) kv.2 = true) (rg_sessions g).

Definition make_read_session_capacity (now : Z) (target : ConsoleTarget) (g : Registry) : Registry * result results_error unit :=
  let g := purge_transient_results now g in
  let matching := room_among false target g in
  match make_room (length matching) maximum_live_read_sessions_per_identity
          "console.results.maximum_live_read_sessions_per_identity" matching g with
  | (g, Err e) => (g, Err e)
  | (g, Ok _) =>
      let matching := room_among true target g in
      make_room (length matching) maximum_live_read_sessions "console.results.maximum_live_read_sessions" matching g
  end.

(** ** Retaining *)

Definition transient (record : ConsoleExecutionRecord) (execution : ConsoleExecution) (summary : ConsoleResultSummary)
    (query : ConsoleQueryResult) (expires_at : Z) (read_session : option string) : TransientResult :=
  {| tr_owner_id := cer_owner_id record; tr_workspace_id := ce_workspace_id execution; tr_execution_id := ce_id execution;
     tr_result_id := rs_id summary; tr_query := query; tr_page_size := cer_page_size record; tr_expires_at := expires_at;
     tr_read_session := read_session; tr_first_page_requested := false; tr_active_exports := 0; tr_pending_close := false |}.

(** The loop [while len(self._active_read_sessions) > maximum]. *)
Fixpoint shrink (fuel : nat) (execution_id sid : string) (g : Registry) : Registry * result results_error unit :=
  if bool_decide (length (rg_sessions g) <= maximum_live_read_sessions) then (g, Ok tt) else
  match fuel with
  | O => (g, Ok tt)
  | S fuel' =>
      match candidate g (filter (fun kv => kv.1 <> execution_id) (rg_sessions g)) with
      | Some (evicted_execution, evicted) =>
          shrink fuel' execution_id sid (evict_read_session evicted_execution evicted (pop_session evicted_execution g))
      | None =>
          let g1 := unprotect execution_id (pop_session execution_id g) in
          let g2 := with_results (filter (fun kv => tr_execution_id kv.2 <> execution_id) (rg_results g1)) g1 in
          let g3 := release_session sid g2 in
          (g3, Err (ResultsCapacity "console.results.maximum_live_read_sessions" (Z.of_nat maximum_live_read_sessions)
                      (Z.of_nat (length (rg_sessions g3)) + 1)))
      end
  end.

(** [{item.statement_index: item for item in execution.results}] and the loop over the results. *)
Definition summary_of (execution : ConsoleExecution) (query : ConsoleQueryResult) : option ConsoleResultSummary :=
  dget (qr_statement_index query) (dict_by rs_statement_index (ce_results execution)).
Definition retain_one (record : ConsoleExecutionRecord) (execution : ConsoleExecution) (expires_at : Z) (read_session : option string)
    (results : list (string * TransientResult)) (query : ConsoleQueryResult) : list (string * TransientResult) :=
  match summary_of execution query with
  | None => results
  | Some summary => dset (rs_id summary) (transient record execution summary query expires_at read_session) results
  end.

(** [_retain_results]; the session object comes into being when the execution opens it. *)
Definition retain_results (now : Z) (record : ConsoleExecutionRecord) (execution : ConsoleExecution)
    (results : list ConsoleQueryResult) (expires_at : Z) (read_session : option string) (g : Registry)
    : Registry * result results_error unit :=
  let g := purge_transient_results now g in
  let g := if bool_decide (ce_id execution ∈ dkeys (rg_protected g))
           then with_protected (dset (ce_id execution) expires_at (rg_protected g)) g else g in
  let g := if bool_decide (length (ce_results execution) = 0) then unprotect (ce_id execution) g else g in
  let g := with_results (foldl (retain_one record execution expires_at read_session) (rg_results g) results) g in
  match read_session with
  | None => (g, Ok tt)
  | Some sid =>
      let active := {| as_owner_id := cer_owner_id record; as_workspace_id := ce_workspace_id execution;
                       as_connection_id := tg_connection_id (cer_target record);
                       as_connection_revision := tg_connection_revision (cer_target record); as_session := sid |} in
      let g := with_sessions (dpop (ce_id execution) (rg_sessions g) ++ [(ce_id execution, active)])%list g in
      shrink (length (rg_sessions g)) (ce_id execution) sid g
  end.

(** [reserve_read_target] with [protect_result]. *)
Definition protect_result (now expires_at : Z) (execution_id : string) (g : Registry) : Registry :=
  let g := purge_transient_results now g in with_protected (dset execution_id expires_at (rg_protected g)) g.

(** ** Pages *)

(** A request that holds a lease: what it reads and how far it is. *)
Inductive flight_stage :=
| Leased
| Fetched (next_offset : Z) (has_more : bool)
| Failed (e : session_error)
| Ended.
Record flight := {
  fl_export : bool;
  fl_result_id : string;
  fl_execution_id : string;
  fl_query : ConsoleQueryResult;
  fl_session : option string;
  fl_offset : Z;
  fl_batch : Z;
  fl_stage : flight_stage;
}.
Definition at_stage (stage : flight_stage) (f : flight) : flight :=
  {| fl_export := fl_export f; fl_result_id := fl_result_id f; fl_execution_id := fl_execution_id f; fl_query := fl_query f;
     fl_session := fl_session f; fl_offset := fl_offset f; fl_batch := fl_batch f; fl_stage := stage |}.

Definition leased_result (first_page_requested : bool) (r : TransientResult) : TransientResult :=
  {| tr_owner_id := tr_owner_id r; tr_workspace_id := tr_workspace_id r; tr_execution_id := tr_execution_id r;
     tr_result_id := tr_result_id r; tr_query := tr_query r; tr_page_size := tr_page_size r; tr_expires_at := tr_expires_at r;
     tr_read_session := tr_read_session r; tr_first_page_requested := first_page_requested;
     tr_active_exports := tr_active_exports r + 1; tr_pending_close := tr_pending_close r |}.
Definition returned_result (exports : Z) (r : TransientResult) : TransientResult :=
  {| tr_owner_id := tr_owner_id r; tr_workspace_id := tr_workspace_id r; tr_execution_id := tr_execution_id r;
     tr_result_id := tr_result_id r; tr_query := tr_query r; tr_page_size := tr_page_size r; tr_expires_at := tr_expires_at r;
     tr_read_session := tr_read_session r; tr_first_page_requested := tr_first_page_requested r;
     tr_active_exports := exports; tr_pending_close := tr_pending_close r |}.
Definition closing_result (r : TransientResult) : TransientResult :=
  {| tr_owner_id := tr_owner_id r; tr_workspace_id := tr_workspace_id r; tr_execution_id := tr_execution_id r;
     tr_result_id := tr_result_id r; tr_query := tr_query r; tr_page_size := tr_page_size r; tr_expires_at := tr_expires_at r;
     tr_read_session := tr_read_session r; tr_first_page_requested := tr_first_page_requested r;
     tr_active_exports := tr_active_exports r; tr_pending_close := true |}.

Definition move_to_end (execution_id : string) (g : Registry) : Registry :=
  match dget execution_id (rg_sessions g) with
  | None => g
  | Some active => with_sessions (dpop execution_id (rg_sessions g) ++ [(execution_id, active)])%list g
  end.

Definition gone : results_error :=
  ResultsProblem 410 "console_result_gone" "This result page cursor has expired or was already used".

(** The first critical section of [page], after [get] found the receipt of the execution. *)
Definition page_begin (now : Z) (owner_id execution_id result_id : string) (token : option string) (page_size : option Z)
    (g : Registry) : Registry * result results_error flight :=
  let g := purge_transient_results now g in
  match dget result_id (rg_results g) with
  | None => (g, Err (ResultsProblem 410 "console_result_replay_required" "This result is no longer available; run the query again"))
  | Some r =>
      if tr_pending_close r || negb (bool_decide (tr_owner_id r = owner_id)) || negb (bool_decide (tr_execution_id r = execution_id)) then
        (g, Err (ResultsProblem 410 "console_result_replay_required" "This result is no longer available; run the query again"))
      else
      let batch := from_option id (tr_page_size r) page_size in
      if negb (bool_decide (1 <= batch <= Z.min (tr_page_size r) row_page_size)%Z) then
        (g, Err (ResultsProblem 422 "console_page_size_limit"
                   ("Rows per batch must be between 1 and " ++ pretty (Z.min (tr_page_size r) row_page_size)))) else
      let lease (offset : Z) (first : bool) (g : Registry) :=
        (move_to_end execution_id (with_results (dset result_id (leased_result first r) (rg_results g)) g),
         Ok {| fl_export := false; fl_result_id := result_id; fl_execution_id := execution_id; fl_query := tr_query r;
               fl_session := tr_read_session r; fl_offset := offset; fl_batch := batch; fl_stage := Leased |}) in
      match token with
      | None =>
          if bool_decide (is_Some (tr_read_session r)) then
            if tr_first_page_requested r then
              (g, Err (ResultsProblem 410 "console_result_gone"
                         "The first page was already requested. Continue with its next cursor or run the query again."))
            else lease 0%Z true g
          else lease 0%Z (tr_first_page_requested r) g
      | Some c =>
          let popped := with_cursors (dpop c (rg_cursors g)) g in
          match dget c (rg_cursors g) with
          | None => (popped, Err gone)
          | Some (value, offset, expires_at) =>
              if negb (bool_decide (value = result_id)) || bool_decide (expires_at <= now)%Z then (popped, Err gone)
              else lease offset (tr_first_page_requested r) popped
          end
      end
  end.

(** The rows of a page, and whether rows are held back for the next one. *)
Definition page_rows (f : flight) (g : Registry) : Registry * result session_error (list (list json) * bool) :=
  match fl_session f with
  | None => (g, Ok (row_slice (qr_rows (fl_query f)) (fl_offset f) (Z.to_nat (fl_batch f)), false))
  | Some sid =>
      match on_session sid (session_page convert row_bytes fetchmany open_cursor page_memory_bytes
                              (qr_statement_index (fl_query f)) (fl_offset f) (fl_batch f)) g with
      | (g, Err e) => (g, Err e)
      | (g, Ok rows) =>
          (g, Ok (rows, match dget sid (rg_store g) with
                        | Some s => has_buffered_rows (qr_statement_index (fl_query f)) s
                        | None => false
                        end))
      end
  end.

Definition page_has_more (f : flight) (rows : list (list json)) (buffered : bool) : bool :=
  let next_offset := (fl_offset f + Z.of_nat (length rows))%Z in
  match fl_session f, qr_row_count (fl_query f) with
  | Some _, None => bool_decide (Z.of_nat (length rows) = fl_batch f) || buffered
  | _, Some count => bool_decide (next_offset < count)%Z
  | None, None => bool_decide (next_offset < Z.of_nat (length (qr_rows (fl_query f))))%Z
  end.

(** [item.pending_close = True] for the results of an execution. *)
Definition close_pending (execution_id : string) (g : Registry) : Registry :=
  with_results (map (fun kv => (kv.1, if bool_decide (tr_execution_id kv.2 = execution_id) then closing_result kv.2 else kv.2)) (rg_results g)) g.

Definition ends_results (e : session_error) : bool := match e with PostgresQueryError => false | _ => true end.

(** The read of a page, without the lock. *)
Definition page_fetch (f : flight) (g : Registry) : Registry * flight * result session_error (list (list json)) :=
  match page_rows f g with
  | (g, Ok (rows, buffered)) =>
      (g, at_stage (Fetched (fl_offset f + Z.of_nat (length rows))%Z (page_has_more f rows buffered)) f, Ok rows)
  | (g, Err e) => (g, at_stage (Failed e) f, Err e)
  end.

(** The [except] clauses of pages and of exports. *)
Definition request_failed (f : flight) (g : Registry) : Registry :=
  match fl_stage f with
  | Failed e => if ends_results e then close_pending (fl_execution_id f) g else g
  | _ => g
  end.

(** The section that issues the next cursor. *)
Definition page_publish (token : string) (f : flight) (g : Registry) : Registry * option string :=
  match fl_stage f, dget (fl_result_id f) (rg_results g) with
  | Fetched next_offset true, Some r =>
      if tr_pending_close r then (g, None)
      else (with_cursors (dset ("crc_" ++ token) (fl_result_id f, next_offset, tr_expires_at r) (rg_cursors g)) g, Some ("crc_" ++ token))
  | _, _ => (g, None)
  end.

(** [finally]: the lease is given back.  The result of a lease is never removed while it is
    held, so the object the request holds is the registered one. *)
Definition page_release (now : Z) (f : flight) (g : Registry) : Registry :=
  let g := match dget (fl_result_id f) (rg_results g) with
           | None => g
           | Some r => with_results (dset (fl_result_id f) (returned_result (tr_active_exports r - 1) r) (rg_results g)) g
           end in
  purge_transient_results now g.

(** ** Exports *)

Definition export_begin (now : Z) (owner_id : string) (workspace_id : option string) (execution_id result_id : string) (g : Registry)
    : Registry * result results_error flight :=
  let g := purge_transient_results now g in
  match dget result_id (rg_results g) with
  | Some r =>
      if tr_pending_close r || negb (bool_decide (tr_owner_id r = owner_id)) || negb (bool_decide (tr_workspace_id r = workspace_id))
         || negb (bool_decide (tr_execution_id r = execution_id))
      then (g, Err (ResultsProblem 410 "console_result_replay_required" "This result is no longer available; run the query again before exporting"))
      else (with_results (dset result_id (leased_result (tr_first_page_requested r) r) (rg_results g)) g,
            Ok {| fl_export := true; fl_result_id := result_id; fl_execution_id := execution_id; fl_query := tr_query r;
                  fl_session := tr_read_session r; fl_offset := 0; fl_batch := tr_page_size r; fl_stage := Leased |})
  | None => (g, Err (ResultsProblem 410 "console_result_replay_required" "This result is no longer available; run the query again before exporting"))
  end.

(** The rows of one round of the stream. *)
Definition export_rows (f : flight) (offset : Z) (g : Registry) : Registry * result session_error (list (list json)) :=
  match fl_session f with
  | None => (g, Ok (row_slice (qr_rows (fl_query f)) offset (Z.to_nat (fl_batch f))))
  | Some sid => on_session sid (export_page convert row_bytes fetchmany open_cursor page_memory_bytes
                  (qr_statement_index (fl_query f)) offset (fl_batch f)) g
  end.

Definition advance (rows : nat) (f : flight) : flight :=
  {| fl_export := fl_export f; fl_result_id := fl_result_id f; fl_execution_id := fl_execution_id f; fl_query := fl_query f;
     fl_session := fl_session f; fl_offset := fl_offset f + Z.of_nat rows; fl_batch := fl_batch f; fl_stage := fl_stage f |}.

(** One round of the loop, which ends when there are no more rows. *)
Definition export_round (f : flight) (g : Registry) : Registry * flight * result session_error (list (list json)) :=
  if match qr_row_count (fl_query f) with None => true | Some count => bool_decide (fl_offset f < count)%Z end then
    match export_rows f (fl_offset f) g with
    | (g, Ok []) => (g, at_stage Ended f, Ok [])
    | (g, Ok rows) => (g, advance (length rows) f, Ok rows)
    | (g, Err e) => (g, at_stage (Failed e) f, Err e)
    end
  else (g, at_stage Ended f, Ok []).

(** The loop of the stream: the rows it yields, and the request when it ends. *)
Fixpoint export_stream (fuel : nat) (f : flight) (g : Registry) : Registry * flight * list (list json) :=
  match fuel, fl_stage f with
  | S fuel', Leased =>
      let '(g1, f1, out) := export_round f g in
      let '(g2, f2, rest) := export_stream fuel' f1 g1 in
      (g2, f2, match out with Ok rows => rows ++ rest | Err _ => rest end)%list
  | _, _ => (g, f, [])
  end.

(** [finally] of the stream. *)
Definition export_end (now : Z) (f : flight) (g : Registry) : Registry :=
  let g := match dget (fl_result_id f) (rg_results g) with
           | None => g
           | Some r => with_results (dset (fl_result_id f) (returned_result (Z.max 0 (tr_active_exports r - 1)) r) (rg_results g)) g
           end in
  purge_transient_results now g.

(** ** Closing *)

(** [close_result], after the repository closed its receipt. *)
Definition close_transient (execution_id result_id : string) (g : Registry) : Registry :=
  let g := match dget result_id (rg_results g) with
           | Some r => if negb (bool_decide (tr_active_exports r = 0%Z))
                       then with_results (dset result_id (closing_result r) (rg_results g)) g
                       else with_results (dpop result_id (rg_results g)) g
           | None => with_results (dpop result_id (rg_results g)) g
           end in
  let g := with_cursors (filter (fun kv => kv.2.1.1 <> result_id) (rg_cursors g)) g in
  let g := close_unreferenced_read_sessions g in
  if existsb (fun kv => bool_decide (tr_execution_id kv.2 = execution_id)) (rg_results g) then g else unprotect execution_id g.

(** The part of [cancel] that concerns the registry. *)
Definition cancel_transient (execution_id : string) (g : Registry) : Registry :=
  let g := unprotect execution_id g in
  match dget execution_id (rg_sessions g) with
  | None => g
  | Some active => (on_session (as_session active) cancel_session g).1
  end.

(** The part of [close] that concerns the registry, at shutdown. *)
Definition close_all (g : Registry) : Registry :=
  foldl (fun g sid => release_session sid g)
    {| rg_results := []; rg_cursors := []; rg_protected := []; rg_sessions := []; rg_store := rg_store g; rg_released := rg_released g |}
    ((fun kv => as_session kv.2) <$> rg_sessions g).
End registry.
