(* ===== verification/ConsoleReaders.v ===== *)
(** * Requests that read results concurrently

    The registry of results with the requests that hold leases on its results: every
    interleaving of the critical sections of [ConsoleService] and of the reads between them.

    - [w_flights] are the requests under way, [w_opened] the sessions as they were opened,
      [w_pending] the sessions whose execution has not retained them yet, [w_retained] the
      executions that were retained, and [w_delivered] the rows handed out in pages, by
      session and statement.
    - An execution is retained once, since only one [claim] of its receipt succeeds, and the
      identifiers of results are drawn afresh. *)

From Stdlib Require Import Ascii String.
From stdpp Require Import relations.
From S2P Require Import Prelude Json PyString DesignModels ConsoleStore ConsoleSession ConsoleResults.
Open Scope string_scope.
Open Scope list_scope.

#[local] Arguments on_session : simpl never.
#[local] Arguments release_session : simpl never.

(** ** Purging, evicting and making room

    They only shrink the registry ([shrunk]): results that are leased stay, and exactly the
    sessions that leave the table are closed. *)

Section props.
Context {raw cursor : Type}.
Abbreviation Reg := (@Registry raw cursor).
Implicit Types (g h : Reg) (r : TransientResult) (a : ActiveReadSession).

(** Leases are counted. *)
Definition counts_ok g : Prop := forall id r, dget id (rg_results g) = Some r -> (0 <= tr_active_exports r)%Z.

(** Cursors are for results that are there. *)
Definition cursors_ok g : Prop := forall kv, kv ∈ rg_cursors g -> kv.2.1.1 ∈ dkeys (rg_results g).

(** The dictionaries are dictionaries, and results name sessions of the table. *)
Record tables_ok g : Prop := {
  tb_results : dwf (rg_results g);
  tb_sessions : dwf (rg_sessions g);
  tb_counts : counts_ok g;
  tb_cursors : cursors_ok g;
  tb_held : forall id r sid, dget id (rg_results g) = Some r -> tr_read_session r = Some sid ->
    exists a, dget (tr_execution_id r) (rg_sessions g) = Some a /\ as_session a = sid;
  tb_distinct : NoDup ((fun kv => as_session kv.2) <$> rg_sessions g);
}.

Record shrunk g h : Prop := {
  sh_results : forall id r, dget id (rg_results h) = Some r -> dget id (rg_results g) = Some r;
  sh_results_sub : rg_results h `sublist_of` rg_results g;
  sh_kept : forall id r, dget id (rg_results g) = Some r -> tr_active_exports r <> 0%Z -> dget id (rg_results h) = Some r;
  sh_cursors : rg_cursors h `sublist_of` rg_cursors g;
  sh_cursors_ok : cursors_ok h;
  sh_sessions : rg_sessions h `sublist_of` rg_sessions g;
  sh_held : forall id r sid, dget id (rg_results h) = Some r -> tr_read_session r = Some sid ->
    dget (tr_execution_id r) (rg_sessions h) = dget (tr_execution_id r) (rg_sessions g);
  sh_released : forall sid, sid ∈ rg_released h <->
    sid ∈ rg_released g \/ exists e a, dget e (rg_sessions g) = Some a /\ as_session a = sid /\ dget e (rg_sessions h) = None;
  sh_store : forall sid, (forall e a, dget e (rg_sessions g) = Some a -> as_session a = sid -> is_Some (dget e (rg_sessions h))) ->
    dget sid (rg_store h) = dget sid (rg_store g);
}.

Lemma sublist_dget {V} (d e : list (string * V)) k v : dwf e -> d `sublist_of` e -> dget k d = Some v -> dget k e = Some v.
Proof. intros Hwf Hs Hk%dget_Some_elem. apply dget_elem_wf; [done|]. by eapply elem_of_submseteq, sublist_submseteq. Qed.

Lemma sublist_dwf {V} (d e : list (string * V)) : dwf e -> d `sublist_of` e -> dwf d.
Proof. unfold dwf, dkeys. intros Hwf Hs. eapply NoDup_submseteq_fmap; [by apply sublist_submseteq|done]. Qed.

Lemma shrunk_tables g h : tables_ok g -> shrunk g h -> tables_ok h.
Proof.
  intros [Hr Hs Hc _ Hh Hd] Hsh. split.
  - eapply sublist_dwf, sh_results_sub; done.
  - eapply sublist_dwf, sh_sessions; done.
  - intros id r Hid. eapply Hc, sh_results; done.
  - apply Hsh.
  - intros id r sid Hid Hsid. rewrite (sh_held _ _ Hsh _ _ _ Hid Hsid). eapply Hh; [by eapply sh_results|done].
  - eapply NoDup_submseteq_fmap, Hd. apply sublist_submseteq, Hsh.
Qed.

Lemma shrunk_refl g : tables_ok g -> shrunk g g.
Proof. intros Hok. split; try done; [apply Hok|]. intros sid. split; [by left|]. intros [?|(e & a & Ha & _ & Hn)]; [done|congruence]. Qed.

Lemma shrunk_trans g1 g2 g3 : tables_ok g1 -> shrunk g1 g2 -> shrunk g2 g3 -> shrunk g1 g3.
Proof.
  intros Hok H1 H2. pose proof (shrunk_tables _ _ Hok H1) as Hok2. split.
  - intros id r Hr. by apply (sh_results _ _ H1), (sh_results _ _ H2).
  - etransitivity; [apply H2|apply H1].
  - intros id r Hr Hn. apply (sh_kept _ _ H2); [|done]. by apply (sh_kept _ _ H1).
  - etransitivity; [apply H2|apply H1].
  - apply H2.
  - etransitivity; [apply H2|apply H1].
  - intros id r sid Hr Hsid. rewrite (sh_held _ _ H2 _ _ _ Hr Hsid). eapply sh_held; [done|by apply (sh_results _ _ H2)|done].
  - intros sid. rewrite (sh_released _ _ H2), (sh_released _ _ H1). split.
    + intros [[?|(e & a & Ha & Hs & Hn)]|(e & a & Ha & Hs & Hn)]; [by left|right..].
      * exists e, a. split_and!; try done. destruct (dget e (rg_sessions g3)) eqn:He; [|done].
        eapply sublist_dget in He; [|apply Hok2|apply H2]. congruence.
      * exists e, a. split_and!; try done. eapply sublist_dget; [apply Hok|apply H1|done].
    + intros [?|(e & a & Ha & Hs & Hn)]; [by left; left|]. destruct (dget e (rg_sessions g2)) as [a2|] eqn:He.
      * right. exists e, a2. split_and!; try done. eapply sublist_dget in He; [|apply Hok|apply H1]. congruence.
      * left. right. eauto.
  - intros sid Hkeep. rewrite (sh_store _ _ H2), (sh_store _ _ H1); [done|..].
    + intros e a Ha Hs. destruct (Hkeep e a Ha Hs) as [a' He]. exists a'. eapply sublist_dget; [apply Hok2|apply H2|done].
    + intros e a Ha Hs. eapply Hkeep; [|done]. eapply sublist_dget; [apply Hok|apply H1|done].
Qed.

Lemma distinct_sessions g e1 e2 a1 a2 :
  tables_ok g -> dget e1 (rg_sessions g) = Some a1 -> dget e2 (rg_sessions g) = Some a2 -> as_session a1 = as_session a2 -> e1 = e2.
Proof.
  intros Hok H1%dget_Some_elem H2%dget_Some_elem Heq. apply list_elem_of_lookup in H1 as [i Hi], H2 as [j Hj].
  assert (i = j) as ->; [|congruence].
  eapply NoDup_lookup; [apply (tb_distinct _ Hok)|rewrite list_lookup_fmap, Hi; done|rewrite list_lookup_fmap, Hj; simpl; by rewrite Heq].
Qed.

(** ** Closing a session of the table *)

Lemma on_session_frame {A} sid (m : method ReadSession session_error A) g :
  let g' := (on_session sid m g).1 in
  rg_results g' = rg_results g /\ rg_cursors g' = rg_cursors g /\ rg_protected g' = rg_protected g /\
  rg_sessions g' = rg_sessions g /\ rg_released g' = rg_released g /\ forall sid', sid' <> sid -> dget sid' (rg_store g') = dget sid' (rg_store g).
Proof.
  unfold on_session. destruct (dget sid (rg_store g)) as [s|]; [|done]. destruct (m s) as [s' out]. simpl. split_and!; try done.
  intros sid' Hne. by rewrite dget_dset_ne.
Qed.

Lemma release_frame sid g :
  let g' := release_session sid g in
  rg_results g' = rg_results g /\ rg_cursors g' = rg_cursors g /\ rg_protected g' = rg_protected g /\
  rg_sessions g' = rg_sessions g /\ rg_released g' = rg_released g ++ [sid] /\ forall sid', sid' <> sid -> dget sid' (rg_store g') = dget sid' (rg_store g).
Proof.
  pose proof (on_session_frame sid close_session g) as (H1 & H2 & H3 & H4 & H5 & H6). unfold release_session. simpl.
  split_and!; try done. by rewrite H5.
Qed.

(** A session leaves the table with the results and cursors of a choice. *)
Lemma shrunk_drop g h e a :
  tables_ok g -> dget e (rg_sessions g) = Some a ->
  rg_results h `sublist_of` rg_results g ->
  (forall id r, dget id (rg_results g) = Some r -> tr_active_exports r <> 0%Z -> dget id (rg_results h) = Some r) ->
  (forall id r, dget id (rg_results h) = Some r -> is_Some (tr_read_session r) -> tr_execution_id r <> e) ->
  rg_cursors h `sublist_of` rg_cursors g -> cursors_ok h -> rg_sessions h = dpop e (rg_sessions g) ->
  rg_released h = rg_released g ++ [as_session a] ->
  (forall sid, sid <> as_session a -> dget sid (rg_store h) = dget sid (rg_store g)) ->
  shrunk g h.
Proof.
  intros Hok He Hres Hkept Hun Hcur Hlive Hses Hrel Hst. split; try done.
  - intros id r Hr. eapply sublist_dget; [apply Hok|done|done].
  - rewrite Hses. apply sublist_filter.
  - intros id r sid Hr Hsid. rewrite Hses, dget_dpop, decide_False; [done|]. eapply Hun; eauto.
  - intros sid. rewrite Hrel, elem_of_app, list_elem_of_singleton, Hses. split.
    + intros [?| ->]; [by left|]. right. exists e, a. split_and!; [done|done|]. by rewrite dget_dpop, decide_True.
    + intros [?|(e' & a' & Ha' & <- & Hn)]; [by left|right]. rewrite dget_dpop in Hn. case_decide; [|congruence]. congruence.
  - intros sid Hkeep. apply Hst. intros ->. destruct (Hkeep e a He eq_refl) as [a' Ha']. rewrite Hses, dget_dpop, decide_True in Ha'; done.
Qed.

(** Results and cursors may go while the sessions stay. *)
Lemma shrunk_results g h :
  tables_ok g -> rg_results h `sublist_of` rg_results g ->
  (forall id r, dget id (rg_results g) = Some r -> tr_active_exports r <> 0%Z -> dget id (rg_results h) = Some r) ->
  rg_cursors h `sublist_of` rg_cursors g -> cursors_ok h -> rg_sessions h = rg_sessions g -> rg_released h = rg_released g -> rg_store h = rg_store g ->
  shrunk g h.
Proof.
  intros Hok Hres Hkept Hcur Hlive Hses Hrel Hst. split; try done.
  - intros id r Hr. eapply sublist_dget; [apply Hok|done|done].
  - by rewrite Hses.
  - intros id r sid _ _. by rewrite Hses.
  - intros sid. rewrite Hrel, Hses. split; [by left|]. intros [?|(e & a & Ha & _ & Hn)]; [done|congruence].
  - intros sid _. by rewrite Hst.
Qed.

Lemma dget_filter_notin {V} (d : list (string * V)) (l : list string) k :
  dwf d -> dget k (filter (fun kv => kv.1 ∉ l) d) = if decide (k ∈ l) then None else dget k d.
Proof.
  intros Hwf. case_decide as Hk.
  - apply dget_None. unfold dkeys. intros ((k' & v) & -> & [Hp _]%list_elem_of_filter)%list_elem_of_fmap. done.
  - destruct (dget k d) as [v|] eqn:Hv.
    + apply dget_elem_wf; [eapply sublist_dwf, sublist_filter; done|]. apply list_elem_of_filter. split; [done|by apply dget_Some_elem].
    + apply dget_None in Hv. apply dget_None. intros Hin. apply Hv. unfold dkeys in *.
      eapply elem_of_submseteq; [exact Hin|]. apply fmap_submseteq, sublist_submseteq, sublist_filter.
Qed.

Lemma kept_key {V} (d : list (string * V)) (l : list string) k :
  dwf d -> k ∉ l -> k ∈ dkeys d -> k ∈ dkeys (filter (fun kv => kv.1 ∉ l) d).
Proof. intros Hwf Hk Hin. apply dget_is_Some. rewrite dget_filter_notin, decide_False by done. by apply dget_is_Some. Qed.

Lemma elem_of_keys {V} (d : list (string * V)) (P : string * V -> Prop) `{forall kv, Decision (P kv)} k v :
  dwf d -> dget k d = Some v -> k ∈ (filter P d).*1 <-> P (k, v).
Proof.
  intros Hwf Hk. rewrite list_elem_of_fmap. split.
  - intros ((k' & v') & -> & [HP Hin]%list_elem_of_filter). apply dget_elem_wf in Hin; [|done]. simpl in *. rewrite Hin in Hk. by injection Hk as <-.
  - intros HP. exists (k, v). split; [done|]. apply list_elem_of_filter. split; [done|by apply dget_Some_elem].
Qed.

(** ** Purging *)

Lemma unreferenced_shrunk executions g : tables_ok g -> shrunk g (close_unreferenced executions g).
Proof.
  revert g. induction executions as [|e rest IH]; intros g Hok; [by apply shrunk_refl|]. simpl. case_bool_decide as Href; [by apply IH|].
  destruct (dget e (rg_sessions g)) as [a|] eqn:He; [|by apply IH].
  pose proof (release_frame (as_session a) (pop_session e g)) as (H1 & H2 & H3 & H4 & H5 & H6).
  set (h := unprotect e (release_session (as_session a) (pop_session e g))).
  assert (rg_results h = rg_results g) as E1 by exact H1. assert (rg_cursors h = rg_cursors g) as E2 by exact H2.
  assert (shrunk g h) as Hh.
  { apply (shrunk_drop g h e a); try done.
    - by rewrite E1.
    - intros id r Hr _. by rewrite E1.
    - intros id r Hr Hsid. rewrite E1 in Hr. intros <-. apply Href. unfold referenced. apply list_elem_of_fmap. exists (id, r). split; [done|].
      apply list_elem_of_filter. split; [done|by apply dget_Some_elem].
    - by rewrite E2.
    - unfold cursors_ok. rewrite E1, E2. apply Hok. }
  eapply shrunk_trans; [done|done|]. apply IH. by eapply shrunk_tables.
Qed.

Lemma purge_shrunk now g : tables_ok g -> shrunk g (purge_transient_results now g).
Proof.
  intros Hok. unfold purge_transient_results, close_unreferenced_read_sessions. set (h := with_cursors _ _).
  assert (rg_results h = filter (fun kv => kv.1 ∉ (filter (fun kv => lapsed now kv.2 = true) (rg_results g)).*1) (rg_results g)) as E1 by done.
  assert (shrunk g h) as Hh.
  { apply shrunk_results; try done; rewrite ?E1; [apply sublist_filter| |apply sublist_filter|].
    2: { intros kv [[Hn _] Hin]%list_elem_of_filter. rewrite E1. apply kept_key; [apply Hok|done|]. by apply Hok. }
    intros id r Hr Hn. rewrite dget_filter_notin by apply Hok. rewrite decide_False; [done|].
    rewrite elem_of_keys by (apply Hok || done). unfold lapsed. rewrite andb_true_iff, bool_decide_eq_true. tauto. }
  eapply shrunk_trans; [done|done|]. apply unreferenced_shrunk. by eapply shrunk_tables.
Qed.

(** ** Eviction *)

Lemma evict_shrunk e a g :
  tables_ok g -> dget e (rg_sessions g) = Some a -> evictable g e = true -> shrunk g (evict_read_session e a (pop_session e g)).
Proof.
  intros Hok He Hev. pose proof (release_frame (as_session a) (pop_session e g)) as (H1 & H2 & H3 & H4 & H5 & H6).
  unfold evict_read_session. remember (release_session (as_session a) (pop_session e g)) as g1 eqn:Hg1. set (h := with_cursors _ _).
  assert (rg_results h = filter (fun kv => kv.1 ∉ (filter (fun kv => tr_execution_id kv.2 = e) (rg_results g)).*1) (rg_results g)) as E1
    by (unfold h; cbn [rg_results with_cursors with_results]; by rewrite H1).
  assert (cursors_ok h) as E3.
  { intros kv. unfold h. cbn [rg_cursors with_cursors with_results]. rewrite H1, H2. intros [Hn Hin]%list_elem_of_filter.
    cbn [rg_results with_cursors with_results]. apply kept_key; [apply Hok|done|]. by apply Hok. }
  assert (rg_cursors h `sublist_of` rg_cursors g) as E2 by (unfold h; cbn [rg_cursors with_cursors with_results]; rewrite H2; apply sublist_filter).
  apply (shrunk_drop g h e a); try done; rewrite ?E1.
  - apply sublist_filter.
  - intros id r Hr Hn. rewrite dget_filter_notin by apply Hok. rewrite decide_False; [done|].
    rewrite elem_of_keys by (apply Hok || done). simpl. intros Heq. unfold evictable in Hev. apply andb_true_iff in Hev as [_ Hev].
    rewrite negb_true_iff, existsb_false_Forall, Forall_forall in Hev. specialize (Hev _ (dget_Some_elem _ _ _ Hr)). simpl in Hev.
    rewrite andb_false_iff, !bool_decide_eq_false in Hev. pose proof (tb_counts _ Hok _ _ Hr). destruct Hev as [?|?]; [done|lia].
  - intros id r. rewrite dget_filter_notin by apply Hok. case_decide as Hid; [done|]. intros Hr _ Heq. apply Hid.
    rewrite elem_of_keys by (apply Hok || done). done.
Qed.

Lemma candidate_spec g sessions e a :
  dwf (rg_sessions g) -> sessions `sublist_of` rg_sessions g -> candidate g sessions = Some (e, a) ->
  dget e (rg_sessions g) = Some a /\ evictable g e = true /\ (e, a) ∈ sessions.
Proof.
  intros Hwf Hs Hc. unfold candidate in Hc. apply find_some in Hc as [Hin%list_elem_of_In Hev]. split_and!; try done.
  apply dget_elem_wf; [done|]. by eapply elem_of_submseteq, sublist_submseteq.
Qed.

Lemma reclaim_shrunk now connection revision global g : tables_ok g -> shrunk g (reclaim_read_session now connection revision global g).1.
Proof.
  intros Hok. unfold reclaim_read_session. pose proof (purge_shrunk now g Hok) as Hp. set (h := purge_transient_results now g) in *.
  pose proof (shrunk_tables _ _ Hok Hp) as Hh. destruct (candidate h _) as [[e a]|] eqn:Hc; [|done].
  apply candidate_spec in Hc as (He & Hev & _); [|apply Hh|apply sublist_filter]. simpl. eapply shrunk_trans; [done|done|]. by apply evict_shrunk.
Qed.

(** ** Room for a session *)

Lemma evict_sessions e a g : rg_sessions (evict_read_session e a (pop_session e g)) = dpop e (rg_sessions g).
Proof.
  pose proof (release_frame (as_session a) (pop_session e g)) as (_ & _ & _ & H4 & _). unfold evict_read_session.
  by cbn [rg_sessions with_cursors with_results].
Qed.

Lemma filter_swap {A} (P Q : A -> Prop) `{forall x, Decision (P x)} `{forall x, Decision (Q x)} (l : list A) :
  filter P (filter Q l) = filter Q (filter P l).
Proof.
  induction l as [|x l IH]; [done|]. rewrite !filter_cons. repeat case_decide; rewrite ?filter_cons; repeat case_decide; try done; by f_equal.
Qed.

Lemma sublist_filter_mono {A} (P : A -> Prop) `{forall x, Decision (P x)} (l k : list A) :
  l `sublist_of` k -> filter P l `sublist_of` filter P k.
Proof.
  induction 1 as [|x l k _ IH|x l k _ IH]; [done|..]; rewrite ?filter_cons; case_decide; try done.
  - by constructor.
  - by constructor.
Qed.

(** Sessions of a kind are evicted until there is room for one more, or the others are all
    protected or in use. *)
Lemma make_room_spec (P : ActiveReadSession -> bool) fuel limit name g h out :
  tables_ok g -> length (filter (fun kv => P kv.2 = true) (rg_sessions g)) <= fuel -> 0 < limit ->
  make_room fuel limit name (filter (fun kv => P kv.2 = true) (rg_sessions g)) g = (h, out) ->
  shrunk g h /\
  match out with
  | Ok _ => length (filter (fun kv => P kv.2 = true) (rg_sessions h)) < limit
  | Err e => (exists observed, e = ResultsCapacity name (Z.of_nat limit) observed) /\
             limit <= length (filter (fun kv => P kv.2 = true) (rg_sessions h)) /\
             forall k a, dget k (rg_sessions h) = Some a -> P a = true -> evictable h k = false
  end.
Proof.
  intros Hok Hfuel Hlimit. revert g Hok Hfuel. induction fuel as [|fuel IH]; intros g Hok Hfuel; simpl; case_bool_decide as Hroom.
  1,3: intros [= <- <-]; split; [by apply shrunk_refl|done].
  - intros [= <- <-]. lia.
  - destruct (candidate g _) as [[e a]|] eqn:Hc.
    + apply candidate_spec in Hc as (He & Hev & Hin); [|apply Hok|apply sublist_filter]. pose proof (evict_shrunk e a g Hok He Hev) as Hsh.
      set (g1 := evict_read_session e a (pop_session e g)) in *. intros Hrun.
      assert (filter (fun kv => kv.1 <> e) (filter (fun kv => P kv.2 = true) (rg_sessions g)) = filter (fun kv => P kv.2 = true) (rg_sessions g1)) as Heq.
      { unfold g1. rewrite evict_sessions. apply filter_swap. }
      rewrite Heq in Hrun. destruct (IH g1) as [Hsh1 Hout]; [by eapply shrunk_tables| |done|].
      * rewrite <-Heq. enough (length (filter (fun kv => kv.1 <> e) (filter (fun kv => P kv.2 = true) (rg_sessions g))) <
          length (filter (fun kv => P kv.2 = true) (rg_sessions g))) by lia.
        eapply length_filter_lt; [exact Hin|]. simpl. tauto.
      * split; [by eapply shrunk_trans|done].
    + intros [= <- <-]. split; [by apply shrunk_refl|]. split; [eauto|]. split; [lia|]. intros k a Hk HP.
      eapply (find_none _ _ Hc (k, a)). apply list_elem_of_In, list_elem_of_filter. split; [done|by apply dget_Some_elem].
Qed.

Section limits.
Variables (maximum per_identity : nat).
Hypothesis Hmaximum : 0 < maximum.
Hypothesis Hper : 0 < per_identity.

(** The sessions that count against the connection, or all of them. *)
Definition counted (global : bool) (target : ConsoleTarget) (a : ActiveReadSession) : bool :=
  global || same_connection (tg_connection_id target) (tg_connection_revision target) a.

Lemma capacity_spec now target g h out :
  tables_ok g -> make_read_session_capacity maximum per_identity now target g = (h, out) ->
  shrunk g h /\
  match out with
  | Ok _ => length (rg_sessions h) < maximum /\
      length (filter (fun kv => counted false target kv.2 = true) (rg_sessions h)) < per_identity
  | Err e => exists (global : bool) limit name observed, e = ResultsCapacity name (Z.of_nat limit) observed /\
      limit = (if global then maximum else per_identity) /\
      limit <= length (filter (fun kv => counted global target kv.2 = true) (rg_sessions h)) /\
      forall k a, dget k (rg_sessions h) = Some a -> counted global target a = true -> evictable h k = false
  end.
Proof.
  intros Hok. unfold make_read_session_capacity, room_among. pose proof (purge_shrunk now g Hok) as Hp.
  set (g1 := purge_transient_results now g) in *. pose proof (shrunk_tables _ _ Hok Hp) as Hok1. cbv zeta.
  destruct (make_room _ per_identity _ _ g1) as [g2 [u|e]] eqn:H1.
  - eapply (make_room_spec (counted false target)) in H1 as [Hs1 Hlen1]; [|done|done|done]. pose proof (shrunk_tables _ _ Hok1 Hs1) as Hok2.
    intros H2. apply (make_room_spec (counted true target)) in H2 as [Hs2 Hout]; [|done|done|done]. split.
    + eapply shrunk_trans; [done|done|]. by eapply shrunk_trans.
    + destruct out as [v|e].
      * rewrite filter_all in Hout by (by apply Forall_forall). split; [done|].
        eapply Nat.le_lt_trans; [|exact Hlen1]. apply sublist_length, sublist_filter_mono, Hs2.
      * destruct Hout as ([observed ->] & Hlim & Hev). by eexists true, _, _, observed.
  - intros [= <- <-]. eapply (make_room_spec (counted false target)) in H1 as [Hs1 ([observed ->] & Hlim & Hev)]; [|done|done|done].
    split; [by eapply shrunk_trans|]. by eexists false, _, _, observed.
Qed.
End limits.
End props.

(** ** Requests under way *)

Section readers.
Context {raw cursor : Type}.
Variable convert : raw -> result (Z * Z) (list json).
Variable row_bytes : list json -> Z.
Variable fetchmany : cursor -> nat -> cursor * result (option string * option string) (list raw).
Variable open_cursor : string -> Z -> result (option string * option string) cursor.
Variable page_memory_bytes : Z.
Variables (maximum per_identity : nat) (row_page_size : Z).

Record World := mk_world {
  w_reg : @Registry raw cursor;
  w_flights : list flight;
  w_opened : list (string * @ReadSession raw cursor);
  w_pending : list string;
  w_retained : list string;
  w_delivered : list (string * Z * list json);
}.

Definition empty_world : World := mk_world empty_registry [] [] [] [] [].

Definition delivered (w : World) (sid : string) (i : Z) : list (list json) := (filter (fun x => x.1 = (sid, i)) (w_delivered w)).*2.

(** The rows a request handed out. *)
Definition handed (f : flight) (out : result session_error (list (list json))) : list (string * Z * list json) :=
  match fl_session f, out with
  | Some sid, Ok rows => (fun row => (sid, qr_statement_index (fl_query f), row)) <$> rows
  | _, _ => []
  end.

Definition started (out : result results_error flight) : list flight := match out with Ok f => [f] | Err _ => [] end.

(** A session that has just been opened: nothing was read from its cursors. *)
Definition session_new (s : @ReadSession raw cursor) : Prop :=
  forall i reader, dget i (ss_readers s) = Some reader -> rd_position reader = 0%Z.

Inductive reader_step (w : World) : World -> Prop :=
| do_protect now expires execution :
    reader_step w (mk_world (protect_result now expires execution (w_reg w)) (w_flights w) (w_opened w) (w_pending w) (w_retained w) (w_delivered w))
| do_unprotect execution :
    reader_step w (mk_world (unprotect execution (w_reg w)) (w_flights w) (w_opened w) (w_pending w) (w_retained w) (w_delivered w))
| do_capacity now target :
    reader_step w (mk_world (make_read_session_capacity maximum per_identity now target (w_reg w)).1
      (w_flights w) (w_opened w) (w_pending w) (w_retained w) (w_delivered w))
| do_reclaim now connection revision global :
    reader_step w (mk_world (reclaim_read_session now connection revision global (w_reg w)).1
      (w_flights w) (w_opened w) (w_pending w) (w_retained w) (w_delivered w))
| do_open sid s :
    sid ∉ dkeys (w_opened w) -> session_new s ->
    reader_step w (mk_world (with_store (dset sid s (rg_store (w_reg w))) (w_reg w)) (w_flights w)
      ((sid, s) :: w_opened w) (sid :: w_pending w) (w_retained w) (w_delivered w))
| do_abandon sid :
    sid ∈ w_pending w ->
    reader_step w (mk_world (release_session sid (w_reg w)) (w_flights w) (w_opened w)
      (filter (fun x => x <> sid) (w_pending w)) (w_retained w) (w_delivered w))
| do_retain now record execution results expires read_session :
    (forall sid, read_session = Some sid -> sid ∈ w_pending w) -> ce_id execution ∉ w_retained w ->
    (forall s, s ∈ ce_results execution -> rs_id s ∉ dkeys (rg_results (w_reg w))) ->
    reader_step w (mk_world (retain_results maximum now record execution results expires read_session (w_reg w)).1
      (w_flights w) (w_opened w) (filter (fun x => Some x <> read_session) (w_pending w))
      (ce_id execution :: w_retained w) (w_delivered w))
| do_page_begin now owner execution result token page_size :
    let out := page_begin row_page_size now owner execution result token page_size (w_reg w) in
    reader_step w (mk_world out.1 (started out.2 ++ w_flights w) (w_opened w) (w_pending w) (w_retained w) (w_delivered w))
| do_page_fetch before f after :
    w_flights w = before ++ f :: after -> fl_export f = false -> fl_stage f = Leased ->
    let out := page_fetch convert row_bytes fetchmany open_cursor page_memory_bytes f (w_reg w) in
    reader_step w (mk_world out.1.1 (before ++ out.1.2 :: after) (w_opened w) (w_pending w) (w_retained w) (w_delivered w ++ handed f out.2))
| do_failed before f after :
    w_flights w = before ++ f :: after ->
    reader_step w (mk_world (request_failed f (w_reg w)) (before ++ at_stage Ended f :: after)
      (w_opened w) (w_pending w) (w_retained w) (w_delivered w))
| do_page_publish before f after token :
    w_flights w = before ++ f :: after -> fl_export f = false ->
    reader_step w (mk_world (page_publish token f (w_reg w)).1 (before ++ at_stage Ended f :: after)
      (w_opened w) (w_pending w) (w_retained w) (w_delivered w))
| do_page_release before f after now :
    w_flights w = before ++ f :: after -> fl_export f = false ->
    reader_step w (mk_world (page_release now f (w_reg w)) (before ++ after) (w_opened w) (w_pending w) (w_retained w) (w_delivered w))
| do_export_begin now owner workspace execution result :
    let out := export_begin now owner workspace execution result (w_reg w) in
    reader_step w (mk_world out.1 (started out.2 ++ w_flights w) (w_opened w) (w_pending w) (w_retained w) (w_delivered w))
| do_export_round before f after :
    w_flights w = before ++ f :: after -> fl_export f = true -> fl_stage f = Leased ->
    let out := export_round convert row_bytes fetchmany open_cursor page_memory_bytes f (w_reg w) in
    reader_step w (mk_world out.1.1 (before ++ out.1.2 :: after) (w_opened w) (w_pending w) (w_retained w) (w_delivered w))
| do_export_end before f after now :
    w_flights w = before ++ f :: after -> fl_export f = true ->
    reader_step w (mk_world (export_end now f (w_reg w)) (before ++ after) (w_opened w) (w_pending w) (w_retained w) (w_delivered w))
| do_close execution result :
    reader_step w (mk_world (close_transient execution result (w_reg w)) (w_flights w) (w_opened w) (w_pending w) (w_retained w) (w_delivered w))
| do_cancel execution :
    reader_step w (mk_world (cancel_transient execution (w_reg w)) (w_flights w) (w_opened w) (w_pending w) (w_retained w) (w_delivered w)).

End readers.

(** ** The invariant *)

Section invariant.
Context {raw cursor : Type}.
Variable convert : raw -> result (Z * Z) (list json).
(** The rows a cursor has still to give. *)
Variable rows_of : cursor -> list raw.
Abbreviation World := (@World raw cursor).

Definition reads (id : string) (f : flight) : bool :=
  negb (fl_export f) && bool_decide (fl_result_id f = id) && match fl_stage f with Leased | Fetched _ _ => true | _ => false end.

Definition leases (id : string) (fs : list flight) : nat := length (filter (fun f => fl_result_id f = id) fs).

(** The permissions to read the next page of a result: the first page, a cursor, a request. *)
Definition rights (g : @Registry raw cursor) (fs : list flight) (id : string) (r : TransientResult) : nat :=
  (if tr_first_page_requested r then 0 else 1) + length (filter (fun kv => kv.2.1.1 = id) (rg_cursors g))
  + length (filter (fun f => reads id f = true) fs).

(** The reader of a statement is at [offset], after the rows that were handed out; [more] is
    false when there are none to come. *)
Definition reader_at (out : list (list json)) (reader0 reader : @ReadCursor raw cursor) (offset : Z) (more : bool) : Prop :=
  match rd_cursor reader0, rd_cursor reader with
  | Some c0, Some c =>
      rd_position reader = offset /\ Z.of_nat (length out) = offset /\
      (exists raws, Forall2 (fun r j => convert r = Ok j) raws out /\
        rd_pending reader0 ++ rows_of c0 = raws ++ rd_pending reader ++ rows_of c) /\
      (more = false -> rd_pending reader ++ rows_of c = [])
  | None, None => True
  | _, _ => False
  end.

Definition at_position (w : World) (sid : string) (i offset : Z) (more : bool) : Prop :=
  forall s reader, dget sid (rg_store (w_reg w)) = Some s -> dget i (ss_readers s) = Some reader ->
  exists s0 reader0, dget sid (w_opened w) = Some s0 /\ dget i (ss_readers s0) = Some reader0 /\
    reader_at (delivered w sid i) reader0 reader offset more.

(** Where a request of a page is. *)
Definition flight_position (f : flight) : option (Z * bool) :=
  match fl_stage f with
  | Leased => Some (fl_offset f, true)
  | Fetched next more => Some (next, more || bool_decide (is_Some (qr_row_count (fl_query f))))
  | _ => None
  end.

Record paging_ok (w : World) (id : string) (r : TransientResult) (sid : string) : Prop := {
  pg_rights : rights (w_reg w) (w_flights w) id r <= 1;
  pg_first : tr_first_page_requested r = false -> at_position w sid (qr_statement_index (tr_query r)) 0 true;
  pg_cursor : forall kv, kv ∈ rg_cursors (w_reg w) -> kv.2.1.1 = id -> at_position w sid (qr_statement_index (tr_query r)) kv.2.1.2 true;
  pg_flight : forall f n more, f ∈ w_flights w -> reads id f = true -> flight_position f = Some (n, more) ->
    at_position w sid (qr_statement_index (tr_query r)) n more;
}.

(** The result a request reads. *)
Definition flight_result (w : World) (f : flight) : Prop :=
  exists r, dget (fl_result_id f) (rg_results (w_reg w)) = Some r /\ tr_read_session r = fl_session f /\ tr_query r = fl_query f /\
    tr_execution_id r = fl_execution_id f.

Record world_ok (w : World) : Prop := {
  wo_tables : tables_ok (w_reg w);
  wo_leases : forall id r, dget id (rg_results (w_reg w)) = Some r -> tr_active_exports r = Z.of_nat (leases id (w_flights w));
  wo_flights : forall f, f ∈ w_flights w -> flight_result w f;
  wo_sessions : forall e a, dget e (rg_sessions (w_reg w)) = Some a ->
    as_session a ∈ dkeys (w_opened w) /\ as_session a ∉ rg_released (w_reg w) /\ as_session a ∉ w_pending w;
  wo_pending : forall sid, sid ∈ w_pending w -> sid ∉ rg_released (w_reg w) /\
    exists s, dget sid (w_opened w) = Some s /\ dget sid (rg_store (w_reg w)) = Some s /\ session_new s;
  wo_released : forall sid, sid ∈ rg_released (w_reg w) -> sid ∈ dkeys (w_opened w);
  wo_opened : forall sid, sid ∈ dkeys (w_opened w) ->
    sid ∈ w_pending w \/ sid ∈ rg_released (w_reg w) \/ exists e a, dget e (rg_sessions (w_reg w)) = Some a /\ as_session a = sid;
  wo_retained : (forall id r, dget id (rg_results (w_reg w)) = Some r -> tr_execution_id r ∈ w_retained w) /\
    (forall e, e ∈ dkeys (rg_sessions (w_reg w)) -> e ∈ w_retained w);
  wo_index : forall id1 r1 id2 r2, dget id1 (rg_results (w_reg w)) = Some r1 -> dget id2 (rg_results (w_reg w)) = Some r2 ->
    is_Some (tr_read_session r1) -> tr_read_session r1 = tr_read_session r2 ->
    qr_statement_index (tr_query r1) = qr_statement_index (tr_query r2) -> id1 = id2;
  wo_paging : forall id r sid, dget id (rg_results (w_reg w)) = Some r -> tr_read_session r = Some sid -> paging_ok w id r sid;
  wo_delivered : forall sid i s0 reader0 c0, dget sid (w_opened w) = Some s0 -> dget i (ss_readers s0) = Some reader0 ->
    rd_cursor reader0 = Some c0 -> exists raws rest, Forall2 (fun r j => convert r = Ok j) raws (delivered w sid i) /\
      rd_pending reader0 ++ rows_of c0 = raws ++ rest;
  wo_fresh : forall sid i, delivered w sid i <> [] -> sid ∈ dkeys (w_opened w) /\ sid ∉ w_pending w;
}.

(** ** Changes that keep it *)

Implicit Types (w v : World) (g h : @Registry raw cursor).

Definition with_reg h w : World := mk_world h (w_flights w) (w_opened w) (w_pending w) (w_retained w) (w_delivered w).

(** The sessions of [h] that matter page as those of [g]. *)
Definition pages_as (touched : Z -> Prop) (s s' : option (@ReadSession raw cursor)) : Prop :=
  forall x', s' = Some x' -> exists x, s = Some x /\ readers_from touched x x'.

Lemma at_position_keep touched w v sid i n more :
  pages_as touched (dget sid (rg_store (w_reg w))) (dget sid (rg_store (w_reg v))) -> ~ touched i ->
  (forall s, dget sid (w_opened w) = Some s -> dget sid (w_opened v) = Some s) -> delivered v sid i = delivered w sid i ->
  at_position w sid i n more -> at_position v sid i n more.
Proof.
  intros Hs Hi Ho Hd Hat s' reader' Hs' Hr'. destruct (Hs _ Hs') as (s & Hst & Hfrom). destruct (Hfrom _ _ Hr') as (reader & Hr & _ & Hsame).
  destruct (Hsame Hi) as (Hc & Hp & Hpe). destruct (Hat s reader Hst Hr) as (s0 & reader0 & Hs0 & Hr0 & Hra). exists s0, reader0.
  split_and!; [by apply Ho|done|]. unfold reader_at in *. by rewrite Hc, Hp, Hpe, Hd.
Qed.

Lemma pages_as_refl touched s : pages_as touched s s.
Proof. intros x ->. exists x. split; [done|]. intros i reader Hr. by exists reader. Qed.

Lemma flight_leases f fs : f ∈ fs -> 0 < leases (fl_result_id f) fs.
Proof.
  intros Hf. unfold leases. assert (f ∈ filter (fun x => fl_result_id x = fl_result_id f) fs) as Hin by (by apply list_elem_of_filter).
  destruct (filter _ fs); [by apply not_elem_of_nil in Hin|simpl; lia].
Qed.

(** Paging goes on when results, cursors and requests get fewer. *)
Lemma paging_keep w v id r sid :
  paging_ok w id r sid -> rg_cursors (w_reg v) `sublist_of` rg_cursors (w_reg w) -> w_flights v = w_flights w ->
  (forall i n more, at_position w sid i n more -> at_position v sid i n more) -> paging_ok v id r sid.
Proof.
  intros [Hr Hf Hc Hfl] Hcur Hfs Hat. split.
  - unfold rights in *. rewrite Hfs. pose proof (sublist_length _ _ (sublist_filter_mono (fun kv => kv.2.1.1 = id) _ _ Hcur)). lia.
  - intros Hn. by apply Hat, Hf.
  - intros kv Hin Hid. apply Hat, Hc; [|done]. by eapply elem_of_submseteq, sublist_submseteq.
  - intros f n more. rewrite Hfs. intros Hin Hre Hpos. eapply Hat, Hfl; done.
Qed.

Lemma ok_shrunk w h : world_ok w -> shrunk (w_reg w) h -> world_ok (with_reg h w).
Proof.
  intros Hok Hsh. pose proof (wo_tables _ Hok) as Ht.
  assert (forall e a, dget e (rg_sessions h) = Some a -> dget e (rg_sessions (w_reg w)) = Some a) as Hsess
    by (intros e a He; eapply sublist_dget; [apply Ht|apply Hsh|done]).
  assert (forall e a, dget e (rg_sessions h) = Some a -> as_session a ∉ rg_released h) as Hlive.
  { intros e a He Hin. apply (sh_released _ _ Hsh) in Hin as [Hin|(e' & a' & He' & Heq & Hn)].
    - by destruct (wo_sessions _ Hok _ _ (Hsess _ _ He)) as (_ & Hn & _).
    - assert (e = e') as -> by (eapply distinct_sessions; [apply Ht|by apply Hsess|done|done]). congruence. }
  assert (forall sid, sid ∈ w_pending w -> sid ∉ rg_released h /\ dget sid (rg_store h) = dget sid (rg_store (w_reg w))) as Hpend.
  { intros sid Hp. assert (forall e a, dget e (rg_sessions (w_reg w)) = Some a -> as_session a <> sid) as Hout
      by (intros e a He <-; by destruct (wo_sessions _ Hok _ _ He) as (_ & _ & Hn)). split.
    - rewrite (sh_released _ _ Hsh). intros [Hin|(e & a & He & Heq & _)]; [by destruct (wo_pending _ Hok _ Hp)|by eapply Hout].
    - apply (sh_store _ _ Hsh). intros e a He Heq. by destruct (Hout e a He). }
  split; cbn [with_reg w_reg w_flights w_opened w_pending w_retained w_delivered].
  - by eapply shrunk_tables.
  - intros id r Hr. apply (wo_leases _ Hok), Hsh, Hr.
  - intros f Hf. destruct (wo_flights _ Hok f Hf) as (r & Hr & Hrest). exists r. split; [|done]. apply (sh_kept _ _ Hsh); [done|].
    rewrite (wo_leases _ Hok _ _ Hr). pose proof (flight_leases _ _ Hf). lia.
  - intros e a He. pose proof (wo_sessions _ Hok _ _ (Hsess _ _ He)) as (? & _ & ?). split_and!; [done|by eapply Hlive|done].
  - intros sid Hp. destruct (Hpend _ Hp) as [Hn Heq]. split; [done|]. rewrite Heq. by apply (wo_pending _ Hok).
  - intros sid. rewrite (sh_released _ _ Hsh). intros [?|(e & a & He & <- & _)]; [by apply (wo_released _ Hok)|by apply (wo_sessions _ Hok _ _ He)].
  - intros sid Ho. destruct (wo_opened _ Hok _ Ho) as [?|[?|(e & a & He & Heq)]]; [by left|right; left; apply Hsh; by left|].
    right. destruct (dget e (rg_sessions h)) as [a'|] eqn:He'; [right|left; apply Hsh; right; eauto].
    exists e, a'. split; [done|]. apply Hsess in He'. congruence.
  - destruct (wo_retained _ Hok) as [H1 H2]. split; [intros id r Hr; eapply H1, Hsh, Hr|]. intros e [a He]%dget_is_Some.
    apply H2, dget_is_Some. exists a. by apply Hsess.
  - intros id1 r1 id2 r2 H1 H2. eapply (wo_index _ Hok); by apply Hsh.
  - intros id r sid Hr Hs. apply (paging_keep w); [eapply wo_paging; [done|by apply Hsh|done]|apply Hsh|done|].
    intros i n more. apply (at_position_keep (fun _ => False)); [|tauto|done|done]. cbn [with_reg w_reg].
    destruct (tb_held _ (shrunk_tables _ _ Ht Hsh) _ _ _ Hr Hs) as (a & Ha & <-).
    rewrite (sh_store _ _ Hsh); [apply pages_as_refl|]. intros e a' He Heq.
    assert (e = tr_execution_id r) as -> by (eapply distinct_sessions; [apply Ht|done|by apply Hsess|done]). eauto.
  - apply (wo_delivered _ Hok).
  - apply (wo_fresh _ Hok).
Qed.

(** The identity of a result stays. *)
Definition same_result (r r' : TransientResult) : Prop :=
  tr_read_session r' = tr_read_session r /\ tr_query r' = tr_query r /\ tr_execution_id r' = tr_execution_id r.

Definition edited g h : Prop :=
  dkeys (rg_results h) = dkeys (rg_results g) /\
  forall id r', dget id (rg_results h) = Some r' -> exists r, dget id (rg_results g) = Some r /\ same_result r r'.

Lemma dget_perm {V} (d e : list (string * V)) k : dwf d -> d ≡ₚ e -> dget k d = dget k e.
Proof.
  intros Hwf Hp. destruct (dget k d) as [v|] eqn:Hd.
  - symmetry. apply dget_elem_wf; [unfold dwf, dkeys in *; by rewrite <-Hp|]. rewrite <-Hp. by apply dget_Some_elem.
  - symmetry. apply dget_None. apply dget_None in Hd. unfold dkeys in *. by rewrite <-Hp.
Qed.

Lemma edited_inv g h id r : edited g h -> dget id (rg_results g) = Some r -> exists r', dget id (rg_results h) = Some r' /\ same_result r r'.
Proof.
  intros [Hk He] Hr. assert (is_Some (dget id (rg_results h))) as [r' Hr'] by (apply dget_is_Some; rewrite Hk; apply dget_is_Some; eauto).
  exists r'. split; [done|]. destruct (He _ _ Hr') as (x & Hx & Hsame). congruence.
Qed.

Lemma edited_tables g h :
  tables_ok g -> edited g h -> rg_sessions h ≡ₚ rg_sessions g -> cursors_ok h -> counts_ok h -> tables_ok h.
Proof.
  intros [Hr Hs Hc _ Hh Hd] [Hk He] Hp Hcur Hcounts. split; try done.
  - unfold dwf. by rewrite Hk.
  - unfold dwf, dkeys in *. by rewrite Hp.
  - intros id r' sid Hr' Hsid. destruct (He _ _ Hr') as (r & Hget & E1 & E2 & E3). rewrite E1 in Hsid. rewrite E3.
    rewrite <-(dget_perm (rg_sessions g)); [by eapply Hh|done|by symmetry].
  - by rewrite Hp.
Qed.

Lemma ok_edit w h fs delivered' :
  let v := mk_world h fs (w_opened w) (w_pending w) (w_retained w) delivered' in
  world_ok w -> edited (w_reg w) h -> rg_sessions h ≡ₚ rg_sessions (w_reg w) -> rg_released h = rg_released (w_reg w) ->
  (forall sid, sid ∈ w_pending w -> dget sid (rg_store h) = dget sid (rg_store (w_reg w))) -> cursors_ok h ->
  (forall id r, dget id (rg_results h) = Some r -> tr_active_exports r = Z.of_nat (leases id fs)) ->
  (forall f, f ∈ fs -> flight_result w f) ->
  (forall id r sid, dget id (rg_results h) = Some r -> tr_read_session r = Some sid -> paging_ok v id r sid) ->
  (forall sid i s0 reader0 c0, dget sid (w_opened w) = Some s0 -> dget i (ss_readers s0) = Some reader0 -> rd_cursor reader0 = Some c0 ->
    exists raws rest, Forall2 (fun r j => convert r = Ok j) raws (delivered v sid i) /\ rd_pending reader0 ++ rows_of c0 = raws ++ rest) ->
  (forall sid i, delivered v sid i <> [] -> sid ∈ dkeys (w_opened w) /\ sid ∉ w_pending w) ->
  world_ok v.
Proof.
  intros v Hok Hed Hp Hrel Hst Hcur Hleases Hfl Hpg Hdel Hfresh. pose proof (wo_tables _ Hok) as Ht.
  assert (forall e, dget e (rg_sessions h) = dget e (rg_sessions (w_reg w))) as Hsess
    by (intros e; symmetry; apply dget_perm; [apply Ht|by symmetry]).
  split; cbn [v w_reg w_flights w_opened w_pending w_retained w_delivered]; try done.
  - apply (edited_tables (w_reg w)); try done. intros id r Hr. rewrite (Hleases _ _ Hr). lia.
  - intros f Hf. destruct (Hfl _ Hf) as (r & Hr & E1 & E2 & E3). destruct (edited_inv _ _ _ _ Hed Hr) as (r' & Hr' & F1 & F2 & F3).
    exists r'. cbn [w_reg]. by rewrite F1, F2, F3.
  - intros e a. rewrite Hsess, Hrel. apply (wo_sessions _ Hok).
  - intros sid Hs. rewrite Hrel, Hst by done. by apply (wo_pending _ Hok).
  - rewrite Hrel. apply (wo_released _ Hok).
  - intros sid Hs. rewrite Hrel. destruct (wo_opened _ Hok _ Hs) as [?|[?|(e & a & He & Heq)]]; [by left|by right; left|].
    right; right. exists e, a. by rewrite Hsess.
  - destruct (wo_retained _ Hok) as [H1 H2], Hed as [Hk He]. split.
    + intros id r' Hr'. destruct (He _ _ Hr') as (r & Hr & _ & _ & ->). by eapply H1.
    + intros e. unfold dkeys. rewrite Hp. apply H2.
  - intros id1 r1 id2 r2 H1 H2. destruct Hed as [Hk He], (He _ _ H1) as (x1 & Hx1 & E1 & E2 & _), (He _ _ H2) as (x2 & Hx2 & F1 & F2 & _).
    rewrite E1, E2, F1, F2. by apply (wo_index _ Hok).
Qed.

(** Nothing is read. *)
Lemma ok_edit_quiet w h fs :
  let v := mk_world h fs (w_opened w) (w_pending w) (w_retained w) (w_delivered w) in
  world_ok w -> edited (w_reg w) h -> rg_sessions h ≡ₚ rg_sessions (w_reg w) -> rg_released h = rg_released (w_reg w) ->
  rg_store h = rg_store (w_reg w) -> cursors_ok h ->
  (forall id r, dget id (rg_results h) = Some r -> tr_active_exports r = Z.of_nat (leases id fs)) ->
  (forall f, f ∈ fs -> flight_result w f) ->
  (forall id r r' sid, dget id (rg_results (w_reg w)) = Some r -> dget id (rg_results h) = Some r' -> tr_read_session r = Some sid -> same_result r r' ->
    paging_ok w id r sid ->
    rights h fs id r' <= 1 /\ (tr_first_page_requested r' = false -> tr_first_page_requested r = false) /\
    (forall kv, kv ∈ rg_cursors h -> kv.2.1.1 = id -> kv ∈ rg_cursors (w_reg w) \/ at_position w sid (qr_statement_index (tr_query r)) kv.2.1.2 true) /\
    (forall f n more, f ∈ fs -> reads id f = true -> flight_position f = Some (n, more) ->
       f ∈ w_flights w \/ at_position w sid (qr_statement_index (tr_query r)) n more)) ->
  world_ok v.
Proof.
  intros v Hok Hed Hp Hrel Hst Hcur Hleases Hfl Hpg. apply (ok_edit w h fs); try done; [by rewrite Hst| |apply (wo_delivered _ Hok)|apply (wo_fresh _ Hok)].
  assert (forall sid i n more, at_position w sid i n more -> at_position v sid i n more) as Hat.
  { intros sid i n more. apply (at_position_keep (fun _ => False)); [|tauto|done|done]. cbn [v w_reg]. rewrite Hst. apply pages_as_refl. }
  intros id r' sid Hr' Hs. destruct Hed as [Hk He]. destruct (He _ _ Hr') as (r & Hr & Hsame). pose proof Hsame as (E1 & E2 & E3). rewrite E1 in Hs.
  pose proof (wo_paging _ Hok _ _ _ Hr Hs) as Hpw. destruct (Hpg id r r' sid Hr Hr' Hs Hsame Hpw) as (Hri & Hfi & Hcu & Hfli).
  split; cbn [v w_reg w_flights]; rewrite ?E2; try done.
  - intros Hf. apply Hat, (pg_first _ _ _ _ Hpw). by apply Hfi.
  - intros kv Hin Hid. destruct (Hcu kv Hin Hid); [|by apply Hat]. by apply Hat, (pg_cursor _ _ _ _ Hpw).
  - intros f n more Hin Hre Hpos. destruct (Hfli f n more Hin Hre Hpos); [|by apply Hat]. apply Hat. by eapply (pg_flight _ _ _ _ Hpw).
Qed.

(** ** Leases and rights *)

Lemma elem_of_dset {V} (d : list (string * V)) k x kv : kv ∈ dset k x d -> kv = (k, x) \/ kv ∈ d.
Proof.
  induction d as [|[k' v'] d IH]; simpl.
  - intros ->%list_elem_of_singleton. by left.
  - case_decide; rewrite !elem_of_cons; naive_solver.
Qed.

Lemma count_dset {V} (P : string * V -> Prop) `{forall x, Decision (P x)} k x (d : list (string * V)) :
  length (filter P (dset k x d)) <= length (filter P d) + (if decide (P (k, x)) then 1 else 0).
Proof.
  induction d as [|[k' x'] d IH]; simpl; [rewrite filter_cons; by case_decide|].
  destruct (decide (k = k')) as [<-|]; rewrite !filter_cons.
  - destruct (decide (P (k, x))), (decide (P (k, x'))); simpl; lia.
  - destruct (decide (P (k', x'))); simpl; lia.
Qed.

Lemma count_mid {A} (P : A -> Prop) `{forall x, Decision (P x)} (before after : list A) x :
  length (filter P (before ++ x :: after)) = length (filter P (before ++ after)) + (if decide (P x) then 1 else 0).
Proof. rewrite !filter_app, !length_app, filter_cons. case_decide; simpl; lia. Qed.

Lemma elem_of_mid {A} (before after : list A) x y : x ∈ before ++ y :: after <-> x = y \/ x ∈ before ++ after.
Proof. rewrite !elem_of_app, elem_of_cons. tauto. Qed.

Lemma leases_mid id before f after :
  leases id (before ++ f :: after) = leases id (before ++ after) + (if decide (fl_result_id f = id) then 1 else 0).
Proof. unfold leases. by rewrite count_mid. Qed.

Lemma dset_edited (d : list (string * TransientResult)) id r r' :
  dget id d = Some r -> same_result r r' ->
  dkeys (dset id r' d) = dkeys d /\ forall k x', dget k (dset id r' d) = Some x' -> exists x, dget k d = Some x /\ same_result x x'.
Proof.
  intros Hr Hsame. split; [apply dkeys_dset_old, dget_is_Some; eauto|]. intros k x'. rewrite dget_dset. case_decide; [|exists x'; by split_and!].
  intros [= <-]. subst. eauto.
Qed.

(** A lease is taken. *)
Lemma ok_lease w h f r first :
  let id := fl_result_id f in
  world_ok w -> dget id (rg_results (w_reg w)) = Some r ->
  tr_read_session r = fl_session f -> tr_query r = fl_query f -> tr_execution_id r = fl_execution_id f ->
  rg_results h = dset id (leased_result first r) (rg_results (w_reg w)) -> rg_sessions h ≡ₚ rg_sessions (w_reg w) ->
  rg_released h = rg_released (w_reg w) -> rg_store h = rg_store (w_reg w) -> rg_cursors h `sublist_of` rg_cursors (w_reg w) ->
  (forall sid, tr_read_session r = Some sid -> paging_ok w id r sid ->
     rights h (f :: w_flights w) id (leased_result first r) <= 1 /\ (first = false -> tr_first_page_requested r = false) /\
     (forall n more, reads id f = true -> flight_position f = Some (n, more) -> at_position w sid (qr_statement_index (tr_query r)) n more)) ->
  world_ok (mk_world h (f :: w_flights w) (w_opened w) (w_pending w) (w_retained w) (w_delivered w)).
Proof.
  intros id Hok Hr E1 E2 E3 Hres Hp Hrel Hst Hcur Hpg.
  assert (edited (w_reg w) h) as Hed by (unfold edited; rewrite Hres; by apply (dset_edited _ id r)).
  apply (ok_edit_quiet w h (f :: w_flights w)); try done.
  - intros kv Hin. destruct Hed as [-> _]. apply (tb_cursors _ (wo_tables _ Hok)). by eapply elem_of_submseteq, sublist_submseteq.
  - intros k x. rewrite Hres, dget_dset. unfold leases. rewrite filter_cons. case_decide as Hk.
    + subst k. intros [= <-]. rewrite decide_True by done. simpl. rewrite (wo_leases _ Hok _ _ Hr). unfold leases. lia.
    + intros Hx. rewrite decide_False by done. by apply (wo_leases _ Hok).
  - intros f' [->|Hf]%elem_of_cons; [by exists r|by apply (wo_flights _ Hok)].
  - intros k x x' sid Hx Hx' Hs _ Hpw. rewrite Hres, dget_dset in Hx'. case_decide as Hk.
    + subst k. injection Hx' as <-. assert (x = r) as -> by congruence. destruct (Hpg sid Hs Hpw) as (H1 & H2 & H3). split_and!; try done.
      * intros kv Hin _. left. by eapply elem_of_submseteq, sublist_submseteq.
      * intros f' n more [->|Hf]%elem_of_cons Hre Hpos; [right; by apply H3|by left].
    + assert (x' = x) as -> by congruence. assert (reads k f = false) as Hnr.
      { unfold reads. rewrite bool_decide_false by done. by rewrite andb_false_r. }
      split_and!; [|done|intros kv Hin _; left; by eapply elem_of_submseteq, sublist_submseteq|].
      * pose proof (pg_rights _ _ _ _ Hpw) as Hri. unfold rights in *. rewrite filter_cons, decide_False by congruence.
        pose proof (sublist_length _ _ (sublist_filter_mono (fun kv => kv.2.1.1 = k) _ _ Hcur)). lia.
      * intros f' n more [->|Hf]%elem_of_cons Hre Hpos; [congruence|by left].
Qed.

Definition same_flight (f f' : flight) : Prop :=
  fl_result_id f' = fl_result_id f /\ fl_session f' = fl_session f /\ fl_query f' = fl_query f /\ fl_execution_id f' = fl_execution_id f.

(** A request moves on without reading: its lease is kept or given back. *)
Lemma ok_move w h before f after fs :
  world_ok w -> w_flights w = before ++ f :: after -> edited (w_reg w) h ->
  fs = before ++ after \/ (exists f', fs = before ++ f' :: after /\ same_flight f f' /\ forall id, reads id f' = false) ->
  (forall id r r', dget id (rg_results (w_reg w)) = Some r -> dget id (rg_results h) = Some r' ->
     tr_active_exports r' = Z.of_nat (leases id fs) /\ tr_first_page_requested r' = tr_first_page_requested r) ->
  rg_sessions h ≡ₚ rg_sessions (w_reg w) -> rg_released h = rg_released (w_reg w) -> rg_store h = rg_store (w_reg w) ->
  rg_cursors h `sublist_of` rg_cursors (w_reg w) \/
    (exists token next expires, reads (fl_result_id f) f = true /\ flight_position f = Some (next, true) /\
       rg_cursors h = dset token (fl_result_id f, next, expires) (rg_cursors (w_reg w))) ->
  world_ok (mk_world h fs (w_opened w) (w_pending w) (w_retained w) (w_delivered w)).
Proof.
  intros Hok Hfs Hed Hshape Hres Hp Hrel Hst Hcur.
  assert (f ∈ w_flights w) as Hin by (rewrite Hfs; set_solver).
  assert (forall f', f' ∈ fs -> f' ∈ w_flights w \/ same_flight f f' /\ forall id, reads id f' = false) as Hfl.
  { rewrite Hfs. destruct Hshape as [->|(f1 & -> & Hsame & Hn)]; intros f'; rewrite !elem_of_app, !elem_of_cons; naive_solver. }
  assert (forall id, length (filter (fun f => reads id f = true) fs) + (if reads id f then 1 else 0)
            = length (filter (fun f => reads id f = true) (w_flights w))) as Hcount.
  { intros id. rewrite Hfs, count_mid. destruct Hshape as [->|(f1 & -> & Hsame & Hn)].
    - destruct (reads id f); [by rewrite decide_True|rewrite decide_False; [done|congruence]].
    - rewrite count_mid, (decide_False (P := reads id f1 = true)) by (rewrite Hn; congruence).
      destruct (reads id f); [rewrite decide_True by done; lia|rewrite decide_False by congruence; lia]. }
  apply (ok_edit_quiet w h fs); try done.
  - intros kv Hkv. destruct Hed as [-> _]. destruct Hcur as [Hsub|(token & next & expires & _ & _ & Heq)].
    + apply (tb_cursors _ (wo_tables _ Hok)). by eapply elem_of_submseteq, sublist_submseteq.
    + rewrite Heq in Hkv. apply elem_of_dset in Hkv as [->|Hkv]; [|by apply (tb_cursors _ (wo_tables _ Hok))].
      destruct (wo_flights _ Hok _ Hin) as (r & Hr & _). simpl. apply dget_is_Some. eauto.
  - intros id r' Hr'. destruct Hed as [Hk He]. destruct (He _ _ Hr') as (r & Hr & _). by apply (Hres id r).
  - intros f' Hf'. destruct (Hfl _ Hf') as [?|[(E1 & E2 & E3 & E4) _]]; [by apply (wo_flights _ Hok)|]. unfold flight_result. rewrite E1, E2, E3, E4.
    by apply (wo_flights _ Hok f).
  - intros id r r' sid Hr Hr' Hs Hsame Hpw. destruct (Hres id r r' Hr Hr') as [_ Hfirst]. pose proof (pg_rights _ _ _ _ Hpw) as Hri.
    unfold rights in *. rewrite Hfirst. specialize (Hcount id). split_and!; [| done| |].
    + destruct Hcur as [Hsub|(token & next & expires & Hre & Hpos & ->)].
      * pose proof (sublist_length _ _ (sublist_filter_mono (fun kv => kv.2.1.1 = id) _ _ Hsub)). lia.
      * pose proof (count_dset (fun kv => kv.2.1.1 = id) token (fl_result_id f, next, expires) (rg_cursors (w_reg w))) as Hle. simpl in Hle.
        destruct (decide (fl_result_id f = id)) as [<-|Hne]; [rewrite Hre in Hcount; lia|]. lia.
    + intros kv Hkv Hid. destruct Hcur as [Hsub|(token & next & expires & Hre & Hpos & Heq)]; [left; by eapply elem_of_submseteq, sublist_submseteq|].
      rewrite Heq in Hkv. apply elem_of_dset in Hkv as [->|Hkv]; [right|by left]. simpl in *. subst id. by eapply (pg_flight _ _ _ _ Hpw).
    + intros f' n more Hf' Hre _. left. destruct (Hfl _ Hf') as [?|[_ Hn]]; [done|]. rewrite Hn in Hre. done.
Qed.

Lemma edited_refl g : edited g g.
Proof. split; [done|]. intros id r Hr. by exists r. Qed.

(** ** Reading *)

(** A session is called without paging. *)
Lemma ok_store w sid s s' :
  world_ok w -> sid ∉ w_pending w -> dget sid (rg_store (w_reg w)) = Some s -> readers_from (fun _ => False) s s' ->
  world_ok (with_reg (with_store (dset sid s' (rg_store (w_reg w))) (w_reg w)) w).
Proof.
  intros Hok Hp Hs Hfrom. apply (ok_edit w _ (w_flights w)); try done; cbn [with_store rg_results rg_sessions rg_cursors rg_store].
  - exact (edited_refl (w_reg w)).
  - intros sid' Hin. rewrite dget_dset_ne; [done|]. by intros ->.
  - apply (tb_cursors _ (wo_tables _ Hok)).
  - apply (wo_leases _ Hok).
  - apply (wo_flights _ Hok).
  - intros id r sid' Hr Hsid. apply (paging_keep w); try done; [by apply (wo_paging _ Hok)|]. intros i n more.
    apply (at_position_keep (fun _ => False)); [|tauto|done|done]. cbn [w_reg with_store rg_store]. rewrite dget_dset.
    case_decide; [subst|apply pages_as_refl]. intros x' [= <-]. eauto.
  - apply (wo_delivered _ Hok).
  - apply (wo_fresh _ Hok).
Qed.

(** The request is the only one that may read its result. *)
Lemma only_right w id r sid before f after :
  paging_ok w id r sid -> w_flights w = before ++ f :: after -> reads id f = true ->
  tr_first_page_requested r = true /\ (forall kv, kv ∈ rg_cursors (w_reg w) -> kv.2.1.1 <> id) /\
  (forall f', f' ∈ before ++ after -> reads id f' = false).
Proof.
  intros Hpw Hfs Hre. pose proof (pg_rights _ _ _ _ Hpw) as Hri. unfold rights in Hri. rewrite Hfs, count_mid, decide_True in Hri by done.
  assert (forall {A} (P : A -> Prop) `{forall x, Decision (P x)} (l : list A) x, length (filter P l) = 0 -> x ∈ l -> ~ P x) as Hnone.
  { intros A P ? l x Hn Hin HP. apply length_zero_iff_nil in Hn. assert (x ∈ filter P l) as Hx by (by apply list_elem_of_filter).
    rewrite Hn in Hx. by apply not_elem_of_nil in Hx. }
  split_and!.
  - destruct (tr_first_page_requested r); [done|lia].
  - intros kv Hin. eapply (Hnone _ (fun kv : string * (string * Z * Z) => kv.2.1.1 = id)); [|done]. destruct (tr_first_page_requested r); lia.
  - intros f' Hin. apply not_true_iff_false. eapply (Hnone _ (fun f => reads id f = true)); [|done]. destruct (tr_first_page_requested r); lia.
Qed.

(** What follows the rows that were handed out, after [rows] more. *)
Lemma reader_at_next reader0 reader reader' c0 c c' out rows raws offset more :
  rd_cursor reader0 = Some c0 -> rd_cursor reader = Some c -> rd_cursor reader' = Some c' ->
  reader_at out reader0 reader offset true -> rd_position reader' = (offset + Z.of_nat (length rows))%Z ->
  rd_pending reader ++ rows_of c = raws ++ rd_pending reader' ++ rows_of c' -> Forall2 (fun r j => convert r = Ok j) raws rows ->
  (more = false -> rd_pending reader' ++ rows_of c' = []) ->
  reader_at (out ++ rows) reader0 reader' (offset + Z.of_nat (length rows)) more.
Proof.
  unfold reader_at. intros -> -> ->. intros (Hpos & Hlen & (raws0 & Hall & Heq) & _) Hpos' Heq' Hall' Hend.
  split_and!; [done|rewrite length_app; lia| |done]. exists (raws0 ++ raws). split; [by apply Forall2_app|]. by rewrite Heq, Heq', <-app_assoc.
Qed.

Lemma delivered_handed w v f out sid i :
  w_delivered v = w_delivered w ++ handed f out ->
  delivered v sid i = delivered w sid i ++
    (if decide (fl_session f = Some sid /\ qr_statement_index (fl_query f) = i) then match out with Ok rows => rows | Err _ => [] end else []).
Proof.
  intros Hd. unfold delivered. rewrite Hd, filter_app, fmap_app. f_equal. unfold handed. clear Hd.
  destruct (fl_session f) as [sid'|]; [|by rewrite decide_False by naive_solver].
  destruct out as [rows|e]; [|by case_decide]. case_decide as Hk.
  - destruct Hk as [[= ->] ->]. induction rows as [|row rows IH]; [done|]. rewrite fmap_cons, filter_cons, decide_True by done. rewrite fmap_cons. f_equal; exact IH.
  - assert ((sid', qr_statement_index (fl_query f)) <> (sid, i)) as Hne by naive_solver.
    induction rows as [|row rows IH]; [done|]. rewrite fmap_cons, filter_cons, decide_False by done. apply IH.
Qed.

Lemma flight_held w f sid :
  world_ok w -> f ∈ w_flights w -> fl_session f = Some sid ->
  exists r, dget (fl_result_id f) (rg_results (w_reg w)) = Some r /\ tr_read_session r = Some sid /\ tr_query r = fl_query f /\
    sid ∈ dkeys (w_opened w) /\ sid ∉ w_pending w /\ sid ∉ rg_released (w_reg w).
Proof.
  intros Hok Hin Hsid. destruct (wo_flights _ Hok _ Hin) as (r & Hr & E1 & E2 & E3). rewrite Hsid in E1.
  destruct (tb_held _ (wo_tables _ Hok) _ _ _ Hr E1) as (a & Ha & <-). destruct (wo_sessions _ Hok _ _ Ha) as (H1 & H2 & H3).
  exists r. by split_and!.
Qed.

(** A request has read a page of its session, or failed to. *)
Lemma ok_paged w before f after sid s s' out f' :
  world_ok w -> w_flights w = before ++ f :: after -> fl_export f = false -> fl_stage f = Leased -> fl_session f = Some sid ->
  dget sid (rg_store (w_reg w)) = Some s -> same_flight f f' -> fl_export f' = false ->
  let i := qr_statement_index (fl_query f) in
  let v := mk_world (with_store (dset sid s' (rg_store (w_reg w))) (w_reg w)) (before ++ f' :: after) (w_opened w) (w_pending w) (w_retained w)
             (w_delivered w ++ handed f out) in
  readers_from (fun j => j = i) s s' ->
  (forall n more, flight_position f' = Some (n, more) -> at_position v sid i n more) ->
  (forall s0 reader0 c0, dget sid (w_opened w) = Some s0 -> dget i (ss_readers s0) = Some reader0 -> rd_cursor reader0 = Some c0 ->
    exists raws rest, Forall2 (fun r j => convert r = Ok j) raws (delivered v sid i) /\ rd_pending reader0 ++ rows_of c0 = raws ++ rest) ->
  world_ok v.
Proof.
  intros Hok Hfs Hex Hst Hsid Hs Hsame Hex' i v Hfrom Hpos Hdel.
  assert (f ∈ w_flights w) as Hin by (rewrite Hfs; set_solver).
  destruct (flight_held w f sid Hok Hin Hsid) as (r & Hr & Hrs & Hq & Hopened & Hpend & _).
  assert (reads (fl_result_id f) f = true) as Hre by (unfold reads; by rewrite Hex, Hst, bool_decide_true).
  pose proof (wo_paging _ Hok _ _ _ Hr Hrs) as Hpw. destruct (only_right _ _ _ _ _ _ _ Hpw Hfs Hre) as (Hfirst & Hcur & Hothers).
  destruct Hsame as (G1 & G2 & G3 & G4).
  assert (forall sid' i', delivered v sid' i' = delivered w sid' i' \/ sid' = sid /\ i' = i) as Hkept.
  { intros sid' i'. rewrite (delivered_handed w v f out) by done. case_decide as Hk; [right|left; by rewrite app_nil_r]. destruct Hk as [Hk <-].
    rewrite Hsid in Hk. by injection Hk as ->. }
  apply (ok_edit w _ (before ++ f' :: after)); try done; cbn [with_store rg_results rg_sessions rg_cursors rg_store rg_released].
  - exact (edited_refl (w_reg w)).
  - intros sid' Hp. rewrite dget_dset_ne; [done|]. by intros ->.
  - apply (tb_cursors _ (wo_tables _ Hok)).
  - intros id x Hx. rewrite (wo_leases _ Hok _ _ Hx), Hfs, !leases_mid. by rewrite G1.
  - intros f1 [->|Hf1]%elem_of_mid; [unfold flight_result; rewrite G1, G2, G3, G4; by apply (wo_flights _ Hok)|].
    apply (wo_flights _ Hok). rewrite Hfs. apply elem_of_mid. by right.
  - intros id x sid' Hx Hx'. destruct (decide (id = fl_result_id f)) as [->|Hid].
    + assert (x = r) as -> by congruence. assert (sid' = sid) as -> by congruence. split; cbn [v w_reg w_flights with_store rg_cursors].
      * pose proof (pg_rights _ _ _ _ Hpw) as Hri. unfold rights in *. cbn [v w_reg with_store rg_cursors] in *.
        rewrite Hfs, count_mid, decide_True in Hri by done. rewrite count_mid. case_decide; lia.
      * congruence.
      * intros kv Hkv Hid. by destruct (Hcur kv Hkv).
      * intros f1 n more [->|Hf1]%elem_of_mid Hr1 Hp1; rewrite Hq; [by apply Hpos|]. by rewrite Hothers in Hr1.
    + assert (~ (sid' = sid /\ qr_statement_index (tr_query x) = i)) as Hother.
      { intros [-> Hi]. apply Hid. eapply (wo_index _ Hok); [exact Hx|exact Hr|by rewrite Hx'|congruence|]. by rewrite Hi, Hq. }
      pose proof (wo_paging _ Hok _ _ _ Hx Hx') as Hpx.
      assert (forall n more, at_position w sid' (qr_statement_index (tr_query x)) n more -> at_position v sid' (qr_statement_index (tr_query x)) n more) as Hat.
      { intros n more. apply (at_position_keep (fun j => sid' = sid /\ j = i)); [|tauto|done|].
        - cbn [v w_reg with_store rg_store]. rewrite dget_dset. case_decide; [subst sid'|apply pages_as_refl]. intros x' [= <-]. exists s. split; [done|].
          intros j rd Hrd. destruct (Hfrom j rd Hrd) as (rd0 & ? & ? & Hk). exists rd0. split_and!; try done. intros Hn. apply Hk. tauto.
        - by destruct (Hkept sid' (qr_statement_index (tr_query x))). }
      assert (forall f1, f1 ∈ before ++ f' :: after -> reads id f1 = true -> f1 ∈ w_flights w) as Hfl.
      { intros f1 [->|Hf1]%elem_of_mid Hr1; [|rewrite Hfs; apply elem_of_mid; by right].
        unfold reads in Hr1. rewrite G1, (bool_decide_false (fl_result_id f = id)), andb_false_r in Hr1 by congruence. done. }
      split; cbn [v w_reg w_flights with_store rg_cursors].
      * pose proof (pg_rights _ _ _ _ Hpx) as Hri. unfold rights in *. cbn [v w_reg with_store rg_cursors] in *. rewrite Hfs, count_mid in Hri.
        rewrite count_mid, (decide_False (P := reads id f' = true)); [lia|]. unfold reads.
        rewrite G1, (bool_decide_false (fl_result_id f = id)), andb_false_r by congruence. done.
      * intros Hf0. by apply Hat, (pg_first _ _ _ _ Hpx).
      * intros kv Hkv Hk. by apply Hat, (pg_cursor _ _ _ _ Hpx).
      * intros f1 n more Hf1 Hr1 Hp1. apply Hat, (pg_flight _ _ _ _ Hpx f1); [by apply Hfl|done|done].
  - intros sid' i' s0 reader0 c0 H1 H2 H3. destruct (Hkept sid' i') as [Heq|[-> ->]]; [|by eapply Hdel].
    unfold v in Heq. rewrite Heq. by eapply (wo_delivered _ Hok).
  - intros sid' i' Hne. destruct (Hkept sid' i') as [Heq|[-> _]]; [|done]. unfold v in Heq. rewrite Heq in Hne. by eapply (wo_fresh _ Hok).
Qed.
End invariant.
