(* ===== verification/ConsoleReadersSteps.v ===== *)
(** * Every step of the readers keeps the invariant

    One lemma for each critical section and each read of [ConsoleReaders]. *)

From Stdlib Require Import Ascii String.
From stdpp Require Import relations.
From S2P Require Import Prelude Json PyString DesignModels ConsoleStore ConsoleSession ConsoleResults ConsoleReaders.
Open Scope string_scope.
Open Scope list_scope.

#[local] Arguments on_session : simpl never.
#[local] Arguments release_session : simpl never.

(** ** Dictionaries *)

Lemma dpop_perm {V} k x (d : list (string * V)) : dwf d -> dget k d = Some x -> d ≡ₚ (k, x) :: dpop k d.
Proof.
  induction d as [|[k' x'] d IH]; [done|]. unfold dwf, dkeys. rewrite fmap_cons, NoDup_cons. intros [Hn Hwf] Hk. unfold dpop. rewrite filter_cons. simpl in *.
  destruct (decide (k = k')) as [<-|Hne].
  - injection Hk as ->. rewrite decide_False by tauto. constructor. rewrite filter_all; [done|].
    apply Forall_forall. intros [k1 x1] Hin Heq. simpl in Heq. subst k1. apply Hn, list_elem_of_fmap. by exists (k, x1).
  - rewrite decide_True by congruence. rewrite (IH Hwf Hk) at 1. constructor.
Qed.

Lemma count_dpop_lt {V} (P : string * V -> Prop) `{forall x, Decision (P x)} k x (d : list (string * V)) :
  dget k d = Some x -> P (k, x) -> length (filter P (dpop k d)) < length (filter P d).
Proof.
  intros Hk HP. unfold dpop. rewrite filter_swap. eapply (length_filter_lt _ _ (k, x)); [|simpl; tauto].
  apply list_elem_of_filter. split; [done|by apply dget_Some_elem].
Qed.

Lemma dget_snoc_ne {V} (d : list (string * V)) k k' x : k <> k' -> dget k (d ++ [(k', x)]) = dget k d.
Proof. intros Hne. induction d as [|[k1 x1] d IH]; simpl; [by rewrite decide_False|by case_decide]. Qed.

Lemma dget_snoc_eq {V} (d : list (string * V)) k x : k ∉ dkeys d -> dget k (d ++ [(k, x)]) = Some x.
Proof.
  induction d as [|[k1 x1] d IH]; simpl; [by rewrite decide_True|]. intros Hn. apply not_elem_of_cons in Hn as [Hne Hn].
  rewrite decide_False by done. by apply IH.
Qed.

Lemma count_none {A} (P : A -> Prop) `{forall x, Decision (P x)} (l : list A) : (forall x, x ∈ l -> ~ P x) -> length (filter P l) = 0.
Proof.
  intros Hn. destruct (filter P l) as [|x l'] eqn:Hf; [done|]. assert (x ∈ filter P l) as [HP Hin]%list_elem_of_filter by (rewrite Hf; by left).
  by destruct (Hn x).
Qed.

Lemma dget_filter_kept {V} (P : string * V -> Prop) `{forall kv, Decision (P kv)} (d : list (string * V)) id r :
  dwf d -> dget id d = Some r -> P (id, r) -> dget id (filter P d) = Some r.
Proof.
  intros Hwf Hr HP. apply dget_elem_wf; [eapply sublist_dwf, sublist_filter; done|]. apply list_elem_of_filter. split; [done|by apply dget_Some_elem].
Qed.

Lemma length_dpop {V} k x (d : list (string * V)) : dwf d -> dget k d = Some x -> length d = S (length (dpop k d)).
Proof. intros Hwf Hk. by rewrite (dpop_perm k x d) at 1. Qed.

Lemma dpop_absent {V} k (d : list (string * V)) : k ∉ dkeys d -> dpop k d = d.
Proof.
  intros Hk. unfold dpop. apply filter_all, Forall_forall. intros [k' x] Hin Heq. simpl in Heq. subst. apply Hk. unfold dkeys. apply list_elem_of_fmap.
  by exists (k, x).
Qed.

Set Default Proof Using "Type".

Section steps.
Context {raw cursor : Type}.
Variable convert : raw -> result (Z * Z) (list json).
Variable row_bytes : list json -> Z.
Variable fetchmany : cursor -> nat -> cursor * result (option string * option string) (list raw).
Variable open_cursor : string -> Z -> result (option string * option string) cursor.
Variable page_memory_bytes : Z.
Variable rows_of : cursor -> list raw.
Hypothesis fetch_rows : forall c n c' batch, fetchmany c n = (c', Ok batch) ->
  batch = take n (rows_of c) /\ rows_of c' = drop n (rows_of c).

Implicit Types (w : @World raw cursor).
Abbreviation ok := (world_ok convert rows_of).

(** ** Reads *)

Lemma at_stage_same stage f : same_flight f (at_stage stage f).
Proof. by split_and!. Qed.

(** A request ends, keeping its lease. *)
Lemma ok_ended w before f after f' :
  ok w -> w_flights w = before ++ f :: after -> same_flight f f' -> (forall id, reads id f' = false) ->
  ok (mk_world (w_reg w) (before ++ f' :: after) (w_opened w) (w_pending w) (w_retained w) (w_delivered w)).
Proof.
  intros Hok Hfs Hsame Hn. apply (ok_move _ _ w _ before f after); try done; [apply edited_refl|right; eauto| |by left].
  intros id r r' Hr Hr'. assert (r' = r) as -> by congruence. rewrite (wo_leases _ _ _ Hok _ _ Hr), Hfs, !leases_mid.
  destruct Hsame as (-> & _). done.
Qed.

Lemma page_position w sid f s s' rows :
  let i := qr_statement_index (fl_query f) in
  let v := mk_world (with_store (dset sid s' (rg_store (w_reg w))) (w_reg w)) [] (w_opened w) [] [] (w_delivered w ++ handed f (Ok rows)) in
  fl_session f = Some sid -> dget sid (rg_store (w_reg w)) = Some s -> at_position convert rows_of w sid i (fl_offset f) true ->
  session_page convert row_bytes fetchmany open_cursor page_memory_bytes i (fl_offset f) (fl_batch f) s = (s', Ok rows) ->
  at_position convert rows_of v sid i (fl_offset f + Z.of_nat (length rows))
    (bool_decide (Z.of_nat (length rows) = fl_batch f) || has_buffered_rows i s' || bool_decide (is_Some (qr_row_count (fl_query f)))) /\
  (forall s0 reader0 c0, dget sid (w_opened w) = Some s0 -> dget i (ss_readers s0) = Some reader0 -> rd_cursor reader0 = Some c0 ->
    exists raws rest, Forall2 (fun r j => convert r = Ok j) raws (delivered v sid i) /\ rd_pending reader0 ++ rows_of c0 = raws ++ rest).
Proof using Type fetch_rows.
  intros i v Hsid Hs Hat Hpage.
  apply (session_page_ok convert row_bytes fetchmany open_cursor page_memory_bytes rows_of fetch_rows) in Hpage as (reader & reader' & Hr & Hr' & Hsize & Hcase).
  destruct (Hat _ _ Hs Hr) as (s0 & reader0 & Hs0 & Hr0 & Hra).
  assert (delivered v sid i = delivered w sid i ++ rows) as Hd by (rewrite (delivered_handed w v f (Ok rows)) by done; by rewrite decide_True).
  destruct (rd_cursor reader) as [c|] eqn:Hc.
  - destruct Hcase as (c' & raws & Hc' & Hpos & Hpos' & Heq & Hall & Hlen & Hend).
    assert (exists c0, rd_cursor reader0 = Some c0) as [c0 Hc0] by (unfold reader_at in Hra; rewrite Hc in Hra; by destruct (rd_cursor reader0); eauto).
    assert (forall more, (more = false -> rd_pending reader' ++ rows_of c' = []) ->
      reader_at convert rows_of (delivered v sid i) reader0 reader' (fl_offset f + Z.of_nat (length rows)) more) as Hnext.
    { intros more Hmore. rewrite Hd. by apply (reader_at_next _ _ reader0 reader reader' c0 c c' _ rows raws). }
    split.
    + intros x rd. cbn [v w_reg with_store rg_store]. rewrite dget_dset_eq. intros [= <-] Hrd. assert (rd = reader') as -> by congruence.
      exists s0, reader0. split_and!; try done. apply Hnext. intros [[Hshort%bool_decide_eq_false Hbuf]%orb_false_iff _]%orb_false_iff.
      unfold has_buffered_rows in Hbuf. rewrite Hr' in Hbuf. apply negb_false_iff, bool_decide_eq_true, length_zero_iff_nil in Hbuf.
      rewrite Hbuf. apply Hend; [lia|done].
    + intros s1 reader1 c1 Hs1 Hr1 Hc1. assert (reader1 = reader0) as -> by congruence. assert (c1 = c0) as -> by congruence.
      specialize (Hnext true). unfold reader_at in Hnext. rewrite Hc0, Hc' in Hnext. destruct Hnext as (_ & _ & (raws' & Hall' & Heq') & _); [done|].
      exists raws', (rd_pending reader' ++ rows_of c'). done.
  - unfold reader_at in Hra. rewrite Hc in Hra. destruct (rd_cursor reader0) as [c0|] eqn:Hc0; [done|]. split.
    + intros x rd. cbn [v w_reg with_store rg_store]. rewrite dget_dset_eq. intros [= <-] Hrd. assert (rd = reader') as -> by congruence.
      exists s0, reader0. split_and!; try done. unfold reader_at. by rewrite Hc0, Hcase.
    + intros s1 reader1 c1 Hs1 Hr1 Hc1. congruence.
Qed.

Lemma ok_page_fetch w before f after :
  ok w -> w_flights w = before ++ f :: after -> fl_export f = false -> fl_stage f = Leased ->
  let out := page_fetch convert row_bytes fetchmany open_cursor page_memory_bytes f (w_reg w) in
  ok (mk_world out.1.1 (before ++ out.1.2 :: after) (w_opened w) (w_pending w) (w_retained w) (w_delivered w ++ handed f out.2)).
Proof using Type fetch_rows.
  intros Hok Hfs Hex Hst. cbv zeta. unfold page_fetch, page_rows. destruct (fl_session f) as [sid|] eqn:Hsid.
  - unfold on_session. destruct (dget sid (rg_store (w_reg w))) as [s|] eqn:Hs.
    + pose proof (paging_from convert row_bytes fetchmany open_cursor page_memory_bytes false (qr_statement_index (fl_query f)) (fl_offset f) (fl_batch f) s) as Hfrom.
      cbv iota in Hfrom.
      assert (f ∈ w_flights w) as Hin by (rewrite Hfs; apply elem_of_mid; by left).
      destruct (flight_held _ _ w f sid Hok Hin Hsid) as (r & Hr & Hrs & Hq & _).
      assert (reads (fl_result_id f) f = true) as Hre by (unfold reads; by rewrite Hex, Hst, bool_decide_true).
      assert (at_position convert rows_of w sid (qr_statement_index (fl_query f)) (fl_offset f) true) as Hat.
      { rewrite <-Hq. apply (pg_flight _ _ _ _ _ _ (wo_paging _ _ _ Hok _ _ _ Hr Hrs) f); [done..|]. unfold flight_position. by rewrite Hst. }
      destruct (session_page _ _ _ _ _ _ _ _ s) as [s' [rows|e]] eqn:Hpage; cbn [fst snd] in *.
      * cbn [with_store rg_store]. rewrite dget_dset_eq. destruct (page_position w sid f s s' rows Hsid Hs Hat Hpage) as [Hpos Hdel].
        apply (ok_paged _ _ w before f after sid s s' (Ok rows)); try done.
        -- intros j rd Hrd. destruct (Hfrom j rd Hrd) as (rd0 & ? & ? & Hk). exists rd0. split_and!; try done. intros Hn. apply Hk. tauto.
        -- intros n more. unfold flight_position, page_has_more. cbn [at_stage fl_stage fl_query]. rewrite Hsid. intros [= <- <-].
           destruct (qr_row_count (fl_query f)) as [count|]; [|exact Hpos]. rewrite orb_true_r. by rewrite orb_true_r in Hpos.
      * apply (ok_paged _ _ w before f after sid s s' (Err e)); try done.
        -- intros j rd Hrd. destruct (Hfrom j rd Hrd) as (rd0 & ? & ? & Hk). exists rd0. split_and!; try done. intros Hn. apply Hk. tauto.
        -- intros s0 reader0 c0 H1 H2 H3. rewrite (delivered_handed w _ f (Err e)) by done. replace (if decide _ then _ else _) with (@nil (list json)) by (by case_decide).
           rewrite app_nil_r. by eapply (wo_delivered _ _ _ Hok).
    + cbn [fst snd]. unfold handed. rewrite Hsid, app_nil_r. apply (ok_ended w before f after); try done.
      intros id. unfold reads. cbn [at_stage fl_stage]. by rewrite andb_false_r.
  - cbn [fst snd]. unfold handed. rewrite Hsid, app_nil_r. apply (ok_edit_quiet _ _ w); try done; [apply edited_refl|apply (tb_cursors _ (wo_tables _ _ _ Hok))|..].
    + intros id r Hr. rewrite (wo_leases _ _ _ Hok _ _ Hr), Hfs, !leases_mid. done.
    + intros f1 [->|Hf1]%elem_of_mid; [by apply (wo_flights _ _ _ Hok f); rewrite Hfs; apply elem_of_mid; left|].
      apply (wo_flights _ _ _ Hok). rewrite Hfs. apply elem_of_mid. by right.
    + intros id r r' sid Hr Hr' Hs Hsame Hpw. assert (r' = r) as -> by congruence.
      assert (fl_result_id f <> id) as Hid.
      { intros <-. destruct (wo_flights _ _ _ Hok f) as (x & Hx & E1 & _); [rewrite Hfs; apply elem_of_mid; by left|]. congruence. }
      assert (forall stage, reads id (at_stage stage f) = false) as Hnr.
      { intros stage. unfold reads. cbn [at_stage fl_result_id]. rewrite bool_decide_false by done. by rewrite andb_false_r. }
      pose proof (pg_rights _ _ _ _ _ _ Hpw) as Hri. unfold rights in *. split_and!; [|done|intros; by left|].
      * rewrite Hfs, count_mid in Hri. rewrite count_mid, (decide_False (P := reads id (at_stage _ f) = true)) by (by rewrite Hnr). lia.
      * intros f1 n more [->|Hf1]%elem_of_mid Hre _; [by rewrite Hnr in Hre|]. left. rewrite Hfs. apply elem_of_mid. by right.
Qed.

Lemma ok_export_round w before f after :
  ok w -> w_flights w = before ++ f :: after -> fl_export f = true -> fl_stage f = Leased ->
  let out := export_round convert row_bytes fetchmany open_cursor page_memory_bytes f (w_reg w) in
  ok (mk_world out.1.1 (before ++ out.1.2 :: after) (w_opened w) (w_pending w) (w_retained w) (w_delivered w)).
Proof.
  intros Hok Hfs Hex Hst. cbv zeta.
  assert (forall h f', ok (with_reg h w) -> same_flight f f' -> fl_export f' = true ->
    ok (mk_world h (before ++ f' :: after) (w_opened w) (w_pending w) (w_retained w) (w_delivered w))) as Hgo.
  { intros h f' Hh Hsame Hex'. apply (ok_ended (with_reg h w) before f after); try done. intros id. unfold reads. by rewrite Hex'. }
  unfold export_round. destruct (match qr_row_count (fl_query f) with Some count => bool_decide (fl_offset f < count)%Z | None => true end).
  2: { apply Hgo; try done. by destruct w. }
  assert (ok (with_reg (export_rows convert row_bytes fetchmany open_cursor page_memory_bytes f (fl_offset f) (w_reg w)).1 w)) as Hrows.
  { unfold export_rows. destruct (fl_session f) as [sid|] eqn:Hsid; [|by destruct w]. unfold on_session.
    destruct (dget sid (rg_store (w_reg w))) as [s|] eqn:Hs; [|by destruct w].
    pose proof (paging_from convert row_bytes fetchmany open_cursor page_memory_bytes true (qr_statement_index (fl_query f)) (fl_offset f) (fl_batch f) s) as Hfrom.
      cbv iota in Hfrom.
    destruct (export_page _ _ _ _ _ _ _ _ s) as [s' out]. cbn [fst] in *.
    destruct (flight_held _ _ w f sid Hok) as (r & _ & _ & _ & _ & Hp & _); [rewrite Hfs; apply elem_of_mid; by left|done|].
    apply (ok_store _ _ w sid s s'); try done.
    intros j rd Hrd. destruct (Hfrom j rd Hrd) as (rd0 & ? & ? & Hk). exists rd0. split_and!; try done. intros _. apply Hk. by intros [_ ?]. }
  destruct (export_rows _ _ _ _ _ _ _ _) as [h [[|row rows]|e]]; cbn [fst snd] in *; by apply Hgo.
Qed.

Lemma ok_cancel w execution : ok w -> ok (with_reg (cancel_transient execution (w_reg w)) w).
Proof.
  intros Hok. unfold cancel_transient. cbn [unprotect with_protected rg_sessions].
  assert (ok (with_reg (unprotect execution (w_reg w)) w)) as Hu.
  { apply ok_shrunk; [done|]. apply shrunk_results; try done; apply (wo_tables _ _ _ Hok). }
  destruct (dget execution (rg_sessions (w_reg w))) as [a|] eqn:Ha; [|done].
  unfold on_session. cbn [unprotect with_protected rg_store]. destruct (dget (as_session a) (rg_store (w_reg w))) as [s|] eqn:Hs; [|done].
  pose proof (cancel_from (fun _ => False) s) as Hfrom. destruct (cancel_session s) as [s' out]. cbn [fst] in *.
  apply (ok_store _ _ (with_reg (unprotect execution (w_reg w)) w) (as_session a) s s'); try done. by destruct (wo_sessions _ _ _ Hok _ _ Ha) as (_ & _ & Hn).
Qed.

End steps.

(** ** Leases *)

Section leases.
Context {raw cursor : Type}.
Variable convert : raw -> result (Z * Z) (list json).
Variables (maximum : nat) (row_page_size : Z).
Variable rows_of : cursor -> list raw.
Implicit Types (w : @World raw cursor).
Abbreviation ok := (world_ok convert rows_of).

Lemma ok_purge w now : ok w -> ok (with_reg (purge_transient_results now (w_reg w)) w).
Proof. intros Hok. apply ok_shrunk; [done|]. apply purge_shrunk, Hok. Qed.

(** A world whose registry is named. *)
Lemma ok_reg w : ok w -> ok (with_reg (w_reg w) w).
Proof. by destruct w. Qed.

Lemma move_to_end_perm execution (g : @Registry raw cursor) :
  dwf (rg_sessions g) -> rg_sessions (move_to_end execution g) ≡ₚ rg_sessions g.
Proof.
  intros Hwf. unfold move_to_end. destruct (dget execution (rg_sessions g)) as [a|] eqn:Ha; [|done]. cbn [with_sessions rg_sessions].
  rewrite Permutation_app_comm. simpl. symmetry. by apply dpop_perm.
Qed.

Lemma move_to_end_frame execution (g : @Registry raw cursor) :
  rg_results (move_to_end execution g) = rg_results g /\ rg_cursors (move_to_end execution g) = rg_cursors g /\
  rg_store (move_to_end execution g) = rg_store g /\ rg_released (move_to_end execution g) = rg_released g.
Proof. unfold move_to_end. by destruct (dget execution (rg_sessions g)). Qed.

(** A request for a page takes its lease. *)
Lemma ok_page_begin w now owner execution result token page_size :
  ok w -> let out := page_begin row_page_size now owner execution result token page_size (w_reg w) in
  ok (mk_world out.1 (started out.2 ++ w_flights w) (w_opened w) (w_pending w) (w_retained w) (w_delivered w)).
Proof.
  intros Hok0. cbv zeta. unfold page_begin. pose proof (ok_purge w now Hok0) as Hok. set (g := purge_transient_results now (w_reg w)) in *.
  destruct (dget result (rg_results g)) as [r|] eqn:Hr; [|done].
  destruct (tr_pending_close r || _ || _) eqn:Hmine; [done|]. apply orb_false_iff in Hmine as [_ Hex%negb_false_iff%bool_decide_eq_true].
  destruct (negb (bool_decide _)); [done|].
  set (f := fun offset => {| fl_export := false; fl_result_id := result; fl_execution_id := execution; fl_query := tr_query r;
         fl_session := tr_read_session r; fl_offset := offset; fl_batch := from_option id (tr_page_size r) page_size; fl_stage := Leased |}).
  assert (forall cursors offset first, cursors `sublist_of` rg_cursors g -> (first = false -> tr_first_page_requested r = false) ->
    (forall sid, tr_read_session r = Some sid -> paging_ok convert rows_of (with_reg g w) result r sid ->
       (if first then 0 else 1) + length (filter (fun kv => kv.2.1.1 = result) cursors) <
       (if tr_first_page_requested r then 0 else 1) + length (filter (fun kv => kv.2.1.1 = result) (rg_cursors g)) /\
       at_position convert rows_of (with_reg g w) sid (qr_statement_index (tr_query r)) offset true) ->
    ok (mk_world (move_to_end execution (with_results (dset result (leased_result first r) (rg_results g)) (with_cursors cursors g)))
          (f offset :: w_flights w) (w_opened w) (w_pending w) (w_retained w) (w_delivered w))) as Hlease.
  { intros cursors offset first Hsub Hfirst Hpg.
    pose proof (move_to_end_frame execution (with_results (dset result (leased_result first r) (rg_results g)) (with_cursors cursors g))) as (M1 & M2 & M3 & M4).
    apply (ok_lease _ _ (with_reg g w) _ (f offset) r first); try done; rewrite ?M1, ?M2, ?M3, ?M4; try done.
    - etransitivity; [apply move_to_end_perm|done]. apply (tb_sessions _ (wo_tables _ _ _ Hok)).
    - intros sid Hsid Hpw. destruct (Hpg sid Hsid Hpw) as [Hlt Hat]. split_and!; [|done|by intros n more _ [= <- <-]].
      pose proof (pg_rights _ _ _ _ _ _ Hpw) as Hri. unfold rights in *. rewrite M2. cbn [leased_result tr_first_page_requested with_results with_cursors rg_cursors].
      cbn [with_reg w_reg w_flights] in Hri. rewrite filter_cons, decide_True by (unfold reads; simpl; by rewrite bool_decide_true). simpl length. change (fl_result_id (f offset)) with result in Hri. lia. }
  destruct token as [c|].
  - set (popped := with_cursors (dpop c (rg_cursors g)) g).
    assert (ok (with_reg popped w)) as Hpop.
    { apply (ok_shrunk _ _ (with_reg g w)); [done|]. pose proof (wo_tables _ _ _ Hok) as Ht. apply shrunk_results; try done; [apply sublist_filter|].
      intros kv Hkv. apply (tb_cursors _ Ht). eapply elem_of_submseteq; [exact Hkv|]. apply sublist_submseteq, sublist_filter. }
    destruct (dget c (rg_cursors g)) as [[[value offset] expires]|] eqn:Hc; [|done].
    destruct (negb (bool_decide (value = result)) || _) eqn:Hv; [done|]. apply orb_false_iff in Hv as [Hv%negb_false_iff%bool_decide_eq_true _]. subst value.
    apply (Hlease (dpop c (rg_cursors g)) offset (tr_first_page_requested r)); [apply sublist_filter|done|].
    intros sid Hsid Hpw. split.
    + apply Nat.add_lt_mono_l. eapply count_dpop_lt; [exact Hc|done].
    + apply (pg_cursor _ _ _ _ _ _ Hpw (c, (result, offset, expires))); [by apply dget_Some_elem|done].
  - case_bool_decide as Hses.
    + destruct (tr_first_page_requested r) eqn:Hfirst; [done|].
      apply (Hlease (rg_cursors g) 0%Z true); [done|done|]. intros sid Hsid Hpw. split; [lia|]. by apply (pg_first _ _ _ _ _ _ Hpw).
    + apply (Hlease (rg_cursors g) 0%Z (tr_first_page_requested r)); [done|done|]. intros sid Hsid _. by destruct Hses.
Qed.

Lemma ok_export_begin w now owner workspace execution result :
  ok w -> let out := export_begin now owner workspace execution result (w_reg w) in
  ok (mk_world out.1 (started out.2 ++ w_flights w) (w_opened w) (w_pending w) (w_retained w) (w_delivered w)).
Proof.
  intros Hok0. cbv zeta. unfold export_begin. pose proof (ok_purge w now Hok0) as Hok. set (g := purge_transient_results now (w_reg w)) in *.
  destruct (dget result (rg_results g)) as [r|] eqn:Hr; [|done].
  destruct (tr_pending_close r || _ || _ || _) eqn:Hmine; [done|]. apply orb_false_iff in Hmine as [_ Hex%negb_false_iff%bool_decide_eq_true].
  cbn [fst snd started app]. match goal with |- context [?f :: w_flights w] => set (x := f) end.
  apply (ok_lease _ _ (with_reg g w) _ x r (tr_first_page_requested r)); try done.
  intros sid Hsid Hpw. split_and!; [|done|done].
  exact (pg_rights _ _ _ _ _ _ Hpw).
Qed.

Lemma close_pending_edited execution (g : @Registry raw cursor) :
  edited g (close_pending execution g) /\
  forall id r', dget id (rg_results (close_pending execution g)) = Some r' -> exists r, dget id (rg_results g) = Some r /\
    tr_active_exports r' = tr_active_exports r /\ tr_first_page_requested r' = tr_first_page_requested r.
Proof.
  unfold edited, close_pending. cbn [with_results rg_results].
  assert (forall id r', dget id (map (fun kv => (kv.1, if bool_decide (tr_execution_id kv.2 = execution) then closing_result kv.2 else kv.2)) (rg_results g)) = Some r' ->
    exists r, dget id (rg_results g) = Some r /\ (r' = r \/ r' = closing_result r)) as Hget.
  { induction (rg_results g) as [|[k r] d IH]; [done|]. simpl. intros id r'. destruct (decide (id = k)) as [->|Hne]; [|apply IH].
    intros [= <-]. exists r. split; [done|]. case_bool_decide; tauto. }
  split; [split|].
  - unfold dkeys. rewrite <-list_fmap_compose. by apply list_fmap_ext.
  - intros id r' Hr'. destruct (Hget id r' Hr') as (r & Hr & [->| ->]); exists r; by split_and!.
  - intros id r' Hr'. destruct (Hget id r' Hr') as (r & Hr & [->| ->]); exists r; by split_and!.
Qed.

Lemma ok_failed w before f after :
  ok w -> w_flights w = before ++ f :: after ->
  ok (mk_world (request_failed f (w_reg w)) (before ++ at_stage Ended f :: after) (w_opened w) (w_pending w) (w_retained w) (w_delivered w)).
Proof.
  intros Hok Hfs. assert (forall id, reads id (at_stage Ended f) = false) as Hn by (intros id; unfold reads; simpl; by rewrite andb_false_r).
  pose proof (ok_ended _ _ w before f after (at_stage Ended f) Hok Hfs (at_stage_same _ _) Hn) as Hsame. unfold request_failed.
  destruct (fl_stage f) as [| |e|]; try exact Hsame. destruct (ends_results e); [|exact Hsame].
  destruct (close_pending_edited (fl_execution_id f) (w_reg w)) as [Hed Hres].
  apply (ok_move _ _ w _ before f after); try done; [right; eexists; by split_and!| |by left].
  intros id r r' Hr Hr'. destruct (Hres id r' Hr') as (r1 & Hr1 & E1 & E2). assert (r1 = r) as -> by congruence.
  rewrite E1, E2, (wo_leases _ _ _ Hok _ _ Hr), Hfs, !leases_mid. done.
Qed.

Lemma ok_page_publish w before f after token :
  ok w -> w_flights w = before ++ f :: after -> fl_export f = false ->
  ok (mk_world (page_publish token f (w_reg w)).1 (before ++ at_stage Ended f :: after) (w_opened w) (w_pending w) (w_retained w) (w_delivered w)).
Proof.
  intros Hok Hfs Hex. assert (forall id, reads id (at_stage Ended f) = false) as Hn by (intros id; unfold reads; simpl; by rewrite andb_false_r).
  pose proof (ok_ended _ _ w before f after (at_stage Ended f) Hok Hfs (at_stage_same _ _) Hn) as Hsame. unfold page_publish.
  destruct (fl_stage f) as [|next [|]| |] eqn:Hst; try exact Hsame.
  destruct (dget (fl_result_id f) (rg_results (w_reg w))) as [r|] eqn:Hr; [|exact Hsame]. destruct (tr_pending_close r); [exact Hsame|]. cbn [fst].
  apply (ok_move _ _ w _ before f after); try done; [exact (edited_refl (w_reg w))|right; eexists; by split_and!| |].
  - intros id x x' Hx Hx'. assert (x' = x) as -> by (cbn [with_cursors rg_results] in Hx'; congruence).
    rewrite (wo_leases _ _ _ Hok _ _ Hx), Hfs, !leases_mid. done.
  - right. exists ("crc_" ++ token)%string, next, (tr_expires_at r). split_and!; [|unfold flight_position; by rewrite Hst|done].
    unfold reads. by rewrite Hex, Hst, bool_decide_true.
Qed.

(** A lease is given back. *)
Lemma ok_returned w before f after exports :
  ok w -> w_flights w = before ++ f :: after ->
  (forall r, dget (fl_result_id f) (rg_results (w_reg w)) = Some r -> (1 <= tr_active_exports r)%Z -> exports r = (tr_active_exports r - 1)%Z) ->
  forall now, ok (mk_world (purge_transient_results now
    match dget (fl_result_id f) (rg_results (w_reg w)) with
    | None => w_reg w
    | Some r => with_results (dset (fl_result_id f) (returned_result (exports r) r) (rg_results (w_reg w))) (w_reg w)
    end) (before ++ after) (w_opened w) (w_pending w) (w_retained w) (w_delivered w)).
Proof.
  intros Hok Hfs Hexp now. assert (f ∈ w_flights w) as Hin by (rewrite Hfs; apply elem_of_mid; by left).
  destruct (wo_flights _ _ _ Hok _ Hin) as (r & Hr & _). rewrite Hr. specialize (Hexp r Hr).
  pose proof (flight_leases _ _ Hin) as Hpos. pose proof (wo_leases _ _ _ Hok _ _ Hr) as Hl.
  set (h := with_results _ _). apply (ok_purge (mk_world h (before ++ after) (w_opened w) (w_pending w) (w_retained w) (w_delivered w))).
  apply (ok_move _ _ w _ before f after); try done; [by apply (dset_edited _ _ r)|by left| |by left].
  intros id x x' Hx. cbn [h with_results rg_results]. rewrite dget_dset. rewrite Hfs in Hl. rewrite leases_mid, decide_True in Hl by done. case_decide as Hid.
  - subst id. intros [= <-]. assert (x = r) as -> by congruence. cbn [returned_result tr_active_exports tr_first_page_requested].
    split; [|done]. rewrite Hexp; lia.
  - intros Hx'. assert (x' = x) as -> by congruence. rewrite (wo_leases _ _ _ Hok _ _ Hx), Hfs, leases_mid, decide_False by congruence.
    split; [lia|done].
Qed.

Lemma ok_page_release w before f after now :
  ok w -> w_flights w = before ++ f :: after ->
  ok (mk_world (page_release now f (w_reg w)) (before ++ after) (w_opened w) (w_pending w) (w_retained w) (w_delivered w)).
Proof. intros Hok Hfs. apply (ok_returned w before f after (fun r => tr_active_exports r - 1)%Z); done. Qed.

Lemma ok_export_end w before f after now :
  ok w -> w_flights w = before ++ f :: after ->
  ok (mk_world (export_end now f (w_reg w)) (before ++ after) (w_opened w) (w_pending w) (w_retained w) (w_delivered w)).
Proof. intros Hok Hfs. apply (ok_returned w before f after (fun r => Z.max 0 (tr_active_exports r - 1))); [done|done|]. intros. lia. Qed.

(** ** Closing *)

Lemma ok_closing w result r : ok w -> dget result (rg_results (w_reg w)) = Some r ->
  ok (with_reg (with_results (dset result (closing_result r) (rg_results (w_reg w))) (w_reg w)) w).
Proof.
  intros Hok Hr. apply (ok_edit_quiet _ _ w _ (w_flights w)); try done; cbn [with_results rg_results]; [by apply (dset_edited _ _ r)|..].
  - intros kv Hkv. cbn [with_results rg_results]. rewrite dkeys_dset_old by (apply dget_is_Some; eauto). by apply (tb_cursors _ (wo_tables _ _ _ Hok)).
  - intros id x. rewrite dget_dset. case_decide; [|apply (wo_leases _ _ _ Hok)]. intros [= <-]. subst. by apply (wo_leases _ _ _ Hok _ r).
  - apply (wo_flights _ _ _ Hok).
  - intros id x x' sid Hx Hx' _ _ Hpw. assert (tr_first_page_requested x' = tr_first_page_requested x) as Hf.
    { rewrite dget_dset in Hx'. case_decide; [|congruence]. subst. injection Hx' as <-. cbn [closing_result tr_first_page_requested]. congruence. }
    split_and!; [|congruence|by left|by left]. pose proof (pg_rights _ _ _ _ _ _ Hpw) as Hri. unfold rights in *. rewrite Hf. exact Hri.
Qed.

Lemma ok_dropped w result :
  ok w -> (forall r, dget result (rg_results (w_reg w)) = Some r -> tr_active_exports r = 0%Z) ->
  ok (with_reg (with_cursors (filter (fun kv => kv.2.1.1 <> result) (rg_cursors (w_reg w))) (with_results (dpop result (rg_results (w_reg w))) (w_reg w))) w).
Proof.
  intros Hok Hfree. pose proof (wo_tables _ _ _ Hok) as Ht.
  apply ok_shrunk; [done|]. apply shrunk_results; try done; cbn [with_cursors with_results rg_results rg_cursors]; [apply sublist_filter| |apply sublist_filter|].
  - intros id r Hr Hn. rewrite dget_dpop, decide_False; [done|]. intros ->. by apply Hn, Hfree.
  - intros kv [Hne Hin]%list_elem_of_filter. cbn [with_cursors with_results rg_results]. rewrite dkeys_dpop. apply list_elem_of_filter. split; [done|].
    by apply (tb_cursors _ Ht).
Qed.

Lemma ok_close w execution result : ok w -> ok (with_reg (close_transient execution result (w_reg w)) w).
Proof.
  intros Hok. unfold close_transient. set (g1 := match dget result _ with Some _ => _ | None => _ end).
  set (g2 := with_cursors _ g1). assert (ok (with_reg g2 w)) as H2.
  { unfold g2, g1. destruct (dget result (rg_results (w_reg w))) as [r|] eqn:Hr.
    - case_bool_decide as Hex; cbn [negb]; [apply ok_dropped; [done|congruence]|].
      pose proof (ok_closing w result r Hok Hr) as Hc. apply (ok_shrunk _ _ _ _ Hc).
      pose proof (wo_tables _ _ _ Hc) as Ht. apply shrunk_results; try done; [apply sublist_filter|].
      intros kv [_ Hin]%list_elem_of_filter. by apply (tb_cursors _ Ht).
    - apply ok_dropped; [done|congruence]. }
  assert (ok (with_reg (close_unreferenced_read_sessions g2) w)) as H3
    by (apply (ok_shrunk _ _ (with_reg g2 w)); [done|]; apply unreferenced_shrunk, H2).
  destruct (existsb _ _); [done|]. apply (ok_shrunk _ _ (with_reg (close_unreferenced_read_sessions g2) w)); [done|].
  apply shrunk_results; try done; apply (wo_tables _ _ _ H3).
Qed.

Lemma ok_protected w protected : ok w -> ok (with_reg (with_protected protected (w_reg w)) w).
Proof. intros Hok. apply ok_shrunk; [done|]. apply shrunk_results; try done; apply (wo_tables _ _ _ Hok). Qed.

(** ** Sessions come and go *)

Lemma ok_open w sid s :
  ok w -> sid ∉ dkeys (w_opened w) -> session_new s ->
  ok (mk_world (with_store (dset sid s (rg_store (w_reg w))) (w_reg w)) (w_flights w) ((sid, s) :: w_opened w) (sid :: w_pending w)
        (w_retained w) (w_delivered w)).
Proof.
  intros Hok Hfresh Hnew. set (v := mk_world _ _ _ _ _ _).
  assert (forall x s0, dget x (w_opened w) = Some s0 -> x <> sid /\ dget x (w_opened v) = Some s0) as Hopened.
  { intros x s0 Hx. assert (x <> sid) as Hne by (intros ->; apply Hfresh, dget_is_Some; eauto). split; [done|]. simpl. by rewrite decide_False. }
  assert (forall x, x ∈ dkeys (w_opened w) -> x <> sid) as Hne by (intros x [s0 Hs0]%dget_is_Some; by eapply Hopened).
  split; cbn [v w_reg w_flights w_opened w_pending w_retained w_delivered with_store rg_results rg_sessions rg_cursors rg_released rg_store];
    try apply Hok.
  - destruct (wo_tables _ _ _ Hok). by split.
  - intros e a He. destruct (wo_sessions _ _ _ Hok _ _ He) as (H1 & H2 & H3). unfold dkeys. rewrite fmap_cons, !elem_of_cons. pose proof (Hne _ H1). naive_solver.
  - intros x [->|Hx]%elem_of_cons.
    + split; [intros Hr; by apply Hfresh, (wo_released _ _ _ Hok)|]. exists s. rewrite dget_dset_eq. simpl. by rewrite decide_True.
    + destruct (wo_pending _ _ _ Hok _ Hx) as (H1 & s0 & H2 & H3 & H4). split; [done|]. destruct (Hopened _ _ H2) as [Hn Ho]. exists s0.
      by rewrite dget_dset_ne.
  - intros x Hx. unfold dkeys. rewrite fmap_cons, elem_of_cons. right. by apply (wo_released _ _ _ Hok).
  - intros x. unfold dkeys. rewrite fmap_cons, elem_of_cons. intros [->|Hx]; [left; by left|].
    destruct (wo_opened _ _ _ Hok _ Hx) as [?|?]; [left; by right|by right].
  - intros id r sid' Hr Hs. apply (paging_keep _ _ w); try done; [by apply (wo_paging _ _ _ Hok)|]. intros i n more.
    destruct (tb_held _ (wo_tables _ _ _ Hok) _ _ _ Hr Hs) as (a & Ha & <-). destruct (wo_sessions _ _ _ Hok _ _ Ha) as (H1 & _).
    apply (at_position_keep _ _ (fun _ => False)); [|tauto|intros s0 Hs0; by apply Hopened|done].
    cbn [v w_reg with_store rg_store]. rewrite dget_dset_ne by (by apply Hne). apply pages_as_refl.
  - intros x i s0 reader0 c0. destruct (decide (x = sid)) as [->|Hx].
    + intros _ _ _. exists [], (rd_pending reader0 ++ rows_of c0). split; [|done]. change (delivered v sid i) with (delivered w sid i).
      destruct (delivered w sid i) eqn:Hd; [done|]. destruct (wo_fresh _ _ _ Hok sid i) as [Hin _]; [by rewrite Hd|done].
    + simpl. rewrite decide_False by done. apply (wo_delivered _ _ _ Hok).
  - intros x i Hd. destruct (wo_fresh _ _ _ Hok x i Hd) as [H1 H2]. unfold dkeys. rewrite fmap_cons, !elem_of_cons. pose proof (Hne _ H1). naive_solver.
Qed.

Lemma ok_abandon w sid :
  ok w -> sid ∈ w_pending w ->
  ok (mk_world (release_session sid (w_reg w)) (w_flights w) (w_opened w) (filter (fun x => x <> sid) (w_pending w)) (w_retained w) (w_delivered w)).
Proof.
  intros Hok Hp. pose proof (release_frame sid (w_reg w)) as (H1 & H2 & H3 & H4 & H5 & H6). set (h := release_session sid (w_reg w)) in *.
  destruct (wo_pending _ _ _ Hok _ Hp) as (_ & s & Hs & _).
  assert (forall e a, dget e (rg_sessions (w_reg w)) = Some a -> as_session a <> sid) as Hne
    by (intros e a Ha <-; by destruct (wo_sessions _ _ _ Hok _ _ Ha) as (_ & _ & Hn)).
  split; cbn [w_reg w_flights w_opened w_pending w_retained w_delivered]; rewrite ?H1, ?H4, ?H5; try apply Hok.
  - destruct (wo_tables _ _ _ Hok) as [T1 T2 T3 T4 T5 T6]. split; unfold counts_ok, cursors_ok in *; by rewrite ?H1, ?H2, ?H4.
  - intros f Hf. unfold flight_result. cbn [w_reg]. rewrite H1. by apply (wo_flights _ _ _ Hok).
  - intros e a Ha. pose proof (Hne _ _ Ha) as Hn. destruct (wo_sessions _ _ _ Hok _ _ Ha) as (? & ? & ?).
    rewrite elem_of_app, list_elem_of_singleton, list_elem_of_filter. tauto.
  - intros x [Hx Hin]%list_elem_of_filter. destruct (wo_pending _ _ _ Hok _ Hin) as (Hr & s0 & Ho & Hst & Hnew).
    rewrite elem_of_app, list_elem_of_singleton. split; [tauto|]. exists s0. by rewrite H6.
  - intros x [Hx|Hx]%elem_of_app; [by apply (wo_released _ _ _ Hok)|]. apply list_elem_of_singleton in Hx as ->. apply dget_is_Some. eauto.
  - intros x Hx. rewrite elem_of_app, list_elem_of_singleton, list_elem_of_filter. destruct (wo_opened _ _ _ Hok _ Hx) as [?|[?|?]]; [|tauto|tauto].
    destruct (decide (x = sid)); tauto.
  - intros id r sid' Hr Hs'. apply (paging_keep _ _ w); [by apply (wo_paging _ _ _ Hok)|cbn [w_reg]; by rewrite H2|done|]. intros i n more.
    destruct (tb_held _ (wo_tables _ _ _ Hok) _ _ _ Hr Hs') as (a & Ha & <-).
    apply (at_position_keep _ _ (fun _ => False)); [|tauto|done|done]. cbn [w_reg]. rewrite H6 by (by eapply Hne). apply pages_as_refl.
  - intros x i Hd. destruct (wo_fresh _ _ _ Hok x i Hd) as [? Hn]. split; [done|]. intros [_ ?]%list_elem_of_filter. done.
Qed.

(** ** Retaining *)

Section retain.
Variables (record : ConsoleExecutionRecord) (execution : ConsoleExecution) (expires : Z) (read_session : option string).
Abbreviation retain := (retain_one record execution expires read_session).

Definition retained_result (id : string) (r : TransientResult) : Prop :=
  exists summary query, summary_of execution query = Some summary /\ id = rs_id summary /\ r = transient record execution summary query expires read_session.

Lemma retained_from results d id r :
  dget id (foldl retain d results) = Some r -> dget id d = Some r \/ retained_result id r.
Proof.
  revert d. induction results as [|query results IH]; intros d; simpl; [by left|]. intros Hr. destruct (IH _ Hr) as [Hd|?]; [|by right].
  unfold retain_one in Hd. destruct (summary_of execution query) as [summary|] eqn:Hs; [|by left]. rewrite dget_dset in Hd.
  case_decide; [|by left]. subst. injection Hd as <-. right. by exists summary, query.
Qed.

Lemma retained_old results d id :
  (forall s, s ∈ ce_results execution -> rs_id s <> id) -> dget id (foldl retain d results) = dget id d.
Proof.
  intros Hid. revert d. induction results as [|query results IH]; intros d; simpl; [done|]. rewrite IH. unfold retain_one.
  destruct (summary_of execution query) as [summary|] eqn:Hs; [|done]. apply dict_by_Some in Hs as [Hin _]. rewrite dget_dset_ne; [done|].
  intros Heq. by apply (Hid summary).
Qed.

Lemma retained_wf results d : dwf d -> dwf (foldl retain d results).
Proof.
  revert d. induction results as [|query results IH]; intros d Hd; simpl; [done|]. apply IH. unfold retain_one.
  destruct (summary_of execution query); [by apply dset_wf|done].
Qed.

(** The results of an execution enter the registry with their session. *)
Lemma ok_retained w h results active :
  ok w -> (forall sid, read_session = Some sid -> sid ∈ w_pending w) -> ce_id execution ∉ w_retained w ->
  (forall s, s ∈ ce_results execution -> rs_id s ∉ dkeys (rg_results (w_reg w))) ->
  rg_results h = foldl retain (rg_results (w_reg w)) results ->
  rg_sessions h = rg_sessions (w_reg w) ++ match read_session with Some sid => [(ce_id execution, active sid)] | None => [] end ->
  (forall sid, as_session (active sid) = sid) ->
  rg_cursors h = rg_cursors (w_reg w) -> rg_store h = rg_store (w_reg w) -> rg_released h = rg_released (w_reg w) ->
  ok (mk_world h (w_flights w) (w_opened w) (filter (fun x => Some x <> read_session) (w_pending w)) (ce_id execution :: w_retained w) (w_delivered w)).
Proof.
  intros Hok Hpend Hnew Hfresh Hres Hses Hact Hcur Hst Hrel. set (v := mk_world _ _ _ _ _ _). pose proof (wo_tables _ _ _ Hok) as Ht.
  pose proof (wo_retained _ _ _ Hok) as [Hre1 Hre2].
  assert (forall id, id ∈ dkeys (rg_results (w_reg w)) -> dget id (rg_results h) = dget id (rg_results (w_reg w))) as Hold
    by (intros id Hid; rewrite Hres; apply retained_old; intros s Hs Heq; subst; by apply (Hfresh s)).
  assert (forall id r, dget id (rg_results h) = Some r -> dget id (rg_results (w_reg w)) = Some r \/
    id ∉ dkeys (rg_results (w_reg w)) /\ retained_result id r) as Hcase.
  { intros id r Hr. pose proof Hr as Hr0. rewrite Hres in Hr. destruct (retained_from _ _ _ _ Hr) as [?|(s & q & Hs & -> & ->)]; [by left|right].
    split; [|by exists s, q]. apply Hfresh. by apply dict_by_Some in Hs as [? _]. }
  assert (ce_id execution ∉ dkeys (rg_sessions (w_reg w))) as Hne by (intros Hin; by apply Hnew, Hre2).
  assert (forall e, e <> ce_id execution -> dget e (rg_sessions h) = dget e (rg_sessions (w_reg w))) as Hsold
    by (intros e Hd; rewrite Hses; destruct read_session; [by apply dget_snoc_ne|by rewrite app_nil_r]).
  assert (forall sid, read_session = Some sid -> dget (ce_id execution) (rg_sessions h) = Some (active sid)) as Hsnew
    by (intros sid E; rewrite Hses, E; by apply dget_snoc_eq).
  assert (forall e a, dget e (rg_sessions (w_reg w)) = Some a -> Some (as_session a) <> read_session) as Hapart.
  { intros e a Ha Heq. destruct (wo_sessions _ _ _ Hok _ _ Ha) as (_ & _ & Hn). by apply Hn, Hpend. }
  assert (forall id r sid, dget id (rg_results (w_reg w)) = Some r -> tr_read_session r = Some sid -> read_session <> Some sid) as Hapart'.
  { intros id r sid Hr Hs Heq. destruct (tb_held _ Ht _ _ _ Hr Hs) as (a & Ha & <-). by apply (Hapart _ _ Ha). }
  assert (forall e a, dget e (rg_sessions h) = Some a -> dget e (rg_sessions (w_reg w)) = Some a \/ Some (as_session a) = read_session /\ e = ce_id execution) as Hsess.
  { intros e a Ha. destruct (decide (e = ce_id execution)) as [->|He]; [|left; by rewrite <-Hsold]. right. destruct read_session as [sid|] eqn:E.
    - rewrite (Hsnew sid) in Ha by done. injection Ha as <-. by rewrite Hact.
    - rewrite Hses, app_nil_r in Ha. destruct Hne. apply dget_is_Some. eauto. }
  split; cbn [v w_reg w_flights w_opened w_pending w_retained w_delivered]; rewrite ?Hrel, ?Hst; try apply Hok.
  - split.
    + rewrite Hres. apply retained_wf, Ht.
    + rewrite Hses. destruct read_session; [|rewrite app_nil_r; apply Ht]. unfold dwf, dkeys. rewrite fmap_app. apply NoDup_app.
      split_and!; [apply Ht|intros x Hx Hx'%list_elem_of_singleton; by subst|apply NoDup_singleton].
    + intros id r Hr. destruct (Hcase _ _ Hr) as [?|[_ (s & q & _ & _ & ->)]]; [by apply (tb_counts _ Ht id)|done].
    + intros kv. rewrite Hcur. intros Hkv%(tb_cursors _ Ht). apply dget_is_Some. rewrite Hold by done. by apply dget_is_Some.
    + intros id r sid Hr Hs. destruct (Hcase _ _ Hr) as [Hr0|[_ (s & q & _ & _ & ->)]].
      * rewrite Hsold; [by eapply (tb_held _ Ht)|]. intros Heq. apply Hnew. rewrite <-Heq. by eapply Hre1.
      * simpl in *. exists (active sid). by rewrite (Hsnew sid).
    + rewrite Hses. destruct read_session as [sid|] eqn:E; [|rewrite app_nil_r; apply Ht]. rewrite fmap_app. apply NoDup_app.
      split_and!; [apply Ht| |apply NoDup_singleton]. intros x ([e a] & -> & Hin)%list_elem_of_fmap Hx%list_elem_of_singleton.
      simpl in Hx. apply dget_elem_wf in Hin; [|apply Ht]. apply (Hapart e a); [done|]. by rewrite Hx, Hact.
  - intros id r Hr. destruct (Hcase _ _ Hr) as [Hr0|[Hid (s & q & _ & _ & ->)]]; [by apply (wo_leases _ _ _ Hok)|]. simpl.
    unfold leases. rewrite count_none; [done|]. intros f Hf <-. destruct (wo_flights _ _ _ Hok _ Hf) as (r & Hr0 & _).
    apply Hid, dget_is_Some. eauto.
  - intros f Hf. destruct (wo_flights _ _ _ Hok _ Hf) as (r & Hr & Hrest). exists r. cbn [v w_reg]. rewrite Hold; [done|]. apply dget_is_Some. eauto.
  - intros e a Ha. destruct (Hsess _ _ Ha) as [Ha0|[Heq ->]].
    + destruct (wo_sessions _ _ _ Hok _ _ Ha0) as (? & ? & ?). rewrite list_elem_of_filter. tauto.
    + destruct (wo_pending _ _ _ Hok (as_session a)) as (H1 & s & H2 & _); [by apply Hpend|]. split_and!; [apply dget_is_Some; eauto|done|].
      rewrite list_elem_of_filter. tauto.
  - intros sid [_ Hin]%list_elem_of_filter. by apply (wo_pending _ _ _ Hok).
  - intros sid Ho. rewrite list_elem_of_filter. destruct (decide (Some sid = read_session)) as [Heq|Hn].
    + right; right. exists (ce_id execution), (active sid). by rewrite (Hsnew sid), Hact.
    + destruct (wo_opened _ _ _ Hok _ Ho) as [?|[?|(e & a & Ha & Heq)]]; [tauto|tauto|]. right; right. exists e, a.
      rewrite Hsold; [done|]. intros ->. apply Hne, dget_is_Some. eauto.
  - split.
    + intros id r Hr. rewrite elem_of_cons. destruct (Hcase _ _ Hr) as [Hr0|[_ (s & q & _ & _ & ->)]]; [right; by eapply Hre1|by left].
    + intros e [a Ha]%dget_is_Some. rewrite elem_of_cons. destruct (Hsess _ _ Ha) as [Ha0|[_ ->]]; [right|by left].
      apply Hre2, dget_is_Some. eauto.
  - intros id1 r1 id2 r2 Hr1 Hr2 Hsome Hsame Hidx.
    destruct (Hcase _ _ Hr1) as [H1|[_ (s1 & q1 & Hs1 & -> & ->)]], (Hcase _ _ Hr2) as [H2|[_ (s2 & q2 & Hs2 & -> & ->)]]; simpl in *.
    + by eapply (wo_index _ _ _ Hok).
    + destruct read_session as [sid|]; [|by rewrite Hsame in Hsome; destruct Hsome]. by destruct (Hapart' _ _ _ H1 Hsame).
    + destruct read_session as [sid|]; [|by destruct Hsome]. by destruct (Hapart' _ _ sid H2).
    + unfold summary_of in *. rewrite Hidx in Hs1. congruence.
  - intros id r sid Hr Hs.
    assert (forall x i n more, at_position convert rows_of w x i n more -> at_position convert rows_of v x i n more) as Hat.
    { intros x i n more. apply (at_position_keep _ _ (fun _ => False)); [|tauto|done|done]. cbn [v w_reg]. rewrite Hst. apply pages_as_refl. }
    destruct (Hcase _ _ Hr) as [Hr0|[Hid (s & q & _ & Hrs & ->)]].
    + apply (paging_keep _ _ w); [by apply (wo_paging _ _ _ Hok)|cbn [v w_reg]; by rewrite Hcur|done|]. intros i n more. apply Hat.
    + cbn [transient tr_read_session] in Hs. destruct (wo_pending _ _ _ Hok sid) as (_ & s0 & Ho & Hst0 & Hnew0); [by apply Hpend|].
      assert (forall kv, kv ∈ rg_cursors (w_reg w) -> kv.2.1.1 <> id) as Hnc by (intros kv Hkv <-; by apply Hid, (tb_cursors _ Ht)).
      assert (forall f, f ∈ w_flights w -> fl_result_id f <> id) as Hnf.
      { intros f Hf <-. destruct (wo_flights _ _ _ Hok _ Hf) as (r & Hr0 & _). apply Hid, dget_is_Some. eauto. }
      assert (forall f, f ∈ w_flights w -> reads id f = false) as Hnr.
      { intros f Hf. unfold reads. rewrite bool_decide_false by (by apply Hnf). by rewrite andb_false_r. }
      split; cbn [v w_reg w_flights].
      * unfold rights. rewrite Hcur, (count_none _ (rg_cursors _)) by done.
        rewrite count_none; [simpl; lia|]. intros f Hf. by rewrite (Hnr f Hf).
      * intros _ x reader. cbn [v w_reg transient tr_query]. rewrite Hst. intros Hx Hrd. assert (x = s0) as -> by congruence.
        exists s0, reader. split_and!; [done|done|]. assert (delivered v sid (qr_statement_index q) = []) as ->.
        { change (delivered v sid (qr_statement_index q)) with (delivered w sid (qr_statement_index q)).
          destruct (delivered w sid (qr_statement_index q)) eqn:Hd; [done|].
          destruct (wo_fresh _ _ _ Hok sid (qr_statement_index q)) as [_ Hn]; [by rewrite Hd|]. by destruct Hn; apply Hpend. }
        unfold reader_at. destruct (rd_cursor reader) as [c|]; [|done]. split_and!; [by eapply Hnew0|done|exists []; by split|done].
      * intros kv. rewrite Hcur. intros Hkv Heq. by destruct (Hnc kv).
      * intros f n more Hf Hre. by rewrite Hnr in Hre.
  - intros x i Hd. destruct (wo_fresh _ _ _ Hok x i Hd) as [? Hn]. split; [done|]. intros [_ ?]%list_elem_of_filter. done.
Qed.
End retain.

(** Nothing of the execution is leased or has a cursor. *)
Definition unread (e : string) (g : @Registry raw cursor) : Prop :=
  (forall id r, dget id (rg_results g) = Some r -> tr_execution_id r = e -> tr_active_exports r = 0%Z) /\
  (forall kv r, kv ∈ rg_cursors g -> dget kv.2.1.1 (rg_results g) = Some r -> tr_execution_id r <> e).

(** A new session gives way, or others do. *)
Lemma shrink_spec fuel e a (g : @Registry raw cursor) :
  tables_ok g -> dget e (rg_sessions g) = Some a -> unread e g -> length (rg_sessions g) <= S maximum -> length (rg_sessions g) <= fuel ->
  let out := shrink maximum fuel e (as_session a) g in
  shrunk g out.1 /\ length (rg_sessions out.1) <= maximum.
Proof.
  revert g. induction fuel as [|fuel IH]; intros g Hok He [Hun Huc] Hmax Hfuel; simpl; (case_bool_decide; [split; [by apply shrunk_refl|done]|]); [lia|].
  destruct (candidate g _) as [[e' a']|] eqn:Hc.
  - apply candidate_spec in Hc as (He' & Hev & Hin); [|apply Hok|apply sublist_filter]. apply list_elem_of_filter in Hin as [Hne _]. simpl in Hne.
    pose proof (evict_shrunk e' a' g Hok He' Hev) as Hsh. pose proof (length_dpop _ _ _ (tb_sessions _ Hok) He') as Hlen.
    destruct (IH (evict_read_session e' a' (pop_session e' g))) as [Hs Hl].
    + by eapply shrunk_tables.
    + by rewrite evict_sessions, dget_dpop, decide_False.
    + split; [intros id r Hr; by eapply Hun, (sh_results _ _ Hsh)|]. intros kv r Hkv Hr. eapply Huc; [|by apply (sh_results _ _ Hsh)].
      eapply elem_of_submseteq; [exact Hkv|]. apply sublist_submseteq, Hsh.
    + rewrite evict_sessions. lia.
    + rewrite evict_sessions. lia.
    + split; [by eapply shrunk_trans|done].
  - set (g2 := with_results _ _). pose proof (release_frame (as_session a) g2) as (H1 & H2 & H3 & H4 & H5 & H6). cbn [fst].
    set (h := release_session (as_session a) g2) in *. pose proof (length_dpop _ _ _ (tb_sessions _ Hok) He) as Hlen.
    assert (rg_results h = filter (fun kv => tr_execution_id kv.2 <> e) (rg_results g)) as E1 by exact H1.
    assert (rg_sessions h = dpop e (rg_sessions g)) as E4 by exact H4. split; [|rewrite E4; lia].
    apply (shrunk_drop g h e a); try done; rewrite ?E1; try exact H2.
    + apply sublist_filter.
    + intros id r Hr Hn. apply dget_filter_kept; [apply Hok|done|]. simpl. intros Heq. by apply Hn, (Hun id).
    + intros id r Hr _. apply dget_Some_elem, list_elem_of_filter in Hr as [? _]. done.
    + by rewrite H2.
    + intros kv. rewrite H2. intros Hkv. rewrite E1. pose proof (tb_cursors _ Hok _ Hkv) as [r Hr]%dget_is_Some. apply dget_is_Some. exists r.
      apply dget_filter_kept; [apply Hok|done|]. simpl. by eapply Huc.
Qed.

Lemma ok_retain w now record execution results expires read_session :
  ok w -> length (rg_sessions (w_reg w)) <= maximum ->
  (forall sid, read_session = Some sid -> sid ∈ w_pending w) -> ce_id execution ∉ w_retained w ->
  (forall s, s ∈ ce_results execution -> rs_id s ∉ dkeys (rg_results (w_reg w))) ->
  let h := (retain_results maximum now record execution results expires read_session (w_reg w)).1 in
  ok (mk_world h (w_flights w) (w_opened w) (filter (fun x => Some x <> read_session) (w_pending w)) (ce_id execution :: w_retained w) (w_delivered w)) /\
  length (rg_sessions h) <= maximum.
Proof.
  intros Hok0 Hmax Hpend Hnew Hfresh. cbv zeta. unfold retain_results. pose proof (purge_shrunk now (w_reg w) (wo_tables _ _ _ Hok0)) as Hp.
  pose proof (ok_purge w now Hok0) as Hok. set (g := purge_transient_results now (w_reg w)) in *.
  assert (length (rg_sessions g) <= maximum) as Hlen by (etransitivity; [apply sublist_length, Hp|done]).
  assert (forall s, s ∈ ce_results execution -> rs_id s ∉ dkeys (rg_results g)) as Hfresh'.
  { intros s Hs [r Hr]%dget_is_Some. apply (Hfresh s Hs), dget_is_Some. exists r. by apply (sh_results _ _ Hp). }
  set (g1 := if bool_decide (ce_id execution ∈ _) then _ else g). set (g2 := if bool_decide (length _ = 0) then _ else g1).
  assert (exists protected, g2 = with_protected protected g) as [protected ->].
  { unfold g2, g1. clear. case_bool_decide; case_bool_decide; unfold unprotect; try (by eexists). exists (rg_protected g). by destruct g. }
  pose proof (ok_protected (with_reg g w) protected Hok) as Hok2.
  set (active := fun sid => {| as_owner_id := cer_owner_id record; as_workspace_id := ce_workspace_id execution;
     as_connection_id := tg_connection_id (cer_target record); as_connection_revision := tg_connection_revision (cer_target record); as_session := sid |}).
  assert (ce_id execution ∉ dkeys (rg_sessions g)) as Hne by (intros Hin; by apply Hnew, (wo_retained _ _ _ Hok)).
  pose proof (fun h => ok_retained record execution expires read_session (with_reg (with_protected protected g) w) h results active Hok2 Hpend Hnew Hfresh') as Hret.
  destruct read_session as [sid|]; [|split; [|done]; apply Hret; try done; by rewrite app_nil_r].
  set (g3 := with_sessions _ _). specialize (Hret g3). cbn [with_reg w_flights w_opened w_pending w_retained w_delivered] in Hret.
  assert (ok (mk_world g3 (w_flights w) (w_opened w) (filter (fun x => Some x <> Some sid) (w_pending w)) (ce_id execution :: w_retained w) (w_delivered w))) as Hok3.
  { apply Hret; try done. unfold g3. cbn [with_sessions with_results with_protected rg_sessions with_reg w_reg]. by rewrite dpop_absent. }
  assert (rg_sessions g3 = rg_sessions g ++ [(ce_id execution, active sid)]) as Hs3
    by (unfold g3; cbn [with_sessions with_results with_protected rg_sessions]; by rewrite dpop_absent).
  destruct (shrink_spec (length (rg_sessions g3)) (ce_id execution) (active sid) g3) as [Hsh Hbound]; [apply Hok3| | | |done|].
  - rewrite Hs3. by apply dget_snoc_eq.
  - assert (forall id r, dget id (rg_results g) = Some r -> tr_execution_id r <> ce_id execution) as Hold.
    { intros id r Hr Heq. apply Hnew. rewrite <-Heq. apply (proj1 (wo_retained _ _ _ Hok) id r Hr). }
    split.
    + intros id r Hr Heq. destruct (retained_from _ _ _ _ _ _ _ _ Hr) as [Hr0|(s & q & _ & _ & ->)]; [|done]. by destruct (Hold _ _ Hr0).
    + intros kv r Hkv Hr. pose proof (tb_cursors _ (wo_tables _ _ _ Hok) kv Hkv) as Hin. apply dget_is_Some in Hin as [r0 Hr0].
      assert (dget kv.2.1.1 (rg_results g3) = Some r0) as Hr1.
      { etransitivity; [|exact Hr0]. apply (retained_old record execution expires (Some sid) results). intros s Hs Heq. apply (Hfresh' s Hs). rewrite Heq.
        apply dget_is_Some. eauto. }
      assert (r = r0) as -> by congruence. by eapply Hold.
  - rewrite Hs3, length_app. simpl. lia.
  - split; [|done]. apply (ok_shrunk _ _ (mk_world g3 _ _ _ _ _) _ Hok3 Hsh).
Qed.
End leases.
