(* ===== verification/ConsoleReadersTheorems.v ===== *)
(** * What readers of results are promised

    In every interleaving of requests: sessions in use stay open, sessions are bounded in
    number and none is forgotten, and pages hand out each row of a result once. *)

From Stdlib Require Import Ascii String.
From stdpp Require Import relations.
From S2P Require Import Prelude Json PyString DesignModels ConsoleStore ConsoleSession ConsoleResults ConsoleReaders ConsoleReadersSteps.
Open Scope string_scope.
Open Scope list_scope.

#[local] Arguments on_session : simpl never.
#[local] Arguments release_session : simpl never.

Section theorems.
Context {raw cursor : Type}.
Variable convert : raw -> result (Z * Z) (list json).
Variable row_bytes : list json -> Z.
Variable fetchmany : cursor -> nat -> cursor * result (option string * option string) (list raw).
Variable open_cursor : string -> Z -> result (option string * option string) cursor.
Variable page_memory_bytes : Z.
Variables (maximum per_identity : nat) (row_page_size : Z).
Variable rows_of : cursor -> list raw.

Abbreviation step := (reader_step convert row_bytes fetchmany open_cursor page_memory_bytes maximum per_identity row_page_size).
Abbreviation ok := (world_ok convert rows_of).

(** ** The number of sessions *)

Lemma unreferenced_sessions executions (g : @Registry raw cursor) : length (rg_sessions (close_unreferenced executions g)) <= length (rg_sessions g).
Proof.
  revert g. induction executions as [|e rest IH]; intros g; simpl; [done|]. case_bool_decide; [apply IH|].
  destruct (dget e (rg_sessions g)) as [a|]; [|apply IH]. etransitivity; [apply IH|].
  pose proof (release_frame (as_session a) (pop_session e g)) as (_ & _ & _ & H4 & _). cbn [unprotect with_protected rg_sessions]. rewrite H4.
  apply length_filter.
Qed.

Lemma purge_sessions now (g : @Registry raw cursor) : length (rg_sessions (purge_transient_results now g)) <= length (rg_sessions g).
Proof. unfold purge_transient_results. etransitivity; [apply unreferenced_sessions|done]. Qed.

Lemma on_session_sessions {A} sid (m : method ReadSession session_error A) (g : @Registry raw cursor) : rg_sessions (on_session sid m g).1 = rg_sessions g.
Proof. pose proof (on_session_frame sid m g) as (_ & _ & _ & H & _). done. Qed.

Lemma page_fetch_sessions f (g : @Registry raw cursor) :
  rg_sessions (page_fetch convert row_bytes fetchmany open_cursor page_memory_bytes f g).1.1 = rg_sessions g.
Proof.
  unfold page_fetch, page_rows. destruct (fl_session f) as [sid|]; [|done].
  pose proof (on_session_sessions sid (session_page convert row_bytes fetchmany open_cursor page_memory_bytes (qr_statement_index (fl_query f))
    (fl_offset f) (fl_batch f)) g) as Hs. destruct (on_session _ _ g) as [h [rows|e]]; exact Hs.
Qed.

Lemma export_round_sessions f (g : @Registry raw cursor) :
  rg_sessions (export_round convert row_bytes fetchmany open_cursor page_memory_bytes f g).1.1 = rg_sessions g.
Proof.
  unfold export_round, export_rows. destruct (match qr_row_count (fl_query f) with Some _ => _ | None => _ end); [|done].
  destruct (fl_session f) as [sid|]; [|by destruct (row_slice _ _ _)].
  pose proof (on_session_sessions sid (export_page convert row_bytes fetchmany open_cursor page_memory_bytes (qr_statement_index (fl_query f))
    (fl_offset f) (fl_batch f)) g) as Hs. destruct (on_session _ _ g) as [h [[|row rows]|e]]; exact Hs.
Qed.

Lemma page_begin_sessions now owner execution result token page_size (g : @Registry raw cursor) :
  dwf (rg_sessions (purge_transient_results now g)) ->
  length (rg_sessions (page_begin row_page_size now owner execution result token page_size g).1) <= length (rg_sessions g).
Proof.
  intros Hwf. unfold page_begin. pose proof (purge_sessions now g) as Hp. set (h := purge_transient_results now g) in *.
  assert (forall x : @Registry raw cursor, rg_sessions x = rg_sessions h -> length (rg_sessions (move_to_end execution x)) <= length (rg_sessions g)) as Hm.
  { intros x Hx. rewrite <-Hx in Hwf. rewrite (Permutation_length (move_to_end_perm execution x Hwf)). by rewrite Hx. }
  destruct (dget result (rg_results h)) as [r|]; [|done]. destruct (_ || _ || _); [done|]. destruct (negb _); [done|].
  destruct token as [c|].
  - destruct (dget c (rg_cursors h)) as [[[value offset] expires]|]; [|done]. destruct (_ || _); [done|]. by apply Hm.
  - case_bool_decide; [destruct (tr_first_page_requested r); [done|]|]; by apply Hm.
Qed.

Section fetching.
Hypothesis fetch_rows : forall c n c' batch, fetchmany c n = (c', Ok batch) ->
  batch = take n (rows_of c) /\ rows_of c' = drop n (rows_of c).
Hypothesis Hmaximum : 0 < maximum.
Hypothesis Hper : 0 < per_identity.

Definition bounded (w : @World raw cursor) : Prop := ok w /\ length (rg_sessions (w_reg w)) <= maximum.

Lemma step_bounded w v : bounded w -> step w v -> bounded v.
Proof.
  intros [Hok Hlen] Hstep. pose proof (wo_tables _ _ _ Hok) as Ht.
  assert (forall h, shrunk (w_reg w) h -> bounded (with_reg h w)) as Hshrunk.
  { intros h Hh. split; [by apply ok_shrunk|]. etransitivity; [apply sublist_length, (sh_sessions _ _ Hh)|done]. }
  destruct Hstep as [now expires e|e|now target|now connection revision global|sid s Hf Hn|sid Hp|now record execution results expires rs Hp Hr Hf
    |now owner e result token size out|before f after Hfs Hex Hst out|before f after Hfs|before f after token Hfs Hex|before f after now Hfs Hex
    |now owner ws e result out|before f after Hfs Hex Hst out|before f after now Hfs Hex|e result|e].
  - split.
    + apply (ok_protected _ _ (with_reg _ w)), (ok_purge _ _ w now Hok).
    + cbn [w_reg]. etransitivity; [apply (purge_sessions now (w_reg w))|done].
  - split; [by apply ok_protected|done].
  - apply Hshrunk. destruct (make_read_session_capacity maximum per_identity now target (w_reg w)) as [h out] eqn:Hc.
    by apply (capacity_spec maximum per_identity Hmaximum Hper now target (w_reg w) h out).
  - by apply Hshrunk, reclaim_shrunk.
  - split; [by apply ok_open|done].
  - split; [by apply ok_abandon|]. pose proof (release_frame sid (w_reg w)) as (_ & _ & _ & H & _). cbn [w_reg]. by rewrite H.
  - by apply ok_retain.
  - split; [by apply ok_page_begin|]. etransitivity; [|exact Hlen]. apply page_begin_sessions. eapply sublist_dwf, (purge_shrunk now _ Ht). apply Ht.
  - split; [by apply ok_page_fetch|]. cbn [w_reg]. unfold out. by rewrite page_fetch_sessions.
  - split; [by apply ok_failed|]. cbn [w_reg]. unfold request_failed. destruct (fl_stage f) as [| |err|]; try done. by destruct (ends_results err).
  - split; [by apply ok_page_publish|]. cbn [w_reg]. unfold page_publish. destruct (fl_stage f) as [|next [|]| |]; try done.
    destruct (dget _ _) as [r|]; [|done]. by destruct (tr_pending_close r).
  - split; [by apply (ok_page_release _ _ w before f after)|]. cbn [w_reg]. unfold page_release. etransitivity; [apply purge_sessions|].
    by destruct (dget (fl_result_id f) _).
  - split; [by apply ok_export_begin|]. cbn [w_reg]. unfold out, export_begin. etransitivity; [|exact Hlen].
    destruct (dget result _) as [r|]; [|apply purge_sessions]. destruct (_ || _ || _ || _); apply purge_sessions.
  - split; [by apply ok_export_round|]. cbn [w_reg]. unfold out. by rewrite export_round_sessions.
  - split; [by apply (ok_export_end _ _ w before f after)|]. cbn [w_reg]. unfold export_end. etransitivity; [apply purge_sessions|].
    by destruct (dget (fl_result_id f) _).
  - split; [by apply ok_close|]. cbn [w_reg]. unfold close_transient. set (g2 := with_cursors _ _).
    assert (length (rg_sessions (close_unreferenced_read_sessions g2)) <= maximum) as Hg.
    { etransitivity; [apply unreferenced_sessions|]. unfold g2. destruct (dget result _) as [r|]; [|done]. by case_bool_decide. }
    by destruct (existsb _ _).
  - split; [by apply ok_cancel|]. cbn [w_reg]. unfold cancel_transient. destruct (dget e _) as [a|]; [|done]. by rewrite on_session_sessions.
Qed.

Lemma empty_bounded : bounded empty_world.
Proof.
  split; [|simpl; lia].
  split; try done; simpl; try (by intros ? ?%not_elem_of_nil).
  - split; try done; simpl; try apply NoDup_nil_2. by intros kv ?%not_elem_of_nil.
Qed.

Lemma reachable_bounded w : rtc step empty_world w -> bounded w.
Proof.
  generalize empty_bounded. intros He Hrun. induction Hrun as [w|w v x Hs _ IH]; [done|]. apply IH. by eapply step_bounded.
Qed.

(** C10. Whatever requests do and in whatever order their steps come, the console keeps at most
    the configured number of read sessions; a session that a page request or an export is
    reading stays registered and open until the request gives its lease back; and every
    session ever opened is still with the execution that opened it, in the table, or closed:
    none is forgotten. *)
Theorem read_sessions_accounted_for w :
  rtc step empty_world w ->
  length (rg_sessions (w_reg w)) <= maximum /\
  (forall f sid, f ∈ w_flights w -> fl_session f = Some sid ->
     (exists a, dget (fl_execution_id f) (rg_sessions (w_reg w)) = Some a /\ as_session a = sid) /\ sid ∉ rg_released (w_reg w)) /\
  (forall sid, sid ∈ dkeys (w_opened w) -> sid ∈ w_pending w \/ sid ∈ rg_released (w_reg w) \/
     exists e a, dget e (rg_sessions (w_reg w)) = Some a /\ as_session a = sid).
Proof.
  intros Hrun. apply reachable_bounded in Hrun as [Hok Hlen]. split_and!; [done| |apply (wo_opened _ _ _ Hok)].
  intros f sid Hf Hs. destruct (wo_flights _ _ _ Hok _ Hf) as (r & Hr & E1 & E2 & E3). rewrite Hs in E1.
  destruct (tb_held _ (wo_tables _ _ _ Hok) _ _ _ Hr E1) as (a & Ha & Heq). rewrite E3 in Ha. split; [eauto|].
  destruct (wo_sessions _ _ _ Hok _ _ Ha) as (_ & Hn & _). by rewrite <-Heq.
Qed.

(** C9. Pages hand out every row once, in order: for a statement read through a cursor, the
    rows handed out so far are the first rows of its result; a result has at most one page
    cursor, and it continues where the rows handed out end; and when a page of a result of
    unknown length has no successor, all its rows were handed out. *)
Theorem pages_hand_out_each_row_once w id r sid i s0 reader0 c0 :
  rtc step empty_world w -> dget id (rg_results (w_reg w)) = Some r -> tr_read_session r = Some sid -> qr_statement_index (tr_query r) = i ->
  dget sid (w_opened w) = Some s0 -> dget i (ss_readers s0) = Some reader0 -> rd_cursor reader0 = Some c0 ->
  let all := rd_pending reader0 ++ rows_of c0 in
  (exists raws rest, all = raws ++ rest /\ Forall2 (fun x j => convert x = Ok j) raws (delivered w sid i)) /\
  (forall k1 k2 o1 o2 e1 e2, (k1, (id, o1, e1)) ∈ rg_cursors (w_reg w) -> (k2, (id, o2, e2)) ∈ rg_cursors (w_reg w) -> (k1, o1, e1) = (k2, o2, e2)) /\
  (forall k offset expires s reader, (k, (id, offset, expires)) ∈ rg_cursors (w_reg w) ->
     dget sid (rg_store (w_reg w)) = Some s -> dget i (ss_readers s) = Some reader ->
     rd_position reader = offset /\ offset = Z.of_nat (length (delivered w sid i))) /\
  (forall f next s reader, f ∈ w_flights w -> fl_result_id f = id -> fl_export f = false -> fl_stage f = Fetched next false ->
     qr_row_count (tr_query r) = None -> dget sid (rg_store (w_reg w)) = Some s -> dget i (ss_readers s) = Some reader ->
     Forall2 (fun x j => convert x = Ok j) all (delivered w sid i)).
Proof.
  intros Hrun Hr Hs <- Ho Hr0 Hc0. apply reachable_bounded in Hrun as [Hok _]. pose proof (wo_paging _ _ _ Hok _ _ _ Hr Hs) as Hpw.
  split_and!.
  - destruct (wo_delivered _ _ _ Hok _ _ _ _ _ Ho Hr0 Hc0) as (raws & rest & ? & ?). by exists raws, rest.
  - intros k1 k2 o1 o2 e1 e2 H1 H2. pose proof (pg_rights _ _ _ _ _ _ Hpw) as Hri. unfold rights in Hri.
    assert (forall k o e, (k, (id, o, e)) ∈ rg_cursors (w_reg w) -> (k, (id, o, e)) ∈ filter (fun kv => kv.2.1.1 = id) (rg_cursors (w_reg w))) as Hin
      by (intros k o e Hk; by apply list_elem_of_filter).
    apply Hin in H1, H2. destruct (filter _ (rg_cursors _)) as [|x [|y l]]; [by apply not_elem_of_nil in H1| |simpl in Hri; lia].
    apply list_elem_of_singleton in H1, H2. congruence.
  - intros k offset expires s reader Hk Hst Hrd. destruct (pg_cursor _ _ _ _ _ _ Hpw _ Hk eq_refl s reader Hst Hrd) as (s1 & reader1 & E1 & E2 & Hra).
    assert (reader1 = reader0) as -> by congruence. unfold reader_at in Hra. rewrite Hc0 in Hra. destruct (rd_cursor reader); [|done]. naive_solver.
  - intros f next s reader Hf Hid Hex Hst Hcount Hstore Hrd. destruct (wo_flights _ _ _ Hok _ Hf) as (x & Hx & _ & Hq & _).
    assert (x = r) as -> by congruence.
    assert (reads id f = true) as Hre by (unfold reads; by rewrite Hex, Hst, bool_decide_true).
    destruct (pg_flight _ _ _ _ _ _ Hpw f next false Hf Hre) with s reader as (s1 & reader1 & E1 & E2 & Hra); [|done|done|].
    { unfold flight_position. rewrite Hst, <-Hq, Hcount. done. }
    assert (reader1 = reader0) as -> by congruence. unfold reader_at in Hra. rewrite Hc0 in Hra. destruct (rd_cursor reader); [|done].
    destruct Hra as (_ & _ & (raws & Hall & Heq) & Hend). rewrite Heq, Hend, app_nil_r; done.
Qed.

(** Before an execution opens a session, room is made without touching a session in use:
    when it succeeds, both limits leave room for one more session; when it fails, it names the
    limit reached, and every session that counts against it is protected or leased.  Every
    lease, and the session it reads, outlives the call. *)
Theorem room_is_made_or_all_in_use w now target h out :
  rtc step empty_world w -> make_read_session_capacity maximum per_identity now target (w_reg w) = (h, out) ->
  match out with
  | Ok _ => length (rg_sessions h) < maximum /\ length (filter (fun kv => counted false target kv.2 = true) (rg_sessions h)) < per_identity
  | Err e => exists (global : bool) limit name observed, e = ResultsCapacity name (Z.of_nat limit) observed /\
      limit = (if global then maximum else per_identity) /\
      limit <= length (filter (fun kv => counted global target kv.2 = true) (rg_sessions h)) /\
      forall k a, dget k (rg_sessions h) = Some a -> counted global target a = true ->
        k ∈ dkeys (rg_protected h) \/ exists f, f ∈ w_flights w /\ fl_execution_id f = k
  end /\
  (forall f, f ∈ w_flights w -> dget (fl_result_id f) (rg_results h) = dget (fl_result_id f) (rg_results (w_reg w)) /\
     (is_Some (fl_session f) -> dget (fl_execution_id f) (rg_sessions h) = dget (fl_execution_id f) (rg_sessions (w_reg w)))).
Proof.
  intros Hrun Hc. apply reachable_bounded in Hrun as [Hok _]. pose proof (wo_tables _ _ _ Hok) as Ht.
  apply (capacity_spec maximum per_identity Hmaximum Hper) in Hc as [Hsh Hout]; [|done].
  pose proof (ok_shrunk _ _ w h Hok Hsh) as Hok'. split.
  - destruct out as [u|e]; [done|]. destruct Hout as (global & limit & name & observed & He & Hl & Hlen & Hev).
    exists global, limit, name, observed. split_and!; try done. intros k a Hk Hcount. specialize (Hev k a Hk Hcount). unfold evictable in Hev.
    apply andb_false_iff in Hev as [Hpr%negb_false_iff%bool_decide_eq_true|Hex%negb_false_iff]; [by left|right].
    apply existsb_exists in Hex as ([id r] & Hin%list_elem_of_In & [Hexec%bool_decide_eq_true Hpos%bool_decide_eq_true]%andb_true_iff).
    simpl in *. apply dget_elem_wf in Hin; [|apply (wo_tables _ _ _ Hok')].
    rewrite (wo_leases _ _ _ Hok' _ _ Hin) in Hpos. unfold leases in Hpos. cbn [with_reg w_flights] in Hpos.
    destruct (filter (fun f => fl_result_id f = id) (w_flights w)) as [|f l] eqn:Hf; [simpl in Hpos; lia|].
    assert (f ∈ filter (fun f => fl_result_id f = id) (w_flights w)) as [Hid Hfin]%list_elem_of_filter by (rewrite Hf; by left).
    exists f. split; [done|]. destruct (wo_flights _ _ _ Hok' f Hfin) as (x & Hx & _ & _ & <-). cbn [with_reg w_reg] in Hx. congruence.
  - intros f Hf. destruct (wo_flights _ _ _ Hok f Hf) as (r & Hr & E1 & _ & E3), (wo_flights _ _ _ Hok' f Hf) as (x & Hx & F1 & _ & F3).
    cbn [with_reg w_reg] in Hx. pose proof (sh_results _ _ Hsh _ _ Hx) as Hx0. split; [congruence|]. intros [sid Hs].
    rewrite <-F3. eapply (sh_held _ _ Hsh); [exact Hx|]. by rewrite F1.
Qed.
End fetching.

(** ** Exports *)

Section exporting.
Hypothesis fetch_rows : forall c n c' batch, fetchmany c n = (c', Ok batch) ->
  batch = take n (rows_of c) /\ rows_of c' = drop n (rows_of c).
Hypothesis fetch_total : forall c n, exists c' batch, fetchmany c n = (c', Ok batch).
Abbreviation stream := (export_stream convert row_bytes fetchmany open_cursor page_memory_bytes).
Abbreviation streams_from := (exports_from open_cursor rows_of).

Lemma stream_from fuel f (g : @Registry raw cursor) sid s reader rest :
  let i := qr_statement_index (fl_query f) in
  fl_stage f = Leased -> fl_session f = Some sid -> qr_row_count (fl_query f) = None -> (1 <= fl_batch f)%Z -> (0 <= fl_offset f)%Z ->
  dget sid (rg_store g) = Some s -> ss_closed s = false -> ss_cancelled s = false -> dget i (ss_readers s) = Some reader ->
  streams_from reader i (fl_offset f) rest -> Forall (fits convert row_bytes page_memory_bytes) rest -> length rest < fuel ->
  exists g' f' rows, stream fuel f g = (g', f', rows) /\ fl_stage f' = Ended /\ Forall2 (fun r j => convert r = Ok j) rest rows.
Proof.
  revert f g s reader rest. induction fuel as [|fuel IH]; intros f g s reader rest i Hst Hsid Hcount Hbatch Hoff Hs Hcl Hca Hr Hfrom Hfits Hfuel; [lia|].
  destruct (export_page_ok convert row_bytes fetchmany open_cursor page_memory_bytes rows_of fetch_rows fetch_total s i (fl_offset f) (fl_batch f) reader rest)
    as (s' & reader' & raws & rows & rest' & Hpage & Hcl' & Hca' & Hr' & -> & Hall & Hfrom' & Hempty); try done.
  cbn [export_stream]. rewrite Hst. unfold export_round. rewrite Hcount. unfold export_rows. rewrite Hsid. unfold on_session. rewrite Hs. unfold i in Hpage. rewrite Hpage.
  destruct rows as [|row rows].
  - apply Forall2_nil_inv_r in Hall as ->. rewrite (Hempty eq_refl). eexists _, (at_stage Ended f), []. split; [by destruct fuel|]. split; [done|constructor].
  - set (f1 := advance (length (row :: rows)) f). set (g1 := with_store _ g).
    apply Forall_app in Hfits as [_ Hfits]. pose proof (Forall2_length _ _ _ Hall) as Hlen. rewrite length_app in Hfuel. simpl in Hlen.
    destruct (IH f1 g1 s' reader' rest') as (g' & f' & more & Hrun & Hend & Hmore); try done.
    + cbn [f1 advance fl_offset]. lia.
    + cbn [g1 with_store rg_store]. apply dget_dset_eq.
    + lia.
    + rewrite Hrun. eexists _, _, _. split; [done|]. split; [done|]. by apply Forall2_app.
Qed.

End exporting.
End theorems.
