(* ===== verification/ConsoleExamples.v ===== *)
(** * The console at work

    Witnesses for [ConsoleTheorems] and [ConsoleReadersTheorems] on a sample execution, and the
    behaviours of the console that differ from what the code says of itself. *)

From Stdlib Require Import Ascii String.
From stdpp Require Import relations.
From S2P Require Import Prelude Json PyString DesignModels ConsoleStore ConsoleProps ConsoleTheorems ConsoleSession ConsoleResults ConsoleReaders ConsoleReadersSteps ConsoleReadersTheorems.
Open Scope string_scope.
Open Scope list_scope.

(** ** Receipts *)

Definition console_hex : string := "0123456789abcdef0123456789abcdef".
Definition console_target : ConsoleTarget :=
  {| tg_connection_id := "pg_" ++ console_hex; tg_connection_revision := 1; tg_database := "shop"; tg_namespace := "public"; tg_connection_owner_id := None |}.
Definition console_ws : string := "ws_" ++ console_hex.
Definition console_editor : string := "con_" ++ console_hex.
Definition console_id : string := "cex_" ++ console_hex.

Definition reserved_repo : ConsoleRepo :=
  (reserve console_hex "alice" (Some console_ws) console_editor (Some 1%Z) console_target ["SELECT 1"] 50 10 None None None InMemoryConsoleRepository).1.
Definition running_repo : ConsoleRepo := (claim "alice" console_id 11 reserved_repo).1.
Definition cancelling_repo : ConsoleRepo := (request_cancel "alice" console_id 12 running_repo).1.
Definition finished_repo : ConsoleRepo := (succeed (fun _ => console_hex) "alice" console_id [] 100 13 cancelling_repo).1.

Lemma console_reserved : rtc (console_step id) ([], InMemoryConsoleRepository) ([console_id], reserved_repo).
Proof. eapply rtc_l; [|apply rtc_refl]. apply (call_reserve id [] InMemoryConsoleRepository). apply not_elem_of_nil. Defined.

Lemma console_finished : rtc (console_step id) ([console_id], reserved_repo) ([console_id], finished_repo).
Proof.
  apply (rtc_l _ _ ([console_id], running_repo)); [apply (call_claim id [console_id] reserved_repo "alice" console_id 11)|].
  apply (rtc_l _ _ ([console_id], cancelling_repo)); [apply (call_request_cancel id [console_id] running_repo "alice" console_id 12)|].
  apply (rtc_l _ _ ([console_id], finished_repo)); [apply (call_succeed id [console_id] cancelling_repo (fun _ => console_hex) "alice" console_id [] 100 13)|apply rtc_refl].
Defined.

(** An execution that was cancelled while it ran. *)
Lemma console_stays_consistent_witness :
  console_inv id finished_repo /\ (status_of <$> dget console_id (cr_records finished_repo)) = Some CCancelled.
Proof.
  split; [|vm_compute; reflexivity]. apply (console_stays_consistent id [console_id]).
  etransitivity; [exact console_reserved|exact console_finished].
Defined.


(** The repository kept in memory lets an execution that has failed succeed afterwards; the
    one in PostgreSQL asks for a running execution. *)
Theorem failed_execution_revives :
  let failed := (fail "alice" console_id "lost" "The worker stopped" None false 12 running_repo).1 in
  let revived := (succeed (fun _ => console_hex) "alice" console_id [] 100 13 failed).1 in
  (status_of <$> dget console_id (cr_records failed)) = Some CFailed /\
  (status_of <$> dget console_id (cr_records revived)) = Some CSucceeded.
Proof. split; vm_compute; reflexivity. Qed.

Definition history_query (ran_at : Z) (sql : string) (r : ConsoleRepo) : ConsoleRepo := (record_history "alice" console_ws sql ran_at 3 r).1.
Definition three_queries : ConsoleRepo := history_query 3 "SELECT 3" (history_query 2 "SELECT 2" (history_query 1 "SELECT 1" InMemoryConsoleRepository)).

(** After the history was pruned, the query recorded next takes the place of the newest. *)
Theorem pruned_history_forgets_newest :
  let pruned := (prune_history 2 three_queries).1 in
  let next := (record_history "alice" console_ws "SELECT 4" 4 2 pruned).1 in
  (fun v => hq_sql v.2) <$> cr_history pruned = ["SELECT 3"; "SELECT 2"] /\
  (fun v => hq_sql v.2) <$> cr_history next = ["SELECT 2"; "SELECT 4"].
Proof. split; vm_compute; reflexivity. Qed.

(** ** Results *)

(** Rows are numbers, a cursor is the rows it has still to give. *)
Definition sample_convert (z : Z) : result (Z * Z) (list json) := Ok [JInt z].
Definition sample_bytes (row : list json) : Z := 10.
Definition sample_fetchmany (c : list Z) (n : nat) : list Z * result (option string * option string) (list Z) := (drop n c, Ok (take n c)).
Definition sample_cursor (statement : string) (i : Z) : result (option string * option string) (list Z) := Ok [1; 2; 3; 4; 5]%Z.

Lemma sample_fetch_rows c n c' batch : sample_fetchmany c n = (c', Ok batch) -> batch = take n c /\ c' = drop n c.
Proof. intros H. injection H as <- <-. done. Defined.

Definition sample_reader : @ReadCursor Z (list Z) :=
  {| rd_cursor := Some [1; 2; 3; 4; 5]%Z; rd_rows := []; rd_statement := Some "SELECT n FROM numbers"; rd_position := 0; rd_pending := [];
     rd_export_cursor := None; rd_export_position := 0; rd_export_pending := []; rd_fixed_row_memory_bytes := Some 256%Z |}.
Definition sample_session : @ReadSession Z (list Z) := {| ss_closed := false; ss_cancelled := false; ss_readers := [(0%Z, sample_reader)] |}.
Definition sample_query : ConsoleQueryResult :=
  {| qr_statement_index := 0; qr_command := "SELECT"; qr_columns := []; qr_rows := []; qr_truncated := false; qr_row_count := None; qr_replayable := true |}.
Definition sample_summary : ConsoleResultSummary :=
  {| rs_id := "res_1"; rs_statement_index := 0; rs_command := "SELECT"; rs_columns := []; rs_row_count := None; rs_has_more := true; rs_replayable := true |}.
Definition sample_execution : ConsoleExecution :=
  {| ce_id := "cex_1"; ce_revision := 3; ce_workspace_id := Some console_ws; ce_console_id := console_editor; ce_transaction_id := None;
     ce_status := CSucceeded; ce_completed_statement_indexes := [0%Z]; ce_results := [sample_summary]; ce_error_code := None; ce_error_message := None;
     ce_error_statement_index := None; ce_created_at := 1; ce_updated_at := 2 |}.
Definition sample_record : ConsoleExecutionRecord :=
  {| cer_owner_id := "alice"; cer_execution := sample_execution; cer_workspace_revision := Some 1%Z; cer_target := console_target;
     cer_statements := ["SELECT n FROM numbers"]; cer_page_size := 2; cer_backend_pid := None; cer_cancel_requested := false |}.

Abbreviation sample_step := (reader_step sample_convert sample_bytes sample_fetchmany sample_cursor 1000 2 1 100).
Abbreviation with_parts w g fs d := (mk_world g fs (w_opened w) (w_pending w) (w_retained w) d).

(** A session is opened and retained; a page is requested, read and its cursor issued. *)
Definition world_opened : @World Z (list Z) :=
  mk_world (with_store (dset "s1" sample_session []) empty_registry) [] [("s1", sample_session)] ["s1"] [] [].
Definition world_retained : World :=
  mk_world (retain_results 2 3 sample_record sample_execution [sample_query] 100 (Some "s1") (w_reg world_opened)).1 [] (w_opened world_opened)
    (filter (fun x => Some x <> Some "s1") ["s1"]) ["cex_1"] [].
Definition page_started := page_begin 100 4 "alice" "cex_1" "res_1" None None (w_reg world_retained).
Definition world_leased : World := with_parts world_retained page_started.1 (started page_started.2 ++ []) [].
Definition sample_flight : flight :=
  {| fl_export := false; fl_result_id := "res_1"; fl_execution_id := "cex_1"; fl_query := sample_query; fl_session := Some "s1"; fl_offset := 0;
     fl_batch := 2; fl_stage := Leased |}.
Definition page_read := page_fetch sample_convert sample_bytes sample_fetchmany sample_cursor 1000 sample_flight (w_reg world_leased).
Definition world_fetched : World := with_parts world_leased page_read.1.1 ([] ++ page_read.1.2 :: []) (w_delivered world_leased ++ handed sample_flight page_read.2).
Definition world_published : World :=
  with_parts world_fetched (page_publish "next" page_read.1.2 (w_reg world_fetched)).1 ([] ++ at_stage Ended page_read.1.2 :: []) (w_delivered world_fetched).

Lemma sample_run : rtc sample_step empty_world world_published.
Proof.
  apply (rtc_l _ _ world_opened); [apply (do_open _ _ _ _ _ _ _ _ empty_world "s1" sample_session); [apply not_elem_of_nil|]|].
  { intros i reader H. cbn [dget sample_session ss_readers] in H. destruct (decide (i = 0%Z)); [|done]. by injection H as <-. }
  apply (rtc_l _ _ world_retained); [apply (do_retain _ _ _ _ _ _ _ _ world_opened 3 sample_record sample_execution [sample_query] 100 (Some "s1"))|].
  { intros sid H. injection H as <-. apply list_elem_of_singleton. reflexivity. }
  { apply not_elem_of_nil. }
  { intros s _. apply not_elem_of_nil. }
  apply (rtc_l _ _ world_leased); [apply (do_page_begin _ _ _ _ _ _ _ _ world_retained 4 "alice" "cex_1" "res_1" None None)|].
  apply (rtc_l _ _ world_fetched); [apply (do_page_fetch _ _ _ _ _ _ _ _ world_leased [] sample_flight []); vm_compute; reflexivity|].
  apply (rtc_l _ _ world_published); [apply (do_page_publish _ _ _ _ _ _ _ _ world_fetched [] page_read.1.2 [] "next"); vm_compute; reflexivity|].
  apply rtc_refl.
Defined.

Lemma read_sessions_accounted_for_witness :
  length (rg_sessions (w_reg world_published)) = 1 /\
  (exists a, dget "cex_1" (rg_sessions (w_reg world_published)) = Some a /\ as_session a = "s1") /\ "s1" ∉ rg_released (w_reg world_published).
Proof.
  destruct (read_sessions_accounted_for sample_convert sample_bytes sample_fetchmany sample_cursor 1000 2 1 100 id sample_fetch_rows
    ltac:(lia) ltac:(lia) world_published sample_run) as (_ & Hf & _).
  split; [vm_compute; reflexivity|]. apply (Hf (at_stage Ended page_read.1.2) "s1"); [by left|vm_compute; reflexivity].
Defined.

Lemma pages_hand_out_each_row_once_witness :
  delivered world_published "s1" 0 = [[JInt 1]; [JInt 2]] /\
  exists raws rest, [1; 2; 3; 4; 5]%Z = raws ++ rest /\ Forall2 (fun x j => sample_convert x = Ok j) raws (delivered world_published "s1" 0).
Proof.
  split; [vm_compute; reflexivity|].
  destruct (dget "res_1" (rg_results (w_reg world_published))) as [r|] eqn:Hr; [|vm_compute in Hr; discriminate].
  destruct (pages_hand_out_each_row_once sample_convert sample_bytes sample_fetchmany sample_cursor 1000 2 1 100 id sample_fetch_rows
    ltac:(lia) ltac:(lia) world_published "res_1" r "s1" 0 sample_session sample_reader [1; 2; 3; 4; 5]%Z sample_run Hr) as (H & _).
  1-2: vm_compute in Hr; injection Hr as <-; reflexivity.
  1-3: reflexivity.
  exact H.
Defined.

Lemma room_is_made_or_all_in_use_witness :
  exists h, make_read_session_capacity 2 1 5 console_target (w_reg world_published) =
    (h, Err (ResultsCapacity "console.results.maximum_live_read_sessions_per_identity" 1 2)) /\
  (forall f, f ∈ w_flights world_published -> dget (fl_result_id f) (rg_results h) = dget (fl_result_id f) (rg_results (w_reg world_published))).
Proof.
  destruct (make_read_session_capacity 2 1 5 console_target (w_reg world_published)) as [h out] eqn:Hc. exists h.
  destruct (room_is_made_or_all_in_use sample_convert sample_bytes sample_fetchmany sample_cursor 1000 2 1 100 id sample_fetch_rows
    ltac:(lia) ltac:(lia) world_published 5 console_target h out sample_run Hc) as [_ Hkept].
  split; [|intros f Hf; by destruct (Hkept f Hf)]. apply (f_equal snd) in Hc. f_equal. simpl in Hc. rewrite <-Hc. vm_compute. reflexivity.
Defined.

(** ** Exports *)

Definition export_started := export_begin 4 "alice" (Some console_ws) "cex_1" "res_1" (w_reg world_retained).
Definition sample_export : flight :=
  {| fl_export := true; fl_result_id := "res_1"; fl_execution_id := "cex_1"; fl_query := sample_query; fl_session := Some "s1"; fl_offset := 0;
     fl_batch := 2; fl_stage := Leased |}.
Abbreviation sample_stream := (export_stream sample_convert sample_bytes sample_fetchmany sample_cursor 1000).

Lemma sample_fetch_total c n : exists c' batch, sample_fetchmany c n = (c', Ok batch).
Proof. by eexists _, _. Defined.


(** The cursor of exports is opened once: an export that follows another one starts where
    the first ended, is refused, and ends the results of the execution. The refusal is
    reported as PostgreSQL rejecting the query, because [PostgresQueryError] takes no message. *)
Theorem second_export_is_refused :
  let first := sample_stream 6 sample_export export_started.1 in
  let g := export_end 5 first.1.2 first.1.1 in
  let second := export_begin 6 "alice" (Some console_ws) "cex_1" "res_1" g in
  let refused := export_round sample_convert sample_bytes sample_fetchmany sample_cursor 1000 sample_export second.1 in
  first.2 = [[JInt 1]; [JInt 2]; [JInt 3]; [JInt 4]; [JInt 5]] /\
  second.2 = Ok sample_export /\
  refused.2 = Err (PostgresConsoleQueryError "PostgreSQL rejected the query" 0 None) /\
  (fun kv => tr_pending_close kv.2) <$> rg_results (request_failed refused.1.2 refused.1.1) = [true].
Proof. split_and!; vm_compute; reflexivity. Qed.
