(* ===== verification/ConsoleStatements.v ===== *)
(** * Scripts the console accepts

    [validate_read_only_statements] and [validate_transaction_statements] of
    [common/postgres/console/execution.py].

    - pglast is a parameter: [parse_script] gives the statements of a text with their offsets
      in characters, or [None] for [ParseError]; [render] is [RawStream()] of a node.
    - A node keeps what the code looks at.  [NOther] is a node of any other class.
    - A text is its UTF-8 bytes; [py_slice] counts characters, like a Python slice. *)

From stdpp Require Import pretty.
From Stdlib Require Import Ascii String.
From S2P Require Import Prelude Json PyString.
Open Scope string_scope.
Open Scope list_scope.

(** ** What pglast gives *)

Inductive transaction_kind :=
| TRANS_STMT_COMMIT | TRANS_STMT_ROLLBACK | TRANS_STMT_SAVEPOINT | TRANS_STMT_RELEASE | TRANS_STMT_ROLLBACK_TO
| TRANS_STMT_OTHER (name : string).

(** The argument of an option: a node with [sval], one with [ival], or neither. *)
Inductive option_arg :=
| ArgString (sval : string)
| ArgInteger (ival : Z)
| ArgOther.

Inductive console_node :=
| SelectStmt (into_clause : bool)
| VariableShowStmt
| ExplainStmt (options : list (string * option_arg)) (query : console_node)
| CopyStmt
| TransactionStmt (kind : transaction_kind) (chain : bool)
| NOther (class : string).

Record raw_stmt := {
  raw_node : console_node;
  stmt_location : nat;
  stmt_len : nat;
}.

Record ConsoleStatementValidationError := {
  sve_code : string;
  sve_message : string;
  sve_statement_index : nat;
  sve_limit : option nat;
  sve_observed : option nat;
}.

(** [ConsoleTransactionScript]. *)
Inductive terminal := ActionCommit | ActionRollback.
Record ConsoleTransactionScript := {
  cts_statements : list string;
  cts_terminal_action : option terminal;
}.

(** ** Slices *)

Definition continues (c : ascii) : bool := bool_decide (128 <= byte_of c < 192)%N.

Fixpoint py_drop (n : nat) (s : string) : string :=
  match s with
  | EmptyString => EmptyString
  | String c rest => if continues c then py_drop n rest else match n with O => s | S m => py_drop m rest end
  end.

Fixpoint py_take (n : nat) (s : string) : string :=
  match s with
  | EmptyString => EmptyString
  | String c rest => if continues c then String c (py_take n rest) else match n with O => EmptyString | S m => String c (py_take m rest) end
  end.

(** [s\[first:last\]] for [first <= last]. *)
Definition py_slice (first last : nat) (s : string) : string := py_take (last - first) (py_drop first s).

Section validation.
Variable parse_script : string -> option (list raw_stmt).
Variable render : console_node -> string.
Variable statement_limit : nat.

Abbreviation invalid code message index := (Err {| sve_code := code; sve_message := message; sve_statement_index := index; sve_limit := None; sve_observed := None |}).

Definition limit_hint : string := " Split a larger script into smaller runs or ask the administrator to raise console.maximum_statements_per_run.".

Definition submission_error (statements : list string) : result ConsoleStatementValidationError unit :=
  if bool_decide (length statements = 0) || bool_decide (statement_limit < length statements) then
    Err {| sve_code := "console_statement_limit";
           sve_message := ("Run between 1 and " ++ pretty statement_limit ++ " statements at a time." ++ limit_hint)%string;
           sve_statement_index := 0;
           sve_limit := if bool_decide (statement_limit < length statements) then Some statement_limit else None;
           sve_observed := if bool_decide (statement_limit < length statements) then Some (length statements) else None |}
  else Ok tt.

Definition too_many (index observed : nat) : ConsoleStatementValidationError :=
  {| sve_code := "console_statement_limit";
     sve_message := ("Run no more than " ++ pretty statement_limit ++ " statements at a time." ++ limit_hint)%string;
     sve_statement_index := index; sve_limit := Some statement_limit; sve_observed := Some observed |}.

(** The part both validators share: the statements of one submitted text. *)
Definition parsed_statements (submitted_index : nat) (text : string) : result ConsoleStatementValidationError (list raw_stmt) :=
  if bool_decide (text = "") then invalid "console_statement_empty" "SQL statements cannot be empty" submitted_index else
  match parse_script text with
  | None => invalid "console_statement_invalid" "PostgreSQL could not parse this statement" submitted_index
  | Some [] => invalid "console_statement_empty" "SQL statements cannot contain only comments" submitted_index
  | Some parsed => Ok parsed
  end.

(** ** Read-only scripts *)

Definition option_text (a : option_arg) : string :=
  match a with ArgString sval => py_lower sval | ArgInteger ival => pretty ival | ArgOther => "none" end.
Definition analyzes (option : string * option_arg) : bool :=
  bool_decide (option.1 = "analyze") && negb (bool_decide (option_text option.2 ∈ ["false"; "off"; "no"; "0"; "f"; "n"; "of"])).

Definition read_only_node (node : console_node) (index : nat) : result ConsoleStatementValidationError unit :=
  let executed (select : console_node) :=
    match select with
    | SelectStmt true => invalid "console_select_into_blocked" "Read-only Console does not allow SELECT INTO" index
    | SelectStmt false | VariableShowStmt => Ok tt
    | _ => invalid "console_statement_not_read_only" "EXPLAIN ANALYZE in read-only mode is limited to read-only queries" index
    end in
  match node with
  | SelectStmt _ | VariableShowStmt => executed node
  | ExplainStmt options query => if existsb analyzes options then executed query else Ok tt
  | _ => invalid "console_statement_not_read_only" "Read-only Console accepts SELECT, WITH, VALUES, EXPLAIN, and SHOW" index
  end.

(** [text\[raw.stmt_location:end\].strip()]. *)
Definition statement_text (text : string) (raw : raw_stmt) : string :=
  let last := if bool_decide (stmt_len raw = 0) then py_len text else stmt_location raw + stmt_len raw in
  py_strip (py_slice (stmt_location raw) last text).

Fixpoint read_only_parsed (text : string) (parsed : list raw_stmt) (validated : list string) : result ConsoleStatementValidationError (list string) :=
  match parsed with
  | [] => Ok validated
  | raw :: rest =>
      let statement_index := length validated in
      (let! _ := read_only_node (raw_node raw) statement_index in
       let validated := validated ++ [statement_text text raw] in
       if bool_decide (statement_limit < length validated) then Err (too_many statement_index (length validated))
       else read_only_parsed text rest validated)%result
  end.

Fixpoint read_only_texts (submitted_index : nat) (statements : list string) (validated : list string)
    : result ConsoleStatementValidationError (list string) :=
  match statements with
  | [] => Ok validated
  | statement :: rest =>
      let text := py_strip statement in
      (let! parsed := parsed_statements submitted_index text in
       let! validated := read_only_parsed text parsed validated in
       read_only_texts (S submitted_index) rest validated)%result
  end.

Definition validate_read_only_statements (statements : list string) : result ConsoleStatementValidationError (list string) :=
  (let! _ := submission_error statements in read_only_texts 0 statements [])%result.

(** ** Scripts of an explicit transaction *)

Definition transaction_action (node : console_node) (index : nat) : result ConsoleStatementValidationError (option terminal) :=
  match node with
  | CopyStmt => invalid "console_copy_not_supported" "The SQL Console does not support PostgreSQL COPY streams" index
  | TransactionStmt kind chain =>
      let chained (action : terminal) :=
        if chain then invalid "console_transaction_chain_blocked"
          "COMMIT AND CHAIN and ROLLBACK AND CHAIN cannot replace the server-owned transaction" index
        else Ok (Some action) in
      match kind with
      | TRANS_STMT_COMMIT => chained ActionCommit
      | TRANS_STMT_ROLLBACK => chained ActionRollback
      | TRANS_STMT_SAVEPOINT | TRANS_STMT_RELEASE | TRANS_STMT_ROLLBACK_TO => Ok None
      | TRANS_STMT_OTHER _ => invalid "console_transaction_control_blocked"
          "Write mode already owns the transaction; BEGIN and prepared transaction commands are not allowed" index
      end
  | _ => Ok None
  end.

Fixpoint transaction_parsed (parsed : list raw_stmt) (statements : list (string * option terminal))
    : result ConsoleStatementValidationError (list (string * option terminal)) :=
  match parsed with
  | [] => Ok statements
  | raw :: rest =>
      let statement_index := length statements in
      (let! action := transaction_action (raw_node raw) statement_index in
       let statements := statements ++ [(render (raw_node raw), action)] in
       if bool_decide (statement_limit < length statements) then Err (too_many statement_index (length statements))
       else transaction_parsed rest statements)%result
  end.

Fixpoint transaction_texts (submitted_index : nat) (submitted : list string) (statements : list (string * option terminal))
    : result ConsoleStatementValidationError (list (string * option terminal)) :=
  match submitted with
  | [] => Ok statements
  | statement :: rest =>
      (let! parsed := parsed_statements submitted_index (py_strip statement) in
       let! statements := transaction_parsed parsed statements in
       transaction_texts (S submitted_index) rest statements)%result
  end.

(** [\[index for index, (_, action) in enumerate(statements) if action\]]. *)
Fixpoint terminal_indexes (index : nat) (statements : list (string * option terminal)) : list nat :=
  match statements with
  | [] => []
  | (_, Some _) :: rest => index :: terminal_indexes (S index) rest
  | (_, None) :: rest => terminal_indexes (S index) rest
  end.

Definition validate_transaction_statements (submitted : list string) : result ConsoleStatementValidationError ConsoleTransactionScript :=
  (let! _ := submission_error submitted in
   let! statements := transaction_texts 0 submitted [] in
   let indexes := terminal_indexes 0 statements in
   match indexes with
   | first :: _ =>
       if bool_decide (indexes = [length statements - 1]) then Ok tt
       else invalid "console_transaction_action_not_final" "COMMIT or ROLLBACK must be the final statement in the submitted script" first
   | [] => Ok tt
   end ;;;
   Ok {| cts_statements := (filter (fun item => item.2 = None) statements).*1;
         cts_terminal_action := match last statements with Some (_, action) => action | None => None end |})%result.

(** ** What is accepted *)

(** The statements of the submitted texts, each with its text. *)
Definition script_of (submitted : list string) : list (string * raw_stmt) :=
  mjoin ((fun statement => pair (py_strip statement) <$> from_option id [] (parse_script (py_strip statement))) <$> submitted).

Definition runs_read_only (node : console_node) : Prop := node = SelectStmt false \/ node = VariableShowStmt.
Definition reads_only (node : console_node) : Prop :=
  runs_read_only node \/
  exists options query, node = ExplainStmt options query /\ (existsb analyzes options = false \/ runs_read_only query).

(** A statement that neither begins nor ends a transaction nor opens a stream. *)
Definition stays_inside (node : console_node) : Prop :=
  node <> CopyStmt /\ forall kind chain, node = TransactionStmt kind chain -> kind ∈ [TRANS_STMT_SAVEPOINT; TRANS_STMT_RELEASE; TRANS_STMT_ROLLBACK_TO].
Definition ends_with (action : terminal) (node : console_node) : Prop :=
  node = TransactionStmt (match action with ActionCommit => TRANS_STMT_COMMIT | ActionRollback => TRANS_STMT_ROLLBACK end) false.

Lemma parsed_ok i text parsed : parsed_statements i text = Ok parsed -> parse_script text = Some parsed.
Proof. unfold parsed_statements. case_bool_decide; [done|]. destruct (parse_script text) as [[|raw rest]|]; [done| |done]. by intros [= <-]. Qed.

Lemma read_only_node_ok node i : read_only_node node i = Ok tt <-> reads_only node.
Proof.
  unfold read_only_node, reads_only, runs_read_only.
  destruct node as [[]| |options query| |kind chain|]; simpl.
  1,5-7: split; [done|]; by intros [[H|H]|(o & q & H & _)].
  - split; [intros _; left; by left|done].
  - split; [intros _; left; by right|done].
  - destruct (existsb analyzes options) eqn:E.
    + split.
      * intros H. right. exists options, query. split; [done|]. right. destruct query as [[]| | | | |]; try done; [by left|by right].
      * intros [[H|H]|(o & q & [= <- <-] & [H|[->| ->]])]; try done. congruence.
    + split; [|done]. intros _. right. exists options, query. split; [done|by left].
Qed.

Lemma read_only_parsed_ok text parsed validated out :
  read_only_parsed text parsed validated = Ok out -> length validated <= statement_limit ->
  out = validated ++ (statement_text text <$> parsed) /\ Forall (fun raw => reads_only (raw_node raw)) parsed /\ length out <= statement_limit.
Proof.
  revert validated. induction parsed as [|raw rest IH]; intros validated; simpl.
  { intros [= <-] Hl. rewrite app_nil_r. by split_and!. }
  destruct (read_only_node (raw_node raw) (length validated)) as [[]|e] eqn:Hn; [|done]. cbn [result_bind]. case_bool_decide as Hlen; [done|].
  intros Hout Hl. apply IH in Hout as (-> & Hall & Hle); [|lia]. apply read_only_node_ok in Hn.
  rewrite <-app_assoc. split_and!; [done|by constructor|by rewrite <-app_assoc in Hle].
Qed.

Lemma read_only_texts_ok i submitted validated out :
  read_only_texts i submitted validated = Ok out -> length validated <= statement_limit ->
  out = validated ++ ((fun item => statement_text item.1 item.2) <$> script_of submitted) /\
  Forall (fun item => reads_only (raw_node item.2)) (script_of submitted) /\ length out <= statement_limit.
Proof.
  revert i validated. induction submitted as [|statement rest IH]; intros i validated; simpl.
  { intros [= <-] Hl. rewrite app_nil_r. split_and!; [done|constructor|done]. }
  destruct (parsed_statements i (py_strip statement)) as [parsed|e] eqn:Hp; [|done]. cbn [result_bind].
  destruct (read_only_parsed (py_strip statement) parsed validated) as [mid|e] eqn:Hr; [|done]. cbn [result_bind]. intros Hout Hl.
  apply read_only_parsed_ok in Hr as (-> & Hall & Hle); [|done]. apply IH in Hout as (-> & Hall' & Hle'); [|done].
  unfold script_of. simpl. apply parsed_ok in Hp. rewrite Hp. simpl. rewrite fmap_app, <-list_fmap_compose, <-app_assoc. split_and!; [done| |by rewrite <-app_assoc in Hle'].
  apply Forall_app. split; [|done]. rewrite Forall_fmap. exact Hall.
Qed.


Lemma transaction_action_ok node i action :
  transaction_action node i = Ok action -> match action with None => stays_inside node | Some a => ends_with a node end.
Proof.
  unfold transaction_action, stays_inside, ends_with.
  destruct node as [| | | |kind chain|]; try done; try (intros [= <-]; split; [done|by intros ? ? [=]]).
  destruct kind; try done; try (destruct chain; [done|]; by intros [= <-]);
    (intros [= <-]; split; [done|]; intros ? ? [= <- _]; set_solver).
Qed.

(** A rendered statement with its action. *)
Definition acts (item : string * option terminal) (raw : raw_stmt) : Prop :=
  item.1 = render (raw_node raw) /\ match item.2 with None => stays_inside (raw_node raw) | Some a => ends_with a (raw_node raw) end.

Lemma transaction_parsed_ok parsed statements out :
  transaction_parsed parsed statements = Ok out -> length statements <= statement_limit ->
  exists more, out = statements ++ more /\ Forall2 acts more parsed /\ length out <= statement_limit.
Proof.
  revert statements. induction parsed as [|raw rest IH]; intros statements; simpl.
  { intros [= <-] Hl. exists []. rewrite app_nil_r. by split_and!. }
  destruct (transaction_action (raw_node raw) (length statements)) as [action|e] eqn:Ha; [|done]. cbn [result_bind]. case_bool_decide as Hlen; [done|].
  intros Hout Hl. apply IH in Hout as (more & -> & Hall & Hle); [|lia]. apply transaction_action_ok in Ha.
  eexists ((_, action) :: more). rewrite <-app_assoc. split_and!; [done|by constructor|by rewrite <-app_assoc in Hle].
Qed.

Lemma transaction_texts_ok i submitted statements out :
  transaction_texts i submitted statements = Ok out -> length statements <= statement_limit ->
  exists more, out = statements ++ more /\ Forall2 (fun item raw => acts item raw.2) more (script_of submitted) /\ length out <= statement_limit.
Proof.
  revert i statements. induction submitted as [|statement rest IH]; intros i statements; simpl.
  { intros [= <-] Hl. exists []. rewrite app_nil_r. split_and!; [done|constructor|done]. }
  destruct (parsed_statements i (py_strip statement)) as [parsed|e] eqn:Hp; [|done]. cbn [result_bind].
  destruct (transaction_parsed parsed statements) as [mid|e] eqn:Hr; [|done]. cbn [result_bind]. intros Hout Hl.
  apply transaction_parsed_ok in Hr as (more & -> & Hall & Hle); [|done]. apply IH in Hout as (more' & -> & Hall' & Hle'); [|done].
  apply parsed_ok in Hp. exists (more ++ more'). rewrite app_assoc. split_and!; [done| |done]. unfold script_of. simpl. rewrite Hp. simpl.
  apply Forall2_app; [|done]. rewrite Forall2_fmap_r. exact Hall.
Qed.

Lemma terminal_indexes_nil i statements : terminal_indexes i statements = [] <-> Forall (fun item => item.2 = None) statements.
Proof.
  revert i. induction statements as [|[text [a|]] rest IH]; intros i; simpl.
  - by split.
  - split; [done|]. intros [H _]%Forall_cons. done.
  - rewrite IH, Forall_cons. naive_solver.
Qed.

Lemma terminal_indexes_app i l1 l2 : terminal_indexes i (l1 ++ l2) = terminal_indexes i l1 ++ terminal_indexes (i + length l1) l2.
Proof.
  revert i. induction l1 as [|[text [a|]] rest IH]; intros i; simpl; [by rewrite Nat.add_0_r| |]; rewrite IH; simpl; by rewrite Nat.add_succ_r.
Qed.

Lemma terminal_indexes_ge i statements k : k ∈ terminal_indexes i statements -> i <= k.
Proof.
  revert i. induction statements as [|[text [a|]] rest IH]; intros i; simpl; [by intros ?%not_elem_of_nil| |].
  - intros [->|H]%elem_of_cons; [done|]. apply IH in H. lia.
  - intros H%IH. lia.
Qed.

Lemma terminal_indexes_lt i statements k : k ∈ terminal_indexes i statements -> k < i + length statements.
Proof.
  revert i. induction statements as [|[text [a|]] rest IH]; intros i; simpl; [by intros ?%not_elem_of_nil| |].
  - intros [->|H]%elem_of_cons; [lia|]. apply IH in H. lia.
  - intros H%IH. lia.
Qed.

(** The last statement may end the transaction, no other one does. *)
Lemma terminal_last statements :
  terminal_indexes 0 statements = [] \/ terminal_indexes 0 statements = [length statements - 1] ->
  exists before final, statements = before ++ final /\ Forall (fun item => item.2 = None) before /\
    (final = [] \/ exists text a, final = [(text, Some a)]).
Proof.
  intros H. destruct statements as [|item rest _] using rev_ind; [exists [], []; split_and!; [done|constructor|by left]|].
  rewrite terminal_indexes_app in H. simpl in H. rewrite length_app in H. simpl in H. rewrite Nat.add_sub in H.
  assert (terminal_indexes 0 rest = []) as Hrest.
  { destruct (terminal_indexes 0 rest) as [|k ks] eqn:Hk; [done|]. exfalso. destruct H as [[=]|H].
    assert (k < 0 + length rest) by (apply terminal_indexes_lt; rewrite Hk; by left). simpl in H. injection H as -> _. lia. }
  apply terminal_indexes_nil in Hrest. destruct item as [text [a|]].
  - exists rest, [(text, Some a)]. split_and!; [done|done|right; eauto].
  - exists (rest ++ [(text, None)]), []. rewrite app_nil_r. split_and!; [done| |by left]. apply Forall_app. by repeat constructor.
Qed.

(** C20. A script accepted for an explicit transaction stays inside it: the statements to be
    run are, in order, those of the script apart from a final COMMIT or ROLLBACK, none of
    them begins, ends, chains or prepares a transaction or opens a COPY stream, and the
    action reported is the one the script ends with. *)
Theorem transaction_scripts_stay_inside submitted script :
  validate_transaction_statements submitted = Ok script ->
  exists inside final, (fun item => raw_node item.2) <$> script_of submitted = inside ++ final /\
    cts_statements script = render <$> inside /\ Forall stays_inside inside /\
    match cts_terminal_action script with
    | None => final = []
    | Some action => exists node, final = [node] /\ ends_with action node
    end /\ length inside <= statement_limit.
Proof.
  unfold validate_transaction_statements. destruct (submission_error submitted) as [[]|]; [|done]. cbn [result_bind].
  destruct (transaction_texts 0 submitted []) as [statements|e] eqn:Ht; [|done]. cbn [result_bind].
  apply transaction_texts_ok in Ht as (more & -> & Hacts & Hlen); [|simpl; lia]. simpl in Hlen. simpl app.
  destruct (match terminal_indexes 0 more with [] => Ok tt | _ => _ end) as [[]|e] eqn:Hcheck; [|done]. cbn [result_bind]. intros [= <-].
  destruct (terminal_last more) as (before & final & -> & Hbefore & Hfinal).
  { destruct (terminal_indexes 0 more) as [|k ks]; [by left|right]. case_bool_decide; done. }
  apply Forall2_app_inv_l in Hacts as (script1 & script2 & H1 & H2 & Heq). rewrite Heq, fmap_app.
  exists ((fun item => raw_node item.2) <$> script1), ((fun item => raw_node item.2) <$> script2). cbn [cts_statements cts_terminal_action].
  assert ((filter (fun item => item.2 = None) before) = before) as Hb by (by apply filter_all).
  assert ((before : list (string * option terminal)).*1 = render <$> ((fun item => raw_node item.2) <$> script1)) as Hr.
  { clear Hb Hlen Heq Hcheck Hfinal. induction H1 as [|item raw l1 l2 [Hi _] _ IH]; [done|]. apply Forall_cons in Hbefore as [_ Hbefore].
    rewrite !fmap_cons, Hi. f_equal. by apply IH. }
  assert (Forall stays_inside ((fun item => raw_node item.2) <$> script1)) as Hs.
  { clear Hb Hlen Heq Hcheck Hfinal Hr. rewrite Forall_fmap. induction H1 as [|item raw l1 l2 [_ Hi] _ IH]; [constructor|].
    apply Forall_cons in Hbefore as [Hn Hbefore]. rewrite Hn in Hi. constructor; [done|by apply IH]. }
  rewrite length_app in Hlen. pose proof (Forall2_length _ _ _ H1) as Hl. rewrite filter_app, fmap_app, Hb.
  destruct Hfinal as [->|(text & a & ->)].
  - apply Forall2_nil_inv_l in H2 as ->. rewrite !app_nil_r. split_and!; [done|done|done| |rewrite length_fmap; lia].
    destruct (last before) as [[text action]|] eqn:Hla; [|done]. apply last_Some_elem_of in Hla. rewrite Forall_forall in Hbefore.
    by rewrite (Hbefore _ Hla : action = None).
  - apply Forall2_cons_inv_l in H2 as (raw & rest & [_ Hend] & H2 & ->). apply Forall2_nil_inv_l in H2 as ->.
    rewrite filter_cons, decide_False by done. simpl. rewrite app_nil_r, last_snoc. split_and!; [done|done|done| |rewrite length_fmap; lia].
    eexists. split; [done|exact Hend].
Qed.
End validation.
