(* ===== verification/ConsoleService.v ===== *)
(** * The console service

    The handlers of [ConsoleService] in [schemii/console/service.py] that tie receipts,
    results and explicit PostgreSQL transactions together, with
    [PsycopgConsoleTransaction] of [common/postgres/console/gateway.py].

    - The state is the repository of receipts, the registry of results, the table
      [_active_transactions] and the transaction objects it refers to.
    - What the environment answers is an argument: [now], [now1], ... are readings of the
      clock in the order of the code, [profile] is what the connection store says (absent for
      [ConnectionNotFoundError]), [resolved] the connection that [use] yields, and the answers
      of PostgreSQL are given with each call.
    - [receipt_saved] is whether the storage of the repository answers when the outcome of a
      transaction is stored; the repository kept in memory always does.
    - Telemetry ([_operation], [_activity], [_active_targets], limit events) is left out. *)

From stdpp Require Import pretty.
From Stdlib Require Import Ascii String.
From S2P Require Import Prelude Json PyString DesignModels WorkspaceStore ConsoleStore ConsoleStatements ConsoleSession ConsoleResults.
Open Scope string_scope.
Open Scope method_scope.

(** ** Errors *)

(** The errors of the gateway, with their messages. *)
Inductive gateway_error :=
| GwConsoleQuery (message : string) (statement_index : Z) (sqlstate : option string)
| GwConsoleLimit (message : string) (statement_index : Z)
| GwCancelled
| GwCapacity (limit_name : string) (limit observed : Z)
| GwQuery
| GwCommitUncertain
| GwOther (code message : string).

Definition gateway_code (e : gateway_error) : string :=
  match e with
  | GwConsoleQuery _ _ _ => "postgres_console_query_failed"
  | GwConsoleLimit _ _ => "postgres_console_result_limit"
  | GwCancelled => "postgres_console_cancelled"
  | GwCapacity _ _ _ => "postgres_connection_capacity_reached"
  | GwQuery => "postgres_query_failed"
  | GwCommitUncertain => "postgres_migration_commit_uncertain"
  | GwOther code _ => code
  end.
Definition gateway_message (e : gateway_error) : string :=
  match e with
  | GwConsoleQuery message _ _ => py_take 2048 message
  | GwConsoleLimit message _ => message
  | GwCancelled => "Console execution was cancelled"
  | GwCapacity _ _ _ => "Schemii is using all configured PostgreSQL connection slots. Wait for an active operation to finish and retry."
  | GwQuery => "PostgreSQL catalog query failed"
  | GwCommitUncertain => "The PostgreSQL connection ended while the migration commit outcome was unknown"
  | GwOther _ message => message
  end.
Definition gateway_statement_index (e : gateway_error) : option Z :=
  match e with GwConsoleQuery _ i _ | GwConsoleLimit _ i => Some i | _ => None end.

(** [ConsoleServiceError] with the revision its details report, or an exception the service does
    not translate. *)
Inductive service_error :=
| ConsoleServiceError (status : Z) (code message : string) (current_revision : option Z)
| ServiceCrash (e : console_error).

Definition problem (status : Z) (code message : string) : service_error := ConsoleServiceError status code message None.

(** [_repository_error]. *)
Definition repository_error (e : console_error) : service_error :=
  match e with
  | ConsoleNotFoundError => problem 404 "console_execution_not_found" "Console execution was not found"
  | ConsoleResultGoneError => problem 410 "console_result_gone" "Console result was closed, expired, or already advanced"
  | ConsoleConflictError code message => problem 409 code message
  | ConsoleStorageUnavailableError => problem 503 "console_storage_unavailable" ""
  | ConsoleLimitReachedError _ _ _ => problem 500 "console_repository_error" "Console metadata operation failed"
  | _ => ServiceCrash e
  end.

(** [_postgres_error]. *)
Definition postgres_error (e : gateway_error) : service_error :=
  problem (match e with GwConsoleLimit _ _ => 422 | GwCapacity _ _ _ => 503 | _ => 502 end)%Z (gateway_code e) (gateway_message e).

(** ** Transaction objects *)

(** How PostgreSQL has ended the transaction of an object. *)
Inductive pg_end := PgUnfinished | PgCommitted | PgRolledBack | PgUncertain.
#[global] Instance pg_end_dec : EqDecision pg_end.
Proof. solve_decision. Defined.

Record PgTransaction := {
  pt_closed : bool;
  pt_end : pg_end;
}.

(** [execute]: PostgreSQL answers, unless the object is closed. *)
Definition pg_execute (answer : result gateway_error (list ConsoleQueryResult)) : method PgTransaction gateway_error (list ConsoleQueryResult) :=
  let* t := m_get in
  m_guard (pt_closed t) GwQuery ;;*
  m_lift answer.

(** [commit]: [authorized] is [check_query_authority], [confirmed] whether PostgreSQL confirmed.
    A connection that is lost during COMMIT leaves the outcome open. *)
Definition pg_commit (authorized confirmed : bool) : method PgTransaction gateway_error unit :=
  let* t := m_get in
  m_guard (pt_closed t) GwQuery ;;*
  m_guard (negb authorized) GwCancelled ;;*
  m_update (fun _ => {| pt_closed := true; pt_end := if confirmed then PgCommitted else PgUncertain |}) ;;*
  m_guard (negb confirmed) GwCommitUncertain.

(** [close]: PostgreSQL rolls back what a connection leaves unfinished. *)
Definition pg_close : method PgTransaction gateway_error unit := m_update (fun t =>
  if pt_closed t then t else {| pt_closed := true; pt_end := PgRolledBack |}).

(** [rollback]: the object is closed even when PostgreSQL does not answer. *)
Definition pg_rollback (answered : bool) : method PgTransaction gateway_error unit :=
  let* t := m_get in
  if pt_closed t then m_return tt else
  pg_close ;;*
  m_guard (negb answered) GwQuery.

(** ** State *)

(** [_ActiveConsoleTransaction]; [act_postgres] is the identity of the object. *)
Record ActiveTransaction := {
  act_owner_id : string;
  act_workspace_id : string;
  act_console_id : string;
  act_postgres : string;
}.

(** A saved connection, or the connection [use] resolves. *)
Record ConnectionTarget := {
  cn_id : string;
  cn_revision : Z;
  cn_database : string;
  cn_owner_id : option string;
}.

Section service.
Context {raw cursor : Type}.
Variables (maximum_live_read_sessions maximum_live_read_sessions_per_identity : nat).
Variables (row_page_size query_history_limit : Z) (result_ttl transaction_idle_ttl transaction_maximum_ttl : Z).
(** The validators, with their limit. *)
Variable validate_read_only : list string -> result ConsoleStatementValidationError (list string).
Variable validate_transaction : list string -> result ConsoleStatementValidationError ConsoleTransactionScript.

Record ConsoleState := {
  cs_repo : ConsoleRepo;
  cs_registry : @Registry raw cursor;
  cs_active : list (string * ActiveTransaction);
  cs_objects : list (string * PgTransaction);
}.
Abbreviation service := (method ConsoleState service_error).

Definition put_repo x s : ConsoleState := {| cs_repo := x; cs_registry := cs_registry s; cs_active := cs_active s; cs_objects := cs_objects s |}.
Definition put_registry x s : ConsoleState := {| cs_repo := cs_repo s; cs_registry := x; cs_active := cs_active s; cs_objects := cs_objects s |}.
Definition put_active x s : ConsoleState := {| cs_repo := cs_repo s; cs_registry := cs_registry s; cs_active := x; cs_objects := cs_objects s |}.
Definition put_objects x s : ConsoleState := {| cs_repo := cs_repo s; cs_registry := cs_registry s; cs_active := cs_active s; cs_objects := x |}.

(** A call of the repository; [translated] is [except ConsoleRepositoryError]. *)
Definition repo_call {A} (m : console_method A) : method ConsoleState console_error A := fun s =>
  let '(r, out) := m (cs_repo s) in (put_repo r s, out).
Definition translated {E A} (f : E -> service_error) (m : method ConsoleState E A) : service A := fun s =>
  let '(s', out) := m s in (s', match out with Ok a => Ok a | Err e => Err (f e) end).
(** [try: ... except ConsoleRepositoryError: pass]. *)
Definition ignored {E A} (m : method ConsoleState E A) : service unit := fun s => ((m s).1, Ok tt).
Definition attempted {E A} (m : method ConsoleState E A) : service (result E A) := fun s => let '(s', out) := m s in (s', Ok out).

Definition on_object {A} (id : string) (m : method PgTransaction gateway_error A) : method ConsoleState gateway_error A := fun s =>
  match dget id (cs_objects s) with
  | None => (s, Err GwQuery)
  | Some t => let '(t', out) := m t in (put_objects (dset id t' (cs_objects s)) s, out)
  end.

(** ** Preferences and targets *)

(** [settings]: the revision and the page size. *)
Definition service_settings (owner_id : string) : service (Z * Z) :=
  let* stored := translated repository_error (repo_call (settings owner_id)) in
  m_return (stored.1, Z.min (match stored.2 with Some n => if bool_decide (n = 0%Z) then row_page_size else n | None => row_page_size end) row_page_size).

Definition service_update_settings (owner_id : string) (expected_revision page_size : Z) : service (Z * Z) :=
  m_guard (bool_decide (row_page_size < page_size)%Z)
    (problem 422 "console_page_size_limit" ("Rows per page cannot exceed the administrator limit of " ++ pretty row_page_size)) ;;*
  translated repository_error (repo_call (update_settings owner_id expected_revision page_size)) ;;*
  service_settings owner_id.

(** [_validate_settings_revision]. *)
Definition validate_settings_revision (owner_id : string) (revision : Z) : service (Z * Z) :=
  let* preferences := service_settings owner_id in
  m_guard (negb (bool_decide (revision = preferences.1)))
    (ConsoleServiceError 409 "console_settings_changed" "Console settings changed after the editor loaded" (Some preferences.1)) ;;*
  m_return preferences.

(** [getattr(x, "owner_id", None) or owner_id]. *)
Definition owner_or (owner_id : string) (o : option string) : string :=
  match o with Some other => if bool_decide (other = "") then owner_id else other | None => owner_id end.

(** [_workspace_target]: [workspace] is what the store of workspaces has. *)
Definition workspace_target (owner_id : string) (workspace : option SchemiiWorkspace) (expected_revision : Z)
    (profile : option ConnectionTarget) : result service_error (SchemiiWorkspace * ConsoleTarget) :=
  match workspace with
  | None => Err (problem 404 "workspace_not_found" "Workspace was not found")
  | Some w =>
      if negb (bool_decide (wk_revision w = expected_revision)) then
        Err (ConsoleServiceError 409 "console_workspace_changed" "Workspace changed after the Console loaded" (Some (wk_revision w)))
      else
      match wk_connection_id w, wk_database w, wk_namespace w with
      | Some connection_id, Some database, Some namespace =>
          match profile with
          | None => Err (problem 409 "console_connection_missing" "The workspace PostgreSQL connection no longer exists")
          | Some p =>
              if negb (bool_decide (cn_database p = database)) then
                Err (problem 409 "console_database_changed" "The workspace database no longer matches its connection")
              else if negb (bool_decide (owner_or owner_id (cn_owner_id p) = owner_or owner_id (wk_connection_owner_id w))) then
                Err (problem 409 "console_target_changed" "The workspace PostgreSQL identity changed")
              else Ok (w, {| tg_connection_id := cn_id p; tg_connection_revision := cn_revision p; tg_database := database;
                             tg_namespace := namespace;
                             tg_connection_owner_id := if bool_decide (wk_connection_owner_id w = Some owner_id) then None
                                                       else wk_connection_owner_id w |})
          end
      | _, _, _ => Err (problem 409 "console_target_required" "SQL requires a workspace connected to PostgreSQL")
      end
  end.

(** The connection is still the one of the target. *)
Definition same_target (owner_id : string) (target : ConsoleTarget) (c : ConnectionTarget) : bool :=
  bool_decide (cn_revision c = tg_connection_revision target) && bool_decide (cn_database c = tg_database target)
  && bool_decide (owner_or owner_id (cn_owner_id c) = owner_or owner_id (tg_connection_owner_id target)).

(** ** Managed reads *)

Definition statement_problem (e : ConsoleStatementValidationError) : service_error := problem 422 (sve_code e) (sve_message e).
Definition lift_statements {A} (r : result ConsoleStatementValidationError A) : service A :=
  m_lift (match r with Ok a => Ok a | Err e => Err (statement_problem e) end).

(** [_reserve_read], for the mode [managed_read]. *)
Definition reserve_read (now now1 : Z) (token owner_id : string) (workspace_id : option string) (workspace_revision : option Z)
    (target : ConsoleTarget) (console_id : string) (expected_settings_revision : Z) (statements : list string)
    (requested_page_size : option Z) : service ConsoleExecution :=
  m_guard (match requested_page_size with Some n => negb (bool_decide (1 <= n <= row_page_size)%Z) | None => false end)
    (problem 422 "console_page_size_limit" ("Rows per batch must be between 1 and " ++ pretty row_page_size)) ;;*
  translated repository_error (repo_call (prune_operational_receipts (now - result_ttl)%Z)) ;;*
  let* preferences := validate_settings_revision owner_id expected_settings_revision in
  let* statements := lift_statements (validate_read_only statements) in
  let* record := translated repository_error (repo_call
    (reserve token owner_id workspace_id console_id workspace_revision target statements
       (from_option id preferences.2 requested_page_size) now1 None None None)) in
  m_return (cer_execution record).

(** [reserve]. *)
Definition service_reserve (now now1 : Z) (token owner_id workspace_id : string) (workspace : option SchemiiWorkspace)
    (profile : option ConnectionTarget) (expected_workspace_revision : Z) (console_id : string) (expected_settings_revision : Z)
    (statements : list string) : service ConsoleExecution :=
  let* found := m_lift (workspace_target owner_id workspace expected_workspace_revision profile) in
  reserve_read now now1 token owner_id (Some workspace_id) (Some (wk_revision found.1)) found.2 console_id expected_settings_revision
    statements None.

(** [_record_history]: statements are recorded until the storage fails; a statement that is no
    [QuerySql] raises. *)
Fixpoint record_statements (owner_id workspace_id : string) (ran_at : Z) (statements : list string) : console_method unit :=
  match statements with
  | [] => m_return tt
  | statement :: rest =>
      record_history owner_id workspace_id statement ran_at query_history_limit ;;*
      record_statements owner_id workspace_id ran_at rest
  end.
Definition service_record_history (ran_at : Z) (record : ConsoleExecutionRecord) : service unit :=
  match ce_workspace_id (cer_execution record) with
  | None => m_return tt
  | Some workspace_id =>
      if bool_decide (query_history_limit = 0%Z) then m_return tt else
      let* out := attempted (repo_call (record_statements (cer_owner_id record) workspace_id ran_at (cer_statements record))) in
      match out with
      | Err ConsoleModelRefused => m_raise (ServiceCrash ConsoleModelRefused)
      | _ => m_return tt
      end
  end.

(** The exceptions a run may end with. *)
Inductive run_error :=
| RunGateway (e : gateway_error)
| RunOther.

(** [_record_run_failure]. *)
Definition record_run_failure (now : Z) (owner_id execution_id : string) (error : run_error) : service unit :=
  m_update (fun s => put_registry (unprotect execution_id (cs_registry s)) s) ;;*
  ignored (repo_call (
    let* current := get_record owner_id execution_id in
    let cancelled := cer_cancel_requested current || match error with RunGateway GwCancelled => true | _ => false end in
    let '(code, message, index) :=
      match error with
      | RunGateway e => (gateway_code e, gateway_message e, gateway_statement_index e)
      | RunOther => ("console_execution_failed", "Console execution failed before producing a result", None)
      end in
    fail owner_id execution_id (if cancelled then "postgres_console_cancelled" else code)
      (if cancelled then "Console execution was cancelled" else message) index cancelled now)).

(** What opening a read session gives: the object with its state, and its results. *)
Record OpenedSession := {
  os_id : string;
  os_session : @ReadSession raw cursor;
  os_results : list ConsoleQueryResult;
}.

(** The read of a claimed receipt: room, a session that publishes its backend when it starts, the
    receipt and the registry; the session that was opened is reported with an error. *)
Definition run_read (now now1 now2 now3 now4 now5 : Z) (tokens : nat -> string) (owner_id : string) (record : ConsoleExecutionRecord)
    (started : option Z) (answer : result gateway_error OpenedSession) : method ConsoleState (run_error * option string) unit :=
  let execution_id := ce_id (cer_execution record) in
  let* s := m_get in
  let '(g, room) := make_read_session_capacity maximum_live_read_sessions maximum_live_read_sessions_per_identity now (cer_target record) (cs_registry s) in
  m_update (put_registry g) ;;*
  m_lift (match room with
          | Err (ResultsCapacity limit_name limit observed) => Err (RunGateway (GwCapacity limit_name limit observed), None)
          | Err _ => Err (RunOther, None)
          | Ok _ => Ok tt
          end) ;;*
  match started with
  | None => m_return tt
  | Some backend_pid =>
      let* out := (fun s => let '(s', out) := repo_call (publish_backend owner_id execution_id backend_pid now1) s in
                            (s', match out with Ok b => Ok b | Err _ => Err (RunOther, None) end)) in
      if out then fun s => let '(s', out) := service_record_history now2 record s in
                           (s', match out with Ok _ => Ok tt | Err _ => Err (RunOther, None) end)
      else m_raise (RunGateway GwCancelled, None)
  end ;;*
  let* opened := m_lift (match answer with Ok o => Ok o | Err e => Err (RunGateway e, None) end) in
  m_update (fun s => put_registry (with_store (dset (os_id opened) (os_session opened) (rg_store (cs_registry s))) (cs_registry s)) s) ;;*
  let expires_at := (now3 + result_ttl)%Z in
  let* completed := (fun s => let '(s', out) := repo_call (succeed tokens owner_id execution_id (os_results opened) expires_at now4) s in
                              (s', match out with Ok c => Ok c | Err _ => Err (RunOther, Some (os_id opened)) end)) in
  let* s := m_get in
  let '(g, retained) := retain_results maximum_live_read_sessions now5 record (cer_execution completed) (os_results opened) expires_at
                          (Some (os_id opened)) (cs_registry s) in
  m_update (put_registry g) ;;*
  m_lift (match retained with
          | Err (ResultsCapacity limit_name limit observed) => Err (RunGateway (GwCapacity limit_name limit observed), Some (os_id opened))
          | Err _ => Err (RunOther, Some (os_id opened))
          | Ok _ => Ok tt
          end).

(** [run]: failures become part of the receipt. *)
Definition service_run (now now1 now2 now3 now4 now5 now6 now7 : Z) (tokens : nat -> string) (owner_id execution_id : string)
    (resolved : option ConnectionTarget) (started : option Z) (answer : result gateway_error OpenedSession) : service unit :=
  let* claimed := attempted (repo_call (claim owner_id execution_id now)) in
  match claimed with
  | Err _ => record_run_failure now7 owner_id execution_id RunOther
  | Ok None => m_return tt
  | Ok (Some record) =>
      match resolved with
      | None => record_run_failure now7 owner_id execution_id RunOther
      | Some target =>
          if negb (same_target owner_id (cer_target record) target) then
            let* failed := attempted (repo_call (fail owner_id execution_id "console_target_changed"
                                                   "PostgreSQL connection changed before execution began" None false now1)) in
            match failed with Ok _ => m_return tt | Err _ => record_run_failure now7 owner_id execution_id RunOther end
          else
          let* out := attempted (run_read now1 now2 now3 now4 now5 now6 tokens owner_id record started answer) in
          match out with
          | Ok _ => m_return tt
          | Err (e, session) =>
              m_update (fun s => match session with
                                 | None => s
                                 | Some sid => put_registry (release_session sid (cs_registry s)) s
                                 end) ;;*
              record_run_failure now7 owner_id execution_id e
          end
      end
  end.

(** ** Explicit transactions *)

Definition drop_session (transaction_id : string) : service unit := m_update (fun s => put_active (dpop transaction_id (cs_active s)) s).

(** [_expire_live_transaction]. *)
Definition expire_live (now : Z) (answered : bool) (owner_id transaction_id : string) (session : ActiveTransaction) : service unit :=
  drop_session transaction_id ;;*
  let* out := attempted (on_object (act_postgres session) (pg_rollback answered)) in
  match out with Ok _ => m_return tt | Err _ => ignored (on_object (act_postgres session) pg_close) end ;;*
  ignored (repo_call (expire_transaction owner_id transaction_id now)).

Definition missing_transaction : service_error := problem 404 "console_transaction_not_found" "Console transaction was not found".

(** [_transaction_record]. *)
Definition transaction_record (now : Z) (answered : bool) (owner_id workspace_id transaction_id : string) : service ConsoleTransactionRecord :=
  let* record := translated (fun e => match e with ConsoleNotFoundError => missing_transaction | _ => repository_error e end)
                   (repo_call (get_transaction owner_id transaction_id)) in
  m_guard (negb (bool_decide (ct_workspace_id (ctr_transaction record) = workspace_id))) missing_transaction ;;*
  if transaction_live record
     && (bool_decide (ct_expires_at (ctr_transaction record) <= now)%Z || bool_decide (ctr_maximum_expires_at record <= now)%Z) then
    let* s := m_get in
    match dget transaction_id (cs_active s) with
    | Some session => expire_live now answered owner_id transaction_id session
    | None => let* _ := translated repository_error (repo_call (expire_transaction owner_id transaction_id now)) in m_return tt
    end ;;*
    translated repository_error (repo_call (get_transaction owner_id transaction_id))
  else m_return record.

Definition interrupted_transaction : service_error :=
  problem 409 "console_transaction_interrupted" "The server process owning this transaction ended; PostgreSQL rolled it back".

(** [_session]. *)
Definition live_session (now now1 : Z) (answered : bool) (profile : option ConnectionTarget) (owner_id workspace_id transaction_id : string)
    : service ActiveTransaction :=
  let* record := transaction_record now answered owner_id workspace_id transaction_id in
  let* s := m_get in
  match filter (fun session => act_owner_id session = owner_id /\ act_workspace_id session = workspace_id)
          (option_list (dget transaction_id (cs_active s))) with
  | [] =>
      (if transaction_live record then ignored (repo_call (expire_transaction owner_id transaction_id now1)) else m_return tt) ;;*
      m_raise interrupted_transaction
  | session :: _ =>
      match profile with
      | None =>
          expire_live now1 answered owner_id transaction_id session ;;*
          m_raise (problem 403 "console_connection_revoked" "Access to the PostgreSQL connection was revoked")
      | Some p =>
          if negb (bool_decide (owner_or owner_id (cn_owner_id p) = owner_or owner_id (tg_connection_owner_id (ctr_target record))))
             || negb (bool_decide (cn_revision p = tg_connection_revision (ctr_target record))) then
            expire_live now1 answered owner_id transaction_id session ;;*
            m_raise (problem 409 "console_target_changed" "The PostgreSQL connection changed")
          else m_return session
      end
  end.

(** [create_transaction]: [opened] is the object and the backend PostgreSQL gives. *)
Definition service_create_transaction (now now1 : Z) (answered : bool) (token owner_id workspace_id : string)
    (workspace : option SchemiiWorkspace) (profile : option ConnectionTarget) (resolved : ConnectionTarget)
    (opened : result gateway_error (string * Z)) (console_id : string)
    (expected_workspace_revision expected_settings_revision : Z) : service ConsoleTransaction :=
  let* _ := validate_settings_revision owner_id expected_settings_revision in
  let* found := m_lift (workspace_target owner_id workspace expected_workspace_revision profile) in
  let target := found.2 in
  let maximum_expires_at := (now + transaction_maximum_ttl)%Z in
  let expires_at := Z.min (now + transaction_idle_ttl) maximum_expires_at in
  let* s := m_get in
  let* existing :=
    match List.find (fun kv => bool_decide (act_owner_id kv.2 = owner_id) && bool_decide (act_workspace_id kv.2 = workspace_id)) (cs_active s) with
    | None => m_return None
    | Some (identifier, session) =>
        let* record := transaction_record now1 answered owner_id workspace_id identifier in
        if transaction_live record then
          if bool_decide (act_console_id session = console_id) && bool_decide (ctr_target record = target)
          then m_return (Some (ctr_transaction record))
          else m_raise (problem 409 "console_transaction_active" "This workspace already has an open Console transaction")
        else m_return None
    end in
  match existing with
  | Some transaction => m_return transaction
  | None =>
      m_guard (negb (same_target owner_id target resolved))
        (problem 409 "console_target_changed" "PostgreSQL connection changed while opening the transaction") ;;*
      let* object := m_lift (match opened with Ok o => Ok o | Err e => Err (postgres_error e) end) in
      m_update (fun s => put_objects (dset object.1 {| pt_closed := false; pt_end := PgUnfinished |} (cs_objects s)) s) ;;*
      let* created := attempted (repo_call (create_transaction token owner_id workspace_id console_id (wk_revision found.1) target object.2
                                              now expires_at maximum_expires_at)) in
      match created with
      | Err e =>
          let* out := attempted (on_object object.1 (pg_rollback answered)) in
          match out with Ok _ => m_return tt | Err _ => ignored (on_object object.1 pg_close) end ;;*
          m_raise (repository_error e)
      | Ok record =>
          m_update (fun s => put_active (dset (ct_id (ctr_transaction record))
            {| act_owner_id := owner_id; act_workspace_id := workspace_id; act_console_id := console_id; act_postgres := object.1 |}
            (cs_active s)) s) ;;*
          m_return (ctr_transaction record)
      end
  end.

(** [get_transaction]. *)
Definition service_get_transaction (now : Z) (answered : bool) (owner_id workspace_id transaction_id : string) : service ConsoleTransaction :=
  let* record := transaction_record now answered owner_id workspace_id transaction_id in
  m_return (ctr_transaction record).

(** [reserve_transaction_execution]. *)
Definition reserve_transaction_execution (now now1 now2 now3 : Z) (answered : bool) (profile : option ConnectionTarget) (token : string)
    (owner_id workspace_id transaction_id : string) (expected_revision : Z) (statements : list string) : service ConsoleExecution :=
  let* script := lift_statements (validate_transaction statements) in
  m_guard (bool_decide (is_Some (cts_terminal_action script)))
    (problem 422 "console_transaction_command_separate" "Run COMMIT or ROLLBACK as its own Console action") ;;*
  m_guard (bool_decide (length (cts_statements script) = 0))
    (problem 422 "console_statement_empty" "Enter at least one PostgreSQL statement") ;;*
  let* session := live_session now now1 answered profile owner_id workspace_id transaction_id in
  let* record := transaction_record now2 answered owner_id workspace_id transaction_id in
  let transaction := ctr_transaction record in
  m_guard (bool_decide (ct_status transaction = TFailed))
    (problem 409 "console_transaction_failed" "PostgreSQL rejected an earlier statement; roll back this transaction") ;;*
  m_guard (negb (bool_decide (ct_status transaction = TOpen)))
    (problem 409 "console_transaction_not_open" "The Console transaction is not open") ;;*
  m_guard (negb (bool_decide (ct_revision transaction = expected_revision)))
    (ConsoleServiceError 409 "console_transaction_changed" "The Console transaction changed after the editor loaded" (Some (ct_revision transaction))) ;;*
  let expires_at := Z.min (now3 + transaction_idle_ttl) (ctr_maximum_expires_at record) in
  if bool_decide (expires_at <= now3)%Z then
    expire_live now3 answered owner_id transaction_id session ;;*
    m_raise (problem 409 "console_transaction_expired" "The Console transaction reached its maximum lifetime")
  else
  let* preferences := service_settings owner_id in
  let* execution := translated repository_error (repo_call
    (reserve token owner_id (Some workspace_id) (ct_console_id transaction) (Some (ctr_workspace_revision record)) (ctr_target record)
       (cts_statements script) preferences.2 now3 (Some transaction_id) (Some expected_revision) (Some expires_at))) in
  m_return (cer_execution execution).

(** The failure of a run inside a transaction. *)
Definition transaction_run_failed (now now1 : Z) (owner_id execution_id : string) (transaction_id : option string) (error : run_error)
    : service unit :=
  record_run_failure now owner_id execution_id error ;;*
  match transaction_id with
  | None => m_return tt
  | Some id => ignored (repo_call (fail_transaction owner_id id now1))
  end.

(** [run_transaction] up to the execution of the statements, which holds the lock of the session:
    the receipt, the transaction and the object to run on. *)
Definition run_transaction_begin (now now1 now2 now3 now4 now5 now6 now7 : Z) (answered : bool) (profile : option ConnectionTarget)
    (owner_id execution_id : string) : service (option (ConsoleExecutionRecord * string * string)) :=
  let* claimed := attempted (repo_call (claim owner_id execution_id now)) in
  match claimed with
  | Err _ => transaction_run_failed now6 now7 owner_id execution_id None RunOther ;;* m_return None
  | Ok None => m_return None
  | Ok (Some record) =>
      match ce_transaction_id (cer_execution record), ce_workspace_id (cer_execution record) with
      | None, _ => transaction_run_failed now6 now7 owner_id execution_id None RunOther ;;* m_return None
      | Some transaction_id, workspace_id =>
          let* started := attempted (
            let* session := live_session now1 now2 answered profile owner_id (from_option id "" workspace_id) transaction_id in
            let* transaction := transaction_record now3 answered owner_id (from_option id "" workspace_id) transaction_id in
            m_guard (negb (bool_decide (ct_status (ctr_transaction transaction) = TOpen)))
              (problem 409 "console_transaction_not_open" "The Console transaction is not open") ;;*
            let* accepted := translated repository_error (repo_call (publish_backend owner_id execution_id (ctr_backend_pid transaction) now4)) in
            (if accepted then service_record_history now5 record else m_return tt) ;;*
            m_return (session, accepted)) in
          match started with
          | Err _ => transaction_run_failed now6 now7 owner_id execution_id (Some transaction_id) RunOther ;;* m_return None
          | Ok (_, false) => transaction_run_failed now6 now7 owner_id execution_id (Some transaction_id) (RunGateway GwCancelled) ;;* m_return None
          | Ok (session, true) => m_return (Some (record, transaction_id, act_postgres session))
          end
      end
  end.

(** [run_transaction] after the execution, with what PostgreSQL answered. *)
Definition run_transaction_end (now now1 now2 now3 : Z) (tokens : nat -> string) (owner_id : string) (record : ConsoleExecutionRecord)
    (transaction_id : string) (answer : result gateway_error (list ConsoleQueryResult)) : service unit :=
  let execution_id := ce_id (cer_execution record) in
  match answer with
  | Err e => transaction_run_failed now now1 owner_id execution_id (Some transaction_id) (RunGateway e)
  | Ok results =>
      let expires_at := (now + result_ttl)%Z in
      let* completed := attempted (repo_call (succeed tokens owner_id execution_id results expires_at now1)) in
      match completed with
      | Err _ => transaction_run_failed now2 now3 owner_id execution_id (Some transaction_id) RunOther
      | Ok done => m_update (fun s => put_registry
          (retain_results maximum_live_read_sessions now2 record (cer_execution done) results expires_at None (cs_registry s)).1 s)
      end
  end.

(** [_finish_transaction]. *)
Inductive finish_action := Commit | Rollback.
Definition finish_status (action : finish_action) : transaction_status := match action with Commit => TCommitted | Rollback => TRolledBack end.
Definition finish_done (action : finish_action) : string := match action with Commit => "committed" | Rollback => "rolled back" end.
Definition saved {A} (receipt_saved : bool) (m : console_method A) : console_method A :=
  if receipt_saved then m else m_raise ConsoleStorageUnavailableError.

Definition service_finish_transaction (now now1 now2 now3 : Z) (answered authorized confirmed receipt_saved : bool)
    (profile : option ConnectionTarget) (owner_id workspace_id transaction_id : string) (expected_revision : Z) (action : finish_action)
    : service ConsoleTransaction :=
  let* session := live_session now now1 answered profile owner_id workspace_id transaction_id in
  let* record := transaction_record now2 answered owner_id workspace_id transaction_id in
  let transaction := ctr_transaction record in
  m_guard (negb (bool_decide (ct_revision transaction = expected_revision)))
    (ConsoleServiceError 409 "console_transaction_changed" "The Console transaction changed after the confirmation opened"
       (Some (ct_revision transaction))) ;;*
  if negb (transaction_live record) then m_return transaction else
  m_guard (match action with Commit => bool_decide (ct_status transaction = TFailed) | Rollback => false end)
    (problem 409 "console_transaction_failed" "This transaction is aborted and can only be rolled back") ;;*
  let* out := attempted (on_object (act_postgres session) (match action with Commit => pg_commit authorized confirmed | Rollback => pg_rollback answered end)) in
  match out with
  | Err GwCancelled => m_raise (postgres_error GwCancelled)
  | Err GwCommitUncertain =>
      let* stored := attempted (repo_call (saved receipt_saved (finish_transaction owner_id workspace_id transaction_id expected_revision TUncertain now3))) in
      drop_session transaction_id ;;*
      m_raise (ConsoleServiceError 502 "console_transaction_commit_uncertain"
        "The connection ended before PostgreSQL confirmed the commit outcome"
        (Some (match stored with Ok r => ct_revision (ctr_transaction r) | Err _ => ct_revision transaction end)))
  | Err e => drop_session transaction_id ;;* m_raise (postgres_error e)
  | Ok _ =>
      drop_session transaction_id ;;*
      let* finished := translated (fun _ => problem 503 "console_transaction_receipt_unavailable"
          ("PostgreSQL " ++ finish_done action ++ ", but its receipt could not be saved"))
        (repo_call (saved receipt_saved (finish_transaction owner_id workspace_id transaction_id expected_revision (finish_status action) now3))) in
      m_return (ctr_transaction finished)
  end.

(** ** Cancellation and shutdown *)

(** [cancel]: the request reaches PostgreSQL on the way, or not. *)
Definition service_cancel (now : Z) (owner_id : string) (workspace_id : option string) (execution_id : string) : service ConsoleExecution :=
  let* record := translated repository_error (repo_call (
    let* existing := get_record owner_id execution_id in
    m_guard (negb (bool_decide (ce_workspace_id (cer_execution existing) = workspace_id))) ConsoleNotFoundError ;;*
    request_cancel owner_id execution_id now)) in
  m_update (fun s => put_registry (cancel_transient execution_id (cs_registry s)) s) ;;*
  let* current := translated ServiceCrash (repo_call (get_record owner_id execution_id)) in
  m_return (cer_execution current).

(** [close]. *)
Fixpoint close_transactions (now : Z) (answered : bool) (sessions : list (string * ActiveTransaction)) : service unit :=
  match sessions with
  | [] => m_return tt
  | (transaction_id, session) :: rest =>
      let* out := attempted (on_object (act_postgres session) (pg_rollback answered)) in
      match out with Ok _ => m_return tt | Err _ => ignored (on_object (act_postgres session) pg_close) end ;;*
      ignored (repo_call (expire_transaction (act_owner_id session) transaction_id now)) ;;*
      close_transactions now answered rest
  end.
Definition service_close (now : Z) (answered : bool) : service unit :=
  let* s := m_get in
  m_update (put_active []) ;;*
  close_transactions now answered (cs_active s) ;;*
  m_update (fun s => put_registry (close_all (cs_registry s)) s).
End service.
