(* ===== verification/ConsoleServiceProps.v ===== *)
(** * Receipts and PostgreSQL transactions agree

    The invariant that ties the receipts of explicit transactions to the objects that run
    them, and that every handler of [ConsoleService] keeps it.

    [opened] lists the transactions that were created with their objects; [honest] says that
    the storage has answered whenever an outcome was to be stored. *)

From Stdlib Require Import Ascii String.
From S2P Require Import Prelude Json PyString DesignModels WorkspaceStore ConsoleStore ConsoleProps ConsoleStatements ConsoleSession ConsoleResults ConsoleService.
Open Scope string_scope.
Open Scope list_scope.

Set Default Proof Using "Type".

Section props.
Context {raw cursor : Type}.
Abbreviation State := (@ConsoleState raw cursor).
Implicit Types (s : State).

(** ** The invariant *)

(** What a receipt says of the object of its transaction, which is in the table or not. *)
Definition agrees (honest held : bool) (status : transaction_status) (outcome : pg_end) : Prop :=
  match status with
  | TCommitted => outcome = PgCommitted
  | TRolledBack => outcome = PgRolledBack
  | TUncertain => outcome = PgUncertain
  | TExpired => honest = true -> outcome = PgRolledBack
  | TOpen | TFailed => honest = true -> outcome = if held then PgUnfinished else PgRolledBack
  end.

Definition transactions_of s : list (string * ConsoleTransactionRecord) := cr_transactions (cs_repo s).
Definition held s (id : string) : bool := bool_decide (is_Some (dget id (cs_active s))).

Record receipts_true (honest : bool) (opened : list (string * string)) s : Prop := {
  rt_receipts : forall id t, dget id (transactions_of s) = Some t ->
    exists o p, dget id opened = Some o /\ dget o (cs_objects s) = Some p /\ agrees honest (held s id) (tx_status t) (pt_end p);
  rt_active : forall id a, dget id (cs_active s) = Some a ->
    dget id opened = Some (act_postgres a) /\ dget (act_postgres a) (cs_objects s) = Some {| pt_closed := false; pt_end := PgUnfinished |} /\
    exists t, dget id (transactions_of s) = Some t /\ transaction_live t = true /\ ctr_owner_id t = act_owner_id a /\
      ct_workspace_id (ctr_transaction t) = act_workspace_id a;
  rt_opened : forall id1 id2 o, dget id1 opened = Some o -> dget id2 opened = Some o -> id1 = id2;
  rt_objects : forall id o, dget id opened = Some o -> is_Some (dget o (cs_objects s));
  rt_exact : honest = true -> forall id o, dget id opened = Some o -> dget o (cs_objects s) = Some {| pt_closed := true; pt_end := PgCommitted |} ->
    forall t, dget id (transactions_of s) = Some t -> tx_status t = TCommitted;
  rt_closed : forall id o p, dget id opened = Some o -> dget o (cs_objects s) = Some p -> pt_closed p = negb (bool_decide (pt_end p = PgUnfinished));
  rt_wf : dwf (transactions_of s) /\ dwf (cs_active s);
}.

Lemma live_status t : transaction_live t = true <-> tx_status t = TOpen \/ tx_status t = TFailed.
Proof. unfold transaction_live. rewrite bool_decide_eq_true, list_elem_of_In. simpl. intuition congruence. Qed.

(** ** Methods that keep a property *)

Definition keeps {E A} (P : State -> Prop) (m : method State E A) : Prop := forall s, P s -> P (m s).1.

Section keeping.
Variable P : State -> Prop.
Lemma keeps_bind {E A B} (m : method State E A) (k : A -> method State E B) : keeps P m -> (forall a, keeps P (k a)) -> keeps P (m_bind m k).
Proof. intros Hm Hk s Hs. unfold m_bind. specialize (Hm s Hs). destruct (m s) as [s' [a|e]]; [by apply Hk|done]. Qed.
Lemma keeps_return {E A} (a : A) : keeps (E := E) P (m_return a).
Proof. by intros s. Qed.
Lemma keeps_raise {E A} (e : E) : keeps (A := A) P (m_raise e).
Proof. by intros s. Qed.
Lemma keeps_lift {E A} (r : result E A) : keeps P (m_lift r).
Proof. by intros s. Qed.
Lemma keeps_statements {A} (r : result ConsoleStatementValidationError A) : keeps P (lift_statements r).
Proof. by intros s. Qed.
Lemma keeps_guard {E} b (e : E) : keeps P (m_guard b e).
Proof. by intros s. Qed.
Lemma keeps_get {E} : keeps (E := E) P m_get.
Proof. by intros s. Qed.
Lemma keeps_translated {E A} (f : E -> service_error) (m : method State E A) : keeps P m -> keeps P (translated f m).
Proof. intros Hm s Hs. unfold translated. specialize (Hm s Hs). by destruct (m s). Qed.
Lemma keeps_ignored {E A} (m : method State E A) : keeps P m -> keeps P (ignored m).
Proof. intros Hm s Hs. by apply Hm. Qed.
Lemma keeps_attempted {E A} (m : method State E A) : keeps P m -> keeps P (attempted m).
Proof. intros Hm s Hs. unfold attempted. specialize (Hm s Hs). by destruct (m s). Qed.
Lemma keeps_update {E} f : (forall s, P s -> P (f s)) -> keeps (E := E) P (m_update f).
Proof. intros Hf s Hs. by apply Hf. Qed.
End keeping.
End props.

Create HintDb keeping.
#[export] Hint Resolve keeps_return keeps_raise keeps_lift keeps_statements keeps_guard keeps_get keeps_translated keeps_ignored keeps_attempted : keeping.

(** Splits a method into its parts. *)
Ltac keep_parts := repeat (first
  [ progress (intros)
  | apply keeps_bind
  | solve [auto 3 with keeping]
  | case_match ]).

Section handlers.
Context {raw cursor : Type}.
Abbreviation State := (@ConsoleState raw cursor).
Implicit Types (s : State).
Variables (honest : bool) (opened : list (string * string)).
Abbreviation ok := (receipts_true honest opened).

(** ** Repository calls that leave transactions alone *)

Definition quiet {A} (m : console_method A) : Prop := forall r, cr_transactions (m r).1 = cr_transactions r.

Lemma ok_same s s' : ok s -> transactions_of s' = transactions_of s -> cs_active s' = cs_active s -> cs_objects s' = cs_objects s -> ok s'.
Proof. intros [H1 H2 H3 H4 H5 H6 H7] Ht Ha Ho. split; unfold held; rewrite ?Ht, ?Ha, ?Ho; done. Qed.

Lemma keeps_quiet {A} (m : console_method A) : quiet m -> keeps (raw := raw) (cursor := cursor) ok (repo_call m).
Proof. intros Hq s Hs. unfold repo_call. specialize (Hq (cs_repo s)). destruct (m (cs_repo s)) as [r out]. by apply (ok_same s). Qed.

Lemma quiet_seq {A B} (m : console_method A) (k : A -> console_method B) : quiet m -> (forall a, quiet (k a)) -> quiet (m_bind m k).
Proof. intros Hm Hk r. unfold m_bind. specialize (Hm r). destruct (m r) as [r' [a|e]]; [by rewrite Hk|done]. Qed.

Lemma quiet_owned_record owner k : quiet (owned_record owner k).
Proof. intros r. by destruct (owned_record_spec owner k r) as [(x & -> & _)| ->]. Qed.
Lemma quiet_owned_transaction owner k : quiet (owned_transaction owner k).
Proof. intros r. by destruct (owned_transaction_spec owner k r) as [(x & -> & _)| ->]. Qed.
Lemma quiet_claim owner k now : quiet (claim owner k now).
Proof. apply quiet_seq; [apply quiet_owned_record|]. intros x r. by destruct (_ || _). Qed.
Lemma quiet_publish owner k pid now : quiet (publish_backend owner k pid now).
Proof. apply quiet_seq; [apply quiet_owned_record|]. intros x r. by destruct (negb _). Qed.
Lemma quiet_fail owner k code message index cancelled now : quiet (fail owner k code message index cancelled now).
Proof. apply quiet_seq; [apply quiet_owned_record|]. intros x r. by case_bool_decide. Qed.
Lemma quiet_store_results token i execution page_size expires results : quiet (store_results token i execution page_size expires results).
Proof.
  revert i. induction results as [|query results IH]; intros i; simpl; [by intros r|].
  apply quiet_seq; [by intros r|]. intros _. apply quiet_seq; [by intros r|]. intros _. apply quiet_seq; [apply IH|]. by intros x r.
Qed.
Lemma quiet_succeed token owner k results expires now : quiet (succeed token owner k results expires now).
Proof.
  apply quiet_seq; [apply quiet_owned_record|]. intros x. destruct (cer_cancel_requested x); [apply quiet_fail|].
  apply quiet_seq; [apply quiet_store_results|]. by intros summaries r.
Qed.
Lemma quiet_request_cancel owner k now : quiet (request_cancel owner k now).
Proof.
  apply quiet_seq; [apply quiet_owned_record|]. intros x. case_bool_decide; [apply quiet_fail|]. intros r. by destruct (negb _).
Qed.
Lemma quiet_settings owner : quiet (settings owner).
Proof. by intros r. Qed.
Lemma quiet_update_settings owner revision page_size : quiet (update_settings owner revision page_size).
Proof. apply quiet_seq; [apply quiet_settings|]. intros x. apply quiet_seq; by intros r. Qed.
Lemma quiet_record_statements limit owner ws ran_at statements : quiet (record_statements limit owner ws ran_at statements).
Proof.
  induction statements as [|statement rest IH]; simpl; [by intros r|]. apply quiet_seq; [|by intros _].
  unfold record_history. case_bool_decide; [by intros r|]. apply quiet_seq; by intros r.
Qed.
End handlers.

#[export] Hint Resolve keeps_quiet quiet_owned_record quiet_owned_transaction quiet_claim quiet_publish quiet_fail quiet_succeed quiet_request_cancel
  quiet_settings quiet_update_settings quiet_record_statements : keeping.

Section receipts.
Context {raw cursor : Type}.
Abbreviation State := (@ConsoleState raw cursor).
Implicit Types (s : State).
Variables (honest : bool) (opened : list (string * string)).
Abbreviation ok := (receipts_true honest opened).

(** ** Receipts that stay live *)

(** A live receipt is replaced by a live one of the same owner and workspace. *)
Lemma ok_live s s' id t u :
  ok s -> dget id (transactions_of s) = Some t -> transaction_live t = true -> transaction_live u = true ->
  ctr_owner_id u = ctr_owner_id t -> ct_workspace_id (ctr_transaction u) = ct_workspace_id (ctr_transaction t) ->
  transactions_of s' = dset id u (transactions_of s) -> cs_active s' = cs_active s -> cs_objects s' = cs_objects s -> ok s'.
Proof.
  intros [H1 H2 H3 H4 H5 H6 H7] Ht Hlt Hlu Ho Hw Htx Ha Hob.
  assert (forall o held, agrees honest held (tx_status t) o <-> agrees honest held (tx_status u) o) as Hag.
  { intros o held0. apply live_status in Hlt, Hlu. by destruct Hlt as [->| ->], Hlu as [->| ->]. }
  split; unfold held; rewrite ?Htx, ?Ha, ?Hob; try done.
  - intros k x. rewrite dget_dset. case_decide as Hk; [|apply H1]. subst k. intros [= <-]. destruct (H1 _ _ Ht) as (o & p & E1 & E2 & E3).
    exists o, p. split_and!; try done. by apply Hag.
  - intros k a Hk. destruct (H2 _ _ Hk) as (E1 & E2 & x & E3 & E4 & E5 & E6). split_and!; try done. rewrite dget_dset. case_decide as Heq; [|by exists x].
    subst k. exists u. assert (x = t) as -> by congruence. split_and!; congruence.
  - intros Hh k o Hko Hp x. rewrite dget_dset. case_decide as Hk; [|by eapply H5]. subst k. intros [= <-].
    specialize (H5 Hh _ _ Hko Hp _ Ht). apply live_status in Hlt. destruct Hlt as [E|E]; congruence.
  - destruct H7 as [H7 H8]. split; [by apply dset_wf|done].
Qed.

Lemma ok_fail_transaction owner id now : keeps (raw := raw) (cursor := cursor) ok (repo_call (fail_transaction owner id now)).
Proof.
  intros s Hs. unfold repo_call, fail_transaction, m_bind.
  destruct (owned_transaction_spec owner id (cs_repo s)) as [(t & -> & Ht & Ho)| ->]; [|by apply (ok_same _ _ s)].
  case_bool_decide as Hst; cbn [negb]; [|by apply (ok_same _ _ s)].
  apply (ok_live s _ id t (transaction_moved t TFailed (ct_execution_ids (ctr_transaction t)) now (ct_expires_at (ctr_transaction t)))); try done.
  apply live_status. by left.
Qed.

Lemma ok_reserve token owner ws console wrev target statements page_size now tx rev expires :
  keeps (raw := raw) (cursor := cursor) ok (repo_call (reserve token owner ws console wrev target statements page_size now tx rev expires)).
Proof.
  intros s Hs. unfold repo_call, reserve, m_bind at 1. destruct (purge now (cs_repo s)) as [r1 [[]|e]] eqn:Hp; [|done].
  assert (cr_transactions r1 = cr_transactions (cs_repo s)) as H1 by (pose proof (purge_frame now (cs_repo s)) as Hf; rewrite Hp in Hf; apply Hf).
  assert (ok (put_repo r1 s)) as Hsame by (by apply (ok_same _ _ s)).
  rewrite bind_get, bind_guard. destruct (existsb _ (cr_records r1)); [exact Hsame|]. destruct tx as [id|].
  - rewrite bind_bind. unfold m_bind at 1. pose proof (reserved_transaction_spec owner ws id rev expires r1) as Hspec.
    destruct (reserved_transaction _ _ _ _ _ r1) as [r2 [[t expires']|e]]; [|rewrite Hspec; exact Hsame].
    destruct Hspec as (-> & Ht & Ho & Hws & Hopen & _ & _). rewrite bind_return, bind_guard.
    destruct (ConsoleExecution_check _); [|exact Hsame]. cbn [negb]. unfold store_record, store_transaction. rewrite !bind_update. cbn [fst m_return].
    rewrite H1 in Ht. eapply (ok_live s _ id t); [done|exact Ht|by apply live_status; left| | | | |done|done].
    4: unfold transactions_of; cbn [put_repo cs_repo put_transactions put_executions cr_transactions]; by rewrite H1.
    + apply live_status. by left.
    + done.
    + done.
  - rewrite bind_return, bind_guard. destruct (ConsoleExecution_check _); [|exact Hsame]. cbn [negb].
    unfold store_record. rewrite bind_update. by apply (ok_same _ _ s).
Qed.

Lemma ok_prune before : keeps (raw := raw) (cursor := cursor) ok (repo_call (prune_operational_receipts before)).
Proof.
  intros s [H1 H2 H3 H4 H5 H6 [H7 H8]]. unfold repo_call, prune_operational_receipts, m_update. cbv zeta. cbn [fst].
  set (records := filter _ (cr_records (cs_repo s))). match goal with |- ok ?x => set (s' := x) end.
  assert (transactions_of s' = filter (fun kv => kept_transaction before records kv.1 kv.2 = true) (transactions_of s)) as Ht by done.
  assert (forall id t, dget id (transactions_of s') = Some t -> dget id (transactions_of s) = Some t) as Hsub.
  { intros id t Hid. rewrite Ht in Hid. apply dget_Some_elem, list_elem_of_filter in Hid as [_ Hid]. by apply dget_elem_wf. }
  split; try done.
  - intros id t Hid. by apply H1, Hsub.
  - intros id a Ha. destruct (H2 _ _ Ha) as (E1 & E2 & t & E3 & E4 & E5). split_and!; try done. exists t. split; [|done]. rewrite Ht.
    apply dget_elem_wf; [eapply NoDup_submseteq_fmap; [apply sublist_submseteq, sublist_filter|done]|].
    apply list_elem_of_filter. split; [|by apply dget_Some_elem]. unfold kept_transaction. simpl. by rewrite E4.
  - intros Hh id o Hid Hp t Hget. eapply H5; eauto.
  - split; [|done]. rewrite Ht. eapply NoDup_submseteq_fmap; [apply sublist_submseteq, sublist_filter|done].
Qed.

(** A receipt is expired whose object is not in the table. *)
Lemma ok_expire s owner id now : ok s -> dget id (cs_active s) = None -> ok (repo_call (expire_transaction owner id now) s).1.
Proof.
  intros Hs Hn. unfold repo_call, expire_transaction, m_bind.
  destruct (owned_transaction_spec owner id (cs_repo s)) as [(t & -> & Ht & Ho)| ->]; [|by apply (ok_same _ _ s)].
  destruct (transaction_live t) eqn:Hl; cbn [negb]; [|by apply (ok_same _ _ s)]. destruct Hs as [H1 H2 H3 H4 H5 H6 [H7 H8]].
  cbn [m_bind store_transaction m_update m_return fst snd]. set (u := transaction_moved t TExpired _ _ _). set (s' := put_repo _ s).
  assert (transactions_of s' = dset id u (transactions_of s)) as Htx by done.
  assert (held s id = false) as Hheld by (unfold held; rewrite Hn; by apply bool_decide_eq_false_2, is_Some_None).
  split; try done; rewrite ?Htx.
  - intros k x. rewrite dget_dset. case_decide as Hk; [|apply H1]. subst k. intros [= <-]. destruct (H1 _ _ Ht) as (o & p & E1 & E2 & E3).
    exists o, p. split_and!; try done. intros Hh. rewrite Hheld in E3. apply live_status in Hl. destruct Hl as [E|E]; rewrite E in E3; by apply E3.
  - intros k a Hk. destruct (H2 _ _ Hk) as (E1 & E2 & x & E3 & E4). split_and!; try done. rewrite dget_dset. case_decide; [|by exists x]. subst.
    cbn [s' put_repo cs_active] in Hk. congruence.
  - intros Hh k o Hko Hp x. rewrite dget_dset. case_decide as Hk; [|by eapply H5]. subst k. intros [= <-].
    specialize (H5 Hh _ _ Hko Hp _ Ht). apply live_status in Hl. destruct Hl as [E|E]; congruence.
  - split; [by apply dset_wf|done].
Qed.

(** ** Objects that end *)

(** A transaction leaves the table, its object ends, and its receipt says how. *)
Lemma ok_gone s s' id a t u e :
  ok s -> dget id (cs_active s) = Some a -> dget id (transactions_of s) = Some t -> e <> PgUnfinished ->
  agrees honest false (tx_status u) e -> (honest = true -> e = PgCommitted -> tx_status u = TCommitted) ->
  transactions_of s' = dset id u (transactions_of s) -> cs_active s' = dpop id (cs_active s) ->
  cs_objects s' = dset (act_postgres a) {| pt_closed := true; pt_end := e |} (cs_objects s) -> ok s'.
Proof.
  intros [H1 H2 H3 H4 H5 H6 [H7 H8]] Ha Ht He Hag Hex Htx Hac Hob. destruct (H2 _ _ Ha) as (Hid & Hobj & _).
  assert (forall k, k <> id -> held s' k = held s k) as Hheld by (intros k Hk; unfold held; rewrite Hac, dget_dpop; by rewrite decide_False).
  assert (forall k o, k <> id -> dget k opened = Some o -> dget o (cs_objects s') = dget o (cs_objects s)) as Hkeep.
  { intros k o Hk Ho. rewrite Hob, dget_dset_ne; [done|]. intros ->. by apply Hk, (H3 _ _ (act_postgres a)). }
  assert (dget (act_postgres a) (cs_objects s') = Some {| pt_closed := true; pt_end := e |}) as Hnew by (by rewrite Hob, dget_dset_eq).
  split; rewrite ?Htx; try done.
  - intros k x. rewrite dget_dset. case_decide as Hk.
    + subst k. intros [= <-]. exists (act_postgres a), {| pt_closed := true; pt_end := e |}. split_and!; try done.
      unfold held. rewrite Hac, dget_dpop, decide_True by done. by rewrite bool_decide_eq_false_2 by (apply is_Some_None).
    + intros Hx. destruct (H1 _ _ Hx) as (o & p & E1 & E2 & E3). exists o, p. rewrite (Hkeep k o), Hheld by done. done.
  - intros k b. rewrite Hac, dget_dpop. case_decide as Hk; [done|]. intros Hb. destruct (H2 _ _ Hb) as (E1 & E2 & x & E3 & E4).
    rewrite (Hkeep k (act_postgres b)) by done. split_and!; try done. exists x. by rewrite dget_dset_ne.
  - intros k o Ho. destruct (decide (k = id)) as [->|Hk]; [|rewrite (Hkeep k o) by done; by eapply H4].
    assert (o = act_postgres a) as -> by congruence. rewrite Hnew. eauto.
  - intros Hh k o Ho Hp x. rewrite dget_dset. case_decide as Hk.
    + subst k. intros [= <-]. assert (o = act_postgres a) as -> by congruence. rewrite Hnew in Hp. injection Hp as Hp. by apply Hex.
    + rewrite (Hkeep k o) in Hp by done. by eapply H5.
  - intros k o p Ho Hp. destruct (decide (k = id)) as [->|Hk]; [|rewrite (Hkeep k o) in Hp by done; by eapply H6].
    assert (o = act_postgres a) as -> by congruence. rewrite Hnew in Hp. injection Hp as <-. simpl. by rewrite bool_decide_eq_false_2.
  - split; [by apply dset_wf|rewrite Hac; by apply dpop_wf].
Qed.

Lemma put_repo_same s : put_repo (cs_repo s) s = s.
Proof. by destruct s. Qed.

Lemma expired_repo owner id now (r : ConsoleRepo) t :
  dget id (cr_transactions r) = Some t ->
  exists u, cr_transactions (expire_transaction owner id now r).1 = dset id u (cr_transactions r) /\
    (u = t \/ tx_status u = TExpired) /\ ct_workspace_id (ctr_transaction u) = ct_workspace_id (ctr_transaction t) /\ ctr_owner_id u = ctr_owner_id t /\
    (ctr_owner_id t = owner -> transaction_live u = false /\ exists x, (expire_transaction owner id now r).2 = Ok x).
Proof.
  intros Ht. unfold expire_transaction, m_bind, owned_transaction. cbn [m_get]. unfold m_bind, m_get. rewrite Ht. case_bool_decide as Ho.
  - cbn [m_return]. destruct (transaction_live t) eqn:Hl; cbn [negb].
    + eexists. split; [done|]. split; [by right|]. split_and!; [done|done|]. intros _. split; [done|eauto].
    + exists t. split; [symmetry; by apply dset_id|]. split; [by left|]. split_and!; [done|done|]. intros _. split; [done|eauto].
  - exists t. split; [symmetry; by apply dset_id|]. split; [by left|]. by split_and!.
Qed.

Lemma expire_live_spec now answered owner id s a :
  ok s -> dget id (cs_active s) = Some a ->
  let s' := (expire_live now answered owner id a s).1 in
  ok s' /\ dget id (cs_active s') = None /\
  cs_repo s' = (expire_transaction owner id now (cs_repo s)).1.
Proof.
  intros Hs Ha. destruct (rt_active _ _ _ Hs _ _ Ha) as (_ & Hobj & t & Ht & Hl & _).
  assert (exists s1, (expire_live now answered owner id a s).1 = (repo_call (expire_transaction owner id now) s1).1 /\
    cs_repo s1 = cs_repo s /\ cs_active s1 = dpop id (cs_active s) /\
    cs_objects s1 = dset (act_postgres a) {| pt_closed := true; pt_end := PgRolledBack |} (cs_objects s)) as (s1 & -> & R1 & R2 & R3).
  { unfold expire_live, drop_session. rewrite bind_update. unfold attempted, m_bind, on_object. cbn [put_active cs_objects]. rewrite Hobj.
    unfold pg_rollback. rewrite bind_get. cbn [pt_closed]. unfold pg_close. rewrite bind_update. cbn [pt_closed]. destruct answered; cbn [m_guard m_lift guard_err negb].
    - eexists. split; [reflexivity|]. done.
    - unfold ignored. cbn [put_objects cs_objects]. rewrite dget_dset_eq. cbn [pt_closed m_update]. eexists. split; [reflexivity|].
      cbn [put_objects put_active cs_objects cs_repo cs_active]. split_and!; [done|done|]. by rewrite dset_dset. }
  destruct (expired_repo owner id now (cs_repo s) t Ht) as (u & Hu & Hcase & _).
  unfold repo_call. rewrite R1. destruct (expire_transaction owner id now (cs_repo s)) as [r out]. cbn [fst] in *.
  split_and!; [|cbn [put_repo cs_active]; rewrite R2, dget_dpop; by rewrite decide_True|done].
  apply (ok_gone s _ id a t u PgRolledBack); try done; try (by rewrite <-Hu); cbn [put_repo cs_active cs_objects]; try done.
  apply live_status in Hl. destruct Hcase as [->|Hx]; [by destruct Hl as [->| ->]|by rewrite Hx].
Qed.

Lemma get_call f owner id s :
  (exists t, translated f (repo_call (get_transaction owner id)) s = (s, Ok t) /\ dget id (transactions_of s) = Some t /\ ctr_owner_id t = owner) \/
  translated f (repo_call (get_transaction owner id)) s = (s, Err (f ConsoleNotFoundError)).
Proof.
  unfold translated, repo_call, get_transaction. destruct (owned_transaction_spec owner id (cs_repo s)) as [(t & -> & Ht & Ho)| ->]; rewrite put_repo_same.
  - left. by exists t.
  - by right.
Qed.

(** The record of a transaction: the state is as it was while the transaction is live. *)
Lemma transaction_record_spec now answered owner ws id s s' out :
  ok s -> transaction_record now answered owner ws id s = (s', out) ->
  ok s' /\ forall t, out = Ok t -> dget id (transactions_of s') = Some t /\ ctr_owner_id t = owner /\ ct_workspace_id (ctr_transaction t) = ws /\
    (transaction_live t = true -> s' = s).
Proof.
  intros Hs. unfold transaction_record, m_bind at 1.
  destruct (get_call (fun e => match e with ConsoleNotFoundError => missing_transaction | _ => repository_error e end) owner id s)
    as [(t & -> & Ht & Ho)| ->]; [|intros [= <- <-]; by split].
  rewrite bind_guard. case_bool_decide as Hws; cbn [negb]; [|intros [= <- <-]; by split].
  destruct (transaction_live t && _) eqn:Hexp; [|intros [= <- <-]; split; [done|]; by intros u [= <-]].
  apply andb_true_iff in Hexp as [Hl _]. rewrite bind_get.
  assert (forall s1, ok s1 -> cs_repo s1 = (expire_transaction owner id now (cs_repo s)).1 ->
    translated repository_error (repo_call (get_transaction owner id)) s1 = (s', out) ->
    ok s' /\ forall u, out = Ok u -> dget id (transactions_of s') = Some u /\ ctr_owner_id u = owner /\ ct_workspace_id (ctr_transaction u) = ws /\
      (transaction_live u = true -> s' = s)) as Hlast.
  { intros s1 Hs1 Hr. destruct (expired_repo owner id now (cs_repo s) t Ht) as (u & Hu & _ & Hw & _ & Hn).
    destruct (get_call repository_error owner id s1) as [(x & -> & Hx & Hox)| ->]; [|intros [= <- <-]; by split].
    intros [= <- <-]. split; [done|]. intros y [= <-]. split; [done|]. split; [done|]. unfold transactions_of in Hx. rewrite Hr, Hu, dget_dset_eq in Hx. injection Hx as <-.
    split; [congruence|]. destruct (Hn Ho) as [Hd _]. by rewrite Hd. }
  destruct (dget id (cs_active s)) as [a|] eqn:Ha.
  - destruct (expire_live_spec now answered owner id s a Hs Ha) as (Hok & _ & Hrepo).
    assert (exists s1, expire_live now answered owner id a s = (s1, Ok tt)) as [s1 Hrun].
    { unfold expire_live, m_bind, ignored, attempted, drop_session, m_update. destruct (on_object _ _ _) as [s1 [[]|e]]; eexists; reflexivity. }
    unfold m_bind. rewrite Hrun in *. cbn [fst] in *. by apply Hlast.
  - pose proof (ok_expire s owner id now Hs Ha) as Hok. destruct (expired_repo owner id now (cs_repo s) t Ht) as (u & _ & _ & _ & _ & Hn).
    destruct (Hn Ho) as [_ [x Hx]].
    assert (exists s1, translated repository_error (repo_call (expire_transaction owner id now)) s = (s1, Ok x) /\ ok s1 /\
      cs_repo s1 = (expire_transaction owner id now (cs_repo s)).1) as (s1 & Hrun & Hs1 & Hr1).
    { unfold translated, repo_call in *. destruct (expire_transaction owner id now (cs_repo s)) as [r res]. cbn [fst snd] in *. subst res. eexists. by split_and!. }
    unfold m_bind. rewrite Hrun. cbn [m_return]. by apply Hlast.
Qed.

Lemma expire_live_run now answered owner id a s : exists s1, expire_live now answered owner id a s = (s1, Ok tt).
Proof. unfold expire_live, m_bind, ignored, attempted, drop_session, m_update. destruct (on_object _ _ _) as [s1 [[]|e]]; eexists; reflexivity. Qed.

(** The session that is found is in the table. *)
Lemma live_session_spec now now1 answered profile owner ws id s s' out :
  ok s -> live_session now now1 answered profile owner ws id s = (s', out) ->
  ok s' /\ forall a, out = Ok a -> dget id (cs_active s') = Some a /\ act_owner_id a = owner /\ act_workspace_id a = ws.
Proof.
  intros Hs. unfold live_session, m_bind at 1. destruct (transaction_record now answered owner ws id s) as [s1 [t|e]] eqn:Hr.
  2: { intros [= <- <-]. by destruct (transaction_record_spec _ _ _ _ _ _ _ _ Hs Hr). }
  destruct (transaction_record_spec _ _ _ _ _ _ _ _ Hs Hr) as [Hs1 Hspec]. destruct (Hspec t eq_refl) as (Ht & Ho & Hws & _). rewrite bind_get.
  destruct (dget id (cs_active s1)) as [a|] eqn:Ha.
  - destruct (rt_active _ _ _ Hs1 _ _ Ha) as (_ & _ & x & Hx & _ & E1 & E2). assert (x = t) as -> by congruence.
    change (option_list (Some a)) with [a]. rewrite filter_cons, decide_True by (split; congruence).
    assert (forall e, ok (m_bind (expire_live now1 answered owner id a) (fun _ : unit => m_raise (A := ActiveTransaction) e) s1).1 /\
      (m_bind (expire_live now1 answered owner id a) (fun _ : unit => m_raise (A := ActiveTransaction) e) s1).2 = Err e) as Hexp.
    { intros e. destruct (expire_live_spec now1 answered owner id s1 a Hs1 Ha) as (Hok & _). unfold m_bind.
      destruct (expire_live_run now1 answered owner id a s1) as [s2 Hrun]. rewrite Hrun in *. done. }
    destruct profile as [p|].
    + destruct (_ || _); [|intros [= <- <-]; split; [done|]; intros b [= <-]; split_and!; congruence].
      intros Heq. match type of Heq with m_bind _ (fun _ => m_raise ?e) _ = _ => destruct (Hexp e) as [H1 H2] end. rewrite Heq in *. cbn [fst snd] in *. subst out. by split.
    + intros Heq. match type of Heq with m_bind _ (fun _ => m_raise ?e) _ = _ => destruct (Hexp e) as [H1 H2] end. rewrite Heq in *. cbn [fst snd] in *. subst out. by split.
  - change (filter _ (option_list None)) with (@nil ActiveTransaction). cbv iota. destruct (transaction_live t).
    + unfold m_bind, ignored. intros [= <- <-]. split; [by apply ok_expire|done].
    + intros [= <- <-]. by split.
Qed.

Lemma keeps_transaction_record now answered owner ws id : keeps (raw := raw) (cursor := cursor) ok (transaction_record now answered owner ws id).
Proof. intros s Hs. destruct (transaction_record _ _ _ _ _ s) as [s' out] eqn:H. by destruct (transaction_record_spec _ _ _ _ _ _ _ _ Hs H). Qed.

Lemma keeps_live_session now now1 answered profile owner ws id : keeps (raw := raw) (cursor := cursor) ok (live_session now now1 answered profile owner ws id).
Proof. intros s Hs. destruct (live_session _ _ _ _ _ _ _ s) as [s' out] eqn:H. by destruct (live_session_spec _ _ _ _ _ _ _ _ _ _ Hs H). Qed.

(** ** The outcome of a transaction *)

Lemma finished_repo owner ws id rev st now (r : ConsoleRepo) t :
  dget id (cr_transactions r) = Some t -> ctr_owner_id t = owner -> ct_workspace_id (ctr_transaction t) = ws -> ct_revision (ctr_transaction t) = rev ->
  transaction_live t = true -> st ∈ [TCommitted; TRolledBack; TUncertain] ->
  exists u, finish_transaction owner ws id rev st now r = (put_transactions (dset id u (cr_transactions r)) r, Ok u) /\ tx_status u = st.
Proof.
  intros Ht <- <- <- Hl Hst. unfold finish_transaction. rewrite bind_guard, bool_decide_eq_true_2 by done. cbn [negb]. unfold m_bind at 1, owned_transaction.
  unfold m_bind at 1, m_get. rewrite Ht, bool_decide_eq_true_2 by done. cbn [m_return]. rewrite !bind_guard, !bool_decide_eq_true_2 by done. cbn [negb].
  rewrite Hl. cbn [negb]. eexists. by split.
Qed.

Lemma ok_finish now now1 now2 now3 answered authorized confirmed receipt_saved profile owner ws id rev action :
  (honest = true -> receipt_saved = true) ->
  keeps (raw := raw) (cursor := cursor) ok
    (service_finish_transaction now now1 now2 now3 answered authorized confirmed receipt_saved profile owner ws id rev action).
Proof.
  intros Hhonest s Hs. unfold service_finish_transaction, m_bind at 1.
  destruct (live_session _ _ _ _ _ _ _ s) as [s1 [a|e]] eqn:H1; destruct (live_session_spec _ _ _ _ _ _ _ _ _ _ Hs H1) as [Hs1 Ha]; [|done].
  destruct (Ha a eq_refl) as (Hact & Hao & Haw). unfold m_bind at 1.
  destruct (transaction_record _ _ _ _ _ s1) as [s2 [t|e]] eqn:H2; destruct (transaction_record_spec _ _ _ _ _ _ _ _ Hs1 H2) as [Hs2 Ht]; [|done].
  destruct (Ht t eq_refl) as (Hget & Hown & Hws & Hsame). rewrite bind_guard. case_bool_decide as Hrev; cbn [negb]; [|done].
  destruct (transaction_live t) eqn:Hl; cbn [negb]; [|done]. rewrite (Hsame eq_refl) in *. clear s2 Hsame Hs2 H2 Ht H1 Ha.
  rewrite bind_guard. destruct (match action with Commit => _ | Rollback => _ end); [done|].
  destruct (rt_active _ _ _ Hs1 _ _ Hact) as (Hid & Hobj & _).
  assert (forall st, st ∈ [TCommitted; TRolledBack; TUncertain] -> forall s2, cs_repo s2 = cs_repo s1 ->
    exists u out, (repo_call (saved receipt_saved (finish_transaction owner ws id rev st now3)) s2) =
      (put_repo (put_transactions (dset id u (cr_transactions (cs_repo s1))) (cs_repo s1)) s2, out) /\
      (if receipt_saved then tx_status u = st else u = t)) as Hfin.
  { intros st Hst s2 Hr. unfold repo_call, saved. rewrite Hr. destruct receipt_saved.
    - destruct (finished_repo owner ws id rev st now3 (cs_repo s1) t Hget Hown Hws Hrev Hl Hst) as (u & -> & Hu). by exists u, (Ok u).
    - exists t, (Err ConsoleStorageUnavailableError). split; [|done]. unfold m_raise. f_equal.
      unfold transactions_of in Hget. rewrite (dset_id _ _ _ Hget). f_equal. by destruct (cs_repo s1). }
  pose proof (proj1 (live_status t) Hl) as Hlive.
  assert (forall u e s2, e <> PgUnfinished -> agrees honest false (tx_status u) e -> (honest = true -> e = PgCommitted -> tx_status u = TCommitted) ->
    transactions_of s2 = dset id u (transactions_of s1) -> cs_active s2 = dpop id (cs_active s1) ->
    cs_objects s2 = dset (act_postgres a) {| pt_closed := true; pt_end := e |} (cs_objects s1) -> ok s2) as Hgone
    by (intros u e s2 ? ? ? ? ? ?; by eapply (ok_gone s1 s2 id a t u e)).
  unfold attempted, m_bind at 1, on_object. rewrite Hobj. destruct action.
  - unfold pg_commit. rewrite bind_get, bind_guard. cbn [pt_closed]. rewrite bind_guard. destruct authorized; cbn [negb].
    2: { cbn [m_raise fst]. apply (ok_same _ _ s1); try done. cbn [put_objects cs_objects]. by apply dset_id. }
    rewrite bind_update. destruct confirmed; cbn [negb m_guard m_lift guard_err].
    + unfold drop_session. rewrite bind_update. unfold m_bind, translated.
      destruct (Hfin TCommitted ltac:(set_solver) (put_active (dpop id (cs_active s1)) (put_objects (dset (act_postgres a) {| pt_closed := true; pt_end := PgCommitted |} (cs_objects s1)) s1)) eq_refl) as (u & out & Hrun & Hu).
      cbn [put_objects cs_active finish_status] in *. rewrite Hrun.
      assert (ok (put_repo (put_transactions (dset id u (cr_transactions (cs_repo s1))) (cs_repo s1))
        (put_active (dpop id (cs_active s1)) (put_objects (dset (act_postgres a) {| pt_closed := true; pt_end := PgCommitted |} (cs_objects s1)) s1)))) as Hfinal.
      { apply (Hgone u PgCommitted); try done.
        - destruct receipt_saved; [by rewrite Hu|]. subst u. destruct Hlive as [->| ->]; intros Hh; by specialize (Hhonest Hh).
        - intros Hh _. rewrite (Hhonest Hh) in Hu. done. }
      by destruct out.
    + unfold m_bind at 1. destruct (Hfin TUncertain ltac:(set_solver) (put_objects (dset (act_postgres a) {| pt_closed := true; pt_end := PgUncertain |} (cs_objects s1)) s1) eq_refl) as (u & out & Hrun & Hu).
      rewrite Hrun. unfold drop_session. rewrite bind_update. cbn [m_raise fst]. apply (Hgone u PgUncertain); try done.
      destruct receipt_saved; [by rewrite Hu|]. subst u. destruct Hlive as [->| ->]; intros Hh; by specialize (Hhonest Hh).
  - unfold pg_rollback. rewrite bind_get. cbn [pt_closed]. unfold pg_close. rewrite bind_update. cbn [pt_closed]. destruct answered; cbn [negb m_guard m_lift guard_err].
    + unfold drop_session. rewrite bind_update. unfold m_bind, translated.
      destruct (Hfin TRolledBack ltac:(set_solver) (put_active (dpop id (cs_active s1)) (put_objects (dset (act_postgres a) {| pt_closed := true; pt_end := PgRolledBack |} (cs_objects s1)) s1)) eq_refl) as (u & out & Hrun & Hu).
      cbn [put_objects cs_active finish_status] in *. rewrite Hrun.
      assert (ok (put_repo (put_transactions (dset id u (cr_transactions (cs_repo s1))) (cs_repo s1))
        (put_active (dpop id (cs_active s1)) (put_objects (dset (act_postgres a) {| pt_closed := true; pt_end := PgRolledBack |} (cs_objects s1)) s1)))) as Hfinal.
      { apply (Hgone u PgRolledBack); try done. destruct receipt_saved; [by rewrite Hu|]. subst u. by destruct Hlive as [->| ->]. }
      by destruct out.
    + unfold drop_session. rewrite bind_update. cbn [m_raise fst]. apply (Hgone t PgRolledBack); try done; [by destruct Hlive as [->| ->]|].
      symmetry. by apply dset_id.
Qed.
End receipts.

#[export] Hint Resolve ok_fail_transaction ok_reserve ok_prune keeps_transaction_record keeps_live_session : keeping.

Section other.
Context {raw cursor : Type}.
Abbreviation State := (@ConsoleState raw cursor).
Implicit Types (s : State).
Variables (honest : bool).
Abbreviation ok := (receipts_true honest).
Variables (maximum per_identity : nat) (row_page_size history_limit : Z) (ttl idle_ttl maximum_ttl : Z).
Variable validate_read_only : list string -> result ConsoleStatementValidationError (list string).
Variable validate_transaction : list string -> result ConsoleStatementValidationError ConsoleTransactionScript.

Lemma keeps_registry {E} opened (f : State -> @Registry raw cursor) : keeps (E := E) (ok opened) (m_update (fun s => put_registry (f s) s)).
Proof. apply keeps_update. intros s Hs. by apply (ok_same _ _ s). Qed.

Lemma keeps_settings opened owner : keeps (ok opened) (service_settings (raw := raw) (cursor := cursor) row_page_size owner).
Proof. unfold service_settings. keep_parts. Qed.

Lemma keeps_validate opened owner revision : keeps (ok opened) (validate_settings_revision (raw := raw) (cursor := cursor) row_page_size owner revision).
Proof. unfold validate_settings_revision. apply keeps_bind; [apply keeps_settings|]. keep_parts. Qed.

Lemma keeps_history opened ran_at record : keeps (ok opened) (service_record_history (raw := raw) (cursor := cursor) history_limit ran_at record).
Proof. unfold service_record_history. keep_parts. Qed.

Lemma keeps_run_failure opened now owner k e : keeps (ok opened) (record_run_failure (raw := raw) (cursor := cursor) now owner k e).
Proof.
  unfold record_run_failure. apply keeps_bind; [apply (keeps_registry opened (fun s => unprotect k (cs_registry s)))|]. intros _. apply keeps_ignored, keeps_quiet.
  apply quiet_seq; [apply quiet_owned_record|]. intros x. destruct e; apply quiet_fail.
Qed.

Lemma keeps_update_settings opened owner revision page_size :
  keeps (ok opened) (service_update_settings (raw := raw) (cursor := cursor) row_page_size owner revision page_size).
Proof. unfold service_update_settings. apply keeps_bind; [auto with keeping|]. intros _. apply keeps_bind; [auto with keeping|]. intros _. apply keeps_settings. Qed.

Lemma keeps_service_reserve opened now now1 token owner ws workspace profile wrev console srev statements :
  keeps (ok opened) (service_reserve (raw := raw) (cursor := cursor) row_page_size ttl validate_read_only now now1 token owner ws workspace profile wrev console srev statements).
Proof.
  unfold service_reserve, reserve_read. apply keeps_bind; [auto with keeping|]. intros found. apply keeps_bind; [auto with keeping|]. intros _.
  apply keeps_bind; [auto with keeping|]. intros _. apply keeps_bind; [apply keeps_validate|]. keep_parts.
Qed.

Lemma keeps_mapped {E F A} opened (m : method State E A) (f : E -> F) :
  keeps (ok opened) m -> keeps (ok opened) (fun s => let '(s', out) := m s in (s', match out with Ok a => Ok a | Err e => Err (f e) end)).
Proof. intros Hm s Hs. specialize (Hm s Hs). by destruct (m s). Qed.

Lemma keeps_service_run opened now now1 now2 now3 now4 now5 now6 now7 tokens owner k resolved started answer :
  keeps (raw := raw) (cursor := cursor) (ok opened) (service_run maximum per_identity history_limit ttl now now1 now2 now3 now4 now5 now6 now7 tokens owner k resolved started answer).
Proof.
  unfold service_run. apply keeps_bind; [auto with keeping|]. intros [[record|]|e]; [|auto with keeping|apply keeps_run_failure].
  destruct resolved as [target|]; [|apply keeps_run_failure]. destruct (negb _).
  { apply keeps_bind; [auto with keeping|]. intros [x|e]; [auto with keeping|apply keeps_run_failure]. }
  apply keeps_bind; [apply keeps_attempted|].
  - unfold run_read. intros s Hs. rewrite bind_get. destruct (make_read_session_capacity _ _ _ _ _) as [g room]. revert s Hs.
    match goal with |- forall s, _ -> ok opened (?m s).1 => change (keeps (ok opened) m) end.
    apply keeps_bind; [apply (keeps_registry opened (fun _ => g))|]. intros _. apply keeps_bind; [auto with keeping|]. intros _. apply keeps_bind.
    { destruct started as [pid|]; [|auto with keeping]. apply keeps_bind; [apply keeps_mapped; auto with keeping|]. intros [|]; [|auto with keeping].
      intros s Hs. pose proof (keeps_history opened now3 record s Hs) as H. by destruct (service_record_history history_limit now3 record s) as [s' []]. }
    intros _. apply keeps_bind; [auto with keeping|]. intros o.
    apply keeps_bind; [apply (keeps_registry opened (fun s => with_store (dset (os_id o) (os_session o) (rg_store (cs_registry s))) (cs_registry s)))|].
    intros _. apply keeps_bind; [apply keeps_mapped; auto with keeping|]. intros completed. intros s Hs. rewrite bind_get.
    destruct (retain_results _ _ _ _ _ _ _ _) as [g' retained]. rewrite bind_update. by apply (ok_same _ _ s).
  - intros [x|[e session]]; [auto with keeping|]. apply keeps_bind; [|intros _; apply keeps_run_failure].
    apply keeps_update. intros s Hs. destruct session; [by apply (ok_same _ _ s)|done].
Qed.

Lemma keeps_reserve_transaction opened now now1 now2 now3 answered profile token owner ws id rev statements :
  keeps (ok opened) (reserve_transaction_execution (raw := raw) (cursor := cursor) row_page_size idle_ttl validate_transaction now now1 now2 now3 answered profile token owner ws id rev statements).
Proof.
  unfold reserve_transaction_execution. apply keeps_bind; [auto with keeping|]. intros script. do 2 (apply keeps_bind; [auto with keeping|]; intros _).
  intros s Hs. unfold m_bind at 1. destruct (live_session _ _ _ _ _ _ _ s) as [s1 [a|e]] eqn:H1; destruct (live_session_spec _ _ _ _ _ _ _ _ _ _ _ _ Hs H1) as [Hs1 Ha]; [|done].
  destruct (Ha a eq_refl) as (Hact & _). unfold m_bind at 1.
  destruct (transaction_record _ _ _ _ _ s1) as [s2 [t|e]] eqn:H2; destruct (transaction_record_spec _ _ _ _ _ _ _ _ _ _ Hs1 H2) as [Hs2 Ht]; [|done].
  destruct (Ht t eq_refl) as (_ & _ & _ & Hsame). rewrite !bind_guard. case_bool_decide; [done|].
  case_bool_decide as Hopen; cbn [negb]; [|done]. rewrite (Hsame (proj2 (live_status t) (or_introl Hopen))) in *. clear s2 H2 Ht Hs2 Hsame. case_bool_decide; cbn [negb]; [|done].
  case_bool_decide.
  - unfold m_bind. destruct (expire_live_spec honest opened now3 answered owner id s1 a Hs1 Hact) as (Hok & _).
    destruct (expire_live_run now3 answered owner id a s1) as [s2 Hrun]. rewrite Hrun in *. done.
  - revert Hs1. generalize s1. match goal with |- forall s, ok opened s -> ok opened (?m s).1 => change (keeps (ok opened) m) end.
    apply keeps_bind; [apply keeps_settings|]. keep_parts.
Qed.

Lemma keeps_transaction_failed opened now now1 owner k tx e : keeps (ok opened) (transaction_run_failed (raw := raw) (cursor := cursor) now now1 owner k tx e).
Proof. unfold transaction_run_failed. apply keeps_bind; [apply keeps_run_failure|]. intros _. destruct tx; auto with keeping. Qed.

Lemma keeps_run_begin opened now now1 now2 now3 now4 now5 now6 now7 answered profile owner k :
  keeps (ok opened) (run_transaction_begin (raw := raw) (cursor := cursor) history_limit now now1 now2 now3 now4 now5 now6 now7 answered profile owner k).
Proof.
  unfold run_transaction_begin. apply keeps_bind; [auto with keeping|].
  assert (forall tx e, keeps (ok opened) (m_bind (transaction_run_failed (raw := raw) (cursor := cursor) now6 now7 owner k tx e)
    (fun _ : unit => m_return (None : option (ConsoleExecutionRecord * string * string))))) as Hfail
    by (intros; apply keeps_bind; [apply keeps_transaction_failed|auto with keeping]).
  intros [[record|]|e]; [|auto with keeping|apply Hfail]. destruct (ce_transaction_id _) as [tx|]; [|apply Hfail].
  apply keeps_bind; [apply keeps_attempted|].
  - apply keeps_bind; [auto with keeping|]. intros a. apply keeps_bind; [auto with keeping|]. intros t. apply keeps_bind; [auto with keeping|]. intros _.
    apply keeps_bind; [auto with keeping|]. intros accepted. apply keeps_bind; [|auto with keeping]. destruct accepted; [apply keeps_history|auto with keeping].
  - intros [[a [|]]|e]; [auto with keeping|apply Hfail|apply Hfail].
Qed.

Lemma keeps_run_end opened now now1 now2 now3 tokens owner record tx answer :
  keeps (ok opened) (run_transaction_end (raw := raw) (cursor := cursor) maximum ttl now now1 now2 now3 tokens owner record tx answer).
Proof.
  unfold run_transaction_end. destruct answer as [results|e]; [|apply keeps_transaction_failed]. apply keeps_bind; [auto with keeping|].
  intros [x|e]; [|apply keeps_transaction_failed].
  apply (keeps_registry opened (fun s => (retain_results maximum now2 record (cer_execution x) results (now + ttl)%Z None (cs_registry s)).1)).
Qed.

Lemma keeps_cancel opened now owner ws k : keeps (ok opened) (service_cancel (raw := raw) (cursor := cursor) now owner ws k).
Proof.
  unfold service_cancel. apply keeps_bind.
  - apply keeps_translated, keeps_quiet. apply quiet_seq; [apply quiet_owned_record|]. intros x. apply quiet_seq; [by intros r|]. intros _. apply quiet_request_cancel.
  - intros record. apply keeps_bind; [apply (keeps_registry opened (fun s => cancel_transient k (cs_registry s)))|]. intros _. keep_parts.
Qed.
End other.
