(* ===== verification/ConsoleServiceTheorems.v ===== *)
(** * What the console promises of explicit transactions

    Runs of the console service: any sequence of its handlers, with any answers of PostgreSQL,
    of the connection store and of the storage of receipts.  A handler is one step, except
    [run_transaction], which is two: statements run on PostgreSQL between its parts, while
    other handlers proceed. *)

From Stdlib Require Import Ascii String.
From stdpp Require Import relations.
From S2P Require Import Prelude PyString Json DesignModels WorkspaceStore ConsoleStore ConsoleProps ConsoleSession ConsoleResults ConsoleExamples ConsoleStatements ConsoleService ConsoleServiceProps.
Open Scope string_scope.
Open Scope list_scope.

Set Default Proof Using "Type".

Section create.
Context {raw cursor : Type}.
Abbreviation State := (@ConsoleState raw cursor).
Implicit Types (s : State).
Variable honest : bool.
Abbreviation ok := (receipts_true honest).

(** ** Opening *)

Definition absent (o : string) s : Prop := dget o (cs_objects s) = None.

Lemma absent_on_object {A} o id (m : method PgTransaction gateway_error A) : keeps (raw := raw) (cursor := cursor) (absent o) (on_object id m).
Proof.
  intros s Hs. unfold on_object. destruct (dget id (cs_objects s)) as [t|] eqn:Ht; [|done]. destruct (m t) as [t' out].
  unfold absent in *. cbn [fst put_objects cs_objects]. rewrite dget_dset_ne; [done|]. intros ->. congruence.
Qed.

Lemma absent_repo {A} o (m : console_method A) : keeps (raw := raw) (cursor := cursor) (absent o) (repo_call m).
Proof. intros s Hs. unfold repo_call. by destruct (m (cs_repo s)). Qed.

Lemma absent_record o now answered owner ws id : keeps (raw := raw) (cursor := cursor) (absent o) (transaction_record now answered owner ws id).
Proof.
  unfold transaction_record, expire_live, drop_session.
  repeat (first [ progress intros | apply keeps_bind | apply absent_on_object | apply absent_repo | solve [auto 4 using absent_on_object, absent_repo with keeping]
    | (apply keeps_update; by intros) | case_match ]).
Qed.

(** An object that no transaction was created with. *)
Lemma ok_unlinked opened s s' o p :
  ok opened s -> absent o s -> transactions_of s' = transactions_of s -> cs_active s' = cs_active s -> cs_objects s' = dset o p (cs_objects s) -> ok opened s'.
Proof.
  intros [H1 H2 H3 H4 H5 H6 H7] Hn Ht Ha Ho.
  assert (forall id x, dget id opened = Some x -> dget x (cs_objects s') = dget x (cs_objects s)) as Hkeep.
  { intros id x Hx. rewrite Ho, dget_dset_ne; [done|]. intros ->. destruct (H4 _ _ Hx) as [y Hy]. unfold absent in Hn. congruence. }
  split; unfold held; rewrite ?Ht, ?Ha; try done.
  - intros id t Hid. destruct (H1 _ _ Hid) as (x & y & E1 & E2 & E3). exists x, y. by rewrite (Hkeep _ _ E1).
  - intros id a Hid. destruct (H2 _ _ Hid) as (E1 & E2 & E3). by rewrite (Hkeep _ _ E1).
  - intros id x Hx. rewrite (Hkeep _ _ Hx). by eapply H4.
  - intros Hh id x Hx. rewrite (Hkeep _ _ Hx). by apply (H5 Hh id).
  - intros id x y Hx. rewrite (Hkeep _ _ Hx). by apply (H6 id).
Qed.

Lemma ok_created opened s s' id o t a :
  ok opened s -> absent o s -> dget id opened = None -> tx_status t = TOpen -> act_postgres a = o -> ctr_owner_id t = act_owner_id a ->
  ct_workspace_id (ctr_transaction t) = act_workspace_id a ->
  transactions_of s' = dset id t (transactions_of s) -> cs_active s' = dset id a (cs_active s) ->
  cs_objects s' = dset o {| pt_closed := false; pt_end := PgUnfinished |} (cs_objects s) -> ok ((id, o) :: opened) s'.
Proof.
  intros [H1 H2 H3 H4 H5 H6 [H7 H8]] Hn Hid Hst Hpo Ho Hw Htx Hac Hob.
  assert (forall k x, dget k opened = Some x -> k <> id /\ x <> o) as Hne.
  { intros k x Hx. split; [congruence|]. intros ->. destruct (H4 _ _ Hx) as [y Hy]. unfold absent in Hn. congruence. }
  assert (forall k x, dget k ((id, o) :: opened) = Some x -> (k = id /\ x = o) \/ (k <> id /\ x <> o /\ dget k opened = Some x)) as Hcase.
  { intros k x. simpl. case_decide as Hk; [intros [= <-]; by left|]. intros Hx. right. by destruct (Hne _ _ Hx). }
  assert (forall k x, dget k opened = Some x -> dget k ((id, o) :: opened) = Some x) as Hsub.
  { intros k x Hx. simpl. rewrite decide_False; [done|]. by destruct (Hne _ _ Hx). }
  assert (dget id ((id, o) :: opened) = Some o) as Hnew by (simpl; by rewrite decide_True).
  assert (forall k x, dget k opened = Some x -> dget x (cs_objects s') = dget x (cs_objects s)) as Hkeep.
  { intros k x Hx. rewrite Hob, dget_dset_ne; [done|]. by destruct (Hne _ _ Hx). }
  assert (dget o (cs_objects s') = Some {| pt_closed := false; pt_end := PgUnfinished |}) as Hobj by (by rewrite Hob, dget_dset_eq).
  assert (forall k, k <> id -> held s' k = held s k) as Hheld by (intros k Hk; unfold held; by rewrite Hac, dget_dset_ne).
  split; rewrite ?Htx, ?Hac.
  - intros k x. rewrite dget_dset. case_decide as Hk.
    + subst k. intros [= <-]. exists o, {| pt_closed := false; pt_end := PgUnfinished |}. split_and!; try done. rewrite Hst. unfold held.
      rewrite Hac, dget_dset_eq, bool_decide_eq_true_2 by eauto. done.
    + intros Hx. destruct (H1 _ _ Hx) as (y & p & E1 & E2 & E3). exists y, p. rewrite (Hkeep _ _ E1), Hheld by done. split_and!; try done. by apply Hsub.
  - intros k b. rewrite dget_dset. case_decide as Hk.
    + subst k. intros [= <-]. rewrite Hpo. split_and!; try done. exists t. rewrite dget_dset_eq. split_and!; try done. apply live_status. by left.
    + intros Hb. destruct (H2 _ _ Hb) as (E1 & E2 & x & E3 & E4). rewrite (Hkeep _ _ E1). split_and!; try done; [by apply Hsub|]. exists x. by rewrite dget_dset_ne.
  - intros k1 k2 x Hx Hy. destruct (Hcase _ _ Hx) as [[-> ->]|(? & ? & ?)], (Hcase _ _ Hy) as [[-> ?]|(? & ? & ?)]; try done. by eapply H3.
  - intros k x Hx. destruct (Hcase _ _ Hx) as [[-> ->]|(? & ? & Hx')]; [rewrite Hobj; eauto|]. rewrite (Hkeep _ _ Hx'). by eapply H4.
  - intros Hh k x Hx Hp y. destruct (Hcase _ _ Hx) as [[-> ->]|(Hk & ? & Hx')]; [congruence|]. rewrite dget_dset_ne by done. rewrite (Hkeep _ _ Hx') in Hp. by eapply H5.
  - intros k x p Hx Hp. destruct (Hcase _ _ Hx) as [[-> ->]|(? & ? & Hx')]; [rewrite Hobj in Hp; by injection Hp as <-|]. rewrite (Hkeep _ _ Hx') in Hp. by eapply H6.
  - split; by apply dset_wf.
Qed.

Variables (row_page_size idle_ttl maximum_ttl : Z).

(** The table holds the transaction with this token, or nothing was opened. *)
Definition created opened (token : string) (answer : result gateway_error (string * Z)) s : Prop :=
  exists opened', ok opened' s /\ (opened' = opened \/ exists o pid, answer = Ok (o, pid) /\ opened' = (("ctx_" ++ token)%string, o) :: opened /\
    is_Some (dget ("ctx_" ++ token)%string (cs_active s))).

Lemma create_ok opened now now1 answered token owner ws workspace profile resolved answer console wrev srev s :
  ok opened s -> (forall o pid, answer = Ok (o, pid) -> absent o s) -> dget ("ctx_" ++ token)%string opened = None ->
  created opened token answer
    (service_create_transaction row_page_size idle_ttl maximum_ttl now now1 answered token owner ws workspace profile resolved answer console wrev srev s).1.
Proof.
  intros Hs Hfresh Htok.
  assert (forall x : State, ok opened x -> created opened token answer x) as Hleft by (intros x Hx; exists opened; auto).
  set (P := fun s => ok opened s /\ forall o pid, answer = Ok (o, pid) -> absent o s).
  assert (forall A (m : method State service_error A), keeps (ok opened) m -> (forall o, keeps (absent o) m) -> keeps P m) as HP.
  { intros A m H1 H2 x [Hx1 Hx2]. split; [by apply H1|]. intros o pid Ho. by eapply H2, Hx2. }
  unfold service_create_transaction. unfold m_bind at 1.
  assert (P (validate_settings_revision row_page_size owner srev s).1) as [Hs1 Hf1].
  { apply HP; [apply keeps_validate| |by split]. intros o. unfold validate_settings_revision, service_settings. keep_parts; apply keeps_translated, absent_repo. }
  destruct (validate_settings_revision row_page_size owner srev s) as [s1 [pref|e]]; [|by apply Hleft]. cbn [fst] in *. clear s Hs Hfresh.
  unfold m_bind at 1, m_lift. destruct (workspace_target owner workspace wrev profile) as [[wk target]|e]; [|by apply Hleft]. rewrite bind_get. cbn [fst snd].
  match goal with |- context [m_bind ?m _ s1] => assert (keeps P m) as Hexist end.
  { destruct (List.find _ _) as [[id a]|]; [|by intros x]. apply HP.
    - apply keeps_bind; [auto with keeping|]. intros t. keep_parts.
    - intros o. apply keeps_bind; [apply absent_record|]. intros t. keep_parts. }
  specialize (Hexist s1 (conj Hs1 Hf1)). unfold m_bind at 1.
  match goal with |- context [match ?m s1 with _ => _ end] => destruct (m s1) as [s2 [existing|e]] end; destruct Hexist as [Hs2 Hf2]; [|by apply Hleft].
  cbn [fst] in *. clear s1 Hs1 Hf1. destruct existing as [t|]; [by apply Hleft|]. rewrite bind_guard. destruct (negb (same_target owner target resolved)); [by apply Hleft|].
  unfold m_bind at 1. destruct answer as [[o pid]|e]; [|by apply Hleft]. cbn [m_lift]. specialize (Hf2 o pid eq_refl). rewrite bind_update. unfold m_bind at 1, attempted at 1, repo_call at 1.
  cbn [put_objects cs_repo fst snd]. unfold create_transaction. rewrite bind_get, bind_guard.
  set (s3 := put_objects (dset o {| pt_closed := false; pt_end := PgUnfinished |} (cs_objects s2)) s2).
  assert (forall r e, cr_transactions r = cr_transactions (cs_repo s2) ->
    ok opened (m_bind (attempted (on_object o (pg_rollback answered)))
      (fun out => m_bind (match out with Ok _ => m_return tt | Err _ => ignored (on_object o pg_close) end) (fun _ : unit => m_raise (A := ConsoleTransaction) e)) (put_repo r s3)).1) as Hfail.
  { intros r e Hr. unfold m_bind at 1, attempted, on_object at 1. cbn [put_repo s3 put_objects cs_objects]. rewrite dget_dset_eq.
    unfold pg_rollback. rewrite bind_get. cbn [pt_closed]. unfold pg_close. rewrite bind_update. cbn [pt_closed].
    destruct answered; cbn [negb m_guard m_lift guard_err].
    - cbn [m_bind m_return m_raise fst]. apply (ok_unlinked opened s2 _ o {| pt_closed := true; pt_end := PgRolledBack |}); try done. cbn [put_objects cs_objects put_repo]. by rewrite !dset_dset.
    - unfold m_bind, ignored, on_object. cbn [put_objects cs_objects]. rewrite dget_dset_eq. cbn [pt_closed m_update m_raise fst].
      apply (ok_unlinked opened s2 _ o {| pt_closed := true; pt_end := PgRolledBack |}); try done. cbn [put_objects cs_objects put_repo]. by rewrite !dset_dset. }
  destruct (existsb _ _); [by apply Hleft, Hfail|]. rewrite bind_guard. destruct (ConsoleTransaction_check _); cbn [negb]; [|by apply Hleft, Hfail].
  unfold store_transaction. rewrite bind_update. cbn [m_return]. rewrite bind_update. cbn [m_return fst]. eexists. split; [|right; exists o, pid; split_and!; [done|done|]; cbn [fst put_active cs_active]; rewrite dget_dset_eq; eauto].
  eapply (ok_created opened s2 _ ("ctx_" ++ token)%string o); try done; reflexivity.
Qed.

(** ** Closing *)

Lemma close_ok opened now answered sessions s :
  ok opened (put_active sessions s) -> cs_active s = [] ->
  let s' := (close_transactions (raw := raw) (cursor := cursor) now answered sessions s).1 in ok opened s' /\ cs_active s' = [].
Proof.
  revert s. induction sessions as [|[id a] rest IH]; intros s Hs Hn; [split; [|done]; apply (ok_same _ _ (put_active [] s)); done|].
  assert (dget id (cs_active (put_active ((id, a) :: rest) s)) = Some a) as Ha by (simpl; by rewrite decide_True).
  destruct (rt_active _ _ _ Hs _ _ Ha) as (Hid & Hobj & t & Ht & Hl & Hown & _).
  assert (dpop id ((id, a) :: rest) = rest) as Hpop.
  { destruct (rt_wf _ _ _ Hs) as [_ Hwf]. cbn [put_active cs_active] in Hwf. unfold dwf, dkeys in Hwf. rewrite fmap_cons, NoDup_cons in Hwf. destruct Hwf as [Hwf _].
    unfold dpop. rewrite filter_cons, decide_False by (simpl; tauto). apply filter_all, Forall_forall. intros [k x] Hin Heq. simpl in Heq. subst k.
    apply Hwf, list_elem_of_fmap. by exists (id, x). }
  cbn [close_transactions]. cbv zeta.
  assert (exists s1, (close_transactions now answered ((id, a) :: rest) s).1 = (close_transactions now answered rest s1).1 /\ cs_active s1 = [] /\
    cs_repo s1 = (expire_transaction (act_owner_id a) id now (cs_repo s)).1 /\
    cs_objects s1 = dset (act_postgres a) {| pt_closed := true; pt_end := PgRolledBack |} (cs_objects s)) as (s1 & Hrun & R1 & R2 & R3).
  { cbn [close_transactions]. unfold m_bind at 1, attempted, on_object at 1. cbn [put_active cs_objects] in Hobj. rewrite Hobj.
    unfold pg_rollback. rewrite bind_get. cbn [pt_closed]. unfold pg_close. rewrite bind_update. cbn [pt_closed]. destruct answered; cbn [negb m_guard m_lift guard_err].
    - cbn [m_bind m_return]. unfold m_bind, ignored, repo_call. cbn [put_objects cs_repo]. destruct (expire_transaction _ _ _ (cs_repo s)) as [r out].
      eexists. split; [reflexivity|]. done.
    - unfold m_bind, ignored, on_object. cbn [put_objects cs_objects]. rewrite dget_dset_eq. cbn [pt_closed m_update]. unfold repo_call. cbn [fst put_objects cs_repo cs_objects].
      destruct (expire_transaction _ _ _ (cs_repo s)) as [r out].
      set (p := {| pt_closed := true; pt_end := PgRolledBack |}). exists (put_repo r (put_objects (dset (act_postgres a) p (dset (act_postgres a) p (cs_objects s))) s)).
      split_and!; [reflexivity|done|done|]. cbn [put_repo put_objects cs_objects]. by rewrite dset_dset. }
  cbn [close_transactions] in Hrun. rewrite Hrun. apply IH; [|done].
  destruct (expired_repo (act_owner_id a) id now (cs_repo s) t Ht) as (u & Hu & Hcase & _).
  apply (ok_gone _ _ (put_active ((id, a) :: rest) s) _ id a t u PgRolledBack); try done.
  - apply live_status in Hl. destruct Hcase as [->|Hx]; [by destruct Hl as [->| ->]|by rewrite Hx].
  - unfold transactions_of. cbn [put_active cs_repo]. by rewrite R2.
Qed.

Lemma keeps_close opened now answered : keeps (ok opened) (service_close (raw := raw) (cursor := cursor) now answered).
Proof.
  intros s Hs. unfold service_close. rewrite bind_get, bind_update. unfold m_bind.
  destruct (close_ok opened now answered (cs_active s) (put_active [] s)) as [Hok _]; [by apply (ok_same _ _ s)|done|].
  destruct (close_transactions now answered (cs_active s) (put_active [] s)) as [s' [[]|e]]; [|done]. by apply (ok_same _ _ s').
Qed.
End create.

(** ** Runs *)

Section runs.
Context {raw cursor : Type}.
Abbreviation State := (@ConsoleState raw cursor).
Variable honest : bool.
Variables (maximum per_identity : nat) (row_page_size history_limit : Z) (ttl idle_ttl maximum_ttl : Z).
Variable validate_read_only : list string -> result ConsoleStatementValidationError (list string).
Variable validate_transaction : list string -> result ConsoleStatementValidationError ConsoleTransactionScript.

(** The service with the transactions that were ever in its table, each with its object, and the
    calls of [run_transaction] that wait for PostgreSQL. *)
Record ServiceWorld := {
  sw_state : State;
  sw_opened : list (string * string);
  sw_running : list (string * (ConsoleExecutionRecord * string * string));
}.
Definition in_state (w : ServiceWorld) (s : State) : ServiceWorld := {| sw_state := s; sw_opened := sw_opened w; sw_running := sw_running w |}.
Definition empty_service : ServiceWorld :=
  {| sw_state := {| cs_repo := InMemoryConsoleRepository; cs_registry := empty_registry; cs_active := []; cs_objects := [] |}; sw_opened := []; sw_running := [] |}.

(** The pair of a transaction and its object, when the creation put it into the table. *)
Definition linked (token : string) (answer : result gateway_error (string * Z)) (s : State) : list (string * string) :=
  match answer with
  | Ok (o, _) => if bool_decide (is_Some (dget ("ctx_" ++ token)%string (cs_active s))) then [(("ctx_" ++ token)%string, o)] else []
  | Err _ => []
  end.

(** Tokens and objects are new.  With [honest], outcomes are always stored. *)
Inductive service_step (w : ServiceWorld) : ServiceWorld -> Prop :=
| do_create now now1 answered token owner ws workspace profile resolved answer console wrev srev :
    dget ("ctx_" ++ token)%string (sw_opened w) = None -> (forall o pid, answer = Ok (o, pid) -> absent o (sw_state w)) ->
    let s := (service_create_transaction row_page_size idle_ttl maximum_ttl now now1 answered token owner ws workspace profile resolved answer
                console wrev srev (sw_state w)).1 in
    service_step w {| sw_state := s; sw_opened := linked token answer s ++ sw_opened w; sw_running := sw_running w |}
| do_get now answered owner ws id :
    service_step w (in_state w (service_get_transaction now answered owner ws id (sw_state w)).1)
| do_reserve_transaction now now1 now2 now3 answered profile token owner ws id rev statements :
    service_step w (in_state w (reserve_transaction_execution row_page_size idle_ttl validate_transaction now now1 now2 now3 answered profile token
      owner ws id rev statements (sw_state w)).1)
| do_run_begin now now1 now2 now3 now4 now5 now6 now7 answered profile owner k :
    let out := run_transaction_begin history_limit now now1 now2 now3 now4 now5 now6 now7 answered profile owner k (sw_state w) in
    service_step w {| sw_state := out.1; sw_opened := sw_opened w;
      sw_running := (match out.2 with Ok (Some run) => [(owner, run)] | _ => [] end) ++ sw_running w |}
| do_run_end before after owner record tx o now now1 now2 now3 tokens answer :
    sw_running w = before ++ (owner, (record, tx, o)) :: after ->
    let executed := on_object o (pg_execute answer) (sw_state w) in
    service_step w {| sw_state := (run_transaction_end maximum ttl now now1 now2 now3 tokens owner record tx executed.2 executed.1).1;
      sw_opened := sw_opened w; sw_running := before ++ after |}
| do_finish now now1 now2 now3 answered authorized confirmed receipt_saved profile owner ws id rev action :
    (honest = true -> receipt_saved = true) ->
    service_step w (in_state w (service_finish_transaction now now1 now2 now3 answered authorized confirmed receipt_saved profile owner ws id rev action (sw_state w)).1)
| do_cancel_execution now owner ws k :
    service_step w (in_state w (service_cancel now owner ws k (sw_state w)).1)
| do_reserve_read now now1 token owner ws workspace profile wrev console srev statements :
    service_step w (in_state w (service_reserve row_page_size ttl validate_read_only now now1 token owner ws workspace profile wrev console srev
      statements (sw_state w)).1)
| do_run_read now now1 now2 now3 now4 now5 now6 now7 tokens owner k resolved started answer :
    service_step w (in_state w (service_run maximum per_identity history_limit ttl now now1 now2 now3 now4 now5 now6 now7 tokens owner k resolved
      started answer (sw_state w)).1)
| do_settings owner revision page_size :
    service_step w (in_state w (service_update_settings row_page_size owner revision page_size (sw_state w)).1)
| do_shutdown now answered :
    service_step w (in_state w (service_close now answered (sw_state w)).1).

Lemma executed_ok opened o answer : keeps (raw := raw) (cursor := cursor) (receipts_true honest opened) (on_object o (pg_execute answer)).
Proof.
  intros s Hs. unfold on_object. destruct (dget o (cs_objects s)) as [p|] eqn:Hp; [|done]. unfold pg_execute. rewrite bind_get, bind_guard.
  destruct (pt_closed p); apply (ok_same _ _ s); try done; apply dset_id, Hp.
Qed.

Lemma service_step_ok w w' : service_step w w' -> receipts_true honest (sw_opened w) (sw_state w) -> receipts_true honest (sw_opened w') (sw_state w').
Proof.
  intros [] Hok; cbn [in_state sw_opened sw_state].
  - destruct (create_ok honest row_page_size idle_ttl maximum_ttl _ now now1 answered token owner ws workspace profile resolved answer console wrev srev _ Hok H0 H)
      as (opened' & Hok' & Hcase). fold s in Hok', Hcase. unfold linked. destruct Hcase as [->|(o & pid & -> & -> & Hin)].
    + destruct answer as [[o pid]|]; [|done]. case_bool_decide as Hin; [|done]. destruct Hin as [a Ha].
      destruct (rt_active _ _ _ Hok' _ _ Ha) as [Hid _]. congruence.
    + by rewrite bool_decide_eq_true_2.
  - unfold service_get_transaction. revert Hok. generalize (sw_state w). apply keeps_bind; auto with keeping.
  - by apply keeps_reserve_transaction.
  - by apply keeps_run_begin.
  - by apply keeps_run_end, executed_ok.
  - by apply ok_finish.
  - by apply keeps_cancel.
  - by apply keeps_service_reserve.
  - by apply keeps_service_run.
  - by apply keeps_update_settings.
  - by apply keeps_close.
Qed.

Lemma empty_service_ok : receipts_true honest (sw_opened empty_service) (sw_state empty_service).
Proof. by split; try done; split; apply NoDup_nil. Qed.

Lemma service_reachable_ok w : rtc service_step empty_service w -> receipts_true honest (sw_opened w) (sw_state w).
Proof.
  intros Hrun. cut (receipts_true honest (sw_opened empty_service) (sw_state empty_service)); [|apply empty_service_ok].
  induction Hrun as [w|w1 w2 w3 Hstep _ IH]; [done|]. intros H1. apply IH. by eapply service_step_ok.
Qed.

(** ** Theorems *)


End runs.

(** ** Transactions at work

    Witnesses on sample scripts and a sample transaction, and what the console reports when a
    receipt could not be stored. *)

(** ** Scripts *)

(** A parser that knows a few texts. *)
Definition sample_parse (text : string) : option (list raw_stmt) :=
  if bool_decide (text = "SELECT 1; SHOW all") then
    Some [{| raw_node := SelectStmt false; stmt_location := 0; stmt_len := 8 |}; {| raw_node := VariableShowStmt; stmt_location := 9; stmt_len := 0 |}]
  else if bool_decide (text = "DELETE FROM t; COMMIT") then
    Some [{| raw_node := NOther "DeleteStmt"; stmt_location := 0; stmt_len := 13 |};
          {| raw_node := TransactionStmt TRANS_STMT_COMMIT false; stmt_location := 14; stmt_len := 0 |}]
  else if bool_decide (text = "COMMIT; DELETE FROM t") then
    Some [{| raw_node := TransactionStmt TRANS_STMT_COMMIT false; stmt_location := 0; stmt_len := 6 |};
          {| raw_node := NOther "DeleteStmt"; stmt_location := 7; stmt_len := 0 |}]
  else None.
Definition sample_render (node : console_node) : string :=
  match node with NOther "DeleteStmt" => "DELETE FROM t" | TransactionStmt TRANS_STMT_COMMIT _ => "COMMIT" | _ => "" end.


Lemma transaction_scripts_stay_inside_witness :
  validate_transaction_statements sample_parse sample_render 10 ["DELETE FROM t; COMMIT"] =
    Ok {| cts_statements := ["DELETE FROM t"]; cts_terminal_action := Some ActionCommit |} /\
  exists inside final, (fun item => raw_node item.2) <$> script_of sample_parse ["DELETE FROM t; COMMIT"] = inside ++ final /\ Forall stays_inside inside.
Proof.
  assert (validate_transaction_statements sample_parse sample_render 10 ["DELETE FROM t; COMMIT"] =
    Ok {| cts_statements := ["DELETE FROM t"]; cts_terminal_action := Some ActionCommit |}) as H by (vm_compute; reflexivity).
  split; [exact H|]. destruct (transaction_scripts_stay_inside sample_parse sample_render 10 ["DELETE FROM t; COMMIT"] _ H) as (inside & final & E1 & _ & E2 & _).
  by exists inside, final.
Defined.

(** ** A transaction *)

Definition tx_workspace : SchemiiWorkspace :=
  {| wk_id := console_ws; wk_revision := 1; wk_name := "Shop"; wk_connection_id := Some (tg_connection_id console_target); wk_connection_owner_id := None;
     wk_database := Some "shop"; wk_namespace := Some "public"; wk_tables := []; wk_column_orders := []; wk_import_summary := None;
     wk_created_at := 1; wk_updated_at := 1 |}.
Definition tx_profile : ConnectionTarget :=
  {| cn_id := tg_connection_id console_target; cn_revision := 1; cn_database := "shop"; cn_owner_id := None |}.
Definition tx_id : string := "ctx_" ++ console_hex.
Definition tx_read_only (statements : list string) : result ConsoleStatementValidationError (list string) := validate_read_only_statements sample_parse 10 statements.
Definition tx_script (statements : list string) : result ConsoleStatementValidationError ConsoleTransactionScript :=
  validate_transaction_statements sample_parse sample_render 10 statements.

Abbreviation sample_service_step honest := (service_step (raw := Z) (cursor := list Z) honest 2 1 100 50 60 600 3600 tx_read_only tx_script).

(** A transaction is opened at 10 and committed at 20. *)
Definition tx_opened_state : @ConsoleState Z (list Z) :=
  (service_create_transaction 100 600 3600 10 10 true console_hex "alice" console_ws (Some tx_workspace) (Some tx_profile) tx_profile
     (Ok ("object", 7%Z)) console_editor 1 1 (sw_state empty_service)).1.
Definition tx_opened : ServiceWorld :=
  {| sw_state := tx_opened_state; sw_opened := linked console_hex (Ok ("object", 7%Z)) tx_opened_state ++ []; sw_running := [] |}.
Definition tx_commit (receipt_saved : bool) := service_finish_transaction 20 20 20 20 true true true receipt_saved (Some tx_profile) "alice" console_ws tx_id 1 Commit
  (sw_state tx_opened).
Definition tx_committed (receipt_saved : bool) : ServiceWorld := in_state tx_opened (tx_commit receipt_saved).1.

Lemma tx_run honest receipt_saved : (honest = true -> receipt_saved = true) -> rtc (sample_service_step honest) empty_service (tx_committed receipt_saved).
Proof.
  intros Hsaved. apply (rtc_l _ _ tx_opened).
  - apply (do_create honest 2 1 100 50 60 600 3600 tx_read_only tx_script empty_service 10 10 true console_hex "alice" console_ws (Some tx_workspace) (Some tx_profile)
      tx_profile (Ok ("object", 7%Z)) console_editor 1 1); [reflexivity|]. intros o pid _. reflexivity.
  - apply rtc_once. by apply (do_finish honest 2 1 100 50 60 600 3600 tx_read_only tx_script tx_opened 20 20 20 20 true true true receipt_saved).
Defined.

Definition status_at (w : @ServiceWorld Z (list Z)) : option transaction_status := tx_status <$> dget tx_id (transactions_of (sw_state w)).



(** ** A receipt that was not stored *)

(** When the storage does not answer after a commit, the user is told that PostgreSQL
    committed.  The next request that needs the session reports that PostgreSQL rolled the
    transaction back, and expires its receipt. *)
Theorem unsaved_commit_reported_rolled_back :
  let later := service_finish_transaction 30 30 30 30 true true true true (Some tx_profile) "alice" console_ws tx_id 1 Commit (sw_state (tx_committed false)) in
  (tx_commit false).2 = Err (problem 503 "console_transaction_receipt_unavailable" "PostgreSQL committed, but its receipt could not be saved") /\
  (pt_end <$> dget "object" (cs_objects (sw_state (tx_committed false)))) = Some PgCommitted /\
  later.2 = Err (problem 409 "console_transaction_interrupted" "The server process owning this transaction ended; PostgreSQL rolled it back") /\
  (tx_status <$> dget tx_id (transactions_of later.1)) = Some TExpired.
Proof. split_and!; vm_compute; reflexivity. Qed.
