(* ===== verification/ConnectionSlots.v ===== *)
(** * Connection slots

    [_ConnectionCapacity] and [_LeasedConnection] of [common/postgres/gateway.py], and [_connect],
    which admits every PostgreSQL connection of the application.

    - A call of [acquire] that waits is given what other threads do to the counters before each
      of its wake-ups, as a list that ends at its deadline.
    - Reclaimers are callbacks of the owners of retained sessions; they are functions on the
      state of the gateway, which includes what the owners keep.
    - The identity of a connection is its profile with the revision. *)

From stdpp Require Import pretty relations.
From Stdlib Require Import Ascii String.
From S2P Require Import Prelude Json PyString.
Open Scope string_scope.
Open Scope Z_scope.

Set Default Proof Using "Type".

(** ** Counters *)

Record Capacity := {
  cap_total : Z;
  cap_connected : Z;
  cap_by_identity : list (string * Z);
  cap_retained_total : Z;
  cap_retained_by_identity : list (string * Z);
}.
Definition ConnectionCapacity : Capacity :=
  {| cap_total := 0; cap_connected := 0; cap_by_identity := []; cap_retained_total := 0; cap_retained_by_identity := [] |}.

(** [d.get(key, 0)]. *)
Definition count_of (key : string) (d : list (string * Z)) : Z := from_option id 0 (dget key d).

Section limits.
Variables (maximum_total maximum_per_identity : Z).

Definition retained_per_identity : Z := Z.max 1 (maximum_per_identity - 1).
Definition retained_limit : Z := Z.max 1 (maximum_total - 1).

(** The limit an admission runs into. *)
Definition reached (identity : string) (retained : bool) (c : Capacity) : option (string * Z * Z) :=
  let identity_count := count_of identity (cap_by_identity c) in
  let retained_identity := count_of identity (cap_retained_by_identity c) in
  if bool_decide (maximum_per_identity <= identity_count) then
    Some ("postgres.connections.maximum_per_identity", maximum_per_identity, identity_count)
  else if bool_decide (maximum_total <= cap_total c) then Some ("postgres.connections.maximum_total", maximum_total, cap_total c)
  else if retained && bool_decide (retained_per_identity <= retained_identity) then
    Some ("postgres.connections.maximum_per_identity", retained_per_identity, retained_identity)
  else if retained && bool_decide (retained_limit <= cap_retained_total c) then
    Some ("postgres.connections.maximum_total", retained_limit, cap_retained_total c)
  else None.

Definition take_slot (identity : string) (retained : bool) (c : Capacity) : Capacity :=
  {| cap_total := cap_total c + 1; cap_connected := cap_connected c;
     cap_by_identity := dset identity (count_of identity (cap_by_identity c) + 1) (cap_by_identity c);
     cap_retained_total := if retained then cap_retained_total c + 1 else cap_retained_total c;
     cap_retained_by_identity := if retained then dset identity (count_of identity (cap_retained_by_identity c) + 1) (cap_retained_by_identity c)
                                 else cap_retained_by_identity c |}.

(** [acquire]: [None] when a slot was taken. *)
Fixpoint acquire (identity : string) (retained : bool) (wakeups : list (Capacity -> Capacity)) (c : Capacity)
    : Capacity * option (string * Z * Z) :=
  match reached identity retained c with
  | None => (take_slot identity retained c, None)
  | Some limit =>
      match wakeups with
      | [] => (c, Some limit)
      | others :: rest => acquire identity retained rest (others c)
      end
  end.
End limits.

Definition connected (c : Capacity) : Capacity :=
  {| cap_total := cap_total c; cap_connected := cap_connected c + 1; cap_by_identity := cap_by_identity c;
     cap_retained_total := cap_retained_total c; cap_retained_by_identity := cap_retained_by_identity c |}.

(** One less, without entries that count nothing. *)
Definition less_one (identity : string) (d : list (string * Z)) : list (string * Z) :=
  if bool_decide (count_of identity d <= 1) then dpop identity d else dset identity (count_of identity d - 1) d.

Definition release (identity : string) (retained was_connected : bool) (c : Capacity) : Capacity :=
  let count := count_of identity (cap_by_identity c) in
  if bool_decide (count <= 0) then c else
  {| cap_total := cap_total c - 1;
     cap_connected := if was_connected then cap_connected c - 1 else cap_connected c;
     cap_by_identity := less_one identity (cap_by_identity c);
     cap_retained_total := if retained then cap_retained_total c - 1 else cap_retained_total c;
     cap_retained_by_identity := if retained then less_one identity (cap_retained_by_identity c) else cap_retained_by_identity c |}.

(** [snapshot]: permits, retained permits, ordinary permits, connections. *)
Definition snapshot (c : Capacity) : Z * Z * Z * Z :=
  (cap_total c, cap_retained_total c, cap_total c - cap_retained_total c, cap_connected c).

(** ** Leases *)

Record LeasedConnection := {
  lc_identity : string;
  lc_retained : bool;
  lc_closed : bool;
}.
(** [close]: the slot is given back even when closing the connection raises. *)
Definition close_lease (l : LeasedConnection) (c : Capacity) : LeasedConnection * Capacity :=
  if lc_closed l then (l, c)
  else ({| lc_identity := lc_identity l; lc_retained := lc_retained l; lc_closed := true |}, release (lc_identity l) (lc_retained l) true c).

(** ** Connecting *)

Inductive connect_error :=
| ConnectionCapacityError (limit_name : string) (limit observed : Z)
| ConnectionError
| DriverGatewayError (code : string).

Inductive lane := OrdinaryLane | MonitoringLane | ControlLane.

Section gateway.
Context {owners : Type}.
Variables (maximum_connections maximum_connections_per_identity : Z).

Record Gateway := {
  gw_ordinary : Capacity;
  gw_monitoring : Capacity;
  gw_control : Capacity;
  gw_owners : owners;
}.
Definition lane_capacity (l : lane) (g : Gateway) : Capacity :=
  match l with OrdinaryLane => gw_ordinary g | MonitoringLane => gw_monitoring g | ControlLane => gw_control g end.
Definition put_lane (l : lane) (c : Capacity) (g : Gateway) : Gateway :=
  {| gw_ordinary := match l with OrdinaryLane => c | _ => gw_ordinary g end;
     gw_monitoring := match l with MonitoringLane => c | _ => gw_monitoring g end;
     gw_control := match l with ControlLane => c | _ => gw_control g end; gw_owners := gw_owners g |}.
(** The limits of a lane. *)
Definition lane_limits (l : lane) : Z * Z :=
  match l with OrdinaryLane => (maximum_connections, maximum_connections_per_identity) | _ => (2, 1) end.

Definition lane_acquire (l : lane) (identity : string) (retained : bool) (wakeups : list (Capacity -> Capacity)) (g : Gateway)
    : Gateway * option (string * Z * Z) :=
  let '(c, out) := acquire (lane_limits l).1 (lane_limits l).2 identity retained wakeups (lane_capacity l g) in (put_lane l c g, out).

(** A reclaimer is given the connection, its revision and whether the limit on all connections
    was reached. *)
Abbreviation reclaimer := (string -> Z -> bool -> Gateway -> Gateway * bool).

(** [any(reclaimer(...) for reclaimer in ...)]. *)
Fixpoint any_reclaims (reclaimers : list reclaimer) (connection_id : string) (revision : Z) (global : bool) (g : Gateway) : Gateway * bool :=
  match reclaimers with
  | [] => (g, false)
  | r :: rest =>
      let '(g', reclaimed) := r connection_id revision global g in
      if reclaimed then (g', true) else any_reclaims rest connection_id revision global g'
  end.

(** The loop of [_connect] that reclaims; it ends with what the last [acquire] said.  [None] when
    the rounds do not suffice. *)
Fixpoint reclaim_loop (rounds : nat) (l : lane) (retained : bool) (reclaimers : list reclaimer) (connection_id : string) (revision : Z)
    (identity : string) (g : Gateway) (limit : option (string * Z * Z)) : option (Gateway * option (string * Z * Z)) :=
  match limit with
  | None => Some (g, None)
  | Some (limit_name, _, _) =>
      if retained && negb (bool_decide (length reclaimers = 0%nat)) then
        match any_reclaims reclaimers connection_id revision (bool_decide (limit_name = "postgres.connections.maximum_total")) g with
        | (g', false) => Some (g', limit)
        | (g', true) =>
            match rounds with
            | O => None
            | S rounds' =>
                let '(g'', limit') := lane_acquire l identity retained [] g' in
                reclaim_loop rounds' l retained reclaimers connection_id revision identity g'' limit'
            end
        end
      else Some (g, limit)
  end.

Definition connection_identity (connection_id : string) (revision : Z) : string := connection_id ++ ":" ++ pretty revision.

(** [_connect]: [opened] is what the driver answers. *)
Definition connect (rounds : nat) (l : lane) (retained : bool) (reclaimers : list reclaimer) (connection_id : string) (revision : Z)
    (wakeups : list (Capacity -> Capacity)) (opened : result connect_error unit) (g : Gateway)
    : option (Gateway * result connect_error LeasedConnection) :=
  let identity := connection_identity connection_id revision in
  let '(g, limit) := lane_acquire l identity retained [] g in
  match reclaim_loop rounds l retained reclaimers connection_id revision identity g limit with
  | None => None
  | Some (g, limit) =>
      let '(g, limit) := match limit with None => (g, None) | Some _ => lane_acquire l identity retained wakeups g end in
      match limit with
      | Some (limit_name, limit, observed) => Some (g, Err (ConnectionCapacityError limit_name limit observed))
      | None =>
          match opened with
          | Ok _ => Some (put_lane l (connected (lane_capacity l g)) g, Ok {| lc_identity := identity; lc_retained := retained; lc_closed := false |})
          | Err e => Some (put_lane l (release identity retained false (lane_capacity l g)) g, Err e)
          end
      end
  end.
End gateway.
Arguments Gateway : clear implicits.
