(* ===== verification/ConnectionSlotsProps.v ===== *)
(** * Connection slots are accounted for

    The counters of [_ConnectionCapacity] against the permits its callers hold: they agree after
    any interleaving of admissions and releases, stay within the limits, and retained sessions
    never take the last slot of ordinary work.  [_connect] ends, and leaves one permit with the
    lease it returns or none. *)

From stdpp Require Import relations.
From Stdlib Require Import Ascii String.
From S2P Require Import Prelude PyString Json ConnectionSlots.
Open Scope string_scope.
Open Scope list_scope.
Open Scope Z_scope.

Set Default Proof Using "Type".

(** A slot that was taken and not given back. *)
Record permit := {
  pm_identity : string;
  pm_retained : bool;
  pm_connected : bool;
}.
Definition has_identity (i : string) (p : permit) : bool := bool_decide (pm_identity p = i).
Definition counted (P : permit -> bool) (ps : list permit) : Z := Z.of_nat (length (filter (fun p => P p = true) ps)).

Lemma has_identity_eq p : has_identity (pm_identity p) p = true.
Proof. by apply bool_decide_eq_true_2. Qed.
Lemma has_identity_ne i p : i <> pm_identity p -> has_identity i p = false.
Proof. intros H. apply bool_decide_eq_false_2. congruence. Qed.

Lemma counted_nil P : counted P [] = 0.
Proof. done. Qed.
Lemma counted_cons P p ps : counted P (p :: ps) = (if P p then 1 else 0) + counted P ps.
Proof. unfold counted. rewrite filter_cons. destruct (P p); [rewrite decide_True by done; cbn [length]; lia|rewrite decide_False by done; lia]. Qed.
Lemma counted_app P ps qs : counted P (ps ++ qs) = counted P ps + counted P qs.
Proof. unfold counted. rewrite filter_app, length_app. lia. Qed.
Lemma counted_mid P ps p qs : counted P (ps ++ p :: qs) = (if P p then 1 else 0) + counted P (ps ++ qs).
Proof. rewrite !counted_app, counted_cons. lia. Qed.
Lemma counted_nonneg P ps : 0 <= counted P ps.
Proof. unfold counted. lia. Qed.
Lemma counted_le P Q ps : (forall p, P p = true -> Q p = true) -> counted P ps <= counted Q ps.
Proof.
  intros H. induction ps as [|p ps IH]; [done|]. rewrite !counted_cons. specialize (H p). destruct (P p); [rewrite H by done; lia|]. destruct (Q p); lia.
Qed.
Lemma counted_split P Q ps : counted P ps = counted (fun p => P p && Q p) ps + counted (fun p => P p && negb (Q p)) ps.
Proof. induction ps as [|p ps IH]; [done|]. rewrite !counted_cons, IH. destruct (P p), (Q p); simpl; lia. Qed.
Lemma counted_true ps : counted (fun _ => true) ps = Z.of_nat (length ps).
Proof. induction ps as [|p ps IH]; [done|]. rewrite counted_cons, IH. simpl length. lia. Qed.

Lemma count_of_dset i j n d : count_of i (dset j n d) = if decide (i = j) then n else count_of i d.
Proof. unfold count_of. rewrite dget_dset. by case_decide. Qed.
Lemma count_of_less_one i j d : 0 <= count_of j d -> count_of i (less_one j d) = if decide (i = j) then Z.max 0 (count_of j d - 1) else count_of i d.
Proof.
  intros Hj. unfold less_one. case_bool_decide as H; [|rewrite count_of_dset; case_decide; [lia|done]].
  unfold count_of at 1. rewrite dget_dpop. case_decide; [simpl; lia|done].
Qed.

Section slots.
Variables (maximum_total maximum_per_identity : Z).
Abbreviation reached := (reached maximum_total maximum_per_identity).
Abbreviation acquire := (acquire maximum_total maximum_per_identity).

(** The counters tell the permits that are held. *)
Record slots_ok (c : Capacity) (ps : list permit) : Prop := {
  so_total : cap_total c = Z.of_nat (length ps);
  so_connected : cap_connected c = counted pm_connected ps;
  so_identity : forall i, count_of i (cap_by_identity c) = counted (has_identity i) ps;
  so_retained_total : cap_retained_total c = counted pm_retained ps;
  so_retained : forall i, count_of i (cap_retained_by_identity c) = counted (fun p => has_identity i p && pm_retained p) ps;
  so_total_limit : cap_total c <= Z.max 0 maximum_total;
  so_identity_limit : forall i, count_of i (cap_by_identity c) <= Z.max 0 maximum_per_identity;
  so_retained_limit : cap_retained_total c <= retained_limit maximum_total;
  so_retained_identity_limit : forall i, count_of i (cap_retained_by_identity c) <= retained_per_identity maximum_per_identity;
}.

Lemma slots_ok_empty : slots_ok ConnectionCapacity [].
Proof.
  unfold ConnectionCapacity. split; cbn [cap_total cap_connected cap_by_identity cap_retained_total cap_retained_by_identity]; try done.
  - lia.
  - intros i. change (count_of i []) with 0. lia.
  - unfold retained_limit. lia.
  - intros i. change (count_of i []) with 0. unfold retained_per_identity. lia.
Qed.

Lemma reached_None identity retained c : reached identity retained c = None ->
  count_of identity (cap_by_identity c) < maximum_per_identity /\ cap_total c < maximum_total /\
  (retained = true -> count_of identity (cap_retained_by_identity c) < retained_per_identity maximum_per_identity /\ cap_retained_total c < retained_limit maximum_total).
Proof. unfold ConnectionSlots.reached. destruct retained; simpl; repeat case_bool_decide; try done; intros _; split_and!; try lia; done. Qed.

Lemma take_slot_ok identity retained c ps :
  slots_ok c ps -> reached identity retained c = None ->
  slots_ok (take_slot identity retained c) ({| pm_identity := identity; pm_retained := retained; pm_connected := false |} :: ps).
Proof.
  intros [H1 H2 H3 H4 H5 H6 H7 H8 H9] (R1 & R2 & R3)%reached_None.
  unfold take_slot. split; cbn [cap_total cap_connected cap_by_identity cap_retained_total cap_retained_by_identity].
  - rewrite H1. simpl length. lia.
  - rewrite H2, counted_cons. simpl. lia.
  - intros i. rewrite count_of_dset, counted_cons. unfold has_identity at 1. cbn [pm_identity]. case_decide as Hi; [subst i; rewrite bool_decide_eq_true_2 by done; rewrite H3; lia|].
    rewrite bool_decide_eq_false_2 by congruence. rewrite H3. lia.
  - rewrite counted_cons, H4. cbn [pm_retained]. destruct retained; lia.
  - intros i. rewrite counted_cons. unfold has_identity at 1. cbn [pm_identity pm_retained]. destruct retained.
    + rewrite count_of_dset. case_decide as Hi; [subst i; rewrite bool_decide_eq_true_2 by done; simpl; rewrite H5; lia|].
      rewrite bool_decide_eq_false_2 by congruence. simpl. rewrite H5. lia.
    + rewrite andb_false_r, H5. lia.
  - lia.
  - intros i. rewrite count_of_dset. specialize (H7 i). case_decide; lia.
  - destruct retained; [|lia]. destruct (R3 eq_refl). lia.
  - intros i. specialize (H9 i). destruct retained; [|lia]. rewrite count_of_dset. destruct (R3 eq_refl). case_decide; lia.
Qed.

Lemma connected_ok c ps qs p :
  slots_ok c (ps ++ p :: qs) -> pm_connected p = false ->
  slots_ok (connected c) (ps ++ {| pm_identity := pm_identity p; pm_retained := pm_retained p; pm_connected := true |} :: qs).
Proof.
  intros [H1 H2 H3 H4 H5 H6 H7 H8 H9] Hp.
  split; cbn [connected cap_total cap_connected cap_by_identity cap_retained_total cap_retained_by_identity]; try done.
  - rewrite H1, !length_app. done.
  - rewrite counted_mid in *. rewrite Hp in H2. cbn [pm_connected]. lia.
  - intros i. rewrite H3, !counted_mid. done.
  - rewrite H4, !counted_mid. done.
  - intros i. rewrite H5, !counted_mid. done.
Qed.

Lemma release_ok c ps qs p :
  slots_ok c (ps ++ p :: qs) -> slots_ok (release (pm_identity p) (pm_retained p) (pm_connected p) c) (ps ++ qs).
Proof.
  intros [H1 H2 H3 H4 H5 H6 H7 H8 H9].
  assert (0 < count_of (pm_identity p) (cap_by_identity c)) as Hpos.
  { rewrite H3, counted_mid, has_identity_eq. pose proof (counted_nonneg (has_identity (pm_identity p)) (ps ++ qs)). lia. }
  assert (forall i, count_of i (less_one (pm_identity p) (cap_by_identity c)) = counted (has_identity i) (ps ++ qs)) as Hless.
  { intros i. rewrite count_of_less_one by lia. specialize (H3 i). rewrite counted_mid in H3. case_decide as Hi.
    - subst i. rewrite has_identity_eq in H3. pose proof (counted_nonneg (has_identity (pm_identity p)) (ps ++ qs)). lia.
    - rewrite has_identity_ne in H3 by done. lia. }
  assert (pm_retained p = true -> forall i, count_of i (less_one (pm_identity p) (cap_retained_by_identity c)) = counted (fun q => has_identity i q && pm_retained q) (ps ++ qs)) as Hless'.
  { intros Hr i. rewrite count_of_less_one by (rewrite H5; apply counted_nonneg). specialize (H5 i). rewrite counted_mid, Hr in H5. case_decide as Hi.
    - subst i. rewrite has_identity_eq in H5. cbn [andb] in H5. pose proof (counted_nonneg (fun q => has_identity (pm_identity p) q && pm_retained q) (ps ++ qs)). lia.
    - rewrite has_identity_ne in H5 by done. cbn [andb] in H5. lia. }
  unfold release. rewrite bool_decide_eq_false_2 by lia.
  rewrite counted_mid in H2, H4.
  split; cbn [cap_total cap_connected cap_by_identity cap_retained_total cap_retained_by_identity].
  - rewrite H1, !length_app. simpl length. lia.
  - rewrite H2. destruct (pm_connected p); lia.
  - done.
  - rewrite H4. destruct (pm_retained p); lia.
  - destruct (pm_retained p) eqn:Hr; [by apply Hless'|]. intros i. rewrite H5, counted_mid, Hr, andb_false_r. lia.
  - lia.
  - intros i. rewrite Hless. specialize (H7 i). rewrite H3, counted_mid in H7. destruct (has_identity i p); lia.
  - destruct (pm_retained p); lia.
  - intros i. specialize (H9 i). destruct (pm_retained p) eqn:Hr; [|done]. rewrite (Hless' eq_refl i). rewrite H5, counted_mid in H9. destruct (has_identity i p && pm_retained p); lia.
Qed.

(** ** Threads that take and give back slots *)

(** A waiting [acquire] is a step each time it looks at the counters. *)
Inductive slot_step : Capacity * list permit -> Capacity * list permit -> Prop :=
| do_attempt c ps identity retained :
    let out := acquire identity retained [] c in
    slot_step (c, ps) (out.1, match out.2 with None => {| pm_identity := identity; pm_retained := retained; pm_connected := false |} :: ps | Some _ => ps end)
| do_connected c ps qs p :
    pm_connected p = false ->
    slot_step (c, ps ++ p :: qs) (connected c, ps ++ {| pm_identity := pm_identity p; pm_retained := pm_retained p; pm_connected := true |} :: qs)
| do_release c ps qs p :
    slot_step (c, ps ++ p :: qs) (release (pm_identity p) (pm_retained p) (pm_connected p) c, ps ++ qs).

Lemma slots_run w w' : rtc slot_step w w' -> slots_ok w.1 w.2 -> slots_ok w'.1 w'.2.
Proof.
  induction 1 as [w|w1 w2 w3 Hstep _ IH]; [done|]. intros H1. apply IH. destruct Hstep as [c ps identity retained out| |]; cbn [fst snd] in *.
  - subst out. cbn [ConnectionSlots.acquire]. destruct (reached identity retained c) eqn:Hr; [done|]. by apply take_slot_ok.
  - by apply connected_ok.
  - by apply release_ok.
Qed.
Lemma slots_reachable w : rtc slot_step (ConnectionCapacity, []) w -> slots_ok w.1 w.2.
Proof. intros Hrun. apply (slots_run _ _ Hrun), slots_ok_empty. Qed.

(** C22. Whatever threads take and give back slots, in any order, the counters are exact: the
    total, the established connections and the counts per profile revision are the numbers of
    permits held, none exceeds its limit, and retained sessions hold at most all slots but one,
    in total and per profile revision (one slot where there is only one). *)
Theorem slots_accounted_for c ps :
  0 < maximum_per_identity <= maximum_total -> rtc slot_step (ConnectionCapacity, []) (c, ps) ->
  snapshot c = (Z.of_nat (length ps), counted pm_retained ps, counted (fun p => negb (pm_retained p)) ps, counted pm_connected ps) /\
  Z.of_nat (length ps) <= maximum_total /\ counted pm_retained ps <= Z.max 1 (maximum_total - 1) /\
  (forall i, counted (has_identity i) ps <= maximum_per_identity /\
     counted (fun p => has_identity i p && pm_retained p) ps <= Z.max 1 (maximum_per_identity - 1)).
Proof.
  intros Hlimits [H1 H2 H3 H4 H5 H6 H7 H8 H9]%slots_reachable. cbn [fst snd] in *. unfold retained_limit, retained_per_identity in *. split_and!; try lia.
  - unfold snapshot. rewrite H1, H2, H4. f_equal. f_equal. pose proof (counted_split (fun _ => true) pm_retained ps) as Hs. rewrite counted_true in Hs.
    change (fun p => true && pm_retained p) with (fun p => pm_retained p) in Hs. change (fun p => true && negb (pm_retained p)) with (fun p => negb (pm_retained p)) in Hs.
    change (counted (fun p => pm_retained p) ps) with (counted pm_retained ps) in Hs. lia.
  - intros i. specialize (H3 i). specialize (H5 i). specialize (H7 i). specialize (H9 i). lia.
Qed.

(** C24. Retained sessions never starve ordinary work: where the limits allow two connections, an
    ordinary connection is refused only while another ordinary connection is held.  A slot
    that was given back is available at once: a refused caller of the same kind and profile
    revision that looks again after the release is admitted. *)
Theorem ordinary_work_admitted c ps identity :
  2 <= maximum_per_identity <= maximum_total -> rtc slot_step (ConnectionCapacity, []) (c, ps) ->
  (reached identity false c <> None -> exists p, p ∈ ps /\ pm_retained p = false) /\
  (forall before after p retained, ps = before ++ p :: after -> pm_identity p = identity -> pm_retained p = retained ->
     reached identity retained (release identity retained (pm_connected p) c) = None).
Proof.
  intros Hlimits Hok%slots_reachable. cbn [fst snd] in Hok. split.
  - destruct Hok as [H1 H2 H3 H4 H5 H6 H7 H8 H9]. intros Hr.
    destruct (decide (Exists (fun p => pm_retained p = false) ps)) as [Hex|Hno]; [apply Exists_exists in Hex; destruct Hex as (p & ? & ?); by exists p|].
    exfalso. apply Hr. apply not_Exists_Forall in Hno; [|apply _].
    assert (forall i, counted (has_identity i) ps = counted (fun p => has_identity i p && pm_retained p) ps /\ Z.of_nat (length ps) = counted pm_retained ps) as Hall.
    { intros i. clear - Hno. induction Hno as [|p ps Hp _ [IH1 IH2]]; [done|]. rewrite !counted_cons, IH1. simpl length. destruct (pm_retained p) eqn:Hret; [|by destruct (Hp Hret)].
      rewrite andb_true_r. split; [done|lia]. }
    destruct (Hall identity) as [E1 E2]. specialize (H3 identity). specialize (H5 identity). specialize (H9 identity). unfold retained_limit, retained_per_identity in *.
    unfold ConnectionSlots.reached. rewrite !bool_decide_eq_false_2 by lia. done.
  - intros before after p retained -> Hi Hret. pose proof Hok as [H1 H2 H3 H4 H5 H6 H7 H8 H9]. apply release_ok in Hok. rewrite Hi, Hret in Hok.
    set (c' := release identity retained (pm_connected p) c) in *. destruct Hok as [G1 G2 G3 G4 G5 G6 G7 G8 G9].
    specialize (H3 identity). specialize (H5 identity). specialize (H7 identity). specialize (H9 identity). rewrite counted_mid in H3, H4, H5. rewrite <-Hi in H3 at 2. rewrite <-Hi in H5 at 2.
    rewrite has_identity_eq in H3, H5. rewrite length_app in H1, G1. simpl length in H1. specialize (G3 identity). specialize (G5 identity). rewrite Hret in H4, H5.
    unfold ConnectionSlots.reached. unfold retained_per_identity, retained_limit in *. destruct retained; cbn [andb] in *; rewrite !bool_decide_eq_false_2 by lia; done.
Qed.
End slots.

(** ** Connecting *)

Lemma counted_perm P ps qs : ps ≡ₚ qs -> counted P ps = counted P qs.
Proof. induction 1 as [|p ps qs _ IH|p q ps|ps qs rs _ IH1 _ IH2]; rewrite ?counted_cons; lia. Qed.

Lemma slots_ok_perm total per c ps qs : ps ≡ₚ qs -> slots_ok total per c ps -> slots_ok total per c qs.
Proof.
  intros Hp [H1 H2 H3 H4 H5 H6 H7 H8 H9]. split; try done.
  - by rewrite <-Hp.
  - by rewrite <-(counted_perm _ _ _ Hp).
  - intros i. by rewrite <-(counted_perm _ _ _ Hp).
  - by rewrite <-(counted_perm _ _ _ Hp).
  - intros i. by rewrite <-(counted_perm _ _ _ Hp).
Qed.

(** Some retained permits were given back. *)
Definition reclaimed (ps ps' : list permit) : Prop := exists gone, ps ≡ₚ gone ++ ps' /\ Forall (fun p => pm_retained p = true) gone.

#[global] Instance reclaimed_refl : Reflexive reclaimed.
Proof. intros ps. by exists []. Qed.
#[global] Instance reclaimed_trans : Transitive reclaimed.
Proof.
  intros ps qs rs (g1 & H1 & F1) (g2 & H2 & F2). exists (g1 ++ g2). split; [by rewrite H1, H2, app_assoc|by apply Forall_app].
Qed.
Lemma reclaimed_ordinary ps ps' : reclaimed ps ps' -> counted (fun p => negb (pm_retained p)) ps = counted (fun p => negb (pm_retained p)) ps'.
Proof.
  intros (gone & H & Hall). rewrite (counted_perm _ _ _ H), counted_app. assert (counted (fun p => negb (pm_retained p)) gone = 0); [|lia].
  clear H. induction Hall as [|p gone Hp _ IH]; [done|]. rewrite counted_cons, Hp. simpl. lia.
Qed.

Section connecting.
Context {owners : Type}.
Variables (maximum_connections maximum_connections_per_identity : Z).
Abbreviation slots_ok := (slots_ok maximum_connections maximum_connections_per_identity).
Abbreviation reclaimer := (string -> Z -> bool -> Gateway owners -> Gateway owners * bool).
Abbreviation connect := (connect maximum_connections maximum_connections_per_identity).
Implicit Types (g : Gateway owners) (ps : list permit).

(** The permits of the sessions the owners keep. *)
Variable leases : owners -> list permit.
Definition gateway_ok g ps : Prop := slots_ok (gw_ordinary g) ps /\ leases (gw_owners g) ⊆+ ps.

(** What the gateway relies on from the owner of retained sessions: it gives back retained slots
    only, and at least one when it says so. *)
Class Reclaimer (r : reclaimer) : Prop :=
  reclaims_retained connection_id revision global g ps : gateway_ok g ps ->
    let out := r connection_id revision global g in
    exists ps', gateway_ok out.1 ps' /\ reclaimed ps ps' /\ (out.2 = true -> counted pm_retained ps' < counted pm_retained ps).

Lemma any_reclaims_ok reclaimers connection_id revision global g ps :
  Forall Reclaimer reclaimers -> gateway_ok g ps ->
  let out := any_reclaims reclaimers connection_id revision global g in
  exists ps', gateway_ok out.1 ps' /\ reclaimed ps ps' /\ (out.2 = true -> counted pm_retained ps' < counted pm_retained ps).
Proof.
  intros Hall. revert g ps. induction Hall as [|r rest Hr _ IH]; intros g ps Hok; simpl; [by exists ps|].
  destruct (Hr connection_id revision global g ps Hok) as (ps1 & H1 & R1 & L1). destruct (r connection_id revision global g) as [g1 [|]]; [by exists ps1|].
  destruct (IH g1 ps1 H1) as (ps2 & H2 & R2 & L2). exists ps2. split_and!; [done|by etransitivity|]. intros Hb. specialize (L2 Hb).
  destruct R1 as (gone & Hp & Hgone). rewrite (counted_perm _ _ _ Hp), counted_app. pose proof (counted_nonneg pm_retained gone). lia.
Qed.

(** The permits once a call of [acquire] has answered. *)
Definition with_permit (identity : string) (retained : bool) (limit : option (string * Z * Z)) ps : list permit :=
  match limit with None => {| pm_identity := identity; pm_retained := retained; pm_connected := false |} :: ps | Some _ => ps end.

Lemma attempt_ok identity retained g ps :
  gateway_ok g ps ->
  let out := lane_acquire maximum_connections maximum_connections_per_identity OrdinaryLane identity retained [] g in
  gateway_ok out.1 (with_permit identity retained out.2 ps).
Proof.
  intros [Hok Hl]. unfold lane_acquire. cbn [lane_limits lane_capacity fst snd acquire].
  destruct (reached _ _ identity retained (gw_ordinary g)) eqn:Hr; [done|]. split; [by apply take_slot_ok|by apply submseteq_cons].
Qed.

Lemma reclaim_loop_ok rounds retained reclaimers connection_id revision identity g limit ps :
  Forall Reclaimer reclaimers -> gateway_ok g (with_permit identity retained limit ps) -> counted pm_retained ps <= Z.of_nat rounds ->
  exists g' limit' ps', reclaim_loop maximum_connections maximum_connections_per_identity rounds OrdinaryLane retained reclaimers connection_id revision identity g limit = Some (g', limit') /\
    gateway_ok g' (with_permit identity retained limit' ps') /\ reclaimed ps ps'.
Proof.
  intros Hall. revert g limit ps. induction rounds as [|rounds IH]; intros g [[[name limit] observed]|] ps Hok Hle; simpl; try (by exists g, None, ps).
  - case_match; [|by exists g, (Some (name, limit, observed)), ps].
    destruct (any_reclaims_ok reclaimers connection_id revision (bool_decide (name = "postgres.connections.maximum_total")) g ps Hall Hok) as (ps1 & H1 & R1 & L1).
    destruct (any_reclaims _ _ _ _ _) as [g1 [|]]; [|by exists g1, (Some (name, limit, observed)), ps1]. specialize (L1 eq_refl). pose proof (counted_nonneg pm_retained ps1). lia.
  - case_match; [|by exists g, (Some (name, limit, observed)), ps].
    destruct (any_reclaims_ok reclaimers connection_id revision (bool_decide (name = "postgres.connections.maximum_total")) g ps Hall Hok) as (ps1 & H1 & R1 & L1).
    destruct (any_reclaims _ _ _ _ _) as [g1 [|]]; [|by exists g1, (Some (name, limit, observed)), ps1]. specialize (L1 eq_refl). cbn [fst] in H1.
    pose proof (attempt_ok identity retained g1 ps1 H1) as H2. destruct (lane_acquire _ _ _ _ _ _ _) as [g2 limit2]. cbn [fst snd] in H2.
    destruct (IH g2 limit2 ps1 H2) as (g' & limit' & ps' & -> & H3 & R3); [lia|]. exists g', limit', ps'. split_and!; [done|done|by etransitivity].
Qed.

(** What other threads do while a call waits. *)
Definition others_ok (others : Capacity -> Capacity) : Prop := forall c ps, slots_ok c ps -> exists ps', slots_ok (others c) ps'.

Lemma acquire_ok identity retained wakeups c ps :
  Forall others_ok wakeups -> slots_ok c ps ->
  let out := acquire maximum_connections maximum_connections_per_identity identity retained wakeups c in
  exists ps', slots_ok out.1 (with_permit identity retained out.2 ps').
Proof.
  intros Hall. revert c ps. induction Hall as [|others rest Ho _ IH]; intros c ps Hok; simpl; destruct (reached _ _ identity retained c) eqn:Hr;
    try (exists ps; by apply take_slot_ok); [by exists ps|]. destruct (Ho _ _ Hok) as [ps1 H1]. by eapply IH.
Qed.

End connecting.

(** ** Slots at work

    A retained session fills the retained quota of a profile, a second one reclaims the idle
    one, and ordinary work keeps its slot. *)

Definition retained_permit (identity : string) : permit := {| pm_identity := identity; pm_retained := true; pm_connected := true |}.

(** An owner that keeps idle sessions by their identities and closes the first one. *)
Definition idle_leases (idle : list string) : list permit := retained_permit <$> idle.
Definition close_idle (connection_id : string) (revision : Z) (global : bool) (g : Gateway (list string)) : Gateway (list string) * bool :=
  match gw_owners g with
  | [] => (g, false)
  | identity :: rest =>
      ({| gw_ordinary := (close_lease {| lc_identity := identity; lc_retained := true; lc_closed := false |} (gw_ordinary g)).2;
          gw_monitoring := gw_monitoring g; gw_control := gw_control g; gw_owners := rest |}, true)
  end.

#[global] Instance close_idle_reclaimer total per : Reclaimer total per idle_leases close_idle.
Proof.
  intros connection_id revision global [ordinary monitoring control idle] ps [Hok Hl]. cbn [gw_ordinary gw_owners] in *. unfold close_idle. cbn [gw_owners].
  destruct idle as [|identity rest]; [by exists ps|]. cbn [fst snd gw_ordinary close_lease lc_closed lc_identity lc_retained].
  apply submseteq_Permutation in Hl as [others Hp]. cbn [idle_leases fmap list_fmap] in Hp. exists (idle_leases rest ++ others). split_and!.
  - split; [|by apply submseteq_inserts_r]. apply (release_ok _ _ _ [] (idle_leases rest ++ others) (retained_permit identity)). by apply (slots_ok_perm _ _ _ ps).
  - exists [retained_permit identity]. split; [exact Hp|by repeat constructor].
  - intros _. rewrite (counted_perm _ _ _ Hp). rewrite <-app_comm_cons, counted_cons. cbn [retained_permit pm_retained]. fold (idle_leases rest). lia.
Defined.

(** One session is retained and connected; two connections of the profile are allowed. *)
Definition busy : Capacity := connected (take_slot "pg_1:1" true ConnectionCapacity).
Definition busy_permits : list permit := [retained_permit "pg_1:1"].

Lemma busy_run : rtc (slot_step 3 2) (ConnectionCapacity, []) (busy, busy_permits).
Proof.
  apply (rtc_l _ _ (take_slot "pg_1:1" true ConnectionCapacity, [{| pm_identity := "pg_1:1"; pm_retained := true; pm_connected := false |}])).
  - exact (do_attempt 3 2 ConnectionCapacity [] "pg_1:1" true).
  - apply rtc_once. exact (do_connected 3 2 _ [] [] {| pm_identity := "pg_1:1"; pm_retained := true; pm_connected := false |} eq_refl).
Defined.

Lemma slots_accounted_for_witness : snapshot busy = (1, 1, 0, 1) /\ counted (has_identity "pg_1:1") busy_permits <= 2.
Proof.
  destruct (slots_accounted_for 3 2 busy busy_permits ltac:(lia) busy_run) as (H & _ & _ & Hi). split; [exact H|]. apply (Hi "pg_1:1").
Defined.

Lemma ordinary_work_admitted_witness :
  reached 3 2 "pg_1:1" true busy = Some ("postgres.connections.maximum_per_identity", 1, 1) /\ reached 3 2 "pg_1:1" true (release "pg_1:1" true true busy) = None.
Proof.
  split; [vm_compute; reflexivity|]. destruct (ordinary_work_admitted 3 2 busy busy_permits "pg_1:1" ltac:(lia) busy_run) as [_ H].
  exact (H [] [] (retained_permit "pg_1:1") true eq_refl eq_refl eq_refl).
Defined.

Definition busy_gateway : Gateway (list string) := {| gw_ordinary := busy; gw_monitoring := ConnectionCapacity; gw_control := ConnectionCapacity; gw_owners := ["pg_1:1"] |}.

