(* ===== verification/ConsolePrepare.v ===== *)
(** * Running console statements

    [_execute_console_statements], which runs statements and keeps their rows within a limit, and
    [_prepare_statements], which opens the cursors of a read session, of
    [common/postgres/console/gateway.py].

    - What PostgreSQL does with a statement is an argument: the rows it sends one by one, and then
      the columns and the command tag, or an error of the driver.
    - [convert], [row_bytes] and [open_cursor] are those of [ConsoleSession]; [describe] gives the
      columns of a cursor as names and type OIDs, [type_names] what [_console_type_names] reads
      from the catalog.
    - The calls are those outside a turn of the assistant, where [check_query_authority] does
      nothing; progress reports are left out. *)

From stdpp Require Import pretty relations.
From Stdlib Require Import Ascii String.
From S2P Require Import Prelude PyString Json DesignModels ConsoleStore ConsoleSession ConsoleReaders ConsoleExamples ConsoleStatements.
Open Scope string_scope.

Set Default Proof Using "Type".

(** The message and the state the driver reports. *)
Definition driver_error : Type := option string * option string.

(** Rows, and how the statement ends. *)
Record StatementAnswer {raw : Type} := {
  sa_rows : list raw;
  sa_end : result driver_error (list (string * Z) * string);
}.
Arguments StatementAnswer : clear implicits.

(** The fields [ConsoleResultColumn] accepts. *)
Definition ConsoleResultColumn_check (c : ConsoleResultColumn) : bool := length_between 1 1024 (rc_name c) && length_between 1 256 (rc_data_type c).

(** [s.split(" ", 1)\[0\]]. *)
Definition first_word (s : string) : string := from_option id "" (head (py_split " "%char s)).

(** [s.removesuffix(";")]. *)
Fixpoint remove_semicolon (s : string) : string :=
  match s with
  | EmptyString => EmptyString
  | String c rest => if bool_decide (s = ";") then EmptyString else String c (remove_semicolon rest)
  end.

(** [_fixed_row_memory_bytes]. *)
Definition fixed_scalar_oids : list Z := [16; 20; 21; 23; 700; 701]%Z.
Definition fixed_row_memory_bytes (description : list (string * Z)) : option Z :=
  if bool_decide (length description = 0) || existsb (fun column => negb (bool_decide (column.2 ∈ fixed_scalar_oids))) description then None
  else Some (128 + 128 * Z.of_nat (length description))%Z.

Section preparing.
Context {raw cursor : Type}.
Variable convert : raw -> result (Z * Z) (list json).
Variable row_bytes : list json -> Z.
Variable open_cursor : string -> Z -> result driver_error cursor.
Variable describe : cursor -> list (string * Z).
Variable type_names : list Z -> result driver_error (list (Z * string)).
Variable parse_script : string -> option (list raw_stmt).

(** [except Exception as error]. *)
Definition rejected (statement_index : Z) (e : driver_error) : session_error :=
  PostgresConsoleQueryError (match e.1 with Some text => if bool_decide (text = "") then "PostgreSQL rejected the query" else text
                                          | None => "PostgreSQL rejected the query" end) statement_index e.2.

(** The columns of a result; a name or type the model refuses is one more exception. *)
Definition result_columns (statement_index : Z) (description : list (string * Z)) : result session_error (list ConsoleResultColumn) :=
  match type_names (snd <$> description) with
  | Err e => Err (rejected statement_index e)
  | Ok names =>
      let columns := (fun column => {| rc_name := column.1; rc_data_type := from_option id ("oid:" ++ pretty column.2)%string (dget column.2 names) |}) <$> description in
      if forallb ConsoleResultColumn_check columns then Ok columns else Err (rejected statement_index (None, None))
  end.

(** ** Materialized results *)

(** [consume], row by row. *)
Fixpoint consume_rows (maximum_result_bytes statement_index : Z) (raws : list raw) (rows : list (list json)) (result_bytes : Z)
    : result session_error (list (list json)) :=
  match raws with
  | [] => Ok rows
  | raw_row :: rest =>
      match convert raw_row with
      | Err (limit, observed) =>
          Err (PostgresConsoleLimitError statement_index "console_result_cell" "console.results.maximum_cell_bytes" limit observed)
      | Ok converted =>
          let bytes := row_bytes converted in
          if bool_decide (maximum_result_bytes < result_bytes + bytes)%Z then
            Err (PostgresConsoleLimitError statement_index "console_result_memory" "console.results.page_memory_bytes" maximum_result_bytes (result_bytes + bytes))
          else consume_rows maximum_result_bytes statement_index rest (rows ++ [converted])%list (result_bytes + bytes)
      end
  end.

(** One round of the loop of [_execute_console_statements]. *)
Definition execute_one_statement (maximum_result_bytes statement_index : Z) (answer : StatementAnswer raw) : result session_error ConsoleQueryResult :=
  (let! rows := consume_rows maximum_result_bytes statement_index (sa_rows answer) [] 0 in
   match sa_end answer with
   | Err e => Err (rejected statement_index e)
   | Ok (description, status_message) =>
       let! columns := result_columns statement_index description in
       Ok {| qr_statement_index := statement_index; qr_command := first_word status_message; qr_columns := columns; qr_rows := rows;
             qr_truncated := false; qr_row_count := None; qr_replayable := false |}
   end)%result.

Fixpoint execute_statements (maximum_result_bytes statement_index : Z) (answers : list (StatementAnswer raw)) : result session_error (list ConsoleQueryResult) :=
  match answers with
  | [] => Ok []
  | answer :: rest =>
      (let! first := execute_one_statement maximum_result_bytes statement_index answer in
       let! others := execute_statements maximum_result_bytes (statement_index + 1) rest in
       Ok (first :: others))%result
  end.
(** [answers] has what PostgreSQL does with each statement, in order. *)
Definition execute_console_statements (maximum_result_bytes : Z) (answers : list (StatementAnswer raw)) : result session_error (list ConsoleQueryResult) :=
  execute_statements maximum_result_bytes 0 answers.

(** ** Read sessions *)

Definition plain_reader (rows : list (list json)) : @ReadCursor raw cursor :=
  {| rd_cursor := None; rd_rows := rows; rd_statement := None; rd_position := 0; rd_pending := []; rd_export_cursor := None; rd_export_position := 0;
     rd_export_pending := []; rd_fixed_row_memory_bytes := None |}.
Definition cursor_reader (c : cursor) (query : string) : @ReadCursor raw cursor :=
  {| rd_cursor := Some c; rd_rows := []; rd_statement := Some query; rd_position := 0; rd_pending := []; rd_export_cursor := None; rd_export_position := 0;
     rd_export_pending := []; rd_fixed_row_memory_bytes := fixed_row_memory_bytes (describe c) |}.

(** One round of the loop of [_prepare_statements]; [answer] is for a statement that is no query. *)
Definition prepare_one (page_memory_bytes statement_index : Z) (statement : string) (answer : StatementAnswer raw)
    : result session_error (@ReadCursor raw cursor * ConsoleQueryResult) :=
  match parse_script statement with
  | None => Err (rejected statement_index (None, None))
  | Some parsed =>
      match parsed with
      | {| raw_node := SelectStmt _ |} :: _ =>
          let query := remove_semicolon (py_rstrip statement) in
          match open_cursor query statement_index with
          | Err e => Err (rejected statement_index e)
          | Ok c =>
              (let! columns := result_columns statement_index (describe c) in
               Ok (cursor_reader c query,
                   {| qr_statement_index := statement_index; qr_command := "SELECT"; qr_columns := columns; qr_rows := []; qr_truncated := false;
                      qr_row_count := None; qr_replayable := true |}))%result
          end
      | _ =>
          match execute_console_statements page_memory_bytes [answer] with
          | Err e => Err e
          | Ok [materialized] =>
              Ok (plain_reader (qr_rows materialized),
                  {| qr_statement_index := statement_index; qr_command := qr_command materialized; qr_columns := qr_columns materialized; qr_rows := [];
                     qr_truncated := qr_truncated materialized; qr_row_count := Some (Z.of_nat (length (qr_rows materialized))); qr_replayable := false |})
          | Ok _ => Err (rejected statement_index (None, None))
          end
      end
  end.

Fixpoint prepare_statements (page_memory_bytes statement_index : Z) (statements : list (string * StatementAnswer raw))
    : result session_error (list (Z * @ReadCursor raw cursor) * list ConsoleQueryResult) :=
  match statements with
  | [] => Ok ([], [])
  | (statement, answer) :: rest =>
      (let! one := prepare_one page_memory_bytes statement_index statement answer in
       let! others := prepare_statements page_memory_bytes (statement_index + 1) rest in
       Ok ((statement_index, one.1) :: others.1, one.2 :: others.2))%result
  end.

(** The constructor of a read session, which closes the connection when it raises. *)
Definition PsycopgConsoleReadSession (page_memory_bytes : Z) (statements : list (string * StatementAnswer raw))
    : result session_error (@ReadSession raw cursor * list ConsoleQueryResult) :=
  (let! prepared := prepare_statements page_memory_bytes 0 statements in
   Ok ({| ss_closed := false; ss_cancelled := false; ss_readers := prepared.1 |}, prepared.2))%result.

(** ** What was run is what is returned *)

#[local] Open Scope list_scope.

Definition total_bytes (rows : list (list json)) : Z := foldr Z.add 0%Z (row_bytes <$> rows).
Definition converted (raws : list raw) (rows : list (list json)) : Prop := Forall2 (fun r j => convert r = Ok j) raws rows.
(** The statement an error is reported for. *)
Definition error_index (e : session_error) : option Z :=
  match e with PostgresConsoleQueryError _ i _ | PostgresConsoleLimitError i _ _ _ _ => Some i | _ => None end.

Lemma next_index (i : Z) (k : nat) : (i + Z.of_nat (S k) = i + 1 + Z.of_nat k)%Z.
Proof. lia. Qed.

Lemma consume_rows_ok maximum i raws rows bytes out :
  consume_rows maximum i raws rows bytes = Ok out -> exists more, out = rows ++ more /\ converted raws more /\ (bytes + total_bytes more <= Z.max bytes maximum)%Z.
Proof.
  revert rows bytes. induction raws as [|r raws IH]; intros rows bytes; simpl.
  { intros [= <-]. exists []. rewrite app_nil_r. split_and!; [done|constructor|]. unfold total_bytes. simpl. lia. }
  destruct (convert r) as [j|[limit observed]] eqn:Hc; [|done]. case_bool_decide as Hle; [done|]. intros H. apply IH in H as (more & -> & Hmore & Hb).
  exists (j :: more). rewrite <-app_assoc. split_and!; [done|by constructor|]. unfold total_bytes in *. rewrite fmap_cons. cbn [foldr]. lia.
Qed.
Lemma consume_rows_error maximum i raws rows bytes e : consume_rows maximum i raws rows bytes = Err e -> error_index e = Some i.
Proof.
  revert rows bytes. induction raws as [|r raws IH]; intros rows bytes; simpl; [done|].
  destruct (convert r) as [j|[limit observed]]; [|by intros [= <-]]. case_bool_decide; [by intros [= <-]|apply IH].
Qed.
Lemma result_columns_error i description e : result_columns i description = Err e -> error_index e = Some i.
Proof. unfold result_columns. destruct (type_names _); [|by intros [= <-]]. destruct (forallb _ _); [done|by intros [= <-]]. Qed.
Lemma result_columns_ok i description columns : result_columns i description = Ok columns -> rc_name <$> columns = fst <$> description.
Proof. unfold result_columns. destruct (type_names _); [|done]. destruct (forallb _ _); [|done]. intros [= <-]. by rewrite <-list_fmap_compose. Qed.

(** A materialized result and what PostgreSQL did. *)
Definition materializes (maximum : Z) (answer : StatementAnswer raw) (rows : list (list json)) : Prop :=
  converted (sa_rows answer) rows /\ (total_bytes rows <= Z.max 0 maximum)%Z.

Lemma execute_one_ok maximum i answer r :
  execute_one_statement maximum i answer = Ok r ->
  qr_statement_index r = i /\ materializes maximum answer (qr_rows r) /\
  exists description tag, sa_end answer = Ok (description, tag) /\ rc_name <$> qr_columns r = fst <$> description /\ qr_command r = first_word tag.
Proof.
  unfold execute_one_statement. destruct (consume_rows _ _ _ _ _) as [rows|e] eqn:Hc; [|done]. cbn [result_bind].
  apply consume_rows_ok in Hc as (more & -> & Hmore & Hb). destruct (sa_end answer) as [[description tag]|e]; [|done].
  destruct (result_columns i description) as [columns|e] eqn:Hcol; [|done]. cbn [result_bind]. intros [= <-]. cbn. split_and!; [done|split; [done|lia]|].
  exists description, tag. split_and!; try done. by eapply result_columns_ok.
Qed.
Lemma execute_one_error maximum i answer e : execute_one_statement maximum i answer = Err e -> error_index e = Some i.
Proof.
  unfold execute_one_statement. destruct (consume_rows _ _ _ _ _) as [rows|e'] eqn:Hc; cbn [result_bind]; [|intros [= <-]; by eapply consume_rows_error].
  destruct (sa_end answer) as [[description tag]|e']; [|by intros [= <-]]. destruct (result_columns i description) as [columns|e'] eqn:Hcol; [done|].
  cbn [result_bind]. intros [= <-]. by eapply result_columns_error.
Qed.

Lemma execute_statements_ok maximum i answers results :
  execute_statements maximum i answers = Ok results ->
  length results = length answers /\ forall k answer r, answers !! k = Some answer -> results !! k = Some r -> execute_one_statement maximum (i + Z.of_nat k) answer = Ok r.
Proof.
  revert i results. induction answers as [|answer answers IH]; intros i results; simpl; [intros [= <-]; split; [done|by intros [|k]]|].
  destruct (execute_one_statement maximum i answer) as [first|e] eqn:Hone; [|done]. cbn [result_bind].
  destruct (execute_statements maximum (i + 1) answers) as [others|e] eqn:Hrest; [|done]. cbn [result_bind]. intros [= <-]. apply IH in Hrest as [Hlen Hall].
  split; [by simpl; rewrite Hlen|]. intros [|k] a r Ha Hr; [injection Ha as <-; injection Hr as <-; by rewrite Z.add_0_r|].
  specialize (Hall k a r Ha Hr). by rewrite next_index.
Qed.
Lemma execute_statements_error maximum i answers e :
  execute_statements maximum i answers = Err e ->
  exists k, k < length answers /\ error_index e = Some (i + Z.of_nat k)%Z /\
    forall j answer, j < k -> answers !! j = Some answer -> exists r, execute_one_statement maximum (i + Z.of_nat j) answer = Ok r.
Proof.
  revert i. induction answers as [|answer answers IH]; intros i; simpl; [done|].
  destruct (execute_one_statement maximum i answer) as [first|e'] eqn:Hone; cbn [result_bind].
  2: { intros [= <-]. exists 0. split_and!; [lia| |lia]. rewrite Z.add_0_r. by eapply execute_one_error. }
  destruct (execute_statements maximum (i + 1) answers) as [others|e'] eqn:Hrest; [done|]. cbn [result_bind]. intros [= <-].
  apply IH in Hrest as (k & Hk & He & Hall). exists (S k). split_and!; [lia|rewrite He; f_equal; lia|].
  intros [|j] a Hj Ha; [injection Ha as <-; exists first; by rewrite Z.add_0_r|]. destruct (Hall j a ltac:(lia) Ha) as [r Hr].
  exists r. by rewrite next_index.
Qed.


(** ** A session that was just opened *)

(** What a statement left in the session, and the result that was reported for it. *)
Definition prepared (page_memory_bytes i : Z) (statement : string) (answer : StatementAnswer raw) (reader : @ReadCursor raw cursor) (r : ConsoleQueryResult) : Prop :=
  qr_statement_index r = i /\ qr_rows r = [] /\ rd_position reader = 0%Z /\ rd_pending reader = [] /\ rd_export_cursor reader = None /\ rd_export_position reader = 0%Z /\
  if qr_replayable r then
    qr_row_count r = None /\ exists c, rd_statement reader = Some (remove_semicolon (py_rstrip statement)) /\ rd_cursor reader = Some c /\
      open_cursor (remove_semicolon (py_rstrip statement)) i = Ok c /\ rc_name <$> qr_columns r = fst <$> describe c
  else rd_cursor reader = None /\ rd_statement reader = None /\ qr_row_count r = Some (Z.of_nat (length (rd_rows reader))) /\
    materializes page_memory_bytes answer (rd_rows reader).

Lemma prepare_one_ok memory i statement answer reader r : prepare_one memory i statement answer = Ok (reader, r) -> prepared memory i statement answer reader r.
Proof.
  unfold prepare_one. destruct (parse_script statement) as [parsed|]; [|done].
  assert (match execute_console_statements memory [answer] with
    | Ok [m] => Ok (plain_reader (qr_rows m), {| qr_statement_index := i; qr_command := qr_command m; qr_columns := qr_columns m; qr_rows := []; qr_truncated := qr_truncated m;
        qr_row_count := Some (Z.of_nat (length (qr_rows m))); qr_replayable := false |})
    | Ok _ => Err (rejected i (None, None)) | Err e => Err e end = Ok (reader, r) -> prepared memory i statement answer reader r) as Hplain.
  { unfold execute_console_statements. destruct (execute_statements memory 0 [answer]) as [[|m []]|e] eqn:Hx; try done. intros [= <- <-].
    apply execute_statements_ok in Hx as [_ Hall]. specialize (Hall 0 answer m eq_refl eq_refl). apply execute_one_ok in Hall as (_ & Hm & _). unfold prepared. cbn. by split_and!. }
  destruct parsed as [|[[| | | | |] l n] rest]; try exact Hplain. clear Hplain. destruct (open_cursor _ i) as [c|e] eqn:Ho; [|done].
  destruct (result_columns i (describe c)) as [columns|e] eqn:Hcol; [|done]. cbn [result_bind]. intros [= <- <-]. unfold prepared. cbn. split_and!; try done.
  exists c. split_and!; try done. by eapply result_columns_ok.
Qed.

Lemma prepare_statements_ok memory i statements readers results :
  prepare_statements memory i statements = Ok (readers, results) ->
  length readers = length statements /\ length results = length statements /\
  forall k statement answer, statements !! k = Some (statement, answer) -> exists reader r, readers !! k = Some ((i + Z.of_nat k)%Z, reader) /\ results !! k = Some r /\
    prepared memory (i + Z.of_nat k) statement answer reader r.
Proof.
  revert i readers results. induction statements as [|[statement answer] rest IH]; intros i readers results; simpl; [intros [= <- <-]; split_and!; [done|done|by intros [|k]]|].
  destruct (prepare_one memory i statement answer) as [[reader r]|e] eqn:Hone; [|done]. cbn [result_bind].
  destruct (prepare_statements memory (i + 1) rest) as [[readers' results']|e] eqn:Hrest; [|done]. cbn [result_bind fst snd]. intros [= <- <-].
  apply IH in Hrest as (H1 & H2 & Hall). apply prepare_one_ok in Hone. split_and!; [by simpl; rewrite H1|by simpl; rewrite H2|].
  intros [|k] st a Hk; [injection Hk as <- <-; exists reader, r; rewrite Z.add_0_r; done|]. destruct (Hall k st a Hk) as (rd & q & E1 & E2 & E3).
  exists rd, q. by rewrite next_index.
Qed.

End preparing.

(** ** Opening at work

    A query followed by a SHOW, and how an error of such a script is numbered. *)

Definition prepare_parse (text : string) : option (list raw_stmt) :=
  if bool_decide (text = "SELECT n FROM numbers;") then Some [{| raw_node := SelectStmt false; stmt_location := 0; stmt_len := 0 |}]
  else Some [{| raw_node := VariableShowStmt; stmt_location := 0; stmt_len := 0 |}].
Definition prepare_describe (c : list Z) : list (string * Z) := [("n", 23%Z)].
Definition prepare_types (oids : list Z) : result driver_error (list (Z * string)) := Ok [(23%Z, "integer")].
Definition query_answer : StatementAnswer Z := {| sa_rows := []; sa_end := Ok ([], "") |}.
Definition show_answer : StatementAnswer Z := {| sa_rows := [7%Z]; sa_end := Ok ([("work_mem", 25%Z)], "SHOW") |}.
Definition failing_answer : StatementAnswer Z := {| sa_rows := []; sa_end := Err (Some "unrecognized configuration parameter", Some "42704") |}.
Abbreviation sample_prepare := (PsycopgConsoleReadSession sample_convert sample_bytes sample_cursor prepare_describe prepare_types prepare_parse 1000).
Definition sample_script : list (string * StatementAnswer Z) := [("SELECT n FROM numbers;", query_answer); ("SHOW work_mem", show_answer)].


(** The second statement of a script fails, and the error names the first: a statement that is no
    query is run by a nested call, which numbers from zero. *)
Theorem failing_statement_misnumbered :
  sample_prepare [("SELECT n FROM numbers;", query_answer); ("SHOW nonsense", failing_answer)] =
    Err (PostgresConsoleQueryError "unrecognized configuration parameter" 0 (Some "42704")).
Proof. vm_compute. reflexivity. Qed.
