(* ===== verification/ConsoleLibrary.v ===== *)
(** * Saved queries and query history

    The requests on saved queries and history of [schemii/console/models.py] and their handlers in
    [schemii/console/service.py], over the repository of [ConsoleStore].

    [workspace] is what the store of workspaces has; [casefold] is Python's [str.casefold]. *)

From stdpp Require Import pretty relations.
From Stdlib Require Import Ascii String.
From S2P Require Import Prelude Json PyString DesignModels WorkspaceStore ConsoleStore ConsoleProps ConsoleStatements ConsoleSession ConsoleResults ConsoleService.
Open Scope string_scope.

Set Default Proof Using "Type".

(** ** Requests *)

Record ConsoleSavedQueryCreate := {
  sqc_name : string;
  sqc_sql : string;
  sqc_starter : bool;
}.
(** The fields as they are submitted; they are stripped before they are checked. *)
Definition saved_query_create (name sql : string) (starter : bool) : option ConsoleSavedQueryCreate :=
  if QueryName (py_strip name) && QuerySql (py_strip sql)
  then Some {| sqc_name := py_strip name; sqc_sql := py_strip sql; sqc_starter := starter |} else None.

Record ConsoleSavedQueryUpdate := {
  squ_expected_revision : Z;
  squ_name : option string;
  squ_sql : option string;
}.
Definition saved_query_update (expected_revision : Z) (name sql : option string) : option ConsoleSavedQueryUpdate :=
  let name := py_strip <$> name in
  let sql := py_strip <$> sql in
  if bool_decide (1 <= expected_revision)%Z && optional_check QueryName name && optional_check QuerySql sql
     && (bool_decide (is_Some name) || bool_decide (is_Some sql))
  then Some {| squ_expected_revision := expected_revision; squ_name := name; squ_sql := sql |} else None.

Section library.
Context {raw cursor : Type}.
Abbreviation State := (@ConsoleState raw cursor).
Abbreviation service := (method State service_error).
Variable casefold : string -> string.
Variables (query_history_limit maximum_saved_queries_per_workspace : Z).

(** ** Handlers *)

(** [not s] of an optional text. *)
Definition absent_text (o : option string) : bool := match o with None => true | Some s => bool_decide (s = "") end.

(** [_require_workspace]. *)
Definition require_workspace (workspace : option SchemiiWorkspace) : result service_error unit :=
  match workspace with
  | None => Err (problem 404 "workspace_not_found" "Workspace was not found")
  | Some w =>
      guard_err (absent_text (wk_connection_id w) || absent_text (wk_database w) || absent_text (wk_namespace w))
        (problem 409 "console_target_required" "A database-backed workspace is required for SQL Console data")
  end.

(** [history]; [limit] is at least 1 where it is given. *)
Definition service_history (workspace : option SchemiiWorkspace) (owner_id workspace_id : string) (limit : option Z) : service (list ConsoleHistoryEntry) :=
  m_lift (require_workspace workspace) ;;*
  let effective_limit := match limit with Some n => Z.min query_history_limit n | None => query_history_limit end in
  if bool_decide (effective_limit = 0)%Z then m_return []
  else translated repository_error (repo_call (list_history owner_id workspace_id (Z.to_nat effective_limit))).

Definition service_saved_queries (workspace : option SchemiiWorkspace) (owner_id workspace_id : string) : service (list ConsoleSavedQuery) :=
  m_lift (require_workspace workspace) ;;*
  translated repository_error (repo_call (list_saved_queries owner_id workspace_id)).

(** [create_saved_query]. *)
Definition saved_query_limit (limit : Z) : service_error :=
  problem 409 "console_saved_query_limit_reached"
    ("This workspace already has " ++ pretty limit ++ " saved queries. Delete an unused saved query or ask the administrator to raise console.maximum_saved_queries_per_workspace.").
Definition service_create_saved_query (now : Z) (token : string) (workspace : option SchemiiWorkspace) (owner_id workspace_id : string)
    (request : ConsoleSavedQueryCreate) : service ConsoleSavedQuery :=
  m_lift (require_workspace workspace) ;;*
  translated (fun e => match e with ConsoleLimitReachedError _ limit _ => saved_query_limit limit | _ => repository_error e end)
    (repo_call (create_saved_query casefold token owner_id workspace_id (sqc_name request) (sqc_sql request) (sqc_starter request) now
                  maximum_saved_queries_per_workspace)).

Definition missing_query (e : console_error) : service_error :=
  match e with ConsoleNotFoundError => problem 404 "console_saved_query_not_found" "Saved query was not found" | _ => repository_error e end.
Definition service_update_saved_query (now : Z) (workspace : option SchemiiWorkspace) (owner_id workspace_id query_id : string)
    (request : ConsoleSavedQueryUpdate) : service ConsoleSavedQuery :=
  m_lift (require_workspace workspace) ;;*
  translated missing_query (repo_call (update_saved_query casefold owner_id workspace_id query_id (squ_expected_revision request) (squ_name request)
                                         (squ_sql request) now)).

Definition service_delete_saved_query (workspace : option SchemiiWorkspace) (owner_id workspace_id query_id : string) (expected_revision : Z) : service unit :=
  m_lift (require_workspace workspace) ;;*
  translated missing_query (repo_call (delete_saved_query owner_id workspace_id query_id expected_revision)).

(** ** The library *)

#[local] Open Scope list_scope.

Lemma filter_dset_new {A B} `{EqDecision A} (P : A * B -> Prop) `{forall x, Decision (P x)} k v (d : list (A * B)) :
  dget k d = None -> length (filter P (dset k v d)) = length (filter P d) + (if decide (P (k, v)) then 1 else 0).
Proof.
  induction d as [|[k' v'] d IH]; simpl; [intros _; rewrite filter_cons; by case_decide|]. destruct (decide (k = k')) as [Hk|Hk]; [done|]. intros Hn.
  rewrite !filter_cons. destruct (decide (P (k', v'))); simpl; by rewrite IH.
Qed.
Lemma filter_dset_same {A B} `{EqDecision A} (P : A * B -> Prop) `{forall x, Decision (P x)} k v v' (d : list (A * B)) :
  dget k d = Some v' -> (P (k, v) <-> P (k, v')) -> length (filter P (dset k v d)) = length (filter P d).
Proof.
  intros Hd HP. induction d as [|[k2 v2] d IH]; [done|]. simpl in *. case_decide as Hk.
  - injection Hd as ->. subst k2. rewrite !filter_cons. repeat case_decide; try tauto; done.
  - rewrite !filter_cons. case_decide; simpl; by rewrite IH.
Qed.

(** Every query is stored under its ID and passes its model, names differ within a workspace even
    in case, and no workspace has more queries than the limit. *)
Record library_ok (r : ConsoleRepo) : Prop := {
  lo_wf : dwf (cr_saved_queries r);
  lo_queries : forall k o q, dget k (cr_saved_queries r) = Some (o, q) -> k = sq_id q /\ ConsoleSavedQuery_check q = true;
  lo_names : forall k l o p q, dget k (cr_saved_queries r) = Some (o, p) -> dget l (cr_saved_queries r) = Some (o, q) ->
    sq_workspace_id p = sq_workspace_id q -> casefold (sq_name p) = casefold (sq_name q) -> k = l;
  lo_limit : forall owner ws, (Z.of_nat (length (library r owner ws)) <= Z.max 0 maximum_saved_queries_per_workspace)%Z;
}.

Lemma library_ok_set r s k o q :
  library_ok r -> cr_saved_queries s = dset k (o, q) (cr_saved_queries r) -> k = sq_id q -> ConsoleSavedQuery_check q = true ->
  (forall l p, dget l (cr_saved_queries r) = Some (o, p) -> l <> k -> sq_workspace_id p = sq_workspace_id q -> casefold (sq_name q) <> casefold (sq_name p)) ->
  (forall owner ws, (Z.of_nat (length (library s owner ws)) <= Z.max 0 maximum_saved_queries_per_workspace)%Z) -> library_ok s.
Proof.
  intros [H1 H2 H3 _] Hs Hk Hc Hn Hl. split; rewrite ?Hs; try done.
  - by apply dset_wf.
  - intros l o' q'. rewrite dget_dset. case_decide as Heq; [intros [= <- <-]; by subst|apply H2].
  - intros l1 l2 o' p1 p2. rewrite !dget_dset. case_decide as E1; case_decide as E2.
    + by subst.
    + intros [= <- <-] Hp Hw Hf. subst l1. by destruct (Hn l2 p2 Hp E2 (eq_sym Hw)).
    + intros Hp [= <- <-] Hw Hf. subst l2. by destruct (Hn l1 p1 Hp E1 Hw).
    + apply H3.
Qed.

Lemma create_keeps_library token owner ws name sql starter now r :
  library_ok r -> dget ("sq_" ++ token)%string (cr_saved_queries r) = None ->
  library_ok (create_saved_query casefold token owner ws name sql starter now maximum_saved_queries_per_workspace r).1.
Proof.
  intros Hr Hfresh. unfold create_saved_query. rewrite bind_get, bind_guard. case_bool_decide as Hlimit; [done|]. rewrite bind_guard.
  destruct (name_taken casefold name (library r owner ws)) eqn:Hn; [done|]. rewrite bind_guard. destruct (ConsoleSavedQuery_check _) eqn:Hc; [|done]. cbn [negb].
  rewrite bind_update. cbn [m_return fst]. set (q := {| sq_id := _ |}) in *. apply (library_ok_set r _ (sq_id q) owner q); try done.
  - intros l p Hp _ Hw. apply (free_name casefold name _ l (owner, p) Hn). apply in_library_elem; [exact Hp|done|done].
  - intros owner' ws'. unfold library at 1. cbn [put_saved_queries cr_saved_queries]. rewrite filter_dset_new by done. pose proof (lo_limit r Hr owner' ws') as Hle.
    unfold library in Hle at 1. case_decide as Hin; [|lia]. unfold in_library in Hin. cbn [fst snd] in Hin. apply andb_prop in Hin as [Ho Hw].
    apply bool_decide_eq_true in Ho, Hw. subst owner'. cbn in Hw. subst ws'. unfold library in Hlimit. lia.
Qed.

(** An updated query keeps its ID and its workspace, and what the request leaves out. *)
Lemma update_keeps_library owner ws id rev name sql now r :
  library_ok r -> optional_check QueryName name = true -> optional_check QuerySql sql = true ->
  library_ok (update_saved_query casefold owner ws id rev name sql now r).1.
Proof.
  intros Hr Hname Hsql. unfold update_saved_query, m_bind at 1. destruct (stored_query_spec owner ws id rev r) as [(q & -> & Hq & Hws & Hrev)|[e ->]]; [|done].
  rewrite bind_get, bind_guard. destruct (name_taken _ _ _) eqn:Hn; [done|]. rewrite bind_update. cbn [m_return fst]. set (u := {| sq_id := _ |}).
  destruct (lo_queries r Hr _ _ _ Hq) as [Hid Hc].
  apply (library_ok_set r _ id owner u); try done.
  - unfold ConsoleSavedQuery_check in *. cbn [u sq_id sq_workspace_id sq_revision sq_name sq_sql]. rewrite !andb_true_iff in *. destruct Hc as ((((C1 & C2) & C3) & C4) & C5).
    apply bool_decide_eq_true in C3. split_and!; [done|done|apply bool_decide_eq_true_2; lia| |]; [by destruct name|by destruct sql].
  - intros l p Hp Hl Hw. apply (free_name casefold _ _ l (owner, p) Hn). apply list_elem_of_filter. split; [exact Hl|]. apply in_library_elem; [exact Hp|done|]. cbn. by rewrite Hw, <-Hws.
  - intros owner' ws'. unfold library at 1. cbn [put_saved_queries cr_saved_queries]. rewrite (filter_dset_same _ id (owner, u) (owner, q)); [apply (lo_limit r Hr)|done|].
    done.
Qed.

Lemma delete_keeps_library owner ws id rev r : library_ok r -> library_ok (delete_saved_query owner ws id rev r).1.
Proof.
  intros Hr. unfold delete_saved_query, m_bind. destruct (stored_query_spec owner ws id rev r) as [(q & -> & Hq & _)|[e ->]]; [|done].
  cbn [m_update fst]. destruct Hr as [H1 H2 H3 H4]. split; cbn [put_saved_queries cr_saved_queries].
  - by apply dpop_wf.
  - intros k o p. rewrite dget_dpop. case_decide; [done|apply H2].
  - intros k l o p p'. rewrite !dget_dpop. do 2 (case_decide; [done|]). apply H3.
  - intros owner' ws'. specialize (H4 owner' ws'). unfold library in *. cbn [put_saved_queries cr_saved_queries].
    assert (length (filter (fun kv => in_library owner' ws' kv.2 = true) (dpop id (cr_saved_queries r))) <=
      length (filter (fun kv => in_library owner' ws' kv.2 = true) (cr_saved_queries r))); [|lia].
    unfold dpop. rewrite list_filter_filter. clear. induction (cr_saved_queries r) as [|kv l IH]; [done|]. rewrite !filter_cons.
    repeat case_decide; simpl; try tauto; lia.
Qed.

(** Requests of any users, with new tokens. *)
Inductive library_step (s : State) : State -> Prop :=
| do_create_query now token workspace owner ws name sql starter request :
    saved_query_create name sql starter = Some request -> dget ("sq_" ++ token)%string (cr_saved_queries (cs_repo s)) = None ->
    library_step s (service_create_saved_query now token workspace owner ws request s).1
| do_update_query now workspace owner ws id rev name sql request :
    saved_query_update rev name sql = Some request ->
    library_step s (service_update_saved_query now workspace owner ws id request s).1
| do_delete_query workspace owner ws id rev :
    library_step s (service_delete_saved_query workspace owner ws id rev s).1.

Lemma through_service {A} (P : ConsoleRepo -> Prop) workspace f (m : console_method A) (s : State) :
  P (cs_repo s) -> P (m (cs_repo s)).1 -> P (cs_repo (m_bind (m_lift (require_workspace workspace)) (fun _ => translated f (repo_call m)) s).1).
Proof.
  intros H1 H2. unfold m_bind, m_lift. destruct (require_workspace workspace) as [[]|e]; [|done]. unfold translated, repo_call.
  destruct (m (cs_repo s)) as [r out]. done.
Qed.

Lemma library_step_ok s s' : library_step s s' -> library_ok (cs_repo s) -> library_ok (cs_repo s').
Proof.
  intros [now token workspace owner ws name sql starter request Hreq Hfresh|now workspace owner ws id rev name sql request Hreq|workspace owner ws id rev] Hok.
  - apply (through_service library_ok); [done|]. by apply create_keeps_library.
  - apply (through_service library_ok); [done|]. unfold saved_query_update in Hreq. destruct (_ && _) eqn:Hc in Hreq; [|done]. injection Hreq as <-. rewrite !andb_true_iff in Hc.
    apply update_keeps_library; [done|apply Hc|apply Hc].
  - apply (through_service library_ok); [done|]. by apply delete_keeps_library.
Qed.

(** The library of saved queries stays in order, whatever requests users make: every query is
    stored under its ID and passes its model although updates check nothing, no two queries
    of a user's workspace have the same name up to case, no workspace exceeds its limit, and
    listing gives the queries of the user and workspace and no others, latest change first. *)
Theorem saved_queries_in_order (s s' : State) :
  rtc library_step s s' -> cr_saved_queries (cs_repo s) = [] ->
  library_ok (cs_repo s') /\
  forall workspace owner ws s'' listed, service_saved_queries workspace owner ws s' = (s'', Ok listed) ->
    s'' = s' /\ Sorted updated_first listed /\ forall q, q ∈ listed <-> (exists k, dget k (cr_saved_queries (cs_repo s')) = Some (owner, q) /\ sq_workspace_id q = ws).
Proof.
  intros Hrun Hempty. assert (library_ok (cs_repo s)) as Hok.
  { split; rewrite ?Hempty; [constructor|by intros|by intros|]. intros owner ws. unfold library. rewrite Hempty. rewrite filter_nil. simpl. lia. }
  clear Hempty. induction Hrun as [s|s1 s2 s3 Hstep _ IH]; [|apply IH; by eapply library_step_ok]. split; [done|].
  intros workspace owner ws s'' listed. unfold service_saved_queries, m_bind at 1, m_lift. destruct (require_workspace workspace) as [[]|e]; [|done].
  unfold translated, repo_call, list_saved_queries. rewrite bind_get. cbn [m_return]. intros [= <- <-]. split_and!; [by destruct s as [[] ? ? ?]| |].
  - apply Sorted_merge_sort. intros a b. unfold updated_first. destruct (Z.lt_trichotomy (sq_updated_at a) (sq_updated_at b)) as [|[Heq|]]; [right; left; lia| |left; left; lia].
    destruct (String.leb (sq_id b) (sq_id a)) eqn:Hle; [left; right; done|right; right]. split; [done|].
    destruct (String.leb_total (sq_id a) (sq_id b)) as [Ht|Ht]; congruence.
  - intros q. rewrite merge_sort_Permutation, list_elem_of_fmap. split.
    + intros ((k & o & q') & -> & [Hin Hel]%list_elem_of_filter). cbn [fst snd] in *. exists k. apply dget_elem_wf in Hel; [|apply Hok].
      unfold in_library in Hin. cbn [fst snd] in Hin. apply andb_prop in Hin as [Ho Hw]. apply bool_decide_eq_true in Ho, Hw. by subst.
    + intros (k & Hk & <-). exists (k, (owner, q)). split; [done|]. by apply in_library_elem.
Qed.
End library.

(** A saved query, and the same name in capitals, which is refused. *)
Definition library_hex : string := "0123456789abcdef0123456789abcdef".
Definition library_workspace : SchemiiWorkspace :=
  {| wk_id := "ws_" ++ library_hex; wk_revision := 1; wk_name := "Shop"; wk_connection_id := Some ("pg_" ++ library_hex); wk_connection_owner_id := None;
     wk_database := Some "shop"; wk_namespace := Some "public"; wk_tables := []; wk_column_orders := []; wk_import_summary := None;
     wk_created_at := 1; wk_updated_at := 1 |}.
Definition library_start : @ConsoleState Z Z := {| cs_repo := InMemoryConsoleRepository; cs_registry := empty_registry; cs_active := []; cs_objects := [] |}.
Definition library_request : ConsoleSavedQueryCreate := {| sqc_name := "Orders"; sqc_sql := "SELECT 1"; sqc_starter := false |}.
Definition library_saved := service_create_saved_query py_lower 10 5 library_hex (Some library_workspace) "alice" (wk_id library_workspace) library_request library_start.

Lemma saved_queries_in_order_witness :
  (exists q, library_saved.2 = Ok q) /\ library_ok py_lower 10 (cs_repo library_saved.1) /\
  (service_create_saved_query py_lower 10 6 "ffff456789abcdef0123456789abcdef" (Some library_workspace) "alice" (wk_id library_workspace)
     {| sqc_name := "ORDERS"; sqc_sql := "SELECT 2"; sqc_starter := false |} library_saved.1).2 =
    Err (problem 409 "console_saved_query_name_exists" "A saved query already uses this name").
Proof.
  split; [eexists; vm_compute; reflexivity|]. split; [|vm_compute; reflexivity].
  apply (saved_queries_in_order py_lower 10 library_start library_saved.1); [|reflexivity].
  apply rtc_once. apply (do_create_query py_lower 10 library_start 5 library_hex (Some library_workspace) "alice" (wk_id library_workspace) " Orders " "SELECT 1" false library_request);
    vm_compute; reflexivity.
Defined.
